(* ===== verification/_CoqProject ===== *)
-Q . S2P
Prelude.v
Text.v
Json.v
Floats.v
Net.v
CoreTypes.v
CoreGate.v
CoreAudit.v
KillChain.v
KillChainTracker.v
ShieldEscalation.v
ShieldFailover.v
ShieldSyn.v
ShieldRateLimiter.v
ShieldClassifier.v
ShieldFingerprint.v
ShieldLockdown.v
ShieldIngest.v
StoreKv.v
StoreDecisions.v
StoreTables.v
AgentSilence.v
AgentBreaker.v
AgentReportBudget.v
GuardProxy.v
Supervisor.v
SensorHost.v
SensorWindow.v
SensorAuth.v
SensorScan.v
SensorChannels.v
SensorTcpStream.v
AgentLifecycle.v
AgentLifecycleStore.v
AgentCooldown.v
AgentAllowlist.v
AgentGate.v
AgentSafelist.v
GuardThreats.v
GuardRules.v
GuardMcp.v
GuardRegistry.v
AgentManaged.v
AgentSafeguards.v
AgentContextGate.v
AgentDecisions.v
AgentOrphans.v
AgentLearned.v
AgentAutodismiss.v
AgentBlock.v
AgentAutoRules.v
AgentCorrelation.v
AgentTemporal.v
XdpBlocklist.v
AgentShield.v
AgentGateMonitor.v
ShieldDaemon.v
AgentGraph.v
AgentGraphTriggers.v
AgentGraphQueries.v
AgentGraphIngest.v
AgentGraphHistory.v
AgentEscalation.v
AgentNotify.v
AgentKillchain.v
Rfc6238.v
AgentTotp.v
AgentTwoFactor.v
AgentAllowFile.v
