(* ===== verification/Prelude.v ===== *)
(** * Inner Warden: a verified model of its detection and response core

    Inner Warden is a host security agent in Rust.  A sensor watches the
    kernel and the logs; the killchain crate turns its events into kill-chain
    incidents per process; the shield crate defends against floods; the agent
    decides what to do, under gates that keep an automatic response from doing
    harm; decisions go to an audit trail in SQLite; an MCP proxy guards the
    tools of AI agents; a supervisor keeps the agent running.  This library
    translates the core of these parts, under src/crates/, and proves what
    makes them correct.  All definitions are executable.

    ** Conventions

    - A w-bit integer is a [Z] with its wrap-around or saturation written out
      ([wrapping_add], [saturating_sub], ...; release builds do not check
      overflow).  Instants and durations are nanoseconds ([seconds],
      [num_seconds], [num_milliseconds]).  [f32] and [f64] are SpecFloat
      values (Floats.v).  Strings are their UTF-8 bytes (Text.v), JSON values
      are [Json] (Json.v).
    - A method that changes [self] returns the new state; a [Result] is
      [result], a panic is [None].  A [HashMap] is a [gmap]; where the code
      walks one and the order shows, the walk is the order of [map_to_list].
    - The clock, the network, the operating system, SHA-256, chrono's calendar
      text ([Chrono], [Calendar]) and serde's reading and writing are
      arguments.  SQLite is modelled by the meaning of the statements the code
      sends.  A component that calls the world through several doors takes a
      class of answers ([World], [BlockWorld], [ProcResolver], [RegexEngine]).
      One reading of the clock stands for those of one call, except where a
      theorem is about the time between them.  Log lines and tracing are left
      out.

    ** Files

    - Prelude.v (this file): tactics, the hint database [iw], results, machine
      integers, bit masks, time, lists.
    - Text.v, Json.v, Floats.v, Net.v: what the code uses of [str],
      [serde_json], the floating-point types and the addresses of std::net,
      with the lemmas about searching, splitting, printing and parsing.
    - CoreTypes.v (core/src/event.rs, incident.rs, entities.rs and the
      enforcement posture): the records every detector works on.
    - CoreGate.v (core/src/execution_gate.rs): the divergence verdict between
      the signed allowlist and the live kernel maps, and the parsers of the
      allowlist and of bpftool's output.  The verdict is proved equal to its
      specification.
    - CoreAudit.v (core/src/audit.rs): daily files of JSON lines in which each
      line holds the hash of the one before, once for the administrators' trail
      and the agent's: the file is the chain of what was appended, and its last
      line commits to all others; what the layout does not protect is proved
      too.
    - KillChain.v (killchain/src/patterns.rs): flags, patterns, matching and
      the f32 proximity; matching is exact, best_match is the most specific
      match, and the float tests decide bit containment.
    - KillChainTracker.v (killchain/src/types.rs, bridge.rs, tracker.rs): the
      per-process state and process_event, incidents included.  Reachable
      trackers are consistent, full matches are reported exactly once, an
      event reports exactly what it completes, reported C2 endpoints are
      public, cleanup is exact.
    - ShieldEscalation.v (shield/src/escalation.rs): the four-level state
      machine.  Its transitions form a path of immediate escalations and
      single, delayed de-escalations; calm samples do de-escalate; restore
      loses the incident counter.
    - ShieldFailover.v (shield/src/cloudflare_failover.rs): the proxy switch;
      it does not flap, and composed with the escalation engine it follows the
      attack.
    - ShieldSyn.v (shield/src/syn_tracker.rs): the SYN flood detector refines
      the log of its observations.
    - ShieldRateLimiter.v (shield/src/rate_limiter.rs): token bucket, sliding
      window, moving average and the limiter over them; it never panics on
      non-zero sub-window counts, its counters add up, blocks hold, cleanup is
      exact; two weaknesses are proved as theorems.
    - ShieldClassifier.v (shield/src/attack_classifier.rs): the attack
      classifier; active attacks are fresh and of distinct families, their
      identifiers unique.
    - ShieldFingerprint.v (shield/src/tcp_fingerprint.rs): bots and botnets by
      window size, TTL and timing; the history kept is the recent end of what was
      recorded, the classification exact.
    - ShieldLockdown.v (shield/src/origin_lockdown.rs): the origin lockdown over
      iptables and ipset (classes [Commands], [Netfilter]); what the rules
      of an activated lockdown do to IPv4 packets, which they drop, and what failing commands and restarts leave.
    - ShieldIngest.v (shield/src/ingest.rs): the log files the shield reads; every
      line once.
    - ShieldDaemon.v (shield/src/main.rs, the state of api.rs): the tick of the
      shield's own process, composed of all the shield's parts.
    - StoreKv.v (store/src/kv.rs): the key-value table, and the classes
      [KvStore] and [KvLaws] through which its clients are verified.
    - StoreDecisions.v (store/src/decisions.rs, run_retention of
      maintenance.rs): the audit trail and its hash chain: insertion keeps it
      intact, tampering is evident or the tampered rows hash alike, registered breaks
      make progress, pagination is complete; what the chain does not cover and
      how retention breaks it are theorems too.
    - StoreTables.v (store/src/incidents.rs, events.rs, cursors.rs, with the
      agent's reading of new incidents): every incident is read exactly once
      while nothing is deleted; the backfill of addresses ends; a page that does
      not read and a table that was emptied stop the reading.
    - AgentBreaker.v (agent/src/circuit_breaker.rs): the hourly block limit,
      against the interface of StoreKv.v: the decision of the n-th attempt of
      an hour, the reset.
    - AgentReportBudget.v (agent/src/abuseipdb_report_budget.rs): planning and
      dispatch of abuse reports, against the same interface: a flush keeps to
      the budget it reads, but the budget is not kept over a day.
    - GuardProxy.v (agent-guard/src/mcp_proxy/jsonrpc.rs, router.rs,
      enforce.rs): only refused tool calls are withheld, and each is answered.
    - Supervisor.v (supervisor/src): the loop as turns with the world's answers
      as inputs and effects as outputs: restarts are rate-limited, the health
      probe kills after three failures in a row, the loopback test is too
      generous.
    - SensorHost.v (sensor/src/detectors/mod.rs): the host inventory.
    - SensorWindow.v, SensorAuth.v, SensorScan.v (eight detectors of
      sensor/src/detectors): the sliding window with its threshold and
      suppression, once, and the detectors of failed logins, sudo, scans and
      container events as instances.  They refine the log of what they saw.
    - SensorChannels.v (sensor/src/event_channels.rs): three bounded lanes with
      a brown-out and a biased receiver.  Nothing is lost uncounted while the
      receiver is there, which takes each lane in order and returns after four turns at most.
    - SensorTcpStream.v (sensor/src/collectors/tcp_stream.rs): flow table,
      reassembly, protocol probe and frame parser; reassembly in order is exact,
      the new tail of an overlapping segment is dropped, the table keeps to its bound, the parser is total and inverts the encoder.
    - AgentLifecycle.v, AgentLifecycleStore.v (agent/src/response_lifecycle.rs,
      with the revert tick and the operator's drain): from the registration of
      a response to its revert, and its persistence.  The counters account for
      every registration, a tick is one pass over the entries, an expired entry
      leaves within three ticks unless its revert was under way when it was restored, a snapshot reads back.
    - AgentCooldown.v (agent/src/decision_cooldown.rs, state_store.rs): the
      cooldown keys and table.
    - AgentAllowlist.v, AgentGate.v (agent/src/allowlist.rs,
      incident_flow.rs, ai/mod.rs): which incidents reach the AI, exactly.
    - AgentSafelist.v (agent/src/cloud_safelist.rs): the ranges that are never
      blocked, and self traffic.
    - AgentSafeguards.v (agent/src/incident_untouchable.rs,
      incident_post_decision.rs, ip_reputation.rs): what becomes of a decision
      before it runs, and how long it silences its scope at the gate.
    - GuardThreats.v, GuardRules.v, GuardMcp.v (agent-guard/src/threats.rs,
      rules.rs, mcp.rs): the built-in patterns, the rule engine, the inspectors
      of the proxy of GuardProxy.v and the scored analysis of commands; which
      calls are withheld and which commands denied, exactly.
    - GuardRegistry.v (agent-guard/src/signatures.rs, session.rs,
      registry.rs): known agents, their registry across restarts, sessions.
    - AgentManaged.v (agent/src/managed_agent_guard.rs): when a process counts
      as a managed agent on its own business, against GuardRegistry.v.
    - AgentBlock.v (agent/src/decision_block_ip.rs, xdp_availability.rs): the
      execution of a block through the gates of the files above; only admitted
      blocks are enforced, at most twenty a minute; two defects are theorems.
    - AgentAutoRules.v (agent/src/incident_auto_rules.rs): the rules that block
      without the AI, through the gates of AgentBlock.v.
    - AgentContextGate.v (agent/src/ai/local_classifier.rs,
      warden_context_gate.rs): the on-device classifier and the gate that corrects
      it; a grave incident is closed only by a sure close that nothing speaks
      against.
    - AgentLearned.v (agent/src/learned_suppression.rs), AgentAutodismiss.v
      (agent/src/incident_autodismiss.rs), AgentSilence.v
      (agent/src/silent_stream_alarm.rs): what is dismissed as its likes were,
      what is dismissed on intake, and the alarm on a source that fell silent.
    - AgentDecisions.v (agent/src/decisions.rs): the agent's decision trail on
      CoreAudit.v, mirrored into StoreDecisions.v with retries.
    - AgentOrphans.v (agent/src/orphan_recovery.rs, needs_review_timeout.rs):
      the sweeps over StoreTables.v that decide what nobody decided: backlogs
      end, a grave incident is never dismissed without the decider's verdict,
      and its review is asked for until somebody answers.
    - AgentCorrelation.v (agent/src/correlation_engine.rs,
      correlation_engine_yaml/mod.rs): a reported chain has its stages in order, from matching events
      that share an entity within the rule's window.
    - AgentTemporal.v (agent/src/correlation.rs): the window of recent
      incidents, related pairs, clusters and the confidence boost.
    - XdpBlocklist.v (shield/src/xdp_manager.rs, the agent's skill and the
      sweep of loops/boot.rs): what the manager lists is in the kernel's map
      or was taken out by another of its writers, and what has expired leaves it.
    - AgentShield.v (agent/src/shield_inline.rs): the tick of the shield inside the
      agent, composed of the shield's parts; it never panics, its limits follow
      its state, and what has no influence on it.
    - AgentGateMonitor.v (agent/src/execution_gate_monitor.rs): the comparison of
      the live execution gate with the signed one; claims of its slots by
      interleaved threads are spaced, and a lasting drift is never silent.
    - AgentGraph.v, AgentGraphTriggers.v, AgentGraphQueries.v
      (agent/src/knowledge_graph/graph.rs, types.rs, triggers.rs): the graph of processes,
      files, addresses and incidents: nodes, edges with their adjacency and
      key indexes, compaction and eviction; the patterns checked on each new edge;
      walks and shortest paths.  Every sequence of operations keeps the indexes
      true to the nodes and edges, and no compaction is visible.
    - AgentGraphIngest.v (agent/src/knowledge_graph/ingestion.rs): how every
      kind of event, incident and decision is written into the graph, as programs
      in a monad over it; nothing that comes in breaks the graph or stops the
      agent while the ids of containers can be cut after twelve bytes, and the reverse shells of the triggers are never found in the sensor's events.
    - AgentGraphHistory.v (agent/src/kg_decide_features.rs,
      kg_fp_suppression.rs): what the past of an address does to its next
      incident; a critical one is neither lowered nor suppressed.
    - AgentEscalation.v (agent/src/correlation_response.rs): the direct blocks
      out of completed chains, repeated blocks and several techniques; each
      answer enforces nothing or the block of one admitted address alone.
    - AgentNotify.v (agent/src/notification_gate.rs):
      who is told of what, and the summaries of a burst.
    - AgentKillchain.v (agent/src/killchain_inline.rs, killchain/src/detector.rs): the agent's side of the kill chain of
      KillChainTracker.v, from the event to the kernel's block list, the
      dismissals and the operator's pages.
    - Rfc6238.v: SHA-1, HMAC, HOTP and TOTP as the standards define them; models
      no code and is the specification of the next file.
    - AgentTotp.v, AgentTwoFactor.v (agent/src/two_factor.rs and the Telegram
      commands behind it): SHA-1, HMAC, base32 and TOTP, all
      written out in the code and proved to be the standards' functions, and the
      gate: a privileged command runs only after
      the code of its own request, and guesses are bounded.
    - AgentAllowFile.v (agent/src/telegram/commands.rs): the text of the
      operator's allowlist and the history behind its undo menu.

    The path of an incident runs from the tables of StoreTables.v through
    AgentGate.v, AgentSafeguards.v and AgentBlock.v to AgentLifecycle.v, with
    its decision in AgentDecisions.v and what is left over in AgentOrphans.v;
    the theorems [decision_silences_scope],
    [safeguarded_block_never_downgraded] and [reblock_unregistered] are about
    these parts together.

    ** Bounds and fuel

    Functions with fuel take the length of their input, which is enough since
    each step consumes a byte ([iter_strip], [utf8_lossy], [words_go]); the
    pages of the audit view take one step more than there are rows; a receive
    of the sensor's lanes takes four turns, since each turn either returns or
    closes a lane; SHA-1's padding takes at most 64 zeros and the base32 encoder
    writes at most three characters for a byte; a walk over the graph takes two steps more than twice its
    edges ([walk_fuel]), since no node is queued twice.  Calls on a lane are atomic.  Theorems
    that need a counter below 2^64 (or 2^32) say so in terms of the number of
    operations.

    ** Not modelled

    The dashboard, Telegram, reports, the detectors and snapshots of the
    knowledge graph and the neural models (presentation and statistics), the
    eBPF programs, the collectors and most detectors of the sensor, the command
    line, the skills that run external commands, the honeypot, the network and
    file glue of the shield and of the MCP transport, and the YAML reader of the
    rules.  Next in line: the agent's trust scores. *)

From Stdlib Require Import ZArith Lia Ascii String.
From stdpp Require Import prelude strings pretty gmap list sorting.

Declare Scope iw_scope.
Delimit Scope iw_scope with iw.
Open Scope Z_scope.

Create HintDb iw discriminated.

(** ** Tactics shared by every file *)

(** Split every [match]/[if] of the goal and solve what is contradictory. *)
Ltac split_cases := repeat (case_match; simplify_eq/=); try done.

(** Turn the boolean tests of the source into propositions lia understands. *)
Ltac bool_to_prop :=
  repeat match goal with
  | H : (_ && _)%bool = true |- _ => apply andb_true_iff in H as [??]
  | H : (_ || _)%bool = false |- _ => apply orb_false_iff in H as [??]
  | H : negb _ = true |- _ => apply negb_true_iff in H
  | H : negb _ = false |- _ => apply negb_false_iff in H
  | H : Z.leb _ _ = true |- _ => apply Z.leb_le in H
  | H : Z.leb _ _ = false |- _ => apply Z.leb_gt in H
  | H : Z.ltb _ _ = true |- _ => apply Z.ltb_lt in H
  | H : Z.ltb _ _ = false |- _ => apply Z.ltb_ge in H
  | H : Z.eqb _ _ = true |- _ => apply Z.eqb_eq in H
  | H : Z.eqb _ _ = false |- _ => apply Z.eqb_neq in H
  | H : bool_decide _ = true |- _ => apply bool_decide_eq_true_1 in H
  | H : bool_decide _ = false |- _ => apply bool_decide_eq_false_1 in H
  end.

(** ** Results: Rust's [Result<A, E>] *)

Inductive result (A E : Type) : Type :=
| Ok (a : A)
| Err (e : E).
Arguments Ok {A E} a.
Arguments Err {A E} e.

#[export] Instance result_eq_dec {A E} `{EqDecision A, EqDecision E} : EqDecision (result A E).
Proof. solve_decision. Defined.

Definition result_ok {A E} (r : result A E) : option A :=
  match r with Ok a => Some a | Err _ => None end.

(** ** Machine integers
    A [w]-bit unsigned integer is a [Z] in [0, 2^w); arithmetic that can
    leave the range writes its wrap-around or saturation out. *)

Definition wrap (w z : Z) : Z := z mod 2 ^ w.
Definition in_width (w z : Z) : Prop := 0 <= z < 2 ^ w.
Definition wrapping_add (w a b : Z) : Z := wrap w (a + b).
Definition wrapping_sub (w a b : Z) : Z := wrap w (a - b).
Definition saturating_add (w a b : Z) : Z := Z.min (a + b) (2 ^ w - 1).
Definition saturating_sub (a b : Z) : Z := Z.max 0 (a - b).
Definition u64_max : Z := 2 ^ 64 - 1.

(** Reinterpret a [w]-bit pattern as two's complement ([as i32] and the like). *)
Definition as_signed (w z : Z) : Z := if z <? 2 ^ (w - 1) then z else z - 2 ^ w.

Lemma wrap_range w z : 0 <= w -> in_width w (wrap w z).
Proof. intros; unfold in_width, wrap. apply Z.mod_pos_bound. lia. Qed.

Lemma wrap_small w z : in_width w z -> wrap w z = z.
Proof. intros [??]. by apply Z.mod_small. Qed.

Lemma wrapping_add_small w a b : in_width w (a + b) -> wrapping_add w a b = a + b.
Proof. apply wrap_small. Qed.

#[export] Hint Resolve wrap_range wrap_small wrapping_add_small : iw.

(** [count_ones] of an unsigned integer. *)
Fixpoint pos_ones (p : positive) : Z :=
  match p with
  | xH => 1
  | xO q => pos_ones q
  | xI q => 1 + pos_ones q
  end.

Definition count_ones (z : Z) : Z :=
  match z with Zpos p => pos_ones p | _ => 0 end.

Lemma count_ones_nonneg z : 0 <= count_ones z.
Proof. destruct z; simpl; try lia. induction p; simpl; lia. Qed.

(** ** Bit masks: [flags & mask == mask] *)

Definition has_bits (flags mask : Z) : bool := Z.land flags mask =? mask.

Lemma has_bits_spec flags mask :
  has_bits flags mask = true <->
  forall i, Z.testbit mask i = true -> Z.testbit flags i = true.
Proof.
  unfold has_bits. rewrite Z.eqb_eq. split.
  - intros H i Hi. rewrite <- H, Z.land_spec in Hi. by apply andb_true_iff in Hi as [??].
  - intros H. apply Z.bits_inj'. intros i _. rewrite Z.land_spec.
    destruct (Z.testbit mask i) eqn:E; [by rewrite (H i E) | by rewrite andb_false_r].
Qed.

Lemma has_bits_lor_mono flags extra mask :
  has_bits flags mask = true -> has_bits (Z.lor flags extra) mask = true.
Proof.
  rewrite !has_bits_spec. intros H i Hi. rewrite Z.lor_spec, (H i Hi). done.
Qed.

#[export] Hint Resolve has_bits_lor_mono : iw.

(** Shifting in a digit is arithmetic. *)
Lemma lor_shiftl_add a b k : 0 <= k -> 0 <= b < 2 ^ k -> Z.lor (Z.shiftl a k) b = a * 2 ^ k + b.
Proof.
  intros Hk Hb. rewrite <- Z.shiftl_mul_pow2 by done. symmetry.
  assert (Z.land (Z.shiftl a k) b = 0) as H.
  { apply Z.bits_inj'. intros i Hi. rewrite Z.land_spec, Z.bits_0, Z.shiftl_spec by done.
    destruct (Z.lt_ge_cases i k); [by rewrite Z.testbit_neg_r by lia|].
    rewrite <- (Z.mod_small b (2 ^ k)), Z.mod_pow2_bits_high, andb_false_r by lia. done. }
  rewrite Z.add_nocarry_lxor by done. by apply Z.lxor_lor.
Qed.

(** ** Time: [DateTime<Utc>] and [Duration] as nanoseconds
    chrono counts a whole number of nanoseconds; [num_seconds] and
    [num_milliseconds] are the number of whole units, truncated toward zero,
    and [timestamp_millis] is the floor of the instant in milliseconds. *)

Definition NANOS_PER_SEC : Z := 1000000000.
Definition NANOS_PER_MILLI : Z := 1000000.
Definition seconds (n : Z) : Z := n * NANOS_PER_SEC.
Definition num_seconds (d : Z) : Z := Z.quot d NANOS_PER_SEC.
Definition num_milliseconds (d : Z) : Z := Z.quot d NANOS_PER_MILLI.
Definition timestamp_millis (t : Z) : Z := t / NANOS_PER_MILLI.
Definition from_timestamp_millis (ms : Z) : Z := ms * NANOS_PER_MILLI.

Lemma num_seconds_gt d n : 0 <= n -> num_seconds d > n <-> seconds (n + 1) <= d.
Proof.
  unfold num_seconds, seconds, NANOS_PER_SEC. intros Hn. split; intros H.
  - destruct (Z.lt_ge_cases d 0).
    + assert (Z.quot d 1000000000 <= 0); [|lia].
      rewrite <- (Z.opp_involutive d), Z.quot_opp_l by lia.
      pose proof (Z.quot_pos (- d) 1000000000). lia.
    + rewrite Z.quot_div_nonneg in H by lia.
      pose proof (Z.mul_div_le d 1000000000). lia.
  - rewrite Z.quot_div_nonneg by lia.
    assert (n + 1 <= d / 1000000000); [|lia].
    apply Z.div_le_lower_bound; lia.
Qed.

(** Calendar text is chrono's: parsing an RFC 3339 instant, printing one
    ([to_rfc3339]) and printing it to the minute ([%Y-%m-%dT%H:%MZ]). *)
Class Chrono := {
  parse_utc : string -> option Z;
  to_rfc3339 : Z -> string;
  fmt_minute : Z -> string;
}.

(** ** Lists *)

(** [Vec::retain] / [Iterator::any] / [Iterator::position] on booleans. *)
Definition retain {A} (p : A -> bool) (l : list A) : list A := List.filter p l.
Definition any {A} (p : A -> bool) (l : list A) : bool := List.existsb p l.
Definition sumZ (l : list Z) : Z := foldr Z.add 0 l.

Lemma sumZ_app l k : sumZ (l ++ k) = sumZ l + sumZ k.
Proof. induction l; simpl; [done|]. unfold sumZ in *. lia. Qed.

Lemma sumZ_nonneg l : Forall (Z.le 0) l -> 0 <= sumZ l.
Proof. unfold sumZ. induction 1; cbn [foldr]; lia. Qed.

Lemma any_true {A} (p : A -> bool) l : any p l = true <-> exists x, x ∈ l /\ p x = true.
Proof.
  unfold any. rewrite List.existsb_exists.
  split; intros (x & H & ?); exists x; (split; [by apply list_elem_of_In|done]).
Qed.

Lemma retain_elem {A} (p : A -> bool) l x : x ∈ retain p l <-> x ∈ l /\ p x = true.
Proof.
  unfold retain. rewrite !list_elem_of_In. apply List.filter_In.
Qed.

Lemma find_is_Some {A} (p : A -> bool) l : is_Some (List.find p l) <-> exists x, x ∈ l /\ p x = true.
Proof.
  destruct (List.find p l) as [x|] eqn:E.
  - apply List.find_some in E as [Hin Hp]. rewrite <- list_elem_of_In in Hin. split; [by exists x|by eexists].
  - split; [by intros [??]|]. intros (x & Hin%list_elem_of_In & Hp).
    pose proof (List.find_none _ _ E x Hin). congruence.
Qed.

Lemma forallb_elem {A} (p : A -> bool) l : forallb p l = true <-> forall x, x ∈ l -> p x = true.
Proof. rewrite forallb_forall. by setoid_rewrite <- list_elem_of_In. Qed.

Lemma list_filter_none {A} (p : A -> bool) l : (forall x, x ∈ l -> p x = false) -> retain p l = [].
Proof.
  unfold retain. induction l as [|x l IH]; intros H; simpl; [done|].
  rewrite (H x) by left. apply IH. intros y ?. apply H. by right.
Qed.

Lemma retain_length {A} (p : A -> bool) l : (length (retain p l) <= length l)%nat.
Proof. apply List.filter_length_le. Qed.

Lemma retain_NoDup {A} (p : A -> bool) l : NoDup l -> NoDup (retain p l).
Proof.
  unfold retain. induction 1 as [|x l Hx Hl IH]; simpl; [constructor|].
  case_match; [|done]. constructor; [|done].
  rewrite list_elem_of_In, List.filter_In, <- list_elem_of_In. naive_solver.
Qed.

(** A deque whose front is popped while it satisfies [p]. *)
Fixpoint drop_while {A} (p : A -> bool) (l : list A) : list A :=
  match l with
  | [] => []
  | x :: r => if p x then drop_while p r else l
  end.

Lemma retain_all {A} (p : A -> bool) l : Forall (fun x => p x = true) l -> retain p l = l.
Proof. induction 1 as [|x l Hx _ IH]; [done|]. unfold retain in *. simpl. by rewrite Hx, IH. Qed.

Section drop_while.
Context {A : Type} (p : A -> bool).

Lemma drop_while_suffix l : drop_while p l `suffix_of` l.
Proof.
  induction l as [|x l IH]; [done|]. simpl. case_match; [|done].
  by apply suffix_cons_r.
Qed.

Lemma drop_while_head l x r : drop_while p l = x :: r -> p x = false.
Proof. induction l as [|y l IH]; [done|]. simpl. case_match; naive_solver. Qed.

Lemma drop_while_Forall (P : A -> Prop) l : Forall P l -> Forall P (drop_while p l).
Proof.
  intros H. destruct (drop_while_suffix l) as [k Hk].
  rewrite Hk in H. by apply Forall_app in H as [??].
Qed.

(** When the predicate is downward closed along the deque, popping the front
    is the same as filtering. *)
Lemma drop_while_retain l :
  StronglySorted (fun x y => p y = true -> p x = true) l ->
  drop_while p l = retain (fun x => negb (p x)) l.
Proof.
  induction 1 as [|x l Hl IH Hx]; [done|].
  unfold retain in *; simpl. destruct (p x) eqn:E; simpl; [done|].
  f_equal. symmetry. apply (retain_all (fun x => negb (p x))).
  eapply Forall_impl; [exact Hx|]. simpl. intros y Hy. destruct (p y); naive_solver.
Qed.
End drop_while.

#[export] Hint Resolve drop_while_suffix drop_while_Forall retain_length retain_NoDup : iw.

(** Membership of a string in a list, as [Vec::contains]. *)
Definition mem_str (s : string) (l : list string) : bool := bool_decide (s ∈ l).

Lemma mem_str_true s l : mem_str s l = true <-> s ∈ l.
Proof. unfold mem_str. apply bool_decide_eq_true. Qed.

Lemma mem_str_false s l : mem_str s l = false <-> s ∉ l.
Proof. unfold mem_str. apply bool_decide_eq_false. Qed.

(** The last element attaining the maximum key, as Rust's [max_by_key]. *)
Fixpoint max_by_key {A} (key : A -> Z) (l : list A) : option A :=
  match l with
  | [] => None
  | x :: r =>
      match max_by_key key r with
      | Some y => if key y <? key x then Some x else Some y
      | None => Some x
      end
  end.

Lemma max_by_key_None {A} (key : A -> Z) l : max_by_key key l = None <-> l = [].
Proof. destruct l; simpl; [done|]. by split; [repeat case_match|]. Qed.

Lemma max_by_key_Some {A} (key : A -> Z) l x :
  max_by_key key l = Some x -> x ∈ l /\ forall y, y ∈ l -> key y <= key x.
Proof.
  revert x. induction l as [|a l IH]; simpl; [done|]. intros x.
  destruct (max_by_key key l) as [b|] eqn:E.
  - destruct (IH b eq_refl) as [Hb Hmax].
    destruct (key b <? key a) eqn:C; intros [= <-]; bool_to_prop.
    + split; [left|]. intros y [->|Hy]%elem_of_cons; [lia|]. specialize (Hmax y Hy). lia.
    + split; [by right|]. intros y [->|Hy]%elem_of_cons; [lia|auto].
  - intros [= <-]. apply max_by_key_None in E as ->. split; [left|].
    intros y Hy%list_elem_of_singleton. subst; lia.
Qed.

(** A table with distinct keys gives each key one value. *)
Lemma NoDup_fst_inj {A B} (l : list (A * B)) a b b' :
  NoDup (fst <$> l) -> (a, b) ∈ l -> (a, b') ∈ l -> b = b'.
Proof.
  induction l as [|[c d] l IH]; [by intros _ ?%elem_of_nil|].
  rewrite fmap_cons, NoDup_cons. intros [Hc Hl] [?|H1]%elem_of_cons [?|H2]%elem_of_cons;
    simplify_eq; [done| | |auto].
  - destruct Hc. apply list_elem_of_fmap. by exists (c, b').
  - destruct Hc. apply list_elem_of_fmap. by exists (c, b).
Qed.

Lemma retain_sublist {A} (p : A -> bool) l : retain p l `sublist_of` l.
Proof. unfold retain. induction l as [|x l IH]; simpl; [constructor|]. case_match; by constructor. Qed.

#[export] Hint Resolve retain_sublist : iw.

#[export] Instance retain_Permutation {A} (p : A -> bool) :
  Proper (Permutation ==> Permutation) (retain p).
Proof.
  intros l k H. unfold retain. induction H as [|x l k _ IH|x y l|l k m _ IH1 _ IH2]; simpl; [done| | |].
  - destruct (p x); by rewrite IH.
  - destruct (p x), (p y); try done. constructor.
  - by rewrite IH1.
Qed.

(** ** Sorted lists *)

Lemma sorted_impl {A} (R S : relation A) l :
  (forall x y, R x y -> S x y) -> StronglySorted R l -> StronglySorted S l.
Proof.
  intros HRS. induction 1 as [|x l Hl IH Hx]; constructor; [done|].
  eapply Forall_impl; [exact Hx|]. auto.
Qed.

Lemma StronglySorted_snoc {A} (R : A -> A -> Prop) l x :
  StronglySorted R (l ++ [x]) <-> StronglySorted R l /\ Forall (fun y => R y x) l.
Proof.
  rewrite StronglySorted_app, Forall_forall. split.
  - intros (H & ? & _). split; [done|]. intros y Hy. apply H; [done|]. by apply list_elem_of_singleton.
  - intros [? H]. split_and!; [|done|repeat constructor].
    intros y z Hy ->%list_elem_of_singleton. auto.
Qed.

Lemma StronglySorted_retain {A} (R : A -> A -> Prop) p l :
  StronglySorted R l -> StronglySorted R (retain p l).
Proof.
  induction 1 as [|x l Hl IH Hx]; [constructor|]. unfold retain in *. simpl.
  case_match; [|done]. constructor; [done|].
  apply Forall_forall. intros y Hy. apply (retain_elem p l y) in Hy as [Hy _].
  rewrite Forall_forall in Hx. auto.
Qed.

Lemma retain_app_list {A} (p : A -> bool) l k : retain p (l ++ k) = retain p l ++ retain p k.
Proof. apply List.filter_app. Qed.

Lemma retain_ext_in {A} (p q : A -> bool) l : (forall x, x ∈ l -> p x = q x) -> retain p l = retain q l.
Proof. intros H. apply List.filter_ext_in. intros x Hx. apply H. by apply list_elem_of_In. Qed.

Lemma retain_and {A} (p q : A -> bool) l : retain p (retain q l) = retain (fun x => p x && q x) l.
Proof.
  unfold retain. induction l as [|x l IH]; [done|]. cbn. destruct (q x); cbn; [|rewrite andb_false_r; exact IH].
  rewrite andb_true_r. destruct (p x); by rewrite IH.
Qed.

Lemma retain_retain {B} (p q : B -> bool) l :
  (forall x, q x = true -> p x = true) -> retain q (retain p l) = retain q l.
Proof.
  intros Hpq. unfold retain. induction l as [|x l IH]; [done|]. simpl.
  destruct (p x) eqn:Ep; simpl; rewrite IH; [done|].
  destruct (q x) eqn:Eq; [|done]. apply Hpq in Eq. congruence.
Qed.
