(* ===== verification/Text.v ===== *)
(** * Text: the parts of Rust's [str] the modelled code uses

    A string is its UTF-8 byte sequence, one [ascii] per byte.  The functions
    below follow the standard library: [contains], [starts_with], [split],
    [trim] (Unicode White_Space, as UTF-8 sequences), ASCII case mapping,
    unsigned [parse] with its optional leading plus, decimal and hexadecimal
    formatting. *)

From Stdlib Require Import ZArith Lia Ascii String.
From stdpp Require Import prelude strings pretty list gmap sorting.
From S2P Require Import Prelude.

Open Scope Z_scope.

Definition code (a : ascii) : Z := Z.of_N (N_of_ascii a).

(** ** Searching *)

Definition starts_with (p s : string) : bool := String.prefix p s.

Fixpoint contains (sub s : string) : bool :=
  String.prefix sub s ||
  match s with
  | EmptyString => false
  | String _ r => contains sub r
  end.

Fixpoint strip_prefix (p s : string) : option string :=
  match p, s with
  | EmptyString, _ => Some s
  | String a p', String b s' => if Ascii.eqb a b then strip_prefix p' s' else None
  | String _ _, EmptyString => None
  end.

Lemma append_assoc (s t u : string) : (s +:+ t) +:+ u = s +:+ (t +:+ u).
Proof. induction s as [|a s IH]; [done|]. exact (f_equal (String a) IH). Qed.

Lemma prefix_app p s : String.prefix p (p +:+ s) = true.
Proof.
  induction p as [|a p IH]; [by destruct s|].
  change (String a p +:+ s) with (String a (p +:+ s)). simpl.
  by destruct (ascii_dec a a).
Qed.

Lemma prefix_correct_app p s : String.prefix p s = true <-> exists r, s = p +:+ r.
Proof.
  split; [|intros [r ->]; apply prefix_app].
  revert s. induction p as [|a p IH]; intros s H; [by exists s|].
  destruct s as [|b s]; simpl in H; [done|].
  destruct (ascii_dec a b) as [->|]; [|done].
  destruct (IH s H) as [r ->]. by exists r.
Qed.

Lemma contains_spec sub s : contains sub s = true <-> exists l r, s = l +:+ sub +:+ r.
Proof.
  split.
  - induction s as [|a s IH]; cbn [contains]; intros [H|H]%orb_true_iff.
    + apply prefix_correct_app in H as [r Hr]. by exists "", r.
    + done.
    + apply prefix_correct_app in H as [r Hr]. by exists "", r.
    + destruct (IH H) as (l & r & ->). by exists (String a l), r.
  - intros (l & r & ->). induction l as [|a l IH].
    + change ("" +:+ sub +:+ r) with (sub +:+ r).
      destruct (sub +:+ r) eqn:E; cbn [contains]; rewrite <- E, prefix_app; done.
    + change (String a l +:+ sub +:+ r) with (String a (l +:+ sub +:+ r)).
      cbn [contains]. by rewrite IH, orb_true_r.
Qed.

Lemma strip_prefix_Some p s r : strip_prefix p s = Some r <-> s = p +:+ r.
Proof.
  revert s. induction p as [|a p IH]; intros s.
  - simpl. change ("" +:+ r) with r. naive_solver.
  - destruct s as [|b s]; simpl; [done|].
    change (String a p +:+ r) with (String a (p +:+ r)).
    destruct (Ascii.eqb_spec a b) as [->|]; [rewrite IH|]; naive_solver.
Qed.

(** ** Splitting *)

(** [s.split(c)]: always at least one piece. *)
Fixpoint split_on (c : ascii) (s : string) : list string :=
  match s with
  | EmptyString => [""]
  | String a r =>
      if Ascii.eqb a c then "" :: split_on c r
      else match split_on c r with
           | h :: t => String a h :: t
           | [] => [String a ""]
           end
  end.

Lemma split_on_nonempty c s : split_on c s <> [].
Proof. destruct s; simpl; [done|]. repeat case_match; done. Qed.

(** [v.join(sep)]. *)
Fixpoint join (sep : string) (l : list string) : string :=
  match l with
  | [] => ""
  | [x] => x
  | x :: r => x +:+ sep +:+ join sep r
  end.

Lemma join_split_on c s : join (String c "") (split_on c s) = s.
Proof.
  induction s as [|a s IH]; [done|]. cbn [split_on].
  destruct (Ascii.eqb_spec a c) as [->|].
  - destruct (split_on c s) as [|h t] eqn:E; [by apply split_on_nonempty in E|].
    change (join (String c "") ("" :: h :: t)) with (String c (join (String c "") (h :: t))).
    by rewrite IH.
  - destruct (split_on c s) as [|h t] eqn:E; [by apply split_on_nonempty in E|].
    rewrite <- IH. cbn [join]. by destruct t.
Qed.

(** [s.split(sep).next()] and [s.rsplit(sep).next()]. *)
Definition first_piece (c : ascii) (s : string) : string :=
  match split_on c s with h :: _ => h | [] => "" end.
Definition last_piece (c : ascii) (s : string) : string :=
  List.last (split_on c s) "".

(** ** Trimming *)

Fixpoint rev_string_acc (acc s : string) : string :=
  match s with
  | EmptyString => acc
  | String a r => rev_string_acc (String a acc) r
  end.
Definition rev_string (s : string) : string := rev_string_acc "" s.

Definition ascii_ws (n : Z) : bool := ((9 <=? n) && (n <=? 13)) || (n =? 32).

(** Drop one leading White_Space character, given as its UTF-8 bytes. *)
Definition strip_ws (s : string) : option string :=
  match s with
  | String a r =>
      if ascii_ws (code a) then Some r
      else match r with
      | String b r2 =>
          if (code a =? 194) && ((code b =? 133) || (code b =? 160)) then Some r2
          else match r2 with
          | String c r3 =>
              if ((code a =? 225) && (code b =? 154) && (code c =? 128))
                 || ((code a =? 226) && (code b =? 128)
                     && (((128 <=? code c) && (code c <=? 138))
                         || (code c =? 168) || (code c =? 169) || (code c =? 175)))
                 || ((code a =? 226) && (code b =? 129) && (code c =? 159))
                 || ((code a =? 227) && (code b =? 128) && (code c =? 128))
              then Some r3 else None
          | EmptyString => None
          end
      | EmptyString => None
      end
  | EmptyString => None
  end.

(** The same on the reversed string: the bytes arrive last first. *)
Definition strip_ws_rev (s : string) : option string :=
  match s with
  | String c r =>
      if ascii_ws (code c) then Some r
      else match r with
      | String b r2 =>
          if (code b =? 194) && ((code c =? 133) || (code c =? 160)) then Some r2
          else match r2 with
          | String a r3 =>
              match strip_ws (String a (String b (String c ""))) with
              | Some EmptyString => Some r3
              | _ => None
              end
          | EmptyString => None
          end
      | EmptyString => None
      end
  | EmptyString => None
  end.

Fixpoint iter_strip (f : string -> option string) (fuel : nat) (s : string) : string :=
  match fuel with
  | O => s
  | S n => match f s with Some r => iter_strip f n r | None => s end
  end.

(** Each step removes at least one byte, so the length is enough fuel. *)
Definition trim_start (s : string) : string := iter_strip strip_ws (String.length s) s.
Definition trim_end (s : string) : string :=
  rev_string (iter_strip strip_ws_rev (String.length s) (rev_string s)).
Definition trim (s : string) : string := trim_end (trim_start s).

(** [trim_matches]-style trimming on single characters. *)
Fixpoint trim_start_by (p : ascii -> bool) (s : string) : string :=
  match s with
  | String a r => if p a then trim_start_by p r else s
  | EmptyString => ""
  end.
Definition trim_end_by (p : ascii -> bool) (s : string) : string :=
  rev_string (trim_start_by p (rev_string s)).
Definition trim_matches (p : ascii -> bool) (s : string) : string :=
  trim_end_by p (trim_start_by p s).

(** ** ASCII case *)

Definition lower_ascii (a : ascii) : ascii :=
  if (65 <=? code a) && (code a <=? 90) then ascii_of_N (N_of_ascii a + 32) else a.
Definition upper_ascii (a : ascii) : ascii :=
  if (97 <=? code a) && (code a <=? 122) then ascii_of_N (N_of_ascii a - 32) else a.

Fixpoint map_string (f : ascii -> ascii) (s : string) : string :=
  match s with
  | EmptyString => ""
  | String a r => String (f a) (map_string f r)
  end.
Definition to_ascii_lowercase (s : string) : string := map_string lower_ascii s.
Definition to_ascii_uppercase (s : string) : string := map_string upper_ascii s.

(** ** Numbers *)

Definition digit_of (a : ascii) : option Z :=
  if (48 <=? code a) && (code a <=? 57) then Some (code a - 48) else None.

Definition hex_digit_of (a : ascii) : option Z :=
  match digit_of a with
  | Some d => Some d
  | None =>
      if (97 <=? code a) && (code a <=? 102) then Some (code a - 87)
      else if (65 <=? code a) && (code a <=? 70) then Some (code a - 55)
      else None
  end.

Fixpoint parse_digits (radix : Z) (dig : ascii -> option Z) (acc : Z) (s : string) : option Z :=
  match s with
  | EmptyString => Some acc
  | String a r =>
      match dig a with
      | Some d => parse_digits radix dig (acc * radix + d) r
      | None => None
      end
  end.

(** [str::parse] for an unsigned type of [w] bits: one optional plus sign, at
    least one digit, no overflow. *)
Definition parse_radix (radix : Z) (dig : ascii -> option Z) (w : Z) (s : string) : option Z :=
  let body := match s with
              | String a r => if Ascii.eqb a "+"%char then r else s
              | EmptyString => "" end in
  match body with
  | EmptyString => None
  | _ =>
      match parse_digits radix dig 0 body with
      | Some v => if v <? 2 ^ w then Some v else None
      | None => None
      end
  end.
Definition parse_uint (w : Z) (s : string) : option Z := parse_radix 10 digit_of w s.
Definition from_str_radix16 (w : Z) (s : string) : option Z := parse_radix 16 hex_digit_of w s.

(** [{}] of a non-negative integer. *)
Definition show (z : Z) : string := pretty (Z.to_N z).

Definition hex_char (d : Z) : ascii :=
  ascii_of_N (Z.to_N (if d <? 10 then 48 + d else 87 + d)).

Fixpoint hex_digits (fuel : nat) (z : Z) (acc : string) : string :=
  match fuel with
  | O => acc
  | S n =>
      let acc := String (hex_char (z mod 16)) acc in
      if z <? 16 then acc else hex_digits n (z / 16) acc
  end.

(** [{:02x}] of a 32-bit integer: eight digits at most, at least two. *)
Definition show_hex02 (z : Z) : string :=
  let h := hex_digits 8 z "" in
  match h with String _ EmptyString => String "0"%char h | _ => h end.

Definition show_bool (b : bool) : string := if b then "true" else "false".

Lemma show_inj a b : 0 <= a -> 0 <= b -> show a = show b -> a = b.
Proof. unfold show. intros ?? H%(inj pretty). lia. Qed.

(** ** Facts about parsing *)

Lemma digit_of_range a d : digit_of a = Some d -> 0 <= d < 10.
Proof. unfold digit_of. case_match; [|done]. intros [= <-]. bool_to_prop. lia. Qed.

Lemma parse_digits_nonneg radix dig acc s v :
  0 <= radix -> 0 <= acc -> (forall a d, dig a = Some d -> 0 <= d) ->
  parse_digits radix dig acc s = Some v -> 0 <= v.
Proof.
  intros Hr Hacc Hd. revert acc Hacc. induction s as [|a s IH]; simpl; intros acc Hacc.
  - naive_solver.
  - destruct (dig a) as [d|] eqn:E; [|done]. apply Hd in E. apply IH. nia.
Qed.

Lemma parse_uint_range w s v : parse_uint w s = Some v -> 0 <= v < 2 ^ w.
Proof.
  unfold parse_uint, parse_radix. intros H.
  set (body := match s with EmptyString => "" | _ => _ end) in H.
  destruct body as [|a b] eqn:Eb; [done|]. rewrite <- Eb in H.
  destruct (parse_digits 10 digit_of 0 body) as [n|] eqn:E; [|done].
  case_match; simplify_eq. bool_to_prop. split; [|lia].
  eapply parse_digits_nonneg in E; [done|lia|lia|].
  intros x d Hd. apply digit_of_range in Hd. lia.
Qed.

Example trim_example : trim (String (ascii_of_nat 9) "  key ") = "key".
Proof. reflexivity. Qed.
Example parse_example : parse_uint 8 "255" = Some 255 /\ parse_uint 8 "256" = None
  /\ parse_uint 8 "+7" = Some 7 /\ parse_uint 8 "-7" = None /\ parse_uint 8 "" = None.
Proof. repeat split. Qed.
Example hex_example : show_hex02 7 = "07" /\ show_hex02 439 = "1b7".
Proof. repeat split. Qed.

(** ** UTF-8: [String::from_utf8_lossy] *)

Definition in_range (lo hi : Z) (a : ascii) : bool := (lo <=? code a) && (code a <=? hi).
Definition is_cont (a : ascii) : bool := in_range 128 191 a.

(** The range of the second byte and the number of bytes after it, by the
    first byte of a multi-byte sequence. *)
Definition utf8_second (a : ascii) : option (Z * Z * nat) :=
  let n := code a in
  if in_range 194 223 a then Some (128, 191, 0%nat)
  else if n =? 224 then Some (160, 191, 1%nat)
  else if n =? 237 then Some (128, 159, 1%nat)
  else if in_range 225 239 a then Some (128, 191, 1%nat)
  else if n =? 240 then Some (144, 191, 2%nat)
  else if in_range 241 243 a then Some (128, 191, 2%nat)
  else if n =? 244 then Some (128, 143, 2%nat)
  else None.

(** Up to [n] continuation bytes of [s]: those read, whether all were there. *)
Fixpoint take_cont (n : nat) (s : string) : string * bool * string :=
  match n with
  | O => (EmptyString, true, s)
  | S n' =>
      match s with
      | String a r =>
          if is_cont a then let '(got, ok, rest) := take_cont n' r in (String a got, ok, rest)
          else (EmptyString, false, s)
      | EmptyString => (EmptyString, false, s)
      end
  end.

Definition replacement : string :=
  String (ascii_of_nat 239) (String (ascii_of_nat 191) (String (ascii_of_nat 189) EmptyString)).

(** Each maximal invalid prefix becomes U+FFFD. *)
Fixpoint utf8_lossy (fuel : nat) (s : string) : string :=
  match fuel with
  | O => EmptyString
  | S fuel' =>
      match s with
      | EmptyString => EmptyString
      | String a r =>
          if code a <? 128 then String a (utf8_lossy fuel' r)
          else match utf8_second a with
               | None => replacement +:+ utf8_lossy fuel' r
               | Some (lo, hi, n) =>
                   match r with
                   | String b r' =>
                       if in_range lo hi b then
                         let '(got, ok, rest) := take_cont n r' in
                         (if ok then String a (String b got) else replacement) +:+ utf8_lossy fuel' rest
                       else replacement +:+ utf8_lossy fuel' r
                   | EmptyString => replacement
                   end
               end
      end
  end.

Definition from_utf8_lossy (s : string) : string := utf8_lossy (String.length s) s.

Fixpoint is_ascii (s : string) : bool :=
  match s with EmptyString => true | String a r => (code a <? 128) && is_ascii r end.

Lemma from_utf8_lossy_ascii s : is_ascii s = true -> from_utf8_lossy s = s.
Proof.
  unfold from_utf8_lossy. induction s as [|a s IH]; [done|]. cbn [is_ascii String.length utf8_lossy].
  intros [Ha Hs]%andb_true_iff. by rewrite Ha, IH.
Qed.

(** ** SQL [LIKE]: ASCII case-insensitive, [%] any run, [_] one character *)

Fixpoint skip_cont (s : string) : string :=
  match s with String a r => if is_cont a then skip_cont r else s | EmptyString => s end.

Fixpoint like (pat s : string) : bool :=
  match pat with
  | EmptyString => match s with EmptyString => true | _ => false end
  | String p pat' =>
      if Ascii.eqb p "%" then
        (fix any_suffix (s : string) : bool :=
           like pat' s || match s with String _ r => any_suffix r | EmptyString => false end) s
      else match s with
           | EmptyString => false
           | String a r =>
               if Ascii.eqb p "_" then like pat' (skip_cont r)
               else Ascii.eqb (lower_ascii p) (lower_ascii a) && like pat' r
           end
  end.

Example like_ex : like "ssh_brute:%" "SSH-brute:1.2.3.4" = true /\ like "a%c" "abd" = false.
Proof. split; reflexivity. Qed.

(** Zero-padded decimal, as [{:02}]. *)
Fixpoint zeros (n : nat) : string := match n with O => EmptyString | S n => String "0" (zeros n) end.
Definition pad0 (w : nat) (s : string) : string := zeros (w - String.length s) +:+ s.

(** ** Printing and parsing decimals *)

Lemma digit_char d : (d < 10)%N ->
  digit_of (pretty_N_char d) = Some (Z.of_N d) /\ code (pretty_N_char d) < 128 /\
  Ascii.eqb (pretty_N_char d) "+" = false.
Proof.
  intros Hd. assert (d ∈ [0;1;2;3;4;5;6;7;8;9])%N as H.
  { rewrite !elem_of_cons. lia. }
  repeat (apply elem_of_cons in H as [->|H]; [by repeat split|]). by apply elem_of_nil in H.
Qed.

Section show_go.
Let ind (P : N -> Prop) (H0 : P 0%N) (Hs : forall x, (0 < x)%N -> P (x `div` 10)%N -> P x) : forall x, P x.
Proof.
  induction x as [x IH] using (well_founded_induction N.lt_wf_0).
  destruct (decide (x = 0%N)) as [->|]; [done|]. apply Hs; [lia|]. apply IH, N.div_lt; lia.
Qed.

Lemma parse_go x : forall s,
  parse_digits 10 digit_of 0 (pretty_N_go x s) = parse_digits 10 digit_of (Z.of_N x) s.
Proof.
  induction x as [|x Hx IH] using ind; intros s; [by rewrite pretty_N_go_0|].
  rewrite pretty_N_go_step by done. rewrite IH. cbn [parse_digits].
  destruct (digit_char (x `mod` 10)) as (-> & _); [apply N.mod_lt; lia|]. f_equal.
  pose proof (N.div_mod x 10 ltac:(lia)). lia.
Qed.

Lemma ascii_go x : forall s, is_ascii s = true -> is_ascii (pretty_N_go x s) = true.
Proof.
  induction x as [|x Hx IH] using ind; intros s Hs; [by rewrite pretty_N_go_0|].
  rewrite pretty_N_go_step by done. apply IH. cbn [is_ascii].
  destruct (digit_char (x `mod` 10)) as (_ & ? & _); [apply N.mod_lt; lia|].
  rewrite Hs, andb_true_r. by apply Z.ltb_lt.
Qed.

Lemma head_go x : forall s a r, Ascii.eqb a "+" = false -> s = String a r ->
  exists b t, pretty_N_go x s = String b t /\ Ascii.eqb b "+" = false.
Proof.
  induction x as [|x Hx IH] using ind; intros s a r Ha ->; [rewrite pretty_N_go_0; eauto|].
  rewrite pretty_N_go_step by done.
  destruct (digit_char (x `mod` 10)) as (_ & _ & Hp); [apply N.mod_lt; lia|]. eauto.
Qed.
End show_go.

Lemma show_ascii z : is_ascii (show z) = true.
Proof.
  unfold show, pretty, pretty_N. destruct (decide _); [done|]. by apply ascii_go.
Qed.

Lemma parse_show w z : 0 <= z < 2 ^ w -> parse_uint w (show z) = Some z.
Proof.
  intros Hz. unfold parse_uint, parse_radix, show, pretty, pretty_N.
  destruct (decide (Z.to_N z = 0%N)) as [E|E].
  - assert (z = 0) as -> by lia. transitivity (if 0 <? 2 ^ w then Some 0 else None); [reflexivity|].
    by rewrite (proj2 (Z.ltb_lt _ _) (proj2 Hz)).
  - pose proof (parse_go (Z.to_N z) "") as Hp.
    rewrite pretty_N_go_step in * by lia.
    destruct (digit_char (Z.to_N z `mod` 10)) as (_ & _ & Hc); [apply N.mod_lt; lia|].
    destruct (head_go (Z.to_N z `div` 10) _ _ "" Hc eq_refl) as (b & t & Eq & Hb).
    rewrite Eq in *. rewrite Hb, Hp. cbn [parse_digits].
    rewrite Z2N.id by lia. by rewrite (proj2 (Z.ltb_lt _ _)) by lia.
Qed.

Lemma digits_show z : 0 <= z -> parse_digits 10 digit_of 0 (show z) = Some z.
Proof.
  intros Hz. unfold show, pretty, pretty_N. destruct (decide (Z.to_N z = 0%N)) as [E|E].
  - by replace z with 0 by lia.
  - rewrite parse_go. cbn. by rewrite Z2N.id.
Qed.

Lemma pad0_show_inj w a b : 0 <= a -> 0 <= b -> pad0 w (show a) = pad0 w (show b) -> a = b.
Proof.
  assert (forall z, 0 <= z -> parse_digits 10 digit_of 0 (pad0 w (show z)) = Some z) as Hp.
  { intros z Hz. unfold pad0. induction (w - String.length (show z))%nat as [|n IH]; [by apply digits_show|exact IH]. }
  intros Ha Hb E. pose proof (Hp a Ha) as Pa. rewrite E, (Hp b Hb) in Pa. by injection Pa.
Qed.

#[export] Hint Resolve show_ascii from_utf8_lossy_ascii : iw.

(** ** Byte order of strings, as SQL compares TEXT *)

Fixpoint str_leb (s t : string) : bool :=
  match s, t with
  | EmptyString, _ => true
  | String _ _, EmptyString => false
  | String a s', String b t' => (code a <? code b) || ((code a =? code b) && str_leb s' t')
  end.
Definition str_ltb (s t : string) : bool := negb (str_leb t s).
Definition str_le (s t : string) : Prop := str_leb s t = true.

#[export] Instance str_le_dec s t : Decision (str_le s t).
Proof. unfold str_le. solve_decision. Defined.

Lemma str_le_cons a s b t :
  str_le (String a s) (String b t) <-> code a < code b \/ (code a = code b /\ str_le s t).
Proof.
  unfold str_le. cbn [str_leb]. rewrite orb_true_iff, andb_true_iff, Z.ltb_lt, Z.eqb_eq. done.
Qed.

#[export] Instance str_le_trans : Transitive str_le.
Proof.
  intros x. induction x as [|a x IH]; intros [|b y] [|c z]; try done.
  rewrite !str_le_cons. intros [?|[??]] [?|[??]]; [left; lia..|]. right. split; [lia|]. by apply (IH y).
Qed.

#[export] Instance str_le_total : Total str_le.
Proof.
  intros x. induction x as [|a x IH]; intros [|b y]; [by left..|by right|].
  rewrite !str_le_cons. destruct (IH y); destruct (Z.lt_trichotomy (code a) (code b)) as [?|[?|?]]; auto.
Qed.

Lemma code_inj a b : code a = code b -> a = b.
Proof. unfold code. intros H%N2Z.inj. by rewrite <- (ascii_N_embedding a), H, ascii_N_embedding. Qed.

#[export] Instance str_le_antisymm : AntiSymm (=) str_le.
Proof.
  intros x. induction x as [|a x IH]; intros [|b y]; try done.
  rewrite !str_le_cons. intros [?|[? H1]] [?|[? H2]]; try lia. f_equal; [by apply code_inj|auto].
Qed.

(** A set of strings as [BTreeSet] iterates over it or [sort_unstable] leaves it. *)
Definition sorted_strings (s : gset string) : list string := merge_sort str_le (elements s).

Lemma sorted_strings_elem s x : x ∈ sorted_strings s <-> x ∈ s.
Proof. unfold sorted_strings. by rewrite merge_sort_Permutation, elem_of_elements. Qed.

Lemma sorted_strings_nil s : sorted_strings s = [] <-> s = ∅.
Proof.
  split; [|intros ->; done]. intros E. apply set_eq. intros x. rewrite <- sorted_strings_elem, E. set_solver.
Qed.

(** [{}] of a signed integer. *)
Definition show_int (z : Z) : string := if z <? 0 then String "-" (show (- z)) else show z.

(** ** [str] iterators *)

Definition nl : ascii := ascii_of_nat 10.
Definition cr : ascii := ascii_of_nat 13.

Fixpoint strip_cr (s : string) : string :=
  match s with
  | EmptyString => EmptyString
  | String a EmptyString => if Ascii.eqb a cr then EmptyString else s
  | String a r => String a (strip_cr r)
  end.

(** [lines]: a terminated line loses its line end, the rest after the last
    newline is a line when it is not empty. *)
Fixpoint lines_of (pieces : list string) : list string :=
  match pieces with
  | [] => []
  | [p] => if String.eqb p "" then [] else [p]
  | p :: r => strip_cr p :: lines_of r
  end.
Definition lines (s : string) : list string := lines_of (split_on nl s).

(** [split_whitespace]: the non-empty pieces between white space. *)
Fixpoint words_go (fuel : nat) (cur s : string) : list string :=
  let flush := if String.eqb cur "" then [] else [rev_string cur] in
  match fuel with
  | O => flush
  | S fuel =>
      match s with
      | EmptyString => flush
      | String a r =>
          match strip_ws s with
          | Some r' => flush ++ words_go fuel "" r'
          | None => words_go fuel (String a cur) r
          end
      end
  end.
Definition split_whitespace (s : string) : list string := words_go (S (String.length s)) "" s.

(** [take(n)] of a text's [chars]: up to [n] characters, whole UTF-8 sequences. *)
Fixpoint take_chars (n : nat) (s : string) : string :=
  match s with
  | EmptyString => EmptyString
  | String a r =>
      if is_cont a then String a (take_chars n r)
      else match n with O => EmptyString | S n => String a (take_chars n r) end
  end.

(** ** Little-endian integers: [to_le_bytes] and [from_le_bytes] *)

Definition byte_of (z : Z) : ascii := ascii_of_N (Z.to_N (z mod 256)).

Fixpoint le_bytes (n : nat) (z : Z) : string :=
  match n with O => EmptyString | S n => String (byte_of z) (le_bytes n (z / 256)) end.

Fixpoint le_value (s : string) : Z :=
  match s with EmptyString => 0 | String a r => code a + 256 * le_value r end.

Lemma code_byte_of z : code (byte_of z) = z mod 256.
Proof.
  unfold code, byte_of. pose proof (Z.mod_pos_bound z 256 ltac:(lia)).
  rewrite N_ascii_embedding by lia. lia.
Qed.

Lemma le_bytes_length n z : String.length (le_bytes n z) = n.
Proof. revert z. induction n as [|n IH]; intros z; cbn; [done|by rewrite IH]. Qed.

Lemma le_value_bytes n z : le_value (le_bytes n z) = z mod 256 ^ Z.of_nat n.
Proof.
  revert z. induction n as [|n IH]; intros z; cbn [le_bytes le_value]; [by rewrite Z.mod_1_r|].
  rewrite code_byte_of, IH. replace (256 ^ Z.of_nat (S n)) with (256 * 256 ^ Z.of_nat n).
  - rewrite Z.rem_mul_r by lia. lia.
  - rewrite Nat2Z.inj_succ, Z.pow_succ_r by lia. done.
Qed.

(** ** Unicode case and quotes *)

(** [str::to_lowercase]: the Unicode mapping, which on ASCII text is the
    ASCII one. *)
Class Lowercase := { to_lowercase : string -> string }.
Class LowercaseLaws `{Lowercase} := {
  to_lowercase_ascii s : is_ascii s = true -> to_lowercase s = to_ascii_lowercase s
}.

(** The double quote, and a text between two of them. *)
Definition quote : string := String (ascii_of_nat 34) "".
Definition quoted (s : string) : string := quote +:+ s +:+ quote.

(** ** Hexadecimal of four digits at least, as [{:04x}] of a 64-bit integer *)

Definition show_hex04 (z : Z) : string := pad0 4 (hex_digits 16 z "").

Lemma hex_char_spec d : 0 <= d < 16 -> hex_digit_of (hex_char d) = Some d /\ Ascii.eqb (hex_char d) "+" = false.
Proof.
  intros Hd. assert (d ∈ seqZ 0 16) as H by (apply elem_of_seqZ; lia).
  cbv [seqZ seq fmap list_fmap Z.to_nat Pos.to_nat Pos.iter_op Nat.add] in H.
  repeat (apply elem_of_cons in H as [->|H]; [by split|]). by apply elem_of_nil in H.
Qed.

Lemma parse_hex_digits fuel : forall z s, 0 <= z < 16 ^ Z.of_nat fuel ->
  parse_digits 16 hex_digit_of 0 (hex_digits fuel z s) = parse_digits 16 hex_digit_of z s.
Proof.
  induction fuel as [|n IH]; intros z s Hz; cbn [hex_digits]; [by replace z with 0 by (cbn in Hz; lia)|].
  pose proof (Z.mod_pos_bound z 16 ltac:(lia)) as Hm. destruct (hex_char_spec _ Hm) as [Hd _].
  destruct (Z.ltb_spec z 16).
  - cbn [parse_digits]. rewrite Hd. by rewrite Z.mod_small by lia.
  - rewrite IH.
    + cbn [parse_digits]. rewrite Hd. f_equal. pose proof (Z.div_mod z 16). lia.
    + rewrite Nat2Z.inj_succ, Z.pow_succ_r in Hz by lia. split; [apply Z.div_pos; lia|].
      apply Z.div_lt_upper_bound; lia.
Qed.

Lemma hex_digits_head fuel : forall z s a r, 0 <= z -> s = String a r -> Ascii.eqb a "+" = false ->
  exists b t, hex_digits fuel z s = String b t /\ Ascii.eqb b "+" = false.
Proof.
  induction fuel as [|n IH]; intros z s a r Hz -> Ha; cbn [hex_digits]; [by eexists _, _|].
  destruct (hex_char_spec (z mod 16)) as [_ Hc]; [by apply Z.mod_pos_bound|].
  destruct (z <? 16); [by eexists _, _|]. eapply IH; [|reflexivity|done]. by apply Z.div_pos.
Qed.

Lemma hex_digits_nonempty z s : 0 <= z ->
  exists b t, hex_digits 16 z s = String b t /\ Ascii.eqb b "+" = false.
Proof.
  intros Hz. change (hex_digits 16 z s) with (let acc := String (hex_char (z mod 16)) s in
    if z <? 16 then acc else hex_digits 15 (z / 16) acc). cbv zeta.
  destruct (hex_char_spec (z mod 16)) as [_ Hc]; [by apply Z.mod_pos_bound|].
  destruct (z <? 16); [by eexists _, _|]. eapply hex_digits_head; [|reflexivity|done]. by apply Z.div_pos.
Qed.

Lemma parse_zeros n s : parse_digits 16 hex_digit_of 0 (zeros n +:+ s) = parse_digits 16 hex_digit_of 0 s.
Proof. induction n as [|n IH]; [done|]. cbn. apply IH. Qed.

Lemma parse_hex04 z : in_width 64 z -> from_str_radix16 64 (show_hex04 z) = Some z.
Proof.
  intros Hz. unfold from_str_radix16, parse_radix, show_hex04, pad0.
  destruct (hex_digits_nonempty z "" (proj1 Hz)) as (b & t & E & Hb).
  set (k := (4 - String.length (hex_digits 16 z ""))%nat).
  assert (parse_digits 16 hex_digit_of 0 (zeros k +:+ hex_digits 16 z "") = Some z) as Hp.
  { rewrite parse_zeros, parse_hex_digits; [done|]. unfold in_width in Hz. cbn. lia. }
  assert (exists b' t', zeros k +:+ hex_digits 16 z "" = String b' t' /\ Ascii.eqb b' "+" = false) as (b' & t' & E' & Hb').
  { destruct k; cbn; [by eexists _, _|]. by eexists _, _. }
  rewrite E' in *. rewrite Hb', Hp. by rewrite (proj2 (Z.ltb_lt _ _) (proj2 Hz)).
Qed.

Lemma show_hex04_inj a b : in_width 64 a -> in_width 64 b -> show_hex04 a = show_hex04 b -> a = b.
Proof. intros Ha%parse_hex04 Hb%parse_hex04 E. rewrite E in Ha. congruence. Qed.

(** ** Text with no white space to trim *)

Fixpoint all_chars (p : ascii -> bool) (s : string) : bool :=
  match s with EmptyString => true | String a r => p a && all_chars p r end.

Definition visible (a : ascii) : bool := in_range 33 126 a.

Lemma all_chars_app p s t : all_chars p (s +:+ t) = all_chars p s && all_chars p t.
Proof.
  induction s as [|a s IH]; [done|]. change (String a s +:+ t) with (String a (s +:+ t)). cbn [all_chars].
  by rewrite IH, andb_assoc.
Qed.

Lemma string_length_app s t : String.length (s +:+ t) = (String.length s + String.length t)%nat.
Proof.
  induction s as [|a s IH]; [done|]. change (String a s +:+ t) with (String a (s +:+ t)). cbn [String.length].
  by rewrite IH.
Qed.

Lemma all_chars_impl (p q : ascii -> bool) s :
  (forall a, p a = true -> q a = true) -> all_chars p s = true -> all_chars q s = true.
Proof.
  intros H. induction s as [|a s IH]; cbn; [done|]. intros [Ha Hs]%andb_true_iff. by rewrite H, IH.
Qed.

Lemma rev_string_acc_app acc s : rev_string_acc acc s = rev_string_acc "" s +:+ acc.
Proof.
  revert acc. induction s as [|a s IH]; intros acc; [done|]. cbn [rev_string_acc].
  rewrite IH, (IH (String a "")), append_assoc. done.
Qed.

Lemma rev_string_cons a s : rev_string (String a s) = rev_string s +:+ String a "".
Proof. apply (rev_string_acc_app (String a "")). Qed.

Lemma rev_string_snoc a s : rev_string (s +:+ String a "") = String a (rev_string s).
Proof.
  induction s as [|b s IH]; [done|]. change (String b s +:+ String a "") with (String b (s +:+ String a "")).
  by rewrite rev_string_cons, IH, rev_string_cons.
Qed.

Lemma rev_string_involutive s : rev_string (rev_string s) = s.
Proof. induction s as [|a s IH]; [done|]. by rewrite rev_string_cons, rev_string_snoc, IH. Qed.

Lemma all_chars_rev p s : all_chars p (rev_string s) = all_chars p s.
Proof.
  induction s as [|a s IH]; [done|]. rewrite rev_string_cons, all_chars_app, IH. cbn. by rewrite andb_true_r, andb_comm.
Qed.

Lemma strip_ws_visible a r : visible a = true -> strip_ws (String a r) = None.
Proof.
  unfold visible, in_range. intros H. bool_to_prop. unfold strip_ws, ascii_ws.
  repeat match goal with
  | |- context [?x =? ?k] => rewrite (proj2 (Z.eqb_neq x k)) by lia
  | |- context [code a <=? 13] => rewrite (proj2 (Z.leb_gt (code a) 13)) by lia
  end. rewrite andb_false_r. by destruct r as [|b [|c r]].
Qed.

Lemma strip_ws_rev_visible a r : visible a = true -> strip_ws_rev (String a r) = None.
Proof.
  unfold visible, in_range. intros H. bool_to_prop. unfold strip_ws_rev.
  assert (ascii_ws (code a) = false) as Hw by (unfold ascii_ws; destruct (Z.leb_spec 9 (code a)), (Z.leb_spec (code a) 13), (Z.eqb_spec (code a) 32); lia || done).
  rewrite Hw. destruct r as [|b r]; [done|].
  rewrite (proj2 (Z.eqb_neq (code a) 133)), (proj2 (Z.eqb_neq (code a) 160)), andb_false_r by lia.
  destruct r as [|c r]; [done|]. unfold strip_ws. destruct (ascii_ws (code c)); [done|].
  destruct (_ && _); [done|].
  rewrite (proj2 (Z.eqb_neq (code a) 128)), (proj2 (Z.leb_gt 128 (code a))), (proj2 (Z.eqb_neq (code a) 168)),
    (proj2 (Z.eqb_neq (code a) 169)), (proj2 (Z.eqb_neq (code a) 175)), (proj2 (Z.eqb_neq (code a) 159)) by lia.
  by rewrite !andb_false_r.
Qed.

Lemma trim_visible s : all_chars visible s = true -> trim s = s.
Proof.
  intros H. unfold trim. assert (trim_start s = s) as ->.
  { destruct s as [|a r]; [done|]. cbn in H. apply andb_true_iff in H as [Ha _].
    unfold trim_start. cbn [String.length iter_strip]. by rewrite strip_ws_visible. }
  unfold trim_end. assert (forall n, iter_strip strip_ws_rev n (rev_string s) = rev_string s) as ->.
  { rewrite <- all_chars_rev in H. intros [|n]; [done|]. cbn [iter_strip]. destruct (rev_string s) as [|a r]; [done|].
    cbn in H. apply andb_true_iff in H as [Ha _]. by rewrite strip_ws_rev_visible. }
  apply rev_string_involutive.
Qed.

(** ** Replacing characters, and HTML *)

(** [str::replace] of one ASCII character. *)
Fixpoint replace_char (c : ascii) (by_ : string) (s : string) : string :=
  match s with
  | EmptyString => EmptyString
  | String a s' => if Ascii.eqb a c then by_ +:+ replace_char c by_ s' else String a (replace_char c by_ s')
  end.

Definition escape_html (s : string) : string :=
  replace_char (ascii_of_nat 34) "&quot;" (replace_char ">" "&gt;" (replace_char "<" "&lt;" (replace_char "&" "&amp;" s))).

(** [is_char_boundary], and the greatest boundary at most [n]. *)
Definition is_char_boundary (s : string) (n : nat) : bool :=
  match String.get n s with Some a => negb (is_cont a) | None => Nat.eqb n (String.length s) end.
Fixpoint floor_boundary (s : string) (n : nat) : nat :=
  match n with O => O | S m => if is_char_boundary s n then n else floor_boundary s m end.
