(* ===== verification/Json.v ===== *)
(** * Json: [serde_json::Value] and the accessors the modelled code calls

    An object is an association list; [get] reads the binding of a key, and
    indexed assignment replaces the binding or adds it.  Integers keep their
    value, a float is its IEEE-754 value. *)

From Stdlib Require Import ZArith Lia Ascii String.
From Stdlib Require Import SpecFloat.
From stdpp Require Import prelude strings list.
From S2P Require Import Prelude.

Open Scope Z_scope.

Inductive Json : Type :=
| JNull
| JBool (b : bool)
| JInt (z : Z)
| JFloat (f : spec_float)
| JStr (s : string)
| JArr (l : list Json)
| JObj (o : list (string * Json)).

Fixpoint assoc {A} (k : string) (o : list (string * A)) : option A :=
  match o with
  | [] => None
  | (k', v) :: r => if String.eqb k k' then Some v else assoc k r
  end.

Fixpoint assoc_set {A} (k : string) (v : A) (o : list (string * A)) : list (string * A) :=
  match o with
  | [] => [(k, v)]
  | (k', v') :: r => if String.eqb k k' then (k, v) :: r else (k', v') :: assoc_set k v r
  end.

Definition get (v : Json) (k : string) : option Json :=
  match v with JObj o => assoc k o | _ => None end.
Definition as_str (v : Json) : option string :=
  match v with JStr s => Some s | _ => None end.
Definition as_bool (v : Json) : option bool :=
  match v with JBool b => Some b | _ => None end.
Definition as_u64 (v : Json) : option Z :=
  match v with JInt z => if (0 <=? z) && (z <? 2 ^ 64) then Some z else None | _ => None end.
Definition as_i64 (v : Json) : option Z :=
  match v with JInt z => if (- 2 ^ 63 <=? z) && (z <? 2 ^ 63) then Some z else None | _ => None end.
Definition as_array (v : Json) : option (list Json) :=
  match v with JArr l => Some l | _ => None end.

(** [v[k] = x] on an object. *)
Definition set_key (v : Json) (k : string) (x : Json) : Json :=
  match v with JObj o => JObj (assoc_set k x o) | _ => v end.

Definition get_str (v : Json) (k : string) : option string := get v k ≫= as_str.
Definition get_u64 (v : Json) (k : string) : option Z := get v k ≫= as_u64.
Definition get_i64 (v : Json) (k : string) : option Z := get v k ≫= as_i64.
Definition get_bool (v : Json) (k : string) : option bool := get v k ≫= as_bool.
Definition get_array (v : Json) (k : string) : option (list Json) := get v k ≫= as_array.

Lemma assoc_set_same {A} k (v : A) o : assoc k (assoc_set k v o) = Some v.
Proof.
  induction o as [|[k' v'] o IH]; cbn [assoc_set assoc]; [by rewrite String.eqb_refl|].
  destruct (String.eqb k k') eqn:E; cbn [assoc]; [by rewrite String.eqb_refl|by rewrite E].
Qed.

Lemma assoc_set_other {A} k k' (v : A) o :
  k <> k' -> assoc k' (assoc_set k v o) = assoc k' o.
Proof.
  intros Hne. induction o as [|[c w] o IH]; cbn [assoc_set assoc].
  - rewrite (proj2 (String.eqb_neq k' k)) by congruence. done.
  - destruct (String.eqb_spec k c) as [->|]; cbn [assoc].
    + rewrite (proj2 (String.eqb_neq k' c)) by congruence. done.
    + by rewrite IH.
Qed.

Lemma as_u64_int z : in_width 64 z -> as_u64 (JInt z) = Some z.
Proof.
  intros Hz. unfold as_u64. rewrite (proj2 (Z.leb_le 0 z)), (proj2 (Z.ltb_lt z (2 ^ 64))) by (unfold in_width in Hz; lia).
  done.
Qed.

Lemma get_u64_range v k n : get_u64 v k = Some n -> 0 <= n < 2 ^ 64.
Proof.
  unfold get_u64. intros (j & _ & H)%bind_Some.
  destruct j; simpl in H; try done. case_match; simplify_eq. by bool_to_prop.
Qed.
