(* ===== verification/Floats.v ===== *)
(** * Floats: IEEE-754 arithmetic of the modelled code

    [f32] and [f64] values are SpecFloat values, with every operation rounded
    to nearest even at its format.  [as] casts from integers round, casts to
    integers truncate and saturate; [min] and [max] ignore a NaN operand. *)

From Stdlib Require Import ZArith Lia SpecFloat String.
From stdpp Require Import prelude strings.
From S2P Require Import Prelude Text.

Open Scope Z_scope.

Notation float := spec_float (only parsing).

(** ** [f32] *)

Definition f32_of_Z (z : Z) : float := binary_normalize 24 128 z 0 false.
Definition f32_div (a b : float) : float := SFdiv 24 128 a b.
Definition f32_sub (a b : float) : float := SFsub 24 128 a b.
Definition f32_add (a b : float) : float := SFadd 24 128 a b.
Definition f32_mul (a b : float) : float := SFmul 24 128 a b.
Definition f_abs (a : float) : float := SFabs a.
(** The literal [n / d], correctly rounded. *)
Definition f32_lit (n d : Z) : float := f32_div (f32_of_Z n) (f32_of_Z d).
(** [f32::EPSILON] = 2^-23. *)
Definition f32_epsilon : float := S754_finite false 8388608 (-46).

(** ** [f64] *)

Definition f64_of_Z (z : Z) : float := binary_normalize 53 1024 z 0 false.
Definition f64_add (a b : float) : float := SFadd 53 1024 a b.
Definition f64_sub (a b : float) : float := SFsub 53 1024 a b.
Definition f64_mul (a b : float) : float := SFmul 53 1024 a b.
Definition f64_div (a b : float) : float := SFdiv 53 1024 a b.
Definition f64_sqrt (a : float) : float := SFsqrt 53 1024 a.
Definition f64_lit (n d : Z) : float := f64_div (f64_of_Z n) (f64_of_Z d).
Definition f64_one : float := f64_of_Z 1.
Definition f64_zero : float := S754_zero false.

(** [as f64] of an [f32]. *)
Definition f32_as_f64 (a : float) : float :=
  match a with
  | S754_finite s m e => binary_normalize 53 1024 (if s then Zneg m else Zpos m) e s
  | _ => a
  end.

(** ** Comparisons, shared by both formats *)

Definition is_nan (a : float) : bool := match a with S754_nan => true | _ => false end.
Definition f_ltb (a b : float) : bool := SFltb a b.
Definition f_leb (a b : float) : bool := SFleb a b.
Definition f_gtb (a b : float) : bool := SFltb b a.
Definition f_geb (a b : float) : bool := SFleb b a.

Definition f_min (a b : float) : float :=
  if is_nan a then b else if is_nan b then a else if f_ltb b a then b else a.
Definition f_max (a b : float) : float :=
  if is_nan a then b else if is_nan b then a else if f_ltb a b then b else a.

(** [clamp] for bounds that are ordered and not NaN (otherwise Rust panics). *)
Definition f_clamp (a lo hi : float) : float :=
  let a := if f_ltb a lo then lo else a in
  if f_gtb a hi then hi else a.

(** ** Casts to [u64] *)

Definition saturate_u64 (z : Z) : Z := Z.max 0 (Z.min z u64_max).

(** [x as u64]. *)
Definition f64_to_u64 (a : float) : Z :=
  match a with
  | S754_nan | S754_zero _ => 0
  | S754_infinity s => if s then 0 else u64_max
  | S754_finite s m e =>
      let n := if 0 <=? e then Zpos m * 2 ^ e else Zpos m / 2 ^ (- e) in
      saturate_u64 (if s then - n else n)
  end.

(** [x.ceil() as u64]. *)
Definition f64_ceil_to_u64 (a : float) : Z :=
  match a with
  | S754_nan | S754_zero _ => 0
  | S754_infinity s => if s then 0 else u64_max
  | S754_finite s m e =>
      if s then 0
      else saturate_u64 (if 0 <=? e then Zpos m * 2 ^ e else - ((- Zpos m) / 2 ^ (- e)))
  end.

(** ** Order facts *)

Lemma Pcompare_swap p q : Pos.compare_cont Eq q p = CompOpp (Pos.compare_cont Eq p q).
Proof. apply Pos.compare_antisym. Qed.

Lemma SFcompare_swap a b :
  SFcompare b a = match SFcompare a b with Some c => Some (CompOpp c) | None => None end.
Proof.
  destruct a as [sa|sa| |sa ma ea], b as [sb|sb| |sb mb eb]; try done;
    try (destruct sa, sb; done); try (destruct sa; done); try (destruct sb; done).
  cbn [SFcompare]. destruct sa, sb; try done;
    rewrite (Z.compare_antisym ea eb); destruct (Z.compare ea eb); cbn [CompOpp]; try done;
    rewrite (Pcompare_swap ma mb); by destruct (Pos.compare_cont Eq ma mb).
Qed.

Lemma SFcompare_not_nan a b :
  is_nan a = false -> is_nan b = false -> exists c, SFcompare a b = Some c.
Proof.
  destruct a as [sa|sa| |sa ma ea], b as [sb|sb| |sb mb eb]; try done; intros _ _; simpl;
    repeat case_match; eauto.
Qed.

Lemma f_leb_refl a : is_nan a = false -> f_leb a a = true.
Proof.
  intros H. unfold f_leb, SFleb. destruct (SFcompare_not_nan a a H H) as [c Hc].
  pose proof (SFcompare_swap a a) as S. rewrite Hc in S |- *. by destruct c.
Qed.

Lemma f_ltb_false_leb a b :
  is_nan a = false -> is_nan b = false -> f_ltb b a = false -> f_leb a b = true.
Proof.
  intros Ha Hb. unfold f_ltb, f_leb, SFltb, SFleb.
  destruct (SFcompare_not_nan a b Ha Hb) as [c Hc].
  rewrite (SFcompare_swap a b), Hc. by destruct c.
Qed.

Lemma f_ltb_not_nan a b : f_ltb a b = true -> is_nan a = false /\ is_nan b = false.
Proof. destruct a, b; done. Qed.

(** [min] never exceeds its second operand, whatever its first one is. *)
Lemma f_min_le_r a b : is_nan b = false -> f_leb (f_min a b) b = true.
Proof.
  intros Hb. unfold f_min. destruct (is_nan a) eqn:Ha; [by apply f_leb_refl|].
  rewrite Hb. destruct (f_ltb b a) eqn:E; [by apply f_leb_refl|].
  by apply f_ltb_false_leb.
Qed.

Lemma saturate_u64_range z : 0 <= saturate_u64 z <= u64_max.
Proof. unfold saturate_u64, u64_max. lia. Qed.

Lemma f64_to_u64_range a : 0 <= f64_to_u64 a <= u64_max.
Proof.
  destruct a as [s|s| |s m e]; simpl; try destruct s; try (unfold u64_max; lia);
    apply saturate_u64_range.
Qed.

Lemma f64_ceil_to_u64_range a : 0 <= f64_ceil_to_u64 a <= u64_max.
Proof.
  destruct a as [s|s| |s m e]; simpl; try destruct s; try (unfold u64_max; lia);
    apply saturate_u64_range.
Qed.

#[export] Hint Resolve f_leb_refl f_min_le_r f64_to_u64_range f64_ceil_to_u64_range : iw.

Example f32_lit_06 : f32_lit 6 10 = S754_finite false 10066330 (-24).
Proof. reflexivity. Qed.
Example f64_ceil_ex : f64_ceil_to_u64 (f64_lit 7 2) = 4 /\ f64_to_u64 (f64_lit 7 2) = 3.
Proof. repeat split. Qed.

(** ** Printing *)

(** [{:.d}]: the exact value rounded half to even. *)
Definition show_fixed (d : nat) (f : float) : string :=
  let sign (s : bool) := if s then "-"%string else ""%string in
  let digits (q : Z) :=
    let p := 10 ^ Z.of_nat d in
    (show (q / p) +:+ if Nat.eqb d 0 then ""%string else ("." +:+ pad0 d (show (q mod p)))%string)%string in
  match f with
  | S754_nan => "NaN"%string
  | S754_infinity s => (sign s +:+ "inf")%string
  | S754_zero s => (sign s +:+ digits 0)%string
  | S754_finite s m e =>
      let num := Zpos m * 10 ^ Z.of_nat d * (if 0 <=? e then 2 ^ e else 1) in
      let den := if 0 <=? e then 1 else 2 ^ (- e) in
      let q := num / den in
      let r := num mod den in
      let q := if (den <? 2 * r) || ((2 * r =? den) && Z.odd q) then q + 1 else q in
      (sign s +:+ digits q)%string
  end.

Example show_fixed_examples :
  show_fixed 2 (f32_lit 17 20) = "0.85"%string /\ show_fixed 0 (f64_lit 5 2) = "2"%string /\ show_fixed 3 (f32_of_Z 1) = "1.000"%string.
Proof. vm_compute. repeat split. Qed.
