(* ===== verification/Net.v ===== *)
(** * Net: the addresses of [std::net] the modelled code parses and classifies

    [str::parse] for [Ipv4Addr], [Ipv6Addr] and [IpAddr] as the standard
    library's parser reads them (no leading zeros in a v4 octet, one to four
    hexadecimal digits in a v6 group, one [::], an embedded v4 tail), the
    predicates on them, and the dotted text of a v4 address.  Printing and
    parsing a v4 address is proved to be a round trip. *)

From Stdlib Require Import ZArith Lia Ascii String.
From stdpp Require Import prelude strings list.
From S2P Require Import Prelude Text.

Open Scope Z_scope.

Inductive Ipv4Addr : Type := MkV4 (a b c d : Z).

(** Eight 16-bit segments. *)
Definition Ipv6Addr : Type := list Z.

Inductive IpAddr : Type :=
| V4 (v4 : Ipv4Addr)
| V6 (v6 : Ipv6Addr).

#[export] Instance ipv4_eq_dec : EqDecision Ipv4Addr.
Proof. solve_decision. Defined.
#[export] Instance ipaddr_eq_dec : EqDecision IpAddr.
Proof. solve_decision. Defined.

(** ** The parser: a reader takes the remaining input and, on success,
    returns a value and what is left. *)

Definition Reader (A : Type) : Type := string -> option (A * string).

Definition read_given_char (c : ascii) : Reader unit := fun s =>
  match s with
  | String a r => if Ascii.eqb a c then Some (tt, r) else None
  | EmptyString => None
  end.

(** The digits at the front of the input; more than [max] of them fail. *)
Fixpoint read_digits (radix : Z) (dig : ascii -> option Z) (max count acc : Z) (s : string)
  : option (Z * Z * string) :=
  match s with
  | EmptyString => Some (count, acc, s)
  | String a r =>
      match dig a with
      | None => Some (count, acc, s)
      | Some d =>
          if max <? count + 1 then None
          else read_digits radix dig max (count + 1) (acc * radix + d) r
      end
  end.

Definition read_number (radix : Z) (dig : ascii -> option Z) (max : Z) (allow_zero_prefix : bool)
  (width : Z) : Reader Z := fun s =>
  let has_leading_zero := match s with String a _ => Ascii.eqb a "0" | EmptyString => false end in
  match read_digits radix dig max 0 0 s with
  | None => None
  | Some (count, v, r) =>
      if count =? 0 then None
      else if negb allow_zero_prefix && has_leading_zero && (1 <? count) then None
      else if v <? 2 ^ width then Some (v, r) else None
  end.

Definition read_separator {A} (sep : ascii) (index : nat) (inner : Reader A) : Reader A := fun s =>
  match index with
  | O => inner s
  | S _ => match read_given_char sep s with Some (_, r) => inner r | None => None end
  end.

Definition read_octet (index : nat) : Reader Z :=
  read_separator "." index (read_number 10 digit_of 3 false 8).

Definition read_ipv4_addr : Reader Ipv4Addr := fun s =>
  '(a, s) ← read_octet 0 s;
  '(b, s) ← read_octet 1 s;
  '(c, s) ← read_octet 2 s;
  '(d, s) ← read_octet 3 s;
  Some (MkV4 a b c d, s).

(** Up to [k] groups from group number [i] on; the flag tells an embedded v4
    tail, which takes two groups and ends the sequence. *)
Fixpoint read_groups (i k : nat) (s : string) : list Z * bool * string :=
  match k with
  | O => ([], false, s)
  | S k' =>
      let v4 := match k' with O => None | S _ => read_separator ":" i read_ipv4_addr s end in
      match v4 with
      | Some (MkV4 a b c d, r) => ([a * 256 + b; c * 256 + d], true, r)
      | None =>
          match read_separator ":" i (read_number 16 hex_digit_of 4 true 16) s with
          | Some (g, r) => let '(gs, v4, r) := read_groups (S i) k' r in (g :: gs, v4, r)
          | None => ([], false, s)
          end
      end
  end.

Definition read_ipv6_addr : Reader Ipv6Addr := fun s =>
  let '(head, head_ipv4, s) := read_groups 0 8 s in
  if (length head =? 8)%nat then Some (head, s)
  else if head_ipv4 then None
  else
    '(_, s) ← read_given_char ":" s;
    '(_, s) ← read_given_char ":" s;
    let '(tail, _, s) := read_groups 0 (8 - (length head + 1)) s in
    Some (head ++ replicate (8 - length head - length tail) 0 ++ tail, s).

(** The whole input has to be read. *)
Definition parse_with {A} (r : Reader A) (s : string) : option A :=
  match r s with Some (a, EmptyString) => Some a | _ => None end.

Definition parse_ipv4 (s : string) : option Ipv4Addr :=
  if (15 <? String.length s)%nat then None else parse_with read_ipv4_addr s.
Definition parse_ipv6 (s : string) : option Ipv6Addr := parse_with read_ipv6_addr s.
Definition read_ip_addr : Reader IpAddr := fun s =>
  match read_ipv4_addr s with
  | Some (a, r) => Some (V4 a, r)
  | None => match read_ipv6_addr s with Some (a, r) => Some (V6 a, r) | None => None end
  end.
Definition parse_ip (s : string) : option IpAddr := parse_with read_ip_addr s.

(** ** Octets and text *)

Definition v4_octets (v : Ipv4Addr) : list Z := let 'MkV4 a b c d := v in [a; b; c; d].
Definition v6_octets (v : Ipv6Addr) : list Z := flat_map (fun g => [g / 256; g mod 256]) v.

Definition dotted (a b c d : Z) : string :=
  show a +:+ "." +:+ show b +:+ "." +:+ show c +:+ "." +:+ show d.
Definition v4_to_string (v : Ipv4Addr) : string := let 'MkV4 a b c d := v in dotted a b c d.

(** ** The predicates of [Ipv4Addr] and [Ipv6Addr] *)

Definition v4_is_loopback '(MkV4 a _ _ _) : bool := a =? 127.
Definition v4_is_private '(MkV4 a b _ _) : bool :=
  (a =? 10) || ((a =? 172) && (16 <=? b) && (b <=? 31)) || ((a =? 192) && (b =? 168)).
Definition v4_is_link_local '(MkV4 a b _ _) : bool := (a =? 169) && (b =? 254).
Definition v4_is_broadcast (v : Ipv4Addr) : bool := bool_decide (v = MkV4 255 255 255 255).
Definition v4_is_documentation '(MkV4 a b c _) : bool :=
  ((a =? 192) && (b =? 0) && (c =? 2)) || ((a =? 198) && (b =? 51) && (c =? 100))
  || ((a =? 203) && (b =? 0) && (c =? 113)).
Definition v4_is_unspecified (v : Ipv4Addr) : bool := bool_decide (v = MkV4 0 0 0 0).
Definition v6_is_loopback (v : Ipv6Addr) : bool := bool_decide (v = [0; 0; 0; 0; 0; 0; 0; 1]).
Definition v6_is_unspecified (v : Ipv6Addr) : bool := bool_decide (v = replicate 8 0).

(** ** Examples: the parser on the shapes the standard library documents *)

Example parse_ip_v4 : parse_ip "192.168.0.1" = Some (V4 (MkV4 192 168 0 1)).
Proof. reflexivity. Qed.
Example parse_ip_zero_prefix : parse_ip "192.168.00.1" = None.
Proof. reflexivity. Qed.
Example parse_ip_256 : parse_ip "256.0.0.1" = None.
Proof. reflexivity. Qed.
Example parse_ip_loopback6 : parse_ip "::1" = Some (V6 [0; 0; 0; 0; 0; 0; 0; 1]).
Proof. reflexivity. Qed.
Example parse_ip_full6 : parse_ip "2001:DB8:0:0:0:0:0:1" = Some (V6 [8193; 3512; 0; 0; 0; 0; 0; 1]).
Proof. reflexivity. Qed.
Example parse_ip_mapped : parse_ip "::ffff:10.0.0.1" = Some (V6 [0; 0; 0; 0; 0; 65535; 2560; 1]).
Proof. reflexivity. Qed.
Example parse_ip_two_gaps : parse_ip "1::2::3" = None.
Proof. reflexivity. Qed.
Example parse_ip_port : parse_ip "10.0.0.1:80" = None.
Proof. reflexivity. Qed.

(** ** Round trip of a v4 address *)

Definition is_octet (z : Z) : Prop := 0 <= z < 256.

Lemma octet_seqZ z : is_octet z -> z ∈ seqZ 0 256.
Proof. intros H. apply elem_of_seqZ. unfold is_octet in H. lia. Qed.

Lemma read_octet_show_all :
  Forall (fun z => forall r, read_number 10 digit_of 3 false 8 (show z +:+ "." +:+ r)
                             = Some (z, "." +:+ r)
                  /\ read_number 10 digit_of 3 false 8 (show z) = Some (z, EmptyString))
    (seqZ 0 256).
Proof. cbv [seqZ seq fmap list_fmap Z.to_nat Pos.to_nat Pos.iter_op Nat.add]. repeat constructor. Qed.

Lemma read_octet_show z : is_octet z ->
  (forall r, read_number 10 digit_of 3 false 8 (show z +:+ "." +:+ r) = Some (z, "." +:+ r))
  /\ read_number 10 digit_of 3 false 8 (show z) = Some (z, EmptyString).
Proof.
  intros Hz%octet_seqZ. pose proof (proj1 (Forall_forall _ _) read_octet_show_all z Hz) as H.
  split; [intros r; apply H|apply (H EmptyString)].
Qed.

Local Arguments read_number : simpl never.
Local Arguments show : simpl never.

Lemma read_ipv4_dotted a b c d : is_octet a -> is_octet b -> is_octet c -> is_octet d ->
  read_ipv4_addr (dotted a b c d) = Some (MkV4 a b c d, EmptyString).
Proof.
  intros [Ha _]%read_octet_show [Hb _]%read_octet_show [Hc _]%read_octet_show [_ Hd]%read_octet_show.
  assert (Hdot : forall r, read_given_char "." ("." +:+ r) = Some (tt, r)) by done.
  unfold read_ipv4_addr, dotted, read_octet, read_separator. simpl.
  rewrite Ha; cbn [mbind option_bind]. rewrite Hdot, Hb; cbn [mbind option_bind].
  rewrite Hdot, Hc; cbn [mbind option_bind]. by rewrite Hdot, Hd.
Qed.

Lemma parse_ip_dotted a b c d : is_octet a -> is_octet b -> is_octet c -> is_octet d ->
  parse_ip (dotted a b c d) = Some (V4 (MkV4 a b c d)).
Proof.
  intros. unfold parse_ip, parse_with, read_ip_addr. by rewrite read_ipv4_dotted.
Qed.

(** An IPv6 text is no IPv4 text. *)
Lemma parse_ip_v6_not_v4 s v6 : parse_ip s = Some (V6 v6) -> parse_ipv4 s = None.
Proof.
  unfold parse_ip, parse_ipv4, parse_with, read_ip_addr. intros H.
  destruct (15 <? String.length s)%nat; [done|]. destruct (read_ipv4_addr s) as [[a r]|]; [|done].
  by destruct r.
Qed.

(** ** Ranges *)

Lemma read_digits_nonneg radix dig max s : forall count acc n v r,
  (forall a d, dig a = Some d -> 0 <= d) -> 0 <= radix -> 0 <= acc ->
  read_digits radix dig max count acc s = Some (n, v, r) -> 0 <= v.
Proof.
  induction s as [|a s IH]; intros count acc n v r Hd Hr Ha; cbn; [intros; by simplify_eq|].
  destruct (dig a) as [d|] eqn:Ed; [|intros; by simplify_eq]. case_match; [done|].
  apply IH; [done..|]. specialize (Hd _ _ Ed). nia.
Qed.

Lemma read_number_range radix dig max zp width s v r :
  (forall a d, dig a = Some d -> 0 <= d) -> 0 <= radix ->
  read_number radix dig max zp width s = Some (v, r) -> in_width width v.
Proof.
  intros Hd Hr. unfold read_number. destruct (read_digits _ _ _ _ _ _) as [[[n w] r']|] eqn:E; [|done].
  apply (read_digits_nonneg _ _ _ _ _ _ _ _ _ Hd Hr (Z.le_refl 0)) in E.
  intros. split_cases; bool_to_prop; by split.
Qed.

Lemma digit_of_nonneg a d : digit_of a = Some d -> 0 <= d.
Proof. intros H%digit_of_range. lia. Qed.

Lemma hex_digit_of_nonneg a d : hex_digit_of a = Some d -> 0 <= d.
Proof.
  unfold hex_digit_of. destruct (digit_of a) as [x|] eqn:E; [intros [= <-]; by apply digit_of_nonneg in E|].
  case_match; [intros [= <-]; bool_to_prop; lia|]. case_match; [intros [= <-]; bool_to_prop; lia|done].
Qed.

Lemma read_octet_range i s v r : read_octet i s = Some (v, r) -> in_width 8 v.
Proof.
  unfold read_octet, read_separator. destruct i; [|destruct (read_given_char _ _) as [[]|]; [|done]];
    intros E; eapply read_number_range; try exact E; try lia; apply digit_of_nonneg.
Qed.

Definition v4_ok (v : Ipv4Addr) : Prop := Forall (in_width 8) (v4_octets v).

Lemma read_ipv4_range s v r : read_ipv4_addr s = Some (v, r) -> v4_ok v.
Proof.
  unfold read_ipv4_addr. intros ([a s1] & Ha & ([b s2] & Hb & ([c s3] & Hc & ([d s4] & Hd & E)%bind_Some)
    %bind_Some)%bind_Some)%bind_Some. simplify_eq. unfold v4_ok, v4_octets.
  repeat constructor; by eapply read_octet_range.
Qed.

Lemma read_groups_ok k : forall i s gs v4 r,
  read_groups i k s = (gs, v4, r) -> (length gs <= k)%nat /\ Forall (in_width 16) gs.
Proof.
  induction k as [|k IH]; intros i s gs v4 r; cbn [read_groups]; [intros [= <- _ _]; split; [cbn; lia|constructor]|].
  destruct (match k with O => None | S _ => _ end) as [[[a b c d] r']|] eqn:E4.
  - intros [= <- _ _]. destruct k; [done|]. split; [cbn; lia|].
    assert (v4_ok (MkV4 a b c d)) as Hv.
    { unfold read_separator in E4. destruct i; [|destruct (read_given_char _ _) as [[? ?]|]; [|done]];
        by eapply read_ipv4_range. }
    unfold v4_ok in Hv. cbn in Hv. rewrite !Forall_cons in Hv. unfold in_width in *.
    repeat constructor; cbn in *; lia.
  - clear E4. destruct (read_separator _ _ _ _) as [[g r']|] eqn:Eg; [|intros E; simplify_eq; split; [cbn; lia|constructor]].
    destruct (read_groups (S i) k r') as [[gs' v4'] r''] eqn:Er. intros E. simplify_eq/=.
    destruct (IH _ _ _ _ _ Er) as [Hl Hf]. split; [cbn; lia|]. constructor; [|done].
    unfold read_separator in Eg. destruct i; [|destruct (read_given_char _ _) as [[? ?]|]; [|done]];
      (eapply read_number_range; [| |exact Eg]; [apply hex_digit_of_nonneg|lia]).
Qed.

Definition v6_ok (v : Ipv6Addr) : Prop := length v = 8%nat /\ Forall (in_width 16) v.

Lemma read_ipv6_range s v r : read_ipv6_addr s = Some (v, r) -> v6_ok v.
Proof.
  unfold read_ipv6_addr. destruct (read_groups 0 8 s) as [[head hv4] s1] eqn:Eh.
  destruct (read_groups_ok _ _ _ _ _ _ Eh) as [Hl Hf].
  destruct (Nat.eqb_spec (length head) 8); [intros [= <- _]; by split|]. destruct hv4; [done|].
  intros ([[] s2] & _ & ([[] s3] & _ & E)%bind_Some)%bind_Some.
  destruct (read_groups 0 (8 - (length head + 1)) s3) as [[tail tv4] s4] eqn:Et.
  destruct (read_groups_ok _ _ _ _ _ _ Et) as [Hl' Hf']. injection E as <- _. split.
  - rewrite !length_app, length_replicate. lia.
  - apply Forall_app; split; [done|]. apply Forall_app; split; [|done].
    apply Forall_replicate. unfold in_width. lia.
Qed.

Lemma parse_ip_ok s a : parse_ip s = Some a -> match a with V4 v => v4_ok v | V6 v => v6_ok v end.
Proof.
  unfold parse_ip, parse_with, read_ip_addr. intros H. destruct (read_ipv4_addr s) as [[v r]|] eqn:E4.
  - destruct r; [|done]. simplify_eq. by eapply read_ipv4_range.
  - destruct (read_ipv6_addr s) as [[v r]|] eqn:E6; [|done]. destruct r; [|done]. simplify_eq.
    by eapply read_ipv6_range.
Qed.
