(* ===== verification/CoreTypes.v ===== *)
(** * CoreTypes: the records every component exchanges
    (crates/core/src/event.rs, entities.rs, incident.rs, policy/enforcement.rs)

    An [Event] is what a collector saw, an [Incident] what a detector makes of
    events, an [EntityRef] what it is about, and the enforcement posture says
    whether the agent acts on it. *)

From Stdlib Require Import ZArith Lia Ascii String.
From stdpp Require Import prelude strings list.
From S2P Require Import Prelude Text Json.

Local Open Scope string_scope.
Local Open Scope list_scope.
Local Open Scope Z_scope.

Inductive Severity : Type := Debug | Info | Low | Medium | High | Critical.

#[export] Instance severity_eq_dec : EqDecision Severity.
Proof. solve_decision. Defined.

Definition default_severity : Severity := Info.

(** [{:?}] of a severity, and its lower case. *)
Definition severity_debug (s : Severity) : string :=
  match s with Debug => "Debug" | Info => "Info" | Low => "Low" | Medium => "Medium" | High => "High" | Critical => "Critical" end.
Definition severity_text (s : Severity) : string :=
  match s with Debug => "debug" | Info => "info" | Low => "low" | Medium => "medium" | High => "high" | Critical => "critical" end.

Inductive EntityType : Type := EIp | EUser | EContainer | EPath | EService.

#[export] Instance entity_type_eq_dec : EqDecision EntityType.
Proof. solve_decision. Defined.

Record EntityRef := MkEntity { e_type : EntityType; e_value : string }.

#[export] Instance entity_ref_eq_dec : EqDecision EntityRef.
Proof. solve_decision. Defined.

Definition entity_ip (v : string) : EntityRef := MkEntity EIp v.
Definition entity_user (v : string) : EntityRef := MkEntity EUser v.
Definition entity_container (v : string) : EntityRef := MkEntity EContainer v.
Definition entity_path (v : string) : EntityRef := MkEntity EPath v.
Definition entity_service (v : string) : EntityRef := MkEntity EService v.

Record Event := {
  ev_ts : Z;
  ev_host : string;
  ev_source : string;
  ev_kind : string;
  ev_severity : Severity;
  ev_summary : string;
  ev_details : Json;
  ev_tags : list string;
  ev_entities : list EntityRef;
}.

Record Incident := {
  in_ts : Z;
  in_host : string;
  in_incident_id : string;
  in_severity : Severity;
  in_title : string;
  in_summary : string;
  in_evidence : Json;
  in_recommended_checks : list string;
  in_tags : list string;
  in_entities : list EntityRef;
}.

(** [details[k].as_str()], which is [None] for a missing key too. *)
Definition detail_str (e : Event) (k : string) : option string := get_str (ev_details e) k.
Definition detail_u64 (e : Event) (k : string) : option Z := get_u64 (ev_details e) k.
(** ... and with the [unwrap_or] the detectors use. *)
Definition detail_str_or (e : Event) (k d : string) : string := default d (detail_str e k).
Definition detail_u64_or (e : Event) (k : string) (d : Z) : Z := default d (detail_u64 e k).

(** ** Enforcement posture *)

Inductive EnforcementPosture : Type := Enforcing | PostureDryRun | Disabled.

Definition from_responder (enabled dry_run : bool) : EnforcementPosture :=
  match enabled, dry_run with
  | false, _ => Disabled
  | true, true => PostureDryRun
  | true, false => Enforcing
  end.

Definition is_enforcing (p : EnforcementPosture) : bool :=
  match p with Enforcing => true | _ => false end.

Definition posture_tag (p : EnforcementPosture) : string :=
  match p with
  | Enforcing => "enforcing"
  | PostureDryRun => "monitor_only_dry_run"
  | Disabled => "monitor_only"
  end.

(** The agent acts only when the responder is on and not simulated. *)
Lemma is_enforcing_iff enabled dry_run :
  is_enforcing (from_responder enabled dry_run) = true <-> enabled = true /\ dry_run = false.
Proof. by destruct enabled, dry_run; naive_solver. Qed.
