(* ===== verification/CoreGate.v ===== *)
(** * CoreGate: the Execution Gate's honesty net
    (crates/core/src/execution_gate.rs)

    The verdict that compares the live kernel maps with the signed allowlist,
    and the readers of the allowlist file and of bpftool's text. *)

From Stdlib Require Import ZArith Lia Ascii String.
From stdpp Require Import prelude strings list.
From S2P Require Import Prelude Text Json.

Local Open Scope string_scope.
Local Open Scope list_scope.
Local Open Scope Z_scope.

(** The text before and after the first occurrence of [sub]. *)
Fixpoint split_at (sub s : string) : option (string * string) :=
  match strip_prefix sub s with
  | Some r => Some ("", r)
  | None =>
      match s with
      | EmptyString => None
      | String a r => match split_at sub r with Some (b, e) => Some (String a b, e) | None => None end
      end
  end.

(** [s.split(sub).nth(1)]. *)
Definition second_piece (sub s : string) : option string :=
  match split_at sub s with
  | Some (_, rest) => Some (match split_at sub rest with Some (b, _) => b | None => rest end)
  | None => None
  end.

(** [trim_start_matches("0x")]. *)
Fixpoint trim_0x (fuel : nat) (s : string) : string :=
  match fuel with
  | O => s
  | S fuel => match strip_prefix "0x" s with Some r => trim_0x fuel r | None => s end
  end.

(** ** Gate state *)

Definition EXEC_ALLOWLIST_PIN : string := "/sys/fs/bpf/innerwarden/exec_allowlist".
Definition LSM_POLICY_PIN : string := "/sys/fs/bpf/innerwarden/lsm_policy".
Definition GATE_MODE_KEY : Z := 3.
Definition SIGNED_ALLOWLIST_FILE : string := "/etc/innerwarden/exec_allowlist.json".
Definition APPLY_GAP_TOLERANCE_PCT : Z := 5.

Inductive GateMode := Inert | Enforce | Observe | UnknownMode.

#[export] Instance GateMode_eq_dec : EqDecision GateMode.
Proof. solve_decision. Defined.

Definition from_policy_key (v : option Z) : GateMode :=
  match v with
  | None => Inert
  | Some v => if v =? 0 then Inert else if v =? 1 then Enforce else if v =? 2 then Observe else UnknownMode
  end.

Definition from_str_label (s : string) : GateMode :=
  let v := to_ascii_lowercase (trim s) in
  if String.eqb v "observe" then Observe
  else if mem_str v ["enforce"; "arm"; "armed"; "block"] then Enforce
  else if mem_str v ["inert"; "off"; "disarm"; "disarmed"; "disabled"; "none"] then Inert
  else UnknownMode.

Definition gate_label (m : GateMode) : string :=
  match m with Inert => "inert" | Enforce => "enforce" | Observe => "observe" | UnknownMode => "unknown" end.

Definition gate_is_active (m : GateMode) : bool :=
  match m with Enforce | Observe => true | _ => false end.

Record GateState := {
  signed_count : option Z;
  intended_mode : option GateMode;
  live_count : option Z;
  live_mode : GateMode;
}.

Inductive Divergence :=
| NoDivergence
| ActiveButEmpty (mode : GateMode) (live : Z)
| ApplyDrift (signed live : Z) (intended : option GateMode) (mode : GateMode).

Definition is_drift (d : Divergence) : bool := match d with NoDivergence => false | _ => true end.

(** The local [intends_active] of [evaluate_divergence]. *)
Definition intends_active (s : GateState) : bool :=
  match intended_mode s with Some m => gate_is_active m | None => false end.

Definition evaluate_divergence (s : GateState) : Divergence :=
  if gate_is_active (live_mode s) && bool_decide (live_count s = Some 0) then
    ActiveButEmpty (live_mode s) 0
  else
    let signed := default 0 (signed_count s) in
    match live_count s with
    | Some live_n =>
        if (0 <? signed) || intends_active s then
          let count_drift :=
            (0 <? signed) && (live_n <? signed) &&
            ((live_n =? 0) ||
             (signed <? wrap 64 ((signed - live_n) * (100 / APPLY_GAP_TOLERANCE_PCT)))) in
          let mode_drift := intends_active s && negb (gate_is_active (live_mode s)) in
          if count_drift || mode_drift then ApplyDrift signed live_n (intended_mode s) (live_mode s)
          else NoDivergence
        else NoDivergence
    | None => NoDivergence
    end.

Definition count_json_collection (v : Json) : option Z :=
  match v with
  | JArr a => Some (Z.of_nat (length a))
  | JObj o => Some (Z.of_nat (length o))
  | _ => None
  end.

(** Object keys are distinct in serde's map. *)
Definition parse_signed_allowlist (value : Json) : option Z * option GateMode :=
  let count := match get value "entries" with
               | Some e => count_json_collection e
               | None =>
                   match value with
                   | JArr a => Some (Z.of_nat (length a))
                   | JObj o => if bool_decide (is_Some (assoc "mode" o)) then None
                               else Some (Z.of_nat (length o))
                   | _ => None
                   end
               end in
  (count, from_str_label <$> get_str value "mode").

Definition json_key : string := String (ascii_of_nat 34) ("key" +:+ String (ascii_of_nat 34) "").

(** The first [Found N] line that parses. *)
Fixpoint found_count (ls : list string) : Z :=
  match ls with
  | [] => 0
  | l :: r =>
      match (rest ← strip_prefix "Found " (trim l); w ← head (split_whitespace rest); parse_uint 64 w) with
      | Some n => n
      | None => found_count r
      end
  end.

Definition count_bpftool_dump (text : string) : Z :=
  let key_lines := Z.of_nat (length (retain (fun l =>
    let t := trim_start l in starts_with "key:" t || starts_with json_key t) (lines text))) in
  if 0 <? key_lines then key_lines else found_count (lines text).

Definition from_le_bytes (bs : list Z) : Z := foldr (fun b acc => b + 256 * acc) 0 bs.

Definition parse_bpftool_value_u32 (text : string) : option Z :=
  after ← second_piece "value:" text;
  bytes ← mapM (fun b => from_str_radix16 8 (trim_0x (String.length b) b)) (take 4 (split_whitespace after));
  if Z.of_nat (length bytes) <? 4 then None else Some (from_le_bytes bytes).

(** ** What the verdict means *)

(** The kernel has fewer entries than signed, by more than the tolerance. *)
Definition short_of (signed live : Z) : Prop :=
  0 < signed /\ live < signed /\ (live = 0 \/ live * 100 < signed * (100 - APPLY_GAP_TOLERANCE_PCT)).

Definition intends (s : GateState) : Prop :=
  exists m, intended_mode s = Some m /\ gate_is_active m = true.

Lemma intends_bool s : intends_active s = true <-> intends s.
Proof. unfold intends_active, intends. destruct (intended_mode s); naive_solver. Qed.

Lemma count_drift_spec signed live :
  0 <= live -> 0 <= signed < 2 ^ 59 ->
  (0 <? signed) && (live <? signed) &&
    ((live =? 0) || (signed <? wrap 64 ((signed - live) * (100 / APPLY_GAP_TOLERANCE_PCT)))) = true <->
  short_of signed live.
Proof.
  intros Hl Hs. unfold short_of, APPLY_GAP_TOLERANCE_PCT. change (100 / 5) with 20.
  rewrite !andb_true_iff, orb_true_iff, !Z.ltb_lt, Z.eqb_eq.
  split; intros H; (destruct (Z.lt_ge_cases live signed); [|lia]);
    rewrite ?(wrap_small 64 ((signed - live) * 20)) in * by (unfold in_width; lia); lia.
Qed.

(** The verdict is exactly its specification, for files of less than 2^59
    entries: the alarm about an active gate with an empty allowlist comes
    first; drift is reported exactly when the live map was read and is short
    of the signed entries by more than five percent (or empty), or the file
    intends an active gate and the live one is not; in particular an
    unreadable map alone never raises drift. *)
Theorem divergence_exact s :
  (forall n, signed_count s = Some n -> 0 <= n < 2 ^ 59) ->
  (forall n, live_count s = Some n -> 0 <= n) ->
  (evaluate_divergence s = ActiveButEmpty (live_mode s) 0 <->
     gate_is_active (live_mode s) = true /\ live_count s = Some 0) /\
  (forall signed live i m, evaluate_divergence s = ApplyDrift signed live i m <->
     signed = default 0 (signed_count s) /\ live_count s = Some live /\ i = intended_mode s /\ m = live_mode s /\
     ~ (gate_is_active (live_mode s) = true /\ live = 0) /\
     (short_of signed live \/ (intends s /\ gate_is_active (live_mode s) = false))) /\
  (live_count s = None -> is_drift (evaluate_divergence s) = false).
Proof.
  intros Hsig Hlive. unfold evaluate_divergence.
  set (signed := default 0 (signed_count s)).
  assert (Hs : 0 <= signed < 2 ^ 59) by (unfold signed; destruct (signed_count s); simpl; [auto|lia]).
  pose proof (intends_bool s) as Hi. set (ib := intends_active s) in *.
  destruct (live_count s) as [n|] eqn:El.
  2: { rewrite bool_decide_false, andb_false_r by done. split_and!; [|intros|done]; split; naive_solver. }
  specialize (Hlive n eq_refl). pose proof (count_drift_spec signed n Hlive Hs) as Hc.
  set (cd := _ && _ && _) in *. split_and!; [| |done].
  - split; [|intros [-> [= ->]]; by rewrite bool_decide_true].
    destruct (gate_is_active (live_mode s)) eqn:Ea; cbn [andb].
    + case_bool_decide; [done|]. repeat case_match; naive_solver.
    + repeat case_match; naive_solver.
  - intros sg live i m.
    destruct (gate_is_active (live_mode s)) eqn:Ea; cbn [andb negb]; [case_bool_decide as E0|].
    + split; [done|]. simplify_eq. naive_solver.
    + rewrite andb_false_r, orb_false_r.
      assert (n <> 0) by congruence.
      destruct (_ || ib) eqn:Eo; [destruct cd|]; (split; [intros [= <- <- <- <-]|]); try done.
      * split_and!; try done; [naive_solver|left; by apply Hc].
      * intros (-> & [= ->] & -> & -> & _ & _). done.
      * intros (-> & [= ->] & _ & _ & _ & [Hsh|[_ ?]]); [|done]. by apply Hc in Hsh.
      * intros (-> & [= ->] & _ & _ & _ & [Hsh|[_ ?]]); [|done]. destruct Hsh as [Hp _].
        apply orb_false_iff in Eo as [Eo _]. apply Z.ltb_ge in Eo. lia.
    + rewrite andb_true_r.
      destruct (_ || ib) eqn:Eo.
      * destruct (cd || ib) eqn:Ec; (split; [intros [= <- <- <- <-]|]).
        -- split_and!; try done; [naive_solver|]. apply orb_true_iff in Ec as [Ec|Ec]; [left; by apply Hc|right; naive_solver].
        -- by intros (-> & [= ->] & -> & -> & _).
        -- intros (-> & [= ->] & _ & _ & _ & Hd). apply orb_false_iff in Ec as [Ec1 Ec2].
           destruct Hd as [Hsh|[Hint _]]; [apply Hc in Hsh|apply Hi in Hint]; congruence.
      * split; [done|]. intros (-> & [= ->] & _ & _ & _ & Hd). apply orb_false_iff in Eo as [Eo1 Eo2].
        apply Z.ltb_ge in Eo1. destruct Hd as [(? & _)|[Hint _]]; [lia|]. apply Hi in Hint. congruence.
Qed.

(** ** Samples of bpftool's text *)

Example value_line : parse_bpftool_value_u32 "key: 03 00 00 00  value: 02 00 00 00" = Some 2.
Proof. reflexivity. Qed.
Example dump_found : count_bpftool_dump "Found 17 elements" = 17.
Proof. reflexivity. Qed.

(** The case of a signed allowlist that was never applied. *)
Definition staged : GateState := {|
  signed_count := Some 1685; intended_mode := Some Observe; live_count := Some 0; live_mode := Inert |}.

Lemma divergence_exact_witness : evaluate_divergence staged = ApplyDrift 1685 0 (Some Observe) Inert.
Proof.
  apply (divergence_exact staged).
  - intros n [= <-]. lia.
  - intros n [= <-]. lia.
  - split_and!; try reflexivity; [by intros [??]|]. left. repeat split; simpl; try lia.
Defined.
