(* ===== verification/CoreAudit.v ===== *)
(** * CoreAudit: hash-chained JSON lines, and the trail of administrators
    (crates/core/src/audit.rs)

    The administrators' trail and the agent's decision trail (AgentDecisions.v)
    are daily files of JSON lines; each line holds the SHA-256 of the line before
    it.  [Section jsonl] has what they share: a file is its bytes, a line is
    printed by serde ([print], an argument with the laws of [LinePrinter]), and
    the appenders of a file take turns under its lock. *)

From Stdlib Require Import ZArith Lia Ascii String.
From stdpp Require Import prelude strings gmap list.
From S2P Require Import Prelude Text Json.

Local Open Scope string_scope.
Local Open Scope list_scope.

(** ** Lines of a file *)

Definition valid_utf8 (s : string) : bool := String.eqb (from_utf8_lossy s) s.

Fixpoint take_while {A} (p : A -> bool) (l : list A) : list A :=
  match l with [] => [] | x :: r => if p x then x :: take_while p r else [] end.

(** [reader.lines().map_while(Result::ok)]: up to the first line that is not
    UTF-8. *)
Definition readable_lines (content : string) : list string := take_while valid_utf8 (lines content).

Definition nonblank (l : string) : bool := negb (String.eqb (trim l) "").

Definition last_line (content : string) : option string := last (retain nonblank (readable_lines content)).

Section jsonl.
Context (sha256_hex : string -> string).

Definition last_hash (content : string) : option string := sha256_hex <$> last_line content.

Context {E : Type}.

(** serde's printing of an entry with its [prev_hash], and the hash a reader
    finds in a line. *)
Class LinePrinter := {
  print : E -> option string -> string;
  prev_of : string -> option string;
}.

(** A printed line is one line of UTF-8 text, and shows its [prev_hash]. *)
Class LineLaws `{LinePrinter} := {
  print_one_line e h : all_chars (fun a => negb (Ascii.eqb a nl || Ascii.eqb a cr)) (print e h) = true;
  print_utf8 e h : valid_utf8 (print e h) = true;
  print_nonblank e h : nonblank (print e h) = true;
  prev_of_print e h : prev_of (print e h) = h;
}.

Context `{LinePrinter}.

(** Under the lock: read the last hash, print, append with a newline. *)
Definition append_line (content : string) (e : E) : string :=
  content +:+ print e (last_hash content) +:+ String nl "".

(** The lines of a sequence of entries, each with the hash of the one before. *)
Fixpoint chain_lines (prev : option string) (es : list E) : list string :=
  match es with [] => [] | e :: rest => let l := print e prev in l :: chain_lines (Some (sha256_hex l)) rest end.

(** A file of whole lines. *)
Definition file_of (ls : list string) : string := foldr (fun l r => l +:+ String nl r) "" ls.

Lemma split_on_line c l s : all_chars (fun a => negb (Ascii.eqb a c)) l = true ->
  split_on c (l +:+ String c s) = l :: split_on c s.
Proof.
  induction l as [|a l IH]; intros Hl.
  - change ("" +:+ String c s) with (String c s). cbn [split_on]. by rewrite Ascii.eqb_refl.
  - change (String a l +:+ String c s) with (String a (l +:+ String c s)). cbn [split_on all_chars] in *.
    apply andb_true_iff in Hl as [Ha Hl]. apply negb_true_iff in Ha. by rewrite Ha, IH.
Qed.

Definition one_line_text (l : string) : Prop := all_chars (fun a => negb (Ascii.eqb a nl || Ascii.eqb a cr)) l = true.

Lemma strip_cr_id l : one_line_text l -> strip_cr l = l.
Proof.
  unfold one_line_text. induction l as [|a [|b l] IH]; intros Hl; [done| |].
  - cbn in Hl. rewrite andb_true_r, negb_true_iff in Hl. apply orb_false_iff in Hl as [_ Hc]. cbn. by rewrite Hc.
  - cbn [strip_cr]. f_equal. apply IH. cbn [all_chars] in *. by apply andb_true_iff in Hl as [_ Hl].
Qed.

Lemma lines_file_of ls : Forall one_line_text ls -> lines (file_of ls) = ls.
Proof.
  unfold lines. induction 1 as [|l ls Hl Hls IH]; [done|].
  change (file_of (l :: ls)) with (l +:+ String nl (file_of ls)).
  rewrite split_on_line.
  - destruct (split_on nl (file_of ls)) as [|p r] eqn:Es; [by apply split_on_nonempty in Es|].
    cbn [lines_of]. change (match r with [] => if String.eqb p "" then [] else [p] | _ :: _ => strip_cr p :: lines_of r end) with (lines_of (p :: r)).
    by rewrite IH, strip_cr_id.
  - eapply all_chars_impl, Hl. intros a Ha. apply negb_true_iff in Ha. apply orb_false_iff in Ha as [-> _]. done.
Qed.

Lemma file_of_app ls ks : file_of (ls ++ ks) = file_of ls +:+ file_of ks.
Proof.
  induction ls as [|l ls IH]; [done|]. change (file_of ((l :: ls) ++ ks)) with (l +:+ String nl (file_of (ls ++ ks))).
  change (file_of (l :: ls)) with (l +:+ String nl (file_of ls)). rewrite IH, append_assoc. done.
Qed.

Definition whole_line (l : string) : Prop := one_line_text l /\ valid_utf8 l = true /\ nonblank l = true.

Lemma take_while_all {A} (p : A -> bool) l : Forall (fun x => p x = true) l -> take_while p l = l.
Proof. induction 1 as [|x l Hx Hl IH]; [done|]. cbn. by rewrite Hx, IH. Qed.

Lemma last_line_file_of ls : Forall whole_line ls -> last_line (file_of ls) = last ls.
Proof.
  intros Hw. unfold last_line, readable_lines.
  rewrite lines_file_of by (eapply Forall_impl; [exact Hw|by intros ? (?&?&?)]).
  rewrite take_while_all by (eapply Forall_impl; [exact Hw|by intros ? (?&?&?)]).
  rewrite retain_all; [done|]. eapply Forall_impl; [exact Hw|by intros ? (?&?&?)].
Qed.

Context `{!LineLaws}.

Lemma print_whole e h : whole_line (print e h).
Proof. split; [apply print_one_line|]. split; [apply print_utf8|apply print_nonblank]. Qed.

Lemma chain_whole es : forall prev, Forall whole_line (chain_lines prev es).
Proof. induction es as [|e es IH]; intros prev; cbn; constructor; [apply print_whole|apply IH]. Qed.

Lemma append_line_file_of ls e : Forall whole_line ls ->
  append_line (file_of ls) e = file_of (ls ++ [print e (sha256_hex <$> last ls)]).
Proof. intros Hw. unfold append_line, last_hash. rewrite last_line_file_of, file_of_app by done. done. Qed.

(** The hash before the next line. *)
Definition chain_end (prev : option string) (es : list E) : option string :=
  match last (chain_lines prev es) with Some l => Some (sha256_hex l) | None => prev end.

Lemma chain_lines_snoc es e : forall prev,
  chain_lines prev (es ++ [e]) = chain_lines prev es ++ [print e (chain_end prev es)].
Proof.
  induction es as [|x es IH]; intros prev; [done|]. cbn [app chain_lines]. rewrite IH. do 3 f_equal.
  unfold chain_end. cbn [chain_lines]. rewrite last_cons. by destruct (last (chain_lines _ es)).
Qed.

(** Appending entries one after the other, whoever appends them, writes exactly
    their chain. *)
Theorem appends_chain (es : list E) : foldl append_line "" es = file_of (chain_lines None es).
Proof.
  induction es as [|e es IH] using rev_ind; [done|]. rewrite foldl_app, IH. cbn [foldl].
  rewrite append_line_file_of, chain_lines_snoc by apply chain_whole.
  unfold chain_end. by destruct (last (chain_lines None es)).
Qed.

(** The last line commits to the whole file: two trails that end in the same
    line are the same trail, or SHA-256 collides on two of their lines. *)
Theorem last_line_commits (es ks : list E) :
  last (chain_lines None es) = last (chain_lines None ks) ->
  chain_lines None es = chain_lines None ks \/ exists x y, x <> y /\ sha256_hex x = sha256_hex y.
Proof.
  revert ks. induction es as [|e es IH] using rev_ind; intros ks Hl.
  - destruct ks as [|k ks _] using rev_ind; [by left|]. by rewrite chain_lines_snoc, last_snoc in Hl.
  - destruct ks as [|k ks _] using rev_ind; [by rewrite chain_lines_snoc, last_snoc in Hl|].
    rewrite !chain_lines_snoc, !last_snoc in Hl. injection Hl as Hl.
    assert (chain_end None es = chain_end None ks) as He by (by rewrite <- (prev_of_print e (chain_end None es)), Hl, prev_of_print).
    assert (last (chain_lines None es) = last (chain_lines None ks) \/ exists x y, x <> y /\ sha256_hex x = sha256_hex y) as [Hs|?];
      [|destruct (IH ks Hs) as [Eq|?]; [left; rewrite !chain_lines_snoc; congruence|by right]|by right].
    unfold chain_end in He. destruct (last (chain_lines None es)) as [x|], (last (chain_lines None ks)) as [y|]; try done; [|by left].
    injection He as He. destruct (decide (x = y)) as [->|Hne]; [by left|right; by exists x, y].
Qed.

(** What a chain does not show: its last lines can be cut off. *)
Theorem cut_tail_unnoticed (es ks : list E) : chain_lines None es `prefix_of` chain_lines None (es ++ ks).
Proof.
  generalize (@None string). induction es as [|e es IH]; intros prev; cbn; [apply prefix_nil|]. apply prefix_cons, IH.
Qed.

(** Nor is anything seen of a file that was cut inside a line: the next entry
    is glued to what is left of it. *)
Theorem torn_line_glued (ls : list string) (torn : string) (e : E) : Forall whole_line ls -> one_line_text torn ->
  lines (append_line (file_of ls +:+ torn) e) = ls ++ [torn +:+ print e (last_hash (file_of ls +:+ torn))].
Proof.
  intros Hw Ht. unfold append_line. generalize (last_hash (file_of ls +:+ torn)). intros h.
  replace ((file_of ls +:+ torn) +:+ print e h +:+ String nl "") with (file_of (ls ++ [torn +:+ print e h])).
  - rewrite lines_file_of; [done|]. apply Forall_app. split; [eapply Forall_impl; [exact Hw|by intros ? [? _]]|].
    constructor; [|done]. unfold one_line_text in *. rewrite all_chars_app, Ht. apply print_one_line.
  - rewrite file_of_app. cbn [file_of foldr]. by rewrite !append_assoc.
Qed.

End jsonl.
Arguments LinePrinter E : clear implicits.
Arguments LineLaws E {_}.

(** ** The trail of administrators *)

Record AdminActionEntry := {
  aa_ts : Z;
  aa_operator : string;
  aa_source : string;
  aa_action : string;
  aa_target : string;
  aa_parameters : Json;
  aa_result : string;
  aa_prev_hash : option string;
}.

Definition with_prev_hash (e : AdminActionEntry) (h : option string) : AdminActionEntry :=
  {| aa_ts := aa_ts e; aa_operator := aa_operator e; aa_source := aa_source e; aa_action := aa_action e;
     aa_target := aa_target e; aa_parameters := aa_parameters e; aa_result := aa_result e; aa_prev_hash := h |}.

(** What the clock and the file system answer to one append. *)
Record AuditIo := { io_today : string; dir_resolves : bool; file_opens : bool; lock_taken : bool }.

Definition date_shaped (today : string) : bool :=
  Nat.eqb (String.length today) 10 && all_chars (fun c => in_range 48 57 c || Ascii.eqb c "-") today.

Definition audit_file (today : string) : string := "admin-actions-" +:+ today +:+ ".jsonl".

Section admin.
Context (sha256_hex : string -> string) `{LinePrinter AdminActionEntry}.

(** The files of the data directory, by name; the path cannot leave the
    directory, since the name has no separator. *)
Definition append_admin_action (files : gmap string string) (io : AuditIo) (e : AdminActionEntry) :
    gmap string string * AdminActionEntry * result unit string :=
  if negb (date_shaped (io_today io)) then (files, e, Err "invalid date format")
  else if negb (dir_resolves io) then (files, e, Err "cannot resolve data dir")
  else if negb (file_opens io) then (files, e, Err "open")
  else
    let name := audit_file (io_today io) in
    let content := default "" (files !! name) in
    if negb (lock_taken io) then (<[name := content]> files, e, Err "failed to acquire audit file lock")
    else
      let e := with_prev_hash e (last_hash sha256_hex content) in
      (<[name := append_line sha256_hex content e]> files, e, Ok tt).

(** The entries of a file, from the appends that succeeded. *)
Definition accepted (io : AuditIo) : bool := date_shaped (io_today io) && dir_resolves io && file_opens io && lock_taken io.
Definition entries_for (name : string) (log : list (AuditIo * AdminActionEntry)) : list AdminActionEntry :=
  snd <$> retain (fun a => accepted a.1 && String.eqb (audit_file (io_today a.1)) name) log.

Definition audit_run (log : list (AuditIo * AdminActionEntry)) : gmap string string :=
  foldl (fun files a => (append_admin_action files a.1 a.2).1.1) ∅ log.

Context `{!LineLaws AdminActionEntry} (print_sets_prev : forall e h h', print (with_prev_hash e h') h = print e h).

Lemma append_admin_content files io e name :
  default "" ((append_admin_action files io e).1.1 !! name) =
  if accepted io && String.eqb (audit_file (io_today io)) name then append_line sha256_hex (default "" (files !! name)) e
  else default "" (files !! name).
Proof.
  unfold append_admin_action, accepted.
  destruct (date_shaped (io_today io)), (dir_resolves io), (file_opens io); cbn [negb andb fst snd]; try done.
  destruct (lock_taken io); cbn [negb andb fst snd]; (destruct (String.eqb_spec (audit_file (io_today io)) name) as [->|Hne];
    [rewrite lookup_insert_eq|by rewrite lookup_insert_ne]); [|done].
  cbn [default from_option Datatypes.id]. unfold append_line. by rewrite print_sets_prev.
Qed.

(** Whatever is appended, by whom and on which days, every daily file is the
    chain of the entries whose append succeeded that day, in their order. *)
Theorem audit_files_chained (log : list (AuditIo * AdminActionEntry)) (name : string) :
  default "" (audit_run log !! name) = file_of (chain_lines sha256_hex None (entries_for name log)).
Proof.
  unfold audit_run. rewrite <- (appends_chain sha256_hex). induction log as [|[io e] log IH] using rev_ind.
  - cbn. by rewrite lookup_empty.
  - rewrite foldl_app. cbn [foldl fst snd]. rewrite append_admin_content, IH. unfold entries_for, retain.
    rewrite List.filter_app, fmap_app, foldl_app. cbn [List.filter fst snd]. by destruct (accepted io && _).
Qed.
End admin.

(** ** A printer with the laws *)

(** Each byte as two letters. *)
Fixpoint letters (s : string) : string :=
  match s with
  | EmptyString => ""
  | String a r => String (byte_of (65 + code a / 16)) (String (byte_of (65 + code a mod 16)) (letters r))
  end.
Fixpoint unletters (s : string) : string :=
  match s with
  | String a (String b r) => String (byte_of ((code a - 65) * 16 + (code b - 65))) (unletters r)
  | _ => ""
  end.

#[local] Instance demo_printer : LinePrinter AdminActionEntry := {|
  print _ h := match h with None => "N" | Some h => String "S" (letters h) end;
  prev_of l := match l with String "S" r => Some (unletters r) | _ => None end
|}.

Lemma letter_bytes a :
  let x := byte_of (65 + code a / 16) in let y := byte_of (65 + code a mod 16) in
  in_range 65 80 x = true /\ in_range 65 80 y = true /\ byte_of ((code x - 65) * 16 + (code y - 65)) = a.
Proof.
  cbn zeta. assert (0 <= code a < 256)%Z as Ha by (unfold code; pose proof (N_ascii_bounded a); lia).
  unfold in_range. rewrite !code_byte_of.
  assert (0 <= code a / 16 < 16 /\ 0 <= code a mod 16 < 16)%Z as [Hd Hm]
    by (split; [split; [apply Z.div_pos; lia|apply Z.div_lt_upper_bound; lia]|apply Z.mod_pos_bound; lia]).
  rewrite !Z.mod_small by lia. split_and!; [apply andb_true_iff; rewrite !Z.leb_le; lia..|].
  apply code_inj. rewrite code_byte_of. pose proof (Z.div_mod (code a) 16 ltac:(lia)). rewrite Z.mod_small; lia.
Qed.

Lemma letters_range s : all_chars (in_range 65 80) (letters s) = true.
Proof.
  induction s as [|a s IH]; [done|]. cbn [letters all_chars]. destruct (letter_bytes a) as (-> & -> & _). exact IH.
Qed.

Lemma unletters_letters s : unletters (letters s) = s.
Proof. induction s as [|a s IH]; [done|]. cbn [letters unletters]. destruct (letter_bytes a) as (_ & _ & ->). by rewrite IH. Qed.

Lemma printable_ok s : all_chars (in_range 65 90) s = true -> s <> "" -> whole_line s.
Proof.
  intros Hs Hne. unfold whole_line, one_line_text. split_and!.
  - eapply all_chars_impl, Hs. intros a Ha. unfold in_range in Ha. bool_to_prop.
    apply negb_true_iff, orb_false_iff. split; apply Ascii.eqb_neq; intros ->; change (code nl) with 10%Z in *; change (code cr) with 13%Z in *; lia.
  - unfold valid_utf8. rewrite from_utf8_lossy_ascii; [apply String.eqb_refl|].
    clear Hne. induction s as [|a s IH]; [done|]. cbn [all_chars is_ascii] in *. apply andb_true_iff in Hs as [Ha Hs].
    rewrite IH, andb_true_r by done. unfold in_range in Ha. bool_to_prop. apply Z.ltb_lt. lia.
  - unfold nonblank. rewrite trim_visible by (eapply all_chars_impl, Hs; intros a Ha; unfold visible, in_range in *; bool_to_prop;
      apply andb_true_iff; rewrite !Z.leb_le; lia). by destruct (String.eqb_spec s "").
Qed.

Lemma demo_print_ok e h : whole_line (print e h).
Proof.
  destruct h as [h|]; cbn [print demo_printer]; apply printable_ok; try done. cbn [all_chars]. apply andb_true_iff. split; [done|].
  eapply all_chars_impl, (letters_range h). intros a Ha. unfold in_range in *. bool_to_prop. apply andb_true_iff. rewrite !Z.leb_le. lia.
Qed.

#[local] Instance demo_laws : LineLaws AdminActionEntry.
Proof.
  split; intros e h; try apply (demo_print_ok e h). destruct h as [h|]; cbn; [by rewrite unletters_letters|done].
Qed.

Definition demo_entry (action : string) : AdminActionEntry :=
  {| aa_ts := 0; aa_operator := "root"; aa_source := "cli"; aa_action := action; aa_target := "t"; aa_parameters := JNull;
     aa_result := "success"; aa_prev_hash := None |}.

Lemma last_line_commits_witness :
  let es := [demo_entry "enable"; demo_entry "disable"] in let ks := [demo_entry "a"; demo_entry "b"] in
  chain_lines letters None es = chain_lines letters None ks \/ exists x y, x <> y /\ letters x = letters y.
Proof.
  apply (last_line_commits letters [demo_entry "enable"; demo_entry "disable"] [demo_entry "a"; demo_entry "b"]). reflexivity.
Defined.

Lemma audit_files_chained_witness :
  let io := {| io_today := "2026-01-01"; dir_resolves := true; file_opens := true; lock_taken := true |} in
  default "" (audit_run letters [(io, demo_entry "enable"); (io, demo_entry "disable")] !! audit_file "2026-01-01") =
  file_of (chain_lines letters None (entries_for (audit_file "2026-01-01") [(io, demo_entry "enable"); (io, demo_entry "disable")])).
Proof. apply (audit_files_chained letters). reflexivity. Defined.

(** The chain starts again every day: the first line of a file names no hash, so
    a file that is removed as a whole leaves no trace in the others. *)
Theorem days_unlinked (sha256_hex : string -> string) `{LinePrinter AdminActionEntry} (files : gmap string string) (io : AuditIo) (e : AdminActionEntry) :
  accepted io = true -> files !! audit_file (io_today io) = None ->
  append_admin_action sha256_hex files io e =
    (<[audit_file (io_today io) := print (with_prev_hash e None) None +:+ String nl ""]> files, with_prev_hash e None, Ok tt).
Proof.
  unfold accepted. intros [[[Hd Hr]%andb_true_iff Ho]%andb_true_iff Hl]%andb_true_iff Hf.
  unfold append_admin_action. by rewrite Hd, Hr, Ho, Hl, Hf.
Qed.
