(* ===== verification/KillChain.v ===== *)
(** * KillChain: the syscall-category bitmask and its attack patterns
    (crates/killchain/src/patterns.rs)

    Nine flags, eight patterns; [match_patterns], [best_match], [proximity]
    (an [f32] fraction), [max_proximity] and the flag names.  The theorems say
    that the float fraction decides exactly what the bit masks decide: a
    proximity of one is full containment of the pattern, and the pre-chain
    band is an integer comparison of bit counts. *)

From Stdlib Require Import ZArith Lia String SpecFloat.
From stdpp Require Import prelude strings list.
From S2P Require Import Prelude Floats.

Open Scope Z_scope.

Definition CHAIN_SOCKET : Z := Z.shiftl 1 0.
Definition CHAIN_DUP_STDIN : Z := Z.shiftl 1 1.
Definition CHAIN_DUP_STDOUT : Z := Z.shiftl 1 2.
Definition CHAIN_DUP_STDERR : Z := Z.shiftl 1 3.
Definition CHAIN_BIND : Z := Z.shiftl 1 4.
Definition CHAIN_LISTEN : Z := Z.shiftl 1 5.
Definition CHAIN_PTRACE : Z := Z.shiftl 1 6.
Definition CHAIN_MPROTECT : Z := Z.shiftl 1 7.
Definition CHAIN_SENSITIVE_READ : Z := Z.shiftl 1 8.

Definition PATTERN_REVERSE_SHELL : Z :=
  Z.lor (Z.lor CHAIN_SOCKET CHAIN_DUP_STDIN) CHAIN_DUP_STDOUT.
Definition PATTERN_BIND_SHELL : Z :=
  Z.lor (Z.lor (Z.lor CHAIN_BIND CHAIN_LISTEN) CHAIN_DUP_STDIN) CHAIN_DUP_STDOUT.
Definition PATTERN_CODE_INJECT : Z := Z.lor CHAIN_PTRACE CHAIN_MPROTECT.
Definition PATTERN_EXPLOIT_SHELL : Z :=
  Z.lor (Z.lor CHAIN_MPROTECT CHAIN_DUP_STDIN) CHAIN_DUP_STDOUT.
Definition PATTERN_INJECT_SHELL : Z := Z.lor CHAIN_PTRACE CHAIN_DUP_STDIN.
Definition PATTERN_EXPLOIT_C2 : Z := Z.lor CHAIN_MPROTECT CHAIN_SOCKET.
Definition PATTERN_FULL_EXPLOIT : Z :=
  Z.lor (Z.lor CHAIN_MPROTECT CHAIN_PTRACE) CHAIN_SOCKET.
Definition PATTERN_DATA_EXFIL : Z := Z.lor CHAIN_SENSITIVE_READ CHAIN_SOCKET.

Definition ALL_PATTERNS : list (string * Z) :=
  [ ("reverse_shell", PATTERN_REVERSE_SHELL);
    ("bind_shell", PATTERN_BIND_SHELL);
    ("code_inject", PATTERN_CODE_INJECT);
    ("exploit_shell", PATTERN_EXPLOIT_SHELL);
    ("inject_shell", PATTERN_INJECT_SHELL);
    ("exploit_c2", PATTERN_EXPLOIT_C2);
    ("full_exploit", PATTERN_FULL_EXPLOIT);
    ("data_exfil", PATTERN_DATA_EXFIL) ].

Definition ALL_FLAGS : list (string * Z) :=
  [ ("socket", CHAIN_SOCKET);
    ("dup_stdin", CHAIN_DUP_STDIN);
    ("dup_stdout", CHAIN_DUP_STDOUT);
    ("dup_stderr", CHAIN_DUP_STDERR);
    ("bind", CHAIN_BIND);
    ("listen", CHAIN_LISTEN);
    ("ptrace", CHAIN_PTRACE);
    ("mprotect", CHAIN_MPROTECT);
    ("sensitive_read", CHAIN_SENSITIVE_READ) ].

Definition match_patterns (flags : Z) : list string :=
  fst <$> retain (fun '(_, pattern) => Z.land flags pattern =? pattern) ALL_PATTERNS.

Definition best_match (flags : Z) : option string :=
  fst <$> max_by_key (fun '(_, pattern) => count_ones pattern)
            (retain (fun '(_, pattern) => Z.land flags pattern =? pattern) ALL_PATTERNS).

Definition proximity (flags pattern : Z) : float :=
  let total := count_ones pattern in
  if total =? 0 then S754_zero false
  else
    let matched := count_ones (Z.land flags pattern) in
    f32_div (f32_of_Z matched) (f32_of_Z total).

(** Rust's [max_by] keeps the later element unless the earlier one is greater. *)
Definition max_proximity (flags : Z) : float * string :=
  let pick (acc : option (float * string)) (x : float * string) :=
    match acc with
    | None => Some x
    | Some a => match SFcompare a.1 x.1 with Some Gt => Some a | _ => Some x end
    end in
  match foldl pick None ((fun '(name, pattern) => (proximity flags pattern, name)) <$> ALL_PATTERNS) with
  | Some r => r
  | None => (S754_zero false, "unknown"%string)
  end.

Definition flag_names (flags : Z) : list string :=
  fst <$> retain (fun '(_, bit) => negb (Z.land flags bit =? 0)) ALL_FLAGS.

Definition pattern_flag_names (pattern_name : string) : list string :=
  match List.find (fun '(name, _) => String.eqb name pattern_name) ALL_PATTERNS with
  | Some (_, pattern) => flag_names pattern
  | None => []
  end.

(** [(prox - 1.0).abs() < f32::EPSILON], the full-match test of the tracker. *)
Definition is_full (prox : float) : bool :=
  f_ltb (SFabs (f32_sub prox (f32_of_Z 1))) f32_epsilon.

(** [prox >= threshold && prox < 1.0], the pre-chain test of the tracker. *)
Definition is_pre (threshold prox : float) : bool :=
  f_geb prox threshold && f_ltb prox (f32_of_Z 1).

(** ** Counting the bits a mask shares with the flags *)

Lemma count_ones_double_add (b : bool) z :
  0 <= z -> count_ones (2 * z + Z.b2z b) = Z.b2z b + count_ones z.
Proof. intros. destruct z, b; simpl; try lia; done. Qed.

Lemma land_double f z b :
  Z.land f (2 * z + Z.b2z b) = 2 * Z.land (Z.div2 f) z + Z.b2z (Z.odd f && b).
Proof.
  rewrite (Z.div2_odd f) at 1. apply Z.bits_inj'. intros i Hi.
  rewrite Z.land_spec. destruct (Z.eq_dec i 0) as [->|Hne].
  - rewrite !Z.testbit_0_r. by destruct (Z.odd f), b.
  - replace i with (Z.succ (i - 1)) by lia.
    rewrite !Z.testbit_succ_r by lia. by rewrite Z.land_spec.
Qed.

(** The shared bits are at most the mask's, and all of them exactly when the
    mask is contained. *)
Lemma count_ones_land (p : positive) : forall f,
  0 <= count_ones (Z.land f (Zpos p)) <= pos_ones p /\
  (count_ones (Z.land f (Zpos p)) = pos_ones p <-> Z.land f (Zpos p) = Zpos p).
Proof.
  induction p as [p IH|p IH|]; intros f.
  - change (Zpos p~1) with (2 * Zpos p + Z.b2z true).
    rewrite land_double, andb_true_r, count_ones_double_add by (apply Z.land_nonneg; lia).
    destruct (IH (Z.div2 f)) as [? IHeq]. simpl pos_ones.
    destruct (Z.odd f); simpl Z.b2z; split; lia.
  - change (Zpos p~0) with (2 * Zpos p + Z.b2z false).
    rewrite land_double, andb_false_r, count_ones_double_add by (apply Z.land_nonneg; lia).
    destruct (IH (Z.div2 f)) as [? IHeq]. simpl pos_ones. simpl Z.b2z. split; lia.
  - change 1 with (2 * 0 + Z.b2z true).
    rewrite land_double, andb_true_r, Z.land_0_r. by destruct (Z.odd f); simpl; split; lia.
Qed.

(** ** The masks of the table *)

Lemma ALL_PATTERNS_names_NoDup : NoDup (fst <$> ALL_PATTERNS).
Proof. by apply (bool_decide_unpack _). Qed.

Lemma pattern_mask_unique n m1 m2 :
  (n, m1) ∈ ALL_PATTERNS -> (n, m2) ∈ ALL_PATTERNS -> m1 = m2.
Proof. apply NoDup_fst_inj, ALL_PATTERNS_names_NoDup. Qed.

(** Every pattern needs two, three or four bits. *)
Lemma pattern_total n m :
  (n, m) ∈ ALL_PATTERNS -> exists p, m = Zpos p /\ (pos_ones p = 2 \/ pos_ones p = 3 \/ pos_ones p = 4).
Proof.
  assert (Forall (fun x => exists p, x.2 = Zpos p /\ (pos_ones p = 2 \/ pos_ones p = 3 \/ pos_ones p = 4))
            ALL_PATTERNS) as H.
  { repeat constructor; eexists; (split; [reflexivity|]); simpl; tauto. }
  intros Hin. by apply (proj1 (Forall_forall _ _) H (n, m)).
Qed.

Lemma match_patterns_elem flags n :
  n ∈ match_patterns flags <-> exists m, (n, m) ∈ ALL_PATTERNS /\ has_bits flags m = true.
Proof.
  unfold match_patterns. rewrite list_elem_of_fmap. split.
  - intros ([n' m] & -> & [Hin Hb]%retain_elem). by exists m.
  - intros (m & Hin & Hb). exists (n, m). split; [done|]. by apply retain_elem.
Qed.

Lemma match_patterns_0 : match_patterns 0 = [].
Proof. reflexivity. Qed.

Lemma match_patterns_NoDup flags : NoDup (match_patterns flags).
Proof.
  unfold match_patterns.
  apply (sublist_NoDup _ (fst <$> ALL_PATTERNS)); [apply ALL_PATTERNS_names_NoDup|].
  apply fmap_sublist, retain_sublist.
Qed.

(** ** The float fraction decides what the masks decide *)

Lemma proximity_as_count flags n m :
  (n, m) ∈ ALL_PATTERNS ->
  exists k t, (t = 2 \/ t = 3 \/ t = 4) /\ 0 <= k <= t /\ count_ones m = t /\
    count_ones (Z.land flags m) = k /\ (k = t <-> has_bits flags m = true) /\
    proximity flags m = f32_div (f32_of_Z k) (f32_of_Z t).
Proof.
  intros (p & -> & Ht)%pattern_total.
  destruct (count_ones_land p flags) as [Hle Heq].
  exists (count_ones (Z.land flags (Zpos p))), (pos_ones p).
  unfold has_bits. rewrite Z.eqb_eq. repeat split; try tauto; try lia.
  unfold proximity. simpl count_ones at 1.
  rewrite (proj2 (Z.eqb_neq (pos_ones p) 0)) by lia. done.
Qed.

Ltac enum_proximity :=
  match goal with
  | Ht : ?t = 2 \/ ?t = 3 \/ ?t = 4, Hk : 0 <= ?k <= ?t |- _ =>
      assert (k = 0 \/ k = 1 \/ k = 2 \/ k = 3 \/ k = 4) by lia;
      destruct_or!; subst t; subst k; try lia
  end.

Lemma is_full_iff flags n m :
  (n, m) ∈ ALL_PATTERNS -> is_full (proximity flags m) = has_bits flags m.
Proof.
  intros (k & t & Ht & Hk & _ & _ & Heq & ->)%(proximity_as_count flags).
  destruct (has_bits flags m) eqn:E.
  - assert (k = t) as -> by tauto. clear Heq. destruct_or!; subst t; reflexivity.
  - assert (k <> t) by (intros ->; naive_solver). enum_proximity; reflexivity.
Qed.

Lemma is_pre_iff flags n m :
  (n, m) ∈ ALL_PATTERNS ->
  is_pre (f32_lit 6 10) (proximity flags m) = true <->
  3 * count_ones m <= 5 * count_ones (Z.land flags m) /\ has_bits flags m = false.
Proof.
  intros (k & t & Ht & Hk & -> & -> & Heq & ->)%(proximity_as_count flags).
  assert (has_bits flags m = false <-> k <> t) as ->.
  { rewrite Heq. by destruct (has_bits flags m). }
  clear Heq. enum_proximity; vm_compute; split; try done; naive_solver lia.
Qed.

(** ** Properties *)

(** [match_patterns] reports a pattern exactly when every bit the pattern
    requires is set in the flags, and never reports a pattern twice. *)
Theorem match_patterns_exact (flags : Z) :
  NoDup (match_patterns flags) /\
  forall name mask, (name, mask) ∈ ALL_PATTERNS ->
    (name ∈ match_patterns flags <->
     forall i, Z.testbit mask i = true -> Z.testbit flags i = true).
Proof.
  split; [apply match_patterns_NoDup|]. intros name mask Hin.
  rewrite <- has_bits_spec, match_patterns_elem. split; [|by eauto].
  intros (m & Hm & Hb). by rewrite (pattern_mask_unique name mask m).
Qed.

Lemma match_patterns_exact_witness :
  "data_exfil"%string ∈ match_patterns 257.
Proof.
  apply (proj2 (match_patterns_exact 257) "data_exfil" PATTERN_DATA_EXFIL).
  - by apply (bool_decide_unpack _).
  - apply has_bits_spec. reflexivity.
Defined.

(** [best_match] is the most specific full match: it answers [None] only
    when no pattern is contained in the flags, and otherwise a contained
    pattern with at least as many bits as any other contained pattern. *)
Theorem best_match_most_specific (flags : Z) :
  match best_match flags with
  | None => forall name mask, (name, mask) ∈ ALL_PATTERNS -> has_bits flags mask = false
  | Some name =>
      exists mask, (name, mask) ∈ ALL_PATTERNS /\ has_bits flags mask = true /\
        forall name' mask', (name', mask') ∈ ALL_PATTERNS -> has_bits flags mask' = true ->
          count_ones mask' <= count_ones mask
  end.
Proof.
  unfold best_match. set (l := retain _ ALL_PATTERNS).
  assert (Hl : forall n m, (n, m) ∈ l <-> (n, m) ∈ ALL_PATTERNS /\ has_bits flags m = true).
  { intros n m. unfold l. by rewrite retain_elem. }
  destruct (max_by_key _ l) as [[name mask]|] eqn:E; simpl.
  - apply max_by_key_Some in E as [Hin Hmax]. apply Hl in Hin as [??].
    exists mask. repeat split; [done..|]. intros n' m' ? ?.
    apply (Hmax (n', m')). by apply Hl.
  - apply max_by_key_None in E. intros name mask Hin.
    apply not_true_iff_false. intros Hb. apply (elem_of_nil (name, mask)).
    rewrite <- E. by apply Hl.
Qed.

(** The tracker's float tests decide bit containment exactly: a proximity
    within epsilon of one is the full pattern, and with the default threshold
    the pre-chain band is "at least three fifths of the pattern's bits, but not
    all of them". *)
Theorem proximity_decides (flags mask : Z) (name : string) :
  (name, mask) ∈ ALL_PATTERNS ->
  (is_full (proximity flags mask) = true <-> has_bits flags mask = true) /\
  (is_pre (f32_lit 6 10) (proximity flags mask) = true <->
     3 * count_ones mask <= 5 * count_ones (Z.land flags mask) /\ has_bits flags mask = false).
Proof. intros H. split; [by rewrite (is_full_iff flags name)|by apply (is_pre_iff flags name)]. Qed.

Lemma proximity_decides_witness :
  ("reverse_shell"%string, PATTERN_REVERSE_SHELL) ∈ ALL_PATTERNS /\
  is_pre (f32_lit 6 10) (proximity 3 PATTERN_REVERSE_SHELL) = true.
Proof.
  assert (H : ("reverse_shell"%string, PATTERN_REVERSE_SHELL) ∈ ALL_PATTERNS).
  { by apply (bool_decide_unpack _). }
  split; [exact H|].
  apply (proximity_decides 3 PATTERN_REVERSE_SHELL "reverse_shell" H).
  split; [vm_compute; discriminate|reflexivity].
Defined.
