(* ===== verification/KillChainTracker.v ===== *)
(** * KillChainTracker: the per-PID kill-chain tracker
    (crates/killchain/src/{types,bridge,tracker}.rs)

    [process_event] reads one eBPF event, merges its flag into the state of its
    PID and emits pre-chain warnings and full-match incidents.  The state of the
    model is the tracker's: a map from PID to [PidChainState].  The clock
    ([Utc::now]) is an argument, chrono's text is the class [Chrono]. *)

From Stdlib Require Import ZArith Lia Ascii String SpecFloat.
From stdpp Require Import prelude strings gmap list.
From S2P Require Import Prelude Text Json Floats KillChain.

Local Open Scope string_scope.
Local Open Scope list_scope.
Local Open Scope Z_scope.

(** ** types.rs *)

Record ChainEvent := {
  ce_ts : Z;
  ce_syscall : string;
  ce_details : Json;
  ce_flag_set : Z;
}.

Record PidChainState := {
  cs_pid : Z;
  cs_uid : Z;
  cs_comm : string;
  cs_host : string;
  cs_flags : Z;
  cs_events : list ChainEvent;
  cs_first_seen : Z;
  cs_last_seen : Z;
  cs_last_connect_ip : option string;
  cs_last_connect_port : option Z;
  cs_last_sensitive_read_path : option string;
  cs_emitted_pre_chain : list string;
  cs_emitted_full_match : list string;
}.

Definition PidChainState_new (pid uid : Z) (comm host : string) (ts : Z) : PidChainState := {|
  cs_pid := pid; cs_uid := uid; cs_comm := comm; cs_host := host;
  cs_flags := 0; cs_events := []; cs_first_seen := ts; cs_last_seen := ts;
  cs_last_connect_ip := None; cs_last_connect_port := None;
  cs_last_sensitive_read_path := None;
  cs_emitted_pre_chain := []; cs_emitted_full_match := [];
|}.

Definition add_flag (s : PidChainState) (flag : Z) (event : ChainEvent) : PidChainState := {|
  cs_pid := cs_pid s; cs_uid := cs_uid s; cs_comm := cs_comm s; cs_host := cs_host s;
  cs_flags := Z.lor (cs_flags s) flag;
  cs_events := cs_events s ++ [event];
  cs_first_seen := cs_first_seen s;
  cs_last_seen := ce_ts event;
  cs_last_connect_ip := cs_last_connect_ip s;
  cs_last_connect_port := cs_last_connect_port s;
  cs_last_sensitive_read_path := cs_last_sensitive_read_path s;
  cs_emitted_pre_chain := cs_emitted_pre_chain s;
  cs_emitted_full_match := cs_emitted_full_match s;
|}.

Definition is_stale (s : PidChainState) (now timeout_secs : Z) : bool :=
  timeout_secs <? num_seconds (now - cs_last_seen s).

(** ** bridge.rs *)

Fixpoint parse_octets (l : list string) : option (list Z) :=
  match l with
  | [] => Some []
  | s :: r =>
      match parse_uint 8 s, parse_octets r with
      | Some v, Some vs => Some (v :: vs)
      | _, _ => None
      end
  end.

Definition is_private_octets (a b c : Z) : bool :=
  if a =? 0 then true
  else if a =? 10 then true
  else if a =? 127 then true
  else if (a =? 169) && (b =? 254) then true
  else if (a =? 172) && ((16 <=? b) && (b <=? 31)) then true
  else if (a =? 192) && (b =? 168) then true
  else if (a =? 192) && ((b =? 0) && (c =? 2)) then true
  else if (a =? 198) && ((b =? 51) && (c =? 100)) then true
  else if (a =? 203) && ((b =? 0) && (c =? 113)) then true
  else false.

Definition is_private_ip (ip : string) : bool :=
  match parse_octets (split_on "."%char ip) with
  | Some [a; b; c; _] => is_private_octets a b c
  | _ => true
  end.

Definition extract_c2 (state : PidChainState) : option (string * Z) :=
  if Z.land (cs_flags state) CHAIN_SOCKET =? 0 then None
  else
    match cs_last_connect_ip state, cs_last_connect_port state with
    | Some ip, Some port => if is_private_ip ip then None else Some (ip, port)
    | _, _ => None
    end.

(** ** tracker.rs *)

Definition is_sensitive_read_path (path : string) : bool :=
  contains "/etc/shadow" path
  || contains "/etc/gshadow" path
  || contains "/etc/sudoers" path
  || contains ".ssh/id_" path
  || contains ".ssh/authorized_keys" path
  || contains "/.env" path
  || contains ".gnupg/" path
  || contains ".netrc" path
  || contains ".aws/credentials" path
  || contains ".docker/config.json" path
  || contains "gcloud/application_default_credentials.json" path
  || contains ".azure/accessTokens.json" path
  || contains ".kube/config" path
  || contains "/var/run/secrets/kubernetes.io/serviceaccount/token" path.

Record PidTracker := {
  pt_pids : gmap Z PidChainState;
  pt_session_timeout_secs : Z;
  pt_pre_chain_threshold : float;
  pt_excluded_comms : gset string;
}.

Definition PidTracker_new : PidTracker := {|
  pt_pids := ∅;
  pt_session_timeout_secs := 300;
  pt_pre_chain_threshold := f32_lit 6 10;
  pt_excluded_comms := ∅;
|}.

Definition with_timeout (t : PidTracker) (secs : Z) : PidTracker := {|
  pt_pids := pt_pids t; pt_session_timeout_secs := secs;
  pt_pre_chain_threshold := pt_pre_chain_threshold t;
  pt_excluded_comms := pt_excluded_comms t |}.

Definition with_pre_chain_threshold (t : PidTracker) (threshold : float) : PidTracker := {|
  pt_pids := pt_pids t; pt_session_timeout_secs := pt_session_timeout_secs t;
  pt_pre_chain_threshold := threshold;
  pt_excluded_comms := pt_excluded_comms t |}.

Definition with_excluded_comms (t : PidTracker) (comms : list string) : PidTracker := {|
  pt_pids := pt_pids t; pt_session_timeout_secs := pt_session_timeout_secs t;
  pt_pre_chain_threshold := pt_pre_chain_threshold t;
  pt_excluded_comms := list_to_set comms |}.

Definition is_excluded_comm (t : PidTracker) (comm : string) : bool :=
  bool_decide (comm ∈ pt_excluded_comms t).

Definition with_pids (t : PidTracker) (pids : gmap Z PidChainState) : PidTracker := {|
  pt_pids := pids; pt_session_timeout_secs := pt_session_timeout_secs t;
  pt_pre_chain_threshold := pt_pre_chain_threshold t;
  pt_excluded_comms := pt_excluded_comms t |}.

(** Helpers at the end of tracker.rs; [!current_flags] is the 32-bit complement. *)
Definition matched_flag_names (current_flags pattern_mask : Z) : list string :=
  flag_names (Z.land current_flags pattern_mask).
Definition missing_flag_names (current_flags pattern_mask : Z) : list string :=
  flag_names (Z.land pattern_mask (Z.lxor current_flags (2 ^ 32 - 1))).

(** Step 1: the fields of the event. *)
Record EventFields := {
  ef_kind : string;
  ef_details : Json;
  ef_pid : Z;
  ef_uid : Z;
  ef_comm : string;
  ef_ts : Z;
  ef_host : string;
}.

Section tracker.
Context `{Chrono}.

Definition extract_fields (t : PidTracker) (now : Z) (event : Json) : option EventFields :=
  match get_str event "kind", get event "details" with
  | Some kind, Some details =>
      match get_u64 details "pid" with
      | None => None
      | Some p =>
          let pid := wrap 32 p in
          let uid := wrap 32 (default 0 (get_u64 details "uid")) in
          let comm := default "unknown" (get_str details "comm") in
          if is_excluded_comm t comm then None
          else
            let ts_str := default "" (get_str event "ts") in
            let ts := default now (parse_utc ts_str) in
            let host := default "unknown" (get_str event "host") in
            Some {| ef_kind := kind; ef_details := details; ef_pid := pid;
                    ef_uid := uid; ef_comm := comm; ef_ts := ts; ef_host := host |}
      end
  | _, _ => None
  end.

(** Step 2: the flag of an event kind, with the captured sensitive path. *)
Definition event_flag (kind : string) (details : Json) : option (Z * option string) :=
  if String.eqb kind "process.clone" then None
  else if String.eqb kind "network.outbound_connect" then Some (CHAIN_SOCKET, None)
  else if String.eqb kind "network.bind_listen" then Some (CHAIN_BIND, None)
  else if String.eqb kind "network.listen" then Some (CHAIN_LISTEN, None)
  else if String.eqb kind "process.ptrace_attach" then Some (CHAIN_PTRACE, None)
  else if String.eqb kind "process.fd_redirect" then
    let newfd := default u64_max (get_u64 details "newfd") in
    if newfd =? 0 then Some (CHAIN_DUP_STDIN, None)
    else if newfd =? 1 then Some (CHAIN_DUP_STDOUT, None)
    else if newfd =? 2 then Some (CHAIN_DUP_STDERR, None)
    else None
  else if String.eqb kind "memory.mprotect_exec" then
    let rwx := default false (get_bool details "rwx") in
    if negb rwx then None else Some (CHAIN_MPROTECT, None)
  else if String.eqb kind "file.open" || String.eqb kind "file.read_access" then
    let path :=
      default "" ((match get details "filename" with
                   | Some v => Some v
                   | None => get details "path" end) ≫= as_str) in
    if negb (is_sensitive_read_path path) then None
    else Some (CHAIN_SENSITIVE_READ, Some path)
  else None.

(** Step 3: create or update the state of the PID. *)
Definition merge_event (f : EventFields) (flag : Z) (captured : option string)
    (old : option PidChainState) : PidChainState :=
  let state := default (PidChainState_new (ef_pid f) (ef_uid f) (ef_comm f) (ef_host f) (ef_ts f)) old in
  let state := add_flag state flag
    {| ce_ts := ef_ts f; ce_syscall := ef_kind f; ce_details := ef_details f; ce_flag_set := flag |} in
  let connect := String.eqb (ef_kind f) "network.outbound_connect" in
  {| cs_pid := cs_pid state; cs_uid := cs_uid state; cs_comm := ef_comm f;
     cs_host := cs_host state; cs_flags := cs_flags state; cs_events := cs_events state;
     cs_first_seen := cs_first_seen state; cs_last_seen := cs_last_seen state;
     cs_last_connect_ip :=
       if connect then
         match get_str (ef_details f) "dst_ip" with
         | Some ip => Some ip | None => cs_last_connect_ip state end
       else cs_last_connect_ip state;
     cs_last_connect_port :=
       if connect then
         match get_u64 (ef_details f) "dst_port" with
         | Some port => Some (wrap 16 port) | None => cs_last_connect_port state end
       else cs_last_connect_port state;
     cs_last_sensitive_read_path :=
       match captured with Some p => Some p | None => cs_last_sensitive_read_path state end;
     cs_emitted_pre_chain := cs_emitted_pre_chain state;
     cs_emitted_full_match := cs_emitted_full_match state |}.

Definition push_pre (s : PidChainState) (name : string) : PidChainState := {|
  cs_pid := cs_pid s; cs_uid := cs_uid s; cs_comm := cs_comm s; cs_host := cs_host s;
  cs_flags := cs_flags s; cs_events := cs_events s; cs_first_seen := cs_first_seen s;
  cs_last_seen := cs_last_seen s; cs_last_connect_ip := cs_last_connect_ip s;
  cs_last_connect_port := cs_last_connect_port s;
  cs_last_sensitive_read_path := cs_last_sensitive_read_path s;
  cs_emitted_pre_chain := cs_emitted_pre_chain s ++ [name];
  cs_emitted_full_match := cs_emitted_full_match s |}.

Definition push_full (s : PidChainState) (name : string) : PidChainState := {|
  cs_pid := cs_pid s; cs_uid := cs_uid s; cs_comm := cs_comm s; cs_host := cs_host s;
  cs_flags := cs_flags s; cs_events := cs_events s; cs_first_seen := cs_first_seen s;
  cs_last_seen := cs_last_seen s; cs_last_connect_ip := cs_last_connect_ip s;
  cs_last_connect_port := cs_last_connect_port s;
  cs_last_sensitive_read_path := cs_last_sensitive_read_path s;
  cs_emitted_pre_chain := cs_emitted_pre_chain s;
  cs_emitted_full_match := cs_emitted_full_match s ++ [name] |}.

Definition timeline_json (events : list ChainEvent) : Json :=
  JArr ((fun e => JObj [
    ("ts", JStr (to_rfc3339 (ce_ts e)));
    ("kind", JStr (ce_syscall e));
    ("flag", JStr (match flag_names (ce_flag_set e) with n :: _ => n | [] => "unknown" end))
  ]) <$> events).

Definition strs (l : list string) : Json := JArr (JStr <$> l).

(** Evidence fields shared by both incidents: C2 endpoint, sensitive file. *)
Definition enrich (state : PidChainState) (evidence : Json) : Json :=
  let evidence :=
    match extract_c2 state with
    | Some (ip, port) => set_key (set_key evidence "c2_ip" (JStr ip)) "c2_port" (JInt port)
    | None => evidence
    end in
  match cs_last_sensitive_read_path state with
  | Some path => set_key evidence "sensitive_file" (JStr path)
  | None => evidence
  end.

Definition c2_entities (state : PidChainState) : Json :=
  match extract_c2 state with
  | Some (ip, _) => JArr [JObj [("type", JStr "ip"); ("value", JStr ip)]]
  | None => JArr []
  end.

(** Step 5: the pre-chain warning. *)
Definition pre_chain_incident (f : EventFields) (state : PidChainState)
    (name : string) (mask : Z) (prox : float) : Json :=
  let matched := matched_flag_names (cs_flags state) mask in
  let missing := missing_flag_names (cs_flags state) mask in
  let total := show (count_ones mask) in
  let matched_count := show (Z.of_nat (length matched)) in
  let pattern_upper := to_ascii_uppercase name in
  let pid := show (ef_pid f) in
  let evidence := enrich state (JObj [
    ("kind", JStr "pre_chain_warning");
    ("pattern", JStr pattern_upper);
    ("proximity", JFloat prox);
    ("matched_bits", strs matched);
    ("missing_bits", strs missing);
    ("timeline", timeline_json (cs_events state));
    ("pid", JInt (ef_pid f));
    ("comm", JStr (cs_comm state));
    ("uid", JInt (cs_uid state))]) in
  let recommended :=
    (match extract_c2 state with
     | Some (ip, _) => ["Block C2 IP preemptively: innerwarden block " +:+ ip]
     | None => [] end
     ++ ["Investigate PID " +:+ pid +:+ " (" +:+ ef_comm f +:+ ") immediately";
         "Review process tree: ps auxf | grep " +:+ pid]) in
  JObj [
    ("ts", JStr (to_rfc3339 (ef_ts f)));
    ("host", JStr (ef_host f));
    ("incident_id", JStr ("kill_chain:pre_chain:" +:+ pattern_upper +:+ ":" +:+ pid +:+ ":"
                          +:+ fmt_minute (ef_ts f)));
    ("severity", JStr "medium");
    ("title", JStr ("Kill chain forming: " +:+ pattern_upper +:+ " (" +:+ matched_count +:+ "/"
                    +:+ total +:+ " bits, PID " +:+ pid +:+ ")"));
    ("summary", JStr ("PID " +:+ pid +:+ " (" +:+ ef_comm f +:+ ") has accumulated "
                      +:+ matched_count +:+ " of " +:+ total +:+ " syscall categories for "
                      +:+ pattern_upper +:+ ". Next syscall may trigger kernel LSM block."));
    ("evidence", JArr [evidence]);
    ("recommended_checks", strs recommended);
    ("tags", strs ["kill_chain"; "pre_chain"; name]);
    ("entities", c2_entities state)].

(** Step 6: the full-match incident. *)
Definition full_match_incident (f : EventFields) (state : PidChainState)
    (name : string) (mask : Z) : Json :=
  let matched := flag_names mask in
  let pattern_upper := to_ascii_uppercase name in
  let pid := show (ef_pid f) in
  let evidence := enrich state (JObj [
    ("kind", JStr "kill_chain_detected");
    ("pattern", JStr pattern_upper);
    ("chain_flags", JStr ("0x" +:+ show_hex02 mask));
    ("chain_bits", strs matched);
    ("timeline", timeline_json (cs_events state));
    ("pid", JInt (ef_pid f));
    ("comm", JStr (cs_comm state));
    ("uid", JInt (ef_uid f))]) in
  let recommended :=
    (match extract_c2 state with
     | Some (ip, _) => ["Block C2 IP: innerwarden block " +:+ ip]
     | None => [] end
     ++ ["Kill PID " +:+ pid +:+ " immediately: kill -9 " +:+ pid;
         "Audit process: ps auxf | grep " +:+ pid;
         "Check for persistence: crontab -l -u " +:+ show (ef_uid f)]) in
  JObj [
    ("ts", JStr (to_rfc3339 (ef_ts f)));
    ("host", JStr (ef_host f));
    ("incident_id", JStr ("kill_chain:detected:" +:+ pattern_upper +:+ ":" +:+ pid +:+ ":"
                          +:+ fmt_minute (ef_ts f)));
    ("severity", JStr "critical");
    ("title", JStr ("Kill chain detected: " +:+ pattern_upper +:+ " (PID " +:+ pid +:+ ", "
                    +:+ ef_comm f +:+ ")"));
    ("summary", JStr ("PID " +:+ pid +:+ " (" +:+ ef_comm f +:+ ") completed " +:+ pattern_upper
                      +:+ " pattern (" +:+ join " + " matched
                      +:+ "). Kernel LSM will block next execve()."));
    ("evidence", JArr [evidence]);
    ("recommended_checks", strs recommended);
    ("tags", strs ["kill_chain"; "detected"; name]);
    ("entities", c2_entities state)].

(** Step 4: one pattern of the loop; the state and the incidents so far. *)
Definition check_pattern (threshold : float) (f : EventFields)
    (acc : PidChainState * list Json) (pattern : string * Z) : PidChainState * list Json :=
  let '(state, incidents) := acc in
  let '(name, mask) := pattern in
  let prox := proximity (cs_flags state) mask in
  let '(state, incidents) :=
    if is_pre threshold prox && negb (mem_str name (cs_emitted_pre_chain state)) then
      let state := push_pre state name in
      (state, (incidents ++ [pre_chain_incident f state name mask prox]))
    else (state, incidents) in
  if is_full prox && negb (mem_str name (cs_emitted_full_match state)) then
    let state := push_full state name in
    (state, (incidents ++ [full_match_incident f state name mask]))
  else (state, incidents).

Definition process_event (t : PidTracker) (now : Z) (event : Json) : PidTracker * list Json :=
  match extract_fields t now event with
  | None => (t, [])
  | Some f =>
      match event_flag (ef_kind f) (ef_details f) with
      | None => (t, [])
      | Some (flag, captured) =>
          let state := merge_event f flag captured (pt_pids t !! ef_pid f) in
          let '(state, incidents) :=
            foldl (check_pattern (pt_pre_chain_threshold t) f) (state, []) ALL_PATTERNS in
          (with_pids t (<[ef_pid f := state]> (pt_pids t)), incidents)
      end
  end.

(** ** Maintenance *)

Definition cleanup_stale (t : PidTracker) (now : Z) : PidTracker :=
  with_pids t (filter (fun kv => is_stale kv.2 now (pt_session_timeout_secs t) = false) (pt_pids t)).

Definition get_state (t : PidTracker) (pid : Z) : option PidChainState := pt_pids t !! pid.

Definition stats (t : PidTracker) : nat * nat * nat :=
  let states := snd <$> map_to_list (pt_pids t) in
  (size (pt_pids t),
   sum_list ((fun s => length (cs_emitted_pre_chain s)) <$> states),
   sum_list ((fun s => length (cs_emitted_full_match s)) <$> states)).
End tracker.

(** ** What an incident says: PID and pattern of a full match *)

Definition critical_key (inc : Json) : option (Z * string) :=
  match get_str inc "severity", get_array inc "evidence", get_array inc "tags" with
  | Some sev, Some [ev], Some [_; _; JStr name] =>
      if String.eqb sev "critical" then
        match get ev "pid" with Some (JInt pid) => Some (pid, name) | _ => None end
      else None
  | _, _, _ => None
  end.

(** Names of the patterns reported as complete for [pid] in a list of incidents. *)
Definition detected (pid : Z) (incs : list Json) : list string :=
  omap (fun inc => match critical_key inc with
                   | Some (p, n) => if p =? pid then Some n else None
                   | None => None end) incs.

(** Flags the tracker holds for a PID. *)
Definition flags_of (t : PidTracker) (pid : Z) : Z :=
  match get_state t pid with Some s => cs_flags s | None => 0 end.

(** ** The tracker as a transition system *)

Section steps.
Context `{Chrono}.

Inductive tracker_step : PidTracker -> PidTracker -> Prop :=
| step_event t now event : tracker_step t (process_event t now event).1
| step_cleanup t now : tracker_step t (cleanup_stale t now).

Definition reachable (t : PidTracker) : Prop :=
  exists t0, pt_pids t0 = ∅ /\ rtc tracker_step t0 t.

(** Feeding a sequence of events, collecting every incident. *)
Fixpoint run (t : PidTracker) (es : list (Z * Json)) : PidTracker * list Json :=
  match es with
  | [] => (t, [])
  | (now, e) :: r =>
      let '(t1, i1) := process_event t now e in
      let '(t2, i2) := run t1 r in
      (t2, (i1 ++ i2)%list)
  end.
End steps.

(** The invariant of one PID's state. *)
Record state_ok (s : PidChainState) : Prop := {
  ok_flags : cs_flags s = foldr Z.lor 0 (ce_flag_set <$> cs_events s);
  ok_full_NoDup : NoDup (cs_emitted_full_match s);
  ok_full : forall n, n ∈ cs_emitted_full_match s <-> n ∈ match_patterns (cs_flags s);
  ok_pre_NoDup : NoDup (cs_emitted_pre_chain s);
}.

Definition tracker_ok (t : PidTracker) : Prop :=
  map_Forall (fun pid s => cs_pid s = pid /\ (cs_comm s ∉ pt_excluded_comms t) /\ state_ok s) (pt_pids t).

(** ** Lemmas on the incidents *)

Section lemmas.
Context `{Chrono}.

Lemma enrich_pid s ev o : ev = JObj o ->
  get (enrich s ev) "pid" = assoc "pid" o.
Proof.
  intros ->. unfold enrich.
  destruct (extract_c2 s) as [[ip port]|], (cs_last_sensitive_read_path s); cbn [set_key get];
    by rewrite ?assoc_set_other by done.
Qed.

Lemma critical_key_full f s n m :
  critical_key (full_match_incident f s n m) = Some (ef_pid f, n).
Proof.
  unfold full_match_incident. cbv zeta.
  unfold critical_key, get_str, get_array.
  cbn -[enrich flag_names timeline_json to_ascii_uppercase].
  by erewrite enrich_pid by reflexivity.
Qed.

Lemma critical_key_pre f s n m p : critical_key (pre_chain_incident f s n m p) = None.
Proof.
  unfold pre_chain_incident. cbv zeta.
  unfold critical_key, get_str, get_array.
  by cbn -[enrich flag_names timeline_json to_ascii_uppercase].
Qed.

(** What the pattern loop leaves alone. *)
Definition same_core (s s' : PidChainState) : Prop :=
  cs_flags s' = cs_flags s /\ cs_events s' = cs_events s /\ cs_pid s' = cs_pid s /\
  cs_comm s' = cs_comm s.

Lemma check_pattern_spec th f s l n m s' l' :
  check_pattern th f (s, l) (n, m) = (s', l') ->
  let new := if is_full (proximity (cs_flags s) m) && negb (mem_str n (cs_emitted_full_match s))
             then [n] else [] in
  same_core s s' /\ cs_emitted_full_match s' = cs_emitted_full_match s ++ new /\
  omap critical_key l' = omap critical_key l ++ ((ef_pid f,.) <$> new) /\
  (NoDup (cs_emitted_pre_chain s) -> NoDup (cs_emitted_pre_chain s')).
Proof.
  unfold check_pattern. intros E.
  destruct (is_pre th (proximity (cs_flags s) m) && _) eqn:Epre.
  - cbn [cs_flags cs_emitted_full_match push_pre] in E.
    assert (Hnd : NoDup (cs_emitted_pre_chain s) -> NoDup (cs_emitted_pre_chain s ++ [n])).
    { intros Hs. apply andb_true_iff in Epre as [_ Hn%negb_true_iff%mem_str_false].
      apply NoDup_app. split_and!; [done| |apply NoDup_singleton].
      intros x Hx Hx'%list_elem_of_singleton. by subst. }
    destruct (is_full _ && _); simplify_eq/=; unfold same_core; split_and!; try done;
      rewrite ?omap_app; simpl; rewrite ?critical_key_full, ?critical_key_pre; simpl;
      by rewrite ?app_nil_r.
  - destruct (is_full _ && _); simplify_eq/=; unfold same_core; split_and!; try done;
      rewrite ?omap_app; simpl; rewrite ?critical_key_full; simpl; by rewrite ?app_nil_r.
Qed.

Lemma check_patterns_spec th f L : forall s l s' l',
  NoDup (fst <$> L) ->
  foldl (check_pattern th f) (s, l) L = (s', l') ->
  let new := fst <$> retain (fun '(n, m) => is_full (proximity (cs_flags s) m)
               && negb (mem_str n (cs_emitted_full_match s))) L in
  same_core s s' /\ cs_emitted_full_match s' = cs_emitted_full_match s ++ new /\
  omap critical_key l' = omap critical_key l ++ ((ef_pid f,.) <$> new) /\
  (NoDup (cs_emitted_pre_chain s) -> NoDup (cs_emitted_pre_chain s')).
Proof.
  induction L as [|[n m] L IH]; intros s l s' l'; cbn [foldl].
  - intros _ [= <- <-]. simpl. unfold same_core. rewrite !app_nil_r. by split_and!.
  - rewrite fmap_cons, NoDup_cons. intros [Hn HL] E.
    destruct (check_pattern th f (s, l) (n, m)) as [s1 l1] eqn:E1.
    apply check_pattern_spec in E1 as ((Hf & He & Hp & Hc) & Hfull & Hkey & Hpre).
    apply IH in E as ((Hf' & He' & Hp' & Hc') & Hfull' & Hkey' & Hpre'); [|done].
    assert (Hrest : retain (fun '(n, m) => is_full (proximity (cs_flags s1) m)
               && negb (mem_str n (cs_emitted_full_match s1))) L
            = retain (fun '(n, m) => is_full (proximity (cs_flags s) m)
               && negb (mem_str n (cs_emitted_full_match s))) L).
    { unfold retain. apply List.filter_ext_in. intros [n' m'] Hin%list_elem_of_In.
      rewrite Hf. f_equal. f_equal. unfold mem_str. apply bool_decide_ext.
      rewrite Hfull, elem_of_app. split; [|by left].
      intros [?|Hx]; [done|]. destruct Hn. apply list_elem_of_fmap. exists (n', m').
      split; [|done]. destruct (is_full _ && _); [|by apply elem_of_nil in Hx].
      apply list_elem_of_singleton in Hx. by subst. }
    rewrite Hrest in Hfull', Hkey'. unfold same_core.
    split_and!; try congruence; try (by intros; apply Hpre', Hpre).
    + rewrite Hfull', Hfull, <- app_assoc. f_equal. simpl. unfold retain at 2; simpl.
      by destruct (is_full (proximity (cs_flags s) m) && _).
    + rewrite Hkey', Hkey, <- app_assoc. f_equal. unfold retain at 2; simpl.
      by destruct (is_full (proximity (cs_flags s) m) && _).
Qed.

Lemma lor_foldr_snoc l x : foldr Z.lor 0 (l ++ [x]) = Z.lor (foldr Z.lor 0 l) x.
Proof.
  induction l as [|y l IH]; simpl; [apply Z.lor_0_r|]. by rewrite IH, Z.lor_assoc.
Qed.

(** The patterns the loop reports: those contained now and not yet emitted. *)
Lemma loop_new_eq flags full :
  fst <$> retain (fun '(n, m) => is_full (proximity flags m) && negb (mem_str n full)) ALL_PATTERNS
  = retain (fun n => negb (mem_str n full)) (match_patterns flags).
Proof.
  unfold match_patterns, retain.
  assert (Hin : forall x, x ∈ ALL_PATTERNS -> is_full (proximity flags x.2) = has_bits flags x.2).
  { intros [n m] ?. by apply (is_full_iff flags n). }
  revert Hin. generalize ALL_PATTERNS. intros L.
  induction L as [|[n m] L IH]; intros Hin; [done|]. cbn [List.filter fmap list_fmap].
  assert (Hx : is_full (proximity flags m) = has_bits flags m) by (apply (Hin (n, m)); left).
  specialize (IH (fun x Hx => Hin x (list_elem_of_further _ _ _ Hx))).
  rewrite Hx. fold (has_bits flags m). destruct (has_bits flags m); simpl; [|done].
  destruct (mem_str n full); simpl; [done|]. by f_equal.
Qed.

Lemma merge_event_core f flag cap old :
  let s := merge_event f flag cap old in
  cs_flags s = Z.lor (match old with Some o => cs_flags o | None => 0 end) flag /\
  ce_flag_set <$> cs_events s =
    (ce_flag_set <$> (match old with Some o => cs_events o | None => [] end)) ++ [flag] /\
  cs_emitted_full_match s = (match old with Some o => cs_emitted_full_match o | None => [] end) /\
  cs_emitted_pre_chain s = (match old with Some o => cs_emitted_pre_chain o | None => [] end) /\
  cs_comm s = ef_comm f /\
  cs_pid s = (match old with Some o => cs_pid o | None => ef_pid f end).
Proof. destruct old; simpl; rewrite ?fmap_app; by split_and!. Qed.

Lemma extract_fields_not_excluded t now ev f :
  extract_fields t now ev = Some f -> ef_comm f ∉ pt_excluded_comms t.
Proof.
  unfold extract_fields, is_excluded_comm. intros E.
  repeat (case_match; try done). simplify_eq/=. by bool_to_prop.
Qed.

Lemma process_event_cases t now ev :
  process_event t now ev = (t, []) \/
  exists f flag cap s incs,
    extract_fields t now ev = Some f /\
    event_flag (ef_kind f) (ef_details f) = Some (flag, cap) /\
    foldl (check_pattern (pt_pre_chain_threshold t) f)
      (merge_event f flag cap (pt_pids t !! ef_pid f), []) ALL_PATTERNS = (s, incs) /\
    process_event t now ev = (with_pids t (<[ef_pid f := s]> (pt_pids t)), incs).
Proof.
  unfold process_event. destruct (extract_fields t now ev) as [f|] eqn:Ef; [|by left].
  destruct (event_flag _ _) as [[flag cap]|] eqn:Efl; [|by left]. right.
  destruct (foldl _ _ _) as [s incs] eqn:El. by exists f, flag, cap, s, incs.
Qed.

(** The emitted list of a PID is the list of its contained patterns. *)
Lemma tracked_full t pid :
  tracker_ok t ->
  let full := match pt_pids t !! pid with Some o => cs_emitted_full_match o | None => [] end in
  NoDup full /\ forall n, n ∈ full <-> n ∈ match_patterns (flags_of t pid).
Proof.
  intros Hok. unfold flags_of, get_state. destruct (pt_pids t !! pid) as [o|] eqn:E.
  - by destruct (Hok _ _ E) as (_ & _ & []).
  - split; [constructor|]. intros n. rewrite elem_of_nil. split; [done|].
    rewrite match_patterns_0. by intros ?%elem_of_nil.
Qed.

(** Everything one accepted event does to its PID. *)
Lemma accepted_event t f flag cap s incs :
  tracker_ok t ->
  foldl (check_pattern (pt_pre_chain_threshold t) f)
    (merge_event f flag cap (pt_pids t !! ef_pid f), []) ALL_PATTERNS = (s, incs) ->
  let before := match_patterns (flags_of t (ef_pid f)) in
  let new := retain (fun n => negb (mem_str n before)) (match_patterns (cs_flags s)) in
  cs_pid s = ef_pid f /\ cs_comm s = ef_comm f /\ state_ok s /\
  cs_flags s = Z.lor (flags_of t (ef_pid f)) flag /\
  omap critical_key incs = (ef_pid f,.) <$> new.
Proof.
  intros Hok E. destruct (tracked_full t (ef_pid f) Hok) as [Hnd0 Hel0].
  set (old := pt_pids t !! ef_pid f) in *.
  assert (Hold : forall o, old = Some o -> cs_pid o = ef_pid f /\ state_ok o).
  { intros o Ho. destruct (Hok _ _ Ho) as (? & _ & ?). done. }
  destruct (merge_event_core f flag cap old) as (Mf & Me & Mfull & Mpre & Mc & Mp).
  apply check_patterns_spec in E as ((Hf & He & Hp & Hc) & Hfull & Hkey & Hpre);
    [|apply ALL_PATTERNS_names_NoDup].
  rewrite loop_new_eq in Hfull, Hkey.
  assert (Hflags : flags_of t (ef_pid f) = match old with Some o => cs_flags o | None => 0 end)
    by done.
  set (full0 := match old with Some o => cs_emitted_full_match o | None => [] end) in *.
  rewrite Mfull in Hfull, Hkey. rewrite Hf, Mf, <- Hflags.
  assert (Hmem : forall n, mem_str n full0 = mem_str n (match_patterns (flags_of t (ef_pid f)))).
  { intros n. apply bool_decide_ext, Hel0. }
  assert (Hnew : retain (fun n => negb (mem_str n full0))
                   (match_patterns (cs_flags (merge_event f flag cap old))) =
                 retain (fun n => negb (mem_str n (match_patterns (flags_of t (ef_pid f)))))
                   (match_patterns (Z.lor (flags_of t (ef_pid f)) flag))).
  { rewrite Mf, <- Hflags. apply List.filter_ext. intros n. by rewrite Hmem. }
  rewrite Hnew in Hfull, Hkey. split_and!; [|congruence| |done|done].
  - rewrite Hp, Mp. destruct old; [|done]. by destruct (Hold _ eq_refl).
  - constructor.
    + rewrite Hf, He, Me, Mf, lor_foldr_snoc. f_equal. destruct old; [|done].
      by destruct (Hold _ eq_refl) as [_ []].
    + rewrite Hfull. apply NoDup_app. split_and!; [done| |by apply retain_NoDup, match_patterns_NoDup].
      intros n Hn [_ Hn'%negb_true_iff%mem_str_false]%retain_elem. by apply Hn', Hel0.
    + intros n. rewrite Hfull, Hf, Mf, <- Hflags, elem_of_app, Hel0, retain_elem.
      rewrite negb_true_iff, mem_str_false. split.
      * intros [(m & ? & Hb)%match_patterns_elem|[? _]]; [|done].
        apply match_patterns_elem. exists m. split; [done|]. by apply has_bits_lor_mono.
      * intros ?. destruct (decide (n ∈ match_patterns (flags_of t (ef_pid f)))); auto.
    + apply Hpre. rewrite Mpre. destruct old; [|constructor].
      by destruct (Hold _ eq_refl) as [_ []].
Qed.

Lemma process_event_ok t now ev : tracker_ok t -> tracker_ok (process_event t now ev).1.
Proof.
  intros Hok. destruct (process_event_cases t now ev) as [->|(f & flag & cap & s & incs & Ef & _ & El & ->)];
    [done|].
  apply accepted_event in El as (Hp & Hc & Hs & _); [|done].
  intros pid' s' Hin. cbn [fst with_pids pt_pids pt_excluded_comms] in *.
  apply lookup_insert_Some in Hin as [[<- <-]|[_ Hin]]; [|by apply Hok in Hin].
  rewrite Hc. split_and!; [done|by eapply extract_fields_not_excluded|done].
Qed.

Lemma cleanup_stale_ok t now : tracker_ok t -> tracker_ok (cleanup_stale t now).
Proof.
  intros Hok pid s Hin. simpl in *. apply map_lookup_filter_Some in Hin as [Hin _].
  by apply Hok in Hin.
Qed.

Lemma detected_keys pid incs :
  detected pid incs = omap (fun k => if k.1 =? pid then Some k.2 else None) (omap critical_key incs).
Proof.
  induction incs as [|i incs IH]; [done|]. unfold detected in *. cbn [omap list_omap].
  destruct (critical_key i) as [[p n]|]; cbn [omap list_omap]; [|done].
  simpl. destruct (p =? pid); [by f_equal|done].
Qed.

Lemma omap_pair_same pid (l : list string) :
  omap (fun k => if k.1 =? pid then Some k.2 else None) ((pid,.) <$> l) = l.
Proof.
  induction l as [|n l IH]; [done|]. cbn [fmap list_fmap omap list_omap].
  simpl. rewrite Z.eqb_refl. by f_equal.
Qed.

Lemma omap_pair_other pid p (l : list string) :
  p <> pid -> omap (fun k => if k.1 =? pid then Some k.2 else None) ((p,.) <$> l) = [].
Proof.
  intros. induction l as [|n l IH]; [done|]. cbn [fmap list_fmap omap list_omap].
  simpl. by rewrite (proj2 (Z.eqb_neq p pid)).
Qed.

Lemma retain_none_new (l : list string) : retain (fun n => negb (mem_str n l)) l = [].
Proof.
  apply list_filter_none. intros x Hx. by rewrite (proj2 (mem_str_true x l)).
Qed.

Lemma flags_of_insert t p s pid :
  flags_of (with_pids t (<[p := s]> (pt_pids t))) pid =
  if decide (p = pid) then cs_flags s else flags_of t pid.
Proof. unfold flags_of, get_state. simpl. rewrite lookup_insert. by case_decide. Qed.

(** The patterns an event reports for any PID, and what it does to its flags. *)
Lemma process_event_detected t now ev pid :
  tracker_ok t ->
  let t' := (process_event t now ev).1 in
  detected pid (process_event t now ev).2 =
    retain (fun n => negb (mem_str n (match_patterns (flags_of t pid))))
      (match_patterns (flags_of t' pid)) /\
  (forall n, n ∈ match_patterns (flags_of t pid) -> n ∈ match_patterns (flags_of t' pid)).
Proof.
  intros Hok. destruct (process_event_cases t now ev) as [->|(f & flag & cap & s & incs & Ef & _ & El & ->)].
  - cbn [fst snd]. rewrite retain_none_new. done.
  - apply accepted_event in El as (Hp & Hc & Hs & Hfl & Hkey); [|done].
    cbn [fst snd]. rewrite detected_keys, Hkey, flags_of_insert. case_decide as Hp'.
    + subst pid. rewrite omap_pair_same. split; [done|].
      intros n (m & ? & ?)%match_patterns_elem. apply match_patterns_elem. exists m.
      split; [done|]. rewrite Hfl. by apply has_bits_lor_mono.
    + rewrite omap_pair_other, retain_none_new by done. done.
Qed.

Lemma detected_app pid l k : detected pid (l ++ k) = detected pid l ++ detected pid k.
Proof. apply omap_app. Qed.

(** Over a run, the patterns reported for a PID are new and distinct. *)
Lemma run_detected es : forall t pid,
  tracker_ok t ->
  let d := detected pid (run t es).2 in
  NoDup d /\ (forall n, n ∈ d -> n ∉ match_patterns (flags_of t pid)) /\
  (forall n, n ∈ match_patterns (flags_of (run t es).1 pid) <->
     n ∈ d \/ n ∈ match_patterns (flags_of t pid)).
Proof.
  induction es as [|[now e] es IH]; intros t pid Hok; cbn [run].
  - cbn [fst snd detected omap list_omap]. setoid_rewrite elem_of_nil.
    split_and!; [constructor|naive_solver..].
  - pose proof (process_event_detected t now e pid Hok) as [Hd Hm].
    pose proof (process_event_ok t now e Hok) as Hok1.
    destruct (process_event t now e) as [t1 i1]. cbn [fst snd] in *.
    specialize (IH t1 pid Hok1) as (Hnd & Hnew & Hiff).
    destruct (run t1 es) as [t2 i2]. cbn [fst snd] in *.
    rewrite detected_app.
    assert (Hel : forall n, n ∈ detected pid i1 <->
              n ∈ match_patterns (flags_of t1 pid) /\ (n ∉ match_patterns (flags_of t pid))).
    { intros n. by rewrite Hd, retain_elem, negb_true_iff, mem_str_false. }
    setoid_rewrite elem_of_app. setoid_rewrite Hel. split_and!.
    + apply NoDup_app. split_and!; [|intros n Hn Hn2|done].
      * rewrite Hd. apply retain_NoDup, match_patterns_NoDup.
      * apply (Hnew n Hn2). by apply Hel.
    + intros n [[_ ?]|Hn]; [done|]. intros Hc%Hm. by apply (Hnew n Hn).
    + intros n. rewrite Hiff. destruct (decide (n ∈ match_patterns (flags_of t pid))); naive_solver.
Qed.
End lemmas.

(** ** C2 addresses *)

(** Membership of an address in the block [base/len]. *)
Definition in_cidr (addr base len : Z) : Prop :=
  addr / 2 ^ (32 - len) = base / 2 ^ (32 - len).

Definition addr_of (a b c d : Z) : Z := a * 2 ^ 24 + b * 2 ^ 16 + c * 2 ^ 8 + d.

Definition reserved (addr : Z) : Prop :=
  in_cidr addr (addr_of 0 0 0 0) 8 \/ in_cidr addr (addr_of 10 0 0 0) 8 \/
  in_cidr addr (addr_of 127 0 0 0) 8 \/ in_cidr addr (addr_of 169 254 0 0) 16 \/
  in_cidr addr (addr_of 172 16 0 0) 12 \/ in_cidr addr (addr_of 192 168 0 0) 16 \/
  in_cidr addr (addr_of 192 0 2 0) 24 \/ in_cidr addr (addr_of 198 51 100 0) 24 \/
  in_cidr addr (addr_of 203 0 113 0) 24.

Definition octet (z : Z) : Prop := 0 <= z < 256.

Lemma is_private_octets_orb a b c :
  is_private_octets a b c =
  (a =? 0) || ((a =? 10) || ((a =? 127) || ((a =? 169) && (b =? 254) ||
   ((a =? 172) && ((16 <=? b) && (b <=? 31)) || ((a =? 192) && (b =? 168) ||
    ((a =? 192) && ((b =? 0) && (c =? 2)) || ((a =? 198) && ((b =? 51) && (c =? 100)) ||
     (a =? 203) && ((b =? 0) && (c =? 113))))))))).
Proof. unfold is_private_octets. repeat (case_match; [done|simpl]). done. Qed.

Lemma or_iff2 (A B C D : Prop) : (A <-> B) -> (C <-> D) -> (A \/ C) <-> (B \/ D).
Proof. tauto. Qed.

Lemma div_pack q r n x : 0 < n -> 0 <= r < n -> x = q * n + r -> x / n = q.
Proof. intros. subst. rewrite Z.div_add_l by lia. rewrite Z.div_small; lia. Qed.

(** The leading bits of an address, by prefix length. *)
Lemma addr_of_prefix a b c d :
  octet a -> octet b -> octet c -> octet d ->
  addr_of a b c d / 2 ^ 24 = a /\ addr_of a b c d / 2 ^ 16 = a * 256 + b /\
  addr_of a b c d / 2 ^ 20 = a * 16 + b / 16 /\
  addr_of a b c d / 2 ^ 8 = a * 65536 + b * 256 + c.
Proof.
  unfold octet, addr_of. intros.
  pose proof (Z.div_mod b 16 ltac:(lia)). pose proof (Z.mod_pos_bound b 16 ltac:(lia)).
  change (2 ^ 24) with 16777216. change (2 ^ 16) with 65536.
  change (2 ^ 20) with 1048576. change (2 ^ 8) with 256.
  split_and!.
  - apply (div_pack _ (b * 65536 + c * 256 + d)); lia.
  - apply (div_pack _ (c * 256 + d)); lia.
  - apply (div_pack _ ((b mod 16) * 65536 + c * 256 + d)); lia.
  - apply (div_pack _ d); lia.
Qed.

Lemma is_private_octets_iff a b c d :
  octet a -> octet b -> octet c -> octet d ->
  is_private_octets a b c = true <-> reserved (addr_of a b c d).
Proof.
  intros Ha Hb Hc Hd. destruct (addr_of_prefix a b c d) as (E8 & E16 & E12 & E24); [done..|].
  rewrite is_private_octets_orb. unfold reserved, in_cidr.
  change (32 - 8) with 24. change (32 - 16) with 16. change (32 - 12) with 20.
  change (32 - 24) with 8. rewrite E8, E16, E12, E24. clear E8 E16 E12 E24.
  rewrite !orb_true_iff, !andb_true_iff, !Z.leb_le, !Z.eqb_eq.
  repeat match goal with
  | |- context [addr_of ?x ?y ?z ?w / ?p] =>
      let v := eval vm_compute in (addr_of x y z w / p) in
      change (addr_of x y z w / p) with v
  end.
  unfold octet in *.
  pose proof (Z.div_mod b 16 ltac:(lia)). pose proof (Z.mod_pos_bound b 16 ltac:(lia)).
  set (q := b / 16) in *. set (r := b mod 16) in *. clearbody q r.
  repeat (apply or_iff2; [lia|]). lia.
Qed.

Lemma parse_octets_Forall l v : parse_octets l = Some v -> Forall octet v.
Proof.
  revert v. induction l as [|s l IH]; simpl; intros v.
  - intros [= <-]. constructor.
  - destruct (parse_uint 8 s) eqn:E; [|done]. destruct (parse_octets l); [|done].
    intros [= <-]. constructor; [by apply parse_uint_range in E|by apply IH].
Qed.

(** ** Properties *)

(** C1. Every reachable tracker is consistent: a PID's entry carries that PID
    and a comm that is not excluded, its flags are the union of the flags of
    its recorded events, and the full matches it has emitted are, without
    repetition, exactly the patterns contained in its flags. *)
Theorem tracker_reachable_ok `{Chrono} (t : PidTracker) (pid : Z) (s : PidChainState) :
  reachable t -> get_state t pid = Some s ->
  cs_pid s = pid /\ (cs_comm s ∉ pt_excluded_comms t) /\
  cs_flags s = foldr Z.lor 0 (ce_flag_set <$> cs_events s) /\
  NoDup (cs_emitted_full_match s) /\
  forall n, n ∈ cs_emitted_full_match s <-> n ∈ match_patterns (cs_flags s).
Proof.
  intros (t0 & Ht0 & Hsteps) Hs.
  assert (tracker_ok t0) as Hok by (unfold tracker_ok; rewrite Ht0; apply map_Forall_empty).
  assert (tracker_ok t) as Hok'.
  { clear Hs Ht0. induction Hsteps as [|t0 t1 t2 Hstep _ IH]; [done|]. apply IH.
    destruct Hstep; [by apply process_event_ok|by apply cleanup_stale_ok]. }
  by destruct (Hok' _ _ Hs) as (? & ? & []).
Qed.

(** Over any sequence of events fed to a fresh tracker, the full-match
    incidents of a PID name each pattern at most once, and they name exactly
    the patterns contained in the flags the PID ends with: nothing is missed,
    nothing is reported twice. *)
Theorem full_matches_complete_once `{Chrono} (t : PidTracker) (es : list (Z * Json)) (pid : Z) :
  pt_pids t = ∅ ->
  NoDup (detected pid (run t es).2) /\
  forall n, n ∈ detected pid (run t es).2 <-> n ∈ match_patterns (flags_of (run t es).1 pid).
Proof.
  intros Ht. assert (tracker_ok t) as Hok by (unfold tracker_ok; rewrite Ht; apply map_Forall_empty).
  destruct (run_detected es t pid Hok) as (Hnd & _ & Hiff). split; [done|].
  intros n. rewrite Hiff. unfold flags_of, get_state. rewrite Ht, lookup_empty.
  rewrite match_patterns_0, elem_of_nil. tauto.
Qed.

(** The incidents of one event: on a reachable tracker, the patterns
    reported complete for a PID are those contained in its flags after the
    event and not before, in table order. *)
Theorem event_reports_new_matches `{Chrono} (t : PidTracker) (now : Z) (ev : Json) (pid : Z) :
  tracker_ok t ->
  detected pid (process_event t now ev).2 =
  retain (fun n => negb (mem_str n (match_patterns (flags_of t pid))))
    (match_patterns (flags_of (process_event t now ev).1 pid)).
Proof. intros Hok. by destruct (process_event_detected t now ev pid Hok). Qed.

(** A C2 endpoint is only extracted from a PID that connected out, it is the
    recorded endpoint, and its address parses as four octets outside every
    reserved block (RFC 1918, loopback, link-local, documentation, 0/8). *)
Theorem extract_c2_public (s : PidChainState) (ip : string) (port : Z) :
  extract_c2 s = Some (ip, port) ->
  Z.testbit (cs_flags s) 0 = true /\ cs_last_connect_ip s = Some ip /\
  cs_last_connect_port s = Some port /\
  exists a b c d, parse_octets (split_on "."%char ip) = Some [a; b; c; d] /\
    Forall octet [a; b; c; d] /\ ~ reserved (addr_of a b c d).
Proof.
  unfold extract_c2. destruct (Z.land (cs_flags s) CHAIN_SOCKET =? 0) eqn:Hf; [done|].
  destruct (cs_last_connect_ip s) as [ip'|] eqn:Hip; [|done].
  destruct (cs_last_connect_port s) as [port'|] eqn:Hport; [|done].
  destruct (is_private_ip ip') eqn:Hpriv; [done|]. intros [= -> ->]. bool_to_prop.
  split_and!; [|done..|].
  - destruct (Z.testbit (cs_flags s) 0) eqn:Hb; [done|]. destruct Hf.
    change CHAIN_SOCKET with (Z.ones 1). rewrite Z.land_ones by lia.
    rewrite Z.bit0_odd in Hb. change (2 ^ 1) with 2. by rewrite Zmod_odd, Hb.
  - unfold is_private_ip in Hpriv.
    destruct (parse_octets _) as [[|a [|b [|c [|d [|]]]]]|] eqn:Ep; try done.
    exists a, b, c, d. pose proof (parse_octets_Forall _ _ Ep) as HF.
    split_and!; [done..|]. rewrite !Forall_cons in HF. destruct_and!.
    rewrite <- is_private_octets_iff by done. by rewrite Hpriv.
Qed.

(** [cleanup_stale] removes exactly the PIDs idle for more than the session
    timeout, that is, for at least one second more than it, and changes no
    other entry. *)
Theorem cleanup_stale_exact (t : PidTracker) (now pid : Z) (s : PidChainState) :
  0 <= pt_session_timeout_secs t ->
  get_state (cleanup_stale t now) pid = Some s <->
  get_state t pid = Some s /\
  now - cs_last_seen s < seconds (pt_session_timeout_secs t + 1).
Proof.
  intros Ht. unfold get_state, cleanup_stale. simpl. rewrite map_lookup_filter_Some. simpl.
  unfold is_stale. pose proof (num_seconds_gt (now - cs_last_seen s) _ Ht).
  rewrite Z.ltb_ge. split; intros [??]; split; lia || done.
Qed.

(** ** Witnesses: a reverse shell, with a toy calendar *)

Definition demo_chrono : Chrono := {|
  parse_utc := parse_uint 63;
  to_rfc3339 := show;
  fmt_minute := fun t => show (t / 60000000000) |}.

Definition demo_event (kind : string) (extra : list (string * Json)) : Json :=
  JObj [("kind", JStr kind); ("ts", JStr "1000000000"); ("host", JStr "production");
        ("details", JObj ([("pid", JInt 1234); ("uid", JInt 1000); ("comm", JStr "python3")] ++ extra))].

Definition demo_events : list (Z * Json) :=
  [ (0, demo_event "network.outbound_connect" [("dst_ip", JStr "185.234.1.1"); ("dst_port", JInt 4444)]);
    (0, demo_event "process.fd_redirect" [("newfd", JInt 0)]);
    (0, demo_event "process.fd_redirect" [("newfd", JInt 1)]);
    (0, demo_event "process.fd_redirect" [("newfd", JInt 1)]) ].

#[local] Existing Instance demo_chrono.

Definition demo_tracker : PidTracker := (run PidTracker_new demo_events).1.

Example demo_detected : detected 1234 (run PidTracker_new demo_events).2 = ["reverse_shell"].
Proof. vm_compute. reflexivity. Qed.

Lemma demo_step : exists s, get_state (process_event PidTracker_new 0 (demo_event "network.listen" [])).1 1234 = Some s
  /\ cs_flags s = CHAIN_LISTEN.
Proof. eexists. split; vm_compute; reflexivity. Qed.

Lemma tracker_reachable_ok_witness :
  exists s, get_state (process_event PidTracker_new 0 (demo_event "network.listen" [])).1 1234 = Some s
  /\ cs_pid s = 1234.
Proof.
  destruct demo_step as (s & Hs & _). exists s. split; [exact Hs|].
  refine (proj1 (tracker_reachable_ok _ 1234 s _ Hs)).
  exists PidTracker_new. split; [reflexivity|]. eapply rtc_once, step_event.
Defined.

Lemma full_matches_complete_once_witness :
  "reverse_shell" ∈ match_patterns (flags_of demo_tracker 1234).
Proof.
  apply (proj1 (proj2 (full_matches_complete_once PidTracker_new demo_events 1234 eq_refl)
                  "reverse_shell")).
  rewrite demo_detected. left.
Defined.

Lemma event_reports_new_matches_witness :
  tracker_ok PidTracker_new /\
  detected 1234 (process_event PidTracker_new 0 (demo_event "network.listen" [])).2 = [].
Proof.
  assert (Hok : tracker_ok PidTracker_new) by apply map_Forall_empty.
  split; [exact Hok|].
  rewrite (event_reports_new_matches PidTracker_new 0 _ 1234 Hok). vm_compute. reflexivity.
Defined.

Definition demo_state : PidChainState :=
  default (PidChainState_new 1 1 "" "" 0) (get_state demo_tracker 1234).

Lemma extract_c2_public_witness :
  extract_c2 demo_state = Some ("185.234.1.1", 4444) /\ cs_last_connect_port demo_state = Some 4444.
Proof.
  assert (Hx : extract_c2 demo_state = Some ("185.234.1.1", 4444)) by (vm_compute; reflexivity).
  split; [exact Hx|]. exact (proj1 (proj2 (proj2 (extract_c2_public _ _ _ Hx)))).
Defined.

Lemma cleanup_stale_exact_witness :
  get_state (cleanup_stale demo_tracker (seconds 300)) 1234 = Some demo_state.
Proof.
  apply (cleanup_stale_exact demo_tracker (seconds 300) 1234 demo_state).
  - vm_compute. discriminate.
  - split; vm_compute; reflexivity.
Defined.
