(* ===== verification/ShieldEscalation.v ===== *)
(** * ShieldEscalation: the DDoS escalation state machine
    (crates/shield/src/escalation.rs)

    Four levels, immediate escalation, de-escalation one level at a time after
    a minimum dwell time and a number of calm samples.  The engine also keeps
    the incident of the current attack.  Instants come with the metrics; the
    clock of [new] and [build_metrics] is an argument. *)

From Stdlib Require Import ZArith Lia String SpecFloat.
From stdpp Require Import prelude strings list.
From S2P Require Import Prelude Text Floats.

Local Open Scope string_scope.
Local Open Scope list_scope.
Local Open Scope Z_scope.

Inductive EscalationState := Normal | Elevated | UnderAttack | Critical.

#[export] Instance EscalationState_eq_dec : EqDecision EscalationState.
Proof. solve_decision. Defined.

(** [impl Display]. *)
Definition EscalationState_display (s : EscalationState) : string :=
  match s with
  | Normal => "Normal"
  | Elevated => "Elevated"
  | UnderAttack => "Under Attack"
  | Critical => "Critical"
  end.

Definition level (s : EscalationState) : Z :=
  match s with Normal => 0 | Elevated => 1 | UnderAttack => 2 | Critical => 3 end.

Definition from_level (l : Z) : EscalationState :=
  if l =? 0 then Normal else if l =? 1 then Elevated else if l =? 2 then UnderAttack else Critical.

Definition rate_limit_factor (s : EscalationState) : float :=
  match s with
  | Normal => f64_of_Z 1
  | Elevated => f64_lit 5 10
  | UnderAttack => f64_lit 2 10
  | Critical => f64_lit 1 10
  end.

Record DdosMetrics := {
  dm_timestamp : Z;
  dm_packets_dropped_per_sec : Z;
  dm_unique_attackers : Z;
  dm_syn_flood_active : bool;
  dm_udp_flood_active : bool;
  dm_http_flood_active : bool;
  dm_total_dropped : Z;
  dm_total_allowed : Z;
  dm_peak_pps : Z;
  dm_attack_duration_secs : Z;
  dm_server_cpu_impact : float;
}.

Definition drops_per_min (m : DdosMetrics) : Z := wrap 64 (dm_packets_dropped_per_sec m * 60).

Record StateTransition := {
  st_from : EscalationState;
  st_to : EscalationState;
  st_at : Z;
  st_trigger_drops_per_min : Z;
}.

Record EscalationConfig := {
  elevated_drops_per_min : Z;
  under_attack_drops_per_min : Z;
  critical_drops_per_min : Z;
  min_state_duration_secs : Z;
  calm_samples_required : Z;
}.

Definition EscalationConfig_default : EscalationConfig := {|
  elevated_drops_per_min := 50;
  under_attack_drops_per_min := 500;
  critical_drops_per_min := 5000;
  min_state_duration_secs := 300;
  calm_samples_required := 6 |}.

Record DdosIncident := {
  di_id : string;
  di_started : Z;
  di_ended : option Z;
  di_peak_state : EscalationState;
  di_peak_pps : Z;
  di_total_dropped : Z;
  di_peak_attackers : Z;
  di_attack_type : string;
}.

Record EscalationEngine := {
  ee_state : EscalationState;
  ee_state_entered_at : Z;
  ee_metrics_history : list DdosMetrics;
  ee_config : EscalationConfig;
  ee_min_state_duration : Z;
  ee_calm_counter : Z;
  ee_transitions : list StateTransition;
  ee_current_incident : option DdosIncident;
  ee_incidents : list DdosIncident;
  ee_incident_counter : Z;
}.

Definition EscalationEngine_new (now : Z) (config : EscalationConfig) : EscalationEngine := {|
  ee_state := Normal;
  ee_state_entered_at := now;
  ee_metrics_history := [];
  ee_config := config;
  ee_min_state_duration := seconds (min_state_duration_secs config);
  ee_calm_counter := 0;
  ee_transitions := [];
  ee_current_incident := None;
  ee_incidents := [];
  ee_incident_counter := 0 |}.

Definition last_transition (e : EscalationEngine) : option StateTransition := last (ee_transitions e).

Definition target_state (e : EscalationEngine) (dpm : Z) : EscalationState :=
  if critical_drops_per_min (ee_config e) <=? dpm then Critical
  else if under_attack_drops_per_min (ee_config e) <=? dpm then UnderAttack
  else if elevated_drops_per_min (ee_config e) <=? dpm then Elevated
  else Normal.

(** The incident bookkeeping of [transition_to]: current incident, closed
    incidents, counter. *)
Definition track_incident (e : EscalationEngine) (new_state : EscalationState) (now : Z)
  : option DdosIncident * list DdosIncident * Z :=
  match new_state, ee_current_incident e with
  | Normal, Some inc =>
      (None,
       ee_incidents e ++ [{| di_id := di_id inc; di_started := di_started inc; di_ended := Some now;
                             di_peak_state := di_peak_state inc; di_peak_pps := di_peak_pps inc;
                             di_total_dropped := di_total_dropped inc;
                             di_peak_attackers := di_peak_attackers inc;
                             di_attack_type := di_attack_type inc |}],
       ee_incident_counter e)
  | Normal, None => (None, ee_incidents e, ee_incident_counter e)
  | _, None =>
      let c := wrapping_add 64 (ee_incident_counter e) 1 in
      (Some {| di_id := "ddos-" +:+ show c; di_started := now; di_ended := None;
               di_peak_state := new_state; di_peak_pps := 0; di_total_dropped := 0;
               di_peak_attackers := 0; di_attack_type := "unknown" |},
       ee_incidents e, c)
  | _, Some inc =>
      (Some (if level (di_peak_state inc) <? level new_state then
               {| di_id := di_id inc; di_started := di_started inc; di_ended := di_ended inc;
                  di_peak_state := new_state; di_peak_pps := di_peak_pps inc;
                  di_total_dropped := di_total_dropped inc;
                  di_peak_attackers := di_peak_attackers inc;
                  di_attack_type := di_attack_type inc |}
             else inc),
       ee_incidents e, ee_incident_counter e)
  end.

Definition transition_to (e : EscalationEngine) (new_state : EscalationState) (now dpm : Z)
  : EscalationEngine :=
  let '(cur, closed, counter) := track_incident e new_state now in
  {| ee_state := new_state;
     ee_state_entered_at := now;
     ee_metrics_history := ee_metrics_history e;
     ee_config := ee_config e;
     ee_min_state_duration := ee_min_state_duration e;
     ee_calm_counter := 0;
     ee_transitions := ee_transitions e ++
       [{| st_from := ee_state e; st_to := new_state; st_at := now; st_trigger_drops_per_min := dpm |}];
     ee_current_incident := cur;
     ee_incidents := closed;
     ee_incident_counter := counter |}.

Definition push_metrics (e : EscalationEngine) (m : DdosMetrics) : EscalationEngine :=
  let h := ee_metrics_history e ++ [m] in
  {| ee_state := ee_state e; ee_state_entered_at := ee_state_entered_at e;
     ee_metrics_history := if 200 <? Z.of_nat (length h) then drop 1 h else h;
     ee_config := ee_config e; ee_min_state_duration := ee_min_state_duration e;
     ee_calm_counter := ee_calm_counter e; ee_transitions := ee_transitions e;
     ee_current_incident := ee_current_incident e; ee_incidents := ee_incidents e;
     ee_incident_counter := ee_incident_counter e |}.

Definition set_calm (e : EscalationEngine) (n : Z) : EscalationEngine :=
  {| ee_state := ee_state e; ee_state_entered_at := ee_state_entered_at e;
     ee_metrics_history := ee_metrics_history e; ee_config := ee_config e;
     ee_min_state_duration := ee_min_state_duration e; ee_calm_counter := n;
     ee_transitions := ee_transitions e; ee_current_incident := ee_current_incident e;
     ee_incidents := ee_incidents e; ee_incident_counter := ee_incident_counter e |}.

(** The tail of [update]: the active incident takes the new metrics. *)
Definition update_incident (e : EscalationEngine) (m : DdosMetrics) : EscalationEngine :=
  {| ee_state := ee_state e; ee_state_entered_at := ee_state_entered_at e;
     ee_metrics_history := ee_metrics_history e; ee_config := ee_config e;
     ee_min_state_duration := ee_min_state_duration e; ee_calm_counter := ee_calm_counter e;
     ee_transitions := ee_transitions e;
     ee_current_incident :=
       match ee_current_incident e with
       | Some inc => Some
           {| di_id := di_id inc; di_started := di_started inc; di_ended := di_ended inc;
              di_peak_state := di_peak_state inc;
              di_peak_pps := if di_peak_pps inc <? dm_peak_pps m then dm_peak_pps m else di_peak_pps inc;
              di_total_dropped := dm_total_dropped m;
              di_peak_attackers :=
                if di_peak_attackers inc <? dm_unique_attackers m then dm_unique_attackers m
                else di_peak_attackers inc;
              di_attack_type := di_attack_type inc |}
       | None => None
       end;
     ee_incidents := ee_incidents e; ee_incident_counter := ee_incident_counter e |}.

Definition update (e : EscalationEngine) (m : DdosMetrics) : EscalationEngine * option StateTransition :=
  let e := push_metrics e m in
  let dpm := drops_per_min m in
  let target := target_state e dpm in
  let now := dm_timestamp m in
  let previous := ee_state e in
  if level previous <? level target then
    (transition_to e target now dpm,
     Some {| st_from := previous; st_to := target; st_at := now; st_trigger_drops_per_min := dpm |})
  else if level target <? level previous then
    if ee_min_state_duration e <=? now - ee_state_entered_at e then
      let e := set_calm e (wrapping_add 64 (ee_calm_counter e) 1) in
      if calm_samples_required (ee_config e) <=? ee_calm_counter e then
        let new_state := from_level (saturating_sub (level previous) 1) in
        (transition_to e new_state now dpm,
         Some {| st_from := previous; st_to := new_state; st_at := now; st_trigger_drops_per_min := dpm |})
      else (update_incident e m, None)
    else (update_incident e m, None)
  else (update_incident (set_calm e 0) m, None).

Definition restore (e : EscalationEngine) (state : EscalationState) (entered_at : Z)
    (incidents : list DdosIncident) : EscalationEngine :=
  {| ee_state := state; ee_state_entered_at := entered_at;
     ee_metrics_history := ee_metrics_history e; ee_config := ee_config e;
     ee_min_state_duration := ee_min_state_duration e; ee_calm_counter := ee_calm_counter e;
     ee_transitions := ee_transitions e; ee_current_incident := ee_current_incident e;
     ee_incidents := incidents; ee_incident_counter := ee_incident_counter e |}.

(** [now_dur] and [now_ts] are the two readings of the clock. *)
Definition build_metrics (e : EscalationEngine) (now_dur now_ts : Z)
    (dropped_per_sec unique_attackers : Z) (syn_flood udp_flood http_flood : bool)
    (total_dropped total_allowed peak_pps : Z) : DdosMetrics :=
  {| dm_timestamp := now_ts;
     dm_packets_dropped_per_sec := dropped_per_sec;
     dm_unique_attackers := unique_attackers;
     dm_syn_flood_active := syn_flood; dm_udp_flood_active := udp_flood;
     dm_http_flood_active := http_flood;
     dm_total_dropped := total_dropped; dm_total_allowed := total_allowed;
     dm_peak_pps := peak_pps;
     dm_attack_duration_secs :=
       match ee_current_incident e with
       | Some i => Z.max (num_seconds (now_dur - di_started i)) 0
       | None => 0
       end;
     dm_server_cpu_impact := f64_zero |}.

(** Feeding metrics in sequence. *)
Definition updates (e : EscalationEngine) (ms : list DdosMetrics) : EscalationEngine :=
  foldl (fun e m => (update e m).1) e ms.

(** ** The invariant of an engine that started from [new]
    [restore] is left out: it replaces the closed incidents without the
    counter, which breaks the last two clauses (see [restored_id_collides]). *)

(** What a recorded transition may be, when the state it leaves was entered
    at [entered]: a jump up to the level the drop rate calls for, or one level
    down, after the minimum dwell time, with a drop rate that no longer calls
    for the state left. *)
Definition transition_ok (c : EscalationEngine) (entered : Z) (t : StateTransition) : Prop :=
  let target := target_state c (st_trigger_drops_per_min t) in
  (level (st_from t) < level (st_to t) /\ st_to t = target) \/
  (level (st_to t) = level (st_from t) - 1 /\ level target <= level (st_to t) /\
   ee_min_state_duration c <= st_at t - entered).

(** Each transition starts in the state the previous one ended in. *)
Fixpoint chained (c : EscalationEngine) (s : EscalationState) (entered : Z)
    (l : list StateTransition) : Prop :=
  match l with
  | [] => True
  | t :: r => st_from t = s /\ transition_ok c entered t /\ chained c (st_to t) (st_at t) r
  end.

Definition end_state (s : EscalationState) (l : list StateTransition) : EscalationState :=
  match last l with Some t => st_to t | None => s end.

Definition end_at (now : Z) (l : list StateTransition) : Z :=
  match last l with Some t => st_at t | None => now end.

Definition ddos_id (n : Z) : string := "ddos-" +:+ show n.

(** [c] is the engine as [new] made it. *)
Record engine_ok (c e : EscalationEngine) : Prop := {
  eo_config : ee_config e = ee_config c;
  eo_dwell : ee_min_state_duration e = ee_min_state_duration c;
  eo_chain : chained c Normal (ee_state_entered_at c) (ee_transitions e);
  eo_end : end_state Normal (ee_transitions e) = ee_state e;
  eo_end_at : end_at (ee_state_entered_at c) (ee_transitions e) = ee_state_entered_at e;
  eo_history : (length (ee_metrics_history e) <= 200)%nat;
  eo_current : match ee_current_incident e with
               | Some i => ee_state e <> Normal /\ di_ended i = None /\
                           level (ee_state e) <= level (di_peak_state i) /\
                           di_id i = ddos_id (ee_incident_counter e)
               | None => ee_state e = Normal
               end;
  eo_counter : ee_incident_counter e =
               Z.of_nat (length (ee_incidents e)) +
               match ee_current_incident e with Some _ => 1 | None => 0 end;
  eo_closed : forall i inc, ee_incidents e !! i = Some inc ->
               di_id inc = ddos_id (Z.of_nat i + 1) /\ is_Some (di_ended inc) }.

Section chained.
Context (c : EscalationEngine).

Lemma chained_snoc s at_ l t :
  chained c s at_ (l ++ [t]) <->
  chained c s at_ l /\ st_from t = end_state s l /\ transition_ok c (end_at at_ l) t.
Proof.
  revert s at_. induction l as [|u l IH]; intros s at_; simpl.
  - unfold end_state, end_at. simpl. naive_solver.
  - rewrite IH. unfold end_state, end_at. rewrite !last_cons.
    destruct (last l); naive_solver.
Qed.

Lemma end_snoc s at_ l t :
  end_state s (l ++ [t]) = st_to t /\ end_at at_ (l ++ [t]) = st_at t.
Proof. unfold end_state, end_at. by rewrite !last_snoc. Qed.
End chained.

Lemma level_range s : 0 <= level s <= 3.
Proof. destruct s; simpl; lia. Qed.

Lemma from_level_level s : from_level (level s) = s.
Proof. by destruct s. Qed.

Lemma level_from_level l : 0 <= l <= 3 -> level (from_level l) = l.
Proof. intros. unfold from_level. repeat case_match; bool_to_prop; simpl; lia. Qed.

Lemma level_inj s t : level s = level t -> s = t.
Proof. by destruct s, t. Qed.

(** One level down, as [update] computes it. *)
Lemma step_down s : 0 < level s -> level (from_level (saturating_sub (level s) 1)) = level s - 1.
Proof.
  intros. unfold saturating_sub. pose proof (level_range s).
  rewrite level_from_level; lia.
Qed.

(** Fields [push_metrics] and [set_calm] leave alone. *)
Lemma push_metrics_ok c e m : engine_ok c e -> engine_ok c (push_metrics e m).
Proof.
  intros []. constructor; try done. unfold push_metrics; cbn [ee_metrics_history].
  assert (Hl : length (ee_metrics_history e ++ [m]) = S (length (ee_metrics_history e))).
  { rewrite length_app; simpl; lia. }
  destruct (200 <? _) eqn:E; bool_to_prop; rewrite ?length_drop; lia.
Qed.

Lemma set_calm_ok c e n : engine_ok c e -> engine_ok c (set_calm e n).
Proof. intros []. by constructor. Qed.

Lemma update_incident_ok c e m : engine_ok c e -> engine_ok c (update_incident e m).
Proof.
  intros [????????]. constructor; simpl; try done; by destruct (ee_current_incident e).
Qed.

(** The incident bookkeeping of a transition: a move to [Normal] closes the
    incident, a move away from it opens the next one. *)
Lemma track_incident_ok c e s now cur closed counter :
  engine_ok c e -> ee_incident_counter e + 1 < 2 ^ 64 ->
  track_incident e s now = (cur, closed, counter) ->
  match cur with
  | Some i => s <> Normal /\ di_ended i = None /\ level s <= level (di_peak_state i) /\
              di_id i = ddos_id counter
  | None => s = Normal
  end /\
  counter = Z.of_nat (length closed) + match cur with Some _ => 1 | None => 0 end /\
  (forall i inc, closed !! i = Some inc ->
     di_id inc = ddos_id (Z.of_nat i + 1) /\ is_Some (di_ended inc)).
Proof.
  intros [_ _ _ _ _ _ Hcur Hcnt Hcl] Hw. unfold track_incident.
  destruct (ee_current_incident e) as [inc|] eqn:Ei.
  - destruct Hcur as (_ & Hopen & _ & Hid).
    destruct s; intros [= <- <- <-]; split_and!; try done;
      try (destruct (_ <? _) eqn:?; bool_to_prop; simpl in *; done || lia).
    + rewrite length_app; simpl; lia.
    + intros i x [Hx|[Hx1 Hx2]]%lookup_app_Some; [by apply Hcl|].
      apply list_lookup_singleton_Some in Hx2 as [Hx2 <-]. simpl.
      split; [|done]. rewrite Hid. f_equal. lia.
  - rewrite wrapping_add_small by (unfold in_width; lia).
    destruct s; intros [= <- <- <-]; split_and!; simpl; done || lia.
Qed.

Lemma transition_to_ok c e s now dpm :
  engine_ok c e -> ee_incident_counter e + 1 < 2 ^ 64 ->
  transition_ok c (ee_state_entered_at e)
    {| st_from := ee_state e; st_to := s; st_at := now; st_trigger_drops_per_min := dpm |} ->
  engine_ok c (transition_to e s now dpm).
Proof.
  intros He Hw Ht. unfold transition_to.
  destruct (track_incident e s now) as [[cur closed] counter] eqn:Etr.
  destruct (track_incident_ok _ _ _ _ _ _ _ He Hw Etr) as (? & ? & ?).
  destruct He as [Hcfg Hdw Hch Hend Hat Hh _ _ _].
  constructor; simpl; try done.
  - rewrite chained_snoc, Hend, Hat. naive_solver.
  - apply (end_snoc _ 0).
  - apply (end_snoc Normal).
Qed.

Lemma target_state_config e c dpm :
  ee_config e = ee_config c -> target_state e dpm = target_state c dpm.
Proof. unfold target_state. by intros ->. Qed.

Lemma update_counter e m : 0 <= ee_incident_counter e ->
  ee_incident_counter (update e m).1 <= ee_incident_counter e + 1.
Proof.
  intros. assert (wrapping_add 64 (ee_incident_counter e) 1 <= ee_incident_counter e + 1).
  { apply Z.mod_le; lia. }
  unfold update, transition_to, track_incident; simpl. repeat (case_match; simplify_eq/=); lia.
Qed.

Lemma update_ok c e m :
  engine_ok c e -> ee_incident_counter e + 1 < 2 ^ 64 -> engine_ok c (update e m).1.
Proof.
  intros He Hw. apply (push_metrics_ok _ _ m) in He. unfold update.
  change (ee_incident_counter e) with (ee_incident_counter (push_metrics e m)) in Hw.
  set (e1 := push_metrics e m) in *. cbv zeta.
  rewrite (target_state_config e1 c) by apply He.
  destruct (level (ee_state e1) <? _) eqn:Hup;
    [|destruct (_ <? level (ee_state e1)) eqn:Hdown;
      [destruct (ee_min_state_duration e1 <=? _) eqn:Hdw; [destruct (calm_samples_required _ <=? _) eqn:Hcalm|]|]];
    cbn [fst]; eauto using update_incident_ok, set_calm_ok.
  - bool_to_prop. apply transition_to_ok; [done..|]. left. done.
  - bool_to_prop. apply transition_to_ok; [by apply set_calm_ok|done|]. right. cbn [st_from st_to st_at st_trigger_drops_per_min set_calm ee_state].
    pose proof (level_range (target_state c (drops_per_min m))).
    rewrite step_down by lia. split_and!; [done|lia|].
    by rewrite <- (eo_dwell _ _ He).
Qed.

Lemma updates_snoc e ms m : updates e (ms ++ [m]) = (update (updates e ms) m).1.
Proof. unfold updates. by rewrite foldl_app. Qed.

Lemma updates_counter_le now cfg ms :
  Z.of_nat (length ms) < 2 ^ 64 ->
  let e := updates (EscalationEngine_new now cfg) ms in
  engine_ok (EscalationEngine_new now cfg) e /\ ee_incident_counter e <= Z.of_nat (length ms).
Proof.
  induction ms as [|m ms IH] using rev_ind; intros Hlen; cbv zeta.
  - split; [|done]. constructor; simpl; try done; lia.
  - rewrite updates_snoc, length_app in *; simpl in *.
    destruct IH as [Hok Hc]; [lia|]. split; [apply update_ok; [done|lia]|].
    etrans; [apply update_counter|lia]. rewrite (eo_counter _ _ Hok). case_match; lia.
Qed.

(** C15. From a fresh engine, after any sequence of samples: the recorded
    transitions form a path from Normal to the current state in which every
    step is either a jump up to exactly the level the drop rate calls for, or
    a single level down taken after the minimum dwell time with a drop rate
    below the state left; the history is bounded by 200 samples; an incident
    is open exactly outside Normal, its peak is at least the current state,
    and incidents are numbered ddos-1, ddos-2, ... in order. *)
Theorem escalation_path_ok now cfg ms :
  Z.of_nat (length ms) < 2 ^ 64 ->
  engine_ok (EscalationEngine_new now cfg) (updates (EscalationEngine_new now cfg) ms).
Proof. intros H. apply (updates_counter_le now cfg ms H). Qed.

(** A sample [m] that asks for less than the state of [e], once the dwell time
    is over. *)
Definition calm_sample (e : EscalationEngine) (m : DdosMetrics) : Prop :=
  level (target_state e (drops_per_min m)) < level (ee_state e) /\
  ee_min_state_duration e <= dm_timestamp m - ee_state_entered_at e.

Lemma calm_sample_step e m :
  calm_sample e m -> 0 <= ee_calm_counter e -> ee_calm_counter e + 1 < 2 ^ 64 ->
  let e' := (update e m).1 in
  if calm_samples_required (ee_config e) <=? ee_calm_counter e + 1 then
    level (ee_state e') = level (ee_state e) - 1 /\
    ee_state_entered_at e' = dm_timestamp m /\ ee_calm_counter e' = 0
  else
    ee_state e' = ee_state e /\ ee_state_entered_at e' = ee_state_entered_at e /\
    ee_config e' = ee_config e /\ ee_min_state_duration e' = ee_min_state_duration e /\
    ee_calm_counter e' = ee_calm_counter e + 1.
Proof.
  intros [Hlt Hdw] H0 Hw. unfold update.
  change (target_state (push_metrics e m)) with (target_state e).
  replace (level (ee_state (push_metrics e m)) <? _) with false by (symmetry; apply Z.ltb_ge; simpl; lia).
  replace (level (target_state e _) <? _) with true by (symmetry; apply Z.ltb_lt; simpl; lia).
  cbn [push_metrics set_calm ee_min_state_duration ee_state_entered_at ee_config ee_calm_counter ee_state].
  replace (ee_min_state_duration e <=? _) with true by (symmetry; apply Z.leb_le; lia).
  rewrite wrapping_add_small by (unfold in_width; lia).
  destruct (calm_samples_required _ <=? _); [|done]. simpl.
  unfold transition_to. destruct (track_incident _ _ _) as [[??]?]. simpl.
  pose proof (level_range (target_state e (drops_per_min m))).
  by rewrite step_down by lia.
Qed.

(** De-escalation is not postponed for ever: once the dwell time of the
    state is over, the calm samples still required, each asking for less than
    the current state, take the engine exactly one level down, at the time of
    the last of them and with the calm counter reset. *)
Theorem calm_samples_deescalate e ms m :
  0 <= ee_calm_counter e < calm_samples_required (ee_config e) ->
  calm_samples_required (ee_config e) < 2 ^ 64 ->
  Z.of_nat (length (ms ++ [m])) = calm_samples_required (ee_config e) - ee_calm_counter e ->
  Forall (calm_sample e) (ms ++ [m]) ->
  let e' := updates e (ms ++ [m]) in
  level (ee_state e') = level (ee_state e) - 1 /\
  ee_state_entered_at e' = dm_timestamp m /\ ee_calm_counter e' = 0.
Proof.
  revert e. induction ms as [|x ms IH]; intros e Hc Hw Hlen Hall; cbv zeta.
  - simpl in *. apply (Forall_singleton (calm_sample e)) in Hall.
    pose proof (calm_sample_step e m Hall) as Hs. simpl in Hs.
    replace (_ <=? _) with true in Hs by (symmetry; apply Z.leb_le; lia).
    apply Hs; lia.
  - apply Forall_cons in Hall as [Hx Hall]. simpl in Hlen.
    pose proof (calm_sample_step e x Hx) as Hs. cbv zeta in Hs.
    rewrite length_app in *; simpl in *.
    replace (_ <=? _) with false in Hs by (symmetry; apply Z.leb_gt; lia).
    destruct Hs as (Hst & Hat & Hcfg & Hdw & Hcc); [lia..|].
    change (updates e (x :: ms ++ [m])) with (updates (update e x).1 (ms ++ [m])).
    rewrite <- Hst. apply IH; rewrite ?Hcfg, ?Hcc, ?length_app; simpl; try lia.
    eapply Forall_impl; [exact Hall|]. intros y [Hy1 Hy2]. unfold calm_sample.
    rewrite (target_state_config _ e) by done. by rewrite Hst, Hat, Hdw.
Qed.

(** ** Witnesses and the restart defect *)

Definition sample (at_secs dps : Z) : DdosMetrics := {|
  dm_timestamp := seconds at_secs; dm_packets_dropped_per_sec := dps; dm_unique_attackers := 1;
  dm_syn_flood_active := false; dm_udp_flood_active := false; dm_http_flood_active := false;
  dm_total_dropped := 0; dm_total_allowed := 0; dm_peak_pps := 0; dm_attack_duration_secs := 0;
  dm_server_cpu_impact := f64_zero |}.

Definition quick_config : EscalationConfig := {|
  elevated_drops_per_min := 50; under_attack_drops_per_min := 500; critical_drops_per_min := 5000;
  min_state_duration_secs := 0; calm_samples_required := 1 |}.

Lemma escalation_path_ok_witness :
  ee_state (updates (EscalationEngine_new 0 quick_config) [sample 1 100; sample 2 0]) = UnderAttack /\
  engine_ok (EscalationEngine_new 0 quick_config)
    (updates (EscalationEngine_new 0 quick_config) [sample 1 100; sample 2 0]).
Proof. split; [reflexivity|]. apply escalation_path_ok. simpl. lia. Defined.

Definition attacked : EscalationEngine :=
  updates (EscalationEngine_new 0 EscalationConfig_default) [sample 1 100].

Definition calm_minute : list DdosMetrics :=
  [sample 400 0; sample 405 0; sample 410 0; sample 415 0; sample 420 0].

Lemma calm_samples_deescalate_witness :
  ee_state attacked = Critical /\
  level (ee_state (updates attacked (calm_minute ++ [sample 425 0]))) = 2.
Proof.
  split; [reflexivity|].
  destruct (calm_samples_deescalate attacked calm_minute (sample 425 0)) as [H _].
  - cbv. split; congruence.
  - reflexivity.
  - reflexivity.
  - repeat constructor; cbv; congruence.
  - rewrite H. reflexivity.
Defined.

(** Restoring the persisted state does not restore the incident counter:
    an engine that closed incident ddos-1, restarted and attacked again,
    closes a second incident under the same identifier. *)
Theorem restored_id_collides :
  let before := updates (EscalationEngine_new 0 quick_config) [sample 1 1; sample 2 0] in
  let after := updates (restore (EscalationEngine_new 0 quick_config) (ee_state before)
                          (ee_state_entered_at before) (ee_incidents before))
                       [sample 3 1; sample 4 0] in
  di_id <$> ee_incidents after = ["ddos-1"; "ddos-1"].
Proof. reflexivity. Qed.
