(* ===== verification/ShieldFailover.v ===== *)
(** * ShieldFailover: the Cloudflare proxy switch
    (crates/shield/src/cloudflare_failover.rs)

    The switch follows the escalation state of [ShieldEscalation]: it asks the
    Cloudflare API to proxy the record when the state is one of the configured
    ones, and to stop once the state is gone and the proxy has been up for a
    minimum time.  The HTTP exchange and the clock readings are arguments. *)

From Stdlib Require Import ZArith Lia String.
From stdpp Require Import prelude strings list.
From S2P Require Import Prelude Text Json ShieldEscalation.

Local Open Scope string_scope.
Local Open Scope list_scope.
Local Open Scope Z_scope.

Record CloudflareFailoverConfig := {
  cf_enabled : bool;
  cf_api_token : string;
  cf_zone_id : string;
  cf_record_id : string;
  cf_activate_on : list string;
  cf_min_proxy_duration_secs : Z;
}.

Definition CloudflareFailoverConfig_default : CloudflareFailoverConfig := {|
  cf_enabled := false; cf_api_token := ""; cf_zone_id := ""; cf_record_id := "";
  cf_activate_on := ["UnderAttack"; "Critical"];
  cf_min_proxy_duration_secs := 300 |}.

(** The HTTP client is left out of the state: it only carries requests. *)
Record CloudflareFailover := {
  cf_config : CloudflareFailoverConfig;
  proxy_active : bool;
  proxy_activated_at : option Z;
  proxy_deactivated_at : option Z;
  activation_count : Z;
}.

Record FailoverStatus := {
  fs_enabled : bool;
  fs_proxy_active : bool;
  fs_proxy_activated_at : option string;
  fs_proxy_deactivated_at : option string;
  fs_activation_count : Z;
}.

Definition CloudflareFailover_new (config : CloudflareFailoverConfig) : CloudflareFailover := {|
  cf_config := config; proxy_active := false; proxy_activated_at := None;
  proxy_deactivated_at := None; activation_count := 0 |}.

(** The derived [Debug] text of the state. *)
Definition escalation_state_name (s : EscalationState) : string :=
  match s with
  | Normal => "Normal"
  | Elevated => "Elevated"
  | UnderAttack => "UnderAttack"
  | Critical => "Critical"
  end.

Definition should_activate_for_state (config : CloudflareFailoverConfig) (s : EscalationState) : bool :=
  mem_str (escalation_state_name s) (cf_activate_on config).

Definition can_deactivate_proxy (activated_at : option Z) (now min_proxy_duration_secs : Z) : bool :=
  match activated_at with
  | None => true
  | Some at_ => min_proxy_duration_secs <=? Z.max (num_seconds (now - at_)) 0
  end.

Definition cloudflare_record_url (zone_id record_id : string) : string :=
  "https://api.cloudflare.com/client/v4/zones/" +:+ zone_id +:+ "/dns_records/" +:+ record_id.

Definition cloudflare_proxy_payload (proxied : bool) : Json := JObj [("proxied", JBool proxied)].

Record Request := {
  rq_url : string;
  rq_headers : list (string * string);
  rq_json : Json;
}.

(** What the transport brings back: no response, or a status with a body and
    its parse as JSON. *)
Inductive Reply :=
| SendFailed
| Replied (status : Z) (body : string) (json : option Json).

Inductive ProxyError :=
| RequestFailed
| BadStatus (status : Z) (body : string)
| BadJson
| NotSuccess (errors : option Json).

Definition set_proxy (f : CloudflareFailover) (send : Request -> Reply) (proxied : bool)
  : result unit ProxyError :=
  let req := {| rq_url := cloudflare_record_url (cf_zone_id (cf_config f)) (cf_record_id (cf_config f));
                rq_headers := [("Authorization", "Bearer " +:+ cf_api_token (cf_config f));
                               ("Content-Type", "application/json")];
                rq_json := cloudflare_proxy_payload proxied |} in
  match send req with
  | SendFailed => Err RequestFailed
  | Replied status body json =>
      if negb ((200 <=? status) && (status <? 300)) then Err (BadStatus status body)
      else match json with
           | None => Err BadJson
           | Some data =>
               if bool_decide (get_bool data "success" = Some true) then Ok ()
               else Err (NotSuccess (get data "errors"))
           end
  end.

Definition mark_proxy_activated (f : CloudflareFailover) (now : Z) : CloudflareFailover := {|
  cf_config := cf_config f; proxy_active := true; proxy_activated_at := Some now;
  proxy_deactivated_at := proxy_deactivated_at f;
  activation_count := wrapping_add 64 (activation_count f) 1 |}.

Definition mark_proxy_deactivated (f : CloudflareFailover) (now : Z) : CloudflareFailover := {|
  cf_config := cf_config f; proxy_active := false; proxy_activated_at := proxy_activated_at f;
  proxy_deactivated_at := Some now; activation_count := activation_count f |}.

(** [now_check] is the clock when the minimum duration is tested, [now_mark]
    when the change is recorded (after the API call). *)
Definition check_and_toggle (f : CloudflareFailover) (send : Request -> Reply) (now_check now_mark : Z)
    (state : EscalationState) : CloudflareFailover * bool :=
  if negb (cf_enabled (cf_config f)) then (f, false)
  else
    let should_activate := should_activate_for_state (cf_config f) state in
    if should_activate && negb (proxy_active f) then
      match set_proxy f send true with
      | Ok _ => (mark_proxy_activated f now_mark, true)
      | Err _ => (f, false)
      end
    else if negb should_activate && proxy_active f then
      if negb (can_deactivate_proxy (proxy_activated_at f) now_check
                 (cf_min_proxy_duration_secs (cf_config f))) then (f, false)
      else match set_proxy f send false with
           | Ok _ => (mark_proxy_deactivated f now_mark, true)
           | Err _ => (f, false)
           end
    else (f, false).

Definition is_active (f : CloudflareFailover) : bool := proxy_active f.

Definition failover_status `{Chrono} (f : CloudflareFailover) : FailoverStatus := {|
  fs_enabled := cf_enabled (cf_config f);
  fs_proxy_active := proxy_active f;
  fs_proxy_activated_at := to_rfc3339 <$> proxy_activated_at f;
  fs_proxy_deactivated_at := to_rfc3339 <$> proxy_deactivated_at f;
  fs_activation_count := activation_count f |}.

(** ** Runs of the switch, with the log of its changes *)

Record Tick := {
  tk_state : EscalationState;
  tk_send : Request -> Reply;
  tk_check : Z;
  tk_mark : Z;
}.

Record Toggle := {
  tg_on : bool;
  tg_state : EscalationState;
  tg_check : Z;
  tg_mark : Z;
}.

Definition tick (fl : CloudflareFailover * list Toggle) (t : Tick) : CloudflareFailover * list Toggle :=
  let '(f', changed) := check_and_toggle fl.1 (tk_send t) (tk_check t) (tk_mark t) (tk_state t) in
  (f', if changed then fl.2 ++ [{| tg_on := is_active f'; tg_state := tk_state t;
                                   tg_check := tk_check t; tg_mark := tk_mark t |}]
       else fl.2).

Definition run_ticks (config : CloudflareFailoverConfig) (ts : list Tick)
  : CloudflareFailover * list Toggle :=
  foldl tick (CloudflareFailover_new config, []) ts.

(** Activations and deactivations alternate; the ones that switch the proxy on
    have a state of the configured list, the ones that switch it off have not,
    and come at least the minimum duration after the activation they end. *)
Fixpoint log_ok (config : CloudflareFailoverConfig) (active : option Z) (l : list Toggle) : Prop :=
  match l with
  | [] => True
  | g :: r =>
      should_activate_for_state config (tg_state g) = tg_on g /\
      match active with
      | None => tg_on g = true /\ log_ok config (Some (tg_mark g)) r
      | Some at_ => tg_on g = false /\
                    seconds (cf_min_proxy_duration_secs config) <= tg_check g - at_ /\
                    log_ok config None r
      end
  end.

Fixpoint log_end (active : option Z) (l : list Toggle) : option Z :=
  match l with
  | [] => active
  | g :: r => log_end (if tg_on g then Some (tg_mark g) else None) r
  end.

Record failover_ok (config : CloudflareFailoverConfig) (fl : CloudflareFailover * list Toggle) : Prop := {
  fo_config : cf_config fl.1 = config;
  fo_log : log_ok config None fl.2;
  fo_active : log_end None fl.2 = (if proxy_active fl.1 then proxy_activated_at fl.1 else None);
  fo_count : activation_count fl.1 = wrap 64 (Z.of_nat (length (retain tg_on fl.2)));
  fo_at : proxy_active fl.1 = true -> is_Some (proxy_activated_at fl.1) }.

Lemma log_ok_snoc config a l g :
  log_ok config a (l ++ [g]) <->
  log_ok config a l /\ log_ok config (log_end a l) [g].
Proof.
  revert a. induction l as [|h l IH]; intros a; [simpl; naive_solver|].
  cbn [app log_ok log_end]. destruct a; rewrite IH.
  - split; [intros (? & E & ? & ? & ?)|intros ((? & E & ? & ?) & ?)]; rewrite E in *; naive_solver.
  - split; [intros (? & E & ? & ?)|intros ((? & E & ?) & ?)]; rewrite E in *; naive_solver.
Qed.

Lemma log_end_snoc a l g : log_end a (l ++ [g]) = if tg_on g then Some (tg_mark g) else None.
Proof. revert a. induction l as [|h l IH]; intros a; [done|]. apply IH. Qed.

Lemma retain_snoc {A} (p : A -> bool) l x :
  retain p (l ++ [x]) = retain p l ++ if p x then [x] else [].
Proof. unfold retain. rewrite List.filter_app. simpl. by destruct (p x). Qed.

(** The test of the minimum duration, in nanoseconds. *)
Lemma can_deactivate_after at_ now n :
  0 < n -> can_deactivate_proxy (Some at_) now n = true -> seconds n <= now - at_.
Proof.
  simpl. intros Hn H. bool_to_prop.
  replace n with (n - 1 + 1) by lia. apply num_seconds_gt; lia.
Qed.

Lemma tick_ok config fl t :
  0 < cf_min_proxy_duration_secs config ->
  failover_ok config fl -> failover_ok config (tick fl t).
Proof.
  intros Hmin Hok. pose proof Hok as [Hc Hl Ha Hn Hat]. unfold tick, check_and_toggle.
  destruct fl as [f log]; cbn [fst snd] in *. rewrite Hc.
  destruct (cf_enabled config); [|done]. cbn [negb].
  destruct (should_activate_for_state config (tk_state t)) eqn:Hs, (proxy_active f) eqn:Hp;
    cbn [andb negb]; try done.
  - destruct (set_proxy f (tk_send t) true); [|done].
    constructor; simpl; try done.
    + rewrite log_ok_snoc, Ha. simpl. by rewrite Hs.
    + by rewrite log_end_snoc.
    + rewrite retain_snoc, length_app, Hn. simpl. unfold wrapping_add, wrap.
      rewrite Nat2Z.inj_add. by rewrite Zplus_mod_idemp_l.
  - destruct (can_deactivate_proxy _ _ _) eqn:Hcan; cbn [negb]; [|done].
    destruct (set_proxy f (tk_send t) false); [|done].
    destruct (Hat eq_refl) as [at_ Eat]. rewrite Eat in *.
    constructor; simpl; try done.
    + rewrite log_ok_snoc, Ha. simpl. rewrite Hs.
      split_and!; try done. by apply can_deactivate_after.
    + by rewrite log_end_snoc.
    + by rewrite retain_snoc, app_nil_r.
Qed.

(** No flapping: over any run of the switch, with any API replies and any
    clock readings, activations and deactivations alternate, starting with an
    activation; each activation happens in a configured state, each
    deactivation in another state and at least min_proxy_duration_secs after
    the activation it ends; the activation counter counts the activations. *)
Theorem failover_no_flapping config ts :
  0 < cf_min_proxy_duration_secs config ->
  failover_ok config (run_ticks config ts).
Proof.
  intros Hmin. unfold run_ticks. induction ts as [|t ts IH] using rev_ind.
  - by constructor.
  - rewrite foldl_app. by apply tick_ok.
Qed.

(** A reply with a success status and [success: true]. *)
Definition accepts (send : Request -> Reply) : Prop :=
  forall r, exists status body data,
    send r = Replied status body (Some data) /\ 200 <= status < 300 /\
    get_bool data "success" = Some true.

Lemma set_proxy_accepts f send b : accepts send -> set_proxy f send b = Ok ().
Proof.
  intros Hs. unfold set_proxy.
  match goal with |- context [send ?r] => destruct (Hs r) as (st & body & data & -> & Hst & Hd) end.
  replace ((200 <=? st) && (st <? 300)) with true.
  - simpl. by rewrite bool_decide_true.
  - symmetry. apply andb_true_iff. split; [apply Z.leb_le|apply Z.ltb_lt]; lia.
Qed.

(** With the default state list, once the API accepts the call the proxy
    is on exactly when the escalation engine is at UnderAttack or above, or is
    still inside the minimum duration of an earlier activation. *)
Theorem proxy_follows_escalation f send now_check now_mark (e : EscalationEngine) (m : DdosMetrics) :
  cf_enabled (cf_config f) = true ->
  cf_activate_on (cf_config f) = cf_activate_on CloudflareFailoverConfig_default ->
  accepts send ->
  let state := ee_state (update e m).1 in
  is_active (check_and_toggle f send now_check now_mark state).1 = true <->
  2 <= level state \/
  (proxy_active f = true /\
   can_deactivate_proxy (proxy_activated_at f) now_check (cf_min_proxy_duration_secs (cf_config f)) = false).
Proof.
  intros Hen Hon Hacc state. unfold check_and_toggle, is_active. rewrite Hen. cbn [negb].
  rewrite !set_proxy_accepts by done.
  assert (Hs : should_activate_for_state (cf_config f) state = true <-> 2 <= level state).
  { unfold should_activate_for_state. rewrite mem_str_true, Hon. clearbody state.
    destruct state; simpl; split; intros H; try lia; set_solver. }
  destruct (should_activate_for_state _ _), (proxy_active f) eqn:Hp, (can_deactivate_proxy _ _ _);
    simpl; rewrite ?Hp; destruct Hs as [Hs1 Hs2];
    (split; [try done; intros _|intros [?|[??]]]); try done; try (left; by apply Hs1);
    try (by right); by apply Hs2.
Qed.

(** ** Witnesses *)

Definition demo_send (r : Request) : Reply := Replied 200 "" (Some (JObj [("success", JBool true)])).

Definition demo_config : CloudflareFailoverConfig := {|
  cf_enabled := true; cf_api_token := "t"; cf_zone_id := "z"; cf_record_id := "r";
  cf_activate_on := ["UnderAttack"; "Critical"]; cf_min_proxy_duration_secs := 300 |}.

Definition demo_ticks : list Tick :=
  [{| tk_state := Critical; tk_send := demo_send; tk_check := 0; tk_mark := 0 |};
   {| tk_state := Normal; tk_send := demo_send; tk_check := seconds 10; tk_mark := seconds 10 |};
   {| tk_state := Normal; tk_send := demo_send; tk_check := seconds 301; tk_mark := seconds 301 |}].

Lemma failover_no_flapping_witness :
  tg_on <$> (run_ticks demo_config demo_ticks).2 = [true; false] /\
  failover_ok demo_config (run_ticks demo_config demo_ticks).
Proof. split; [reflexivity|]. apply failover_no_flapping. simpl. lia. Defined.

Lemma proxy_follows_escalation_witness :
  is_active (check_and_toggle (CloudflareFailover_new demo_config) demo_send 0 0
    (ee_state (update (EscalationEngine_new 0 EscalationConfig_default) (sample 1 100)).1)).1 = true.
Proof.
  apply proxy_follows_escalation; [reflexivity|reflexivity| |].
  - intros r. exists 200, "", (JObj [("success", JBool true)]). split_and!; try reflexivity; lia.
  - left. vm_compute. congruence.
Defined.
