(* ===== verification/ShieldSyn.v ===== *)
(** * ShieldSyn: SYN flood detection (crates/shield/src/syn_tracker.rs)

    Per-address deques of SYN and SYN-ACK instants inside a sliding window,
    and an estimate of the half-open connections.  The detector is shown to
    refine a plain log of the observations. *)

From Stdlib Require Import ZArith Lia String SpecFloat.
From stdpp Require Import prelude strings gmap list sorting.
From S2P Require Import Prelude Text Floats.

Local Open Scope list_scope.
Local Open Scope Z_scope.

Inductive SynVerdict :=
| SynNormal
| SynFloodFromIp (ip : string)
| GlobalSynFlood.

Record SynFloodConfig := {
  window_secs : Z;
  syn_threshold : Z;
  completion_ratio : float;
  half_open_threshold : Z;
}.

Definition SynFloodConfig_default : SynFloodConfig := {|
  window_secs := 30; syn_threshold := 100; completion_ratio := f64_lit 1 10;
  half_open_threshold := 5000 |}.

Record SynFloodDetector := {
  syn_counts : gmap string (list Z);
  ack_counts : gmap string (list Z);
  half_open_estimate : Z;
  sf_config : SynFloodConfig;
}.

Definition SynFloodDetector_new (config : SynFloodConfig) : SynFloodDetector := {|
  syn_counts := ∅; ack_counts := ∅; half_open_estimate := 0; sf_config := config |}.

Definition expire_deque (d : list Z) (now window : Z) : list Z :=
  let cutoff := now - window in drop_while (fun t => t <? cutoff) d.

(** [entry(ip).or_default()], push at the back, expire the front. *)
Definition record_in (window : Z) (counts : gmap string (list Z)) (ip : string) (ts : Z)
  : gmap string (list Z) :=
  <[ip := expire_deque (default [] (counts !! ip) ++ [ts]) ts window]> counts.

Definition record_syn (d : SynFloodDetector) (ip : string) (ts : Z) : SynFloodDetector :=
  let window := seconds (window_secs (sf_config d)) in
  {| syn_counts := record_in window (syn_counts d) ip ts;
     ack_counts := ack_counts d;
     half_open_estimate := saturating_add 64 (half_open_estimate d) 1;
     sf_config := sf_config d |}.

Definition record_ack (d : SynFloodDetector) (ip : string) (ts : Z) : SynFloodDetector :=
  let window := seconds (window_secs (sf_config d)) in
  {| syn_counts := syn_counts d;
     ack_counts := record_in window (ack_counts d) ip ts;
     half_open_estimate := saturating_sub (half_open_estimate d) 1;
     sf_config := sf_config d |}.

Definition count_in (counts : gmap string (list Z)) (ip : string) : Z :=
  match counts !! ip with Some d => Z.of_nat (length d) | None => 0 end.

Definition syn_count_for (d : SynFloodDetector) (ip : string) : Z := count_in (syn_counts d) ip.
Definition ack_count_for (d : SynFloodDetector) (ip : string) : Z := count_in (ack_counts d) ip.
Definition tracked_count (d : SynFloodDetector) : Z := Z.of_nat (size (syn_counts d)).

(** The verdict of [check_ip] from the two counts. *)
Definition verdict_of (config : SynFloodConfig) (ip : string) (syn_count ack_count : Z) : SynVerdict :=
  if syn_threshold config <=? syn_count then
    let ratio := if syn_count =? 0 then f64_one
                 else f64_div (f64_of_Z ack_count) (f64_of_Z syn_count) in
    if f_ltb ratio (completion_ratio config) then SynFloodFromIp ip else SynNormal
  else SynNormal.

Definition check_ip (d : SynFloodDetector) (ip : string) : SynVerdict :=
  verdict_of (sf_config d) ip (count_in (syn_counts d) ip) (count_in (ack_counts d) ip).

Definition check_global (d : SynFloodDetector) : SynVerdict :=
  if half_open_threshold (sf_config d) <? half_open_estimate d then GlobalSynFlood else SynNormal.

(** The order of [HashMap::keys] is unspecified. *)
Definition get_flagged_ips (d : SynFloodDetector) : list string :=
  retain (fun ip => match check_ip d ip with SynFloodFromIp _ => true | _ => false end)
    ((map_to_list (syn_counts d)).*1).

Definition expire_counts (window now : Z) (counts : gmap string (list Z)) : gmap string (list Z) :=
  filter (fun kv => kv.2 <> []) ((fun dq => expire_deque dq now window) <$> counts).

Definition total_in (counts : gmap string (list Z)) : Z :=
  sumZ ((fun kv => Z.of_nat (length kv.2)) <$> map_to_list counts).

Definition expire_all (d : SynFloodDetector) (now : Z) : SynFloodDetector :=
  let window := seconds (window_secs (sf_config d)) in
  let syns := expire_counts window now (syn_counts d) in
  let acks := expire_counts window now (ack_counts d) in
  {| syn_counts := syns; ack_counts := acks;
     half_open_estimate := saturating_sub (total_in syns) (total_in acks);
     sf_config := sf_config d |}.

(** ** The abstract view: the log of what happened *)

Inductive SynEvent :=
| ESyn (ip : string) (ts : Z)
| EAck (ip : string) (ts : Z)
| EExpire (now : Z).

Definition event_time (e : SynEvent) : Z :=
  match e with ESyn _ t | EAck _ t | EExpire t => t end.

Definition syn_step (d : SynFloodDetector) (e : SynEvent) : SynFloodDetector :=
  match e with
  | ESyn ip ts => record_syn d ip ts
  | EAck ip ts => record_ack d ip ts
  | EExpire now => expire_all d now
  end.

Definition syn_run (config : SynFloodConfig) (es : list SynEvent) : SynFloodDetector :=
  foldl syn_step (SynFloodDetector_new config) es.

Inductive Side := SideSyn | SideAck.

(** The address an event of the given side is about. *)
Definition concerns (sd : Side) (ip : string) (e : SynEvent) : bool :=
  match sd, e with
  | SideSyn, ESyn i _ | SideAck, EAck i _ => String.eqb ip i
  | _, _ => false
  end.

Definition is_expire (e : SynEvent) : bool := match e with EExpire _ => true | _ => false end.

(** The instants recorded for an address, and the instant its deque was last
    brought up to date. *)
Definition instants (sd : Side) (ip : string) (es : list SynEvent) : list Z :=
  event_time <$> retain (concerns sd ip) es.
Definition refreshed (sd : Side) (ip : string) (es : list SynEvent) : option Z :=
  last (event_time <$> retain (fun e => concerns sd ip e || is_expire e) es).

(** Those of the instants that lie inside the window at that moment. *)
Definition windowed (config : SynFloodConfig) (sd : Side) (ip : string) (es : list SynEvent) : list Z :=
  match refreshed sd ip es with
  | Some now => retain (fun t => now - seconds (window_secs config) <=? t) (instants sd ip es)
  | None => []
  end.

Definition side_counts (sd : Side) (d : SynFloodDetector) : gmap string (list Z) :=
  match sd with SideSyn => syn_counts d | SideAck => ack_counts d end.

Definition time_ordered (es : list SynEvent) : Prop :=
  StronglySorted (fun a b => event_time a <= event_time b) es.

(** ** The refinement *)

Lemma expire_sorted d now window :
  StronglySorted Z.le d ->
  expire_deque d now window = retain (fun t => now - window <=? t) d.
Proof.
  intros Hd. unfold expire_deque. rewrite drop_while_retain.
  - unfold retain. apply List.filter_ext. intros t.
    destruct (t <? now - window) eqn:E, (now - window <=? t) eqn:E'; simpl; bool_to_prop; done || lia.
  - induction Hd as [|x l Hl IH Hx]; constructor; [done|].
    eapply Forall_impl; [exact Hx|]. simpl. intros y Hy H%Z.ltb_lt. apply Z.ltb_lt. lia.
Qed.

Lemma retain_retain_cut c c' (l : list Z) :
  c <= c' -> retain (fun t => c' <=? t) (retain (fun t => c <=? t) l) = retain (fun t => c' <=? t) l.
Proof.
  intros Hc. unfold retain. induction l as [|x l IH]; [done|]. simpl.
  destruct (c <=? x) eqn:E, (c' <=? x) eqn:E'; simpl; rewrite ?E', IH; bool_to_prop; done || lia.
Qed.

Lemma StronglySorted_times es : time_ordered es -> StronglySorted Z.le (event_time <$> es).
Proof.
  induction 1 as [|x l Hl IH Hx]; [constructor|]. rewrite fmap_cons. constructor; [done|].
  by apply Forall_fmap.
Qed.

Lemma instants_sorted sd ip es : time_ordered es -> StronglySorted Z.le (instants sd ip es).
Proof. intros H. apply StronglySorted_times. by apply StronglySorted_retain. Qed.

Lemma instants_snoc sd ip es e :
  instants sd ip (es ++ [e]) = instants sd ip es ++ if concerns sd ip e then [event_time e] else [].
Proof.
  unfold instants. rewrite retain_app_list, fmap_app. f_equal. unfold retain. simpl.
  by destruct (concerns sd ip e).
Qed.

Lemma refreshed_snoc sd ip es e :
  refreshed sd ip (es ++ [e]) =
  if concerns sd ip e || is_expire e then Some (event_time e) else refreshed sd ip es.
Proof.
  unfold refreshed. rewrite retain_app_list, fmap_app. unfold retain at 2. simpl.
  destruct (concerns sd ip e || is_expire e); simpl; [by rewrite last_snoc|by rewrite app_nil_r].
Qed.

Lemma refreshed_bound sd ip es now :
  refreshed sd ip es = Some now -> forall b, Forall (fun y => event_time y <= b) es -> now <= b.
Proof.
  unfold refreshed. intros H b Hb. apply last_Some_elem_of in H.
  apply list_elem_of_fmap in H as (e & -> & He). apply retain_elem in He as [He _].
  rewrite Forall_forall in Hb. by apply Hb.
Qed.

Lemma refreshed_None sd ip es : refreshed sd ip es = None -> instants sd ip es = [].
Proof.
  unfold refreshed. intros H%last_None. apply fmap_nil_inv in H. unfold instants.
  rewrite list_filter_none; [done|]. intros e He.
  destruct (concerns sd ip e) eqn:E; [|done].
  assert (e ∈ retain (fun e => concerns sd ip e || is_expire e) es) as Hin.
  { apply retain_elem. by rewrite E. }
  rewrite H in Hin. by apply elem_of_nil in Hin.
Qed.

Lemma record_in_lookup w m ip ts i :
  default [] (record_in w m ip ts !! i) =
  if String.eqb i ip then expire_deque (default [] (m !! i) ++ [ts]) ts w else default [] (m !! i).
Proof.
  unfold record_in. destruct (String.eqb_spec i ip) as [->|].
  - by rewrite lookup_insert_eq.
  - by rewrite lookup_insert_ne by done.
Qed.

Lemma expire_counts_lookup w now m i :
  default [] (expire_counts w now m !! i) = expire_deque (default [] (m !! i)) now w.
Proof.
  unfold expire_counts. rewrite map_lookup_filter, lookup_fmap.
  destruct (m !! i) as [d|]; simpl; [|done].
  destruct (decide (expire_deque d now w <> [])) as [H|H]; rewrite ?option_guard_True, ?option_guard_False by done;
    simpl; [done|]. destruct (expire_deque d now w); [done|]. by destruct H.
Qed.

(** One step of the detector on one side, per address. *)
Lemma syn_step_side sd d e i :
  let w := seconds (window_secs (sf_config d)) in
  default [] (side_counts sd (syn_step d e) !! i) =
  if concerns sd i e then expire_deque (default [] (side_counts sd d !! i) ++ [event_time e]) (event_time e) w
  else if is_expire e then expire_deque (default [] (side_counts sd d !! i)) (event_time e) w
  else default [] (side_counts sd d !! i).
Proof.
  destruct sd, e; simpl; rewrite ?record_in_lookup, ?expire_counts_lookup; done.
Qed.

Lemma syn_run_config config es : sf_config (syn_run config es) = config.
Proof.
  unfold syn_run. induction es as [|e es IH] using rev_ind; [done|].
  rewrite foldl_app. by destruct e.
Qed.

Lemma syn_run_windowed config sd ip es :
  time_ordered es ->
  default [] (side_counts sd (syn_run config es) !! ip) = windowed config sd ip es.
Proof.
  induction es as [|e es IH] using rev_ind; intros Hord.
  - by destruct sd.
  - pose proof Hord as Hord'. apply StronglySorted_snoc in Hord' as [Hes Hle].
    specialize (IH Hes).
    replace (syn_run config (es ++ [e])) with (syn_step (syn_run config es) e)
      by (unfold syn_run; by rewrite foldl_app).
    rewrite syn_step_side, syn_run_config, IH. unfold windowed.
    rewrite refreshed_snoc, instants_snoc.
    set (w := seconds (window_secs config)).
    assert (Hold : forall tail, StronglySorted Z.le (instants sd ip es ++ tail) ->
              expire_deque (windowed config sd ip es ++ tail) (event_time e) w =
              retain (fun t => event_time e - w <=? t) (instants sd ip es ++ tail)).
    { intros tail Hs. unfold windowed. destruct (refreshed sd ip es) as [now|] eqn:Er.
      - pose proof (refreshed_bound _ _ _ _ Er _ Hle) as Hnow.
        rewrite expire_sorted.
        + rewrite !retain_app_list. f_equal. apply retain_retain_cut. lia.
        + rewrite StronglySorted_app in Hs |- *. destruct Hs as (H1 & H2 & H3).
          split_and!; [|by apply StronglySorted_retain|done].
          intros x y Hx Hy. apply retain_elem in Hx as [Hx _]. by apply H1.
      - rewrite (refreshed_None _ _ _ Er) in *. by apply expire_sorted. }
    pose proof (instants_sorted sd ip _ Hord) as Hsort. rewrite instants_snoc in Hsort.
    fold (windowed config sd ip es).
    destruct (concerns sd ip e); simpl; [by apply Hold|].
    destruct (is_expire e); [|by rewrite app_nil_r].
    specialize (Hold []). rewrite (app_nil_r (windowed _ _ _ _)), (app_nil_r (instants _ _ _)) in Hold.
    rewrite app_nil_r. by apply Hold, instants_sorted.
Qed.

Lemma count_in_length m ip : count_in m ip = Z.of_nat (length (default [] (m !! ip))).
Proof. unfold count_in. by destruct (m !! ip). Qed.

(** The detector refines the log: for observations in time order, with
    expiries anywhere in between, the verdict of check_ip is the verdict
    computed from the SYN and SYN-ACK instants of the whole log that lie
    inside the window when the address was last refreshed. *)
Theorem check_ip_refines config es ip :
  time_ordered es ->
  check_ip (syn_run config es) ip =
  verdict_of config ip (Z.of_nat (length (windowed config SideSyn ip es)))
                       (Z.of_nat (length (windowed config SideAck ip es))).
Proof.
  intros H. unfold check_ip. rewrite syn_run_config, !count_in_length.
  by rewrite <- (syn_run_windowed config SideSyn ip es H), <- (syn_run_windowed config SideAck ip es H).
Qed.

(** [expire_all] keeps no empty deque and nothing older than the window at
    its front, and leaves as half-open estimate the surplus of the kept SYN
    over the kept SYN-ACK entries, zero when there is none. *)
Lemma expire_all_exact d now :
  let d' := expire_all d now in
  let cut := now - seconds (window_secs (sf_config d)) in
  (forall sd ip dq, side_counts sd d' !! ip = Some dq ->
     (exists old, side_counts sd d !! ip = Some old /\ dq `suffix_of` old) /\
     exists t r, dq = t :: r /\ cut <= t) /\
  half_open_estimate d' = Z.max 0 (total_in (syn_counts d') - total_in (ack_counts d')).
Proof.
  cbv zeta. split; [|done]. intros sd ip dq H.
  assert (exists old, side_counts sd d !! ip = Some old /\
            dq = expire_deque old now (seconds (window_secs (sf_config d))) /\ dq <> [])
    as (old & Hold & -> & Hne).
  { destruct sd; simpl in *; unfold expire_counts in H;
      apply map_lookup_filter_Some in H as [H Hne]; rewrite lookup_fmap in H;
      apply fmap_Some in H as (old & Hold & ->); eauto. }
  split; [exists old; split; [done|apply drop_while_suffix]|].
  destruct (expire_deque _ _ _) as [|t r] eqn:E; [done|]. exists t, r. split; [done|].
  apply drop_while_head in E. by bool_to_prop.
Qed.

(** An address is reported by [get_flagged_ips] exactly when check_ip flags
    it and it has recorded SYNs; with a positive threshold a flagged address
    always has at least that many SYNs in its deque. *)
Lemma flagged_ips_exact d ip :
  0 < syn_threshold (sf_config d) ->
  (ip ∈ get_flagged_ips d <-> check_ip d ip = SynFloodFromIp ip) /\
  (check_ip d ip = SynFloodFromIp ip -> syn_threshold (sf_config d) <= syn_count_for d ip).
Proof.
  intros Hpos.
  assert (Hn : check_ip d ip = SynFloodFromIp ip -> syn_threshold (sf_config d) <= syn_count_for d ip).
  { unfold check_ip, verdict_of, syn_count_for. case_match; [by bool_to_prop|done]. }
  split; [|done]. unfold get_flagged_ips. rewrite retain_elem.
  assert (Hv : check_ip d ip = SynFloodFromIp ip \/ check_ip d ip = SynNormal).
  { unfold check_ip, verdict_of. repeat case_match; auto. }
  split.
  - intros [_ H]. destruct Hv as [Hv|Hv]; [done|]. by rewrite Hv in H.
  - intros H. rewrite H. split; [|done]. specialize (Hn H). unfold syn_count_for, count_in in Hn.
    destruct (syn_counts d !! ip) as [dq|] eqn:E; [|lia].
    apply list_elem_of_fmap. exists (ip, dq). split; [done|]. by apply elem_of_map_to_list.
Qed.

(** ** Witnesses *)

Definition small_config : SynFloodConfig := {|
  window_secs := 30; syn_threshold := 2; completion_ratio := f64_lit 1 10; half_open_threshold := 5 |}.

Definition demo_log : list SynEvent :=
  [ESyn "10.0.0.9" 0; ESyn "10.0.0.9" (seconds 20); EAck "10.0.0.7" (seconds 25);
   ESyn "10.0.0.9" (seconds 40); EExpire (seconds 45)].

Lemma check_ip_refines_witness :
  check_ip (syn_run small_config demo_log) "10.0.0.9" = SynFloodFromIp "10.0.0.9".
Proof.
  rewrite check_ip_refines; [reflexivity|].
  repeat (constructor; [|repeat constructor; simpl; unfold seconds, NANOS_PER_SEC; lia]). constructor.
Defined.
