(* ===== verification/ShieldRateLimiter.v ===== *)
(** * ShieldRateLimiter: per-address adaptive rate limiting
    (crates/shield/src/rate_limiter.rs)

    A token bucket, a sliding window and an exponential moving average per
    address, in IEEE-754 double precision, combined into one decision per
    packet.  A division by a zero number of sub-windows panics in the code:
    the operations that can reach it return [None] there. *)

From Stdlib Require Import ZArith Lia String SpecFloat.
From stdpp Require Import prelude strings gmap list.
From S2P Require Import Prelude Text Floats.

Local Open Scope string_scope.
Local Open Scope list_scope.
Local Open Scope Z_scope.

Inductive RateLimitDecision := Allow | Drop | Challenge.

#[export] Instance RateLimitDecision_eq_dec : EqDecision RateLimitDecision.
Proof. solve_decision. Defined.

(** ** Token bucket *)

Record TokenBucket := {
  tokens : float;
  max_tokens : float;
  refill_rate : float;
  last_refill : Z;
}.

Definition TokenBucket_new (max refill : float) (now : Z) : TokenBucket :=
  {| tokens := max; max_tokens := max; refill_rate := refill; last_refill := now |}.

Definition consume (b : TokenBucket) (now : Z) : TokenBucket * bool :=
  let elapsed_ms := f64_of_Z (Z.max (num_milliseconds (now - last_refill b)) 0) in
  let elapsed_secs := f64_div elapsed_ms (f64_of_Z 1000) in
  let t := f_min (f64_add (tokens b) (f64_mul (refill_rate b) elapsed_secs)) (max_tokens b) in
  let ok := f_geb t f64_one in
  ({| tokens := if ok then f64_sub t f64_one else t;
      max_tokens := max_tokens b; refill_rate := refill_rate b; last_refill := now |}, ok).

(** ** Sliding window *)

Record SlidingWindow := {
  counts : list (Z * Z);
  window_size : Z;
  sub_window_count : Z;
  max_rate : Z;
}.

Definition SlidingWindow_new (window_secs sub_windows rate : Z) : SlidingWindow :=
  {| counts := []; window_size := seconds window_secs; sub_window_count := sub_windows; max_rate := rate |}.

(** [Duration / i32], which panics on zero. *)
Definition sub_window_dur (w : SlidingWindow) : option Z :=
  let n := as_signed 32 (wrap 32 (sub_window_count w)) in
  if n =? 0 then None else Some (Z.quot (window_size w) n).

(** The aligned instant is between zero and [now], so [from_timestamp_millis]
    always succeeds. *)
Definition sub_window_start (now sub_dur : Z) : Z :=
  let millis := Z.max (num_milliseconds sub_dur) 1 in
  let now_ms := timestamp_millis now in
  from_timestamp_millis (now_ms - Z.rem now_ms millis).

Definition expire (w : SlidingWindow) (now : Z) : SlidingWindow :=
  let cutoff := now - window_size w in
  {| counts := drop_while (fun c => c.1 <? cutoff) (counts w);
     window_size := window_size w; sub_window_count := sub_window_count w; max_rate := max_rate w |}.

Definition weighted_count (w : SlidingWindow) (now sub_dur : Z) : Z :=
  let sub_millis := f64_of_Z (Z.max (num_milliseconds sub_dur) 1) in
  let current_sub := sub_window_start now sub_dur in
  let elapsed_in_sub := f64_of_Z (Z.max (num_milliseconds (now - current_sub)) 0) in
  let weight := if f_ltb elapsed_in_sub f64_one then f64_one else f64_div elapsed_in_sub sub_millis in
  f64_ceil_to_u64
    (foldl (fun total c =>
              f64_add total (if c.1 =? current_sub then f64_mul (f64_of_Z c.2) weight else f64_of_Z c.2))
           f64_zero (counts w)).

(** The back of the deque takes the packet when it is the current sub-window. *)
Definition bump_back (l : list (Z * Z)) (sub_start : Z) : list (Z * Z) :=
  match last l with
  | Some (s, n) =>
      if s =? sub_start then take (length l - 1) l ++ [(s, wrapping_add 64 n 1)] else l ++ [(sub_start, 1)]
  | None => l ++ [(sub_start, 1)]
  end.

Definition record (w : SlidingWindow) (now : Z) : option (SlidingWindow * bool) :=
  sub_dur ← sub_window_dur w;
  let w := expire w now in
  let w := {| counts := bump_back (counts w) (sub_window_start now sub_dur);
              window_size := window_size w; sub_window_count := sub_window_count w;
              max_rate := max_rate w |} in
  Some (w, weighted_count w now sub_dur <=? max_rate w).

Definition current_rate (w : SlidingWindow) (now : Z) : option Z :=
  sub_dur ← sub_window_dur w; Some (weighted_count w now sub_dur).

(** ** Exponential moving average *)

Record EmaTracker := {
  ema_value : float;
  alpha : float;
  variance_ema : float;
  alpha_var : float;
  threshold_multiplier : float;
  samples : Z;
}.

Definition EmaTracker_new (a av mult : float) : EmaTracker := {|
  ema_value := f64_zero; alpha := f_clamp a (f64_lit 1 100) f64_one;
  variance_ema := f64_zero; alpha_var := f_clamp av (f64_lit 1 100) f64_one;
  threshold_multiplier := mult; samples := 0 |}.

Definition ema_threshold (e : EmaTracker) : float :=
  f64_add (ema_value e) (f64_mul (threshold_multiplier e) (f64_sqrt (variance_ema e))).

Definition ema_update (e : EmaTracker) (current : float) : EmaTracker * bool :=
  let n := wrapping_add 64 (samples e) 1 in
  if n =? 1 then
    ({| ema_value := current; alpha := alpha e; variance_ema := f64_zero; alpha_var := alpha_var e;
        threshold_multiplier := threshold_multiplier e; samples := n |}, false)
  else
    let anomalous := f_gtb current (ema_threshold e) in
    let deviation := f64_sub current (ema_value e) in
    ({| ema_value := f64_add (f64_mul (alpha e) current)
                             (f64_mul (f64_sub f64_one (alpha e)) (ema_value e));
        alpha := alpha e;
        variance_ema := f64_add (f64_mul (alpha_var e) (f64_mul deviation deviation))
                                (f64_mul (f64_sub f64_one (alpha_var e)) (variance_ema e));
        alpha_var := alpha_var e; threshold_multiplier := threshold_multiplier e; samples := n |},
     anomalous).

(** ** The limiter *)

Record IpTracker := {
  it_ip : string;
  token_bucket : TokenBucket;
  sliding_window : SlidingWindow;
  it_ema : EmaTracker;
  first_seen : Z;
  last_seen : Z;
  it_total_packets : Z;
  it_total_bytes : Z;
}.

Record BlockInfo := {
  bi_ip : string;
  bi_reason : string;
  bi_blocked_at : Z;
  bi_packets_at_block : Z;
}.

Record RateLimiterConfig := {
  bucket_max_tokens : float;
  bucket_refill_rate : float;
  rl_window_secs : Z;
  rl_sub_window_count : Z;
  window_max_rate : Z;
  ema_alpha : float;
  ema_alpha_var : float;
  ema_threshold_multiplier : float;
  ema_min_samples : Z;
}.

Definition RateLimiterConfig_default : RateLimiterConfig := {|
  bucket_max_tokens := f64_of_Z 50; bucket_refill_rate := f64_of_Z 10; rl_window_secs := 10;
  rl_sub_window_count := 10; window_max_rate := 100; ema_alpha := f64_lit 3 10;
  ema_alpha_var := f64_lit 1 10; ema_threshold_multiplier := f64_of_Z 3; ema_min_samples := 5 |}.

Record RateLimiterMetrics := {
  mt_tracked_ips : Z;
  mt_blocked_ips : Z;
  mt_total_packets : Z;
  mt_total_bytes : Z;
  mt_total_allowed : Z;
  mt_total_dropped : Z;
  mt_total_challenged : Z;
}.

Record BlockedIp := {
  bl_ip : string;
  bl_reason : string;
  bl_blocked_at : Z;
  bl_total_packets : Z;
  bl_total_bytes : Z;
}.

Record IpRateLimiter := {
  trackers : gmap string IpTracker;
  rl_config : RateLimiterConfig;
  blocked : gmap string BlockInfo;
  total_allowed : Z;
  total_dropped : Z;
  total_challenged : Z;
}.

Definition IpRateLimiter_new (config : RateLimiterConfig) : IpRateLimiter := {|
  trackers := ∅; rl_config := config; blocked := ∅;
  total_allowed := 0; total_dropped := 0; total_challenged := 0 |}.

Definition fresh_tracker (config : RateLimiterConfig) (ip : string) (ts : Z) : IpTracker := {|
  it_ip := ip;
  token_bucket := TokenBucket_new (bucket_max_tokens config) (bucket_refill_rate config) ts;
  sliding_window := SlidingWindow_new (rl_window_secs config) (rl_sub_window_count config)
                                      (window_max_rate config);
  it_ema := EmaTracker_new (ema_alpha config) (ema_alpha_var config) (ema_threshold_multiplier config);
  first_seen := ts; last_seen := ts; it_total_packets := 0; it_total_bytes := 0 |}.

Definition rate_since_first (packets first ts : Z) : float :=
  if 1 <? packets then
    f64_div (f64_of_Z packets)
            (f64_div (f64_of_Z (Z.max (num_milliseconds (ts - first)) 1)) (f64_of_Z 1000))
  else f64_one.

Definition decide_packet (bucket_ok window_ok ema_anomaly : bool) : RateLimitDecision :=
  if negb bucket_ok && negb window_ok then Drop
  else if negb bucket_ok || negb window_ok || ema_anomaly then Challenge
  else Allow.

(** One packet through the three algorithms of its tracker: the tracker after
    it and the three signals. *)
Definition track_packet (config : RateLimiterConfig) (tr : IpTracker) (bytes ts : Z)
  : option (IpTracker * (bool * bool * bool)) :=
  let packets := wrapping_add 64 (it_total_packets tr) 1 in
  let '(bucket, bucket_ok) := consume (token_bucket tr) ts in
  '(window, window_ok) ← record (sliding_window tr) ts;
  let rate := rate_since_first packets (first_seen tr) ts in
  let '(ema', anomaly) := ema_update (it_ema tr) rate in
  let ema_anomaly := if ema_min_samples config <=? samples (it_ema tr) then anomaly else false in
  Some ({| it_ip := it_ip tr; token_bucket := bucket; sliding_window := window; it_ema := ema';
           first_seen := first_seen tr; last_seen := ts; it_total_packets := packets;
           it_total_bytes := wrapping_add 64 (it_total_bytes tr) bytes |},
        (bucket_ok, window_ok, ema_anomaly)).

Definition block_reason (b w e : bool) : string :=
  "bucket=" +:+ show_bool b +:+ " window=" +:+ show_bool w +:+ " ema_anomaly=" +:+ show_bool e.

Definition process_packet (l : IpRateLimiter) (ip : string) (bytes ts : Z)
  : option (IpRateLimiter * RateLimitDecision) :=
  match blocked l !! ip with
  | Some _ =>
      Some ({| trackers := trackers l; rl_config := rl_config l; blocked := blocked l;
               total_allowed := total_allowed l; total_dropped := wrapping_add 64 (total_dropped l) 1;
               total_challenged := total_challenged l |}, Drop)
  | None =>
      let tr := default (fresh_tracker (rl_config l) ip ts) (trackers l !! ip) in
      '(tr, (bucket_ok, window_ok, ema_anomaly)) ← track_packet (rl_config l) tr bytes ts;
      let d := decide_packet bucket_ok window_ok ema_anomaly in
      Some ({| trackers := <[ip := tr]> (trackers l);
               rl_config := rl_config l;
               blocked :=
                 match d with
                 | Drop => <[ip := {| bi_ip := ip; bi_reason := block_reason bucket_ok window_ok ema_anomaly;
                                      bi_blocked_at := ts; bi_packets_at_block := it_total_packets tr |}]>
                           (blocked l)
                 | _ => blocked l
                 end;
               total_allowed := match d with Allow => wrapping_add 64 (total_allowed l) 1 | _ => total_allowed l end;
               total_dropped := match d with Drop => wrapping_add 64 (total_dropped l) 1 | _ => total_dropped l end;
               total_challenged :=
                 match d with Challenge => wrapping_add 64 (total_challenged l) 1 | _ => total_challenged l end |},
            d)
  end.

(** The order of [HashMap::values] is unspecified. *)
Definition get_blocked_ips (l : IpRateLimiter) : list BlockedIp :=
  (fun kv : string * BlockInfo =>
     let b := kv.2 in
     let tr := trackers l !! bi_ip b in
     {| bl_ip := bi_ip b; bl_reason := bi_reason b; bl_blocked_at := bi_blocked_at b;
        bl_total_packets := default 0 (it_total_packets <$> tr);
        bl_total_bytes := default 0 (it_total_bytes <$> tr) |}) <$> map_to_list (blocked l).

Definition get_metrics (l : IpRateLimiter) : RateLimiterMetrics := {|
  mt_tracked_ips := Z.of_nat (size (trackers l));
  mt_blocked_ips := Z.of_nat (size (blocked l));
  mt_total_packets := wrap 64 (sumZ ((fun kv => it_total_packets kv.2) <$> map_to_list (trackers l)));
  mt_total_bytes := wrap 64 (sumZ ((fun kv => it_total_bytes kv.2) <$> map_to_list (trackers l)));
  mt_total_allowed := total_allowed l;
  mt_total_dropped := total_dropped l;
  mt_total_challenged := total_challenged l |}.

Definition with_maps (l : IpRateLimiter) (t : gmap string IpTracker) (b : gmap string BlockInfo)
  : IpRateLimiter := {|
  trackers := t; rl_config := rl_config l; blocked := b; total_allowed := total_allowed l;
  total_dropped := total_dropped l; total_challenged := total_challenged l |}.

(** [max_age] in nanoseconds; [as_millis() as i64] wraps. *)
Definition cleanup_stale (l : IpRateLimiter) (max_age now : Z) : IpRateLimiter :=
  let cutoff_millis := as_signed 64 (wrap 64 (max_age / NANOS_PER_MILLI)) in
  let stale_ips :=
    (retain (fun kv : string * IpTracker => cutoff_millis <? num_milliseconds (now - last_seen kv.2))
            (map_to_list (trackers l))).*1 in
  foldl (fun l ip => with_maps l (delete ip (trackers l)) (delete ip (blocked l))) l stale_ips.

Definition unblock (l : IpRateLimiter) (ip : string) : IpRateLimiter :=
  with_maps l (trackers l) (delete ip (blocked l)).

Definition reset_config (l : IpRateLimiter) (config : RateLimiterConfig) : IpRateLimiter := {|
  trackers := trackers l; rl_config := config; blocked := blocked l; total_allowed := total_allowed l;
  total_dropped := total_dropped l; total_challenged := total_challenged l |}.

Definition apply_escalation (l : IpRateLimiter) (factor : float) : IpRateLimiter :=
  let factor := f_clamp factor (f64_lit 1 100) f64_one in
  let c := rl_config l in
  reset_config l {|
    bucket_max_tokens := f64_mul (bucket_max_tokens c) factor;
    bucket_refill_rate := f64_mul (bucket_refill_rate c) factor;
    rl_window_secs := rl_window_secs c; rl_sub_window_count := rl_sub_window_count c;
    window_max_rate := f64_to_u64 (f_max (f64_mul (f64_of_Z (window_max_rate c)) factor) f64_one);
    ema_alpha := ema_alpha c; ema_alpha_var := ema_alpha_var c;
    ema_threshold_multiplier := ema_threshold_multiplier c; ema_min_samples := ema_min_samples c |}.

Definition tracked_count (l : IpRateLimiter) : Z := Z.of_nat (size (trackers l)).
Definition blocked_count (l : IpRateLimiter) : Z := Z.of_nat (size (blocked l)).

(** ** Sequences of operations *)

Inductive LimiterOp :=
| OpPacket (ip : string) (bytes ts : Z)
| OpCleanup (max_age now : Z)
| OpUnblock (ip : string)
| OpEscalate (factor : float)
| OpReset (config : RateLimiterConfig).

Definition limiter_step (l : IpRateLimiter) (o : LimiterOp)
  : option (IpRateLimiter * option RateLimitDecision) :=
  match o with
  | OpPacket ip bytes ts => '(l, d) ← process_packet l ip bytes ts; Some (l, Some d)
  | OpCleanup max_age now => Some (cleanup_stale l max_age now, None)
  | OpUnblock ip => Some (unblock l ip, None)
  | OpEscalate factor => Some (apply_escalation l factor, None)
  | OpReset config => Some (reset_config l config, None)
  end.

(** The decisions of the packets, in order. *)
Fixpoint limiter_run (l : IpRateLimiter) (os : list LimiterOp)
  : option (IpRateLimiter * list RateLimitDecision) :=
  match os with
  | [] => Some (l, [])
  | o :: os =>
      '(l, d) ← limiter_step l o;
      '(l, ds) ← limiter_run l os;
      Some (l, match d with Some d => d :: ds | None => ds end)
  end.

(** ** The invariant *)

Definition sub_ok (n : Z) : Prop := as_signed 32 (wrap 32 n) <> 0.

Definition total_of (d : RateLimitDecision) (l : IpRateLimiter) : Z :=
  match d with Allow => total_allowed l | Drop => total_dropped l | Challenge => total_challenged l end.

Definition count_of (d : RateLimitDecision) (ds : list RateLimitDecision) : Z :=
  Z.of_nat (length (retain (fun x => bool_decide (x = d)) ds)).

Definition op_ok (o : LimiterOp) : Prop :=
  match o with OpReset c => sub_ok (rl_sub_window_count c) | _ => True end.

Record limiter_ok (l : IpRateLimiter) : Prop := {
  lo_config : sub_ok (rl_sub_window_count (rl_config l));
  lo_tracker : forall ip tr, trackers l !! ip = Some tr ->
    it_ip tr = ip /\ sub_ok (sub_window_count (sliding_window tr));
  lo_blocked : forall ip b, blocked l !! ip = Some b ->
    bi_ip b = ip /\ is_Some (trackers l !! ip);
  lo_total : forall d, in_width 64 (total_of d l) }.

Lemma record_total w now :
  sub_ok (sub_window_count w) ->
  exists w' ok, record w now = Some (w', ok) /\ sub_window_count w' = sub_window_count w.
Proof.
  intros H. unfold record, sub_window_dur. rewrite (proj2 (Z.eqb_neq _ _) H). simpl. eauto.
Qed.

Lemma track_packet_total c tr bytes ts :
  sub_ok (sub_window_count (sliding_window tr)) ->
  exists tr' sig, track_packet c tr bytes ts = Some (tr', sig) /\ it_ip tr' = it_ip tr /\
    last_seen tr' = ts /\ sub_ok (sub_window_count (sliding_window tr')).
Proof.
  intros H. unfold track_packet. destruct (consume _ _) as [b ok].
  destruct (record_total (sliding_window tr) ts H) as (w & wok & -> & Hw). simpl.
  destruct (ema_update _ _) as [e an]. eexists _, _. split_and!; [done|done|done|]. simpl. by rewrite Hw.
Qed.

Lemma wrapping_succ_width n : in_width 64 (wrapping_add 64 n 1).
Proof. by apply wrap_range. Qed.

#[local] Hint Resolve wrapping_succ_width : iw.

Lemma wrap_id z : in_width 64 z -> wrap 64 (z + 0) = z.
Proof. intros. rewrite Z.add_0_r. by apply wrap_small. Qed.

(** A packet of an address that is not blocked. *)
Lemma process_packet_open l ip bytes ts :
  limiter_ok l -> blocked l !! ip = None ->
  exists tr' b w e,
    track_packet (rl_config l) (default (fresh_tracker (rl_config l) ip ts) (trackers l !! ip)) bytes ts
      = Some (tr', (b, w, e)) /\
    it_ip tr' = ip /\ sub_ok (sub_window_count (sliding_window tr')).
Proof.
  intros [Hc Ht _ _] Hb.
  set (tr := default _ _).
  assert (it_ip tr = ip /\ sub_ok (sub_window_count (sliding_window tr))) as [Hip Hs].
  { unfold tr. destruct (trackers l !! ip) eqn:E; simpl; [by apply Ht|done]. }
  destruct (track_packet_total (rl_config l) tr bytes ts Hs) as (tr' & [[b w] e] & -> & Hi & _ & Hs').
  exists tr', b, w, e. split_and!; [done|congruence|done].
Qed.

Lemma process_packet_ok l ip bytes ts :
  limiter_ok l ->
  exists l' d, process_packet l ip bytes ts = Some (l', d) /\ limiter_ok l' /\
    forall x, total_of x l' = wrap 64 (total_of x l + if bool_decide (d = x) then 1 else 0).
Proof.
  intros Hok. unfold process_packet. destruct (blocked l !! ip) eqn:Eb.
  - destruct Hok as [Hc Ht Hb Hw]. eexists _, _. split; [done|]. split.
    + constructor; simpl; try done. intros []; simpl; try apply (Hw Allow); try apply (Hw Challenge).
      apply wrapping_succ_width.
    + intros []; simpl; try done; symmetry; [apply (wrap_id _ (Hw Allow))|apply (wrap_id _ (Hw Challenge))].
  - destruct (process_packet_open l ip bytes ts Hok Eb) as (tr & b & w & e & -> & Hip & Hs).
    destruct Hok as [Hc Ht Hb Hw]. simpl. eexists _, _. split; [done|]. split.
    + constructor; simpl; [done| | |].
      * intros i t [[<- <-]|[??]]%lookup_insert_Some; [done|by apply Ht].
      * intros i bi H. assert (bi_ip bi = i /\ (i = ip \/ is_Some (blocked l !! i))) as [Hi Hin].
        { destruct (decide_packet b w e); try (split; [by apply (Hb i bi)|right; by eexists]).
          apply lookup_insert_Some in H as [[<- <-]|[??]]; [by auto|]. split; [by apply (Hb i bi)|right; by eexists]. }
        split; [done|]. destruct Hin as [->|[bi' Hbi]]; [rewrite lookup_insert_eq; by eexists|].
        destruct (Hb _ _ Hbi) as (_ & Hsome).
        destruct (decide (i = ip)) as [->|]; [rewrite lookup_insert_eq; by eexists|].
        by rewrite lookup_insert_ne by done.
      * intros []; simpl; destruct (decide_packet b w e); auto with iw;
          first [apply (Hw Allow)|apply (Hw Drop)|apply (Hw Challenge)].
    + intros []; simpl; destruct (decide_packet b w e); simpl; try done; symmetry;
        first [apply (wrap_id _ (Hw Allow))|apply (wrap_id _ (Hw Drop))|apply (wrap_id _ (Hw Challenge))].
Qed.

(** ** Cleanup *)

Lemma foldl_delete ips l :
  let l' := foldl (fun l ip => with_maps l (delete ip (trackers l)) (delete ip (blocked l))) l ips in
  rl_config l' = rl_config l /\ (forall d, total_of d l' = total_of d l) /\
  forall ip, trackers l' !! ip = (if bool_decide (ip ∈ ips) then None else trackers l !! ip) /\
             blocked l' !! ip = (if bool_decide (ip ∈ ips) then None else blocked l !! ip).
Proof.
  revert l. induction ips as [|i ips IH]; intros l; cbv zeta; cbn [foldl].
  - split_and!; [done..|]. intros ip. rewrite bool_decide_false by apply not_elem_of_nil. done.
  - destruct (IH (with_maps l (delete i (trackers l)) (delete i (blocked l)))) as (H1 & H2 & H3).
    split_and!; [done| |].
    + intros d. rewrite H2. by destruct d.
    + intros ip. destruct (H3 ip) as [-> ->]. cbn [with_maps trackers blocked].
      destruct (bool_decide (ip ∈ ips)) eqn:E; bool_to_prop.
      * rewrite bool_decide_true by (by right). done.
      * destruct (decide (ip = i)) as [->|].
        { rewrite bool_decide_true by left. by rewrite !lookup_delete_eq. }
        rewrite bool_decide_false by set_solver. by rewrite !lookup_delete_ne by done.
Qed.

(** The addresses [cleanup_stale] removes. *)
Definition stale (l : IpRateLimiter) (max_age now : Z) (ip : string) : Prop :=
  exists tr, trackers l !! ip = Some tr /\
    as_signed 64 (wrap 64 (max_age / NANOS_PER_MILLI)) < num_milliseconds (now - last_seen tr).

Lemma stale_elem l max_age now ip :
  ip ∈ (retain (fun kv : string * IpTracker =>
          as_signed 64 (wrap 64 (max_age / NANOS_PER_MILLI)) <? num_milliseconds (now - last_seen kv.2))
          (map_to_list (trackers l))).*1 <-> stale l max_age now ip.
Proof.
  rewrite list_elem_of_fmap. unfold stale. split.
  - intros ([i tr] & -> & H). apply retain_elem in H as [H1 H2].
    apply elem_of_map_to_list in H1. exists tr. simpl in *. by bool_to_prop.
  - intros (tr & H1 & H2). exists (ip, tr). split; [done|]. apply retain_elem.
    split; [by apply elem_of_map_to_list|]. by apply Z.ltb_lt.
Qed.

Lemma cleanup_stale_lookup l max_age now :
  let l' := cleanup_stale l max_age now in
  rl_config l' = rl_config l /\ (forall d, total_of d l' = total_of d l) /\
  forall ip, (stale l max_age now ip -> trackers l' !! ip = None /\ blocked l' !! ip = None) /\
             (~ stale l max_age now ip -> trackers l' !! ip = trackers l !! ip /\
                                          blocked l' !! ip = blocked l !! ip).
Proof.
  unfold cleanup_stale. cbv zeta.
  match goal with |- context [foldl _ l ?ips] => destruct (foldl_delete ips l) as (H1 & H2 & H3) end.
  split_and!; [done|done|]. intros ip. destruct (H3 ip) as [-> ->].
  split; intros Hs; [rewrite bool_decide_true|rewrite bool_decide_false]; try done; by rewrite stale_elem.
Qed.

Lemma cleanup_stale_limiter_ok l max_age now : limiter_ok l -> limiter_ok (cleanup_stale l max_age now).
Proof.
  intros [Hc Ht Hb Hw]. destruct (cleanup_stale_lookup l max_age now) as (H1 & H2 & H3).
  assert (Hd : forall ip, stale l max_age now ip \/ ~ stale l max_age now ip).
  { intros ip. rewrite <- stale_elem. destruct (decide (ip ∈ (retain
      (fun kv : string * IpTracker => as_signed 64 (wrap 64 (max_age / NANOS_PER_MILLI)) <?
         num_milliseconds (now - last_seen kv.2)) (map_to_list (trackers l))).*1)); auto. }
  constructor.
  - by rewrite H1.
  - intros ip tr E. destruct (H3 ip) as [Ha Hn]. destruct (Hd ip) as [Hs|Hs].
    + destruct (Ha Hs) as [E' _]. congruence.
    + destruct (Hn Hs) as [E' _]. rewrite E' in E. by apply Ht.
  - intros ip b E. destruct (H3 ip) as [Ha Hn]. destruct (Hd ip) as [Hs|Hs].
    + destruct (Ha Hs) as [_ E']. congruence.
    + destruct (Hn Hs) as [-> E']. rewrite E' in E. by apply Hb.
  - intros d. by rewrite H2.
Qed.

Lemma limiter_step_ok l o :
  limiter_ok l -> op_ok o ->
  exists l' d, limiter_step l o = Some (l', d) /\ limiter_ok l' /\
    forall x, total_of x l' = wrap 64 (total_of x l + if bool_decide (d = Some x) then 1 else 0).
Proof.
  intros Hok Ho. pose proof (lo_total _ Hok) as Hw.
  assert (Hsame : forall l', (forall x, total_of x l' = total_of x l) ->
    forall x, total_of x l' = wrap 64 (total_of x l + if bool_decide (@None RateLimitDecision = Some x) then 1 else 0)).
  { intros l' H x. rewrite H. simpl. symmetry. apply wrap_id, Hw. }
  destruct o as [ip bytes ts|max_age now|ip|factor|config]; simpl.
  - destruct (process_packet_ok l ip bytes ts Hok) as (l' & d & -> & Hok' & Ht).
    eexists _, _. split_and!; [done|done|]. intros x. rewrite Ht. do 2 f_equal.
    destruct (decide (d = x)) as [->|]; [by rewrite !bool_decide_true|].
    rewrite !bool_decide_false; congruence.
  - eexists _, _. split_and!; [done|by apply cleanup_stale_limiter_ok|].
    apply Hsame. apply (cleanup_stale_lookup l max_age now).
  - eexists _, _. split_and!; [done| |apply Hsame; by intros []].
    destruct Hok as [Hc Ht Hb _]. constructor; simpl; [done|done| |intros d; specialize (Hw d); by destruct d].
    intros i b [? H]%lookup_delete_Some. by apply Hb.
  - eexists _, _. split_and!; [done| |apply Hsame; by intros []].
    destruct Hok. constructor; simpl; try done; intros d; specialize (Hw d); by destruct d.
  - eexists _, _. split_and!; [done| |apply Hsame; by intros []].
    destruct Hok. constructor; simpl; try done; intros d; specialize (Hw d); by destruct d.
Qed.

Lemma count_of_cons x d ds :
  count_of x (d :: ds) = (if bool_decide (d = x) then 1 else 0) + count_of x ds.
Proof. unfold count_of, retain. simpl. case_match; simpl; lia. Qed.

Lemma limiter_run_ok os : forall l,
  limiter_ok l -> Forall op_ok os ->
  exists l' ds, limiter_run l os = Some (l', ds) /\ limiter_ok l' /\
    forall x, total_of x l' = wrap 64 (total_of x l + count_of x ds).
Proof.
  induction os as [|o os IH]; intros l Hok Hos; simpl.
  - exists l, []. split_and!; [done|done|]. intros x. symmetry. apply wrap_id, Hok.
  - apply Forall_cons in Hos as [Ho Hos].
    destruct (limiter_step_ok l o Hok Ho) as (l1 & d & -> & Hok1 & H1). simpl.
    destruct (IH l1 Hok1 Hos) as (l2 & ds & -> & Hok2 & H2). simpl.
    eexists _, _. split_and!; [done|done|]. intros x. rewrite H2, H1.
    unfold wrap. rewrite Zplus_mod_idemp_l. f_equal.
    destruct d as [d|]; [|rewrite bool_decide_false by done; lia].
    rewrite count_of_cons. replace (bool_decide (Some d = Some x)) with (bool_decide (d = x)); [lia|].
    apply bool_decide_ext. naive_solver.
Qed.

(** Over any sequence of packets, cleanups, unblocks, escalations and
    configuration resets with non-zero sub-window counts, the limiter never
    panics; its blocked addresses are tracked and filed under their own name,
    and each of its three counters is the number of packets decided that way,
    modulo 2^64. *)
Theorem limiter_runs_and_counts config os :
  sub_ok (rl_sub_window_count config) -> Forall op_ok os ->
  exists l ds, limiter_run (IpRateLimiter_new config) os = Some (l, ds) /\ limiter_ok l /\
    forall x, total_of x l = wrap 64 (count_of x ds).
Proof.
  intros Hc Hos. destruct (limiter_run_ok os (IpRateLimiter_new config)) as (l & ds & E & Hok & Ht).
  - constructor; simpl; try done. by intros [].
  - done.
  - exists l, ds. split_and!; [done|done|]. intros x. rewrite Ht. by destruct x.
Qed.

(** An operation that may lift the block of an address. *)
Definition lifts (ip : string) (o : LimiterOp) : Prop :=
  match o with OpUnblock i => i = ip | OpCleanup _ _ => True | _ => False end.

Lemma limiter_step_blocked l o l' d ip b :
  ~ lifts ip o -> limiter_step l o = Some (l', d) -> blocked l !! ip = Some b ->
  blocked l' !! ip = Some b /\ trackers l' !! ip = trackers l !! ip.
Proof.
  intros Hl Hs Hb. destruct o as [i bytes ts|max_age now|i|factor|config]; simpl in *; simplify_eq/=; try done.
  - unfold process_packet in Hs. destruct (blocked l !! i) eqn:Ei; simplify_eq/=; [done|].
    destruct (track_packet _ _ _ _) as [[tr [[b1 w1] e1]]|]; simplify_eq/=.
    assert (i <> ip) by congruence.
    rewrite lookup_insert_ne by done. split; [|done].
    destruct (decide_packet b1 w1 e1); [done| |done]. by rewrite lookup_insert_ne.
  - rewrite lookup_delete_ne by congruence. done.
Qed.

(** A blocked address stays blocked, with its block record and its tracker
    frozen, and each of its packets is dropped, until it is unblocked or a
    cleanup runs; no packet of another address and no change of configuration
    lifts the block. *)
Theorem blocked_stays_dropped os : forall l l' ds ip b bytes ts,
  blocked l !! ip = Some b -> Forall (fun o => ~ lifts ip o) os ->
  limiter_run l os = Some (l', ds) ->
  blocked l' !! ip = Some b /\ trackers l' !! ip = trackers l !! ip /\
  exists l'', process_packet l' ip bytes ts = Some (l'', Drop) /\
    total_dropped l'' = wrapping_add 64 (total_dropped l') 1.
Proof.
  induction os as [|o os IH]; intros l l' ds ip b bytes ts Hb Hos Hr; simpl in Hr.
  - simplify_eq. split_and!; [done|done|]. unfold process_packet. rewrite Hb. eauto.
  - apply Forall_cons in Hos as [Ho Hos].
    apply bind_Some in Hr as ([l1 d] & Hs & Hr). apply bind_Some in Hr as ([l2 ds2] & Hr & E).
    simplify_eq. destruct (limiter_step_blocked _ _ _ _ _ _ Ho Hs Hb) as [Hb1 <-].
    by apply (IH l1 _ ds2).
Qed.

(** cleanup_stale forgets exactly the addresses whose last tracked packet
    is more than the maximum age old: their tracker and their block go, every
    other tracker and block stays, and the counters and the configuration do
    not change. *)
Theorem limiter_cleanup_exact l max_age now ip :
  let l' := cleanup_stale l max_age now in
  rl_config l' = rl_config l /\ (forall d, total_of d l' = total_of d l) /\
  (stale l max_age now ip -> trackers l' !! ip = None /\ blocked l' !! ip = None) /\
  (~ stale l max_age now ip -> trackers l' !! ip = trackers l !! ip /\ blocked l' !! ip = blocked l !! ip).
Proof.
  destruct (cleanup_stale_lookup l max_age now) as (H1 & H2 & H3).
  destruct (H3 ip). done.
Qed.

(** ** Behaviour of the default configuration *)

Definition packets_at (n : nat) (ms : Z) : list LimiterOp :=
  repeat (OpPacket "203.0.113.7" 60 (from_timestamp_millis ms)) n.

Definition decisions (os : list LimiterOp) : option (list RateLimitDecision) :=
  snd <$> limiter_run (IpRateLimiter_new RateLimiterConfig_default) os.

(** With the default configuration, a burst of 120 packets of one address
    at the start of a sub-window has its first 50 packets allowed (the bucket),
    the next 50 challenged (the window still holds) and every further one
    dropped. *)
Example default_burst :
  decisions (packets_at 120 0) = Some (repeat Allow 50 ++ repeat Challenge 50 ++ repeat Drop 20).
Proof. vm_compute. reflexivity. Qed.

(** The weight of the current sub-window lets a burst through: one
    millisecond into a sub-window its packets count for a thousandth each, so
    1000 packets at that instant stay under the window limit of 100 and none
    is dropped. *)
Theorem burst_evades_window :
  decisions (packets_at 1000 1) = Some (repeat Allow 50 ++ repeat Challenge 950).
Proof. vm_compute. reflexivity. Qed.

(** A blocked address that keeps sending is forgotten: its dropped packets
    do not refresh last_seen, so a cleanup that comes the maximum age after
    its last undropped packet lifts the block, however recent its last
    dropped packet is. *)
Theorem blocked_flood_forgotten :
  exists ds, decisions (packets_at 101 0 ++ packets_at 5 59000 ++
                        [OpCleanup (seconds 30) (seconds 60)] ++ packets_at 1 60000) = Some (ds ++ [Allow]) /\
    drop 100 ds = repeat Drop 6.
Proof.
  exists (repeat Allow 50 ++ repeat Challenge 50 ++ repeat Drop 6).
  split; [vm_compute; reflexivity|reflexivity].
Qed.

(** ** Witnesses *)

Lemma limiter_runs_and_counts_witness :
  exists l ds, limiter_run (IpRateLimiter_new RateLimiterConfig_default) (packets_at 2 0) = Some (l, ds) /\
    total_of Allow l = 2.
Proof.
  destruct (limiter_runs_and_counts RateLimiterConfig_default (packets_at 2 0)) as (l & ds & E & _ & H).
  - vm_compute. congruence.
  - repeat constructor.
  - exists l, ds. split; [done|]. rewrite H.
    assert (E' : decisions (packets_at 2 0) = Some ds) by (unfold decisions; by rewrite E).
    vm_compute in E'. by injection E' as <-.
Defined.

Definition blocked_demo : IpRateLimiter :=
  {| trackers := ∅; rl_config := RateLimiterConfig_default;
     blocked := {["203.0.113.7" := {| bi_ip := "203.0.113.7"; bi_reason := block_reason false false false;
                                      bi_blocked_at := 0; bi_packets_at_block := 101 |}]};
     total_allowed := 0; total_dropped := 0; total_challenged := 0 |}.

Lemma blocked_stays_dropped_witness :
  exists l' ds l'',
    limiter_run blocked_demo [OpPacket "198.51.100.1" 60 0; OpUnblock "198.51.100.1"] = Some (l', ds) /\
    process_packet l' "203.0.113.7" 60 0 = Some (l'', Drop).
Proof.
  destruct (limiter_run blocked_demo [OpPacket "198.51.100.1" 60 0; OpUnblock "198.51.100.1"])
    as [[l' ds]|] eqn:E; [|discriminate E].
  destruct (blocked_stays_dropped
              [OpPacket "198.51.100.1" 60 0; OpUnblock "198.51.100.1"] blocked_demo l' ds "203.0.113.7"
              {| bi_ip := "203.0.113.7"; bi_reason := block_reason false false false;
                 bi_blocked_at := 0; bi_packets_at_block := 101 |} 60 0)
    as (_ & _ & l'' & H & _).
  - reflexivity.
  - repeat constructor; simpl; intros H; discriminate H || done.
  - exact E.
  - exists l', ds, l''. split; [reflexivity|exact H].
Defined.

Lemma limiter_cleanup_exact_witness :
  blocked (cleanup_stale blocked_demo 0 0) !! "203.0.113.7" = blocked blocked_demo !! "203.0.113.7".
Proof.
  apply (limiter_cleanup_exact blocked_demo 0 0 "203.0.113.7").
  intros (tr & H & _). discriminate H.
Defined.
