(* ===== verification/ShieldClassifier.v ===== *)
(** * ShieldClassifier: multi-vector attack classification
    (crates/shield/src/attack_classifier.rs)

    Heuristic rules over the signals of the other engines; the attacks in
    progress are kept, merged by type, and closed once they were not seen for
    a minute. *)

From Stdlib Require Import ZArith Lia String SpecFloat.
From stdpp Require Import prelude strings gmap list.
From S2P Require Import Prelude Text Floats.

Local Open Scope string_scope.
Local Open Scope list_scope.
Local Open Scope Z_scope.

Inductive AttackType :=
| SynFlood
| UdpFlood
| DnsAmplification
| HttpFlood
| Slowloris
| NtpAmplification
| MultiVector (types : list AttackType)
| UnknownAttack.

(** The derived [PartialEq]. *)
Fixpoint attack_eqb (a b : AttackType) : bool :=
  match a, b with
  | SynFlood, SynFlood | UdpFlood, UdpFlood | DnsAmplification, DnsAmplification
  | HttpFlood, HttpFlood | Slowloris, Slowloris | NtpAmplification, NtpAmplification
  | UnknownAttack, UnknownAttack => true
  | MultiVector l, MultiVector k =>
      (fix eq_all (l k : list AttackType) : bool :=
         match l, k with
         | [], [] => true
         | x :: l, y :: k => attack_eqb x y && eq_all l k
         | _, _ => false
         end) l k
  | _, _ => false
  end.

Fixpoint attack_display (a : AttackType) : string :=
  match a with
  | SynFlood => "SYN Flood"
  | UdpFlood => "UDP Flood"
  | DnsAmplification => "DNS Amplification"
  | HttpFlood => "HTTP Flood"
  | Slowloris => "Slowloris"
  | NtpAmplification => "NTP Amplification"
  | MultiVector types => "Multi-Vector(" +:+ join ", " (List.map attack_display types) +:+ ")"
  | UnknownAttack => "Unknown"
  end.

Record AttackIncident := {
  ai_id : string;
  ai_attack_type : AttackType;
  ai_started : Z;
  ai_last_seen : Z;
  ai_source_ips : gset string;
  ai_packets_dropped : Z;
  ai_peak_pps : Z;
  ai_confidence : float;
}.

Definition duration_secs (a : AttackIncident) : Z := num_seconds (ai_last_seen a - ai_started a).
Definition incident_is_active (a : AttackIncident) (now : Z) : bool :=
  num_seconds (now - ai_last_seen a) <? 60.

Record ClassifierSignals := {
  cl_syn_flood_active : bool;
  cl_syn_flood_ips : list string;
  cl_udp_high_rate : bool;
  cl_udp_source_count : Z;
  cl_dns_response_count : Z;
  cl_dns_source_count : Z;
  cl_http_request_count : Z;
  cl_http_source_count : Z;
  cl_long_held_connections : Z;
  cl_long_held_source_count : Z;
  cl_ntp_response_count : Z;
  cl_ntp_source_count : Z;
  cl_total_dropped : Z;
  cl_peak_pps : Z;
  cl_timestamp : Z;
}.

Record AttackClassifier := {
  active_attacks : list AttackIncident;
  closed_attacks : list AttackIncident;
  ac_incident_counter : Z;
}.

Definition AttackClassifier_new : AttackClassifier :=
  {| active_attacks := []; closed_attacks := []; ac_incident_counter := 0 |}.

(** [(0..n).map(|i| format!("<p>{}", i))]. *)
Definition numbered (p : string) (n : Z) : list string := (fun i => p +:+ show i) <$> seqZ 0 n.

(** The rules, in order: type, sources, confidence. *)
Definition detect_attacks (s : ClassifierSignals) : list (AttackType * list string * float) :=
  (if cl_syn_flood_active s && negb (bool_decide (cl_syn_flood_ips s = []))
   then [(SynFlood, cl_syn_flood_ips s, f64_lit 9 10)] else []) ++
  (if cl_udp_high_rate s && (5 <? cl_udp_source_count s)
   then [(UdpFlood, numbered "udp_src_" (cl_udp_source_count s), f64_lit 8 10)] else []) ++
  (if (100 <? cl_dns_response_count s) && (5 <? cl_dns_source_count s)
   then [(DnsAmplification, numbered "dns_src_" (cl_dns_source_count s), f64_lit 85 100)] else []) ++
  (if (500 <? cl_http_request_count s) && (10 <? cl_http_source_count s)
   then [(HttpFlood, numbered "http_src_" (cl_http_source_count s), f64_lit 75 100)] else []) ++
  (if (50 <? cl_long_held_connections s) && (cl_long_held_source_count s <=? 5)
   then [(Slowloris, numbered "slow_src_" (cl_long_held_source_count s), f64_lit 7 10)] else []) ++
  (if (100 <? cl_ntp_response_count s) && (3 <? cl_ntp_source_count s)
   then [(NtpAmplification, numbered "ntp_src_" (cl_ntp_source_count s), f64_lit 8 10)] else []).

Definition same_type (a b : AttackType) : bool :=
  match a, b with
  | MultiVector _, MultiVector _ => true
  | _, _ => attack_eqb a b
  end.

Definition merge_attack (a : AttackIncident) (ips : gset string) (total_dropped peak_pps : Z)
    (confidence : float) (now : Z) : AttackIncident := {|
  ai_id := ai_id a; ai_attack_type := ai_attack_type a; ai_started := ai_started a; ai_last_seen := now;
  ai_source_ips := ai_source_ips a ∪ ips; ai_packets_dropped := total_dropped;
  ai_peak_pps := if ai_peak_pps a <? peak_pps then peak_pps else ai_peak_pps a;
  ai_confidence := if f_gtb confidence (ai_confidence a) then confidence else ai_confidence a |}.

(** Update the first attack of the same type, if there is one. *)
Fixpoint update_first (ty : AttackType) (f : AttackIncident -> AttackIncident) (l : list AttackIncident)
  : option (list AttackIncident) :=
  match l with
  | [] => None
  | a :: r => if same_type (ai_attack_type a) ty then Some (f a :: r)
              else cons a <$> update_first ty f r
  end.

Definition atk_id (n : Z) : string := "atk-" +:+ show n.

Definition upsert_attack (c : AttackClassifier) (ty : AttackType) (ips : gset string)
    (total_dropped peak_pps : Z) (confidence : float) (now : Z) : AttackClassifier :=
  match update_first ty (fun a => merge_attack a ips total_dropped peak_pps confidence now) (active_attacks c) with
  | Some l => {| active_attacks := l; closed_attacks := closed_attacks c;
                 ac_incident_counter := ac_incident_counter c |}
  | None =>
      let n := wrapping_add 64 (ac_incident_counter c) 1 in
      {| active_attacks := active_attacks c ++
           [{| ai_id := atk_id n; ai_attack_type := ty; ai_started := now; ai_last_seen := now;
               ai_source_ips := ips; ai_packets_dropped := total_dropped; ai_peak_pps := peak_pps;
               ai_confidence := confidence |}];
         closed_attacks := closed_attacks c; ac_incident_counter := n |}
  end.

(** The index loop: an attack that is not active moves to the closed ones. *)
Fixpoint close_scan (now : Z) (active closed : list AttackIncident)
  : list AttackIncident * list AttackIncident :=
  match active with
  | [] => ([], closed)
  | a :: r =>
      if negb (incident_is_active a now) then close_scan now r (closed ++ [a])
      else let '(k, c) := close_scan now r closed in (a :: k, c)
  end.

Definition close_stale (c : AttackClassifier) (now : Z) : AttackClassifier :=
  let '(active, closed) := close_scan now (active_attacks c) (closed_attacks c) in
  {| active_attacks := active; closed_attacks := closed; ac_incident_counter := ac_incident_counter c |}.

Definition classify (c : AttackClassifier) (s : ClassifierSignals) : AttackClassifier :=
  let now := cl_timestamp s in
  let detected := detect_attacks s in
  let c :=
    if 2 <=? Z.of_nat (length detected) then
      upsert_attack c (MultiVector ((fun d => d.1.1) <$> detected))
        (list_to_set (detected ≫= (fun d => d.1.2)))
        (cl_total_dropped s) (cl_peak_pps s)
        (foldl (fun m d => f_max m d.2) f64_zero detected) now
    else match detected with
         | (ty, ips, conf) :: _ =>
             upsert_attack c ty (list_to_set ips) (cl_total_dropped s) (cl_peak_pps s) conf now
         | [] => c
         end in
  close_stale c now.

Definition all_attacks (c : AttackClassifier) : list AttackIncident := active_attacks c ++ closed_attacks c.

Definition is_type_active (c : AttackClassifier) (ty : AttackType) : bool :=
  any (fun a => match ai_attack_type a with
                | MultiVector types => any (fun t => attack_eqb t ty) types
                | t => attack_eqb t ty
                end) (active_attacks c).

Definition recent_incidents (c : AttackClassifier) (now hours : Z) : list AttackIncident :=
  let cutoff := now - seconds (hours * 3600) in
  retain (fun a => cutoff <? ai_started a) (all_attacks c).

(** ** The invariant *)

(** The class of types that are merged. *)
Definition family (a : AttackType) : Z :=
  match a with
  | SynFlood => 0 | UdpFlood => 1 | DnsAmplification => 2 | HttpFlood => 3 | Slowloris => 4
  | NtpAmplification => 5 | MultiVector _ => 6 | UnknownAttack => 7
  end.

Lemma same_type_family a b : same_type a b = (family a =? family b).
Proof. by destruct a, b. Qed.

(** At most one active attack per family; the identifiers of all attacks are
    atk-1, ..., atk-n, each exactly once. *)
Record classifier_ok (c : AttackClassifier) : Prop := {
  co_families : NoDup ((fun a => family (ai_attack_type a)) <$> active_attacks c);
  co_counter : 0 <= ac_incident_counter c;
  co_ids : ai_id <$> all_attacks c ≡ₚ atk_id <$> seqZ 1 (ac_incident_counter c) }.

Lemma update_first_Some ty f l l' :
  (forall a, ai_id (f a) = ai_id a /\ ai_attack_type (f a) = ai_attack_type a) ->
  update_first ty f l = Some l' ->
  ai_id <$> l' = ai_id <$> l /\
  (fun a => family (ai_attack_type a)) <$> l' = (fun a => family (ai_attack_type a)) <$> l.
Proof.
  intros Hf. revert l'. induction l as [|a l IH]; intros l'; [done|]. cbn [update_first].
  destruct (same_type _ _).
  - intros [= <-]. rewrite !fmap_cons. destruct (Hf a) as [-> ->]. done.
  - intros (k & Hk & ->)%fmap_Some. destruct (IH k Hk) as [E1 E2]. rewrite !fmap_cons, E1, E2. done.
Qed.

Lemma update_first_None ty f l :
  update_first ty f l = None -> family ty ∉ (fun a => family (ai_attack_type a)) <$> l.
Proof.
  induction l as [|a l IH]; intros H; [apply not_elem_of_nil|]. cbn [update_first] in H.
  rewrite same_type_family in H. destruct (_ =? _) eqn:E; [done|]. bool_to_prop.
  apply fmap_None in H. rewrite fmap_cons, not_elem_of_cons. auto.
Qed.

Lemma close_scan_spec now : forall active closed k c,
  close_scan now active closed = (k, c) ->
  k = retain (fun a => incident_is_active a now) active /\
  c = closed ++ retain (fun a => negb (incident_is_active a now)) active.
Proof.
  induction active as [|a l IH]; intros closed k c; cbn [close_scan].
  - intros [= <- <-]. by rewrite app_nil_r.
  - unfold retain in *. simpl. destruct (incident_is_active a now); simpl.
    + destruct (close_scan now l closed) as [k' c'] eqn:E. intros [= <- <-].
      by destruct (IH _ _ _ E) as [-> ->].
    + intros E. destruct (IH _ _ _ E) as [-> ->]. by rewrite <- app_assoc.
Qed.

Lemma retain_partition {A} (p : A -> bool) l : retain p l ++ retain (fun x => negb (p x)) l ≡ₚ l.
Proof.
  unfold retain. induction l as [|x l IH]; simpl; [done|]. destruct (p x); simpl; [by rewrite IH|].
  by rewrite <- Permutation_middle, IH.
Qed.

Lemma close_stale_ok c now :
  classifier_ok c ->
  classifier_ok (close_stale c now) /\
  Forall (fun a => incident_is_active a now = true) (active_attacks (close_stale c now)).
Proof.
  intros [Hf Hc Hi]. unfold close_stale.
  destruct (close_scan now (active_attacks c) (closed_attacks c)) as [k cl] eqn:E.
  apply close_scan_spec in E as [-> ->]. split.
  - constructor; cbn [active_attacks closed_attacks ac_incident_counter]; [|done|].
    + eapply sublist_NoDup; [exact Hf|]. apply fmap_sublist, retain_sublist.
    + rewrite <- Hi. unfold all_attacks. cbn [active_attacks closed_attacks].
      rewrite (Permutation_app_comm (closed_attacks c)), app_assoc, retain_partition. done.
  - apply Forall_forall. intros a Ha. by apply retain_elem in Ha as [_ ?].
Qed.

Lemma upsert_attack_ok c ty ips td pp conf now :
  classifier_ok c -> ac_incident_counter c + 1 < 2 ^ 64 ->
  classifier_ok (upsert_attack c ty ips td pp conf now).
Proof.
  intros [Hf Hc Hi] Hw. unfold upsert_attack. destruct (update_first _ _ _) as [l|] eqn:E.
  - apply update_first_Some in E as [E1 E2]; [|done].
    constructor; cbn [active_attacks ac_incident_counter]; [by rewrite E2|done|].
    rewrite <- Hi. unfold all_attacks. cbn [active_attacks closed_attacks]. by rewrite !fmap_app, E1.
  - apply update_first_None in E. rewrite wrapping_add_small by (unfold in_width; lia).
    constructor; cbn [active_attacks ac_incident_counter]; [|lia|].
    + rewrite fmap_app. apply NoDup_app. split_and!; [done| |by apply NoDup_singleton].
      intros x Hx ->%list_elem_of_singleton. done.
    + unfold all_attacks in *. cbn [active_attacks closed_attacks].
      rewrite !fmap_app in *. cbn [fmap list_fmap ai_id].
      rewrite seqZ_app by lia. rewrite fmap_app. rewrite <- Hi.
      replace (1 + ac_incident_counter c) with (ac_incident_counter c + 1) by lia.
      rewrite <- !app_assoc. apply Permutation_app_head.
      rewrite Permutation_app_comm. done.
Qed.

Definition classify_all (ss : list ClassifierSignals) : AttackClassifier :=
  foldl classify AttackClassifier_new ss.

Lemma classify_step c s :
  classifier_ok c -> ac_incident_counter c + 1 < 2 ^ 64 ->
  classifier_ok (classify c s) /\
  Forall (fun a => incident_is_active a (cl_timestamp s) = true) (active_attacks (classify c s)).
Proof.
  intros Hc Hw. unfold classify. apply close_stale_ok.
  destruct (2 <=? _); [by apply upsert_attack_ok|].
  destruct (detect_attacks s) as [|[[ty ips] conf] ?]; [done|]. by apply upsert_attack_ok.
Qed.

Lemma classify_counter c s :
  0 <= ac_incident_counter c -> ac_incident_counter (classify c s) <= ac_incident_counter c + 1.
Proof.
  intros H. assert (Hw : wrapping_add 64 (ac_incident_counter c) 1 <= ac_incident_counter c + 1)
    by (apply Z.mod_le; lia).
  assert (Hu : forall ty ips td pp conf now,
    ac_incident_counter (upsert_attack c ty ips td pp conf now) <= ac_incident_counter c + 1).
  { intros. unfold upsert_attack. destruct (update_first _ _ _); simpl; lia. }
  unfold classify, close_stale. destruct (close_scan _ _ _); cbn [ac_incident_counter].
  destruct (2 <=? _); [apply Hu|]. destruct (detect_attacks s) as [|[[ty ips] conf] ?]; [lia|apply Hu].
Qed.

Lemma classify_all_ok ss :
  Z.of_nat (length ss) < 2 ^ 64 ->
  classifier_ok (classify_all ss) /\ ac_incident_counter (classify_all ss) <= Z.of_nat (length ss).
Proof.
  induction ss as [|s ss IH] using rev_ind; intros Hlen.
  - split; [constructor; [constructor|done|done]|done].
  - rewrite length_app in Hlen |- *. simpl in *. destruct IH as [IH1 IH2]; [lia|].
    unfold classify_all. rewrite foldl_app. cbn [foldl]. fold (classify_all ss).
    split; [apply classify_step; [done|lia]|].
    etrans; [apply classify_counter, IH1|lia].
Qed.

(** After any sequence of signals, at most one attack per family is active
    (all multi-vector attacks are one family), every active attack was seen
    less than a minute before the last signals, and the attacks ever reported
    carry the identifiers atk-1 to atk-n, each exactly once, open or closed. *)
Theorem classifier_consistent ss s :
  Z.of_nat (length ss) + 1 < 2 ^ 64 ->
  classifier_ok (classify_all (ss ++ [s])) /\
  Forall (fun a => num_seconds (cl_timestamp s - ai_last_seen a) < 60) (active_attacks (classify_all (ss ++ [s]))).
Proof.
  intros Hlen. destruct (classify_all_ok ss) as [Hok Hc]; [lia|].
  unfold classify_all. rewrite foldl_app. cbn [foldl]. fold (classify_all ss).
  destruct (classify_step (classify_all ss) s Hok) as [H1 H2]; [lia|]. split; [done|].
  eapply Forall_impl; [exact H2|]. intros a Ha. by apply Z.ltb_lt in Ha.
Qed.

Definition calm_signals (t : Z) : ClassifierSignals := {|
  cl_syn_flood_active := false; cl_syn_flood_ips := []; cl_udp_high_rate := false; cl_udp_source_count := 0;
  cl_dns_response_count := 0; cl_dns_source_count := 0; cl_http_request_count := 0; cl_http_source_count := 0;
  cl_long_held_connections := 0; cl_long_held_source_count := 0; cl_ntp_response_count := 0;
  cl_ntp_source_count := 0; cl_total_dropped := 0; cl_peak_pps := 0; cl_timestamp := t |}.
Definition slow_signals (t : Z) : ClassifierSignals := {|
  cl_syn_flood_active := false; cl_syn_flood_ips := []; cl_udp_high_rate := false; cl_udp_source_count := 0;
  cl_dns_response_count := 0; cl_dns_source_count := 0; cl_http_request_count := 0; cl_http_source_count := 0;
  cl_long_held_connections := 51; cl_long_held_source_count := 1; cl_ntp_response_count := 0;
  cl_ntp_source_count := 0; cl_total_dropped := 0; cl_peak_pps := 0; cl_timestamp := t |}.

Lemma classifier_consistent_witness :
  ai_id <$> closed_attacks (classify_all ([slow_signals 0] ++ [calm_signals (seconds 60)])) = ["atk-1"] /\
  classifier_ok (classify_all ([slow_signals 0] ++ [calm_signals (seconds 60)])).
Proof. split; [reflexivity|]. apply classifier_consistent. simpl. lia. Defined.
