(* ===== verification/ShieldFingerprint.v ===== *)
(** * ShieldFingerprint: bots by their TCP stack (crates/shield/src/tcp_fingerprint.rs)

    Of every address the window sizes, the TTLs and the times of its connections
    are kept; an address with many evenly spaced connections is a bot, and many
    addresses with the same most frequent window and TTL are a botnet.  Which of
    several most frequent values is taken depends on the order of a [HashMap],
    which is an argument.

    Proved here: the history of an address is the end of what was recorded of it,
    at most five hundred and at least half of that; the classification is exact;
    cleanup forgets exactly what is stale. *)

From Stdlib Require Import ZArith Lia Ascii String SpecFloat.
From stdpp Require Import prelude strings pretty gmap list.
From S2P Require Import Prelude Text Floats.

Local Open Scope string_scope.
Local Open Scope list_scope.
Local Open Scope Z_scope.

Inductive ConnectionPattern := Human | Bot | Botnet | Unknown.

#[export] Instance pattern_eq_dec : EqDecision ConnectionPattern.
Proof. solve_decision. Defined.

Record TcpFingerprint := {
  fp_ip : string;
  fp_window_sizes : list Z;
  fp_ttl_values : list Z;
  fp_connection_times : list Z;
  fp_pattern : ConnectionPattern;
  fp_first_seen : Z;
  fp_last_seen : Z;
  fp_connection_count : Z;
}.

Definition TcpFingerprint_new (ip : string) (now : Z) : TcpFingerprint :=
  {| fp_ip := ip; fp_window_sizes := []; fp_ttl_values := []; fp_connection_times := []; fp_pattern := Unknown; fp_first_seen := now; fp_last_seen := now;
     fp_connection_count := 0 |}.

(** How often each value occurs. *)
Definition frequencies (l : list Z) : gmap Z Z := foldl (fun m w => <[w := default 0 (m !! w) + 1]> m) ∅ l.

(** The order in which the counts are walked.  Every [HashMap] has a seed of its
    own, so the order may differ from one address to another and, of one address,
    between the window sizes ([false]) and the TTLs ([true]). *)
Class FreqOrder := {
  freq_iter : string -> bool -> gmap Z Z -> list (Z * Z);
  freq_iter_perm ip ttl m : freq_iter ip ttl m ≡ₚ map_to_list m;
}.

(** [max_by_key]: the last of the greatest. *)
Fixpoint max_by_count (best : Z * Z) (l : list (Z * Z)) : Z * Z :=
  match l with [] => best | x :: l => max_by_count (if best.2 <=? x.2 then x else best) l end.

Definition dominant `{FreqOrder} (ip : string) (ttl : bool) (l : list Z) : option Z :=
  match l with
  | [] => None
  | _ => match freq_iter ip ttl (frequencies l) with [] => None | x :: r => Some (max_by_count x r).1 end
  end.

Definition dominant_window_size `{FreqOrder} (fp : TcpFingerprint) : option Z := dominant (fp_ip fp) false (fp_window_sizes fp).
Definition dominant_ttl `{FreqOrder} (fp : TcpFingerprint) : option Z := dominant (fp_ip fp) true (fp_ttl_values fp).

(** [f64::MAX]. *)
Definition f64_max : spec_float := S754_finite false 9007199254740991 971.

Fixpoint intervals (times : list Z) : list spec_float :=
  match times with
  | a :: ((b :: _) as rest) => f64_of_Z (num_milliseconds (b - a)) :: intervals rest
  | _ => []
  end.

Definition f64_sum (l : list spec_float) : spec_float := foldl f64_add f64_zero l.

Definition timing_variance_ms (fp : TcpFingerprint) : spec_float :=
  match intervals (fp_connection_times fp) with
  | [] => f64_max
  | l =>
      let n := f64_of_Z (Z.of_nat (length l)) in
      let mean := f64_div (f64_sum l) n in
      f64_div (f64_sum ((fun i => f64_mul (f64_sub i mean) (f64_sub i mean)) <$> l)) n
  end.

Record BotSignature := { bs_name : string; bs_window_size : option Z; bs_ttl : option Z; bs_description : string }.

Record TcpFingerprinter := {
  fingerprints : gmap string TcpFingerprint;
  bot_signatures : list BotSignature;
  bot_conn_threshold : Z;
  bot_timing_variance_max : spec_float;
  botnet_ip_threshold : Z;
}.

Definition TcpFingerprinter_new : TcpFingerprinter :=
  {| fingerprints := ∅; bot_signatures := []; bot_conn_threshold := 100; bot_timing_variance_max := f64_of_Z 10000; botnet_ip_threshold := 10 |}.

Definition with_fingerprints (t : TcpFingerprinter) (m : gmap string TcpFingerprint) : TcpFingerprinter :=
  {| fingerprints := m; bot_signatures := bot_signatures t; bot_conn_threshold := bot_conn_threshold t;
     bot_timing_variance_max := bot_timing_variance_max t; botnet_ip_threshold := botnet_ip_threshold t |}.

Definition with_bot_conn_threshold (t : TcpFingerprinter) (n : Z) : TcpFingerprinter :=
  {| fingerprints := fingerprints t; bot_signatures := bot_signatures t; bot_conn_threshold := n;
     bot_timing_variance_max := bot_timing_variance_max t; botnet_ip_threshold := botnet_ip_threshold t |}.
Definition with_bot_timing_variance_max (t : TcpFingerprinter) (v : spec_float) : TcpFingerprinter :=
  {| fingerprints := fingerprints t; bot_signatures := bot_signatures t; bot_conn_threshold := bot_conn_threshold t;
     bot_timing_variance_max := v; botnet_ip_threshold := botnet_ip_threshold t |}.
Definition with_botnet_ip_threshold (t : TcpFingerprinter) (n : Z) : TcpFingerprinter :=
  {| fingerprints := fingerprints t; bot_signatures := bot_signatures t; bot_conn_threshold := bot_conn_threshold t;
     bot_timing_variance_max := bot_timing_variance_max t; botnet_ip_threshold := n |}.
Definition add_bot_signature (t : TcpFingerprinter) (sig : BotSignature) : TcpFingerprinter :=
  {| fingerprints := fingerprints t; bot_signatures := bot_signatures t ++ [sig]; bot_conn_threshold := bot_conn_threshold t;
     bot_timing_variance_max := bot_timing_variance_max t; botnet_ip_threshold := botnet_ip_threshold t |}.

(** [if v.len() > 500 { v.drain(0..250) }] after a push. *)
Definition push_capped (l : list Z) (x : Z) : list Z :=
  let l := l ++ [x] in if Nat.ltb 500 (length l) then drop 250 l else l.

Definition record_connection (t : TcpFingerprinter) (ip : string) (window_size ttl ts : Z) : TcpFingerprinter :=
  let fp := default (TcpFingerprint_new ip ts) (fingerprints t !! ip) in
  with_fingerprints t (<[ip := {| fp_ip := fp_ip fp; fp_window_sizes := push_capped (fp_window_sizes fp) window_size; fp_ttl_values := push_capped (fp_ttl_values fp) ttl;
    fp_connection_times := push_capped (fp_connection_times fp) ts; fp_pattern := fp_pattern fp; fp_first_seen := fp_first_seen fp;
    fp_last_seen := ts; fp_connection_count := wrapping_add 64 (fp_connection_count fp) 1 |}]> (fingerprints t)).

Definition set_pattern (p : ConnectionPattern) (fp : TcpFingerprint) : TcpFingerprint :=
  {| fp_ip := fp_ip fp; fp_window_sizes := fp_window_sizes fp; fp_ttl_values := fp_ttl_values fp; fp_connection_times := fp_connection_times fp; fp_pattern := p;
     fp_first_seen := fp_first_seen fp; fp_last_seen := fp_last_seen fp; fp_connection_count := fp_connection_count fp |}.

(** Evenly spaced and many. *)
Definition is_bot (t : TcpFingerprinter) (fp : TcpFingerprint) : bool :=
  (bot_conn_threshold t <=? fp_connection_count fp) && f_ltb (timing_variance_ms fp) (bot_timing_variance_max t).

Section classify.
Context `{FreqOrder}.

(** What an address looks like. *)
Definition stack_of (fp : TcpFingerprint) : option (Z * Z) := w ← dominant_window_size fp; t ← dominant_ttl fp; Some (w, t).

Definition add_to_group (gs : gmap (Z * Z) (list string)) (fp : TcpFingerprint) : gmap (Z * Z) (list string) :=
  match stack_of fp with Some k => <[k := default [] (gs !! k) ++ [fp_ip fp]]> gs | None => gs end.

Definition stack_groups (t : TcpFingerprinter) : gmap (Z * Z) (list string) :=
  foldl add_to_group ∅ (map_to_list (fingerprints t)).*2.

Definition mark_botnet (m : gmap string TcpFingerprint) (ips : list string) : gmap string TcpFingerprint :=
  foldl (fun m ip => alter (set_pattern Botnet) ip m) m ips.

Definition classify_all (t : TcpFingerprinter) : TcpFingerprinter :=
  let t := with_fingerprints t ((fun fp => set_pattern (if is_bot t fp then Bot else Human) fp) <$> fingerprints t) in
  foldl (fun t ips => if botnet_ip_threshold t <=? Z.of_nat (length ips) then with_fingerprints t (mark_botnet (fingerprints t) ips) else t)
    t (map_to_list (stack_groups t)).*2.
End classify.

Definition get_pattern (t : TcpFingerprinter) (ip : string) : ConnectionPattern :=
  match fingerprints t !! ip with Some fp => fp_pattern fp | None => Unknown end.

Definition get_bots (t : TcpFingerprinter) : list TcpFingerprint :=
  retain (fun fp => bool_decide (fp_pattern fp = Bot) || bool_decide (fp_pattern fp = Botnet)) (map_to_list (fingerprints t)).*2.

Definition matches_signature (t : TcpFingerprinter) (window_size ttl : Z) : option BotSignature :=
  List.find (fun sig => match bs_window_size sig with Some w => w =? window_size | None => true end
                     && match bs_ttl sig with Some x => x =? ttl | None => true end) (bot_signatures t).

Definition tracked_count (t : TcpFingerprinter) : Z := Z.of_nat (size (fingerprints t)).

(** [max_age] is a [Duration] in nanoseconds; its milliseconds are cast from
    [u128] to [i64]. *)
Definition cleanup_stale (t : TcpFingerprinter) (max_age now : Z) : TcpFingerprinter :=
  let cutoff_ms := as_signed 64 (wrap 64 (max_age `div` NANOS_PER_MILLI)) in
  with_fingerprints t (filter (fun kv => num_milliseconds (now - fp_last_seen kv.2) < cutoff_ms) (fingerprints t)).

(** ** The most frequent value *)

Definition times_seen (v : Z) (l : list Z) : Z := Z.of_nat (count_occ Z.eq_dec l v).

Lemma times_seen_app v l k : times_seen v (l ++ k) = times_seen v l + times_seen v k.
Proof. unfold times_seen. rewrite count_occ_app, Nat2Z.inj_add. done. Qed.

Lemma times_seen_pos v l : v ∈ l <-> 0 < times_seen v l.
Proof. unfold times_seen. rewrite list_elem_of_In, (count_occ_In Z.eq_dec l v). lia. Qed.

(** The table of counts is exact. *)
Lemma frequencies_spec l v : frequencies l !! v = if 0 <? times_seen v l then Some (times_seen v l) else None.
Proof.
  induction l as [|x l IH] using rev_ind; [done|].
  unfold frequencies in *. rewrite foldl_app, times_seen_app. simpl.
  assert (times_seen v [x] = if Z.eq_dec x v then 1 else 0) as -> by (unfold times_seen; simpl; by destruct (Z.eq_dec x v)).
  destruct (Z.eq_dec x v) as [->|N].
  - rewrite lookup_insert_eq, IH. destruct (Z.ltb_spec 0 (times_seen v l)); simpl.
    + rewrite (proj2 (Z.ltb_lt _ _)) by lia. done.
    + assert (times_seen v l = 0) as -> by (unfold times_seen in *; lia). done.
  - rewrite lookup_insert_ne by done. rewrite IH, Z.add_0_r. done.
Qed.

Lemma max_by_count_in x l : max_by_count x l ∈ x :: l.
Proof.
  revert x. induction l as [|y l IH]; intros x; simpl; [set_solver|].
  specialize (IH (if x.2 <=? y.2 then y else x)). destruct (x.2 <=? y.2); set_solver.
Qed.

Lemma max_by_count_best x l : x.2 <= (max_by_count x l).2.
Proof.
  revert x. induction l as [|z l IH]; intros x; simpl; [lia|].
  etrans; [|apply IH]. destruct (Z.leb_spec x.2 z.2); lia.
Qed.

Lemma max_by_count_max x l y : y ∈ x :: l -> y.2 <= (max_by_count x l).2.
Proof.
  revert x. induction l as [|z l IH]; intros x [->|Hy]%elem_of_cons; try apply max_by_count_best; [set_solver|].
  simpl. apply elem_of_cons in Hy as [->|Hy]; [|apply IH; by apply list_elem_of_further].
  etrans; [|apply max_by_count_best]. destruct (Z.leb_spec x.2 z.2); lia.
Qed.

Section dominant_facts.
Context `{FreqOrder}.

Lemma freq_in ip ttl l v c : (v, c) ∈ freq_iter ip ttl (frequencies l) <-> v ∈ l /\ c = times_seen v l.
Proof.
  rewrite freq_iter_perm, elem_of_map_to_list, frequencies_spec, times_seen_pos.
  destruct (Z.ltb_spec 0 (times_seen v l)); naive_solver lia.
Qed.

(** A host that was seen has a dominant value; it occurred, and nothing occurred
    more often, whatever order the table is walked in. *)
Lemma dominant_most_frequent ip ttl l :
  l <> [] -> exists v, dominant ip ttl l = Some v /\ v ∈ l /\ forall u, times_seen u l <= times_seen v l.
Proof.
  intros Hl. destruct l as [|a l]; [done|]. unfold dominant.
  pose proof (freq_in ip ttl (a :: l)) as Hin. set (L := a :: l) in *.
  destruct (freq_iter ip ttl (frequencies L)) as [|x r] eqn:E.
  { exfalso. eapply (not_elem_of_nil (A := Z * Z)), Hin. split; [apply list_elem_of_here|done]. }
  pose proof (max_by_count_in x r) as Hm. destruct (max_by_count x r) as [v c] eqn:Em.
  apply Hin in Hm as [Hv ->]. exists v. split_and!; [done..|]. intros u.
  destruct (decide (u ∈ L)) as [Hu|Hu]; [|rewrite times_seen_pos in Hu; rewrite times_seen_pos in Hv; lia].
  assert (Hmax : (u, times_seen u L) ∈ x :: r) by by apply Hin.
  apply max_by_count_max in Hmax. by rewrite Em in Hmax.
Qed.

(** A value that is strictly ahead is the dominant one in every order. *)
Lemma clear_favourite ip ttl l v : (forall u, u <> v -> times_seen u l < times_seen v l) -> dominant ip ttl l = Some v.
Proof.
  intros Hv. destruct (decide (l = [])) as [->|Hl].
  { specialize (Hv (v + 1)). unfold times_seen in Hv. simpl in Hv. lia. }
  destruct (dominant_most_frequent ip ttl l Hl) as (w & -> & _ & Hw).
  destruct (decide (w = v)) as [->|N]; [done|]. specialize (Hw v). specialize (Hv w N). lia.
Qed.
End dominant_facts.

(** ** What is remembered of an address *)

Record Conn := { c_ip : string; c_window : Z; c_ttl : Z; c_ts : Z }.

Definition record_all (t : TcpFingerprinter) (l : list Conn) : TcpFingerprinter :=
  foldl (fun t c => record_connection t (c_ip c) (c_window c) (c_ttl c) (c_ts c)) t l.

Definition conns_of (ip : string) (l : list Conn) : list Conn := retain (fun c => bool_decide (c_ip c = ip)) l.

(** The fingerprint of an address is what its connections [h] leave. *)
Record remembers (h : list Conn) (fp : TcpFingerprint) (k : nat) : Prop := {
  rm_windows : fp_window_sizes fp = drop k (c_window <$> h);
  rm_ttls : fp_ttl_values fp = drop k (c_ttl <$> h);
  rm_times : fp_connection_times fp = drop k (c_ts <$> h);
  rm_count : fp_connection_count fp = wrap 64 (Z.of_nat (length h));
  rm_last : last (c_ts <$> h) = Some (fp_last_seen fp);
  rm_first : head (c_ts <$> h) = Some (fp_first_seen fp);
  rm_most : (length h - k <= 500)%nat;
  rm_least : (k = 0 \/ k + 251 <= length h)%nat;
}.

(** How many of the oldest are gone after one more connection. *)
Definition forgotten (h : list Conn) (k : nat) : nat := if Nat.ltb 500 (length h + 1 - k) then k + 250 else k.

Lemma push_capped_drop (f : Conn -> Z) h k c :
  (k <= length h)%nat -> push_capped (drop k (f <$> h)) (f c) = drop (forgotten h k) (f <$> (h ++ [c])).
Proof.
  intros Hk. unfold push_capped, forgotten. rewrite fmap_app.
  assert (E : drop k (f <$> h) ++ [f c] = drop k ((f <$> h) ++ [f c])) by (rewrite drop_app_le; [done|rewrite length_fmap; lia]).
  cbn [fmap list_fmap]. rewrite E, length_drop, length_app, length_fmap. simpl.
  destruct (Nat.ltb 500 (length h + 1 - k)); [by rewrite drop_drop|done].
Qed.

Lemma remembers_snoc h fp k c :
  remembers h fp k -> (k <= length h)%nat ->
  remembers (h ++ [c]) {| fp_ip := fp_ip fp; fp_window_sizes := push_capped (fp_window_sizes fp) (c_window c);
    fp_ttl_values := push_capped (fp_ttl_values fp) (c_ttl c); fp_connection_times := push_capped (fp_connection_times fp) (c_ts c);
    fp_pattern := fp_pattern fp; fp_first_seen := fp_first_seen fp; fp_last_seen := c_ts c;
    fp_connection_count := wrapping_add 64 (fp_connection_count fp) 1 |} (forgotten h k).
Proof.
  intros [Hw Ht Hti Hc Hl Hf Hm Hle] Hk. split; simpl.
  - rewrite Hw. by apply push_capped_drop.
  - rewrite Ht. by apply push_capped_drop.
  - rewrite Hti. by apply push_capped_drop.
  - rewrite Hc, length_app, Nat2Z.inj_add. unfold wrapping_add, wrap. by rewrite Zplus_mod_idemp_l.
  - rewrite fmap_app. apply last_snoc.
  - destruct h; [done|]. exact Hf.
  - rewrite length_app. unfold forgotten. simpl. destruct (Nat.ltb_spec 500 (length h + 1 - k)); lia.
  - rewrite length_app. unfold forgotten. simpl. destruct (Nat.ltb_spec 500 (length h + 1 - k)); lia.
Qed.

Lemma conns_of_snoc ip l c : conns_of ip (l ++ [c]) = if bool_decide (c_ip c = ip) then conns_of ip l ++ [c] else conns_of ip l.
Proof. unfold conns_of. rewrite retain_app_list. unfold retain. simpl. case_bool_decide; [done|]. apply app_nil_r. Qed.

Lemma remembers_k h fp k : remembers h fp k -> (k <= length h)%nat.
Proof. intros Hr. destruct (rm_least _ _ _ Hr); lia. Qed.

(** Every fingerprint is filed under its own address. *)
Definition keyed (t : TcpFingerprinter) : Prop := map_Forall (fun ip fp => fp_ip fp = ip) (fingerprints t).

(** The entry of [ip] after the connections [l]. *)
Definition entry_ok (l : list Conn) (ip : string) (e : option TcpFingerprint) : Prop :=
  match e with
  | Some fp => fp_ip fp = ip /\ exists k, remembers (conns_of ip l) fp k
  | None => conns_of ip l = []
  end.

Lemma remembers_one c : remembers [c] {| fp_ip := c_ip c; fp_window_sizes := push_capped [] (c_window c);
    fp_ttl_values := push_capped [] (c_ttl c); fp_connection_times := push_capped [] (c_ts c);
    fp_pattern := Unknown; fp_first_seen := c_ts c; fp_last_seen := c_ts c; fp_connection_count := wrapping_add 64 0 1 |} 0.
Proof. split; simpl; first [done | lia]. Qed.

(** What is kept of an address after any sequence of connections is the end of
    what was recorded of it, the same end for window sizes, TTLs and times: all
    of it up to five hundred connections, between 251 and 500 of it after that;
    the first and last times and the count are those of the whole sequence. *)
Theorem history_is_recent_end l t ip : fingerprints t = ∅ -> entry_ok l ip (fingerprints (record_all t l) !! ip).
Proof.
  intros Ht. induction l as [|c l IH] using rev_ind; [simpl; by rewrite Ht, lookup_empty|].
  unfold record_all in *. rewrite foldl_app. simpl. unfold entry_ok in *. rewrite conns_of_snoc.
  case_bool_decide as Ec.
  - subst ip. rewrite lookup_insert_eq.
    destruct (_ !! c_ip c) as [fp|]; simpl.
    + destruct IH as [Hip [k Hk]]. split; [done|]. exists (forgotten (conns_of (c_ip c) l) k). apply remembers_snoc; eauto using remembers_k.
    + split; [done|]. exists 0%nat. rewrite IH. apply remembers_one.
  - rewrite lookup_insert_ne by done. exact IH.
Qed.

(** Connections kept, two too many, of an address seen 502 times. *)
Lemma history_is_recent_end_witness :
  entry_ok (replicate 502 {| c_ip := "192.0.2.1"; c_window := 1024; c_ttl := 64; c_ts := 0 |}) "192.0.2.1"
    (fingerprints (record_all TcpFingerprinter_new (replicate 502 {| c_ip := "192.0.2.1"; c_window := 1024; c_ttl := 64; c_ts := 0 |}))
      !! "192.0.2.1").
Proof. apply history_is_recent_end. reflexivity. Defined.

(** ** Classification *)

Section classification.
Context `{FreqOrder}.

(** The addresses with the stack [k]. *)
Definition sharers (t : TcpFingerprinter) (k : Z * Z) : list TcpFingerprint :=
  retain (fun fp => bool_decide (stack_of fp = Some k)) (map_to_list (fingerprints t)).*2.

(** What an address is, in one reading of the rules. *)
Definition verdict (t : TcpFingerprinter) (fp : TcpFingerprint) : ConnectionPattern :=
  let alone := if is_bot t fp then Bot else Human in
  match stack_of fp with
  | Some k => if botnet_ip_threshold t <=? Z.of_nat (length (sharers t k)) then Botnet else alone
  | None => alone
  end.

Lemma stack_group_lookup g L k :
  foldl add_to_group g L !! k =
    match fp_ip <$> retain (fun fp => bool_decide (stack_of fp = Some k)) L with
    | [] => g !! k
    | ips => Some (default [] (g !! k) ++ ips)
    end.
Proof.
  revert g. induction L as [|fp L IH]; intros g; [done|]. simpl. rewrite IH. unfold add_to_group, retain. simpl.
  destruct (stack_of fp) as [k'|]; [|done].
  case_bool_decide as Ek; simplify_eq/=.
  - rewrite lookup_insert_eq. simpl. destruct (fp_ip <$> List.filter _ L); [done|]. by rewrite <- app_assoc.
  - by rewrite lookup_insert_ne by congruence.
Qed.

Lemma mark_botnet_lookup m ips ip : mark_botnet m ips !! ip = if bool_decide (ip ∈ ips) then set_pattern Botnet <$> m !! ip else m !! ip.
Proof.
  unfold mark_botnet. revert m. induction ips as [|i ips IH]; intros m; [done|]. simpl. rewrite IH.
  destruct (decide (i = ip)) as [->|N].
  - rewrite lookup_alter_eq. rewrite (bool_decide_true (ip ∈ ip :: ips)) by set_solver. case_bool_decide; [|done]. by destruct (m !! ip).
  - rewrite lookup_alter_ne by done. assert (bool_decide (ip ∈ i :: ips) = bool_decide (ip ∈ ips)) as ->; [|done].
    apply bool_decide_ext. set_solver.
Qed.

(** One pass over the groups. *)
Definition mark_pass (t : TcpFingerprinter) (ips : list string) : TcpFingerprinter :=
  if botnet_ip_threshold t <=? Z.of_nat (length ips) then with_fingerprints t (mark_botnet (fingerprints t) ips) else t.

Definition convicts (n : Z) (ip : string) (ips : list string) : bool := (n <=? Z.of_nat (length ips)) && bool_decide (ip ∈ ips).

Lemma mark_passes t L ip :
  fingerprints (foldl mark_pass t L) !! ip =
    if existsb (convicts (botnet_ip_threshold t) ip) L then set_pattern Botnet <$> fingerprints t !! ip else fingerprints t !! ip.
Proof.
  revert t. induction L as [|ips L IH]; intros t; [done|]. simpl. rewrite IH. unfold mark_pass, convicts at 2.
  destruct (botnet_ip_threshold t <=? Z.of_nat (length ips)); [|done]. simpl. rewrite mark_botnet_lookup.
  case_bool_decide; [|done]. simpl. case_match; [|done]. by destruct (_ !! ip).
Qed.

(** After the first pass. *)
Definition alone_pass (t : TcpFingerprinter) : TcpFingerprinter :=
  with_fingerprints t ((fun fp => set_pattern (if is_bot t fp then Bot else Human) fp) <$> fingerprints t).

Lemma alone_sharers t k : fp_ip <$> sharers (alone_pass t) k ≡ₚ fp_ip <$> sharers t k.
Proof.
  unfold sharers, alone_pass. simpl. rewrite map_to_list_fmap.
  generalize (map_to_list (fingerprints t)) as L. intros L.
  match goal with |- ?a ≡ₚ ?b => cut (a = b); [by intros ->|] end.
  induction L as [|[i fp] L IH]; [done|]. unfold retain in *. simpl.
  assert (stack_of (set_pattern (if is_bot t fp then Bot else Human) fp) = stack_of fp) as -> by done.
  case_bool_decide; simpl; [|done]. by f_equal.
Qed.

Lemma sharers_in t fp k : fp ∈ sharers t k <-> stack_of fp = Some k /\ exists ip, fingerprints t !! ip = Some fp.
Proof.
  unfold sharers. rewrite retain_elem, bool_decide_eq_true, list_elem_of_fmap. split.
  - intros [([ip fp'] & -> & Hin%elem_of_map_to_list) Hs]. eauto.
  - intros [Hs [ip Hip]]. split; [|done]. exists (ip, fp). by rewrite elem_of_map_to_list.
Qed.

Lemma stack_groups_lookup t k :
  stack_groups t !! k = match fp_ip <$> sharers t k with [] => None | ips => Some ips end.
Proof. unfold stack_groups. by rewrite stack_group_lookup, lookup_empty. Qed.

(** An address is convicted exactly by the group of its own stack. *)
Lemma convicted t ip fp :
  keyed t -> fingerprints t !! ip = Some fp ->
  existsb (convicts (botnet_ip_threshold t) ip) (map_to_list (stack_groups (alone_pass t))).*2 =
    match stack_of fp with Some k => botnet_ip_threshold t <=? Z.of_nat (length (sharers t k)) | None => false end.
Proof.
  intros Hk Hip. apply eq_true_iff_eq. rewrite existsb_exists. split.
  - intros (ips & Hin & Hc). apply list_elem_of_In, list_elem_of_fmap in Hin as ([k ips'] & -> & Hg%elem_of_map_to_list).
    simpl in Hc. apply andb_true_iff in Hc as [Hn Hi%bool_decide_eq_true]. rewrite stack_groups_lookup in Hg.
    assert (ips' = fp_ip <$> sharers (alone_pass t) k) as -> by (case_match; congruence). clear Hg.
    rewrite alone_sharers in Hi. apply list_elem_of_fmap in Hi as (fp' & E & [Hs [ip' Hf]]%sharers_in).
    pose proof (Hk _ _ Hf) as E'. simpl in E'. assert (ip' = ip) as -> by congruence.
    assert (fp' = fp) as -> by congruence. rewrite Hs. rewrite <- Hn. by rewrite (Permutation_length (alone_sharers t k)), length_fmap.
  - destruct (stack_of fp) as [k|] eqn:Es; [|done]. intros Hn.
    assert (Hi : ip ∈ fp_ip <$> sharers (alone_pass t) k).
    { rewrite alone_sharers, list_elem_of_fmap. exists fp. split; [symmetry; exact (Hk _ _ Hip)|]. apply sharers_in. eauto. }
    exists (fp_ip <$> sharers (alone_pass t) k). split.
    + apply list_elem_of_In, list_elem_of_fmap. exists (k, fp_ip <$> sharers (alone_pass t) k). split; [done|].
      apply elem_of_map_to_list. rewrite stack_groups_lookup. destruct (fp_ip <$> _); [by apply elem_of_nil in Hi|done].
    + apply andb_true_iff. rewrite bool_decide_eq_true. split; [|done].
      by rewrite (Permutation_length (alone_sharers t k)), length_fmap.
Qed.

Lemma classify_lookup t ip :
  keyed t -> fingerprints (classify_all t) !! ip = (fun fp => set_pattern (verdict t fp) fp) <$> fingerprints t !! ip.
Proof.
  intros Hk.
  assert (fingerprints (classify_all t) = fingerprints (foldl mark_pass (alone_pass t) (map_to_list (stack_groups (alone_pass t))).*2)) as -> by done.
  rewrite mark_passes. simpl. rewrite lookup_fmap. destruct (fingerprints t !! ip) as [fp|] eqn:E; simpl; [|by case_match].
  rewrite (convicted t ip fp Hk E). unfold verdict. destruct (stack_of fp); [|done]. by case_match.
Qed.

(** Classification is exact: an address is part of a botnet when at least the
    threshold of addresses have its most frequent window size and TTL, else a
    bot when it connected often enough and evenly enough, else human; nothing
    but the verdict of a fingerprint changes, and the order in which groups and
    addresses are walked has no influence. *)
Theorem classified_exactly t ip :
  keyed t ->
  get_pattern (classify_all t) ip = match fingerprints t !! ip with Some fp => verdict t fp | None => Unknown end
  /\ (set_pattern Unknown <$> fingerprints (classify_all t)) = (set_pattern Unknown <$> fingerprints t).
Proof.
  intros Hk. split.
  - unfold get_pattern. rewrite (classify_lookup t ip Hk). by destruct (fingerprints t !! ip).
  - apply map_eq. intros i. rewrite !lookup_fmap, (classify_lookup t i Hk). by destruct (fingerprints t !! i).
Qed.
End classification.

(** The next address of a range. *)
Definition range_ip (i : nat) : string := String.append "192.0.2." (pretty (N.of_nat i)).

#[local] Instance by_key : FreqOrder := { freq_iter := fun _ _ m => map_to_list m; freq_iter_perm := fun _ _ _ => reflexivity _ }.

Definition ten_hosts : TcpFingerprinter :=
  record_all TcpFingerprinter_new ((fun i => {| c_ip := range_ip i; c_window := 1024; c_ttl := 64; c_ts := 0 |}) <$> seq 1 10).

Lemma ten_hosts_keyed : keyed ten_hosts.
Proof. apply map_Forall_to_list. vm_compute. repeat constructor. Qed.

Lemma classified_exactly_witness :
  get_pattern (classify_all ten_hosts) "192.0.2.7" = Botnet
  /\ (set_pattern Unknown <$> fingerprints (classify_all ten_hosts)) = (set_pattern Unknown <$> fingerprints ten_hosts).
Proof.
  destruct (classified_exactly ten_hosts "192.0.2.7" ten_hosts_keyed) as [E F]. split; [rewrite E; vm_compute; reflexivity|exact F].
Defined.

(** ** The tracker as a whole *)

Inductive FpOp := ORecord (c : Conn) | OClassify | OCleanup (max_age now : Z).

Definition fp_step `{FreqOrder} (t : TcpFingerprinter) (o : FpOp) : TcpFingerprinter :=
  match o with
  | ORecord c => record_connection t (c_ip c) (c_window c) (c_ttl c) (c_ts c)
  | OClassify => classify_all t
  | OCleanup max_age now => cleanup_stale t max_age now
  end.

(** The three histories of an address go together and are bounded. *)
Definition lists_ok (fp : TcpFingerprint) : Prop :=
  length (fp_window_sizes fp) = length (fp_connection_times fp) /\ length (fp_ttl_values fp) = length (fp_connection_times fp)
  /\ (0 < length (fp_connection_times fp) <= 500)%nat.

Definition tracker_ok (t : TcpFingerprinter) : Prop := map_Forall (fun ip fp => fp_ip fp = ip /\ lists_ok fp) (fingerprints t).

Lemma tracker_keyed t : tracker_ok t -> keyed t.
Proof. intros Ht ip fp E. by destruct (Ht ip fp E). Qed.

Lemma push_capped_length l x :
  (length l <= 500)%nat -> length (push_capped l x) = if Nat.ltb 499 (length l) then 251%nat else S (length l).
Proof.
  intros Hl. unfold push_capped. rewrite length_app. simpl.
  destruct (Nat.ltb_spec 500 (length l + 1)), (Nat.ltb_spec 499 (length l)); rewrite ?length_drop, ?length_app; simpl; lia.
Qed.

Lemma record_tracker_ok t ip w tt ts : tracker_ok t -> tracker_ok (record_connection t ip w tt ts).
Proof.
  intros Ht. unfold tracker_ok, record_connection. simpl. apply map_Forall_insert_2; [|exact Ht]. simpl.
  destruct (fingerprints t !! ip) as [fp|] eqn:E; simpl; [|by split; [|unfold lists_ok, push_capped; simpl; lia]].
  destruct (Ht _ _ E) as [Hip (Hw & Htt & Hn)]. split; [done|]. unfold lists_ok. simpl.
  rewrite !push_capped_length by lia. rewrite Hw, Htt. destruct (Nat.ltb_spec 499 (length (fp_connection_times fp))); lia.
Qed.

Lemma cleanup_tracker_ok t max_age now : tracker_ok t -> tracker_ok (cleanup_stale t max_age now).
Proof. intros Ht ip fp [E _]%map_lookup_filter_Some. exact (Ht _ _ E). Qed.

(** Whatever is recorded, classified and forgotten, in whatever order, every
    fingerprint is filed under its own address and keeps as many window sizes as
    TTLs as times, at least one and at most five hundred. *)
Theorem fingerprints_always_ok `{FreqOrder} ops : tracker_ok (foldl fp_step TcpFingerprinter_new ops).
Proof.
  induction ops as [|o ops IH] using rev_ind; [apply map_Forall_empty|].
  rewrite foldl_app. simpl. set (t := foldl _ _ ops) in *. destruct o; simpl.
  - by apply record_tracker_ok.
  - intros ip fp E.
    rewrite (classify_lookup t ip (tracker_keyed t IH)) in E.
    destruct (fingerprints t !! ip) as [fp'|] eqn:Et; simplify_eq/=. exact (IH _ _ Et).
  - by apply cleanup_tracker_ok.
Qed.

(** Cleanup forgets exactly the addresses last seen [max_age] or longer ago, in
    whole milliseconds, and touches nothing else. *)
Theorem stale_forgotten_exactly t max_age now ip :
  0 <= max_age `div` NANOS_PER_MILLI < 2 ^ 63 ->
  fingerprints (cleanup_stale t max_age now) !! ip =
    (fp ← fingerprints t !! ip; if num_milliseconds (now - fp_last_seen fp) <? max_age `div` NANOS_PER_MILLI then Some fp else None).
Proof.
  intros Hm. unfold cleanup_stale. simpl. rewrite wrap_small by (unfold in_width; lia).
  unfold as_signed. rewrite (proj2 (Z.ltb_lt _ _)) by lia. rewrite map_lookup_filter.
  destruct (fingerprints t !! ip) as [fp|]; simpl; [|done].
  destruct (Z.ltb_spec (num_milliseconds (now - fp_last_seen fp)) (max_age `div` NANOS_PER_MILLI)); case_guard; simpl in *; first [done | lia].
Qed.

Lemma stale_forgotten_exactly_witness :
  fingerprints (cleanup_stale ten_hosts 1000000 2000000) !! "192.0.2.7" = None
  /\ 0 <= 1000000 `div` NANOS_PER_MILLI < 2 ^ 63.
Proof. split; [rewrite stale_forgotten_exactly by (vm_compute; split; congruence); vm_compute; reflexivity|vm_compute; split; congruence]. Defined.

(** An order that differs from host to host. *)
#[local] Program Instance by_host : FreqOrder :=
  { freq_iter := fun ip _ m => if String.eqb ip "192.0.2.7" then rev (map_to_list m) else map_to_list m }.
Next Obligation. intros ip b m. simpl. case_match; [symmetry; apply Permutation_rev|done]. Qed.

(** Ten hosts, each with one connection of either of two window sizes. *)
Definition tied_hosts : TcpFingerprinter :=
  record_all TcpFingerprinter_new
    (seq 1 10 ≫= fun i => (fun w => {| c_ip := range_ip i; c_window := w; c_ttl := 64; c_ts := 0 |}) <$> [1024; 2048]).

(** Ten hosts with the same history are a botnet or humans depending on the
    order in which the hash tables of their window sizes are walked, when two
    window sizes are equally frequent. *)
Theorem tie_decided_by_hashing :
  exists o1 o2 : FreqOrder,
    get_pattern (@classify_all o1 tied_hosts) "192.0.2.1" = Botnet /\ get_pattern (@classify_all o2 tied_hosts) "192.0.2.1" = Human.
Proof. exists by_key, by_host. vm_compute. done. Qed.
