(* ===== verification/ShieldLockdown.v ===== *)
(** * ShieldLockdown: only Cloudflare may reach the web ports
    (crates/shield/src/origin_lockdown.rs)

    Under attack the shield fills an iptables chain that accepts the web ports from
    the addresses of an ipset only, and puts a jump to it in front of the INPUT
    chain.  The commands are an argument ([Commands]): what the code relies on of
    iptables and ipset, a failing command that changes nothing included, is the
    class [Netfilter], stated of the chains and sets one can list, and of which
    packets a rule concerns.

    Proved here: what the rules of an activated lockdown do to each IPv4 packet, and
    which they drop (iptables sees no IPv6, and the rules name TCP only); that a failed
    activation locks nobody out; when a deactivation lets everybody in again, and
    that the flag is cleared even when it did not; that a restart during a lockdown
    leaves it in place, and that a lockdown that was never initialised never
    activates. *)

From Stdlib Require Import ZArith Lia Ascii String.
From stdpp Require Import prelude strings pretty gmap list.
From S2P Require Import Prelude Text ShieldEscalation.

Local Open Scope string_scope.
Local Open Scope list_scope.
Local Open Scope Z_scope.

Definition CF_IPV4_FALLBACK : list string :=
  ["173.245.48.0/20"; "103.21.244.0/22"; "103.22.200.0/22"; "103.31.4.0/22"; "141.101.64.0/18"; "108.162.192.0/18"; "190.93.240.0/20";
   "188.114.96.0/20"; "197.234.240.0/22"; "198.41.128.0/17"; "162.158.0.0/15"; "104.16.0.0/13"; "104.24.0.0/14"; "172.64.0.0/13";
   "131.0.72.0/22"].

Definition CHAIN_NAME : string := "INNERWARDEN_LOCKDOWN".
Definition IPSET_NAME : string := "cloudflare_cidrs".

Definition ssh_port_from_env_value (value : option string) : Z := default 49222 (s ← value; parse_uint 16 s).

Definition state_requires_lockdown (state : EscalationState) : bool :=
  match state with UnderAttack | Critical => true | _ => false end.

Definition parse_cloudflare_cidrs (body : string) : list string :=
  retain (fun line => negb (String.eqb line "") && contains "/" line) (trim <$> lines body).

Record OriginLockdown := { ld_active : bool; locked_ports : list Z; exempt_ports : list Z }.

Definition OriginLockdown_new (ssh_port_env : option string) : OriginLockdown :=
  {| ld_active := false; locked_ports := [80; 443; 8787]; exempt_ports := [ssh_port_from_env_value ssh_port_env; 22; 9090] |}.

Definition set_active (l : OriginLockdown) (b : bool) : OriginLockdown :=
  {| ld_active := b; locked_ports := locked_ports l; exempt_ports := exempt_ports l |}.

(** A command with its arguments succeeds or not. *)
Class Commands (Sys : Type) := { exec : string -> list string -> Sys -> bool * Sys }.

Definition append_tcp_port_rule (commands : list (list string)) (port : Z) (jump : string) : list (list string) :=
  commands ++ [["-A"; CHAIN_NAME; "-p"; "tcp"; "--dport"; show port; "-j"; jump]].

Definition activation_iptables_args (locked exempt : list Z) : list (list string) :=
  let commands :=
    [["-F"; CHAIN_NAME]; ["-A"; CHAIN_NAME; "-m"; "state"; "--state"; "ESTABLISHED,RELATED"; "-j"; "ACCEPT"];
     ["-A"; CHAIN_NAME; "-s"; "127.0.0.0/8"; "-j"; "ACCEPT"]; ["-A"; CHAIN_NAME; "-s"; "169.254.169.254/32"; "-j"; "ACCEPT"]] in
  let commands := foldl (fun c port => append_tcp_port_rule c port "ACCEPT") commands exempt in
  foldl (fun c port =>
      append_tcp_port_rule
        (c ++ [["-A"; CHAIN_NAME; "-p"; "tcp"; "--dport"; show port; "-m"; "set"; "--match-set"; IPSET_NAME; "src"; "-j"; "ACCEPT"]])
        port "DROP") commands locked.

Definition input_chain_delete_args : list string := ["-D"; "INPUT"; "-j"; CHAIN_NAME].
Definition input_chain_insert_args : list string := ["-I"; "INPUT"; "1"; "-j"; CHAIN_NAME].
Definition deactivation_iptables_args : list (list string) := [input_chain_delete_args; ["-F"; CHAIN_NAME]].

(** The answer of the request for the list of networks. *)
Inductive Fetched := FetchFailed | NotSuccess | Body (text : option string).

Definition fetch_cloudflare_cidrs (r : Fetched) : list string :=
  match r with
  | Body (Some body) => let cidrs := parse_cloudflare_cidrs body in if Nat.leb 10 (length cidrs) then cidrs else CF_IPV4_FALLBACK
  | _ => CF_IPV4_FALLBACK
  end.

Section commands.
Context {Sys : Type} `{Commands Sys}.

Definition iptables : list string -> Sys -> bool * Sys := exec "iptables".
Definition ipset : list string -> Sys -> bool * Sys := exec "ipset".

(** [run(&args)?] for each. *)
Fixpoint run_each (l : list (list string)) (s : Sys) : bool * Sys :=
  match l with
  | [] => (true, s)
  | a :: l => let '(ok, s) := iptables a s in if ok then run_each l s else (false, s)
  end.

(** The first component is [is_ok] of the result. *)
Definition activate (l : OriginLockdown) (s : Sys) : bool * OriginLockdown * Sys :=
  if ld_active l then (true, l, s)
  else
    let '(ok, s) := run_each (activation_iptables_args (locked_ports l) (exempt_ports l)) s in
    if negb ok then (false, l, s)
    else
      let '(_, s) := iptables input_chain_delete_args s in
      let '(ok, s) := iptables input_chain_insert_args s in
      if ok then (true, set_active l true, s) else (false, l, s).

Definition deactivate (l : OriginLockdown) (s : Sys) : bool * OriginLockdown * Sys :=
  if negb (ld_active l) then (true, l, s)
  else (true, set_active l false, foldl (fun s a => (iptables a s).2) s deactivation_iptables_args).

Definition ld_check_and_toggle (l : OriginLockdown) (state : EscalationState) (s : Sys) : OriginLockdown * Sys :=
  let should_lock := state_requires_lockdown state in
  if should_lock && negb (ld_active l) then let '(_, l, s) := activate l s in (l, s)
  else if negb should_lock && ld_active l then let '(_, l, s) := deactivate l s in (l, s)
  else (l, s).

(** One network: counted when it could be added. *)
Definition add_cidr (acc : Z * Sys) (cidr : string) : Z * Sys :=
  let '(ok, s) := ipset ["add"; IPSET_NAME; cidr; "-exist"] acc.2 in (if ok then acc.1 + 1 else acc.1, s).

Definition ld_init (fetched : Fetched) (s : Sys) : Sys :=
  let '(_, s) := ipset ["destroy"; IPSET_NAME] s in
  let '(ok, s) := ipset ["create"; IPSET_NAME; "hash:net"; "family"; "inet"] s in
  if negb ok then s
  else
    let '(_, s) := foldl add_cidr (0, s) (fetch_cloudflare_cidrs fetched) in
    let '(_, s) := iptables ["-N"; CHAIN_NAME] s in
    (iptables ["-F"; CHAIN_NAME] s).2.

Definition refresh_cidrs_with_runner (cidrs : list string) (s : Sys) : Z * Sys :=
  foldl add_cidr (0, (ipset ["flush"; IPSET_NAME] s).2) cidrs.

Definition refresh_cidrs (fetched : Fetched) (s : Sys) : Sys := (refresh_cidrs_with_runner (fetch_cloudflare_cidrs fetched) s).2.
End commands.

(** ** What is relied on of iptables and ipset *)

(** An IPv4 packet, the only ones iptables is shown: the destination port when it
    is TCP, the source, and whether it belongs to a connection that is already
    known. *)
Record Packet := { pk_tcp_port : option Z; pk_src : string; pk_established : bool }.

(** The first rule equal to [r] goes. *)
Fixpoint remove_rule (r : list string) (l : list (list string)) : list (list string) :=
  match l with [] => [] | x :: l => if bool_decide (x = r) then l else x :: remove_rule r l end.

Class Netfilter (Sys : Type) `{Commands Sys} := {
  chain_rules : Sys -> string -> option (list (list string));
  set_members : Sys -> string -> option (list string);
  in_cidr : string -> string -> bool;
  rule_hits : Sys -> list string -> Packet -> bool;
  nf_fails cmd a s s' : exec cmd a s = (false, s') -> (forall c, chain_rules s' c = chain_rules s c) /\ (forall n, set_members s' n = set_members s n);
  nf_ipset_chains a s c : chain_rules (exec "ipset" a s).2 c = chain_rules s c;
  nf_iptables_sets a s n : set_members (exec "iptables" a s).2 n = set_members s n;
  nf_flush c s s' : exec "iptables" ["-F"; c] s = (true, s') ->
    is_Some (chain_rules s c) /\ chain_rules s' c = Some [] /\ forall d, d <> c -> chain_rules s' d = chain_rules s d;
  nf_append c spec s s' : exec "iptables" ("-A" :: c :: spec) s = (true, s') ->
    (exists rs, chain_rules s c = Some rs /\ chain_rules s' c = Some (rs ++ [spec])) /\ forall d, d <> c -> chain_rules s' d = chain_rules s d;
  nf_insert c spec s s' : exec "iptables" ("-I" :: c :: "1" :: spec) s = (true, s') ->
    (exists rs, chain_rules s c = Some rs /\ chain_rules s' c = Some (spec :: rs)) /\ forall d, d <> c -> chain_rules s' d = chain_rules s d;
  nf_delete c spec s s' : exec "iptables" ("-D" :: c :: spec) s = (true, s') ->
    (exists rs, chain_rules s c = Some rs /\ spec ∈ rs /\ chain_rules s' c = Some (remove_rule spec rs)) /\
    forall d, d <> c -> chain_rules s' d = chain_rules s d;
  nf_new c s s' : exec "iptables" ["-N"; c] s = (true, s') ->
    chain_rules s' c = Some [] /\ forall d, d <> c -> chain_rules s' d = chain_rules s d;
  nf_destroy_used n s c rs r a b : chain_rules s c = Some rs -> r ∈ rs -> r = a ++ "--match-set" :: n :: b -> (exec "ipset" ["destroy"; n] s).1 = false;
  nf_create_existing n more s : is_Some (set_members s n) -> (exec "ipset" ("create" :: n :: more) s).1 = false;
  rh_state s p : rule_hits s ["-m"; "state"; "--state"; "ESTABLISHED,RELATED"] p = pk_established p;
  rh_src s cidr p : rule_hits s ["-s"; cidr] p = in_cidr cidr (pk_src p);
  rh_port s n p : 0 <= n < 65536 -> rule_hits s ["-p"; "tcp"; "--dport"; show n] p = bool_decide (pk_tcp_port p = Some n);
  rh_set s n name p : 0 <= n < 65536 ->
    rule_hits s ["-p"; "tcp"; "--dport"; show n; "-m"; "set"; "--match-set"; name; "src"] p =
      bool_decide (pk_tcp_port p = Some n) && existsb (fun c => in_cidr c (pk_src p)) (default [] (set_members s name));
}.

Section lockdown.
Context {Sys : Type} `{Netfilter Sys}.

(** A rule as it is listed: what it matches and where it jumps. *)
Definition rule_parts (r : list string) : option (list string * string) :=
  match reverse r with target :: flag :: m => if String.eqb flag "-j" then Some (reverse m, target) else None | _ => None end.

(** The first rule that concerns the packet decides. *)
Fixpoint walk (s : Sys) (rs : list (list string)) (p : Packet) : option string :=
  match rs with
  | [] => None
  | r :: rs =>
      match rule_parts r with
      | Some (m, target) => if rule_hits s m p then Some target else walk s rs p
      | None => walk s rs p
      end
  end.

Definition jump_rule : list string := ["-j"; CHAIN_NAME].

(** What the lockdown decides of a packet when the chain stands in front of INPUT;
    [None] leaves the packet to the rest of INPUT. *)
Definition lockdown_decides (s : Sys) (p : Packet) : option string :=
  match chain_rules s "INPUT" with
  | Some (r :: _) => if bool_decide (r = jump_rule) then walk s (default [] (chain_rules s CHAIN_NAME)) p else None
  | _ => None
  end.

Definition port_rule (target : string) (port : Z) : list string := ["-p"; "tcp"; "--dport"; show port; "-j"; target].
Definition set_rule (port : Z) : list string :=
  ["-p"; "tcp"; "--dport"; show port; "-m"; "set"; "--match-set"; IPSET_NAME; "src"; "-j"; "ACCEPT"].

(** The rules of the chain, in order. *)
Definition lockdown_rules (locked exempt : list Z) : list (list string) :=
  [["-m"; "state"; "--state"; "ESTABLISHED,RELATED"; "-j"; "ACCEPT"]; ["-s"; "127.0.0.0/8"; "-j"; "ACCEPT"];
   ["-s"; "169.254.169.254/32"; "-j"; "ACCEPT"]]
  ++ (port_rule "ACCEPT" <$> exempt) ++ (locked ≫= fun n => [set_rule n; port_rule "DROP" n]).

Definition append_cmd (r : list string) : list string := "-A" :: CHAIN_NAME :: r.

Lemma activation_args_eq locked exempt :
  activation_iptables_args locked exempt = ["-F"; CHAIN_NAME] :: (append_cmd <$> lockdown_rules locked exempt).
Proof.
  unfold activation_iptables_args, lockdown_rules.
  match goal with |- context [foldl _ ?l exempt] => set (c0 := l) end.
  assert (E1 : forall c, foldl (fun c port => append_tcp_port_rule c port "ACCEPT") c exempt = c ++ (append_cmd <$> (port_rule "ACCEPT" <$> exempt))).
  { induction exempt as [|x l IH]; intros c; simpl; [by rewrite app_nil_r|]. rewrite IH. unfold append_tcp_port_rule. by rewrite <- app_assoc. }
  rewrite E1. rewrite !fmap_app, !app_assoc.
  match goal with |- foldl ?f ?c locked = _ => assert (E2 : forall d, foldl f d locked = d ++ (append_cmd <$> (locked ≫= fun n => [set_rule n; port_rule "DROP" n]))) end.
  { clear. induction locked as [|x l IH]; intros d; simpl; [by rewrite app_nil_r|]. rewrite IH. unfold append_tcp_port_rule. by rewrite <- !app_assoc. }
  rewrite E2. unfold c0. rewrite <- !app_assoc. reflexivity.
Qed.

Lemma iptables_keeps_sets a (s : Sys) n : set_members (iptables a s).2 n = set_members s n.
Proof. apply nf_iptables_sets. Qed.

(** A run of appends that succeeds appends them all. *)
Lemma run_appends rs : forall s s' base,
  chain_rules s CHAIN_NAME = Some base -> run_each (append_cmd <$> rs) s = (true, s') ->
  chain_rules s' CHAIN_NAME = Some (base ++ rs) /\ (forall d, d <> CHAIN_NAME -> chain_rules s' d = chain_rules s d)
  /\ forall n, set_members s' n = set_members s n.
Proof.
  induction rs as [|r rs IH]; intros s s' base Hb E; simpl in E.
  - injection E as <-. by rewrite app_nil_r.
  - pose proof (iptables_keeps_sets (append_cmd r) s) as Hs.
    destruct (iptables (append_cmd r) s) as [[] s1] eqn:E1; [|done].
    destruct (nf_append _ _ _ _ E1) as [(b & Hb' & Hb1) Hd]. assert (b = base) as -> by congruence.
    destruct (IH _ _ _ Hb1 E) as (Hc & Hd' & Hn). rewrite <- app_assoc in Hc. split_and!; [done|..].
    + intros d Nd. rewrite Hd', Hd; done.
    + intros n. rewrite Hn. apply Hs.
Qed.

Lemma run_activation locked exempt s s' :
  run_each (activation_iptables_args locked exempt) s = (true, s') ->
  chain_rules s' CHAIN_NAME = Some (lockdown_rules locked exempt) /\ (forall d, d <> CHAIN_NAME -> chain_rules s' d = chain_rules s d)
  /\ forall n, set_members s' n = set_members s n.
Proof.
  rewrite activation_args_eq. cbn [run_each]. intros E.
  pose proof (iptables_keeps_sets ["-F"; CHAIN_NAME] s) as Hs.
  destruct (iptables ["-F"; CHAIN_NAME] s) as [[] s1] eqn:E1; [|done].
  destruct (nf_flush _ _ _ E1) as (_ & Hc & Hd). destruct (run_appends _ _ _ _ Hc E) as (Hc' & Hd' & Hn). split_and!; [done|..].
  - intros d Nd. rewrite Hd', Hd; done.
  - intros n. rewrite Hn. apply Hs.
Qed.

(** No command of the activation touches INPUT, also when one fails. *)
Lemma run_each_input l s ok s' :
  Forall (fun a => a = ["-F"; CHAIN_NAME] \/ exists r, a = append_cmd r) l -> run_each l s = (ok, s') ->
  forall d, d <> CHAIN_NAME -> chain_rules s' d = chain_rules s d.
Proof.
  intros Hl. revert s. induction Hl as [|a l Ha _ IH]; intros s E d Nd; simpl in E; [by simplify_eq|].
  assert (Hk : chain_rules (iptables a s).2 d = chain_rules s d).
  { destruct (iptables a s) as [[] s1] eqn:E1; [|by apply (nf_fails _ _ _ _ E1)].
    destruct Ha as [->|[r ->]]; [by apply (nf_flush _ _ _ E1)|by apply (nf_append _ _ _ _ E1)]. }
  destruct (iptables a s) as [[] s1]; simplify_eq/=; [|done]. by rewrite (IH _ E d Nd).
Qed.

(** ** What a lockdown does to a packet *)

Lemma walk_app s a b p : walk s (a ++ b) p = match walk s a p with Some t => Some t | None => walk s b p end.
Proof.
  induction a as [|r a IH]; [done|]. simpl. destruct (rule_parts r) as [[m t]|]; [|done]. by destruct (rule_hits s m p).
Qed.

Definition u16_ports (l : list Z) : Prop := Forall (fun n => 0 <= n < 65536) l.

Definition port_in (p : Packet) (l : list Z) : bool := match pk_tcp_port p with Some n => bool_decide (n ∈ l) | None => false end.

Lemma port_in_cons p n l : port_in p (n :: l) = bool_decide (pk_tcp_port p = Some n) || port_in p l.
Proof.
  unfold port_in. destruct (pk_tcp_port p) as [m|]; [|by rewrite bool_decide_false].
  apply eq_true_iff_eq. rewrite orb_true_iff, !bool_decide_eq_true. set_solver.
Qed.

Lemma rule_parts_snoc m t : rule_parts (m ++ ["-j"; t]) = Some (m, t).
Proof. unfold rule_parts. rewrite reverse_app. simpl. by rewrite reverse_involutive. Qed.

Lemma port_rule_parts t n : rule_parts (port_rule t n) = Some (["-p"; "tcp"; "--dport"; show n], t).
Proof. apply (rule_parts_snoc ["-p"; "tcp"; "--dport"; show n]). Qed.

Lemma set_rule_parts n :
  rule_parts (set_rule n) = Some (["-p"; "tcp"; "--dport"; show n; "-m"; "set"; "--match-set"; IPSET_NAME; "src"], "ACCEPT").
Proof. apply (rule_parts_snoc ["-p"; "tcp"; "--dport"; show n; "-m"; "set"; "--match-set"; IPSET_NAME; "src"]). Qed.

Lemma walk_exempt s l p : u16_ports l -> walk s (port_rule "ACCEPT" <$> l) p = if port_in p l then Some "ACCEPT" else None.
Proof.
  intros Hl. induction Hl as [|n l Hn _ IH]; [unfold port_in; by destruct (pk_tcp_port p)|].
  rewrite fmap_cons. cbn [walk]. rewrite port_rule_parts, (rh_port s n p Hn), IH, port_in_cons. by case_bool_decide.
Qed.

(** The source is one of the networks of the set. *)
Definition from_set (s : Sys) (p : Packet) : bool := existsb (fun c => in_cidr c (pk_src p)) (default [] (set_members s IPSET_NAME)).

Lemma walk_locked s l p :
  u16_ports l -> walk s (l ≫= fun n => [set_rule n; port_rule "DROP" n]) p =
    if port_in p l then Some (if from_set s p then "ACCEPT" else "DROP") else None.
Proof.
  intros Hl. induction Hl as [|n l Hn _ IH]; [unfold port_in; by destruct (pk_tcp_port p)|].
  rewrite bind_cons. cbn [walk app]. rewrite set_rule_parts, port_rule_parts.
  rewrite (rh_set s n IPSET_NAME p Hn), (rh_port s n p Hn), IH, port_in_cons. fold (from_set s p).
  case_bool_decide; simpl; [|done]. by destruct (from_set s p).
Qed.

(** What the chain decides of an IPv4 packet, in the order of its rules: an
    exempt port comes before a locked one. *)
Definition rules_decide (l : OriginLockdown) (s : Sys) (p : Packet) : option string :=
  if pk_established p || in_cidr "127.0.0.0/8" (pk_src p) || in_cidr "169.254.169.254/32" (pk_src p) then Some "ACCEPT"
  else match pk_tcp_port p with
       | None => None
       | Some n =>
           if bool_decide (n ∈ exempt_ports l) then Some "ACCEPT"
           else if bool_decide (n ∈ locked_ports l) then Some (if from_set s p then "ACCEPT" else "DROP") else None
       end.

Lemma walk_rules l s p :
  u16_ports (locked_ports l) -> u16_ports (exempt_ports l) ->
  walk s (lockdown_rules (locked_ports l) (exempt_ports l)) p = rules_decide l s p.
Proof.
  intros Hl He. unfold lockdown_rules, rules_decide. rewrite walk_app. cbn [walk].
  assert (rule_parts ["-m"; "state"; "--state"; "ESTABLISHED,RELATED"; "-j"; "ACCEPT"] = Some (["-m"; "state"; "--state"; "ESTABLISHED,RELATED"], "ACCEPT")) as -> by apply (rule_parts_snoc ["-m"; "state"; "--state"; "ESTABLISHED,RELATED"]).
  assert (rule_parts ["-s"; "127.0.0.0/8"; "-j"; "ACCEPT"] = Some (["-s"; "127.0.0.0/8"], "ACCEPT")) as -> by apply (rule_parts_snoc ["-s"; "127.0.0.0/8"]).
  assert (rule_parts ["-s"; "169.254.169.254/32"; "-j"; "ACCEPT"] = Some (["-s"; "169.254.169.254/32"], "ACCEPT")) as -> by apply (rule_parts_snoc ["-s"; "169.254.169.254/32"]).
  rewrite rh_state, !rh_src, walk_app, walk_exempt, walk_locked by done.
  destruct (pk_established p); [done|]. destruct (in_cidr _ _); [done|]. destruct (in_cidr _ _); [done|]. simpl.
  unfold port_in. destruct (pk_tcp_port p) as [n|]; [|done]. by case_bool_decide.
Qed.

(** The steps of a successful activation. *)
Lemma activate_steps l s l' s' :
  ld_active l = false -> activate l s = (true, l', s') ->
  l' = set_active l true /\ chain_rules s' CHAIN_NAME = Some (lockdown_rules (locked_ports l) (exempt_ports l))
  /\ (exists rest, chain_rules s' "INPUT" = Some (jump_rule :: rest)) /\ forall n, set_members s' n = set_members s n.
Proof.
  intros Ha. unfold activate. rewrite Ha. destruct (run_each _ s) as [[] s1] eqn:E1; [|done]. simpl.
  destruct (run_activation _ _ _ _ E1) as (Hc & _ & Hn).
  pose proof (iptables_keeps_sets input_chain_delete_args s1) as Hn2.
  destruct (iptables input_chain_delete_args s1) as [okd s2] eqn:E2. simpl in Hn2.
  pose proof (iptables_keeps_sets input_chain_insert_args s2) as Hn3.
  destruct (iptables input_chain_insert_args s2) as [[] s3] eqn:E3; [|done]. intros E. injection E as <- <-.
  assert (Hc2 : chain_rules s2 CHAIN_NAME = chain_rules s1 CHAIN_NAME).
  { destruct okd; [by apply (nf_delete _ _ _ _ E2)|by apply (nf_fails _ _ _ _ E2)]. }
  destruct (nf_insert _ _ _ _ E3) as [(rest & _ & Hi) Hd]. split_and!; [done| |by exists rest|].
  - rewrite Hd by done. by rewrite Hc2.
  - intros n. simpl in Hn3. by rewrite Hn3, Hn2, Hn.
Qed.

(** The packet is a new one of the network: of no known connection, not from
    127.0.0.0/8 and not from the metadata service. *)
Definition from_outside (p : Packet) : Prop :=
  pk_established p = false /\ in_cidr "127.0.0.0/8" (pk_src p) = false /\ in_cidr "169.254.169.254/32" (pk_src p) = false.

Lemma rules_drop l s p : rules_decide l s p = Some "DROP" <->
  from_outside p /\ from_set s p = false /\
  exists n, pk_tcp_port p = Some n /\ n ∈ locked_ports l /\ n ∉ exempt_ports l.
Proof.
  unfold rules_decide, from_outside. destruct (pk_established p), (in_cidr "127.0.0.0/8" _), (in_cidr "169.254.169.254/32" _); cbn [orb];
    try (split; [done|by intros ((? & ? & ?) & _)]).
  destruct (pk_tcp_port p) as [n|]; [|split; [done|by intros (_ & _ & n & ? & _)]].
  repeat case_bool_decide; destruct (from_set s p);
    (split; [try done; intros _; split_and!; try done; by exists n | intros (_ & Hs & n' & [= <-] & ? & ?); try done]).
Qed.

(** C35. After a lockdown was activated with success an IPv4 packet that reaches INPUT is decided
    by the rules in their order: known connections, sources in 127.0.0.0/8 and
    the metadata service pass, then TCP to an exempt port passes for everybody,
    then TCP to a locked port passes for the networks of the set and is dropped
    for others, and all else is left to the rest of INPUT.  So what is dropped
    is exactly the new TCP packets from other sources, outside the set, to the
    locked ports that are not exempt as well: a port that is both stays open, see
    [exempt_port_wins].  IPv6 is not iptables's, and UDP (HTTP/3) is left alone. *)
Theorem lockdown_exact l s l' s' p :
  u16_ports (locked_ports l) -> u16_ports (exempt_ports l) -> ld_active l = false -> activate l s = (true, l', s') ->
  ld_active l' = true /\ lockdown_decides s' p = rules_decide l s p /\
  (lockdown_decides s' p = Some "DROP" <->
   from_outside p /\ from_set s p = false /\ exists n, pk_tcp_port p = Some n /\ n ∈ locked_ports l /\ n ∉ exempt_ports l).
Proof.
  intros Hl He Ha E. destruct (activate_steps _ _ _ _ Ha E) as (-> & Hc & [rest Hi] & Hn). split; [done|].
  assert (lockdown_decides s' p = rules_decide l s p) as Ed; [|split; [done|rewrite Ed; apply rules_drop]].
  unfold lockdown_decides. rewrite Hi, Hc, bool_decide_true by done. cbn [from_option id]. rewrite walk_rules by done.
  unfold rules_decide, from_set. by rewrite Hn.
Qed.

(** A failed activation locks nobody out: when INPUT did not jump to the chain
    before, it does not afterwards, and the lockdown is not active. *)
Theorem failed_activation_locks_nobody l s l' s' rs p :
  chain_rules s "INPUT" = Some rs -> jump_rule ∉ rs -> ld_active l = false -> activate l s = (false, l', s') ->
  ld_active l' = false /\ chain_rules s' "INPUT" = Some rs /\ lockdown_decides s' p = None.
Proof.
  intros Hi Hj Ha E.
  cut (ld_active l' = false /\ chain_rules s' "INPUT" = Some rs).
  { intros [? Hi']. split_and!; [done..|]. unfold lockdown_decides. rewrite Hi'. destruct rs as [|r rs]; [done|].
    rewrite bool_decide_false; [done|]. set_solver. }
  unfold activate in E. rewrite Ha in E. destruct (run_each _ s) as [ok1 s1] eqn:E1.
  assert (H1 : chain_rules s1 "INPUT" = Some rs).
  { rewrite activation_args_eq in E1. rewrite <- Hi. eapply run_each_input; [|exact E1|done].
    constructor; [by left|]. apply Forall_fmap, Forall_true. intros r. right. by exists r. }
  destruct ok1; simpl in E; [|injection E as <- <-; done].
  destruct (iptables input_chain_delete_args s1) as [okd s2] eqn:E2.
  destruct (iptables input_chain_insert_args s2) as [[] s3] eqn:E3; [done|]. injection E as <- <-. split; [done|].
  rewrite (proj1 (nf_fails _ _ _ _ E3)). destruct okd; [|by rewrite (proj1 (nf_fails _ _ _ _ E2))].
  destruct (nf_delete _ _ _ _ E2) as [(b & Hb & Hin & _) _]. exfalso. apply Hj. assert (b = rs) as <- by congruence. exact Hin.
Qed.

(** ** Letting everybody in again *)

Definition views_eq (s s' : Sys) : Prop := (forall c, chain_rules s' c = chain_rules s c) /\ forall n, set_members s' n = set_members s n.

(** A deactivation of which at least one of the two commands succeeds lets
    everybody in again, when INPUT jumped to the chain once, in front. *)
Theorem deactivated_is_open l s s1 s2 ok1 ok2 rest p :
  ld_active l = true -> chain_rules s "INPUT" = Some (jump_rule :: rest) -> jump_rule ∉ rest ->
  iptables input_chain_delete_args s = (ok1, s1) -> iptables ["-F"; CHAIN_NAME] s1 = (ok2, s2) -> ok1 || ok2 = true ->
  deactivate l s = (true, set_active l false, s2) /\ lockdown_decides s2 p = None.
Proof.
  intros Ha Hi Hj E1 E2 Hok. unfold deactivate. rewrite Ha. simpl. rewrite E1. simpl. rewrite E2. split; [done|].
  assert (Hi1 : chain_rules s1 "INPUT" = Some (if ok1 then rest else jump_rule :: rest)).
  { destruct ok1; [|by rewrite (proj1 (nf_fails _ _ _ _ E1))].
    destruct (nf_delete _ _ _ _ E1) as [(b & Hb & _ & Hb') _]. rewrite Hi in Hb. injection Hb as <-. by rewrite Hb'. }
  assert (Hi2 : chain_rules s2 "INPUT" = chain_rules s1 "INPUT").
  { destruct ok2; [by apply (nf_flush _ _ _ E2)|by apply (nf_fails _ _ _ _ E2)]. }
  unfold lockdown_decides. rewrite Hi2, Hi1. destruct ok1; simpl in Hok.
  - destruct rest as [|r rest]; [done|]. rewrite bool_decide_false; [done|set_solver].
  - subst ok2. rewrite bool_decide_true by done. destruct (nf_flush _ _ _ E2) as (_ & -> & _). done.
Qed.

(** The flag is cleared also when both commands fail, and the lockdown goes on. *)
Theorem failed_deactivation_goes_on l s s1 s2 :
  ld_active l = true -> iptables input_chain_delete_args s = (false, s1) -> iptables ["-F"; CHAIN_NAME] s1 = (false, s2) ->
  deactivate l s = (true, set_active l false, s2) /\ views_eq s s2.
Proof.
  intros Ha E1 E2. unfold deactivate. rewrite Ha. simpl. rewrite E1. simpl. rewrite E2. split; [done|].
  destruct (nf_fails _ _ _ _ E1) as [A B], (nf_fails _ _ _ _ E2) as [C D]. split; intros; [by rewrite C|by rewrite D].
Qed.

(** ** Starting *)

Definition toggles (l : OriginLockdown) (s : Sys) (states : list EscalationState) : OriginLockdown * Sys :=
  foldl (fun ls st => ld_check_and_toggle ls.1 st ls.2) (l, s) states.

(** Without its chain an activation fails at the first command. *)
Lemma activate_without_chain l s :
  chain_rules s CHAIN_NAME = None -> ld_active l = false -> exists s', activate l s = (false, l, s') /\ views_eq s s'.
Proof.
  intros Hc Ha. unfold activate. rewrite Ha, activation_args_eq. cbn [run_each].
  destruct (iptables ["-F"; CHAIN_NAME] s) as [[] s'] eqn:E.
  - destruct (nf_flush _ _ _ E) as ([rs Hr] & _). congruence.
  - exists s'. split; [done|exact (nf_fails _ _ _ _ E)].
Qed.

(** A lockdown that was never initialised, so that its chain does not exist, never
    activates, whatever the states: the first command fails. *)
Theorem uninitialised_never_activates l s states :
  ld_active l = false -> chain_rules s CHAIN_NAME = None ->
  (toggles l s states).1 = l /\ views_eq s (toggles l s states).2.
Proof.
  intros Ha Hc. unfold toggles. induction states as [|st states IH] using rev_ind; [by repeat split|].
  rewrite foldl_app. simpl. destruct (foldl _ _ states) as [l1 s1]. simpl in IH. destruct IH as [-> [Hv Hn]].
  unfold ld_check_and_toggle. simpl. rewrite Ha, andb_false_r. destruct (state_requires_lockdown st); simpl; [|by repeat split].
  destruct (activate_without_chain l s1) as (s2 & -> & [A B]); [by rewrite Hv|done|]. simpl.
  split; [done|]. split; intros; [by rewrite A|by rewrite B].
Qed.

(** A restart during a lockdown: the set is in use and cannot be made anew, so the
    initialisation ends before it would empty the chain, and calm states after it
    do not lift what the new process does not know to be active. *)
Theorem restart_keeps_lockdown env fetched s locked exempt states :
  chain_rules s CHAIN_NAME = Some (lockdown_rules locked exempt) -> locked <> [] -> is_Some (set_members s IPSET_NAME) ->
  Forall (fun st => state_requires_lockdown st = false) states ->
  (toggles (OriginLockdown_new env) (ld_init fetched s) states).1 = OriginLockdown_new env
  /\ views_eq s (toggles (OriginLockdown_new env) (ld_init fetched s) states).2.
Proof.
  intros Hc Hl Hs Hst.
  assert (Hv : views_eq s (ld_init fetched s)).
  { unfold ld_init. destruct locked as [|n locked]; [done|].
    pose proof (nf_destroy_used IPSET_NAME s CHAIN_NAME _ (set_rule n) ["-p"; "tcp"; "--dport"; show n; "-m"; "set"] ["src"; "-j"; "ACCEPT"] Hc) as Hd.
    destruct (ipset ["destroy"; IPSET_NAME] s) as [ok s1] eqn:E1. unfold ipset in *. rewrite E1 in Hd. simpl in Hd.
    rewrite Hd in E1; [|unfold lockdown_rules; rewrite bind_cons; set_solver|done]. destruct (nf_fails _ _ _ _ E1) as [A B].
    pose proof (nf_create_existing IPSET_NAME ["hash:net"; "family"; "inet"] s1) as Hcr. rewrite B in Hcr. specialize (Hcr Hs).
    destruct (exec "ipset" ["create"; IPSET_NAME; "hash:net"; "family"; "inet"] s1) as [ok2 s2] eqn:E2. simpl in Hcr. subst ok2. simpl.
    destruct (nf_fails _ _ _ _ E2) as [C D]. split; intros; [by rewrite C|by rewrite D]. }
  revert Hv. generalize (ld_init fetched s) as s0. intros s0 Hv. unfold toggles.
  enough (E : foldl (fun ls st => ld_check_and_toggle ls.1 st ls.2) (OriginLockdown_new env, s0) states = (OriginLockdown_new env, s0)) by by rewrite E.
  clear Hv. induction Hst as [|st states Hst _ IH]; [done|]. simpl. unfold ld_check_and_toggle at 2. rewrite Hst. exact IH.
Qed.
End lockdown.

(** ** A small firewall, to see the hypotheses hold *)

(** The chains, the sets, and whether another process holds the lock of iptables. *)
Record Table := { tb_chains : gmap string (list (list string)); tb_sets : gmap string (list string); tb_busy : bool }.

Definition with_chain (t : Table) (c : string) (rs : list (list string)) : Table :=
  {| tb_chains := <[c := rs]> (tb_chains t); tb_sets := tb_sets t; tb_busy := tb_busy t |}.
Definition with_sets (t : Table) (m : gmap string (list string)) : Table :=
  {| tb_chains := tb_chains t; tb_sets := m; tb_busy := tb_busy t |}.

Inductive Verb := VFlush | VAppend (spec : list string) | VInsert (spec : list string) | VDelete (spec : list string) | VNew.

Definition verb_of (a : list string) : option (string * Verb) :=
  match a with
  | flag :: c :: rest =>
      if String.eqb flag "-F" then match rest with [] => Some (c, VFlush) | _ => None end
      else if String.eqb flag "-A" then Some (c, VAppend rest)
      else if String.eqb flag "-I" then match rest with _ :: rest => Some (c, VInsert rest) | [] => None end
      else if String.eqb flag "-D" then Some (c, VDelete rest)
      else if String.eqb flag "-N" then match rest with [] => Some (c, VNew) | _ => None end
      else None
  | _ => None
  end.

(** What becomes of the rules of a chain; [None] when the command fails. *)
Definition apply_verb (rs : option (list (list string))) (v : Verb) : option (list (list string)) :=
  match v, rs with
  | VFlush, Some _ => Some []
  | VAppend spec, Some rs => Some (rs ++ [spec])
  | VInsert spec, Some rs => Some (spec :: rs)
  | VDelete spec, Some rs => if bool_decide (spec ∈ rs) then Some (remove_rule spec rs) else None
  | VNew, None => Some []
  | _, _ => None
  end.

Definition demo_iptables (a : list string) (t : Table) : bool * Table :=
  if tb_busy t then (false, t)
  else match verb_of a with
       | Some (c, v) => match apply_verb (tb_chains t !! c) v with Some rs => (true, with_chain t c rs) | None => (false, t) end
       | None => (false, t)
       end.

Definition set_in_use (n : string) (t : Table) : bool :=
  existsb (fun rs => existsb (fun r : list string => bool_decide (n ∈ r)) rs) (map_to_list (tb_chains t)).*2.

Definition demo_ipset (a : list string) (t : Table) : bool * Table :=
  match a with
  | verb :: n :: rest =>
      if String.eqb verb "create" then if bool_decide (is_Some (tb_sets t !! n)) then (false, t) else (true, with_sets t (<[n := []]> (tb_sets t)))
      else match tb_sets t !! n with
           | None => (false, t)
           | Some m =>
               if String.eqb verb "destroy" then if set_in_use n t then (false, t) else (true, with_sets t (delete n (tb_sets t)))
               else if String.eqb verb "flush" then (true, with_sets t (<[n := []]> (tb_sets t)))
               else if String.eqb verb "add" then (true, with_sets t (<[n := m ++ take 1 rest]> (tb_sets t)))
               else (false, t)
           end
  | _ => (false, t)
  end.

#[local] Instance demo_commands : Commands Table :=
  { exec := fun cmd a t => if String.eqb cmd "iptables" then demo_iptables a t else if String.eqb cmd "ipset" then demo_ipset a t else (false, t) }.

Definition demo_in_cidr (cidr ip : string) : bool := String.eqb (first_piece "/" cidr) ip.

Definition demo_port (n : string) (p : Packet) : bool :=
  match parse_uint 16 n with Some k => bool_decide (pk_tcp_port p = Some k) | None => false end.

Definition demo_hits (t : Table) (m : list string) (p : Packet) : bool :=
  match m with
  | [_; cidr] => demo_in_cidr cidr (pk_src p)
  | ["-m"; _; _; _] => pk_established p
  | [_; _; _; n] => demo_port n p
  | [_; _; _; n; _; _; _; name; _] => demo_port n p && existsb (fun c => demo_in_cidr c (pk_src p)) (default [] (tb_sets t !! name))
  | _ => true
  end.

Lemma demo_iptables_true a t t' :
  demo_iptables a t = (true, t') ->
  exists c v rs, verb_of a = Some (c, v) /\ apply_verb (tb_chains t !! c) v = Some rs /\ t' = with_chain t c rs.
Proof.
  unfold demo_iptables. destruct (tb_busy t); [done|]. destruct (verb_of a) as [[c v]|]; [|done].
  destruct (apply_verb _ v) as [rs|] eqn:E; [|done]. intros [= <-]. by exists c, v, rs.
Qed.

Lemma demo_frame t c rs d : d <> c -> tb_chains (with_chain t c rs) !! d = tb_chains t !! d.
Proof. intros N. simpl. by rewrite lookup_insert_ne. Qed.

Lemma demo_ipset_chains a t : tb_chains (demo_ipset a t).2 = tb_chains t.
Proof. unfold demo_ipset. repeat case_match; done. Qed.

Lemma demo_iptables_sets a t : tb_sets (demo_iptables a t).2 = tb_sets t.
Proof. unfold demo_iptables. repeat case_match; done. Qed.

Lemma demo_fails cmd a (s s' : Table) : exec cmd a s = (false, s') -> s' = s.
Proof.
  simpl. unfold demo_iptables, demo_ipset. intros E. repeat case_match; by simplify_eq.
Qed.

Lemma set_in_use_spec n t c rs r : tb_chains t !! c = Some rs -> r ∈ rs -> n ∈ r -> set_in_use n t = true.
Proof.
  intros Hc Hr Hn. apply existsb_exists. exists rs. split.
  - apply list_elem_of_In, list_elem_of_fmap. exists (c, rs). by rewrite elem_of_map_to_list.
  - apply existsb_exists. exists r. split; [by apply list_elem_of_In|by rewrite bool_decide_true].
Qed.

#[local] Instance demo_netfilter : Netfilter Table.
Proof.
  refine {| chain_rules t c := tb_chains t !! c; set_members t n := tb_sets t !! n; in_cidr := demo_in_cidr; rule_hits := demo_hits |}.
  - intros cmd a s s' ->%demo_fails. done.
  - intros a s c. change (exec "ipset" a s) with (demo_ipset a s). by rewrite demo_ipset_chains.
  - intros a s n. change (exec "iptables" a s) with (demo_iptables a s). by rewrite demo_iptables_sets.
  - intros c s s' (c' & v & rs & Hv & Ha & ->)%demo_iptables_true. injection Hv as <- <-. simpl in *.
    destruct (tb_chains s !! c); simplify_eq/=. split_and!; [done|by rewrite lookup_insert_eq|apply demo_frame].
  - intros c spec s s' (c' & v & rs & Hv & Ha & ->)%demo_iptables_true. injection Hv as <- <-. simpl in *.
    destruct (tb_chains s !! c) as [b|]; simplify_eq/=. split; [exists b; by rewrite lookup_insert_eq|apply demo_frame].
  - intros c spec s s' (c' & v & rs & Hv & Ha & ->)%demo_iptables_true. injection Hv as <- <-. simpl in *.
    destruct (tb_chains s !! c) as [b|]; simplify_eq/=. split; [exists b; by rewrite lookup_insert_eq|apply demo_frame].
  - intros c spec s s' (c' & v & rs & Hv & Ha & ->)%demo_iptables_true. injection Hv as <- <-. simpl in *.
    destruct (tb_chains s !! c) as [b|]; simplify_eq/=. case_bool_decide; simplify_eq/=.
    split; [exists b; split_and!; [done..|by rewrite lookup_insert_eq]|apply demo_frame].
  - intros c s s' (c' & v & rs & Hv & Ha & ->)%demo_iptables_true. injection Hv as <- <-. simpl in *.
    destruct (tb_chains s !! c); simplify_eq/=. split; [by rewrite lookup_insert_eq|apply demo_frame].
  - intros n s c rs r a b Hc Hr ->. simpl. destruct (tb_sets s !! n); [|done]. by rewrite (set_in_use_spec n s c rs _ Hc Hr) by set_solver.
  - intros n more s Hn. simpl. by rewrite bool_decide_true.
  - done.
  - done.
  - intros s n p Hn. simpl. unfold demo_port. by rewrite parse_show.
  - intros s n name p Hn. simpl. unfold demo_port. by rewrite parse_show.
Defined.

Definition demo_table (busy : bool) : Table :=
  {| tb_chains := {[ "INPUT" := [] ]}; tb_sets := ∅; tb_busy := busy |}.

(** A list of ten networks, the first of them a host. *)
Definition demo_body : Fetched :=
  Body (Some (join (String nl EmptyString) ("198.51.100.7/32" :: ((fun i => "203.0.113." +:+ show (Z.of_nat i) +:+ "/32") <$> seq 1 9)))).

Definition demo_ready : Table := ld_init demo_body (demo_table false).
Definition demo_lock : OriginLockdown := OriginLockdown_new None.
Definition demo_locked : Table := (activate demo_lock demo_ready).2.
Definition busy (t : Table) : Table := {| tb_chains := tb_chains t; tb_sets := tb_sets t; tb_busy := true |}.

Definition web (src : string) : Packet := {| pk_tcp_port := Some 443; pk_src := src; pk_established := false |}.

Lemma demo_activates : activate demo_lock demo_ready = (true, set_active demo_lock true, demo_locked).
Proof. vm_compute. reflexivity. Qed.

Lemma demo_exempt_ports : exempt_ports demo_lock = [49222; 22; 9090].
Proof. reflexivity. Qed.

Lemma lockdown_exact_witness :
  rules_decide demo_lock demo_ready (web "198.51.100.7") = Some "ACCEPT" /\
  rules_decide demo_lock demo_ready (web "192.0.2.1") = Some "DROP" /\
  ld_active (set_active demo_lock true) = true /\
  lockdown_decides demo_locked (web "192.0.2.1") = rules_decide demo_lock demo_ready (web "192.0.2.1") /\
  (lockdown_decides demo_locked (web "192.0.2.1") = Some "DROP" <->
   from_outside (web "192.0.2.1") /\ from_set demo_ready (web "192.0.2.1") = false /\
   exists n, pk_tcp_port (web "192.0.2.1") = Some n /\ n ∈ locked_ports demo_lock /\ n ∉ exempt_ports demo_lock).
Proof.
  split; [vm_compute; reflexivity|]. split; [vm_compute; reflexivity|].
  apply lockdown_exact; [repeat constructor; lia|rewrite demo_exempt_ports; repeat constructor; lia|reflexivity|exact demo_activates].
Defined.

Lemma failed_activation_locks_nobody_witness :
  ld_active demo_lock = false /\ chain_rules (busy demo_ready) "INPUT" = Some [] /\ lockdown_decides (busy demo_ready) (web "192.0.2.1") = None.
Proof.
  apply (failed_activation_locks_nobody demo_lock (busy demo_ready) demo_lock (busy demo_ready) [] (web "192.0.2.1"));
    [vm_compute; reflexivity|apply not_elem_of_nil|reflexivity|vm_compute; reflexivity].
Defined.

Definition demo_unlocking : bool * Table := iptables input_chain_delete_args demo_locked.

Lemma deactivated_is_open_witness :
  deactivate (set_active demo_lock true) demo_locked =
    (true, set_active (set_active demo_lock true) false, (iptables ["-F"; CHAIN_NAME] demo_unlocking.2).2)
  /\ lockdown_decides (iptables ["-F"; CHAIN_NAME] demo_unlocking.2).2 (web "192.0.2.1") = None.
Proof.
  apply (deactivated_is_open (set_active demo_lock true) demo_locked demo_unlocking.2 _ true true []);
    [reflexivity|vm_compute; reflexivity|apply not_elem_of_nil|vm_compute; reflexivity|vm_compute; reflexivity|reflexivity].
Defined.

Lemma failed_deactivation_goes_on_witness :
  deactivate (set_active demo_lock true) (busy demo_locked) = (true, set_active (set_active demo_lock true) false, busy demo_locked)
  /\ views_eq (busy demo_locked) (busy demo_locked).
Proof.
  apply (failed_deactivation_goes_on (set_active demo_lock true) (busy demo_locked) (busy demo_locked));
    [reflexivity|vm_compute; reflexivity|vm_compute; reflexivity].
Defined.

Lemma uninitialised_never_activates_witness :
  (toggles demo_lock (demo_table false) [Elevated; UnderAttack; Critical]).1 = demo_lock
  /\ views_eq (demo_table false) (toggles demo_lock (demo_table false) [Elevated; UnderAttack; Critical]).2.
Proof. apply uninitialised_never_activates; reflexivity. Defined.

Lemma restart_keeps_lockdown_witness :
  (toggles (OriginLockdown_new None) (ld_init FetchFailed demo_locked) [Normal; Elevated]).1 = OriginLockdown_new None
  /\ views_eq demo_locked (toggles (OriginLockdown_new None) (ld_init FetchFailed demo_locked) [Normal; Elevated]).2.
Proof.
  apply (restart_keeps_lockdown None FetchFailed demo_locked (locked_ports demo_lock) (exempt_ports demo_lock));
    [vm_compute; reflexivity|discriminate|vm_compute; eauto|repeat constructor].
Defined.

(** An SSH port that is also a web port leaves the web port open to everybody. *)
Example exempt_port_wins :
  let l := OriginLockdown_new (Some "443") in
  lockdown_decides (activate l demo_ready).2 (web "192.0.2.1") = Some "ACCEPT".
Proof. vm_compute. reflexivity. Qed.

(** Fewer than ten networks in the answer: the fixed list is taken. *)
Example short_answer_refused : fetch_cloudflare_cidrs (Body (Some "198.51.100.7/32")) = CF_IPV4_FALLBACK.
Proof. vm_compute. reflexivity. Qed.
