(* ===== verification/ShieldIngest.v ===== *)
(** * ShieldIngest: what the shield reads of the log files (crates/shield/src/ingest.rs)

    Every poll reads each events-*.jsonl and incidents-*.jsonl file again from its
    start and skips the lines up to the offset that was reached, an offset counted
    in lengths of lines plus one; a line is an event, and an event of the network
    with an address is kept.  The parser of JSON and of times, the directory and
    the clock are arguments.

    Proved here: lines that are appended are parsed exactly once, over any number
    of polls; a line that was cut off is read again when it is complete; a line that
    is not text keeps a file from being read at all. *)

From Stdlib Require Import ZArith Lia Ascii String.
From stdpp Require Import prelude strings gmap list.
From S2P Require Import Prelude Text Json.

Local Open Scope string_scope.
Local Open Scope list_scope.
Local Open Scope Z_scope.

Record IngestEntity := { ie_entity_type : string; ie_value : string }.

Record IngestEvent := {
  ig_source : option string;
  ig_kind : option string;
  ig_source_ip : option string;
  ig_ts : option string;
  ig_timestamp : option string;
  ig_details : Json;
  ig_entities : list IngestEntity;
}.

Record NetworkEvent := {
  ne_ip : string;
  ne_timestamp : Z;
  ne_packets : Z;
  ne_bytes : Z;
  ne_is_connection : bool;
  ne_is_syn : bool;
  ne_is_syn_ack : bool;
  ne_kind : string;
  ne_source : string;
}.

Definition NETWORK_KINDS : list string :=
  ["ssh.login_failed"; "network.connection"; "network.connection_blocked"; "network.syn"; "network.syn_ack"; "ssh.bruteforce"; "port_scan";
   "credential_stuffing"; "web_scan"; "ddos.packet"; "http.request"; "dns.response"; "udp.flood"].

(** ** Reading an event off JSON *)

(** An [Option<String>]: absent and null are [None], another value is an error. *)
Definition opt_string (v : Json) (k : string) : option (option string) :=
  match get v k with None | Some JNull => Some None | Some (JStr s) => Some (Some s) | Some _ => None end.

Definition entity_of (v : Json) : option IngestEntity :=
  t ← get_str v "type"; x ← get_str v "value"; Some {| ie_entity_type := t; ie_value := x |}.

(** A missing map or list is empty. *)
Definition details_of (v : Json) : option Json :=
  match get v "details" with None => Some (JObj []) | Some (JObj o) => Some (JObj o) | Some _ => None end.
Definition entities_of (v : Json) : option (list IngestEntity) :=
  match get v "entities" with None => Some [] | Some (JArr l) => mapM entity_of l | Some _ => None end.

Definition ingest_event_of (v : Json) : option IngestEvent :=
  match v with
  | JObj _ =>
      source ← opt_string v "source"; kind ← opt_string v "kind"; source_ip ← opt_string v "source_ip"; ts ← opt_string v "ts";
      timestamp ← opt_string v "timestamp"; details ← details_of v; entities ← entities_of v;
      Some {| ig_source := source; ig_kind := kind; ig_source_ip := source_ip; ig_ts := ts; ig_timestamp := timestamp; ig_details := details;
              ig_entities := entities |}
  | _ => None
  end.

(** ** The event *)

Definition is_ip_entity (e : IngestEntity) : bool := String.eqb (ie_entity_type e) "ip".
Definition is_local (s : string) : bool := starts_with "10." s || starts_with "192.168." s || starts_with "127." s.

Definition extract_ip (event : IngestEvent) : option string :=
  let legacy := s ← ig_source_ip event; if contains "." s || contains ":" s then Some s else None in
  match legacy with
  | Some s => Some s
  | None =>
      match get_str (ig_details event) "src_ip" with
      | Some s => Some s
      | None =>
          match get_str (ig_details event) "ip" with
          | Some s => Some s
          | None =>
              match List.find (fun e => is_ip_entity e && negb (is_local (ie_value e))) (ig_entities event) with
              | Some e => Some (ie_value e)
              | None => ie_value <$> List.find is_ip_entity (ig_entities event)
              end
          end
      end
  end.

Definition network_source (s : string) : bool :=
  any (fun p => contains p s) ["network"; "firewall"; "nginx"; "ssh"; "journald"; "auth_log"].

(** [now] is the clock, read when the event has no time that can be parsed. *)
Definition parse_network_event `{Chrono} (now : Z) (event : IngestEvent) : option NetworkEvent :=
  kind ← ig_kind event;
  let is_network := any (fun k => contains k kind) NETWORK_KINDS || default false (network_source <$> ig_source event) in
  if negb is_network then None
  else
    ip ← extract_ip event;
    let ts := match ig_ts event with Some t => Some t | None => ig_timestamp event end in
    Some {| ne_ip := ip; ne_timestamp := default now (ts ≫= parse_utc);
            ne_packets := default 1 (get_u64 (ig_details event) "packets"); ne_bytes := default 100 (get_u64 (ig_details event) "bytes");
            ne_is_connection := contains "connection" kind || contains "login" kind;
            ne_is_syn := contains "syn" kind && negb (contains "syn_ack" kind); ne_is_syn_ack := contains "syn_ack" kind;
            ne_kind := kind; ne_source := default "" (ig_source event) |}.

(** ** The files *)

(** A file as the reader gives it: its lines without their ends, [None] for one that
    is not UTF-8, and its length by its metadata. *)
Record LogFile := { lf_name : string; lf_lines : list (option string); lf_len : Z }.

Record EventIngestor := { ei_offsets : gmap string Z }.
Definition EventIngestor_new : EventIngestor := {| ei_offsets := ∅ |}.

Section ingest.
Context `{Chrono} (parse_json : string -> option Json) (now : Z).

(** One line that is past the offset. *)
Definition line_event (line : string) : option NetworkEvent :=
  if String.eqb (trim line) "" then None else v ← parse_json line; e ← ingest_event_of v; parse_network_event now e.

Definition line_size (line : string) : Z := Z.of_nat (String.length line) + 1.

Definition event_list (line : string) : list NetworkEvent := match line_event line with Some e => [e] | None => [] end.

(** The loop over the lines; [None] is the error of a line that is not UTF-8. *)
Fixpoint scan_lines (offset current : Z) (lines : list (option string)) : option (list NetworkEvent * Z) :=
  match lines with
  | [] => Some ([], current)
  | None :: _ => None
  | Some line :: lines =>
      let current := current + line_size line in
      '(events, reached) ← scan_lines offset current lines;
      Some ((if current <=? offset then [] else event_list line) ++ events, reached)
  end.

Definition read_file (ei : EventIngestor) (f : LogFile) : EventIngestor * list NetworkEvent :=
  let offset := default 0 (ei_offsets ei !! lf_name f) in
  if lf_len f <=? offset then (ei, [])
  else match scan_lines offset 0 (lf_lines f) with
       | Some (events, reached) => ({| ei_offsets := <[lf_name f := reached]> (ei_offsets ei) |}, events)
       | None => (ei, [])
       end.

Definition is_log_name (name : string) : bool :=
  (starts_with "events-" name || starts_with "incidents-" name) && starts_with (rev_string ".jsonl") (rev_string name).

(** [dir] is what the directory lists, in its order. *)
Definition poll (ei : EventIngestor) (dir : list LogFile) : EventIngestor * list NetworkEvent :=
  foldl (fun acc f => if is_log_name (lf_name f) then let '(ei, events) := read_file acc.1 f in (ei, acc.2 ++ events) else acc) (ei, []) dir.
End ingest.

(** ** Every line once *)

Definition total_size (l : list string) : Z := sumZ (line_size <$> l).

Lemma line_size_pos l : 0 < line_size l.
Proof. unfold line_size. lia. Qed.

Lemma total_size_cons x l : total_size (x :: l) = line_size x + total_size l.
Proof. reflexivity. Qed.

Lemma total_size_app l k : total_size (l ++ k) = total_size l + total_size k.
Proof. unfold total_size. by rewrite fmap_app, sumZ_app. Qed.

Lemma total_size_nonneg l : 0 <= total_size l.
Proof. induction l as [|x l IH]; [done|]. rewrite total_size_cons. pose proof (line_size_pos x). lia. Qed.

Section once.
Context `{Chrono} (parse_json : string -> option Json).

Lemma scan_new now offset l : forall current,
  offset <= current ->
  scan_lines parse_json now offset current (Some <$> l) = Some (l ≫= event_list parse_json now, current + total_size l).
Proof.
  induction l as [|x l IH]; intros current Hc; [simpl; do 2 f_equal; unfold total_size; simpl; lia|].
  cbn [fmap list_fmap scan_lines]. pose proof (line_size_pos x). fold (Some <$> l). rewrite IH by lia. simpl.
  rewrite (proj2 (Z.leb_gt _ _)) by lia. rewrite total_size_cons. do 2 f_equal. lia.
Qed.

(** The lines up to the offset are skipped, those after it are new. *)
Lemma scan_split now offset l k : forall current,
  current + total_size l = offset ->
  scan_lines parse_json now offset current (Some <$> (l ++ k)) = Some (k ≫= event_list parse_json now, offset + total_size k).
Proof.
  induction l as [|x l IH]; intros current Hc.
  - assert (current = offset) as -> by (unfold total_size in Hc; simpl in Hc; lia). by apply scan_new.
  - rewrite total_size_cons in Hc. pose proof (total_size_nonneg l). rewrite fmap_app. cbn [fmap list_fmap app scan_lines].
    fold (Some <$> l). rewrite <- fmap_app. rewrite IH by lia. simpl. rewrite (proj2 (Z.leb_le _ _)) by lia. done.
Qed.

(** A file of whole lines. *)
Definition whole (name : string) (l : list string) : LogFile := {| lf_name := name; lf_lines := Some <$> l; lf_len := total_size l |}.

Lemma read_appended now ei name l k :
  default 0 (ei_offsets ei !! name) = total_size l ->
  (read_file parse_json now ei (whole name (l ++ k))).2 = k ≫= event_list parse_json now /\
  default 0 (ei_offsets (read_file parse_json now ei (whole name (l ++ k))).1 !! name) = total_size (l ++ k).
Proof.
  intros Ho. unfold read_file. simpl. rewrite Ho, total_size_app. pose proof (total_size_nonneg k).
  destruct (Z.leb_spec (total_size l + total_size k) (total_size l)).
  - assert (k = []) as ->. { destruct k as [|x k]; [done|]. rewrite total_size_cons in *. pose proof (line_size_pos x). pose proof (total_size_nonneg k). lia. }
    simpl. rewrite Ho. split; [done|]. unfold total_size. simpl. lia.
  - rewrite (scan_split now (total_size l) l k 0) by lia. simpl. rewrite lookup_insert_eq. split; [done|]. simpl. lia.
Qed.

(** A file that is read after each of several appends, at the given times. *)
Fixpoint read_growing (ei : EventIngestor) (name : string) (l : list string) (appends : list (Z * list string)) : EventIngestor * list NetworkEvent :=
  match appends with
  | [] => (ei, [])
  | (now, k) :: appends =>
      let '(ei, events) := read_file parse_json now ei (whole name (l ++ k)) in
      let '(ei, more) := read_growing ei name (l ++ k) appends in (ei, events ++ more)
  end.

(** Every line of a file is parsed exactly once, in order, when the file is read
    after each of any number of appends of whole lines. *)
Theorem lines_exactly_once name appends : forall ei l,
  default 0 (ei_offsets ei !! name) = total_size l ->
  (read_growing ei name l appends).2 = appends ≫= (fun a => a.2 ≫= event_list parse_json a.1).
Proof.
  induction appends as [|[now k] appends IH]; intros ei l Ho; [done|]. cbn [read_growing].
  destruct (read_appended now ei name l k Ho) as [He Ho']. destruct (read_file _ _ _ _) as [ei' events]. simpl in *.
  specialize (IH ei' (l ++ k) Ho'). destruct (read_growing ei' name (l ++ k) appends) as [ei2 more]. simpl in *. by rewrite He, IH.
Qed.

(** An offset that is past the start of a line and not past its end. *)
Lemma scan_longer now o c l full k : forall current,
  current + total_size l = o -> 0 <= c < line_size full ->
  scan_lines parse_json now (o + c) current (Some <$> (l ++ full :: k)) = Some ((full :: k) ≫= event_list parse_json now, o + total_size (full :: k)).
Proof.
  induction l as [|x l IH]; intros current Hcur Hc.
  - assert (current = o) as -> by (unfold total_size in Hcur; simpl in Hcur; lia).
    cbn [app fmap list_fmap scan_lines]. fold (Some <$> k). rewrite scan_new by lia. simpl. rewrite (proj2 (Z.leb_gt _ _)) by lia.
    rewrite total_size_cons. do 2 f_equal. lia.
  - rewrite total_size_cons in Hcur. pose proof (total_size_nonneg l). rewrite fmap_app. cbn [app fmap list_fmap scan_lines].
    fold (Some <$> l). fold (Some <$> k). change (Some full :: (Some <$> k)) with (Some <$> (full :: k)). rewrite <- fmap_app.
    rewrite IH by lia. simpl. rewrite (proj2 (Z.leb_le _ _)) by lia. done.
Qed.

(** A line that was read before all of it was written is read again when it is
    complete, with the lines after it, and with none before it. *)
Theorem cut_line_read_again now1 now2 ei name l cut full k :
  default 0 (ei_offsets ei !! name) = total_size l -> (0 < String.length cut)%nat -> (String.length cut < String.length full)%nat ->
  let '(ei1, events1) := read_file parse_json now1 ei {| lf_name := name; lf_lines := Some <$> (l ++ [cut]); lf_len := total_size l + Z.of_nat (String.length cut) |} in
  events1 = event_list parse_json now1 cut /\
  (read_file parse_json now2 ei1 (whole name (l ++ full :: k))).2 = event_list parse_json now2 full ++ (k ≫= event_list parse_json now2).
Proof.
  intros Ho Hc Hf. unfold read_file at 1. simpl. rewrite Ho. rewrite (proj2 (Z.leb_gt _ _)) by lia.
  rewrite (scan_split now1 (total_size l) l [cut] 0) by lia. simpl. split; [by rewrite app_nil_r|].
  unfold read_file. simpl. rewrite lookup_insert_eq. simpl.
  assert (Hs : total_size [cut] = Z.of_nat (String.length cut) + 1) by (unfold total_size, line_size; simpl; lia). rewrite Hs.
  rewrite total_size_app, total_size_cons. pose proof (total_size_nonneg k). unfold line_size at 1. rewrite (proj2 (Z.leb_gt _ _)) by lia.
  rewrite (scan_longer now2 (total_size l) _ l full k 0) by (unfold line_size; lia). done.
Qed.
End once.

#[local] Instance ingest_chrono : Chrono := { parse_utc := fun _ => None; to_rfc3339 := show; fmt_minute := show }.

(** A parser that takes a text for the address of a scan. *)
Definition demo_parse (s : string) : option Json := Some (JObj [("kind", JStr "port_scan"); ("source_ip", JStr s)]).

Lemma lines_exactly_once_witness :
  (read_growing demo_parse EventIngestor_new "events-1.jsonl" [] [(1, ["192.0.2.1"]); (2, []); (3, ["192.0.2.2"; ""; "192.0.2.3"])]).2 =
    [(1, ["192.0.2.1"]); (2, []); (3, ["192.0.2.2"; ""; "192.0.2.3"])] ≫= (fun a => a.2 ≫= event_list demo_parse a.1)
  /\ ne_ip <$> ([(1, ["192.0.2.1"]); (2, []); (3, ["192.0.2.2"; ""; "192.0.2.3"])] ≫= (fun a => a.2 ≫= event_list demo_parse a.1)) =
       ["192.0.2.1"; "192.0.2.2"; "192.0.2.3"].
Proof. split; [apply lines_exactly_once; reflexivity|vm_compute; reflexivity]. Defined.

Lemma cut_line_read_again_witness :
  let '(ei1, events1) := read_file demo_parse 1 EventIngestor_new {| lf_name := "events-1.jsonl"; lf_lines := [Some "192.0"]; lf_len := 5 |} in
  events1 = event_list demo_parse 1 "192.0" /\
  (read_file demo_parse 2 ei1 (whole "events-1.jsonl" ["192.0.2.1"; "192.0.2.2"])).2 =
    event_list demo_parse 2 "192.0.2.1" ++ (["192.0.2.2"] ≫= event_list demo_parse 2).
Proof. apply (cut_line_read_again demo_parse 1 2 EventIngestor_new "events-1.jsonl" [] "192.0" "192.0.2.1" ["192.0.2.2"]); [reflexivity|simpl; lia|simpl; lia]. Defined.

(** A line that is not UTF-8 keeps the lines before and after it from being read. *)
Example bad_line_hides_file :
  let f := {| lf_name := "events-1.jsonl"; lf_lines := [Some "192.0.2.1"; None; Some "192.0.2.2"]; lf_len := 30 |} in
  read_file demo_parse 1 EventIngestor_new f = (EventIngestor_new, []).
Proof. vm_compute. reflexivity. Qed.
