(* ===== verification/StoreKv.v ===== *)
(** * StoreKv: the namespaced key-value store (crates/store/src/kv.rs)

    The table [kv_state] is a finite map from (namespace, key), the primary
    key, to its row; each definition is the SQL statement of its method.  A
    store whose connection pool is exhausted answers every call with an
    error.  [KvStore] and [KvLaws] are what the agent's gates rely on; the
    table discharges them. *)

From Stdlib Require Import ZArith Lia String.
From stdpp Require Import prelude strings gmap list sorting.
From S2P Require Import Prelude Text.

Local Open Scope list_scope.
Local Open Scope Z_scope.

(** Wrapped library errors keep their text; the pool's has none of interest. *)
Inductive StoreError :=
| Sqlite (m : string)
| Pool
| Serde (m : string)
| Io (m : string)
| Backpressure (pending max : Z)
| DiskFull (max_bytes : Z)
| HashChainBroken (seq : Z)
| Migration (m : string)
| Other (m : string).

Record KvRow := {
  kr_value : string;
  kr_expires_at : option string;
  kr_updated_at : string;
}.

Record Store := {
  st_usable : bool;
  kv_state : gmap (string * string) KvRow;
}.

(** [self.conn()?]. *)
Definition with_conn {A} (s : Store) (r : result A StoreError) : result A StoreError :=
  if st_usable s then r else Err Pool.

Definition set_kv (s : Store) (m : gmap (string * string) KvRow) : Store :=
  if st_usable s then {| st_usable := st_usable s; kv_state := m |} else s.

Definition kv_get (s : Store) (ns key : string) : result (option string) StoreError :=
  with_conn s (Ok (kr_value <$> kv_state s !! (ns, key))).

(** [now] is the RFC 3339 text of the clock. *)
Definition kv_set_with_expiry (s : Store) (now ns key value : string) (expires_at : option string)
  : Store * result unit StoreError :=
  (set_kv s (<[(ns, key) := {| kr_value := value; kr_expires_at := expires_at; kr_updated_at := now |}]>
               (kv_state s)),
   with_conn s (Ok ())).

Definition kv_set (s : Store) (now ns key value : string) : Store * result unit StoreError :=
  kv_set_with_expiry s now ns key value None.

Definition kv_delete (s : Store) (ns key : string) : Store * result bool StoreError :=
  (set_kv s (delete (ns, key) (kv_state s)),
   with_conn s (Ok (bool_decide (is_Some (kv_state s !! (ns, key)))))).

(** The rows of a namespace, in no particular order. *)
Definition ns_rows (s : Store) (ns : string) : list (string * KvRow) :=
  omap (fun kv => if String.eqb kv.1.1 ns then Some (kv.1.2, kv.2) else None) (map_to_list (kv_state s)).

Definition key_le (a b : string * KvRow) : Prop := str_le a.1 b.1.
Definition updated_le (a b : string * KvRow) : Prop := str_le (kr_updated_at a.2) (kr_updated_at b.2).
#[export] Instance key_le_dec a b : Decision (key_le a b).
Proof. unfold key_le. apply _. Defined.
#[export] Instance updated_le_dec a b : Decision (updated_le a b).
Proof. unfold updated_le. apply _. Defined.

Definition kv_list (s : Store) (ns : string) : result (list (string * string)) StoreError :=
  with_conn s (Ok ((fun kr => (kr.1, kr_value kr.2)) <$> merge_sort key_le (ns_rows s ns))).

Definition kv_count (s : Store) (ns : string) : result Z StoreError :=
  with_conn s (Ok (Z.of_nat (length (ns_rows s ns)))).

Definition kv_clear (s : Store) (ns : string) : Store * result Z StoreError :=
  (set_kv s (filter (fun kv => kv.1.1 <> ns) (kv_state s)),
   with_conn s (Ok (Z.of_nat (length (ns_rows s ns))))).

(** [expires_at IS NOT NULL AND expires_at < now]. *)
Definition is_expired (now : string) (r : KvRow) : bool :=
  match kr_expires_at r with Some e => str_ltb e now | None => false end.

Definition kv_cleanup_expired (s : Store) (now : string) : Store * result Z StoreError :=
  (set_kv s (filter (fun kv => is_expired now kv.2 = false) (kv_state s)),
   with_conn s (Ok (Z.of_nat (size (filter (fun kv => is_expired now kv.2 = true) (kv_state s)))))).

(** [ORDER BY updated_at ASC LIMIT n]; the order of equal instants is the
    engine's. *)
Definition oldest (s : Store) (ns : string) (n : nat) : list (string * KvRow) :=
  take n (merge_sort updated_le (ns_rows s ns)).

Definition kv_trim (s : Store) (ns : string) (max_entries : Z) : Store * result Z StoreError :=
  match kv_count s ns with
  | Err e => (s, Err e)
  | Ok count =>
      if count <=? max_entries then (s, Ok 0)
      else
        let doomed := (oldest s ns (Z.to_nat (count - max_entries))).*1 in
        (set_kv s (filter (fun kv => ~ (kv.1.1 = ns /\ kv.1.2 ∈ doomed)) (kv_state s)),
         with_conn s (Ok (Z.of_nat (length doomed))))
  end.

(** ** The interface the agent's gates use *)

Class KvStore (S : Type) := {
  kvi_get : S -> string -> string -> result (option string) StoreError;
  kvi_set : S -> string -> string -> string -> string -> option string -> S * result unit StoreError;
  kvi_delete : S -> string -> string -> S * result bool StoreError;
}.

(** What a working store promises; [kv_ok] is preserved by its operations. *)
Class KvLaws (S : Type) `{KvStore S} := {
  kv_ok : S -> Prop;
  kvi_get_ok : forall s ns k, kv_ok s -> exists o, kvi_get s ns k = Ok o;
  kvi_set_ok : forall s now ns k v e, kv_ok s -> kv_ok (kvi_set s now ns k v e).1;
  kvi_delete_ok : forall s ns k, kv_ok s -> kv_ok (kvi_delete s ns k).1;
  kvi_get_set : forall s now ns k v e ns' k', kv_ok s ->
    kvi_get (kvi_set s now ns k v e).1 ns' k' =
    if bool_decide ((ns', k') = (ns, k)) then Ok (Some v) else kvi_get s ns' k';
  kvi_get_delete : forall s ns k ns' k', kv_ok s ->
    kvi_get (kvi_delete s ns k).1 ns' k' =
    if bool_decide ((ns', k') = (ns, k)) then Ok None else kvi_get s ns' k';
}.

#[export] Instance Store_kv : KvStore Store := {|
  kvi_get := kv_get;
  kvi_set := kv_set_with_expiry;
  kvi_delete := kv_delete;
|}.

#[export] Program Instance Store_kv_laws : KvLaws Store := {|
  kv_ok := fun s => st_usable s = true;
|}.
Next Obligation. intros s ns k Hs. simpl. unfold kv_get, with_conn. rewrite Hs. eauto. Qed.
Next Obligation. intros s now ns k v e Hs. simpl. unfold set_kv. by rewrite Hs. Qed.
Next Obligation. intros s ns k Hs. simpl. unfold set_kv. by rewrite Hs. Qed.
Next Obligation.
  intros s now ns k v e ns' k' Hs. cbn [kvi_get kvi_set Store_kv].
  unfold kv_get, kv_set_with_expiry, set_kv, with_conn. rewrite Hs. cbn [fst st_usable kv_state]. rewrite ?Hs.
  case_bool_decide as E; [by rewrite E, lookup_insert_eq|by rewrite lookup_insert_ne].
Qed.
Next Obligation.
  intros s ns k ns' k' Hs. cbn [kvi_get kvi_delete Store_kv].
  unfold kv_get, kv_delete, set_kv, with_conn. rewrite Hs. cbn [fst st_usable kv_state]. rewrite ?Hs.
  case_bool_decide as E; [by rewrite E, lookup_delete_eq|by rewrite lookup_delete_ne].
Qed.

(** [kv_get_str]: the value as text. *)
Definition kv_get_str {S : Type} `{KvStore S} (s : S) (ns key : string) : result (option string) StoreError :=
  match kvi_get s ns key with
  | Ok (Some b) => Ok (Some (from_utf8_lossy b))
  | Ok None => Ok None
  | Err e => Err e
  end.

(** [.ok().flatten()] of a read. *)
Definition read_opt {A} (r : result (option A) StoreError) : option A :=
  match r with Ok o => o | Err _ => None end.

(** ** Trimming and expiry *)

Section rows.
Context (s : Store) (ns : string).

Lemma ns_rows_elem k r : (k, r) ∈ ns_rows s ns <-> kv_state s !! (ns, k) = Some r.
Proof.
  unfold ns_rows. rewrite list_elem_of_omap. split.
  - intros ([[n k'] r'] & Hin & H). simpl in H. apply elem_of_map_to_list in Hin.
    destruct (String.eqb_spec n ns); simplify_eq. done.
  - intros H. exists ((ns, k), r). simpl. rewrite String.eqb_refl. split; [|done].
    by apply elem_of_map_to_list.
Qed.

Lemma ns_rows_NoDup : NoDup ((ns_rows s ns).*1).
Proof.
  unfold ns_rows. pose proof (NoDup_fst_map_to_list (kv_state s)) as H.
  induction (map_to_list (kv_state s)) as [|[[n k] r] l IH]; [constructor|].
  rewrite fmap_cons, NoDup_cons in H. destruct H as [Hn Hl]. simpl.
  destruct (String.eqb_spec n ns) as [->|]; [|auto]. rewrite fmap_cons. constructor; [|auto].
  intros H. apply list_elem_of_fmap in H as ([k' r'] & Hk & Hin). simpl in Hk. subst k'.
  apply list_elem_of_omap in Hin as ([[n' k''] r''] & Hin & E). simpl in E.
  destruct (String.eqb_spec n' ns); simplify_eq. destruct Hn.
  apply list_elem_of_fmap. by exists ((ns, k), r').
Qed.
End rows.

#[export] Instance updated_le_trans : Transitive updated_le.
Proof. intros x y z. unfold updated_le. apply transitivity. Qed.
#[export] Instance updated_le_total : Total updated_le.
Proof. intros x y. unfold updated_le. apply (total str_le). Qed.

Lemma take_drop_sorted {A} (R : A -> A -> Prop) n l x y :
  StronglySorted R l -> x ∈ take n l -> y ∈ drop n l -> R x y.
Proof.
  intros Hs Hx Hy. rewrite <- (take_drop n l) in Hs.
  eapply StronglySorted_app_1_elem_of; eauto.
Qed.

(** A row survives [kv_trim] exactly when it is not among the oldest. *)
Lemma kv_trim_lookup s ns max n k r :
  st_usable s = true -> max < Z.of_nat (length (ns_rows s ns)) ->
  kv_state (kv_trim s ns max).1 !! (n, k) = Some r <->
  kv_state s !! (n, k) = Some r /\
  ~ (n = ns /\ k ∈ (oldest s ns (Z.to_nat (Z.of_nat (length (ns_rows s ns)) - max))).*1).
Proof.
  intros Hs Hlt. unfold kv_trim, kv_count, with_conn. rewrite Hs.
  rewrite (proj2 (Z.leb_gt _ _)) by lia. unfold set_kv. rewrite Hs. cbn [fst kv_state].
  rewrite map_lookup_filter_Some. done.
Qed.

Section trim.
Context (s : Store) (ns : string) (n : nat).

Let sorted := merge_sort updated_le (ns_rows s ns).

Lemma sorted_perm : sorted ≡ₚ ns_rows s ns.
Proof. apply merge_sort_Permutation. Qed.

Lemma oldest_keys_elem k r :
  kv_state s !! (ns, k) = Some r -> k ∈ (oldest s ns n).*1 -> (k, r) ∈ take n sorted.
Proof.
  intros Hr ([k' r'] & E & Hin)%list_elem_of_fmap. simpl in E. subst k'.
  assert ((k, r') ∈ ns_rows s ns) as Hin'.
  { rewrite <- sorted_perm. eapply elem_of_take in Hin as (i & Hi & _). by eapply list_elem_of_lookup_2. }
  apply ns_rows_elem in Hin'. rewrite Hr in Hin'. by simplify_eq.
Qed.

Lemma not_oldest_elem k r :
  kv_state s !! (ns, k) = Some r -> k ∉ (oldest s ns n).*1 -> (k, r) ∈ drop n sorted.
Proof.
  intros Hr Hn. apply ns_rows_elem in Hr. rewrite <- sorted_perm in Hr.
  rewrite <- (take_drop n sorted) in Hr. apply elem_of_app in Hr as [Hr|Hr]; [|done].
  destruct Hn. apply list_elem_of_fmap. by exists (k, r).
Qed.

(** The rows that stay, as keys. *)
Lemma kept_count :
  length (retain (fun kr => negb (bool_decide (kr.1 ∈ (oldest s ns n).*1))) (ns_rows s ns)) =
  (length (ns_rows s ns) - n)%nat.
Proof.
  transitivity (length (drop n sorted)); [|by rewrite length_drop, sorted_perm].
  assert (Hnd : NoDup sorted.*1) by (rewrite sorted_perm; apply ns_rows_NoDup).
  rewrite <- sorted_perm. rewrite <- (take_drop n sorted) at 1.
  unfold retain. rewrite List.filter_app, length_app.
  rewrite <- (take_drop n sorted), fmap_app, NoDup_app in Hnd. destruct Hnd as (_ & Hd & _).
  change (List.filter ?p ?l) with (retain p l).
  rewrite (list_filter_none _ (take n sorted)), retain_all; [done| |].
  - apply Forall_forall. intros [k r] Hin. apply negb_true_iff, bool_decide_eq_false. simpl.
    intros Hk. apply (Hd k Hk). apply list_elem_of_fmap. by exists (k, r).
  - intros [k r] Hin. apply negb_false_iff, bool_decide_eq_true. apply list_elem_of_fmap. by exists (k, r).
Qed.
End trim.

Lemma ns_rows_pairs_NoDup s ns : NoDup (ns_rows s ns).
Proof. eapply NoDup_fmap_1, ns_rows_NoDup. Qed.

Lemma kv_trim_rows s ns max :
  st_usable s = true -> max < Z.of_nat (length (ns_rows s ns)) ->
  ns_rows (kv_trim s ns max).1 ns ≡ₚ
  retain (fun kr => negb (bool_decide (kr.1 ∈
    (oldest s ns (Z.to_nat (Z.of_nat (length (ns_rows s ns)) - max))).*1))) (ns_rows s ns).
Proof.
  intros Hs Hlt. apply NoDup_Permutation.
  - apply ns_rows_pairs_NoDup.
  - apply retain_NoDup, ns_rows_pairs_NoDup.
  - intros [k r]. rewrite ns_rows_elem, kv_trim_lookup, retain_elem, ns_rows_elem by done.
    rewrite negb_true_iff, bool_decide_eq_false. naive_solver.
Qed.

(** kv_trim leaves at most the requested number of entries in the
    namespace, deletes none when there are few enough, never deletes an entry
    updated later than one it keeps, leaves every other namespace as it was
    and returns the number it deleted. *)
Theorem kv_trim_keeps_recent s ns max :
  st_usable s = true -> 0 <= max ->
  let s' := (kv_trim s ns max).1 in
  let count := Z.of_nat (length (ns_rows s ns)) in
  Z.of_nat (length (ns_rows s' ns)) = Z.min count max /\
  (kv_trim s ns max).2 = Ok (Z.max 0 (count - max)) /\
  (forall k r, kv_state s' !! (ns, k) = Some r -> kv_state s !! (ns, k) = Some r) /\
  (forall n k, n <> ns -> kv_state s' !! (n, k) = kv_state s !! (n, k)) /\
  (forall k r k' r', kv_state s !! (ns, k) = Some r -> kv_state s' !! (ns, k) = None ->
     kv_state s' !! (ns, k') = Some r' -> str_le (kr_updated_at r) (kr_updated_at r')).
Proof.
  intros Hs Hmax s' count. destruct (Z.le_gt_cases count max) as [Hle|Hgt].
  - assert (kv_trim s ns max = (s, Ok 0)) as E.
    { unfold kv_trim, kv_count, with_conn. rewrite Hs. fold count. by rewrite (proj2 (Z.leb_le _ _)). }
    unfold s'. rewrite E. simpl. split_and!; [lia|f_equal; lia|done|done|congruence].
  - assert (Hlook := kv_trim_lookup s ns max). fold s' count in Hlook.
    set (n := Z.to_nat (count - max)) in *. split_and!.
    + unfold s'. rewrite kv_trim_rows by done. rewrite kept_count. lia.
    + unfold kv_trim, kv_count, with_conn. rewrite Hs. fold count.
      rewrite (proj2 (Z.leb_gt _ _)) by lia. cbn [snd]. f_equal.
      rewrite length_fmap. unfold oldest. rewrite length_take, merge_sort_Permutation. lia.
    + intros k r H. by apply Hlook in H as [? _].
    + intros m k Hm. apply option_eq. intros r. rewrite Hlook by done. naive_solver.
    + intros k r k' r' Hk Hgone Hkeep.
      apply Hlook in Hkeep as [Hk' Hnot]; [|done..].
      assert (k ∈ (oldest s ns n).*1) as Hold.
      { destruct (decide (k ∈ (oldest s ns n).*1)) as [|Hn]; [done|].
        assert (kv_state s' !! (ns, k) = Some r) as E; [|congruence]. apply Hlook; naive_solver. }
      apply (take_drop_sorted updated_le n (merge_sort updated_le (ns_rows s ns)) (k, r) (k', r')).
      * apply StronglySorted_merge_sort; apply _.
      * by apply oldest_keys_elem.
      * apply not_oldest_elem; naive_solver.
Qed.

(** The table keeps what it is given: after a set the key reads back as
    the value, after a delete or a clear of its namespace it reads as absent,
    and no other key changes; a value whose expiry has passed is still
    returned until a cleanup, which removes exactly the expired entries. *)
Theorem kv_roundtrip s now ns k v e n' k' :
  st_usable s = true ->
  kv_get (kv_set_with_expiry s now ns k v e).1 n' k' =
    (if bool_decide ((n', k') = (ns, k)) then Ok (Some v) else kv_get s n' k') /\
  kv_get (kv_delete s ns k).1 n' k' =
    (if bool_decide ((n', k') = (ns, k)) then Ok None else kv_get s n' k') /\
  kv_get (kv_clear s ns).1 n' k' = (if bool_decide (n' = ns) then Ok None else kv_get s n' k') /\
  kv_get (kv_cleanup_expired s now).1 n' k' =
    match kv_state s !! (n', k') with
    | Some r => if is_expired now r then Ok None else Ok (Some (kr_value r))
    | None => Ok None
    end.
Proof.
  intros Hs. split_and!.
  - pose proof (kvi_get_set s now ns k v e n' k' Hs) as H. cbn [kvi_get kvi_set Store_kv] in H.
    rewrite H. by repeat case_bool_decide.
  - pose proof (kvi_get_delete s ns k n' k' Hs) as H. cbn [kvi_get kvi_delete Store_kv] in H.
    rewrite H. by repeat case_bool_decide.
  - unfold kv_clear, kv_get, with_conn, set_kv. rewrite Hs. cbn [fst st_usable kv_state]. rewrite map_lookup_filter.
    destruct (kv_state s !! (n', k')) as [r|]; simpl; [|by case_bool_decide].
    case_bool_decide as E; [rewrite option_guard_False|rewrite option_guard_True]; auto.
  - unfold kv_cleanup_expired, kv_get, with_conn, set_kv. rewrite Hs. cbn [fst st_usable kv_state].
    rewrite map_lookup_filter. destruct (kv_state s !! (n', k')) as [r|]; simpl; [|done].
    destruct (is_expired now r) eqn:E; [rewrite option_guard_False|rewrite option_guard_True]; simpl; congruence.
Qed.

(** ** Witnesses *)

Definition demo_store : Store := {|
  st_usable := true;
  kv_state := {[("a", "x") := {| kr_value := "1"; kr_expires_at := None; kr_updated_at := "2026-01-02" |};
                ("a", "y") := {| kr_value := "2"; kr_expires_at := None; kr_updated_at := "2026-01-01" |}]} |}.

Lemma kv_trim_keeps_recent_witness :
  Z.of_nat (length (ns_rows (kv_trim demo_store "a" 1).1 "a")) = 1 /\
  kv_get (kv_trim demo_store "a" 1).1 "a" "x" = Ok (Some "1"%string).
Proof.
  destruct (kv_trim_keeps_recent demo_store "a" 1) as [H _]; [reflexivity|lia|].
  split; [rewrite H; reflexivity|reflexivity].
Defined.

Lemma kv_roundtrip_witness :
  kv_get (kv_set_with_expiry demo_store "t" "a" "z" "9" None).1 "a" "z" = Ok (Some "9"%string).
Proof.
  destruct (kv_roundtrip demo_store "t" "a" "z" "9" None "a" "z" eq_refl) as [H _].
  rewrite H. reflexivity.
Defined.
