(* ===== verification/StoreDecisions.v ===== *)
(** * StoreDecisions: the decision audit trail and its hash chain
    (crates/store/src/decisions.rs, the decision part of maintenance.rs)

    The table [decisions] is the list of its rows in id order; each definition
    is the SQL statement of its method.  SHA-256 in hexadecimal is an
    argument.  An exhausted connection pool makes every method fail. *)

From Stdlib Require Import ZArith Lia String SpecFloat.
From stdpp Require Import prelude strings list sorting.
From S2P Require Import Prelude Text Floats StoreKv.

Local Open Scope string_scope.
Local Open Scope list_scope.
Local Open Scope Z_scope.

Record DecisionRow := {
  dr_ts : string;
  dr_incident_id : string;
  dr_action_type : string;
  dr_target_ip : option string;
  dr_target_user : option string;
  dr_confidence : float;
  dr_auto_executed : bool;
  dr_reason : option string;
  dr_data : string;
}.

(** A row of the table. *)
Record Row := {
  r_id : Z;
  r_ts : string;
  r_incident_id : string;
  r_action_type : string;
  r_target_ip : option string;
  r_target_user : option string;
  r_confidence : option float;
  r_auto_executed : bool;
  r_reason : option string;
  r_prev_hash : option string;
  r_row_hash : string;
  r_data : string;
}.

Record DecisionAuditRecord := {
  ar_id : Z;
  ar_ts : string;
  ar_incident_id : string;
  ar_action_type : string;
  ar_target_ip : option string;
  ar_target_user : option string;
  ar_confidence : option float;
  ar_auto_executed : bool;
  ar_reason : option string;
  ar_prev_hash : option string;
  ar_row_hash : string;
}.

Record HashChainResult := {
  hc_verified : Z;
  hc_broken_at : option Z;
  hc_intact : bool;
  hc_documented_breaks : Z;
}.

Record ChainBreakRecord := {
  cb_id : Z;
  cb_rowid_start : Z;
  cb_rowid_end : Z;
  cb_registered_at : string;
  cb_operator : string;
  cb_reason : string;
  cb_prev_chain_end_hash : option string;
}.

Record ShapeDismissalStats := {
  sd_genuine_dismissals : Z;
  sd_actioned : Z;
}.

Record Db := {
  db_usable : bool;
  decisions : list Row;
  chain_break_audit : list ChainBreakRecord;
}.

Definition db_conn {A} (db : Db) (r : result A StoreError) : result A StoreError :=
  if db_usable db then r else Err Pool.

Definition with_rows (db : Db) (rows : list Row) : Db :=
  {| db_usable := db_usable db; decisions := rows; chain_break_audit := chain_break_audit db |}.

Section store.
Context (sha256_hex : string -> string).

Definition compute_hash (prev_hash : option string) (data : string) : string :=
  sha256_hex (default "" prev_hash +:+ data).

(** The rowid SQLite picks: one more than the largest. *)
Definition next_id {A} (id : A -> Z) (rows : list A) : Z :=
  match last rows with Some r => id r + 1 | None => 1 end.

Definition last_decision_hash (db : Db) : result (option string) StoreError :=
  db_conn db (Ok (r_row_hash <$> last (decisions db))).

Definition chained_row (db : Db) (row : DecisionRow) : Row :=
  let prev_hash := r_row_hash <$> last (decisions db) in
  {| r_id := next_id r_id (decisions db); r_ts := dr_ts row; r_incident_id := dr_incident_id row;
     r_action_type := dr_action_type row; r_target_ip := dr_target_ip row;
     r_target_user := dr_target_user row;
     r_confidence := if is_nan (dr_confidence row) then None else Some (dr_confidence row);
     r_auto_executed := dr_auto_executed row; r_reason := dr_reason row;
     r_prev_hash := prev_hash; r_row_hash := compute_hash prev_hash (dr_data row);
     r_data := dr_data row |}.

Definition insert_decision (db : Db) (row : DecisionRow) : Db * result Z StoreError :=
  if db_usable db then
    let r := chained_row db row in (with_rows db (decisions db ++ [r]), Ok (r_id r))
  else (db, Err Pool).

Definition in_break (breaks : list (Z * Z)) (id : Z) : bool :=
  any (fun se => (se.1 <=? id) && (id <=? se.2)) breaks.

(** The verification loop, from the running state. *)
Fixpoint verify_rows (breaks : list (Z * Z)) (prev_computed : option string)
    (verified documented : Z) (rows : list Row) : HashChainResult :=
  match rows with
  | [] => {| hc_verified := verified; hc_broken_at := None; hc_intact := true;
             hc_documented_breaks := documented |}
  | r :: rest =>
      let broken := {| hc_verified := verified; hc_broken_at := Some (r_id r); hc_intact := false;
                       hc_documented_breaks := documented |} in
      if in_break breaks (r_id r) then
        verify_rows breaks (Some (r_row_hash r)) verified (documented + 1) rest
      else if negb (bool_decide (r_prev_hash r = prev_computed)) then broken
      else if negb (String.eqb (r_row_hash r) (compute_hash prev_computed (r_data r))) then broken
      else verify_rows breaks (Some (r_row_hash r)) (verified + 1) documented rest
  end.

(** The order of the break ranges does not matter to [in_break]. *)
Definition break_ranges (db : Db) : list (Z * Z) :=
  (fun b => (cb_rowid_start b, cb_rowid_end b)) <$> chain_break_audit db.

Definition verify_hash_chain (db : Db) : result HashChainResult StoreError :=
  db_conn db (Ok (verify_rows (break_ranges db) None 0 0 (decisions db))).

Definition register_chain_break (db : Db) (now : string) (rowid_start rowid_end : Z)
    (operator reason : string) (prev_chain_end_hash : option string) : Db * result Z StoreError :=
  if rowid_end <? rowid_start then 
    (db, Err (Other ("invalid range: rowid_end=" +:+ show_int rowid_end +:+
                     " < rowid_start=" +:+ show_int rowid_start)))
  else if db_usable db then
    let id := next_id cb_id (chain_break_audit db) in
    ({| db_usable := db_usable db; decisions := decisions db;
        chain_break_audit := chain_break_audit db ++
          [{| cb_id := id; cb_rowid_start := rowid_start; cb_rowid_end := rowid_end;
              cb_registered_at := now; cb_operator := operator; cb_reason := reason;
              cb_prev_chain_end_hash := prev_chain_end_hash |}] |}, Ok id)
  else (db, Err Pool).

Definition list_chain_breaks (db : Db) : result (list ChainBreakRecord) StoreError :=
  db_conn db (Ok (chain_break_audit db)).

Definition map_row (r : Row) : DecisionAuditRecord := {|
  ar_id := r_id r; ar_ts := r_ts r; ar_incident_id := r_incident_id r; ar_action_type := r_action_type r;
  ar_target_ip := r_target_ip r; ar_target_user := r_target_user r; ar_confidence := r_confidence r;
  ar_auto_executed := r_auto_executed r; ar_reason := r_reason r; ar_prev_hash := r_prev_hash r;
  ar_row_hash := r_row_hash r |}.

Definition i64_max : Z := 2 ^ 63 - 1.

(** [LIMIT n] of a statement: a negative bound is no bound. *)
Definition sql_limit {A} (n : Z) (l : list A) : list A := if n <? 0 then l else take (Z.to_nat n) l.

(** [limit as i64] of a [usize]. *)
Definition usize_as_i64 (n : Z) : Z := as_signed 64 (wrap 64 n).

Definition audit_trail (db : Db) (before_id : option Z) (limit : Z) (action_filter : option string)
  : result (list DecisionAuditRecord) StoreError :=
  let limit := Z.max 1 (Z.min limit 500) in
  let before := default i64_max before_id in
  let action_pat := match action_filter with
                    | Some s => if String.eqb (trim s) "" then None else Some (trim s)
                    | None => None
                    end in
  db_conn db (Ok (map_row <$> sql_limit limit (reverse
    (retain (fun r => (r_id r <? before) &&
                      match action_pat with Some a => String.eqb (r_action_type r) a | None => true end)
            (decisions db))))).

Definition decision_by_id (db : Db) (id : Z) : result (option DecisionAuditRecord) StoreError :=
  db_conn db (Ok (map_row <$> head (retain (fun r => r_id r =? id) (decisions db)))).

Definition decisions_since (db : Db) (after_id limit : Z) : result (list (Z * string)) StoreError :=
  db_conn db (Ok ((fun r => (r_id r, r_data r)) <$>
    sql_limit (usize_as_i64 limit) (retain (fun r => after_id <? r_id r) (decisions db)))).

Definition decisions_for_incident (db : Db) (incident_id : string) : result (list string) StoreError :=
  db_conn db (Ok (r_data <$> retain (fun r => String.eqb (r_incident_id r) incident_id) (decisions db))).

Definition has_decision_for_incident (db : Db) (incident_id : string) : result bool StoreError :=
  db_conn db (Ok (any (fun r => String.eqb (r_incident_id r) incident_id) (decisions db))).

Definition decisions_count (db : Db) : result Z StoreError :=
  db_conn db (Ok (Z.of_nat (length (decisions db)))).

Definition decisions_for_date (db : Db) (date : string) (limit : Z)
  : result (list (string * string * string)) StoreError :=
  db_conn db (Ok ((fun r => (r_ts r, r_incident_id r, r_data r)) <$>
    sql_limit (usize_as_i64 limit) (retain (fun r => like (date +:+ "%") (r_ts r)) (decisions db)))).

Definition block_ip_decisions_for_date (db : Db) (date : string)
  : result (list (string * string * string * string)) StoreError :=
  db_conn db (Ok ((fun r => (r_ts r, default "" (r_target_ip r), r_incident_id r, r_data r)) <$>
    retain (fun r => String.eqb (r_action_type r) "block_ip" && like (date +:+ "%") (r_ts r)) (decisions db))).

(** A double quote, for the text searched inside the JSON. *)
Definition quote : string := String (Ascii.ascii_of_nat 34) "".
Definition provider_pattern (p : string) : string :=
  "%" +:+ quote +:+ "ai_provider" +:+ quote +:+ ":" +:+ quote +:+ p +:+ quote +:+ "%".

Definition shape_dismissal_stats (db : Db) (detector_prefix target_ip : string)
    (excluded_providers actioned_types : list string) : result ShapeDismissalStats StoreError :=
  let on_shape r := bool_decide (r_target_ip r = Some target_ip) &&
                    like (detector_prefix +:+ ":%") (r_incident_id r) in
  db_conn db (Ok {|
    sd_genuine_dismissals := Z.of_nat (length (retain (fun r =>
      on_shape r && String.eqb (r_action_type r) "dismiss" &&
      forallb (fun p => negb (like (provider_pattern p) (r_data r))) excluded_providers) (decisions db)));
    sd_actioned := Z.of_nat (length (retain (fun r =>
      on_shape r && mem_str (r_action_type r) actioned_types) (decisions db))) |}).

(** The decision part of [run_retention]; [cutoff] is the RFC 3339 text of the
    clock less [decisions_days]. *)
Definition retention_decisions (db : Db) (decisions_days : Z) (cutoff : string) : Db * result Z StoreError :=
  if 0 <? decisions_days then
    if db_usable db then
      (with_rows db (retain (fun r => negb (str_ltb (r_ts r) cutoff)) (decisions db)),
       Ok (Z.of_nat (length (retain (fun r => str_ltb (r_ts r) cutoff) (decisions db)))))
    else (db, Err Pool)
  else (db, Ok 0).
End store.

(** ** The chain *)

Section chain.
Context (sha256_hex : string -> string).
Notation compute_hash := (compute_hash sha256_hex).
Notation verify_rows := (verify_rows sha256_hex).

(** A row the verifier accepts after a row whose hash is [prev]. *)
Definition row_ok (breaks : list (Z * Z)) (prev : option string) (r : Row) : Prop :=
  in_break breaks (r_id r) = true \/
  (r_prev_hash r = prev /\ r_row_hash r = compute_hash prev (r_data r)).

Fixpoint rows_ok (breaks : list (Z * Z)) (prev : option string) (rows : list Row) : Prop :=
  match rows with
  | [] => True
  | r :: rest => row_ok breaks prev r /\ rows_ok breaks (Some (r_row_hash r)) rest
  end.

Definition head_hash (prev : option string) (rows : list Row) : option string :=
  match last rows with Some r => Some (r_row_hash r) | None => prev end.

Lemma rows_ok_app breaks prev l k :
  rows_ok breaks prev (l ++ k) <-> rows_ok breaks prev l /\ rows_ok breaks (head_hash prev l) k.
Proof.
  revert prev. induction l as [|r l IH]; intros prev; [simpl; unfold head_hash; simpl; naive_solver|].
  cbn [app rows_ok]. rewrite IH. unfold head_hash. rewrite last_cons. destruct (last l); naive_solver.
Qed.

Lemma row_ok_dec breaks prev r : {row_ok breaks prev r} + {~ row_ok breaks prev r}.
Proof. unfold row_ok. apply (decide (_ \/ _)). Defined.

(** One step of the loop. *)
Lemma verify_rows_cons breaks prev v d r rows :
  verify_rows breaks prev v d (r :: rows) =
  if row_ok_dec breaks prev r then
    verify_rows breaks (Some (r_row_hash r))
      (v + if in_break breaks (r_id r) then 0 else 1) (d + if in_break breaks (r_id r) then 1 else 0) rows
  else {| hc_verified := v; hc_broken_at := Some (r_id r); hc_intact := false; hc_documented_breaks := d |}.
Proof.
  cbn [StoreDecisions.verify_rows].
  destruct (row_ok_dec breaks prev r) as [Hok|Hbad].
  - destruct (in_break breaks (r_id r)) eqn:E; [by rewrite Z.add_0_r|].
    destruct Hok as [?|[Hp Hh]]; [congruence|].
    rewrite bool_decide_true, Hh, String.eqb_refl by done. cbn [negb]. by rewrite Z.add_0_r.
  - destruct (in_break breaks (r_id r)) eqn:E; [by destruct Hbad; left|].
    case_bool_decide; [|done]. destruct (String.eqb_spec (r_row_hash r) (compute_hash prev (r_data r))); [|done].
    destruct Hbad. by right.
Qed.

(** The verifier reports the first row that is not acceptable, if any. *)
Lemma verify_rows_spec breaks : forall rows prev v d,
  let res := verify_rows breaks prev v d rows in
  (hc_intact res = true /\ hc_broken_at res = None /\ rows_ok breaks prev rows /\
   hc_verified res + hc_documented_breaks res = v + d + Z.of_nat (length rows)) \/
  (exists l r k, rows = l ++ r :: k /\ rows_ok breaks prev l /\ ~ row_ok breaks (head_hash prev l) r /\
     hc_intact res = false /\ hc_broken_at res = Some (r_id r)).
Proof.
  induction rows as [|r rows IH]; intros prev v d; cbv zeta.
  - left. simpl. split_and!; [done..|lia].
  - rewrite verify_rows_cons. destruct (row_ok_dec breaks prev r) as [Hok|Hbad].
    + destruct (IH (Some (r_row_hash r)) (v + if in_break breaks (r_id r) then 0 else 1)
                  (d + if in_break breaks (r_id r) then 1 else 0))
        as [(H1 & H2 & H3 & H4)|(l & r' & k & -> & H2 & H3 & H4 & H5)].
      * left. split_and!; [done|done|done|]. rewrite H4. simpl. case_match; lia.
      * right. exists (r :: l), r', k. split_and!; try done.
        unfold head_hash in *. rewrite last_cons. by destruct (last l).
    + right. exists [], r, rows. split_and!; done.
Qed.

Lemma verify_rows_intact breaks rows prev v d :
  rows_ok breaks prev rows -> hc_intact (verify_rows breaks prev v d rows) = true.
Proof.
  intros Hok. destruct (verify_rows_spec breaks rows prev v d) as [[? _]|(l & r & k & -> & _ & Hbad & _)]; [done|].
  apply rows_ok_app in Hok as (_ & Hr & _). done.
Qed.

Lemma verify_rows_intact_inv breaks rows prev v d :
  hc_intact (verify_rows breaks prev v d rows) = true -> rows_ok breaks prev rows.
Proof.
  intros Hi. destruct (verify_rows_spec breaks rows prev v d) as [(_ & _ & ? & _)|(l & r & k & _ & _ & _ & Hf & _)];
    [done|congruence].
Qed.

Lemma verify_hash_chain_ok db res :
  verify_hash_chain sha256_hex db = Ok res ->
  db_usable db = true /\ res = verify_rows (break_ranges db) None 0 0 (decisions db).
Proof. unfold verify_hash_chain, db_conn. case_match; intros; by simplify_eq. Qed.

(** C6. Appending through insert_decision keeps an intact chain intact, with
    or without registered breaks, and the verifier accounts for exactly one
    more row. *)
Theorem insert_keeps_chain db row res :
  verify_hash_chain sha256_hex db = Ok res -> hc_intact res = true ->
  exists res', verify_hash_chain sha256_hex (insert_decision sha256_hex db row).1 = Ok res' /\
    hc_intact res' = true /\ hc_broken_at res' = None /\
    hc_verified res' + hc_documented_breaks res' = hc_verified res + hc_documented_breaks res + 1.
Proof.
  intros [Hu ->]%verify_hash_chain_ok Hi. pose proof (verify_rows_intact_inv _ _ _ _ _ Hi) as Hok.
  unfold insert_decision, verify_hash_chain, db_conn. rewrite Hu. cbn [fst with_rows db_usable]. rewrite Hu.
  eexists. split; [done|]. change (break_ranges (with_rows _ _)) with (break_ranges db).
  cbn [with_rows decisions].
  assert (rows_ok (break_ranges db) None (decisions db ++ [chained_row sha256_hex db row])) as Hok'.
  { apply rows_ok_app. split; [done|]. simpl. split; [|done]. right. simpl.
    unfold head_hash. by destruct (last (decisions db)). }
  destruct (verify_rows_spec (break_ranges db) (decisions db ++ [chained_row sha256_hex db row]) None 0 0)
    as [(H1 & H2 & _ & H4)|(l & r & k & E & _ & Hbad & _)].
  - destruct (verify_rows_spec (break_ranges db) (decisions db) None 0 0) as [(_ & _ & _ & H4')|(?&?&?&_&_&_&Hf&_)];
      [|congruence]. split_and!; [done|done|]. rewrite H4, H4', length_app. simpl. lia.
  - rewrite E in Hok'. apply rows_ok_app in Hok' as (_ & ? & _). done.
Qed.

(** ** Tamper evidence *)

Definition chain_view (r : Row) : option string * string * string := (r_prev_hash r, r_row_hash r, r_data r).

Lemma app_inj_length p p' s s' :
  String.length p = String.length p' -> p +:+ s = p' +:+ s' -> p = p' /\ s = s'.
Proof.
  revert p'. induction p as [|a p IH]; intros [|b p'] Hl E; try done.
  injection Hl as Hl. change (String a (p +:+ s) = String b (p' +:+ s')) in E. injection E as -> E.
  by destruct (IH p' Hl E) as [-> ->].
Qed.

(** What is hashed for a row. *)
Definition hashed (r : Row) : string := default "" (r_prev_hash r) +:+ r_data r.

Lemma hashed_inj r r' :
  (forall x, String.length (sha256_hex x) = 64%nat) ->
  (r_prev_hash r = None /\ r_prev_hash r' = None) \/
  (exists x y, r_prev_hash r = Some (sha256_hex x) /\ r_prev_hash r' = Some (sha256_hex y)) ->
  hashed r = hashed r' -> r_prev_hash r = r_prev_hash r' /\ r_data r = r_data r'.
Proof.
  unfold hashed. intros Hlen [[-> ->]|(x & y & -> & ->)] Eq; simpl in Eq; [done|].
  apply app_inj_length in Eq as [-> ->]; [done|]. by rewrite !Hlen.
Qed.

Lemma head_hash_sha rows :
  rows_ok [] None rows -> rows <> [] -> exists x, head_hash None rows = Some (sha256_hex x).
Proof.
  destruct rows as [|r rows _] using rev_ind; [done|]. intros H _.
  apply rows_ok_app in H as (_ & [Hb|[_ Hh]] & _); [done|].
  unfold head_hash. rewrite last_snoc, Hh. unfold StoreDecisions.compute_hash. eauto.
Qed.

(** C14. Tamper evidence: two tables of the same length that both verify with no
    registered breaks, and have the same last row_hash, agree on every stored
    prev_hash, row_hash and data; or else the last two rows in which they differ,
    at the same place, are themselves two different inputs with the same SHA-256,
    behind which the tables agree.  (SHA-256 is any function to texts of 64
    characters.) *)
Theorem chain_tamper_evident rows rows' :
  (forall x, String.length (sha256_hex x) = 64%nat) ->
  hc_intact (verify_rows [] None 0 0 rows) = true ->
  hc_intact (verify_rows [] None 0 0 rows') = true ->
  length rows = length rows' -> head_hash None rows = head_hash None rows' ->
  chain_view <$> rows = chain_view <$> rows' \/
  exists i r r', rows !! i = Some r /\ rows' !! i = Some r' /\ hashed r <> hashed r' /\
    sha256_hex (hashed r) = sha256_hex (hashed r') /\
    chain_view <$> drop (S i) rows = chain_view <$> drop (S i) rows'.
Proof.
  intros Hlen H1%verify_rows_intact_inv H2%verify_rows_intact_inv. revert rows' H2.
  induction rows as [|r rows IH] using rev_ind; intros rows' H2 El Eh; [by destruct rows'; auto|].
  destruct rows' as [|r' rows' _] using rev_ind; [rewrite length_app in El; simpl in El; lia|].
  rewrite !length_app in El. simpl in El.
  apply rows_ok_app in H1 as (H1 & [?|[Hp Hh]] & _); [done|].
  apply rows_ok_app in H2 as (H2 & [?|[Hp' Hh']] & _); [done|].
  unfold head_hash in Eh. rewrite !last_snoc in Eh. injection Eh as Eh.
  assert (length rows = length rows') as El' by lia.
  assert (r_row_hash r = sha256_hex (hashed r)) as Hs by (rewrite Hh, <- Hp; done).
  assert (r_row_hash r' = sha256_hex (hashed r')) as Hs' by (rewrite Hh', <- Hp'; done).
  destruct (decide (hashed r = hashed r')) as [Eq|Ne].
  - apply hashed_inj in Eq as [Ep Ed]; [|done|].
    + assert (chain_view r = chain_view r') as Ev by (unfold chain_view; congruence).
      rewrite Hp, Hp' in Ep. destruct (IH H1 rows' H2 El' Ep) as [E|(i & x & x' & Hx & Hx' & Hne & Hc & Hd)].
      { left. rewrite !fmap_app, E. simpl. by rewrite Ev. }
      right. pose proof (lookup_lt_Some _ _ _ Hx). pose proof (lookup_lt_Some _ _ _ Hx').
      exists i, x, x'. rewrite !lookup_app_l, !drop_app_le, !fmap_app, Hd by lia. simpl. by rewrite Ev.
    + rewrite Hp, Hp'. destruct rows as [|a rows], rows' as [|a' rows']; try (simpl in El'; lia); [by left|]. right.
      destruct (head_hash_sha _ H1) as [x Hx]; [done|]. destruct (head_hash_sha _ H2) as [y Hy]; [done|]. eauto.
  - right. exists (length rows), r, r'. rewrite list_lookup_middle by done.
    rewrite list_lookup_middle by done. rewrite !drop_ge by (rewrite length_app; simpl; lia). split_and!; congruence.
Qed.

(** ** Documented breaks *)

Lemma verify_rows_app breaks : forall l k prev v d,
  rows_ok breaks prev l ->
  exists v' d', verify_rows breaks prev v d (l ++ k) = verify_rows breaks (head_hash prev l) v' d' k.
Proof.
  induction l as [|r l IH]; intros k prev v d Hok; [by exists v, d|].
  destruct Hok as [Hr Hl]. cbn [app]. rewrite verify_rows_cons.
  destruct (row_ok_dec breaks prev r); [|done].
  edestruct IH as (v' & d' & ->); [done|]. exists v', d'.
  unfold head_hash. rewrite last_cons. by destruct (last l).
Qed.

Definition ids_ascending (rows : list Row) : Prop := StronglySorted (fun a b => r_id a < r_id b) rows.

Lemma in_break_app b b' id : in_break (b ++ b') id = in_break b id || in_break b' id.
Proof. unfold in_break, any. apply List.existsb_app. Qed.

Lemma rows_ok_more_breaks breaks b prev rows :
  rows_ok breaks prev rows -> rows_ok (breaks ++ b) prev rows.
Proof.
  revert prev. induction rows as [|r rows IH]; intros prev; [done|]. intros [Hr Hrows]. split; [|auto].
  destruct Hr as [Hr|Hr]; [left; by rewrite in_break_app, Hr|by right].
Qed.

(** Registering the row the verifier stopped at makes progress: the chain
    then verifies, or the next undocumented break is at a later row.  Rows
    before it are not affected, and the verification resumes from its stored
    hash. *)
Theorem registered_break_progress db res id now op reason prev_end :
  ids_ascending (decisions db) ->
  verify_hash_chain sha256_hex db = Ok res -> hc_broken_at res = Some id ->
  exists res', verify_hash_chain sha256_hex (register_chain_break db now id id op reason prev_end).1 = Ok res' /\
    (hc_intact res' = true \/ exists id', hc_broken_at res' = Some id' /\ id < id').
Proof.
  intros Hasc [Hu ->]%verify_hash_chain_ok Hb.
  unfold register_chain_break. rewrite Z.ltb_irrefl, Hu. cbn [fst].
  unfold verify_hash_chain, db_conn. cbn [db_usable]. eexists. split; [done|]. cbn [decisions].
  set (breaks' := break_ranges _).
  assert (Hbr : breaks' = break_ranges db ++ [(id, id)]) by (unfold breaks', break_ranges; simpl; by rewrite fmap_app).
  destruct (verify_rows_spec (break_ranges db) (decisions db) None 0 0)
    as [(_ & H & _)|(l & r & k & E & Hl & Hbad & _ & Hr)]; [congruence|].
  rewrite Hb in Hr. injection Hr as ->.
  assert (Hpre : rows_ok breaks' None (l ++ [r])).
  { rewrite Hbr. apply rows_ok_app. split; [by apply rows_ok_more_breaks|]. simpl. split; [|done]. left.
    rewrite in_break_app. apply orb_true_iff. right. unfold in_break. simpl. by rewrite Z.leb_refl. }
  rewrite E in Hasc |- *. change (l ++ r :: k) with (l ++ [r] ++ k) in *. rewrite app_assoc in *.
  destruct (verify_rows_app breaks' (l ++ [r]) k None 0 0 Hpre) as (v & d & ->).
  destruct (verify_rows_spec breaks' k (head_hash None (l ++ [r])) v d)
    as [(H & _)|(l' & r' & k' & -> & _ & _ & _ & Hr')]; [by left|]. right.
  exists (r_id r'). split; [done|].
  apply (StronglySorted_app_1_elem_of _ _ _ r r' Hasc); apply elem_of_app; right; left.
Qed.

(** ** Retention *)

Lemma rows_ok_prev_some prev r rows h :
  rows_ok [] (Some h) (r :: rows) -> ~ row_ok [] prev r \/ prev = Some h.
Proof.
  intros [[?|[Hp _]] _]; [done|]. destruct (decide (prev = Some h)) as [|Hne]; [by right|]. left.
  intros [?|[Hp' _]]; [done|]. congruence.
Qed.

(** The daily retention breaks the chain it leaves: when it deletes the
    oldest rows of a table that verifies and keeps a later one, the verifier
    reports the first row kept as tampered with, since that row still stores
    the hash of a deleted predecessor. *)
Theorem retention_breaks_chain db pre r post days cutoff res :
  db_usable db = true -> chain_break_audit db = [] ->
  decisions db = pre ++ r :: post -> pre <> [] -> 0 < days ->
  verify_hash_chain sha256_hex db = Ok res -> hc_intact res = true ->
  Forall (fun x => str_ltb (r_ts x) cutoff = true) pre -> str_ltb (r_ts r) cutoff = false ->
  exists res', verify_hash_chain sha256_hex (retention_decisions db days cutoff).1 = Ok res' /\
    hc_intact res' = false /\ hc_broken_at res' = Some (r_id r).
Proof.
  intros Hu Hbr Hrows Hpre Hdays [_ ->]%verify_hash_chain_ok Hi Hold Hnew.
  apply verify_rows_intact_inv in Hi. unfold break_ranges in Hi. rewrite Hbr, Hrows in Hi.
  apply rows_ok_app in Hi as [_ Hi]. unfold retention_decisions. rewrite (proj2 (Z.ltb_lt _ _) Hdays), Hu.
  unfold verify_hash_chain, db_conn. cbn [fst with_rows db_usable]. rewrite Hu. eexists. split; [done|].
  change (break_ranges (with_rows _ _)) with (break_ranges db). cbn [with_rows decisions].
  unfold break_ranges. rewrite Hbr, Hrows. unfold retain. rewrite List.filter_app.
  change (List.filter ?p pre) with (retain p pre). rewrite list_filter_none.
  2: { intros x Hx. rewrite Forall_forall in Hold. by rewrite (Hold x Hx). }
  cbn [app List.filter]. rewrite Hnew. cbn [negb]. rewrite verify_rows_cons. unfold head_hash in Hi.
  destruct (last pre) as [x|] eqn:El; [|by apply last_None in El].
  destruct (rows_ok_prev_some None r post (r_row_hash x) Hi) as [Hb|?]; [|done].
  destruct (row_ok_dec _ None r) as [H|]; [by destruct Hb|done].
Qed.

(** ** What the chain does not cover *)

(** The row [r] with other structured columns. *)
Definition same_chain_fields (r r' : Row) : Prop :=
  r_id r = r_id r' /\ r_prev_hash r = r_prev_hash r' /\ r_row_hash r = r_row_hash r' /\ r_data r = r_data r'.

(** Only id, prev_hash, row_hash and data are verified: changing the
    action, the target, the confidence or any other structured column of any
    rows changes nothing in the verifier's answer. *)
Theorem columns_not_covered breaks rows rows' prev v d :
  Forall2 same_chain_fields rows rows' ->
  verify_rows breaks prev v d rows = verify_rows breaks prev v d rows'.
Proof.
  intros Hall. revert prev v d. induction Hall as [|r r' rows rows' (E1 & E2 & E3 & E4) _ IH]; intros prev v d; [done|].
  cbn [StoreDecisions.verify_rows]. rewrite E1, E2, E3, E4. by rewrite !IH.
Qed.

(** [r2] rewritten to stand first: no predecessor, the old predecessor's hash
    moved to the front of the data. *)
Definition regrafted (r1 r2 : Row) : Row := {|
  r_id := r_id r2; r_ts := r_ts r2; r_incident_id := r_incident_id r2; r_action_type := r_action_type r2;
  r_target_ip := r_target_ip r2; r_target_user := r_target_user r2; r_confidence := r_confidence r2;
  r_auto_executed := r_auto_executed r2; r_reason := r_reason r2; r_prev_hash := None;
  r_row_hash := r_row_hash r2; r_data := r_row_hash r1 +:+ r_data r2 |}.

(** The first row of a chain can be removed without a trace, whatever the
    hash function: prev_hash and data are hashed without a separator, so the
    second row verifies as a first row once the old hash is put in front of
    its data, and every later row and the last hash stay as they were. *)
Theorem genesis_truncation_undetected r1 r2 rest :
  hc_intact (verify_rows [] None 0 0 (r1 :: r2 :: rest)) = true ->
  hc_intact (verify_rows [] None 0 0 (regrafted r1 r2 :: rest)) = true /\
  head_hash None (regrafted r1 r2 :: rest) = head_hash None (r1 :: r2 :: rest).
Proof.
  intros (_ & [?|[_ Hh]] & Hrest)%verify_rows_intact_inv; [done|]. split.
  - apply verify_rows_intact. split; [|done]. right. split; [done|]. exact Hh.
  - unfold head_hash. rewrite !last_cons. by destruct (last rest).
Qed.
End chain.

(** ** Pagination of the audit view *)

(** Following the cursor: each page asks for the ids below the last one seen. *)
Fixpoint pages (fuel : nat) (db : Db) (before : option Z) (limit : Z) : list DecisionAuditRecord :=
  match fuel with
  | O => []
  | S fuel =>
      match audit_trail db before limit None with
      | Ok page =>
          match last page with
          | Some r => page ++ pages fuel db (Some (ar_id r)) limit
          | None => []
          end
      | Err _ => []
      end
  end.

Definition below (b : Z) (rows : list Row) : list Row := reverse (retain (fun r => r_id r <? b) rows).

Lemma audit_page db before limit :
  db_usable db = true ->
  audit_trail db before limit None =
  Ok (map_row <$> take (Z.to_nat (Z.max 1 (Z.min limit 500))) (below (default i64_max before) (decisions db))).
Proof.
  intros Hu. unfold audit_trail, db_conn, below, sql_limit. rewrite Hu.
  rewrite (proj2 (Z.ltb_ge _ _)) by lia. do 3 f_equal. unfold retain. f_equal.
  apply List.filter_ext. intros r. by rewrite andb_true_r.
Qed.

Lemma retain_below_cut (l k : list Row) x b :
  ids_ascending (l ++ x :: k) -> r_id x < b ->
  retain (fun r => r_id r <? r_id x) (l ++ x :: k) = l.
Proof.
  intros Hasc _. unfold retain. rewrite List.filter_app. simpl. rewrite Z.ltb_irrefl.
  apply (StronglySorted_app (fun a b => r_id a < r_id b)) in Hasc as (H1 & _ & H2).
  apply StronglySorted_inv in H2 as [_ H2]. rewrite Forall_forall in H2.
  change (List.filter ?p ?l) with (retain p l).
  rewrite (list_filter_none _ k), app_nil_r, retain_all; [done| |].
  - apply Forall_forall. intros y Hy. apply Z.ltb_lt, H1; [done|left].
  - intros y Hy. apply Z.ltb_ge. specialize (H2 y Hy). lia.
Qed.

Lemma retain_lt_lt b c rows : c <= b ->
  retain (fun r => r_id r <? c) (retain (fun r => r_id r <? b) rows) = retain (fun r => r_id r <? c) rows.
Proof.
  intros Hcb. unfold retain. induction rows as [|r rows IH]; [done|]. simpl.
  destruct (r_id r <? b) eqn:E1, (r_id r <? c) eqn:E2; simpl; rewrite ?E2, IH; bool_to_prop; done || lia.
Qed.

(** The rows after a non-empty page are the rows below its last id. *)
Lemma below_next b n rows x :
  ids_ascending rows -> last (take n (below b rows)) = Some x ->
  below (r_id x) rows = drop n (below b rows).
Proof.
  intros Hasc Hx. unfold below in *. set (l := retain (fun r => r_id r <? b) rows) in *.
  assert (Hl : ids_ascending l).
  { unfold ids_ascending, l. clear -Hasc. induction Hasc as [|r rows Hr IH Hall]; [constructor|].
    unfold retain in *. simpl. destruct (r_id r <? b); [|done]. constructor; [done|].
    apply Forall_forall. intros y Hy. apply (retain_elem (fun r => r_id r <? b)) in Hy as [Hy _].
    rewrite Forall_forall in Hall. auto. }
  apply last_Some in Hx as [page Hpage].
  assert (El : l = reverse (drop n (reverse l)) ++ x :: reverse page).
  { rewrite <- (reverse_involutive l) at 1. rewrite <- (take_drop n (reverse l)) at 1.
    by rewrite Hpage, !reverse_app, reverse_singleton. }
  assert (Hxb : r_id x < b).
  { assert (x ∈ l) as Hin by (rewrite El; apply elem_of_app; right; left).
    apply retain_elem in Hin as [_ Hin]. by apply Z.ltb_lt. }
  rewrite <- (retain_lt_lt b) by lia. fold l. rewrite El in Hl. rewrite El at 1.
  rewrite (retain_below_cut _ _ _ b) by done. apply reverse_involutive.
Qed.

(** Walking the audit view page by page, with the last id of each page as
    the next cursor, lists every decision below the starting cursor exactly
    once and latest first, whatever the page size; as many steps as there are
    rows, plus one, are enough. *)
Theorem audit_pages_complete fuel db before limit :
  db_usable db = true -> ids_ascending (decisions db) ->
  (length (below (default i64_max before) (decisions db)) < fuel)%nat ->
  pages fuel db before limit = map_row <$> below (default i64_max before) (decisions db).
Proof.
  intros Hu Hasc. revert before. induction fuel as [|fuel IH]; intros before Hf; [lia|]. cbn [pages].
  rewrite audit_page by done. set (n := Z.to_nat (Z.max 1 (Z.min limit 500))).
  assert (Hn : (0 < n)%nat) by lia.
  set (l := below (default i64_max before) (decisions db)) in *. rewrite fmap_last.
  destruct (last (take n l)) as [x|] eqn:Ex; simpl.
  - pose proof (below_next _ _ _ _ Hasc Ex) as Hnext. fold l in Hnext.
    rewrite IH; simpl; rewrite Hnext.
    + by rewrite <- fmap_app, take_drop.
    + rewrite length_drop. assert (l <> []) by (intros El; rewrite El, take_nil in Ex; done).
      destruct l; [done|]. simpl in *. lia.
  - apply last_None in Ex. destruct l, n; try done. lia.
Qed.

(** ** Witnesses *)

(** A stand-in for the hash function, of the right length. *)
Definition demo_sha (s : string) : string := pad0 64 (show (Z.of_nat (String.length s))).

Definition demo_row (ts data : string) : DecisionRow := {|
  dr_ts := ts; dr_incident_id := "ssh:1"; dr_action_type := "block_ip"; dr_target_ip := Some "192.0.2.1";
  dr_target_user := None; dr_confidence := f64_one; dr_auto_executed := true; dr_reason := None; dr_data := data |}.

Definition empty_db : Db := {| db_usable := true; decisions := []; chain_break_audit := [] |}.
Definition demo_db_of (sha : string -> string) : Db :=
  (insert_decision sha (insert_decision sha empty_db (demo_row "2026-01-01" "a")).1
                   (demo_row "2026-03-01" "b")).1.
Definition demo_db : Db := demo_db_of demo_sha.

Lemma insert_keeps_chain_witness :
  exists res, verify_hash_chain demo_sha (insert_decision demo_sha demo_db (demo_row "2026-03-02" "c")).1 = Ok res /\
    hc_intact res = true.
Proof.
  destruct (insert_keeps_chain demo_sha demo_db (demo_row "2026-03-02" "c")
              {| hc_verified := 2; hc_broken_at := None; hc_intact := true; hc_documented_breaks := 0 |})
    as (res & E & Hi & _); [reflexivity|reflexivity|]. exists res. split; [exact E|exact Hi].
Defined.

(** A constant of 64 digits as hash: then every pair of inputs collides. *)
Definition zero_sha (s : string) : string := zeros 64.

(** Its table with the first row's data replaced: both verify. *)
Definition forged_rows : list Row :=
  match decisions (demo_db_of zero_sha) with
  | r :: rest =>
      {| r_id := r_id r; r_ts := r_ts r; r_incident_id := r_incident_id r; r_action_type := r_action_type r;
         r_target_ip := r_target_ip r; r_target_user := r_target_user r; r_confidence := r_confidence r;
         r_auto_executed := r_auto_executed r; r_reason := r_reason r; r_prev_hash := r_prev_hash r;
         r_row_hash := r_row_hash r; r_data := "forged" |} :: rest
  | [] => []
  end.

Lemma chain_tamper_evident_witness :
  let rows := decisions (demo_db_of zero_sha) in
  chain_view <$> rows = chain_view <$> forged_rows \/
  exists i r r', rows !! i = Some r /\ forged_rows !! i = Some r' /\ hashed r <> hashed r' /\
    zero_sha (hashed r) = zero_sha (hashed r') /\
    chain_view <$> drop (S i) rows = chain_view <$> drop (S i) forged_rows.
Proof. apply (chain_tamper_evident zero_sha); [intros x|..]; reflexivity. Defined.

Definition broken_db : Db := with_rows demo_db [chained_row demo_sha demo_db (demo_row "x" "z")].

Lemma registered_break_progress_witness :
  exists res, verify_hash_chain demo_sha (register_chain_break broken_db "t" 3 3 "op" "why" None).1 = Ok res /\
    (hc_intact res = true \/ exists id', hc_broken_at res = Some id' /\ 3 < id').
Proof.
  apply (registered_break_progress demo_sha broken_db
           {| hc_verified := 0; hc_broken_at := Some 3; hc_intact := false; hc_documented_breaks := 0 |});
    [|reflexivity|reflexivity].
  unfold ids_ascending. simpl. apply SSorted_cons; [apply SSorted_nil|apply Forall_nil_2].
Defined.

Lemma retention_breaks_chain_witness :
  exists res, verify_hash_chain demo_sha (retention_decisions demo_db 90 "2026-02-01").1 = Ok res /\
    hc_intact res = false /\ hc_broken_at res = Some 2.
Proof.
  destruct (decisions demo_db) as [|r1 [|r2 [|r3 l]]] eqn:E; try discriminate E.
  injection E as E1 E2.
  destruct (retention_breaks_chain demo_sha demo_db [r1] r2 [] 90 "2026-02-01"
              {| hc_verified := 2; hc_broken_at := None; hc_intact := true; hc_documented_breaks := 0 |})
    as (res & H1 & H2 & H3); subst r1 r2; try reflexivity; try lia; [discriminate|repeat constructor|].
  exists res. split; [exact H1|]. split; [exact H2|exact H3].
Defined.

(** Every row claims to be a dismissal of another address. *)
Definition relabelled (r : Row) : Row := {|
  r_id := r_id r; r_ts := r_ts r; r_incident_id := r_incident_id r; r_action_type := "dismiss";
  r_target_ip := Some "198.51.100.9"; r_target_user := r_target_user r; r_confidence := r_confidence r;
  r_auto_executed := r_auto_executed r; r_reason := r_reason r; r_prev_hash := r_prev_hash r;
  r_row_hash := r_row_hash r; r_data := r_data r |}.

Lemma columns_not_covered_witness :
  r_action_type <$> decisions demo_db = ["block_ip"; "block_ip"] /\
  verify_rows demo_sha [] None 0 0 (decisions demo_db) =
  verify_rows demo_sha [] None 0 0 (relabelled <$> decisions demo_db).
Proof. split; [reflexivity|]. apply columns_not_covered. repeat constructor. Defined.

Lemma genesis_truncation_undetected_witness :
  exists r1 r2, decisions demo_db = [r1; r2] /\
    hc_intact (verify_rows demo_sha [] None 0 0 [regrafted r1 r2]) = true.
Proof.
  eexists _, _. split; [reflexivity|].
  apply genesis_truncation_undetected. reflexivity.
Defined.

Lemma audit_pages_complete_witness :
  ar_id <$> pages 3 demo_db None 1 = [2; 1].
Proof.
  rewrite audit_pages_complete; [reflexivity|reflexivity| |].
  - repeat constructor.
  - vm_compute. repeat constructor.
Defined.
