(* ===== verification/StoreTables.v ===== *)
(** * StoreTables: incidents, events and cursors
    (crates/store/src/incidents.rs, events.rs, cursors.rs, the retention of
    maintenance.rs, and the reading of new incidents in
    crates/agent/src/process/incidents.rs)

    The tables are the lists of their rows in id order beside the decision table
    of StoreDecisions.v; a method is the meaning of its SQL statement.  Rows with
    the same text of time come in id order, as the index on it gives them.
    serde's printing and reading of incidents and events are arguments. *)

From Stdlib Require Import ZArith Lia Ascii String.
From stdpp Require Import prelude strings gmap list sorting.
From S2P Require Import Prelude Text Json CoreTypes StoreKv StoreDecisions.

Local Open Scope string_scope.
Local Open Scope list_scope.
Local Open Scope Z_scope.

Record IncidentRow := {
  ir_id : Z;
  ir_ts : string;
  ir_host : string;
  ir_incident_id : string;
  ir_severity : string;
  ir_detector : string;
  ir_title : string;
  ir_summary : string;
  ir_data : string;
  ir_is_allowlisted : bool;
}.

Record EventRow := {
  er_id : Z;
  er_ts : string;
  er_host : string;
  er_source : string;
  er_kind : string;
  er_severity : string;
  er_summary : string;
  er_data : string;
  er_src_ip : option string;
}.

Record Tables := {
  tb_decisions : Db;
  incidents : list IncidentRow;
  events : list EventRow;
  agent_cursors : gmap string Z;
  sensor_cursors : gmap string string;
}.

Definition usable (t : Tables) : bool := db_usable (tb_decisions t).
Definition conn {A} (t : Tables) (r : result A StoreError) : result A StoreError := if usable t then r else Err Pool.

Definition with_incidents (t : Tables) (l : list IncidentRow) : Tables :=
  {| tb_decisions := tb_decisions t; incidents := l; events := events t; agent_cursors := agent_cursors t; sensor_cursors := sensor_cursors t |}.
Definition with_events (t : Tables) (l : list EventRow) : Tables :=
  {| tb_decisions := tb_decisions t; incidents := incidents t; events := l; agent_cursors := agent_cursors t; sensor_cursors := sensor_cursors t |}.
Definition with_decisions (t : Tables) (db : Db) : Tables :=
  {| tb_decisions := db; incidents := incidents t; events := events t; agent_cursors := agent_cursors t; sensor_cursors := sensor_cursors t |}.
Definition with_agent_cursors (t : Tables) (c : gmap string Z) : Tables :=
  {| tb_decisions := tb_decisions t; incidents := incidents t; events := events t; agent_cursors := c; sensor_cursors := sensor_cursors t |}.
Definition with_sensor_cursors (t : Tables) (c : gmap string string) : Tables :=
  {| tb_decisions := tb_decisions t; incidents := incidents t; events := events t; agent_cursors := agent_cursors t; sensor_cursors := c |}.

(** [ORDER BY key], ties in id order. *)
Section order.
Context {A : Type} (key : A -> string) (id : A -> Z).
Definition key_leb (x y : A) : bool :=
  str_ltb (key x) (key y) || (String.eqb (key x) (key y) && (id x <=? id y)).
Definition key_le (x y : A) : Prop := key_leb x y = true.
#[export] Instance key_le_dec x y : Decision (key_le x y).
Proof. unfold key_le. apply _. Defined.
Definition order_by (l : list A) : list A := merge_sort key_le l.
End order.

Section tables.
Context `{Chrono} (incident_json : Incident -> string) (read_incident : string -> option Incident)
  (event_json : Event -> string) (read_event : string -> option Event) (read_json : string -> option Json).

(** ** Incidents *)

Definition incident_row (id : Z) (i : Incident) : IncidentRow :=
  {| ir_id := id; ir_ts := to_rfc3339 (in_ts i); ir_host := in_host i; ir_incident_id := in_incident_id i;
     ir_severity := severity_text (in_severity i); ir_detector := join ":" (take 2 (split_on ":" (in_incident_id i)));
     ir_title := in_title i; ir_summary := in_summary i; ir_data := incident_json i; ir_is_allowlisted := false |}.

(** INSERT OR IGNORE: the incident id is unique.  [last_rowid] is that of the
    connection before the statement. *)
Definition insert_incident (t : Tables) (last_rowid : Z) (i : Incident) : Tables * result Z StoreError :=
  if usable t then
    if any (fun r => String.eqb (ir_incident_id r) (in_incident_id i)) (incidents t) then (t, Ok last_rowid)
    else
      let row := incident_row (next_id ir_id (incidents t)) i in
      (with_incidents t (incidents t ++ [row]), Ok (ir_id row))
  else (t, Err Pool).

Definition incidents_since_ts (t : Tables) (start_ts : string) (limit : Z) : result (list Incident) StoreError :=
  conn t (Ok (omap (fun r => read_incident (ir_data r))
    (sql_limit (usize_as_i64 limit) (order_by ir_ts ir_id (retain (fun r => negb (str_ltb (ir_ts r) start_ts)) (incidents t)))))).

(** Rows that do not read are skipped. *)
Definition read_rows {R A} (id : R -> Z) (data : R -> string) (read : string -> option A) (rows : list R) : list (Z * A) :=
  omap (fun r => pair (id r) <$> read (data r)) rows.

Definition incidents_since (t : Tables) (after_id limit : Z) : result (list (Z * Incident)) StoreError :=
  conn t (Ok (read_rows ir_id ir_data read_incident
    (sql_limit (usize_as_i64 limit) (retain (fun r => after_id <? ir_id r) (incidents t))))).

Definition get_incident (t : Tables) (incident_id : string) : result (option Incident) StoreError :=
  conn t match head (retain (fun r => String.eqb (ir_incident_id r) incident_id) (incidents t)) with
         | Some r => match read_incident (ir_data r) with Some i => Ok (Some i) | None => Err (Serde "data") end
         | None => Ok None
         end.

Definition incidents_count (t : Tables) : result Z StoreError := conn t (Ok (Z.of_nat (length (incidents t)))).

Definition delete_incidents_before (t : Tables) (before_ts : string) : Tables * result Z StoreError :=
  if usable t then
    (with_incidents t (retain (fun r => negb (str_ltb (ir_ts r) before_ts)) (incidents t)),
     Ok (Z.of_nat (length (retain (fun r => str_ltb (ir_ts r) before_ts) (incidents t)))))
  else (t, Err Pool).

Definition incidents_max_id (t : Tables) : result Z StoreError := conn t (Ok (foldr Z.max 0 (ir_id <$> incidents t))).

Definition allow_row (incident_id : string) (r : IncidentRow) : IncidentRow :=
  if String.eqb (ir_incident_id r) incident_id then
    {| ir_id := ir_id r; ir_ts := ir_ts r; ir_host := ir_host r; ir_incident_id := ir_incident_id r; ir_severity := ir_severity r;
       ir_detector := ir_detector r; ir_title := ir_title r; ir_summary := ir_summary r; ir_data := ir_data r; ir_is_allowlisted := true |}
  else r.

Definition set_incident_allowlisted (t : Tables) (incident_id : string) : Tables * result Z StoreError :=
  if usable t then
    (with_incidents t (allow_row incident_id <$> incidents t),
     Ok (Z.of_nat (length (retain (fun r => String.eqb (ir_incident_id r) incident_id) (incidents t)))))
  else (t, Err Pool).

(** The rows of the two sweeps: incident id, severity, time, data. *)
Notation SweepRow := (string * string * string * string)%type.

Definition undecided (t : Tables) (incident_id : string) : bool :=
  negb (any (fun d => String.eqb (r_incident_id d) incident_id) (decisions (tb_decisions t))).

Definition find_orphan_incidents (t : Tables) (before_ts : string) (limit : Z) : result (list SweepRow) StoreError :=
  conn t (Ok ((fun r => (ir_incident_id r, ir_severity r, ir_ts r, ir_data r)) <$>
    sql_limit (usize_as_i64 limit) (order_by ir_ts ir_id
      (retain (fun r => undecided t (ir_incident_id r) && str_ltb (ir_ts r) before_ts && negb (ir_is_allowlisted r)) (incidents t))))).

(** ORDER BY ts DESC, id DESC LIMIT 1. *)
Definition latest_decision (t : Tables) (incident_id : string) : option Row :=
  last (order_by r_ts r_id (retain (fun d => String.eqb (r_incident_id d) incident_id) (decisions (tb_decisions t)))).

Definition find_timed_out_needs_review (t : Tables) (before_ts : string) (limit : Z) : result (list SweepRow) StoreError :=
  conn t (Ok ((fun rd => (ir_incident_id rd.1, ir_severity rd.1, r_ts rd.2, ir_data rd.1)) <$>
    sql_limit (usize_as_i64 limit) (order_by (fun rd => r_ts rd.2) (fun rd => ir_id rd.1)
      (omap (fun r =>
         d ← latest_decision t (ir_incident_id r);
         if String.eqb (r_action_type d) "needs_review" && str_ltb (r_ts d) before_ts && negb (ir_is_allowlisted r)
         then Some (r, d) else None) (incidents t))))).

(** ** Events *)

Definition details_ip (details : Json) : option string :=
  v ← match get details "src_ip" with Some v => Some v | None => get details "ip" end; as_str v.

Definition event_src_ip (e : Event) : option string := details_ip (ev_details e).

Definition event_row (id : Z) (e : Event) : EventRow :=
  {| er_id := id; er_ts := to_rfc3339 (ev_ts e); er_host := ev_host e; er_source := ev_source e; er_kind := ev_kind e;
     er_severity := severity_text (ev_severity e); er_summary := ev_summary e; er_data := event_json e; er_src_ip := event_src_ip e |}.

Definition insert_event (t : Tables) (e : Event) : Tables * result Z StoreError :=
  if usable t then
    let row := event_row (next_id er_id (events t)) e in (with_events t (events t ++ [row]), Ok (er_id row))
  else (t, Err Pool).

(** One transaction: all or nothing. *)
Definition insert_events_batch (t : Tables) (es : list Event) : Tables * result unit StoreError :=
  if usable t then
    (with_events t (foldl (fun rows e => rows ++ [event_row (next_id er_id rows) e]) (events t) es), Ok tt)
  else (t, Err Pool).

Definition events_for_training (t : Tables) (since_ts_iso : string) (limit : Z) : result (list (string * option string)) StoreError :=
  conn t (Ok ((fun r => (er_kind r, ip ← er_src_ip r; if String.eqb ip "" then None else Some ip)) <$>
    sql_limit (usize_as_i64 limit) (order_by er_ts er_id (retain (fun r => negb (str_ltb (er_ts r) since_ts_iso)) (events t))))).

Definition ip_pending (r : EventRow) : bool := match er_src_ip r with None => true | Some _ => false end.

Definition set_src_ip (r : EventRow) (ip : string) : EventRow :=
  {| er_id := er_id r; er_ts := er_ts r; er_host := er_host r; er_source := er_source r; er_kind := er_kind r;
     er_severity := er_severity r; er_summary := er_summary r; er_data := er_data r; er_src_ip := Some ip |}.

(** The address of a stored event, read from its JSON. *)
Definition stored_ip (r : EventRow) : option string :=
  v ← read_json (er_data r); details ← get v "details"; details_ip details.

(** The first [n] rows whose address is missing get it, or the empty text. *)
Fixpoint backfill_rows (n : nat) (rows : list EventRow) : list EventRow :=
  match rows, n with
  | [], _ => []
  | _, O => rows
  | r :: rest, S n' =>
      if ip_pending r then set_src_ip r (default "" (stored_ip r)) :: backfill_rows n' rest
      else r :: backfill_rows n rest
  end.

Definition pending_rows (t : Tables) : list EventRow := retain ip_pending (events t).

Definition backfill_events_src_ip (t : Tables) (batch_size : Z) : Tables * result Z StoreError :=
  if usable t then
    let n := length (sql_limit (usize_as_i64 batch_size) (pending_rows t)) in
    (with_events t (backfill_rows n (events t)), Ok (Z.of_nat n))
  else (t, Err Pool).

Definition events_pending_src_ip_backfill (t : Tables) : result Z StoreError := conn t (Ok (Z.of_nat (length (pending_rows t)))).

Definition events_since (t : Tables) (after_id limit : Z) : result (list (Z * Event)) StoreError :=
  conn t (Ok (read_rows er_id er_data read_event
    (sql_limit (usize_as_i64 limit) (retain (fun r => after_id <? er_id r) (events t))))).

Definition events_count (t : Tables) : result Z StoreError := conn t (Ok (Z.of_nat (length (events t)))).

Definition events_count_for_date (t : Tables) (date : string) : result Z StoreError :=
  conn t (Ok (Z.of_nat (length (retain (fun r => like (date +:+ "%") (er_ts r)) (events t))))).

(** Per minute and source: the buckets as a map of maps. *)
Definition events_timeline_for_date (t : Tables) (date : string) : result (gmap string (gmap string Z)) StoreError :=
  conn t (Ok (foldl (fun m r =>
    let bucket := take_chars 16 (er_ts r) in
    let inner := default ∅ (m !! bucket) in
    <[bucket := <[er_source r := default 0 (inner !! er_source r) + 1]> inner]> m)
    ∅ (retain (fun r => like (date +:+ "%") (er_ts r)) (events t)))).

Definition delete_events_before (t : Tables) (before_ts : string) : Tables * result Z StoreError :=
  if usable t then
    (with_events t (retain (fun r => negb (str_ltb (er_ts r) before_ts)) (events t)),
     Ok (Z.of_nat (length (retain (fun r => str_ltb (er_ts r) before_ts) (events t)))))
  else (t, Err Pool).

Definition events_max_id (t : Tables) : result Z StoreError := conn t (Ok (foldr Z.max 0 (er_id <$> events t))).

(** ** Cursors *)

Definition get_agent_cursor (t : Tables) (name : string) : result Z StoreError := conn t (Ok (default 0 (agent_cursors t !! name))).

Definition set_agent_cursor (t : Tables) (name : string) (last_id : Z) : Tables * result unit StoreError :=
  if usable t then (with_agent_cursors t (<[name := last_id]> (agent_cursors t)), Ok tt) else (t, Err Pool).

Definition get_sensor_cursor (t : Tables) (collector : string) : result (option string) StoreError :=
  conn t (Ok (sensor_cursors t !! collector)).

Definition set_sensor_cursor (t : Tables) (collector data : string) : Tables * result unit StoreError :=
  if usable t then (with_sensor_cursors t (<[collector := data]> (sensor_cursors t)), Ok tt) else (t, Err Pool).

(** ** Retention: events, incidents, decisions *)

(** A day count of zero keeps everything; the first failure ends it.  The
    graph snapshots, a table of their own, are left out. *)
Definition run_retention (t : Tables) (events_days incidents_days decisions_days now : Z) : Tables * result (Z * Z * Z) StoreError :=
  let cutoff days := to_rfc3339 (now - seconds (86400 * days)) in
  let '(t, re) := if 0 <? events_days then delete_events_before t (cutoff events_days) else (t, Ok 0) in
  match re with
  | Err e => (t, Err e)
  | Ok ne =>
      let '(t, ri) := if 0 <? incidents_days then delete_incidents_before t (cutoff incidents_days) else (t, Ok 0) in
      match ri with
      | Err e => (t, Err e)
      | Ok ni =>
          let '(db, rd) := retention_decisions (tb_decisions t) decisions_days (cutoff decisions_days) in
          (with_decisions t db, match rd with Ok nd => Ok (ne, ni, nd) | Err e => Err e end)
      end
  end.

(** ** The agent reads its new incidents *)

(** Which of the three statements succeed: a statement can fail by itself, when the
    database is locked or the disk is full, although a connection was to be had. *)
Record ReadIo := { io_get_cursor : bool; io_rows : bool; io_set_cursor : bool }.
Definition all_succeed : ReadIo := {| io_get_cursor := true; io_rows := true; io_set_cursor := true |}.

(** [rows.last().unwrap().0], the cursor moved there when it can be. *)
Definition read_new_incidents_io (io : ReadIo) (t : Tables) : Tables * list Incident :=
  let cval := match get_agent_cursor t "incidents" with Ok c => if io_get_cursor io then c else 0 | Err _ => 0 end in
  match incidents_since t cval 5000 with
  | Ok rows =>
      match last (if io_rows io then rows else []) with
      | Some (max_id, _) =>
          (if io_set_cursor io then (set_agent_cursor t "incidents" max_id).1 else t, snd <$> rows)
      | None => (t, [])
      end
  | Err _ => (t, [])
  end.
Definition read_new_incidents : Tables -> Tables * list Incident := read_new_incidents_io all_succeed.

(** ** Every incident is read exactly once *)

Inductive TableOp :=
| OpInsert (last_rowid : Z) (i : Incident)
| OpAllow (incident_id : string)
| OpEvent (e : Event)
| OpRead.

(** The tables and the incidents read so far. *)
Definition table_step (s : Tables * list Incident) (o : TableOp) : Tables * list Incident :=
  match o with
  | OpInsert l i => ((insert_incident s.1 l i).1, s.2)
  | OpAllow id => ((set_incident_allowlisted s.1 id).1, s.2)
  | OpEvent e => ((insert_event s.1 e).1, s.2)
  | OpRead => let '(t, got) := read_new_incidents s.1 in (t, s.2 ++ got)
  end.

Definition Tables_new : Tables :=
  {| tb_decisions := {| db_usable := true; decisions := []; chain_break_audit := [] |}; incidents := []; events := [];
     agent_cursors := ∅; sensor_cursors := ∅ |}.

Definition table_run (ops : list TableOp) : Tables * list Incident := foldl table_step (Tables_new, []) ops.

(** The incidents inserted, the first of each id. *)
Definition add_first (acc : list Incident) (i : Incident) : list Incident :=
  if any (fun j => String.eqb (in_incident_id j) (in_incident_id i)) acc then acc else acc ++ [i].
Definition inserted (ops : list TableOp) : list Incident :=
  foldl (fun acc o => match o with OpInsert _ i => add_first acc i | _ => acc end) [] ops.

Definition holds_row (r : IncidentRow) (i : Incident) : Prop := read_incident (ir_data r) = Some i /\ ir_incident_id r = in_incident_id i.

Record reading_ok (t : Tables) (got stored : list Incident) : Prop := {
  ro_usable : usable t = true;
  ro_rows : Forall2 holds_row (incidents t) stored;
  ro_ids : ir_id <$> incidents t = seqZ 1 (Z.of_nat (length (incidents t)));
  ro_cursor : default 0 (agent_cursors t !! "incidents") = Z.of_nat (length got);
  ro_got : got = take (length got) stored;
}.

Lemma retain_after_ids (rows : list IncidentRow) : forall k c, 0 <= k -> 0 <= c ->
  ir_id <$> rows = seqZ (k + 1) (Z.of_nat (length rows)) ->
  retain (fun r => k + c <? ir_id r) rows = drop (Z.to_nat c) rows.
Proof.
  induction rows as [|r rows IH]; intros k c Hk Hc Hi; [by rewrite drop_nil|].
  cbn [length] in Hi. rewrite Nat2Z.inj_succ, seqZ_cons in Hi by lia. rewrite Z.pred_succ in Hi.
  cbn in Hi. injection Hi as Hid Hi. replace (Z.succ (k + 1)) with (k + 1 + 1) in Hi by lia.
  unfold retain. cbn [List.filter]. rewrite Hid. destruct (Z.ltb_spec (k + c) (k + 1)).
  - assert (c = 0) as -> by lia. change (drop (Z.to_nat 0) (r :: rows)) with (r :: rows). f_equal.
    apply retain_all, Forall_forall. intros x Hx. apply Z.ltb_lt.
    assert (ir_id x ∈ ir_id <$> rows) as Hin by (apply list_elem_of_fmap; by exists x).
    rewrite Hi in Hin. apply elem_of_seqZ in Hin. lia.
  - replace (Z.to_nat c) with (S (Z.to_nat (c - 1))) by lia. cbn [drop]. rewrite <- (IH (k + 1) (c - 1)) by (done || lia).
    unfold retain. apply List.filter_ext. intros x. f_equal. lia.
Qed.

Lemma read_rows_all rows stored : Forall2 holds_row rows stored ->
  read_rows ir_id ir_data read_incident rows = zip (ir_id <$> rows) stored.
Proof.
  induction 1 as [|r i rows stored [Hd _] Hrest IH]; [done|]. unfold read_rows in *. cbn [omap list_omap].
  rewrite Hd. cbn [fmap option_fmap option_map zip_with zip list_fmap]. f_equal. exact IH.
Qed.

Lemma last_zip_fst {A B} (l : list A) (k : list B) : length l = length k -> fst <$> last (zip l k) = last l.
Proof.
  intros Hl. rewrite <- (fst_zip l k) at 2 by lia. by rewrite fmap_last.
Qed.

Lemma last_seqZ_drop n c m : (0 < m)%nat -> (c + m <= n)%nat ->
  last (take m (drop c (seqZ 1 (Z.of_nat n)))) = Some (Z.of_nat (c + m)).
Proof.
  intros Hm Hn. assert (length (take m (drop c (seqZ 1 (Z.of_nat n)))) = m) as Hl
    by (rewrite length_take, length_drop, length_seqZ; lia).
  rewrite last_lookup, Hl, lookup_take_lt, lookup_drop by lia.
  rewrite lookup_seqZ_lt by lia. f_equal. lia.
Qed.

(** A read returns the next page of unread incidents and moves the cursor past
    it. *)
Lemma read_page t got stored : reading_ok t got stored ->
  let '(t', page) := read_new_incidents t in
  page = take (Z.to_nat 5000) (drop (length got) stored) /\ reading_ok t' (got ++ page) stored.
Proof.
  intros [Hu Hr Hi Hc Hg]. unfold read_new_incidents, read_new_incidents_io, get_agent_cursor, incidents_since, conn. cbn [io_get_cursor io_rows io_set_cursor all_succeed]. rewrite Hu, Hc.
  set (c := length got) in *.
  assert (length (incidents t) = length stored) as Hlen by (by eapply Forall2_length).
  assert (c <= length stored)%nat as Hcl by (unfold c; rewrite Hg, length_take; lia).
  assert (retain (fun r => Z.of_nat c <? ir_id r) (incidents t) = drop c (incidents t)) as ->.
  { pose proof (retain_after_ids (incidents t) 0 (Z.of_nat c)) as H0. cbn in H0. rewrite Nat2Z.id in H0. apply H0; (done || lia). }
  change (sql_limit (usize_as_i64 5000) ?l) with (take (Z.to_nat 5000) l).
  generalize (Z.to_nat 5000). intros P.
  rewrite (read_rows_all _ (take P (drop c stored))) by (by apply Forall2_take, Forall2_drop).
  set (page := take P (drop c stored)).
  assert (length page = P `min` (length stored - c))%nat as Hpl by (unfold page; by rewrite length_take, length_drop).
  assert (length (ir_id <$> take P (drop c (incidents t))) = length page) as Hzl
    by (rewrite length_fmap, Hpl, length_take, length_drop; lia).
  destruct (last (zip (ir_id <$> take P (drop c (incidents t))) page)) as [[max_id i]|] eqn:El.
  - assert (0 < length page)%nat as Hpos.
    { destruct (decide (page = [])) as [E0|E0]; [by rewrite E0, zip_with_nil_r in El|]. destruct page; [done|cbn; lia]. }
    assert (max_id = Z.of_nat (c + length page)) as ->.
    { apply (f_equal (fmap fst)) in El. rewrite last_zip_fst in El by done. cbn in El.
      rewrite fmap_take, fmap_drop, Hi, Hlen in El.
      replace (take P (drop c (seqZ 1 (Z.of_nat (length stored))))) with
        (take (length page) (drop c (seqZ 1 (Z.of_nat (length stored))))) in El.
      - rewrite last_seqZ_drop in El by lia. congruence.
      - rewrite Hpl. destruct (decide (P <= length stored - c)%nat); [by rewrite Nat.min_l|].
        rewrite Nat.min_r by lia. rewrite !take_ge by (rewrite length_drop, length_seqZ; lia). done. }
    rewrite snd_zip by lia. split; [done|]. unfold set_agent_cursor. rewrite Hu. cbn [fst]. split; cbn; try done.
    + rewrite lookup_insert_eq. cbn. rewrite length_app. lia.
    + rewrite length_app. fold c. rewrite <- take_take_drop. rewrite <- Hg at 1. f_equal.
      rewrite Hpl. unfold page. destruct (decide (P <= length stored - c)%nat); [by rewrite Nat.min_l|].
      rewrite Nat.min_r by lia. by rewrite !take_ge by (rewrite length_drop; lia).
  - assert (page = []) as Hp0.
    { apply last_None in El. destruct page as [|p ps]; [done|]. destruct (take P (drop c (incidents t))); [cbn in Hzl; lia|discriminate]. }
    rewrite Hp0, app_nil_r. split; [done|]. by split.
Qed.

Lemma any_holds rows stored id : Forall2 holds_row rows stored ->
  any (fun r => String.eqb (ir_incident_id r) id) rows = any (fun i => String.eqb (in_incident_id i) id) stored.
Proof.
  unfold any. induction 1 as [|r i rows stored [_ Hid] _ IH]; [done|]. cbn. by rewrite Hid, IH.
Qed.

Lemma next_id_seq (rows : list IncidentRow) : ir_id <$> rows = seqZ 1 (Z.of_nat (length rows)) ->
  next_id ir_id rows = Z.of_nat (length rows) + 1.
Proof.
  intros Hi. unfold next_id. destruct (last rows) as [r|] eqn:El.
  - assert (last (ir_id <$> rows) = Some (ir_id r)) as H1 by (by rewrite fmap_last, El).
    rewrite Hi, last_lookup, length_seqZ, Nat2Z.id in H1. apply lookup_seqZ in H1 as [-> ?]. lia.
  - by apply last_None in El as ->.
Qed.

(** serde reads back the incident it printed. *)
Definition reads_back (o : TableOp) : Prop :=
  match o with OpInsert _ i => read_incident (incident_json i) = Some i | _ => True end.

Lemma step_reading s o stored : reads_back o -> reading_ok s.1 s.2 stored ->
  let stored' := match o with OpInsert _ i => add_first stored i | _ => stored end in
  reading_ok (table_step s o).1 (table_step s o).2 stored'.
Proof.
  destruct s as [t got]. cbn [fst snd]. intros Hb Hok. destruct o as [l i|id|e|]; cbn zeta; cbn [table_step fst snd].
  - destruct Hok as [Hu Hr Hi Hc Hg]. unfold insert_incident, add_first. rewrite Hu, (any_holds _ stored) by done.
    destruct (any _ stored); [by split|]. split; cbn; try done.
    + apply Forall2_app; [done|]. by repeat constructor.
    + rewrite fmap_app, length_app, Hi, Nat2Z.inj_add. cbn [fmap list_fmap ir_id incident_row]. rewrite next_id_seq by done.
      change (Z.of_nat (length [incident_row (Z.of_nat (length (incidents t)) + 1) i])) with 1.
      rewrite seqZ_app by lia. f_equal. rewrite (seqZ_cons _ 1) by lia. f_equal. lia.
    + rewrite take_app_le; [done|]. rewrite Hg, length_take. lia.
  - destruct Hok as [Hu Hr Hi Hc Hg]. unfold set_incident_allowlisted. rewrite Hu. split; cbn; try done.
    + apply Forall2_fmap_l. eapply Forall2_impl; [exact Hr|]. intros r i [??]. unfold compose, holds_row, allow_row. by destruct (String.eqb (ir_incident_id r) id).
    + rewrite length_fmap, <- Hi, <- list_fmap_compose. apply list_fmap_ext. intros _ r _. unfold compose, allow_row. by destruct (String.eqb (ir_incident_id r) id).
  - destruct Hok as [Hu Hr Hi Hc Hg]. unfold insert_event. rewrite Hu. by split.
  - pose proof (read_page t got stored Hok) as Hp. destruct (read_new_incidents t) as [t' page]. by destruct Hp as [_ Hp].
Qed.

Lemma run_reading ops : Forall reads_back ops -> reading_ok (table_run ops).1 (table_run ops).2 (inserted ops).
Proof.
  induction ops as [|o ops IH] using rev_ind.
  - intros _. split; cbn; try done.
  - intros [Hops [Ho _]%Forall_cons]%Forall_app. specialize (IH Hops).
    unfold table_run, inserted in *. rewrite !foldl_app. cbn [foldl]. by apply step_reading.
Qed.


(** A read whose cursor could not be written returns the same incidents again at the
    next read; a read whose cursor could not be read starts with the first incident
    there is. *)
Theorem failed_statements_reread (t : Tables) :
  (let '(t', got) := read_new_incidents_io {| io_get_cursor := true; io_rows := true; io_set_cursor := false |} t in
   got = (read_new_incidents t).2 /\ (read_new_incidents t').2 = got) /\
  (read_new_incidents_io {| io_get_cursor := false; io_rows := true; io_set_cursor := true |} t).2 =
  match incidents_since t 0 5000 with Ok rows => snd <$> rows | Err _ => [] end.
Proof.
  unfold read_new_incidents, read_new_incidents_io. cbn [io_get_cursor io_rows io_set_cursor all_succeed]. split.
  - set (c := match get_agent_cursor t "incidents" with Ok c => c | Err _ => 0 end).
    destruct (incidents_since t c 5000) as [rows|] eqn:E; [|by fold c; rewrite E].
    destruct (last rows) as [[max_id i]|] eqn:El; fold c; by rewrite E, El.
  - assert (match get_agent_cursor t "incidents" with Ok _ => 0 | Err _ => 0 end = 0) as -> by (by destruct (get_agent_cursor t "incidents")).
    destruct (incidents_since t 0 5000) as [rows|]; [|done]. destruct (last rows) as [[max_id i]|] eqn:El; [done|].
    by apply last_None in El as ->.
Qed.

(** A page of rows that do not read stops the cursor for good: nothing after
    it is ever returned. *)
Theorem unreadable_page_stalls (t : Tables) (page rest : list IncidentRow) :
  retain (fun r => default 0 (agent_cursors t !! "incidents") <? ir_id r) (incidents t) = page ++ rest ->
  length page = Z.to_nat 5000 -> Forall (fun r => read_incident (ir_data r) = None) page ->
  read_new_incidents t = (t, []).
Proof.
  intros Hr Hl Hp. unfold read_new_incidents, read_new_incidents_io, get_agent_cursor, incidents_since, conn. cbn [io_get_cursor io_rows io_set_cursor all_succeed]. destruct (usable t); [|done].
  rewrite Hr. change (sql_limit (usize_as_i64 5000) ?l) with (take (Z.to_nat 5000) l). rewrite <- Hl, take_app_length.
  assert (read_rows ir_id ir_data read_incident page = []) as ->; [|done].
  unfold read_rows. clear Hr Hl. induction Hp as [|r page Hn _ IH]; [done|]. cbn [omap list_omap]. by rewrite Hn.
Qed.

(** ** Backfill ends, unless events without an address keep coming *)

Lemma backfill_pending n rows : (n <= length (retain ip_pending rows))%nat ->
  length (retain ip_pending (backfill_rows n rows)) = (length (retain ip_pending rows) - n)%nat.
Proof.
  unfold retain. revert n. induction rows as [|r rows IH]; intros [|n]; cbn [backfill_rows List.filter length]; try (cbn; lia).
  destruct (ip_pending r) eqn:E; cbn [length List.filter].
  - intros Hn. change (ip_pending (set_src_ip r _)) with false. cbn [length]. rewrite IH; lia.
  - rewrite E. intros Hn. apply (IH (S n)). lia.
Qed.

Lemma backfill_other n rows : (fun r => (er_id r, er_ts r, er_kind r, er_data r)) <$> backfill_rows n rows
  = (fun r => (er_id r, er_ts r, er_kind r, er_data r)) <$> rows.
Proof.
  revert n. induction rows as [|r rows IH]; intros [|n]; cbn [backfill_rows]; try done.
  destruct (ip_pending r); cbn [fmap list_fmap]; by rewrite IH.
Qed.

(** A batch fills exactly as many rows as it says, the number still waiting
    falls by that number, and no other column changes: batches of at least one
    row end the backfill. *)
Theorem backfill_progress (t : Tables) (batch_size : Z) : usable t = true -> 0 < batch_size < 2 ^ 63 ->
  let '(t', r) := backfill_events_src_ip t batch_size in
  let waiting := Z.of_nat (length (pending_rows t)) in
  r = Ok (Z.min batch_size waiting) /\
  events_pending_src_ip_backfill t' = Ok (waiting - Z.min batch_size waiting) /\
  (fun r => (er_id r, er_ts r, er_kind r, er_data r)) <$> events t' = (fun r => (er_id r, er_ts r, er_kind r, er_data r)) <$> events t.
Proof.
  intros Hu Hb. unfold backfill_events_src_ip. rewrite Hu. cbn zeta.
  assert (usize_as_i64 batch_size = batch_size) as Eb.
  { unfold usize_as_i64, as_signed. rewrite wrap_small by (unfold in_width; lia). by rewrite (proj2 (Z.ltb_lt _ _)) by lia. }
  assert (length (sql_limit (usize_as_i64 batch_size) (pending_rows t)) = Z.to_nat batch_size `min` length (pending_rows t))%nat as El.
  { rewrite Eb. unfold sql_limit. rewrite (proj2 (Z.ltb_ge _ _)) by lia. apply length_take. }
  rewrite El. split_and!.
  - f_equal. lia.
  - unfold events_pending_src_ip_backfill, conn, usable in *. cbn [with_events tb_decisions]. rewrite Hu. f_equal.
    unfold pending_rows at 1. cbn [with_events events]. rewrite backfill_pending by (fold (pending_rows t); lia).
    fold (pending_rows t). lia.
  - cbn [with_events events]. apply backfill_other.
Qed.

(** But an event without an address is stored with none, not with the empty
    text, and waits like an old row: the count does not stay at zero. *)
Theorem new_event_waits (t : Tables) (e : Event) : usable t = true -> event_src_ip e = None ->
  pending_rows (insert_event t e).1 = pending_rows t ++ [event_row (next_id er_id (events t)) e].
Proof.
  intros Hu He. unfold insert_event. rewrite Hu. unfold pending_rows, retain. cbn [fst with_events events].
  rewrite List.filter_app. f_equal. cbn. unfold ip_pending. cbn. by rewrite He.
Qed.

(** ** Duplicates *)

(** The second incident of an id is not stored, and the answer is the row that
    the connection inserted last, whatever it was. *)
Theorem duplicate_incident_ignored (t : Tables) (l : Z) (i : Incident) (r : IncidentRow) :
  usable t = true -> r ∈ incidents t -> ir_incident_id r = in_incident_id i ->
  insert_incident t l i = (t, Ok l).
Proof.
  intros Hu Hr Hi. unfold insert_incident. rewrite Hu.
  rewrite (proj2 (any_true _ _)); [done|]. exists r. split; [done|]. rewrite Hi. apply String.eqb_refl.
Qed.

(** ** Retention *)

(** When every row is deleted the ids start again at one, below the cursor: the
    incidents that follow are not read until their ids have passed it. *)
Theorem retention_hides_incidents (t : Tables) (before_ts : string) (l c : Z) (i : Incident) :
  usable t = true -> agent_cursors t !! "incidents" = Some c -> 1 <= c ->
  Forall (fun r => str_ltb (ir_ts r) before_ts = true) (incidents t) ->
  let t' := (insert_incident (delete_incidents_before t before_ts).1 l i).1 in
  incidents t' = [incident_row 1 i] /\ read_new_incidents t' = (t', []).
Proof.
  intros Hu Hc H1 Hall. unfold delete_incidents_before. rewrite Hu. cbn [fst].
  assert (retain (fun r => negb (str_ltb (ir_ts r) before_ts)) (incidents t) = []) as ->.
  { apply list_filter_none. intros r Hr. by rewrite (proj1 (Forall_forall _ _) Hall r Hr). }
  unfold insert_incident, usable in *. cbn [with_incidents tb_decisions incidents any List.existsb]. rewrite Hu. cbn [fst]. split; [done|].
  unfold read_new_incidents, read_new_incidents_io, get_agent_cursor, incidents_since, conn, usable. cbn [io_get_cursor io_rows io_set_cursor all_succeed]. cbn [with_incidents tb_decisions incidents agent_cursors]. rewrite Hu, Hc.
  cbn [default from_option Datatypes.id]. change (retain (fun r => c <? ir_id r) ([] ++ [incident_row (next_id ir_id []) i]))
    with (if c <? 1 then [incident_row 1 i] else []). by rewrite (proj2 (Z.ltb_ge c 1)).
Qed.

End tables.

(** ** A run *)

#[local] Instance demo_chrono : Chrono := {| parse_utc _ := None; to_rfc3339 t := show t; fmt_minute t := show t |}.

Definition demo_incident (id : string) : Incident :=
  {| in_ts := 5; in_host := "h"; in_incident_id := id; in_severity := High; in_title := "t"; in_summary := "s"; in_evidence := JNull;
     in_recommended_checks := []; in_tags := []; in_entities := [] |}.

(** Incidents that differ in their id only, printed as it. *)
Definition demo_ops : list TableOp :=
  [OpInsert 0 (demo_incident "a"); OpInsert 0 (demo_incident "b"); OpRead; OpInsert 0 (demo_incident "a"); OpAllow "b";
   OpInsert 0 (demo_incident "c")].


(** The table emptied, and the cursor at two. *)
Definition demo_emptied : Tables :=
  with_agent_cursors (Tables_new) {["incidents" := 2]}.

Lemma retention_hides_incidents_witness :
  (read_new_incidents (fun s => Some (demo_incident s)) (insert_incident in_incident_id demo_emptied 0 (demo_incident "d")).1).2 = [].
Proof.
  pose proof (retention_hides_incidents in_incident_id (fun s => Some (demo_incident s)) demo_emptied "z" 0 2 (demo_incident "d")
    eq_refl eq_refl ltac:(lia) ltac:(constructor)) as [_ H0].
  exact (f_equal snd H0).
Defined.
