(* ===== verification/AgentSilence.v ===== *)
(** * AgentSilence: the alarm of silent telemetry
    (crates/agent/src/silent_stream_alarm.rs)

    A source that used to write events and has written none today is reported,
    and reported again when it is back.  The counts are those of the event table
    of StoreTables.v; what was reported of a source is kept in the key-value
    table of StoreKv.v, as JSON that serde prints and reads.  The calendar text
    of an instant and the notifications are arguments and effects. *)

From Stdlib Require Import ZArith Lia Ascii String SpecFloat.
From stdpp Require Import prelude strings gmap list sorting.
From S2P Require Import Prelude Text Json Floats CoreTypes StoreKv StoreDecisions StoreTables.

Local Open Scope string_scope.
Local Open Scope list_scope.
Local Open Scope Z_scope.

Record StreamSnapshot := { count_today : Z; count_baseline : Z; baseline_days : Z }.

Record StreamAlertState := { last_alerted_ts : option Z; alert_open : bool }.
Definition StreamAlertState_default : StreamAlertState := {| last_alerted_ts := None; alert_open := false |}.

Record SilentStreamConfig := {
  sc_enabled : bool;
  min_baseline_per_day : float;
  alert_after_hours : Z;
  cooldown_hours : Z;
}.
Definition SilentStreamConfig_default : SilentStreamConfig :=
  {| sc_enabled := true; min_baseline_per_day := f64_of_Z 100; alert_after_hours := 2; cooldown_hours := 6 |}.

Inductive AlertDecision := Alert | Recovery | SkipBaselineLow | SkipTooEarly | SkipCooldown | SkipHealthy.

#[export] Instance alert_decision_eq_dec : EqDecision AlertDecision.
Proof. solve_decision. Defined.

Definition baseline_per_day (snap : StreamSnapshot) : float :=
  if baseline_days snap =? 0 then f64_zero else f64_div (f64_of_Z (count_baseline snap)) (f64_of_Z (baseline_days snap)).

(** Whole hours since midnight UTC. *)
Definition hours_into_day (now : Z) : Z := num_seconds (now mod seconds 86400) / 3600.

Definition should_decide (snap : StreamSnapshot) (st : StreamAlertState) (cfg : SilentStreamConfig) (now : Z) : AlertDecision :=
  if alert_open st && (0 <? count_today snap) then Recovery
  else if 0 <? count_today snap then SkipHealthy
  else if f_ltb (baseline_per_day snap) (min_baseline_per_day cfg) then SkipBaselineLow
  else if hours_into_day now <? alert_after_hours cfg then SkipTooEarly
  else match last_alerted_ts st with
  | Some last => if num_seconds (now - last) <? cooldown_hours cfg * 3600 then SkipCooldown else Alert
  | None => Alert
  end.

Definition KV_NAMESPACE : string := "silent_stream_alert".
Definition BASELINE_DAYS : Z := 7.

(** The state of a source after a decision. *)
Definition next_state (st : StreamAlertState) (d : AlertDecision) (now : Z) : StreamAlertState :=
  match d with
  | Alert => {| last_alerted_ts := Some now; alert_open := true |}
  | Recovery => {| last_alerted_ts := last_alerted_ts st; alert_open := false |}
  | _ => st
  end.

(** [GROUP BY source] with [COUNT] of the rows that satisfy a condition. *)
Definition count_by_source (p : EventRow -> bool) (rows : list EventRow) : gmap string Z :=
  foldl (fun m r => if p r then <[er_source r := default 0 (m !! er_source r) + 1]> m else m) ∅ rows.

Definition written_today (today : string) (r : EventRow) : bool := like (today +:+ "%") (er_ts r).
Definition written_before (start today : string) (r : EventRow) : bool := negb (str_ltb (er_ts r) start) && str_ltb (er_ts r) today.

Lemma count_by_source_lookup p rows source :
  default 0 (count_by_source p rows !! source) = Z.of_nat (length (retain (fun r => p r && String.eqb (er_source r) source) rows)) /\
  (is_Some (count_by_source p rows !! source) <-> exists r, r ∈ rows /\ p r = true /\ er_source r = source).
Proof.
  unfold count_by_source. induction rows as [|r rows IH] using rev_ind.
  { cbn [foldl]. rewrite lookup_empty. split; [done|]. split; [by intros [? ?]|by intros (? & ?%elem_of_nil & _)]. }
  rewrite foldl_app. cbn [foldl]. rewrite retain_app_list, length_app, Nat2Z.inj_add.
  set (m := foldl _ ∅ rows) in *. destruct IH as [IH1 IH2]. unfold retain at 2. cbn [List.filter].
  assert (forall q : Prop, ((exists r', r' ∈ rows ++ [r] /\ p r' = true /\ er_source r' = source) <->
    (exists r', r' ∈ rows /\ p r' = true /\ er_source r' = source) \/ (p r = true /\ er_source r = source))) as Hex.
  { intros _. setoid_rewrite elem_of_app. setoid_rewrite list_elem_of_singleton. naive_solver. }
  specialize (Hex True). rewrite Hex. destruct (p r) eqn:Ep; cbn [andb].
  - destruct (String.eqb_spec (er_source r) source) as [<-|Hne].
    + rewrite lookup_insert_eq. cbn. rewrite IH1. split; [lia|]. split; [by right|done].
    + rewrite lookup_insert_ne by done. cbn. split; [lia|]. rewrite IH2. naive_solver.
  - cbn. split; [lia|]. rewrite IH2. naive_solver.
Qed.

Section alarm.
Context {S : Type} `{KvStore S} (fmt_date fmt_hour : Z -> string) (print_state : StreamAlertState -> string)
  (read_state : string -> option StreamAlertState).

Definition query_source_counts (t : Tables) (now : Z) : result (gmap string (Z * Z)) StoreError :=
  let today := fmt_date now in
  let start := fmt_date (now - seconds (86400 * BASELINE_DAYS)) in
  conn t (Ok (merge (fun a b => match a, b with None, None => None | _, _ => Some (default 0 a, default 0 b) end)
    (count_by_source (written_today today) (events t)) (count_by_source (written_before start today) (events t)))).

Definition load_state (s : S) (source : string) : StreamAlertState :=
  match kvi_get s KV_NAMESPACE source with
  | Ok (Some json) => default StreamAlertState_default (read_state json)
  | _ => StreamAlertState_default
  end.

Definition save_state (s : S) (clk source : string) (st : StreamAlertState) : S :=
  (kvi_set s clk KV_NAMESPACE source (print_state st) None).1.

Definition tick_mark : string := "`".

Definition build_alert_incident (source : string) (snap : StreamSnapshot) (now : Z) : Incident :=
  {| in_ts := now; in_host := "agent"; in_incident_id := "telemetry.stream_silence:" +:+ source +:+ ":" +:+ fmt_hour now; in_severity := High;
     in_title := "Telemetry stream silent: " +:+ source;
     in_summary := "Source " +:+ tick_mark +:+ source +:+ tick_mark +:+ " has produced 0 events today; trailing " +:+ show (baseline_days snap)
       +:+ "-day baseline was " +:+ show_fixed 0 (baseline_per_day snap)
       +:+ " events/day. Likely causes: collector daemon stopped, log file rotated and not reopened, or upstream feed broke. Verify "
       +:+ tick_mark +:+ "systemctl status <collector>" +:+ tick_mark +:+ " and rerun " +:+ tick_mark +:+ "innerwarden status" +:+ tick_mark
       +:+ " to confirm.";
     in_evidence := JObj [("source", JStr source); ("count_today", JInt (count_today snap)); ("baseline_days", JInt (baseline_days snap));
                          ("baseline_per_day", JFloat (baseline_per_day snap))];
     in_recommended_checks := ["systemctl status (or equivalent) of the " +:+ source +:+ " collector / daemon";
       "Check the most recent log file on disk for stale mtime";
       "Inspect " +:+ tick_mark +:+ "journalctl" +:+ tick_mark +:+ " for collector crash / restart loops"];
     in_tags := ["telemetry_silence"; "self_monitoring"]; in_entities := [entity_service source] |}.

Definition build_recovery_incident (source : string) (snap : StreamSnapshot) (now : Z) : Incident :=
  {| in_ts := now; in_host := "agent"; in_incident_id := "telemetry.stream_recovery:" +:+ source +:+ ":" +:+ fmt_hour now; in_severity := Info;
     in_title := "Telemetry stream recovered: " +:+ source;
     in_summary := "Source " +:+ tick_mark +:+ source +:+ tick_mark +:+ " is producing events again (" +:+ show (count_today snap)
       +:+ " events today). Previous silent-stream alert can be closed.";
     in_evidence := JObj [("source", JStr source); ("count_today", JInt (count_today snap))];
     in_recommended_checks := []; in_tags := ["telemetry_recovery"; "self_monitoring"]; in_entities := [entity_service source] |}.

(** One source of the tick: the store and what is sent. *)
Definition check_source (cfg : SilentStreamConfig) (now : Z) (clk : string) (acc : S * list Incident) (x : string * (Z * Z)) : S * list Incident :=
  let '(s, sent) := acc in
  let '(source, (today, baseline)) := x in
  let snap := {| count_today := today; count_baseline := baseline; baseline_days := BASELINE_DAYS |} in
  let st := load_state s source in
  let d := should_decide snap st cfg now in
  match d with
  | Alert => (save_state s clk source (next_state st d now), sent ++ [build_alert_incident source snap now])
  | Recovery => (save_state s clk source (next_state st d now), sent ++ [build_recovery_incident source snap now])
  | _ => (s, sent)
  end.

Definition check_silent_streams (cfg : SilentStreamConfig) (t : option Tables) (s : S) (now : Z) (clk : string) : S * list Incident :=
  if negb (sc_enabled cfg) then (s, [])
  else match t with
  | None => (s, [])
  | Some t => match query_source_counts t now with
              | Err _ => (s, [])
              | Ok counts => foldl (check_source cfg now clk) (s, []) (map_to_list counts)
              end
  end.

(** ** The counts *)

(** A source is looked at exactly when it has written today or in the week
    before, with its two counts. *)
Theorem counts_exact (t : Tables) (now : Z) (source : string) : usable t = true ->
  exists counts, query_source_counts t now = Ok counts /\
  let n p := Z.of_nat (length (retain (fun r => p r && String.eqb (er_source r) source) (events t))) in
  let today := written_today (fmt_date now) in
  let before := written_before (fmt_date (now - seconds (86400 * 7))) (fmt_date now) in
  counts !! source = if 0 <? n today + n before then Some (n today, n before) else None.
Proof.
  intros Hu. unfold query_source_counts, conn. rewrite Hu. eexists. split; [done|]. cbn zeta.
  set (today := written_today _). set (before := written_before _ _). change (seconds (86400 * 7)) with (seconds (86400 * BASELINE_DAYS)).
  rewrite lookup_merge. fold before.
  destruct (count_by_source_lookup today (events t) source) as [T1 T2]. destruct (count_by_source_lookup before (events t) source) as [B1 B2].
  assert (forall p, (exists r, r ∈ events t /\ p r = true /\ er_source r = source) <->
    0 < Z.of_nat (length (retain (fun r => p r && String.eqb (er_source r) source) (events t)))) as Hpos.
  { intros p. split.
    - intros (r & Hr & Hp & Hs). destruct (retain (fun r => p r && String.eqb (er_source r) source) (events t)) eqn:E; [|cbn [length]; lia].
      assert (r ∈ retain (fun r => p r && String.eqb (er_source r) source) (events t)) as Hin
        by (apply retain_elem; rewrite Hp, Hs, String.eqb_refl; done). rewrite E in Hin. by apply elem_of_nil in Hin.
    - intros Hl. destruct (retain (fun r => p r && String.eqb (er_source r) source) (events t)) as [|r l] eqn:E; [cbn in Hl; lia|].
      assert (r ∈ retain (fun r => p r && String.eqb (er_source r) source) (events t)) as Hin by (rewrite E; left).
      apply retain_elem in Hin as [Hin [Hp Hs%String.eqb_eq]%andb_true_iff]. by exists r. }
  rewrite Hpos, <- T1 in T2. rewrite Hpos, <- B1 in B2. rewrite <- T1, <- B1. unfold diag_None.
  destruct (count_by_source today (events t) !! source) as [a|], (count_by_source before (events t) !! source) as [b|]; cbn in *.
  - rewrite (proj2 (Z.ltb_lt _ _)); [done|]. assert (is_Some (Some a)) as ?%T2 by done. assert (is_Some (Some b)) as ?%B2 by done. lia.
  - rewrite (proj2 (Z.ltb_lt _ _)); [done|]. assert (is_Some (Some a)) as ?%T2 by done. lia.
  - rewrite (proj2 (Z.ltb_lt _ _)); [done|]. assert (is_Some (Some b)) as ?%B2 by done. lia.
  - done.
Qed.

(** ** The tick of a source *)

Context `{!KvLaws S} (read_print : forall st, read_state (print_state st) = Some st).

Lemma load_save s clk source source' st : kv_ok s ->
  load_state (save_state s clk source st) source' = if String.eqb source' source then st else load_state s source'.
Proof.
  intros Hs. unfold load_state, save_state. rewrite kvi_get_set by done.
  destruct (String.eqb_spec source' source) as [->|Hne]; [rewrite bool_decide_true by done; by rewrite read_print|].
  by rewrite bool_decide_false by congruence.
Qed.

(** The persisted state of a source moves as the policy says, that of the others
    stays, and exactly the alerts and recoveries are sent. *)
Theorem check_source_exact (cfg : SilentStreamConfig) (now : Z) (clk : string) (s : S) (sent : list Incident) (source : string) (today baseline : Z) :
  kv_ok s ->
  let snap := {| count_today := today; count_baseline := baseline; baseline_days := BASELINE_DAYS |} in
  let d := should_decide snap (load_state s source) cfg now in
  let '(s', sent') := check_source cfg now clk (s, sent) (source, (today, baseline)) in
  kv_ok s' /\
  (forall source', load_state s' source' = if String.eqb source' source then next_state (load_state s source) d now else load_state s source') /\
  sent' = sent ++ match d with
                  | Alert => [build_alert_incident source snap now]
                  | Recovery => [build_recovery_incident source snap now]
                  | _ => []
                  end.
Proof.
  intros Hs. cbn zeta. unfold check_source. set (snap := {| count_today := today; count_baseline := baseline; baseline_days := BASELINE_DAYS |}).
  assert (forall source', load_state s source' = if String.eqb source' source then load_state s source else load_state s source') as Hid
    by (intros source'; by destruct (String.eqb_spec source' source) as [->|]).
  destruct (should_decide snap (load_state s source) cfg now) eqn:Ed; cbn [next_state]; rewrite ?app_nil_r;
    (split_and!; [done || by apply kvi_set_ok| |done]); try exact Hid; intros source'; by rewrite load_save.
Qed.

End alarm.

(** ** One source over the ticks *)

(** The state of a source and what was sent of it, in order. *)
Definition stream_tick (cfg : SilentStreamConfig) (acc : StreamAlertState * list (AlertDecision * Z)) (x : StreamSnapshot * Z) :
    StreamAlertState * list (AlertDecision * Z) :=
  let d := should_decide x.1 acc.1 cfg x.2 in
  (next_state acc.1 d x.2, acc.2 ++ if bool_decide (d = Alert \/ d = Recovery) then [(d, x.2)] else []).

Definition stream_run (cfg : SilentStreamConfig) (ticks : list (StreamSnapshot * Z)) : StreamAlertState * list (AlertDecision * Z) :=
  foldl (stream_tick cfg) (StreamAlertState_default, []) ticks.

Definition alerts_of (sent : list (AlertDecision * Z)) : list Z := snd <$> retain (fun x => bool_decide (x.1 = Alert)) sent.

Definition spaced (gap : Z) (l : list Z) : Prop := forall i a b, l !! i = Some a -> l !! Datatypes.S i = Some b -> a + gap <= b.

(** A recovery comes right after an alert. *)
Definition recoveries_close (sent : list (AlertDecision * Z)) : Prop :=
  forall i now, sent !! i = Some (Recovery, now) -> exists j now', i = Datatypes.S j /\ sent !! j = Some (Alert, now').

Record stream_inv (cfg : SilentStreamConfig) (st : StreamAlertState) (sent : list (AlertDecision * Z)) : Prop := {
  si_last : last_alerted_ts st = last (alerts_of sent);
  si_open : alert_open st = true -> exists now, last sent = Some (Alert, now);
  si_spaced : spaced (seconds (3600 * cooldown_hours cfg)) (alerts_of sent);
  si_close : recoveries_close sent;
}.

Lemma alerts_snoc sent now : alerts_of (sent ++ [(Alert, now)]) = alerts_of sent ++ [now].
Proof. unfold alerts_of. by rewrite retain_app_list, fmap_app. Qed.

Lemma alerts_recovery sent now : alerts_of (sent ++ [(Recovery, now)]) = alerts_of sent.
Proof. unfold alerts_of. rewrite retain_app_list, fmap_app. cbn. apply app_nil_r. Qed.

Lemma spaced_snoc gap l b : spaced gap l -> (forall a, last l = Some a -> a + gap <= b) -> spaced gap (l ++ [b]).
Proof.
  intros Hs Hb i a c Ha Hc. destruct (decide (Datatypes.S i < length l)%nat) as [Hi|Hi].
  - rewrite lookup_app_l in Ha, Hc by lia. by apply (Hs i).
  - assert (Datatypes.S i = length l) as Hl by (apply lookup_lt_Some in Hc; rewrite length_app in Hc; cbn in Hc; lia).
    rewrite lookup_app_r, Hl, Nat.sub_diag in Hc by lia. injection Hc as <-. apply Hb.
    rewrite lookup_app_l in Ha by lia. by rewrite last_lookup, <- Hl.
Qed.

Lemma recoveries_snoc sent x : recoveries_close sent ->
  (forall now, x = (Recovery, now) -> exists now', last sent = Some (Alert, now')) -> recoveries_close (sent ++ [x]).
Proof.
  intros Hs Hx i now Hi. destruct (decide (i < length sent)%nat) as [Hl|Hl].
  - rewrite lookup_app_l in Hi by done. destruct (Hs i now Hi) as (j & now' & -> & Hj). exists j, now'.
    split; [done|]. by rewrite lookup_app_l by lia.
  - assert (i = length sent) as -> by (apply lookup_lt_Some in Hi; rewrite length_app in Hi; cbn in Hi; lia).
    rewrite lookup_app_r, Nat.sub_diag in Hi by lia. injection Hi as Hi. destruct (Hx now Hi) as [now' Hlast].
    rewrite last_lookup in Hlast. destruct sent as [|y sent]; [done|]. exists (length sent), now'. split; [done|].
    rewrite lookup_app_l by (cbn; lia). exact Hlast.
Qed.

Lemma num_seconds_ge d n : 0 < n -> n <= num_seconds d -> seconds n <= d.
Proof. unfold num_seconds, seconds, NANOS_PER_SEC. intros Hn Hd. pose proof (Z.quot_rem' d 1000000000). pose proof (Z.rem_bound_abs d 1000000000).
  destruct (Z.le_gt_cases 0 d); [pose proof (Z.rem_nonneg d 1000000000); lia|].
  assert (Z.quot d 1000000000 <= 0) by (apply Z.quot_le_upper_bound; lia). lia. Qed.

Lemma alert_after_cooldown snap st cfg now a :
  should_decide snap st cfg now = Alert -> last_alerted_ts st = Some a -> cooldown_hours cfg * 3600 <= num_seconds (now - a).
Proof. unfold should_decide. intros Hd Ha. rewrite Ha in Hd. repeat case_match; try done. by apply Z.ltb_ge. Qed.

Lemma recovery_of_open snap st cfg now : should_decide snap st cfg now = Recovery -> alert_open st = true.
Proof. unfold should_decide. intros Hd. destruct (alert_open st); [done|]. cbn [andb] in Hd. repeat case_match; done. Qed.

Lemma stream_run_inv cfg ticks : 0 < cooldown_hours cfg -> stream_inv cfg (stream_run cfg ticks).1 (stream_run cfg ticks).2.
Proof.
  intros Hc. unfold stream_run. induction ticks as [|[snap now] ticks IH] using rev_ind.
  { split; try done; by intros ?. }
  rewrite foldl_app. cbn [foldl]. destruct (foldl _ _ ticks) as [st sent]. cbn [fst snd] in IH |- *. destruct IH as [Hl Ho Hs Hr].
  unfold stream_tick. cbn [fst snd]. destruct (should_decide snap st cfg now) eqn:Ed; cbn [next_state].
  - rewrite bool_decide_true by (by left). split; cbn [last_alerted_ts alert_open].
    + by rewrite alerts_snoc, last_snoc.
    + intros _. exists now. apply last_snoc.
    + rewrite alerts_snoc. apply spaced_snoc; [done|]. intros a Ha. rewrite <- Hl in Ha.
      pose proof (alert_after_cooldown _ _ _ _ _ Ed Ha).
      assert (seconds (3600 * cooldown_hours cfg) <= now - a) by (apply num_seconds_ge; lia). lia.
    + apply recoveries_snoc; [done|]. by intros ? [= ].
  - rewrite bool_decide_true by (by right). split; cbn [last_alerted_ts alert_open].
    + by rewrite alerts_recovery.
    + done.
    + by rewrite alerts_recovery.
    + apply recoveries_snoc; [done|]. intros _ _. by apply Ho, (recovery_of_open snap _ cfg now).
  - rewrite bool_decide_false, app_nil_r by (by intros [?|?]). by split.
  - rewrite bool_decide_false, app_nil_r by (by intros [?|?]). by split.
  - rewrite bool_decide_false, app_nil_r by (by intros [?|?]). by split.
  - rewrite bool_decide_false, app_nil_r by (by intros [?|?]). by split.
Qed.

(** Whatever the counts and the clock do, the alerts of a source are at least
    the cooldown apart and every recovery answers the message before it, which is
    an alert. *)
Theorem alarm_disciplined (cfg : SilentStreamConfig) (ticks : list (StreamSnapshot * Z)) : 0 < cooldown_hours cfg ->
  let sent := (stream_run cfg ticks).2 in spaced (seconds (3600 * cooldown_hours cfg)) (alerts_of sent) /\ recoveries_close sent.
Proof. intros Hc. by destruct (stream_run_inv cfg ticks Hc). Qed.

(** ** The baseline that retention leaves *)

Lemma few_events_low n : 0 <= n < 700 ->
  f_ltb (f64_div (f64_of_Z n) (f64_of_Z 7)) (f64_of_Z 100) = true.
Proof.
  intros Hn. assert (Forall (fun n => f_ltb (f64_div (f64_of_Z n) (f64_of_Z 7)) (f64_of_Z 100) = true) (seqZ 0 700)) as Hall
    by (apply (bool_decide_unpack _); vm_compute; exact I).
  rewrite Forall_forall in Hall. apply Hall, elem_of_seqZ. lia.
Qed.

(** A source of which the table holds fewer than seven hundred events raises no
    alert, since they are divided by seven days; and retention keeps two: below
    three hundred and fifty events a day the alarm is mute. *)
Theorem retention_mutes_alarm (fmt_date : Z -> string) (t : Tables) (now : Z) (source : string) (st : StreamAlertState)
    (counts : gmap string (Z * Z)) (today baseline : Z) :
  (length (retain (fun r => String.eqb (er_source r) source) (events t)) < Z.to_nat 700)%nat ->
  query_source_counts fmt_date t now = Ok counts -> counts !! source = Some (today, baseline) ->
  should_decide {| count_today := today; count_baseline := baseline; baseline_days := BASELINE_DAYS |} st SilentStreamConfig_default now <> Alert.
Proof.
  intros Hn Hq Hl. unfold query_source_counts, conn in Hq. destruct (usable t); [|done]. injection Hq as <-.
  rewrite lookup_merge in Hl. set (before := written_before _ _) in Hl.
  destruct (count_by_source_lookup before (events t) source) as [B1 _].
  assert (baseline = Z.of_nat (length (retain (fun r => before r && String.eqb (er_source r) source) (events t)))) as Hb.
  { rewrite <- B1. unfold diag_None in Hl. destruct (count_by_source _ (events t) !! source) as [a|] eqn:Ea;
      destruct (count_by_source before (events t) !! source) as [b|] eqn:Eb; cbn in *; congruence. }
  assert (0 <= baseline < 700).
  { rewrite Hb. pose proof (retain_length before (retain (fun r => String.eqb (er_source r) source) (events t))) as Hle.
    rewrite retain_and in Hle. lia. }
  assert (f_ltb (baseline_per_day {| count_today := today; count_baseline := baseline; baseline_days := BASELINE_DAYS |}) (f64_of_Z 100) = true)
    as Hlow by (by apply few_events_low).
  unfold should_decide. cbn [count_today SilentStreamConfig_default min_baseline_per_day]. rewrite Hlow.
  destruct (alert_open st && _); [done|]. by destruct (0 <? today).
Qed.

(** ** Instances *)

Lemma alarm_disciplined_witness :
  let ticks := (fun h => ({| count_today := 0; count_baseline := 7000; baseline_days := 7 |}, seconds (3600 * h))) <$> seqZ 0 24 in
  let sent := (stream_run SilentStreamConfig_default ticks).2 in
  alerts_of sent = [seconds (3600 * 2); seconds (3600 * 8); seconds (3600 * 14); seconds (3600 * 20)] /\
  spaced (seconds (3600 * 6)) (alerts_of sent).
Proof.
  split; [vm_compute; reflexivity|].
  exact (proj1 (alarm_disciplined SilentStreamConfig_default
    ((fun h => ({| count_today := 0; count_baseline := 7000; baseline_days := 7 |}, seconds (3600 * h))) <$> seqZ 0 24) ltac:(reflexivity))).
Defined.
