(* ===== verification/AgentBreaker.v ===== *)
(** * AgentBreaker: the block-rate circuit breaker
    (crates/agent/src/circuit_breaker.rs)

    The breaker counts the block attempts of each UTC hour in the key-value
    store and refuses them once the hourly limit is crossed.  It is modelled
    and verified against the interface of [StoreKv], not against its table.
    The calendar fields and the RFC 3339 text are chrono's. *)

From Stdlib Require Import ZArith Lia String.
From stdpp Require Import prelude strings gmap list.
From S2P Require Import Prelude Text StoreKv.

Local Open Scope string_scope.
Local Open Scope list_scope.
Local Open Scope Z_scope.

Definition BREAKER_NS : string := "circuit_breaker".
Definition RATE_PREFIX : string := "block_rate".
Definition TRIPPED_PREFIX : string := "tripped_at".

Inductive Mode := Pause | LogOnly | DryRun.

#[export] Instance Mode_eq_dec : EqDecision Mode.
Proof. solve_decision. Defined.

Definition from_str_or_default (value : string) : Mode :=
  let v := to_ascii_lowercase (trim value) in
  if String.eqb v "pause" then Pause
  else if mem_str v ["dry_run"; "dry-run"; "dryrun"] then DryRun
  else if mem_str v ["log_only"; "log-only"; "logonly"] then LogOnly
  else Pause.

Definition as_label (m : Mode) : string :=
  match m with Pause => "pause" | LogOnly => "log_only" | DryRun => "dry_run" end.

Definition refuses_after_trip (m : Mode) : bool :=
  match m with Pause | DryRun => true | LogOnly => false end.

Inductive Decision :=
| Allow (count limit : Z) (hour : string)
| TripAndRefuse (count limit : Z) (hour : string)
| RefuseAfterTrip (count limit : Z) (hour : string)
| AutoRearm (count limit : Z) (hour : string).

Definition should_block (d : Decision) : bool :=
  match d with Allow _ _ _ | AutoRearm _ _ _ => true | _ => false end.

(** The calendar of a UTC instant. *)
Class Calendar := {
  cal_year : Z -> Z;
  cal_month : Z -> Z;
  cal_day : Z -> Z;
  cal_hour : Z -> Z;
}.

(** [{:0w}] of a signed integer: the sign counts in the width. *)
Definition show_pad (w : nat) (z : Z) : string :=
  if z <? 0 then "-" +:+ pad0 (w - 1) (show (- z)) else pad0 w (show z).

Definition format_hour `{Calendar} (now : Z) : string :=
  show_pad 4 (cal_year now) +:+ "-" +:+ show_pad 2 (cal_month now) +:+ "-" +:+
  show_pad 2 (cal_day now) +:+ "T" +:+ show_pad 2 (cal_hour now).

Definition rate_key (hour : string) : string := RATE_PREFIX +:+ "/" +:+ hour.
Definition tripped_key (hour : string) : string := TRIPPED_PREFIX +:+ "/" +:+ hour.

Section breaker.
Context {S : Type} `{KvStore S} `{Calendar} `{Chrono}.

Definition load_count (s : S) (hour : string) : Z :=
  default 0 (read_opt (kv_get_str s BREAKER_NS (rate_key hour)) ≫= parse_uint 64).

(** [clk] is the clock text the store stamps on the row; errors are ignored. *)
Definition persist_count (s : S) (clk hour : string) (count : Z) : S :=
  (kvi_set s clk BREAKER_NS (rate_key hour) (show count) None).1.

Definition tripped_at (s : S) (hour : string) : option string :=
  read_opt (kv_get_str s BREAKER_NS (tripped_key hour)).

Definition mark_tripped (s : S) (clk hour : string) (now : Z) : S :=
  (kvi_set s clk BREAKER_NS (tripped_key hour) (to_rfc3339 now) None).1.

Definition previous_hour_tripped (s : S) (now : Z) : bool :=
  bool_decide (is_Some (tripped_at s (format_hour (now - seconds 3600)))).

Definition check_and_record (s : S) (clk : string) (now limit : Z) (mode : Mode) : S * Decision :=
  let hour := format_hour now in
  let count := saturating_add 64 (load_count s hour) 1 in
  let s := persist_count s clk hour count in
  let tripped_before := bool_decide (is_Some (tripped_at s hour)) in
  let limit_crossed := limit <? count in
  match mode with
  | LogOnly => (s, Allow count limit hour)
  | _ =>
      match tripped_before, limit_crossed with
      | false, false =>
          if (count =? 1) && previous_hour_tripped s now then (s, AutoRearm count limit hour)
          else (s, Allow count limit hour)
      | false, true => (mark_tripped s clk hour now, TripAndRefuse count limit hour)
      | true, _ => (s, RefuseAfterTrip count limit hour)
      end
  end.

Definition reset (s : S) (now : Z) : S :=
  let hour := format_hour now in
  (kvi_delete (kvi_delete s BREAKER_NS (rate_key hour)).1 BREAKER_NS (tripped_key hour)).1.

Definition snapshot (s : S) (now : Z) : Z * option string :=
  let hour := format_hour now in (load_count s hour, tripped_at s hour).

(** A sequence of attempts, each with its clock text and instant. *)
Definition attempts (limit : Z) (mode : Mode) (s : S) (cs : list (string * Z)) : S :=
  foldl (fun s c => (check_and_record s c.1 c.2 limit mode).1) s cs.
End breaker.

(** ** What the breaker promises *)

Definition hour_count `{Calendar} (hour : string) (cs : list (string * Z)) : Z :=
  Z.of_nat (length (retain (fun c => String.eqb (format_hour c.2) hour) cs)).

(** The decision for the [n]-th attempt of an hour, when the hour before it
    saw [prev] attempts. *)
Definition nth_decision (limit n prev : Z) (hour : string) : Decision :=
  if n <=? limit then
    if (n =? 1) && (limit <? prev) then AutoRearm n limit hour else Allow n limit hour
  else if n =? limit + 1 then TripAndRefuse n limit hour
  else RefuseAfterTrip n limit hour.

Lemma rate_key_inj h h' : rate_key h = rate_key h' -> h = h'.
Proof. unfold rate_key. intros E. by apply (inj (String.append _)), (inj (String.append _)) in E. Qed.

Lemma tripped_key_inj h h' : tripped_key h = tripped_key h' -> h = h'.
Proof. unfold tripped_key. intros E. by apply (inj (String.append _)), (inj (String.append _)) in E. Qed.

Lemma rate_tripped_ne h h' : rate_key h <> tripped_key h'.
Proof. unfold rate_key, tripped_key, RATE_PREFIX, TRIPPED_PREFIX. intros E. discriminate E. Qed.

Section laws.
Context {S : Type} `{KvLaws S} `{Calendar} `{Chrono}.

Lemma load_persist s clk h h' c :
  kv_ok s -> 0 <= c < 2 ^ 64 ->
  load_count (persist_count s clk h c) h' = if String.eqb h' h then c else load_count s h'.
Proof.
  intros Hs Hc. unfold load_count, persist_count, kv_get_str. rewrite kvi_get_set by done.
  destruct (String.eqb_spec h' h) as [->|Hne].
  - rewrite bool_decide_true by done. simpl.
    rewrite from_utf8_lossy_ascii by apply show_ascii. by rewrite parse_show.
  - rewrite bool_decide_false; [done|]. intros [_ E]%pair_eq. by apply rate_key_inj in E.
Qed.

Lemma tripped_persist s clk h h' c :
  kv_ok s -> tripped_at (persist_count s clk h c) h' = tripped_at s h'.
Proof.
  intros Hs. unfold tripped_at, persist_count, kv_get_str. rewrite kvi_get_set by done.
  rewrite bool_decide_false; [done|]. intros [_ E]%pair_eq. by apply symmetry, rate_tripped_ne in E.
Qed.

Lemma load_mark s clk h h' now :
  kv_ok s -> load_count (mark_tripped s clk h now) h' = load_count s h'.
Proof.
  intros Hs. unfold load_count, mark_tripped, kv_get_str. rewrite kvi_get_set by done.
  rewrite bool_decide_false; [done|]. intros [_ E]%pair_eq. by apply rate_tripped_ne in E.
Qed.

Lemma tripped_mark s clk h h' now :
  kv_ok s ->
  is_Some (tripped_at (mark_tripped s clk h now) h') <-> h' = h \/ is_Some (tripped_at s h').
Proof.
  intros Hs. unfold tripped_at, mark_tripped, kv_get_str. rewrite kvi_get_set by done.
  case_bool_decide as E.
  - apply pair_eq in E as [_ E]. apply tripped_key_inj in E. simpl. split; [auto|]. intros _. eauto.
  - split; [auto|]. intros [->|?]; [by destruct E|done].
Qed.

(** The counters and the marker after a sequence of attempts on a store that
    holds nothing for the breaker. *)
Definition fresh (s : S) : Prop := forall k, kvi_get s BREAKER_NS k = Ok None.

Record breaker_inv (limit : Z) (cs : list (string * Z)) (s : S) : Prop := {
  bi_ok : kv_ok s;
  bi_count : forall h, load_count s h = hour_count h cs;
  bi_trip : forall h, is_Some (tripped_at s h) <-> limit < hour_count h cs }.

Lemma hour_count_snoc h cs c :
  hour_count h (cs ++ [c]) = hour_count h cs + if String.eqb (format_hour c.2) h then 1 else 0.
Proof.
  unfold hour_count, retain. rewrite List.filter_app, length_app. simpl. case_match; simpl; lia.
Qed.

Lemma hour_count_le h cs : 0 <= hour_count h cs <= Z.of_nat (length cs).
Proof. unfold hour_count. pose proof (retain_length (fun c => String.eqb (format_hour c.2) h) cs). lia. Qed.

(** One attempt on a store in the invariant. *)
Lemma check_and_record_step limit mode cs s c :
  breaker_inv limit cs s -> mode <> LogOnly -> 0 <= limit -> Z.of_nat (length cs) + 1 < 2 ^ 64 ->
  let h := format_hour c.2 in
  let prev := hour_count (format_hour (c.2 - seconds 3600)) cs in
  breaker_inv limit (cs ++ [c]) (check_and_record s c.1 c.2 limit mode).1 /\
  (check_and_record s c.1 c.2 limit mode).2 = nth_decision limit (hour_count h cs + 1) prev h.
Proof.
  intros [Hok Hcount Htrip] Hmode Hlim Hlen h prev.
  pose proof (hour_count_le h cs) as Hn. set (n := hour_count h cs) in *.
  assert (Hc : saturating_add 64 (load_count s h) 1 = n + 1).
  { rewrite Hcount. fold n. unfold saturating_add. lia. }
  set (s1 := persist_count s c.1 h (n + 1)).
  assert (Hok1 : kv_ok s1) by by apply kvi_set_ok.
  assert (Hcount1 : forall h', load_count s1 h' = hour_count h' (cs ++ [c])).
  { intros h'. unfold s1. rewrite load_persist, hour_count_snoc by (done || lia). fold h.
    rewrite (String.eqb_sym h h'). destruct (String.eqb_spec h' h) as [->|]; [done|]. rewrite Hcount. lia. }
  assert (Htrip1 : forall h', is_Some (tripped_at s1 h') <-> limit < hour_count h' cs).
  { intros h'. unfold s1. by rewrite tripped_persist. }
  assert (Hprev : previous_hour_tripped s1 c.2 = (limit <? prev)).
  { unfold previous_hour_tripped. destruct (limit <? prev) eqn:E; bool_to_prop;
      [apply bool_decide_eq_true|apply bool_decide_eq_false]; rewrite Htrip1; fold prev; lia. }
  assert (Htb : bool_decide (is_Some (tripped_at s1 h)) = (limit <? n)).
  { destruct (limit <? n) eqn:E; bool_to_prop; [apply bool_decide_eq_true|apply bool_decide_eq_false];
      rewrite Htrip1; fold n; lia. }
  assert (Hkeep : (limit < n + 1 -> limit < n) -> breaker_inv limit (cs ++ [c]) s1).
  { intros Himp. constructor; [done|done|]. intros h'. rewrite Htrip1, hour_count_snoc. fold h.
    destruct (String.eqb_spec h h') as [<-|]; [fold n; lia|]. by rewrite Z.add_0_r. }
  assert (Hmark : n = limit -> breaker_inv limit (cs ++ [c]) (mark_tripped s1 c.1 h c.2)).
  { intros Hnl. constructor; [by apply kvi_set_ok| |].
    - intros h'. by rewrite load_mark.
    - intros h'. rewrite tripped_mark, Htrip1, hour_count_snoc by done. fold h.
      destruct (String.eqb_spec h h') as [<-|]; [fold n; split; [lia|by left]|]. rewrite Z.add_0_r. naive_solver. }
  assert (Hgoal : check_and_record s c.1 c.2 limit mode =
    (if n =? limit then mark_tripped s1 c.1 h c.2 else s1, nth_decision limit (n + 1) prev h)).
  { unfold check_and_record. fold h. rewrite Hc. fold s1. cbv zeta. rewrite Htb, Hprev. unfold nth_decision.
    destruct mode; [|done|];
      destruct (limit <? n) eqn:E1, (limit <? n + 1) eqn:E2, (n + 1 <=? limit) eqn:E3,
        (n + 1 =? limit + 1) eqn:E4, (n =? limit) eqn:E5; bool_to_prop; try lia; try done;
      by destruct ((n + 1 =? 1) && (limit <? prev)). }
  rewrite Hgoal. cbn [fst snd]. split; [|done].
  destruct (n =? limit) eqn:E; bool_to_prop; [by apply Hmark|apply Hkeep; lia].
Qed.

Lemma attempts_inv limit mode s cs :
  kv_ok s -> fresh s -> mode <> LogOnly -> 0 <= limit -> Z.of_nat (length cs) < 2 ^ 64 ->
  breaker_inv limit cs (attempts limit mode s cs).
Proof.
  intros Hok Hf Hmode Hlim. induction cs as [|c cs IH] using rev_ind; intros Hlen.
  - constructor; [done| |]; intros h.
    + unfold load_count, kv_get_str. by rewrite Hf.
    + unfold tripped_at, kv_get_str. rewrite Hf. simpl. unfold hour_count. simpl.
      split; [by intros [? ?]|lia].
  - rewrite length_app in Hlen. simpl in Hlen. unfold attempts. rewrite foldl_app. simpl.
    apply check_and_record_step; [apply IH; lia|done|done|lia].
Qed.

(** C13. In a refusing mode, from a store without breaker entries, the n-th
    attempt of a UTC hour is allowed exactly while n is within the limit, the
    next one trips the breaker (once) and every later one of that hour is
    refused silently; a new hour starts from one again, announcing the re-arm
    exactly when the hour before it had crossed the limit.  The attempts may
    come in any order of hours. *)
Theorem breaker_decisions limit mode s cs c :
  kv_ok s -> fresh s -> mode <> LogOnly -> 0 <= limit -> Z.of_nat (length cs) + 1 < 2 ^ 64 ->
  (check_and_record (attempts limit mode s cs) c.1 c.2 limit mode).2 =
  nth_decision limit (hour_count (format_hour c.2) cs + 1)
    (hour_count (format_hour (c.2 - seconds 3600)) cs) (format_hour c.2).
Proof.
  intros Hok Hf Hmode Hlim Hlen.
  apply check_and_record_step; [apply attempts_inv; (done || lia)|done|done|lia].
Qed.

(** The operator's reset clears the counter and the marker of the current
    hour and of no other: the snapshot of that hour reads zero and untripped,
    every other hour reads as before. *)
Theorem reset_clears_hour (s : S) (now now' : Z) :
  kv_ok s ->
  snapshot (reset s now) now' =
  if String.eqb (format_hour now') (format_hour now) then (0, None) else snapshot s now'.
Proof.
  intros Hs. assert (Hs1 := kvi_delete_ok s BREAKER_NS (rate_key (format_hour now)) Hs).
  unfold snapshot, reset, load_count, tripped_at, kv_get_str.
  rewrite !kvi_get_delete by done.
  assert (Hp : forall k k', bool_decide ((BREAKER_NS, k) = (BREAKER_NS, k')) = String.eqb k k').
  { intros k k'. destruct (String.eqb_spec k k') as [->|]; [by rewrite bool_decide_true|].
    rewrite bool_decide_false; congruence. }
  rewrite !Hp. destruct (String.eqb_spec (format_hour now') (format_hour now)) as [->|Hne].
  - rewrite !String.eqb_refl. by destruct (String.eqb _ _).
  - rewrite !(proj2 (String.eqb_neq _ _)); try done.
    all: intros E; first [by apply Hne, rate_key_inj|by apply Hne, tripped_key_inj|
      by apply rate_tripped_ne in E|by apply symmetry, rate_tripped_ne in E].
Qed.
End laws.

(** ** Witnesses *)

(** A calendar that only distinguishes hours. *)
Definition demo_calendar : Calendar := {|
  cal_year := fun _ => 2026; cal_month := fun _ => 4; cal_day := fun _ => 18;
  cal_hour := fun t => t / seconds 3600 |}.
Definition demo_clock : Chrono := {|
  parse_utc := fun _ => None; to_rfc3339 := fun t => show t; fmt_minute := fun t => show t |}.

Definition empty_store : Store := {| st_usable := true; kv_state := ∅ |}.

Lemma breaker_decisions_witness :
  (@check_and_record Store _ demo_calendar demo_clock
     (@attempts Store _ demo_calendar demo_clock 1 Pause empty_store [("", 0)]) "" 1 1 Pause).2 =
  TripAndRefuse 2 1 "2026-04-18T00".
Proof.
  rewrite (@breaker_decisions Store _ _ demo_calendar demo_clock 1 Pause empty_store [("", 0)] ("", 1));
    [reflexivity|reflexivity|intros k; reflexivity|done|lia|simpl; lia].
Defined.

Lemma reset_clears_hour_witness :
  @snapshot Store _ demo_calendar
    (@reset Store _ demo_calendar
       (@attempts Store _ demo_calendar demo_clock 1 Pause empty_store [("", 0); ("", 1)]) 5) 7 = (0, None).
Proof.
  rewrite (@reset_clears_hour Store _ _ demo_calendar); [reflexivity|reflexivity].
Defined.
