(* ===== verification/AgentReportBudget.v ===== *)
(** * AgentReportBudget: the AbuseIPDB report budget
    (crates/agent/src/abuseipdb_report_budget.rs)

    Reports are planned against a per-address dedup entry and a daily counter
    of the key-value store, then dispatched; a successful report commits both.
    The safelist lookup and the HTTP call are arguments: [report_fn i] answers
    the [i]-th call of a flush.  As in [AgentBreaker], the store is only known
    through the interface of [StoreKv]. *)

From Stdlib Require Import ZArith Lia String.
From stdpp Require Import prelude strings gmap list.
From S2P Require Import Prelude Text StoreKv.

Local Open Scope string_scope.
Local Open Scope list_scope.
Local Open Scope Z_scope.

Definition REPORTED_NS : string := "abuseipdb_reported".
Definition LIMITS_NS : string := "abuseipdb_report_limits".

Inductive RejectReason := AlreadyReportedToday | DailyCapReached.

Definition as_metric_label (r : RejectReason) : string :=
  match r with AlreadyReportedToday => "already_reported" | DailyCapReached => "daily_cap" end.

Record ReportBudgetCommit := {
  rc_ip : string;
  rc_today : string;
  rc_new_count : Z;
}.

Inductive ReportBudgetDecision :=
| BudgetAllow (c : ReportBudgetCommit)
| BudgetReject (r : RejectReason).

Record FlushCounts := {
  fc_sent : Z;
  fc_dropped_cloud : Z;
  fc_dropped_dedup : Z;
  fc_dropped_cap : Z;
  fc_dropped_failed : Z;
}.

Definition FlushCounts_default : FlushCounts := {|
  fc_sent := 0; fc_dropped_cloud := 0; fc_dropped_dedup := 0; fc_dropped_cap := 0; fc_dropped_failed := 0 |}.

Inductive FlushOutcome :=
| Send (ip categories comment : string) (commit : option ReportBudgetCommit)
| SkipCloud (ip provider : string)
| Skip (ip : string) (reason : RejectReason).

(** A queue entry: address, comment, categories, instant. *)
Definition QueueEntry : Type := string * string * string * Z.

Definition daily_key (today : string) : string := "abuseipdb_report_daily_" +:+ today.

Section budget.
Context {S : Type} `{KvStore S} `{Chrono}.

Definition daily_count (s : S) (today : string) : Z :=
  default 0 (read_opt (kv_get_str s LIMITS_NS (daily_key today)) ≫= parse_uint 32).

(** [now] is the clock of the commit. *)
Definition apply_commit (c : ReportBudgetCommit) (s : S) (now : Z) : S :=
  let clk := to_rfc3339 now in
  let s := (kvi_set s clk LIMITS_NS (daily_key (rc_today c)) (show (rc_new_count c)) None).1 in
  let expiry := to_rfc3339 (now + seconds 86400) in
  (kvi_set s clk REPORTED_NS (rc_ip c) "1" (Some expiry)).1.

Definition check_report_budget (s : S) (ip today : string) (daily_cap : Z) : ReportBudgetDecision :=
  match read_opt (kvi_get s REPORTED_NS ip) with
  | Some _ => BudgetReject AlreadyReportedToday
  | None =>
      let count := daily_count s today in
      if daily_cap <=? count then BudgetReject DailyCapReached
      else BudgetAllow {| rc_ip := ip; rc_today := today; rc_new_count := wrapping_add 32 count 1 |}
  end.

(** [planned] is [planned_sends_this_batch]. *)
Fixpoint plan_from (planned : Z) (ready : list QueueEntry) (store : option S)
    (identify_provider : string -> option string) (today : string) (daily_cap : Z) : list FlushOutcome :=
  match ready with
  | [] => []
  | (ip, comment, categories, _) :: rest =>
      match identify_provider ip with
      | Some provider =>
          SkipCloud ip provider :: plan_from planned rest store identify_provider today daily_cap
      | None =>
          match store with
          | Some sq =>
              match check_report_budget sq ip today (saturating_sub daily_cap planned) with
              | BudgetAllow c =>
                  Send ip categories comment (Some c) ::
                  plan_from (saturating_add 32 planned 1) rest store identify_provider today daily_cap
              | BudgetReject reason =>
                  Skip ip reason :: plan_from planned rest store identify_provider today daily_cap
              end
          | None =>
              Send ip categories comment None ::
              plan_from (saturating_add 32 planned 1) rest store identify_provider today daily_cap
          end
      end
  end.

Definition plan_queue_flush (ready : list QueueEntry) (store : option S)
    (identify_provider : string -> option string) (today : string) (daily_cap : Z) : list FlushOutcome :=
  plan_from 0 ready store identify_provider today daily_cap.

Definition bump_counts (c : FlushCounts) (o : FlushOutcome) (ok : bool) : FlushCounts :=
  {| fc_sent := fc_sent c + match o with Send _ _ _ _ => if ok then 1 else 0 | _ => 0 end;
     fc_dropped_cloud := fc_dropped_cloud c + match o with SkipCloud _ _ => 1 | _ => 0 end;
     fc_dropped_dedup := fc_dropped_dedup c + match o with Skip _ AlreadyReportedToday => 1 | _ => 0 end;
     fc_dropped_cap := fc_dropped_cap c + match o with Skip _ DailyCapReached => 1 | _ => 0 end;
     fc_dropped_failed := fc_dropped_failed c + match o with Send _ _ _ _ => if ok then 0 else 1 | _ => 0 end |}.

(** [i] counts the HTTP calls made, [now i] is the clock at the commit of the
    [i]-th one. *)
Fixpoint dispatch_from (i : nat) (counts : FlushCounts) (outcomes : list FlushOutcome) (store : option S)
    (report_fn : nat -> string -> string -> string -> bool) (now : nat -> Z) : option S * FlushCounts :=
  match outcomes with
  | [] => (store, counts)
  | o :: rest =>
      match o with
      | Send ip categories comment commit =>
          let ok := report_fn i ip categories comment in
          let store := if ok then match store, commit with
                                  | Some sq, Some c => Some (apply_commit c sq (now i))
                                  | _, _ => store
                                  end
                       else store in
          dispatch_from (i + 1) (bump_counts counts o ok) rest store report_fn now
      | _ => dispatch_from i (bump_counts counts o true) rest store report_fn now
      end
  end.

Definition dispatch_flush_outcomes (outcomes : list FlushOutcome) (store : option S)
    (report_fn : nat -> string -> string -> string -> bool) (now : nat -> Z) : option S * FlushCounts :=
  dispatch_from 0 FlushCounts_default outcomes store report_fn now.

(** One flush of the slow loop: plan, then dispatch. *)
Definition flush (ready : list QueueEntry) (s : S) (identify_provider : string -> option string)
    (today : string) (daily_cap : Z) (report_fn : nat -> string -> string -> string -> bool)
    (now : nat -> Z) : option S * FlushCounts :=
  dispatch_flush_outcomes (plan_queue_flush ready (Some s) identify_provider today daily_cap)
    (Some s) report_fn now.
End budget.

(** ** Properties *)

Definition outcome_ip (o : FlushOutcome) : string :=
  match o with Send ip _ _ _ => ip | SkipCloud ip _ => ip | Skip ip _ => ip end.
Definition is_send (o : FlushOutcome) : bool := match o with Send _ _ _ _ => true | _ => false end.
Definition entry_ip (e : QueueEntry) : string := e.1.1.1.

Section plan.
Context {S : Type} `{KvStore S} (s : S) (identify : string -> option string) (today : string) (cap : Z).

Lemma daily_count_nonneg : 0 <= daily_count s today.
Proof.
  unfold daily_count. destruct (_ ≫= _) as [n|] eqn:E; simpl; [|lia].
  apply bind_Some in E as (t & _ & E). apply parse_uint_range in E. lia.
Qed.

Lemma plan_from_ips p ready store :
  outcome_ip <$> plan_from (S:=S) p ready store identify today cap = entry_ip <$> ready.
Proof.
  revert p. induction ready as [|[[[ip com] cat] t] ready IH]; intros p; [done|]. cbn [plan_from].
  rewrite fmap_cons. destruct (identify ip); [rewrite fmap_cons, IH; done|].
  destruct store; [|rewrite fmap_cons, IH; done].
  destruct (check_report_budget _ _ _ _); rewrite fmap_cons, IH; done.
Qed.

Lemma plan_from_sends p ready :
  0 <= p -> p + Z.of_nat (length ready) < 2 ^ 32 ->
  Z.of_nat (length (retain is_send (plan_from p ready (Some s) identify today cap))) <=
  Z.max 0 (cap - p - daily_count s today).
Proof.
  pose proof daily_count_nonneg. revert p.
  induction ready as [|[[[ip com] cat] t] ready IH]; intros p Hp Hlen; [simpl; lia|].
  cbn [plan_from length] in *. specialize (IH p) as IHp. specialize (IH (p + 1)) as IHn.
  destruct (identify ip); [simpl in *; apply IHp; lia|].
  unfold check_report_budget. destruct (read_opt (kvi_get s REPORTED_NS ip)); [simpl in *; apply IHp; lia|].
  destruct (saturating_sub cap p <=? daily_count s today) eqn:E; [simpl in *; apply IHp; lia|].
  bool_to_prop. unfold saturating_sub in E.
  replace (saturating_add 32 p 1) with (p + 1) by (unfold saturating_add; lia).
  cbn [retain List.filter is_send length]. specialize (IHn ltac:(lia) ltac:(lia)). unfold retain in IHn. lia.
Qed.

Lemma plan_from_send_inv p ready ip cat com c :
  Send ip cat com c ∈ plan_from p ready (Some s) identify today cap ->
  identify ip = None /\ read_opt (kvi_get s REPORTED_NS ip) = None /\
  c = Some {| rc_ip := ip; rc_today := today; rc_new_count := wrapping_add 32 (daily_count s today) 1 |}.
Proof.
  revert p. induction ready as [|[[[ip' com'] cat'] t] ready IH]; intros p; [by intros ?%elem_of_nil|].
  cbn [plan_from]. destruct (identify ip') eqn:Ei; [intros [?|?]%elem_of_cons; [done|eauto]|].
  unfold check_report_budget. destruct (read_opt (kvi_get s REPORTED_NS ip')) eqn:Er; [intros [?|?]%elem_of_cons; [done|eauto]|].
  destruct (_ <=? _); intros [?|?]%elem_of_cons; simplify_eq; eauto.
Qed.
End plan.

(** One flush keeps to the budget it reads: the plan handles every queue
    entry, in order; addresses of the safelist and addresses with a dedup
    entry are not sent; and no more reports are planned than the daily cap
    leaves over the persisted counter. *)
Theorem plan_within_budget {S : Type} `{KvStore S} (s : S) identify today cap ready :
  Z.of_nat (length ready) < 2 ^ 32 ->
  let plan := plan_queue_flush ready (Some s) identify today cap in
  outcome_ip <$> plan = entry_ip <$> ready /\
  Z.of_nat (length (retain is_send plan)) <= Z.max 0 (cap - daily_count s today) /\
  (forall o, o ∈ plan -> is_send o = true ->
     identify (outcome_ip o) = None /\ read_opt (kvi_get s REPORTED_NS (outcome_ip o)) = None).
Proof.
  intros Hlen plan. split_and!.
  - apply plan_from_ips.
  - pose proof (plan_from_sends s identify today cap 0 ready ltac:(lia) ltac:(lia)) as Hs.
    unfold plan, plan_queue_flush. lia.
  - intros [ip cat com c| |] Ho Hsend; try done.
    by apply plan_from_send_inv in Ho as (? & ? & _).
Qed.

Section commit.
Context {S : Type} `{KvLaws S} `{Chrono}.

Lemma daily_count_apply c s now today :
  kv_ok s -> 0 <= rc_new_count c < 2 ^ 32 ->
  kv_ok (apply_commit c s now) /\
  daily_count (apply_commit c s now) today =
  if String.eqb today (rc_today c) then rc_new_count c else daily_count s today.
Proof.
  intros Hs Hc. unfold apply_commit. cbv zeta.
  assert (Hs1 := kvi_set_ok s (to_rfc3339 now) LIMITS_NS (daily_key (rc_today c)) (show (rc_new_count c)) None Hs).
  split; [by apply kvi_set_ok|]. unfold daily_count, kv_get_str. rewrite !kvi_get_set by done.
  rewrite bool_decide_false by (intros [E _]%pair_eq; discriminate E).
  destruct (String.eqb_spec today (rc_today c)) as [->|Hne].
  - rewrite bool_decide_true by done. simpl. rewrite from_utf8_lossy_ascii by apply show_ascii.
    by rewrite parse_show.
  - rewrite bool_decide_false; [done|]. intros [_ E]%pair_eq.
    unfold daily_key in E. by apply (inj (String.append _)) in E.
Qed.

(** Dispatching outcomes whose commits all carry the same count. *)
Lemma dispatch_counter n today report_fn nowf : forall os i k s,
  kv_ok s -> 0 <= n < 2 ^ 32 -> daily_count s today = n \/ daily_count s today + 1 = n ->
  Forall (fun o => match o with
                   | Send ip _ _ c => c = Some {| rc_ip := ip; rc_today := today; rc_new_count := n |}
                   | _ => True end) os ->
  exists s', (dispatch_from i k os (Some s) report_fn nowf).1 = Some s' /\ kv_ok s' /\
    fc_sent k <= fc_sent (dispatch_from i k os (Some s) report_fn nowf).2 /\
    daily_count s' today =
      (if fc_sent k <? fc_sent (dispatch_from i k os (Some s) report_fn nowf).2 then n
       else daily_count s today).
Proof.
  induction os as [|o os IH]; intros i k s Hs Hn Hd Hall.
  - exists s. simpl. rewrite (proj2 (Z.ltb_ge _ _)) by lia. done.
  - apply Forall_cons in Hall as [Ho Hall]. destruct o as [ip cat com c|ip pr|ip r]; cbn [dispatch_from].
    + subst c. destruct (report_fn i ip cat com).
      * set (c := {| rc_ip := ip; rc_today := today; rc_new_count := n |}).
        destruct (daily_count_apply c s (nowf i) today Hs) as [Hs1 Hd1]; [done|].
        simpl in Hd1. rewrite String.eqb_refl in Hd1.
        destruct (IH (i + 1)%nat (bump_counts k (Send ip cat com (Some c)) true) (apply_commit c s (nowf i)))
          as (s' & E & Hok & Hle & Hc); [done|done|by left|done|].
        exists s'. simpl in Hle, Hc. rewrite Hd1 in Hc.
        split_and!; [done|done|lia|]. rewrite (proj2 (Z.ltb_lt _ _)) by lia. rewrite Hc. by case_match.
      * destruct (IH (i + 1)%nat (bump_counts k (Send ip cat com (Some {| rc_ip := ip; rc_today := today; rc_new_count := n |})) false) s)
          as (s' & E & Hok & Hle & Hc); [done..|].
        exists s'. simpl in Hle, Hc. rewrite Z.add_0_r in Hle, Hc. done.
    + destruct (IH i (bump_counts k (SkipCloud ip pr) true) s) as (s' & E & Hok & Hle & Hc); [done..|].
      exists s'. simpl in Hle, Hc. rewrite Z.add_0_r in Hle, Hc. done.
    + destruct (IH i (bump_counts k (Skip ip r) true) s) as (s' & E & Hok & Hle & Hc); [done..|].
      exists s'. simpl in Hle, Hc. rewrite Z.add_0_r in Hle, Hc. done.
Qed.

(** A flush that sends anything raises the persisted daily counter by
    exactly one, however many reports it sent: every commit of a batch carries
    the count read when the batch was planned, plus one. *)
Theorem flush_counts_once (s : S) ready identify today cap report_fn now :
  kv_ok s -> daily_count s today + 1 < 2 ^ 32 ->
  exists s', (flush ready s identify today cap report_fn now).1 = Some s' /\
    daily_count s' today =
      daily_count s today +
      if 0 <? fc_sent (flush ready s identify today cap report_fn now).2 then 1 else 0.
Proof.
  intros Hs Hn. pose proof (daily_count_nonneg s today).
  destruct (dispatch_counter (daily_count s today + 1) today report_fn now
    (plan_queue_flush ready (Some s) identify today cap) 0 FlushCounts_default s) as (s' & E & _ & _ & Hc).
  - done.
  - lia.
  - by right.
  - apply Forall_forall. intros [ip cat com c| |] Ho; try done.
    apply plan_from_send_inv in Ho as (_ & _ & ->). do 2 f_equal.
    apply wrapping_add_small. unfold in_width. lia.
  - exists s'. split; [done|]. change (fc_sent FlushCounts_default) with 0 in Hc.
    unfold flush, dispatch_flush_outcomes. rewrite Hc. destruct (0 <? _); lia.
Qed.
End commit.

(** ** The cap over a day of flushes *)

Definition demo_clock : Chrono := {|
  parse_utc := fun _ => None; to_rfc3339 := fun t => show t; fmt_minute := fun t => show t |}.
Definition empty_store : Store := {| st_usable := true; kv_state := ∅ |}.
Definition entry (ip : string) : QueueEntry := (ip, "c", "18", 0).

Definition flush_demo (s : option Store) (ips : list string) : option Store * Z :=
  match s with
  | Some s => let r := @flush Store _ demo_clock (entry <$> ips) s (fun _ => None) "2026-04-18" 3
                         (fun _ _ _ _ => true) (fun _ => 0) in (r.1, fc_sent r.2)
  | None => (None, 0)
  end.

(** The daily cap does not bound the reports of a day: with a cap of 3,
    three flushes on one day send six reports, because each flush advances the
    counter by one; and an address queued twice in one flush is reported
    twice. *)
Theorem daily_cap_exceeded :
  let r1 := flush_demo (Some empty_store) ["192.0.2.1"; "192.0.2.1"; "192.0.2.2"] in
  let r2 := flush_demo r1.1 ["192.0.2.3"; "192.0.2.4"; "192.0.2.5"] in
  let r3 := flush_demo r2.1 ["192.0.2.6"; "192.0.2.7"; "192.0.2.8"] in
  (r1.2, r2.2, r3.2) = (3, 2, 1).
Proof. reflexivity. Qed.

(** ** Witnesses *)

Lemma plan_within_budget_witness :
  Z.of_nat (length (retain is_send
    (plan_queue_flush (entry <$> ["192.0.2.1"; "192.0.2.2"]) (Some empty_store) (fun _ => None) "d" 1))) <= 1.
Proof.
  destruct (plan_within_budget empty_store (fun _ => None) "d" 1 (entry <$> ["192.0.2.1"; "192.0.2.2"]))
    as (_ & Hn & _); [simpl; lia|exact Hn].
Defined.

Lemma flush_counts_once_witness :
  exists s', (@flush Store _ demo_clock (entry <$> ["192.0.2.1"; "192.0.2.2"]) empty_store (fun _ => None) "d" 5
                (fun _ _ _ _ => true) (fun _ => 0)).1 = Some s' /\ daily_count s' "d" = 1.
Proof.
  destruct (@flush_counts_once Store _ _ demo_clock empty_store (entry <$> ["192.0.2.1"; "192.0.2.2"])
              (fun _ => None) "d" 5 (fun _ _ _ _ => true) (fun _ => 0)) as (s' & E & Hc).
  - reflexivity.
  - vm_compute. reflexivity.
  - exists s'. split; [exact E|]. rewrite Hc. reflexivity.
Defined.
