(* ===== verification/GuardProxy.v ===== *)
(** * GuardProxy: the MCP stdio proxy's pure core
    (crates/agent-guard/src/mcp_proxy/{jsonrpc,router,enforce}.rs)

    Parsing of a line, routing of a message to the inspectors, and the
    enforcement mode.  serde's reading and writing of an envelope and the
    inspectors of mcp.rs are arguments: what is shown holds for all of them. *)

From Stdlib Require Import ZArith Lia Ascii String.
From stdpp Require Import prelude strings list.
From S2P Require Import Prelude Text Json.

Local Open Scope string_scope.
Local Open Scope list_scope.
Local Open Scope Z_scope.

(** ** Envelopes *)

Record JsonRpcEnvelope := {
  jr_jsonrpc : string;
  jr_id : option Json;
  jr_method : option string;
  jr_params : option Json;
  jr_result : option Json;
  jr_error : option Json;
}.

Definition is_call (e : JsonRpcEnvelope) : bool := bool_decide (is_Some (jr_method e)).
Definition is_some {A} (o : option A) : bool := match o with Some _ => true | None => false end.
Definition is_response (e : JsonRpcEnvelope) : bool :=
  negb (is_some (jr_method e)) && (is_some (jr_result e) || is_some (jr_error e)).

Inductive ParsedLine :=
| Empty
| Message (e : JsonRpcEnvelope)
| Opaque (line : string).

(** [from_str] is serde's reading of an envelope. *)
Definition parse_line (from_str : string -> option JsonRpcEnvelope) (line : string) : ParsedLine :=
  if String.eqb (trim line) "" then Empty
  else match from_str line with
       | Some env => if String.eqb (jr_jsonrpc env) "2.0" then Message env else Opaque line
       | None => Opaque line
       end.

Definition newline : string := String (ascii_of_nat 10) "".

Definition serialize_fallback : string :=
  "{" +:+ quoted "jsonrpc" +:+ ":" +:+ quoted "2.0" +:+ "," +:+ quoted "error" +:+ ":{" +:+ quoted "code" +:+
  ":-32603," +:+ quoted "message" +:+ ":" +:+ quoted "serialize error" +:+ "}}".

(** [to_string] is serde's writing, [None] when it fails. *)
Definition serialize_line (to_string : JsonRpcEnvelope -> option string) (e : JsonRpcEnvelope) : string :=
  default serialize_fallback (to_string e) +:+ newline.

(** ** Verdicts (mcp.rs) *)

Record VerdictAlert := {
  va_rule : string;
  va_detail : string;
  va_block : bool;
  va_category : option string;
  va_owasp : option (list string);
  va_mitre : option (list string);
}.

Record Verdict := {
  vd_allowed : bool;
  vd_alerts : list VerdictAlert;
}.

(** ** Routing *)

Inductive Direction := ClientToServer | ServerToClient.

Definition label (d : Direction) : string :=
  match d with ClientToServer => "client->server" | ServerToClient => "server->client" end.

Record ProxyDecision := {
  pd_verdict : Verdict;
  pd_direction : string;
  pd_method : option string;
  pd_tool_name : option string;
  pd_request_id : option Json;
}.

Definition pass_through (dir : Direction) : ProxyDecision := {|
  pd_verdict := {| vd_allowed := true; vd_alerts := [] |}; pd_direction := label dir;
  pd_method := None; pd_tool_name := None; pd_request_id := None |}.

Definition extract_tool_call (env : JsonRpcEnvelope) : string * Json :=
  (default "" (p ← jr_params env; get_str p "name"),
   default JNull (p ← jr_params env; get p "arguments")).

Definition text_blocks (content : list Json) : list string :=
  omap (fun block => if bool_decide (get_str block "type" = Some "text") then get_str block "text" else None)
       content.

Definition concat_text_content (result : Json) : string :=
  join newline (text_blocks (default [] (get_array result "content"))).

Section proxy.
(** The inspectors, applied to the optional rule engine. *)
Context (inspect_tool_call : string -> Json -> Verdict).
Context (inspect_tool_description : string -> string -> Verdict).
Context (inspect_response : string -> Verdict).
Context (to_string : JsonRpcEnvelope -> option string).

Definition inspect_tools_list_result (result : Json) : Verdict :=
  foldl (fun acc tool =>
           let v := inspect_tool_description (default "" (get_str tool "name"))
                                             (default "" (get_str tool "description")) in
           {| vd_allowed := if vd_allowed v then vd_allowed acc else false;
              vd_alerts := vd_alerts acc ++ vd_alerts v |})
        {| vd_allowed := true; vd_alerts := [] |} (default [] (get_array result "tools")).

Definition route_client_to_server (env : JsonRpcEnvelope) : ProxyDecision :=
  if bool_decide (jr_method env = Some "tools/call") then
    let '(name, args) := extract_tool_call env in
    {| pd_verdict := inspect_tool_call name args; pd_direction := label ClientToServer;
       pd_method := Some "tools/call"; pd_tool_name := Some name; pd_request_id := jr_id env |}
  else pass_through ClientToServer.

Definition route_server_to_client (env : JsonRpcEnvelope) (responded_method : option string) : ProxyDecision :=
  match responded_method, jr_result env with
  | Some m, Some result =>
      if String.eqb m "tools/list" then
        {| pd_verdict := inspect_tools_list_result result; pd_direction := label ServerToClient;
           pd_method := Some "tools/list"; pd_tool_name := None; pd_request_id := jr_id env |}
      else if String.eqb m "tools/call" then
        {| pd_verdict := inspect_response (concat_text_content result); pd_direction := label ServerToClient;
           pd_method := Some "tools/call"; pd_tool_name := None; pd_request_id := jr_id env |}
      else pass_through ServerToClient
  | _, _ => pass_through ServerToClient
  end.

Definition route_message (env : JsonRpcEnvelope) (dir : Direction) (responded_method : option string)
  : ProxyDecision :=
  match dir with
  | ClientToServer => route_client_to_server env
  | ServerToClient => route_server_to_client env responded_method
  end.

(** ** Enforcement *)

Inductive ProxyMode := Advisory | Warn | Guard | KillMode.

Definition from_label (s : string) : ProxyMode :=
  let v := to_ascii_lowercase (trim s) in
  if String.eqb v "warn" then Warn
  else if String.eqb v "guard" then Guard
  else if String.eqb v "kill" then KillMode
  else Advisory.

Definition blocks (m : ProxyMode) : bool := match m with Guard | KillMode => true | _ => false end.

Inductive ProxyAction :=
| Forward
| ForwardWithAlert
| Block (response_line : string)
| Kill (response_line : string).

(** [serde_json::to_value] of the alerts: absent options are skipped. *)
Definition opt_field (k : string) (v : option Json) : list (string * Json) :=
  match v with Some j => [(k, j)] | None => [] end.
Definition alert_json (a : VerdictAlert) : Json :=
  JObj ([("rule", JStr (va_rule a)); ("detail", JStr (va_detail a)); ("block", JBool (va_block a))] ++
        opt_field "category" (JStr <$> va_category a) ++
        opt_field "owasp" ((fun l => JArr (JStr <$> l)) <$> va_owasp a) ++
        opt_field "mitre" ((fun l => JArr (JStr <$> l)) <$> va_mitre a)).

Definition denial_reason (alerts : list VerdictAlert) : string :=
  match List.find va_block alerts with
  | Some a => va_rule a +:+ ": " +:+ va_detail a
  | None => "blocked by agent-guard policy"
  end.

Definition denial_envelope (d : ProxyDecision) (as_protocol_error : bool) : JsonRpcEnvelope :=
  let reason := denial_reason (vd_alerts (pd_verdict d)) in
  if as_protocol_error then
    {| jr_jsonrpc := "2.0"; jr_id := pd_request_id d; jr_method := None; jr_params := None; jr_result := None;
       jr_error := Some (JObj [("code", JInt (-32602));
         ("message", JStr ("blocked by InnerWarden agent-guard: " +:+ reason));
         ("data", JObj [("agent_guard", JBool true);
                        ("alerts", JArr (alert_json <$> vd_alerts (pd_verdict d)))])]) |}
  else
    {| jr_jsonrpc := "2.0"; jr_id := pd_request_id d; jr_method := None; jr_params := None;
       jr_result := Some (JObj [("content", JArr [JObj [("type", JStr "text");
         ("text", JStr ("InnerWarden agent-guard blocked this tool call — " +:+ reason))]]);
         ("isError", JBool true)]);
       jr_error := None |}.

Definition synthesize_denial (d : ProxyDecision) (as_protocol_error : bool) : string :=
  serialize_line to_string (denial_envelope d as_protocol_error).

Definition apply_mode (d : ProxyDecision) (mode : ProxyMode) (as_protocol_error : bool) : ProxyAction :=
  let forward := match vd_alerts (pd_verdict d) with [] => Forward | _ => ForwardWithAlert end in
  let can_block := String.eqb (pd_direction d) "client->server" && negb (vd_allowed (pd_verdict d)) &&
                   is_some (pd_request_id d) in
  match mode with
  | Advisory | Warn => forward
  | Guard => if can_block then Block (synthesize_denial d as_protocol_error) else forward
  | KillMode => if can_block then Kill (synthesize_denial d as_protocol_error) else forward
  end.

(** ** Properties *)

(** The line written back instead of forwarding, if any. *)
Definition withheld (a : ProxyAction) : option string :=
  match a with Block l | Kill l => Some l | _ => None end.

(** A tool call the inspector refuses, with an id to answer. *)
Definition refused_call (env : JsonRpcEnvelope) : Prop :=
  jr_method env = Some "tools/call" /\ is_Some (jr_id env) /\
  vd_allowed (inspect_tool_call (extract_tool_call env).1 (extract_tool_call env).2) = false.

Lemma route_direction env dir responded : pd_direction (route_message env dir responded) = label dir.
Proof.
  destruct dir; simpl.
  - unfold route_client_to_server. case_bool_decide; [|done]. by destruct (extract_tool_call env).
  - unfold route_server_to_client. repeat case_match; done.
Qed.

Lemma apply_mode_withheld d mode ase :
  withheld (apply_mode d mode ase) =
  if blocks mode && (String.eqb (pd_direction d) "client->server" && negb (vd_allowed (pd_verdict d)) &&
                     is_some (pd_request_id d))
  then Some (synthesize_denial d ase) else None.
Proof.
  unfold apply_mode. destruct mode; cbn [blocks andb];
    try (destruct (_ && _); [done|]); by destruct (vd_alerts (pd_verdict d)).
Qed.

(** What guard and kill modes act on. *)
Lemma can_block_refused env dir responded :
  let d := route_message env dir responded in
  String.eqb (pd_direction d) "client->server" && negb (vd_allowed (pd_verdict d)) &&
    is_some (pd_request_id d) = true <->
  dir = ClientToServer /\ refused_call env.
Proof.
  cbv zeta. rewrite route_direction. destruct dir.
  - change (String.eqb (label ClientToServer) "client->server") with true. rewrite andb_true_l.
    simpl. unfold route_client_to_server, refused_call. case_bool_decide as Hm.
    + destruct (extract_tool_call env) as [name args]; simpl.
      rewrite andb_true_iff, negb_true_iff. unfold is_Some. destruct (jr_id env); naive_solver.
    + simpl. naive_solver.
  - change (String.eqb (label ServerToClient) "client->server") with false.
    rewrite !andb_false_l. split; [done|by intros [??]].
Qed.

(** A message is kept from its receiver only in guard or kill mode, only on
    its way to the server, and exactly when it is a tools/call request with an
    id that the inspector refuses; everything else is forwarded, with an alert
    exactly when the inspection raised one. *)
Theorem only_refused_calls_withheld env dir responded mode ase :
  let d := route_message env dir responded in
  (is_Some (withheld (apply_mode d mode ase)) <->
   blocks mode = true /\ dir = ClientToServer /\ refused_call env) /\
  (withheld (apply_mode d mode ase) = None ->
   apply_mode d mode ase = match vd_alerts (pd_verdict d) with [] => Forward | _ => ForwardWithAlert end).
Proof.
  intros d. pose proof (can_block_refused env dir responded) as Hr. fold d in Hr. split.
  - rewrite apply_mode_withheld. destruct (blocks mode); cbn [andb].
    + destruct (_ && is_some _) eqn:Eb; split; [|eauto|by intros [??]|].
      * intros _. apply Hr in Eb. naive_solver.
      * intros [_ Hc]. apply Hr in Hc. unfold d in *. congruence.
    + split; [by intros [??]|by intros (? & _)].
  - unfold apply_mode. destruct mode; try done; (destruct (_ && _); [done|done]).
Qed.

(** Whatever is withheld is answered: the line sent back is one serialized
    JSON-RPC 2.0 response that carries the id of the refused request verbatim
    and exactly one of result and error. *)
Theorem denial_answers_request env dir responded mode ase line :
  withheld (apply_mode (route_message env dir responded) mode ase) = Some line ->
  exists reply, line = serialize_line to_string reply /\ jr_jsonrpc reply = "2.0" /\
    jr_id reply = jr_id env /\ is_response reply = true /\ is_some (jr_result reply) = negb ase /\
    is_some (jr_error reply) = ase.
Proof.
  rewrite apply_mode_withheld. destruct (blocks mode); [|done]. cbn [andb].
  destruct (_ && _) eqn:E; [|done]. intros [= <-]. apply can_block_refused in E as [-> (Hm & _)].
  eexists. split; [reflexivity|].
  assert (Hid : pd_request_id (route_message env ClientToServer responded) = jr_id env).
  { simpl. unfold route_client_to_server. rewrite bool_decide_true by done. by destruct (extract_tool_call env). }
  unfold denial_envelope. destruct ase; cbn [jr_jsonrpc jr_id jr_result jr_error]; split_and!; done.
Qed.
End proxy.

(** ** Witness *)

Definition refuse_all (name : string) (args : Json) : Verdict := {|
  vd_allowed := false;
  vd_alerts := [{| va_rule := "r"; va_detail := name; va_block := true; va_category := None;
                   va_owasp := None; va_mitre := None |}] |}.
Definition allow_all : Verdict := {| vd_allowed := true; vd_alerts := [] |}.
Definition call_7 : JsonRpcEnvelope := {|
  jr_jsonrpc := "2.0"; jr_id := Some (JInt 7); jr_method := Some "tools/call";
  jr_params := Some (JObj [("name", JStr "rm")]); jr_result := None; jr_error := None |}.

Lemma denial_answers_request_witness :
  exists line reply,
    withheld (apply_mode (fun _ => None)
      (route_message refuse_all (fun _ _ => allow_all) (fun _ => allow_all) call_7 ClientToServer None)
      Guard false) = Some line /\
    line = serialize_line (fun _ => None) reply /\ jr_id reply = Some (JInt 7).
Proof.
  destruct (withheld (apply_mode (fun _ => None)
      (route_message refuse_all (fun _ _ => allow_all) (fun _ => allow_all) call_7 ClientToServer None)
      Guard false)) as [line|] eqn:E; [|discriminate E].
  destruct (denial_answers_request refuse_all (fun _ _ => allow_all) (fun _ => allow_all) (fun _ => None)
              call_7 ClientToServer None Guard false line E) as (reply & H1 & _ & H2 & _).
  exists line, reply. split; [reflexivity|]. split; [exact H1|exact H2].
Defined.
