(* ===== verification/Supervisor.v ===== *)
(** * Supervisor: the agent's process supervisor (crates/supervisor/src)

    [lib.rs] (the loop), [monitor.rs] (spawn, liveness, rate-limited restart),
    [health.rs] (the HTTP probe), [hook.rs], [symlink.rs].  Processes, the file
    system, the network and the clock are inputs of each step; what the
    supervisor does to the world is the list of effects of the step.  Error
    texts follow anyhow's alternate form, contexts joined by a colon: the loop
    decides by searching them. *)

From Stdlib Require Import ZArith Lia Ascii String.
From stdpp Require Import prelude strings list sorting.
From S2P Require Import Prelude Text.

Local Open Scope string_scope.
Local Open Scope list_scope.
Local Open Scope Z_scope.

Definition context {A} (c : string) (r : result A string) : result A string :=
  match r with Ok a => Ok a | Err e => Err (c +:+ ": " +:+ e) end.

(** ** Symlink check *)

(** [stat] is the answer of [symlink_metadata]: whether it is a symlink. *)
Definition ensure_not_symlink (path : string) (stat : result bool string) : result unit string :=
  match context ("stat: " +:+ path) stat with
  | Err e => Err e
  | Ok true => Err ("agent binary is a symlink - refusing to spawn from it: " +:+ path)
  | Ok false => Ok ()
  end.

(** ** Monitor *)

Record Monitor := {
  agent_binary : string;
  agent_args : list string;
  agent_pid : option Z;
  agent_child : bool;
  restart_times : list Z;
  max_restarts_per_hour : Z;
}.

Definition Monitor_new (binary : string) (args : list string) (max : Z) : Monitor := {|
  agent_binary := binary; agent_args := args; agent_pid := None; agent_child := false;
  restart_times := []; max_restarts_per_hour := max |}.

Definition set_process (m : Monitor) (pid : option Z) (child : bool) : Monitor := {|
  agent_binary := agent_binary m; agent_args := agent_args m; agent_pid := pid; agent_child := child;
  restart_times := restart_times m; max_restarts_per_hour := max_restarts_per_hour m |}.

Definition set_restarts (m : Monitor) (l : list Z) : Monitor := {|
  agent_binary := agent_binary m; agent_args := agent_args m; agent_pid := agent_pid m;
  agent_child := agent_child m; restart_times := l; max_restarts_per_hour := max_restarts_per_hour m |}.

(** [spawned] is the process the operating system starts, or its error. *)
Definition spawn_agent (m : Monitor) (stat : result bool string) (spawned : result Z string)
  : Monitor * result Z string :=
  match context "pre-spawn symlink check" (ensure_not_symlink (agent_binary m) stat) with
  | Err e => (m, Err e)
  | Ok _ =>
      match context ("spawn " +:+ agent_binary m) spawned with
      | Err e => (m, Err e)
      | Ok pid => (set_process m (Some pid) true, Ok pid)
      end
  end.

Definition attach (m : Monitor) (pid : Z) (pid_alive : bool) : Monitor * result unit string :=
  if negb pid_alive then (m, Err ("process " +:+ show pid +:+ " does not exist"))
  else (set_process m (Some pid) (agent_child m), Ok ()).

Inductive TryWait := Exited | Running | WaitError.

Definition is_alive (m : Monitor) (wait : TryWait) (pid_alive : Z -> bool) : Monitor * bool :=
  if agent_child m then
    match wait with
    | Exited => (set_process m (agent_pid m) false, false)
    | Running => (m, true)
    | WaitError => (m, false)
    end
  else (m, match agent_pid m with Some pid => pid_alive pid | None => false end).

Definition restart_count_last_hour (m : Monitor) : Z := Z.of_nat (length (restart_times m)).

Definition prune_old_restarts (m : Monitor) (now : Z) : Monitor :=
  let cutoff := now - seconds 3600 in
  set_restarts m (retain (fun t => cutoff <? t) (restart_times m)).

(** [now_prune] and [now_push] are the two clock readings. *)
Definition restart_agent (m : Monitor) (stat : result bool string) (spawned : result Z string)
    (now_prune now_push : Z) : Monitor * result Z string :=
  let m := set_process m (agent_pid m) false in
  let m := prune_old_restarts m now_prune in
  if max_restarts_per_hour m <=? Z.of_nat (length (restart_times m)) then
    (m, Err ("restart rate limit: " +:+ show (Z.of_nat (length (restart_times m))) +:+
             " in last hour (max " +:+ show (max_restarts_per_hour m) +:+ "). Manual intervention needed."))
  else
    let '(m, r) := spawn_agent m stat spawned in
    match r with
    | Err e => (m, Err e)
    | Ok pid => (set_restarts m (restart_times m ++ [now_push]), Ok pid)
    end.

(** ** Health probe *)

Fixpoint take_until (p : ascii -> bool) (s : string) : string :=
  match s with
  | EmptyString => EmptyString
  | String a r => if p a then EmptyString else String a (take_until p r)
  end.

(** [find(c)] then the slice before it. *)
Fixpoint before_char (c : ascii) (s : string) : option string :=
  match s with
  | EmptyString => None
  | String a r => if Ascii.eqb a c then Some EmptyString else String a <$> before_char c r
  end.

Definition authority_end (a : ascii) : bool :=
  Ascii.eqb a "/" || Ascii.eqb a "?" || Ascii.eqb a "#".

Definition url_is_loopback_https (url : string) : bool :=
  match strip_prefix "https://" (trim url) with
  | None => false
  | Some after_scheme =>
      let after_userinfo := last_piece "@" after_scheme in
      let authority := take_until authority_end after_userinfo in
      let host := match strip_prefix "[" authority ≫= before_char "]" with
                  | Some h => h
                  | None => first_piece ":" authority
                  end in
      mem_str host ["127.0.0.1"; "localhost"; "::1"]
  end.

Record HealthChecker := {
  agent_api : string;
  consecutive_failures : Z;
  max_failures : Z;
  skip_tls_verify : bool;
}.

Definition HealthChecker_new (api : string) : HealthChecker := {|
  agent_api := trim_end_by (fun a => Ascii.eqb a "/") api;
  consecutive_failures := 0; max_failures := 3;
  skip_tls_verify := url_is_loopback_https api |}.

Definition set_failures (h : HealthChecker) (n : Z) : HealthChecker := {|
  agent_api := agent_api h; consecutive_failures := n; max_failures := max_failures h;
  skip_tls_verify := skip_tls_verify h |}.

Definition maybe_fail (h : HealthChecker) : result unit string :=
  if max_failures h <=? consecutive_failures h then
    Err ("agent unresponsive: " +:+ show (consecutive_failures h) +:+ " consecutive health check failures")
  else Ok ().

(** [get url skip_tls] is the status of the response, or the transport error. *)
Definition check (h : HealthChecker) (get : string -> bool -> result Z string)
  : HealthChecker * result unit string :=
  match get (agent_api h +:+ "/livez") (skip_tls_verify h) with
  | Ok status =>
      if (200 <=? status) && (status <? 300) then (set_failures h 0, Ok ())
      else let h := set_failures h (wrapping_add 32 (consecutive_failures h) 1) in (h, maybe_fail h)
  | Err _ => let h := set_failures h (wrapping_add 32 (consecutive_failures h) 1) in (h, maybe_fail h)
  end.

(** ** The loop *)

Record SupervisorConfig := {
  sc_agent_binary : string;
  sc_agent_args : list string;
  sc_agent_api : string;
  sc_health_interval : Z;
  sc_max_restarts_per_hour : Z;
  sc_telegram_token : option string;
  sc_telegram_chat_id : option string;
}.

Definition SupervisorConfig_new (binary : string) : SupervisorConfig := {|
  sc_agent_binary := binary; sc_agent_args := []; sc_agent_api := "https://127.0.0.1:8787";
  sc_health_interval := seconds 30; sc_max_restarts_per_hour := 10;
  sc_telegram_token := None; sc_telegram_chat_id := None |}.

Inductive Effect :=
| AgentRestarted (old_pid new_pid : Z) (reason : string)
| RestartFailed (pid : Z) (msg : string)
| IntegrityViolation (msg : string)
| SigKill (pid : Z)
| Sleep (ns : Z).

(** What the world answers during one turn of the loop. *)
Record Turn := {
  tn_wait : TryWait;
  tn_pid_alive : Z -> bool;
  tn_hook : result unit string;
  tn_stat : result bool string;
  tn_spawned : result Z string;
  tn_now_prune : Z;
  tn_now_push : Z;
  tn_now_elapsed : Z;
  tn_get : string -> bool -> result Z string;
  tn_now_health : Z;
}.

Record SupState := {
  ss_monitor : Monitor;
  ss_health : HealthChecker;
  ss_last_health : Z;
}.

(** The restart part of a turn: state, effects, and whether to go on. *)
Definition turn_restart (m : Monitor) (t : Turn) : Monitor * list Effect * bool :=
  let '(m, alive) := is_alive m (tn_wait t) (tn_pid_alive t) in
  if alive then (m, [], true)
  else
    let old_pid := default 0 (agent_pid m) in
    match tn_hook t with
    | Err msg =>
        if contains "TAMPERED" msg then (m, [RestartFailed old_pid msg; IntegrityViolation msg], false)
        else (m, [RestartFailed old_pid msg; Sleep (seconds 5)], true)
    | Ok _ =>
        let '(m, r) := restart_agent m (tn_stat t) (tn_spawned t) (tn_now_prune t) (tn_now_push t) in
        match r with
        | Ok new_pid => (m, [AgentRestarted old_pid new_pid "process exited"], true)
        | Err msg =>
            if contains "rate limit" msg then (m, [RestartFailed old_pid msg], false)
            else (m, [RestartFailed old_pid msg; Sleep (seconds 5)], true)
        end
    end.

(** The health part of a turn. *)
Definition turn_health (config : SupervisorConfig) (m : Monitor) (h : HealthChecker) (last_health : Z)
    (t : Turn) : HealthChecker * Z * list Effect :=
  if sc_health_interval config <=? saturating_sub (tn_now_elapsed t) last_health then
    let '(h, r) := check h (tn_get t) in
    (h, tn_now_health t,
     match r with
     | Ok _ => []
     | Err _ => match agent_pid m with Some pid => [SigKill pid] | None => [] end
     end)
  else (h, last_health, []).

Definition turn (config : SupervisorConfig) (s : SupState) (t : Turn) : SupState * list Effect * bool :=
  let '(m, eff, go) := turn_restart (ss_monitor s) t in
  if negb go then
    ({| ss_monitor := m; ss_health := ss_health s; ss_last_health := ss_last_health s |}, eff, false)
  else
    let '(h, last_health, eff') := turn_health config m (ss_health s) (ss_last_health s) t in
    ({| ss_monitor := m; ss_health := h; ss_last_health := last_health |},
     eff ++ eff' ++ [Sleep (100 * NANOS_PER_MILLI)], true).

(** [run]: the checks of the first spawn, then turns until a signal (the end
    of the list) or a halt. *)
Fixpoint loop (config : SupervisorConfig) (s : SupState) (ts : list Turn) : SupState * list Effect :=
  match ts with
  | [] => (s, [])
  | t :: ts =>
      let '(s, eff, go) := turn config s t in
      if go then let '(s, eff') := loop config s ts in (s, eff ++ eff') else (s, eff)
  end.

Definition run (config : SupervisorConfig) (hook : result unit string) (stat : result bool string)
    (spawned : result Z string) (now : Z) (ts : list Turn) : result (SupState * list Effect) string :=
  let m := Monitor_new (sc_agent_binary config) (sc_agent_args config) (sc_max_restarts_per_hour config) in
  match context "initial spawn refused by RestartHook" hook with
  | Err e => Err e
  | Ok _ =>
      let '(m, r) := spawn_agent m stat spawned in
      match r with
      | Err e => Err e
      | Ok _ => Ok (loop config {| ss_monitor := m; ss_health := HealthChecker_new (sc_agent_api config);
                                   ss_last_health := now |} ts)
      end
  end.

(** ** Restart rate *)

Definition is_restart (e : Effect) : bool := match e with AgentRestarted _ _ _ => true | _ => false end.

(** The instants at which the loop restarted the agent. *)
Fixpoint restart_log (config : SupervisorConfig) (s : SupState) (ts : list Turn) : list Z :=
  match ts with
  | [] => []
  | t :: ts =>
      let '(s, eff, go) := turn config s t in
      (if any is_restart eff then [tn_now_push t] else []) ++ (if go then restart_log config s ts else [])
  end.

Fixpoint clock_readings (ts : list Turn) : list Z :=
  match ts with [] => [] | t :: ts => tn_now_prune t :: tn_now_push t :: clock_readings ts end.

(** In every hour that ends with a restart there are at most [max] restarts. *)
Definition hourly_rate_ok (max : Z) (log : list Z) : Prop :=
  forall l t k, log = l ++ t :: k ->
    Z.of_nat (length (retain (fun x => t - seconds 3600 <? x) (l ++ [t]))) <= max.

Lemma hourly_rate_snoc max log t :
  hourly_rate_ok max log ->
  Z.of_nat (length (retain (fun x => t - seconds 3600 <? x) (log ++ [t]))) <= max ->
  hourly_rate_ok max (log ++ [t]).
Proof.
  intros Hlog Ht l x k E. destruct k as [|y k _] using rev_ind.
  - apply app_inj_tail in E as [-> ->]. done.
  - rewrite app_comm_cons, app_assoc in E. apply app_inj_tail in E as [-> _]. by apply (Hlog l x k).
Qed.

(** What a turn does to the recorded restarts. *)
Lemma turn_restart_times m t m' eff go :
  turn_restart m t = (m', eff, go) ->
  let pruned := retain (fun x => tn_now_prune t - seconds 3600 <? x) (restart_times m) in
  max_restarts_per_hour m' = max_restarts_per_hour m /\
  if any is_restart eff then
    Z.of_nat (length pruned) < max_restarts_per_hour m /\ restart_times m' = pruned ++ [tn_now_push t]
  else restart_times m' = restart_times m \/ restart_times m' = pruned.
Proof.
  intros E pruned. unfold turn_restart, is_alive in E.
  assert (Hr : forall m0, restart_times m0 = restart_times m -> max_restarts_per_hour m0 = max_restarts_per_hour m ->
    forall m1 r, restart_agent m0 (tn_stat t) (tn_spawned t) (tn_now_prune t) (tn_now_push t) = (m1, r) ->
    max_restarts_per_hour m1 = max_restarts_per_hour m /\
    match r with
    | Ok _ => Z.of_nat (length pruned) < max_restarts_per_hour m /\ restart_times m1 = pruned ++ [tn_now_push t]
    | Err _ => restart_times m1 = pruned
    end).
  { intros m0 Ht Hm m1 r. unfold restart_agent, prune_old_restarts.
    cbn [set_process set_restarts restart_times max_restarts_per_hour]. rewrite Ht, Hm. fold pruned. cbv zeta.
    destruct (max_restarts_per_hour m <=? _) eqn:El; [intros [= <- <-]; done|]. bool_to_prop. unfold spawn_agent.
    destruct (context _ (ensure_not_symlink _ _)); [|intros [= <- <-]; done].
    destruct (context _ (tn_spawned t)); intros [= <- <-]; done. }
  assert (Ha : exists m0 alive, (restart_times m0 = restart_times m /\
             max_restarts_per_hour m0 = max_restarts_per_hour m) /\
    (if agent_child m then match tn_wait t with
       | Exited => (set_process m (agent_pid m) false, false) | Running => (m, true) | WaitError => (m, false) end
     else (m, match agent_pid m with Some pid => tn_pid_alive t pid | None => false end)) = (m0, alive)).
  { destruct (agent_child m), (tn_wait t); eexists _, _; (split; [|reflexivity]); done. }
  destruct Ha as (m0 & alive & [H1 H2] & Ha). rewrite Ha in E.
  destruct alive; [injection E as <- <- <-; cbn; by auto|].
  destruct (tn_hook t) as [u|msg]; [|destruct (contains "TAMPERED" msg); injection E as <- <- <-; cbn; by auto].
  destruct (restart_agent m0 _ _ _ _) as [m1 r] eqn:Er. destruct (Hr m0 H1 H2 m1 r Er) as [Hm Hres].
  destruct r as [pid|msg]; [injection E as <- <- <-; cbn; by auto|].
  destruct (contains "rate limit" msg); injection E as <- <- <-; cbn; by auto.
Qed.

Lemma turn_times config s t s' eff go :
  turn config s t = (s', eff, go) ->
  let m := ss_monitor s in let m' := ss_monitor s' in
  let pruned := retain (fun x => tn_now_prune t - seconds 3600 <? x) (restart_times m) in
  max_restarts_per_hour m' = max_restarts_per_hour m /\
  if any is_restart eff then
    Z.of_nat (length pruned) < max_restarts_per_hour m /\ restart_times m' = pruned ++ [tn_now_push t]
  else restart_times m' = restart_times m \/ restart_times m' = pruned.
Proof.
  unfold turn. destruct (turn_restart (ss_monitor s) t) as [[m eff1] go1] eqn:E.
  apply turn_restart_times in E. destruct go1; cbn [negb].
  - unfold turn_health. destruct (_ <=? _).
    + destruct (check _ _) as [h r]. intros [= <- <- <-]. cbn [ss_monitor].
      unfold any in *. rewrite !List.existsb_app. cbn. rewrite !orb_false_r.
      destruct r; [|destruct (agent_pid m)]; cbn; by rewrite !orb_false_r.
    + intros [= <- <- <-]. cbn [ss_monitor]. unfold any in *. rewrite !List.existsb_app. cbn. by rewrite !orb_false_r.
  - intros [= <- <- <-]. exact E.
Qed.

Lemma retain_cut_cut c c' (l : list Z) :
  c <= c' -> retain (fun t => c' <? t) (retain (fun t => c <? t) l) = retain (fun t => c' <? t) l.
Proof.
  intros Hc. unfold retain. induction l as [|x l IH]; [done|]. simpl.
  destruct (c <? x) eqn:E, (c' <? x) eqn:E'; simpl; rewrite ?E', IH; bool_to_prop; done || lia.
Qed.

Lemma retain_cut_length c c' (l : list Z) :
  c <= c' -> Nat.le (length (retain (fun t => c' <? t) l)) (length (retain (fun t => c <? t) l)).
Proof. intros Hc. rewrite <- (retain_cut_cut c c') by done. apply retain_length. Qed.

(** The monitor's list is the part of the log after some instant that left the
    window by the last clock reading [now]. *)
Definition restarts_inv (max : Z) (s : SupState) (log : list Z) (now : Z) : Prop :=
  max_restarts_per_hour (ss_monitor s) = max /\ hourly_rate_ok max log /\
  exists cut, cut <= now - seconds 3600 /\ restart_times (ss_monitor s) = retain (fun x => cut <? x) log /\
              Forall (fun x => x <= now) log.

Lemma turn_restarts_inv config max s log now t s' eff go :
  restarts_inv max s log now -> now <= tn_now_prune t -> tn_now_prune t <= tn_now_push t ->
  turn config s t = (s', eff, go) ->
  restarts_inv max s' (log ++ if any is_restart eff then [tn_now_push t] else []) (tn_now_push t).
Proof.
  intros (Hmax & Hrate & cut & Hcut & Htimes & Hlog) H1 H2 E.
  apply turn_times in E. cbv zeta in E. destruct E as [Hm E]. rewrite Hmax, Htimes in E.
  rewrite retain_cut_cut in E by lia. split; [congruence|].
  assert (Hlog' : Forall (fun x => x <= tn_now_push t) log).
  { eapply Forall_impl; [exact Hlog|]. simpl. lia. }
  assert (Hnew : (tn_now_prune t - seconds 3600 <? tn_now_push t) = true).
  { apply Z.ltb_lt. unfold seconds, NANOS_PER_SEC. lia. }
  destruct (any is_restart eff).
  - destruct E as [Hlen Hm']. split.
    + apply hourly_rate_snoc; [done|].
      etrans; [apply inj_le, (retain_cut_length (tn_now_prune t - seconds 3600)); lia|].
      unfold retain. rewrite List.filter_app, length_app. cbn. rewrite Hnew. cbn. unfold retain in Hlen. lia.
    + exists (tn_now_prune t - seconds 3600). split_and!; [lia| |].
      * rewrite Hm'. unfold retain. rewrite List.filter_app. cbn. by rewrite Hnew.
      * apply Forall_app. split; [done|]. by constructor.
  - rewrite app_nil_r. split; [done|]. destruct E as [->| ->].
    + exists cut. split_and!; [lia|done|done].
    + exists (tn_now_prune t - seconds 3600). split_and!; [lia|done|done].
Qed.

Lemma restart_log_inv config max : forall ts s log now,
  restarts_inv max s log now -> StronglySorted Z.le (now :: clock_readings ts) ->
  hourly_rate_ok max (log ++ restart_log config s ts).
Proof.
  induction ts as [|t ts IH]; intros s log now Hinv Hsort; cbn [restart_log].
  - rewrite app_nil_r. apply Hinv.
  - destruct (turn config s t) as [[s' eff] go] eqn:E. cbn [clock_readings] in Hsort.
    apply StronglySorted_inv in Hsort as [Hsort H1]. apply StronglySorted_inv in Hsort as [Hsort H2].
    apply Forall_cons in H1 as [H1 _]. apply Forall_cons in H2 as [H2 _].
    pose proof (turn_restarts_inv _ _ _ _ _ _ _ _ _ Hinv H1 H2 E) as Hinv'.
    rewrite app_assoc. destruct go; [|rewrite app_nil_r; apply Hinv'].
    apply (IH _ _ (tn_now_push t)); done.
Qed.

(** C33. However often the agent dies and whatever the operating system, the
    hook and the health probe answer, the supervisor restarts it at most
    max_restarts_per_hour times in any hour that ends with a restart, as long
    as the clock does not run backwards. *)
Theorem restarts_rate_limited config stat spawned start pid ts :
  (spawn_agent (Monitor_new (sc_agent_binary config) (sc_agent_args config) (sc_max_restarts_per_hour config))
     stat spawned).2 = Ok pid ->
  StronglySorted Z.le (start :: clock_readings ts) ->
  hourly_rate_ok (sc_max_restarts_per_hour config)
    (restart_log config
       {| ss_monitor := (spawn_agent (Monitor_new (sc_agent_binary config) (sc_agent_args config)
                                        (sc_max_restarts_per_hour config)) stat spawned).1;
          ss_health := HealthChecker_new (sc_agent_api config); ss_last_health := start |} ts).
Proof.
  intros Hspawn Hsort. apply (restart_log_inv config _ ts _ [] start); [|done].
  assert (Hm : restart_times (spawn_agent (Monitor_new (sc_agent_binary config) (sc_agent_args config)
                   (sc_max_restarts_per_hour config)) stat spawned).1 = [] /\
               max_restarts_per_hour (spawn_agent (Monitor_new (sc_agent_binary config) (sc_agent_args config)
                   (sc_max_restarts_per_hour config)) stat spawned).1 = sc_max_restarts_per_hour config).
  { unfold spawn_agent. destruct (context _ _); [destruct (context _ spawned)|]; done. }
  destruct Hm as [Hm1 Hm2]. split; [done|]. split; [by intros [|??] ? ? ?|].
  exists (start - seconds 3600). split; [lia|]. split; [exact Hm1|constructor].
Qed.

(** ** Health *)

Definition probe_ok (r : result Z string) : bool :=
  match r with Ok status => (200 <=? status) && (status <? 300) | Err _ => false end.

Definition probe (h : HealthChecker) (g : result Z string) : HealthChecker * result unit string :=
  check h (fun _ _ => g).
Definition probes (h : HealthChecker) (gs : list (result Z string)) : HealthChecker :=
  foldl (fun h g => (probe h g).1) h gs.

(** Failed probes at the front of a list (of the latest probes first). *)
Fixpoint leading_failures (gs : list (result Z string)) : Z :=
  match gs with g :: gs => if probe_ok g then 0 else 1 + leading_failures gs | [] => 0 end.

Lemma leading_failures_range gs : 0 <= leading_failures gs <= Z.of_nat (length gs).
Proof. induction gs as [|g gs IH]; simpl; [lia|]. destruct (probe_ok g); lia. Qed.

Lemma probe_step h g :
  (probe h g).1 = set_failures h (if probe_ok g then 0 else wrapping_add 32 (consecutive_failures h) 1) /\
  ((exists e, (probe h g).2 = Err e) <->
   probe_ok g = false /\ max_failures h <= wrapping_add 32 (consecutive_failures h) 1).
Proof.
  unfold probe, check, probe_ok, maybe_fail. destruct g as [status|e]; [destruct (_ && _)|];
    cbn [set_failures consecutive_failures max_failures fst snd]; (split; [done|]);
    try (split; [by intros [??]|by intros [??]]);
    destruct (_ <=? _) eqn:E; bool_to_prop; (split; [|intros [_ ?]]); eauto; try lia; by intros [??].
Qed.

Lemma probes_state h gs :
  consecutive_failures h = 0 -> Z.of_nat (length gs) < 2 ^ 32 ->
  consecutive_failures (probes h gs) = leading_failures (reverse gs) /\ max_failures (probes h gs) = max_failures h.
Proof.
  intros H0. induction gs as [|g gs IH] using rev_ind; intros Hlen; [done|].
  rewrite length_app in Hlen. simpl in Hlen. destruct IH as [IH1 IH2]; [lia|].
  unfold probes. rewrite foldl_app. cbn [foldl]. fold (probes h gs).
  destruct (probe_step (probes h gs) g) as [-> _]. cbn [set_failures consecutive_failures max_failures].
  rewrite reverse_snoc. cbn [leading_failures]. split; [|done]. destruct (probe_ok g); [done|].
  rewrite IH1. pose proof (leading_failures_range (reverse gs)) as Hr. rewrite length_reverse in Hr.
  rewrite wrapping_add_small; [lia|]. unfold in_width. lia.
Qed.

(** The probe asks for the agent to be killed exactly when it and the two
    probes before it failed: fewer failures never do, and a success in between
    starts the count again. *)
Theorem health_kills_after_three api gs g :
  Z.of_nat (length gs) + 1 < 2 ^ 32 ->
  (exists e, (probe (probes (HealthChecker_new api) gs) g).2 = Err e) <->
  exists l a b, gs = l ++ [a; b] /\ probe_ok a = false /\ probe_ok b = false /\ probe_ok g = false.
Proof.
  intros Hlen. destruct (probe_step (probes (HealthChecker_new api) gs) g) as [_ ->].
  destruct (probes_state (HealthChecker_new api) gs) as [-> ->]; [done|lia|].
  cbn [HealthChecker_new max_failures].
  pose proof (leading_failures_range (reverse gs)) as Hr. rewrite length_reverse in Hr.
  rewrite wrapping_add_small by (unfold in_width; lia).
  rewrite <- (reverse_involutive gs). set (r := reverse gs). rewrite reverse_involutive.
  clearbody r. clear. split.
  - intros [Hg Hn]. destruct r as [|b [|a r]]; cbn [leading_failures] in Hn; [lia|destruct (probe_ok b); lia|].
    destruct (probe_ok b) eqn:Eb; [lia|]. destruct (probe_ok a) eqn:Ea; [lia|].
    exists (reverse r), a, b. rewrite !reverse_cons, <- app_assoc. done.
  - intros (l & a & b & E & Ea & Eb & Eg). split; [done|].
    apply (f_equal reverse) in E. rewrite reverse_involutive, reverse_app in E. subst r.
    cbn. rewrite Ea, Eb. pose proof (leading_failures_range (reverse l)). lia.
Qed.

(** The loopback test can be talked into skipping certificate checks for
    another host: the userinfo is cut at the last @ of the whole rest of the
    URL, so an @ in the path makes what follows it the host. *)
Theorem loopback_test_fooled :
  url_is_loopback_https "https://attacker.example/x@localhost" = true /\
  skip_tls_verify (HealthChecker_new "https://attacker.example/x@localhost") = true /\
  url_is_loopback_https "https://attacker.example/x" = false.
Proof. repeat split; reflexivity. Qed.

(** ** Witnesses *)

Definition quiet_turn (at_ : Z) : Turn := {|
  tn_wait := Exited; tn_pid_alive := fun _ => false; tn_hook := Ok (); tn_stat := Ok false;
  tn_spawned := Ok 42; tn_now_prune := seconds at_; tn_now_push := seconds at_;
  tn_now_elapsed := seconds at_; tn_get := fun _ _ => Ok 200; tn_now_health := seconds at_ |}.

Lemma restarts_rate_limited_witness :
  hourly_rate_ok 10 (restart_log (SupervisorConfig_new "agent")
    {| ss_monitor := (spawn_agent (Monitor_new "agent" [] 10) (Ok false) (Ok 7)).1;
       ss_health := HealthChecker_new "https://127.0.0.1:8787"; ss_last_health := 0 |}
    [quiet_turn 1; quiet_turn 2]).
Proof.
  apply (restarts_rate_limited (SupervisorConfig_new "agent") (Ok false) (Ok 7) 0 7); [reflexivity|].
  repeat (constructor; [|repeat constructor; simpl; unfold seconds, NANOS_PER_SEC; lia]). constructor.
Defined.

Lemma health_kills_after_three_witness :
  exists e, (probe (probes (HealthChecker_new "https://127.0.0.1:8787") [Ok 200; Ok 503; Err "refused"])
               (Ok 500)).2 = Err e.
Proof.
  apply health_kills_after_three; [simpl; lia|].
  exists [Ok 200], (Ok 503), (Err "refused"). split_and!; reflexivity.
Defined.
