(* ===== verification/SensorHost.v ===== *)
(** * SensorHost: what the sensor knows of its own host
    (crates/sensor/src/detectors/mod.rs)

    The private-address test every network detector starts with, and the
    readers of /proc/net/fib_trie and /proc/net/tcp that give the host's own
    addresses and listening ports.  The two start-up tables are arguments:
    [test_external_ips] is the override set, empty when it was never set. *)

From Stdlib Require Import ZArith Lia Ascii String.
From stdpp Require Import prelude strings list gmap.
From S2P Require Import Prelude Text Net CoreTypes.

Local Open Scope string_scope.
Local Open Scope list_scope.
Local Open Scope Z_scope.

(** The process-wide tables, set once at start-up. *)
Class HostInventory := {
  test_external_ips : gset string;
  own_ips : gset string;
  own_listening_ports : gset Z;
}.

Section HostInventory.
Context `{HostInventory}.

Definition is_own_ip (ip : string) : bool := bool_decide (ip ∈ own_ips).
Definition is_own_listening_port (port : Z) : bool := bool_decide (port ∈ own_listening_ports).

Definition is_internal_ip (ip : string) : bool :=
  if bool_decide (ip ∈ test_external_ips) then false
  else
    match parse_ip ip with
    | None => false
    | Some (V4 v4) =>
        v4_is_loopback v4 || v4_is_private v4 || v4_is_link_local v4
        || v4_is_broadcast v4 || v4_is_documentation v4 || v4_is_unspecified v4
    | Some (V6 v6) => v6_is_loopback v6 || v6_is_unspecified v6
    end.

End HostInventory.

(** ** /proc/net/fib_trie: a leaf line is followed by its scope line *)

Fixpoint parse_own_ips_lines (ls : list string) : gset string :=
  match ls with
  | [] => ∅
  | line :: rest =>
      let found :=
        match strip_prefix "|-- " (trim line), rest with
        | Some ip_str, next :: _ =>
            if contains "/32 host LOCAL" (trim next)
               && negb (starts_with "127." ip_str) && negb (starts_with "169.254." ip_str)
            then {[ip_str]} else ∅
        | _, _ => ∅
        end in
      found ∪ parse_own_ips_lines rest
  end.
Definition parse_own_ips (content : string) : gset string := parse_own_ips_lines (lines content).

(** ** /proc/net/tcp: the LISTEN rows give their local port *)

Definition listening_port (line : string) : option Z :=
  match split_whitespace line with
  | _ :: local :: _ :: st :: _ =>
      if negb (String.eqb st "0A") then None
      else match split_on ":" local with
           | _ :: port_hex :: _ =>
               match from_str_radix16 16 port_hex with
               | Some port => if 0 <? port then Some port else None
               | None => None
               end
           | _ => None
           end
  | _ => None
  end.
Definition parse_listening_ports (content : string) : gset Z :=
  list_to_set (omap listening_port (tail (lines content))).

(** [discover_listening_ports] over what could be read of the two tables. *)
Definition discover_listening_ports (tcp tcp6 : option string) : gset Z :=
  from_option parse_listening_ports ∅ tcp ∪ from_option parse_listening_ports ∅ tcp6.

Definition init_host_inventory (ext : gset string) (fib_trie tcp tcp6 : option string) : HostInventory :=
  {| test_external_ips := ext;
     own_ips := from_option parse_own_ips ∅ fib_trie;
     own_listening_ports := discover_listening_ports tcp tcp6 |}.

(** ** /proc/PID/exe: a comm on the list counts only from a system path *)

Definition is_verified_infra_process (comm : string) (exe : option string)
  (allowed_comms : list string) : bool :=
  if negb (any (fun c => starts_with c comm) allowed_comms) then false
  else
    match exe with
    | Some p =>
        starts_with "/usr/" p || starts_with "/snap/" p || starts_with "/opt/" p
        || starts_with "/sbin/" p || starts_with "/bin/" p
    | None => true
    end.

(** Every listening port read from the tables is a 16-bit port other than 0. *)
Lemma listening_port_range line p : listening_port line = Some p -> 0 < p < 2 ^ 16.
Proof.
  unfold listening_port. intros E. repeat case_match; simplify_eq. bool_to_prop.
  split; [lia|]. unfold from_str_radix16, parse_radix in *. repeat case_match; simplify_eq; by bool_to_prop.
Qed.

Lemma parse_listening_ports_range content p :
  p ∈ parse_listening_ports content -> 0 < p < 2 ^ 16.
Proof.
  unfold parse_listening_ports. rewrite elem_of_list_to_set, list_elem_of_omap.
  intros (line & _ & E). by eapply listening_port_range.
Qed.
