(* ===== verification/SensorWindow.v ===== *)
(** * SensorWindow: the sliding window shared by the threshold detectors
    (crates/sensor/src/detectors)

    The threshold detectors of the sensor share one mechanism: a queue of
    samples per key, trimmed at the front by age, a threshold test over what
    is left, and at most one alert per key and window.  [observe] is that
    code; [WindowDetector] is the interface through which a detector is shown
    to use it; the theorems of this file hold for every instance: the verdicts
    are those of an abstract detector that keeps the whole log
    ([refines_log]), and the alerts of a key are a window apart
    ([alerts_spaced]). *)

From Stdlib Require Import ZArith Lia Ascii String Sorted.
From stdpp Require Import prelude strings list gmap.
From S2P Require Import Prelude Text Json CoreTypes.

Local Open Scope Z_scope.

(** The fields the detector structs have in common; [d_extra] holds the
    further settings of some of them. *)
Record Detector (X A : Type) := {
  d_host : string;
  d_threshold : Z;
  d_window : Z;
  d_extra : X;
  d_windows : gmap string (list A);
  d_alerted : gmap string Z;
}.
Arguments d_host {X A}. Arguments d_threshold {X A}. Arguments d_window {X A}.
Arguments d_extra {X A}. Arguments d_windows {X A}. Arguments d_alerted {X A}.

(** [new]: [Duration::seconds(window_seconds as i64)] and empty maps. *)
Definition new_detector {X A} (host : string) (threshold window_seconds : Z) (extra : X)
  : Detector X A :=
  {| d_host := host; d_threshold := threshold; d_window := seconds (as_signed 64 window_seconds);
     d_extra := extra; d_windows := ∅; d_alerted := ∅ |}.

Definition with_windows {X A} (d : Detector X A) (ws : gmap string (list A)) (al : gmap string Z)
  : Detector X A :=
  {| d_host := d_host d; d_threshold := d_threshold d; d_window := d_window d;
     d_extra := d_extra d; d_windows := ws; d_alerted := al |}.

(** The queue after a sample: samples older than the window leave at the
    front, the new one joins at the back. *)
Definition slide {A} (stamp : A -> Z) (cutoff : Z) (x : A) (entries : list A) : list A :=
  drop_while (fun y => stamp y <? cutoff) entries ++ [x].

(** Whether an alert of [key] is younger than the window. *)
Definition suppressed (alerted : gmap string Z) (key : string) (now window : Z) : bool :=
  match alerted !! key with Some last => now - last <? window | None => false end.

(** One sample [x] of [key] at [now]; the queue is returned when an incident
    is due. *)
Definition observe {X A} (stamp : A -> Z) (ripe : list A -> bool) (d : Detector X A)
  (key : string) (x : A) (now : Z) : Detector X A * option (list A) :=
  let entries := slide stamp (now - d_window d) x (default [] (d_windows d !! key)) in
  let d := with_windows d (<[key := entries]> (d_windows d)) (d_alerted d) in
  if negb (ripe entries) then (d, None)
  else if suppressed (d_alerted d) key now (d_window d) then (d, None)
  else (with_windows d (d_windows d) (<[key := now]> (d_alerted d)), Some entries).

(** Two states of a detector with the same settings. *)
Definition same_config {X A} (d d' : Detector X A) : Prop :=
  d_host d = d_host d' /\ d_threshold d = d_threshold d' /\ d_window d = d_window d'
  /\ d_extra d = d_extra d'.

#[export] Instance same_config_equiv {X A} : Equivalence (@same_config X A).
Proof.
  unfold same_config. split; [done|intros ??; naive_solver|].
  intros ??? (->&->&->&->). done.
Qed.

Lemma observe_config {X A} stamp ripe (d : Detector X A) k x now :
  same_config (fst (observe stamp ripe d k x now)) d.
Proof. unfold observe. by repeat case_match. Qed.

(** An incident that depends on the settings alone may be built before or
    after the state is updated. *)
Lemma observe_render {X A} stamp ripe (d d0 : Detector X A) k x now fired
  (f : Detector X A -> list A -> Incident) :
  observe stamp ripe d k x now = (d0, fired) ->
  (same_config d0 d -> f d0 = f d) ->
  (d0, option_map (f d0) fired) = (d0, option_map (f d) fired).
Proof.
  intros Ho Hf. pose proof (observe_config stamp ripe d k x now) as Hc. rewrite Ho in Hc.
  by rewrite (Hf Hc).
Qed.

(** ** The interface of a window detector *)

Class WindowDetector {X A} (process : Detector X A -> Event -> Detector X A * option Incident) := {
  stamp : A -> Z;
  (** the sample an event contributes, if any *)
  extract : Detector X A -> Event -> option (string * A);
  (** the threshold test over a queue *)
  ripe : Detector X A -> list A -> bool;
  (** the incident made of a queue *)
  render : Detector X A -> Event -> string -> list A -> Incident;
  extract_proper :: Proper (same_config ==> eq ==> eq) extract;
  ripe_proper :: Proper (same_config ==> eq ==> eq) ripe;
  render_proper :: Proper (same_config ==> eq ==> eq ==> eq ==> eq) render;
  extract_stamp d e k x : extract d e = Some (k, x) -> stamp x = ev_ts e;
  process_observes d e :
    process d e =
      match extract d e with
      | None => (d, None)
      | Some (k, x) =>
          let '(d', fired) := observe stamp (ripe d) d k x (ev_ts e) in
          (d', option_map (render d e k) fired)
      end;
}.

(** Feeding events one by one, with what each made the detector report. *)
Fixpoint run {D E O} (process : D -> E -> D * O) (d : D) (evs : list E) : D * list O :=
  match evs with
  | [] => (d, [])
  | e :: evs =>
      let '(d, o) := process d e in
      let '(d, os) := run process d evs in
      (d, o :: os)
  end.

Lemma run_app {D E O} (process : D -> E -> D * O) d evs1 evs2 :
  run process d (evs1 ++ evs2) =
    let '(d1, o1) := run process d evs1 in
    let '(d2, o2) := run process d1 evs2 in (d2, o1 ++ o2).
Proof.
  revert d. induction evs1 as [|e evs IH]; intros d; simpl.
  - by destruct (run process d evs2).
  - destruct (process d e) as [d' o]. rewrite IH.
    destruct (run process d' evs) as [d1 o1]. by destruct (run process d1 evs2).
Qed.

(** ** The abstract detector: it keeps every sample and every alert *)

Section Spec.
Context {X A : Type} (process : Detector X A -> Event -> Detector X A * option Incident).
Context `{!WindowDetector process}.

Record History := { h_samples : list (string * A); h_alerts : list (string * Z) }.
Definition no_history : History := {| h_samples := []; h_alerts := [] |}.

(** The samples of [key] not older than [window] at [now], oldest first. *)
Definition recent (samples : list (string * A)) (key : string) (now window : Z) : list A :=
  snd <$> retain (fun kx => String.eqb (fst kx) key && (now - window <=? stamp (snd kx))) samples.

Definition recent_alert (alerts : list (string * Z)) (key : string) (now window : Z) : bool :=
  any (fun kt => String.eqb (fst kt) key && (now - snd kt <? window)) alerts.

Definition spec_process (d : Detector X A) (h : History) (e : Event) : History * option Incident :=
  match extract d e with
  | None => (h, None)
  | Some (k, x) =>
      let samples := h_samples h ++ [(k, x)] in
      let entries := recent samples k (ev_ts e) (d_window d) in
      if ripe d entries && negb (recent_alert (h_alerts h) k (ev_ts e) (d_window d))
      then ({| h_samples := samples; h_alerts := h_alerts h ++ [(k, ev_ts e)] |},
            Some (render d e k entries))
      else ({| h_samples := samples; h_alerts := h_alerts h |}, None)
  end.

(** ** The simulation between a detector and the abstract one *)

Definition samples_of (k : string) (samples : list (string * A)) : list A :=
  snd <$> retain (fun kx => String.eqb (fst kx) k) samples.

Definition last_alert_is (alerts : list (string * Z)) (k : string) (last : option Z) : Prop :=
  match last with
  | Some t => (k, t) ∈ alerts /\ forall t', (k, t') ∈ alerts -> t' <= t
  | None => forall t, (k, t) ∉ alerts
  end.

Record simulates (d : Detector X A) (h : History) (now : Z) : Prop := {
  sim_sorted k : StronglySorted (fun x y => stamp x <= stamp y) (default [] (d_windows d !! k));
  sim_bound k : Forall (fun x => stamp x <= now) (default [] (d_windows d !! k));
  sim_recent k t : now <= t ->
    retain (fun x => t - d_window d <=? stamp x) (default [] (d_windows d !! k))
    = retain (fun x => t - d_window d <=? stamp x) (samples_of k (h_samples h));
  sim_alerts k : last_alert_is (h_alerts h) k (d_alerted d !! k);
  sim_alert_bound k t : (k, t) ∈ h_alerts h -> t <= now;
}.

Lemma recent_samples_of samples k now w :
  recent samples k now w = retain (fun x => now - w <=? stamp x) (samples_of k samples).
Proof.
  unfold recent, samples_of, retain. induction samples as [|[k' x] l IH]; [done|].
  simpl. destruct (String.eqb k' k); simpl; [|done].
  by destruct (now - w <=? stamp x); simpl; f_equal.
Qed.

Lemma samples_of_app k l1 l2 : samples_of k (l1 ++ l2) = samples_of k l1 ++ samples_of k l2.
Proof. unfold samples_of, retain. by rewrite List.filter_app, fmap_app. Qed.

Lemma samples_of_one k k' x : samples_of k [(k', x)] = if String.eqb k' k then [x] else [].
Proof. unfold samples_of, retain. simpl. by destruct (String.eqb k' k). Qed.

Lemma slide_retain cutoff x (l : list A) :
  StronglySorted (fun x y => stamp x <= stamp y) l ->
  slide stamp cutoff x l = retain (fun y => cutoff <=? stamp y) l ++ [x].
Proof.
  intros Hl. unfold slide. f_equal. rewrite drop_while_retain.
  - unfold retain. apply filter_ext. intros y. rewrite Z.ltb_antisym. by destruct (_ <=? _).
  - eapply sorted_impl; [|exact Hl]. simpl. intros y z ? Hz%Z.ltb_lt. apply Z.ltb_lt. lia.
Qed.

Lemma suppressed_recent al alerts k now w :
  last_alert_is alerts k (al !! k) -> suppressed al k now w = recent_alert alerts k now w.
Proof.
  unfold suppressed, recent_alert. intros H. apply eq_bool_prop_intro.
  rewrite !Is_true_true, any_true. destruct (al !! k) as [t|]; simpl in H.
  - destruct H as [Hin Hmax]. split.
    + intros Ht. exists (k, t). simpl. by rewrite String.eqb_refl.
    + intros ([k' t'] & Hin' & E). simpl in E. bool_to_prop.
      rename H into Hk. apply String.eqb_eq in Hk as ->. apply Hmax in Hin'. apply Z.ltb_lt. lia.
  - split; [done|]. intros ([k' t'] & Hin' & E). simpl in E. bool_to_prop.
    rename H0 into Hk. apply String.eqb_eq in Hk as ->. naive_solver.
Qed.

Lemma last_alert_snoc_same alerts k now last :
  last_alert_is alerts k last -> (forall t, (k, t) ∈ alerts -> t <= now) ->
  last_alert_is (alerts ++ [(k, now)]) k (Some now).
Proof.
  intros _ Hb. split; [set_solver|]. intros t'. rewrite elem_of_app, list_elem_of_singleton.
  intros [?|?]; [by apply Hb|naive_solver].
Qed.

Lemma last_alert_snoc_other alerts k k' now last :
  k <> k' -> last_alert_is alerts k last -> last_alert_is (alerts ++ [(k', now)]) k last.
Proof. destruct last as [t|]; simpl; set_solver. Qed.

Lemma simulates_later d h now now' : now <= now' -> simulates d h now -> simulates d h now'.
Proof.
  intros Hle []. split; auto.
  - intros k. eapply Forall_impl; [apply sim_bound0|]. simpl. lia.
  - intros k t ?. apply sim_recent0. lia.
  - intros k t ?%sim_alert_bound0. lia.
Qed.

(** A sample of the present moment keeps the queues in step. *)
Lemma simulates_sample d h now k x :
  simulates d h now -> stamp x = now -> 0 <= d_window d ->
  simulates
    (with_windows d (<[k := slide stamp (now - d_window d) x (default [] (d_windows d !! k))]> (d_windows d))
       (d_alerted d))
    {| h_samples := h_samples h ++ [(k, x)]; h_alerts := h_alerts h |} now.
Proof.
  intros [Hs Hb Hr Ha Hab] Hx Hw. rewrite (slide_retain _ _ _ (Hs k)).
  split; simpl; [intros k'..|done|done].
  - destruct (decide (k' = k)) as [->|]; simplify_map_eq; [|done].
    apply StronglySorted_snoc. split; [by apply StronglySorted_retain|].
    apply Forall_forall. intros y [Hy _]%retain_elem.
    pose proof (proj1 (Forall_forall _ _) (Hb k) y Hy). simpl in *. lia.
  - destruct (decide (k' = k)) as [->|]; simplify_map_eq; [|done].
    apply Forall_app. split; [|constructor; [lia|constructor]].
    apply Forall_forall. intros y [Hy _]%retain_elem.
    by apply (proj1 (Forall_forall _ _) (Hb k) y Hy).
  - intros t Ht. rewrite samples_of_app, samples_of_one. unfold retain. rewrite List.filter_app.
    destruct (decide (k' = k)) as [->|Hne]; simplify_map_eq.
    + rewrite String.eqb_refl, List.filter_app. f_equal. change (List.filter) with (@retain).
      rewrite retain_retain; [by apply Hr|]. intros y ?. bool_to_prop. apply Z.leb_le. lia.
    + rewrite (proj2 (String.eqb_neq k k')) by done. simpl. rewrite app_nil_r. by apply Hr.
Qed.

Lemma spec_step_simulates d h now e :
  simulates d h now -> now <= ev_ts e -> 0 <= d_window d ->
  let '(d', o) := process d e in let '(h', o') := spec_process d h e in
  o = o' /\ same_config d d' /\ simulates d' h' (ev_ts e).
Proof.
  intros Hsim Hnow Hw. apply (simulates_later _ _ _ (ev_ts e)) in Hsim; [|done].
  rewrite process_observes. unfold spec_process.
  destruct (extract d e) as [[k x]|] eqn:Ex; [|done].
  pose proof (extract_stamp _ _ _ _ Ex) as Hx.
  pose proof (simulates_sample _ _ _ k x Hsim Hx Hw) as Hsim'.
  assert (Hq : slide stamp (ev_ts e - d_window d) x (default [] (d_windows d !! k))
               = recent (h_samples h ++ [(k, x)]) k (ev_ts e) (d_window d)).
  { pose proof (sim_recent _ _ _ Hsim' k (ev_ts e)) as Hr'. simpl in Hr'.
    rewrite recent_samples_of, <- Hr' by lia. rewrite lookup_insert_eq. simpl. rewrite (slide_retain _ _ _ (sim_sorted _ _ _ Hsim k)).
    unfold retain. rewrite List.filter_app. simpl. rewrite Hx.
    rewrite (proj2 (Z.leb_le _ _)) by lia. f_equal. change (List.filter) with (@retain).
    symmetry. by apply retain_retain. }
  unfold observe. rewrite Hq. rewrite Hq in Hsim'.
  rewrite (suppressed_recent _ _ _ _ _ (sim_alerts _ _ _ Hsim k)).
  destruct (ripe d _); simpl; [|done].
  destruct (recent_alert _ _ _ _); simpl; [done|]. split_and!; [done..|].
  destruct Hsim' as [Hs Hb Hr Ha Hab]. split; simpl in *; [done..| |].
  - intros k'. destruct (decide (k' = k)) as [->|]; simplify_map_eq.
    + by eapply last_alert_snoc_same; [apply Ha|apply Hab].
    + by apply last_alert_snoc_other.
  - intros k' t. rewrite elem_of_app, list_elem_of_singleton. intros [?|?]; [by eapply Hab|naive_solver].
Qed.

Lemma spec_process_same_config d d' h e : same_config d d' -> spec_process d h e = spec_process d' h e.
Proof.
  intros Hd. unfold spec_process. rewrite (extract_proper _ _ Hd _ _ eq_refl).
  destruct (extract d' e) as [[k x]|]; [|done].
  assert (d_window d = d_window d') as -> by apply Hd.
  rewrite (ripe_proper _ _ Hd _ _ eq_refl). case_match; [|done].
  by rewrite (render_proper _ _ Hd _ _ eq_refl _ _ eq_refl _ _ eq_refl).
Qed.

Definition time_sorted (evs : list Event) : Prop := StronglySorted Z.le (ev_ts <$> evs).

Lemma run_simulates d0 d h now evs :
  same_config d0 d -> 0 <= d_window d0 -> simulates d h now ->
  Forall (fun e => now <= ev_ts e) evs -> time_sorted evs ->
  snd (run process d evs) = snd (run (spec_process d0) h evs).
Proof.
  unfold time_sorted. revert d h now. induction evs as [|e evs IH]; intros d h now Hcfg Hw Hsim Hle Hs; [done|].
  inversion Hle as [|? ? Hnow Hle']; subst. inversion Hs as [|? ? Hs' Hhd]; subst.
  assert (Hw' : 0 <= d_window d) by (assert (d_window d0 = d_window d) as <- by apply Hcfg; done).
  pose proof (spec_step_simulates _ _ _ _ Hsim Hnow Hw') as Hstep. simpl.
  rewrite (spec_process_same_config _ _ h e Hcfg).
  destruct (process d e) as [d1 o]. destruct (spec_process d h e) as [h1 o1].
  destruct Hstep as (-> & Hcfg1 & Hsim1).
  specialize (IH d1 h1 (ev_ts e)). rewrite Forall_fmap in Hhd.
  destruct (run process d1 evs) as [d2 os]. destruct (run (spec_process d0) h1 evs) as [h2 os2].
  simpl in *. f_equal. apply IH; [by transitivity d|done..].
Qed.

(** On events in the order of their time stamps, a detector reports what the
    detector that keeps the whole log reports. *)
Lemma refines_log host threshold window_seconds extra evs :
  let d0 := new_detector host threshold window_seconds extra in
  0 <= window_seconds < 2 ^ 63 -> time_sorted evs ->
  snd (run process d0 evs) = snd (run (spec_process d0) no_history evs).
Proof.
  intros d0 Hw Hs. set (t0 := match evs with [] => 0 | e :: _ => ev_ts e end).
  apply (run_simulates d0 d0 no_history t0 evs); [done| | | |done].
  - unfold d0; simpl. unfold as_signed, seconds, NANOS_PER_SEC.
    rewrite (proj2 (Z.ltb_lt _ _)) by (simpl; lia). lia.
  - split; unfold d0; simpl.
    1,2: intros k; rewrite lookup_empty; simpl; constructor.
    + intros k t _. by rewrite lookup_empty.
    + intros k. rewrite lookup_empty. simpl. set_solver.
    + set_solver.
  - destruct evs as [|e evs]; constructor; unfold t0; [lia|].
    inversion Hs as [|? ? _ Hhd]; subst. by rewrite Forall_fmap in Hhd.
Qed.

(** ** Alerts of a key are a window apart, whatever the order of the events *)

(** The keys and times of the alerts a run raises. *)
Fixpoint alert_times (d : Detector X A) (evs : list Event) : list (string * Z) :=
  match evs with
  | [] => []
  | e :: evs =>
      let '(d', o) := process d e in
      match o, extract d e with
      | Some _, Some (k, _) => (k, ev_ts e) :: alert_times d' evs
      | _, _ => alert_times d' evs
      end
  end.

Lemma process_config d e : same_config d (fst (process d e)).
Proof.
  rewrite process_observes. destruct (extract d e) as [[k x]|]; [|done].
  unfold observe. by repeat case_match; simplify_eq/=.
Qed.

(** What an alert, or its absence, does to the table of alerts. *)
Lemma process_alerted d e :
  match snd (process d e), extract d e with
  | Some _, Some (k, _) =>
      d_alerted (fst (process d e)) = <[k := ev_ts e]> (d_alerted d)
      /\ forall last, d_alerted d !! k = Some last -> d_window d <= ev_ts e - last
  | _, _ => d_alerted (fst (process d e)) = d_alerted d
  end.
Proof.
  rewrite process_observes. destruct (extract d e) as [[k x]|]; [|done].
  unfold observe, suppressed. repeat (case_match; simplify_eq/=); try done;
    (split; [done|]); naive_solver (bool_to_prop; lia).
Qed.

(** Each alert comes a full window after the latest alert of its key. *)
Definition spaced (w : Z) (alerts : list (string * Z)) : Prop :=
  forall i k t, alerts !! i = Some (k, t) ->
  forall j t', (j < i)%nat -> alerts !! j = Some (k, t') ->
  (forall m s, (j < m < i)%nat -> alerts !! m <> Some (k, s)) -> w <= t - t'.

Lemma alert_times_spaced_from d evs :
  (forall k last, d_alerted d !! k = Some last ->
     forall i t, alert_times d evs !! i = Some (k, t) ->
     (forall m s, (m < i)%nat -> alert_times d evs !! m <> Some (k, s)) -> d_window d <= t - last)
  /\ spaced (d_window d) (alert_times d evs).
Proof.
  revert d. induction evs as [|e evs IH]; intros d; simpl; [split; [done|]; by intros i k t ?|].
  pose proof (process_alerted d e) as Hal. pose proof (process_config d e) as (_ & _ & Hw & _).
  destruct (process d e) as [d' o]. simpl in *. destruct (IH d') as [IH1 IH2]. rewrite <- Hw in IH1, IH2.
  destruct o as [inc|]; [|rewrite Hal in IH1; done].
  destruct (extract d e) as [[k0 x]|]; [|rewrite Hal in IH1; done].
  destruct Hal as [Hal Hgap]. rewrite Hal in IH1. split.
  - intros k last Hl [|i] t Hi Hno; simpl in Hi; [naive_solver|].
    destruct (decide (k = k0)) as [->|Hne].
    + exfalso. apply (Hno 0%nat (ev_ts e)); [lia|done].
    + eapply IH1; [by rewrite lookup_insert_ne|done|]. intros m s Hm. apply (Hno (S m) s). lia.
  - intros [|i] k t Hi [|j] t' Hj Hj' Hno; simpl in *; [lia|lia| |].
    + simplify_eq. eapply IH1; [by rewrite lookup_insert_eq|done|].
      intros m s Hm. apply (Hno (S m) s). lia.
    + eapply IH2; [done| |done|]; [lia|]. intros m s Hm. apply (Hno (S m) s). lia.
Qed.

Lemma alert_times_spaced d evs : spaced (d_window d) (alert_times d evs).
Proof. apply alert_times_spaced_from. Qed.

End Spec.
Arguments History : clear implicits.

(** Tactics for the instances: introduce two states of equal settings, and
    compare a handler with its decomposition by cases. *)
Ltac window_config := repeat first [intros ? ? ->|intros d d' (Hh & Ht & Hw & Hx)].
Ltac window_cases :=
  repeat (case_match; simplify_eq/=; try done);
  match goal with
  | H : observe _ _ _ _ _ _ = _ |- (_, option_map (?f _ _ _) _) = _ =>
      refine (observe_render _ _ _ _ _ _ _ _ (fun d => f d _ _) H _); intros (Hh & Ht & Hw & Hx)
  end.
