(* ===== verification/SensorAuth.v ===== *)
(** * SensorAuth: the authentication detectors
    (crates/sensor/src/detectors/ssh_bruteforce.rs, credential_stuffing.rs,
    distributed_ssh.rs, sudo_abuse.rs)

    Failed SSH logins per address, distinct users tried per address, distinct
    addresses failing at once, and bursts of suspicious sudo commands per user.
    Three of them are window detectors; the distributed one keeps a single
    queue and is refined by the log in its own right. *)

From Stdlib Require Import ZArith Lia Ascii String Sorted.
From stdpp Require Import prelude strings list gmap sorting.
From S2P Require Import Prelude Text Json CoreTypes SensorHost SensorWindow.

Local Open Scope string_scope.
Local Open Scope list_scope.
Local Open Scope Z_scope.

(** A sorted copy of a set of numbers, as [sort_unstable] leaves it. *)
Definition sorted_numbers (s : gset Z) : list Z := merge_sort Z.le (elements s).
Definition json_strings (l : list string) : Json := JArr (JStr <$> l).

Section Detectors.
Context `{HostInventory} `{Chrono}.

(** ** ssh_bruteforce *)

Definition SshBruteforceDetector : Type := Detector unit Z.

Definition ssh_bruteforce_incident (d : SshBruteforceDetector) (now : Z) (ip : string)
  (entries : list Z) : Incident :=
  let count := Z.of_nat (length entries) in
  let secs := num_seconds (d_window d) in
  let severity := if wrap 64 (d_threshold d * 2) <=? count then High else Medium in
  {| in_ts := now;
     in_host := d_host d;
     in_incident_id := "ssh_bruteforce:" +:+ ip +:+ ":" +:+ fmt_minute now;
     in_severity := severity;
     in_title := "Possible SSH brute force from " +:+ ip;
     in_summary := show count +:+ " failed SSH login attempts from " +:+ ip +:+ " in the last "
       +:+ show_int secs +:+ " seconds";
     in_evidence := JArr [JObj [("kind", JStr "ssh.login_failed"); ("ip", JStr ip);
       ("count", JInt count); ("window_seconds", JInt secs)]];
     in_recommended_checks :=
       ["Check auth.log for successful logins from " +:+ ip;
        "Consider blocking the IP with ufw or fail2ban";
        "Review /var/log/auth.log for the full session"];
     in_tags := ["auth"; "ssh"; "bruteforce"];
     in_entities := [entity_ip ip] |}.

Definition ssh_bruteforce_process (d : SshBruteforceDetector) (e : Event)
  : SshBruteforceDetector * option Incident :=
  if negb (String.eqb (ev_kind e) "ssh.login_failed") then (d, None)
  else
    match detail_str e "ip" with
    | None => (d, None)
    | Some ip =>
        if is_internal_ip ip then (d, None)
        else
          let now := ev_ts e in
          let '(d, fired) :=
            observe id (fun entries => negb (Z.of_nat (length entries) <? d_threshold d)) d ip now now in
          (d, option_map (ssh_bruteforce_incident d now ip) fired)
    end.

(** ** credential_stuffing *)

Definition CredentialStuffingDetector : Type := Detector unit (Z * string).

Definition unique_users (entries : list (Z * string)) : gset string :=
  list_to_set (snd <$> entries).
Definition unique_count (entries : list (Z * string)) : Z := Z.of_nat (size (unique_users entries)).

Definition credential_stuffing_incident (d : CredentialStuffingDetector) (now : Z) (ip : string)
  (entries : list (Z * string)) : Incident :=
  let attempts := Z.of_nat (length entries) in
  let secs := num_seconds (d_window d) in
  let usernames := sorted_strings (unique_users entries) in
  {| in_ts := now;
     in_host := d_host d;
     in_incident_id := "credential_stuffing:" +:+ ip +:+ ":" +:+ fmt_minute now;
     in_severity := High;
     in_title := "Possible SSH credential stuffing from " +:+ ip;
     in_summary := show attempts +:+ " failed SSH attempts from " +:+ ip +:+ " across "
       +:+ show (unique_count entries) +:+ " distinct usernames in the last " +:+ show_int secs +:+ " seconds";
     in_evidence := JArr [JObj [("kind", JStr "ssh.login_failed"); ("ip", JStr ip);
       ("attempts", JInt attempts); ("unique_users", JInt (unique_count entries));
       ("users", json_strings usernames); ("window_seconds", JInt secs)]];
     in_recommended_checks :=
       ["Review auth.log for username spray patterns from " +:+ ip;
        "Correlate with successful SSH logins around the same timeframe";
        "Consider temporary blocking if attempts continue"];
     in_tags := ["auth"; "ssh"; "credential-stuffing"];
     in_entities := [entity_ip ip] |}.

Definition credential_stuffing_process (d : CredentialStuffingDetector) (e : Event)
  : CredentialStuffingDetector * option Incident :=
  if negb (String.eqb (ev_kind e) "ssh.login_failed") then (d, None)
  else
    match detail_str e "ip" with
    | None => (d, None)
    | Some ip =>
        if is_internal_ip ip then (d, None)
        else
          match detail_str e "user" with
          | None => (d, None)
          | Some user =>
              let user := trim user in
              if String.eqb user "" then (d, None)
              else
                let now := ev_ts e in
                let '(d, fired) :=
                  observe fst (fun entries => negb (unique_count entries <? d_threshold d))
                    d ip (now, user) now in
                (d, option_map (credential_stuffing_incident d now ip) fired)
          end
    end.

(** ** sudo_abuse *)

Record SudoEventSample := { su_ts : Z; su_command : string; su_reasons : list string }.

(** [d_extra] holds the trusted users. *)
Definition SudoAbuseDetector : Type := Detector (list string) SudoEventSample.

Definition set_trusted_users (d : SudoAbuseDetector) (users : list string) : SudoAbuseDetector :=
  {| d_host := d_host d; d_threshold := d_threshold d; d_window := d_window d;
     d_extra := users; d_windows := d_windows d; d_alerted := d_alerted d |}.

Definition classify_suspicious (command : string) : list string :=
  let lower := to_ascii_lowercase command in
  let has sub := contains sub lower in
  let push (b : bool) (reason : string) := if b then [reason] else [] in
  push (has "useradd" || has "adduser" || has "usermod" || has "passwd" || has "chpasswd")
    "identity_change" ++
  push (has "visudo" || has "/etc/sudoers" || has "/etc/sudoers.d" || has "setfacl")
    "privilege_policy_change" ++
  push (has "chmod +s" || has "chmod u+s" || has "chmod g+s" || has "chmod 4" || has "chmod 2")
    "suid_manipulation" ++
  push (has "iptables" || has "nft" || has "ufw disable" || has "ufw reset" || has "auditctl"
        || has "setenforce 0" || has "apparmor_parser -R")
    "security_control_change" ++
  push ((has "curl" || has "wget") && (has "| sh" || has "| bash" || has "sh -c" || has "bash -c"))
    "remote_script_execution" ++
  push (has "systemctl stop" || has "systemctl disable" || has "kill -9")
    "service_disruption" ++
  push (has "authorized_keys" || has ".ssh/" || (has "ssh-keygen" && has "-f"))
    "ssh_key_injection" ++
  push (has "crontab" || has "/etc/cron" || has "/var/spool/cron")
    "cron_persistence" ++
  push (has "/tmp/" && (has "chmod +x" || has "./"))
    "tmp_execution" ++
  push ((has "rm -rf" || has "rm -f")
        && (has "/etc" || has "/var" || has "/home" || String.eqb lower "rm -rf /"))
    "destructive_command" ++
  push (has "/var/log" && (has "rm" || has "truncate" || has "> /"))
    "log_tampering".

Definition critical_reasons : list string :=
  ["privilege_policy_change"; "suid_manipulation"; "remote_script_execution"; "ssh_key_injection";
   "log_tampering"].

Definition score_severity (reasons : list string) (count : Z) : Severity :=
  let has_critical := any (fun r => mem_str r critical_reasons) reasons in
  if has_critical || (5 <=? count) then Critical
  else if (3 <=? count) || (2 <=? Z.of_nat (length reasons)) then High
  else Medium.

Definition sudo_abuse_incident (d : SudoAbuseDetector) (now : Z) (user : string)
  (entries : list SudoEventSample) : Incident :=
  let count := Z.of_nat (length entries) in
  let secs := num_seconds (d_window d) in
  let reasons := sorted_strings (list_to_set (flat_map su_reasons entries)) in
  let recent_commands := su_command <$> take 5 (reverse entries) in
  {| in_ts := now;
     in_host := d_host d;
     in_incident_id := "sudo_abuse:" +:+ user +:+ ":" +:+ fmt_minute now;
     in_severity := score_severity reasons count;
     in_title := "Suspicious sudo behavior detected for user " +:+ user;
     in_summary := show count +:+ " suspicious sudo commands by " +:+ user +:+ " in the last "
       +:+ show_int secs +:+ " seconds";
     in_evidence := JArr [JObj [("kind", JStr "sudo.command"); ("user", JStr user);
       ("count", JInt count); ("window_seconds", JInt secs); ("reasons", json_strings reasons);
       ("recent_commands", json_strings recent_commands)]];
     in_recommended_checks :=
       ["Review full sudo trail for user " +:+ user;
        "Validate if commands were authorized by change management";
        "Temporarily suspend sudo access if activity is not expected"];
     in_tags := ["auth"; "sudo"; "privilege"; "abuse"];
     in_entities := [entity_user user] |}.

Definition sudo_abuse_process (d : SudoAbuseDetector) (e : Event)
  : SudoAbuseDetector * option Incident :=
  if negb (String.eqb (ev_kind e) "sudo.command") then (d, None)
  else
    match detail_str e "user" with
    | None => (d, None)
    | Some user =>
        let user := trim user in
        if String.eqb user "" then (d, None)
        else if mem_str user (d_extra d) then (d, None)
        else
          match detail_str e "command" with
          | None => (d, None)
          | Some command =>
              let command := trim command in
              if String.eqb command "" then (d, None)
              else
                let reasons := classify_suspicious command in
                match reasons with
                | [] => (d, None)
                | _ =>
                    let now := ev_ts e in
                    let '(d, fired) :=
                      observe su_ts (fun entries => negb (Z.of_nat (length entries) <? d_threshold d))
                        d user {| su_ts := now; su_command := command; su_reasons := reasons |} now in
                    (d, option_map (sudo_abuse_incident d now user) fired)
                end
          end
    end.

(** ** distributed_ssh: one queue for all addresses *)

Record DistributedSshDetector := {
  ds_threshold : Z;
  ds_window : Z;
  ds_recent_failures : list (Z * string);
  ds_last_alerted : option Z;
  ds_host : string;
}.

Definition DistributedSshDetector_new (host : string) (threshold window_seconds : Z)
  : DistributedSshDetector :=
  {| ds_threshold := threshold; ds_window := seconds (as_signed 64 window_seconds);
     ds_recent_failures := []; ds_last_alerted := None; ds_host := host |}.

Definition distinct_ips (entries : list (Z * string)) : gset string := list_to_set (snd <$> entries).

Definition distributed_ssh_incident (host : string) (window now : Z) (entries : list (Z * string))
  : Incident :=
  let count := Z.of_nat (size (distinct_ips entries)) in
  let secs := num_seconds window in
  let sample_ips := take 5 (elements (distinct_ips entries)) in
  {| in_ts := now;
     in_host := host;
     in_incident_id := "distributed_ssh:" +:+ show count +:+ ":" +:+ fmt_minute now;
     in_severity := High;
     in_title := "Distributed SSH attack - " +:+ show count +:+ " IPs in " +:+ show_int secs +:+ " seconds";
     in_summary := show count +:+ " distinct IPs failed SSH login in the last " +:+ show_int secs
       +:+ " seconds. This is a coordinated botnet scan. Sample IPs: " +:+ join ", " sample_ips;
     in_evidence := JArr [JObj [("kind", JStr "distributed_ssh"); ("distinct_ips", JInt count);
       ("sample_ips", json_strings sample_ips); ("window_seconds", JInt secs)]];
     in_recommended_checks :=
       ["Activate honeypot to capture attacker TTPs";
        "Check if any login succeeded during this window"];
     in_tags := ["auth"; "ssh"; "distributed"; "botnet"];
     in_entities := entity_ip <$> sample_ips |}.

Definition distributed_ssh_process (d : DistributedSshDetector) (e : Event)
  : DistributedSshDetector * option Incident :=
  if negb (String.eqb (ev_kind e) "ssh.login_failed") then (d, None)
  else
    match detail_str e "ip" with
    | None => (d, None)
    | Some ip =>
        if is_internal_ip ip then (d, None)
        else
          let now := ev_ts e in
          let failures := slide fst (now - ds_window d) (now, ip) (ds_recent_failures d) in
          let with_alert last :=
            {| ds_threshold := ds_threshold d; ds_window := ds_window d;
               ds_recent_failures := failures; ds_last_alerted := last; ds_host := ds_host d |} in
          if Z.of_nat (size (distinct_ips failures)) <? ds_threshold d
          then (with_alert (ds_last_alerted d), None)
          else if match ds_last_alerted d with Some last => now - last <? ds_window d | None => false end
          then (with_alert (ds_last_alerted d), None)
          else (with_alert (Some now),
                Some (distributed_ssh_incident (ds_host d) (ds_window d) now failures))
    end.

(** ** The window detectors are instances of the interface *)

Local Arguments unique_count : simpl never.

Definition external_ip (e : Event) (k : string) : option string :=
  match detail_str e k with
  | Some ip => if is_internal_ip ip then None else Some ip
  | None => None
  end.

Definition ssh_bruteforce_sample (d : SshBruteforceDetector) (e : Event) : option (string * Z) :=
  if String.eqb (ev_kind e) "ssh.login_failed"
  then match external_ip e "ip" with Some ip => Some (ip, ev_ts e) | None => None end
  else None.

#[export] Instance ssh_bruteforce_window : WindowDetector ssh_bruteforce_process.
Proof.
  refine {|
    stamp := id;
    extract := ssh_bruteforce_sample;
    ripe d entries := negb (Z.of_nat (length entries) <? d_threshold d);
    render d e ip entries := ssh_bruteforce_incident d (ev_ts e) ip entries;
  |}.
  - window_config. by rewrite Ht.
  - window_config. unfold ssh_bruteforce_incident. by rewrite Hh, Ht, Hw.
  - unfold ssh_bruteforce_sample. intros. by repeat case_match; simplify_eq.
  - intros d e. unfold ssh_bruteforce_process, ssh_bruteforce_sample, external_ip.
    window_cases. unfold ssh_bruteforce_incident. by rewrite Hh, Ht, Hw.
Defined.

Definition credential_stuffing_sample (d : CredentialStuffingDetector) (e : Event)
  : option (string * (Z * string)) :=
  if String.eqb (ev_kind e) "ssh.login_failed"
  then match external_ip e "ip", detail_str e "user" with
       | Some ip, Some user =>
           if String.eqb (trim user) "" then None else Some (ip, (ev_ts e, trim user))
       | _, _ => None
       end
  else None.

#[export] Instance credential_stuffing_window : WindowDetector credential_stuffing_process.
Proof.
  refine {|
    stamp := fst;
    extract := credential_stuffing_sample;
    ripe d entries := negb (unique_count entries <? d_threshold d);
    render d e ip entries := credential_stuffing_incident d (ev_ts e) ip entries;
  |}.
  - window_config. by rewrite Ht.
  - window_config. unfold credential_stuffing_incident. by rewrite Hh, Hw.
  - unfold credential_stuffing_sample. intros. by repeat case_match; simplify_eq.
  - intros d e. unfold credential_stuffing_process, credential_stuffing_sample, external_ip.
    window_cases. unfold credential_stuffing_incident. by rewrite Hh, Hw.
Defined.

Definition sudo_abuse_sample (d : SudoAbuseDetector) (e : Event)
  : option (string * SudoEventSample) :=
  if String.eqb (ev_kind e) "sudo.command"
  then match detail_str e "user", detail_str e "command" with
       | Some user, Some command =>
           if String.eqb (trim user) "" || mem_str (trim user) (d_extra d)
              || String.eqb (trim command) ""
           then None
           else match classify_suspicious (trim command) with
                | [] => None
                | reasons =>
                    Some (trim user, {| su_ts := ev_ts e; su_command := trim command;
                                        su_reasons := reasons |})
                end
       | _, _ => None
       end
  else None.

#[export] Instance sudo_abuse_window : WindowDetector sudo_abuse_process.
Proof.
  refine {|
    stamp := su_ts;
    extract := sudo_abuse_sample;
    ripe d entries := negb (Z.of_nat (length entries) <? d_threshold d);
    render d e user entries := sudo_abuse_incident d (ev_ts e) user entries;
  |}.
  - window_config. unfold sudo_abuse_sample. by rewrite Hx.
  - window_config. by rewrite Ht.
  - window_config. unfold sudo_abuse_incident. by rewrite Hh, Hw.
  - unfold sudo_abuse_sample. intros. by repeat case_match; simplify_eq.
  - intros d e. unfold sudo_abuse_process, sudo_abuse_sample.
    window_cases. unfold sudo_abuse_incident. by rewrite Hh, Hw.
Defined.

(** ** The distributed detector is a window detector with a single key *)

Definition distributed_as_window (d : Detector unit (Z * string)) (e : Event)
  : Detector unit (Z * string) * option Incident :=
  match (if String.eqb (ev_kind e) "ssh.login_failed" then external_ip e "ip" else None) with
  | None => (d, None)
  | Some ip =>
      let '(d', fired) :=
        observe fst (fun entries => negb (unique_count entries <? d_threshold d)) d ""
          (ev_ts e, ip) (ev_ts e) in
      (d', option_map (distributed_ssh_incident (d_host d) (d_window d) (ev_ts e)) fired)
  end.

#[export] Instance distributed_window : WindowDetector distributed_as_window.
Proof.
  refine {|
    stamp := fst;
    extract d e :=
      match (if String.eqb (ev_kind e) "ssh.login_failed" then external_ip e "ip" else None) with
      | Some ip => Some ("", (ev_ts e, ip))
      | None => None
      end;
    ripe d entries := negb (unique_count entries <? d_threshold d);
    render d e _ entries := distributed_ssh_incident (d_host d) (d_window d) (ev_ts e) entries;
  |}.
  - window_config. by rewrite Ht.
  - window_config. by rewrite Hh, Hw.
  - intros. by repeat case_match; simplify_eq.
  - intros d e. unfold distributed_as_window. by destruct (if String.eqb _ _ then _ else _).
Defined.

Definition same_distributed (ds : DistributedSshDetector) (d : Detector unit (Z * string)) : Prop :=
  ds_threshold ds = d_threshold d /\ ds_window ds = d_window d /\ ds_host ds = d_host d
  /\ default [] (d_windows d !! "") = ds_recent_failures ds /\ d_alerted d !! "" = ds_last_alerted ds.

Lemma distributed_step ds d e :
  same_distributed ds d ->
  snd (distributed_ssh_process ds e) = snd (distributed_as_window d e)
  /\ same_distributed (fst (distributed_ssh_process ds e)) (fst (distributed_as_window d e)).
Proof.
  intros (Ht & Hw & Hh & Hf & Ha).
  unfold distributed_ssh_process, distributed_as_window, external_ip, observe, suppressed.
  destruct (String.eqb _ _); simpl; [|by split_and!].
  destruct (detail_str e "ip") as [ip|]; [|by split_and!].
  destruct (is_internal_ip ip); [by split_and!|].
  rewrite Hf, Ha, <- Ht, <- Hw. rewrite negb_involutive.
  change (Z.of_nat (size (distinct_ips ?l))) with (unique_count l).
  destruct (unique_count _ <? _); simpl.
  { split; [done|]. unfold same_distributed; simpl. by rewrite lookup_insert_eq. }
  destruct (ds_last_alerted ds) as [last|]; [destruct (ev_ts e - last <? ds_window ds)|]; simpl;
    (split; [by rewrite ?Hh|]); unfold same_distributed; simpl; by rewrite ?lookup_insert_eq.
Qed.

Lemma distributed_run ds d evs :
  same_distributed ds d ->
  snd (run distributed_ssh_process ds evs) = snd (run distributed_as_window d evs).
Proof.
  revert ds d. induction evs as [|e evs IH]; intros ds d Hs; [done|]. simpl.
  destruct (distributed_step _ _ e Hs) as [Ho Hs'].
  destruct (distributed_ssh_process ds e) as [ds' o]. destruct (distributed_as_window d e) as [d' o'].
  simpl in *. subst o'. specialize (IH _ _ Hs').
  destruct (run distributed_ssh_process ds' evs), (run distributed_as_window d' evs). simpl in *. by f_equal.
Qed.

Lemma same_distributed_new host threshold w :
  same_distributed (DistributedSshDetector_new host threshold w) (new_detector host threshold w tt).
Proof. done. Qed.

(** ** A dead pattern: the command is lowercased, the pattern is not *)

Lemma contains_upper_lowercase sub s :
  (exists a l r, sub = l +:+ String a r /\ 65 <= code a <= 90) ->
  contains sub (to_ascii_lowercase s) = false.
Proof.
  intros (a & l & r & -> & Ha). destruct (contains _ _) eqn:E; [|done]. exfalso.
  apply contains_spec in E as (l' & r' & E).
  assert (Hlow : forall s, forall a l r, to_ascii_lowercase s = l +:+ String a r -> ~ 65 <= code a <= 90).
  { clear. induction s as [|b s IH]; intros a l r E.
    - by destruct l.
    - destruct l as [|c l]; injection E as E1 E2; [|exact (IH a l r E2)]. subst a.
      unfold lower_ascii. intros H. revert H. clear. destruct b as [[] [] [] [] [] [] [] []]; vm_compute; intuition congruence. }
  eapply (Hlow s a (l' +:+ l) (r +:+ r')); [|done].
  by rewrite E, !append_assoc.
Qed.

(** Disabling an AppArmor profile with [apparmor_parser -R] is not
    recognised as a change of a security control, whatever profile it names:
    the pattern has a capital letter and the command has been lowercased, so
    the test never succeeds.  A sudo command whose only telling part is that
    one leaves the detector as it was. *)
Theorem apparmor_pattern_dead d e :
  (forall command, contains "apparmor_parser -R" (to_ascii_lowercase command) = false)
  /\ (ev_details e = JObj [("user", JStr "mallory");
        ("command", JStr "apparmor_parser -R /etc/apparmor.d/usr.sbin.nginx")] ->
      sudo_abuse_process d e = (d, None)).
Proof.
  split.
  - intros c. apply contains_upper_lowercase. by exists "R"%char, "apparmor_parser -", "".
  - intros He. unfold sudo_abuse_process, detail_str. rewrite He. destruct (String.eqb _ _); [|done].
    cbn [negb get_str get assoc mbind option_bind as_str String.eqb Ascii.eqb Bool.eqb].
    destruct (String.eqb (trim "mallory") ""); [done|].
    destruct (mem_str (trim "mallory") (d_extra d)); [done|].
    destruct (String.eqb (trim _) ""); [done|].
    by replace (classify_suspicious _) with (@nil string) by (vm_compute; reflexivity).
Qed.

End Detectors.
