(* ===== verification/SensorScan.v ===== *)
(** * SensorScan: the scan and burst detectors
    (crates/sensor/src/detectors/port_scan.rs, web_scan.rs, search_abuse.rs,
    docker_anomaly.rs)

    Distinct ports per source address, HTTP errors and costly requests per
    client, and restarts per container.  With the instances of SensorAuth.v
    this file states, for all threshold detectors at once, that they refine
    the log and that their alerts are spaced. *)

From Stdlib Require Import ZArith Lia Ascii String Sorted.
From stdpp Require Import prelude strings list gmap sorting.
From S2P Require Import Prelude Text Json CoreTypes SensorHost SensorWindow SensorAuth.

Local Open Scope string_scope.
Local Open Scope list_scope.
Local Open Scope Z_scope.

Section Detectors.
Context `{HostInventory} `{Chrono}.

(** ** port_scan *)

Definition PortScanDetector : Type := Detector unit (Z * Z).

Definition unique_ports (entries : list (Z * Z)) : gset Z := list_to_set (snd <$> entries).
Definition unique_port_count (entries : list (Z * Z)) : Z := Z.of_nat (size (unique_ports entries)).

Definition port_scan_incident (d : PortScanDetector) (now : Z) (src_ip : string)
  (entries : list (Z * Z)) : Incident :=
  let secs := num_seconds (d_window d) in
  let ports := sorted_numbers (unique_ports entries) in
  {| in_ts := now;
     in_host := d_host d;
     in_incident_id := "port_scan:" +:+ src_ip +:+ ":" +:+ fmt_minute now;
     in_severity := High;
     in_title := "Possible port scan from " +:+ src_ip;
     in_summary := "Host " +:+ src_ip +:+ " hit " +:+ show (unique_port_count entries)
       +:+ " distinct destination ports in the last " +:+ show_int secs +:+ " seconds";
     in_evidence := JArr [JObj [("kind", JStr "network.connection_blocked"); ("src_ip", JStr src_ip);
       ("unique_dst_ports", JInt (unique_port_count entries)); ("dst_ports", JArr (JInt <$> ports));
       ("window_seconds", JInt secs)]];
     in_recommended_checks :=
       ["Review firewall logs (UFW/iptables/nftables) for matching connection bursts";
        "Correlate source IP with SSH and app authentication failures";
        "Consider temporary IP blocking if traffic persists"];
     in_tags := ["network"; "portscan"];
     in_entities := [entity_ip src_ip] |}.

Definition port_scan_process (d : PortScanDetector) (e : Event) : PortScanDetector * option Incident :=
  if negb (String.eqb (ev_kind e) "network.connection_blocked")
     && negb (String.eqb (ev_kind e) "network.inbound_connect")
     && negb (String.eqb (ev_kind e) "network.accept")
  then (d, None)
  else
    match detail_str e "src_ip" with
    | None => (d, None)
    | Some src_ip =>
        if is_internal_ip src_ip then (d, None)
        else
          match detail_u64 e "dst_port" with
          | None => (d, None)
          | Some dst_port =>
              if negb (dst_port <? 2 ^ 16) then (d, None)
              else
                let now := ev_ts e in
                let '(d, fired) :=
                  observe fst (fun entries => negb (unique_port_count entries <? d_threshold d))
                    d src_ip (now, dst_port) now in
                (d, option_map (port_scan_incident d now src_ip) fired)
          end
    end.

(** ** web_scan *)

Definition WebScanDetector : Type := Detector unit Z.

Definition web_scan_incident (d : WebScanDetector) (e : Event) (ip : string) (entries : list Z)
  : Incident :=
  let count := Z.of_nat (length entries) in
  let secs := num_seconds (d_window d) in
  let level := detail_str_or e "level" "error" in
  let last_request := take_chars 200 (detail_str_or e "request" "") in
  {| in_ts := ev_ts e;
     in_host := d_host d;
     in_incident_id := "web_scan:" +:+ ip +:+ ":" +:+ fmt_minute (ev_ts e);
     in_severity := if wrap 64 (d_threshold d * 3) <=? count then High else Medium;
     in_title := "Possible web scan / probe from " +:+ ip;
     in_summary := show count +:+ " HTTP errors from " +:+ ip +:+ " in the last " +:+ show_int secs
       +:+ " seconds - likely automated scan or probe";
     in_evidence := JArr [JObj [("kind", JStr "http.error"); ("ip", JStr ip);
       ("error_level", JStr level); ("count", JInt count); ("window_seconds", JInt secs);
       ("last_request", JStr last_request)]];
     in_recommended_checks :=
       ["Review nginx error log for " +:+ ip +:+ " - look for path traversal or LFI patterns";
        "Check if requests target admin, config, or sensitive endpoints";
        "Consider blocking IP or enabling rate-limit-nginx skill"];
     in_tags := ["http"; "scan"; "web"; "probe"];
     in_entities := [entity_ip ip] |}.

Definition web_scan_process (d : WebScanDetector) (e : Event) : WebScanDetector * option Incident :=
  if negb (String.eqb (ev_kind e) "http.error") then (d, None)
  else if any (String.eqb "bot:known") (ev_tags e) then (d, None)
  else
    match detail_str e "ip" with
    | None => (d, None)
    | Some ip =>
        if is_internal_ip ip then (d, None)
        else
          let now := ev_ts e in
          let '(d, fired) :=
            observe id (fun entries => negb (Z.of_nat (length entries) <? d_threshold d)) d ip now now in
          (d, option_map (web_scan_incident d e ip) fired)
    end.

(** ** search_abuse: [d_extra] is the watched path prefix *)

Definition SearchAbuseDetector : Type := Detector string Z.

Definition search_abuse_incident (d : SearchAbuseDetector) (e : Event) (ip : string)
  (entries : list Z) : Incident :=
  let count := Z.of_nat (length entries) in
  let secs := num_seconds (d_window d) in
  let path_prefix := d_extra d in
  let any_path := String.eqb path_prefix "" in
  {| in_ts := ev_ts e;
     in_host := d_host d;
     in_incident_id := "search_abuse:" +:+ ip +:+ ":" +:+ fmt_minute (ev_ts e);
     in_severity := High;
     in_title := "Possible search route abuse from " +:+ ip;
     in_summary := show count +:+ " requests to "
       +:+ (if any_path then "(any path)" else path_prefix) +:+ (if any_path then "" else "* ")
       +:+ " from " +:+ ip +:+ " in the last " +:+ show_int secs +:+ " seconds";
     in_evidence := JArr [JObj [("kind", JStr "http.request"); ("ip", JStr ip);
       ("method", JStr (detail_str_or e "method" "?")); ("path_prefix", JStr path_prefix);
       ("count", JInt count); ("window_seconds", JInt secs)]];
     in_recommended_checks :=
       ["Review access logs for " +:+ ip +:+ " - check for automation patterns";
        "Consider rate-limiting or blocking the source IP";
        "Check if traffic correlates with an SSH or credential-stuffing incident"];
     in_tags := ["http"; "abuse"; "search"];
     in_entities := [entity_ip ip] |}.

Definition search_abuse_process (d : SearchAbuseDetector) (e : Event)
  : SearchAbuseDetector * option Incident :=
  if negb (String.eqb (ev_kind e) "http.request") then (d, None)
  else if any (String.eqb "bot:known") (ev_tags e) then (d, None)
  else
    let path_without_qs := first_piece "?" (detail_str_or e "path" "") in
    if negb (String.eqb (d_extra d) "") && negb (starts_with (d_extra d) path_without_qs)
    then (d, None)
    else
      match detail_str e "ip" with
      | None => (d, None)
      | Some ip =>
          if is_internal_ip ip then (d, None)
          else
            let now := ev_ts e in
            let '(d, fired) :=
              observe id (fun entries => negb (Z.of_nat (length entries) <? d_threshold d)) d ip now now in
            (d, option_map (search_abuse_incident d e ip) fired)
      end.

(** ** docker_anomaly: a window per container, and whether it was killed for
    memory since its last alert *)

Record DockerAnomalyDetector := {
  da_detector : Detector unit Z;
  da_saw_oom : gmap string bool;
}.

Definition docker_anomaly_incident (d : Detector unit Z) (e : Event) (container_id : string)
  (is_oom : bool) (entries : list Z) : Incident :=
  let count := Z.of_nat (length entries) in
  let secs := num_seconds (d_window d) in
  let container_name := detail_str_or e "container_name" "unknown" in
  let image := detail_str_or e "image" "unknown" in
  let anomaly_type := if is_oom then "OOM kills" else "rapid restarts" in
  {| in_ts := ev_ts e;
     in_host := d_host d;
     in_incident_id := "docker_anomaly:" +:+ container_id +:+ ":" +:+ fmt_minute (ev_ts e);
     in_severity := if is_oom then High else Medium;
     in_title := "Docker anomaly: " +:+ anomaly_type +:+ " for " +:+ container_name;
     in_summary := show count +:+ " die/oom events for container " +:+ container_name +:+ " ("
       +:+ container_id +:+ ") in the last " +:+ show_int secs +:+ " seconds - " +:+ anomaly_type;
     in_evidence := JArr [JObj [("kind", JStr (ev_kind e)); ("container_id", JStr container_id);
       ("container_name", JStr container_name); ("image", JStr image); ("count", JInt count);
       ("window_seconds", JInt secs); ("has_oom", JBool is_oom)]];
     in_recommended_checks :=
       ["Check docker logs for container " +:+ container_name +:+ " (" +:+ container_id +:+ ")";
        "Review container resource limits (memory, CPU)";
        "Consider pausing or restarting the container with adjusted limits"];
     in_tags := ["docker"; "container"; "anomaly"];
     in_entities := [entity_container container_id] |}.

Definition docker_anomaly_process (d : DockerAnomalyDetector) (e : Event)
  : DockerAnomalyDetector * option Incident :=
  if negb (String.eqb (ev_kind e) "container.oom") && negb (String.eqb (ev_kind e) "container.die")
  then (d, None)
  else
    match detail_str e "container_id" with
    | None => (d, None)
    | Some container_id =>
        let now := ev_ts e in
        let saw_oom := if String.eqb (ev_kind e) "container.oom"
                       then <[container_id := true]> (da_saw_oom d) else da_saw_oom d in
        let '(w, fired) :=
          observe id (fun entries => negb (Z.of_nat (length entries) <? d_threshold (da_detector d)))
            (da_detector d) container_id now now in
        match fired with
        | None => ({| da_detector := w; da_saw_oom := saw_oom |}, None)
        | Some entries =>
            let is_oom := default false (saw_oom !! container_id) in
            ({| da_detector := w; da_saw_oom := delete container_id saw_oom |},
             Some (docker_anomaly_incident w e container_id is_oom entries))
        end
    end.

(** ** Instances *)

Local Arguments unique_port_count : simpl never.

Definition port_scan_sample (d : PortScanDetector) (e : Event) : option (string * (Z * Z)) :=
  if String.eqb (ev_kind e) "network.connection_blocked"
     || String.eqb (ev_kind e) "network.inbound_connect"
     || String.eqb (ev_kind e) "network.accept"
  then match external_ip e "src_ip", detail_u64 e "dst_port" with
       | Some ip, Some port => if port <? 2 ^ 16 then Some (ip, (ev_ts e, port)) else None
       | _, _ => None
       end
  else None.

#[export] Instance port_scan_window : WindowDetector port_scan_process.
Proof.
  refine {|
    stamp := fst;
    extract := port_scan_sample;
    ripe d entries := negb (unique_port_count entries <? d_threshold d);
    render d e ip entries := port_scan_incident d (ev_ts e) ip entries;
  |}.
  - window_config. by rewrite Ht.
  - window_config. unfold port_scan_incident. by rewrite Hh, Hw.
  - unfold port_scan_sample. intros. by repeat case_match; simplify_eq.
  - intros d e. unfold port_scan_process, port_scan_sample, external_ip.
    rewrite <- !negb_orb. destruct (_ || _ || _); simpl; [|done].
    window_cases. unfold port_scan_incident. by rewrite Hh, Hw.
Defined.

Definition http_sample (kind : string) (e : Event) : option (string * Z) :=
  if String.eqb (ev_kind e) kind && negb (any (String.eqb "bot:known") (ev_tags e))
  then match external_ip e "ip" with Some ip => Some (ip, ev_ts e) | None => None end
  else None.

#[export] Instance web_scan_window : WindowDetector web_scan_process.
Proof.
  refine {|
    stamp := id;
    extract d := http_sample "http.error";
    ripe d entries := negb (Z.of_nat (length entries) <? d_threshold d);
    render := web_scan_incident;
  |}.
  - window_config. by rewrite Ht.
  - window_config. unfold web_scan_incident. by rewrite Hh, Ht, Hw.
  - unfold http_sample. intros. by repeat case_match; simplify_eq.
  - intros d e. unfold web_scan_process, http_sample, external_ip.
    destruct (String.eqb _ _); [|done]. cbn [negb andb]. destruct (any _ _); [done|]. cbn [negb].
    window_cases. unfold web_scan_incident. by rewrite Hh, Ht, Hw.
Defined.

Definition search_abuse_sample (d : SearchAbuseDetector) (e : Event) : option (string * Z) :=
  if String.eqb (d_extra d) "" || starts_with (d_extra d) (first_piece "?" (detail_str_or e "path" ""))
  then http_sample "http.request" e else None.

#[export] Instance search_abuse_window : WindowDetector search_abuse_process.
Proof.
  refine {|
    stamp := id;
    extract := search_abuse_sample;
    ripe d entries := negb (Z.of_nat (length entries) <? d_threshold d);
    render := search_abuse_incident;
  |}.
  - window_config. unfold search_abuse_sample. by rewrite Hx.
  - window_config. by rewrite Ht.
  - window_config. unfold search_abuse_incident. by rewrite Hh, Hw, Hx.
  - unfold search_abuse_sample, http_sample. intros. by repeat case_match; simplify_eq.
  - intros d e. unfold search_abuse_process, search_abuse_sample, http_sample, external_ip.
    rewrite <- negb_orb. destruct (String.eqb (ev_kind e) _); [|by destruct (_ || _)]. cbn [negb andb].
    destruct (any _ _); [by destruct (_ || _)|]. cbn [negb]. destruct (_ || _); [|done]. cbn [negb].
    window_cases. unfold search_abuse_incident. by rewrite Hh, Hw, Hx.
Defined.

(** ** All threshold detectors at once *)

(** Detector and abstract detector report the same on these events. *)
Definition agrees_with_log {X A} (process : Detector X A -> Event -> Detector X A * option Incident)
  `{!WindowDetector process} (d0 : Detector X A) (evs : list Event) : Prop :=
  snd (run process d0 evs) = snd (run (spec_process process d0) no_history evs).

(** C10. On events in time order, each threshold detector (SSH brute force,
    credential stuffing, sudo abuse, port scan, web scan, search abuse and, with
    one queue for all addresses, distributed SSH) reports, event by event,
    exactly what a detector reports that keeps every sample and every alert: an
    incident when the samples of the key in the last window pass the threshold
    and the key has no alert in the last window, rendered from exactly those
    samples.  Trimming the queues and keeping one time per key lose nothing. *)
Theorem threshold_detectors_refine_log host threshold window_seconds users prefix evs :
  0 <= window_seconds < 2 ^ 63 -> time_sorted evs ->
  agrees_with_log ssh_bruteforce_process (new_detector host threshold window_seconds tt) evs
  /\ agrees_with_log credential_stuffing_process (new_detector host threshold window_seconds tt) evs
  /\ agrees_with_log sudo_abuse_process
       (set_trusted_users (new_detector host threshold window_seconds []) users) evs
  /\ agrees_with_log port_scan_process (new_detector host threshold window_seconds tt) evs
  /\ agrees_with_log web_scan_process (new_detector host threshold window_seconds tt) evs
  /\ agrees_with_log search_abuse_process (new_detector host threshold window_seconds prefix) evs
  /\ snd (run distributed_ssh_process (DistributedSshDetector_new host threshold window_seconds) evs)
     = snd (run (spec_process distributed_as_window (new_detector host threshold window_seconds tt))
              no_history evs).
Proof.
  intros Hw Hs. unfold agrees_with_log, set_trusted_users. split_and!; try by apply refines_log.
  rewrite (distributed_run _ _ evs (same_distributed_new host threshold window_seconds)).
  by apply refines_log.
Qed.

(** From any state and for events in any order, two successive alerts of a
    threshold detector for the same key are at least a window apart: a key
    cannot flood the incident log. *)
Theorem threshold_alerts_spaced evs :
  (forall d, spaced (d_window d) (alert_times ssh_bruteforce_process d evs))
  /\ (forall d, spaced (d_window d) (alert_times credential_stuffing_process d evs))
  /\ (forall d, spaced (d_window d) (alert_times sudo_abuse_process d evs))
  /\ (forall d, spaced (d_window d) (alert_times port_scan_process d evs))
  /\ (forall d, spaced (d_window d) (alert_times web_scan_process d evs))
  /\ (forall d, spaced (d_window d) (alert_times search_abuse_process d evs)).
Proof. split_and!; intros d; apply alert_times_spaced. Qed.

(** A memory kill is remembered until the next alert, not for the window: one
    kill, and a day later three ordinary restarts within a minute are reported
    as memory kills. *)
Definition container_event (kind : string) (at_secs : Z) : Event :=
  {| ev_ts := seconds at_secs; ev_host := "h"; ev_source := "docker"; ev_kind := kind;
     ev_severity := Info; ev_summary := ""; ev_details := JObj [("container_id", JStr "c1")];
     ev_tags := []; ev_entities := [] |}.

Lemma docker_oom_outlives_window :
  option_map in_severity <$>
    snd (run docker_anomaly_process
           {| da_detector := new_detector "h" 3 60 tt; da_saw_oom := ∅ |}
           [container_event "container.oom" 0; container_event "container.die" 86400;
            container_event "container.die" 86410; container_event "container.die" 86420])
  = [None; None; None; Some High].
Proof. vm_compute. reflexivity. Qed.

End Detectors.

(** ** Witness *)

#[local] Instance demo_inventory : HostInventory :=
  {| test_external_ips := ∅; own_ips := ∅; own_listening_ports := ∅ |}.
#[local] Instance demo_chrono : Chrono :=
  {| parse_utc := fun _ => None; to_rfc3339 := fun _ => "t"; fmt_minute := fun _ => "m" |}.
Definition login_failed (at_secs : Z) (ip user : string) : Event :=
  {| ev_ts := seconds at_secs; ev_host := "h"; ev_source := "auth_log"; ev_kind := "ssh.login_failed";
     ev_severity := Info; ev_summary := "";
     ev_details := JObj [("ip", JStr ip); ("user", JStr user)]; ev_tags := []; ev_entities := [] |}.
Definition demo_logins : list Event :=
  [login_failed 1 "8.8.8.8" "root"; login_failed 2 "8.8.8.8" "admin"; login_failed 3 "9.9.9.9" "root";
   login_failed 90 "8.8.8.8" "root"; login_failed 91 "8.8.8.8" "oracle"].

Lemma threshold_detectors_refine_log_witness :
  agrees_with_log ssh_bruteforce_process (new_detector "h" 2 60 tt) demo_logins
  /\ option_map in_severity <$>
       snd (run ssh_bruteforce_process (new_detector "h" 2 60 tt) demo_logins) = [None; Some Medium; None; None; Some Medium].
Proof.
  split; [|vm_compute; reflexivity].
  apply (threshold_detectors_refine_log "h" 2 60 [] "" demo_logins).
  - lia.
  - unfold time_sorted. cbn. unfold seconds, NANOS_PER_SEC. repeat (constructor; try lia).
Defined.
