(* ===== verification/SensorChannels.v ===== *)
(** * SensorChannels: the three lanes between the kernel ring and the detectors
    (crates/sensor/src/event_channels.rs)

    The drain thread must not block, so an event goes to a bounded lane or is
    dropped and counted: security events to [prio], with a compact signal on
    [emergency] when that is full, telemetry to [bulk], which is shed while the
    priority backlog is high (brownout).  The consumer drains prio, emergency
    and bulk in this order.

    Producer and consumer share the lanes, the counters and the brownout flag;
    [Lanes] is that shared state, and calls of [emit] and [recv] are atomic
    steps on it.  A tokio channel is its capacity, its queue, the senders that wait
    for room in [send().await] (served first come first served, as soon as an item
    is taken out), and whether each side still exists; no waiting sender is
    cancelled. *)

From Stdlib Require Import ZArith Lia Ascii String Sorted.
From stdpp Require Import prelude strings list gmap.
From S2P Require Import Prelude Text Json CoreTypes.

Local Open Scope string_scope.
Local Open Scope list_scope.
Local Open Scope Z_scope.

(** ** [tokio::sync::mpsc], bounded *)

Record Chan (A : Type) := {
  max_capacity : Z;
  queue : list A;
  waiters : list A;
  rx_alive : bool;
  tx_alive : bool;
}.
Arguments max_capacity {A}. Arguments queue {A}. Arguments waiters {A}. Arguments rx_alive {A}. Arguments tx_alive {A}.

Definition with_queue {A} (c : Chan A) (q : list A) : Chan A :=
  {| max_capacity := max_capacity c; queue := q; waiters := waiters c; rx_alive := rx_alive c; tx_alive := tx_alive c |}.
Definition with_waiters {A} (c : Chan A) (q ws : list A) : Chan A :=
  {| max_capacity := max_capacity c; queue := q; waiters := ws; rx_alive := rx_alive c; tx_alive := tx_alive c |}.
Definition depth {A} (c : Chan A) : Z := Z.of_nat (length (queue c)).
(** Free slots. *)
Definition capacity {A} (c : Chan A) : Z := max_capacity c - depth c.

Inductive TrySend (A : Type) := Sent (c : Chan A) | Full | Closed.
Arguments Sent {A}. Arguments Full {A}. Arguments Closed {A}.

Definition try_send {A} (c : Chan A) (x : A) : TrySend A :=
  if negb (rx_alive c) then Closed
  else if capacity c <=? 0 then Full
  else Sent (with_queue c (queue c ++ [x])).

(** [send(x).await]: accepted, waiting for room behind those that wait already, or
    refused because the receiver is gone. *)
Inductive SendAwait (A : Type) := Accepted (c : Chan A) | Parked (c : Chan A) | Refused.
Arguments Accepted {A}. Arguments Parked {A}. Arguments Refused {A}.

Definition send_await {A} (c : Chan A) (x : A) : SendAwait A :=
  match try_send c x with
  | Sent c => Accepted c
  | Full => Parked (with_waiters c (queue c) (waiters c ++ [x]))
  | Closed => Refused
  end.

(** The slot that has become free goes to the sender that has waited longest. *)
Definition serve {A} (c : Chan A) : Chan A :=
  match waiters c with
  | x :: ws => with_waiters c (queue c ++ [x]) ws
  | [] => c
  end.

(** One poll of [Receiver::recv]: an item, the end, or nothing yet. *)
Inductive Poll (A : Type) := Item (x : A) (c : Chan A) | Ended | Waiting.
Arguments Item {A}. Arguments Ended {A}. Arguments Waiting {A}.

Definition poll_recv {A} (c : Chan A) : Poll A :=
  match queue c with
  | x :: q => Item x (serve (with_queue c q))
  | [] => if tx_alive c then Waiting else Ended
  end.

(** ** Routing *)

Definition PRIO_CAP : Z := 16384.
Definition BULK_CAP : Z := 8192.
Definition EMERGENCY_CAP : Z := 4096.

Inductive Lane := PrioLane | BulkLane.

Definition classify (ev : Event) : Lane :=
  match ev_severity ev with
  | High | Critical => PrioLane
  | _ =>
      let k := ev_kind ev in
      if starts_with "process.signal" k
         || starts_with "process.ptrace" k
         || starts_with "privilege." k
         || starts_with "lsm." k
         || starts_with "kernel.module" k
         || starts_with "filesystem.mount" k
         || starts_with "process.memfd" k
         || starts_with "namespace." k
         || String.eqb k "network.outbound_connect"
         || String.eqb k "file.read_access"
         || String.eqb k "process.injection"
      then PrioLane else BulkLane
  end.

(** ** The compact signal of the emergency lane *)

Record SecuritySignal := {
  ss_ts : Z; ss_host : string; ss_kind : string; ss_severity : Severity;
  ss_pid : Z; ss_ppid : Z; ss_uid : Z; ss_comm : string; ss_target_pid : Z;
  ss_exe : string; ss_container : string; ss_seq : Z;
}.

Definition from_event (ev : Event) (seq : Z) : SecuritySignal :=
  let num k := detail_u64_or ev k 0 in
  let txt k := detail_str_or ev k "" in
  {| ss_ts := ev_ts ev; ss_host := ev_host ev; ss_kind := ev_kind ev; ss_severity := ev_severity ev;
     ss_pid := num "pid"; ss_ppid := num "ppid"; ss_uid := num "uid"; ss_comm := txt "comm";
     ss_target_pid := num "target_pid";
     ss_exe := if String.eqb (txt "path") "" then txt "filename" else txt "path";
     ss_container := txt "container_id"; ss_seq := seq |}.

Definition to_incident (s : SecuritySignal) : Incident :=
  {| in_ts := ss_ts s;
     in_host := ss_host s;
     in_incident_id := "saturation:" +:+ ss_kind s +:+ ":" +:+ show (ss_pid s) +:+ ":" +:+ show (ss_seq s);
     in_severity := match ss_severity s with Critical => Critical | _ => High end;
     in_title := "Security event under saturation: " +:+ ss_kind s +:+ " (PID " +:+ show (ss_pid s) +:+ ")";
     in_summary := ss_kind s +:+ " (PID " +:+ show (ss_pid s) +:+ ", comm " +:+ ss_comm s
       +:+ ") was captured via the emergency overflow lane while the priority "
       +:+ "channel was saturated. The full payload was dropped to keep the kernel ring draining; "
       +:+ "this compact signal preserves the security event. target_pid=" +:+ show (ss_target_pid s)
       +:+ " uid=" +:+ show (ss_uid s) +:+ " exe=" +:+ ss_exe s +:+ " container=" +:+ ss_container s;
     in_evidence := JArr [JObj [("kind", JStr (ss_kind s)); ("pid", JInt (ss_pid s));
       ("ppid", JInt (ss_ppid s)); ("uid", JInt (ss_uid s)); ("comm", JStr (ss_comm s));
       ("target_pid", JInt (ss_target_pid s)); ("exe", JStr (ss_exe s));
       ("container", JStr (ss_container s)); ("seq", JInt (ss_seq s)); ("lane", JStr "emergency")]];
     in_recommended_checks :=
       ["Detection ran under saturation — investigate the load source (possible noise-flood evasion)";
        "Inspect PID " +:+ show (ss_pid s) +:+ " (" +:+ ss_comm s +:+ ") directly"];
     in_tags := ["ebpf"; "saturation"; "emergency_lane"];
     in_entities := [] |}.

(** ** The shared state *)

Record DropCounters := {
  prio_dropped : Z; bulk_dropped : Z; emergency_used : Z; brownout_activations : Z;
}.

Record Lanes := {
  prio : Chan Event;
  bulk : Chan Event;
  emergency : Chan SecuritySignal;
  counters : DropCounters;
  brownout : bool;
  seq : Z;
  brownout_watermark : Z;
  prio_open : bool;
  emergency_open : bool;
  bulk_open : bool;
}.

(** [mpsc::channel]: it panics without room for one item, and beyond the permits of
    its semaphore. *)
Definition MAX_PERMITS : Z := 2 ^ 61 - 1.
Definition capacity_ok (cap : Z) : bool := (0 <? cap) && (cap <=? MAX_PERMITS).
Definition new_chan {A} (cap : Z) : Chan A :=
  {| max_capacity := cap; queue := []; waiters := []; rx_alive := true; tx_alive := true |}.

Definition fresh_lanes (prio_cap bulk_cap emer_cap : Z) : Lanes :=
  {| prio := new_chan prio_cap; bulk := new_chan bulk_cap; emergency := new_chan emer_cap;
     counters := {| prio_dropped := 0; bulk_dropped := 0; emergency_used := 0; brownout_activations := 0 |};
     brownout := false; seq := 0; brownout_watermark := Z.max (wrap 64 (prio_cap * 3) / 4) 1;
     prio_open := true; emergency_open := true; bulk_open := true |}.

(** [None]: it panics. *)
Definition channels_with_caps (prio_cap bulk_cap emer_cap : Z) : option Lanes :=
  if capacity_ok prio_cap && capacity_ok bulk_cap && capacity_ok emer_cap
  then Some (fresh_lanes prio_cap bulk_cap emer_cap) else None.

Definition channels : option Lanes := channels_with_caps PRIO_CAP BULK_CAP EMERGENCY_CAP.

Definition snapshot (s : Lanes) : Z * Z * Z * Z :=
  let c := counters s in (prio_dropped c, bulk_dropped c, emergency_used c, brownout_activations c).

Definition set_lanes (s : Lanes) (p b : Chan Event) (e : Chan SecuritySignal) : Lanes :=
  {| prio := p; bulk := b; emergency := e; counters := counters s; brownout := brownout s; seq := seq s;
     brownout_watermark := brownout_watermark s; prio_open := prio_open s;
     emergency_open := emergency_open s; bulk_open := bulk_open s |}.
Definition set_counters (s : Lanes) (c : DropCounters) (b : bool) (q : Z) : Lanes :=
  {| prio := prio s; bulk := bulk s; emergency := emergency s; counters := c; brownout := b; seq := q;
     brownout_watermark := brownout_watermark s; prio_open := prio_open s;
     emergency_open := emergency_open s; bulk_open := bulk_open s |}.
Definition set_open (s : Lanes) (p e b : bool) : Lanes :=
  {| prio := prio s; bulk := bulk s; emergency := emergency s; counters := counters s;
     brownout := brownout s; seq := seq s; brownout_watermark := brownout_watermark s;
     prio_open := p; emergency_open := e; bulk_open := b |}.

(** The four counters, each a 64-bit atomic. *)
Definition count_prio_dropped (c : DropCounters) : DropCounters :=
  {| prio_dropped := wrapping_add 64 (prio_dropped c) 1; bulk_dropped := bulk_dropped c;
     emergency_used := emergency_used c; brownout_activations := brownout_activations c |}.
Definition count_bulk_dropped (c : DropCounters) : DropCounters :=
  {| prio_dropped := prio_dropped c; bulk_dropped := wrapping_add 64 (bulk_dropped c) 1;
     emergency_used := emergency_used c; brownout_activations := brownout_activations c |}.
Definition count_emergency_used (c : DropCounters) : DropCounters :=
  {| prio_dropped := prio_dropped c; bulk_dropped := bulk_dropped c;
     emergency_used := wrapping_add 64 (emergency_used c) 1;
     brownout_activations := brownout_activations c |}.
Definition count_brownout (c : DropCounters) : DropCounters :=
  {| prio_dropped := prio_dropped c; bulk_dropped := bulk_dropped c;
     emergency_used := emergency_used c;
     brownout_activations := wrapping_add 64 (brownout_activations c) 1 |}.

(** ** The producer *)

Inductive EmitOutcome := OPrio | OBulk | OEmergency | ODroppedPrio | ODroppedBulk | OSampled.

#[export] Instance emit_outcome_eq_dec : EqDecision EmitOutcome.
Proof. solve_decision. Defined.

Definition engage_brownout (s : Lanes) : Lanes :=
  set_counters s (if brownout s then counters s else count_brownout (counters s)) true (seq s).

Definition emit_prio (s : Lanes) (ev : Event) : Lanes * EmitOutcome :=
  match try_send (prio s) ev with
  | Sent p =>
      let s := set_lanes s p (bulk s) (emergency s) in
      let depth := saturating_sub (max_capacity p) (capacity p) in
      (if brownout_watermark s <=? depth then engage_brownout s else s, OPrio)
  | Full =>
      let s := engage_brownout s in
      let n := seq s in
      let s := set_counters s (counters s) (brownout s) (wrapping_add 64 n 1) in
      match try_send (emergency s) (from_event ev n) with
      | Sent e =>
          let s := set_lanes s (prio s) (bulk s) e in
          (set_counters s (count_emergency_used (counters s)) (brownout s) (seq s), OEmergency)
      | _ => (set_counters s (count_prio_dropped (counters s)) (brownout s) (seq s), ODroppedPrio)
      end
  | Closed => (s, ODroppedPrio)
  end.

Definition emit_bulk (s : Lanes) (ev : Event) : Lanes * EmitOutcome :=
  if brownout s
  then (set_counters s (count_bulk_dropped (counters s)) (brownout s) (seq s), OSampled)
  else
    match try_send (bulk s) ev with
    | Sent b => (set_lanes s (prio s) b (emergency s), OBulk)
    | _ => (set_counters s (count_bulk_dropped (counters s)) (brownout s) (seq s), ODroppedBulk)
    end.

Definition emit (s : Lanes) (ev : Event) : Lanes * EmitOutcome :=
  match classify ev with
  | PrioLane => emit_prio s ev
  | BulkLane => emit_bulk s ev
  end.

Definition in_brownout (s : Lanes) : bool := brownout s.
Definition is_closed (s : Lanes) : bool :=
  negb (rx_alive (prio s)) && negb (rx_alive (bulk s)) && negb (rx_alive (emergency s)).

(** ** The consumer *)

Inductive Drained := DEvent (ev : Event) | DSecurity (sig : SecuritySignal).

(** What one turn of the [select!] loop does: return, wait, or loop. *)
Inductive Turn := Return (d : option Drained) | Wait | Loop.

(** The biased [select!]: the first enabled branch that is ready; a lane that
    has ended is switched off and the loop turns once more. *)
Definition recv_turn (s : Lanes) : Lanes * Turn :=
  let s := match queue (prio s) with
           | [] => set_counters s (counters s) false (seq s)
           | _ => s
           end in
  let wait := if prio_open s || emergency_open s || bulk_open s then Wait else Return None in
  let poll_bulk :=
    if bulk_open s then
      match poll_recv (bulk s) with
      | Item ev b => (set_lanes s (prio s) b (emergency s), Return (Some (DEvent ev)))
      | Ended => (set_open s (prio_open s) (emergency_open s) false, Loop)
      | Waiting => (s, wait)
      end
    else (s, wait) in
  let poll_emergency :=
    if emergency_open s then
      match poll_recv (emergency s) with
      | Item sig e => (set_lanes s (prio s) (bulk s) e, Return (Some (DSecurity sig)))
      | Ended => (set_open s (prio_open s) false (bulk_open s), Loop)
      | Waiting => poll_bulk
      end
    else poll_bulk in
  if prio_open s then
    match poll_recv (prio s) with
    | Item ev p => (set_lanes s p (bulk s) (emergency s), Return (Some (DEvent ev)))
    | Ended => (set_open s false (emergency_open s) (bulk_open s), Loop)
    | Waiting => poll_emergency
    end
  else poll_emergency.

Inductive RecvResult := Got (d : Drained) | Done | Pending | OutOfFuel.

Fixpoint recv_loop (fuel : nat) (s : Lanes) : Lanes * RecvResult :=
  match fuel with
  | O => (s, OutOfFuel)
  | S fuel =>
      let '(s, t) := recv_turn s in
      match t with
      | Return (Some d) => (s, Got d)
      | Return None => (s, Done)
      | Wait => (s, Pending)
      | Loop => recv_loop fuel s
      end
  end.

(** Three lanes can end, and one turn more settles the call. *)
Definition recv (s : Lanes) : Lanes * RecvResult := recv_loop 4 s.

(** ** Handles going away *)

Definition close_tx {A} (c : Chan A) : Chan A :=
  {| max_capacity := max_capacity c; queue := queue c; waiters := []; rx_alive := rx_alive c; tx_alive := false |}.
Definition close_rx {A} (c : Chan A) : Chan A :=
  {| max_capacity := max_capacity c; queue := []; waiters := []; rx_alive := false; tx_alive := tx_alive c |}.

(** Every [EbpfTx] and every plain bulk sender is dropped, those that wait included. *)
Definition drop_producers (s : Lanes) : Lanes :=
  set_lanes s (close_tx (prio s)) (close_tx (bulk s)) (close_tx (emergency s)).
Definition drop_receiver (s : Lanes) : Lanes :=
  set_lanes s (close_rx (prio s)) (close_rx (bulk s)) (close_rx (emergency s)).

(** ** Traces: interleaved calls of the producers and the consumer *)

Inductive Op := Emit (ev : Event) | SendBulk (ev : Event) | Recv.

(** [SendBulk] is [send().await] on a clone of the bulk sender ([bulk_sender]); the
    other collectors use it. *)
Inductive SendOutcome := SAccepted | SParked | SRefused.

(** What a call did.  For a delivered event, the lane it came from. *)
Inductive Obs :=
| ObsEmit (ev : Event) (o : EmitOutcome)
| ObsSend (ev : Event) (o : SendOutcome)
| ObsRecv (from : Lane) (r : RecvResult).

Definition apply_op (s : Lanes) (op : Op) : Lanes * Obs :=
  match op with
  | Emit ev => let '(s, o) := emit s ev in (s, ObsEmit ev o)
  | SendBulk ev =>
      match send_await (bulk s) ev with
      | Accepted b => (set_lanes s (prio s) b (emergency s), ObsSend ev SAccepted)
      | Parked b => (set_lanes s (prio s) b (emergency s), ObsSend ev SParked)
      | Refused => (s, ObsSend ev SRefused)
      end
  | Recv =>
      let from := match queue (prio s) with [] => BulkLane | _ => PrioLane end in
      let '(s, r) := recv s in (s, ObsRecv from r)
  end.

Fixpoint run_ops (s : Lanes) (ops : list Op) : Lanes * list Obs :=
  match ops with
  | [] => (s, [])
  | op :: ops =>
      let '(s, o) := apply_op s op in
      let '(s, os) := run_ops s ops in (s, o :: os)
  end.

(** What an observation, and a trace, shows of each lane. *)
Definition same_outcome (o o' : EmitOutcome) : bool :=
  match o, o' with
  | OPrio, OPrio | OBulk, OBulk | OEmergency, OEmergency | ODroppedPrio, ODroppedPrio
  | ODroppedBulk, ODroppedBulk | OSampled, OSampled => true
  | _, _ => false
  end.
Definition emitted_as1 (o : EmitOutcome) (x : Obs) : list Event :=
  match x with ObsEmit ev o' => if same_outcome o o' then [ev] else [] | _ => [] end.
(** Taken over by the bulk lane, at once or by a sender that waits. *)
Definition entered_bulk1 (x : Obs) : list Event :=
  match x with ObsEmit ev OBulk | ObsSend ev SAccepted | ObsSend ev SParked => [ev] | _ => [] end.
Definition refused1 (x : Obs) : list Event := match x with ObsSend ev SRefused => [ev] | _ => [] end.
Definition left_prio1 (x : Obs) : list Event :=
  match x with ObsRecv PrioLane (Got (DEvent ev)) => [ev] | _ => [] end.
Definition left_bulk1 (x : Obs) : list Event :=
  match x with ObsRecv BulkLane (Got (DEvent ev)) => [ev] | _ => [] end.
Definition left_emergency1 (x : Obs) : list SecuritySignal :=
  match x with ObsRecv _ (Got (DSecurity sig)) => [sig] | _ => [] end.
Definition emitted_prio1 (x : Obs) : list Event :=
  match x with
  | ObsEmit ev _ => match classify ev with PrioLane => [ev] | BulkLane => [] end
  | _ => []
  end.

Definition emitted_bulk1 (x : Obs) : list Event :=
  match x with
  | ObsEmit ev _ => match classify ev with PrioLane => [] | BulkLane => [ev] end
  | _ => []
  end.

Definition emitted_as (o : EmitOutcome) : list Obs -> list Event := flat_map (emitted_as1 o).
Definition entered_bulk : list Obs -> list Event := flat_map entered_bulk1.
Definition left_prio : list Obs -> list Event := flat_map left_prio1.
Definition left_bulk : list Obs -> list Event := flat_map left_bulk1.
Definition left_emergency : list Obs -> list SecuritySignal := flat_map left_emergency1.
Definition emitted_prio : list Obs -> list Event := flat_map emitted_prio1.
Definition emitted_bulk : list Obs -> list Event := flat_map emitted_bulk1.
Definition refused : list Obs -> list Event := flat_map refused1.

Definition count_as (o : EmitOutcome) (obs : list Obs) : Z := Z.of_nat (length (emitted_as o obs)).

(** A signal without its sequence number. *)
Definition unnumbered (s : SecuritySignal) : SecuritySignal :=
  {| ss_ts := ss_ts s; ss_host := ss_host s; ss_kind := ss_kind s; ss_severity := ss_severity s;
     ss_pid := ss_pid s; ss_ppid := ss_ppid s; ss_uid := ss_uid s; ss_comm := ss_comm s;
     ss_target_pid := ss_target_pid s; ss_exe := ss_exe s; ss_container := ss_container s; ss_seq := 0 |}.

(** ** The books of the lanes *)

Record accounts (s : Lanes) (obs : list Obs) : Prop := {
  acc_alive : rx_alive (prio s) = true /\ rx_alive (bulk s) = true /\ rx_alive (emergency s) = true
    /\ tx_alive (prio s) = true /\ tx_alive (bulk s) = true /\ tx_alive (emergency s) = true;
  acc_open : prio_open s = true /\ emergency_open s = true /\ bulk_open s = true;
  acc_caps : depth (prio s) <= max_capacity (prio s) /\ depth (bulk s) <= max_capacity (bulk s)
    /\ depth (emergency s) <= max_capacity (emergency s);
  acc_waiters : waiters (prio s) = [] /\ waiters (emergency s) = []
    /\ 0 < max_capacity (bulk s) /\ (waiters (bulk s) <> [] -> depth (bulk s) = max_capacity (bulk s));
  acc_prio : emitted_as OPrio obs = left_prio obs ++ queue (prio s);
  acc_bulk : entered_bulk obs = left_bulk obs ++ queue (bulk s) ++ waiters (bulk s);
  acc_refused : refused obs = [];
  acc_emergency : (fun ev => from_event ev 0) <$> emitted_as OEmergency obs
    = unnumbered <$> (left_emergency obs ++ queue (emergency s));
  acc_emitted : Z.of_nat (length (emitted_prio obs))
    = count_as OPrio obs + count_as OEmergency obs + count_as ODroppedPrio obs;
  acc_telemetry : Z.of_nat (length (emitted_bulk obs))
    = count_as OBulk obs + count_as ODroppedBulk obs + count_as OSampled obs;
  acc_prio_dropped : prio_dropped (counters s) = wrap 64 (count_as ODroppedPrio obs);
  acc_bulk_dropped : bulk_dropped (counters s)
    = wrap 64 (count_as ODroppedBulk obs + count_as OSampled obs);
  acc_emergency_used : emergency_used (counters s) = wrap 64 (count_as OEmergency obs);
}.

Lemma wrapping_add_wrap w a b : wrapping_add w (wrap w a) b = wrap w (a + b).
Proof. unfold wrapping_add, wrap. by rewrite Zplus_mod_idemp_l. Qed.

Lemma flat_map_snoc {A B} (f : A -> list B) l x : flat_map f (l ++ [x]) = flat_map f l ++ f x.
Proof. rewrite flat_map_app. simpl. by rewrite app_nil_r. Qed.

Lemma count_as_snoc o obs x :
  count_as o (obs ++ [x]) = count_as o obs + Z.of_nat (length (emitted_as1 o x)).
Proof. unfold count_as, emitted_as. rewrite flat_map_snoc, length_app. lia. Qed.

(** The lists read off a trace, extended by one observation. *)
Lemma obs_snoc obs x :
  (forall o, emitted_as o (obs ++ [x]) = emitted_as o obs ++ emitted_as1 o x)
  /\ entered_bulk (obs ++ [x]) = entered_bulk obs ++ entered_bulk1 x
  /\ left_prio (obs ++ [x]) = left_prio obs ++ left_prio1 x
  /\ left_bulk (obs ++ [x]) = left_bulk obs ++ left_bulk1 x
  /\ left_emergency (obs ++ [x]) = left_emergency obs ++ left_emergency1 x
  /\ emitted_prio (obs ++ [x]) = emitted_prio obs ++ emitted_prio1 x
  /\ emitted_bulk (obs ++ [x]) = emitted_bulk obs ++ emitted_bulk1 x
  /\ refused (obs ++ [x]) = refused obs ++ refused1 x.
Proof. split_and!; intros; apply flat_map_snoc. Qed.

Lemma depth_snoc {A} (c : Chan A) x : depth (with_queue c (queue c ++ [x])) = depth c + 1.
Proof. unfold depth. simpl. rewrite length_app. simpl. lia. Qed.

(** Extend the books by one observation, and settle each entry. *)
Ltac next_obs x obs :=
  cbn [fst snd];
  destruct (obs_snoc obs x) as (Ho1 & Ho2 & Ho3 & Ho4 & Ho5 & Ho6 & Ho7 & Ho8);
  split; rewrite ?count_as_snoc, ?Ho1, ?Ho2, ?Ho3, ?Ho4, ?Ho5, ?Ho6, ?Ho7, ?Ho8;
  clear Ho1 Ho2 Ho3 Ho4 Ho5 Ho6 Ho7 Ho8; simpl; rewrite ?app_nil_r, ?Z.add_0_r.
Ltac settle :=
  try match goal with A : accounts _ _ |- _ => by destruct A end;
  lazymatch goal with
  | A : accounts _ _, W : waiters (bulk _) = [] |- waiters _ = [] /\ _ =>
      destruct (acc_waiters _ _ A) as (? & ? & ? & ?); rewrite ?W; split_and!; [done|done|done|congruence]
  | A : accounts _ _ |- _ /\ _ /\ _ =>
      rewrite ?depth_snoc; pose proof (acc_caps _ _ A); naive_solver lia
  | A : accounts _ _, W : waiters (bulk _) = [] |- entered_bulk _ ++ _ = _ =>
      by rewrite (acc_bulk _ _ A), W, !app_nil_r, <- app_assoc
  | A : accounts _ _ |- emitted_as _ _ ++ _ = _ => by rewrite (acc_prio _ _ A), <- app_assoc
  | A : accounts _ _ |- entered_bulk _ ++ _ = _ => by rewrite (acc_bulk _ _ A), <- !app_assoc
  | A : accounts _ _ |- _ <$> (emitted_as _ _ ++ _) = _ =>
      rewrite app_assoc, !fmap_app; rewrite (acc_emergency _ _ A), fmap_app; done
  | A : accounts _ _, C : classify _ = _ |- Z.of_nat _ = _ =>
      rewrite C; simpl; rewrite ?app_nil_r, ?length_app, ?Nat2Z.inj_add, ?(acc_emitted _ _ A), ?(acc_telemetry _ _ A);
      simpl; lia
  | A : accounts _ _ |- _ = wrap _ _ =>
      pose proof (acc_prio_dropped _ _ A) as Hpd; pose proof (acc_bulk_dropped _ _ A) as Hbd;
      pose proof (acc_emergency_used _ _ A) as Heu; simpl in Hpd, Hbd, Heu;
      try match goal with |- context [if brownout ?s then _ else _] => destruct (brownout s) end;
      simpl in *; rewrite ?Hpd, ?Hbd, ?Heu, ?wrapping_add_wrap; f_equal; lia
  end.

Lemma try_send_Sent {A} (c c' : Chan A) x :
  try_send c x = Sent c' -> c' = with_queue c (queue c ++ [x]) /\ depth c < max_capacity c.
Proof. unfold try_send, capacity. intros. repeat case_match; simplify_eq. bool_to_prop. split; [done|lia]. Qed.

(** Nobody waits while there is room. *)
Lemma room_no_waiters s obs : accounts s obs -> depth (bulk s) < max_capacity (bulk s) -> waiters (bulk s) = [].
Proof.
  intros A Hlt. destruct (acc_waiters _ _ A) as (_ & _ & _ & Hw). destruct (waiters (bulk s)); [done|].
  rewrite Hw in Hlt by done. lia.
Qed.

Lemma try_send_Full {A} (c : Chan A) x : try_send c x = Full -> max_capacity c <= depth c.
Proof. unfold try_send, capacity. intros. repeat case_match; simplify_eq. bool_to_prop. lia. Qed.

Lemma try_send_alive {A} (c : Chan A) x : rx_alive c = true -> try_send c x <> Closed.
Proof. unfold try_send. intros ->. simpl. by case_match. Qed.

Lemma engage_brownout_accounts s obs : accounts s obs -> accounts (engage_brownout s) obs.
Proof. intros []. unfold engage_brownout. split; simpl; try done; by case_match. Qed.

Lemma renumber_accounts s obs n : accounts s obs -> accounts (set_counters s (counters s) (brownout s) n) obs.
Proof. by intros []. Qed.

Lemma emit_prio_accounts s obs ev :
  accounts s obs -> classify ev = PrioLane ->
  accounts (fst (emit_prio s ev)) (obs ++ [ObsEmit ev (snd (emit_prio s ev))]).
Proof.
  intros A Hc. unfold emit_prio. destruct (acc_alive _ _ A) as (Hpa & _ & Hea & _).
  destruct (try_send (prio s) ev) as [p| |] eqn:Et; [| |by apply try_send_alive in Et].
  - apply try_send_Sent in Et as [-> Hlt].
    destruct (_ <=? _); simpl; [apply engage_brownout_accounts|];
      next_obs (ObsEmit ev OPrio) obs; settle.
  - cbv zeta. set (n := seq (engage_brownout s)).
    apply engage_brownout_accounts, (renumber_accounts _ _ (wrapping_add 64 n 1)) in A.
    destruct (try_send (emergency _) (from_event ev n)) as [c| |] eqn:Ee; [| |by apply try_send_alive in Ee].
    + apply try_send_Sent in Ee as [-> Hlt]. next_obs (ObsEmit ev OEmergency) obs; settle.
    + next_obs (ObsEmit ev ODroppedPrio) obs; settle.
Qed.

Lemma emit_bulk_accounts s obs ev :
  accounts s obs -> classify ev = BulkLane ->
  accounts (fst (emit_bulk s ev)) (obs ++ [ObsEmit ev (snd (emit_bulk s ev))]).
Proof.
  intros A Hc. unfold emit_bulk. destruct (acc_alive _ _ A) as (_ & Hba & _).
  destruct (brownout s) eqn:Eb; [next_obs (ObsEmit ev OSampled) obs; settle|].
  destruct (try_send (bulk s) ev) as [b| |] eqn:Et; [| |by apply try_send_alive in Et].
  - apply try_send_Sent in Et as [-> Hlt]. pose proof (room_no_waiters _ _ A Hlt) as Hw.
    next_obs (ObsEmit ev OBulk) obs; settle.
  - next_obs (ObsEmit ev ODroppedBulk) obs; settle.
Qed.

Lemma send_accounts s obs ev :
  accounts s obs -> accounts (fst (apply_op s (SendBulk ev))) (obs ++ [snd (apply_op s (SendBulk ev))]).
Proof.
  intros A. destruct (acc_alive _ _ A) as (_ & Hba & _). simpl. unfold send_await.
  destruct (try_send (bulk s) ev) as [b| |] eqn:Et; [| |by apply try_send_alive in Et].
  - apply try_send_Sent in Et as [-> Hlt]. pose proof (room_no_waiters _ _ A Hlt) as Hw.
    next_obs (ObsSend ev SAccepted) obs; settle.
  - apply try_send_Full in Et. next_obs (ObsSend ev SParked) obs; try settle.
    destruct (acc_waiters _ _ A) as (? & ? & ? & ?). destruct (acc_caps _ _ A) as (_ & ? & _).
    split_and!; [done..|]. intros _. change (depth (with_waiters (bulk s) _ _)) with (depth (bulk s)). lia.
Qed.

Definition clear_brownout (s : Lanes) : Lanes := set_counters s (counters s) false (seq s).

(** While the producers live, a call of [recv] takes the head of the first
    lane that has one, in the order prio, emergency, bulk. *)
Lemma recv_live s :
  prio_open s = true -> emergency_open s = true -> bulk_open s = true ->
  tx_alive (prio s) = true -> tx_alive (emergency s) = true -> tx_alive (bulk s) = true ->
  recv s =
    match queue (prio s), queue (emergency s), queue (bulk s) with
    | ev :: p, _, _ =>
        (set_lanes s (serve (with_queue (prio s) p)) (bulk s) (emergency s), Got (DEvent ev))
    | [], sig :: e, _ =>
        (set_lanes (clear_brownout s) (prio s) (bulk s) (serve (with_queue (emergency s) e)), Got (DSecurity sig))
    | [], [], ev :: b =>
        (set_lanes (clear_brownout s) (prio s) (serve (with_queue (bulk s) b)) (emergency s), Got (DEvent ev))
    | [], [], [] => (clear_brownout s, Pending)
    end.
Proof.
  intros H1 H2 H3 H4 H5 H6. unfold recv, recv_loop, recv_turn, poll_recv.
  destruct (queue (prio s)) as [|ev p] eqn:Ep; simpl; rewrite ?H1, ?H2, ?H3, ?Ep, ?H4; simpl; [|done].
  destruct (queue (emergency s)) as [|sig e] eqn:Ee; simpl; [|done].
  rewrite H5. by destruct (queue (bulk s)) as [|ev b]; simpl; rewrite ?H6, ?H1.
Qed.

Lemma clear_brownout_accounts s obs : accounts s obs -> accounts (clear_brownout s) obs.
Proof. by intros []. Qed.

Lemma recv_accounts s obs :
  accounts s obs ->
  let from := match queue (prio s) with [] => BulkLane | _ => PrioLane end in
  accounts (fst (recv s)) (obs ++ [ObsRecv from (snd (recv s))]).
Proof.
  cbv zeta. intros A. destruct (acc_alive _ _ A) as (_ & _ & _ & T1 & T2 & T3).
  destruct (acc_open _ _ A) as (O1 & O2 & O3). rewrite recv_live by done.
  pose proof A as [Hal Hop Hcap (W1 & W2 & W3 & W4) Hp Hb Hr He Hem Htel Hpd Hbd Heu]. unfold depth in Hcap, W4.
  destruct (queue (prio s)) as [|ev p] eqn:Ep; [destruct (queue (emergency s)) as [|sig e] eqn:Ee;
    [destruct (queue (bulk s)) as [|ev b] eqn:Eb|]|];
    cbn [fst snd]; match goal with |- accounts _ (_ ++ [?x]) => next_obs x obs end;
    unfold serve; cbn [waiters with_queue]; rewrite ?W1, ?W2;
    try (destruct (waiters (bulk s)) as [|w ws] eqn:Ew); cbn [with_queue with_waiters queue waiters max_capacity rx_alive tx_alive];
    rewrite ?Ep, ?Ee, ?Eb, ?Ew, <- ?app_assoc; try done;
    try (unfold depth; simpl; rewrite ?Ep, ?Ee, ?Eb, ?length_app; simpl; naive_solver lia).
Qed.

Lemma apply_op_accounts s obs op :
  accounts s obs -> accounts (fst (apply_op s op)) (obs ++ [snd (apply_op s op)]).
Proof.
  intros A. destruct op as [ev|ev|]; simpl.
  - unfold emit. destruct (classify ev) eqn:Hc.
    + pose proof (emit_prio_accounts _ _ _ A Hc). by destruct (emit_prio s ev).
    + pose proof (emit_bulk_accounts _ _ _ A Hc). by destruct (emit_bulk s ev).
  - by apply (send_accounts s obs ev).
  - pose proof (recv_accounts _ _ A). by destruct (recv s).
Qed.

Lemma run_ops_accounts s obs ops :
  accounts s obs -> accounts (fst (run_ops s ops)) (obs ++ snd (run_ops s ops)).
Proof.
  revert s obs. induction ops as [|op ops IH]; intros s obs A; simpl; [by rewrite app_nil_r|].
  apply (apply_op_accounts _ _ op) in A. destruct (apply_op s op) as [s1 o]. specialize (IH s1 _ A).
  destruct (run_ops s1 ops) as [s2 os]. simpl in *. by rewrite <- app_assoc in IH.
Qed.

Lemma new_accounts p b e :
  capacity_ok p = true -> capacity_ok b = true -> capacity_ok e = true -> accounts (fresh_lanes p b e) [].
Proof. unfold capacity_ok. intros. bool_to_prop. split; simpl; try done; split_and!; unfold depth; simpl; lia || done. Qed.

(** ** Draining after the producers are gone *)

Record ended (s : Lanes) : Prop := {
  end_tx : tx_alive (prio s) = false /\ tx_alive (emergency s) = false /\ tx_alive (bulk s) = false;
  end_waiters : waiters (prio s) = [] /\ waiters (emergency s) = [] /\ waiters (bulk s) = [];
  end_prio : prio_open s = false -> queue (prio s) = [];
  end_emergency : emergency_open s = false -> queue (emergency s) = [];
  end_bulk : bulk_open s = false -> queue (bulk s) = [];
}.

Definition still_queued (s : Lanes) : list Drained :=
  (DEvent <$> queue (prio s)) ++ (DSecurity <$> queue (emergency s)) ++ (DEvent <$> queue (bulk s)).

(** No call of [recv] turns the loop more than four times. *)
Lemma recv_returns s : snd (recv s) <> OutOfFuel.
Proof.
  destruct s as [[pc pq pw pr pt] [bc bq bw br bt] [ec eq ew er et] c bo n w po eo bo'].
  unfold recv. destruct pq, eq, bq, pt, et, bt, po, eo, bo'; simpl; congruence.
Qed.

Lemma recv_ended s :
  ended s ->
  ended (fst (recv s)) /\
  match still_queued s with
  | d :: rest => snd (recv s) = Got d /\ still_queued (fst (recv s)) = rest
  | [] => snd (recv s) = Done /\ still_queued (fst (recv s)) = []
  end.
Proof.
  destruct s as [[pc pq pw pr pt] [bc bq bw br bt] [ec eq ew er et] c bo n w po eo bo'].
  intros [(H1 & H2 & H3) (H7 & H8 & H9) H4 H5 H6]. simpl in *. subst pt bt et pw ew bw. unfold still_queued, recv. simpl.
  destruct po, eo, bo'; try (specialize (H4 eq_refl) as ->); try (specialize (H5 eq_refl) as ->);
    try (specialize (H6 eq_refl) as ->); try destruct pq; try destruct eq; try destruct bq; simpl;
    (split; [by split|done]).
Qed.

(** [n] calls of [recv] and their results. *)
Fixpoint drain (n : nat) (s : Lanes) : list RecvResult :=
  match n with
  | O => []
  | S n => let '(s, r) := recv s in r :: drain n s
  end.

Lemma drain_ended q s : ended s -> still_queued s = q -> drain (length q + 1) s = (Got <$> q) ++ [Done].
Proof.
  revert s. induction q as [|d q IH]; intros s He Hq; simpl;
    pose proof (recv_ended s He) as [He' Hr]; rewrite Hq in Hr; destruct (recv s) as [s' r]; simpl in *;
    destruct Hr as [-> Hq']; [done|]. f_equal. by apply IH.
Qed.

(** ** Properties *)

(** C25. While the consumer exists nothing is lost without being counted.  Over any
    interleaving of [emit], of direct sends to the bulk lane (which wait for room)
    and of [recv] on fresh lanes: what the prio lane accepted is, in order, what was
    delivered from it followed by what is queued; what the bulk lane took, direct
    sends included, is in order what was delivered, what is queued and what waits
    for room, and no direct send is refused; the emergency lane carries, in order,
    the compact signals of the security events it took; every security event
    emitted is accepted, spilled or dropped and every telemetry event emitted is
    accepted, shed or dropped; the counters are the numbers of drops and spills
    (modulo 2^64); and no lane exceeds its capacity.  (After the consumer is gone a
    dropped security event is not counted: [closed_drop_uncounted].) *)
Theorem lanes_lose_nothing_uncounted prio_cap bulk_cap emer_cap lanes ops :
  channels_with_caps prio_cap bulk_cap emer_cap = Some lanes ->
  let '(s, obs) := run_ops lanes ops in
  emitted_as OPrio obs = left_prio obs ++ queue (prio s)
  /\ entered_bulk obs = left_bulk obs ++ queue (bulk s) ++ waiters (bulk s)
  /\ refused obs = []
  /\ (fun ev => from_event ev 0) <$> emitted_as OEmergency obs
     = unnumbered <$> (left_emergency obs ++ queue (emergency s))
  /\ Z.of_nat (length (emitted_prio obs))
     = count_as OPrio obs + count_as OEmergency obs + count_as ODroppedPrio obs
  /\ Z.of_nat (length (emitted_bulk obs))
     = count_as OBulk obs + count_as ODroppedBulk obs + count_as OSampled obs
  /\ prio_dropped (counters s) = wrap 64 (count_as ODroppedPrio obs)
  /\ bulk_dropped (counters s) = wrap 64 (count_as ODroppedBulk obs + count_as OSampled obs)
  /\ emergency_used (counters s) = wrap 64 (count_as OEmergency obs)
  /\ depth (prio s) <= max_capacity (prio s) /\ depth (bulk s) <= max_capacity (bulk s)
  /\ depth (emergency s) <= max_capacity (emergency s).
Proof.
  unfold channels_with_caps. destruct (_ && _) eqn:Hc; [|done]. intros [= <-]. bool_to_prop.
  pose proof (run_ops_accounts _ _ ops (new_accounts prio_cap bulk_cap emer_cap ltac:(done) ltac:(done) ltac:(done))) as A.
  destruct (run_ops _ ops) as [s obs]. simpl in A.
  destruct A as [_ _ (? & ? & ?)]. by split_and!.
Qed.

(** Each call of [recv] ends after at most four turns of its loop; and once
    every producer is gone, successive calls deliver all that is queued (the
    prio lane first, then the emergency signals, then the bulk lane, each in
    order) and then report the end. *)
Theorem recv_drains_in_order s :
  snd (recv s) <> OutOfFuel
  /\ (prio_open s = true -> emergency_open s = true -> bulk_open s = true ->
      drain (length (queue (prio s)) + length (queue (emergency s)) + length (queue (bulk s)) + 1)
        (drop_producers s)
      = ((Got ∘ DEvent) <$> queue (prio s)) ++ ((Got ∘ DSecurity) <$> queue (emergency s))
        ++ ((Got ∘ DEvent) <$> queue (bulk s)) ++ [Done]).
Proof.
  split; [apply recv_returns|]. intros H1 H2 H3.
  assert (He : ended (drop_producers s)) by (split; simpl; [done|done|congruence..]).
  pose proof (drain_ended (still_queued s) _ He eq_refl) as Hd.
  unfold still_queued in Hd. rewrite !length_app, !length_fmap in Hd.
  rewrite Nat.add_assoc in Hd. rewrite Hd.
  by rewrite !fmap_app, <- !list_fmap_compose, <- !app_assoc.
Qed.

(** A security event is never dropped while there is room for its signal:
    with the receiver alive it enters the prio lane unless that is full, then
    the emergency lane unless that is full too; only then it is dropped, and
    counted.  Whenever it finds the prio lane full or fills it to the
    watermark, brownout is on afterwards and the next telemetry event is shed. *)
Theorem security_event_routing s ev :
  classify ev = PrioLane -> rx_alive (prio s) = true -> rx_alive (emergency s) = true ->
  depth (prio s) <= max_capacity (prio s) ->
  let '(s', o) := emit s ev in
  (o = OPrio <-> depth (prio s) < max_capacity (prio s))
  /\ (o = OEmergency <-> depth (prio s) = max_capacity (prio s)
                       /\ depth (emergency s) < max_capacity (emergency s))
  /\ (o = ODroppedPrio <-> depth (prio s) = max_capacity (prio s)
                         /\ max_capacity (emergency s) <= depth (emergency s))
  /\ (brownout_watermark s <= depth (prio s) + 1 ->
      brownout_watermark s <= max_capacity (prio s) ->
      brownout s' = true
      /\ forall ev', classify ev' = BulkLane -> snd (emit s' ev') = OSampled).
Proof.
  intros Hc Ha1 Ha2 Hle. unfold emit. rewrite Hc. unfold emit_prio, try_send, capacity.
  rewrite Ha1. cbn [negb].
  destruct (max_capacity (prio s) - depth (prio s) <=? 0) eqn:Ef; bool_to_prop.
  - cbn [emergency set_counters engage_brownout]. rewrite Ha2. cbn [negb].
    destruct (max_capacity (emergency s) - depth (emergency s) <=? 0) eqn:Ee; bool_to_prop;
      (split_and!; [split; (done || lia)..|]); intros _ _; (split; [done|]); intros ev' ->; done.
  - split_and!; [split; (done || lia)..|]. intros Hw _.
    rewrite !depth_snoc. cbn [brownout_watermark set_lanes max_capacity with_queue].
    replace (saturating_sub _ _) with (depth (prio s) + 1) by (unfold saturating_sub, depth; lia).
    rewrite (proj2 (Z.leb_le _ _) Hw). split; [done|]. intros ev' ->. done.
Qed.

(** Once the receiver is gone a security event is dropped without being
    counted, while telemetry is still counted. *)
Lemma closed_drop_uncounted s ev :
  classify ev = PrioLane -> emit (drop_receiver s) ev = (drop_receiver s, ODroppedPrio).
Proof. intros Hc. unfold emit. by rewrite Hc. Qed.

(** ** Witnesses *)

Definition demo_event (kind : string) : Event :=
  {| ev_ts := 0; ev_host := "h"; ev_source := "ebpf"; ev_kind := kind; ev_severity := Info;
     ev_summary := ""; ev_details := JObj [("pid", JInt 7)]; ev_tags := []; ev_entities := [] |}.
Definition demo_ops : list Op :=
  [Emit (demo_event "lsm.deny"); Emit (demo_event "process.exit"); Emit (demo_event "lsm.deny");
   Emit (demo_event "lsm.deny"); Recv; SendBulk (demo_event "log.line"); Recv; Recv; Recv;
   Emit (demo_event "process.exit")].

Lemma lanes_lose_nothing_uncounted_witness :
  let '(s, obs) := run_ops (fresh_lanes 1 4 1) demo_ops in
  snapshot s = (1, 1, 1, 1)
  /\ emitted_as OPrio obs = left_prio obs ++ queue (prio s)
  /\ prio_dropped (counters s) = wrap 64 (count_as ODroppedPrio obs).
Proof.
  pose proof (lanes_lose_nothing_uncounted 1 4 1 (fresh_lanes 1 4 1) demo_ops eq_refl) as H.
  destruct (run_ops (fresh_lanes 1 4 1) demo_ops) as [s obs] eqn:E.
  destruct H as (H1 & _ & _ & _ & _ & _ & H5 & _).
  split_and!; [|done|done]. vm_compute in E. injection E as <- <-. reflexivity.
Defined.

Lemma recv_drains_in_order_witness :
  let s := fst (run_ops (fresh_lanes 2 4 2)
                  [Emit (demo_event "process.exit"); Emit (demo_event "lsm.deny")]) in
  drain 3 (drop_producers s)
  = [Got (DEvent (demo_event "lsm.deny")); Got (DEvent (demo_event "process.exit")); Done].
Proof.
  exact (proj2 (recv_drains_in_order
    (fst (run_ops (fresh_lanes 2 4 2)
       [Emit (demo_event "process.exit"); Emit (demo_event "lsm.deny")]))) eq_refl eq_refl eq_refl).
Defined.

Lemma security_event_routing_witness :
  let s := fst (run_ops (fresh_lanes 1 4 1) [Emit (demo_event "lsm.deny")]) in
  snd (emit s (demo_event "privilege.setuid")) = OEmergency.
Proof.
  intros s. pose proof (security_event_routing s (demo_event "privilege.setuid") eq_refl eq_refl eq_refl) as H.
  destruct (emit s (demo_event "privilege.setuid")) as [s' o] eqn:E.
  apply H; [vm_compute; congruence|]. split; reflexivity.
Defined.
