(* ===== verification/SensorTcpStream.v ===== *)
(** * SensorTcpStream: TCP stream reassembly
    (crates/sensor/src/collectors/tcp_stream.rs)

    The flow table of the passive reassembly engine: per connection two
    in-order buffers, protocol probing of the first payload, a bound on flows
    and bytes, and the parser that reads a captured frame.  Bytes are integers
    from 0 to 255, sequence numbers 32-bit integers with wrap-around; a panic is
    [None].  The iteration order of the flow table is that of [map_to_list]. *)

From Stdlib Require Import ZArith Lia Ascii String.
From stdpp Require Import prelude strings list gmap.
From S2P Require Import Prelude Text Net.

Local Open Scope string_scope.
Local Open Scope list_scope.
Local Open Scope Z_scope.

(** ** Keys *)

Record FlowKey := {
  src_ip : Z; dst_ip : Z; src_port : Z; dst_port : Z; proto : Z;
}.

#[export] Instance flow_key_eq_dec : EqDecision FlowKey.
Proof. solve_decision. Defined.
#[export] Instance flow_key_countable : Countable FlowKey.
Proof.
  refine (inj_countable' (fun k => (src_ip k, dst_ip k, src_port k, dst_port k, proto k))
    (fun '(a, b, c, d, e) =>
       {| src_ip := a; dst_ip := b; src_port := c; dst_port := d; proto := e |}) _).
  by intros [].
Defined.

Definition reverse_key (k : FlowKey) : FlowKey :=
  {| src_ip := dst_ip k; dst_ip := src_ip k; src_port := dst_port k; dst_port := src_port k;
     proto := proto k |}.

Definition ip_str (ip : Z) : string :=
  show (Z.land (Z.shiftr ip 24) 255) +:+ "." +:+ show (Z.land (Z.shiftr ip 16) 255) +:+ "."
  +:+ show (Z.land (Z.shiftr ip 8) 255) +:+ "." +:+ show (Z.land ip 255).
Definition src_ip_str (k : FlowKey) : string := ip_str (src_ip k).
Definition dst_ip_str (k : FlowKey) : string := ip_str (dst_ip k).

(** ** One direction of a stream *)

Record StreamBuffer := {
  next_seq : Z;
  data : list Z;
  total_bytes : Z;
  max_bytes : Z;
}.

Definition StreamBuffer_new (initial_seq max : Z) : StreamBuffer :=
  {| next_seq := initial_seq; data := []; total_bytes := 0; max_bytes := max |}.

(** Sequence number comparison modulo 2^32. *)
Definition seq_before (a b : Z) : bool := as_signed 32 (wrapping_sub 32 a b) <? 0.

Definition len (l : list Z) : Z := Z.of_nat (length l).

Definition add_segment (b : StreamBuffer) (seq : Z) (payload : list Z) : StreamBuffer * bool :=
  if bool_decide (payload = []) then (b, false)
  else if seq =? next_seq b then
    let available := saturating_sub (max_bytes b) (len (data b)) in
    let to_copy := Z.min (len payload) available in
    ({| next_seq := wrapping_add 32 seq (wrap 32 (len payload));
        data := if 0 <? to_copy then data b ++ take (Z.to_nat to_copy) payload else data b;
        total_bytes := wrapping_add 64 (total_bytes b) (len payload);
        max_bytes := max_bytes b |}, true)
  else if seq_before seq (next_seq b) then (b, false)
  else
    ({| next_seq := wrapping_add 32 seq (wrap 32 (len payload));
        data := data b;
        total_bytes := wrapping_add 64 (total_bytes b) (len payload);
        max_bytes := max_bytes b |}, false).

(** ** Flows *)

Inductive FlowState := SynSent | Established | Closing | FlowClosed.
Inductive AppProtocol := Http | Ssh | Tls | Smtp | Smb | UnknownProto.

Record Flow := {
  f_key : FlowKey;
  f_state : FlowState;
  f_client : StreamBuffer;
  f_server : StreamBuffer;
  f_started : Z;
  f_last_seen : Z;
  f_app_proto : option AppProtocol;
}.

Record FlowTable := {
  flows : gmap FlowKey Flow;
  max_flows : Z;
  max_bytes_per_flow : Z;
}.

Record FlowEvent := {
  fe_key : FlowKey;
  fe_app_proto : AppProtocol;
  fe_client_data : list Z;
  fe_server_data : list Z;
  fe_started : Z;
  fe_duration_ms : Z;
}.

Definition FlowTable_new (max_flows max_bytes : Z) : FlowTable :=
  {| flows := ∅; max_flows := max_flows; max_bytes_per_flow := max_bytes |}.

Definition set_flows (t : FlowTable) (m : gmap FlowKey Flow) : FlowTable :=
  {| flows := m; max_flows := max_flows t; max_bytes_per_flow := max_bytes_per_flow t |}.

(** ** Protocol probing *)

Fixpoint bytes (s : string) : list Z :=
  match s with EmptyString => [] | String a r => code a :: bytes r end.
Fixpoint starts_with_bytes (p l : list Z) : bool :=
  match p, l with
  | [], _ => true
  | x :: p, y :: l => (x =? y) && starts_with_bytes p l
  | _ :: _, [] => false
  end.
(** [data[i]], inside the bounds the code has checked. *)
Definition byte_at (l : list Z) (i : nat) : Z := default 0 (l !! i).

Definition probe_protocol (d : list Z) : AppProtocol :=
  if len d <? 4 then UnknownProto
  else if any (fun m => starts_with_bytes (bytes m) d)
            ["GET "; "POST "; "PUT "; "DELETE "; "HEAD "; "OPTIONS "; "PATCH "; "CONNECT ";
             "HTTP/1."; "HTTP/2"] then Http
  else if starts_with_bytes (bytes "SSH-") d then Ssh
  else if (byte_at d 0 =? 22) && (byte_at d 1 =? 3) && (byte_at d 2 <=? 4) then Tls
  else if starts_with_bytes (bytes "220 ") d || starts_with_bytes (bytes "EHLO") d
          || starts_with_bytes (bytes "HELO") d then Smtp
  else if (8 <=? len d) && (byte_at d 4 =? 255) && (byte_at d 5 =? 83) && (byte_at d 6 =? 77)
          && (byte_at d 7 =? 66) then Smb
  else UnknownProto.

(** ** Operations of the table *)

(** [min_by_key]: the first of the smallest. *)
Fixpoint min_by_key {A} (key : A -> Z) (l : list A) : option A :=
  match l with
  | [] => None
  | x :: r => match min_by_key key r with
              | Some y => if key y <? key x then Some y else Some x
              | None => Some x
              end
  end.

Definition evict_oldest (t : FlowTable) : FlowTable :=
  match min_by_key (fun kf => f_last_seen (snd kf)) (map_to_list (flows t)) with
  | Some (k, _) => set_flows t (delete k (flows t))
  | None => t
  end.

Definition emit_and_remove (t : FlowTable) (key : FlowKey) : FlowTable * option FlowEvent :=
  match flows t !! key with
  | None => (t, None)
  | Some f =>
      let t := set_flows t (delete key (flows t)) in
      match data (f_client f), data (f_server f) with
      | [], [] => (t, None)
      | _, _ =>
          (t, Some {| fe_key := f_key f; fe_app_proto := default UnknownProto (f_app_proto f);
                      fe_client_data := data (f_client f); fe_server_data := data (f_server f);
                      fe_started := f_started f;
                      fe_duration_ms := num_milliseconds (f_last_seen f - f_started f) |})
      end
  end.

Definition SYN : Z := 2.
Definition FIN : Z := 1.
Definition RST : Z := 4.
Definition ACK : Z := 16.
Definition has_flag (flags bit : Z) : bool := negb (Z.land flags bit =? 0).

Definition fresh_flow (t : FlowTable) (key : FlowKey) (state : FlowState) (client_seq now : Z) : Flow :=
  {| f_key := key; f_state := state;
     f_client := StreamBuffer_new client_seq (max_bytes_per_flow t);
     f_server := StreamBuffer_new 0 (max_bytes_per_flow t);
     f_started := now; f_last_seen := now; f_app_proto := None |}.

(** The payload joins its direction, and the first payload is probed. *)
Definition add_payload (f : Flow) (is_client : bool) (seq : Z) (payload : list Z) (now : Z) : Flow :=
  if bool_decide (payload = []) then
    {| f_key := f_key f; f_state := f_state f; f_client := f_client f; f_server := f_server f;
       f_started := f_started f; f_last_seen := now; f_app_proto := f_app_proto f |}
  else
    {| f_key := f_key f; f_state := f_state f;
       f_client := if is_client then fst (add_segment (f_client f) seq payload) else f_client f;
       f_server := if is_client then f_server f else fst (add_segment (f_server f) seq payload);
       f_started := f_started f; f_last_seen := now;
       f_app_proto := match f_app_proto f with
                      | None => Some (probe_protocol payload)
                      | p => p
                      end |}.

Definition close_flow (f : Flow) : Flow :=
  {| f_key := f_key f; f_state := FlowClosed; f_client := f_client f; f_server := f_server f;
     f_started := f_started f; f_last_seen := f_last_seen f; f_app_proto := f_app_proto f |}.

(** A packet of a tracked flow. *)
Definition tracked_packet (t : FlowTable) (flow_key : FlowKey) (is_client : bool) (flags seq : Z)
  (payload : list Z) (now : Z) : FlowTable * option FlowEvent :=
  match flows t !! flow_key with
  | None => (t, None)
  | Some f =>
      let f := add_payload f is_client seq payload now in
      if has_flag flags FIN || has_flag flags RST then
        emit_and_remove (set_flows t (<[flow_key := close_flow f]> (flows t))) flow_key
      else
        let t := set_flows t (<[flow_key := f]> (flows t)) in
        if (4096 <=? len (data (f_client f))) || (4096 <=? len (data (f_server f))) then
          (t, Some {| fe_key := f_key f; fe_app_proto := default UnknownProto (f_app_proto f);
                      fe_client_data := data (f_client f); fe_server_data := data (f_server f);
                      fe_started := f_started f;
                      fe_duration_ms := num_milliseconds (now - f_started f) |})
        else (t, None)
  end.

(** A packet whose key is not in a full table evicts the oldest flow. *)
Definition make_room (t : FlowTable) (key : FlowKey) : FlowTable :=
  if bool_decide (flows t !! key = None) && (max_flows t <=? Z.of_nat (size (flows t)))
  then evict_oldest t else t.

Definition process_packet (t : FlowTable) (key : FlowKey) (flags seq : Z) (payload : list Z) (now : Z)
  : FlowTable * option FlowEvent :=
  let is_syn := has_flag flags SYN in
  let is_ack := has_flag flags ACK in
  let t := make_room t key in
  if is_syn && negb is_ack then
    (set_flows t (<[key := fresh_flow t key SynSent (wrapping_add 32 seq 1) now]> (flows t)), None)
  else
    let rev := reverse_key key in
    if is_syn && is_ack then
      match flows t !! rev with
      | Some f =>
          let f := {| f_key := f_key f; f_state := Established; f_client := f_client f;
                      f_server := StreamBuffer_new (wrapping_add 32 seq 1) (max_bytes_per_flow t);
                      f_started := f_started f; f_last_seen := now; f_app_proto := f_app_proto f |} in
          (set_flows t (<[rev := f]> (flows t)), None)
      | None => (t, None)
      end
    else
      match flows t !! key, flows t !! rev with
      | Some _, _ => tracked_packet t key true flags seq payload now
      | None, Some _ => tracked_packet t rev false flags seq payload now
      | None, None =>
          if bool_decide (payload = []) then (t, None)
          else
            let f := add_payload (fresh_flow t key Established seq now) true seq payload now in
            (set_flows t (<[key := f]> (flows t)), None)
      end.

Definition cleanup_stale (t : FlowTable) (now timeout_secs : Z) : FlowTable * list FlowEvent :=
  let cutoff := now - seconds timeout_secs in
  let stale_keys := fst <$> retain (fun kf => f_last_seen (snd kf) <? cutoff) (map_to_list (flows t)) in
  foldl (fun '(t, evs) key =>
           let '(t, ev) := emit_and_remove t key in
           (t, match ev with Some e => evs ++ [e] | None => evs end)) (t, []) stale_keys.

(** ** The frame parser; an index out of range would panic *)

Definition be16 (a b : Z) : Z := a * 256 + b.
Definition be32 (a b c d : Z) : Z := ((a * 256 + b) * 256 + c) * 256 + d.
Definition read16 (l : list Z) (i : nat) : option Z :=
  a ← l !! i; b ← l !! S i; Some (be16 a b).
Definition read32 (l : list Z) (i : nat) : option Z :=
  a ← l !! i; b ← l !! (i + 1)%nat; c ← l !! (i + 2)%nat; d ← l !! (i + 3)%nat; Some (be32 a b c d).

Definition parse_ipv4_tcp (raw : list Z) (ip_start : nat)
  : option (option (FlowKey * Z * Z * list Z)) :=
  if (length raw <? ip_start + 20)%nat then Some None
  else
    let ip_header := drop ip_start raw in
    b0 ← ip_header !! 0%nat;
    if negb (Z.shiftr b0 4 =? 4) then Some None
    else
      let ip_header_len := (Z.to_nat (Z.land b0 15) * 4)%nat in
      protocol ← ip_header !! 9%nat;
      if negb (protocol =? 6) then Some None
      else
        src ← read32 ip_header 12;
        dst ← read32 ip_header 16;
        let tcp_start := (ip_start + ip_header_len)%nat in
        if (length raw <? tcp_start + 20)%nat then Some None
        else
          let tcp := drop tcp_start raw in
          sport ← read16 tcp 0;
          dport ← read16 tcp 2;
          seq ← read32 tcp 4;
          b12 ← tcp !! 12%nat;
          let tcp_data_offset := (Z.to_nat (Z.shiftr b12 4) * 4)%nat in
          flags ← tcp !! 13%nat;
          let payload_start := (tcp_start + tcp_data_offset)%nat in
          let payload := if (payload_start <? length raw)%nat then drop payload_start raw else [] in
          Some (Some ({| src_ip := src; dst_ip := dst; src_port := sport; dst_port := dport; proto := 6 |},
                      flags, seq, payload)).

Definition parse_tcp_packet (raw : list Z) : option (option (FlowKey * Z * Z * list Z)) :=
  if (length raw <? 14)%nat then Some None
  else
    ethertype ← read16 raw 12;
    if ethertype =? 2048 then parse_ipv4_tcp raw 14
    else if ethertype =? 33024 then parse_ipv4_tcp raw 18
    else Some None.

(** ** Bounds of the table *)

Definition buffer_ok (m : Z) (b : StreamBuffer) : Prop := max_bytes b = m /\ len (data b) <= m.
Definition flow_ok (m : Z) (k : FlowKey) (f : Flow) : Prop :=
  f_key f = k /\ buffer_ok m (f_client f) /\ buffer_ok m (f_server f).

Record table_ok (t : FlowTable) : Prop := {
  ok_size : Z.of_nat (size (flows t)) <= Z.max 1 (max_flows t);
  ok_flows : map_Forall (flow_ok (max_bytes_per_flow t)) (flows t);
}.

Lemma add_segment_ok m b seq payload : buffer_ok m b -> buffer_ok m (fst (add_segment b seq payload)).
Proof.
  intros [Hm Hl]. unfold add_segment. case_match; [done|]. case_match; [|by case_match].
  split; simpl; [done|]. unfold saturating_sub, len in *.
  case_match; bool_to_prop; [|done]. rewrite length_app, length_take. lia.
Qed.

Lemma new_buffer_ok m seq : 0 <= m -> buffer_ok m (StreamBuffer_new seq m).
Proof. intros. by split. Qed.

Lemma fresh_flow_ok t key st seq now :
  0 <= max_bytes_per_flow t -> flow_ok (max_bytes_per_flow t) key (fresh_flow t key st seq now).
Proof. intros. by split_and!; apply new_buffer_ok || done. Qed.

Lemma add_payload_ok m k f c seq payload now :
  flow_ok m k f -> flow_ok m k (add_payload f c seq payload now).
Proof.
  intros (? & ? & ?). unfold add_payload. case_match; [done|].
  by destruct c; split_and!; simpl; try done; apply add_segment_ok.
Qed.

#[local] Hint Resolve fresh_flow_ok add_payload_ok new_buffer_ok add_segment_ok : iw.

Lemma min_by_key_elem {A} (key : A -> Z) l x :
  min_by_key key l = Some x -> x ∈ l /\ Forall (fun y => key x <= key y) l.
Proof.
  revert x. induction l as [|y l IH]; intros x H; simpl in H; [done|].
  destruct (min_by_key key l) as [z|] eqn:E.
  - destruct (IH z eq_refl) as [Hz Hmin]. case_match; bool_to_prop; simplify_eq.
    + split; [by right|]. constructor; [lia|done].
    + split; [by left|]. constructor; [lia|]. eapply Forall_impl; [exact Hmin|]. simpl. lia.
  - simplify_eq. destruct l as [|w l]; [|simpl in E; by repeat case_match].
    split; [by left|]. constructor; [lia|constructor].
Qed.

Lemma min_by_key_None {A} (key : A -> Z) l : min_by_key key l = None -> l = [].
Proof. destruct l; simpl; [done|]. by repeat case_match. Qed.

(** Eviction removes exactly one flow, one of the longest idle ones. *)
Lemma evict_oldest_spec t :
  (flows t = ∅ /\ evict_oldest t = t) \/
  exists k f, flows t !! k = Some f
    /\ map_Forall (fun _ g => f_last_seen f <= f_last_seen g) (flows t)
    /\ evict_oldest t = set_flows t (delete k (flows t)).
Proof.
  unfold evict_oldest. destruct (min_by_key _ _) as [[k f]|] eqn:E.
  - right. apply min_by_key_elem in E as [Hin Hmin]. exists k, f.
    apply elem_of_map_to_list in Hin. split_and!; [done| |done].
    intros k' g Hg. apply elem_of_map_to_list in Hg.
    by apply (proj1 (Forall_forall _ _) Hmin (k', g)).
  - left. apply min_by_key_None in E. split; [|done]. by apply map_to_list_empty_iff.
Qed.

Lemma set_flows_ok t m :
  Z.of_nat (size m) <= Z.max 1 (max_flows t) -> map_Forall (flow_ok (max_bytes_per_flow t)) m ->
  table_ok (set_flows t m).
Proof. intros. by split. Qed.

Lemma make_room_ok t key :
  table_ok t ->
  table_ok (make_room t key)
  /\ max_flows (make_room t key) = max_flows t
  /\ max_bytes_per_flow (make_room t key) = max_bytes_per_flow t
  /\ (flows (make_room t key) !! key = None ->
      Z.of_nat (size (flows (make_room t key))) + 1 <= Z.max 1 (max_flows t)).
Proof.
  intros [Hs Hf]. unfold make_room. destruct (bool_decide (flows t !! key = None)) eqn:Ek; bool_to_prop; simpl.
  2: by split_and!.
  destruct (max_flows t <=? _) eqn:Em; bool_to_prop; [|split_and!; try done; lia].
  destruct (evict_oldest_spec t) as [[He ->]|(k & f & Hk & _ & ->)].
  - split_and!; [done..|]. rewrite He, map_size_empty. lia.
  - simpl. rewrite map_size_delete, Hk.
    assert (size (flows t) <> 0%nat) by (intros H0%map_size_empty_inv; by rewrite H0 in Hk).
    split_and!; try done; [|lia]. apply set_flows_ok; [rewrite map_size_delete, Hk; lia|].
    by apply map_Forall_delete.
Qed.

Lemma size_insert_bound (m : gmap FlowKey Flow) k f :
  Z.of_nat (size (<[k := f]> m)) <= Z.of_nat (size m) + (if decide (m !! k = None) then 1 else 0).
Proof.
  destruct (decide (m !! k = None)) as [E|E].
  - rewrite map_size_insert_None by done. lia.
  - rewrite map_size_insert_Some by (by apply not_eq_None_Some). lia.
Qed.

(** Writing a sound flow under a tracked key, or under a key there is room
    for, keeps the table sound. *)
Lemma insert_ok t k f :
  table_ok t -> flow_ok (max_bytes_per_flow t) k f ->
  (flows t !! k = None -> Z.of_nat (size (flows t)) + 1 <= Z.max 1 (max_flows t)) ->
  table_ok (set_flows t (<[k := f]> (flows t))).
Proof.
  intros [Hs Hf] Hk Hroom. apply set_flows_ok; [|by apply map_Forall_insert_2].
  pose proof (size_insert_bound (flows t) k f). case_decide; [specialize (Hroom ltac:(done))|]; lia.
Qed.

Lemma emit_and_remove_ok t k : table_ok t -> table_ok (fst (emit_and_remove t k)).
Proof.
  intros [Hs Hf]. unfold emit_and_remove. destruct (flows t !! k) as [f|] eqn:E; [|done].
  assert (table_ok (set_flows t (delete k (flows t)))).
  { apply set_flows_ok; [rewrite map_size_delete, E; lia|by apply map_Forall_delete]. }
  by repeat case_match.
Qed.

Lemma emit_and_remove_limits t k :
  max_flows (fst (emit_and_remove t k)) = max_flows t
  /\ max_bytes_per_flow (fst (emit_and_remove t k)) = max_bytes_per_flow t.
Proof. unfold emit_and_remove. by repeat case_match. Qed.

Lemma tracked_packet_ok t k c flags seq payload now :
  table_ok t -> table_ok (fst (tracked_packet t k c flags seq payload now)).
Proof.
  intros Hok. unfold tracked_packet. destruct (flows t !! k) as [f|] eqn:E; [|done].
  pose proof (ok_flows _ Hok _ _ E) as Hf. apply (add_payload_ok _ _ _ c seq payload now) in Hf.
  case_match.
  - apply emit_and_remove_ok, insert_ok; [done|by destruct Hf|congruence].
  - assert (table_ok (set_flows t (<[k := add_payload f c seq payload now]> (flows t)))).
    { apply insert_ok; [done..|congruence]. }
    by case_match.
Qed.

Lemma flow_packet_ok t key flags seq payload now :
  table_ok t -> 0 <= max_bytes_per_flow t ->
  table_ok (fst (process_packet t key flags seq payload now)).
Proof.
  intros Hok Hm. unfold process_packet.
  destruct (make_room_ok t key Hok) as (Hok' & Hmf & Hmb & Hroom).
  set (t' := make_room t key) in *. rewrite <- Hmf in Hroom. rewrite <- Hmb in Hm.
  case_match; [apply insert_ok; auto with iw|].
  case_match.
  - destruct (flows t' !! reverse_key key) as [f|] eqn:Ef; [|done].
    pose proof (ok_flows _ Hok' _ _ Ef) as (? & ? & ?).
    apply insert_ok; [done| |congruence]. split; [|split]; simpl; auto with iw.
  - destruct (flows t' !! key) eqn:Ek; [by apply tracked_packet_ok|].
    destruct (flows t' !! reverse_key key); [by apply tracked_packet_ok|].
    case_match; [done|]. apply insert_ok; auto with iw.
Qed.

(** ** Tables reachable from an empty one *)

Inductive table_step (t : FlowTable) : FlowTable -> Prop :=
| step_packet key flags seq payload now :
    table_step t (fst (process_packet t key flags seq payload now))
| step_cleanup now timeout_secs :
    table_step t (fst (cleanup_stale t now timeout_secs)).

Lemma cleanup_fold_ok keys t evs :
  table_ok t ->
  let t' := fst (foldl (fun '(t, evs) key =>
     let '(t, ev) := emit_and_remove t key in
     (t, match ev with Some e => evs ++ [e] | None => evs end)) (t, evs) keys) in
  table_ok t' /\ max_bytes_per_flow t' = max_bytes_per_flow t.
Proof.
  revert t evs. induction keys as [|k keys IH]; intros t evs Hok; simpl; [done|].
  pose proof (emit_and_remove_ok t k Hok) as Hok'. pose proof (emit_and_remove_limits t k) as [_ Hl].
  destruct (emit_and_remove t k) as [t1 ev]. simpl in *. rewrite <- Hl. by apply IH.
Qed.

Lemma process_packet_limits t key flags seq payload now :
  max_bytes_per_flow (fst (process_packet t key flags seq payload now)) = max_bytes_per_flow t.
Proof.
  assert (Hr : max_bytes_per_flow (make_room t key) = max_bytes_per_flow t).
  { unfold make_room, evict_oldest. by repeat case_match. }
  unfold process_packet, tracked_packet. set (t' := make_room t key) in *.
  repeat (case_match; simpl; try done).
  all: by match goal with |- context [emit_and_remove ?a ?b] =>
         rewrite (proj2 (emit_and_remove_limits a b)) end.
Qed.

Lemma reachable_table_ok t0 t :
  table_ok t0 -> 0 <= max_bytes_per_flow t0 -> rtc table_step t0 t ->
  table_ok t /\ 0 <= max_bytes_per_flow t.
Proof.
  intros H0 Hm Hr. induction Hr as [|t t1 t2 Hs _ IH]; [done|]. apply IH.
  - destruct Hs; [by apply flow_packet_ok|]. by apply cleanup_fold_ok.
  - destruct Hs; [by rewrite process_packet_limits|]. unfold cleanup_stale.
    by rewrite (proj2 (cleanup_fold_ok _ _ _ H0)).
Qed.

(** ** Reassembly *)

(** A stream as the network delivers it: the peer sends the bytes [sent], and a
    segment is an offset into them and a length.  [reach] is how far the segments
    that have arrived go. *)
Definition reach (segs : list (nat * nat)) : nat := foldr (fun s r => (s.1 + s.2) `max` r)%nat 0%nat segs.

(** In order and without a gap: each segment brings bytes of the stream, and either
    starts where the bytes that have arrived end, or brings only bytes that have
    arrived before, in any cut, the first of them at most 2^31 bytes back. *)
Definition in_order (sent : list Z) (segs : list (nat * nat)) : Prop :=
  forall pre o n post, segs = pre ++ (o, n) :: post ->
    (0 < n)%nat /\ (o + n <= length sent)%nat /\
    (o = reach pre \/ (o + n <= reach pre)%nat /\ Z.of_nat (reach pre - o) <= 2 ^ 31).

(** Feeding them: the sequence number of offset [o] is [isn + o]. *)
Definition feed (isn : Z) (sent : list Z) (b : StreamBuffer) (segs : list (nat * nat)) : StreamBuffer :=
  foldl (fun b '(o, n) => fst (add_segment b (wrap 32 (isn + Z.of_nat o)) (take n (drop o sent)))) b segs.

Lemma as_signed_wrap_neg w d : 0 < w -> - 2 ^ (w - 1) <= d < 0 -> as_signed w (wrap w d) < 0.
Proof.
  intros Hw Hd. assert (2 ^ w = 2 * 2 ^ (w - 1)) by (rewrite <- Z.pow_succ_r by lia; f_equal; lia).
  unfold as_signed, wrap. rewrite <- (Z.mod_unique d (2 ^ w) (-1) (d + 2 ^ w)) by lia.
  case_match; bool_to_prop; lia.
Qed.

Lemma seq_before_offsets isn a b :
  a < b -> b - a <= 2 ^ 31 -> seq_before (wrap 32 (isn + a)) (wrap 32 (isn + b)) = true.
Proof.
  intros. unfold seq_before. apply Z.ltb_lt.
  replace (wrapping_sub 32 _ _) with (wrap 32 (a - b)).
  - apply as_signed_wrap_neg; lia.
  - unfold wrapping_sub, wrap. rewrite <- Zminus_mod. f_equal. lia.
Qed.

Lemma wrap_ne isn a b : a < b -> b - a < 2 ^ 32 -> wrap 32 (isn + a) <> wrap 32 (isn + b).
Proof.
  unfold wrap. intros ?? E. assert ((b - a) mod 2 ^ 32 = 0) as H1.
  { replace (b - a) with ((isn + b) - (isn + a)) by lia. by rewrite Zminus_mod, E, Z.sub_diag. }
  rewrite Z.mod_small in H1 by lia. lia.
Qed.

(** What the buffer holds after the first [pos] bytes. *)
Definition holds (isn : Z) (sent : list Z) (max : Z) (pos : nat) (b : StreamBuffer) : Prop :=
  next_seq b = wrap 32 (isn + Z.of_nat pos) /\ max_bytes b = max
  /\ data b = take (Z.to_nat max) (take pos sent)
  /\ total_bytes b = wrap 64 (Z.of_nat pos).

Lemma add_next isn sent max pos n b :
  0 <= max -> (0 < n)%nat -> (pos + n <= length sent)%nat -> holds isn sent max pos b ->
  holds isn sent max (pos + n)
    (fst (add_segment b (wrap 32 (isn + Z.of_nat pos)) (take n (drop pos sent)))).
Proof.
  intros Hmax Hn Hlen (Hs & Hm & Hd & Ht). unfold add_segment.
  assert (Hl : length (take n (drop pos sent)) = n) by (rewrite length_take, length_drop; lia).
  rewrite bool_decide_eq_false_2 by (intros E; rewrite E in Hl; simpl in Hl; lia).
  rewrite Hs, Z.eqb_refl. unfold holds. simpl. unfold len. rewrite Hl.
  split_and!; [|done| |].
  - unfold wrapping_add, wrap. rewrite Zplus_mod_idemp_l, Zplus_mod_idemp_r. f_equal. lia.
  - rewrite Hd, Hm, length_take, length_take. unfold saturating_sub.
    assert (Hsplit : take (pos + n) sent = take pos sent ++ take n (drop pos sent)).
    { rewrite <- (take_drop pos (take (pos + n) sent)). rewrite take_take, skipn_firstn_comm.
      f_equal; f_equal; lia. }
    rewrite Hsplit, take_app. rewrite length_take. case_match; bool_to_prop.
    + f_equal. rewrite !take_take. f_equal. lia.
    + replace (Z.to_nat max - _)%nat with 0%nat by lia. by rewrite take_0, app_nil_r.
  - rewrite Ht. unfold wrapping_add, wrap. rewrite Zplus_mod_idemp_l. f_equal. lia.
Qed.

Lemma add_again isn sent max pos o n b :
  (o < pos)%nat -> Z.of_nat (pos - o) <= 2 ^ 31 -> holds isn sent max pos b ->
  fst (add_segment b (wrap 32 (isn + Z.of_nat o)) (take n (drop o sent))) = b.
Proof.
  intros Ho Hd (Hs & _). unfold add_segment. case_match; [done|].
  rewrite Hs. rewrite (proj2 (Z.eqb_neq _ _)) by (apply wrap_ne; lia).
  by rewrite seq_before_offsets by lia.
Qed.

Lemma reach_snoc segs o n : reach (segs ++ [(o, n)]) = (reach segs `max` (o + n))%nat.
Proof. unfold reach. induction segs as [|s segs IH]; cbn [app foldr fst snd]; [lia|]. rewrite IH. lia. Qed.

Lemma feed_holds isn sent max segs :
  0 <= max -> in_order sent segs -> holds isn sent max (reach segs) (feed isn sent (StreamBuffer_new (wrap 32 isn) max) segs).
Proof.
  intros Hmax. induction segs as [|[o n] segs IH] using rev_ind; intros Hin.
  - unfold holds, StreamBuffer_new. cbn. by rewrite Z.add_0_r, (firstn_O sent), take_nil.
  - assert (in_order sent segs) as Hin'.
    { intros pre o' n' post ->. apply (Hin pre o' n' (post ++ [(o, n)])). by rewrite <- app_assoc. }
    specialize (IH Hin'). destruct (Hin segs o n []) as (Hn & Hl & Ho); [done|].
    unfold feed. rewrite foldl_snoc. fold (feed isn sent (StreamBuffer_new (wrap 32 isn) max) segs). rewrite reach_snoc.
    destruct Ho as [->|[Hr Hd]].
    + replace (reach segs `max` (reach segs + n))%nat with (reach segs + n)%nat by lia. by apply add_next.
    + replace (reach segs `max` (o + n))%nat with (reach segs) by lia.
      rewrite (add_again _ _ max (reach segs)); [done|lia|done|done].
Qed.

(** ** The parser reads within bounds *)

Lemma lookup_in_range (l : list Z) i : (i < length l)%nat -> exists x, l !! i = Some x.
Proof. apply lookup_lt_is_Some_2. Qed.

Ltac read_ok :=
  match goal with
  | |- context [mbind _ (?l !! ?i)] =>
      let E := fresh in let x := fresh "x" in
      destruct (lookup_in_range l i) as [x E]; [rewrite ?length_drop in *; lia|rewrite E; simpl]
  end.

Lemma read16_ok l i : (i + 1 < length l)%nat -> exists x, read16 l i = Some x.
Proof. intros. unfold read16. repeat read_ok. by eexists. Qed.

Lemma read32_ok l i : (i + 3 < length l)%nat -> exists x, read32 l i = Some x.
Proof. intros. unfold read32. repeat read_ok. by eexists. Qed.

Lemma parse_ipv4_tcp_total raw i : exists r, parse_ipv4_tcp raw i = Some r.
Proof.
  unfold parse_ipv4_tcp. destruct (length raw <? i + 20)%nat eqn:El; [by eexists|].
  apply Nat.ltb_ge in El. assert (Hl : (20 <= length (drop i raw))%nat) by (rewrite length_drop; lia).
  read_ok. case_match; [by eexists|]. read_ok. case_match; [by eexists|].
  destruct (read32_ok (drop i raw) 12) as [src ->]; [lia|].
  destruct (read32_ok (drop i raw) 16) as [dst ->]; [lia|]. cbn [mbind option_bind].
  set (j := (i + _)%nat). destruct (length raw <? j + 20)%nat eqn:Ej; [by eexists|].
  apply Nat.ltb_ge in Ej. assert (Hj : (20 <= length (drop j raw))%nat) by (rewrite length_drop; lia).
  destruct (read16_ok (drop j raw) 0) as [sp ->]; [lia|].
  destruct (read16_ok (drop j raw) 2) as [dp ->]; [lia|].
  destruct (read32_ok (drop j raw) 4) as [sq ->]; [lia|]. cbn [mbind option_bind].
  read_ok. read_ok. by eexists.
Qed.

(** ** Frames *)

Definition bytes16 (z : Z) : list Z := [z / 256; z mod 256].
Definition bytes32 (z : Z) : list Z := [z / 16777216; z / 65536 mod 256; z / 256 mod 256; z mod 256].

(** An Ethernet frame with an IPv4 header and a TCP header, each with options of
    any length the header can announce: [ihl] and [doff] are the header lengths in
    words of four bytes.  The fields the parser does not read are arbitrary. *)
Definition tcp_frame (macs ip1 ip2 ip_options ack tcp2 tcp_options : list Z) (ihl doff reserved : Z) (k : FlowKey)
  (flags seq : Z) (payload : list Z) : list Z :=
  macs ++ [8; 0]
  ++ [64 + ihl] ++ ip1 ++ [6] ++ ip2 ++ bytes32 (src_ip k) ++ bytes32 (dst_ip k) ++ ip_options
  ++ bytes16 (src_port k) ++ bytes16 (dst_port k) ++ bytes32 seq ++ ack ++ [16 * doff + reserved; flags] ++ tcp2
  ++ tcp_options ++ payload.

Lemma be16_bytes z : be16 (z / 256) (z mod 256) = z.
Proof. unfold be16. rewrite (Z.div_mod z 256) at 3 by lia. lia. Qed.

Lemma be32_bytes z : be32 (z / 16777216) (z / 65536 mod 256) (z / 256 mod 256) (z mod 256) = z.
Proof.
  unfold be32.
  replace (z / 16777216) with (z / 65536 / 256) by (rewrite Z.div_div by lia; done).
  replace (z / 65536 / 256 * 256 + z / 65536 mod 256) with (z / 65536)
    by (rewrite (Z.div_mod (z / 65536) 256) at 1 by lia; lia).
  replace (z / 65536) with (z / 256 / 256) by (rewrite Z.div_div by lia; done).
  replace (z / 256 / 256 * 256 + z / 256 mod 256) with (z / 256)
    by (rewrite (Z.div_mod (z / 256) 256) at 1 by lia; lia).
  rewrite (Z.div_mod z 256) at 3 by lia. lia.
Qed.

Ltac explode l n :=
  match n with
  | O => destruct l; [|discriminate]
  | S ?m => destruct l as [|? l]; [discriminate|]; explode l m
  end.

(** The TCP part, behind the IP header. *)
Definition tcp_part (ack tcp2 tcp_options : list Z) (doff reserved : Z) (k : FlowKey) (flags seq : Z) (payload : list Z)
  : list Z :=
  bytes16 (src_port k) ++ bytes16 (dst_port k) ++ bytes32 seq ++ ack ++ [16 * doff + reserved; flags] ++ tcp2
  ++ tcp_options ++ payload.

Lemma low_nibble n : 0 <= n < 16 -> Z.land (64 + n) 15 = n /\ Z.shiftr (64 + n) 4 = 4.
Proof.
  intros Hn. change 15 with (Z.ones 4). rewrite Z.land_ones, Z.shiftr_div_pow2 by lia. change (2 ^ 4) with 16.
  split; [symmetry; apply (Z.mod_unique _ _ 4)|symmetry; apply (Z.div_unique _ _ _ n)]; lia.
Qed.

Lemma high_nibble n r : 0 <= r < 16 -> Z.shiftr (16 * n + r) 4 = n.
Proof. intros Hr. rewrite Z.shiftr_div_pow2 by lia. change (2 ^ 4) with 16. symmetry. apply (Z.div_unique _ _ _ r); lia. Qed.

Lemma drop_payload (front payload : list Z) n : length front = n ->
  (if (n <? length (front ++ payload))%nat then drop n (front ++ payload) else []) = payload.
Proof.
  intros <-. rewrite length_app. destruct (Nat.ltb_spec (length front) (length front + length payload)).
  - by rewrite drop_app_length.
  - destruct payload; [done|simpl in *; lia].
Qed.

Lemma parse_tcp_frame macs ip1 ip2 ip_options ack tcp2 tcp_options ihl doff reserved k flags seq payload :
  length macs = 12%nat -> length ip1 = 8%nat -> length ip2 = 2%nat -> length ack = 4%nat -> length tcp2 = 6%nat ->
  5 <= ihl < 16 -> length ip_options = (4 * Z.to_nat (ihl - 5))%nat ->
  5 <= doff < 16 -> length tcp_options = (4 * Z.to_nat (doff - 5))%nat -> 0 <= reserved < 16 -> proto k = 6 ->
  parse_tcp_packet (tcp_frame macs ip1 ip2 ip_options ack tcp2 tcp_options ihl doff reserved k flags seq payload)
  = Some (Some (k, flags, seq, payload)).
Proof.
  intros H1 H2 H3 H4 H5 Hi Hio Hd Hdo Hr Hp. set (tail := tcp_part ack tcp2 tcp_options doff reserved k flags seq payload).
  explode macs 12%nat; explode ip1 8%nat; explode ip2 2%nat; explode ack 4%nat; explode tcp2 6%nat.
  set (raw := tcp_frame _ _ _ _ _ _ _ _ _ _ _ _ _ _).
  assert (Hlt : (20 <= length tail)%nat) by (subst tail; unfold tcp_part, bytes16, bytes32; cbn [app length]; lia).
  assert (Hlen : length raw = (34 + length ip_options + length tail)%nat).
  { subst raw. unfold tcp_frame, bytes32. rewrite !length_app. fold tail. cbn [length app].
    subst tail. unfold tcp_part, bytes16, bytes32. cbn [length app]. rewrite ?length_app. cbn [length app]. rewrite ?length_app. lia. }
  assert (Htail : drop (14 + Z.to_nat ihl * 4) raw = tail).
  { replace (14 + Z.to_nat ihl * 4)%nat with (34 + length ip_options)%nat by lia.
    transitivity (drop (length ip_options) (ip_options ++ tail)); [reflexivity|apply drop_app_length]. }
  unfold parse_tcp_packet. rewrite (proj2 (Nat.ltb_ge _ _)) by lia.
  assert (read16 raw 12 = Some 2048) as -> by reflexivity. cbn [mbind option_bind]. change (2048 =? 2048) with true. cbv iota.
  unfold parse_ipv4_tcp. rewrite (proj2 (Nat.ltb_ge (length raw) (14 + 20))) by lia.
  assert (drop 14 raw !! 0%nat = Some (64 + ihl)) as -> by reflexivity. cbn [mbind option_bind].
  destruct (low_nibble ihl) as [-> ->]; [lia|]. change (negb (4 =? 4)) with false. cbv iota.
  assert (drop 14 raw !! 9%nat = Some 6) as -> by reflexivity. cbn [mbind option_bind]. change (negb (6 =? 6)) with false. cbv iota.
  assert (read32 (drop 14 raw) 12 = Some (src_ip k)) as -> by (transitivity (Some (be32 (src_ip k / 16777216)
    (src_ip k / 65536 mod 256) (src_ip k / 256 mod 256) (src_ip k mod 256))); [reflexivity|by rewrite be32_bytes]).
  assert (read32 (drop 14 raw) 16 = Some (dst_ip k)) as -> by (transitivity (Some (be32 (dst_ip k / 16777216)
    (dst_ip k / 65536 mod 256) (dst_ip k / 256 mod 256) (dst_ip k mod 256))); [reflexivity|by rewrite be32_bytes]).
  cbn [mbind option_bind]. rewrite (proj2 (Nat.ltb_ge (length raw) (14 + Z.to_nat ihl * 4 + 20))) by lia. rewrite Htail.
  assert (read16 tail 0 = Some (src_port k)) as ->
    by (transitivity (Some (be16 (src_port k / 256) (src_port k mod 256))); [reflexivity|by rewrite be16_bytes]).
  assert (read16 tail 2 = Some (dst_port k)) as ->
    by (transitivity (Some (be16 (dst_port k / 256) (dst_port k mod 256))); [reflexivity|by rewrite be16_bytes]).
  assert (read32 tail 4 = Some seq) as -> by (transitivity (Some (be32 (seq / 16777216)
    (seq / 65536 mod 256) (seq / 256 mod 256) (seq mod 256))); [reflexivity|by rewrite be32_bytes]).
  assert (tail !! 12%nat = Some (16 * doff + reserved)) as -> by reflexivity.
  assert (tail !! 13%nat = Some flags) as -> by reflexivity. cbn [mbind option_bind]. rewrite high_nibble by done.
  assert (exists front, raw = front ++ payload /\ length front = (14 + Z.to_nat ihl * 4 + Z.to_nat doff * 4)%nat)
    as (front & Hraw & Hfront).
  { exists (take (34 + length ip_options) raw ++ take (20 + length tcp_options) tail). split.
    - rewrite <- app_assoc. replace (take (20 + length tcp_options) tail ++ payload) with tail.
      + rewrite <- Htail. replace (14 + Z.to_nat ihl * 4)%nat with (34 + length ip_options)%nat by lia.
        by rewrite take_drop.
      + subst tail. unfold tcp_part, bytes16, bytes32. cbn [app take Nat.add]. by rewrite take_app_length.
    - rewrite length_app, !length_take. rewrite Hlen.
      assert (20 + length tcp_options <= length tail)%nat by (subst tail; unfold tcp_part, bytes16, bytes32; cbn [app length]; rewrite length_app; lia).
      lia. }
  rewrite Hraw, drop_payload by done. destruct k as [s d sp dp pr]. cbn in *. by subst pr.
Qed.

(** The text of an address reads back as that address. *)
Lemma ip_str_parses ip :
  parse_ip (ip_str ip)
  = Some (V4 (MkV4 (Z.land (Z.shiftr ip 24) 255) (Z.land (Z.shiftr ip 16) 255)
                (Z.land (Z.shiftr ip 8) 255) (Z.land ip 255))).
Proof.
  assert (Ho : forall z, is_octet (Z.land z 255)).
  { intros z. unfold is_octet. change 255 with (Z.ones 8). rewrite Z.land_ones by lia.
    apply Z.mod_pos_bound. lia. }
  apply parse_ip_dotted; apply Ho.
Qed.

(** ** Properties *)

(** Whatever packets arrive and cleanups run, a flow table never holds more
    flows than its limit (one, when the limit is zero), no direction of a flow
    buffers more bytes than its limit, and every flow sits under its own key:
    the memory of the engine is bounded by its settings. *)
Theorem flow_table_bounded max_flows max_bytes t :
  0 <= max_bytes -> rtc table_step (FlowTable_new max_flows max_bytes) t ->
  table_ok t.
Proof.
  intros Hm Hr. eapply reachable_table_ok; [| |exact Hr]; [|done].
  split; [simpl; rewrite map_size_empty; lia|apply map_Forall_empty].
Qed.

(** C17. Reassembly is exact for a stream that arrives in order and without a gap,
    each segment starting where the bytes that have arrived end or repeating, in
    any cut and from at most 2^31 bytes back, only bytes that have arrived: the
    buffer holds the first bytes of the stream as far as they arrived, up to its
    limit, expects the sequence number after them, and counts every byte once, for
    any initial sequence number and across its wrap-around.  And a segment that
    starts within what has arrived changes nothing even when it goes further: the
    new bytes it brings are dropped with the old ones. *)
Theorem reassembly_exact isn sent max segs :
  0 <= max -> in_order sent segs ->
  let b := feed isn sent (StreamBuffer_new (wrap 32 isn) max) segs in
  data b = take (Z.to_nat max) (take (reach segs) sent)
  /\ next_seq b = wrap 32 (isn + Z.of_nat (reach segs))
  /\ total_bytes b = wrap 64 (Z.of_nat (reach segs))
  /\ forall o n, (o < reach segs)%nat -> Z.of_nat (reach segs - o) <= 2 ^ 31 -> feed isn sent b [(o, n)] = b.
Proof.
  intros Hmax Ha b. pose proof (feed_holds isn sent max segs Hmax Ha) as H. fold b in H.
  split_and!; [apply H..|]. intros o n Ho Hd. by apply (add_again isn sent max (reach segs)).
Qed.


(** In a full table a packet from the server side of a tracked flow evicts
    a flow although it needs no room: the capacity test looks up the packet's
    own direction only.  The evicted flow is one of the longest idle, its data
    is discarded without an event, and it may be the flow the packet belongs
    to. *)
Theorem server_packet_evicts t key flags seq payload now f :
  flows t !! key = None -> flows t !! reverse_key key = Some f ->
  max_flows t <= Z.of_nat (size (flows t)) -> has_flag flags SYN = false ->
  exists k g, flows t !! k = Some g
    /\ map_Forall (fun _ h => f_last_seen g <= f_last_seen h) (flows t)
    /\ (k <> reverse_key key ->
        flows (fst (process_packet t key flags seq payload now)) !! k = None)
    /\ (k = reverse_key key ->
        flows (fst (process_packet t key flags seq payload now)) !! k = None
        /\ snd (process_packet t key flags seq payload now) = None).
Proof.
  intros Hk Hr Hfull Hsyn.
  destruct (evict_oldest_spec t) as [[He _]|(k & g & Hg & Hmin & Hev)]; [by rewrite He in Hr|].
  exists k, g. split_and!; [done|done| |].
  all: unfold process_packet, make_room; rewrite bool_decide_eq_true_2, (proj2 (Z.leb_le _ _)) by done;
    rewrite Hsyn; cbn [andb]; rewrite Hev; cbn [flows set_flows].
  all: assert (Hkk : k <> key) by congruence; rewrite lookup_delete_ne by done; rewrite Hk.
  - intros Hne. rewrite lookup_delete_ne by done. rewrite Hr. unfold tracked_packet. cbn [flows set_flows].
    rewrite lookup_delete_ne by done. rewrite Hr. unfold emit_and_remove.
    repeat (case_match; simpl);
      rewrite ?lookup_delete_ne, ?lookup_insert_ne, ?lookup_delete_eq by done; try done;
      by rewrite lookup_delete_eq.
  - intros ->. rewrite lookup_delete_eq. case_match; simpl; [by rewrite lookup_delete_eq|].
    by rewrite lookup_insert_ne, lookup_delete_eq.
Qed.

(** A flow picked up in the middle of a connection starts its server buffer
    at sequence number 0, so server data with sequence numbers from 2^31 on is
    taken for retransmissions and never recorded, however much arrives. *)
Theorem midstream_server_data_lost max segs :
  Forall (fun sp => 2 ^ 31 <= fst sp < 2 ^ 32) segs ->
  data (foldl (fun b '(seq, payload) => fst (add_segment b seq payload)) (StreamBuffer_new 0 max) segs) = [].
Proof.
  set (b0 := StreamBuffer_new 0 max). intros Hs.
  assert (foldl (fun b '(seq, payload) => fst (add_segment b seq payload)) b0 segs = b0) as ->; [|done].
  induction Hs as [|[seq payload] segs Hq _ IH]; [done|]. simpl in *.
  assert (fst (add_segment b0 seq payload) = b0) as ->; [|done].
  unfold add_segment. case_match; [done|]. simpl. rewrite (proj2 (Z.eqb_neq _ _)) by lia.
  assert (seq_before seq 0 = true) as ->; [|done].
  unfold seq_before, as_signed, wrapping_sub. rewrite Z.sub_0_r, wrap_small by (split; lia).
  apply Z.ltb_lt. case_match; bool_to_prop; simpl in *; lia.
Qed.

(** Two segments that change places are both lost, and the hole leaves no
    trace in the data. *)
Lemma reordered_segments_lost :
  let b := StreamBuffer_new 0 1024 in
  let b := fst (add_segment b 4 (bytes "evil")) in
  let b := fst (add_segment b 0 (bytes "GET ")) in
  data (fst (add_segment b 8 (bytes "rest"))) = bytes "rest".
Proof. reflexivity. Qed.

(** ** Witnesses *)

Definition demo_key : FlowKey :=
  {| src_ip := 167772161; dst_ip := 134744072; src_port := 40000; dst_port := 80; proto := 6 |}.
Definition demo_table : FlowTable :=
  fst (process_packet (FlowTable_new 1 1024) demo_key 2 100 [] 0).

Lemma flow_table_bounded_witness : table_ok demo_table.
Proof.
  apply (flow_table_bounded 1 1024); [lia|]. apply rtc_once. apply step_packet.
Defined.

Lemma reassembly_exact_witness :
  let b := feed (2 ^ 32 - 2) (bytes "GET /") (StreamBuffer_new (wrap 32 (2 ^ 32 - 2)) 4) [(0, 3); (1, 2); (3, 2)]%nat in
  data b = bytes "GET " /\ next_seq b = 3.
Proof.
  destruct (reassembly_exact (2 ^ 32 - 2) (bytes "GET /") 4 [(0, 3); (1, 2); (3, 2)]%nat) as (Hd & Hn & _).
  - lia.
  - intros pre o n post E. destruct pre as [|? [|? [|? pre]]]; cbn in E; [| | |by destruct pre];
      injection E; intros; subst; cbn; lia.
  - split; [exact Hd|exact Hn].
Defined.


Lemma server_packet_evicts_witness :
  flows (fst (process_packet demo_table (reverse_key demo_key) 16 500 (bytes "reply") 5))
    !! demo_key = None.
Proof.
  destruct (server_packet_evicts demo_table (reverse_key demo_key) 16 500 (bytes "reply") 5
              (fresh_flow (FlowTable_new 1 1024) demo_key SynSent 101 0))
    as (k & g & Hk & _ & _ & H); [reflexivity|reflexivity|vm_compute; congruence|reflexivity|].
  destruct (decide (k = demo_key)) as [->|Hne]; [by apply H|].
  exfalso. revert Hk.
  replace (flows demo_table)
    with ({[demo_key := fresh_flow (FlowTable_new 1 1024) demo_key SynSent 101 0]} : gmap FlowKey Flow)
    by reflexivity.
  intros [? _]%lookup_singleton_Some. congruence.
Defined.

Lemma midstream_server_data_lost_witness :
  data (foldl (fun b '(seq, payload) => fst (add_segment b seq payload)) (StreamBuffer_new 0 1024)
          [(3000000000, bytes "secret"); (3000000006, bytes "token")]) = [].
Proof. apply midstream_server_data_lost. repeat constructor; simpl; lia. Defined.
