(* ===== verification/AgentLifecycle.v ===== *)
(** * AgentLifecycle: the life of a response, from registration to revert
    (crates/agent/src/response_lifecycle.rs, the registration loop of
    decision_block_ip.rs, the revert tick of loops/boot.rs and the operator's
    unblock drain of operator_actions.rs)

    Every block or suspension the agent applies is registered with a time to
    live.  On each slow-loop tick the expired ones are staged, a revert command
    runs, and its outcome moves the entry to the history, back for a retry, or,
    after three failures, out as orphaned.

    The machine is a type [W] with a clock and a way to run a command
    ([World]), so a tick is a function from a world to a world.  Proved here:
    over any sequence of operations the identifiers stay unique, the attempts
    stay below the maximum, the history keeps to its cap and the counters
    account for every registration; a tick is the same as one pass over the
    entries that handles each by itself; an expired entry leaves the table
    within three ticks whatever the commands answer.  The blocks that can never
    be reverted and the drain that reports a finished unblock as failed are
    theorems too. *)

From Stdlib Require Import ZArith Lia Ascii String.
From stdpp Require Import prelude strings list gmap.
From S2P Require Import Prelude Text Net.

Local Open Scope string_scope.
Local Open Scope list_scope.
Local Open Scope Z_scope.

(** ** Data *)

Definition MAX_REVERT_ATTEMPTS : Z := 3.

Inductive ResponseBackend : Type :=
  Xdp | Ufw | Iptables | Nftables | Pf | Cloudflare | Nginx | Container | Sudo.

Inductive ResponseType : Type :=
  BlockIp | BlockContainer | SuspendSudo | RateLimitNginx | KillProcess.

Inductive RevertTrigger : Type := TtlExpired | Manual.

#[export] Instance backend_eq_dec : EqDecision ResponseBackend.
Proof. solve_decision. Defined.
#[export] Instance response_type_eq_dec : EqDecision ResponseType.
Proof. solve_decision. Defined.
#[export] Instance trigger_eq_dec : EqDecision RevertTrigger.
Proof. solve_decision. Defined.

Inductive LifecycleState : Type :=
| Active
| RevertPending (since : Z) (trigger : RevertTrigger) (prior_attempts : Z)
| RevertFailed (last_attempt_at attempts : Z) (last_error : string) (trigger : RevertTrigger).

#[export] Instance lifecycle_state_eq_dec : EqDecision LifecycleState.
Proof. solve_decision. Defined.

Record ActiveResponse := {
  ar_id : string;
  ar_type : ResponseType;
  ar_backend : ResponseBackend;
  ar_target : string;
  ar_incident_id : string;
  ar_created_at : Z;
  ar_ttl_secs : Z;
  ar_expires_at : Z;
  ar_revert_handle : option string;
  ar_state : LifecycleState;
}.

Record RevertAction := {
  rv_id : string;
  rv_backend : ResponseBackend;
  rv_target : string;
  rv_handle : option string;
}.

Inductive FailureOutcome : Type :=
| AlreadyAbsent
| Retrying (attempt : Z)
| Orphaned (backend : ResponseBackend) (target last_error : string) (trigger : RevertTrigger)
| UnknownId.

Inductive ErrorKind : Type := KAlreadyAbsent | KTransient.

Record CompletedResponse := {
  cr_id : string;
  cr_type : ResponseType;
  cr_backend : ResponseBackend;
  cr_target : string;
  cr_incident_id : string;
  cr_created_at : Z;
  cr_reverted_at : Z;
  cr_reason : string;
}.

Record ResponseLifecycle := {
  active : list ActiveResponse;
  history : list CompletedResponse;
  lc_next_id : Z;
  total_registered : Z;
  total_reverted : Z;
  total_expired : Z;
  total_revert_failures : Z;
  total_already_absent : Z;
  total_orphaned : Z;
  verified_live : gmap string Z;
}.

Definition ResponseLifecycle_new : ResponseLifecycle :=
  {| active := []; history := []; lc_next_id := 1; total_registered := 0; total_reverted := 0;
     total_expired := 0; total_revert_failures := 0; total_already_absent := 0; total_orphaned := 0;
     verified_live := ∅ |}.

Definition ABSENT_MARKERS : list string :=
  ["no such"; "not found"; "does not exist"; "doesn't exist"; "non-existent"; "nonexistent";
   "no chain/target/match"; "matching rule exist"; "rule does not exist"].

Definition classify_revert_error `{Lowercase} (err : string) : ErrorKind :=
  let lower := to_lowercase err in
  if any (fun m => contains m lower) ABSENT_MARKERS then KAlreadyAbsent else KTransient.

(** ** Field updates *)

Definition set_state (r : ActiveResponse) (st : LifecycleState) : ActiveResponse :=
  {| ar_id := ar_id r; ar_type := ar_type r; ar_backend := ar_backend r; ar_target := ar_target r;
     ar_incident_id := ar_incident_id r; ar_created_at := ar_created_at r; ar_ttl_secs := ar_ttl_secs r;
     ar_expires_at := ar_expires_at r; ar_revert_handle := ar_revert_handle r; ar_state := st |}.

Definition set_active (lc : ResponseLifecycle) (l : list ActiveResponse) : ResponseLifecycle :=
  {| active := l; history := history lc; lc_next_id := lc_next_id lc;
     total_registered := total_registered lc; total_reverted := total_reverted lc;
     total_expired := total_expired lc; total_revert_failures := total_revert_failures lc;
     total_already_absent := total_already_absent lc; total_orphaned := total_orphaned lc;
     verified_live := verified_live lc |}.

Definition set_history (lc : ResponseLifecycle) (h : list CompletedResponse) : ResponseLifecycle :=
  {| active := active lc; history := h; lc_next_id := lc_next_id lc;
     total_registered := total_registered lc; total_reverted := total_reverted lc;
     total_expired := total_expired lc; total_revert_failures := total_revert_failures lc;
     total_already_absent := total_already_absent lc; total_orphaned := total_orphaned lc;
     verified_live := verified_live lc |}.

Definition set_totals (lc : ResponseLifecycle) (reverted expired failures absent orphaned : Z)
  : ResponseLifecycle :=
  {| active := active lc; history := history lc; lc_next_id := lc_next_id lc;
     total_registered := total_registered lc; total_reverted := reverted;
     total_expired := expired; total_revert_failures := failures;
     total_already_absent := absent; total_orphaned := orphaned; verified_live := verified_live lc |}.

Definition incr (n : Z) : Z := wrapping_add 64 n 1.

(** [while self.history.len() > 1000 { pop_front }] *)
Definition HISTORY_CAP : nat := 1000.
Definition cap_history {A} (h : list A) : list A := drop (length h - HISTORY_CAP) h.

(** ** Operations *)

Definition mark_verified_live (lc : ResponseLifecycle) (target : string) (now : Z) : ResponseLifecycle :=
  {| active := active lc; history := history lc; lc_next_id := lc_next_id lc;
     total_registered := total_registered lc; total_reverted := total_reverted lc;
     total_expired := total_expired lc; total_revert_failures := total_revert_failures lc;
     total_already_absent := total_already_absent lc; total_orphaned := total_orphaned lc;
     verified_live := <[target := now]> (verified_live lc) |}.

Definition resp_id (n : Z) : string := "resp-" +:+ show n.

(** What [register] and the two boot reconcilers push. *)
Definition push_response (lc : ResponseLifecycle) (r : ActiveResponse) : ResponseLifecycle :=
  {| active := active lc ++ [r]; history := history lc; lc_next_id := incr (lc_next_id lc);
     total_registered := incr (total_registered lc); total_reverted := total_reverted lc;
     total_expired := total_expired lc; total_revert_failures := total_revert_failures lc;
     total_already_absent := total_already_absent lc; total_orphaned := total_orphaned lc;
     verified_live := verified_live lc |}.

Definition register (lc : ResponseLifecycle) (now : Z) (ty : ResponseType) (backend : ResponseBackend)
  (target incident_id : string) (ttl_secs : Z) (revert_handle : option string)
  : ResponseLifecycle * string :=
  let id := resp_id (lc_next_id lc) in
  (push_response lc {| ar_id := id; ar_type := ty; ar_backend := backend; ar_target := target;
     ar_incident_id := incident_id; ar_created_at := now; ar_ttl_secs := ttl_secs;
     ar_expires_at := now + seconds ttl_secs; ar_revert_handle := revert_handle; ar_state := Active |}, id).

Definition action_of (r : ActiveResponse) : RevertAction :=
  {| rv_id := ar_id r; rv_backend := ar_backend r; rv_target := ar_target r; rv_handle := ar_revert_handle r |}.

(** The next state of one entry, when it is due for a revert. *)
Definition stage_next (now : Z) (r : ActiveResponse) : option LifecycleState :=
  match ar_state r with
  | Active => if ar_expires_at r <? now then Some (RevertPending now TtlExpired 0) else None
  | RevertFailed _ attempts _ trigger =>
      if attempts <? MAX_REVERT_ATTEMPTS then Some (RevertPending now trigger attempts) else None
  | RevertPending _ _ _ => None
  end.

Definition stage_entry (now : Z) (r : ActiveResponse) : ActiveResponse :=
  match stage_next now r with Some st => set_state r st | None => r end.

Definition staged_action (now : Z) (r : ActiveResponse) : option RevertAction :=
  match stage_next now r with Some _ => Some (action_of r) | None => None end.

Definition stage_pending_reverts (lc : ResponseLifecycle) (now : Z) : ResponseLifecycle * list RevertAction :=
  (set_history (set_active lc (stage_entry now <$> active lc)) (cap_history (history lc)),
   omap (staged_action now) (active lc)).

(** The first entry with an identifier: [find] and [position]. *)
Fixpoint find_id (id : string) (l : list ActiveResponse) : option ActiveResponse :=
  match l with
  | [] => None
  | r :: l => if String.eqb (ar_id r) id then Some r else find_id id l
  end.

Fixpoint update_id (id : string) (f : ActiveResponse -> ActiveResponse) (l : list ActiveResponse)
  : list ActiveResponse :=
  match l with
  | [] => []
  | r :: l => if String.eqb (ar_id r) id then f r :: l else r :: update_id id f l
  end.

Fixpoint remove_id (id : string) (l : list ActiveResponse) : list ActiveResponse :=
  match l with
  | [] => []
  | r :: l => if String.eqb (ar_id r) id then l else r :: remove_id id l
  end.

Definition request_manual_revert (lc : ResponseLifecycle) (now : Z) (id : string)
  : ResponseLifecycle * option RevertAction :=
  match find_id id (active lc) with
  | None => (lc, None)
  | Some entry =>
      match ar_state entry with
      | RevertPending _ _ _ => (lc, None)
      | st =>
          let prior := match st with RevertFailed _ attempts _ _ => attempts | _ => 0 end in
          (set_active lc (update_id id (fun r => set_state r (RevertPending now Manual prior)) (active lc)),
           Some (action_of entry))
      end
  end.

Definition completed (r : ActiveResponse) (now : Z) (reason : string) : CompletedResponse :=
  {| cr_id := ar_id r; cr_type := ar_type r; cr_backend := ar_backend r; cr_target := ar_target r;
     cr_incident_id := ar_incident_id r; cr_created_at := ar_created_at r; cr_reverted_at := now;
     cr_reason := reason |}.

Definition trigger_of (st : LifecycleState) : RevertTrigger :=
  match st with
  | RevertPending _ trigger _ => trigger
  | RevertFailed _ _ _ trigger => trigger
  | Active => TtlExpired
  end.

(** The failures recorded so far. *)
Definition attempts_of (st : LifecycleState) : Z :=
  match st with
  | RevertPending _ _ prior_attempts => prior_attempts
  | RevertFailed _ attempts _ _ => attempts
  | Active => 0
  end.

Definition push_history (lc : ResponseLifecycle) (c : CompletedResponse) : ResponseLifecycle :=
  set_history lc (cap_history (history lc ++ [c])).

(** The counters of [mark_reverted]. *)
Definition count_reverted (lc : ResponseLifecycle) (trigger : RevertTrigger) (reason : string)
  : ResponseLifecycle :=
  set_totals lc
    (match trigger with Manual => incr (total_reverted lc) | TtlExpired => total_reverted lc end)
    (match trigger with TtlExpired => incr (total_expired lc) | Manual => total_expired lc end)
    (total_revert_failures lc)
    (if String.eqb reason "already_absent" then incr (total_already_absent lc) else total_already_absent lc)
    (total_orphaned lc).

Definition mark_reverted (lc : ResponseLifecycle) (now : Z) (id reason : string) : ResponseLifecycle :=
  match find_id id (active lc) with
  | None => lc
  | Some resp =>
      push_history
        (count_reverted (set_active lc (remove_id id (active lc))) (trigger_of (ar_state resp)) reason)
        (completed resp now reason)
  end.

Definition count_failure (lc : ResponseLifecycle) : ResponseLifecycle :=
  set_totals lc (total_reverted lc) (total_expired lc) (incr (total_revert_failures lc))
    (total_already_absent lc) (total_orphaned lc).
Definition count_orphaned (lc : ResponseLifecycle) : ResponseLifecycle :=
  set_totals lc (total_reverted lc) (total_expired lc) (total_revert_failures lc)
    (total_already_absent lc) (incr (total_orphaned lc)).

Definition mark_revert_failed `{Lowercase} (lc : ResponseLifecycle) (now : Z) (id error : string)
  : ResponseLifecycle * FailureOutcome :=
  let lc := count_failure lc in
  match find_id id (active lc) with
  | None => (lc, UnknownId)
  | Some resp =>
      let trigger := trigger_of (ar_state resp) in
      match classify_revert_error error with
      | KAlreadyAbsent => (mark_reverted lc now id "already_absent", AlreadyAbsent)
      | KTransient =>
          let new_attempts := wrapping_add 32 (attempts_of (ar_state resp)) 1 in
          if MAX_REVERT_ATTEMPTS <=? new_attempts then
            (push_history (count_orphaned (set_active lc (remove_id id (active lc))))
               (completed resp now ("orphaned: " +:+ error)),
             Orphaned (ar_backend resp) (ar_target resp) error trigger)
          else
            (set_active lc (update_id id
               (fun r => set_state r (RevertFailed now new_attempts error trigger)) (active lc)),
             Retrying new_attempts)
      end
  end.

Definition is_orphaned (c : CompletedResponse) : bool := starts_with "orphaned:" (cr_reason c).

Definition gc_orphaned_responses (lc : ResponseLifecycle) (now older_than_secs : Z)
  : ResponseLifecycle * Z :=
  let cutoff := now - seconds older_than_secs in
  let kept := retain (fun c => negb (is_orphaned c) || (cutoff <? cr_reverted_at c)) (history lc) in
  (set_history lc kept, Z.of_nat (length (history lc) - length kept)).

(** ** Queries *)

Definition is_tracked (lc : ResponseLifecycle) (target : string) (backend : ResponseBackend) : bool :=
  any (fun r => String.eqb (ar_target r) target && bool_decide (ar_backend r = backend)) (active lc).

Definition live_block (r : ActiveResponse) (now : Z) : bool :=
  bool_decide (ar_type r = BlockIp) && bool_decide (ar_state r = Active) && (now <? ar_expires_at r).

Definition is_ip_actively_blocked (lc : ResponseLifecycle) (ip : string) (now : Z) : bool :=
  any (fun r => live_block r now && String.eqb (ar_target r) ip) (active lc).

Definition active_block_ip_targets (lc : ResponseLifecycle) (now : Z) : list (string * ResponseBackend) :=
  (fun r => (ar_target r, ar_backend r)) <$> retain (fun r => live_block r now) (active lc).

Definition blocks_ip (ip : string) (r : ActiveResponse) : bool :=
  bool_decide (ar_type r = BlockIp) && String.eqb (ar_target r) ip.

Definition active_block_ids_for_ip (lc : ResponseLifecycle) (ip : string) : list string :=
  ar_id <$> retain (blocks_ip ip) (active lc).

Definition is_failed (st : LifecycleState) : bool :=
  match st with RevertFailed _ _ _ _ => true | _ => false end.
Definition is_pending (st : LifecycleState) : bool :=
  match st with RevertPending _ _ _ => true | _ => false end.

(** Active, pending and failed entries. *)
Definition state_counts (lc : ResponseLifecycle) : Z * Z * Z :=
  let count p := Z.of_nat (length (retain (fun r => p (ar_state r)) (active lc))) in
  (count (fun st => bool_decide (st = Active)), count is_pending, count is_failed).

Definition current_orphan_count (lc : ResponseLifecycle) : Z :=
  Z.of_nat (length (retain is_orphaned (history lc))) +
  Z.of_nat (length (retain (fun r => is_failed (ar_state r)) (active lc))).

Inductive OrphanErrorCluster : Type :=
  Ipv6Mismatch | NftablesHandleMissing | RuleAlreadyAbsent | PermissionDenied | ExternalMutation
| UnknownCluster.

Definition classify_orphan_error `{Lowercase} (stderr : string) : OrphanErrorCluster :=
  let s := to_lowercase stderr in
  if contains "ipv6" s || contains "inet6" s || contains "address family" s || contains "does not match" s
  then Ipv6Mismatch
  else if contains "no nftables handle" s || contains "handle missing" s then NftablesHandleMissing
  else if contains "non-existent" s || contains "does not exist" s || contains "not found" s
          || contains "no such" s || contains "matching rule exist" s then RuleAlreadyAbsent
  else if contains "permission denied" s || contains "operation not permitted" s
          || contains "must be run as root" s || contains "sudo: a password is required" s
  then PermissionDenied
  else if contains "rule renumber" s || contains "file modified" s then ExternalMutation
  else UnknownCluster.

Definition describe_revert_command (backend : ResponseBackend) (target : string) : string :=
  match backend with
  | Ufw => "sudo ufw delete deny from " +:+ target
  | Iptables => "sudo iptables -D INPUT -s " +:+ target +:+ " -j DROP"
  | Nftables => "sudo nft delete rule inet filter input <handle> (target " +:+ target +:+ ")"
  | Pf => "(pf manual revert: target " +:+ target +:+ ")"
  | Xdp => "sudo bpftool map delete pinned /sys/fs/bpf/innerwarden/blocklist key " +:+ target
  | Cloudflare => "(cloudflare api revert: target " +:+ target +:+ ")"
  | Nginx => "(nginx config revert: target " +:+ target +:+ ")"
  | Container => "(container unpause: target " +:+ target +:+ ")"
  | Sudo => "(sudo restore: gpasswd -d " +:+ target +:+ " suspended-ops; cleanup .iw-suspended)"
  end.

(** [is_valid_block_target] of decision_block_ip.rs: an address, or an address
    and a prefix length ([str::split_once] at the first slash). *)
Definition is_valid_block_target (s : string) : bool :=
  if String.eqb s "" then false
  else
    match split_on "/" s with
    | ip_part :: p :: rest =>
        match parse_ip ip_part, parse_uint 8 (join "/" (p :: rest)) with
        | Some (V4 _), Some n => n <=? 32
        | Some (V6 _), Some n => n <=? 128
        | _, _ => false
        end
    | _ => match parse_ip s with Some _ => true | None => false end
    end.

(** ** The machine the reverts run on *)

(** What [Command::output] returns: whether the exit status is a success, the
    status as text, and the bytes of standard error; or the error of a spawn
    that failed, as text. *)
Record Output := { out_success : bool; out_status : string; out_stderr : string }.

Class World (W : Type) := {
  clock : W -> Z;
  exec : W -> string -> list string -> W * result Output string;
}.

Section Reverts.
Context {W : Type} `{World W} `{Lowercase}.

Definition run_cmd (w : W) (program : string) (args : list string) : W * result unit string :=
  match exec w program args with
  | (w, Err e) => (w, Err ("spawn " +:+ program +:+ ": " +:+ e))
  | (w, Ok out) =>
      (w, if out_success out then Ok tt
          else Err (program +:+ " " +:+ join " " args +:+ " exited " +:+ out_status out +:+ ": "
                    +:+ trim (from_utf8_lossy (out_stderr out))))
  end.

Definition execute_revert (w : W) (revert : RevertAction) (dry_run : bool) : W * result unit string :=
  if dry_run then (w, Ok tt)
  else
    match rv_backend revert with
    | Ufw => run_cmd w "sudo" ["ufw"; "delete"; "deny"; "from"; rv_target revert]
    | Iptables => run_cmd w "sudo" ["iptables"; "-D"; "INPUT"; "-s"; rv_target revert; "-j"; "DROP"]
    | Nftables =>
        match rv_handle revert with
        | Some handle =>
            run_cmd w "sudo" ["nft"; "delete"; "rule"; "inet"; "filter"; "input"; "handle"; handle]
        | None => (w, Err "no nftables handle stored for revert")
        end
    | Xdp =>
        match parse_ipv4 (rv_target revert) with
        | Some (MkV4 a b c d) =>
            run_cmd w "sudo" ["bpftool"; "map"; "delete"; "pinned"; "/sys/fs/bpf/innerwarden/blocklist";
                              "key"; show a; show b; show c; show d]
        | None => (w, Err ("cannot parse IP for XDP revert: " +:+ rv_target revert))
        end
    | Container | Nginx | Sudo => (w, Ok tt)
    | Cloudflare | Pf => (w, Ok tt)
    end.

(** The revert loop of the slow tick. *)
Fixpoint run_reverts (dry_run : bool) (w : W) (lc : ResponseLifecycle) (reverts : list RevertAction)
  : W * ResponseLifecycle :=
  match reverts with
  | [] => (w, lc)
  | revert :: rest =>
      let '(w, res) := execute_revert w revert dry_run in
      let lc := match res with
                | Ok _ => mark_reverted lc (clock w) (rv_id revert) "expired"
                | Err err => fst (mark_revert_failed lc (clock w) (rv_id revert) err)
                end in
      run_reverts dry_run w lc rest
  end.

Definition ORPHAN_GC_AGE_SECS : Z := 7 * 24 * 3600.

Definition lifecycle_tick (dry_run : bool) (w : W) (lc : ResponseLifecycle) : W * ResponseLifecycle :=
  let '(lc, reverts) := stage_pending_reverts lc (clock w) in
  let '(w, lc) := run_reverts dry_run w lc reverts in
  (w, fst (gc_orphaned_responses lc (clock w) ORPHAN_GC_AGE_SECS)).

(** The registrations of a block: one per firewall layer that took it, unless
    the layer is tracked already. *)
Definition layer_backend (layer : string) : option ResponseBackend :=
  if String.eqb layer "ufw" then Some Ufw
  else if String.eqb layer "iptables" then Some Iptables
  else if String.eqb layer "nftables" then Some Nftables
  else if String.eqb layer "XDP" then Some Xdp
  else None.

Fixpoint register_layers (lc : ResponseLifecycle) (now : Z) (layers_applied : list string)
  (ip incident_id : string) (block_ttl_secs : Z) : ResponseLifecycle :=
  match layers_applied with
  | [] => lc
  | layer :: rest =>
      let lc := match layer_backend layer with
                | Some backend =>
                    if is_tracked lc ip backend then lc
                    else fst (register lc now BlockIp backend ip incident_id block_ttl_secs None)
                | None => lc
                end in
      register_layers lc now rest ip incident_id block_ttl_secs
  end.

(** The lifecycle part of [run_unblock_drain] for one request: whether every
    revert went through, and how many. *)
Fixpoint unblock_ids (w : W) (lc : ResponseLifecycle) (ids : list string) (revert_ok : bool) (reverted : Z)
  : W * ResponseLifecycle * bool * Z :=
  match ids with
  | [] => (w, lc, revert_ok, reverted)
  | id :: rest =>
      match request_manual_revert lc (clock w) id with
      | (lc, None) => unblock_ids w lc rest revert_ok reverted
      | (lc, Some action) =>
          let '(w, res) := execute_revert w action false in
          match res with
          | Ok _ => unblock_ids w (mark_reverted lc (clock w) id "operator_unblock") rest revert_ok (reverted + 1)
          | Err e => unblock_ids w (fst (mark_revert_failed lc (clock w) id e)) rest false reverted
          end
      end
  end.

Definition unblock_ip (dry_run : bool) (w : W) (lc : ResponseLifecycle) (ip : string)
  : W * ResponseLifecycle * bool * Z :=
  if dry_run then (w, lc, true, 0) else unblock_ids w lc (active_block_ids_for_ip lc ip) true 0.

(** The execution result and the reason the drain records for the request. *)
Definition unblock_result (dry_run revert_ok : bool) (reverted : Z) (ip : string) : string * string :=
  if dry_run then
    ("ok (dry_run)", "Operator-requested unblock of " +:+ ip +:+ " simulated (responder dry_run).")
  else if revert_ok then
    ("ok (reverted " +:+ show reverted +:+ " rule(s))",
     "Operator-requested unblock of " +:+ ip +:+ " processed: " +:+ show reverted
       +:+ " firewall rule(s) reverted and block records cleared.")
  else
    ("failed: firewall revert did not complete; block left in place",
     "Operator-requested unblock of " +:+ ip +:+ " could NOT be completed — at least one "
       +:+ "firewall revert failed, so the block is left in place. Records were NOT "
       +:+ "cleared (the IP is still blocked).").
End Reverts.

(** ** Looking up by identifier *)

Definition ids (l : list ActiveResponse) : list string := ar_id <$> l.

Lemma find_id_None id l : find_id id l = None <-> id ∉ ids l.
Proof.
  unfold ids. induction l as [|r l IH]; simpl; [set_solver|]. destruct (String.eqb_spec (ar_id r) id); set_solver.
Qed.

(** [find], [position] and [remove] speak of the same entry. *)
Lemma find_id_split id l r :
  find_id id l = Some r ->
  ar_id r = id /\ exists l1 l2, l = (l1 ++ r :: l2)%list /\ (id ∉ ids l1)
    /\ remove_id id l = l1 ++ l2 /\ forall f, update_id id f l = (l1 ++ f r :: l2)%list.
Proof.
  induction l as [|x l IH]; [done|]. cbn [find_id remove_id update_id].
  destruct (String.eqb_spec (ar_id x) id) as [E|E]; intros Hf.
  - simplify_eq. split; [done|]. exists [], l. split_and!; [done|unfold ids; cbn; set_solver|done|done].
  - destruct (IH Hf) as (Hid & l1 & l2 & -> & Hn & -> & Hu). split; [done|].
    exists (x :: l1), l2. unfold ids in *. cbn. split_and!; [done|set_solver|done|].
    intros f. by rewrite Hu.
Qed.

(** The entry of an identifier inside a table without duplicates. *)
Lemma find_id_mid l1 r l2 : ar_id r ∉ ids l1 -> find_id (ar_id r) (l1 ++ r :: l2) = Some r.
Proof.
  unfold ids. induction l1 as [|x l1 IH]; cbn; intros Hn; [by rewrite String.eqb_refl|].
  rewrite (proj2 (String.eqb_neq _ _)) by set_solver. apply IH. set_solver.
Qed.

Lemma remove_id_mid l1 r l2 : ar_id r ∉ ids l1 -> remove_id (ar_id r) (l1 ++ r :: l2) = l1 ++ l2.
Proof.
  unfold ids. induction l1 as [|x l1 IH]; cbn; intros Hn; [by rewrite String.eqb_refl|].
  rewrite (proj2 (String.eqb_neq _ _)) by set_solver. f_equal. apply IH. set_solver.
Qed.

Lemma update_id_mid f l1 r l2 : ar_id r ∉ ids l1 -> update_id (ar_id r) f (l1 ++ r :: l2) = l1 ++ f r :: l2.
Proof.
  unfold ids. induction l1 as [|x l1 IH]; cbn; intros Hn; [by rewrite String.eqb_refl|].
  rewrite (proj2 (String.eqb_neq _ _)) by set_solver. f_equal. apply IH. set_solver.
Qed.

Lemma ids_app l k : ids (l ++ k) = ids l ++ ids k.
Proof. apply fmap_app. Qed.

Lemma stage_entry_id now r : ar_id (stage_entry now r) = ar_id r.
Proof. unfold stage_entry. by destruct (stage_next now r). Qed.

Lemma ids_stage now l : ids (stage_entry now <$> l) = ids l.
Proof. unfold ids. rewrite <- list_fmap_compose. apply list_fmap_ext. intros ? r _. apply stage_entry_id. Qed.

Lemma find_id_ids id l k : ids l = ids k -> find_id id l = None -> find_id id k = None.
Proof. rewrite !find_id_None. by intros <-. Qed.

Lemma stage_next_attempts now r st :
  stage_next now r = Some st ->
  attempts_of st = attempts_of (ar_state r) /\ trigger_of st = trigger_of (ar_state r).
Proof. unfold stage_next. intros. by split_cases. Qed.

(** ** The history *)

Lemma cap_history_length {A} (h : list A) : (length (cap_history h) <= HISTORY_CAP)%nat.
Proof. unfold cap_history. rewrite length_drop. lia. Qed.

Lemma cap_history_small {A} (h : list A) : (length h <= HISTORY_CAP)%nat -> cap_history h = h.
Proof. intros. unfold cap_history. by replace (length h - HISTORY_CAP)%nat with 0%nat by lia. Qed.

Lemma cap_history_app {A} (h k : list A) : cap_history (cap_history h ++ k) = cap_history (h ++ k).
Proof.
  unfold cap_history. rewrite !length_app, !length_drop. set (c := HISTORY_CAP).
  rewrite !drop_app, length_drop, drop_drop. f_equal; f_equal; lia.
Qed.

Lemma cap_history_last {A} (h : list A) c : list.last (cap_history (h ++ [c])) = Some c.
Proof.
  unfold cap_history. rewrite length_app, drop_app_le by (unfold HISTORY_CAP; cbn; lia). apply last_snoc.
Qed.

(** ** Invariants *)

(** The identifiers: distinct, and all handed out before. *)
Record ids_ok (lc : ResponseLifecycle) : Prop := {
  ids_nodup : NoDup (ids (active lc));
  ids_known : Forall (fun i => exists k, 1 <= k < lc_next_id lc /\ i = resp_id k) (ids (active lc));
  next_pos : 1 <= lc_next_id lc;
}.

Definition failures_of (l : list ActiveResponse) : Z := sumZ ((fun r => attempts_of (ar_state r)) <$> l).

Lemma failures_of_app l k : failures_of (l ++ k) = failures_of l + failures_of k.
Proof. unfold failures_of. by rewrite fmap_app, sumZ_app. Qed.

(** The counters, after at most [n] operations. *)
Record counts_ok (n : Z) (lc : ResponseLifecycle) : Prop := {
  c_attempts : Forall (fun r => 0 <= attempts_of (ar_state r) < MAX_REVERT_ATTEMPTS) (active lc);
  c_history : (length (history lc) <= HISTORY_CAP)%nat;
  c_balance : total_registered lc =
    Z.of_nat (length (active lc)) + total_expired lc + total_reverted lc + total_orphaned lc;
  c_next : lc_next_id lc = total_registered lc + 1;
  c_failures : 3 * total_orphaned lc + failures_of (active lc) <= total_revert_failures lc;
  c_registered : 0 <= total_registered lc <= n;
  c_failed : 0 <= total_revert_failures lc <= n;
  c_absent : 0 <= total_already_absent lc <= n;
  c_nonneg : 0 <= total_expired lc /\ 0 <= total_reverted lc /\ 0 <= total_orphaned lc;
}.

Lemma resp_id_inj a b : 0 <= a -> 0 <= b -> resp_id a = resp_id b -> a = b.
Proof. unfold resp_id. intros ?? E. simplify_eq. by apply show_inj. Qed.

(** *** Every operation keeps the identifiers in order *)

Lemma ids_ok_same lc lc' :
  ids_ok lc -> ids (active lc') = ids (active lc) -> lc_next_id lc' = lc_next_id lc -> ids_ok lc'.
Proof. intros [? ? ?] E N. split; rewrite ?E, ?N; done. Qed.

Lemma ids_ok_remove lc lc' l1 r l2 :
  ids_ok lc -> active lc = l1 ++ r :: l2 -> active lc' = l1 ++ l2 -> lc_next_id lc' = lc_next_id lc ->
  ids_ok lc'.
Proof.
  intros [Hd Hk Hp] E E' N. rewrite E, ids_app in Hd, Hk. cbn in Hd, Hk.
  split; rewrite ?E', ?N, ?ids_app; [| |done].
  - apply NoDup_app in Hd as (H1 & H2 & H3). apply NoDup_cons in H3 as [_ H3].
    apply NoDup_app. set_solver.
  - apply Forall_app in Hk as [H1 H2]. apply Forall_app. by apply Forall_cons in H2 as [_ H2].
Qed.

Lemma push_response_ids lc r :
  ids_ok lc -> lc_next_id lc < u64_max -> ar_id r = resp_id (lc_next_id lc) ->
  ids_ok (push_response lc r).
Proof.
  intros [Hd Hk Hp] Hn E. assert (incr (lc_next_id lc) = lc_next_id lc + 1) as N.
  { unfold incr. apply wrapping_add_small. unfold in_width, u64_max in *. lia. }
  split; cbn [push_response active lc_next_id]; rewrite ?N, ?ids_app; [| |lia].
  - apply NoDup_app. split_and!; [done| |apply NoDup_singleton].
    intros i Hi Hi'. rewrite Forall_forall in Hk. destruct (Hk i Hi) as (k & ? & ->).
    apply list_elem_of_singleton in Hi'. rewrite E in Hi'. apply resp_id_inj in Hi'; lia.
  - apply Forall_app. split.
    + eapply Forall_impl; [exact Hk|]. intros i (k & ? & ->). exists k. split; [lia|done].
    + apply Forall_singleton. rewrite E. exists (lc_next_id lc). split; [lia|done].
Qed.

Lemma register_ids lc now ty b t i ttl h :
  ids_ok lc -> lc_next_id lc < u64_max -> ids_ok (fst (register lc now ty b t i ttl h)).
Proof. intros. by apply push_response_ids. Qed.

Lemma update_id_ids id f l : (forall r, ar_id (f r) = ar_id r) -> ids (update_id id f l) = ids l.
Proof.
  intros Hf. unfold ids. induction l as [|r l IH]; [done|]. cbn. destruct (String.eqb _ _); cbn;
    [by rewrite Hf|by f_equal].
Qed.

Lemma mark_reverted_active lc now id reason :
  active (mark_reverted lc now id reason) = remove_id id (active lc)
  /\ lc_next_id (mark_reverted lc now id reason) = lc_next_id lc.
Proof.
  unfold mark_reverted. destruct (find_id id (active lc)) as [r|] eqn:F; [done|]. split; [|done].
  apply find_id_None in F. unfold ids in F. induction (active lc) as [|x l IH]; [done|]. cbn in *.
  rewrite (proj2 (String.eqb_neq _ _)) by set_solver. f_equal. apply IH. set_solver.
Qed.

Lemma ids_ok_remove_id lc lc' id :
  ids_ok lc -> active lc' = remove_id id (active lc) -> lc_next_id lc' = lc_next_id lc -> ids_ok lc'.
Proof.
  intros Hok E N. destruct (find_id id (active lc)) as [r|] eqn:F.
  - apply find_id_split in F as (_ & l1 & l2 & El & _ & Er & _).
    eapply ids_ok_remove; [exact Hok|exact El|congruence|done].
  - eapply ids_ok_same; [exact Hok| |done]. rewrite E. apply find_id_None in F. clear E.
    unfold ids in *. induction (active lc) as [|x l IH]; [done|]. cbn in *.
    rewrite (proj2 (String.eqb_neq _ _)) by set_solver. cbn. f_equal. apply IH. set_solver.
Qed.

Section Operations.
Context `{Lowercase}.

Inductive LifecycleOp : Type :=
| Register (now : Z) (ty : ResponseType) (b : ResponseBackend) (target incident : string) (ttl : Z)
    (handle : option string)
| Stage (now : Z)
| RequestManual (now : Z) (id : string)
| MarkReverted (now : Z) (id reason : string)
| MarkFailed (now : Z) (id error : string)
| GcOrphaned (now older_than_secs : Z)
| MarkVerified (target : string) (now : Z).

Definition apply_lifecycle_op (lc : ResponseLifecycle) (op : LifecycleOp) : ResponseLifecycle :=
  match op with
  | Register now ty b t i ttl h => fst (register lc now ty b t i ttl h)
  | Stage now => fst (stage_pending_reverts lc now)
  | RequestManual now id => fst (request_manual_revert lc now id)
  | MarkReverted now id reason => mark_reverted lc now id reason
  | MarkFailed now id error => fst (mark_revert_failed lc now id error)
  | GcOrphaned now secs => fst (gc_orphaned_responses lc now secs)
  | MarkVerified t now => mark_verified_live lc t now
  end.

Lemma mark_revert_failed_active lc now id error :
  let lc' := fst (mark_revert_failed lc now id error) in
  (active lc' = remove_id id (active lc) \/ ids (active lc') = ids (active lc))
  /\ lc_next_id lc' = lc_next_id lc.
Proof.
  unfold mark_revert_failed. cbn [count_failure set_totals active].
  destruct (find_id id (active lc)) as [r|]; [|by split; [right|]].
  destruct (classify_revert_error error).
  - cbn [fst]. destruct (mark_reverted_active (count_failure lc) now id "already_absent") as [-> ->].
    by split; [left|].
  - case_match; cbn; [by split; [left|]|]. split; [right|done]. by apply update_id_ids.
Qed.

Lemma apply_op_ids lc op : ids_ok lc -> lc_next_id lc < u64_max -> ids_ok (apply_lifecycle_op lc op).
Proof.
  intros Hok Hn. destruct op; cbn [apply_lifecycle_op].
  - by apply register_ids.
  - eapply ids_ok_same; [exact Hok|apply ids_stage|done].
  - eapply ids_ok_same; [exact Hok| |]; unfold request_manual_revert;
      repeat case_match; try done; by apply update_id_ids.
  - eapply ids_ok_remove_id; [exact Hok|apply mark_reverted_active..].
  - destruct (mark_revert_failed_active lc now id error) as [[E|E] N];
      [by eapply ids_ok_remove_id|by eapply ids_ok_same].
  - by eapply ids_ok_same.
  - by eapply ids_ok_same.
Qed.

(** *** ... and the counters *)

Lemma incr_small n m : 0 <= n <= m -> m < u64_max -> incr n = n + 1.
Proof. intros. unfold incr. apply wrapping_add_small. unfold in_width, u64_max in *. lia. Qed.

Lemma mark_reverted_counts n lc now id reason :
  counts_ok n lc -> n < u64_max -> counts_ok (n + 1) (mark_reverted lc now id reason).
Proof.
  intros [A Hh B N F R Fl Ab (P1 & P2 & P3)] Hn. unfold mark_reverted.
  destruct (find_id id (active lc)) as [r|] eqn:E; [|by split; try lia].
  apply find_id_split in E as (_ & l1 & l2 & El & _ & Er & _). rewrite Er.
  rewrite El in *. rewrite Forall_app, Forall_cons in A. rewrite failures_of_app in F.
  assert (failures_of (r :: l2) = attempts_of (ar_state r) + failures_of l2) as Fr by done.
  destruct A as (A1 & Ar & A2). rewrite length_app in B. cbn [length] in B.
  assert (incr (total_reverted lc) = total_reverted lc + 1) as I1 by (apply (incr_small _ n); lia).
  assert (incr (total_expired lc) = total_expired lc + 1) as I2 by (apply (incr_small _ n); lia).
  assert (incr (total_already_absent lc) = total_already_absent lc + 1) as I3 by (apply (incr_small _ n); lia).
  split; cbn [push_history set_history count_reverted set_totals set_active active history total_registered
    total_expired total_reverted total_orphaned lc_next_id total_revert_failures total_already_absent].
  - by apply Forall_app.
  - apply cap_history_length.
  - rewrite length_app. destruct (trigger_of (ar_state r)); rewrite ?I1, ?I2; lia.
  - done.
  - rewrite failures_of_app. lia.
  - lia.
  - lia.
  - case_match; rewrite ?I3; lia.
  - destruct (trigger_of (ar_state r)); rewrite ?I1, ?I2; lia.
Qed.

Lemma failures_update id f l r :
  find_id id l = Some r -> failures_of (update_id id f l) =
    failures_of l - attempts_of (ar_state r) + attempts_of (ar_state (f r)).
Proof.
  intros (_ & l1 & l2 & -> & _ & _ & Hu)%find_id_split. rewrite Hu, !failures_of_app.
  unfold failures_of. cbn. lia.
Qed.

Lemma update_id_Forall (P : ActiveResponse -> Prop) id f l r :
  find_id id l = Some r -> Forall P l -> P (f r) -> Forall P (update_id id f l).
Proof.
  intros (_ & l1 & l2 & -> & _ & _ & Hu)%find_id_split HP Hf. rewrite Hu.
  apply Forall_app in HP as [? [? ?]%Forall_cons]. apply Forall_app. auto.
Qed.

Lemma update_id_length id f l : length (update_id id f l) = length l.
Proof. induction l as [|r l IH]; [done|]. cbn. destruct (String.eqb _ _); cbn; auto. Qed.

Lemma find_id_elem id l r : find_id id l = Some r -> r ∈ l.
Proof. intros (_ & l1 & l2 & -> & _)%find_id_split. set_solver. Qed.

Lemma counts_ok_later n m lc : counts_ok n lc -> n <= m -> counts_ok m lc.
Proof. intros [] ?. split; try done; lia. Qed.

Lemma mark_revert_failed_counts n lc now id error :
  counts_ok n lc -> n + 1 < u64_max -> counts_ok (n + 2) (fst (mark_revert_failed lc now id error)).
Proof.
  intros Hok Hn. pose proof Hok as [A Hh B N F R Fl Ab (P1 & P2 & P3)].
  assert (incr (total_revert_failures lc) = total_revert_failures lc + 1) as I1 by (apply (incr_small _ n); lia).
  assert (counts_ok (n + 1) (count_failure lc)) as Hc.
  { split; cbn [count_failure set_totals active history total_registered total_expired total_reverted
      total_orphaned lc_next_id total_revert_failures total_already_absent]; rewrite ?I1; try done; lia. }
  unfold mark_revert_failed. destruct (find_id id (active (count_failure lc))) as [r|] eqn:E.
  2: { cbn [fst]. eapply counts_ok_later; [exact Hc|lia]. }
  destruct (classify_revert_error error).
  { replace (n + 2) with (n + 1 + 1) by lia. apply mark_reverted_counts; [done|lia]. }
  cbn [count_failure set_totals active] in E. pose proof (find_id_elem _ _ _ E) as Hr.
  rewrite Forall_forall in A. specialize (A r Hr) as Ar. rewrite <- Forall_forall in A.
  unfold MAX_REVERT_ATTEMPTS in *. rewrite wrapping_add_small by (unfold in_width; lia).
  destruct (Z.leb_spec 3 (attempts_of (ar_state r) + 1)) as [Hmax|Hmax]; cbn [fst].
  - apply find_id_split in E as (_ & l1 & l2 & El & _ & Er & _). rewrite El in *.
    rewrite Forall_app, Forall_cons in A. rewrite failures_of_app in F.
    assert (failures_of (r :: l2) = attempts_of (ar_state r) + failures_of l2) as Fr by done.
    destruct A as (A1 & _ & A2). rewrite length_app in B. cbn [length] in B.
    assert (incr (total_orphaned lc) = total_orphaned lc + 1) as I2 by (apply (incr_small _ n); lia).
    split; cbn [push_history set_history count_orphaned count_failure set_totals set_active active history
      total_registered total_expired total_reverted total_orphaned lc_next_id total_revert_failures
      total_already_absent]; rewrite ?El, ?Er, ?I1, ?I2, ?length_app, ?failures_of_app;
      first [by apply Forall_app|apply cap_history_length|done|lia].
  - split; cbn [count_failure set_totals set_active active history total_registered total_expired
      total_reverted total_orphaned lc_next_id total_revert_failures total_already_absent];
      rewrite ?I1, ?update_id_length, ?(failures_update _ _ _ _ E); cbn [set_state ar_state attempts_of];
      first [done|lia|idtac].
    eapply update_id_Forall; [exact E|done|]. cbn [set_state ar_state attempts_of]. unfold MAX_REVERT_ATTEMPTS. lia.
Qed.

Lemma stage_entry_attempts now r : attempts_of (ar_state (stage_entry now r)) = attempts_of (ar_state r).
Proof.
  unfold stage_entry. destruct (stage_next now r) eqn:E; [|done]. by apply stage_next_attempts in E as [<- _].
Qed.

Lemma apply_op_counts n lc op :
  counts_ok n lc -> n + 1 < u64_max -> counts_ok (n + 2) (apply_lifecycle_op lc op).
Proof.
  intros Hok Hn. pose proof Hok as [A Hh B N F R Fl Ab P]. destruct op; cbn [apply_lifecycle_op].
  - assert (incr (total_registered lc) = total_registered lc + 1) as I1 by (apply (incr_small _ n); lia).
    assert (incr (lc_next_id lc) = lc_next_id lc + 1) as I2 by (apply (incr_small _ (n + 1)); lia).
    split; cbn [register push_response fst active history total_registered total_expired total_reverted
      total_orphaned lc_next_id total_revert_failures total_already_absent];
      rewrite ?I1, ?I2, ?length_app, ?failures_of_app; try done; try (cbn; lia).
    apply Forall_app. split; [done|]. apply Forall_singleton. cbn. unfold MAX_REVERT_ATTEMPTS. lia.
  - split; cbn [stage_pending_reverts fst set_history set_active active history total_registered total_expired
      total_reverted total_orphaned lc_next_id total_revert_failures total_already_absent];
      rewrite ?length_fmap; try done; try lia; [| |].
    + apply Forall_fmap. eapply Forall_impl; [exact A|]. intros r. cbn. by rewrite stage_entry_attempts.
    + apply cap_history_length.
    + unfold failures_of in *. rewrite <- list_fmap_compose.
      erewrite list_fmap_ext; [exact F|]. intros ? r _. apply stage_entry_attempts.
  - unfold request_manual_revert. destruct (find_id id (active lc)) as [r|] eqn:E;
      [|apply (counts_ok_later n); [done|lia]].
    pose proof (find_id_elem _ _ _ E) as Hr. rewrite Forall_forall in A. specialize (A r Hr) as Ar.
    rewrite <- Forall_forall in A.
    destruct (ar_state r) as [|since trg prior|at_ atts err trg] eqn:Es; cbn [fst];
      [|by apply (counts_ok_later n); [|lia]|];
      split; cbn [set_active active history total_registered total_expired total_reverted
        total_orphaned lc_next_id total_revert_failures total_already_absent];
      rewrite ?update_id_length, ?(failures_update _ _ _ _ E); cbn [set_state ar_state attempts_of] in *;
      rewrite ?Es; cbn [attempts_of]; first [done|lia|idtac];
      (eapply update_id_Forall; [exact E|done|]; cbn [set_state ar_state attempts_of];
       unfold MAX_REVERT_ATTEMPTS in *; lia).
  - eapply counts_ok_later; [apply mark_reverted_counts; [exact Hok|lia]|lia].
  - by apply mark_revert_failed_counts.
  - split; cbn [gc_orphaned_responses fst set_history active history total_registered total_expired
      total_reverted total_orphaned lc_next_id total_revert_failures total_already_absent]; try done; try lia.
    etrans; [apply retain_length|done].
  - split; cbn; try done; lia.
Qed.

Lemma new_ids_ok : ids_ok ResponseLifecycle_new.
Proof. split; cbn; [constructor|constructor|lia]. Qed.

Lemma new_counts_ok : counts_ok 0 ResponseLifecycle_new.
Proof. split; cbn; try lia; constructor. Qed.

Lemma reachable_ok ops :
  2 * Z.of_nat (length ops) < u64_max - 1 ->
  let lc := foldl apply_lifecycle_op ResponseLifecycle_new ops in
  ids_ok lc /\ counts_ok (2 * Z.of_nat (length ops)) lc.
Proof.
  induction ops as [|op ops IH] using rev_ind; cbn zeta; intros Hn.
  - split; [apply new_ids_ok|apply new_counts_ok].
  - rewrite length_app in *. cbn [length] in *. rewrite foldl_app. cbn [foldl].
    destruct IH as [Hi Hc]; [lia|]. split.
    + apply apply_op_ids; [done|]. destruct Hc. lia.
    + replace (2 * Z.of_nat (length ops + 1)) with (2 * Z.of_nat (length ops) + 2) by lia.
      apply apply_op_counts; [done|lia].
Qed.
End Operations.

(** ** A tick as one pass over the table *)

Section Tick.
Context {W : Type} `{World W} `{Lowercase}.

(** What becomes of an entry whose revert answered [res]: it stays for a
    retry, or it is done. *)
Definition fate (now : Z) (r : ActiveResponse) (res : result unit string)
  : ActiveResponse + CompletedResponse :=
  match res with
  | Ok _ => inr (completed r now "expired")
  | Err e =>
      match classify_revert_error e with
      | KAlreadyAbsent => inr (completed r now "already_absent")
      | KTransient =>
          let attempts := wrapping_add 32 (attempts_of (ar_state r)) 1 in
          if MAX_REVERT_ATTEMPTS <=? attempts then inr (completed r now ("orphaned: " +:+ e))
          else inl (set_state r (RevertFailed now attempts e (trigger_of (ar_state r))))
      end
  end.

(** The entries in order: one that is not due stays as it is, one that is due
    is reverted there and then. *)
Fixpoint one_pass (dry_run : bool) (now : Z) (w : W) (l : list ActiveResponse)
  : W * list ActiveResponse * list CompletedResponse :=
  match l with
  | [] => (w, [], [])
  | r :: l =>
      match stage_next now r with
      | None => let '(w, kept, done) := one_pass dry_run now w l in (w, r :: kept, done)
      | Some _ =>
          let '(w, res) := execute_revert w (action_of r) dry_run in
          let f := fate (clock w) r res in
          let '(w, kept, done) := one_pass dry_run now w l in
          match f with
          | inl r' => (w, r' :: kept, done)
          | inr c => (w, kept, c :: done)
          end
      end
  end.

Lemma action_set_state r st : action_of (set_state r st) = action_of r.
Proof. done. Qed.
Lemma completed_set_state r st now reason : completed (set_state r st) now reason = completed r now reason.
Proof. done. Qed.
Lemma set_state_twice r st st' : set_state (set_state r st) st' = set_state r st'.
Proof. done. Qed.

(** Reporting the outcome of the entry that was staged. *)
Lemma report_outcome lc now l1 r st l2 res :
  active lc = l1 ++ set_state r st :: l2 -> ar_id r ∉ ids l1 ->
  attempts_of st = attempts_of (ar_state r) -> trigger_of st = trigger_of (ar_state r) ->
  let lc' := match res with
             | Ok _ => mark_reverted lc now (ar_id r) "expired"
             | Err e => fst (mark_revert_failed lc now (ar_id r) e)
             end in
  match fate now r res with
  | inl r' => active lc' = l1 ++ r' :: l2 /\ history lc' = history lc
  | inr c => active lc' = l1 ++ l2 /\ history lc' = cap_history (history lc ++ [c])
  end.
Proof.
  intros El Hn Ha Ht.
  assert (find_id (ar_id r) (active lc) = Some (set_state r st)) as F.
  { rewrite El. by apply (find_id_mid l1 (set_state r st)). }
  assert (remove_id (ar_id r) (active lc) = l1 ++ l2) as R.
  { rewrite El. by apply (remove_id_mid l1 (set_state r st)). }
  destruct res as [[]|e]; cbn zeta; cbn [fate].
  - unfold mark_reverted. rewrite F. cbn. by rewrite R.
  - unfold mark_revert_failed. cbn [count_failure set_totals active]. rewrite F.
    cbn [set_state ar_state]. rewrite Ha, Ht. destruct (classify_revert_error e).
    + unfold mark_reverted. cbn [count_failure set_totals active fst]. rewrite F. cbn. by rewrite R.
    + destruct (MAX_REVERT_ATTEMPTS <=? _); cbn.
      * by rewrite R.
      * split; [|done]. rewrite El. etrans; [by apply (update_id_mid _ l1 (set_state r st))|done].
Qed.

Lemma run_reverts_one_pass dry_run now l : forall w lc kept,
  active lc = kept ++ (stage_entry now <$> l) -> NoDup (ids kept ++ ids l) ->
  (length (history lc) <= HISTORY_CAP)%nat ->
  let '(w', lc') := run_reverts dry_run w lc (omap (staged_action now) l) in
  let '(w'', kept', done) := one_pass dry_run now w l in
  w' = w'' /\ active lc' = kept ++ kept' /\ history lc' = cap_history (history lc ++ done).
Proof.
  induction l as [|r l IH]; intros w lc kept El Hd Hh; cbn [omap list_omap one_pass fmap list_fmap] in *.
  - rewrite !app_nil_r in *. cbn. by rewrite cap_history_small.
  - assert (ar_id r ∉ ids kept) as Hn.
    { apply NoDup_app in Hd as (_ & Hd & _). intros Hi. apply (Hd _ Hi). cbn. set_solver. }
    unfold staged_action at 1. unfold stage_entry at 1 in El.
    destruct (stage_next now r) as [st|] eqn:Es.
    + cbn [run_reverts]. destruct (execute_revert w (action_of r) dry_run) as [w1 res] eqn:Ex.
      destruct (stage_next_attempts _ _ _ Es) as [Ha Ht].
      pose proof (report_outcome lc (clock w1) kept r st _ res El Hn Ha Ht) as Hrep.
      cbn zeta in Hrep. change (rv_id (action_of r)) with (ar_id r).
      set (lc1 := match res with Ok _ => _ | Err e => _ end) in *.
      destruct (fate (clock w1) r res) as [r'|c] eqn:Ef; destruct Hrep as [E1 H1].
      * assert (ar_id r' = ar_id r) as Ei.
        { unfold fate in Ef. by split_cases. }
        specialize (IH w1 lc1 (kept ++ [r'])). rewrite <- app_assoc, H1 in IH. specialize (IH E1).
        destruct (run_reverts _ _ _ _) as [w' lc']. destruct (one_pass dry_run now w1 l) as [[w'' k'] d'].
        rewrite <- app_assoc in IH. apply IH; [|done]. rewrite ids_app, <- app_assoc. cbn. by rewrite Ei.
      * specialize (IH w1 lc1 kept E1). destruct (run_reverts _ _ _ _) as [w' lc'].
        destruct (one_pass dry_run now w1 l) as [[w'' k'] d'].
        destruct IH as (-> & -> & ->).
        -- apply NoDup_app in Hd as (D1 & D2 & D3). cbn in D2, D3. apply NoDup_cons in D3 as [_ D3].
           apply NoDup_app. set_solver.
        -- rewrite H1. apply cap_history_length.
        -- split_and!; [done..|]. rewrite H1, cap_history_app, <- app_assoc. done.
    + specialize (IH w lc (kept ++ [r])). rewrite <- app_assoc in IH. specialize (IH El).
      destruct (run_reverts _ _ _ _) as [w' lc']. destruct (one_pass dry_run now w l) as [[w'' k'] d'].
      rewrite <- app_assoc in IH. apply IH; [|done]. by rewrite ids_app, <- app_assoc.
Qed.

(** What the sweep after the reverts keeps. *)
Definition swept (now : Z) (h : list CompletedResponse) : list CompletedResponse :=
  retain (fun c => negb (is_orphaned c) || (now - seconds ORPHAN_GC_AGE_SECS <? cr_reverted_at c)) h.

Lemma tick_one_pass dry_run w lc :
  ids_ok lc ->
  let '(w', lc') := lifecycle_tick dry_run w lc in
  let '(w'', kept, done) := one_pass dry_run (clock w) w (active lc) in
  w' = w'' /\ active lc' = kept
  /\ history lc' = swept (clock w'') (cap_history (history lc ++ done)).
Proof.
  intros [Hd _ _]. unfold lifecycle_tick. cbn [stage_pending_reverts].
  pose proof (run_reverts_one_pass dry_run (clock w) (active lc) w
    (set_history (set_active lc (stage_entry (clock w) <$> active lc)) (cap_history (history lc))) []) as R.
  destruct (run_reverts _ _ _ _) as [w' lc']. destruct (one_pass _ _ _ _) as [[w'' kept] done'].
  destruct R as (-> & Ea & Eh); [done|done|apply cap_history_length|].
  cbn [set_history set_active active history] in *. split_and!; [done|exact Ea|].
  cbn. rewrite Eh, cap_history_app. done.
Qed.

Lemma fate_id now r res r' : fate now r res = inl r' -> ar_id r' = ar_id r.
Proof. unfold fate. intros. by split_cases. Qed.

Lemma one_pass_ids dry_run now l : forall w,
  ids (snd (fst (one_pass dry_run now w l))) `sublist_of` ids l.
Proof.
  induction l as [|r l IH]; intros w; cbn [one_pass]; [constructor|].
  destruct (stage_next now r).
  - destruct (execute_revert _ _ _) as [w1 res]. specialize (IH w1).
    destruct (one_pass _ _ _ _) as [[w'' kept] done']. destruct (fate _ _ _) as [r'|c] eqn:E; cbn in *.
    + rewrite (fate_id _ _ _ _ E). by apply sublist_skip.
    + by apply sublist_cons.
  - specialize (IH w). destruct (one_pass _ _ _ _) as [[w'' kept] done']. cbn in *. by apply sublist_skip.
Qed.

Lemma one_pass_due dry_run now l : forall w id r,
  NoDup (ids l) -> find_id id l = Some r -> stage_next now r <> None ->
  exists w1 res, find_id id (snd (fst (one_pass dry_run now w l))) =
    match fate (clock w1) r res with inl r' => Some r' | inr _ => None end.
Proof.
  induction l as [|x l IH]; intros w id r Hd Hf Hs; [done|]. cbn [find_id one_pass] in *.
  apply NoDup_cons in Hd as [Hx Hd]. fold (ids l) in Hx, Hd.
  destruct (String.eqb_spec (ar_id x) id) as [E|E].
  - simplify_eq. destruct (stage_next now r) eqn:Es; [|done].
    destruct (execute_revert _ _ _) as [w1 res] eqn:Er. exists w1, res.
    pose proof (one_pass_ids dry_run now l w1) as Hsub.
    destruct (one_pass _ _ _ _) as [[w'' kept] done']. cbn [fst snd] in *.
    assert (find_id (ar_id r) kept = None) as Hnone.
    { apply find_id_None. intros Hin. apply Hx. by eapply elem_of_sublist. }
    destruct (fate _ _ _) as [r'|c] eqn:Ef; cbn; [|done].
    by rewrite (fate_id _ _ _ _ Ef), String.eqb_refl.
  - destruct (stage_next now x).
    + destruct (execute_revert _ _ _) as [w1 res]. destruct (IH w1 id r Hd Hf Hs) as (w2 & res2 & IH').
      exists w2, res2. destruct (one_pass _ _ _ _) as [[w'' kept] done'].
      destruct (fate (clock w1) x res) as [x'|c] eqn:Ef; cbn in *; [|done].
      rewrite (fate_id _ _ _ _ Ef), (proj2 (String.eqb_neq _ _)) by done. done.
    + destruct (IH w id r Hd Hf Hs) as (w2 & res2 & IH'). exists w2, res2.
      destruct (one_pass _ _ _ _) as [[w'' kept] done']. cbn in *.
      by rewrite (proj2 (String.eqb_neq _ _)).
Qed.

Lemma run_reverts_next dry_run reverts : forall w lc,
  lc_next_id (snd (run_reverts dry_run w lc reverts)) = lc_next_id lc.
Proof.
  induction reverts as [|a l IH]; intros w lc; cbn [run_reverts]; [done|].
  destruct (execute_revert _ _ _) as [w1 res]. rewrite IH. destruct res.
  - apply mark_reverted_active.
  - apply mark_revert_failed_active.
Qed.

Lemma tick_next dry_run w lc : lc_next_id (snd (lifecycle_tick dry_run w lc)) = lc_next_id lc.
Proof.
  unfold lifecycle_tick. cbn [stage_pending_reverts].
  match goal with |- context [run_reverts ?d ?w ?l ?r] => pose proof (run_reverts_next d r w l) as Hn end.
  by destruct (run_reverts _ _ _ _) as [w1 lc1].
Qed.

Lemma tick_ids_ok dry_run w lc : ids_ok lc -> ids_ok (snd (lifecycle_tick dry_run w lc)).
Proof.
  intros Hok. pose proof (tick_one_pass dry_run w lc Hok) as T. pose proof (tick_next dry_run w lc) as N.
  pose proof (one_pass_ids dry_run (clock w) (active lc) w) as S.
  destruct (lifecycle_tick dry_run w lc) as [w' lc']. destruct (one_pass _ _ _ _) as [[w'' kept] done'].
  destruct T as (-> & E & _), Hok as [Hd Hk Hp]. cbn in *. split; rewrite ?E, ?N; [| |done].
  - by eapply sublist_NoDup.
  - rewrite Forall_forall in *. intros i Hi. apply Hk. by eapply elem_of_sublist.
Qed.

(** The entry of [id] after a tick at which it was due. *)
Lemma tick_due dry_run w lc id r :
  ids_ok lc -> find_id id (active lc) = Some r -> stage_next (clock w) r <> None ->
  exists w1 res, find_id id (active (snd (lifecycle_tick dry_run w lc))) =
    match fate (clock w1) r res with inl r' => Some r' | inr _ => None end.
Proof.
  intros Hok Hf Hs. pose proof (tick_one_pass dry_run w lc Hok) as T.
  destruct (one_pass_due dry_run (clock w) (active lc) w id r (ids_nodup _ Hok) Hf Hs) as (w1 & res & E).
  exists w1, res. destruct (lifecycle_tick dry_run w lc) as [w' lc'].
  destruct (one_pass _ _ _ _) as [[w'' kept] done']. cbn [snd fst] in *. by destruct T as (_ & -> & _).
Qed.

Lemma tick_gone dry_run w lc id :
  ids_ok lc -> find_id id (active lc) = None -> find_id id (active (snd (lifecycle_tick dry_run w lc))) = None.
Proof.
  intros Hok Hf. pose proof (tick_one_pass dry_run w lc Hok) as T.
  pose proof (one_pass_ids dry_run (clock w) (active lc) w) as S.
  destruct (lifecycle_tick dry_run w lc) as [w' lc']. destruct (one_pass _ _ _ _) as [[w'' kept] done'].
  cbn [snd fst] in *. destruct T as (_ & -> & _). rewrite find_id_None in *. intros Hin. apply Hf.
  by eapply elem_of_sublist.
Qed.

(** ... and of an entry that is not due. *)
Lemma one_pass_not_due dry_run now l : forall w id r,
  NoDup (ids l) -> find_id id l = Some r -> stage_next now r = None ->
  find_id id (snd (fst (one_pass dry_run now w l))) = Some r.
Proof.
  induction l as [|x l IH]; intros w id r Hd Hf Hs; [done|]. cbn [find_id one_pass] in *.
  apply NoDup_cons in Hd as [Hx Hd]. fold (ids l) in Hx, Hd.
  destruct (String.eqb_spec (ar_id x) id) as [E|E].
  - simplify_eq. rewrite Hs. destruct (one_pass _ _ _ _) as [[w'' kept] done']. cbn. by rewrite String.eqb_refl.
  - destruct (stage_next now x).
    + destruct (execute_revert _ _ _) as [w1 res]. specialize (IH w1 id r Hd Hf Hs).
      destruct (one_pass _ _ _ _) as [[w'' kept] done'].
      destruct (fate (clock w1) x res) as [x'|c] eqn:Ef; cbn in *; [|done].
      by rewrite (fate_id _ _ _ _ Ef), (proj2 (String.eqb_neq _ _)).
    + specialize (IH w id r Hd Hf Hs). destruct (one_pass _ _ _ _) as [[w'' kept] done']. cbn in *.
      by rewrite (proj2 (String.eqb_neq _ _)).
Qed.

Lemma tick_not_due dry_run w lc id r :
  ids_ok lc -> find_id id (active lc) = Some r -> stage_next (clock w) r = None ->
  find_id id (active (snd (lifecycle_tick dry_run w lc))) = Some r.
Proof.
  intros Hok Hf Hs. pose proof (tick_one_pass dry_run w lc Hok) as T.
  pose proof (one_pass_not_due dry_run (clock w) (active lc) w id r (ids_nodup _ Hok) Hf Hs) as E.
  destruct (lifecycle_tick dry_run w lc) as [w' lc']. destruct (one_pass _ _ _ _) as [[w'' kept] done'].
  cbn [snd fst] in *. by destruct T as (_ & -> & _).
Qed.

(** *** Ticks with registrations in between *)

Inductive LifecycleEvent : Type :=
| Tick (dry_run : bool) (w : W)
| NewResponse (now : Z) (ty : ResponseType) (b : ResponseBackend) (target incident : string) (ttl : Z)
    (handle : option string).

Definition apply_event (lc : ResponseLifecycle) (e : LifecycleEvent) : ResponseLifecycle :=
  match e with
  | Tick dry_run w => snd (lifecycle_tick dry_run w lc)
  | NewResponse now ty b t i ttl h => fst (register lc now ty b t i ttl h)
  end.

Definition ticks (evs : list LifecycleEvent) : list Z :=
  omap (fun e => match e with Tick _ w => Some (clock w) | NewResponse _ _ _ _ _ _ _ => None end) evs.

(** An entry the ticks can still work on: not one left pending. *)
Definition revertible (r : ActiveResponse) : Prop :=
  match ar_state r with
  | Active => True
  | RevertFailed _ attempts _ _ => 0 <= attempts < MAX_REVERT_ATTEMPTS
  | RevertPending _ _ _ => False
  end.

Lemma revertible_due now r : revertible r -> ar_expires_at r < now -> stage_next now r <> None.
Proof.
  unfold revertible, stage_next. destruct (ar_state r); intros Hr He; try done.
  - by rewrite (proj2 (Z.ltb_lt _ _)).
  - by rewrite (proj2 (Z.ltb_lt _ _)) by lia.
Qed.

Lemma fate_progress now r res r' :
  revertible r -> fate now r res = inl r' ->
  revertible r' /\ attempts_of (ar_state r') = attempts_of (ar_state r) + 1
  /\ ar_expires_at r' = ar_expires_at r.
Proof.
  unfold revertible, fate. intros Hr Hf. destruct res as [[]|e]; [done|].
  destruct (classify_revert_error e); [done|].
  assert (0 <= attempts_of (ar_state r) < 3) as Ha.
  { unfold MAX_REVERT_ATTEMPTS in Hr. destruct (ar_state r); cbn; [lia|done|lia]. }
  rewrite wrapping_add_small in Hf by (unfold in_width; lia).
  destruct (Z.leb_spec MAX_REVERT_ATTEMPTS (attempts_of (ar_state r) + 1)); [done|].
  simplify_eq. cbn. split; [lia|done].
Qed.

Lemma apply_event_ids lc e : ids_ok lc -> lc_next_id lc < u64_max -> ids_ok (apply_event lc e).
Proof. intros. destruct e; [by apply tick_ids_ok|by apply register_ids]. Qed.

Lemma apply_event_next lc e :
  1 <= lc_next_id lc < u64_max -> lc_next_id lc <= lc_next_id (apply_event lc e) <= lc_next_id lc + 1.
Proof.
  intros Hn. destruct e; cbn [apply_event].
  - rewrite tick_next. lia.
  - cbn [register push_response fst lc_next_id]. rewrite (incr_small _ (lc_next_id lc)); unfold u64_max in *; lia.
Qed.

Lemma register_find lc now ty b t i ttl h id k :
  id = resp_id k -> 1 <= k < lc_next_id lc ->
  find_id id (active (fst (register lc now ty b t i ttl h))) = find_id id (active lc).
Proof.
  intros -> Hk. cbn [register push_response fst active].
  induction (active lc) as [|x l IH]; cbn [app find_id]; [|by rewrite IH].
  cbn [ar_id]. destruct (String.eqb_spec (resp_id (lc_next_id lc)) (resp_id k)) as [E|]; [|done].
  apply resp_id_inj in E; lia.
Qed.

(** A response that has left the table does not come back. *)
Lemma gone_stays evs : forall lc id k,
  ids_ok lc -> lc_next_id lc + Z.of_nat (length evs) < u64_max -> id = resp_id k -> 1 <= k < lc_next_id lc ->
  find_id id (active lc) = None -> find_id id (active (foldl apply_event lc evs)) = None.
Proof.
  induction evs as [|e evs IH]; intros lc id k Hok Hn Hid Hk Hf; [done|]. cbn [length foldl] in *.
  pose proof (apply_event_next lc e) as Hne. pose proof (next_pos _ Hok). eapply (IH _ _ k); [apply apply_event_ids; [done|lia]|lia|done|lia|].
  destruct e; cbn [apply_event].
  - by apply tick_gone.
  - by rewrite (register_find _ _ _ _ _ _ _ _ _ k).
Qed.

Lemma reverted_in_time evs : forall lc id k r,
  ids_ok lc -> lc_next_id lc + Z.of_nat (length evs) < u64_max -> id = resp_id k -> 1 <= k < lc_next_id lc ->
  find_id id (active lc) = Some r -> revertible r -> Forall (fun now => ar_expires_at r < now) (ticks evs) ->
  MAX_REVERT_ATTEMPTS - attempts_of (ar_state r) <= Z.of_nat (length (ticks evs)) ->
  find_id id (active (foldl apply_event lc evs)) = None.
Proof.
  induction evs as [|e evs IH]; intros lc id k r Hok Hn Hid Hk Hf Hr Hexp Hcount.
  - cbn in Hcount. unfold revertible in Hr. unfold MAX_REVERT_ATTEMPTS in *.
    destruct (ar_state r); cbn in Hcount; [lia|done|lia].
  - cbn [length foldl] in *. pose proof (apply_event_next lc e) as Hne.
    pose proof (next_pos _ Hok). pose proof (apply_event_ids lc e Hok ltac:(lia)) as Hok'.
    destruct e; cbn [apply_event ticks omap list_omap] in *.
    + apply Forall_cons in Hexp as [He Hexp]. cbn [length] in Hcount.
      destruct (tick_due dry_run w lc id r Hok Hf (revertible_due _ _ Hr He)) as (w1 & res & E).
      destruct (fate (clock w1) r res) as [r'|c] eqn:Ef.
      * destruct (fate_progress _ _ _ _ Hr Ef) as (Hr' & Ha & He').
        eapply (IH _ _ k); [done|lia|done|lia|exact E|done|by rewrite He'|]. unfold ticks in *. lia.
      * eapply (gone_stays _ _ _ k); [done|lia|done|lia|done].
    + eapply (IH _ _ k); [done|lia|done|lia| |exact Hr|done|done].
      by rewrite (register_find _ _ _ _ _ _ _ _ _ k).
Qed.

(** A response left pending stays. *)
Lemma pending_stays evs : forall lc id k r,
  ids_ok lc -> lc_next_id lc + Z.of_nat (length evs) < u64_max -> id = resp_id k -> 1 <= k < lc_next_id lc ->
  find_id id (active lc) = Some r -> is_pending (ar_state r) = true ->
  find_id id (active (foldl apply_event lc evs)) = Some r.
Proof.
  induction evs as [|e evs IH]; intros lc id k r Hok Hn Hid Hk Hf Hp; [done|]. cbn [length foldl] in *.
  pose proof (apply_event_next lc e) as Hne. pose proof (next_pos _ Hok).
  eapply (IH _ _ k); [apply apply_event_ids; [done|lia]|lia|done|lia| |done].
  destruct e; cbn [apply_event].
  - apply tick_not_due; [done..|]. unfold stage_next. by destruct (ar_state r).
  - by rewrite (register_find _ _ _ _ _ _ _ _ _ k).
Qed.
End Tick.

(** ** The operator's unblock *)

Section Unblock.
Context {W : Type} `{World W} `{Lowercase}.

(** A response with no command to undo it. *)
Definition never_reverts (r : ActiveResponse) (err : string) : Prop :=
  forall w : W, execute_revert w (action_of r) false = (w, Err err).

Lemma nftables_never_reverts r :
  ar_backend r = Nftables -> ar_revert_handle r = None ->
  never_reverts r "no nftables handle stored for revert".
Proof. intros Hb Hh w. unfold execute_revert. cbn. by rewrite Hb, Hh. Qed.

Lemma xdp6_never_reverts r v6 :
  ar_backend r = Xdp -> parse_ip (ar_target r) = Some (V6 v6) ->
  never_reverts r ("cannot parse IP for XDP revert: " +:+ ar_target r).
Proof.
  intros Hb Hp w. unfold execute_revert. cbn. by rewrite Hb, (parse_ip_v6_not_v4 _ _ Hp).
Qed.

(** A single tick over one such entry. *)
Lemma tick_never_reverts w lc r err :
  ids_ok lc -> active lc = [r] -> never_reverts r err -> stage_next (clock w) r <> None ->
  let lc' := snd (lifecycle_tick false w lc) in
  fst (lifecycle_tick false w lc) = w /\
  match fate (clock w) r (Err err) with
  | inl r' => active lc' = [r'] /\ history lc' = swept (clock w) (cap_history (history lc))
  | inr c => active lc' = [] /\ history lc' = swept (clock w) (cap_history (history lc ++ [c]))
  end.
Proof.
  intros Hok Ha Hn Hs. pose proof (tick_one_pass false w lc Hok) as T. rewrite Ha in T.
  cbn [one_pass] in T. destruct (stage_next (clock w) r) as [st|]; [|done]. rewrite (Hn w) in T.
  destruct (lifecycle_tick false w lc) as [w' lc']. cbn zeta. cbn [fst snd].
  destruct (fate (clock w) r (Err err)); destruct T as (-> & -> & ->); by rewrite ?app_nil_r.
Qed.

Lemma three_failures w1 w2 w3 lc r err :
  ids_ok lc -> active lc = [r] -> history lc = [] -> never_reverts r err ->
  classify_revert_error err = KTransient -> ar_state r = Active -> ar_expires_at r < clock w1 ->
  let '(w1', lc1) := lifecycle_tick false w1 lc in
  let '(w2', lc2) := lifecycle_tick false w2 lc1 in
  let '(w3', lc3) := lifecycle_tick false w3 lc2 in
  w1' = w1 /\ w2' = w2 /\ w3' = w3 /\ active lc3 = []
  /\ history lc3 = [completed r (clock w3) ("orphaned: " +:+ err)].
Proof.
  intros Hok Ha Hh Hn Hc Hst Hexp.
  pose proof (tick_never_reverts w1 lc r err Hok Ha Hn) as T1.
  pose proof (tick_ids_ok false w1 lc Hok) as Hok1.
  assert (stage_next (clock w1) r <> None) as S1.
  { unfold stage_next. by rewrite Hst, (proj2 (Z.ltb_lt _ _)). }
  specialize (T1 S1). destruct (lifecycle_tick false w1 lc) as [w1' lc1]. cbn [fst snd] in *.
  unfold fate in T1. rewrite Hc, Hst, Hh in T1. cbn in T1. destruct T1 as (-> & Ha1 & Hh1).
  pose proof (tick_never_reverts w2 lc1 _ err Hok1 Ha1 Hn) as T2.
  pose proof (tick_ids_ok false w2 lc1 Hok1) as Hok2. specialize (T2 ltac:(done)).
  destruct (lifecycle_tick false w2 lc1) as [w2' lc2]. cbn [fst snd] in *.
  unfold fate in T2. rewrite Hc, Hh1 in T2. cbn in T2. destruct T2 as (-> & Ha2 & Hh2).
  pose proof (tick_never_reverts w3 lc2 _ err Hok2 Ha2 Hn ltac:(done)) as T3.
  destruct (lifecycle_tick false w3 lc2) as [w3' lc3]. cbn [fst snd] in *.
  unfold fate in T3. rewrite Hc, Hh2 in T3. cbn in T3. destruct T3 as (-> & Ha3 & Hh3).
  split_and!; [done..|]. rewrite Hh3. unfold swept, cap_history. cbn.
  unfold is_orphaned. cbn. rewrite (proj2 (Z.ltb_lt _ _)); [done|].
  unfold seconds, ORPHAN_GC_AGE_SECS, NANOS_PER_SEC. lia.
Qed.

(** The only block of an address, taken out of the table. *)
Lemma sole_block_removed lc ip r :
  ids_ok lc -> retain (blocks_ip ip) (active lc) = [r] ->
  find_id (ar_id r) (active lc) = Some r
  /\ retain (blocks_ip ip) (remove_id (ar_id r) (active lc)) = [].
Proof.
  intros [Hd _ _] Hr. assert (r ∈ active lc /\ blocks_ip ip r = true) as [Hin Hb].
  { apply retain_elem. rewrite Hr. set_solver. }
  apply list_elem_of_split in Hin as (l1 & l2 & El). rewrite El in *.
  rewrite ids_app in Hd. apply NoDup_app in Hd as (_ & Hd & _).
  assert (ar_id r ∉ ids l1) as Hn.
  { intros Hi. apply (Hd _ Hi). cbn. set_solver. }
  split; [by apply find_id_mid|]. rewrite remove_id_mid by done.
  unfold retain in *. rewrite !List.filter_app in *. cbn in Hr. rewrite Hb in Hr.
  destruct (List.filter (blocks_ip ip) l1) as [|x k]; [|by destruct k]. cbn in *. congruence.
Qed.

Lemma remove_update_id id f l : (forall r, ar_id (f r) = ar_id r) -> remove_id id (update_id id f l) = remove_id id l.
Proof.
  intros Hf. induction l as [|r l IH]; [done|]. cbn. destruct (String.eqb (ar_id r) id) eqn:E; cbn;
    rewrite ?Hf, E; congruence.
Qed.

Lemma find_update_state id st l r :
  find_id id l = Some r ->
  find_id id (update_id id (fun r => set_state r st) l) = Some (set_state r st).
Proof.
  induction l as [|x l IH]; [done|]. cbn. destruct (String.eqb (ar_id x) id) eqn:E; cbn;
    rewrite E; intros; simplify_eq; auto.
Qed.

End Unblock.

(** ** The properties *)

Section Properties.
Context {W : Type} `{World W} `{Lowercase}.

(** C3. Over any sequence of registrations, stagings, manual requests,
    reports of success or failure and sweeps, in any order and with any
    identifiers, on a fresh lifecycle: the identifiers of the tracked responses
    are distinct and have all been handed out; no response has three failures
    and is still tracked; the history keeps to its cap of 1000; every
    registration is accounted for as still tracked, expired, manually reverted
    or orphaned; and each orphan stands for three counted failures. *)
Theorem lifecycle_accounts ops :
  2 * Z.of_nat (length ops) < u64_max - 1 ->
  let lc := foldl apply_lifecycle_op ResponseLifecycle_new ops in
  NoDup (ids (active lc))
  /\ Forall (fun r => (exists k, 1 <= k < lc_next_id lc /\ ar_id r = resp_id k)
                    /\ attempts_of (ar_state r) < MAX_REVERT_ATTEMPTS) (active lc)
  /\ (length (history lc) <= 1000)%nat
  /\ total_registered lc = Z.of_nat (length (active lc)) + total_expired lc + total_reverted lc + total_orphaned lc
  /\ 3 * total_orphaned lc <= total_revert_failures lc.
Proof.
  intros Hn lc. destruct (reachable_ok ops Hn) as [[Hd Hk _] [A Hh B _ F _ _ _ _]]. fold lc in Hd, Hk, A, Hh, B, F.
  split_and!; [done| |done|done|].
  - unfold ids in Hk. rewrite Forall_fmap in Hk. rewrite Forall_forall in *. intros r Hr.
    split; [by apply Hk|]. by apply A.
  - enough (0 <= failures_of (active lc)) by lia. apply sumZ_nonneg, Forall_fmap.
    eapply Forall_impl; [exact A|]. cbn. lia.
Qed.

(** A tick, which stages the due entries, runs their reverts and reports
    each outcome back by identifier, is the same as one pass over the table that
    leaves an entry alone when it is not due, runs its revert otherwise, and
    puts it in the history as expired, already absent or orphaned or keeps it
    for a retry by the answer alone: the same commands in the same order, the
    same table and the same history. *)
Theorem tick_is_one_pass ops dry_run w :
  2 * Z.of_nat (length ops) < u64_max - 1 ->
  let lc := foldl apply_lifecycle_op ResponseLifecycle_new ops in
  let '(w', lc') := lifecycle_tick dry_run w lc in
  let '(w'', kept, done) := one_pass dry_run (clock w) w (active lc) in
  w' = w'' /\ active lc' = kept
  /\ history lc' = swept (clock w'') (cap_history (history lc ++ done)).
Proof. intros Hn lc. apply tick_one_pass. by apply reachable_ok. Qed.

(** C9. Whatever the commands answer and whatever is registered in between, a
    tracked response is out of the table after three or more ticks past its
    expiry, and does not come back, exactly when it is active or waiting for a
    retry at the start: one that is marked as being reverted (RevertPending, as a
    tick that was interrupted and restored leaves it) is never staged again and
    stays. *)
Theorem expired_reverted_within_three ops evs r :
  2 * Z.of_nat (length ops) + Z.of_nat (length evs) < u64_max - 1 ->
  let lc := foldl apply_lifecycle_op ResponseLifecycle_new ops in
  r ∈ active lc ->
  Forall (fun now => ar_expires_at r < now) (ticks (W:=W) evs) ->
  (3 <= length (ticks evs))%nat ->
  ar_id r ∉ ids (active (foldl apply_event lc evs)) <-> is_pending (ar_state r) = false.
Proof.
  intros Hn lc Hr Hexp Hthree. destruct (reachable_ok ops ltac:(lia)) as [Hok Hc]. fold lc in Hok, Hc.
  pose proof (c_attempts _ _ Hc) as A. rewrite Forall_forall in A. specialize (A r Hr).
  pose proof (ids_known _ Hok) as Hk. rewrite Forall_forall in Hk.
  destruct (Hk (ar_id r)) as (k & Hk1 & Hk2); [by apply list_elem_of_fmap_2|].
  assert (lc_next_id lc + Z.of_nat (length evs) < u64_max) as Hids by (destruct Hc; lia).
  assert (find_id (ar_id r) (active lc) = Some r) as Hf.
  { apply list_elem_of_split in Hr as (l1 & l2 & El). rewrite El. apply find_id_mid.
    pose proof (ids_nodup _ Hok) as Hd. rewrite El, ids_app in Hd. apply NoDup_app in Hd as (_ & Hd & _).
    intros Hi. apply (Hd _ Hi). cbn. set_solver. }
  rewrite <- find_id_None. split.
  { intros Hg. apply not_true_is_false. intros Hp. by rewrite (pending_stays _ _ _ k r) in Hg. }
  intros Hp. eapply (reverted_in_time _ _ _ k r); try done.
  - unfold revertible. destruct (ar_state r); [done|done|]. exact A.
  - unfold MAX_REVERT_ATTEMPTS in *. lia.
Qed.

(** A block in nftables is never undone: it is registered without the
    handle the revert needs, so after its expiry three ticks fail without
    running any command, and the block is written off as orphaned while the rule
    stays.  The same holds of the XDP entry of an IPv6 address: its revert
    reads IPv4 text only and runs no command either. *)
Theorem unrevertable_blocks_orphaned `{!LowercaseLaws} now ip incident ttl w1 w2 w3 :
  now + seconds ttl < clock w1 ->
  (let lc := register_layers ResponseLifecycle_new now ["nftables"] ip incident ttl in
   let '(w1', lc1) := lifecycle_tick false w1 lc in
   let '(w2', lc2) := lifecycle_tick false w2 lc1 in
   let '(w3', lc3) := lifecycle_tick false w3 lc2 in
   w1' = w1 /\ w2' = w2 /\ w3' = w3 /\ active lc3 = []
   /\ cr_reason <$> history lc3 = ["orphaned: no nftables handle stored for revert"])
  /\ (forall v6, parse_ip ip = Some (V6 v6) ->
      forall r, r ∈ active (register_layers ResponseLifecycle_new now ["XDP"] ip incident ttl) ->
      never_reverts (W:=W) r ("cannot parse IP for XDP revert: " +:+ ip)).
Proof.
  intros Hexp. split.
  - assert (ids_ok (register_layers ResponseLifecycle_new now ["nftables"] ip incident ttl)) as Hok.
    { apply (register_ids ResponseLifecycle_new); [apply new_ids_ok|done]. }
    pose proof (three_failures w1 w2 w3 _ _ "no nftables handle stored for revert" Hok eq_refl eq_refl) as T.
    specialize (T ltac:(by apply nftables_never_reverts)).
    assert (classify_revert_error "no nftables handle stored for revert" = KTransient) as Hc.
    { unfold classify_revert_error. by rewrite to_lowercase_ascii. }
    specialize (T Hc eq_refl Hexp). cbn zeta. destruct (lifecycle_tick false w1 _) as [w1' lc1].
    destruct (lifecycle_tick false w2 _) as [w2' lc2], (lifecycle_tick false w3 _) as [w3' lc3].
    by destruct T as (-> & -> & -> & -> & ->).
  - intros v6 Hp r Hr. cbn in Hr. apply list_elem_of_singleton in Hr as ->.
    match goal with |- never_reverts ?r _ => exact (xdp6_never_reverts r v6 eq_refl Hp) end.
Qed.

(** An unblock whose rule turns out to be gone already is finished and
    reported as failed: the entry leaves the table and the history says
    already_absent, but the drain looks only at the command's error, so it
    writes that the block was left in place and keeps the address in the
    blocklist. *)
Theorem absent_unblock_reported_failed ops w w' ip r err :
  2 * Z.of_nat (length ops) < u64_max - 1 ->
  let lc := foldl apply_lifecycle_op ResponseLifecycle_new ops in
  retain (blocks_ip ip) (active lc) = [r] -> is_pending (ar_state r) = false ->
  execute_revert w (action_of r) false = (w', Err err) -> classify_revert_error err = KAlreadyAbsent ->
  let '(w2, lc2, revert_ok, reverted) := unblock_ip false w lc ip in
  w2 = w' /\ active_block_ids_for_ip lc2 ip = []
  /\ list.last (history lc2) = Some (completed r (clock w') "already_absent")
  /\ fst (unblock_result false revert_ok reverted ip) =
     "failed: firewall revert did not complete; block left in place".
Proof.
  intros Hn lc Hsole Hp Hx Hc. destruct (reachable_ok ops Hn) as [Hok _]. fold lc in Hok.
  destruct (sole_block_removed lc ip r Hok Hsole) as [Hf Hrm].
  unfold unblock_ip, active_block_ids_for_ip at 1. rewrite Hsole. cbn [fmap list_fmap unblock_ids].
  unfold request_manual_revert. rewrite Hf.
  destruct (ar_state r) eqn:Es; [|done|]; rewrite Hx; cbn zeta; unfold mark_revert_failed;
    cbn [count_failure set_totals set_active active]; rewrite (find_update_state _ _ _ _ Hf), Hc;
    cbn [fst unblock_ids]; unfold active_block_ids_for_ip;
    rewrite (proj1 (mark_reverted_active _ _ _ _)); cbn [count_failure set_totals set_active active];
    rewrite remove_update_id by done; rewrite Hrm;
    (split_and!; [done|done| |done]); unfold mark_reverted; cbn [count_failure set_totals set_active active];
    rewrite (find_update_state _ _ _ _ Hf); cbn; apply cap_history_last.
Qed.

End Properties.

(** ** The properties at concrete inputs *)

Section Witnesses.

(** A machine on which every command fails with a given text. *)
Record DemoWorld := { demo_now : Z; demo_stderr : string }.
#[local] Instance demo_world : World DemoWorld :=
  {| clock := demo_now;
     exec w _ _ := (w, Ok {| out_success := false; out_status := "exit status: 1"; out_stderr := demo_stderr w |}) |}.
#[local] Instance demo_lowercase : Lowercase := {| to_lowercase := to_ascii_lowercase |}.
#[local] Instance demo_lowercase_laws : LowercaseLaws.
Proof. by split. Qed.

Definition demo_ops : list LifecycleOp :=
  [Register 0 BlockIp Iptables "203.0.113.7" "inc-1" 60 None;
   Register 0 BlockIp Ufw "198.51.100.9" "inc-2" 3600 None].
Definition demo_lifecycle : ResponseLifecycle := foldl apply_lifecycle_op ResponseLifecycle_new demo_ops.
Definition demo_block : ActiveResponse :=
  {| ar_id := "resp-1"; ar_type := BlockIp; ar_backend := Iptables; ar_target := "203.0.113.7";
     ar_incident_id := "inc-1"; ar_created_at := 0; ar_ttl_secs := 60; ar_expires_at := seconds 60;
     ar_revert_handle := None; ar_state := Active |}.
Definition busy (secs : Z) : DemoWorld := {| demo_now := seconds secs; demo_stderr := "resource busy" |}.
Definition absent (secs : Z) : DemoWorld :=
  {| demo_now := seconds secs; demo_stderr := "iptables: Bad rule (does a matching rule exist in that chain?)." |}.

Lemma lifecycle_accounts_witness :
  length (active demo_lifecycle) = 2%nat /\ NoDup (ids (active demo_lifecycle))
  /\ total_registered demo_lifecycle = 2.
Proof.
  destruct (lifecycle_accounts demo_ops) as (Hd & _); [by vm_compute|]. split_and!; [done|exact Hd|done].
Defined.

Lemma tick_is_one_pass_witness :
  let '(_, kept, done) := one_pass false (seconds 61) (busy 61) (active demo_lifecycle) in
  kept = [set_state demo_block (RevertFailed (seconds 61) 1
            "sudo iptables -D INPUT -s 203.0.113.7 -j DROP exited exit status: 1: resource busy" TtlExpired);
          {| ar_id := "resp-2"; ar_type := BlockIp; ar_backend := Ufw; ar_target := "198.51.100.9";
             ar_incident_id := "inc-2"; ar_created_at := 0; ar_ttl_secs := 3600; ar_expires_at := seconds 3600;
             ar_revert_handle := None; ar_state := Active |}]
  /\ active (snd (lifecycle_tick false (busy 61) demo_lifecycle)) = kept /\ done = [].
Proof.
  pose proof (tick_is_one_pass demo_ops false (busy 61)) as T.
  specialize (T ltac:(by vm_compute)). fold demo_lifecycle in T. cbn zeta in T.
  destruct (lifecycle_tick false (busy 61) demo_lifecycle) as [w' lc'].
  change (clock (busy 61)) with (seconds 61) in T.
  destruct (one_pass false (seconds 61) (busy 61) (active demo_lifecycle)) as [[w'' kept] done'] eqn:E.
  destruct T as (_ & Ha & _). vm_compute in E. injection E as _ Ek Ed. split_and!; [rewrite <- Ek; by vm_compute|exact Ha|done].
Defined.

Lemma expired_reverted_within_three_witness :
  "resp-1" ∉ ids (active (foldl apply_event demo_lifecycle
    [Tick false (busy 61); NewResponse (seconds 70) BlockIp Ufw "192.0.2.1" "inc-3" 60 None;
     Tick false (busy 91); Tick false (busy 121)])).
Proof.
  apply (expired_reverted_within_three demo_ops _ demo_block); [by vm_compute| | |cbn; lia|reflexivity].
  - vm_compute. left.
  - vm_compute. repeat constructor.
Defined.

Lemma unrevertable_blocks_orphaned_witness :
  seconds 60 < clock (busy 61)
  /\ active (snd (lifecycle_tick false (busy 121) (snd (lifecycle_tick false (busy 91)
       (snd (lifecycle_tick false (busy 61)
          (register_layers ResponseLifecycle_new 0 ["nftables"] "203.0.113.7" "inc-1" 60))))))) = []
  /\ parse_ip "2001:db8::1" = Some (V6 [8193; 3512; 0; 0; 0; 0; 0; 1]).
Proof.
  split; [by vm_compute|]. split; [|by vm_compute].
  destruct (unrevertable_blocks_orphaned 0 "203.0.113.7" "inc-1" 60 (busy 61) (busy 91) (busy 121)) as [T _];
    [by vm_compute|].
  cbn zeta in T. destruct (lifecycle_tick false (busy 61) _) as [w1 lc1].
  destruct (lifecycle_tick false (busy 91) _) as [w2 lc2] eqn:E2.
  destruct (lifecycle_tick false (busy 121) _) as [w3 lc3] eqn:E3.
  destruct T as (_ & _ & _ & Ha & _). exact Ha.
Defined.

Lemma absent_unblock_reported_failed_witness :
  retain (blocks_ip "203.0.113.7") (active demo_lifecycle) = [demo_block]
  /\ unblock_ip false (absent 10) demo_lifecycle "203.0.113.7" =
     (absent 10, snd (fst (fst (unblock_ip false (absent 10) demo_lifecycle "203.0.113.7"))), false, 0)
  /\ active_block_ids_for_ip (snd (fst (fst (unblock_ip false (absent 10) demo_lifecycle "203.0.113.7")))) "203.0.113.7" = [].
Proof.
  split; [by vm_compute|]. split; [by vm_compute|].
  pose proof (absent_unblock_reported_failed demo_ops (absent 10) (absent 10) "203.0.113.7" demo_block
    (match snd (execute_revert (absent 10) (action_of demo_block) false) with Err e => e | Ok _ => "" end)) as T.
  fold demo_lifecycle in T. cbn zeta in T. specialize (T ltac:(by vm_compute) ltac:(by vm_compute) ltac:(done)
    ltac:(by vm_compute) ltac:(by vm_compute)).
  destruct (unblock_ip false (absent 10) demo_lifecycle "203.0.113.7") as [[[w2 lc2] ok] n].
  cbn [fst snd]. by destruct T as (_ & T & _).
Defined.
End Witnesses.
