(* ===== verification/AgentLifecycleStore.v ===== *)
(** * AgentLifecycleStore: how the response lifecycle survives a restart
    (crates/agent/src/response_lifecycle.rs: to_snapshot, from_v2_content,
    load_snapshot, the two reconcilers with the decisions, to_json)

    After every tick the agent writes a snapshot; at boot it reads the snapshot
    back, falling through from the v2 blob to the v2 file to the v1 shape, and
    adds the block decisions of the last hour that nobody tracks.  Proved here:
    a v2 snapshot reads back as the lifecycle it was written from; the
    reconciler keeps the table consistent, adds each address once and nothing
    that has expired; and it does not ask whether a decision was ever carried
    out. *)

From Stdlib Require Import ZArith Lia Ascii String.
From stdpp Require Import prelude strings list gmap.
From S2P Require Import Prelude Text Json Net StoreKv StoreDecisions AgentLifecycle.

Local Open Scope string_scope.
Local Open Scope list_scope.
Local Open Scope Z_scope.

(** chrono's text of an instant inside a derived [Serialize]
    ([...Z], where [to_rfc3339] writes [...+00:00]), and [serde_json::from_str]. *)
Class Serde := {
  serde_time : Z -> string;
  json_from_str : string -> option Json;
}.

(** ** Names in the snapshot *)

Definition response_type_name (t : ResponseType) : string :=
  match t with
  | BlockIp => "block_ip" | BlockContainer => "block_container" | SuspendSudo => "suspend_sudo"
  | RateLimitNginx => "rate_limit_nginx" | KillProcess => "kill_process"
  end.

Definition backend_name (b : ResponseBackend) : string :=
  match b with
  | Xdp => "xdp" | Ufw => "ufw" | Iptables => "iptables" | Nftables => "nftables" | Pf => "pf"
  | Cloudflare => "cloudflare" | Nginx => "nginx" | Container => "container" | Sudo => "sudo"
  end.

Definition trigger_name (t : RevertTrigger) : string :=
  match t with TtlExpired => "ttl_expired" | Manual => "manual" end.

Definition parse_backend (s : option string) : ResponseBackend :=
  let s := default "ufw" s in
  if String.eqb s "xdp" then Xdp
  else if String.eqb s "iptables" then Iptables
  else if String.eqb s "nftables" then Nftables
  else if String.eqb s "pf" then Pf
  else if String.eqb s "cloudflare" then Cloudflare
  else if String.eqb s "nginx" then Nginx
  else if String.eqb s "container" then Container
  else if String.eqb s "sudo" then Sudo
  else Ufw.

Definition parse_response_type (s : option string) : ResponseType :=
  let s := default "block_ip" s in
  if String.eqb s "block_container" then BlockContainer
  else if String.eqb s "suspend_sudo" then SuspendSudo
  else if String.eqb s "rate_limit_nginx" then RateLimitNginx
  else if String.eqb s "kill_process" then KillProcess
  else BlockIp.

Definition parse_trigger (v : option Json) : option RevertTrigger :=
  match v ≫= as_str with
  | Some s => if String.eqb s "ttl_expired" then Some TtlExpired
              else if String.eqb s "manual" then Some Manual else None
  | None => None
  end.

(** Evaluate the reading of a key out of an object that is at hand. *)
Ltac json_read :=
  cbn [get assoc String.eqb Ascii.eqb Bool.eqb mbind option_bind as_str as_array from_option id].

Section Snapshot.
Context `{Chrono} `{Serde}.

Definition state_json (st : LifecycleState) : Json :=
  match st with
  | Active => JObj [("kind", JStr "active")]
  | RevertPending since trigger prior_attempts =>
      JObj [("kind", JStr "revert_pending"); ("since", JStr (serde_time since));
            ("trigger", JStr (trigger_name trigger)); ("prior_attempts", JInt prior_attempts)]
  | RevertFailed last_attempt_at attempts last_error trigger =>
      JObj [("kind", JStr "revert_failed"); ("last_attempt_at", JStr (serde_time last_attempt_at));
            ("attempts", JInt attempts); ("last_error", JStr last_error);
            ("trigger", JStr (trigger_name trigger))]
  end.

Definition opt_str (o : option string) : Json := match o with Some s => JStr s | None => JNull end.

Definition active_json (r : ActiveResponse) : Json :=
  JObj [("id", JStr (ar_id r)); ("type", JStr (response_type_name (ar_type r)));
        ("backend", JStr (backend_name (ar_backend r))); ("target", JStr (ar_target r));
        ("incident_id", JStr (ar_incident_id r)); ("created_at", JStr (to_rfc3339 (ar_created_at r)));
        ("expires_at", JStr (to_rfc3339 (ar_expires_at r))); ("ttl_secs", JInt (ar_ttl_secs r));
        ("revert_handle", opt_str (ar_revert_handle r)); ("state", state_json (ar_state r))].

Definition history_json (c : CompletedResponse) : Json :=
  JObj [("id", JStr (cr_id c)); ("type", JStr (response_type_name (cr_type c)));
        ("backend", JStr (backend_name (cr_backend c))); ("target", JStr (cr_target c));
        ("incident_id", JStr (cr_incident_id c)); ("created_at", JStr (to_rfc3339 (cr_created_at c)));
        ("reverted_at", JStr (to_rfc3339 (cr_reverted_at c))); ("reason", JStr (cr_reason c))].

Definition totals_json (lc : ResponseLifecycle) : Json :=
  JObj [("registered", JInt (total_registered lc)); ("expired", JInt (total_expired lc));
        ("reverted", JInt (total_reverted lc)); ("revert_failures", JInt (total_revert_failures lc));
        ("already_absent", JInt (total_already_absent lc)); ("orphaned", JInt (total_orphaned lc))].

Definition to_snapshot (lc : ResponseLifecycle) : Json :=
  JObj [("schema_version", JInt 2); ("next_id", JInt (lc_next_id lc));
        ("active", JArr (active_json <$> active lc)); ("history", JArr (history_json <$> history lc));
        ("totals", totals_json lc)].

(** ** Reading it back *)

Definition get_time (v : Json) (k : string) : option Z := get_str v k ≫= parse_utc.

(** A cast [as u32]. *)
Definition as_u32 (z : Z) : Z := wrap 32 z.

Definition parse_state_from_json (now : Z) (v : Json) : option LifecycleState :=
  match get_str v "kind" with
  | None => None
  | Some kind =>
      if String.eqb kind "active" then Some Active
      else if String.eqb kind "revert_pending" then
        Some (RevertPending (default now (get_time v "since"))
                (default TtlExpired (parse_trigger (get v "trigger")))
                (as_u32 (default 0 (get_u64 v "prior_attempts"))))
      else if String.eqb kind "revert_failed" then
        Some (RevertFailed (default now (get_time v "last_attempt_at"))
                (as_u32 (default 0 (get_u64 v "attempts")))
                (default "" (get_str v "last_error"))
                (default TtlExpired (parse_trigger (get v "trigger"))))
      else None
  end.

(** What both loaders do with one active item, given the identifier. *)
Definition load_active (now : Z) (item : Json) (id : string) : option ActiveResponse :=
  let target := default "" (get_str item "target") in
  let ty := parse_response_type (get_str item "type") in
  if String.eqb target "" then None
  else if bool_decide (ty = BlockIp) && negb (is_valid_block_target target) then None
  else
    let created_at := default now (get_time item "created_at") in
    let ttl_secs := default 3600 (get_i64 item "ttl_secs") in
    Some {| ar_id := id; ar_type := ty; ar_backend := parse_backend (get_str item "backend");
            ar_target := target; ar_incident_id := default "" (get_str item "incident_id");
            ar_created_at := created_at; ar_ttl_secs := ttl_secs;
            ar_expires_at := default (created_at + seconds ttl_secs) (get_time item "expires_at");
            ar_revert_handle := get_str item "revert_handle";
            ar_state := default Active (parse_state_from_json now (default JNull (get item "state"))) |}.

Definition load_history (now : Z) (backend : option string -> ResponseBackend)
  (ty : option string -> ResponseType) (item : Json) : option CompletedResponse :=
  let target := default "" (get_str item "target") in
  if String.eqb target "" then None
  else
    Some {| cr_id := default "" (get_str item "id"); cr_type := ty (get_str item "type");
            cr_backend := backend (get_str item "backend"); cr_target := target;
            cr_incident_id := default "" (get_str item "incident_id");
            cr_created_at := default now (get_time item "created_at");
            cr_reverted_at := default now (get_time item "reverted_at");
            cr_reason := default "expired" (get_str item "reason") |}.

Definition load_totals (lc : ResponseLifecycle) (registered_default : Z) (json : Json) : ResponseLifecycle :=
  match get json "totals" with
  | None => lc
  | Some totals =>
      {| active := active lc; history := history lc; lc_next_id := lc_next_id lc;
         total_registered := default registered_default (get_u64 totals "registered");
         total_reverted := default 0 (get_u64 totals "reverted");
         total_expired := default 0 (get_u64 totals "expired");
         total_revert_failures := default 0 (get_u64 totals "revert_failures");
         total_already_absent := default 0 (get_u64 totals "already_absent");
         total_orphaned := default 0 (get_u64 totals "orphaned"); verified_live := verified_live lc |}
  end.

Definition set_next_id (lc : ResponseLifecycle) (n : Z) : ResponseLifecycle :=
  {| active := active lc; history := history lc; lc_next_id := n;
     total_registered := total_registered lc; total_reverted := total_reverted lc;
     total_expired := total_expired lc; total_revert_failures := total_revert_failures lc;
     total_already_absent := total_already_absent lc; total_orphaned := total_orphaned lc;
     verified_live := verified_live lc |}.

Definition from_v2_value (now : Z) (json : Json) : option ResponseLifecycle :=
  if bool_decide (get_u64 json "schema_version" = Some 2) then
    let items k := default [] (get_array json k) in
    let lc := set_history
      (set_active ResponseLifecycle_new
         (omap (fun item => load_active now item (default "" (get_str item "id"))) (items "active")))
      (omap (load_history now parse_backend parse_response_type) (items "history")) in
    Some (set_next_id (load_totals lc 0 json) (default 1 (get_u64 json "next_id")))
  else None.

Definition from_v2_content (now : Z) (content : string) : option ResponseLifecycle :=
  json ← json_from_str content; from_v2_value now json.

(** The v1 loader: fresh identifiers, and a shorter list of names for the
    history. *)
Definition v1_history_backend (s : option string) : ResponseBackend :=
  let s := default "ufw" s in
  if String.eqb s "xdp" then Xdp
  else if String.eqb s "iptables" then Iptables
  else if String.eqb s "nftables" then Nftables
  else if String.eqb s "pf" then Pf
  else if String.eqb s "cloudflare" then Cloudflare
  else Ufw.

Definition v1_history_type (s : option string) : ResponseType :=
  let s := default "block_ip" s in
  if String.eqb s "block_container" then BlockContainer
  else if String.eqb s "suspend_sudo" then SuspendSudo
  else BlockIp.

Fixpoint load_v1_active (now : Z) (lc : ResponseLifecycle) (items : list Json) : ResponseLifecycle :=
  match items with
  | [] => lc
  | item :: items =>
      load_v1_active now
        (match load_active now item (resp_id (lc_next_id lc)) with
         | Some r => push_response lc r
         | None => lc
         end) items
  end.

Definition from_v1_value (now : Z) (json : Json) : ResponseLifecycle :=
  let lc := load_v1_active now ResponseLifecycle_new (default [] (get_array json "active")) in
  let lc := load_totals lc (total_registered lc) json in
  set_history lc (omap (load_history now v1_history_backend v1_history_type)
                    (default [] (get_array json "history"))).

(** ** Reconciling with the decisions *)

Definition skill_backend (skill_id : string) : ResponseBackend :=
  if contains "xdp" skill_id then Xdp
  else if contains "iptables" skill_id then Iptables
  else if contains "nftables" skill_id then Nftables
  else Ufw.

Definition HYDRATE_TTL : Z := 3600.

(** One decision: its time, address, incident and skill. *)
Definition hydrate_row (now : Z) (tracked : list string) (lc : ResponseLifecycle)
  (ts : Z) (ip incident_id skill_id : string) : ResponseLifecycle :=
  if String.eqb ip "" || mem_str ip tracked then lc
  else if negb (is_valid_block_target ip) then lc
  else if any (fun r => String.eqb (ar_target r) ip) (active lc) then lc
  else
    let expires_at := ts + seconds HYDRATE_TTL in
    if expires_at <=? now then lc
    else push_response lc
      {| ar_id := resp_id (lc_next_id lc); ar_type := BlockIp; ar_backend := skill_backend skill_id;
         ar_target := ip; ar_incident_id := incident_id; ar_created_at := ts; ar_ttl_secs := HYDRATE_TTL;
         ar_expires_at := expires_at; ar_revert_handle := None; ar_state := Active |}.

Definition row_skill (data_json : string) : string :=
  default "block-ip-ufw" (json_from_str data_json ≫= fun v => get_str v "skill_id").

Definition hydrate_sqlite_row (now : Z) (tracked : list string) (lc : ResponseLifecycle)
  (row : string * string * string * string) : ResponseLifecycle :=
  let '(ts_iso, ip, incident_id, data_json) := row in
  hydrate_row now tracked lc (default now (parse_utc ts_iso)) ip incident_id (row_skill data_json).

Definition hydrate_rows (now : Z) (lc : ResponseLifecycle) (rows : list (string * string * string * string))
  : ResponseLifecycle :=
  foldl (hydrate_sqlite_row now (ar_target <$> active lc)) lc rows.

(** The rows of a date, or none when the query fails. *)
Definition rows_of_date (db : Db) (date : string) : list (string * string * string * string) :=
  match block_ip_decisions_for_date db date with Ok rows => rows | Err _ => [] end.

(** [fmt_date]: the UTC date of an instant as text. *)
Definition hydrate_from_decisions_sqlite_at (fmt_date : Z -> string) (lc : ResponseLifecycle) (db : Db)
  (now : Z) : ResponseLifecycle :=
  hydrate_rows now lc
    (rows_of_date db (fmt_date (now - seconds 86400)) ++ rows_of_date db (fmt_date now)).

Definition hydrate_jsonl_line (now : Z) (tracked : list string) (lc : ResponseLifecycle) (line : string)
  : ResponseLifecycle :=
  if String.eqb line "" then lc
  else
    match json_from_str line with
    | None => lc
    | Some entry =>
        if bool_decide (get_str entry "action_type" = Some "block_ip") then
          match get_str entry "target_ip" with
          | None => lc
          | Some ip =>
              hydrate_row now tracked lc (default now (get_time entry "ts")) ip
                (default "" (get_str entry "incident_id")) (default "block-ip-ufw" (get_str entry "skill_id"))
          end
        else lc
    end.

Definition hydrate_from_decisions_jsonl (now : Z) (lc : ResponseLifecycle) (content : option string)
  : ResponseLifecycle :=
  match content with
  | None => lc
  | Some content => foldl (hydrate_jsonl_line now (ar_target <$> active lc)) lc (lines content)
  end.

(** ** Boot *)

(** The store of the agent: its snapshot blobs ([get_blob], with an error read
    as no blob) and its decisions. *)
Record BootStore := { bs_blob : string -> option string; bs_db : Db }.

Definition first_some {A} (a b : option A) : option A := match a with Some _ => a | None => b end.

Definition try_load_v2 (now : Z) (store : option BootStore) (file : string -> option string)
  : option ResponseLifecycle :=
  first_some (store ≫= fun s => bs_blob s "responses_snapshot" ≫= from_v2_content now)
             (file "responses.snapshot.json" ≫= from_v2_content now).

Definition v1_content (store : option BootStore) (file : string -> option string) : option string :=
  first_some (store ≫= fun s => bs_blob s "responses") (file "responses.json").

Definition reconcile (fmt_date fmt_local_date : Z -> string) (now : Z) (store : option BootStore)
  (file : string -> option string) (lc : ResponseLifecycle) : ResponseLifecycle :=
  match store with
  | Some s => hydrate_from_decisions_sqlite_at fmt_date lc (bs_db s) now
  | None => hydrate_from_decisions_jsonl now lc (file ("decisions-" +:+ fmt_local_date now +:+ ".jsonl"))
  end.

Definition load_snapshot (fmt_date fmt_local_date : Z -> string) (now : Z) (store : option BootStore)
  (file : string -> option string) : ResponseLifecycle :=
  match try_load_v2 now store file with
  | Some lc => reconcile fmt_date fmt_local_date now store file lc
  | None =>
      match v1_content store file with
      | None => ResponseLifecycle_new
      | Some content =>
          match json_from_str content with
          | None => ResponseLifecycle_new
          | Some json => reconcile fmt_date fmt_local_date now store file (from_v1_value now json)
          end
      end
  end.

(** ** The dashboard's view *)

Definition ENFORCEMENT_VERIFY_STALE_SECS : Z := 900.

Definition active_view (lc : ResponseLifecycle) (now : Z) (r : ActiveResponse) : Json :=
  let verified := verified_live lc !! ar_target r in
  JObj [("id", JStr (ar_id r)); ("type", JStr (response_type_name (ar_type r)));
        ("backend", JStr (backend_name (ar_backend r))); ("target", JStr (ar_target r));
        ("incident_id", JStr (ar_incident_id r)); ("created_at", JStr (to_rfc3339 (ar_created_at r)));
        ("expires_at", JStr (to_rfc3339 (ar_expires_at r))); ("ttl_secs", JInt (ar_ttl_secs r));
        ("remaining_secs", JInt (Z.max 0 (num_seconds (ar_expires_at r - now))));
        ("state", state_json (ar_state r)); ("last_verified_live", opt_str (to_rfc3339 <$> verified));
        ("enforcement_verified", JBool (match verified with
           | Some t => num_seconds (now - t) <? ENFORCEMENT_VERIFY_STALE_SECS | None => false end))].

Definition to_json (lc : ResponseLifecycle) (now : Z) : Json :=
  let '(n_active, n_pending, n_failed) := state_counts lc in
  let n := Z.of_nat (length (active lc)) in
  JObj [("active", JArr (active_view lc now <$> active lc)); ("active_count", JInt n);
        ("state_counts", JObj [("active", JInt n_active); ("revert_pending", JInt n_pending);
                               ("revert_failed", JInt n_failed)]);
        ("gauges", JObj [("active", JInt n); ("in_retry", JInt n_failed); ("pending", JInt n_pending);
                         ("orphaned", JInt (current_orphan_count lc))]);
        ("history", JArr (history_json <$> take 50 (reverse (history lc)))); ("totals", totals_json lc)].

(** ** Reading back what was written *)

(** An instant whose two texts chrono reads back. *)
Definition readable (t : Z) : Prop := parse_utc (to_rfc3339 t) = Some t /\ parse_utc (serde_time t) = Some t.

Definition readable_state (st : LifecycleState) : Prop :=
  match st with
  | Active => True
  | RevertPending since _ _ => readable since
  | RevertFailed at_ _ _ _ => readable at_
  end.

(** An entry a snapshot keeps: a target, an address if it is a block, a time to
    live in an [i64], readable instants. *)
Definition storable (r : ActiveResponse) : Prop :=
  ar_target r <> "" /\ (ar_type r = BlockIp -> is_valid_block_target (ar_target r) = true)
  /\ - 2 ^ 63 <= ar_ttl_secs r < 2 ^ 63 /\ readable (ar_created_at r) /\ readable (ar_expires_at r)
  /\ readable_state (ar_state r).

Definition storable_done (c : CompletedResponse) : Prop :=
  cr_target c <> "" /\ readable (cr_created_at c) /\ readable (cr_reverted_at c).

Lemma parse_backend_name b : parse_backend (Some (backend_name b)) = b.
Proof. by destruct b. Qed.
Lemma parse_type_name t : parse_response_type (Some (response_type_name t)) = t.
Proof. by destruct t. Qed.
Lemma parse_trigger_name t : parse_trigger (Some (JStr (trigger_name t))) = Some t.
Proof. by destruct t. Qed.

Lemma as_u32_small n : 0 <= n < MAX_REVERT_ATTEMPTS -> as_u32 (default 0 (as_u64 (JInt n))) = n.
Proof.
  intros Hn. unfold MAX_REVERT_ATTEMPTS in Hn. rewrite as_u64_int by (unfold in_width; lia). cbn.
  unfold as_u32. apply wrap_small. unfold in_width. lia.
Qed.

Lemma state_roundtrip now st :
  readable_state st -> 0 <= attempts_of st < MAX_REVERT_ATTEMPTS ->
  parse_state_from_json now (state_json st) = Some st.
Proof.
  intros Hr Ha. destruct st; [done| |]; unfold parse_state_from_json, get_time, get_u64, get_str, state_json;
    json_read; cbn in Hr, Ha;
    destruct Hr as [_ ->]; json_read; rewrite parse_trigger_name, as_u32_small by done; done.
Qed.

Lemma as_i64_int z : - 2 ^ 63 <= z < 2 ^ 63 -> as_i64 (JInt z) = Some z.
Proof. intros. unfold as_i64. rewrite (proj2 (Z.leb_le _ _)), (proj2 (Z.ltb_lt _ _)) by lia. done. Qed.

Lemma load_active_roundtrip now r :
  storable r -> 0 <= attempts_of (ar_state r) < MAX_REVERT_ATTEMPTS ->
  load_active now (active_json r) (default "" (get_str (active_json r) "id")) = Some r.
Proof.
  intros (Ht & Hv & Httl & [Hc _] & [He _] & Hs) Ha.
  unfold load_active, get_time, get_i64, get_str, active_json.
  json_read.
  rewrite parse_type_name, (proj2 (String.eqb_neq _ _) Ht), parse_backend_name, state_roundtrip, as_i64_int, Hc, He by done.
  json_read. assert (bool_decide (ar_type r = BlockIp) && negb (is_valid_block_target (ar_target r)) = false) as ->.
  { case_bool_decide; [by rewrite Hv|done]. }
  destruct r as [? ? ? ? ? ? ? ? [h|] ?]; done.
Qed.

Lemma load_history_roundtrip now c :
  storable_done c -> load_history now parse_backend parse_response_type (history_json c) = Some c.
Proof.
  intros (Ht & [Hc _] & [Hr _]). unfold load_history, get_time, get_str, history_json.
  json_read.
  rewrite (proj2 (String.eqb_neq _ _) Ht), parse_type_name, parse_backend_name, Hc, Hr. by destruct c.
Qed.

Lemma omap_roundtrip {A B} (f : A -> B) (g : B -> option A) l :
  Forall (fun x => g (f x) = Some x) l -> omap g (f <$> l) = l.
Proof. induction 1 as [|x l Hx _ IH]; [done|]. cbn. rewrite Hx. cbn. by f_equal. Qed.

Lemma load_totals_roundtrip lc lc0 k json :
  get json "totals" = Some (totals_json lc) ->
  in_width 64 (total_registered lc) -> in_width 64 (total_reverted lc) -> in_width 64 (total_expired lc) ->
  in_width 64 (total_revert_failures lc) -> in_width 64 (total_already_absent lc) ->
  in_width 64 (total_orphaned lc) ->
  load_totals lc0 k json =
  {| active := active lc0; history := history lc0; lc_next_id := lc_next_id lc0;
     total_registered := total_registered lc; total_reverted := total_reverted lc;
     total_expired := total_expired lc; total_revert_failures := total_revert_failures lc;
     total_already_absent := total_already_absent lc; total_orphaned := total_orphaned lc;
     verified_live := verified_live lc0 |}.
Proof.
  intros Ht H1 H2 H3 H4 H5 H6. unfold load_totals. rewrite Ht. unfold get_u64, totals_json.
  json_read. by rewrite !as_u64_int by done.
Qed.
End Snapshot.

(** ** What the reconciler adds *)

Section Hydrate.
Context `{Chrono} `{Serde}.

Definition targets (lc : ResponseLifecycle) : list string := ar_target <$> active lc.

(** A row the reconciler should pick up. *)
Definition wanted (now : Z) (row : string * string * string * string) : Prop :=
  let '(ts_iso, ip, _, _) := row in
  is_valid_block_target ip = true /\ now < default now (parse_utc ts_iso) + seconds HYDRATE_TTL.

(** What holds of every response it adds. *)
Definition added_ok (now : Z) (lc0 : ResponseLifecycle) (r : ActiveResponse) : Prop :=
  live_block r now = true /\ is_valid_block_target (ar_target r) = true /\ ar_target r ∉ targets lc0.

Lemma valid_target_nonempty ip : is_valid_block_target ip = true -> ip <> "".
Proof. by intros Hv ->. Qed.

Lemma untracked_any ip l :
  any (fun r => String.eqb (ar_target r) ip) l = bool_decide (ip ∈ ar_target <$> l).
Proof.
  unfold any. induction l as [|r l IH]; [done|]. cbn [List.existsb]. rewrite IH.
  destruct (String.eqb_spec (ar_target r) ip) as [E|E]; cbn [orb].
  - symmetry. apply bool_decide_eq_true. rewrite fmap_cons, E. set_solver.
  - apply bool_decide_ext. rewrite fmap_cons. set_solver.
Qed.

(** One row, by cases: it is skipped for a reason, or pushed. *)
Lemma hydrate_row_cases now tracked lc row :
  let lc' := hydrate_sqlite_row now tracked lc row in
  let ip := snd (fst (fst row)) in
  lc' = lc /\ (wanted now row -> ip ∈ tracked \/ ip ∈ targets lc)
  \/ exists r, lc' = push_response lc r /\ ar_id r = resp_id (lc_next_id lc) /\ ar_target r = ip
       /\ live_block r now = true /\ is_valid_block_target ip = true /\ (ip ∉ tracked) /\ (ip ∉ targets lc).
Proof.
  destruct row as [[[ts_iso ip] incident] data]. cbn [hydrate_sqlite_row fst snd wanted]. unfold hydrate_row.
  destruct (String.eqb_spec ip "") as [->|Hne]; [by left; split; [|by intros [? _]]|]. cbn [orb].
  unfold mem_str. case_bool_decide as Ht; [by left; split; [|left]|].
  destruct (is_valid_block_target ip) eqn:Hv; cbn [negb]; [|by left; split; [|by intros [? _]]].
  rewrite untracked_any. case_bool_decide as Ha; [by left; split; [|right]|].
  destruct (Z.leb_spec (default now (parse_utc ts_iso) + seconds HYDRATE_TTL) now) as [He|He].
  - left. split; [done|]. lia.
  - right. eexists. split; [reflexivity|]. cbn. split_and!; try done.
    unfold live_block. cbn. by rewrite (proj2 (Z.ltb_lt _ _)).
Qed.

Lemma hydrate_fold now tracked rows : forall lc,
  ids_ok lc -> lc_next_id lc + Z.of_nat (length rows) < u64_max ->
  let lc' := foldl (hydrate_sqlite_row now tracked) lc rows in
  ids_ok lc' /\ exists added, active lc' = active lc ++ added /\ NoDup (ar_target <$> added)
  /\ Forall (fun r => live_block r now = true /\ is_valid_block_target (ar_target r) = true
                     /\ (ar_target r ∉ tracked) /\ (ar_target r ∉ targets lc)) added
  /\ forall row, row ∈ rows -> wanted now row ->
       snd (fst (fst row)) ∈ tracked \/ snd (fst (fst row)) ∈ targets lc'.
Proof.
  induction rows as [|row rows IH]; intros lc Hok Hn; cbn [foldl length] in *.
  - split; [done|]. exists []. rewrite app_nil_r. split_and!; [done|constructor|constructor|set_solver].
  - destruct (hydrate_row_cases now tracked lc row) as
      [[E Hw]|(r & E & Hid & Htg & Hl & Hv & Ht & Ha)]; rewrite E.
    + destruct (IH lc Hok ltac:(lia)) as (Hok' & added & Ea & Hd & Hf & Hall). split; [done|].
      exists added. split_and!; [done..|]. intros row' [->|Hin]%elem_of_cons Hw'; [|by apply Hall].
      destruct (Hw Hw'); [by left|]. right. unfold targets in *. rewrite Ea, fmap_app. set_solver.
    + pose proof (next_pos _ Hok) as Hp.
      assert (ids_ok (push_response lc r)) as Hok1 by (apply push_response_ids; [done|lia|done]).
      destruct (IH (push_response lc r) Hok1) as (Hok' & added & Ea & Hd & Hf & Hall).
      { cbn [push_response lc_next_id]. rewrite (incr_small _ (lc_next_id lc)); unfold u64_max in *; lia. }
      split; [done|]. cbn [push_response active] in Ea. rewrite <- app_assoc in Ea. exists (r :: added).
      unfold targets in *. cbn [push_response active] in Hf. rewrite fmap_app in Hf. rewrite Forall_forall in Hf.
      split_and!; [done| | |].
      * rewrite fmap_cons. apply NoDup_cons. split; [|done]. intros (x & Ex & Hx)%list_elem_of_fmap.
        destruct (Hf x Hx) as (_ & _ & _ & Hx'). rewrite <- Ex in Hx'. set_solver.
      * apply Forall_cons. rewrite Htg. split; [done|]. apply Forall_forall. intros x Hx.
        destruct (Hf x Hx) as (? & ? & ? & Hx'). split_and!; [done..|]. set_solver.
      * intros row' [->|Hin]%elem_of_cons Hw'; [|by apply Hall]. right.
        rewrite Ea, fmap_app. cbn. rewrite Htg. set_solver.
Qed.

Lemma rows_of_date_elem db date r :
  db_usable db = true -> r ∈ decisions db -> r_action_type r = "block_ip" -> like (date +:+ "%") (r_ts r) = true ->
  (r_ts r, default "" (r_target_ip r), r_incident_id r, r_data r) ∈ rows_of_date db date.
Proof.
  intros Hu Hr Ha Hl. unfold rows_of_date, block_ip_decisions_for_date, db_conn. rewrite Hu.
  apply list_elem_of_fmap. exists r. split; [done|]. apply retain_elem. by rewrite Ha, Hl.
Qed.

Lemma targets_blocked lc ip now r :
  r ∈ active lc -> ar_target r = ip -> live_block r now = true -> is_ip_actively_blocked lc ip now = true.
Proof.
  intros Hr <- Hl. apply any_true. exists r. by rewrite Hl, String.eqb_refl.
Qed.

(** ** The properties *)


(** After boot, reconciling with the decisions of the store keeps the
    identifiers unique and the old entries, adds only live blocks of valid
    addresses that were not tracked, each address once, and misses none of the
    block decisions of today and yesterday whose hour is not over. *)
Theorem reconcile_exact fmt_date lc db now :
  let rows := rows_of_date db (fmt_date (now - seconds 86400)) ++ rows_of_date db (fmt_date now) in
  ids_ok lc -> lc_next_id lc + Z.of_nat (length rows) < u64_max ->
  let lc' := hydrate_from_decisions_sqlite_at fmt_date lc db now in
  ids_ok lc'
  /\ (exists added, active lc' = active lc ++ added /\ NoDup (ar_target <$> added)
        /\ Forall (added_ok now lc) added)
  /\ (forall row, row ∈ rows -> wanted now row -> snd (fst (fst row)) ∈ targets lc').
Proof.
  intros rows Hok Hn lc'.
  destruct (hydrate_fold now (targets lc) rows lc Hok Hn) as (Hok' & added & Ea & Hd & Hf & Hall).
  change (foldl _ _ _) with lc' in Hok', Ea, Hall. split_and!; [done| |].
  - exists added. split_and!; [done..|]. eapply Forall_impl; [exact Hf|]. intros r (? & ? & ? & _). done.
  - intros row Hr Hw. destruct (Hall row Hr Hw) as [Ht|Ht]; [|done].
    unfold targets in *. rewrite Ea, fmap_app. set_solver.
Qed.

(** The reconciler does not ask whether a decision was carried out: a
    block_ip decision that was recorded but not executed, like one made in
    dry-run mode or refused by a safety gate, makes its address count as
    actively blocked after a restart within the hour. *)
Theorem unexecuted_block_hydrated fmt_date db now r ip t :
  let rows := rows_of_date db (fmt_date (now - seconds 86400)) ++ rows_of_date db (fmt_date now) in
  Z.of_nat (length rows) < u64_max - 1 -> db_usable db = true ->
  r ∈ decisions db -> r_auto_executed r = false -> r_action_type r = "block_ip" ->
  r_target_ip r = Some ip -> is_valid_block_target ip = true ->
  like (fmt_date now +:+ "%") (r_ts r) = true -> parse_utc (r_ts r) = Some t -> now < t + seconds 3600 ->
  is_ip_actively_blocked (hydrate_from_decisions_sqlite_at fmt_date ResponseLifecycle_new db now) ip now = true.
Proof.
  intros rows Hn Hu Hr _ Ha Htg Hv Hl Ht Hnow.
  destruct (hydrate_fold now [] rows ResponseLifecycle_new new_ids_ok ltac:(cbn; lia))
    as (_ & added & Ea & _ & Hf & Hall).
  destruct (Hall (r_ts r, default "" (r_target_ip r), r_incident_id r, r_data r)) as [Hin|Hin].
  - apply elem_of_app. right. by apply rows_of_date_elem.
  - rewrite Htg. cbn. by rewrite Ht.
  - by apply elem_of_nil in Hin.
  - rewrite Htg in Hin. cbn in Hin. unfold targets in Hin. rewrite Ea in Hin. cbn in Hin.
    apply list_elem_of_fmap in Hin as (x & Ex & Hx). rewrite Forall_forall in Hf.
    eapply targets_blocked; [|by symmetry in Ex|by apply Hf]. unfold hydrate_from_decisions_sqlite_at, hydrate_rows.
    cbn [fmap list_fmap active ResponseLifecycle_new]. fold rows. rewrite Ea. done.
Qed.
End Hydrate.

(** ** The properties at concrete inputs *)

Section StoreWitnesses.

(** Instants as decimal numbers, and a reader that knows one text. *)
#[local] Instance demo_chrono : Chrono :=
  {| parse_utc := parse_uint 64; to_rfc3339 := show; fmt_minute := show |}.
#[local] Instance writer_serde : Serde := {| serde_time := show; json_from_str := fun _ => None |}.
#[local] Instance ascii_lowercase : Lowercase := {| to_lowercase := to_ascii_lowercase |}.

Definition stored_ops : list LifecycleOp :=
  [Register 0 BlockIp Ufw "203.0.113.7" "inc-1" 60 None;
   Register 0 BlockIp Nftables "2001:db8::1" "inc-2" 60 (Some "42");
   Register 0 BlockContainer Container "web" "inc-3" 60 None;
   Stage 61; MarkFailed 62 "resp-1" "resource busy"; MarkReverted 63 "resp-3" "expired"].
Definition stored_lifecycle : ResponseLifecycle := foldl apply_lifecycle_op ResponseLifecycle_new stored_ops.
Definition stored_json : Json := to_snapshot stored_lifecycle.

#[local] Instance reader_serde : Serde := {| serde_time := show; json_from_str := fun _ => Some stored_json |}.

(** Evaluate the list a [Forall] is about. *)
Ltac concrete_list :=
  match goal with |- Forall _ ?l =>
    let v := eval vm_compute in l in replace l with v by (vm_compute; reflexivity) end.


(** A decision that was recorded and not executed. *)
Definition dry_row : Row :=
  {| r_id := 1; r_ts := "100"; r_incident_id := "inc-1"; r_action_type := "block_ip";
     r_target_ip := Some "203.0.113.7"; r_target_user := None; r_confidence := None; r_auto_executed := false;
     r_reason := None; r_prev_hash := None; r_row_hash := ""; r_data := "{}" |}.
Definition dry_db : Db := {| db_usable := true; decisions := [dry_row]; chain_break_audit := [] |}.
Definition demo_date (t : Z) : string := "1".

Lemma reconcile_exact_witness :
  wanted 200 ("100", "203.0.113.7", "inc-1", "{}")
  /\ "203.0.113.7" ∈ targets (hydrate_from_decisions_sqlite_at demo_date ResponseLifecycle_new dry_db 200).
Proof.
  split; [by vm_compute|].
  destruct (reconcile_exact demo_date ResponseLifecycle_new dry_db 200) as (_ & _ & T);
    [apply new_ids_ok|by vm_compute|].
  apply (T ("100", "203.0.113.7", "inc-1", "{}")); [vm_compute; left|by vm_compute].
Defined.

Lemma unexecuted_block_hydrated_witness :
  r_auto_executed dry_row = false
  /\ is_ip_actively_blocked (hydrate_from_decisions_sqlite_at demo_date ResponseLifecycle_new dry_db 200)
       "203.0.113.7" 200 = true.
Proof.
  split; [done|].
  apply (unexecuted_block_hydrated demo_date dry_db 200 dry_row "203.0.113.7" 100); try (by vm_compute).
  vm_compute. left.
Defined.
End StoreWitnesses.
