(* ===== verification/AgentCooldown.v ===== *)
(** * AgentCooldown: cooldowns and block counts of the agent
    (crates/agent/src/decision_cooldown.rs, the cooldown and block-count
    methods of state_store.rs)

    A decision writes the key action:detector:kind:entity with its instant into
    the key-value store; the next incident of the same scope is looked up by
    every key it could have written.  The store is known through the interface
    of StoreKv.v.  Proved here: keys do not collide, a cooldown reads back to
    the millisecond, the hourly sweep removes exactly the entries at or below
    its cutoff, and some of the keys that are written are never looked up. *)

From Stdlib Require Import ZArith Lia Ascii String.
From stdpp Require Import prelude strings list gmap sorting.
From S2P Require Import Prelude Text Json CoreTypes StoreKv.

Local Open Scope string_scope.
Local Open Scope list_scope.
Local Open Scope Z_scope.

(** ** Keys *)

Definition DECISION_COOLDOWN_SECS : Z := 3600.
Definition NOTIFICATION_COOLDOWN_SECS : Z := 600.
Definition DECISION_COOLDOWN_RETENTION_SECS : Z := 86400.
Definition NOTIFICATION_COOLDOWN_RETENTION_SECS : Z := 7200.

(** The actions an AI decision can take ([ai::AiAction]). *)
Inductive AiAction : Type :=
| ABlockIp (ip skill_id : string)
| AMonitor (ip : string)
| AHoneypot (ip : string)
| ASuspendUserSudo (user : string) (duration_secs : Z)
| AKillProcess (user : string) (duration_secs : Z)
| ABlockContainer (container_id action : string)
| ARequestConfirmation (summary : string)
| AKillChainResponse (reason : string)
| AIgnore (reason : string)
| ADismiss (reason : string).

Definition incident_detector (incident_id : string) : string := first_piece ":" incident_id.

Definition decision_cooldown_key (action detector entity_kind entity : string) : string :=
  action +:+ ":" +:+ detector +:+ ":" +:+ entity_kind +:+ ":" +:+ entity.

Definition notification_cooldown_keys (incident : Incident) : list string :=
  let detector := incident_detector (in_incident_id incident) in
  omap (fun e => match e_type e with
                 | EIp => Some (detector +:+ ":ip:" +:+ e_value e)
                 | EUser => Some (detector +:+ ":user:" +:+ e_value e)
                 | _ => None
                 end) (in_entities incident).

Definition entity_cooldown_keys (detector : string) (e : EntityRef) : list string :=
  match e_type e with
  | EIp => [decision_cooldown_key "block_ip" detector "ip" (e_value e);
            decision_cooldown_key "monitor" detector "ip" (e_value e);
            decision_cooldown_key "honeypot" detector "ip" (e_value e)]
  | EUser => [decision_cooldown_key "suspend_user_sudo" detector "user" (e_value e)]
  | _ => []
  end.

Definition decision_cooldown_candidates (incident : Incident) : list string :=
  flat_map (entity_cooldown_keys (incident_detector (in_incident_id incident))) (in_entities incident).

Definition decision_cooldown_key_for_decision (incident : Incident) (action : AiAction) : option string :=
  let detector := incident_detector (in_incident_id incident) in
  match action with
  | ABlockIp ip _ => Some (decision_cooldown_key "block_ip" detector "ip" ip)
  | AMonitor ip => Some (decision_cooldown_key "monitor" detector "ip" ip)
  | AHoneypot ip => Some (decision_cooldown_key "honeypot" detector "ip" ip)
  | ASuspendUserSudo user _ => Some (decision_cooldown_key "suspend_user_sudo" detector "user" user)
  | AKillProcess user _ => Some (decision_cooldown_key "kill_process" detector "user" user)
  | ABlockContainer container_id _ =>
      Some (decision_cooldown_key "block_container" detector "container" container_id)
  | AKillChainResponse _ => Some (decision_cooldown_key "kill_chain_response" detector "pid" "-")
  | AIgnore _ | ADismiss _ | ARequestConfirmation _ => None
  end.

(** The same key out of a logged decision: its action, target address and
    target user. *)
Definition decision_cooldown_key_from_entry (incident_id action_type : string)
  (target_ip target_user : option string) : option string :=
  let detector := incident_detector incident_id in
  if String.eqb action_type "block_ip" || String.eqb action_type "monitor" || String.eqb action_type "honeypot"
  then (fun ip => decision_cooldown_key action_type detector "ip" ip) <$> target_ip
  else if String.eqb action_type "suspend_user_sudo"
  then (fun user => decision_cooldown_key "suspend_user_sudo" detector "user" user) <$> target_user
  else None.

(** ** The store *)

Inductive CooldownTable : Type := TDecision | TNotification.

#[export] Instance cooldown_table_eq_dec : EqDecision CooldownTable.
Proof. solve_decision. Defined.

Definition namespace (t : CooldownTable) : string :=
  match t with TDecision => "decision_cooldowns" | TNotification => "notification_cooldowns" end.

Definition NS_BLOCK_COUNTS : string := "block_counts".

(** The instants chrono can represent, in milliseconds. *)
Definition MIN_MS : Z := -8334601228800000.
Definition MAX_MS : Z := 8210266876799999.
Definition from_timestamp_millis_opt (ms : Z) : option Z :=
  if (MIN_MS <=? ms) && (ms <=? MAX_MS) then Some (from_timestamp_millis ms) else None.

(** [i64::from_le_bytes], for a value of eight bytes. *)
Definition le_i64 (bytes : string) : option Z :=
  if (String.length bytes =? 8)%nat then Some (as_signed 64 (le_value bytes)) else None.

(** What a listing of the store promises its clients. *)
Class KvListing (S : Type) := { kvi_list : S -> string -> result (list (string * string)) StoreError }.
Class KvListingLaws (S : Type) `{KvLaws S} `{!KvListing S} := {
  kvi_list_get : forall s ns, kv_ok s -> exists l, kvi_list s ns = Ok l /\ NoDup l.*1 /\
    forall k v, (k, v) ∈ l <-> kvi_get s ns k = Ok (Some v)
}.

Section Cooldowns.
Context {S : Type} `{KvStore S} `{!KvListing S}.

Definition get_cooldown (s : S) (t : CooldownTable) (key : string) : option Z :=
  match kvi_get s (namespace t) key with
  | Ok (Some bytes) => le_i64 bytes ≫= from_timestamp_millis_opt
  | Ok None => None
  | Err _ => None
  end.

(** [clk] is the clock's text, which the store writes beside the value. *)
Definition set_cooldown (s : S) (clk : string) (t : CooldownTable) (key : string) (ts : Z) : S :=
  (kvi_set s clk (namespace t) key (le_bytes 8 (timestamp_millis ts)) None).1.

Definition has_cooldown (s : S) (t : CooldownTable) (key : string) : bool :=
  match get_cooldown s t key with Some _ => true | None => false end.

Definition sweep_entry (t : CooldownTable) (cutoff_ms : Z) (s : S) (kv : string * string) : S :=
  match le_i64 kv.2 with
  | Some ms => if ms <=? cutoff_ms then (kvi_delete s (namespace t) kv.1).1 else s
  | None => s
  end.

Definition retain_cooldowns (s : S) (t : CooldownTable) (cutoff : Z) : S :=
  match kvi_list s (namespace t) with
  | Err _ => s
  | Ok entries => foldl (sweep_entry t (timestamp_millis cutoff)) s entries
  end.

Definition get_block_count (s : S) (ip : string) : Z :=
  match kvi_get s NS_BLOCK_COUNTS ip with
  | Ok (Some bytes) => if (String.length bytes =? 4)%nat then le_value bytes else 0
  | _ => 0
  end.

Definition increment_block_count (s : S) (clk ip : string) : S * Z :=
  let new_count := wrapping_add 32 (get_block_count s ip) 1 in
  ((kvi_set s clk NS_BLOCK_COUNTS ip (le_bytes 4 new_count) None).1, new_count).
End Cooldowns.

#[export] Instance Store_listing : KvListing Store := {| kvi_list := kv_list |}.

#[export] Program Instance Store_listing_laws : KvListingLaws Store.
Next Obligation.
  intros s ns Hs. exists ((fun kr => (kr.1, kr_value kr.2)) <$> merge_sort key_le (ns_rows s ns)).
  cbn in Hs. cbn [kvi_list Store_listing kvi_get Store_kv]. unfold kv_list, kv_get, with_conn. rewrite Hs.
  split_and!; [done| |].
  - rewrite <- list_fmap_compose, merge_sort_Permutation. exact (ns_rows_NoDup s ns).
  - intros k v. rewrite list_elem_of_fmap. split.
    + intros ([k' r] & E & Hin). cbn in E. simplify_eq. rewrite merge_sort_Permutation in Hin.
      apply ns_rows_elem in Hin. by rewrite Hin.
    + intros E. destruct (kv_state s !! (ns, k)) as [r|] eqn:L; cbn in E; [|done]. simplify_eq.
      exists (k, r). split; [done|]. rewrite merge_sort_Permutation. by apply ns_rows_elem.
Qed.

(** ** Keys do not collide *)

Fixpoint free_of (c : ascii) (s : string) : bool :=
  match s with EmptyString => true | String a r => negb (Ascii.eqb a c) && free_of c r end.

Lemma cut_at_inj c a a' r r' :
  free_of c a = true -> free_of c a' = true -> a +:+ String c r = a' +:+ String c r' -> a = a' /\ r = r'.
Proof.
  revert a'. induction a as [|x a IH]; intros [|x' a'] Ha Ha' E; cbn in *; bool_to_prop; simplify_eq; try done.
  - by rewrite Ascii.eqb_refl in *.
  - by rewrite Ascii.eqb_refl in *.
  - destruct (IH a') as [-> ->]; done.
Qed.

Lemma first_piece_free c s : free_of c (first_piece c s) = true.
Proof.
  unfold first_piece. induction s as [|x s IH]; [done|]. cbn [split_on].
  destruct (Ascii.eqb x c) eqn:E; [done|]. destruct (split_on c s) as [|p ps] eqn:Es; cbn in *; by rewrite E.
Qed.

Lemma detector_free id : free_of ":" (incident_detector id) = true.
Proof. apply first_piece_free. Qed.

Lemma cooldown_key_inj a d k e a' d' k' e' :
  free_of ":" a = true -> free_of ":" a' = true -> free_of ":" d = true -> free_of ":" d' = true ->
  free_of ":" k = true -> free_of ":" k' = true ->
  decision_cooldown_key a d k e = decision_cooldown_key a' d' k' e' -> a = a' /\ d = d' /\ k = k' /\ e = e'.
Proof.
  intros Ha Ha' Hd Hd' Hk Hk' E. apply cut_at_inj in E as [-> E]; [|done..].
  apply cut_at_inj in E as [-> E]; [|done..]. by apply cut_at_inj in E as [-> E].
Qed.

(** A candidate key of an incident, taken apart. *)
Lemma candidate_elem incident key :
  key ∈ decision_cooldown_candidates incident <->
  exists e action kind, e ∈ in_entities incident
    /\ key = decision_cooldown_key action (incident_detector (in_incident_id incident)) kind (e_value e)
    /\ (e_type e = EIp /\ kind = "ip" /\ action ∈ ["block_ip"; "monitor"; "honeypot"]
        \/ e_type e = EUser /\ kind = "user" /\ action = "suspend_user_sudo").
Proof.
  unfold decision_cooldown_candidates. rewrite list_elem_of_In, in_flat_map. split.
  - intros (e & He & Hk). apply list_elem_of_In in He. apply list_elem_of_In in Hk. unfold entity_cooldown_keys in Hk.
    destruct (e_type e) eqn:Et; try (by apply elem_of_nil in Hk).
    + rewrite !elem_of_cons in Hk. destruct Hk as [->|[->|[->|Hk]]]; [| | |by apply elem_of_nil in Hk];
        do 3 eexists; (split; [exact He|]); (split; [reflexivity|]); left; set_solver.
    + apply list_elem_of_singleton in Hk as ->. do 3 eexists. split; [exact He|]. split; [reflexivity|]. by right.
  - intros (e & action & kind & He & -> & Hc). exists e. rewrite <- !list_elem_of_In. split; [done|].
    unfold entity_cooldown_keys. destruct Hc as [(-> & -> & Ha)|(-> & -> & ->)]; [|set_solver].
    rewrite !elem_of_cons in Ha. destruct Ha as [->|[->|[->|Ha]]]; [set_solver..|by apply elem_of_nil in Ha].
Qed.

(** ** Values read back *)

Lemma le_i64_bytes z : - 2 ^ 63 <= z < 2 ^ 63 -> le_i64 (le_bytes 8 z) = Some z.
Proof.
  intros Hz. unfold le_i64. rewrite le_bytes_length, le_value_bytes. cbn [Nat.eqb]. f_equal.
  change (256 ^ Z.of_nat 8) with (2 ^ 64). unfold as_signed. change (2 ^ (64 - 1)) with (2 ^ 63).
  destruct (Z.ltb_spec z 0).
  - replace (z mod 2 ^ 64) with (z + 2 ^ 64) by (symmetry; rewrite <- (Z.mod_add z 1), Z.mod_small; lia).
    rewrite (proj2 (Z.ltb_ge _ _)) by lia. lia.
  - rewrite Z.mod_small by lia. by rewrite (proj2 (Z.ltb_lt _ _)) by lia.
Qed.

(** An instant chrono can represent. *)
Definition chrono_instant (t : Z) : Prop := MIN_MS <= timestamp_millis t <= MAX_MS.

(** The instant a cooldown reads back as: [t] cut to the millisecond. *)
Definition to_millis (t : Z) : Z := from_timestamp_millis (timestamp_millis t).

Lemma to_millis_close t : to_millis t <= t < to_millis t + NANOS_PER_MILLI.
Proof.
  unfold to_millis, from_timestamp_millis, timestamp_millis, NANOS_PER_MILLI.
  pose proof (Z.div_mod t 1000000 ltac:(lia)). pose proof (Z.mod_pos_bound t 1000000 ltac:(lia)). lia.
Qed.

Section Laws.
Context {S : Type} `{KvListingLaws S}.

Lemma get_set_cooldown (s : S) clk t key ts t' key' :
  kv_ok s -> chrono_instant ts ->
  get_cooldown (set_cooldown s clk t key ts) t' key' =
  if bool_decide (t' = t /\ key' = key) then Some (to_millis ts) else get_cooldown s t' key'.
Proof.
  intros Hs Hts. unfold get_cooldown, set_cooldown. rewrite kvi_get_set by done.
  assert (bool_decide ((namespace t', key') = (namespace t, key)) = bool_decide (t' = t /\ key' = key)) as ->.
  { apply bool_decide_ext. destruct t, t'; cbn; naive_solver. }
  case_bool_decide; [|done]. unfold chrono_instant, MIN_MS, MAX_MS in Hts.
  rewrite le_i64_bytes by lia. cbn [mbind option_bind]. unfold from_timestamp_millis_opt, MIN_MS, MAX_MS.
  by rewrite (proj2 (Z.leb_le _ _)), (proj2 (Z.leb_le _ _)) by lia.
Qed.
(** The sweep at the level of the store. *)
Definition doomed (cutoff_ms : Z) (v : string) : bool :=
  match le_i64 v with Some ms => ms <=? cutoff_ms | None => false end.

Lemma sweep_entry_get t c (s : S) kv :
  kv_ok s -> kv_ok (sweep_entry t c s kv) /\
  forall ns k, kvi_get (sweep_entry t c s kv) ns k =
    if bool_decide ((ns, k) = (namespace t, kv.1)) && doomed c kv.2 then Ok None else kvi_get s ns k.
Proof.
  intros Hs. unfold sweep_entry, doomed. destruct (le_i64 kv.2) as [ms|];
    [|split; [done|]; intros; by rewrite andb_false_r].
  destruct (ms <=? c); [|split; [done|]; intros; by rewrite andb_false_r].
  split; [by apply kvi_delete_ok|]. intros ns k. rewrite kvi_get_delete by done. by rewrite andb_true_r.
Qed.

Lemma sweep_get t c l : forall s : S, kv_ok s ->
  let s' := foldl (sweep_entry t c) s l in
  kv_ok s' /\ forall ns k,
    kvi_get s' ns k = if any (fun kv => bool_decide ((ns, k) = (namespace t, kv.1)) && doomed c kv.2) l
                      then Ok None else kvi_get s ns k.
Proof.
  induction l as [|kv l IH]; intros s Hs; cbn [foldl]; [done|].
  destruct (sweep_entry_get t c s kv Hs) as [Hs1 Hg]. destruct (IH _ Hs1) as [Hs' Hg']. split; [done|].
  intros ns k. rewrite Hg', Hg. unfold any. cbn [List.existsb].
  by destruct (bool_decide _ && doomed c kv.2), (List.existsb _ l).
Qed.

(** What the sweep leaves of a cooldown. *)
Definition kept (cutoff : Z) (o : option Z) : option Z :=
  match o with
  | Some ts => if timestamp_millis ts <=? timestamp_millis cutoff then None else Some ts
  | None => None
  end.

Lemma timestamp_millis_from ms : timestamp_millis (from_timestamp_millis ms) = ms.
Proof.
  unfold timestamp_millis, from_timestamp_millis, NANOS_PER_MILLI. apply Z.div_mul. lia.
Qed.

Lemma retain_cooldowns_get (s : S) t cutoff t' key :
  kv_ok s ->
  get_cooldown (retain_cooldowns s t cutoff) t' key =
  if bool_decide (t' = t) then kept cutoff (get_cooldown s t' key) else get_cooldown s t' key.
Proof.
  intros Hs. unfold retain_cooldowns. destruct (kvi_list_get s (namespace t) Hs) as (l & -> & _ & Hl).
  destruct (sweep_get t (timestamp_millis cutoff) l s Hs) as [_ Hg]. unfold get_cooldown at 1.
  rewrite Hg. clear Hg. destruct (any _ l) eqn:Ea.
  - apply any_true in Ea as ([k v] & Hin & Hd). apply andb_true_iff in Hd as [Hk Hd].
    apply bool_decide_eq_true in Hk. cbn in Hk, Hd. simplify_eq.
    assert (t' = t) as -> by (by destruct t, t'). rewrite bool_decide_eq_true_2 by done.
    apply Hl in Hin. unfold get_cooldown. rewrite Hin. unfold doomed in Hd. destruct (le_i64 v) as [ms|]; [|done].
    cbn [mbind option_bind]. unfold from_timestamp_millis_opt. case_match; [|done]. cbn [kept].
    by rewrite timestamp_millis_from, Hd.
  - case_bool_decide as Et; [subst t'|done]. unfold get_cooldown.
    destruct (kvi_get s (namespace t) key) as [[v|]|] eqn:Eg; [|done..].
    apply Hl in Eg. unfold from_timestamp_millis_opt. destruct (le_i64 v) as [ms|] eqn:Ev; [|done].
    cbn [mbind option_bind]. case_match; [|done]. cbn [kept]. rewrite timestamp_millis_from.
    destruct (ms <=? timestamp_millis cutoff) eqn:Em; [|done]. exfalso.
    apply not_true_iff_false in Ea. apply Ea, any_true. exists (key, v). split; [done|].
    rewrite bool_decide_eq_true_2 by done. cbn. unfold doomed. by rewrite Ev.
Qed.

(** ** The properties *)

(** The cooldown table keeps its word: right after a decision its
    instant reads back, to the millisecond, under its own key and no other
    entry of either table changes; a sweep with a cutoff removes exactly the
    entries of that table that are not later than it, to the millisecond. *)
Theorem cooldown_table_exact (s : S) clk t key ts cutoff t' key' :
  kv_ok s -> chrono_instant ts ->
  get_cooldown (set_cooldown s clk t key ts) t' key' =
    (if bool_decide (t' = t /\ key' = key) then Some (to_millis ts) else get_cooldown s t' key')
  /\ get_cooldown (retain_cooldowns s t cutoff) t' key' =
    (if bool_decide (t' = t) then kept cutoff (get_cooldown s t' key') else get_cooldown s t' key').
Proof. intros Hs Hts. split; [by apply get_set_cooldown|by apply retain_cooldowns_get]. Qed.
End Laws.

(** The scope of an action with a key that incidents look up: the kind and
    value of the entity. *)
Definition looked_up (a : AiAction) : option EntityRef :=
  match a with
  | ABlockIp ip _ | AMonitor ip | AHoneypot ip => Some (entity_ip ip)
  | ASuspendUserSudo user _ => Some (entity_user user)
  | _ => None
  end.

(** The key of an action on an entity of an incident is one the incident looks
    up. *)
Lemma looked_up_candidate i1 i2 a key e :
  decision_cooldown_key_for_decision i1 a = Some key ->
  incident_detector (in_incident_id i1) = incident_detector (in_incident_id i2) ->
  looked_up a = Some e -> e ∈ in_entities i2 -> key ∈ decision_cooldown_candidates i2.
Proof.
  intros Hk Ed Hl He. rewrite candidate_elem, <- Ed.
  destruct a; cbn in Hl, Hk; simplify_eq; do 3 eexists; (split; [exact He|]); (split; [reflexivity|]);
    first [right; done|left; cbn; set_solver].
Qed.

(** A decision suppresses exactly its own scope: the key it writes is
    among those a later incident looks up if and only if the action is a block,
    monitor, honeypot or sudo suspension, the detector is the same and the
    incident names the same entity.  So the cooldowns written for a killed
    process, a paused container or a kill-chain response suppress nothing. *)
Theorem cooldown_scope_exact i1 i2 a key :
  decision_cooldown_key_for_decision i1 a = Some key ->
  (key ∈ decision_cooldown_candidates i2 <->
   incident_detector (in_incident_id i1) = incident_detector (in_incident_id i2)
   /\ exists e, looked_up a = Some e /\ e ∈ in_entities i2).
Proof.
  intros Hk. split; [|intros (Ed & e & Hl & He); by eapply looked_up_candidate].
  pose proof (detector_free (in_incident_id i1)) as F1. pose proof (detector_free (in_incident_id i2)) as F2.
  rewrite candidate_elem.
  intros (e & action & kind & He & -> & Hc).
  assert (free_of ":" kind = true /\ free_of ":" action = true) as [Fk Fa].
  { destruct Hc as [(_ & -> & Ha)|(_ & -> & ->)]; [|done]. split; [done|].
    rewrite !elem_of_cons in Ha. destruct Ha as [->|[->|[->|Ha]]]; [done..|by apply elem_of_nil in Ha]. }
  destruct a; cbn in Hk; try done; apply (inj Some) in Hk;
    apply cooldown_key_inj in Hk as (Ea & Ed & Ek & Ee); try done; cbn [looked_up];
    destruct Hc as [(Et & -> & Ha)|(Et & -> & ->)]; try done; try (rewrite <- Ea in Ha; set_solver);
    (split; [done|exists e; split; [|done]; f_equal; destruct e; cbn in *; by subst]).
Qed.

(** ** The properties at concrete inputs *)

Definition empty_store : Store := {| st_usable := true; kv_state := ∅ |}.
Definition scan_incident (id : string) (entities : list EntityRef) : Incident :=
  {| in_ts := 0; in_host := "h"; in_incident_id := id; in_severity := High; in_title := ""; in_summary := "";
     in_evidence := JNull; in_recommended_checks := []; in_tags := []; in_entities := entities |}.

Lemma cooldown_table_exact_witness :
  let s := set_cooldown empty_store "t0" TDecision "k" 5000000 in
  get_cooldown s TDecision "k" = Some 5000000
  /\ get_cooldown (retain_cooldowns s TDecision 4000000) TDecision "k" = Some 5000000
  /\ get_cooldown (retain_cooldowns s TDecision 5000001) TDecision "k" = None.
Proof.
  cbn zeta. set (s := set_cooldown empty_store "t0" TDecision "k" 5000000).
  pose proof (cooldown_table_exact empty_store "t0" TDecision "k" 5000000 0 TDecision "k") as G.
  pose proof (fun c => cooldown_table_exact s "t1" TDecision "k" 5000000 c TDecision "k") as R.
  destruct G as [G _]; [reflexivity|by vm_compute|]. fold s in G.
  rewrite (proj2 (R 4000000 eq_refl ltac:(by vm_compute))), (proj2 (R 5000001 eq_refl ltac:(by vm_compute))), G.
  by vm_compute.
Defined.

Lemma cooldown_scope_exact_witness :
  let i1 := scan_incident "port_scan:203.0.113.7:t" [entity_ip "203.0.113.7"] in
  let i2 := scan_incident "port_scan:203.0.113.7:u" [entity_ip "203.0.113.7"; entity_user "bob"] in
  "block_ip:port_scan:ip:203.0.113.7" ∈ decision_cooldown_candidates i2
  /\ "kill_process:port_scan:user:bob" ∉ decision_cooldown_candidates i2.
Proof.
  cbn zeta. split.
  - apply (cooldown_scope_exact (scan_incident "port_scan:203.0.113.7:t" [entity_ip "203.0.113.7"]) _
      (ABlockIp "203.0.113.7" "block-ip-ufw")); [reflexivity|].
    split; [reflexivity|]. exists (entity_ip "203.0.113.7"). split; [reflexivity|left].
  - intros Hin.
    apply (cooldown_scope_exact (scan_incident "port_scan:203.0.113.7:t" [entity_ip "203.0.113.7"]) _
      (AKillProcess "bob" 60)) in Hin; [|reflexivity]. by destruct Hin as (_ & e & He & _).
Defined.
