(* ===== verification/AgentAllowlist.v ===== *)
(** * AgentAllowlist: trusted addresses and users (crates/agent/src/allowlist.rs,
    the functions on the lists)

    An entry is an address or a block [base/prefix] of either family, compared
    under a mask of the machine width.  Shown here: the masked comparison is
    agreement of the leading bits, so an entry covers exactly the addresses of
    its block. *)

From Stdlib Require Import ZArith Lia Ascii String.
From stdpp Require Import prelude strings list.
From S2P Require Import Prelude Text Net.

Local Open Scope string_scope.
Local Open Scope list_scope.
Local Open Scope Z_scope.

(** ** The allowlist *)

(** [u32::from(Ipv4Addr)] and [u128::from(Ipv6Addr)]. *)
Definition v4_u32 (v : Ipv4Addr) : Z := let 'MkV4 a b c d := v in ((a * 256 + b) * 256 + c) * 256 + d.
Definition v6_u128 (v : Ipv6Addr) : Z := foldl (fun acc g => acc * 65536 + g) 0 v.

(** [if shift >= w { 0 } else { !0 << shift }] at width [w]. *)
Definition prefix_mask (w shift : Z) : Z := if w <=? shift then 0 else wrap w (Z.shiftl (2 ^ w - 1) shift).

Definition cidr_match (w ip base prefix_len : Z) : bool :=
  let mask := prefix_mask w (saturating_sub w prefix_len) in
  Z.land ip mask =? Z.land base mask.

(** [str::split_once('/')]. *)
Definition split_slash (s : string) : option (string * string) :=
  match split_on "/" s with
  | a :: b :: rest => Some (a, join "/" (b :: rest))
  | _ => None
  end.

Definition ip_matches (ip_str entry : string) : bool :=
  if String.eqb ip_str entry then true
  else
    match split_slash entry with
    | None => false
    | Some (base_str, prefix_str) =>
        match parse_uint 32 prefix_str, parse_ip ip_str, parse_ip base_str with
        | Some prefix_len, Some (V4 ip4), Some (V4 base4) =>
            (prefix_len <=? 32) && cidr_match 32 (v4_u32 ip4) (v4_u32 base4) prefix_len
        | Some prefix_len, Some (V6 ip6), Some (V6 base6) =>
            (prefix_len <=? 128) && cidr_match 128 (v6_u128 ip6) (v6_u128 base6) prefix_len
        | _, _, _ => false
        end
    end.

Definition is_ip_allowlisted (ip : string) (trusted_ips : list string) : bool :=
  any (fun entry => ip_matches ip entry) trusted_ips.
Definition is_user_allowlisted (user : string) (trusted_users : list string) : bool :=
  any (fun u => String.eqb u user) trusted_users.

(** ** The network of an allowlist entry *)

(** The [w - s] high bits kept, the [s] low ones cleared. *)
Lemma land_prefix_mask w ip s : 0 <= s < w -> in_width w ip ->
  Z.land ip (prefix_mask w s) = Z.shiftl (Z.shiftr ip s) s.
Proof.
  intros Hs Hip. unfold prefix_mask. rewrite (proj2 (Z.leb_gt _ _)) by lia. unfold wrap.
  rewrite <- Z.land_ones by lia. replace (2 ^ w - 1) with (Z.ones w) by (rewrite Z.ones_equiv; lia).
  apply Z.bits_inj'. intros n Hn. rewrite !Z.land_spec, !Z.shiftl_spec by lia.
  destruct (Z.ltb_spec n s).
  - rewrite (Z.testbit_neg_r (Z.ones w)), (Z.testbit_neg_r (Z.shiftr ip s)) by lia.
    by rewrite andb_false_l, andb_false_r.
  - rewrite Z.shiftr_spec, Z.sub_add, !Z.testbit_ones_nonneg by lia.
    destruct (Z.ltb_spec n w).
    + rewrite (proj2 (Z.ltb_lt (n - s) w)) by lia. by rewrite !andb_true_r.
    + rewrite andb_false_r. symmetry. rewrite andb_false_r. apply (Z.bits_above_log2 ip n); [apply Hip|].
      destruct (decide (ip = 0)) as [->|]; [cbn; lia|]. unfold in_width in Hip.
      apply Z.log2_lt_pow2; [lia|]. pose proof (Z.pow_le_mono_r 2 w n). lia.
Qed.

Lemma cidr_match_spec w ip base p : in_width w ip -> in_width w base -> 0 <= p <= w ->
  cidr_match w ip base p = (ip / 2 ^ (w - p) =? base / 2 ^ (w - p)).
Proof.
  intros Hi Hb Hp. unfold cidr_match, saturating_sub. rewrite Z.max_r by lia.
  destruct (decide (p = 0)) as [->|].
  - rewrite Z.sub_0_r. unfold prefix_mask. rewrite (proj2 (Z.leb_le _ _)) by lia.
    rewrite !Z.land_0_r, !Z.div_small by done. done.
  - rewrite !land_prefix_mask, !Z.shiftr_div_pow2, !Z.shiftl_mul_pow2 by (done || lia).
    apply eq_true_iff_eq. rewrite !Z.eqb_eq. split; [|congruence]. intros E.
    eapply Z.mul_reg_r; [|exact E]. pose proof (Z.pow_pos_nonneg 2 (w - p)). lia.
Qed.

Lemma v4_u32_range v : v4_ok v -> in_width 32 (v4_u32 v).
Proof.
  destruct v as [a b c d]. unfold v4_ok. cbn. rewrite !Forall_cons. unfold in_width. intros. cbn. lia.
Qed.

Lemma v6_u128_range v : v6_ok v -> in_width 128 (v6_u128 v).
Proof.
  intros [Hl Hf]. do 8 (destruct v as [|? v]; [done|]). destruct v; [|done].
  rewrite !Forall_cons in Hf. unfold in_width in *. cbn. lia.
Qed.

(** An entry covers an address: it is the same text, or a block [base/p] of the
    same family whose first [p] bits are those of the address. *)
Definition entry_covers (ip entry : string) : Prop :=
  ip = entry \/
  exists base prefix p, split_slash entry = Some (base, prefix) /\ parse_uint 32 prefix = Some p /\
    ((exists a b, parse_ip ip = Some (V4 a) /\ parse_ip base = Some (V4 b) /\ p <= 32
                  /\ v4_u32 a / 2 ^ (32 - p) = v4_u32 b / 2 ^ (32 - p))
     \/ (exists a b, parse_ip ip = Some (V6 a) /\ parse_ip base = Some (V6 b) /\ p <= 128
                     /\ v6_u128 a / 2 ^ (128 - p) = v6_u128 b / 2 ^ (128 - p))).

Lemma ip_matches_spec ip entry : ip_matches ip entry = true <-> entry_covers ip entry.
Proof.
  unfold ip_matches, entry_covers. destruct (String.eqb_spec ip entry) as [->|Hne]; [naive_solver|].
  destruct (split_slash entry) as [[base prefix]|]; [|naive_solver].
  destruct (parse_uint 32 prefix) as [p|] eqn:Ep; [|naive_solver].
  pose proof (parse_uint_range _ _ _ Ep).
  destruct (parse_ip ip) as [[a|a]|] eqn:Ei, (parse_ip base) as [[b|b]|] eqn:Eb; try naive_solver;
    pose proof (parse_ip_ok _ _ Ei); pose proof (parse_ip_ok _ _ Eb); rewrite andb_true_iff, Z.leb_le.
  - split.
    + intros [Hp Hm]. rewrite cidr_match_spec, Z.eqb_eq in Hm
        by first [by apply v4_u32_range|lia].
      right. do 3 eexists. split; [done|]. split; [done|]. left; by do 2 eexists.
    + intros [?|(? & ? & ? & ? & ? & [(? & ? & ? & ? & Hp & Hm)|(? & ? & ? & _)])]; simplify_eq.
      split; [done|]. rewrite cidr_match_spec by first [by apply v4_u32_range|lia].
      by apply Z.eqb_eq.
  - split.
    + intros [Hp Hm]. rewrite cidr_match_spec, Z.eqb_eq in Hm
        by first [by apply v6_u128_range|lia].
      right. do 3 eexists. split; [done|]. split; [done|]. right; by do 2 eexists.
    + intros [?|(? & ? & ? & ? & ? & [(? & ? & ? & _)|(? & ? & ? & ? & Hp & Hm)])]; simplify_eq.
      split; [done|]. rewrite cidr_match_spec by first [by apply v6_u128_range|lia].
      by apply Z.eqb_eq.
Qed.

Lemma is_ip_allowlisted_spec ip l :
  is_ip_allowlisted ip l = true <-> exists entry, entry ∈ l /\ entry_covers ip entry.
Proof. unfold is_ip_allowlisted. rewrite any_true. by setoid_rewrite ip_matches_spec. Qed.

(** ** Concrete entries *)

Example allow_block : is_ip_allowlisted "10.1.2.3" ["192.168.0.0/16"; "10.0.0.0/8"] = true.
Proof. reflexivity. Qed.
Example allow_edge : is_ip_allowlisted "10.128.0.0" ["10.0.0.0/9"] = false.
Proof. reflexivity. Qed.
Example allow_all_v6 : is_ip_allowlisted "2001:db8::1" ["10.0.0.0/8"; "::/0"] = true.
Proof. reflexivity. Qed.
Example allow_bad_prefix : is_ip_allowlisted "10.1.2.3" ["10.0.0.0/33"; "10.0.0.0/"] = false.
Proof. reflexivity. Qed.
