(* ===== verification/AgentGate.v ===== *)
(** * AgentGate: what has to hold before an incident reaches the AI
    (crates/agent/src/incident_flow.rs, the gate of ai/mod.rs,
    parsed_min_severity of config/ai.rs)

    The gate asks, in order: is the incident decided already, a pipeline test,
    advisory, allowlisted, about an address that is blocked now, below the
    severity threshold or private, in its cooldown, or over the budget of the
    tick.  It reads the decisions of StoreDecisions.v, the lifecycle of
    AgentLifecycle.v and the cooldowns of AgentCooldown.v.  Proved here: the
    gate lets an incident through exactly when its declarative specification
    says so. *)

From Stdlib Require Import ZArith Lia Ascii String SpecFloat.
From stdpp Require Import prelude strings list gmap.
From S2P Require Import Prelude Text Json Net Floats CoreTypes StoreKv StoreDecisions AgentLifecycle AgentCooldown.
From S2P Require Import AgentAllowlist.

Local Open Scope string_scope.
Local Open Scope list_scope.
Local Open Scope Z_scope.

(** ** The algorithm gate of the AI *)

Definition is_below_severity_threshold (severity min_severity : Severity) : bool :=
  match min_severity with
  | Low => match severity with Debug | Info => true | _ => false end
  | Medium => match severity with Debug | Info | Low => true | _ => false end
  | High => match severity with High | Critical => false | _ => true end
  | Critical => match severity with Critical => false | _ => true end
  | _ => true
  end.

Definition is_private_or_loopback (addr : IpAddr) : bool :=
  match addr with
  | V4 v4 => v4_is_loopback v4 || v4_is_private v4 || v4_is_link_local v4 || v4_is_broadcast v4
             || v4_is_documentation v4 || v4_is_unspecified v4
  | V6 v6 => v6_is_loopback v6 || v6_is_unspecified v6
  end.

(** [entities.iter().find(|e| e.type == ty)], its value. *)
Definition find_entity (ty : EntityType) (incident : Incident) : option string :=
  e_value <$> List.find (fun e => bool_decide (e_type e = ty)) (in_entities incident).

Definition should_invoke_ai (incident : Incident) (already_blocked : gset string) (min_severity : Severity)
  : bool :=
  if is_below_severity_threshold (in_severity incident) min_severity then false
  else
    match find_entity EIp incident with
    | None => true
    | Some ip_str =>
        if bool_decide (ip_str ∈ already_blocked) then false
        else match parse_ip ip_str with
             | Some addr => negb (is_private_or_loopback addr)
             | None => true
             end
    end.

Definition parsed_min_severity `{Lowercase} (min_severity : string) : Severity :=
  let s := to_lowercase min_severity in
  if String.eqb s "low" then Low
  else if String.eqb s "medium" then Medium
  else if String.eqb s "critical" then Critical
  else High.

(** ** The guards *)

Inductive PreAiGuardDecision : Type :=
  GProceed | GPipelineTestHandled | SkipAdvisoryDetector | SkipAiDisabled | GSkipAllowlisted
| GSkipBelowSeverity | SkipPrivateOrBlocked | SkipDecisionCooldown | SkipAiCallBudget | SkipAlreadyBlocked.

Record PreAiGuardInputs := {
  is_pipeline_test : bool;
  is_advisory_detector : bool;
  ai_enabled : bool;
  is_allowlisted : bool;
  passes_ai_gate : bool;
  below_severity_threshold : bool;
  in_decision_cooldown : bool;
  ai_calls_this_tick : Z;
  max_ai_calls_per_tick : Z;
  skip_fase3 : bool;
  already_actively_blocked : bool;
}.

Definition matches_skip_fase3 (incident_id : string) (skip_list : list string) : bool :=
  any (fun entry => if String.eqb entry "" then false
                    else String.eqb incident_id entry || starts_with (entry +:+ ":") incident_id) skip_list.

Definition BLOCK_MITIGATED_DETECTORS : list string :=
  ["threat_intel"; "proto_anomaly"; "port_scan"; "web_scan"; "scanner_ua"; "user_agent_scanner"; "nmap_scan";
   "wordlist_scan"; "ssh_bruteforce"; "distributed_ssh"; "credential_stuffing"].

Definition is_block_mitigated_detector (incident_id : string) : bool :=
  let detector := first_piece ":" incident_id in
  mem_str (default detector (strip_prefix "graph_" detector)) BLOCK_MITIGATED_DETECTORS.

Definition decide_pre_ai_guard (i : PreAiGuardInputs) : PreAiGuardDecision :=
  if is_pipeline_test i then GPipelineTestHandled
  else if is_advisory_detector i then SkipAdvisoryDetector
  else if negb (ai_enabled i) then SkipAiDisabled
  else if is_allowlisted i then GSkipAllowlisted
  else if already_actively_blocked i then SkipAlreadyBlocked
  else if negb (skip_fase3 i) && negb (passes_ai_gate i) then
    if below_severity_threshold i then GSkipBelowSeverity else SkipPrivateOrBlocked
  else if negb (skip_fase3 i) && in_decision_cooldown i then SkipDecisionCooldown
  else if (0 <? max_ai_calls_per_tick i) && (max_ai_calls_per_tick i <=? ai_calls_this_tick i)
  then SkipAiCallBudget
  else GProceed.

(** ** The flow *)

Inductive PreAiFlowDecision : Type :=
  Proceed | SkipHandled | SkipAllowlisted | PipelineTestHandled | SkipBelowSeverity.

(** The part of the configuration and of the agent's state the flow reads. *)
Record FlowConfig := {
  fc_skip_fase3 : list string;
  fc_max_ai_calls : Z;
  fc_trusted_ips : list string;
  fc_trusted_users : list string;
  fc_min_severity : string;
}.

Record FlowState (S : Type) := {
  fs_sqlite : option Db;
  fs_lifecycle : ResponseLifecycle;
  fs_store : S;
  fs_dynamic_ips : list string;
  fs_dynamic_users : list string;
}.
Arguments fs_sqlite {S} _.
Arguments fs_lifecycle {S} _.
Arguments fs_store {S} _.
Arguments fs_dynamic_ips {S} _.
Arguments fs_dynamic_users {S} _.

(** A line of the decision log. *)
Record DecisionEntry := {
  de_ts : Z;
  de_incident_id : string;
  de_host : string;
  de_ai_provider : string;
  de_action_type : string;
  de_target_ip : option string;
  de_target_user : option string;
  de_skill_id : option string;
  de_confidence : spec_float;
  de_auto_executed : bool;
  de_dry_run : bool;
  de_reason : string;
  de_estimated_threat : string;
  de_execution_result : string;
  de_prev_hash : option string;
  de_decision_layer : option string;
}.

Section Flow.
Context {S : Type} `{KvStore S} `{Lowercase}.

(** The value 1.0 of an [f32]. *)
Definition f32_one : spec_float := f32_of_Z 1.

(** [now] is the clock of the call. *)
Definition actively_blocked_incident (st : FlowState S) (incident : Incident) (now : Z) : bool :=
  is_block_mitigated_detector (in_incident_id incident) &&
  match find_entity EIp incident with
  | Some ip => is_ip_actively_blocked (fs_lifecycle st) ip now
  | None => false
  end.

Definition allowlisted_incident (cfg : FlowConfig) (st : FlowState S) (incident : Incident) : bool :=
  match find_entity EIp incident with
  | Some ip => is_ip_allowlisted ip (fc_trusted_ips cfg) || is_ip_allowlisted ip (fs_dynamic_ips st)
  | None => false
  end
  || match find_entity EUser incident with
     | Some user => is_user_allowlisted user (fc_trusted_users cfg)
                    || is_user_allowlisted user (fs_dynamic_users st)
     | None => false
     end.

Definition incident_in_cooldown (st : FlowState S) (incident : Incident) (now : Z) : bool :=
  any (fun k => match get_cooldown (fs_store st) TDecision k with
                | Some ts => now - seconds DECISION_COOLDOWN_SECS <? ts
                | None => false
                end) (decision_cooldown_candidates incident).

Definition already_decided (st : FlowState S) (incident : Incident) : bool :=
  match fs_sqlite st with
  | Some db => match has_decision_for_incident db (in_incident_id incident) with Ok b => b | Err _ => false end
  | None => false
  end.

Definition guard_inputs (incident : Incident) (cfg : FlowConfig) (st : FlowState S) (enabled : bool)
  (blocked_set : gset string) (calls now : Z) : PreAiGuardInputs :=
  let detector := first_piece ":" (in_incident_id incident) in
  let allowlisted := enabled && allowlisted_incident cfg st incident in
  let gated := enabled && negb allowlisted in
  let min_severity := parsed_min_severity (fc_min_severity cfg) in
  let passes := if gated then should_invoke_ai incident blocked_set min_severity else true in
  {| is_pipeline_test := any (fun tag => String.eqb tag "pipeline-test") (in_tags incident);
     is_advisory_detector := String.eqb detector "neural_anomaly" || String.eqb detector "host_drift";
     ai_enabled := enabled;
     is_allowlisted := allowlisted;
     passes_ai_gate := passes;
     below_severity_threshold := gated && is_below_severity_threshold (in_severity incident) min_severity;
     in_decision_cooldown := gated && passes && incident_in_cooldown st incident now;
     ai_calls_this_tick := calls;
     max_ai_calls_per_tick := fc_max_ai_calls cfg;
     skip_fase3 := matches_skip_fase3 (in_incident_id incident) (fc_skip_fase3 cfg);
     already_actively_blocked := actively_blocked_incident st incident now |}.

Definition pipeline_test_entry (incident : Incident) (now : Z) : DecisionEntry :=
  {| de_ts := now; de_incident_id := in_incident_id incident; de_host := in_host incident;
     de_ai_provider := "pipeline-test"; de_action_type := "monitor"; de_target_ip := find_entity EIp incident;
     de_target_user := None; de_skill_id := None; de_confidence := f32_one; de_auto_executed := false;
     de_dry_run := true;
     de_reason := "Pipeline test acknowledged - sensor → agent → decision path is working";
     de_estimated_threat := "none"; de_execution_result := "test-ok"; de_prev_hash := None;
     de_decision_layer := Some "algorithm_gate" |}.

(** The outcome, and the entry handed to the decision writer. *)
Definition evaluate_pre_ai_flow (incident : Incident) (cfg : FlowConfig) (st : FlowState S) (enabled : bool)
  (blocked_set : gset string) (calls now : Z) : PreAiFlowDecision * option DecisionEntry :=
  if already_decided st incident then (SkipHandled, None)
  else
    match decide_pre_ai_guard (guard_inputs incident cfg st enabled blocked_set calls now) with
    | GPipelineTestHandled => (PipelineTestHandled, Some (pipeline_test_entry incident now))
    | SkipAdvisoryDetector | SkipAiDisabled => (SkipHandled, None)
    | GSkipAllowlisted => (SkipAllowlisted, None)
    | GSkipBelowSeverity => (SkipBelowSeverity, None)
    | SkipPrivateOrBlocked | SkipAlreadyBlocked | SkipDecisionCooldown | SkipAiCallBudget => (SkipHandled, None)
    | GProceed => (Proceed, None)
    end.
End Flow.

(** ** What the gate promises *)

Definition severity_rank (s : Severity) : Z :=
  match s with Debug => 0 | Info => 1 | Low => 2 | Medium => 3 | High => 4 | Critical => 5 end.

Lemma below_severity_rank `{Lowercase} sev text :
  is_below_severity_threshold sev (parsed_min_severity text)
  = (severity_rank sev <? severity_rank (parsed_min_severity text)).
Proof. unfold parsed_min_severity. repeat case_match; by destruct sev. Qed.

Section Spec.
Context {S : Type} `{KvStore S} `{Lowercase}.

(** The incidents the AI is asked about. *)
Record admissible (incident : Incident) (cfg : FlowConfig) (st : FlowState S) (enabled : bool)
  (blocked_set : gset string) (calls now : Z) : Prop := {
  adm_undecided : forall db r, fs_sqlite st = Some db -> db_usable db = true -> r ∈ decisions db ->
    r_incident_id r <> in_incident_id incident;
  adm_real : ("pipeline-test" ∉ in_tags incident);
  adm_detector : incident_detector (in_incident_id incident) <> "neural_anomaly"
                 /\ incident_detector (in_incident_id incident) <> "host_drift";
  adm_enabled : enabled = true;
  adm_untrusted_ip : forall ip entry, find_entity EIp incident = Some ip ->
    entry ∈ fc_trusted_ips cfg ++ fs_dynamic_ips st -> ~ entry_covers ip entry;
  adm_untrusted_user : forall user, find_entity EUser incident = Some user ->
    (user ∉ fc_trusted_users cfg ++ fs_dynamic_users st);
  adm_not_mitigated : forall ip r, is_block_mitigated_detector (in_incident_id incident) = true ->
    find_entity EIp incident = Some ip -> r ∈ active (fs_lifecycle st) -> live_block r now = true ->
    ar_target r <> ip;
  adm_gate : matches_skip_fase3 (in_incident_id incident) (fc_skip_fase3 cfg) = true \/
    (severity_rank (parsed_min_severity (fc_min_severity cfg)) <= severity_rank (in_severity incident)
     /\ (forall ip, find_entity EIp incident = Some ip ->
         (ip ∉ blocked_set) /\ forall addr, parse_ip ip = Some addr -> is_private_or_loopback addr = false)
     /\ (forall k ts, k ∈ decision_cooldown_candidates incident ->
         get_cooldown (fs_store st) TDecision k = Some ts -> ts <= now - seconds DECISION_COOLDOWN_SECS));
  adm_budget : fc_max_ai_calls cfg <= 0 \/ calls < fc_max_ai_calls cfg;
}.

Implicit Types st : FlowState S.

Lemma already_decided_false st incident :
  already_decided st incident = false <->
  forall db r, fs_sqlite st = Some db -> db_usable db = true -> r ∈ decisions db ->
    r_incident_id r <> in_incident_id incident.
Proof.
  unfold already_decided, has_decision_for_incident, db_conn.
  destruct (fs_sqlite st) as [db|]; [|naive_solver]. destruct (db_usable db) eqn:Eu.
  - rewrite <- not_true_iff_false, any_true. setoid_rewrite String.eqb_eq. naive_solver.
  - split; [|done]. intros _ ? ? [= <-]. congruence.
Qed.

Lemma allowlisted_incident_false cfg st incident :
  allowlisted_incident cfg st incident = false <->
  (forall ip entry, find_entity EIp incident = Some ip ->
     entry ∈ fc_trusted_ips cfg ++ fs_dynamic_ips st -> ~ entry_covers ip entry)
  /\ (forall user, find_entity EUser incident = Some user ->
       (user ∉ fc_trusted_users cfg ++ fs_dynamic_users st)).
Proof.
  unfold allowlisted_incident. rewrite orb_false_iff. f_equiv.
  - destruct (find_entity EIp incident) as [ip|]; [|naive_solver].
    rewrite orb_false_iff, <- !not_true_iff_false, !is_ip_allowlisted_spec.
    setoid_rewrite elem_of_app. naive_solver.
  - destruct (find_entity EUser incident) as [u|]; [|naive_solver]. unfold is_user_allowlisted.
    rewrite orb_false_iff, <- !not_true_iff_false, !any_true. setoid_rewrite String.eqb_eq.
    setoid_rewrite elem_of_app. naive_solver.
Qed.

Lemma actively_blocked_false st incident now :
  actively_blocked_incident st incident now = false <->
  forall ip r, is_block_mitigated_detector (in_incident_id incident) = true ->
    find_entity EIp incident = Some ip -> r ∈ active (fs_lifecycle st) -> live_block r now = true ->
    ar_target r <> ip.
Proof.
  unfold actively_blocked_incident, is_ip_actively_blocked.
  destruct (is_block_mitigated_detector _); cbn; [|naive_solver].
  destruct (find_entity EIp incident) as [ip|]; [|naive_solver].
  rewrite <- not_true_iff_false, any_true. split.
  - intros Hn ip' r _ [= <-] Hin Hl Ht. apply Hn. exists r. by rewrite Hl, Ht, String.eqb_refl.
  - intros Ha (r & Hin & [Hl Ht%String.eqb_eq]%andb_true_iff). by apply (Ha ip r).
Qed.

Lemma should_invoke_ai_spec incident blocked_set text :
  should_invoke_ai incident blocked_set (parsed_min_severity text) = true <->
  severity_rank (parsed_min_severity text) <= severity_rank (in_severity incident)
  /\ forall ip, find_entity EIp incident = Some ip ->
      (ip ∉ blocked_set) /\ forall addr, parse_ip ip = Some addr -> is_private_or_loopback addr = false.
Proof.
  unfold should_invoke_ai. rewrite below_severity_rank. destruct (Z.ltb_spec (severity_rank (in_severity incident))
    (severity_rank (parsed_min_severity text))); [split; [done|lia]|].
  destruct (find_entity EIp incident) as [ip|]; [|split; [intros _; split; [done|intros ? [=]]|done]].
  case_bool_decide as Hb; [split; [done|]; intros [_ Hip]; by destruct (Hip ip eq_refl)|].
  destruct (parse_ip ip) as [addr|] eqn:Ep.
  - rewrite negb_true_iff. split; [|intros [_ Hip]; by apply (Hip ip)].
    intros Hp. split; [done|]. intros ? [= <-]. split; [done|]. congruence.
  - split; [|done]. intros _. split; [done|]. intros ? [= <-]. split; [done|]. congruence.
Qed.

Lemma in_cooldown_false st incident now :
  incident_in_cooldown st incident now = false <->
  forall k ts, k ∈ decision_cooldown_candidates incident ->
    get_cooldown (fs_store st) TDecision k = Some ts -> ts <= now - seconds DECISION_COOLDOWN_SECS.
Proof.
  unfold incident_in_cooldown. rewrite <- not_true_iff_false, any_true. split.
  - intros Hn k ts Hk Hg. apply Z.nlt_ge. intros Hlt. apply Hn. exists k. split; [done|].
    rewrite Hg. by apply Z.ltb_lt.
  - intros Ha (k & Hk & Hc). destruct (get_cooldown _ _ _) as [ts|] eqn:Eg; [|done].
    apply Z.ltb_lt in Hc. specialize (Ha _ _ Hk Eg). lia.
Qed.

Lemma evaluate_proceeds incident cfg st enabled blocked_set calls now :
  (evaluate_pre_ai_flow incident cfg st enabled blocked_set calls now).1 = Proceed <->
  already_decided st incident = false
  /\ decide_pre_ai_guard (guard_inputs incident cfg st enabled blocked_set calls now) = GProceed.
Proof.
  unfold evaluate_pre_ai_flow. destruct (already_decided st incident); [naive_solver|].
  destruct (decide_pre_ai_guard _); naive_solver.
Qed.

Lemma not_elem_any_eqb (x : string) l : any (fun y => String.eqb y x) l = false <-> (x ∉ l).
Proof.
  rewrite <- not_true_iff_false, any_true. setoid_rewrite String.eqb_eq. naive_solver.
Qed.

(** The guards of the flow, each a boolean of its own. *)
Lemma guard_proceeds incident cfg st enabled blocked_set calls now :
  decide_pre_ai_guard (guard_inputs incident cfg st enabled blocked_set calls now) = GProceed <->
  ("pipeline-test" ∉ in_tags incident)
  /\ (incident_detector (in_incident_id incident) <> "neural_anomaly"
      /\ incident_detector (in_incident_id incident) <> "host_drift")
  /\ enabled = true
  /\ allowlisted_incident cfg st incident = false
  /\ actively_blocked_incident st incident now = false
  /\ (matches_skip_fase3 (in_incident_id incident) (fc_skip_fase3 cfg) = true
      \/ should_invoke_ai incident blocked_set (parsed_min_severity (fc_min_severity cfg)) = true
         /\ incident_in_cooldown st incident now = false)
  /\ (fc_max_ai_calls cfg <= 0 \/ calls < fc_max_ai_calls cfg).
Proof.
  unfold decide_pre_ai_guard, guard_inputs, incident_detector. cbn.
  rewrite <- not_elem_any_eqb. destruct (any _ (in_tags incident)); [naive_solver|].
  destruct (String.eqb_spec (first_piece ":" (in_incident_id incident)) "neural_anomaly"); [naive_solver|].
  destruct (String.eqb_spec (first_piece ":" (in_incident_id incident)) "host_drift"); [naive_solver|]. cbn.
  destruct enabled; [|naive_solver]. cbn. destruct (allowlisted_incident _ _ _); [naive_solver|]. cbn.
  destruct (actively_blocked_incident _ _ _); [naive_solver|].
  assert ((0 <? fc_max_ai_calls cfg) && (fc_max_ai_calls cfg <=? calls) = false
          <-> fc_max_ai_calls cfg <= 0 \/ calls < fc_max_ai_calls cfg) as Hb.
  { rewrite andb_false_iff, Z.ltb_ge, Z.leb_gt. done. }
  rewrite <- Hb. destruct (_ && _).
  all: destruct (matches_skip_fase3 _ _), (should_invoke_ai _ _ _), (incident_in_cooldown _ _ _),
         (is_below_severity_threshold _ _); naive_solver.
Qed.

(** C7. The gate before the AI lets an incident through exactly when: nothing
    was decided about it, it is no pipeline test and not of an advisory
    detector, the AI is enabled, neither its address nor its user is
    allowlisted (an entry covers an address when it is the same text or a block
    with the same leading bits), its address has no live block while its
    detector is one a block mitigates, the tick has budget, and -- unless its
    detector skips these gates -- it is as severe as configured, its address
    is public and not blocked this tick, and no cooldown of its scope is
    younger than an hour. *)
Theorem gate_exact incident cfg st enabled blocked_set calls now :
  (evaluate_pre_ai_flow incident cfg st enabled blocked_set calls now).1 = Proceed <->
  admissible incident cfg st enabled blocked_set calls now.
Proof.
  rewrite evaluate_proceeds, guard_proceeds, already_decided_false, allowlisted_incident_false,
    actively_blocked_false, should_invoke_ai_spec, in_cooldown_false.
  split; [intros (? & ? & ? & ? & [? ?] & ? & ? & ?); constructor; tauto|].
  intros []. repeat (split; [done|]). split; [tauto|done].
Qed.
End Spec.
