(* ===== verification/AgentSafelist.v ===== *)
(** * AgentSafelist: the addresses that are never blocked automatically
    (crates/agent/src/cloud_safelist.rs)

    Tables of provider ranges are parsed once at the start; every automatic
    block asks whether its target falls in one.  The host's own addresses, read
    from the routing table, and the operator's own ranges make an address
    self-traffic.  Proved here: no range of the tables is lost by the parser,
    and the test answers exactly for the addresses in one of them; the search
    for an own address finds exactly the addresses of the routing table. *)

From Stdlib Require Import ZArith Lia Ascii String Sorted.
From stdpp Require Import prelude strings list sorting.
From S2P Require Import Prelude Text Net AgentAllowlist.

Local Open Scope string_scope.
Local Open Scope list_scope.
Local Open Scope Z_scope.

(** ** Ranges *)

Record CidrRange := { base : Z; mask : Z }.

Definition from_str (cidr : string) : option CidrRange :=
  '(base_str, prefix_str) ← split_slash cidr;
  prefix_len ← parse_uint 32 prefix_str;
  if 32 <? prefix_len then None
  else
    addr ← parse_ip base_str;
    match addr with
    | V4 v4 =>
        let m := prefix_mask 32 (saturating_sub 32 prefix_len) in
        Some {| base := Z.land (v4_u32 v4) m; mask := m |}
    | V6 _ => None
    end.

Definition range_contains (r : CidrRange) (ip : Z) : bool := Z.land ip (mask r) =? base r.

Definition ip_in_ranges (ranges : list CidrRange) (ip_str : string) : bool :=
  match parse_ip ip_str with
  | Some (V4 v4) => any (fun r => range_contains r (v4_u32 v4)) ranges
  | _ => false
  end.

(** ** The tables *)

Definition CLOUDFLARE_RANGES : list string :=
  ["173.245.48.0/20"; "103.21.244.0/22"; "103.22.200.0/22"; "103.31.4.0/22"; "141.101.64.0/18";
   "108.162.192.0/18"; "190.93.240.0/20"; "188.114.96.0/20"; "197.234.240.0/22"; "198.41.128.0/17";
   "162.158.0.0/15"; "104.16.0.0/13"; "104.24.0.0/14"; "172.64.0.0/13"].

Definition AGENT_SERVICE_RANGES : list string :=
  ["149.154.160.0/20"; "91.108.0.0/16"; "91.108.4.0/22"; "91.108.56.0/22"; "95.161.64.0/20";
   "52.48.0.0/14"; "63.32.0.0/14"; "18.200.0.0/14"; "3.248.0.0/13"; "208.95.112.0/24"; "185.125.188.0/22";
   "91.189.88.0/21"; "162.213.32.0/22"].

Definition ORACLE_PEER_RANGES : list string :=
  ["138.1.16.0/22"; "140.91.0.0/16"; "147.154.224.0/19"; "193.122.0.0/15"].

Definition LINK_LOCAL_RANGES : list string :=
  ["169.254.0.0/16"; "127.0.0.0/8"; "224.0.0.0/4"].

Definition CLOUD_PROVIDER_RANGES : list string :=
  ["34.0.0.0/9"; "35.184.0.0/13"; "35.192.0.0/12"; "35.208.0.0/12"; "35.224.0.0/12"; "35.240.0.0/13";
   "130.211.0.0/16"; "142.250.0.0/15"; "172.217.0.0/16"; "216.58.192.0/19"; "209.85.128.0/17"; "3.0.0.0/9";
   "13.0.0.0/8"; "15.0.0.0/11"; "18.0.0.0/10"; "34.192.0.0/10"; "44.192.0.0/11"; "52.0.0.0/11";
   "54.0.0.0/8"; "99.80.0.0/12"; "20.0.0.0/11"; "40.64.0.0/10"; "52.128.0.0/10"; "104.40.0.0/13";
   "168.61.0.0/16"; "191.232.0.0/13"; "129.146.0.0/16"; "130.35.0.0/16"; "130.61.0.0/16"; "132.145.0.0/16";
   "134.70.0.0/16"; "140.204.0.0/16"; "140.238.0.0/16"; "144.24.0.0/14"; "150.136.0.0/13"; "152.67.0.0/16";
   "152.70.0.0/15"; "64.227.0.0/16"; "134.209.0.0/16"; "157.230.0.0/16"; "159.65.0.0/16"; "159.89.0.0/16";
   "161.35.0.0/16"; "164.90.0.0/16"; "165.22.0.0/16"; "165.227.0.0/16"; "167.71.0.0/16"; "167.172.0.0/16";
   "174.138.0.0/16"; "178.128.0.0/16"; "188.166.0.0/16"; "206.189.0.0/16"; "209.97.0.0/16";
   "209.122.0.0/16"; "49.12.0.0/14"; "78.46.0.0/15"; "88.198.0.0/16"; "88.99.0.0/16"; "95.216.0.0/15";
   "116.202.0.0/15"; "116.203.0.0/16"; "128.140.0.0/16"; "135.181.0.0/16"; "136.243.0.0/16";
   "138.201.0.0/16"; "142.132.0.0/16"; "148.251.0.0/16"; "157.90.0.0/16"; "159.69.0.0/16"; "162.55.0.0/16";
   "167.235.0.0/16"; "168.119.0.0/16"; "176.9.0.0/16"; "178.63.0.0/16"; "195.201.0.0/16";
   "213.133.96.0/19"; "213.239.192.0/18"; "23.0.0.0/12"; "23.32.0.0/11"; "23.64.0.0/14"; "23.72.0.0/13";
   "95.100.64.0/18"; "96.6.0.0/15"; "96.16.0.0/15"; "104.64.0.0/10"; "184.24.0.0/13"; "184.50.0.0/15";
   "23.235.32.0/20"; "43.249.72.0/22"; "103.244.50.0/24"; "103.245.222.0/23"; "103.245.224.0/24";
   "104.156.80.0/20"; "140.248.64.0/18"; "140.248.128.0/17"; "146.75.0.0/17"; "151.101.0.0/16";
   "157.52.64.0/18"; "167.82.0.0/17"; "172.111.64.0/18"; "185.31.16.0/22"; "199.27.72.0/21";
   "199.232.0.0/16"; "64.252.64.0/18"; "64.252.128.0/18"; "130.176.0.0/16"; "143.204.0.0/16";
   "144.220.0.0/16"; "205.251.192.0/19"; "216.137.32.0/19"].

(** ** The state of the module *)

(** The [OnceLock]s: empty until the first [set], which wins. *)
Record SafelistState := {
  cloud_ranges : option (list CidrRange);
  cloudflare_edge_ranges : option (list CidrRange);
  local_interface_ips : option (list Z);
  operator_self_infra : option (list CidrRange);
}.

Definition uninitialised : SafelistState :=
  {| cloud_ranges := None; cloudflare_edge_ranges := None; local_interface_ips := None;
     operator_self_infra := None |}.

Definition once_set {A} (cell : option A) (v : A) : option A := match cell with None => Some v | _ => cell end.

(** [Vec::dedup]: of equal neighbours the first stays. *)
Fixpoint dedup (l : list Z) : list Z :=
  match l with
  | a :: (b :: _) as t => if a =? b then dedup t else a :: dedup t
  | _ => l
  end.

(** [lines] paired with their successors. *)
Definition local_address (line next : string) : option Z :=
  rest ← strip_prefix "|-- " (trim_start line);
  if contains "host LOCAL" next then
    match parse_ip (trim rest) with Some (V4 v4) => Some (v4_u32 v4) | _ => None end
  else None.

Fixpoint local_addresses (ls : list string) : list Z :=
  match ls with
  | line :: (next :: _) as t =>
      match local_address line next with Some a => a :: local_addresses t | None => local_addresses t end
  | _ => []
  end.

(** The addresses of [/proc/net/fib_trie]; [None] when it cannot be read. *)
Definition init_local_interface_ips (fib_trie : option string) (st : SafelistState) : SafelistState :=
  let ips := match fib_trie with
             | None => []
             | Some content => dedup (merge_sort Z.le (local_addresses (lines content)))
             end in
  {| cloud_ranges := cloud_ranges st; cloudflare_edge_ranges := cloudflare_edge_ranges st;
     local_interface_ips := once_set (local_interface_ips st) ips;
     operator_self_infra := operator_self_infra st |}.

Definition safelist_entries : list string :=
  CLOUDFLARE_RANGES ++ CLOUD_PROVIDER_RANGES ++ AGENT_SERVICE_RANGES ++ ORACLE_PEER_RANGES ++ LINK_LOCAL_RANGES.

Definition init (fib_trie : option string) (st : SafelistState) : SafelistState :=
  init_local_interface_ips fib_trie
    {| cloud_ranges := once_set (cloud_ranges st) (omap from_str safelist_entries);
       cloudflare_edge_ranges := once_set (cloudflare_edge_ranges st) (omap from_str CLOUDFLARE_RANGES);
       local_interface_ips := local_interface_ips st;
       operator_self_infra := operator_self_infra st |}.

Definition normalized (raw : string) : option string :=
  let trimmed := trim raw in
  if String.eqb trimmed "" then None
  else Some (if contains "/" trimmed then trimmed else trimmed +:+ "/32").
Definition build_self_infra_ranges (entries : list string) : list CidrRange :=
  omap (fun raw => normalized raw ≫= from_str) entries.

Definition init_operator_self_infra (entries : list string) (st : SafelistState) : SafelistState :=
  {| cloud_ranges := cloud_ranges st; cloudflare_edge_ranges := cloudflare_edge_ranges st;
     local_interface_ips := local_interface_ips st;
     operator_self_infra := once_set (operator_self_infra st) (build_self_infra_ranges entries) |}.

(** ** The questions *)

Definition is_cloud_provider_ip (st : SafelistState) (ip_str : string) : bool :=
  match parse_ip ip_str with
  | Some (V4 v4) =>
      match cloud_ranges st with
      | Some ranges => any (fun r => range_contains r (v4_u32 v4)) ranges
      | None => false
      end
  | _ => false
  end.

Definition is_cloudflare_edge_ip (st : SafelistState) (ip_str : string) : bool :=
  match parse_ip ip_str with
  | Some (V4 v4) =>
      match cloudflare_edge_ranges st with
      | Some ranges => any (fun r => range_contains r (v4_u32 v4)) ranges
      | None => false
      end
  | _ => false
  end.

(** [slice::binary_search(..).is_ok()]: the half of the slice that can hold the
    value, until it is empty. *)
Fixpoint binary_search (fuel : nat) (l : list Z) (x : Z) : bool :=
  match fuel with
  | O => false
  | S fuel =>
      let mid := Nat.div2 (length l) in
      match l !! mid with
      | None => false
      | Some y =>
          if x =? y then true
          else if x <? y then binary_search fuel (take mid l) x
          else binary_search fuel (drop (S mid) l) x
      end
  end.

Definition is_local_interface_ip (st : SafelistState) (ip_str : string) : bool :=
  match parse_ip ip_str with
  | Some (V4 v4) =>
      match local_interface_ips st with
      | Some l => binary_search (S (length l)) l (v4_u32 v4)
      | None => false
      end
  | _ => false
  end.

Definition is_operator_self_infra_ip (st : SafelistState) (ip_str : string) : bool :=
  match operator_self_infra st with Some ranges => ip_in_ranges ranges ip_str | None => false end.

Definition is_self_traffic_ip (st : SafelistState) (ip_str : string) : bool :=
  is_cloud_provider_ip st ip_str || is_local_interface_ip st ip_str || is_operator_self_infra_ip st ip_str.

Definition octet_in (l : list Z) (o : Z) : bool := any (Z.eqb o) l.

Definition identify_provider (ip_str : string) : option string :=
  match parse_ip ip_str with
  | Some (V4 (MkV4 a b c d)) =>
      let ip := v4_u32 (MkV4 a b c d) in
      if any (fun cidr => match from_str cidr with Some r => range_contains r ip | None => false end)
           CLOUDFLARE_RANGES then Some "Cloudflare"
      else if octet_in [23; 96; 184] a then Some "Akamai"
      else if a =? 151 then Some "Fastly"
      else if octet_in [64; 130; 143; 144] a then Some "CloudFront"
      else if a =? 34 then if b <? 128 then Some "Google Cloud" else Some "AWS"
      else if octet_in [35; 142; 172; 209] a then Some "Google Cloud"
      else if octet_in [3; 13; 15; 18; 44; 52; 54; 99] a then Some "AWS"
      else if octet_in [20; 40; 168; 191] a then Some "Azure"
      else if octet_in [129; 132; 134; 140; 150; 152] a then Some "Oracle Cloud"
      else if octet_in [157; 159; 161; 164; 165; 167; 174; 178; 188; 206] a then Some "DigitalOcean"
      else if octet_in [173; 108; 190; 162; 141; 197; 198; 216] a then Some "Cloudflare"
      else if octet_in [49; 78; 88; 95; 116; 128; 135; 136; 138; 148; 176; 195; 213] a then Some "Hetzner"
      else None
  | _ => None
  end.

Definition safelist_label (st : SafelistState) (ip_str : string) : option string :=
  if negb (is_cloud_provider_ip st ip_str) then None
  else match identify_provider ip_str with Some l => Some l | None => Some "Cloud Safelist" end.

(** ** Membership in a range *)

(** A block [base/p] of version 4 whose first [p] bits are those of [v]. *)
Definition covers (entry : string) (v : Ipv4Addr) : Prop :=
  exists base_str prefix_str p b, split_slash entry = Some (base_str, prefix_str) /\
    parse_uint 32 prefix_str = Some p /\ p <= 32 /\ parse_ip base_str = Some (V4 b) /\
    v4_u32 v / 2 ^ (32 - p) = v4_u32 b / 2 ^ (32 - p).

Lemma from_str_contains entry v : v4_ok v ->
  (exists r, from_str entry = Some r /\ range_contains r (v4_u32 v) = true) <-> covers entry v.
Proof.
  intros Hv. unfold from_str, covers, range_contains.
  destruct (split_slash entry) as [[base_str prefix_str]|]; cbn [mbind option_bind]; [|naive_solver].
  destruct (parse_uint 32 prefix_str) as [p|] eqn:Ep; cbn [mbind option_bind]; [|naive_solver].
  pose proof (parse_uint_range _ _ _ Ep). destruct (Z.ltb_spec 32 p).
  { split; [naive_solver|]. intros (? & ? & ? & ? & ? & ? & ? & ?). simplify_eq. lia. }
  destruct (parse_ip base_str) as [[b|b]|] eqn:Eb; cbn [mbind option_bind];
    [|split; [naive_solver|intros (? & ? & ? & ? & ? & ? & ? & ? & ?); congruence]..].
  pose proof (cidr_match_spec 32 (v4_u32 v) (v4_u32 b) p (v4_u32_range _ Hv)
    (v4_u32_range _ (parse_ip_ok _ _ Eb)) ltac:(lia)) as Hc. unfold cidr_match in Hc. split.
  - intros (r & [= <-] & Hr). cbn in Hr. rewrite Hc, Z.eqb_eq in Hr. by do 4 eexists.
  - intros (? & ? & ? & ? & ? & ? & _ & ? & E). simplify_eq. eexists. split; [done|]. cbn. rewrite Hc.
    by apply Z.eqb_eq.
Qed.

Lemma ranges_contain (f : string -> option string) entries v : v4_ok v ->
  any (fun r => range_contains r (v4_u32 v)) (omap (fun raw => f raw ≫= from_str) entries) = true <->
  exists raw entry, raw ∈ entries /\ f raw = Some entry /\ covers entry v.
Proof.
  intros Hv. rewrite any_true. setoid_rewrite list_elem_of_omap. split.
  - intros (r & (raw & Hin & (e & He & Hr)%bind_Some) & Hc). exists raw, e. split; [done|]. split; [done|].
    apply from_str_contains; [done|by exists r].
  - intros (raw & e & Hin & He & (r & Hr & Hc)%from_str_contains); [|done]. exists r. split; [|done].
    exists raw. split; [done|]. by rewrite He.
Qed.

Lemma table_contains entries v : v4_ok v ->
  any (fun r => range_contains r (v4_u32 v)) (omap from_str entries) = true <->
  exists entry, entry ∈ entries /\ covers entry v.
Proof. intros Hv. etrans; [apply (ranges_contain Some entries v Hv)|]. naive_solver. Qed.

(** ** The search among the own addresses *)

Lemma dedup_elem x l : x ∈ dedup l <-> x ∈ l.
Proof.
  induction l as [|a [|b l] IH]; [done..|]. cbn [dedup]. destruct (Z.eqb_spec a b) as [->|].
  - change (x ∈ dedup (b :: l) <-> x ∈ b :: b :: l). rewrite IH. set_solver.
  - change (x ∈ a :: dedup (b :: l) <-> x ∈ a :: b :: l). rewrite elem_of_cons, IH. set_solver.
Qed.

Lemma dedup_sorted l : StronglySorted Z.le l -> StronglySorted Z.le (dedup l).
Proof.
  induction l as [|a [|b l] IH]; [done..|]. intros [Hs Ha]%StronglySorted_inv. cbn [dedup].
  destruct (Z.eqb_spec a b) as [->|]; [by apply IH|]. constructor; [by apply IH|].
  apply Forall_forall. intros x Hx. apply (proj1 (Forall_forall _ _) Ha). by apply dedup_elem.
Qed.

Lemma binary_search_spec x fuel : forall l, (length l < fuel)%nat -> StronglySorted Z.le l ->
  binary_search fuel l x = true <-> x ∈ l.
Proof.
  induction fuel as [|fuel IH]; intros l Hf Hs; [lia|]. cbn [binary_search].
  destruct (l !! Nat.div2 (length l)) as [y|] eqn:Ey.
  - assert (Hm := lookup_lt_Some _ _ _ Ey). pose proof (take_drop_middle _ _ _ Ey) as El.
    set (mid := Nat.div2 (length l)) in *. rewrite <- El in Hs. apply StronglySorted_app in Hs as (Hlt & Hs1 & Hs2).
    apply StronglySorted_inv in Hs2 as [Hs2 Hge]. rewrite <- El at 3. rewrite elem_of_app, elem_of_cons.
    destruct (Z.eqb_spec x y) as [->|Hne]; [naive_solver|]. destruct (Z.ltb_spec x y).
    + rewrite IH; [|rewrite length_take; lia|done]. split; [tauto|]. intros [?|[?|Hx]]; [done..|].
      apply (proj1 (Forall_forall _ _) Hge) in Hx. lia.
    + rewrite IH; [|rewrite length_drop; lia|done]. split; [tauto|]. intros [Hx|[?|?]]; [|done..].
      specialize (Hlt x y Hx ltac:(left)). lia.
  - apply lookup_ge_None in Ey. destruct l as [|a l]; [by rewrite elem_of_nil|].
    pose proof (Nat.div2_decr (length l) (length (a :: l))). cbn in *. exfalso.
    pose proof (Nat.lt_div2 (S (length l)) ltac:(lia)). cbn in *. lia.
Qed.

Lemma local_interface_spec st x content : local_interface_ips st = None ->
  match local_interface_ips (init_local_interface_ips (Some content) st) with
  | Some l => binary_search (S (length l)) l x = true <-> x ∈ local_addresses (lines content)
  | None => False
  end.
Proof.
  intros Hn. unfold init_local_interface_ips. cbn [local_interface_ips]. rewrite Hn. cbn [once_set]. rewrite binary_search_spec; [|lia|].
  - rewrite dedup_elem. by rewrite merge_sort_Permutation.
  - apply dedup_sorted, StronglySorted_merge_sort; apply _.
Qed.

(** ** The properties *)

Lemma is_cloud_provider_spec fib ip :
  is_cloud_provider_ip (init fib uninitialised) ip = true <->
  exists v, parse_ip ip = Some (V4 v) /\ exists entry, entry ∈ safelist_entries /\ covers entry v.
Proof.
  unfold is_cloud_provider_ip.
  destruct (parse_ip ip) as [[v|v]|] eqn:Ei; [|split; [done|intros (? & ? & _); congruence]..].
  change (cloud_ranges (init fib uninitialised)) with (Some (omap from_str safelist_entries)). cbn match.
  rewrite (table_contains _ _ (parse_ip_ok _ _ Ei)). naive_solver.
Qed.

(** The safelist keeps every range it lists: each entry of the five
    tables parses, and once the module is initialised an address has a label,
    so that its block is refused, exactly when it is a version-4 address with
    the leading bits of one of the entries. *)
Theorem safelist_exact fib ip :
  Forall (fun entry => is_Some (from_str entry)) safelist_entries
  /\ (is_Some (safelist_label (init fib uninitialised) ip) <->
      exists v, parse_ip ip = Some (V4 v) /\ exists entry, entry ∈ safelist_entries /\ covers entry v).
Proof.
  split.
  - apply Forall_forall. intros e He.
    assert (forallb (fun e => match from_str e with Some _ => true | None => false end) safelist_entries = true) as Hb
      by (vm_compute; reflexivity).
    rewrite forallb_forall in Hb. specialize (Hb e (proj1 (list_elem_of_In _ _) He)).
    destruct (from_str e); [by eexists|done].
  - rewrite <- (is_cloud_provider_spec fib ip). unfold safelist_label.
    destruct (is_cloud_provider_ip (init fib uninitialised) ip); cbn [negb].
    + split; [done|]. intros _. by destruct (identify_provider ip); eexists.
    + split; [by intros [? [=]]|done].
Qed.

(** Self-traffic is exactly: a version-4 address in a safelisted range, an
    address the routing table binds to the host (whatever the order and the
    repetitions of its lines), or an address in one of the operator's own
    ranges, where a bare address counts as its /32. *)
Theorem self_traffic_exact fib entries ip :
  is_self_traffic_ip (init_operator_self_infra entries (init (Some fib) uninitialised)) ip = true <->
  exists v, parse_ip ip = Some (V4 v) /\
    ((exists entry, entry ∈ safelist_entries /\ covers entry v)
     \/ v4_u32 v ∈ local_addresses (lines fib)
     \/ exists raw entry, raw ∈ entries /\ normalized raw = Some entry /\ covers entry v).
Proof.
  set (st := init_operator_self_infra entries (init (Some fib) uninitialised)).
  assert (is_cloud_provider_ip st ip = is_cloud_provider_ip (init (Some fib) uninitialised) ip) as Hcloud by done.
  unfold is_self_traffic_ip. rewrite !orb_true_iff, Hcloud, is_cloud_provider_spec.
  unfold is_local_interface_ip, is_operator_self_infra_ip, ip_in_ranges.
  destruct (parse_ip ip) as [[v|v]|] eqn:Ei;
    [|split; [by intros [[(? & ? & _)|?]|?]|intros (? & ? & _); congruence]..].
  pose proof (local_interface_spec {| cloud_ranges := Some (omap from_str safelist_entries);
    cloudflare_edge_ranges := Some (omap from_str CLOUDFLARE_RANGES); local_interface_ips := None;
    operator_self_infra := None |} (v4_u32 v) fib eq_refl) as Hl.
  change (local_interface_ips st) with (local_interface_ips (init_local_interface_ips (Some fib)
    {| cloud_ranges := Some (omap from_str safelist_entries);
       cloudflare_edge_ranges := Some (omap from_str CLOUDFLARE_RANGES); local_interface_ips := None;
       operator_self_infra := None |})).
  destruct (local_interface_ips _) as [l|]; [|done]. rewrite Hl.
  change (operator_self_infra st) with (Some (build_self_infra_ranges entries)). unfold build_self_infra_ranges.
  rewrite (ranges_contain normalized _ _ (parse_ip_ok _ _ Ei)). split.
  - intros [[(? & [= <-] & ?)|?]|?]; exists v; tauto.
  - intros (? & [= <-] & [?|[?|?]]); [left; left; by exists v|tauto..].
Qed.
