(* ===== verification/GuardRules.v ===== *)
(** * GuardRules: the agent threat rules (crates/agent-guard/src/rules.rs)

    A rule file, once serde has read it, is compiled: only pattern-tier rules,
    only their regex conditions.  The engine groups rules by the inspection
    point of their conditions and evaluates the group of a point.  serde_yaml's
    reading of a file is an argument (a raw rule or nothing), and the regular
    expressions are the class of GuardThreats.v.  Proved here: the groups lose
    nothing, an "all" rule fires on the conditions that compiled and belong to
    the point, and the overlay replaces rules by their id. *)

From Stdlib Require Import ZArith Lia Ascii String.
From stdpp Require Import prelude strings list gmap.
From S2P Require Import Prelude Text GuardThreats.

Local Open Scope string_scope.
Local Open Scope list_scope.
Local Open Scope Z_scope.

(** ** Rules *)

Inductive AtrField := UserInput | ToolArgs | ToolResponse | ToolName | Content.
#[export] Instance atr_field_eq_dec : EqDecision AtrField.
Proof. solve_decision. Defined.

Inductive CompiledRegex := Fast (p : string) | Fancy (p : string).

Definition is_match `{RegexEngine} (r : CompiledRegex) (content : string) : bool :=
  match r with
  | Fast p => regex_is_match p content
  | Fancy p => default false (fancy_is_match p content)
  end.

Record CompiledCondition := { cc_field : AtrField; cc_regex : CompiledRegex; cc_description : string }.

Inductive ConditionLogic := Any | All.

Record AtrReferences := {
  owasp_llm : list string;
  owasp_agentic : list string;
  mitre_atlas : list string;
  mitre_attack : list string;
}.
Definition no_references : AtrReferences :=
  {| owasp_llm := []; owasp_agentic := []; mitre_atlas := []; mitre_attack := [] |}.

Record CompiledRule := {
  cr_id : string;
  cr_title : string;
  cr_severity : string;
  cr_category : string;
  cr_conditions : list CompiledCondition;
  cr_logic : ConditionLogic;
  cr_references : AtrReferences;
}.

Record AtrMatch := {
  m_rule_id : string;
  m_title : string;
  m_severity : string;
  m_category : string;
  m_matched_condition : string;
  m_references : AtrReferences;
}.

(** ** Loading *)

Inductive RawTags := TagMap (category : string) | TagList (l : list string) | TagString (s : string) | TagEmpty.
Definition category (t : RawTags) : string :=
  match t with
  | TagMap c => c
  | TagList l => default "" (head l)
  | TagString s => s
  | TagEmpty => ""
  end.

Inductive RawReferences :=
| RefMap (r : AtrReferences) | RefList (l : list string) | RefString (s : string) | RefEmpty.
Definition into_atr_references (r : RawReferences) : AtrReferences :=
  match r with
  | RefMap m => m
  | RefList l => {| owasp_llm := []; owasp_agentic := []; mitre_atlas := []; mitre_attack := l |}
  | RefString s => {| owasp_llm := []; owasp_agentic := []; mitre_atlas := []; mitre_attack := [s] |}
  | RefEmpty => no_references
  end.

Record RawCondition := {
  rc_field : string;
  rc_operator : string;
  rc_value : string;
  rc_description : option string;
}.

Record RawRule := {
  rr_id : option string;
  rr_title : option string;
  rr_severity : string;
  rr_detection_tier : string;
  rr_tags : RawTags;
  rr_references : RawReferences;
  rr_conditions : list RawCondition;
  rr_condition : option string;
}.

Definition parse_field (raw : string) : AtrField :=
  if String.eqb raw "tool_response" || String.eqb raw "agent_output" then ToolResponse
  else if String.eqb raw "tool_args" then ToolArgs
  else if String.eqb raw "tool_name" || String.eqb raw "tool" then ToolName
  else if String.eqb raw "content" then Content
  else UserInput.

Section Engine.
Context `{RegexEngine}.

Definition compile_regex (p : string) : option CompiledRegex :=
  if regex_compiles p then Some (Fast p) else if fancy_compiles p then Some (Fancy p) else None.

Definition compile_condition (id : string) (c : RawCondition) : option CompiledCondition :=
  if negb (String.eqb (rc_operator c) "regex") || String.eqb (rc_value c) "" then None
  else
    re ← compile_regex (rc_value c);
    Some {| cc_field := parse_field (rc_field c); cc_regex := re;
            cc_description := default (id +:+ " match") (rc_description c) |}.

(** What [load_rule_str] makes of the rule serde has read. *)
Definition load_rule (raw : RawRule) : option CompiledRule :=
  if negb (String.eqb (rr_detection_tier raw) "pattern") then None
  else
    let id := default "" (rr_id raw) in
    match rr_conditions raw with
    | [] => None
    | _ =>
        let logic := match rr_condition raw with
                     | Some s => if String.eqb s "all" then All else Any
                     | None => Any
                     end in
        match omap (compile_condition id) (rr_conditions raw) with
        | [] => None
        | conditions =>
            Some {| cr_id := id; cr_title := default "" (rr_title raw); cr_severity := rr_severity raw;
                    cr_category := category (rr_tags raw); cr_conditions := conditions; cr_logic := logic;
                    cr_references := into_atr_references (rr_references raw) |}
        end
    end.

(** ** The engine *)

Record RuleEngine := {
  rules : list CompiledRule;
  user_input_idx : list nat;
  tool_args_idx : list nat;
  tool_response_idx : list nat;
  tool_name_idx : list nat;
}.

Definition has_field (f : AtrField) (r : CompiledRule) : bool :=
  any (fun c => bool_decide (cc_field c = f)) (cr_conditions r).

(** The positions of the rules with a condition on [f], or on every point. *)
Fixpoint indices_for (f : AtrField) (i : nat) (rs : list CompiledRule) : list nat :=
  match rs with
  | [] => []
  | r :: rest =>
      if has_field f r || has_field Content r then i :: indices_for f (S i) rest
      else indices_for f (S i) rest
  end.

Definition from_rules (rs : list CompiledRule) : RuleEngine :=
  {| rules := rs; user_input_idx := indices_for UserInput 0 rs; tool_args_idx := indices_for ToolArgs 0 rs;
     tool_response_idx := indices_for ToolResponse 0 rs; tool_name_idx := indices_for ToolName 0 rs |}.

Definition rule_match (r : CompiledRule) (description : string) : AtrMatch :=
  {| m_rule_id := cr_id r; m_title := cr_title r; m_severity := cr_severity r; m_category := cr_category r;
     m_matched_condition := description; m_references := cr_references r |}.

Definition relevant (r : CompiledRule) (target_fields : list AtrField) : list CompiledCondition :=
  retain (fun c => bool_decide (cc_field c ∈ target_fields)) (cr_conditions r).

Definition eval_rule (r : CompiledRule) (content : string) (target_fields : list AtrField) : option AtrMatch :=
  match relevant r target_fields with
  | [] => None
  | (first :: _) as rel =>
      match cr_logic r with
      | Any => (fun c => rule_match r (cc_description c)) <$> List.find (fun c => is_match (cc_regex c) content) rel
      | All => if forallb (fun c => is_match (cc_regex c) content) rel
               then Some (rule_match r (cc_description first)) else None
      end
  end.

(** An index out of range does not occur: [from_rules] makes them. *)
Definition check_indices (e : RuleEngine) (indices : list nat) (content : string) (target_fields : list AtrField)
  : list AtrMatch :=
  omap (fun idx => r ← rules e !! idx; eval_rule r content target_fields) indices.

Definition check_user_input (e : RuleEngine) (content : string) : list AtrMatch :=
  check_indices e (user_input_idx e) content [UserInput; Content].
Definition check_tool_args (e : RuleEngine) (content : string) : list AtrMatch :=
  check_indices e (tool_args_idx e) content [ToolArgs; Content].
Definition check_tool_name (e : RuleEngine) (tool_name : string) : list AtrMatch :=
  check_indices e (tool_name_idx e) tool_name [ToolName; Content].
Definition check_tool_response (e : RuleEngine) (content : string) : list AtrMatch :=
  check_indices e (tool_response_idx e) content [ToolResponse; Content].

(** The embedded rules, then the overlay's, by their id; the values of the
    table in the order of its iteration. *)
Definition by_id (rs : list CompiledRule) : gmap string CompiledRule :=
  foldl (fun m r => <[cr_id r := r]> m) ∅ rs.
Definition load_with_overlay (embedded overlay : list RawRule) : RuleEngine :=
  from_rules (snd <$> map_to_list (by_id (omap load_rule embedded ++ omap load_rule overlay))).

(** ** The groups lose nothing *)

Lemma relevant_nil f r :
  has_field f r || has_field Content r = false -> relevant r [f; Content] = [].
Proof.
  unfold has_field, relevant, any, retain. induction (cr_conditions r) as [|c l IH]; [done|].
  cbn. rewrite !orb_false_iff. intros [[H1 H2] [H3 H4]]. apply bool_decide_eq_false in H1, H3.
  rewrite bool_decide_eq_false_2 by set_solver. apply IH. by rewrite H2, H4.
Qed.

Lemma check_indices_all f content pre rs :
  omap (fun idx => r ← (pre ++ rs) !! idx; eval_rule r content [f; Content]) (indices_for f (length pre) rs)
  = omap (fun r => eval_rule r content [f; Content]) rs.
Proof.
  revert pre. induction rs as [|r rs IH]; intros pre; [done|]. cbn [indices_for omap list_omap].
  assert (pre ++ r :: rs = (pre ++ [r]) ++ rs) as E by (by rewrite <- app_assoc).
  specialize (IH (pre ++ [r])). rewrite length_app in IH. cbn [length] in IH.
  replace (length pre + 1)%nat with (S (length pre)) in IH by lia.
  destruct (has_field f r || has_field Content r) eqn:Ef.
  - cbn [omap list_omap]. rewrite E, IH. rewrite <- E, list_lookup_middle by done. done.
  - rewrite E, IH. unfold eval_rule at 2. by rewrite (relevant_nil _ _ Ef).
Qed.

Lemma check_user_input_all rs content :
  check_user_input (from_rules rs) content = omap (fun r => eval_rule r content [UserInput; Content]) rs.
Proof. apply (check_indices_all UserInput content [] rs). Qed.
Lemma check_tool_args_all rs content :
  check_tool_args (from_rules rs) content = omap (fun r => eval_rule r content [ToolArgs; Content]) rs.
Proof. apply (check_indices_all ToolArgs content [] rs). Qed.
Lemma check_tool_response_all rs content :
  check_tool_response (from_rules rs) content = omap (fun r => eval_rule r content [ToolResponse; Content]) rs.
Proof. apply (check_indices_all ToolResponse content [] rs). Qed.
Lemma check_tool_name_all rs content :
  check_tool_name (from_rules rs) content = omap (fun r => eval_rule r content [ToolName; Content]) rs.
Proof. apply (check_indices_all ToolName content [] rs). Qed.

(** ** When a rule fires *)

Lemma eval_rule_fires r content fs :
  is_Some (eval_rule r content fs) <->
  (exists c, c ∈ relevant r fs) /\
  match cr_logic r with
  | Any => exists c, c ∈ relevant r fs /\ is_match (cc_regex c) content = true
  | All => forall c, c ∈ relevant r fs -> is_match (cc_regex c) content = true
  end.
Proof.
  unfold eval_rule. destruct (relevant r fs) as [|first rel] eqn:Er.
  - split; [by intros [??]|]. intros [[c Hc] _]. by apply elem_of_nil in Hc.
  - assert (exists c, c ∈ first :: rel) as Hf by (exists first; left). destruct (cr_logic r).
    + rewrite fmap_is_Some, find_is_Some. split; [by intros (c & ? & ?); split; [|exists c]|by intros [_ ?]].
    + destruct (forallb _ (first :: rel)) eqn:El.
      * rewrite forallb_elem in El. split; [done|by eexists].
      * apply not_true_iff_false in El. rewrite forallb_elem in El. split; [by intros [??]|]. by intros [_ Ha].
Qed.

(** A condition that takes part at an inspection point: a regex that compiles,
    on one of its fields. *)
Definition usable (fs : list AtrField) (c : RawCondition) (re : CompiledRegex) : Prop :=
  rc_operator c = "regex" /\ rc_value c <> "" /\ compile_regex (rc_value c) = Some re /\
  parse_field (rc_field c) ∈ fs.

Lemma relevant_usable raw rule fs re : load_rule raw = Some rule ->
  (exists cc, cc ∈ relevant rule fs /\ cc_regex cc = re) <->
  (exists c, c ∈ rr_conditions raw /\ usable fs c re).
Proof.
  unfold load_rule. destruct (negb _); [done|]. destruct (rr_conditions raw) as [|c0 cs0] eqn:Ec; [done|].
  rewrite <- Ec. clear Ec. destruct (omap _ _) as [|k ks] eqn:Eo; [done|]. intros [= <-].
  unfold relevant. cbn [cr_conditions]. rewrite <- Eo. setoid_rewrite retain_elem.
  setoid_rewrite bool_decide_eq_true. setoid_rewrite list_elem_of_omap. unfold compile_condition, usable. split.
  - intros (cc & [(c & Hin & Hc) Hf] & <-). exists c. split; [done|].
    destruct (String.eqb_spec (rc_operator c) "regex"); [|done].
    destruct (String.eqb_spec (rc_value c) ""); [done|]. cbn in Hc.
    destruct (compile_regex (rc_value c)); [|done]. by simplify_eq/=.
  - intros (c & Hin & Hop & Hv & Hre & Hf).
    eexists. split; [split|]; [exists c; split; [exact Hin|]|..].
    + rewrite Hop, (proj2 (String.eqb_neq _ _) Hv). cbn. by rewrite Hre.
    + exact Hf.
    + done.
Qed.

(** A loaded rule fires at an inspection point exactly when a condition on
    the point's fields took part in loading and, as its logic says, one of those
    matches or all of those match.  Conditions with another operator, without a
    value, that do not compile, or on other fields do not count: an "all" rule
    fires without them. *)
Theorem loaded_rule_fires raw rule content fs : load_rule raw = Some rule ->
  is_Some (eval_rule rule content fs) <->
  (exists c re, c ∈ rr_conditions raw /\ usable fs c re) /\
  if bool_decide (rr_condition raw = Some "all")
  then forall c re, c ∈ rr_conditions raw -> usable fs c re -> is_match re content = true
  else exists c re, c ∈ rr_conditions raw /\ usable fs c re /\ is_match re content = true.
Proof.
  intros Hl. pose proof (fun re => relevant_usable raw rule fs re Hl) as Hu. rewrite eval_rule_fires.
  assert (cr_logic rule = if bool_decide (rr_condition raw = Some "all") then All else Any) as ->.
  { clear Hu. unfold load_rule in Hl. destruct (negb _); [done|]. destruct (rr_conditions raw); [done|].
    destruct (omap _ _); [done|]. injection Hl as <-. cbn. destruct (rr_condition raw) as [logic|]; [|done].
    destruct (String.eqb_spec logic "all") as [->|]; case_bool_decide; naive_solver. }
  assert ((exists c, c ∈ relevant rule fs) <-> exists c re, c ∈ rr_conditions raw /\ usable fs c re) as ->.
  { split; [intros (cc & Hc)|intros (c & re & Hc)].
    - destruct (proj1 (Hu (cc_regex cc))) as (c & ?); [by exists cc|]. by exists c, (cc_regex cc).
    - destruct (proj2 (Hu re)) as (cc & ? & _); [by exists c|by exists cc]. }
  case_bool_decide.
  - f_equiv. split.
    + intros Ha c re Hc Hus. destruct (proj2 (Hu re)) as (cc & Hcc & <-); [by exists c|]. by apply Ha.
    + intros Ha cc Hcc. destruct (proj1 (Hu (cc_regex cc))) as (c & ? & ?); [by exists cc|]. by eapply Ha.
  - f_equiv. split.
    + intros (cc & Hcc & Hm). destruct (proj1 (Hu (cc_regex cc))) as (c & ? & ?); [by exists cc|].
      by exists c, (cc_regex cc).
    + intros (c & re & Hc & Hus & Hm). destruct (proj2 (Hu re)) as (cc & Hcc & <-); [by exists c|].
      by exists cc.
Qed.

(** ** The overlay *)

Lemma by_id_lookup rs k :
  by_id rs !! k = last (retain (fun r => String.eqb (cr_id r) k) rs).
Proof.
  unfold by_id, retain. induction rs as [|r rs IH] using rev_ind; [done|].
  rewrite foldl_app. cbn [foldl]. rewrite List.filter_app. cbn [List.filter].
  destruct (String.eqb_spec (cr_id r) k) as [<-|Hne].
  - by rewrite lookup_insert_eq, last_snoc.
  - by rewrite lookup_insert_ne, IH, app_nil_r by done.
Qed.

(** The engine of the embedded rules with an overlay holds, for each id,
    the last rule of that id that loads, the overlay coming after the embedded
    rules, and nothing else; at every inspection point it reports what
    evaluating each of its rules reports. *)
Theorem overlay_by_id embedded overlay r content :
  let e := load_with_overlay embedded overlay in
  (r ∈ rules e <->
   last (retain (fun x => String.eqb (cr_id x) (cr_id r)) (omap load_rule (embedded ++ overlay))) = Some r)
  /\ check_user_input e content = omap (fun r => eval_rule r content [UserInput; Content]) (rules e)
  /\ check_tool_args e content = omap (fun r => eval_rule r content [ToolArgs; Content]) (rules e)
  /\ check_tool_response e content = omap (fun r => eval_rule r content [ToolResponse; Content]) (rules e)
  /\ check_tool_name e content = omap (fun r => eval_rule r content [ToolName; Content]) (rules e).
Proof.
  cbv zeta. split; [|split_and!; [apply check_user_input_all|apply check_tool_args_all|
    apply check_tool_response_all|apply check_tool_name_all]].
  unfold load_with_overlay. cbn [rules from_rules]. rewrite <- omap_app.
  set (rs := omap load_rule (embedded ++ overlay)). rewrite <- by_id_lookup. split.
  - intros ([k x] & -> & Hin)%list_elem_of_fmap. cbn. apply elem_of_map_to_list in Hin.
    pose proof Hin as Hl. rewrite by_id_lookup in Hl. apply last_Some_elem_of in Hl.
    apply retain_elem in Hl as [_ ->%String.eqb_eq]. done.
  - intros Hl. apply list_elem_of_fmap. exists (cr_id r, r). split; [done|]. by apply elem_of_map_to_list.
Qed.
End Engine.

(** ** The properties at concrete inputs *)

(** Patterns taken literally; an open parenthesis does not compile. *)
#[local] Instance literal_regex : RegexEngine := {|
  regex_compiles p := negb (contains "(" p); regex_is_match := contains;
  fancy_compiles _ := false; fancy_is_match _ _ := None |}.

Definition raw_condition (field value : string) : RawCondition :=
  {| rc_field := field; rc_operator := "regex"; rc_value := value; rc_description := None |}.
Definition raw_all (conditions : list RawCondition) : RawRule :=
  {| rr_id := Some "ATR-1"; rr_title := None; rr_severity := "high"; rr_detection_tier := "pattern";
     rr_tags := TagEmpty; rr_references := RefEmpty; rr_conditions := conditions; rr_condition := Some "all" |}.

Lemma loaded_rule_fires_witness :
  let raw := raw_all [raw_condition "tool_args" "sudo"; raw_condition "tool_args" "(?<=x)y";
                      raw_condition "tool_response" "root"] in
  exists rule, load_rule raw = Some rule /\ is_Some (eval_rule rule "sudo ls" [ToolArgs; Content]).
Proof.
  cbv zeta. eexists. split; [reflexivity|].
  apply (loaded_rule_fires (raw_all [raw_condition "tool_args" "sudo"; raw_condition "tool_args" "(?<=x)y";
    raw_condition "tool_response" "root"])); [reflexivity|].
  cbn [rr_conditions raw_all rr_condition]. split.
  - exists (raw_condition "tool_args" "sudo"), (Fast "sudo"). split; [left|]. unfold usable. cbn. set_solver.
  - rewrite bool_decide_eq_true_2 by done. intros c re Hc (_ & _ & Hre & Hf).
    rewrite !elem_of_cons in Hc. destruct Hc as [->|[->|[->|Hc]]]; cbn in Hre, Hf; simplify_eq; try done.
    + rewrite !elem_of_cons in Hf. by destruct Hf as [?|[?|?%elem_of_nil]].
    + by apply elem_of_nil in Hc.
Defined.
