(* ===== verification/GuardRegistry.v ===== *)
(** * GuardRegistry: known agents, connected agents and their sessions
    (crates/agent-guard/src/{signatures,registry,session}.rs)

    Signatures of AI agents are found by process name or command line; connected
    agents are kept by id, one per process, and survive a restart as a snapshot;
    each has a session that watches for bursts and exfiltration.  The reading of
    /proc and the files of the snapshot are left out, serde keeps the snapshot as
    it is.  Proved here: the answer of [identify] does not depend on the order in
    which the hash table is walked; ids and processes stay unique across
    connects, disconnects and restarts; the session's alerts are exact. *)

From Stdlib Require Import ZArith Lia Ascii String.
From stdpp Require Import prelude strings list gmap.
From S2P Require Import Prelude Text GuardThreats.

Local Open Scope string_scope.
Local Open Scope list_scope.
Local Open Scope Z_scope.

(** ** Signatures *)

Inductive Kind := KAgent | KTool | KRuntime.
Inductive IntegrationLevel := Official | Monitored.
#[export] Instance kind_eq_dec : EqDecision Kind.
Proof. solve_decision. Defined.

Record Signature := {
  sig_name : string;
  sig_vendor : string;
  sig_kind : Kind;
  sig_integration : IntegrationLevel;
  sig_process_names : list string;
  sig_install_cmd : option string;
}.
Definition mk_sig (name vendor : string) (k : Kind) (i : IntegrationLevel) (names : list string)
  (install : option string) : Signature :=
  {| sig_name := name; sig_vendor := vendor; sig_kind := k; sig_integration := i; sig_process_names := names;
     sig_install_cmd := install |}.

Definition KNOWN : list Signature :=
  [mk_sig "OpenClaw" "Peter Steinberger" KAgent Official
     ["openclaw"; "moltbot"; "clawdbot"; "molty"] (Some "npm install -g @anthropic-ai/openclaw");
   mk_sig "ZeroClaw" "ZeroClaw Labs" KAgent Official
     ["zeroclaw"; "zeroclaw-agent"] (Some "cargo install zeroclaw");
   mk_sig "Claude Code" "Anthropic" KTool Official
     ["claude"; "claude-code"] None;
   mk_sig "Codex CLI" "OpenAI" KTool Official
     ["codex"; "openai-codex"] None;
   mk_sig "Gemini CLI" "Google" KTool Official
     ["gemini"; "gemini-cli"] None;
   mk_sig "Aider" "Aider-AI" KTool Official
     ["aider"] None;
   mk_sig "Goose" "Block" KTool Official
     ["goose"] None;
   mk_sig "Cursor" "Anysphere" KTool Official
     ["cursor"; "Cursor"] None;
   mk_sig "Windsurf" "Codeium" KTool Monitored
     ["windsurf"; "Windsurf"] None;
   mk_sig "Cline" "Community" KTool Monitored
     ["cline"] None;
   mk_sig "GitHub Copilot" "GitHub" KTool Monitored
     ["copilot-agent"; "copilot"; "copilot-language-server"] None;
   mk_sig "Devin" "Cognition" KTool Monitored
     ["devin"; "devin-agent"] None;
   mk_sig "OpenHands" "All Hands AI" KTool Monitored
     ["openhands"; "opendevin"] None;
   mk_sig "SWE-agent" "Princeton NLP" KTool Monitored
     ["swe-agent"; "sweagent"] None;
   mk_sig "AutoGPT" "Significant Gravitas" KTool Monitored
     ["autogpt"; "auto-gpt"] None;
   mk_sig "MetaGPT" "DeepWisdom" KTool Monitored
     ["metagpt"] None;
   mk_sig "Ollama" "Ollama" KRuntime Monitored
     ["ollama"; "ollama_llama_server"] None;
   mk_sig "vLLM" "vLLM Project" KRuntime Monitored
     ["vllm"; "vllm-server"] None;
   mk_sig "llama.cpp" "ggerganov" KRuntime Monitored
     ["llama-server"; "llama-cli"] None;
   mk_sig "LM Studio" "LM Studio" KRuntime Monitored
     ["lm-studio"; "lms"] None].

Section Index.
Context `{Lowercase}.

Definition SignatureIndex : Type := gmap string nat.

Definition index_names (by_process : SignatureIndex) (isig : nat * Signature) : SignatureIndex :=
  foldl (fun m name => <[to_lowercase name := isig.1]> m) by_process (sig_process_names isig.2).
Definition index_new : SignatureIndex := foldl index_names ∅ (zip (seq 0 (length KNOWN)) KNOWN).

(** The first key of the walk that starts the name. *)
Definition prefix_match (walk : list (string * nat)) (lower : string) : option nat :=
  snd <$> List.find (fun kv => starts_with kv.1 lower) walk.

Definition identify (by_process : SignatureIndex) (process_name : string) : option Signature :=
  let lower := to_lowercase process_name in
  match by_process !! lower with
  | Some idx => KNOWN !! idx
  | None => idx ← prefix_match (map_to_list by_process) lower; KNOWN !! idx
  end.

Definition basename (path : string) : string := last_piece "/" path.
Definition is_interpreter (exe : string) : bool :=
  mem_str exe ["node"; "nodejs"; "deno"; "bun"; "ruby"; "php"; "perl"; "uv"] || starts_with "python" exe.

Definition lookup_token (by_process : SignatureIndex) (s : string) : option Signature :=
  idx ← by_process !! to_lowercase s; KNOWN !! idx.

(** The tokens after the interpreter, with the one before each. *)
Fixpoint identify_tokens (by_process : SignatureIndex) (prev : string) (tokens : list string) : option Signature :=
  match tokens with
  | [] => None
  | token :: rest =>
      match (if String.eqb prev "-m" then lookup_token by_process token else None) with
      | Some s => Some s
      | None =>
          match (if contains "/" token then head (omap (lookup_token by_process) (split_on "/" token)) else None) with
          | Some s => Some s
          | None => identify_tokens by_process token rest
          end
      end
  end.

Definition identify_cmdline (by_process : SignatureIndex) (argv : list string) : option Signature :=
  let exe := to_lowercase (basename (default "" (head argv))) in
  match by_process !! exe with
  | Some idx => KNOWN !! idx
  | None => if is_interpreter exe then identify_tokens by_process "" (tail argv) else None
  end.

Definition is_standalone_binary_launch (by_process : SignatureIndex) (argv : list string) : bool :=
  match by_process !! to_lowercase (basename (default "" (head argv))) with Some _ => true | None => false end.

Definition installable_agents : list Signature :=
  retain (fun s => bool_decide (sig_kind s = KAgent) && match sig_install_cmd s with Some _ => true | None => false end)
    KNOWN.
End Index.

(** ** Sessions *)

Definition MAX_CALLS_PER_MINUTE : Z := 30.
Definition MAX_FAILURES_PER_SESSION : Z := 5.
Definition MAX_SENSITIVE_PER_SESSION : Z := 3.

Inductive Layer := LWarn | LShadow | LKill.
Record Alert := { al_layer : Layer; al_reason : string }.

Record SessionTracker := {
  call_times : list Z;
  failures : Z;
  sensitive_accesses : list string;
  read_files : gmap string Z;
}.
Definition SessionTracker_new : SessionTracker :=
  {| call_times := []; failures := 0; sensitive_accesses := []; read_files := ∅ |}.

Definition lenZ {A} (l : list A) : Z := Z.of_nat (length l).

Definition record_call (now : Z) (s : SessionTracker) : SessionTracker * option Alert :=
  let times := retain (fun t => now - seconds 60 <? t) (call_times s ++ [now]) in
  ({| call_times := times; failures := failures s; sensitive_accesses := sensitive_accesses s;
      read_files := read_files s |},
   if MAX_CALLS_PER_MINUTE <? wrap 32 (lenZ times)
   then Some {| al_layer := LWarn;
                al_reason := show (lenZ times) +:+ "/min exceeds limit (" +:+ show MAX_CALLS_PER_MINUTE +:+ ")" |}
   else None).

Definition record_failure (s : SessionTracker) : SessionTracker * option Alert :=
  let n := wrapping_add 32 (failures s) 1 in
  ({| call_times := call_times s; failures := n; sensitive_accesses := sensitive_accesses s;
      read_files := read_files s |},
   if MAX_FAILURES_PER_SESSION <? n
   then Some {| al_layer := LWarn; al_reason := show n +:+ " failures in session" |} else None).

Definition record_file_access (now : Z) (path : string) (s : SessionTracker) : SessionTracker * option Alert :=
  match check_sensitive_path path with
  | None => (s, None)
  | Some _ =>
      let accesses := sensitive_accesses s ++ [path] in
      ({| call_times := call_times s; failures := failures s; sensitive_accesses := accesses;
          read_files := <[path := now]> (read_files s) |},
       Some {| al_layer := LWarn;
               al_reason := if MAX_SENSITIVE_PER_SESSION <? wrap 32 (lenZ accesses)
                            then show (lenZ accesses) +:+ " sensitive accesses"
                            else "sensitive file: " +:+ path |})
  end.

Definition OUTBOUND : list string := ["send"; "post"; "fetch"; "request"; "webhook"; "email"; "upload"].

Definition recent_leak (now : Z) (args : string) (pt : string * Z) : bool :=
  negb (seconds 300 <? now - pt.2) && contains pt.1 args.

Definition check_exfil (now : Z) (s : SessionTracker) (tool_name args : string) : option Alert :=
  let files := map_to_list (read_files s) in
  match files with
  | [] => None
  | _ =>
      if negb (any (fun k => contains k tool_name) OUTBOUND) then None
      else
        match List.find (recent_leak now args) files with
        | Some (path, _) =>
            Some {| al_layer := LKill; al_reason := "EXFIL: read '" +:+ path +:+ "' then outbound '" +:+ tool_name +:+ "'" |}
        | None =>
            Some {| al_layer := LWarn;
                    al_reason := "outbound '" +:+ tool_name +:+ "' after reading: " +:+ join ", " (take 3 (fst <$> files)) |}
        end
  end.

(** ** The registry *)

Record AgentPolicy := {
  po_mode : string;
  po_block_sensitive_paths : bool;
  po_wrap_mcp : bool;
  po_max_calls_per_minute : Z;
}.
Definition AgentPolicy_default : AgentPolicy :=
  {| po_mode := "warn"; po_block_sensitive_paths := true; po_wrap_mcp := true; po_max_calls_per_minute := 30 |}.

Record AgentStats := { as_tool_calls : Z; as_blocked : Z; as_warnings : Z; as_files_accessed : Z }.
Definition AgentStats_default : AgentStats :=
  {| as_tool_calls := 0; as_blocked := 0; as_warnings := 0; as_files_accessed := 0 |}.

(** What a snapshot keeps of an agent. *)
Record PersistedAgent := {
  pa_id : string;
  pa_name : string;
  pa_instance_label : string;
  pa_pid : Z;
  pa_kind : Kind;
  pa_integration : string;
  pa_connected_at : Z;
  pa_policy : AgentPolicy;
  pa_stats : AgentStats;
  pa_exe_path : option string;
  pa_owner_uid : option Z;
  pa_cmdline_fingerprint : option string;
}.

(** A connected agent: that, and its session. *)
Record ConnectedAgent := { ca_identity : PersistedAgent; ca_session : SessionTracker }.
Definition ca_pid (a : ConnectedAgent) : Z := pa_pid (ca_identity a).

(** The registry and the counter [NEXT_ID] of the process. *)
Record Registry := { agents : gmap string ConnectedAgent; index : SignatureIndex; next_id : Z }.

Record RegistrySnapshot := { sn_schema_version : Z; sn_next_id : Z; sn_agents : list PersistedAgent }.

Section Operations.
Context `{Lowercase}.

Definition Registry_new (counter : Z) : Registry := {| agents := ∅; index := index_new; next_id := counter |}.

(** [format!("{:?}", integration).to_lowercase()]. *)
Definition integration_label (i : IntegrationLevel) : string :=
  match i with Official => "official" | Monitored => "monitored" end.

Definition agent_id (n : Z) : string := "ag-" +:+ show_hex04 n.

Definition connect_with_facts (now : Z) (r : Registry) (name : string) (pid : Z) (instance_label : option string)
  (exe_path : option string) (owner_uid : option Z) (cmdline_fingerprint : option string)
  : Registry * result string string :=
  if any (fun ka => ca_pid ka.2 =? pid) (map_to_list (agents r))
  then (r, Err ("pid " +:+ show pid +:+ " already connected"))
  else
    let id := agent_id (next_id r) in
    let '(kind, integration) := match identify (index r) name with
                                | Some sig => (sig_kind sig, integration_label (sig_integration sig))
                                | None => (KTool, "monitored")
                                end in
    let agent := {| ca_identity := {| pa_id := id; pa_name := name;
                      pa_instance_label := default (name +:+ "-" +:+ show pid) instance_label; pa_pid := pid;
                      pa_kind := kind; pa_integration := integration; pa_connected_at := now;
                      pa_policy := AgentPolicy_default; pa_stats := AgentStats_default; pa_exe_path := exe_path;
                      pa_owner_uid := owner_uid; pa_cmdline_fingerprint := cmdline_fingerprint |};
                    ca_session := SessionTracker_new |} in
    ({| agents := <[id := agent]> (agents r); index := index r; next_id := wrapping_add 64 (next_id r) 1 |}, Ok id).

Definition disconnect (r : Registry) (id : string) : Registry * bool :=
  match agents r !! id with
  | Some _ => ({| agents := delete id (agents r); index := index r; next_id := next_id r |}, true)
  | None => (r, false)
  end.

Definition by_pid (r : Registry) (pid : Z) : option ConnectedAgent :=
  snd <$> List.find (fun ka => ca_pid ka.2 =? pid) (map_to_list (agents r)).

Definition count_kind (r : Registry) (k : Kind) : Z :=
  lenZ (retain (fun ka => bool_decide (pa_kind (ca_identity ka.2) = k)) (map_to_list (agents r))).
Definition count_agents (r : Registry) : Z := count_kind r KAgent.
Definition count_tools (r : Registry) : Z := count_kind r KTool.
Definition count_total (r : Registry) : Z := Z.of_nat (size (agents r)).

Definition snapshot (r : Registry) : RegistrySnapshot :=
  {| sn_schema_version := 1; sn_next_id := next_id r;
     sn_agents := (fun ka => ca_identity ka.2) <$> map_to_list (agents r) |}.

(** The number of an id, if it has one. *)
Definition parsed_id (p : PersistedAgent) : option Z :=
  hex ← strip_prefix "ag-" (pa_id p); from_str_radix16 64 hex.
Definition max_parsed (ps : list PersistedAgent) : Z := foldr Z.max 0 (omap parsed_id ps).

Definition restore (s : RegistrySnapshot) : Registry :=
  {| agents := foldl (fun m p => <[pa_id p := {| ca_identity := p; ca_session := SessionTracker_new |}]> m) ∅
                 (sn_agents s);
     index := index_new;
     next_id := Z.max (sn_next_id s) (wrapping_add 64 (max_parsed (sn_agents s)) 1) |}.

(** ** One table walk is as good as another *)

(** The keys that start a name agree on its signature. *)
Definition coherent (m : SignatureIndex) : Prop :=
  forall k i k' i' s, m !! k = Some i -> m !! k' = Some i' ->
    starts_with k s = true -> starts_with k' s = true -> i = i'.

Lemma prefix_match_order (m : SignatureIndex) walk s : coherent m -> walk ≡ₚ map_to_list m ->
  prefix_match walk s = prefix_match (map_to_list m) s.
Proof.
  intros Hc Hw. unfold prefix_match.
  assert (forall l, l ≡ₚ map_to_list m -> forall kv, kv ∈ l -> m !! kv.1 = Some kv.2) as Hin.
  { intros l Hl [k i] Hkv. rewrite Hl in Hkv. by apply elem_of_map_to_list in Hkv. }
  destruct (List.find _ walk) as [[k i]|] eqn:E1, (List.find _ (map_to_list m)) as [[k' i']|] eqn:E2; cbn.
  - apply List.find_some in E1 as [H1 P1], E2 as [H2 P2]. apply list_elem_of_In in H1, H2.
    f_equal. exact (Hc k i k' i' s (Hin _ Hw _ H1) (Hin _ (reflexivity _) _ H2) P1 P2).
  - apply List.find_some in E1 as [H1 P1]. apply list_elem_of_In in H1. rewrite Hw in H1.
    apply list_elem_of_In in H1. pose proof (List.find_none _ _ E2 _ H1). cbn in *. congruence.
  - apply List.find_some in E2 as [H2 P2]. apply list_elem_of_In in H2. rewrite <- Hw in H2.
    apply list_elem_of_In in H2. pose proof (List.find_none _ _ E1 _ H2). cbn in *. congruence.
  - done.
Qed.

Lemma prefixes_comparable (k k' s : string) : starts_with k s = true -> starts_with k' s = true ->
  starts_with k k' = true \/ starts_with k' k = true.
Proof.
  unfold starts_with. revert k k'. induction s as [|a s IH]; intros [|b k] [|b' k']; cbn; auto; try done.
  destruct (ascii_dec b a) as [->|]; [|done]. destruct (ascii_dec b' a) as [->|]; [|done]. intros H1 H2.
  destruct (ascii_dec a a); [|done]. auto.
Qed.

Lemma coherent_check (m : SignatureIndex) :
  forallb (fun kv => forallb (fun kv' => negb (starts_with kv.1 kv'.1) || (kv.2 =? kv'.2)%nat) (map_to_list m))
    (map_to_list m) = true -> coherent m.
Proof.
  intros Hb k i k' i' s Hk Hk' P P'. rewrite forallb_elem in Hb.
  assert (forall x y, m !! x.1 = Some x.2 -> m !! y.1 = Some y.2 -> starts_with x.1 y.1 = true -> x.2 = y.2) as Hxy.
  { intros [x1 x2] [y1 y2] Hx Hy Hs. specialize (Hb (x1, x2) (proj2 (elem_of_map_to_list _ _ _) Hx)).
    rewrite forallb_elem in Hb. specialize (Hb (y1, y2) (proj2 (elem_of_map_to_list _ _ _) Hy)). cbn in *.
    rewrite Hs in Hb. by apply Nat.eqb_eq in Hb. }
  destruct (prefixes_comparable _ _ _ P P') as [Hc|Hc].
  - exact (Hxy (k, i) (k', i') Hk Hk' Hc).
  - symmetry. exact (Hxy (k', i') (k, i) Hk' Hk Hc).
Qed.
End Operations.

Section Correct.
Context `{LowercaseLaws}.

#[local] Instance ascii_case : Lowercase | 10 := {| to_lowercase := to_ascii_lowercase |}.

Lemma index_new_ascii : index_new = @index_new ascii_case.
Proof.
  unfold index_new, KNOWN. cbn [length seq zip zip_with foldl index_names fst snd sig_process_names mk_sig].
  rewrite !to_lowercase_ascii by reflexivity. reflexivity.
Qed.

Lemma index_coherent : coherent index_new.
Proof. rewrite index_new_ascii. apply coherent_check. vm_compute. reflexivity. Qed.

(** [identify] with the hash table walked in another order. *)
Definition identify_walk (walk : list (string * nat)) (process_name : string) : option Signature :=
  let lower := to_lowercase process_name in
  match index_new !! lower with
  | Some idx => KNOWN !! idx
  | None => idx ← prefix_match walk lower; KNOWN !! idx
  end.

(** The signature of a process name is well defined although the search
    for a key that starts it walks a hash table: whatever the order of the walk,
    [identify] answers the same, because keys that start the same name belong
    to the same signature. *)
Theorem identify_order_irrelevant walk process_name :
  walk ≡ₚ map_to_list index_new -> identify_walk walk process_name = identify index_new process_name.
Proof.
  intros Hw. unfold identify_walk, identify. destruct (index_new !! _); [done|].
  by rewrite (prefix_match_order _ _ _ index_coherent Hw).
Qed.

(** ** The invariant of the registry *)

Record registry_ok (r : Registry) : Prop := {
  rok_index : index r = index_new;
  rok_next : 0 <= next_id r;
  rok_ids : forall k a, agents r !! k = Some a ->
    pa_id (ca_identity a) = k /\ exists n, 0 <= n < next_id r /\ k = agent_id n;
  rok_pids : forall k k' a a', agents r !! k = Some a -> agents r !! k' = Some a' -> ca_pid a = ca_pid a' -> k = k';
}.

Lemma registry_new_ok : registry_ok (Registry_new 1).
Proof. split; [done|cbn; lia|..]; cbn; intros *; by rewrite lookup_empty. Qed.

Lemma agent_id_inj a b : in_width 64 a -> in_width 64 b -> agent_id a = agent_id b -> a = b.
Proof.
  intros Ha Hb E. apply show_hex04_inj; [done..|]. unfold agent_id in E.
  by apply (inj (String.append "ag-")) in E || (cbn in E; congruence).
Qed.

Lemma by_pid_spec r pid a : registry_ok r ->
  by_pid r pid = Some a <-> exists k, agents r !! k = Some a /\ ca_pid a = pid.
Proof.
  intros Hr. unfold by_pid. destruct (List.find _ _) as [[k b]|] eqn:E; cbn.
  - apply List.find_some in E as [Hin Hp]. apply list_elem_of_In, elem_of_map_to_list in Hin.
    cbn in Hp. apply Z.eqb_eq in Hp. split; [intros [= <-]; by exists k|]. intros (k' & Hk' & Hp').
    assert (k = k') as <- by (eapply rok_pids; [done..|congruence]). congruence.
  - split; [done|]. intros (k & Hk & Hp). apply elem_of_map_to_list in Hk. apply list_elem_of_In in Hk.
    pose proof (List.find_none _ _ E _ Hk) as Hn. cbn in Hn. rewrite Hp in Hn. by rewrite Z.eqb_refl in Hn.
Qed.

Lemma connected_spec r pid : any (fun ka => ca_pid ka.2 =? pid) (map_to_list (agents r)) = true <->
  exists k a, agents r !! k = Some a /\ ca_pid a = pid.
Proof.
  rewrite any_true. split.
  - intros ([k a] & Hin%elem_of_map_to_list & Hp%Z.eqb_eq). by exists k, a.
  - intros (k & a & Hk & Hp). exists (k, a). split; [by apply elem_of_map_to_list|by apply Z.eqb_eq].
Qed.

Lemma next_id_fresh r : registry_ok r -> next_id r < 2 ^ 64 -> agents r !! agent_id (next_id r) = None.
Proof.
  intros Hr Hn. destruct (agents r !! agent_id (next_id r)) as [a|] eqn:E; [|done].
  destruct (rok_ids _ Hr _ _ E) as [_ (n & Hlt & En)]. pose proof (rok_next _ Hr).
  apply agent_id_inj in En; unfold in_width; lia.
Qed.

Lemma connect_ok now r name pid label exe uid fp : registry_ok r -> next_id r + 1 < 2 ^ 64 ->
  let '(r', res) := connect_with_facts now r name pid label exe uid fp in
  registry_ok r' /\ next_id r <= next_id r' <= next_id r + 1 /\
  match res with
  | Ok id => agents r !! id = None /\ (forall k a, agents r !! k = Some a -> ca_pid a <> pid) /\
             exists a, ca_pid a = pid /\ pa_id (ca_identity a) = id /\ agents r' = <[id := a]> (agents r)
  | Err _ => r' = r /\ exists k a, agents r !! k = Some a /\ ca_pid a = pid
  end.
Proof.
  intros Hr Hn. unfold connect_with_facts. pose proof (connected_spec r pid) as Hc.
  destruct (any _ _); [split; [done|]; split; [lia|]; split; [done|by apply Hc]|].
  assert (forall k a, agents r !! k = Some a -> ca_pid a <> pid) as Hp.
  { intros k a Hk Hp. assert (false = true) as E by (apply Hc; by exists k, a). done. }
  destruct (match identify _ _ with Some _ => _ | None => _ end) as [kind integration].
  pose proof (next_id_fresh _ Hr ltac:(lia)) as Hf. pose proof (rok_next _ Hr).
  rewrite wrapping_add_small by (unfold in_width; lia). split; [|split; [cbn; lia|split; [done|split; [done|]]]].
  - split; cbn; [apply Hr|lia|..].
    + intros k a. rewrite lookup_insert_Some. intros [[<- <-]|[Hne Hk]]; cbn.
      * split; [done|]. exists (next_id r). split; [lia|done].
      * destruct (rok_ids _ Hr _ _ Hk) as [? (n & ? & ?)]. split; [done|]. exists n. split; [lia|done].
    + intros k k' a a'. rewrite !lookup_insert_Some.
      intros [[<- <-]|[Hne Hk]] [[<- <-]|[Hne' Hk']] E; cbn in *; [done|..].
      * by destruct (Hp _ _ Hk').
      * by destruct (Hp _ _ Hk).
      * by eapply (rok_pids _ Hr).
  - eexists. split; [|split; [|reflexivity]]; done.
Qed.

Lemma disconnect_ok r id : registry_ok r -> registry_ok (disconnect r id).1 /\ next_id (disconnect r id).1 = next_id r.
Proof.
  intros Hr. unfold disconnect. destruct (agents r !! id) eqn:E; [|done]. cbn. split; [|done].
  split; cbn; [apply Hr|apply Hr|..].
  - intros k a [? Hk]%lookup_delete_Some. by apply Hr.
  - intros k k' a a' [? Hk]%lookup_delete_Some [? Hk']%lookup_delete_Some. by apply (rok_pids _ Hr).
Qed.

(** ** Restarts *)

Definition fresh_session (a : ConnectedAgent) : ConnectedAgent :=
  {| ca_identity := ca_identity a; ca_session := SessionTracker_new |}.

Lemma restored_lookup ps : NoDup (pa_id <$> ps) -> forall (m : gmap string ConnectedAgent) k,
  foldl (fun m p => <[pa_id p := {| ca_identity := p; ca_session := SessionTracker_new |}]> m) m ps !! k =
  match List.find (fun p => String.eqb (pa_id p) k) ps with
  | Some p => Some {| ca_identity := p; ca_session := SessionTracker_new |}
  | None => m !! k
  end.
Proof.
  induction ps as [|p ps IH]; intros Hn m k; [done|]. cbn in Hn. apply NoDup_cons in Hn as [Hp Hn].
  cbn [foldl List.find]. rewrite IH by done. destruct (String.eqb_spec (pa_id p) k) as [<-|Hne].
  - destruct (List.find _ ps) as [q|] eqn:E; [|by rewrite lookup_insert_eq].
    apply List.find_some in E as [Hin Hq%String.eqb_eq]. destruct Hp. rewrite <- Hq.
    by apply list_elem_of_fmap_2, list_elem_of_In.
  - by rewrite lookup_insert_ne.
Qed.

Lemma restart_agents r : registry_ok r -> agents (restore (snapshot r)) = fresh_session <$> agents r.
Proof.
  intros Hr. apply map_eq. intros k. unfold restore, snapshot. cbn [agents sn_agents].
  assert (pa_id <$> ((fun ka => ca_identity ka.2) <$> map_to_list (agents r)) = (map_to_list (agents r)).*1) as Ek.
  { rewrite <- list_fmap_compose. apply list_fmap_ext. intros i [j a] Hi%list_elem_of_lookup_2%elem_of_map_to_list.
    by apply (rok_ids _ Hr). }
  rewrite restored_lookup by (rewrite Ek; apply NoDup_fst_map_to_list). rewrite lookup_fmap, lookup_empty.
  destruct (List.find _ _) as [p|] eqn:E.
  - apply List.find_some in E as [Hin Hp%String.eqb_eq].
    apply list_elem_of_In, list_elem_of_fmap in Hin as ([j a] & -> & Hin%elem_of_map_to_list). cbn in *.
    destruct (rok_ids _ Hr _ _ Hin) as [Hi _]. assert (j = k) as -> by congruence. by rewrite Hin.
  - destruct (agents r !! k) as [a|] eqn:Ea; [|done]. exfalso.
    pose proof (List.find_none _ _ E (ca_identity a)) as Hn. cbn in Hn. rewrite (proj1 (rok_ids _ Hr _ _ Ea)) in Hn.
    rewrite String.eqb_refl in Hn. cut (true = false); [done|]. apply Hn.
    apply list_elem_of_In, list_elem_of_fmap. exists (k, a). split; [done|by apply elem_of_map_to_list].
Qed.

Lemma max_parsed_bound r : registry_ok r -> next_id r <= 2 ^ 64 ->
  0 <= max_parsed (sn_agents (snapshot r)) <= Z.max 0 (next_id r - 1).
Proof.
  intros Hr Hn. unfold max_parsed. cbn [snapshot sn_agents].
  assert (forall n, n ∈ omap parsed_id ((fun ka => ca_identity ka.2) <$> map_to_list (agents r)) ->
    0 <= n < next_id r) as Hb.
  { intros n (p & ([k a] & -> & Hin%elem_of_map_to_list)%list_elem_of_fmap & Hp)%list_elem_of_omap.
    change (parsed_id (ca_identity a) = Some n) in Hp.
    destruct (rok_ids _ Hr _ _ Hin) as [Hi (i & Hlt & ->)]. unfold parsed_id in Hp. rewrite Hi in Hp.
    change (strip_prefix "ag-" (agent_id i)) with (Some (show_hex04 i)) in Hp. cbn [mbind option_bind] in Hp.
    rewrite parse_hex04 in Hp by (unfold in_width; lia). simplify_eq. lia. }
  revert Hb. generalize (omap parsed_id ((fun ka => ca_identity ka.2) <$> map_to_list (agents r))).
  induction l as [|x l IH]; intros Hb; cbn [foldr]; [lia|].
  specialize (IH ltac:(intros; apply Hb; by right)). specialize (Hb x ltac:(left)). lia.
Qed.

Lemma restart_next r : registry_ok r -> 1 <= next_id r < 2 ^ 64 -> next_id (restore (snapshot r)) = next_id r.
Proof.
  intros Hr Hn. pose proof (max_parsed_bound r Hr ltac:(lia)).
  unfold restore. cbn [next_id]. change (sn_next_id (snapshot r)) with (next_id r).
  rewrite wrapping_add_small by (unfold in_width; lia). lia.
Qed.

Lemma restart_ok r : registry_ok r -> 1 <= next_id r < 2 ^ 64 -> registry_ok (restore (snapshot r)).
Proof.
  intros Hr Hn. split; [done|rewrite restart_next by done; lia|..].
  - intros k a. rewrite restart_agents, lookup_fmap, fmap_Some by done. intros (b & Hb & ->).
    rewrite restart_next by done. destruct (rok_ids _ Hr _ _ Hb). by split.
  - intros k k' a a'. rewrite restart_agents, !lookup_fmap, !fmap_Some by done.
    intros (b & Hb & ->) (b' & Hb' & ->) E. exact (rok_pids _ Hr _ _ _ _ Hb Hb' E).
Qed.

(** ** The properties *)

(** A life of the registry: connects, disconnects and restarts of the process,
    which reloads the snapshot it wrote. *)
Inductive RegistryOp :=
| OConnect (now : Z) (name : string) (pid : Z) (label exe : option string) (uid : option Z) (fp : option string)
| ODisconnect (id : string)
| ORestart.

Definition run_op (r : Registry) (op : RegistryOp) : Registry :=
  match op with
  | OConnect now name pid label exe uid fp => (connect_with_facts now r name pid label exe uid fp).1
  | ODisconnect id => (disconnect r id).1
  | ORestart => restore (snapshot r)
  end.
Definition run_ops (ops : list RegistryOp) : Registry := foldl run_op (Registry_new 1) ops.

Lemma run_ops_ok ops : Z.of_nat (length ops) + 2 < 2 ^ 64 ->
  registry_ok (run_ops ops) /\ 1 <= next_id (run_ops ops) <= 1 + Z.of_nat (length ops).
Proof.
  unfold run_ops. induction ops as [|op ops IH] using rev_ind; intros Hl.
  { split; [apply registry_new_ok|cbn; lia]. }
  rewrite length_app in Hl. cbn [length] in Hl. destruct IH as [Hr Hn]; [lia|].
  rewrite foldl_app, length_app. cbn [foldl length]. set (r := foldl run_op (Registry_new 1) ops) in *.
  destruct op as [now name pid label exe uid fp|id|]; cbn [run_op].
  - pose proof (connect_ok now r name pid label exe uid fp Hr ltac:(lia)) as Hc.
    destruct (connect_with_facts _ _ _ _ _ _ _ _) as [r' res]. destruct Hc as (? & ? & _). split; [done|cbn; lia].
  - destruct (disconnect_ok r id Hr) as [? ->]. split; [done|lia].
  - split; [apply restart_ok; [done|lia]|]. rewrite restart_next by (done || lia). lia.
Qed.

(** Over any life of the registry with fewer than 2^64 operations: a connect
    is refused exactly when its process is connected already and then changes
    nothing; otherwise the new agent gets an id no connected agent has, so none
    is overwritten, and is found by its process. *)
Theorem registry_ids_unique ops now name pid label exe uid fp :
  let r := run_ops ops in
  Z.of_nat (length ops) + 3 < 2 ^ 64 ->
  match connect_with_facts now r name pid label exe uid fp with
  | (r', Ok id) => by_pid r pid = None /\ agents r !! id = None /\
      exists a, pa_id (ca_identity a) = id /\ agents r' = <[id := a]> (agents r) /\ by_pid r' pid = Some a
  | (r', Err _) => r' = r /\ is_Some (by_pid r pid)
  end.
Proof.
  intros r Hl. destruct (run_ops_ok ops) as [Hr Hn]; [lia|]. fold r in Hr, Hn.
  pose proof (connect_ok now r name pid label exe uid fp Hr ltac:(lia)) as Hc.
  destruct (connect_with_facts _ _ _ _ _ _ _ _) as [r' [id|e]]; destruct Hc as (Hr' & _ & Hc).
  - destruct Hc as (Hf & Hp & a & Hpid & Hid & Ha). split; [|split; [done|exists a; split; [done|split; [done|]]]].
    + destruct (by_pid r pid) as [b|] eqn:E; [|done]. apply by_pid_spec in E as (k & Hk & Hb); [|done].
      by destruct (Hp _ _ Hk).
    + apply by_pid_spec; [done|]. exists id. split; [|done]. rewrite Ha. by rewrite lookup_insert_eq.
  - destruct Hc as (-> & k & a & Hk & Hp). split; [done|]. exists a. apply by_pid_spec; [done|by exists k].
Qed.

(** A restart keeps the registry: over any life of it, reloading its own
    snapshot brings back every agent under its id with a fresh session, and the
    counter where it stood. *)
Theorem registry_restart_roundtrip ops :
  let r := run_ops ops in
  Z.of_nat (length ops) + 2 < 2 ^ 64 ->
  agents (restore (snapshot r)) = fresh_session <$> agents r /\ next_id (restore (snapshot r)) = next_id r
  /\ index (restore (snapshot r)) = index r.
Proof.
  intros r Hl. destruct (run_ops_ok ops Hl) as [Hr Hn]. fold r in Hr, Hn.
  split; [by apply restart_agents|]. split; [apply restart_next; [done|lia]|]. symmetry. apply Hr.
Qed.
End Correct.

(** ** Exfiltration *)

(** A session after a list of file accesses, each with its time. *)
Definition after_accesses (accesses : list (Z * string)) : SessionTracker :=
  foldl (fun s tp => (record_file_access tp.1 tp.2 s).1) SessionTracker_new accesses.

(** The last time a sensitive path was read. *)
Definition last_read (accesses : list (Z * string)) (path : string) : option Z :=
  fst <$> last (retain (fun tp => String.eqb tp.2 path && bool_decide (is_Some (check_sensitive_path tp.2))) accesses).

Lemma after_accesses_reads accesses path : read_files (after_accesses accesses) !! path = last_read accesses path.
Proof.
  unfold after_accesses, last_read, retain. induction accesses as [|[t p] l IH] using rev_ind; [done|].
  rewrite foldl_app, List.filter_app. cbn [foldl List.filter fst snd]. unfold record_file_access.
  destruct (check_sensitive_path p) as [x|].
  - rewrite bool_decide_eq_true_2, andb_true_r by (by eexists). cbn [fst read_files].
    destruct (String.eqb_spec p path) as [->|Hne]; [by rewrite lookup_insert_eq, last_snoc|].
    by rewrite lookup_insert_ne, app_nil_r.
  - rewrite bool_decide_eq_false_2 by (by intros [? [=]]). by rewrite andb_false_r, app_nil_r.
Qed.

Lemma check_exfil_layer now s tool args :
  al_layer <$> check_exfil now s tool args =
  if bool_decide (read_files s = ∅) || negb (any (fun k => contains k tool) OUTBOUND) then None
  else if any (recent_leak now args) (map_to_list (read_files s)) then Some LKill else Some LWarn.
Proof.
  unfold check_exfil. destruct (map_to_list (read_files s)) as [|f fs] eqn:E.
  - apply map_to_list_empty_iff in E. by rewrite bool_decide_eq_true_2.
  - rewrite bool_decide_eq_false_2 by (intros He; rewrite He, map_to_list_empty in E; done). cbn [orb].
    destruct (negb _); [done|]. destruct (List.find _ (f :: fs)) as [[p t]|] eqn:Ef.
    + assert (any (recent_leak now args) (f :: fs) = true) as ->; [|done].
      apply any_true, find_is_Some. by eexists.
    + destruct (any (recent_leak now args) (f :: fs)) eqn:Ea; [|done].
      apply any_true, find_is_Some in Ea as [? Ea]. congruence.
Qed.

(** An outbound tool call of a session is flagged as exfiltration exactly
    when its arguments name a sensitive path that was read at most five minutes
    ago; it warns about any other outbound call once a sensitive path was read,
    however long ago; and it is silent otherwise. *)
Theorem exfil_exact accesses now tool args :
  let outbound := any (fun k => contains k tool) OUTBOUND in
  let layer := al_layer <$> check_exfil now (after_accesses accesses) tool args in
  let leaks := exists path t, last_read accesses path = Some t /\ now - t <= seconds 300 /\ contains path args = true in
  (layer = Some LKill <-> outbound = true /\ leaks)
  /\ (layer = Some LWarn <-> outbound = true /\ (exists path, is_Some (last_read accesses path)) /\ ~ leaks)
  /\ layer <> Some LShadow.
Proof.
  intros outbound layer leaks. unfold layer. rewrite check_exfil_layer. fold outbound.
  set (rf := read_files (after_accesses accesses)).
  assert (any (recent_leak now args) (map_to_list rf) = true <-> leaks) as Hk.
  { rewrite any_true. unfold leaks. split.
    - intros ([p t] & Hin%elem_of_map_to_list & Hl). unfold rf in Hin. rewrite after_accesses_reads in Hin.
      apply andb_true_iff in Hl as [Hl Hc]. exists p, t. cbn in *. split; [done|]. split; [|done].
      apply negb_true_iff, Z.ltb_ge in Hl. lia.
    - intros (p & t & Hr & Ht & Hc). exists (p, t). split; [apply elem_of_map_to_list; unfold rf;
        by rewrite after_accesses_reads|]. unfold recent_leak. cbn. rewrite Hc, andb_true_r.
      apply negb_true_iff, Z.ltb_ge. lia. }
  assert (rf = ∅ <-> ~ exists path, is_Some (last_read accesses path)) as He.
  { split.
    - intros Hrf (p & t & Ht). rewrite <- after_accesses_reads in Ht. fold rf in Ht. by rewrite Hrf, lookup_empty in Ht.
    - intros Hn. apply map_empty. intros p. destruct (rf !! p) as [t|] eqn:E; [|done]. destruct Hn. exists p.
      unfold rf in E. rewrite after_accesses_reads in E. by eexists. }
  assert (leaks -> exists path, is_Some (last_read accesses path)) as Hle by (intros (p & t & Hp & _); by exists p, t).
  destruct outbound; cbn [negb]; [rewrite orb_false_r|rewrite orb_true_r; naive_solver].
  case_bool_decide as Hb.
  - apply He in Hb. split; [|split; [|done]]; (split; [done|]); [intros [_ ?]; by destruct Hb; apply Hle|].
    by intros (_ & ? & _).
  - assert (exists path, is_Some (last_read accesses path)) as Hex.
    { destruct (map_choose _ Hb) as (p & t & Hp). exists p. unfold rf in Hp. rewrite after_accesses_reads in Hp.
      by eexists. }
    destruct (any _ _).
    + assert leaks as Hl by (by apply Hk). split; [done|]. split; [|done]. split; [done|by intros (_ & _ & ?)].
    + assert (~ leaks) as Hl by (intros Hl; by apply Hk in Hl). split; [split; [done|by intros [_ ?]]|].
      split; [done|done].
Qed.

(** ** The properties at concrete inputs *)

#[local] Instance demo_case : Lowercase := {| to_lowercase := to_ascii_lowercase |}.
#[local] Instance demo_case_laws : LowercaseLaws.
Proof. by split. Qed.

Lemma identify_order_irrelevant_witness :
  identify_walk (reverse (map_to_list index_new)) "Copilot-Agent-2" = identify index_new "Copilot-Agent-2"
  /\ sig_name <$> identify index_new "Copilot-Agent-2" = Some "GitHub Copilot".
Proof.
  split; [|by vm_compute].
  apply (identify_order_irrelevant (reverse (map_to_list index_new)) "Copilot-Agent-2").
  apply (reverse_Permutation (map_to_list index_new)).
Defined.

Definition demo_ops : list RegistryOp :=
  [OConnect 0 "openclaw" 100 None None None None; OConnect 1 "claude" 200 None None None None;
   ODisconnect "ag-0001"; ORestart].

Lemma registry_ids_unique_witness :
  exists r', connect_with_facts 5 (run_ops demo_ops) "aider" 100 None None None None = (r', Ok "ag-0003")
  /\ agents (run_ops demo_ops) !! "ag-0003" = None.
Proof.
  pose proof (registry_ids_unique demo_ops 5 "aider" 100 None None None None ltac:(by vm_compute)) as Hu.
  destruct (connect_with_facts 5 (run_ops demo_ops) "aider" 100 None None None None) as [r' res] eqn:E.
  assert (res = Ok "ag-0003") as ->.
  { change res with (r', res).2. rewrite <- E. vm_compute. reflexivity. }
  exists r'. split; [reflexivity|]. apply Hu.
Defined.

Lemma registry_restart_roundtrip_witness :
  dom (agents (restore (snapshot (run_ops demo_ops)))) = dom (agents (run_ops demo_ops)).
Proof.
  destruct (registry_restart_roundtrip demo_ops) as [-> _]; [by vm_compute|]. apply dom_fmap_L.
Defined.
