(* ===== verification/AgentManaged.v ===== *)
(** * AgentManaged: withholding a response for a managed agent
    (crates/agent/src/managed_agent_guard.rs)

    Before a response against a process, the agent asks whether the process is a
    connected AI agent at work on its own files.  The answer needs the registry
    of GuardRegistry.v, the live facts of /proc, which are arguments, and the
    path that was read.  Proved here: what a positive answer guarantees, and two
    gaps in it. *)

From Stdlib Require Import ZArith Lia Ascii String.
From stdpp Require Import prelude strings list gmap.
From S2P Require Import Prelude Text GuardThreats GuardRegistry.

Local Open Scope string_scope.
Local Open Scope list_scope.
Local Open Scope Z_scope.

(** ** Facts *)

Inductive ManagedAgentVerdict := Managed (agent_id name : string) | NotManaged.

Record ResolvedProcess := {
  rp_argv : list string;
  rp_exe_path : option string;
  rp_uid : option Z;
}.

(** The reading of /proc and of the owner of a file. *)
Class ProcResolver := {
  resolve : Z -> option ResolvedProcess;
  file_owner_uid : string -> option Z;
}.

Definition parse_status_uid (status : string) : option Z :=
  rest ← head (omap (strip_prefix "Uid:") (lines status));
  v ← head (split_whitespace rest);
  parse_uint 32 v.

(** ** Paths *)

Definition TRUSTED_EXE_ROOTS : list string := ["/usr/"; "/opt/"; "/snap/"; "/sbin/"; "/bin/"].
Definition TRUSTED_INTERPRETER_ROOTS : list string := ["/usr/"; "/bin/"; "/sbin/"; "/opt/"; "/snap/"].
Definition CREDENTIAL_SUBPATH_FRAGMENTS : list string :=
  ["/.ssh/"; "/.aws/"; "/.gnupg/"; "/.kube/"; "/.docker/"; "/.config/gcloud/"; "/.config/gh/"; "/.netrc";
   "/.npmrc"; "/.pypirc"; "/.git-credentials"].
Definition UNTRUSTED_EXE_ROOTS : list string := ["/tmp/"; "/dev/shm/"; "/var/tmp/"; "/run/shm/"].

Definition in_roots (roots : list string) (path : string) : bool := any (fun r => starts_with r path) roots.

Definition is_credential_subpath (read_path : string) : bool :=
  any (fun frag => contains frag read_path) CREDENTIAL_SUBPATH_FRAGMENTS.

(** [dir] as a prefix that ends in a slash. *)
Definition dir_prefix (dir : string) : string :=
  match rev_string dir with
  | String a _ => if Ascii.eqb a "/" then dir else dir +:+ "/"
  | EmptyString => dir +:+ "/"
  end.
Definition under_dir (path dir : string) : bool := String.eqb path dir || starts_with (dir_prefix dir) path.

Definition under (path : string) (base : option string) : bool :=
  match base with
  | Some b => if String.eqb b "" then false else under_dir path b
  | None => false
  end.

Section Paths.
Context `{Lowercase}.

Definition is_untrusted_home_subdir (exe : string) : bool :=
  if negb (starts_with "/home/" exe) && negb (starts_with "/root/" exe) then false
  else
    let lower := to_lowercase exe in
    contains "/downloads/" lower || contains "/desktop/" lower || contains "/tmp/" lower.

Definition untrusted (exe : string) : bool := in_roots UNTRUSTED_EXE_ROOTS exe || is_untrusted_home_subdir exe.

Definition exe_root_trusted (exe : string) (install_dir : option string) : bool :=
  if untrusted exe then false
  else if in_roots TRUSTED_EXE_ROOTS exe then true
  else under exe install_dir.

Definition read_path_is_own (read_path : string) (home_dir install_dir : option string) : bool :=
  if negb (under read_path home_dir || under read_path install_dir) then false
  else negb (is_credential_subpath read_path).

Definition home_dir_from_exe (exe : string) : option string :=
  match strip_prefix "/home/" exe with
  | Some rest =>
      let user := first_piece "/" rest in
      if String.eqb user "" then None else Some ("/home/" +:+ user)
  | None => if String.eqb exe "/root" || starts_with "/root/" exe then Some "/root" else None
  end.

Definition script_path_from_argv (argv : list string) : option string := List.find (contains "/") (tail argv).

Definition interpreter_root_trusted (exe : string) : bool :=
  if untrusted exe then false else in_roots TRUSTED_INTERPRETER_ROOTS exe.

Definition standalone_binary_root_trusted (exe : string) : bool :=
  if untrusted exe then false
  else if in_roots TRUSTED_EXE_ROOTS exe then true
  else starts_with "/home/" exe || starts_with "/root/" exe.

(** [str::find(sub)]: the text before the first occurrence and after it. *)
Fixpoint find_sub (sub s : string) : option (string * string) :=
  match strip_prefix sub s with
  | Some r => Some ("", r)
  | None =>
      match s with
      | String a t => '(l, r) ← find_sub sub t; Some (String a l, r)
      | EmptyString => None
      end
  end.

(** [s.rfind('/').map(|i| s[..i])]. *)
Definition parent_dir (s : string) : option string :=
  match split_on "/" s with
  | [] | [_] => None
  | pieces => Some (join "/" (removelast pieces))
  end.

Definition registered_install_dir (registered_exe : option string) : option string :=
  exe ← registered_exe;
  if String.eqb exe "" then None
  else
    match find_sub "/node_modules/" exe with
    | Some (before, after) =>
        let pkg := first_piece "/" after in
        Some (if String.eqb pkg "" then before +:+ "/node_modules" else before +:+ "/node_modules/" +:+ pkg)
    | None => parent_dir exe
    end.

(** ** The decision *)

Record RegisteredFacts := {
  rf_agent_id : string;
  rf_kind : Kind;
  rf_cmdline_fingerprint : option string;
}.

Record DecideInputs := {
  di_registered : option RegisteredFacts;
  di_live : option ResolvedProcess;
  di_live_sig_name : option string;
  di_live_cmdline_fingerprint : option string;
  di_read_path : option string;
  di_read_path_owner_uid : option Z;
  di_destination_known_bad : bool;
  di_live_is_standalone_binary : bool;
}.

Definition same_uid (a b : option Z) : bool :=
  match a, b with Some x, Some y => x =? y | _, _ => false end.

(** The read, if there was one, is of an own file with the process's owner. *)
Definition own_read (i : DecideInputs) (live : ResolvedProcess) (home_dir install_dir : option string) : bool :=
  match di_read_path i with
  | Some read_path =>
      read_path_is_own read_path home_dir install_dir && same_uid (rp_uid live) (di_read_path_owner_uid i)
  | None => true
  end.

Definition interp_path (live : ResolvedProcess) : option string :=
  match rp_exe_path live with Some e => Some e | None => head (rp_argv live) end.

Definition decide_managed (i : DecideInputs) : ManagedAgentVerdict :=
  if di_destination_known_bad i then NotManaged
  else
    match di_registered i with
    | None => NotManaged
    | Some reg =>
        match rf_kind reg with
        | KRuntime => NotManaged
        | _ =>
            match di_live i, di_live_sig_name i with
            | Some live, Some live_name =>
                match rf_cmdline_fingerprint reg, di_live_cmdline_fingerprint i with
                | Some reg_fp, Some live_fp =>
                    if String.eqb reg_fp "" || negb (String.eqb reg_fp live_fp) then NotManaged
                    else
                      let yes := Managed (rf_agent_id reg) live_name in
                      if di_live_is_standalone_binary i then
                        match interp_path live with
                        | None => NotManaged
                        | Some exe =>
                            if negb (standalone_binary_root_trusted exe) then NotManaged
                            else if own_read i live (home_dir_from_exe exe) None then yes else NotManaged
                        end
                      else
                        match script_path_from_argv (rp_argv live) with
                        | None =>
                            match interp_path live with
                            | None => NotManaged
                            | Some exe =>
                                if negb (interpreter_root_trusted exe) then NotManaged
                                else match di_read_path i with Some _ => NotManaged | None => yes end
                            end
                        | Some script =>
                            let install_dir := registered_install_dir (Some script) in
                            if negb (exe_root_trusted script install_dir) then NotManaged
                            else
                              match interp_path live with
                              | None => NotManaged
                              | Some exe =>
                                  if negb (interpreter_root_trusted exe) then NotManaged
                                  else if own_read i live (home_dir_from_exe script) install_dir then yes
                                  else NotManaged
                              end
                        end
                | _, _ => NotManaged
                end
            | _, _ => NotManaged
            end
        end
    end.

Definition live_cmdline_fingerprint (argv : list string) : string := join "|" (take 2 argv).

Definition registered_facts (a : ConnectedAgent) : RegisteredFacts :=
  {| rf_agent_id := pa_id (ca_identity a); rf_kind := pa_kind (ca_identity a);
     rf_cmdline_fingerprint := pa_cmdline_fingerprint (ca_identity a) |}.

Definition verify_managed_agent_self_activity `{ProcResolver} (pid : Z) (source_comm : string)
  (read_path : option string) (registry : Registry) (sigindex : SignatureIndex) (destination_known_bad : bool)
  : ManagedAgentVerdict :=
  let live := resolve pid in
  decide_managed
    {| di_registered := registered_facts <$> by_pid registry pid;
       di_live := live;
       di_live_sig_name := p ← live; sig_name <$> identify_cmdline sigindex (rp_argv p);
       di_live_cmdline_fingerprint := (fun p => live_cmdline_fingerprint (rp_argv p)) <$> live;
       di_read_path := read_path;
       di_read_path_owner_uid := p ← read_path; file_owner_uid p;
       di_destination_known_bad := destination_known_bad;
       di_live_is_standalone_binary :=
         match live with Some p => is_standalone_binary_launch sigindex (rp_argv p) | None => false end |}.
End Paths.

(** ** What a positive answer guarantees *)

Section Guarantees.
Context `{LowercaseLaws} `{ProcResolver}.

(** The directories whose files count as the process's own. *)
Definition own_dirs (standalone : bool) (live : ResolvedProcess) (exe : string) : list (option string) :=
  if standalone then [home_dir_from_exe exe; None]
  else match script_path_from_argv (rp_argv live) with
       | Some script => [home_dir_from_exe script; registered_install_dir (Some script)]
       | None => []
       end.

(** The read is of an own file that is no credential and has the process's
    owner. *)
Definition read_guaranteed (dirs : list (option string)) (uid : option Z) (owner : option Z) (p : string) : Prop :=
  is_credential_subpath p = false /\ (exists dir, dir ∈ dirs /\ under p dir = true)
  /\ exists u, uid = Some u /\ owner = Some u.

Lemma own_read_guaranteed i live home install p : own_read i live home install = true -> di_read_path i = Some p ->
  read_guaranteed [home; install] (rp_uid live) (di_read_path_owner_uid i) p.
Proof.
  unfold own_read, read_path_is_own, read_guaranteed. intros Ho Hp. rewrite Hp in Ho.
  apply andb_true_iff in Ho as [Ho Hu]. destruct (negb (_ || _)) eqn:Eu; [done|].
  apply negb_true_iff in Ho. apply negb_false_iff, orb_true_iff in Eu. split; [done|]. split.
  - destruct Eu; [exists home|exists install]; set_solver.
  - unfold same_uid in Hu. destruct (rp_uid live), (di_read_path_owner_uid i); try done.
    apply Z.eqb_eq in Hu as ->. by eexists.
Qed.

Lemma decide_managed_inv i id name : decide_managed i = Managed id name ->
  di_destination_known_bad i = false /\
  exists reg live exe fp, di_registered i = Some reg /\ rf_agent_id reg = id /\ rf_kind reg <> KRuntime
    /\ di_live i = Some live /\ di_live_sig_name i = Some name
    /\ rf_cmdline_fingerprint reg = Some fp /\ di_live_cmdline_fingerprint i = Some fp /\ fp <> ""
    /\ interp_path live = Some exe /\ untrusted exe = false
    /\ forall p, di_read_path i = Some p ->
       read_guaranteed (own_dirs (di_live_is_standalone_binary i) live exe) (rp_uid live)
         (di_read_path_owner_uid i) p.
Proof.
  unfold decide_managed. destruct (di_destination_known_bad i); [done|]. intros Hd. split; [done|].
  destruct (di_registered i) as [reg|]; [|done].
  assert (rf_kind reg <> KRuntime) as Hk by (by destruct (rf_kind reg)).
  destruct (di_live i) as [live|]; [|by destruct (rf_kind reg)].
  destruct (di_live_sig_name i) as [live_name|]; [|by destruct (rf_kind reg)].
  destruct (rf_cmdline_fingerprint reg) as [reg_fp|] eqn:Er; [|by destruct (rf_kind reg)].
  destruct (di_live_cmdline_fingerprint i) as [live_fp|]; [|by destruct (rf_kind reg)].
  destruct (String.eqb_spec reg_fp "") as [|Hne]; [by destruct (rf_kind reg)|].
  destruct (String.eqb_spec reg_fp live_fp) as [Heq|]; [|by destruct (rf_kind reg)]. rewrite <- Heq in *. clear Heq. cbn [orb negb] in Hd.
  destruct (interp_path live) as [exe|] eqn:Ei.
  2:{ exfalso. destruct (rf_kind reg), (di_live_is_standalone_binary i); try done;
        (destruct (script_path_from_argv _); [destruct (negb _)|]; done). }
  assert (rf_agent_id reg = id /\ live_name = name /\ untrusted exe = false /\
    forall p, di_read_path i = Some p -> read_guaranteed (own_dirs (di_live_is_standalone_binary i) live exe)
      (rp_uid live) (di_read_path_owner_uid i) p) as (? & ? & ? & ?).
  { destruct (rf_kind reg); [| |done].
    all: destruct (di_live_is_standalone_binary i); unfold own_dirs.
    all: try (destruct (standalone_binary_root_trusted exe) eqn:Es; [|done]; cbn [negb] in Hd;
      destruct (own_read i live (home_dir_from_exe exe) None) eqn:Eo; [|done]; simplify_eq;
      split; [done|]; split; [done|]; split; [unfold standalone_binary_root_trusted in Es;
        by destruct (untrusted exe)|]; intros; by eapply own_read_guaranteed).
    all: destruct (script_path_from_argv (rp_argv live)) as [script|].
    all: try (destruct (exe_root_trusted script _); [|done]; cbn [negb] in Hd).
    all: destruct (interpreter_root_trusted exe) eqn:Es; [|done]; cbn [negb] in Hd;
      (assert (untrusted exe = false) by (unfold interpreter_root_trusted in Es; by destruct (untrusted exe))).
    all: try (destruct (own_read i live (home_dir_from_exe script) _) eqn:Eo; [|done]; simplify_eq;
      split; [done|]; split; [done|]; split; [done|]; intros; by eapply own_read_guaranteed).
    all: destruct (di_read_path i); [done|]; by simplify_eq. }
  subst live_name. exists reg, live, exe, reg_fp. split_and!; done.
Qed.

(** C12. Over any life of the registry, a response is withheld as a managed
    agent's own activity only if: the destination is not known to be bad; an
    agent or tool (not a bare runtime) is connected for this very process id under
    the id that is reported, and the first two words of the process's command
    line, joined by a bar, are the text it connected with; the command line
    matches the known signature whose name is reported; the path of its binary
    has the prefix of no untrusted place; and the path it read, if any, is as a
    text equal to or prefixed by one of its own directories (the home directory in
    its binary's or script's path, and the directory of its script), is no
    credential by its text, and belongs to the process's user.  Paths are compared
    as texts and a ".." in them is not resolved, so the file itself may lie
    elsewhere: see [dotdot_read_is_own]. *)
Theorem managed_guarantees ops pid comm read_path bad id name :
  let r := run_ops ops in
  let i := index_new in
  Z.of_nat (length ops) + 2 < 2 ^ 64 ->
  verify_managed_agent_self_activity pid comm read_path r i bad = Managed id name ->
  bad = false /\
  exists a live exe, agents r !! id = Some a /\ ca_pid a = pid /\ pa_kind (ca_identity a) <> KRuntime
    /\ resolve pid = Some live
    /\ pa_cmdline_fingerprint (ca_identity a) = Some (live_cmdline_fingerprint (rp_argv live))
    /\ sig_name <$> identify_cmdline i (rp_argv live) = Some name
    /\ interp_path live = Some exe /\ untrusted exe = false
    /\ forall p, read_path = Some p ->
       read_guaranteed (own_dirs (is_standalone_binary_launch i (rp_argv live)) live exe) (rp_uid live)
         (file_owner_uid p) p.
Proof.
  intros r i Hl Hv. destruct (run_ops_ok ops Hl) as [Hr _]. fold r in Hr.
  apply decide_managed_inv in Hv as (Hb & reg & live & exe & fp & Hreg & Hid & Hk & Hli & Hs & Hf & Hlf & _ & He
    & Hu & Hread). cbn [di_registered di_live di_live_sig_name di_live_cmdline_fingerprint di_read_path
    di_read_path_owner_uid di_destination_known_bad di_live_is_standalone_binary] in *.
  apply fmap_Some in Hreg as (a & Ha%by_pid_spec & ->); [|done]. destruct Ha as (k & Hk' & Hp).
  cbn in Hid, Hk, Hf. destruct (rok_ids _ Hr _ _ Hk') as [Hkid _]. split; [done|].
  rewrite Hli in Hs, Hlf, Hread. cbn in Hs, Hlf. exists a, live, exe. split; [congruence|].
  split; [done|]. split; [done|]. split; [done|]. split; [congruence|]. split; [done|]. split; [done|].
  split; [done|]. intros p ->. apply (Hread p eq_refl).
Qed.
End Guarantees.

(** ** Two gaps *)

Section Gaps.
Context `{Lowercase}.

Lemma find_sub_app sub s l r : find_sub sub s = Some (l, r) -> s = l +:+ sub +:+ r.
Proof.
  revert l r. induction s as [|a s IH]; intros l r; cbn [find_sub].
  - destruct (strip_prefix sub "") as [x|] eqn:E; [|done]. intros [= <- <-]. by apply strip_prefix_Some in E.
  - destruct (strip_prefix sub (String a s)) as [x|] eqn:E.
    + intros [= <- <-]. by apply strip_prefix_Some in E.
    + intros ([l' r'] & E' & [= <- <-])%bind_Some. cbn. by rewrite (IH _ _ E').
Qed.

(** Whatever comes after a slash lies under what comes before it. *)
Lemma under_dir_app dir rest : under_dir (dir +:+ "/" +:+ rest) dir = true.
Proof.
  unfold under_dir. apply orb_true_iff. right. unfold starts_with.
  unfold dir_prefix. destruct (rev_string dir) as [|a t]; [|destruct (Ascii.eqb a "/")].
  - rewrite <- append_assoc. apply prefix_app.
  - apply prefix_app.
  - rewrite <- append_assoc. apply prefix_app.
Qed.

Lemma first_piece_rest c s : s = first_piece c s \/ exists r, s = first_piece c s +:+ String c r.
Proof.
  unfold first_piece. pose proof (join_split_on c s) as Hj.
  destruct (split_on c s) as [|h [|h' t]] eqn:E; [by apply split_on_nonempty in E|left; by rewrite <- Hj|right].
  eexists. rewrite <- Hj. cbn [join]. reflexivity.
Qed.

Lemma join_removelast (l : list string) : (2 <= length l)%nat ->
  join "/" l = join "/" (removelast l) +:+ "/" +:+ List.last l "".
Proof.
  induction l as [|a l IH]; [cbn; lia|]. destruct l as [|b l]; [cbn; lia|]. intros _.
  destruct l as [|c l]; [done|]. specialize (IH ltac:(cbn; lia)).
  change (join "/" (a :: b :: c :: l)) with (a +:+ "/" +:+ join "/" (b :: c :: l)).
  change (removelast (a :: b :: c :: l)) with (a :: removelast (b :: c :: l)).
  change (List.last (a :: b :: c :: l) "") with (List.last (b :: c :: l) "").
  rewrite IH. destruct (removelast (b :: c :: l)) as [|x xs] eqn:E; [by destruct l|].
  change (join "/" (a :: x :: xs)) with (a +:+ "/" +:+ join "/" (x :: xs)).
  by rewrite !append_assoc.
Qed.

Lemma install_dir_contains script dir : registered_install_dir (Some script) = Some dir -> under_dir script dir = true.
Proof.
  unfold registered_install_dir. cbn [mbind option_bind]. destruct (String.eqb script ""); [done|].
  destruct (find_sub "/node_modules/" script) as [[before after]|] eqn:E.
  - apply find_sub_app in E. intros [= <-].
    destruct (String.eqb_spec (first_piece "/" after) "") as [Ef|_].
    + rewrite E. change ("/node_modules/" +:+ after) with ("/node_modules" +:+ "/" +:+ after).
      rewrite <- append_assoc. apply under_dir_app.
    + destruct (first_piece_rest "/" after) as [Ea|[r Ea]].
      * rewrite E, <- Ea. unfold under_dir. by rewrite String.eqb_refl.
      * rewrite E. rewrite Ea at 1. set (pkg := first_piece "/" after).
        change (String "/" r) with ("/" +:+ r). rewrite <- (append_assoc "/node_modules/" pkg).
        rewrite <- append_assoc. apply under_dir_app.
  - unfold parent_dir. pose proof (join_split_on "/" script) as Hj.
    destruct (split_on "/" script) as [|a [|b l]]; [done..|]. intros [= <-].
    rewrite <- Hj. rewrite join_removelast by (cbn; lia). apply under_dir_app.
Qed.

(** The test that a script lies under the registered install directory is
    no test: the directory is computed from the same live script, so every
    script outside the few forbidden places passes as soon as it has a parent
    directory other than the root. *)
Theorem script_vouches_for_itself script :
  exe_root_trusted script (registered_install_dir (Some script)) =
  negb (untrusted script) &&
  (in_roots TRUSTED_EXE_ROOTS script
   || match registered_install_dir (Some script) with Some dir => negb (String.eqb dir "") | None => false end).
Proof.
  unfold exe_root_trusted. destruct (untrusted script); [done|]. destruct (in_roots _ script); [done|].
  unfold under. destruct (registered_install_dir (Some script)) as [dir|] eqn:E; [|done].
  destruct (String.eqb dir ""); [done|]. by rewrite (install_dir_contains _ _ E).
Qed.
End Gaps.

#[local] Instance demo_case : Lowercase := {| to_lowercase := to_ascii_lowercase |}.
#[local] Instance demo_case_laws : LowercaseLaws.
Proof. by split. Qed.

Definition root_script : string := "/root/.npm-global/lib/node_modules/openclaw/dist/index.js".

(** An agent of the root user, connected and alive; every file is root's. *)
#[local] Instance demo_proc : ProcResolver := {|
  resolve pid := if pid =? 100 then Some {| rp_argv := ["/usr/bin/node"; root_script]; rp_exe_path := Some "/usr/bin/node";
                                            rp_uid := Some 0 |} else None;
  file_owner_uid _ := Some 0 |}.

Definition root_agent : list RegistryOp :=
  [OConnect 0 "openclaw" 100 None (Some "/usr/bin/node") (Some 0)
     (Some (live_cmdline_fingerprint ["/usr/bin/node"; root_script]))].

(** Paths are compared as text: for an agent of the root user, a read of
    the password file that goes through the agent's own home counts as a read of
    its own files, while the same file by its plain name does not. *)
Theorem dotdot_read_is_own :
  verify_managed_agent_self_activity 100 "node" (Some "/root/../etc/shadow") (run_ops root_agent) index_new false
    = Managed "ag-0001" "OpenClaw"
  /\ verify_managed_agent_self_activity 100 "node" (Some "/etc/shadow") (run_ops root_agent) index_new false
    = NotManaged.
Proof. split; vm_compute; reflexivity. Qed.

Lemma managed_guarantees_witness :
  read_guaranteed [Some "/root"; Some "/root/.npm-global/lib/node_modules/openclaw"] (Some 0) (Some 0) "/root/.env".
Proof.
  destruct (managed_guarantees root_agent 100 "node" (Some "/root/.env") false "ag-0001" "OpenClaw") as (_ & a & live
    & exe & _ & _ & _ & Hl & _ & _ & He & _ & Hr); [by vm_compute|by vm_compute|].
  specialize (Hr "/root/.env" eq_refl). cbn in Hl. injection Hl as <-. exact Hr.
Defined.
