(* ===== verification/AgentSafeguards.v ===== *)
(** * AgentSafeguards: between the AI's decision and its execution
    (crates/agent/src/incident_untouchable.rs, incident_post_decision.rs,
    ip_reputation.rs and the reputation lookup of decision_block_ip.rs)

    A decision passes three safeguards before it runs: a dismissal of critical
    kernel-level evidence becomes a question to the operator, a block of a
    protected address is dropped, and the decision is recorded: its cooldown,
    the set of blocked addresses, the repeat-offender count and the local
    reputation of the address.  Proved here: which actions leave the safeguards,
    how long a decision silences its scope at the gate of AgentGate.v, and what
    the early record does to the lookup that the block makes later. *)

From Stdlib Require Import ZArith Lia Ascii String SpecFloat.
From stdpp Require Import prelude strings list gmap.
From S2P Require Import Prelude Text Json Net Floats CoreTypes StoreKv StoreDecisions AgentLifecycle AgentCooldown.
From S2P Require Import AgentAllowlist AgentGate.

Local Open Scope string_scope.
Local Open Scope list_scope.
Local Open Scope Z_scope.

(** ** Decisions *)

Record AiDecision := {
  dc_action : AiAction;
  dc_confidence : spec_float;
  dc_auto_execute : bool;
  dc_reason : string;
  dc_alternatives : list string;
  dc_estimated_threat : string;
}.

Definition action_name (a : AiAction) : string :=
  match a with
  | ABlockIp _ _ => "block_ip"
  | AMonitor _ => "monitor"
  | AHoneypot _ => "honeypot"
  | ASuspendUserSudo _ _ => "suspend_user_sudo"
  | AKillProcess _ _ => "kill_process"
  | ABlockContainer _ _ => "block_container"
  | ARequestConfirmation _ => "request_confirmation"
  | AKillChainResponse _ => "kill_chain_response"
  | AIgnore _ => "ignore"
  | ADismiss _ => "dismiss"
  end.

(** ** Untouchable incidents *)

Inductive UntouchableClass := UKillChain | UReverseShellKernel | URansomware | UDataExfilEbpf | UMultiStageCrossLayer.

Definition untouchable_as_str (c : UntouchableClass) : string :=
  match c with
  | UKillChain => "kill_chain"
  | UReverseShellKernel => "reverse_shell_kernel"
  | URansomware => "ransomware"
  | UDataExfilEbpf => "data_exfil_ebpf"
  | UMultiStageCrossLayer => "multi_stage_cross_layer"
  end.

Definition kernel_source (incident : Incident) : bool :=
  match get_str (in_evidence incident) "source" with
  | Some source =>
      let s := to_ascii_lowercase source in
      String.eqb s "ebpf" || String.eqb s "syscall_sequence" || String.eqb s "kernel"
  | None => false
  end.
(** [eq_ignore_ascii_case] with a lower-case text. *)
Definition kernel_tag (incident : Incident) : bool :=
  any (fun t => String.eqb (to_ascii_lowercase t) "ebpf" || String.eqb (to_ascii_lowercase t) "kernel")
    (in_tags incident).

Definition untouchable_classify (incident : Incident) : option UntouchableClass :=
  let id := in_incident_id incident in
  if starts_with "kill_chain" id then Some UKillChain
  else if starts_with "ransomware:" id then Some URansomware
  else if starts_with "data_exfil_ebpf:" id then Some UDataExfilEbpf
  else if (starts_with "reverse_shell:" id || starts_with "reverse_shell_" id)
          && (kernel_source incident || kernel_tag incident) then Some UReverseShellKernel
  else
    match get_u64 (in_evidence incident) "stages", get_u64 (in_evidence incident) "layers" with
    | Some s, Some l => if (2 <=? s) && (2 <=? l) then Some UMultiStageCrossLayer else None
    | _, _ => None
    end.

Definition is_dismiss_like (a : AiAction) : bool := match a with ADismiss _ | AIgnore _ => true | _ => false end.

Definition override_to_confirmation (d : AiDecision) (class : UntouchableClass) (incident_id : string) : AiDecision :=
  {| dc_action := ARequestConfirmation
       ("Operator override required: AI proposed " +:+ action_name (dc_action d) +:+ " on a Critical " +:+
        untouchable_as_str class +:+ " incident (" +:+ incident_id +:+
        "). Kernel-level evidence cannot be auto-dismissed.");
     dc_confidence := dc_confidence d; dc_auto_execute := false;
     dc_reason := dc_reason d +:+ " [overridden: untouchable=" +:+ untouchable_as_str class +:+
       ", severity=Critical, AI auto-dismiss not permitted]";
     dc_alternatives := dc_alternatives d; dc_estimated_threat := "critical" |}.

(** ** Reputations *)

Record LocalIpReputation := {
  total_incidents : Z;
  total_blocks : Z;
  first_seen : Z;
  last_seen : Z;
  reputation_score : spec_float;
}.
Definition LocalIpReputation_new (now : Z) : LocalIpReputation :=
  {| total_incidents := 0; total_blocks := 0; first_seen := now; last_seen := now; reputation_score := f32_of_Z 0 |}.
Definition record_incident (now : Z) (r : LocalIpReputation) : LocalIpReputation :=
  {| total_incidents := wrapping_add 32 (total_incidents r) 1; total_blocks := total_blocks r;
     first_seen := first_seen r; last_seen := now; reputation_score := f32_add (reputation_score r) (f32_of_Z 1) |}.
Definition record_block (now : Z) (r : LocalIpReputation) : LocalIpReputation :=
  {| total_incidents := total_incidents r; total_blocks := wrapping_add 32 (total_blocks r) 1;
     first_seen := first_seen r; last_seen := now; reputation_score := f32_add (reputation_score r) (f32_of_Z 2) |}.

Definition adaptive_block_ttl_secs (blocks : Z) : Z :=
  if (blocks =? 0) || (blocks =? 1) then 3600
  else if blocks =? 2 then 14400
  else if blocks =? 3 then 86400
  else 604800.

Notation Reputations := (gmap string LocalIpReputation).

Definition dst_known_bad_from (entities : list EntityRef) (reputations : Reputations) : bool :=
  any (fun e => match reputations !! e_value e with Some r => 0 <? total_blocks r | None => false end)
    (retain (fun e => bool_decide (e_type e = EIp)) entities).

Definition prune_invalid_reputation_targets (reputations : Reputations) : Reputations * Z :=
  let to_remove := retain (fun ip => negb (is_valid_block_target ip)) (fst <$> map_to_list reputations) in
  (foldl (fun m ip => delete ip m) reputations to_remove, Z.of_nat (length to_remove)).

(** ** The safeguards *)

Record PostState (S : Type) := {
  ps_store : S;
  ps_blocklist : gset string;
  ps_reputations : Reputations;
  ps_blocked_set : gset string;
}.
Arguments ps_store {S} _.
Arguments ps_blocklist {S} _.
Arguments ps_reputations {S} _.
Arguments ps_blocked_set {S} _.

Definition untouchable_override (mode : string) (incident : Incident) (d : AiDecision) : AiDecision :=
  if String.eqb mode "off" then d
  else
    match untouchable_classify incident with
    | Some class =>
        if is_dismiss_like (dc_action d) && bool_decide (in_severity incident = Critical) then
          if String.eqb mode "shadow" then d else override_to_confirmation d class (in_incident_id incident)
        else d
    | None => d
    end.

Definition protected_sandbox (protected_ips : list string) (d : AiDecision) : AiDecision :=
  match dc_action d with
  | ABlockIp ip _ =>
      if is_ip_allowlisted ip protected_ips then
        {| dc_action := AIgnore ("protected IP: AI recommended blocking " +:+ ip +:+
             " but it matches a protected range");
           dc_confidence := dc_confidence d; dc_auto_execute := false;
           dc_reason := dc_reason d +:+ " [BLOCKED: target IP " +:+ ip +:+ " is in protected range]";
           dc_alternatives := dc_alternatives d; dc_estimated_threat := dc_estimated_threat d |}
      else d
  | _ => d
  end.

Definition ttl_label (t : Z) : string :=
  if 604800 <=? t then show (t / 86400) +:+ " days" else show (t / 3600) +:+ " hours".

Section Post.
Context {S : Type} `{KvStore S}.

Definition register_cooldown (incident : Incident) (clk : string) (now : Z) (a : AiAction) (s : S) : S :=
  match decision_cooldown_key_for_decision incident a with
  | Some key => set_cooldown s clk TDecision key now
  | None => s
  end.

(** [now] and [clk] are the clock of the call and its text. *)
Definition apply_post_decision_safeguards (incident : Incident) (mode : string) (protected_ips : list string)
  (now : Z) (clk : string) (st : PostState S) (decision : AiDecision) : PostState S * AiDecision :=
  let d := protected_sandbox protected_ips (untouchable_override mode incident decision) in
  let store := register_cooldown incident clk now (dc_action d) (ps_store st) in
  match dc_action d with
  | ABlockIp ip _ =>
      let '(store, block_count) := increment_block_count store clk ip in
      let rep := record_block now (record_incident now
        (default (LocalIpReputation_new now) (ps_reputations st !! ip))) in
      let label := ttl_label (adaptive_block_ttl_secs (total_blocks rep)) in
      ({| ps_store := store; ps_blocklist := {[ip]} ∪ ps_blocklist st;
          ps_reputations := <[ip := rep]> (ps_reputations st); ps_blocked_set := {[ip]} ∪ ps_blocked_set st |},
       if 1 <? block_count then
         {| dc_action := dc_action d; dc_confidence := dc_confidence d; dc_auto_execute := dc_auto_execute d;
            dc_reason := dc_reason d +:+ " [repeat offender - blocked " +:+ show block_count +:+ " times, TTL "
              +:+ label +:+ "]";
            dc_alternatives := dc_alternatives d; dc_estimated_threat := dc_estimated_threat d |}
       else d)
  | _ =>
      ({| ps_store := store; ps_blocklist := ps_blocklist st; ps_reputations := ps_reputations st;
          ps_blocked_set := ps_blocked_set st |}, d)
  end.
End Post.

(** ** Which actions leave the safeguards *)

Section Laws.
Context {S : Type} `{KvLaws S}.

(** A dismissal the override takes up. *)
Definition overridden (mode : string) (incident : Incident) (d : AiDecision) : bool :=
  negb (String.eqb mode "off") && negb (String.eqb mode "shadow")
  && bool_decide (is_Some (untouchable_classify incident))
  && is_dismiss_like (dc_action d) && bool_decide (in_severity incident = Critical).

Lemma override_action mode incident d :
  let d' := untouchable_override mode incident d in
  if overridden mode incident d
  then exists summary, dc_action d' = ARequestConfirmation summary /\ dc_auto_execute d' = false
  else d' = d.
Proof.
  unfold untouchable_override, overridden. destruct (String.eqb mode "off"); [done|]. cbn [negb andb].
  destruct (untouchable_classify incident) as [class|].
  - rewrite (bool_decide_eq_true_2 (is_Some _)) by (by eexists). rewrite andb_true_r.
    destruct (String.eqb mode "shadow"); cbn [negb andb]; [by destruct (_ && _)|].
    destruct (_ && _); [|done]. eexists. split; reflexivity.
  - rewrite (bool_decide_eq_false_2 (is_Some _)) by (by intros [? [=]]). by rewrite !andb_false_r.
Qed.

Lemma safeguards_action incident mode protected now clk (st : PostState S) d :
  let d' := (apply_post_decision_safeguards incident mode protected now clk st d).2 in
  dc_action d' = dc_action (protected_sandbox protected (untouchable_override mode incident d)) /\
  dc_auto_execute d' = dc_auto_execute (protected_sandbox protected (untouchable_override mode incident d)).
Proof.
  unfold apply_post_decision_safeguards. cbv zeta. set (d0 := protected_sandbox _ _).
  destruct (dc_action d0) as [ip sk| | | | | | | | |] eqn:E; try done.
  destruct (increment_block_count _ clk ip) as [s n]. cbn [snd]. by destruct (1 <? n).
Qed.

(** C19. Of the action the AI proposes, the safeguards let through: a question
    to the operator in place of a dismissal of an untouchable critical incident,
    unless the override is off or in shadow; nothing, that is an ignored
    decision, in place of a block of an address that a protected entry covers;
    and the action itself in every other case.  What was replaced is never
    executed automatically.  So a dismissal of an untouchable critical incident
    leaves the safeguards only as a block that was dropped for its target. *)
Theorem safeguards_exact incident mode protected now clk (st : PostState S) d :
  let d' := (apply_post_decision_safeguards incident mode protected now clk st d).2 in
  if overridden mode incident d then
    (exists summary, dc_action d' = ARequestConfirmation summary) /\ dc_auto_execute d' = false
  else match dc_action d with
       | ABlockIp ip skill =>
           ((exists entry, entry ∈ protected /\ entry_covers ip entry) ->
              (exists reason, dc_action d' = AIgnore reason) /\ dc_auto_execute d' = false)
           /\ (~ (exists entry, entry ∈ protected /\ entry_covers ip entry) ->
              dc_action d' = ABlockIp ip skill /\ dc_auto_execute d' = dc_auto_execute d)
       | a => dc_action d' = a /\ dc_auto_execute d' = dc_auto_execute d
       end.
Proof.
  cbv zeta. destruct (safeguards_action incident mode protected now clk st d) as [-> ->].
  pose proof (override_action mode incident d) as Ho. cbv zeta in Ho. destruct (overridden mode incident d).
  - destruct Ho as (summary & Ha & He). unfold protected_sandbox. rewrite Ha. split; [by exists summary|done].
  - rewrite Ho. unfold protected_sandbox. destruct (dc_action d) as [ip sk| | | | | | | | |] eqn:E; rewrite ?E; try done.
    rewrite <- is_ip_allowlisted_spec. destruct (is_ip_allowlisted ip protected).
    + split; [|done]. intros _. split; [by eexists|done].
    + split; [done|]. by rewrite E.
Qed.

(** ** The cooldown that is left *)

Lemma get_cooldown_increment (s : S) clk ip t key : kv_ok s ->
  get_cooldown (increment_block_count s clk ip).1 t key = get_cooldown s t key.
Proof.
  intros Hs. unfold get_cooldown, increment_block_count. cbn [fst]. rewrite kvi_get_set by done.
  rewrite bool_decide_eq_false_2; [done|]. by destruct t.
Qed.

Lemma safeguards_store incident mode protected now clk (st : PostState S) d key :
  kv_ok (ps_store st) -> chrono_instant now ->
  let '(st', d') := apply_post_decision_safeguards incident mode protected now clk st d in
  decision_cooldown_key_for_decision incident (dc_action d') = Some key ->
  get_cooldown (ps_store st') TDecision key = Some (to_millis now).
Proof.
  intros Hs Hn. pose proof (safeguards_action incident mode protected now clk st d) as [Ha _].
  destruct (apply_post_decision_safeguards incident mode protected now clk st d) as [st' d'] eqn:E.
  cbn [snd] in Ha. intros Hk. rewrite Ha in Hk. unfold apply_post_decision_safeguards in E. cbv zeta in E.
  set (d0 := protected_sandbox _ _) in *. unfold register_cooldown in E. rewrite Hk in E.
  assert (kv_ok (set_cooldown (ps_store st) clk TDecision key now)) as Hs' by (by apply kvi_set_ok).
  assert (get_cooldown (set_cooldown (ps_store st) clk TDecision key now) TDecision key = Some (to_millis now)) as Hg.
  { unfold get_cooldown, set_cooldown. rewrite kvi_get_set, bool_decide_eq_true_2 by done.
    unfold chrono_instant, MIN_MS, MAX_MS in Hn. rewrite le_i64_bytes by lia. cbn [mbind option_bind].
    unfold from_timestamp_millis_opt, MIN_MS, MAX_MS.
    by rewrite (proj2 (Z.leb_le _ _)), (proj2 (Z.leb_le _ _)) by lia. }
  destruct (dc_action d0) as [ip sk| | | | | | | | |]; try (injection E as <- _; exact Hg).
  destruct (increment_block_count _ clk ip) as [s n] eqn:Ei. injection E as <- _. cbn [ps_store].
  change s with (s, n).1. rewrite <- Ei, get_cooldown_increment by done. exact Hg.
Qed.

(** C20. A decision silences its scope for an hour: once the safeguards have
    recorded a block, a monitoring, a honeypot or a sudo suspension, the gate
    keeps every incident of the same detector that names the same entity from
    the AI until an hour after the decision, to the millisecond, unless the
    detector is exempt from the cooldown. *)
Theorem decision_silences_scope `{Lowercase} incident mode protected now clk (st : PostState S) d
    later cfg (fs : FlowState S) enabled blocked_set calls now' e :
  kv_ok (ps_store st) -> chrono_instant now ->
  let '(st', d') := apply_post_decision_safeguards incident mode protected now clk st d in
  fs_store fs = ps_store st' ->
  looked_up (dc_action d') = Some e -> e ∈ in_entities later ->
  incident_detector (in_incident_id incident) = incident_detector (in_incident_id later) ->
  matches_skip_fase3 (in_incident_id later) (fc_skip_fase3 cfg) = false ->
  now' < to_millis now + seconds 3600 ->
  (evaluate_pre_ai_flow later cfg fs enabled blocked_set calls now').1 <> Proceed.
Proof.
  intros Hs Hn. pose proof (safeguards_store incident mode protected now clk st d) as Hst.
  destruct (apply_post_decision_safeguards incident mode protected now clk st d) as [st' d'].
  intros Hf Hl He Hdet Hskip Hnow Hp.
  assert (exists key, decision_cooldown_key_for_decision incident (dc_action d') = Some key) as [key Hk].
  { destruct (dc_action d'); cbn in Hl |- *; try done; by eexists. }
  specialize (Hst key Hs Hn Hk).
  apply evaluate_proceeds in Hp as [_ Hp]. apply guard_proceeds in Hp as (_ & _ & _ & _ & _ & Hg & _).
  rewrite Hskip in Hg. destruct Hg as [?|[_ Hc]]; [done|].
  rewrite in_cooldown_false in Hc.
  specialize (Hc key (to_millis now) (looked_up_candidate _ _ _ _ _ Hk Hdet Hl He)).
  rewrite Hf in Hc. specialize (Hc Hst). unfold DECISION_COOLDOWN_SECS in Hc. lia.
Qed.

(** ** The reputation that is left *)

Lemma safeguards_reputation incident mode protected now clk (st : PostState S) d ip skill :
  let '(st', d') := apply_post_decision_safeguards incident mode protected now clk st d in
  dc_action d' = ABlockIp ip skill ->
  exists r, ps_reputations st' !! ip = Some r /\
    total_blocks r = wrapping_add 32 (match ps_reputations st !! ip with Some r => total_blocks r | None => 0 end) 1.
Proof.
  pose proof (safeguards_action incident mode protected now clk st d) as [Ha _].
  destruct (apply_post_decision_safeguards incident mode protected now clk st d) as [st' d'] eqn:E.
  cbn [snd] in Ha. intros Hd. rewrite Ha in Hd. unfold apply_post_decision_safeguards in E. cbv zeta in E.
  set (d0 := protected_sandbox _ _) in *. rewrite Hd in E.
  destruct (increment_block_count _ clk ip) as [s n]. injection E as <- _. cbn [ps_reputations].
  rewrite lookup_insert_eq. eexists. split; [reflexivity|]. cbn. by destruct (ps_reputations st !! ip).
Qed.

Lemma safeguarded_known_bad incident mode protected now clk (st : PostState S) d ip skill entities :
  (forall r, ps_reputations st !! ip = Some r -> 0 <= total_blocks r < 2 ^ 32 - 1) ->
  entity_ip ip ∈ entities ->
  let '(st', d') := apply_post_decision_safeguards incident mode protected now clk st d in
  dc_action d' = ABlockIp ip skill -> dst_known_bad_from entities (ps_reputations st') = true.
Proof.
  intros Hr He. pose proof (safeguards_reputation incident mode protected now clk st d ip skill) as Hs.
  destruct (apply_post_decision_safeguards incident mode protected now clk st d) as [st' d']. intros Hd.
  destruct (Hs Hd) as (r & Hl & Hb). unfold dst_known_bad_from. apply any_true. exists (entity_ip ip).
  split; [apply retain_elem; split; [done|by rewrite bool_decide_eq_true_2]|]. cbn. rewrite Hl. apply Z.ltb_lt.
  rewrite Hb. assert (0 <= match ps_reputations st !! ip with Some r => total_blocks r | None => 0 end < 2 ^ 32 - 1)
    by (destruct (ps_reputations st !! ip); [by apply Hr|lia]).
  rewrite wrapping_add_small; unfold in_width; lia.
Qed.
End Laws.

(** ** The properties at concrete inputs *)

#[local] Instance demo_case : Lowercase := {| to_lowercase := to_ascii_lowercase |}.

Definition demo_post : PostState Store :=
  {| ps_store := empty_store; ps_blocklist := ∅; ps_reputations := ∅; ps_blocked_set := ∅ |}.
Definition demo_block : AiDecision :=
  {| dc_action := ABlockIp "203.0.113.7" "block-ip-ufw"; dc_confidence := f32_one; dc_auto_execute := true;
     dc_reason := "scan"; dc_alternatives := []; dc_estimated_threat := "high" |}.
Definition demo_scan (id : string) : Incident := scan_incident id [entity_ip "203.0.113.7"].
Definition demo_after : PostState Store * AiDecision :=
  apply_post_decision_safeguards (demo_scan "port_scan:203.0.113.7:a") "enforce" ["10.0.0.0/8"] 0 "t" demo_post
    demo_block.
Definition demo_cfg : FlowConfig :=
  {| fc_skip_fase3 := []; fc_max_ai_calls := 0; fc_trusted_ips := []; fc_trusted_users := [];
     fc_min_severity := "low" |}.
Definition demo_flow : FlowState Store :=
  {| fs_sqlite := None; fs_lifecycle := ResponseLifecycle_new; fs_store := ps_store demo_after.1; fs_dynamic_ips := [];
     fs_dynamic_users := [] |}.

Lemma decision_silences_scope_witness :
  (evaluate_pre_ai_flow (demo_scan "port_scan:203.0.113.7:b") demo_cfg demo_flow true ∅ 0 (seconds 3599)).1
  <> Proceed.
Proof.
  pose proof (decision_silences_scope (demo_scan "port_scan:203.0.113.7:a") "enforce" ["10.0.0.0/8"] 0 "t" demo_post
    demo_block (demo_scan "port_scan:203.0.113.7:b") demo_cfg demo_flow true ∅ 0 (seconds 3599)
    (entity_ip "203.0.113.7") eq_refl ltac:(by vm_compute)) as G.
  change (apply_post_decision_safeguards _ _ _ _ _ _ _) with demo_after in G.
  rewrite (surjective_pairing demo_after) in G. apply G.
  - reflexivity.
  - by vm_compute.
  - left.
  - reflexivity.
  - reflexivity.
  - by vm_compute.
Defined.
