(* ===== verification/AgentContextGate.v ===== *)
(** * AgentContextGate: the on-device classifier and the gate around it
    (crates/agent/src/ai/local_classifier.rs, warden_context_gate.rs)

    The classifier gives four probabilities for a text about the incident; the
    most likely label becomes a decision, which the gate corrects with what the
    agent knows beside the text: the name of the acting process, the provenance
    the sensor proved, and the reputation of the address.  The network itself
    (tokenizer and model) is an argument, from the text to the probabilities. *)

From Stdlib Require Import ZArith Lia Ascii String SpecFloat.
From stdpp Require Import prelude strings gmap list.
From S2P Require Import Prelude Text Json Floats CoreTypes AgentCooldown AgentSafelist AgentSafeguards.

Local Open Scope string_scope.
Local Open Scope list_scope.
Local Open Scope Z_scope.

(** ** The context of a decision *)

Record IpReputation := {
  confidence_score : Z;
  total_reports : Z;
  distinct_users : Z;
  country_code : option string;
  isp : option string;
  is_tor : bool;
}.

(** The fields that the classifier and the gate read. *)
Record DecisionContext := {
  cx_incident : Incident;
  cx_recent_events : list Event;
  cx_related_incidents : list Incident;
  cx_already_blocked : list string;
  cx_ip_reputation : option IpReputation;
  cx_geo_country_code : option string;
  cx_ip_dshield_attacker : bool;
}.

Definition ESCALATE_FLOOR : float := f32_lit 85 100.
Definition ABUSE_CONFIRMED_FLOOR : Z := 90.

Definition SELF_COMPONENT_COMMS : list string :=
  ["innerwarden-agent"; "innerwarden-sensor"; "innerwarden-ctl"; "innerwarden-watchdog"; "innerwarden-supervisor";
   "innerwarden-age"; "innerwarden-sen"; "innerwarden-ctl"; "innerwarden-wat"; "innerwarden-sup"].

Definition BUILD_TOOLCHAIN_COMMS : list string :=
  ["cargo"; "rustc"; "rust-lld"; "build-script-build"; "build-script-bu"; "zig"; "cc"; "cc1"; "cc1plus"; "gcc"; "g++"; "clang";
   "collect2"; "ld"; "as"; "lto-wrapper"; "make"; "cmake"; "ninja"].

Definition SELF_NOISY_DETECTORS : list string := ["suspicious_archive"].
Definition BUILD_NOISY_DETECTORS : list string := ["suspicious_archive"].

Inductive ActorProvenance := SelfComponent | BuildToolchain | UnknownActor.

#[export] Instance actor_provenance_eq_dec : EqDecision ActorProvenance.
Proof. solve_decision. Defined.

(** ** The acting process *)

Definition event_comm (e : Event) : option string :=
  c ← detail_str e "comm"; if String.eqb c "" || String.eqb c "unknown" then None else Some c.

(** The text before and after the first [sub]. *)
Fixpoint split_once_str (sub s : string) : option (string * string) :=
  match strip_prefix sub s with
  | Some r => Some ("", r)
  | None => match s with
            | EmptyString => None
            | String a r => '(p, q) ← split_once_str sub r; Some (String a p, q)
            end
  end.

(** [split(sub).nth(1)]. *)
Definition second_piece (sub s : string) : option string :=
  '(_, rest) ← split_once_str sub s; Some (match split_once_str sub rest with Some (p, _) => p | None => rest end).

(** Up to the first white space, comma or closing parenthesis. *)
Fixpoint comm_chars (s : string) : string :=
  match s with
  | EmptyString => ""
  | String a r =>
      match strip_ws s with
      | Some _ => ""
      | None => if Ascii.eqb a "," || Ascii.eqb a ")" then "" else String a (comm_chars r)
      end
  end.

Definition actor_comm (ctx : DecisionContext) : option string :=
  match head (omap event_comm (cx_recent_events ctx)) with
  | Some c => Some c
  | None =>
      let from_summary := rest ← second_piece "comm=" (in_summary (cx_incident ctx));
                          let c := comm_chars rest in if String.eqb c "" then None else Some c in
      match from_summary with
      | Some c => Some c
      | None =>
          p ← split_on ":" (in_incident_id (cx_incident ctx)) !! 1%nat; if String.eqb p "" then None else Some p
      end
  end.

Definition comm_matches (comm : string) (l : list string) : bool := mem_str (last_piece "/" comm) l.

Definition detector_class (ctx : DecisionContext) : string := first_piece ":" (in_incident_id (cx_incident ctx)).

Definition classify_provenance (ctx : DecisionContext) : ActorProvenance :=
  match actor_comm ctx with
  | None => UnknownActor
  | Some comm =>
      if comm_matches comm SELF_COMPONENT_COMMS then SelfComponent
      else if comm_matches comm BUILD_TOOLCHAIN_COMMS then BuildToolchain
      else UnknownActor
  end.

(** ** The gate *)

Definition is_passive_close (a : AiAction) : bool := match a with ADismiss _ | AIgnore _ => true | _ => false end.

Definition action_high_impact (a : AiAction) : bool :=
  match a with
  | ABlockIp _ _ | ASuspendUserSudo _ _ | AKillProcess _ _ | ABlockContainer _ _ | AKillChainResponse _ => true
  | _ => false
  end.

Definition ip_abuse_confirmed (ctx : DecisionContext) : bool :=
  match cx_ip_reputation ctx with Some r => ABUSE_CONFIRMED_FLOOR <=? confidence_score r | None => false end.

Definition is_high_severity (s : Severity) : bool := match s with High | Critical => true | _ => false end.

Definition is_illegit (v : Json) : bool := bool_decide (get_str v "provenance" = Some "provenance:illegitimate").

Definition evidence_provenance_is_illegitimate (ctx : DecisionContext) : bool :=
  let ev := in_evidence (cx_incident ctx) in
  match as_array ev with Some arr => any is_illegit arr | None => is_illegit ev end.

Definition first_ip (i : Incident) : option string :=
  e_value <$> head (retain (fun e => bool_decide (e_type e = EIp)) (in_entities i)).

Definition surface (ctx : DecisionContext) (why threat : string) : AiDecision :=
  {| dc_action := match first_ip (cx_incident ctx) with Some ip => AMonitor ip | None => ARequestConfirmation why end;
     dc_confidence := ESCALATE_FLOOR; dc_auto_execute := false; dc_reason := why; dc_alternatives := []; dc_estimated_threat := threat |}.

Definition provenance_benign (ctx : DecisionContext) : bool :=
  match classify_provenance ctx with
  | SelfComponent => mem_str (detector_class ctx) SELF_NOISY_DETECTORS
  | BuildToolchain => mem_str (detector_class ctx) BUILD_NOISY_DETECTORS
  | UnknownActor => false
  end.

Definition tick : string := "`".

(** "<action> (<confidence>)". *)
Definition verdict_text (d : AiDecision) : string :=
  action_name (dc_action d) +:+ " (" +:+ show_fixed 2 (dc_confidence d) +:+ ")".

Definition provenance_dismissal (ctx : DecisionContext) (d : AiDecision) : AiDecision :=
  let detector := detector_class ctx in
  let label := if bool_decide (classify_provenance ctx = SelfComponent) then "an InnerWarden component" else "the local build toolchain" in
  {| dc_action := ADismiss ("context gate: low-severity " +:+ tick +:+ detector +:+ tick +:+ " from " +:+ label);
     dc_confidence := f32_lit 9 10; dc_auto_execute := true;
     dc_reason := "context gate: " +:+ tick +:+ detector +:+ tick +:+ " (" +:+ severity_debug (in_severity (cx_incident ctx)) +:+ ") attributed to "
       +:+ label +:+ "; dismissed as benign file-churn. (Forgeable-comm provenance — only applied below High severity.)";
     dc_alternatives := dc_alternatives d; dc_estimated_threat := "low" |}.

Definition apply (ctx : DecisionContext) (d : AiDecision) : AiDecision :=
  let detector := detector_class ctx in
  let high_sev := is_high_severity (in_severity (cx_incident ctx)) in
  let sev := severity_debug (in_severity (cx_incident ctx)) in
  if is_passive_close (dc_action d) && evidence_provenance_is_illegitimate ctx then
    surface ctx ("context gate: a detector proved illegitimate provenance (non-forgeable exe-path lineage); refusing the classifier's "
      +:+ verdict_text d +:+ " and surfacing it.") "high"
  else if cx_ip_dshield_attacker ctx && is_passive_close (dc_action d) then
    surface ctx ("context gate: refusing a " +:+ verdict_text d +:+ " on a DShield-confirmed global attacker "
      +:+ "(ISC reports this IP attacking the internet); surfaced, not closed.") "high"
  else if ip_abuse_confirmed ctx && is_passive_close (dc_action d) then
    surface ctx ("context gate: refusing a " +:+ verdict_text d +:+ " on an AbuseIPDB-confirmed attacker (score "
      +:+ show (match cx_ip_reputation ctx with Some r => confidence_score r | None => 0 end)
      +:+ "/100); a cloud-range safelist must not free-pass a confirmed attacker. Surfaced, not closed.") "high"
  else if provenance_benign ctx && negb high_sev && negb (cx_ip_dshield_attacker ctx) && negb (ip_abuse_confirmed ctx) then
    provenance_dismissal ctx d
  else if high_sev && provenance_benign ctx && action_high_impact (dc_action d) then
    surface ctx ("context gate: " +:+ action_name (dc_action d) +:+ " proposed on a " +:+ sev +:+ " " +:+ tick +:+ detector +:+ tick
      +:+ " whose actor name looks like a trusted process (forgeable) — surfacing for operator veto rather than auto-executing or dismissing.")
      (dc_estimated_threat d)
  else if high_sev && is_passive_close (dc_action d) && f_leb (dc_confidence d) ESCALATE_FLOOR then
    surface ctx ("context gate: escalated a low-confidence " +:+ verdict_text d +:+ " on a " +:+ sev +:+ " " +:+ tick +:+ detector +:+ tick
      +:+ " so a weak verdict cannot bury a serious signal.") (dc_estimated_threat d)
  else d.

(** ** The classifier *)

Definition LABELS : list string := ["dismiss"; "ignore"; "block_ip"; "monitor"].
Definition MAX_LEN : nat := 256.

Definition pad_or_truncate (v : list Z) (len : nat) (pad : Z) : list Z :=
  if Nat.ltb len (length v) then take len v else v ++ replicate (len - length v) pad.

Definition truncate (s : string) (max : nat) : string :=
  if Nat.leb (String.length s) max then s else substring 0 (floor_boundary s max) s.

Definition build_text (ctx : DecisionContext) : string :=
  let inc := cx_incident ctx in
  join " | " (["detector: " +:+ detector_class ctx; "severity: " +:+ severity_text (in_severity inc);
               "title: " +:+ truncate (in_title inc) 200]
              ++ if String.eqb (in_summary inc) "" then [] else ["summary: " +:+ truncate (in_summary inc) 400]).

Definition build_action_from_prediction (action_name : string) (target_ip : option string) (conf : float) (block_backend : string) : AiAction :=
  if String.eqb action_name "block_ip" then
    match target_ip with
    | Some ip => ABlockIp ip ("block-ip-" +:+ block_backend)
    | None => AIgnore "block_ip predicted but no target IP"
    end
  else if String.eqb action_name "monitor" then AMonitor (default "unknown" target_ip)
  else if String.eqb action_name "ignore" then AIgnore ("classifier: ignore (confidence " +:+ show_fixed 3 conf +:+ ")")
  else if String.eqb action_name "dismiss" then ADismiss ("classifier: dismiss (confidence " +:+ show_fixed 3 conf +:+ ")")
  else AIgnore ("unknown classifier action: " +:+ action_name).

Definition build_decision_markers (safelist : string -> option string) (ctx : DecisionContext) (target_ip : option string) : list string :=
  match target_ip with
  | Some ip => match safelist ip with Some p => ["safelist=" +:+ p] | None => [] end
               ++ if any (String.eqb ip) (cx_already_blocked ctx) then ["already_blocked=true"] else []
  | None => []
  end
  ++ match cx_ip_reputation ctx with Some r => ["abuseipdb=" +:+ show (confidence_score r)] | None => [] end
  ++ match cx_geo_country_code ctx with Some c => if String.eqb c "" then [] else ["country=" +:+ c] | None => [] end
  ++ match cx_recent_events ctx with [] => [] | l => ["recent_events=" +:+ show (Z.of_nat (length l))] end
  ++ match cx_related_incidents ctx with [] => [] | l => ["related_incidents=" +:+ show (Z.of_nat (length l))] end
  ++ match take 3 (in_tags (cx_incident ctx)) with [] => [] | tags => ["incident_tags=[" +:+ join "," tags +:+ "]"] end.

(** [max_by] with [partial_cmp]: the later of two that do not compare as greater. *)
Fixpoint max_by (best : nat * float) (rest : list (nat * float)) : nat * float :=
  match rest with
  | [] => best
  | x :: r => max_by (if f_gtb best.2 x.2 then best else x) r
  end.

Record Classifier := { auto_exec_threshold : float; block_backend : string; safelist_of : string -> option string }.

(** The four probabilities. *)
Record Probs := { p_dismiss : float; p_ignore : float; p_block : float; p_monitor : float }.

Definition argmax (p : Probs) : nat * float :=
  max_by (0%nat, p_dismiss p) [(1%nat, p_ignore p); (2%nat, p_block p); (3%nat, p_monitor p)].

Definition threat_of_confidence (c : float) : string :=
  if f_geb c (f32_lit 9 10) then "high" else if f_geb c (f32_lit 3 4) then "medium" else "low".

Definition other_labels (p : Probs) (idx : nat) : list string :=
  let all := [("dismiss", p_dismiss p); ("ignore", p_ignore p); ("block_ip", p_block p); ("monitor", p_monitor p)] in
  (fun x => x.1 +:+ " (" +:+ show_fixed 2 x.2 +:+ ")") <$> (take idx all ++ drop (S idx) all).

Definition predicted (c : Classifier) (ctx : DecisionContext) (p : Probs) : AiDecision :=
  let '(idx, conf) := argmax p in
  let action_name := default "" (LABELS !! idx) in
  let target_ip := first_ip (cx_incident ctx) in
  let alternatives := other_labels p idx in
  let markers := build_decision_markers (safelist_of c) ctx target_ip in
  let section := match markers with [] => "" | _ => " Markers: " +:+ join ", " markers +:+ "." end in
  {| dc_action := build_action_from_prediction action_name target_ip conf (block_backend c);
     dc_confidence := conf; dc_auto_execute := f_geb conf (auto_exec_threshold c);
     dc_reason := "Local Warden decided " +:+ action_name +:+ " with confidence " +:+ show_fixed 3 conf +:+ "." +:+ section
       +:+ " Alternatives: " +:+ join ", " alternatives +:+ ".";
     dc_alternatives := alternatives; dc_estimated_threat := threat_of_confidence conf |}.

(** [infer] runs the tokenizer and the network on a text. *)
Definition classifier_decide (infer : string -> result Probs string) (c : Classifier) (ctx : DecisionContext) : result AiDecision string :=
  match infer (build_text ctx) with
  | Err e => Err e
  | Ok p => Ok (apply ctx (predicted c ctx p))
  end.

(** ** What the gate lets through *)

Lemma surface_not_passive ctx why threat : is_passive_close (dc_action (surface ctx why threat)) = false.
Proof. unfold surface. by destruct (first_ip _). Qed.

Lemma surface_not_high ctx why threat : action_high_impact (dc_action (surface ctx why threat)) = false.
Proof. unfold surface. by destruct (first_ip _). Qed.

(** The four outcomes of the gate. *)
Inductive gated (ctx : DecisionContext) (d : AiDecision) : AiDecision -> Prop :=
| GSurfaced why threat : gated ctx d (surface ctx why threat)
| GDismissed : is_high_severity (in_severity (cx_incident ctx)) = false -> provenance_benign ctx = true ->
    cx_ip_dshield_attacker ctx = false -> ip_abuse_confirmed ctx = false -> gated ctx d (provenance_dismissal ctx d)
| GClosed : is_passive_close (dc_action d) = true -> evidence_provenance_is_illegitimate ctx = false ->
    cx_ip_dshield_attacker ctx = false -> ip_abuse_confirmed ctx = false ->
    (is_high_severity (in_severity (cx_incident ctx)) = true -> f_leb (dc_confidence d) ESCALATE_FLOOR = false) -> gated ctx d d
| GKept : is_passive_close (dc_action d) = false ->
    (action_high_impact (dc_action d) = true -> is_high_severity (in_severity (cx_incident ctx)) = true -> provenance_benign ctx = false) ->
    gated ctx d d.

Lemma apply_gated ctx d : gated ctx d (apply ctx d).
Proof.
  unfold apply. destruct (is_passive_close (dc_action d)) eqn:Ep, (evidence_provenance_is_illegitimate ctx) eqn:Ei,
    (cx_ip_dshield_attacker ctx) eqn:Ed, (ip_abuse_confirmed ctx) eqn:Ea, (provenance_benign ctx) eqn:Eb,
    (is_high_severity _) eqn:Eh; cbn [andb negb]; try (constructor; done);
    try (destruct (action_high_impact (dc_action d)) eqn:Ei'; cbn [andb]; try (constructor; done));
    try (destruct (f_leb (dc_confidence d) ESCALATE_FLOOR) eqn:Ef; constructor; done);
    try (apply GKept; congruence); apply GClosed; congruence.
Qed.

(** C34. A grave incident is closed only by a close of the classifier that it was
    sure of, that no proven provenance and no reputation speaks against, and that
    the gate passes on unchanged. *)
Theorem grave_never_buried (ctx : DecisionContext) (d : AiDecision) :
  is_high_severity (in_severity (cx_incident ctx)) = true -> is_passive_close (dc_action (apply ctx d)) = true ->
  apply ctx d = d /\ f_leb (dc_confidence d) ESCALATE_FLOOR = false /\ evidence_provenance_is_illegitimate ctx = false /\
  cx_ip_dshield_attacker ctx = false /\ ip_abuse_confirmed ctx = false.
Proof.
  intros Hh Hp. destruct (apply_gated ctx d) as [why threat| |Hc Hi Hd Ha Hs|]; try congruence.
  - by rewrite surface_not_passive in Hp.
  - split_and!; auto.
Qed.

(** An address that DShield or AbuseIPDB confirm as an attacker is never closed,
    whatever the severity, the process and the classifier say. *)
Theorem confirmed_attacker_never_closed (ctx : DecisionContext) (d : AiDecision) :
  cx_ip_dshield_attacker ctx || ip_abuse_confirmed ctx = true -> is_passive_close (dc_action (apply ctx d)) = false.
Proof.
  intros Hc. destruct (apply_gated ctx d) as [why threat|_ _ Hd Ha|_ _ Hd Ha|]; try done; [apply surface_not_passive| |];
    by rewrite Hd, Ha in Hc.
Qed.

(** The gate adds no action of its own: what it enforces is the classifier's
    decision unchanged, and what it executes by itself is that or a dismissal of
    an incident that is not grave. *)
Theorem gate_adds_no_action (ctx : DecisionContext) (d : AiDecision) :
  (action_high_impact (dc_action (apply ctx d)) = true -> apply ctx d = d) /\
  (dc_auto_execute (apply ctx d) = true ->
   apply ctx d = d \/ is_passive_close (dc_action (apply ctx d)) = true /\ is_high_severity (in_severity (cx_incident ctx)) = false).
Proof.
  destruct (apply_gated ctx d) as [why threat|Hs _ _ _| |]; split; try done; try by left.
  - by rewrite surface_not_high.
  - intros _. by right.
Qed.

(** ** What it misses *)

(** The proof of an illegitimate provenance only stops a close the classifier
    asked for: below high severity a process named like a build tool has the
    incident dismissed even so, and whatever action the classifier wanted with
    it. *)
Theorem illegitimate_dismissed (ctx : DecisionContext) (d : AiDecision) :
  evidence_provenance_is_illegitimate ctx = true -> is_passive_close (dc_action d) = false ->
  is_high_severity (in_severity (cx_incident ctx)) = false -> provenance_benign ctx = true ->
  cx_ip_dshield_attacker ctx = false -> ip_abuse_confirmed ctx = false ->
  apply ctx d = provenance_dismissal ctx d.
Proof. intros Hi Hp Hh Hb Hd Ha. unfold apply. by rewrite Hp, Hb, Hh, Hd, Ha. Qed.

(** A block that the classifier is sure of, of a grave incident without an
    address, comes out as an ignore with the same confidence, which the gate
    takes for a close it may trust. *)
Theorem unaddressed_block_closed (c : Classifier) (ctx : DecisionContext) (p : Probs) :
  argmax p = (2%nat, p_block p) -> first_ip (cx_incident ctx) = None -> f_leb (p_block p) ESCALATE_FLOOR = false ->
  evidence_provenance_is_illegitimate ctx = false -> cx_ip_dshield_attacker ctx = false -> ip_abuse_confirmed ctx = false ->
  provenance_benign ctx = false ->
  let d := apply ctx (predicted c ctx p) in
  dc_action d = AIgnore "block_ip predicted but no target IP" /\ dc_auto_execute d = f_geb (p_block p) (auto_exec_threshold c).
Proof.
  intros Hm Hip Hf Hi Hd Ha Hb. cbn zeta. assert (dc_action (predicted c ctx p) = AIgnore "block_ip predicted but no target IP" /\
    dc_confidence (predicted c ctx p) = p_block p /\ dc_auto_execute (predicted c ctx p) = f_geb (p_block p) (auto_exec_threshold c)) as (E1 & E2 & E3).
  { unfold predicted. rewrite Hm, Hip. done. }
  assert (apply ctx (predicted c ctx p) = predicted c ctx p) as ->; [|done].
  unfold apply. rewrite E1, E2, Hi, Hd, Ha, Hb, Hf. cbn [is_passive_close andb negb].
  by rewrite !andb_false_r.
Qed.

(** ** Instances *)

Definition demo_context (id : string) (sev : Severity) (evidence : Json) : DecisionContext :=
  {| cx_incident := {| in_ts := 0; in_host := "h"; in_incident_id := id; in_severity := sev; in_title := "t"; in_summary := "";
                       in_evidence := evidence; in_recommended_checks := []; in_tags := []; in_entities := [] |};
     cx_recent_events := []; cx_related_incidents := []; cx_already_blocked := []; cx_ip_reputation := None;
     cx_geo_country_code := None; cx_ip_dshield_attacker := false |}.

Definition demo_verdict (a : AiAction) (conf : float) : AiDecision :=
  {| dc_action := a; dc_confidence := conf; dc_auto_execute := true; dc_reason := ""; dc_alternatives := []; dc_estimated_threat := "high" |}.

Definition demo_illegit : DecisionContext :=
  demo_context "suspicious_archive:cargo:x" Medium (JObj [("provenance", JStr "provenance:illegitimate")]).

Example illegitimate_kill_dismissed :
  dc_action (apply demo_illegit (demo_verdict (AKillProcess "root" 60) (f32_lit 99 100))) =
  ADismiss "context gate: low-severity `suspicious_archive` from the local build toolchain".
Proof. vm_compute. reflexivity. Qed.

Definition demo_shell : DecisionContext := demo_context "reverse_shell:nc:x" Critical JNull.

Lemma grave_never_buried_witness :
  let d := demo_verdict (ADismiss "noise") (f32_lit 99 100) in
  apply demo_shell d = d /\ f_leb (dc_confidence d) ESCALATE_FLOOR = false /\ evidence_provenance_is_illegitimate demo_shell = false /\
  cx_ip_dshield_attacker demo_shell = false /\ ip_abuse_confirmed demo_shell = false.
Proof.
  apply (grave_never_buried demo_shell (demo_verdict (ADismiss "noise") (f32_lit 99 100))); vm_compute; reflexivity.
Defined.

Lemma unaddressed_block_closed_witness :
  let c := {| auto_exec_threshold := f32_lit 9 10; block_backend := "ufw"; safelist_of _ := None |} in
  let p := {| p_dismiss := f32_of_Z 0; p_ignore := f32_of_Z 0; p_block := f32_lit 99 100; p_monitor := f32_lit 1 100 |} in
  dc_action (apply demo_shell (predicted c demo_shell p)) = AIgnore "block_ip predicted but no target IP" /\
  dc_auto_execute (apply demo_shell (predicted c demo_shell p)) = true.
Proof.
  apply (unaddressed_block_closed {| auto_exec_threshold := f32_lit 9 10; block_backend := "ufw"; safelist_of _ := None |} demo_shell
    {| p_dismiss := f32_of_Z 0; p_ignore := f32_of_Z 0; p_block := f32_lit 99 100; p_monitor := f32_lit 1 100 |}); vm_compute; reflexivity.
Defined.
