(* ===== verification/AgentDecisions.v ===== *)
(** * AgentDecisions: the agent's decision trail
    (crates/agent/src/decisions.rs)

    A decision goes to the daily file of JSON lines, chained as in CoreAudit.v,
    and is then mirrored into the table of StoreDecisions.v, with retries.  The
    files are their bytes by name; serde's printing, the local calendar date and
    what the file system and SQLite answer are arguments.  A mirror that fails is
    only logged. *)

From Stdlib Require Import ZArith Lia Ascii String SpecFloat.
From stdpp Require Import prelude strings gmap list.
From S2P Require Import Prelude Text Json Floats CoreTypes StoreKv StoreDecisions CoreAudit AgentCooldown AgentGate AgentSafeguards.

Local Open Scope string_scope.
Local Open Scope list_scope.
Local Open Scope Z_scope.

(** ** Entries *)

(** What is serialised of an entry. *)
Record ChainedEntry := {
  ce_ts : Z;
  ce_incident_id : string;
  ce_host : string;
  ce_ai_provider : string;
  ce_action_type : string;
  ce_target_ip : option string;
  ce_target_user : option string;
  ce_skill_id : option string;
  ce_confidence : float;
  ce_auto_executed : bool;
  ce_dry_run : bool;
  ce_reason : string;
  ce_estimated_threat : string;
  ce_execution_result : string;
  ce_prev_hash : option string;
}.

Definition chained_entry (e : DecisionEntry) (last_hash : option string) : ChainedEntry :=
  {| ce_ts := de_ts e; ce_incident_id := de_incident_id e; ce_host := de_host e; ce_ai_provider := de_ai_provider e;
     ce_action_type := de_action_type e; ce_target_ip := de_target_ip e; ce_target_user := de_target_user e;
     ce_skill_id := de_skill_id e; ce_confidence := de_confidence e; ce_auto_executed := de_auto_executed e;
     ce_dry_run := de_dry_run e; ce_reason := de_reason e; ce_estimated_threat := de_estimated_threat e;
     ce_execution_result := de_execution_result e; ce_prev_hash := last_hash |}.

Definition ai_provider_to_decision_layer (provider : string) : string :=
  let p := to_ascii_lowercase provider in
  if mem_str p ["local_classifier"; "local_warden"] then "ai_local_warden"
  else if mem_str p ["openai"; "anthropic"; "ollama"; "llm"] then "ai_llm"
  else "unknown".

Definition entry_target (a : AiAction) : string * option string * option string * option string :=
  match a with
  | ABlockIp ip skill_id => ("block_ip", Some ip, None, Some skill_id)
  | AMonitor ip => ("monitor", Some ip, None, None)
  | AHoneypot ip => ("honeypot", Some ip, None, None)
  | ASuspendUserSudo user _ => ("suspend_user_sudo", None, Some user, Some "suspend-user-sudo")
  | AKillProcess user _ => ("kill_process", None, Some user, Some "kill-process")
  | ABlockContainer container_id _ => ("block_container", Some container_id, None, Some "block-container")
  | ARequestConfirmation _ => ("request_confirmation", None, None, None)
  | AKillChainResponse _ => ("kill_chain_response", None, None, Some "kill-chain-response")
  | AIgnore _ => ("ignore", None, None, None)
  | ADismiss _ => ("dismiss", None, None, None)
  end.

Definition build_entry (now : Z) (incident_id host ai_provider : string) (decision : AiDecision) (dry_run : bool)
    (execution_result : string) : DecisionEntry :=
  let '(action_type, target_ip, target_user, skill_id) := entry_target (dc_action decision) in
  {| de_ts := now; de_incident_id := incident_id; de_host := host; de_ai_provider := ai_provider;
     de_action_type := action_type; de_target_ip := target_ip; de_target_user := target_user; de_skill_id := skill_id;
     de_confidence := dc_confidence decision; de_auto_executed := dc_auto_execute decision; de_dry_run := dry_run;
     de_reason := dc_reason decision; de_estimated_threat := dc_estimated_threat decision;
     de_execution_result := execution_result; de_prev_hash := None;
     de_decision_layer := Some (ai_provider_to_decision_layer ai_provider) |}.

(** ** Retries *)

(** [op attempt s] is what the operation does and answers at an attempt; the
    result is the attempt that succeeded or the last error, with the pauses in
    between, in milliseconds.  [None] is the panic of no attempt at all. *)
Fixpoint retry_from {S E} (op : nat -> S -> S * result unit E) (attempt remaining : nat) (initial_backoff_ms : Z) (s : S)
    (sleeps : list Z) (last_err : option E) : option (S * result nat E * list Z) :=
  match remaining with
  | O => e ← last_err; Some (s, Err e, sleeps)
  | Datatypes.S remaining =>
      match op attempt s with
      | (s, Ok _) => Some (s, Ok attempt, sleeps)
      | (s, Err e) =>
          let sleeps := if Nat.eqb remaining 0 then sleeps
                        else sleeps ++ [wrap 64 (Z.shiftl initial_backoff_ms (Z.of_nat attempt - 1))] in
          retry_from op (Datatypes.S attempt) remaining initial_backoff_ms s sleeps (Some e)
      end
  end.

Definition retry_sqlite_write {S E} (op : nat -> S -> S * result unit E) (max_attempts : nat) (initial_backoff_ms : Z)
    (s : S) : option (S * result nat E * list Z) :=
  retry_from op 1 max_attempts initial_backoff_ms s [] None.

Definition MIRROR_MAX_ATTEMPTS : nat := 3.
Definition MIRROR_INITIAL_BACKOFF_MS : Z := 50.

Definition is_iso_date (s : string) : bool :=
  match list_ascii_of_string s with
  | [y1; y2; y3; y4; d1; m1; m2; d2; a1; a2] =>
      forallb (in_range 48 57) [y1; y2; y3; y4; m1; m2; a1; a2] && Ascii.eqb d1 "-" && Ascii.eqb d2 "-"
  | _ => false
  end.

Definition decisions_file (date : string) : string := "decisions-" +:+ date +:+ ".jsonl".

(** What the world answers to one append: the local date, the file and its lock,
    and whether SQLite takes the row at each attempt. *)
Record AppendIo := { local_today : string; opens : bool; locks : bool; sqlite_takes : nat -> bool }.

Section trail.
Context (sha256_hex : string -> string) `{Chrono} (to_json : ChainedEntry -> string) (json_prev : string -> option string).

#[export] Instance entry_printer : LinePrinter DecisionEntry :=
  {| print e h := to_json (chained_entry e h); prev_of := json_prev |}.

Definition mirror_row (e : DecisionEntry) (line : string) : DecisionRow :=
  {| dr_ts := to_rfc3339 (de_ts e); dr_incident_id := de_incident_id e; dr_action_type := de_action_type e;
     dr_target_ip := de_target_ip e; dr_target_user := de_target_user e; dr_confidence := f32_as_f64 (de_confidence e);
     dr_auto_executed := de_auto_executed e; dr_reason := Some (de_reason e); dr_data := line |}.

Definition mirror_attempt (takes : nat -> bool) (row : DecisionRow) (attempt : nat) (db : Db) : Db * result unit StoreError :=
  if takes attempt then
    let '(db, r) := insert_decision sha256_hex db row in
    (db, match r with Ok _ => Ok tt | Err e => Err e end)
  else (db, Err Pool).

Definition mirror_to_sqlite (takes : nat -> bool) (db : Db) (e : DecisionEntry) (line : string) : option Db :=
  (fun x => x.1.1) <$> retry_sqlite_write (mirror_attempt takes (mirror_row e line)) MIRROR_MAX_ATTEMPTS MIRROR_INITIAL_BACKOFF_MS db.

(** The state an append works on: the files, and the store where there is one. *)
Record Trail := { tr_files : gmap string string; tr_store : option Db }.

Definition append_chained_locked (t : Trail) (today : string) (io : AppendIo) (e : DecisionEntry) : Trail * result string string :=
  if negb (is_iso_date today) then (t, Err "refusing to construct path with non-ISO-date segment")
  else if negb (opens io) then (t, Err "failed to open")
  else
    let name := decisions_file today in
    let content := default "" (tr_files t !! name) in
    if negb (locks io) then ({| tr_files := <[name := content]> (tr_files t); tr_store := tr_store t |}, Err "flock(LOCK_EX)")
    else
      let line := print e (last_hash sha256_hex content) in
      ({| tr_files := <[name := append_line sha256_hex content e]> (tr_files t);
          tr_store := (fun db => default db (mirror_to_sqlite (sqlite_takes io) db e line)) <$> tr_store t |}, Ok line).

Definition append_chained (t : Trail) (io : AppendIo) (e : DecisionEntry) : Trail * result unit string :=
  let '(t, r) := append_chained_locked t (local_today io) io e in
  (t, match r with Ok _ => Ok tt | Err m => Err m end).

(** The writer that the main loop keeps; the buffered file it also holds is
    never written to. *)
Record DecisionWriter := { current_date : string; dw_last_hash : option string }.

Definition DecisionWriter_write (t : Trail) (w : DecisionWriter) (io : AppendIo) (e : DecisionEntry) :
    Trail * DecisionWriter * result unit string :=
  let today := local_today io in
  let reopened := negb (String.eqb today (current_date w)) in
  if reopened && negb (opens io) then (t, w, Err "failed to open")
  else
    let name := decisions_file today in
    let t := if reopened then {| tr_files := <[name := default "" (tr_files t !! name)]> (tr_files t); tr_store := tr_store t |} else t in
    let w := {| current_date := today; dw_last_hash := dw_last_hash w |} in
    let '(t, r) := append_chained_locked t (current_date w) io e in
    match r with
    | Ok line => (t, {| current_date := current_date w; dw_last_hash := Some (sha256_hex line) |}, Ok tt)
    | Err m => (t, w, Err m)
    end.

Definition count_decisions_for_date (files : gmap string string) (date : string) : nat :=
  match files !! decisions_file date with
  | Some s => length (retain nonblank (lines s))
  | None => O
  end.

(** [fmt] prints an instant in UTC as a date, [fmt_hour] to the hour. *)
Definition count_block_ips_in_current_hour (parse_json : string -> option Json) (fmt fmt_hour : Z -> string)
    (files : gmap string string) (now : Z) : nat :=
  match files !! decisions_file (fmt now) with
  | Some content =>
      length (retain (fun v => bool_decide (get_str v "action_type" = Some "block_ip")
                               && match get_str v "ts" with Some ts => starts_with (fmt_hour now) ts | None => false end)
                (omap parse_json (retain nonblank (lines content))))
  | None => O
  end.

(** ** The trail is the chain of what was appended *)

Context `{!LineLaws DecisionEntry}.

Definition taken (io : AppendIo) : bool := is_iso_date (local_today io) && opens io && locks io.

Definition decided_on (date : string) (log : list (AppendIo * DecisionEntry)) : list DecisionEntry :=
  snd <$> retain (fun a => taken a.1 && String.eqb (decisions_file (local_today a.1)) (decisions_file date)) log.

Definition trail_run (store : option Db) (log : list (AppendIo * DecisionEntry)) : Trail :=
  foldl (fun t a => (append_chained t a.1 a.2).1) {| tr_files := ∅; tr_store := store |} log.

Lemma append_chained_content t io e name :
  default "" (tr_files (append_chained t io e).1 !! name) =
  if taken io && String.eqb (decisions_file (local_today io)) name
  then append_line sha256_hex (default "" (tr_files t !! name)) e else default "" (tr_files t !! name).
Proof.
  unfold append_chained, append_chained_locked, taken.
  destruct (is_iso_date (local_today io)), (opens io); cbn [negb andb fst snd]; try done.
  destruct (locks io); cbn [negb andb fst snd tr_files]; (destruct (String.eqb_spec (decisions_file (local_today io)) name) as [->|Hne];
    [by rewrite lookup_insert_eq|by rewrite lookup_insert_ne]).
Qed.

(** Every daily file is the chain of the decisions whose append succeeded that
    day, whatever SQLite answered. *)
Theorem decisions_chained (store : option Db) (log : list (AppendIo * DecisionEntry)) (date : string) :
  default "" (tr_files (trail_run store log) !! decisions_file date) = file_of (chain_lines sha256_hex None (decided_on date log)).
Proof.
  unfold trail_run. rewrite <- (appends_chain sha256_hex). induction log as [|[io e] log IH] using rev_ind; [done|].
  rewrite foldl_app. cbn [foldl fst snd]. rewrite append_chained_content, IH. unfold decided_on, retain.
  rewrite List.filter_app, fmap_app, foldl_app. cbn [List.filter fst snd]. by destruct (taken io && _).
Qed.

(** The writer of the main loop and the standalone append are the same append:
    they leave the same trail, give the same answer, and after a success the
    writer's cached hash is the one the next line will hold. *)
Theorem writer_is_append (t : Trail) (w : DecisionWriter) (io : AppendIo) (e : DecisionEntry) (ls : list string) :
  default "" (tr_files t !! decisions_file (local_today io)) = file_of ls -> Forall whole_line ls ->
  let '(t', w', r) := DecisionWriter_write t w io e in
  (forall name, default "" (tr_files t' !! name) = default "" (tr_files (append_chained t io e).1 !! name)) /\
  tr_store t' = tr_store (append_chained t io e).1 /\ (result_ok r = result_ok (append_chained t io e).2) /\
  (r = Ok tt -> dw_last_hash w' = last_hash sha256_hex (default "" (tr_files t' !! decisions_file (local_today io)))).
Proof.
  intros Hf Hw. unfold DecisionWriter_write, append_chained, append_chained_locked.
  set (name := decisions_file (local_today io)) in *.
  assert (forall e, last_hash sha256_hex (append_line sha256_hex (file_of ls) e) = Some (sha256_hex (print e (last_hash sha256_hex (file_of ls))))) as Hlast.
  { intros e'. rewrite append_line_file_of by done. unfold last_hash. rewrite last_line_file_of, last_snoc, last_line_file_of; [done|done|].
    apply Forall_app. split; [done|]. constructor; [apply print_whole|done]. }
  assert (forall fs n, default "" (<[name := default "" (fs !! name)]> fs !! n) = default "" ((fs : gmap string string) !! n)) as Hid.
  { intros fs n. destruct (decide (n = name)) as [->|Hne]; [by rewrite lookup_insert_eq|by rewrite lookup_insert_ne]. }
  pose proof (Hid (tr_files t)) as Hid'. clear Hid. set (content := default "" (tr_files t !! name)) in *.
  destruct (String.eqb (local_today io) (current_date w)); cbn [negb andb current_date tr_files tr_store];
    destruct (opens io), (is_iso_date (local_today io)), (locks io); cbn [negb andb fst snd tr_files tr_store result_ok];
    rewrite ?lookup_insert_eq; cbn [default from_option Datatypes.id]; rewrite ?insert_insert_eq; (split_and!; try done); intros _.
  all: fold name; fold content; cbn [dw_last_hash]; by rewrite Hf, Hlast.
Qed.

(** The mirror takes the row at the first of three attempts that SQLite
    answers, once, with the line of the file as its data; if none is answered
    the table stays as it was. *)
Theorem mirror_exact (takes : nat -> bool) (db : Db) (e : DecisionEntry) (line : string) :
  mirror_to_sqlite takes db e line =
  Some (if db_usable db && (takes 1%nat || takes 2%nat || takes 3%nat) then (insert_decision sha256_hex db (mirror_row e line)).1 else db).
Proof.
  unfold mirror_to_sqlite, retry_sqlite_write, MIRROR_MAX_ATTEMPTS. cbn [retry_from]. unfold mirror_attempt, insert_decision.
  destruct (takes 1%nat), (takes 2%nat), (takes 3%nat), (db_usable db) eqn:Eu; cbn [orb andb Nat.eqb]; rewrite ?Eu; reflexivity.
Qed.

(** The layer that made a decision is never written: the serialised form has no
    field for it. *)
Theorem layer_not_written (t : Trail) (io : AppendIo) (e e' : DecisionEntry) :
  chained_entry e None = chained_entry e' None -> append_chained t io e = append_chained t io e'.
Proof.
  intros E. assert (forall h, chained_entry e h = chained_entry e' h) as Eh.
  { intros h. apply (f_equal (fun c => {| ce_ts := ce_ts c; ce_incident_id := ce_incident_id c; ce_host := ce_host c; ce_ai_provider := ce_ai_provider c;
      ce_action_type := ce_action_type c; ce_target_ip := ce_target_ip c; ce_target_user := ce_target_user c; ce_skill_id := ce_skill_id c;
      ce_confidence := ce_confidence c; ce_auto_executed := ce_auto_executed c; ce_dry_run := ce_dry_run c; ce_reason := ce_reason c;
      ce_estimated_threat := ce_estimated_threat c; ce_execution_result := ce_execution_result c; ce_prev_hash := h |})) in E. exact E. }
  assert (forall line, mirror_row e line = mirror_row e' line) as Er by (intros line; unfold mirror_row; injection E; intros; congruence).
  assert (forall h, print e h = print e' h) as Ep by (intros h; cbn; by rewrite Eh).
  unfold append_chained, append_chained_locked, append_line. rewrite !Ep.
  destruct (tr_store t) as [db|]; [|done]. cbn [fmap option_fmap option_map]. unfold mirror_to_sqlite. by rewrite Er.
Qed.

End trail.

(** The name of the action in an entry is the decision's own. *)
Theorem built_action_named (now : Z) (id host provider res : string) (d : AiDecision) (dry : bool) :
  de_action_type (build_entry now id host provider d dry res) = action_name (dc_action d).
Proof. unfold build_entry. by destruct (dc_action d). Qed.

(** ** What the layout misses *)

Definition demo_json (c : ChainedEntry) : string :=
  match ce_prev_hash c with None => "N" | Some h => String "S" (letters h) end.
Definition demo_prev (l : string) : option string :=
  match l with String "S" r => Some (unletters r) | _ => None end.

#[local] Instance demo_entry_laws : @LineLaws DecisionEntry (entry_printer demo_json demo_prev).
Proof.
  split; intros e h; try (destruct h; apply (demo_print_ok (demo_entry "x") _)). destruct h as [h|]; cbn; [by rewrite unletters_letters|done].
Qed.

#[local] Instance demo_decisions_chrono : Chrono := {| parse_utc _ := None; to_rfc3339 _ := ""; fmt_minute _ := "" |}.

Definition demo_block : DecisionEntry :=
  {| de_ts := 0; de_incident_id := "i"; de_host := "h"; de_ai_provider := "p"; de_action_type := "block_ip"; de_target_ip := None;
     de_target_user := None; de_skill_id := None; de_confidence := f32_of_Z 1; de_auto_executed := true; de_dry_run := false;
     de_reason := ""; de_estimated_threat := ""; de_execution_result := ""; de_prev_hash := None; de_decision_layer := None |}.

Definition demo_append (today : string) : AppendIo :=
  {| local_today := today; opens := true; locks := true; sqlite_takes _ := true |}.

(** The file is named after the local date and the hourly count reads the one
    of the UTC date: a block at 01:30 in a zone two hours east of Greenwich is
    not counted in its hour. *)
Theorem local_block_uncounted (parse_json : string -> option Json) (now : Z) :
  let t := (append_chained (fun s => s) demo_json demo_prev {| tr_files := ∅; tr_store := None |} (demo_append "2026-01-02") demo_block).1 in
  count_decisions_for_date (tr_files t) "2026-01-02" = 1%nat /\
  count_block_ips_in_current_hour parse_json (fun _ => "2026-01-01") (fun _ => "2026-01-01T23") (tr_files t) now = 0%nat.
Proof. split; vm_compute; reflexivity. Qed.

Lemma decisions_chained_witness :
  let log := [(demo_append "2026-01-02", demo_block); (demo_append "2026-01-02", demo_block)] in
  default "" (tr_files (trail_run (fun s => s) demo_json demo_prev None log) !! decisions_file "2026-01-02") =
  @file_of (@chain_lines (fun s => s) DecisionEntry (entry_printer demo_json demo_prev) None (decided_on "2026-01-02" log)).
Proof.
  apply (decisions_chained (fun s => s) demo_json demo_prev None
    [(demo_append "2026-01-02", demo_block); (demo_append "2026-01-02", demo_block)] "2026-01-02").
Defined.

(** Two entries that differ in their layer alone leave the same trail. *)
Lemma layer_not_written_witness :
  let e := {| de_ts := 0; de_incident_id := "i"; de_host := "h"; de_ai_provider := "p"; de_action_type := "block_ip"; de_target_ip := None;
     de_target_user := None; de_skill_id := None; de_confidence := f32_of_Z 1; de_auto_executed := true; de_dry_run := false;
     de_reason := ""; de_estimated_threat := ""; de_execution_result := ""; de_prev_hash := None; de_decision_layer := Some "auto_rule" |} in
  append_chained (fun s => s) demo_json demo_prev {| tr_files := ∅; tr_store := None |} (demo_append "2026-01-02") demo_block =
  append_chained (fun s => s) demo_json demo_prev {| tr_files := ∅; tr_store := None |} (demo_append "2026-01-02") e.
Proof.
  apply (layer_not_written (fun s => s) demo_json demo_prev {| tr_files := ∅; tr_store := None |} (demo_append "2026-01-02") demo_block
    {| de_ts := 0; de_incident_id := "i"; de_host := "h"; de_ai_provider := "p"; de_action_type := "block_ip"; de_target_ip := None;
       de_target_user := None; de_skill_id := None; de_confidence := f32_of_Z 1; de_auto_executed := true; de_dry_run := false;
       de_reason := ""; de_estimated_threat := ""; de_execution_result := ""; de_prev_hash := None; de_decision_layer := Some "auto_rule" |}).
  reflexivity.
Defined.

Lemma writer_is_append_witness :
  let t := {| tr_files := ∅; tr_store := None |} in
  let '(t', w', r) := DecisionWriter_write (fun s => s) demo_json demo_prev t {| current_date := "2026-01-01"; dw_last_hash := None |}
    (demo_append "2026-01-02") demo_block in
  (forall name, default "" (tr_files t' !! name) =
     default "" (tr_files (append_chained (fun s => s) demo_json demo_prev t (demo_append "2026-01-02") demo_block).1 !! name)) /\
  tr_store t' = tr_store (append_chained (fun s => s) demo_json demo_prev t (demo_append "2026-01-02") demo_block).1 /\
  result_ok r = result_ok (append_chained (fun s => s) demo_json demo_prev t (demo_append "2026-01-02") demo_block).2 /\
  (r = Ok tt -> dw_last_hash w' = last_hash (fun s => s) (default "" (tr_files t' !! decisions_file (local_today (demo_append "2026-01-02"))))).
Proof.
  apply (writer_is_append (fun s => s) demo_json demo_prev {| tr_files := ∅; tr_store := None |}
    {| current_date := "2026-01-01"; dw_last_hash := None |} (demo_append "2026-01-02") demo_block []); [reflexivity|constructor].
Defined.
