(* ===== verification/AgentOrphans.v ===== *)
(** * AgentOrphans: incidents nobody decided, and reviews nobody answered
    (crates/agent/src/orphan_recovery.rs, needs_review_timeout.rs)

    Three sweeps of the slow loop over the tables of StoreTables.v, each writing
    its decisions with the chained append of AgentDecisions.v: undecided
    incidents are decided after an hour, reviews of blocked addresses are marked
    contained, and old reviews of little severity are dismissed.  The decider,
    the firewall's listings, the JSON reader and what the world answers to the
    append for an incident are arguments; the labels of the knowledge graph are
    left out. *)

From Stdlib Require Import ZArith Lia Ascii String SpecFloat Bool.
From stdpp Require Import prelude strings gmap list sorting.
From S2P Require Import Prelude Text Json Floats CoreTypes StoreKv StoreDecisions StoreTables CoreAudit.
From S2P Require Import AgentLifecycle AgentCooldown AgentGate AgentSafeguards AgentDecisions.

Local Open Scope string_scope.
Local Open Scope list_scope.
Local Open Scope Z_scope.

Definition ORPHAN_AGE_SECS : Z := 3600.
Definition ORPHAN_SWEEP_LIMIT : Z := 5000.
Definition ORPHAN_AI_PROVIDER : string := "orphan-recovery".
Definition REVERIFY_LIMIT : Z := 1000.
Definition NEEDS_REVIEW_TIMEOUT_SECS : Z := 24 * 3600.
Definition SWEEP_LIMIT : Z := 5000.
Definition TIMEOUT_AI_PROVIDER : string := "needs-review-timeout".

Definition is_passive_resolution (a : AiAction) : bool :=
  match a with ADismiss _ | AIgnore _ => true | _ => false end.

Definition is_high_impact (severity : string) : bool :=
  mem_str (to_ascii_lowercase (trim severity)) ["high"; "critical"].

Definition may_auto_resolve (severity : string) : bool :=
  mem_str (to_ascii_lowercase (trim severity)) ["low"; "medium"].

Definition firewall_blocks (ufw_dump iptables_dump ip : string) : bool :=
  (negb (String.eqb ufw_dump "") || negb (String.eqb iptables_dump "")) && (contains ip ufw_dump || contains ip iptables_dump).

(** The first entity of type IP with a value; an entity without a type, or an
    IP without a text, ends the search. *)
Fixpoint first_ip_entity (entities : list Json) : option string :=
  match entities with
  | [] => None
  | e :: rest =>
      t ← get e "type"; kind ← as_str t;
      if String.eqb (to_ascii_lowercase kind) "ip" then
        v ← get e "value"; value ← as_str v;
        if String.eqb value "" then first_ip_entity rest else Some value
      else first_ip_entity rest
  end.

Record SkillInfo := { sk_id : string; sk_applicable_to : list string }.

(** The escalation decider: its name, and what it decides of an incident given
    the skills and the blocked addresses, the rest of its context being empty. *)
Record Decider := {
  provider_name : string;
  decide : Incident -> list SkillInfo -> list string -> option AiDecision;
}.

(** What the agent holds when a sweep begins. *)
Record SweepEnv := {
  se_decider : option Decider;
  se_skills : list SkillInfo;
  se_blocked : list string;
  se_lifecycle : ResponseLifecycle;
  se_host : string;
}.

Definition age_human (age_seconds : Z) : string :=
  show_int (Z.quot age_seconds 3600) +:+ "h" +:+ show_int (Z.quot (Z.rem age_seconds 3600) 60) +:+ "m".

Section sweeps.
Context (sha256_hex : string -> string) `{Chrono} (to_json : ChainedEntry -> string) (json_prev : string -> option string)
  (read_json : string -> option Json) (read_incident : string -> option Incident).

Notation SweepRow := (string * string * string * string)%type.

Definition extract_target_ip (incident_data_json : string) : option string :=
  parsed ← read_json incident_data_json; entities ← get parsed "entities"; l ← as_array entities; first_ip_entity l.

Definition retry_decide (env : SweepEnv) (provider : Decider) (incident_data_json : string) : option AiDecision :=
  incident ← read_incident incident_data_json; decide provider incident (se_skills env) (se_blocked env).

(** Seconds since the text of an instant, zero when it does not parse. *)
Definition age_seconds (now : Z) (ts : string) : Z :=
  match parse_utc ts with Some t => num_seconds (now - t) | None => 0 end.

(** ** The decision for an orphan *)

Definition redecided_entry (env : SweepEnv) (now : Z) (row : SweepRow) (provider : Decider) (decision : AiDecision) : DecisionEntry :=
  let '(incident_id, severity, ts, data) := row in
  {| de_ts := now; de_incident_id := incident_id; de_host := se_host env; de_ai_provider := provider_name provider;
     de_action_type := action_name (dc_action decision); de_target_ip := extract_target_ip data; de_target_user := None;
     de_skill_id := None; de_confidence := dc_confidence decision; de_auto_executed := false; de_dry_run := false;
     de_reason := "Orphan-recovery retry: re-decided a " +:+ severity +:+ "-severity incident that missed its decision ("
       +:+ age_human (age_seconds now ts) +:+ " old). " +:+ provider_name provider +:+ " returned " +:+ action_name (dc_action decision)
       +:+ " (conf " +:+ show_fixed 2 (dc_confidence decision)
       +:+ ") — a pure-verdict close, so the orphan is resolved instead of parked for a human.";
     de_estimated_threat := dc_estimated_threat decision; de_execution_result := "redecided"; de_prev_hash := None;
     de_decision_layer := Some "orphan_redecide" |}.

Definition contained_entry (env : SweepEnv) (now : Z) (row : SweepRow) (ip : string) : DecisionEntry :=
  let '(incident_id, severity, ts, data) := row in
  {| de_ts := now; de_incident_id := incident_id; de_host := se_host env; de_ai_provider := ORPHAN_AI_PROVIDER;
     de_action_type := "block_ip"; de_target_ip := Some ip; de_target_user := None; de_skill_id := None;
     de_confidence := f32_of_Z 1; de_auto_executed := false; de_dry_run := false;
     de_reason := "Orphan-recovery: " +:+ severity +:+ "-severity incident is " +:+ age_human (age_seconds now ts) +:+ " old; its IP " +:+ ip
       +:+ " is tracked as blocked by the response lifecycle (TTL-accurate in-memory view; not a live firewall re-check). "
       +:+ "Threat is treated as contained — recorded as contained instead of needs_review. No new firewall rule applied.";
     de_estimated_threat := severity; de_execution_result := "blocked (per response lifecycle)"; de_prev_hash := None;
     de_decision_layer := Some "observation_verifier" |}.

Definition fallback_entry (env : SweepEnv) (now : Z) (row : SweepRow) : DecisionEntry :=
  let '(incident_id, severity, ts, data) := row in
  let high_impact := is_high_impact severity in
  let age := age_human (age_seconds now ts) in
  {| de_ts := now; de_incident_id := incident_id; de_host := se_host env; de_ai_provider := ORPHAN_AI_PROVIDER;
     de_action_type := if high_impact then "needs_review" else "dismiss"; de_target_ip := extract_target_ip data;
     de_target_user := None; de_skill_id := None; de_confidence := f32_of_Z 1; de_auto_executed := negb high_impact; de_dry_run := false;
     de_reason := if high_impact then
         "Orphan-recovery: " +:+ severity +:+ "-severity incident is " +:+ age +:+ " old with no "
         +:+ "AI decision (deploy orphan or AI provider skip). High/Critical is never "
         +:+ "auto-dismissed — routed to needs_review for the operator (Spec 062 invariant)."
       else
         "Auto-dismissed by orphan-recovery sweep: " +:+ severity +:+ "-severity incident is " +:+ age +:+ " old with no AI decision. "
         +:+ "Likely deploy orphan or AI provider skip. Operator can re-trigger manual review via Threats list.";
     de_estimated_threat := if high_impact then severity else "none";
     de_execution_result := if high_impact then "awaiting_human" else "dismissed"; de_prev_hash := None;
     de_decision_layer := Some (if high_impact then "observation_verifier" else "auto_rule") |}.

(** The decider's answer to a grave orphan, when it closes it. *)
Definition passive_answer (env : SweepEnv) (data : string) : option (Decider * AiDecision) :=
  provider ← se_decider env; decision ← retry_decide env provider data;
  if is_passive_resolution (dc_action decision) then Some (provider, decision) else None.

Definition tracked_block (env : SweepEnv) (now : Z) (incident_id data : string) : option string :=
  ip ← extract_target_ip data;
  if is_block_mitigated_detector incident_id && is_ip_actively_blocked (se_lifecycle env) ip now then Some ip else None.

Definition orphan_entry (env : SweepEnv) (now : Z) (row : SweepRow) : DecisionEntry :=
  let '(incident_id, severity, ts, data) := row in
  if is_high_impact severity then
    match passive_answer env data with
    | Some (provider, decision) => redecided_entry env now row provider decision
    | None =>
        match tracked_block env now incident_id data with
        | Some ip => contained_entry env now row ip
        | None => fallback_entry env now row
        end
    end
  else fallback_entry env now row.

(** ** Writing decisions *)

(** The files of the trail and the store, where there is one. *)
Record AuditState := { au_files : gmap string string; au_store : option Tables }.

(** [Ok(()) => written += 1]; a failure is logged. *)
Definition write_entry (io : string -> AppendIo) (s : gmap string string * Tables * nat) (e : DecisionEntry) :
    gmap string string * Tables * nat :=
  let '(files, t, written) := s in
  let '(tr, r) := append_chained sha256_hex to_json json_prev
    {| tr_files := files; tr_store := Some (tb_decisions t) |} (io (de_incident_id e)) e in
  (tr_files tr, with_decisions t (default (tb_decisions t) (tr_store tr)),
   match r with Ok _ => S written | Err _ => written end).

Definition write_entries (io : string -> AppendIo) (files : gmap string string) (t : Tables) (es : list DecisionEntry) :
    gmap string string * Tables * nat := foldl (write_entry io) (files, t, O) es.

Definition written_state (x : gmap string string * Tables * nat) : AuditState * nat :=
  let '(files, t, n) := x in ({| au_files := files; au_store := Some t |}, n).

(** ** The three sweeps *)

Definition run_sweep (io : string -> AppendIo) (env : SweepEnv) (now : Z) (s : AuditState) : AuditState * nat :=
  match au_store s with
  | None => (s, O)
  | Some t =>
      match find_orphan_incidents t (to_rfc3339 (now - seconds ORPHAN_AGE_SECS)) ORPHAN_SWEEP_LIMIT with
      | Err _ => (s, O)
      | Ok [] => (s, O)
      | Ok orphans => written_state (write_entries io (au_files s) t (orphan_entry env now <$> orphans))
      end
  end.

Definition reverified_entry (env : SweepEnv) (now : Z) (c : string * string) : DecisionEntry :=
  let '(incident_id, ip) := c in
  {| de_ts := now; de_incident_id := incident_id; de_host := se_host env; de_ai_provider := ORPHAN_AI_PROVIDER;
     de_action_type := "block_ip"; de_target_ip := Some ip; de_target_user := None; de_skill_id := None;
     de_confidence := f32_of_Z 1; de_auto_executed := false; de_dry_run := false;
     de_reason := "Re-verify: this needs_review case's IP " +:+ ip +:+ " is currently dropped by the LIVE "
       +:+ "firewall (ufw/iptables probe), so the threat is already contained. Recorded as "
       +:+ "contained instead of leaving it in 'needs your attention'. Verified live (not the "
       +:+ "internal record), so a divergent/orphaned block still counts. No new rule applied.";
     de_estimated_threat := "high"; de_execution_result := "blocked (live firewall verified)"; de_prev_hash := None;
     de_decision_layer := Some "reverify_live_contained" |}.

Definition contain_live_blocked_candidates (io : string -> AppendIo) (env : SweepEnv) (files : gmap string string) (t : Tables)
    (candidates : list (string * string)) (ufw iptables : string) (now : Z) : gmap string string * Tables * nat :=
  write_entries io files t (reverified_entry env now <$> retain (fun c => firewall_blocks ufw iptables c.2) candidates).

Definition reverify_candidate (row : SweepRow) : option (string * string) :=
  let '(incident_id, severity, ts, data) := row in
  if is_high_impact severity && is_block_mitigated_detector incident_id
  then pair incident_id <$> extract_target_ip data else None.

(** [probe] is what the firewall commands print. *)
Definition reverify_already_blocked_needs_review (io : string -> AppendIo) (env : SweepEnv) (probe : string * string) (now : Z)
    (s : AuditState) : AuditState * nat :=
  match au_store s with
  | None => (s, O)
  | Some t =>
      match find_timed_out_needs_review t (to_rfc3339 now) REVERIFY_LIMIT with
      | Err _ => (s, O)
      | Ok cases =>
          match omap reverify_candidate cases with
          | [] => (s, O)
          | candidates =>
              let '(ufw, iptables) := probe in
              if String.eqb ufw "" && String.eqb iptables "" then (s, O)
              else written_state (contain_live_blocked_candidates io env (au_files s) t candidates ufw iptables now)
          end
      end
  end.

Definition timeout_entry (now : Z) (row : SweepRow) : DecisionEntry :=
  let '(incident_id, severity, ts, data) := row in
  {| de_ts := now; de_incident_id := incident_id; de_host := ""; de_ai_provider := TIMEOUT_AI_PROVIDER;
     de_action_type := "dismiss"; de_target_ip := extract_target_ip data; de_target_user := None; de_skill_id := None;
     de_confidence := f32_of_Z 1; de_auto_executed := true; de_dry_run := false;
     de_reason := "Auto-resolved by needs_review timeout: " +:+ severity +:+ "-severity incident sat in needs_review for "
       +:+ age_human (age_seconds now ts) +:+ " with no human action. Low/medium items auto-close on timeout; high/critical never do.";
     de_estimated_threat := "low"; de_execution_result := "dismissed"; de_prev_hash := None; de_decision_layer := Some "auto_rule" |}.

Definition row_severity (row : SweepRow) : string := row.1.1.2.

Definition timeout_run_sweep (io : string -> AppendIo) (now : Z) (s : AuditState) : AuditState * nat :=
  match au_store s with
  | None => (s, O)
  | Some t =>
      match find_timed_out_needs_review t (to_rfc3339 (now - seconds NEEDS_REVIEW_TIMEOUT_SECS)) SWEEP_LIMIT with
      | Err _ => (s, O)
      | Ok [] => (s, O)
      | Ok rows =>
          written_state (write_entries io (au_files s) t (timeout_entry now <$> retain (fun r => may_auto_resolve (row_severity r)) rows))
      end
  end.

(** ** What a batch of entries leaves *)

(** The append reaches the file, and the table. *)
Definition recorded (io : AppendIo) : bool := taken io && (sqlite_takes io 1%nat || sqlite_takes io 2%nat || sqlite_takes io 3%nat).

Definition row_of (r : Row) (e : DecisionEntry) : Prop :=
  r_incident_id r = de_incident_id e /\ r_action_type r = de_action_type e /\ r_ts r = to_rfc3339 (de_ts e) /\ r_target_ip r = de_target_ip e.

Record added (t t' : Tables) (es : list DecisionEntry) : Prop := {
  ad_incidents : incidents t' = incidents t;
  ad_usable : usable t' = usable t;
  ad_rows : exists rows, decisions (tb_decisions t') = decisions (tb_decisions t) ++ rows /\ Forall2 row_of rows es;
}.

Lemma added_nil t : added t t [].
Proof. split; [done|done|]. exists []. split; [by rewrite app_nil_r|constructor]. Qed.

Lemma added_app t1 t2 t3 es es' : added t1 t2 es -> added t2 t3 es' -> added t1 t3 (es ++ es').
Proof.
  intros [Hi Hu (rows & Hr & Hf)] [Hi' Hu' (rows' & Hr' & Hf')]. split; [congruence|congruence|].
  exists (rows ++ rows'). rewrite Hr', Hr, <- app_assoc. split; [done|]. by apply Forall2_app.
Qed.

Lemma write_entry_added io files t n e : usable t = true ->
  let '(files', t', n') := write_entry io (files, t, n) e in
  added t t' (if recorded (io (de_incident_id e)) then [e] else []) /\
  n' = ((if taken (io (de_incident_id e)) then 1 else 0) + n)%nat.
Proof.
  intros Hu. unfold write_entry, append_chained, append_chained_locked, recorded, taken.
  set (w := io (de_incident_id e)). assert (forall f : gmap string string, added t (with_decisions t (tb_decisions t)) []) as Hsame.
  { intros _. split; [done|done|]. exists []. split; [by rewrite app_nil_r|constructor]. }
  destruct (is_iso_date (local_today w)), (opens w); cbn [negb andb tr_store tr_files default from_option Datatypes.id];
    try (split; [exact (Hsame ∅)|done]).
  destruct (locks w); cbn [negb andb tr_store tr_files default from_option Datatypes.id]; [|split; [exact (Hsame ∅)|done]].
  cbn [fmap option_fmap option_map default from_option Datatypes.id]. split; [|done].
  rewrite mirror_exact. cbn [default from_option Datatypes.id]. unfold usable in Hu. rewrite Hu. cbn [andb].
  destruct (_ || _ || _); [|exact (Hsame ∅)]. unfold insert_decision. rewrite Hu. cbn [fst]. split; [done| |].
  - unfold usable. cbn. by rewrite Hu.
  - eexists. split; [reflexivity|]. constructor; [|constructor]. by split_and!.
Qed.

(** The entries whose append reaches the table are added to it in order; those
    whose append reaches the file are counted. *)
Lemma write_entries_added io files t es : usable t = true ->
  let '(files', t', n) := write_entries io files t es in
  added t t' (retain (fun e => recorded (io (de_incident_id e))) es) /\
  n = length (retain (fun e => taken (io (de_incident_id e))) es).
Proof.
  intros Hu. unfold write_entries. induction es as [|e es IH] using rev_ind; [split; [apply added_nil|done]|].
  rewrite foldl_app. destruct (foldl _ _ es) as [[files1 t1] n1]. destruct IH as [Ha Hn]. cbn [foldl].
  pose proof (write_entry_added io files1 t1 n1 e) as Hw. rewrite (ad_usable _ _ _ Ha) in Hw. specialize (Hw Hu).
  destruct (write_entry io (files1, t1, n1) e) as [[files2 t2] n2]. destruct Hw as [Ha2 Hn2].
  unfold retain in *. rewrite !List.filter_app. split.
  - eapply added_app; [exact Ha|]. cbn [List.filter]. by destruct (recorded _).
  - rewrite length_app. cbn [List.filter]. rewrite Hn2, Hn. destruct (taken _); cbn; lia.
Qed.

Lemma added_elem t t' es r : added t t' es -> r ∈ decisions (tb_decisions t') ->
  r ∈ decisions (tb_decisions t) \/ exists e, e ∈ es /\ row_of r e.
Proof.
  intros [_ _ (rows & -> & Hf)] [Hr|Hr]%elem_of_app; [by left|right].
  apply list_elem_of_lookup in Hr as [i Hi]. destruct (Forall2_lookup_l _ _ _ _ _ Hf Hi) as (e & He & Hre).
  exists e. split; [by eapply list_elem_of_lookup_2|done].
Qed.

(** ** Orphans *)

(** The undecided incidents older than the cutoff, oldest first. *)
Definition orphans (t : Tables) (cutoff : string) : list IncidentRow :=
  order_by ir_ts ir_id
    (retain (fun r => undecided t (ir_incident_id r) && str_ltb (ir_ts r) cutoff && negb (ir_is_allowlisted r)) (incidents t)).

Definition sweep_row (r : IncidentRow) : SweepRow := (ir_incident_id r, ir_severity r, ir_ts r, ir_data r).

Definition orphan_cutoff (now : Z) : string := to_rfc3339 (now - seconds ORPHAN_AGE_SECS).

Definition swept (t : Tables) (now : Z) : list IncidentRow := take (Z.to_nat ORPHAN_SWEEP_LIMIT) (orphans t (orphan_cutoff now)).

Lemma run_sweep_eq io env now files t : usable t = true ->
  run_sweep io env now {| au_files := files; au_store := Some t |} =
  written_state (write_entries io files t (orphan_entry env now <$> (sweep_row <$> swept t now))).
Proof.
  intros Hu. unfold run_sweep, find_orphan_incidents, conn. cbn [au_store]. rewrite Hu.
  change (sql_limit (usize_as_i64 ORPHAN_SWEEP_LIMIT) ?l) with (take (Z.to_nat ORPHAN_SWEEP_LIMIT) l).
  change (order_by ir_ts ir_id _) with (orphans t (orphan_cutoff now)). fold (swept t now).
  change ((fun r => (ir_incident_id r, ir_severity r, ir_ts r, ir_data r)) <$> ?l) with (sweep_row <$> l).
  destruct (sweep_row <$> swept t now); done.
Qed.

Lemma orphan_entry_id env now row : de_incident_id (orphan_entry env now row) = row.1.1.1.
Proof.
  destruct row as [[[id sev] ts] data]. unfold orphan_entry. cbn [fst].
  destruct (is_high_impact sev); [|done]. destruct (passive_answer env data) as [[p d]|]; [done|]. by destruct (tracked_block env now id data).
Qed.

Lemma sweep_entry_ids env now (rows : list IncidentRow) :
  de_incident_id <$> (orphan_entry env now <$> (sweep_row <$> rows)) = ir_incident_id <$> rows.
Proof. induction rows as [|r rows IH]; [done|]. cbn [fmap list_fmap] in *. by rewrite orphan_entry_id, IH. Qed.

Lemma added_ids t t' es : added t t' es -> exists rows,
  decisions (tb_decisions t') = decisions (tb_decisions t) ++ rows /\ r_incident_id <$> rows = de_incident_id <$> es.
Proof.
  intros [_ _ (rows & Hd & Hf)]. exists rows. split; [done|]. clear Hd.
  induction Hf as [|r e rows es [Hi _] _ IH]; [done|]. cbn. by rewrite Hi, IH.
Qed.

Lemma undecided_added t t' es id : added t t' es ->
  undecided t' id = undecided t id && negb (bool_decide (id ∈ de_incident_id <$> es)).
Proof.
  intros (rows & Hd & Hids)%added_ids. unfold undecided, any. rewrite Hd, List.existsb_app, negb_orb. f_equal. f_equal.
  apply eq_true_iff_eq. rewrite bool_decide_eq_true, <- Hids. fold (any (fun d => String.eqb (r_incident_id d) id) rows).
  rewrite any_true, list_elem_of_fmap. split; intros (r & H1 & H2).
  - apply String.eqb_eq in H2. exists r. by split.
  - exists r. subst. split; [done|apply String.eqb_refl].
Qed.

(** The orphans that remain are those the sweep did not reach. *)
Lemma orphans_after t t' es cutoff n : added t t' es -> NoDup (ir_incident_id <$> incidents t) ->
  de_incident_id <$> es = ir_incident_id <$> take n (orphans t cutoff) ->
  orphans t' cutoff ≡ₚ drop n (orphans t cutoff).
Proof.
  intros Ha Hnd He. unfold orphans at 1, order_by. rewrite merge_sort_Permutation, (ad_incidents _ _ _ Ha).
  set (p := fun r => undecided t (ir_incident_id r) && str_ltb (ir_ts r) cutoff && negb (ir_is_allowlisted r)).
  set (q := fun r => undecided t' (ir_incident_id r) && str_ltb (ir_ts r) cutoff && negb (ir_is_allowlisted r)).
  assert (forall r, q r = p r && negb (bool_decide (ir_incident_id r ∈ ir_incident_id <$> take n (orphans t cutoff)))) as Hq.
  { intros r. unfold q, p. rewrite (undecided_added t t' es), He by done.
    by destruct (undecided t _), (str_ltb _ _), (ir_is_allowlisted r), (bool_decide _). }
  assert (orphans t cutoff ≡ₚ retain p (incidents t)) as Hp by apply merge_sort_Permutation.
  rewrite <- (retain_retain p q) by (intros r; rewrite Hq; by intros [? _]%andb_true_iff).
  rewrite <- Hp.
  assert (NoDup (ir_incident_id <$> orphans t cutoff)) as Hnd'.
  { rewrite Hp. eapply sublist_NoDup; [exact Hnd|]. apply fmap_sublist, retain_sublist. }
  rewrite <- (take_drop n (orphans t cutoff)) at 1. rewrite retain_app_list.
  rewrite <- (take_drop n (orphans t cutoff)), fmap_app in Hnd'. apply NoDup_app in Hnd' as (_ & Hdis & _).
  rewrite (list_filter_none q (take n (orphans t cutoff))).
  - rewrite (retain_all q (drop n (orphans t cutoff))); [done|]. apply Forall_forall. intros r Hr. rewrite Hq.
    assert (p r = true) as ->. { apply (retain_elem p (incidents t)). rewrite <- Hp. exact (subseteq_drop _ _ _ Hr). }
    rewrite bool_decide_false; [done|]. intros Hin. apply (Hdis _ Hin). by apply list_elem_of_fmap_2.
  - intros r Hr. rewrite Hq, bool_decide_true by (by apply list_elem_of_fmap_2). apply andb_false_r.
Qed.

Lemma retain_true_all {A} (p : A -> bool) l : (forall x, p x = true) -> retain p l = l.
Proof. intros Hp. apply retain_all, Forall_forall. auto. Qed.

Lemma recorded_taken io : recorded io = true -> taken io = true.
Proof. unfold recorded. by intros [? _]%andb_true_iff. Qed.

(** C29. When the appends go through, a sweep decides the five thousand oldest
    incidents that have waited more than an hour, each once and in that order,
    and leaves exactly the others waiting: repeated sweeps end the backlog. *)
Theorem orphans_decided (io : string -> AppendIo) (env : SweepEnv) (now : Z) (files : gmap string string) (t : Tables) :
  usable t = true -> NoDup (ir_incident_id <$> incidents t) -> (forall id, recorded (io id) = true) ->
  exists files' t' rows,
    run_sweep io env now {| au_files := files; au_store := Some t |} =
      ({| au_files := files'; au_store := Some t' |}, length (swept t now)) /\
    decisions (tb_decisions t') = decisions (tb_decisions t) ++ rows /\
    r_incident_id <$> rows = ir_incident_id <$> swept t now /\
    orphans t' (orphan_cutoff now) ≡ₚ drop (Z.to_nat ORPHAN_SWEEP_LIMIT) (orphans t (orphan_cutoff now)).
Proof.
  intros Hu Hnd Hio. rewrite run_sweep_eq by done.
  pose proof (write_entries_added io files t (orphan_entry env now <$> (sweep_row <$> swept t now)) Hu) as Hw.
  destruct (write_entries io files t _) as [[files' t'] n]. destruct Hw as [Ha ->].
  rewrite retain_true_all in Ha by auto. rewrite retain_true_all by auto using recorded_taken. rewrite !length_fmap.
  destruct (added_ids _ _ _ Ha) as (rows & Hd & Hids). rewrite sweep_entry_ids in Hids. exists files', t', rows. split_and!; try done.
  eapply orphans_after; [exact Ha|exact Hnd|]. apply sweep_entry_ids.
Qed.

(** What a sweep may write of an incident: one of no great severity is
    dismissed; a grave one is closed only on the decider's own verdict, marked
    contained only when its address is tracked as blocked and a block is what
    such a detector asks for, and is otherwise left for review. *)
Definition sound_verdict (env : SweepEnv) (now : Z) (i : IncidentRow) (action : string) (ip : option string) : Prop :=
  if is_high_impact (ir_severity i) then
    action = "needs_review" \/
    (action = "block_ip" /\ exists a, ip = Some a /\ extract_target_ip (ir_data i) = Some a /\
       is_block_mitigated_detector (ir_incident_id i) = true /\ is_ip_actively_blocked (se_lifecycle env) a now = true) \/
    (exists p d inc, se_decider env = Some p /\ read_incident (ir_data i) = Some inc /\ decide p inc (se_skills env) (se_blocked env) = Some d /\
       is_passive_resolution (dc_action d) = true /\ action = action_name (dc_action d))
  else action = "dismiss".

Lemma orphan_entry_sound env now i :
  let e := orphan_entry env now (sweep_row i) in sound_verdict env now i (de_action_type e) (de_target_ip e).
Proof.
  unfold sound_verdict, orphan_entry, sweep_row. destruct (is_high_impact (ir_severity i)) eqn:Eh;
    [|unfold fallback_entry; rewrite Eh; done].
  destruct (passive_answer env (ir_data i)) as [[p d]|] eqn:Ep.
  - right. right. unfold passive_answer, retry_decide in Ep. apply bind_Some in Ep as (p' & Hp & Ep). apply bind_Some in Ep as (d' & Hd & Ep).
    apply bind_Some in Hd as (inc & Hi & Hd). destruct (is_passive_resolution _) eqn:Epass; [|done]. injection Ep as -> ->. by exists p, d, inc.
  - destruct (tracked_block env now (ir_incident_id i) (ir_data i)) as [a|] eqn:Et.
    + right. left. unfold tracked_block in Et. apply bind_Some in Et as (a' & Ha & Et).
      destruct (_ && _) eqn:Eb; [|done]. injection Et as ->. apply andb_true_iff in Eb as [??]. split; [done|]. by exists a.
    + left. cbn. by rewrite Eh.
Qed.

(** C8. Whatever fails on the way, a decision that the orphan sweep adds is about
    an incident that had none and was not allowlisted, more than an hour old, and
    is a sound verdict on it: a grave one is never dismissed without the decider
    saying so. *)
Theorem orphan_verdicts_sound (io : string -> AppendIo) (env : SweepEnv) (now : Z) (files : gmap string string) (t t' : Tables)
    (files' : gmap string string) (n : nat) (r : Row) :
  run_sweep io env now {| au_files := files; au_store := Some t |} = ({| au_files := files'; au_store := Some t' |}, n) ->
  r ∈ decisions (tb_decisions t') ->
  r ∈ decisions (tb_decisions t) \/
  exists i, i ∈ incidents t /\ ir_incident_id i = r_incident_id r /\ undecided t (ir_incident_id i) = true /\
    ir_is_allowlisted i = false /\ str_ltb (ir_ts i) (orphan_cutoff now) = true /\
    sound_verdict env now i (r_action_type r) (r_target_ip r).
Proof.
  intros Hs Hr. destruct (usable t) eqn:Hu.
  2: { unfold run_sweep, find_orphan_incidents, conn in Hs. cbn [au_store] in Hs. rewrite Hu in Hs. left. by simplify_eq. }
  rewrite run_sweep_eq in Hs by done.
  pose proof (write_entries_added io files t (orphan_entry env now <$> (sweep_row <$> swept t now)) Hu) as Hw.
  destruct (write_entries io files t _) as [[files1 t1] n1]. destruct Hw as [Ha _]. cbn [written_state] in Hs.
  injection Hs as _ -> _. destruct (added_elem _ _ _ _ Ha Hr) as [Hl|(e & He & H1 & H2 & _ & H4)]; [by left|right].
  apply retain_elem in He as [He _]. apply list_elem_of_fmap in He as (row & -> & Hrow).
  apply list_elem_of_fmap in Hrow as (i & -> & Hi). apply subseteq_take in Hi. unfold orphans, order_by in Hi.
  rewrite merge_sort_Permutation, retain_elem in Hi. destruct Hi as [Hi Hc].
  apply andb_true_iff in Hc as [[Hc1 Hc2]%andb_true_iff Hc3%negb_true_iff]. exists i. rewrite orphan_entry_id in H1. split_and!; try done.
  rewrite H2, H4. apply orphan_entry_sound.
Qed.

(** When the file takes the decisions and SQLite none of them, the sweep counts
    them all as written, and the same incidents are waiting for the next one. *)
Theorem unmirrored_repeats (io : string -> AppendIo) (env : SweepEnv) (now : Z) (files : gmap string string) (t : Tables) :
  usable t = true -> (forall id, taken (io id) = true /\ recorded (io id) = false) ->
  exists files' t',
    run_sweep io env now {| au_files := files; au_store := Some t |} =
      ({| au_files := files'; au_store := Some t' |}, length (swept t now)) /\
    swept t' now = swept t now.
Proof.
  intros Hu Hio. rewrite run_sweep_eq by done.
  pose proof (write_entries_added io files t (orphan_entry env now <$> (sweep_row <$> swept t now)) Hu) as Hw.
  destruct (write_entries io files t _) as [[files' t'] n]. destruct Hw as [[Hi _ (rows & Hd & Hf)] ->].
  rewrite list_filter_none in Hf by (intros; apply Hio). apply Forall2_nil_inv_r in Hf as ->. rewrite app_nil_r in Hd.
  rewrite retain_true_all by (intros; apply Hio). rewrite !length_fmap. exists files', t'. split; [done|].
  unfold swept, orphans, undecided. by rewrite Hi, Hd.
Qed.

(** ** Reviews *)

(** The incidents whose latest decision is a review asked for before an
    instant, oldest first. *)
Definition review_of (t : Tables) (before_ts : string) (i : IncidentRow) : option (IncidentRow * Row) :=
  d ← latest_decision t (ir_incident_id i);
  if String.eqb (r_action_type d) "needs_review" && str_ltb (r_ts d) before_ts && negb (ir_is_allowlisted i)
  then Some (i, d) else None.

Definition reviews (t : Tables) (before_ts : string) : list (IncidentRow * Row) :=
  order_by (fun rd => r_ts rd.2) (fun rd => ir_id rd.1) (omap (review_of t before_ts) (incidents t)).

Definition review_row (rd : IncidentRow * Row) : SweepRow := (ir_incident_id rd.1, ir_severity rd.1, r_ts rd.2, ir_data rd.1).

Definition timeout_cutoff (now : Z) : string := to_rfc3339 (now - seconds NEEDS_REVIEW_TIMEOUT_SECS).

Lemma find_reviews t before_ts (limit : Z) : usable t = true -> 0 <= limit < 2 ^ 63 ->
  find_timed_out_needs_review t before_ts limit = Ok (review_row <$> take (Z.to_nat limit) (reviews t before_ts)).
Proof.
  intros Hu Hl. unfold find_timed_out_needs_review, conn. rewrite Hu. f_equal.
  assert (usize_as_i64 limit = limit) as ->.
  { unfold usize_as_i64, as_signed. rewrite wrap_small by (unfold in_width; lia). by rewrite (proj2 (Z.ltb_lt _ _)) by lia. }
  unfold sql_limit. by rewrite (proj2 (Z.ltb_ge _ _)) by lia.
Qed.

Lemma timeout_sweep_eq io now files t : usable t = true ->
  timeout_run_sweep io now {| au_files := files; au_store := Some t |} =
  written_state (write_entries io files t (timeout_entry now <$> retain (fun r => may_auto_resolve (row_severity r))
    (review_row <$> take (Z.to_nat SWEEP_LIMIT) (reviews t (timeout_cutoff now))))).
Proof.
  intros Hu. unfold timeout_run_sweep. cbn [au_store]. rewrite find_reviews by (done || (unfold SWEEP_LIMIT; lia)).
  fold (timeout_cutoff now). by destruct (review_row <$> _).
Qed.

Lemma review_elem t before_ts n row : row ∈ review_row <$> take n (reviews t before_ts) ->
  exists i d, row = review_row (i, d) /\ i ∈ incidents t /\ latest_decision t (ir_incident_id i) = Some d /\
    r_action_type d = "needs_review" /\ str_ltb (r_ts d) before_ts = true /\ ir_is_allowlisted i = false.
Proof.
  intros ([i d] & -> & Hin%subseteq_take)%list_elem_of_fmap. unfold reviews, order_by in Hin. rewrite merge_sort_Permutation in Hin.
  apply list_elem_of_omap in Hin as (i' & Hi & Hr). unfold review_of in Hr. apply bind_Some in Hr as (d' & Hd & Hr).
  destruct (_ && _ && _) eqn:Ec; [|done]. injection Hr as -> ->.
  apply andb_true_iff in Ec as [[H1%String.eqb_eq H2]%andb_true_iff H3%negb_true_iff]. by exists i, d.
Qed.

Lemma timeout_entry_fields now i d :
  de_incident_id (timeout_entry now (review_row (i, d))) = ir_incident_id i /\
  de_action_type (timeout_entry now (review_row (i, d))) = "dismiss".
Proof. done. Qed.

(** Every decision the timeout adds is the dismissal of an incident of low or
    medium severity, not allowlisted, whose latest decision was a request for
    review made more than a day before. *)
Theorem timeout_dismissals_due (io : string -> AppendIo) (now : Z) (files : gmap string string) (t t' : Tables)
    (files' : gmap string string) (n : nat) (r : Row) :
  timeout_run_sweep io now {| au_files := files; au_store := Some t |} = ({| au_files := files'; au_store := Some t' |}, n) ->
  r ∈ decisions (tb_decisions t') ->
  r ∈ decisions (tb_decisions t) \/
  r_action_type r = "dismiss" /\
  exists i d, i ∈ incidents t /\ ir_incident_id i = r_incident_id r /\ may_auto_resolve (ir_severity i) = true /\
    ir_is_allowlisted i = false /\ latest_decision t (ir_incident_id i) = Some d /\
    r_action_type d = "needs_review" /\ str_ltb (r_ts d) (timeout_cutoff now) = true.
Proof.
  intros Hs Hr. destruct (usable t) eqn:Hu.
  2: { unfold timeout_run_sweep, find_timed_out_needs_review, conn in Hs. cbn [au_store] in Hs. rewrite Hu in Hs. left. by simplify_eq. }
  rewrite timeout_sweep_eq in Hs by done. match type of Hs with written_state (write_entries _ _ _ ?es) = _ =>
    pose proof (write_entries_added io files t es Hu) as Hw; destruct (write_entries io files t es) as [[files1 t1] n1] end.
  destruct Hw as [Ha _]. cbn [written_state] in Hs. injection Hs as _ -> _.
  destruct (added_elem _ _ _ _ Ha Hr) as [Hl|(e & He & H1 & H2 & _)]; [by left|right].
  apply retain_elem in He as [He _]. apply list_elem_of_fmap in He as (row & -> & [Hrow Hm]%retain_elem).
  apply review_elem in Hrow as (i & d & -> & Hi & Hd & Hact & Hts & Hal). split; [done|]. by exists i, d.
Qed.

Lemma high_not_resolved s : is_high_impact s = true -> may_auto_resolve s = false.
Proof.
  unfold is_high_impact, may_auto_resolve. intros Hh. destruct (mem_str _ ["low"; "medium"]) eqn:El; [|done].
  apply mem_str_true in Hh, El. apply list_elem_of_In in Hh, El. destruct Hh as [Hh|[Hh|[]]], El as [El|[El|[]]]; rewrite <- Hh in El; discriminate El.
Qed.

Lemma timeout_keeps_grave io now files t id : usable t = true ->
  Forall (fun i => ir_incident_id i = id -> is_high_impact (ir_severity i) = true) (incidents t) ->
  exists files' t' n, timeout_run_sweep io now {| au_files := files; au_store := Some t |} = ({| au_files := files'; au_store := Some t' |}, n) /\
    usable t' = true /\ incidents t' = incidents t /\ latest_decision t' id = latest_decision t id.
Proof.
  intros Hu Hg. rewrite timeout_sweep_eq by done. match goal with |- context [write_entries _ _ _ ?es] =>
    pose proof (write_entries_added io files t es Hu) as Hw; destruct (write_entries io files t es) as [[files1 t1] n1] end.
  destruct Hw as [Ha _]. exists files1, t1, n1. split; [done|]. destruct Ha as [Hi Hus (rows & Hd & Hf)].
  split_and!; [congruence|done|]. unfold latest_decision. rewrite Hd, retain_app_list.
  rewrite (list_filter_none _ rows), app_nil_r; [done|]. intros r Hr. apply String.eqb_neq. intros Hid.
  apply list_elem_of_lookup in Hr as [k Hk]. destruct (Forall2_lookup_l _ _ _ _ _ Hf Hk) as (e & He & H1 & _).
  apply list_elem_of_lookup_2, retain_elem in He as [He _]. apply list_elem_of_fmap in He as (row & -> & [Hrow Hm]%retain_elem).
  apply review_elem in Hrow as (i & d & -> & Hin & _). rewrite Forall_forall in Hg.
  cbn in H1. change (may_auto_resolve (ir_severity i) = true) in Hm. rewrite high_not_resolved in Hm; [done|]. apply Hg; [done|congruence].
Qed.

(** However often the timeout runs, whatever the clock and the disk do, the
    latest decision on a grave incident stays what it was: a review nobody
    answered is still asked for. *)
Theorem grave_review_stays (log : list (Z * (string -> AppendIo))) (files : gmap string string) (t : Tables) (id : string) :
  usable t = true -> Forall (fun i => ir_incident_id i = id -> is_high_impact (ir_severity i) = true) (incidents t) ->
  exists files' t',
    foldl (fun s l => (timeout_run_sweep l.2 l.1 s).1) {| au_files := files; au_store := Some t |} log
      = {| au_files := files'; au_store := Some t' |} /\
    latest_decision t' id = latest_decision t id.
Proof.
  revert files t. induction log as [|[now io] log IH]; intros files t Hu Hg; [by exists files, t|]. cbn [foldl fst snd].
  destruct (timeout_keeps_grave io now files t id Hu Hg) as (files1 & t1 & n & -> & Hu1 & Hi1 & Hl1). cbn [fst].
  destruct (IH files1 t1 Hu1) as (files2 & t2 & Hr & Hl2); [by rewrite Hi1|]. exists files2, t2. split; [done|congruence].
Qed.

(** ** Reviews of blocked addresses *)

Definition reverified (t : Tables) (now : Z) (probe : string * string) : list (string * string) :=
  retain (fun c => firewall_blocks probe.1 probe.2 c.2)
    (omap reverify_candidate (review_row <$> take (Z.to_nat REVERIFY_LIMIT) (reviews t (to_rfc3339 now)))).

Lemma firewall_blocks_silent ip : firewall_blocks "" "" ip = false.
Proof. done. Qed.

Lemma reverify_eq io env probe now files t : usable t = true ->
  reverify_already_blocked_needs_review io env probe now {| au_files := files; au_store := Some t |} =
  written_state (write_entries io files t (reverified_entry env now <$> reverified t now probe)).
Proof.
  intros Hu. unfold reverify_already_blocked_needs_review, reverified. cbn [au_store].
  rewrite find_reviews by (done || (unfold REVERIFY_LIMIT; lia)). destruct (omap _ _) as [|c cs]; [done|]. destruct probe as [ufw iptables].
  destruct (String.eqb_spec ufw "") as [->|?], (String.eqb_spec iptables "") as [->|?]; try done. cbn [andb fst snd].
  by rewrite (list_filter_none _ (c :: cs)) by (intros; apply firewall_blocks_silent).
Qed.

(** A review is marked contained only when it is the incident's latest
    decision, the incident is grave, a block is the whole answer to its detector,
    and the firewall's listing names its address; a probe that printed nothing
    marks none. *)
Theorem reverified_sound (io : string -> AppendIo) (env : SweepEnv) (probe : string * string) (now : Z) (files : gmap string string)
    (t t' : Tables) (files' : gmap string string) (n : nat) (r : Row) :
  reverify_already_blocked_needs_review io env probe now {| au_files := files; au_store := Some t |} =
    ({| au_files := files'; au_store := Some t' |}, n) ->
  r ∈ decisions (tb_decisions t') ->
  r ∈ decisions (tb_decisions t) \/
  r_action_type r = "block_ip" /\ probe <> ("", "") /\
  exists i d ip, i ∈ incidents t /\ ir_incident_id i = r_incident_id r /\ is_high_impact (ir_severity i) = true /\
    is_block_mitigated_detector (ir_incident_id i) = true /\ latest_decision t (ir_incident_id i) = Some d /\
    r_action_type d = "needs_review" /\ extract_target_ip (ir_data i) = Some ip /\ r_target_ip r = Some ip /\
    firewall_blocks probe.1 probe.2 ip = true.
Proof.
  intros Hs Hr. destruct (usable t) eqn:Hu.
  2: { unfold reverify_already_blocked_needs_review, find_timed_out_needs_review, conn in Hs. cbn [au_store] in Hs. rewrite Hu in Hs.
       left. by simplify_eq. }
  rewrite reverify_eq in Hs by done. match type of Hs with written_state (write_entries _ _ _ ?es) = _ =>
    pose proof (write_entries_added io files t es Hu) as Hw; destruct (write_entries io files t es) as [[files1 t1] n1] end.
  destruct Hw as [Ha _]. cbn [written_state] in Hs. injection Hs as _ -> _.
  destruct (added_elem _ _ _ _ Ha Hr) as [Hl|(e & He & H1 & H2 & _ & H4)]; [by left|right].
  apply retain_elem in He as [He _]. apply list_elem_of_fmap in He as ([id ip] & -> & [Hc Hfw]%retain_elem).
  apply list_elem_of_omap in Hc as (row & Hrow & Hcand).
  apply review_elem in Hrow as (i & d & -> & Hi & Hd & Hact & _). cbn in Hcand.
  destruct (_ && _) eqn:Eb; [|done]. apply andb_true_iff in Eb as [Hh Hb].
  apply fmap_Some in Hcand as (ip' & Hip & Ec). injection Ec as -> ->. split; [exact H2|]. split; [intros ->; done|].
  exists i, d, ip'. split_and!; done.
Qed.

End sweeps.

(** ** The target of an incident *)

Definition entity_type_text (t : EntityType) : string :=
  match t with EIp => "ip" | EUser => "user" | EContainer => "container" | EPath => "path" | EService => "service" end.

(** serde's form of an entity. *)
Definition entity_json (e : EntityRef) : Json := JObj [("type", JStr (entity_type_text (e_type e))); ("value", JStr (e_value e))].

(** On the entities as serde writes them the target is the first address that is
    not empty. *)
Theorem target_is_first_address (es : list EntityRef) :
  first_ip_entity (entity_json <$> es) =
  e_value <$> head (retain (fun e => bool_decide (e_type e = EIp) && negb (String.eqb (e_value e) "")) es).
Proof.
  unfold retain. induction es as [|[ty v] es IH]; [done|]. cbn [fmap list_fmap first_ip_entity List.filter e_type e_value].
  destruct ty; cbn; try exact IH. rewrite bool_decide_true by done. destruct (String.eqb v ""); [exact IH|done].
Qed.

(** An entity without a type hides the addresses after it. *)
Theorem untyped_entity_hides (e : Json) (rest : list Json) : get e "type" = None -> first_ip_entity (e :: rest) = None.
Proof. intros He. cbn [first_ip_entity]. by rewrite He. Qed.

(** ** Any mention is a block *)

(** A listing that merely names the address counts as dropping it, whatever the
    rule does: one that allows it, or one of a longer address. *)
Theorem mention_is_block (before after iptables ip : string) : before +:+ ip +:+ after <> "" ->
  firewall_blocks (before +:+ ip +:+ after) iptables ip = true.
Proof.
  intros Hne. unfold firewall_blocks. rewrite (proj2 (String.eqb_neq _ _) Hne).
  by rewrite (proj2 (contains_spec ip _)) by (by eexists _, _).
Qed.

Example allowed_counts_as_blocked :
  firewall_blocks "Anywhere                   ALLOW       203.0.113.7" "" "203.0.113.7" = true /\
  firewall_blocks "Anywhere                   DENY        203.0.113.71" "" "203.0.113.7" = true.
Proof. split; vm_compute; reflexivity. Qed.

(** ** A run of the sweeps *)

#[local] Instance demo_orphans_chrono : Chrono := {| parse_utc _ := None; to_rfc3339 t := pad0 20 (show t); fmt_minute t := show t |}.

Definition demo_prints (e : ChainedEntry) : string := ce_incident_id e.
Definition demo_sweep_env : SweepEnv :=
  {| se_decider := None; se_skills := []; se_blocked := []; se_lifecycle := ResponseLifecycle_new; se_host := "h" |}.
Definition demo_io (_ : string) : AppendIo := {| local_today := "2026-01-02"; opens := true; locks := true; sqlite_takes _ := true |}.
Definition demo_now : Z := seconds 100000.

Definition demo_grave (id : string) (sev : Severity) : Incident :=
  {| in_ts := 5; in_host := "h"; in_incident_id := id; in_severity := sev; in_title := "t"; in_summary := "s"; in_evidence := JNull;
     in_recommended_checks := []; in_tags := []; in_entities := [] |}.

(** A grave incident and a slight one, neither decided. *)
Definition demo_tables : Tables :=
  (insert_incident in_incident_id (insert_incident in_incident_id Tables_new 0 (demo_grave "port_scan:a" Critical)).1 0 (demo_grave "x:b" Low)).1.

Definition demo_swept : AuditState * nat :=
  run_sweep (fun s => s) demo_prints (fun _ => None) (fun _ => None) (fun _ => None) demo_io demo_sweep_env demo_now
    {| au_files := ∅; au_store := Some demo_tables |}.

Definition store_of (s : AuditState * nat) : Tables := default Tables_new (au_store s.1).

Example demo_verdicts :
  (fun r => (r_incident_id r, r_action_type r)) <$> decisions (tb_decisions (store_of demo_swept)) =
  [("port_scan:a", "needs_review"); ("x:b", "dismiss")].
Proof. vm_compute. reflexivity. Qed.

Lemma orphans_decided_witness : exists files' t' rows,
  demo_swept = ({| au_files := files'; au_store := Some t' |}, length (swept demo_tables demo_now)) /\
  decisions (tb_decisions t') = decisions (tb_decisions demo_tables) ++ rows /\
  r_incident_id <$> rows = ir_incident_id <$> swept demo_tables demo_now /\
  orphans t' (orphan_cutoff demo_now) ≡ₚ drop (Z.to_nat ORPHAN_SWEEP_LIMIT) (orphans demo_tables (orphan_cutoff demo_now)).
Proof.
  apply (orphans_decided (fun s => s) demo_prints (fun _ => None) (fun _ => None) (fun _ => None) demo_io demo_sweep_env demo_now ∅ demo_tables).
  - reflexivity.
  - apply (bool_decide_unpack _). vm_compute. exact I.
  - intros id. reflexivity.
Defined.

Definition demo_row_of (i : IncidentRow) (action : string) : Prop :=
  sound_verdict (fun _ => None) (fun _ => None) demo_sweep_env demo_now i action None.

Lemma orphan_verdicts_sound_witness : exists r i,
  r ∈ decisions (tb_decisions (store_of demo_swept)) /\ i ∈ incidents demo_tables /\ ir_incident_id i = r_incident_id r /\
  is_high_impact (ir_severity i) = true /\ demo_row_of i (r_action_type r).
Proof.
  destruct (decisions (tb_decisions (store_of demo_swept))) as [|r rest] eqn:Ed.
  { apply (f_equal length) in Ed. vm_compute in Ed. discriminate Ed. }
  assert (r ∈ decisions (tb_decisions (store_of demo_swept))) as Hr by (rewrite Ed; apply list_elem_of_here).
  assert (r_incident_id r = "port_scan:a" /\ r_target_ip r = None) as [Hid Hip].
  { apply (f_equal (fmap (fun r => (r_incident_id r, r_target_ip r)) ∘ head)) in Ed. cbn [compose head fmap option_fmap option_map] in Ed.
    vm_compute in Ed. injection Ed as H1 H2. split; [exact (eq_sym H1)|exact (eq_sym H2)]. }
  destruct (orphan_verdicts_sound (fun s => s) demo_prints (fun _ => None) (fun _ => None) (fun _ => None) demo_io demo_sweep_env demo_now ∅
    demo_tables (store_of demo_swept) (au_files demo_swept.1) demo_swept.2 r) as [H0|(i & Hi & Hii & _ & _ & _ & Hv)].
  - vm_compute. reflexivity.
  - exact Hr.
  - exfalso. vm_compute in H0. inversion H0.
  - exists r, i. split; [left|]. split; [exact Hi|]. split; [exact Hii|]. rewrite Hip in Hv. split; [|exact Hv].
    rewrite Hid in Hii. change (incidents demo_tables) with
      [incident_row in_incident_id 1 (demo_grave "port_scan:a" Critical); incident_row in_incident_id 2 (demo_grave "x:b" Low)] in Hi.
    apply list_elem_of_In in Hi. destruct Hi as [<-|[<-|[]]]; [reflexivity|discriminate Hii].
Defined.

Lemma grave_review_stays_witness : exists files' t',
  foldl (fun s l => (timeout_run_sweep (fun s => s) demo_prints (fun _ => None) (fun _ => None) l.2 l.1 s).1)
    {| au_files := ∅; au_store := Some (store_of demo_swept) |} [(seconds 1000000, demo_io); (seconds 2000000, demo_io)]
    = {| au_files := files'; au_store := Some t' |} /\
  r_action_type <$> latest_decision t' "port_scan:a" = Some "needs_review".
Proof.
  destruct (grave_review_stays (fun s => s) demo_prints (fun _ => None) (fun _ => None) [(seconds 1000000, demo_io); (seconds 2000000, demo_io)] ∅
    (store_of demo_swept) "port_scan:a") as (files' & t' & Hr & Hl).
  - vm_compute. reflexivity.
  - assert (incidents (store_of demo_swept) =
      [incident_row in_incident_id 1 (demo_grave "port_scan:a" Critical); incident_row in_incident_id 2 (demo_grave "x:b" Low)]) as ->
      by (vm_compute; reflexivity). repeat constructor. discriminate.
  - exists files', t'. split; [exact Hr|]. rewrite Hl. vm_compute. reflexivity.
Defined.
