(* ===== verification/AgentLearned.v ===== *)
(** * AgentLearned: learned suppression
    (crates/agent/src/learned_suppression.rs, with try_learned_suppression of
    process/incidents.rs)

    An incident of little severity whose shape, its detector and address, was
    dismissed often enough and never acted on is dismissed without asking.  The
    counts are those of the decision table of StoreDecisions.v; the dismissal is
    written by the writer of AgentDecisions.v.  The shadow log, the training
    labels and the mesh are effects; the peers' count is an argument. *)

From Stdlib Require Import ZArith Lia Ascii String SpecFloat.
From stdpp Require Import prelude strings gmap list.
From S2P Require Import Prelude Text Json Floats CoreTypes StoreKv StoreDecisions StoreTables CoreAudit.
From S2P Require Import AgentCooldown AgentGate AgentSafeguards AgentContextGate AgentDecisions AgentOrphans.

Local Open Scope string_scope.
Local Open Scope list_scope.
Local Open Scope Z_scope.

Definition SUPPRESSION_AI_PROVIDER : string := "learned-suppression".
Definition EXCLUDED_DISMISS_PROVIDERS : list string := ["orphan-recovery"; SUPPRESSION_AI_PROVIDER].
Definition ACTIONED_TYPES : list string := ["block_ip"; "monitor"; "kill_process"; "suspend_user_sudo"; "block_container"; "honeypot"].

Inductive SuppressionMode := SOff | SShadow | SEnforce.

Definition parse_suppression_mode (s : string) : SuppressionMode :=
  let m := to_ascii_lowercase (trim s) in
  if String.eqb m "off" then SOff else if String.eqb m "enforce" then SEnforce else SShadow.

Definition may_learn_suppress (s : Severity) : bool := match s with Low | Medium => true | _ => false end.

Definition detector_of (incident_id : string) : string := first_piece ":" incident_id.

Definition primary_ip (i : Incident) : option string := first_ip i.

Inductive LearnedVerdict := PassThrough | Suppress (dismissals : Z).

(** The sum is below 2^64: a count is an i64 and half of a u64 is below 2^63. *)
Definition learned_decide (severity : Severity) (stats : ShapeDismissalStats) (min_dismissals mesh_corroboration : Z) : LearnedVerdict :=
  if negb (may_learn_suppress severity) then PassThrough
  else if 0 <? sd_actioned stats then PassThrough
  else
    let n := Z.max min_dismissals 1 in
    let corroboration := if 1 <=? sd_genuine_dismissals stats then Z.min mesh_corroboration (n / 2) else 0 in
    if n <=? sd_genuine_dismissals stats + corroboration then Suppress (sd_genuine_dismissals stats) else PassThrough.

Definition evaluate (db : Db) (incident : Incident) (min_dismissals mesh_corroboration : Z) : LearnedVerdict :=
  if negb (may_learn_suppress (in_severity incident)) then PassThrough
  else match primary_ip incident with
  | None => PassThrough
  | Some ip =>
      let detector := detector_of (in_incident_id incident) in
      if String.eqb detector "" then PassThrough
      else match shape_dismissal_stats db detector ip EXCLUDED_DISMISS_PROVIDERS ACTIONED_TYPES with
      | Ok stats => learned_decide (in_severity incident) stats min_dismissals mesh_corroboration
      | Err _ => PassThrough
      end
  end.

Definition prior_decisions_context (db : Db) (incident : Incident) : option string :=
  ip ← primary_ip incident;
  let detector := detector_of (in_incident_id incident) in
  if String.eqb detector "" then None
  else match shape_dismissal_stats db detector ip EXCLUDED_DISMISS_PROVIDERS ACTIONED_TYPES with
  | Ok stats =>
      if (sd_genuine_dismissals stats =? 0) && (sd_actioned stats =? 0) then None
      else Some ("this exact (" +:+ detector +:+ " | " +:+ ip +:+ ") shape has prior decisions: "
        +:+ show (sd_genuine_dismissals stats) +:+ " genuine dismissal(s) as noise, " +:+ show (sd_actioned stats)
        +:+ " weighty action(s) (block/monitor/kill). If dismissals dominate and nothing material changed, it is likely settled "
        +:+ "noise; if it was actioned before, treat as a recurring threat.")
  | Err _ => None
  end.

Definition suppression_reason (detector ip : string) (dismissals n : Z) : string :=
  "Learned suppression: shape (" +:+ detector +:+ " | " +:+ ip +:+ ") was dismissed by genuine signals " +:+ show dismissals
  +:+ " times (>= threshold " +:+ show n +:+ ") and never once led to a block/monitor/kill or a High/Critical incident. "
  +:+ "Auto-dismissed without routing. Reversible; the audit trail keeps every occurrence. "
  +:+ "(orphan-recovery and prior learned-suppression dismissals are excluded from the count.)".

Record ShadowLogRecord := {
  sl_ts : string;
  sl_incident_id : string;
  sl_detector : string;
  sl_target_ip : string;
  sl_severity : string;
  sl_genuine_dismissals : Z;
  sl_threshold : Z;
  sl_would_suppress : bool;
}.

Definition learned_severity_label (s : Severity) : string :=
  match s with Critical => "critical" | High => "high" | Medium => "medium" | Low => "low" | Info => "info" | Debug => "low" end.

Record LearningConfig := {
  suppression_mode : string;
  min_dismissals : Z;
  mesh_suppression_corroboration : bool;
  emit_labels : bool;
}.

Inductive LearnEffect :=
| ShadowLog (r : ShadowLogRecord)
| SuppressLabel (incident_id detector : string) (ip : option string)
| BroadcastSuppression (detector ip : string) (dismissals ttl_secs : Z).

Section learned.
Context (sha256_hex : string -> string) `{Chrono} (to_json : ChainedEntry -> string) (json_prev : string -> option string).

Definition suppression_entry (now : Z) (incident : Incident) (detector ip : string) (dismissals threshold : Z) : DecisionEntry :=
  {| de_ts := now; de_incident_id := in_incident_id incident; de_host := in_host incident; de_ai_provider := SUPPRESSION_AI_PROVIDER;
     de_action_type := "dismiss"; de_target_ip := if String.eqb ip "" then None else Some ip; de_target_user := None; de_skill_id := None;
     de_confidence := f32_of_Z 1; de_auto_executed := true; de_dry_run := false;
     de_reason := suppression_reason detector ip dismissals threshold; de_estimated_threat := "none"; de_execution_result := "dismissed";
     de_prev_hash := None; de_decision_layer := Some "auto_rule" |}.

(** The peers' count for a shape, where there is a mesh and it may help. *)
Definition mesh_count (cfg : LearningConfig) (mesh : option (string -> Z)) (incident : Incident) : Z :=
  if mesh_suppression_corroboration cfg then
    match primary_ip incident, mesh with
    | Some ip, Some f => f (detector_of (in_incident_id incident) +:+ "|" +:+ ip)
    | _, _ => 0
    end
  else 0.

(** The trail, the writer where there is one, the effects, and whether the
    incident is done with. *)
Definition try_learned_suppression (t : Trail) (writer : option DecisionWriter) (cfg : LearningConfig) (mesh : option (string -> Z))
    (io : AppendIo) (now : Z) (incident : Incident) : Trail * option DecisionWriter * list LearnEffect * bool :=
  let mode := parse_suppression_mode (suppression_mode cfg) in
  match mode, tr_store t with
  | SOff, _ | _, None => (t, writer, [], false)
  | _, Some db =>
      match evaluate db incident (min_dismissals cfg) (mesh_count cfg mesh incident) with
      | PassThrough => (t, writer, [], false)
      | Suppress dismissals =>
          let detector := detector_of (in_incident_id incident) in
          let ip := default "" (primary_ip incident) in
          match mode with
          | SEnforce =>
              let '(t, writer, written) :=
                match writer with
                | Some w => let '(t, w, r) := DecisionWriter_write sha256_hex to_json json_prev t w io
                              (suppression_entry now incident detector ip dismissals (min_dismissals cfg)) in
                            (t, Some w, match r with Ok _ => true | Err _ => false end)
                | None => (t, None, true)
                end in
              if written then
                (t, writer,
                 (if emit_labels cfg then
                    [SuppressLabel (in_incident_id incident) detector (if String.eqb ip "" then None else Some ip)] else [])
                 ++ (if String.eqb ip "" then []
                     else match mesh with Some _ => [BroadcastSuppression detector ip dismissals (24 * 3600)] | None => [] end),
                 true)
              else (t, writer, [], false)
          | _ =>
              (t, writer,
               [ShadowLog {| sl_ts := to_rfc3339 now; sl_incident_id := in_incident_id incident; sl_detector := detector;
                  sl_target_ip := ip; sl_severity := learned_severity_label (in_severity incident); sl_genuine_dismissals := dismissals;
                  sl_threshold := min_dismissals cfg; sl_would_suppress := true |}], false)
          end
      end
  end.

(** ** When a shape is suppressed *)

Definition on_shape (detector ip : string) (r : Row) : bool :=
  bool_decide (r_target_ip r = Some ip) && like (detector +:+ ":%") (r_incident_id r).

Definition genuine (r : Row) : bool :=
  String.eqb (r_action_type r) "dismiss" && forallb (fun p => negb (like (provider_pattern p) (r_data r))) EXCLUDED_DISMISS_PROVIDERS.

(** The dismissals of a shape that count, and whether it was ever acted on. *)
Definition dismissed (db : Db) (detector ip : string) : Z :=
  Z.of_nat (length (retain (fun r => on_shape detector ip r && genuine r) (decisions db))).
Definition acted_on (db : Db) (detector ip : string) : bool :=
  any (fun r => on_shape detector ip r && mem_str (r_action_type r) ACTIONED_TYPES) (decisions db).

Lemma retain_nil_any {A} (p : A -> bool) l : (0 <? Z.of_nat (length (retain p l))) = any p l.
Proof.
  unfold retain, any. induction l as [|x l IH]; [done|]. cbn. destruct (p x); [|exact IH]. cbn [length orb]. apply Z.ltb_lt. lia.
Qed.

Lemma stats_of db detector ip : db_usable db = true ->
  exists st, shape_dismissal_stats db detector ip EXCLUDED_DISMISS_PROVIDERS ACTIONED_TYPES = Ok st /\
    sd_genuine_dismissals st = dismissed db detector ip /\ (0 <? sd_actioned st) = acted_on db detector ip.
Proof.
  intros Hu. unfold shape_dismissal_stats, db_conn. rewrite Hu. eexists. split; [done|]. cbn [sd_genuine_dismissals sd_actioned]. split.
  - unfold dismissed, retain. do 2 f_equal. apply List.filter_ext. intros r. unfold on_shape, genuine. by rewrite andb_assoc.
  - apply retain_nil_any.
Qed.

Lemma evaluate_suppress (db : Db) (incident : Incident) (min_d mesh d : Z) :
  evaluate db incident min_d mesh = Suppress d <->
  exists ip, first_ip incident = Some ip /\ (in_severity incident = Low \/ in_severity incident = Medium) /\
    detector_of (in_incident_id incident) <> "" /\ db_usable db = true /\
    acted_on db (detector_of (in_incident_id incident)) ip = false /\
    d = dismissed db (detector_of (in_incident_id incident)) ip /\
    let n := Z.max min_d 1 in n <= d + (if 1 <=? d then Z.min mesh (n / 2) else 0).
Proof.
  unfold evaluate, primary_ip. set (det := detector_of (in_incident_id incident)).
  destruct (may_learn_suppress (in_severity incident)) eqn:Em; cbn [negb].
  2: { split; [done|]. intros (ip & _ & [E|E] & _); rewrite E in Em; done. }
  destruct (first_ip incident) as [ip|] eqn:Ei; [|split; [done|intros (? & ? & _); done]].
  destruct (String.eqb_spec det "") as [Ed|Ed]; [split; [done|intros (? & _ & _ & Hd & _); done]|].
  destruct (db_usable db) eqn:Eu.
  2: { unfold shape_dismissal_stats, db_conn. rewrite Eu. split; [done|]. intros (? & _ & _ & _ & ? & _); done. }
  destruct (stats_of db det ip Eu) as (st & -> & Hg & Ha). unfold learned_decide. rewrite Em, Ha, Hg. cbn [negb].
  assert (in_severity incident = Low \/ in_severity incident = Medium) as Hsev by (destruct (in_severity incident); auto; done).
  split.
  - destruct (acted_on db det ip) eqn:Ea; [done|]. destruct (Z.leb_spec (Z.max min_d 1)
      (dismissed db det ip + (if 1 <=? dismissed db det ip then Z.min mesh (Z.max min_d 1 / 2) else 0))) as [Hl|]; [|done].
    intros [= <-]. exists ip. by split_and!.
  - intros (ip' & [= <-] & _ & _ & _ & -> & -> & Hn). by rewrite (proj2 (Z.leb_le _ _) Hn).
Qed.

(** An incident is suppressed exactly when it is of low or medium severity, has
    a detector and an address, the table answers, its shape was never acted on,
    and the dismissals that count, helped by the peers up to half the threshold
    once there is one, reach the threshold; the answer is their number. *)
Theorem suppression_exact (db : Db) (incident : Incident) (min_d mesh d : Z) :
  evaluate db incident min_d mesh = Suppress d <->
  exists ip, first_ip incident = Some ip /\ (in_severity incident = Low \/ in_severity incident = Medium) /\
    detector_of (in_incident_id incident) <> "" /\ db_usable db = true /\
    acted_on db (detector_of (in_incident_id incident)) ip = false /\
    d = dismissed db (detector_of (in_incident_id incident)) ip /\
    let n := Z.max min_d 1 in n <= d + (if 1 <=? d then Z.min mesh (n / 2) else 0).
Proof. apply evaluate_suppress. Qed.

(** Whatever the peers claim, this host has dismissed the shape itself, at least
    half the threshold times. *)
Theorem local_repetition_needed (db : Db) (incident : Incident) (min_d mesh d : Z) :
  evaluate db incident min_d mesh = Suppress d -> 1 <= d /\ Z.max min_d 1 <= 2 * d.
Proof.
  intros (ip & _ & _ & _ & _ & _ & _ & Hn)%evaluate_suppress. cbn zeta in Hn.
  destruct (Z.leb_spec 1 d) as [H1|H1]; [|lia].
  assert (2 * (Z.max min_d 1 / 2) <= Z.max min_d 1) by (apply Z.mul_div_le; lia). lia.
Qed.

(** ** What is not learned from *)

(** serde prints the name of an excluded provider as it is. *)
Context (prints_provider : forall c, ce_ai_provider c ∈ EXCLUDED_DISMISS_PROVIDERS ->
  like (provider_pattern (ce_ai_provider c)) (to_json c) = true).

Lemma excluded_row_not_counted db e h detector ip :
  de_ai_provider e ∈ EXCLUDED_DISMISS_PROVIDERS -> db_usable db = true ->
  dismissed (insert_decision sha256_hex db (mirror_row e (to_json (chained_entry e h)))).1 detector ip = dismissed db detector ip.
Proof.
  intros He Hu. unfold dismissed, insert_decision. rewrite Hu. cbn [fst with_rows decisions]. rewrite retain_app_list, length_app.
  assert (retain (fun r => on_shape detector ip r && genuine r) [chained_row sha256_hex db (mirror_row e (to_json (chained_entry e h)))] = []) as ->;
    [|cbn; lia].
  apply list_filter_none. intros r ->%list_elem_of_singleton. unfold genuine. cbn [r_data chained_row mirror_row dr_data].
  pose proof (prints_provider (chained_entry e h) He) as Hp. cbn [ce_ai_provider chained_entry] in Hp.
  assert (forallb (fun p => negb (like (provider_pattern p) (to_json (chained_entry e h)))) EXCLUDED_DISMISS_PROVIDERS = false) as ->.
  { apply not_true_iff_false. intros Hf. rewrite List.forallb_forall in Hf. apply list_elem_of_In in He. specialize (Hf _ He). by rewrite Hp in Hf. }
  by rewrite !andb_false_r.
Qed.

(** The decisions of orphan recovery, and the dismissals of this gate itself,
    never raise the count of any shape, whatever the disk and SQLite do. *)
Theorem excluded_never_counts (t : Trail) (io : AppendIo) (e : DecisionEntry) (db : Db) (detector ip : string) :
  de_ai_provider e ∈ EXCLUDED_DISMISS_PROVIDERS -> tr_store t = Some db ->
  exists db', tr_store (append_chained sha256_hex to_json json_prev t io e).1 = Some db' /\ dismissed db' detector ip = dismissed db detector ip.
Proof.
  intros He Hs. unfold append_chained, append_chained_locked. rewrite Hs.
  destruct (negb (is_iso_date _)); [by exists db|]. destruct (negb (opens io)); [by exists db|].
  destruct (negb (locks io)); [by exists db|]. cbn [fst tr_store fmap option_fmap option_map].
  rewrite mirror_exact. cbn [default from_option Datatypes.id]. eexists. split; [done|].
  destruct (db_usable db) eqn:Eu; [|done]. destruct (_ || _ || _); [|done]. cbn [andb]. by apply excluded_row_not_counted.
Qed.

End learned.

(** ** What is learned from by mistake *)

#[local] Instance demo_learned_chrono : Chrono := {| parse_utc _ := None; to_rfc3339 t := pad0 20 (show t); fmt_minute t := show t |}.

(** Prints the provider, as serde does among the other fields. *)
Definition demo_line (c : ChainedEntry) : string :=
  quote +:+ "ai_provider" +:+ quote +:+ ":" +:+ quote +:+ ce_ai_provider c +:+ quote.

Definition demo_noise (id : string) : Incident :=
  {| in_ts := 0; in_host := "h"; in_incident_id := id; in_severity := Medium; in_title := "t"; in_summary := "s"; in_evidence := JNull;
     in_recommended_checks := []; in_tags := []; in_entities := [entity_ip "203.0.113.7"] |}.

Definition demo_review (id : string) : DecisionRow :=
  {| dr_ts := to_rfc3339 0; dr_incident_id := id; dr_action_type := "needs_review"; dr_target_ip := Some "203.0.113.7"; dr_target_user := None;
     dr_confidence := f64_one; dr_auto_executed := false; dr_reason := None; dr_data := "{}" |}.

(** Three incidents of one shape that ask for review, and a day and more later
    the timeout. *)
Definition demo_reviews : Tables :=
  let add t id := with_decisions (insert_incident in_incident_id t 0 (demo_noise id)).1
                    (insert_decision (fun s => s) (tb_decisions t) (demo_review id)).1 in
  foldl add Tables_new ["dns_tunnel:203.0.113.7:a"; "dns_tunnel:203.0.113.7:b"; "dns_tunnel:203.0.113.7:c"].

Definition demo_timed_out : Tables :=
  store_of (timeout_run_sweep (fun s => s) demo_line (fun _ => None) (fun _ => Some (JObj [("entities", JArr [entity_json (entity_ip "203.0.113.7")])]))
    (fun _ => {| local_today := "2026-01-02"; opens := true; locks := true; sqlite_takes _ := true |}) (seconds 100000)
    {| au_files := ∅; au_store := Some demo_reviews |}).

(** The dismissals of the review timeout count as genuine: three reviews that
    nobody answered teach the gate to dismiss the shape from then on, with no
    human and no decider having dismissed it once. *)
Theorem timeouts_teach :
  evaluate (tb_decisions demo_reviews) (demo_noise "dns_tunnel:203.0.113.7:d") 3 0 = PassThrough /\
  evaluate (tb_decisions demo_timed_out) (demo_noise "dns_tunnel:203.0.113.7:d") 3 0 = Suppress 3.
Proof. split; vm_compute; reflexivity. Qed.

(** Without a decision writer the incident is suppressed all the same, and no
    trail is left of it. *)
Theorem suppressed_unwritten (t : Trail) (db : Db) (cfg : LearningConfig) (io : AppendIo) (now d : Z) (incident : Incident) :
  parse_suppression_mode (suppression_mode cfg) = SEnforce -> tr_store t = Some db ->
  evaluate db incident (min_dismissals cfg) (mesh_count cfg None incident) = Suppress d ->
  let '(t', _, _, handled) := try_learned_suppression (fun s => s) demo_line (fun _ => None) t None cfg None io now incident in
  handled = true /\ t' = t.
Proof. intros Hm Hs He. unfold try_learned_suppression. by rewrite Hm, Hs, He. Qed.

(** ** Instances *)

Lemma demo_prints_provider c : ce_ai_provider c ∈ EXCLUDED_DISMISS_PROVIDERS -> like (provider_pattern (ce_ai_provider c)) (demo_line c) = true.
Proof.
  unfold demo_line, EXCLUDED_DISMISS_PROVIDERS. intros Hp%list_elem_of_In.
  destruct Hp as [<-|[<-|[]]]; vm_compute; reflexivity.
Qed.

Lemma local_repetition_needed_witness : 1 <= 3 /\ Z.max 3 1 <= 2 * 3.
Proof. apply (local_repetition_needed (tb_decisions demo_timed_out) (demo_noise "dns_tunnel:203.0.113.7:d") 3 0 3). vm_compute. reflexivity. Defined.

Definition demo_trail : Trail := {| tr_files := ∅; tr_store := Some (tb_decisions demo_timed_out) |}.

Lemma excluded_never_counts_witness : exists db',
  tr_store (append_chained (fun s => s) demo_line (fun _ => None) demo_trail (demo_append "2026-01-02")
    (suppression_entry 0 (demo_noise "dns_tunnel:203.0.113.7:d") "dns_tunnel" "203.0.113.7" 3 3)).1 = Some db' /\
  dismissed db' "dns_tunnel" "203.0.113.7" = 3.
Proof.
  destruct (excluded_never_counts (fun s => s) demo_line (fun _ => None) demo_prints_provider demo_trail (demo_append "2026-01-02")
    (suppression_entry 0 (demo_noise "dns_tunnel:203.0.113.7:d") "dns_tunnel" "203.0.113.7" 3 3) (tb_decisions demo_timed_out)
    "dns_tunnel" "203.0.113.7") as (db' & H1 & H2).
  - right. left.
  - reflexivity.
  - exists db'. split; [exact H1|]. rewrite H2. vm_compute. reflexivity.
Defined.
