(* ===== verification/AgentAutodismiss.v ===== *)
(** * AgentAutodismiss: incidents dismissed on intake
    (crates/agent/src/incident_autodismiss.rs)

    Four gates close an incident by rule, before any decider sees it: noise below
    the AI's severity, the start-up pattern of command-line tools, protocol
    oddities of cloud edges, and malformed banners on the honeypot.  A dismissal
    is written by the writer of AgentDecisions.v.  The incidents that the
    knowledge graph holds of an address are an argument; the graph's labels are
    left out. *)

From Stdlib Require Import ZArith Lia Ascii String SpecFloat.
From stdpp Require Import prelude strings gmap list.
From S2P Require Import Prelude Text Json Floats CoreTypes StoreKv StoreDecisions CoreAudit.
From S2P Require Import AgentCooldown AgentGate AgentSafelist AgentSafeguards AgentContextGate AgentDecisions.

Local Open Scope string_scope.
Local Open Scope list_scope.
Local Open Scope Z_scope.

Definition detector_from_incident_id (incident_id : string) : string := first_piece ":" incident_id.

Definition is_noise_gate_eligible (responder_enabled responder_dry_run : bool) : bool := responder_enabled && negb responder_dry_run.

Definition autodismiss_reason (detector : string) (severity : Severity) : string :=
  "Low-priority " +:+ detector +:+ " (" +:+ severity_debug severity +:+ "). Filed, not firing.".

Definition SENSOR_NSS_INIT_DETECTORS : list string := ["data_exfil_ebpf"; "reverse_shell"; "kill_chain"].

Definition NSS_INIT_TOOL_PREFIXES : list string :=
  ["wget"; "curl"; "git"; "git-remote"; "ssh"; "scp"; "sftp"; "rsync"; "apt"; "apt-get"; "apt-check"; "dpkg"; "snap"; "snapd"; "pip"; "pip3";
   "npm"; "yarn"; "cargo"; "rustup"; "gem"; "composer"; "mvn"; "gradle"; "http"; "https"].

Definition CDN_NOISY_DETECTORS : list string := ["proto_anomaly"].

(** [incident.evidence.as_array().first()]. *)
Definition first_evidence (incident : Incident) : option Json := l ← as_array (in_evidence incident); head l.

(** The name at the time of the connect, else at that of the redirection. *)
Definition evidence_comm (ev : Json) : string :=
  match get_str ev "source_comm" with
  | Some s => if String.eqb s "" then default "" (get_str ev "comm") else s
  | None => default "" (get_str ev "comm")
  end.

Definition or_key (ev : Json) (o : option Json) (k : string) : option Json := match o with Some v => Some v | None => get ev k end.

Definition bare_chain (ev : Json) : bool :=
  match get_array ev "chain_bits" with
  | Some a => let bits := omap as_str a in Nat.eqb (length bits) 2 && mem_str "socket" bits && mem_str "sensitive_read" bits
  | None => false
  end.

Definition nss_signature (safelist : SafelistState) (detector : string) (ev : Json) : bool :=
  if String.eqb detector "data_exfil_ebpf" then bool_decide (get_str ev "sensitive_file" = Some "/etc/passwd")
  else if String.eqb detector "reverse_shell" then default 0 (get_u64 ev "target_port") =? 22
  else if String.eqb detector "kill_chain" then
    if negb (String.eqb (default "" (get_str ev "pattern")) "DATA_EXFIL") then false
    else
      let c2_port := default 0 (get_u64 ev "c2_port") in
      let c2_ip := default "" (or_key ev (or_key ev (get ev "c2_ip") "dst_ip") "target_ip" ≫= as_str) in
      bare_chain ev && ((c2_port =? 0) || (negb (String.eqb c2_ip "") && is_cloud_provider_ip safelist c2_ip))
  else false.

Definition comm_match (comm : string) : bool :=
  any (fun prefix => String.eqb comm prefix || starts_with prefix comm) NSS_INIT_TOOL_PREFIXES.

Definition self_traffic_reason (detector comm dst_ip : string) : string :=
  if String.eqb detector "data_exfil_ebpf" then
    "Auto-dismissed: " +:+ detector +:+ " fired on " +:+ comm +:+ " reading /etc/passwd then connecting to " +:+ dst_ip
    +:+ ". /etc/passwd is the NSS user-lookup file every libc binary opens at startup; this is the standard CLI startup signature, "
    +:+ "not data exfiltration. Mirrors the sensor's NSS_INIT_CLI_TOOLS suppression (data_exfil_ebpf.rs)."
  else if String.eqb detector "reverse_shell" then
    "Auto-dismissed: " +:+ detector +:+ " fired on " +:+ comm +:+ " (connect + dup2(socket, stdin/stdout)) to " +:+ dst_ip
    +:+ ":22. ssh client multiplexes shell I/O over the SSH socket, which is bit-identical to a reverse-shell at the kernel level. "
    +:+ "Real reverse shells use non-22 ports (4444, 1337, ...). Mirrors the sensor's NSS-init suppression in reverse_shell.rs."
  else if String.eqb detector "kill_chain" then
    "Auto-dismissed: " +:+ detector +:+ " fired DATA_EXFIL on " +:+ comm
    +:+ " (chain_bits = [socket, sensitive_read], c2_port = 0). This is the operator-tool startup pattern (wget/curl/apt/cargo "
    +:+ "etc reading NSS/CA bundles before TLS handshake). Real exfil chains pick up additional bits (privesc, c2_callback) and "
    +:+ "carry a non-zero c2_port. Suppression matches only the bare 2-bit chain from a known fetcher binary."
  else
    "Auto-dismissed: " +:+ detector +:+ " fired on " +:+ comm
    +:+ " (NSS-init operator-tool pattern). Defense-in-depth for sensor NSS_INIT_CLI_TOOLS suppression.".

Definition dismissal (now : Z) (incident : Incident) (provider : string) (ip : option string) (reason : string) : DecisionEntry :=
  {| de_ts := now; de_incident_id := in_incident_id incident; de_host := in_host incident; de_ai_provider := provider;
     de_action_type := "dismiss"; de_target_ip := ip; de_target_user := None; de_skill_id := None; de_confidence := f32_of_Z 1;
     de_auto_executed := true; de_dry_run := false; de_reason := reason; de_estimated_threat := "none";
     de_execution_result := "dismissed"; de_prev_hash := None; de_decision_layer := Some "algorithm_gate" |}.

Section gates.
Context (sha256_hex : string -> string) `{Chrono} (to_json : ChainedEntry -> string) (json_prev : string -> option string).

(** The trail and the writer after a dismissal, and whether it was written;
    without a writer nothing fails. *)
Definition write_dismissal (t : Trail) (writer : option DecisionWriter) (io : AppendIo) (e : DecisionEntry) :
    Trail * option DecisionWriter * bool :=
  match writer with
  | Some w => let '(t, w, r) := DecisionWriter_write sha256_hex to_json json_prev t w io e in
              (t, Some w, match r with Ok _ => true | Err _ => false end)
  | None => (t, None, true)
  end.

(** [enabled] and [dry_run] are the responder's. *)
Definition try_autodismiss_noise (enabled dry_run : bool) (t : Trail) (writer : option DecisionWriter) (io : AppendIo) (incident : Incident)
    (now : Z) : Trail * option DecisionWriter * bool :=
  if negb (is_noise_gate_eligible enabled dry_run) then (t, writer, false)
  else
    let reason := autodismiss_reason (detector_from_incident_id (in_incident_id incident)) (in_severity incident) in
    let '(t, writer, _) := write_dismissal t writer io (dismissal now incident "noise-gate" (first_ip incident) reason) in
    (t, writer, true).

(** The reason to dismiss an incident as a tool's start-up. *)
Definition self_traffic (safelist : SafelistState) (incident : Incident) : option string :=
  let detector := detector_from_incident_id (in_incident_id incident) in
  if negb (mem_str detector SENSOR_NSS_INIT_DETECTORS) then None
  else
    ev ← first_evidence incident;
    let comm := evidence_comm ev in
    let dst_ip := default "" (or_key ev (get ev "dst_ip") "target_ip" ≫= as_str) in
    if negb (nss_signature safelist detector ev) then None
    else if negb (comm_match comm) then None
    else Some (self_traffic_reason detector comm dst_ip).

Definition try_autodismiss_sensor_self_traffic_fp (safelist : SafelistState) (t : Trail) (writer : option DecisionWriter) (io : AppendIo)
    (incident : Incident) (now : Z) : Trail * option DecisionWriter * bool :=
  match self_traffic safelist incident with
  | None => (t, writer, false)
  | Some reason => write_dismissal t writer io (dismissal now incident "sensor-self-traffic-fp" (first_ip incident) reason)
  end.

(** [other_hits ip] counts the incidents of other detectors on the address in
    the last day, zero when the graph's lock is poisoned. *)
Definition cdn_noise (other_hits : string -> Z) (incident : Incident) : option (string * string) :=
  let detector := detector_from_incident_id (in_incident_id incident) in
  if negb (mem_str detector CDN_NOISY_DETECTORS) then None
  else
    ip ← first_ip incident; provider ← identify_provider ip;
    if 0 <? other_hits ip then None
    else Some (ip, "Auto-dismissed: " +:+ detector +:+ " fired on " +:+ provider +:+ " edge IP " +:+ ip
      +:+ ". CDN/cloud-provider load-balancer edges naturally exhibit TCP-level oddities (slow connects, sequence drift) that this detector "
      +:+ "flags. Real exploitation through these edges still fires kill_chain / reverse_shell / data_exfil_ebpf, which are not suppressed by "
      +:+ "this path. See Wave 9 (PR #469) for the HTTP-layer companion fix.").

Definition try_dismiss_cdn_noise (other_hits : string -> Z) (t : Trail) (writer : option DecisionWriter) (io : AppendIo) (incident : Incident)
    (now : Z) : Trail * option DecisionWriter * bool :=
  match cdn_noise other_hits incident with
  | None => (t, writer, false)
  | Some (ip, reason) => write_dismissal t writer io (dismissal now incident "cdn-noise-fp" (Some ip) reason)
  end.

Definition honeypot_probe (other_hits : string -> Z) (honeypot_port : Z) (incident : Incident) : option (string * string) :=
  let ev := in_evidence incident in
  if negb (String.eqb (detector_from_incident_id (in_incident_id incident)) "proto_anomaly") then None
  else if negb (String.eqb (default "" (get_str ev "anomaly_type")) "SshVersionAnomaly") then None
  else if negb (default 0 (get_u64 ev "dst_port") =? honeypot_port) then None
  else
    ip ← first_ip incident;
    if 0 <? other_hits ip then None
    else Some (ip, "Auto-dismissed: proto_anomaly SshVersionAnomaly fired on honeypot port " +:+ show honeypot_port +:+ " from " +:+ ip
      +:+ ". A malformed SSH banner on the honeypot port IS the honeypot working as designed — scanners that "
      +:+ "don't speak SSH cleanly hit the listener, get classified as a probe, and never reach an auth attempt. "
      +:+ "Real attackers who DO speak SSH still flow through the tiered acceptance path (Spec 046 Phase A) and either "
      +:+ "fall into the KNOWN_WEAK / adaptive accept branches or stay rejected. "
      +:+ "The probe is logged in the JSONL audit trail; only the dashboard 'needs attention' tile is suppressed.").

Definition try_dismiss_honeypot_probe_proto_anomaly (other_hits : string -> Z) (honeypot_port : Z) (t : Trail) (writer : option DecisionWriter)
    (io : AppendIo) (incident : Incident) (now : Z) : Trail * option DecisionWriter * bool :=
  match honeypot_probe other_hits honeypot_port incident with
  | None => (t, writer, false)
  | Some (ip, reason) => write_dismissal t writer io (dismissal now incident "honeypot-probe-fp" (Some ip) reason)
  end.

(** ** What the gates close *)

(** The three gates before the pre-AI flow, in their order; each has the file
    system as it finds it. *)
Definition intake_gates (safelist : SafelistState) (other_hits : string -> Z) (honeypot_port : Z) (t : Trail) (writer : option DecisionWriter)
    (io io' io'' : AppendIo) (incident : Incident) (now : Z) : Trail * option DecisionWriter * bool :=
  let '(t, writer, handled) := try_autodismiss_sensor_self_traffic_fp safelist t writer io incident now in
  if handled then (t, writer, true)
  else
    let '(t, writer, handled) := try_dismiss_cdn_noise other_hits t writer io' incident now in
    if handled then (t, writer, true)
    else try_dismiss_honeypot_probe_proto_anomaly other_hits honeypot_port t writer io'' incident now.

(** An incident that the intake gates close is of one of four detectors; a
    protocol anomaly is closed only for an address that nothing else was seen of
    in the last day. *)
Theorem intake_closes_four (safelist : SafelistState) (other_hits : string -> Z) (port : Z) (t : Trail) (writer : option DecisionWriter)
    (io io' io'' : AppendIo) (incident : Incident) (now : Z) :
  (intake_gates safelist other_hits port t writer io io' io'' incident now).2 = true ->
  let detector := first_piece ":" (in_incident_id incident) in
  (detector ∈ SENSOR_NSS_INIT_DETECTORS /\ is_Some (self_traffic safelist incident)) \/
  (detector = "proto_anomaly" /\ exists ip, first_ip incident = Some ip /\ other_hits ip <= 0).
Proof.
  unfold intake_gates, try_autodismiss_sensor_self_traffic_fp. destruct (self_traffic safelist incident) as [reason|] eqn:Es.
  { intros _. left. split; [|by eexists]. unfold self_traffic in Es.
    destruct (mem_str _ SENSOR_NSS_INIT_DETECTORS) eqn:Em; [|done]. by apply mem_str_true in Em. }
  unfold try_dismiss_cdn_noise. destruct (cdn_noise other_hits incident) as [[ip reason]|] eqn:Ec.
  { intros _. right. unfold cdn_noise in Ec. destruct (mem_str _ CDN_NOISY_DETECTORS) eqn:Em; [|done].
    apply mem_str_true, list_elem_of_singleton in Em. split; [done|]. cbn [negb] in Ec.
    apply bind_Some in Ec as (ip' & Hi & (p & _ & Ec)%bind_Some). exists ip'. split; [done|].
    destruct (Z.ltb_spec 0 (other_hits ip')); [done|lia]. }
  unfold try_dismiss_honeypot_probe_proto_anomaly. destruct (honeypot_probe other_hits port incident) as [[ip reason]|] eqn:Eh; [|done].
  intros _. right. unfold honeypot_probe in Eh. destruct (String.eqb_spec (detector_from_incident_id (in_incident_id incident)) "proto_anomaly"); [|done].
  split; [done|]. cbn [negb] in Eh. destruct (String.eqb _ "SshVersionAnomaly"), (_ =? port); try done. cbn [negb] in Eh.
  apply bind_Some in Eh as (ip' & Hi & Eh). exists ip'. split; [done|]. destruct (Z.ltb_spec 0 (other_hits ip')); [done|lia].
Qed.

(** A process whose name begins like that of a command-line tool has its
    reverse shell to port 22 dismissed, whatever its severity and whatever the
    rest of the name: the name is the process's own choice. *)
Theorem named_shell_dismissed (safelist : SafelistState) (t : Trail) (io : AppendIo) (incident : Incident) (now : Z) (ev : Json)
    (more : list Json) (tool rest : string) :
  detector_from_incident_id (in_incident_id incident) = "reverse_shell" -> in_evidence incident = JArr (ev :: more) ->
  tool ∈ NSS_INIT_TOOL_PREFIXES -> get_str ev "source_comm" = Some (tool +:+ rest) -> get_u64 ev "target_port" = Some 22 ->
  (try_autodismiss_sensor_self_traffic_fp safelist t None io incident now).2 = true.
Proof.
  intros Hd Hev Ht Hc Hp. unfold try_autodismiss_sensor_self_traffic_fp, self_traffic, first_evidence. rewrite Hd, Hev. cbn [as_array mbind option_bind head].
  change (negb (mem_str "reverse_shell" SENSOR_NSS_INIT_DETECTORS)) with false. cbn iota.
  assert (nss_signature safelist "reverse_shell" ev = true) as ->.
  { unfold nss_signature. change (String.eqb "reverse_shell" "data_exfil_ebpf") with false. change (String.eqb "reverse_shell" "reverse_shell") with true.
    cbn iota. rewrite Hp. done. }
  assert (comm_match (evidence_comm ev) = true) as ->.
  { unfold evidence_comm. rewrite Hc. assert (String.eqb (tool +:+ rest) "" = false) as ->.
    { apply String.eqb_neq. apply list_elem_of_In in Ht. repeat (destruct Ht as [<-|Ht]; [discriminate|]). destruct Ht. }
    unfold comm_match. apply any_true. exists tool. split; [done|]. apply orb_true_iff. right. unfold starts_with. apply prefix_app. }
  done.
Qed.

(** The noise gate says it is done even when the dismissal could not be
    written. *)
Theorem unwritten_noise_handled (t : Trail) (w : DecisionWriter) (io : AppendIo) (incident : Incident) (now : Z) :
  opens io = false -> let '(t', _, handled) := try_autodismiss_noise true false t (Some w) io incident now in
  handled = true /\ tr_store t' = tr_store t.
Proof.
  intros Ho. unfold try_autodismiss_noise, write_dismissal, DecisionWriter_write, append_chained_locked. cbn [is_noise_gate_eligible andb negb].
  rewrite Ho. cbn [negb]. rewrite andb_true_r. destruct (negb (String.eqb _ (current_date w))); [done|]. cbn [current_date].
  by destruct (negb (is_iso_date _)).
Qed.

End gates.
