(* ===== verification/AgentBlock.v ===== *)
(** * AgentBlock: executing a block (crates/agent/src/decision_block_ip.rs, with
    the gate of xdp_availability.rs, the mirrors of state_store.rs, the backend
    choice of skills/mod.rs and the report categories of abuseipdb.rs)

    [execute_block_ip_decision] asks the managed-agent verifier, the circuit
    breaker, the eligibility rules with the cloud safelist, and the live
    firewall, then applies its layers and registers them with the response
    lifecycle.  The world answers for the shield, the skills, the firewall's
    status, the mesh and Cloudflare; one reading of the clock stands for those
    of a call, log lines are left out.  Proved here: nothing is enforced that was
    not admitted, at most twenty blocks are executed in any minute, a block that
    meets an expired record is left without one of its own, and the early record
    of AgentSafeguards.v keeps managed agents from ever being spared. *)

From Stdlib Require Import ZArith Lia Ascii String SpecFloat.
From stdpp Require Import prelude strings list gmap sorting.
From S2P Require Import Prelude Text Json Net Floats CoreTypes StoreKv StoreDecisions AgentBreaker AgentLifecycle.
From S2P Require Import AgentCooldown AgentAllowlist AgentSafelist AgentSafeguards GuardThreats GuardRegistry AgentManaged.

Local Open Scope string_scope.
Local Open Scope list_scope.
Local Open Scope Z_scope.

Definition MAX_BLOCKS_PER_MINUTE : Z := 20.

(** ** Pure parts *)

Definition is_single_ip_block_target (ip : string) : bool :=
  if contains "/" ip then false else is_valid_block_target ip.

Inductive StandaloneXdpOutcome := NotAttempted | Succeeded | Failed (message : string).

Definition xdp_failure_to_warn (shield_failure : option (string * string)) (standalone : StandaloneXdpOutcome)
  : option (string * string) :=
  match standalone with
  | Succeeded => None
  | Failed msg =>
      Some ("block-ip-xdp skill",
            match shield_failure with
            | Some (_, shield_err) => msg +:+ "; shield xdp_manager also failed: " +:+ shield_err
            | None => msg
            end)
  | NotAttempted => shield_failure
  end.

(** Pid, command and path read of the process an incident is about. *)
Definition incident_source_identity (incident : Incident) : option (Z * string * option string) :=
  ev ← match in_evidence incident with
       | JArr (first :: _) => Some first
       | JObj fs => Some (JObj fs)
       | _ => None
       end;
  pid ← get_u64 ev "pid";
  Some (wrap 32 pid, default "" (get_str ev "comm"), get_str ev "sensitive_file").

Definition check_block_eligibility_with_safelist (ip : string) (operator_ips : gset string)
  (recent_blocks_len max_blocks_per_min : Z) (safelist_provider : string -> option string) : result unit string :=
  if String.eqb ip "" then Err "skipped: block decision has empty IP"
  else if negb (is_valid_block_target ip) then Err ("skipped: " +:+ ip +:+ " is not a valid IP address")
  else
    match safelist_provider ip with
    | Some provider => Err ("skipped: " +:+ ip +:+ " is in cloud provider safelist (" +:+ provider +:+ ")")
    | None =>
        if bool_decide (ip ∈ operator_ips) then Err ("skipped: " +:+ ip +:+ " is an active operator session")
        else if max_blocks_per_min <=? recent_blocks_len
        then Err ("rate-limited: " +:+ ip +:+ " (>" +:+ show max_blocks_per_min +:+ " blocks/min)")
        else Ok tt
    end.

Definition backend_status_cmd (skill_id : string) : option (string * list string) :=
  if contains "ufw" skill_id then Some ("ufw", ["status"])
  else if contains "nft" skill_id then Some ("nft", ["list"; "ruleset"])
  else if contains "iptables" skill_id then Some ("iptables", ["-S"])
  else if contains "firewalld" skill_id then Some ("firewall-cmd", ["--list-all"])
  else None.

Definition token_char (a : ascii) : bool :=
  in_range 48 57 a || in_range 65 90 a || in_range 97 122 a
  || Ascii.eqb a "." || Ascii.eqb a ":" || Ascii.eqb a "/".

(** [str::split] at every character that is no [token_char]. *)
Fixpoint tokens (cur s : string) : list string :=
  match s with
  | EmptyString => [rev_string cur]
  | String a t => if token_char a then tokens (String a cur) t else rev_string cur :: tokens "" t
  end.
Definition rule_present_in (status_output ip : string) : bool :=
  any (fun tok => String.eqb tok ip) (tokens "" status_output).

Definition detector_to_categories (d : string) : string :=
  if contains "ssh_bruteforce" d then "18,22"
  else if contains "credential_stuffing" d then "18,22"
  else if contains "port_scan" d then "14"
  else if contains "web_scan" d || contains "scanner_ua" d then "21"
  else if contains "search_abuse" d then "21"
  else if contains "execution_guard" d then "15"
  else if contains "sudo_abuse" d then "15"
  else "15".

(** ** The world *)

(** [bw_shield]: the shield's blocklist, when there is a shield.  [bw_skill]: a
    registered skill, run on an address with its duration, dry or not: success
    and message.  [bw_status]: the output of a status command under sudo, when
    it succeeds.  [bw_registry]: the registry, unless its lock is held. *)
Class BlockWorld := {
  bw_shield : option (string -> string -> result unit string);
  bw_skill : string -> option (string -> Z -> bool -> bool * string);
  bw_status : string -> list string -> option string;
  bw_mesh : bool;
  bw_cloudflare : option (string -> string -> option string);
  bw_registry : option Registry;
  bw_sigindex : SignatureIndex;
  bw_safelist : SafelistState;
  bw_percent : spec_float -> string;
}.

Record BlockConfig := {
  bc_max_blocks_per_hour : Z;
  bc_circuit_breaker_mode : string;
  bc_dry_run : bool;
  bc_allowed_skills : list string;
  bc_block_backend : string;
  bc_cloudflare : bool;
  bc_abuseipdb : bool;
}.

Record BlockState (S : Type) := {
  bk_recent : list Z;
  bk_store : S;
  bk_sqlite : option S;
  bk_operator_ips : gset string;
  bk_reputations : Reputations;
  bk_lifecycle : ResponseLifecycle;
  bk_blocklist : gset string;
  bk_xdp_times : gmap string (Z * Z);
  bk_skip_until : Z;
  bk_reports : list (string * string * string * Z);
  bk_blocked_file : list string;
}.
Arguments bk_recent {S} _.
Arguments bk_store {S} _.
Arguments bk_sqlite {S} _.
Arguments bk_operator_ips {S} _.
Arguments bk_reputations {S} _.
Arguments bk_lifecycle {S} _.
Arguments bk_blocklist {S} _.
Arguments bk_xdp_times {S} _.
Arguments bk_skip_until {S} _.
Arguments bk_reports {S} _.
Arguments bk_blocked_file {S} _.

Section Block.
Context {S : Type} `{KvStore S} `{!KvListing S} `{Calendar} `{Chrono} `{Lowercase} `{ProcResolver} `{BlockWorld}.

Definition is_ip_live_blocked (ip skill_id : string) : bool :=
  match backend_status_cmd skill_id with
  | None => false
  | Some (prog, args) =>
      match bw_status prog args with Some out => rule_present_in (from_utf8_lossy out) ip | None => false end
  end.

Definition consult_circuit_breaker (store : S) (clk : string) (now : Z) (ip : string) (limit : Z) (mode_label : string)
  : S * option string :=
  let '(store, d) := check_and_record store clk now limit (from_str_or_default mode_label) in
  (store, if should_block d then None
          else Some ("skipped: circuit breaker tripped (blocks this hour exceed " +:+ show limit +:+ ")")).

Definition evaluate_managed_agent_downgrade (incident : Incident) (registry : Registry) (destination_known_bad : bool)
  : option (string * string) :=
  '(pid, comm, read_path) ← incident_source_identity incident;
  match verify_managed_agent_self_activity pid comm read_path registry bw_sigindex destination_known_bad with
  | Managed agent_id name => Some (agent_id, name)
  | NotManaged => None
  end.

Definition managed_agent_downgrade (incident : Incident) (reputations : Reputations) : option (string * string) :=
  registry ← bw_registry;
  evaluate_managed_agent_downgrade incident registry (dst_known_bad_from (in_entities incident) reputations).

(** ** The mirrors in the store *)

Definition NS_RECENT_BLOCKS : string := "recent_blocks".
Definition NS_XDP_BLOCK_TIMES : string := "xdp_block_times".

(** [str::parse::<i64>]. *)
Definition parse_i64 (s : string) : option Z :=
  match s with
  | String "-" (String "+" _) => None
  | String "-" r => n ← parse_uint 64 r; if n <=? 2 ^ 63 then Some (- n) else None
  | _ => n ← parse_uint 64 s; if n <? 2 ^ 63 then Some n else None
  end.

Definition set_recent_block (s : S) (clk : string) (ts : Z) : S :=
  (kvi_set s clk NS_RECENT_BLOCKS (show_int (timestamp_millis ts)) (String (byte_of 1) "") None).1.

Definition prune_recent_blocks_before (s : S) (cutoff_ms : Z) : S :=
  match kvi_list s NS_RECENT_BLOCKS with
  | Err _ => s
  | Ok entries =>
      foldl (fun s kv => match parse_i64 kv.1 with
                         | Some ms => if ms <? cutoff_ms then (kvi_delete s NS_RECENT_BLOCKS kv.1).1 else s
                         | None => s
                         end) s entries
  end.

Definition set_xdp_block_time (s : S) (clk ip : string) (blocked_at ttl_secs : Z) : S :=
  let data := "{" +:+ quoted "blocked_at_ms" +:+ ":" +:+ show_int (timestamp_millis blocked_at) +:+ ","
              +:+ quoted "ttl_secs" +:+ ":" +:+ show_int ttl_secs +:+ "}" in
  (kvi_set s clk NS_XDP_BLOCK_TIMES ip data None).1.

(** ** The availability of XDP *)

Definition RECHECK_INTERVAL_SECS : Z := 300.
Definition timestamp (t : Z) : Z := t / NANOS_PER_SEC.
Definition should_attempt_xdp (skip_until now : Z) : bool := skip_until <=? timestamp now.
Definition mark_failed (now : Z) : Z := timestamp now + RECHECK_INTERVAL_SECS.
Definition mark_succeeded : Z := 0.

(** ** The stages *)

Definition upd (st : BlockState S) (recent : list Z) (store : S) (xdp : gmap string (Z * Z)) (skip : Z)
  : BlockState S :=
  {| bk_recent := recent; bk_store := store; bk_sqlite := bk_sqlite st; bk_operator_ips := bk_operator_ips st;
     bk_reputations := bk_reputations st; bk_lifecycle := bk_lifecycle st; bk_blocklist := bk_blocklist st;
     bk_xdp_times := xdp; bk_skip_until := skip; bk_reports := bk_reports st;
     bk_blocked_file := bk_blocked_file st |}.

Definition purge (now : Z) (st : BlockState S) : BlockState S :=
  upd st (retain (fun ts => now - seconds 60 <? ts) (bk_recent st))
    (prune_recent_blocks_before (bk_store st) (timestamp_millis (now - seconds 60))) (bk_xdp_times st)
    (bk_skip_until st).

Definition set_sqlite (st : BlockState S) (sq : option S) : BlockState S :=
  {| bk_recent := bk_recent st; bk_store := bk_store st; bk_sqlite := sq; bk_operator_ips := bk_operator_ips st;
     bk_reputations := bk_reputations st; bk_lifecycle := bk_lifecycle st; bk_blocklist := bk_blocklist st;
     bk_xdp_times := bk_xdp_times st; bk_skip_until := bk_skip_until st; bk_reports := bk_reports st;
     bk_blocked_file := bk_blocked_file st |}.

Definition forget_reputation (st : BlockState S) (ip : string) : BlockState S :=
  {| bk_recent := bk_recent st; bk_store := bk_store st; bk_sqlite := bk_sqlite st;
     bk_operator_ips := bk_operator_ips st; bk_reputations := delete ip (bk_reputations st);
     bk_lifecycle := bk_lifecycle st; bk_blocklist := bk_blocklist st; bk_xdp_times := bk_xdp_times st;
     bk_skip_until := bk_skip_until st; bk_reports := bk_reports st; bk_blocked_file := bk_blocked_file st |}.

(** A success of one of the two XDP paths. *)
Definition xdp_applied (st : BlockState S) (clk ip : string) (now ttl : Z) : BlockState S :=
  upd st (bk_recent st) (set_xdp_block_time (bk_store st) clk ip now ttl)
    (<[ip := (now, ttl)]> (bk_xdp_times st)) mark_succeeded.

(** Layer 1: the shield's blocklist, else the standalone skill. *)
Definition xdp_layer (cfg : BlockConfig) (st : BlockState S) (clk ip incident_id : string) (now ttl : Z)
  : BlockState S * list string :=
  if negb (should_attempt_xdp (bk_skip_until st) now) then (st, [])
  else
    let shield := (fun add => add ip ("agent:block:" +:+ incident_id)) <$> bw_shield in
    match shield with
    | Some (Ok _) => (xdp_applied st clk ip now ttl, ["XDP"])
    | _ =>
        let shield_failure := match shield with Some (Err e) => Some ("shield xdp_manager", e) | _ => None end in
        let standalone := (fun run => run ip ttl (bc_dry_run cfg)) <$> bw_skill "block-ip-xdp" in
        let outcome := match standalone with
                       | Some (true, _) => Succeeded
                       | Some (false, msg) => Failed msg
                       | None => NotAttempted
                       end in
        let '(st, layers) := match outcome with
                             | Succeeded => (xdp_applied st clk ip now ttl, ["XDP"])
                             | _ => (st, [])
                             end in
        (match xdp_failure_to_warn shield_failure outcome with
         | Some _ => upd st (bk_recent st) (bk_store st) (bk_xdp_times st) (mark_failed now)
         | None => st
         end, layers)
    end.

Definition block_skill_id (backend : string) : string :=
  if String.eqb backend "iptables" then "block-ip-iptables"
  else if String.eqb backend "nftables" then "block-ip-nftables"
  else if String.eqb backend "xdp" then "block-ip-xdp"
  else "block-ip-ufw".

(** Layer 2: the firewall. *)
Definition firewall_layer (cfg : BlockConfig) (ip skill_id : string) (ttl : Z) : list string :=
  let effective_id := if mem_str skill_id (bc_allowed_skills cfg) then skill_id
                      else "block-ip-" +:+ bc_block_backend cfg in
  if String.eqb effective_id "block-ip-xdp" then []
  else
    let skill := match bw_skill effective_id with
                 | Some s => Some s
                 | None => bw_skill (block_skill_id (bc_block_backend cfg))
                 end in
    match (fun run => run ip ttl (bc_dry_run cfg)) <$> skill with
    | Some (true, _) =>
        [if String.eqb (bc_block_backend cfg) "iptables" then "iptables"
         else if String.eqb (bc_block_backend cfg) "nftables" then "nftables" else "ufw"]
    | _ => []
    end.

(** The record of a block that took: blocklist, lifecycle, the sensor's file. *)
Definition record_layers (st : BlockState S) (now : Z) (layers : list string) (ip incident_id : string) (ttl : Z)
  : BlockState S :=
  {| bk_recent := bk_recent st; bk_store := bk_store st; bk_sqlite := bk_sqlite st;
     bk_operator_ips := bk_operator_ips st; bk_reputations := bk_reputations st;
     bk_lifecycle := register_layers (bk_lifecycle st) now layers ip incident_id ttl;
     bk_blocklist := {[ip]} ∪ bk_blocklist st; bk_xdp_times := bk_xdp_times st; bk_skip_until := bk_skip_until st;
     bk_reports := bk_reports st; bk_blocked_file := bk_blocked_file st ++ [ip] |}.

Definition queue_report (st : BlockState S) (r : string * string * string * Z) : BlockState S :=
  {| bk_recent := bk_recent st; bk_store := bk_store st; bk_sqlite := bk_sqlite st;
     bk_operator_ips := bk_operator_ips st; bk_reputations := bk_reputations st; bk_lifecycle := bk_lifecycle st;
     bk_blocklist := bk_blocklist st; bk_xdp_times := bk_xdp_times st; bk_skip_until := bk_skip_until st;
     bk_reports := bk_reports st ++ [r]; bk_blocked_file := bk_blocked_file st |}.

(** Everything after the gates. *)
Definition apply_block (cfg : BlockConfig) (st : BlockState S) (ip skill_id : string) (decision : AiDecision)
  (incident : Incident) (now : Z) (clk : string) : BlockState S * (string * bool) :=
  let id := in_incident_id incident in
  let st := upd st (bk_recent st ++ [now]) (set_recent_block (bk_store st) clk now) (bk_xdp_times st)
              (bk_skip_until st) in
  let ttl := adaptive_block_ttl_secs
               (match bk_reputations st !! ip with Some r => total_blocks r | None => 0 end) in
  let '(st, xdp) := xdp_layer cfg st clk ip id now ttl in
  let layers := xdp ++ firewall_layer cfg ip skill_id ttl in
  match layers with
  | [] => (st, ("skipped: no block skill available for " +:+ ip, false))
  | _ =>
      let st := record_layers st now layers ip id ttl in
      let layers := layers ++ (if bw_mesh then ["Mesh"] else []) in
      let cf_pushed := bc_cloudflare cfg &&
        match bw_cloudflare with
        | Some push => bool_decide (is_Some (push ip (id +:+ ": " +:+ dc_reason decision)))
        | None => false
        end in
      let layers := layers ++ (if cf_pushed then ["Cloudflare"] else []) in
      let '(st, layers) :=
        if bc_abuseipdb cfg then
          (queue_report st (ip, "InnerWarden auto-block: " +:+ dc_reason decision +:+ " (confidence " +:+
             bw_percent (dc_confidence decision) +:+ "%)", detector_to_categories (incident_detector id), now),
           layers ++ ["AbuseIPDB(queued)"])
        else (st, layers) in
      (st, ("Blocked " +:+ ip +:+ " via " +:+ join " + " layers, cf_pushed))
  end.

Definition execute_block_ip_decision (cfg : BlockConfig) (st : BlockState S) (ip skill_id : string)
  (decision : AiDecision) (incident : Incident) (now : Z) (clk : string) : BlockState S * (string * bool) :=
  let st := purge now st in
  match managed_agent_downgrade incident (bk_reputations st) with
  | Some (agent_id, name) =>
      (st, ("downgraded to monitor: source is managed agent " +:+ agent_id +:+ " (" +:+ name +:+
            ") on its own services — destination IP " +:+ ip +:+ " not blocked (spec 081)", false))
  | None =>
      let '(st, refused) :=
        match bk_sqlite st with
        | Some sq =>
            let '(sq, r) := consult_circuit_breaker sq clk now ip (bc_max_blocks_per_hour cfg)
                              (bc_circuit_breaker_mode cfg) in
            (set_sqlite st (Some sq), r)
        | None => (st, None)
        end in
      match refused with
      | Some reason => (st, (reason, false))
      | None =>
          match check_block_eligibility_with_safelist ip (bk_operator_ips st) (Z.of_nat (length (bk_recent st)))
                  MAX_BLOCKS_PER_MINUTE (safelist_label bw_safelist) with
          | Err reason =>
              (if contains "cloud provider safelist" reason then forget_reputation st ip else st, (reason, false))
          | Ok _ =>
              if is_ip_actively_blocked (bk_lifecycle st) ip now && is_ip_live_blocked ip skill_id
              then (st, ("already blocked: live firewall rule verified active for this IP", true))
              else apply_block cfg st ip skill_id decision incident now clk
          end
      end
  end.
End Block.

(** ** What is enforced *)

Section Enforcement.
Context {S : Type} `{KvStore S} `{!KvListing S} `{Calendar} `{Chrono} `{Lowercase} `{ProcResolver} `{BlockWorld}.

(** The blocks of the last minute. *)
Definition recent_at (now : Z) (st : BlockState S) : list Z :=
  retain (fun ts => now - seconds 60 <? ts) (bk_recent st).

(** Every gate lets the block pass. *)
Record admitted (cfg : BlockConfig) (st : BlockState S) (ip : string) (incident : Incident) (now : Z) (clk : string)
  : Prop := {
  ad_managed : managed_agent_downgrade incident (bk_reputations st) = None;
  ad_breaker : forall sq, bk_sqlite st = Some sq ->
    should_block (check_and_record sq clk now (bc_max_blocks_per_hour cfg)
                    (from_str_or_default (bc_circuit_breaker_mode cfg))).2 = true;
  ad_valid : is_valid_block_target ip = true;
  ad_safelist : safelist_label bw_safelist ip = None;
  ad_operator : ip ∉ bk_operator_ips st;
  ad_rate : Z.of_nat (length (recent_at now st)) < 20;
}.

(** The record says the address is blocked and the firewall agrees. *)
Definition already_blocked (st : BlockState S) (ip skill_id : string) (now : Z) : bool :=
  is_ip_actively_blocked (bk_lifecycle st) ip now && is_ip_live_blocked ip skill_id.

(** What a block leaves behind for the firewall, the sensor and the reports. *)
Definition enforcement (st : BlockState S) :=
  (bk_lifecycle st, bk_blocklist st, bk_reports st, bk_blocked_file st).
Definition xdp_state (st : BlockState S) := (bk_xdp_times st, bk_skip_until st).

Lemma eligible_spec ip operators n max label :
  match check_block_eligibility_with_safelist ip operators n max label with
  | Ok _ => is_valid_block_target ip = true /\ label ip = None /\ (ip ∉ operators) /\ n < max
  | Err _ => is_valid_block_target ip = false \/ is_Some (label ip) \/ ip ∈ operators \/ max <= n
  end.
Proof.
  unfold check_block_eligibility_with_safelist. destruct (String.eqb_spec ip "") as [->|_]; [by left|].
  destruct (is_valid_block_target ip); cbn [negb]; [|by left].
  destruct (label ip) as [p|]; [right; left; by eexists|].
  destruct (bool_decide_reflect (ip ∈ operators)); [by right; right; left|].
  destruct (Z.leb_spec max n); [by right; right; right|done].
Qed.

(** The gates either refuse, and touch only the breaker's count and a
    reputation, or let the block through. *)
Lemma execute_cases cfg st ip skill_id d incident now clk :
  let r := execute_block_ip_decision cfg st ip skill_id d incident now clk in
  (admitted cfg st ip incident now clk /\ already_blocked st ip skill_id now = false /\
   exists st1, r = apply_block cfg st1 ip skill_id d incident now clk /\ bk_recent st1 = recent_at now st /\
     bk_reputations st1 = bk_reputations st /\ enforcement st1 = enforcement st /\ xdp_state st1 = xdp_state st)
  \/ (~ (admitted cfg st ip incident now clk /\ already_blocked st ip skill_id now = false) /\
      bk_recent r.1 = recent_at now st /\ enforcement r.1 = enforcement st /\ xdp_state r.1 = xdp_state st).
Proof.
  unfold execute_block_ip_decision. cbn zeta. change (bk_reputations (purge now st)) with (bk_reputations st).
  destruct (managed_agent_downgrade incident (bk_reputations st)) as [[ag nm]|] eqn:Em.
  { right. split; [|done]. intros [[Hm _ _ _ _ _] _]. congruence. }
  set (p := match bk_sqlite (purge now st) with Some _ => _ | None => _ end).
  assert (exists sq, p.1 = set_sqlite (purge now st) sq) as [sq Hp].
  { unfold p. destruct (bk_sqlite _) as [s|] eqn:E; [|exists None; unfold set_sqlite, purge, upd in *; cbn in *; by rewrite E].
    destruct (consult_circuit_breaker _ _ _ _ _ _) as [s' r]. by exists (Some s'). }
  assert (p.2 = None <-> forall sq, bk_sqlite st = Some sq ->
    should_block (check_and_record sq clk now (bc_max_blocks_per_hour cfg)
                    (from_str_or_default (bc_circuit_breaker_mode cfg))).2 = true) as Hb.
  { unfold p. change (bk_sqlite (purge now st)) with (bk_sqlite st).
    destruct (bk_sqlite st) as [s|]; [|by split]. unfold consult_circuit_breaker.
    destruct (check_and_record s clk now _ _) as [s' dec] eqn:Ec. cbn [fst snd]. split.
    - intros Hn ? [= <-]. rewrite Ec. cbn [snd]. by destruct (should_block dec).
    - intros Hs. specialize (Hs s eq_refl). rewrite Ec in Hs. cbn [snd] in Hs. by rewrite Hs. }
  destruct p as [st1 [reason|]]; cbn [fst snd] in Hp, Hb; subst st1.
  { right. split; [|done]. intros [[_ Hs _ _ _ _] _]. by apply Hb in Hs. }
  pose proof (eligible_spec ip (bk_operator_ips st) (Z.of_nat (length (recent_at now st))) MAX_BLOCKS_PER_MINUTE
    (safelist_label bw_safelist)) as He.
  change (bk_operator_ips (set_sqlite (purge now st) sq)) with (bk_operator_ips st).
  change (bk_recent (set_sqlite (purge now st) sq)) with (recent_at now st).
  destruct (check_block_eligibility_with_safelist _ _ _ _ _) as [[]|reason].
  - destruct He as (Hv & Hl & Ho & Hr).
    assert (admitted cfg st ip incident now clk) as Ha by (constructor; [done|by apply Hb|done..]).
    change (is_ip_actively_blocked (bk_lifecycle (set_sqlite (purge now st) sq)) ip now
            && is_ip_live_blocked ip skill_id) with (already_blocked st ip skill_id now).
    destruct (already_blocked st ip skill_id now); [right|left].
    + split; [by intros [_ ?]|done].
    + split; [done|]. split; [done|]. by eexists.
  - right. split; [|by destruct (contains _ reason)]. intros [[_ _ Hv Hl Ho Hr] _].
    unfold MAX_BLOCKS_PER_MINUTE in He. destruct He as [?|[[? ?]|[?|?]]]; [congruence|congruence|done|lia].
Qed.

Lemma xdp_layer_keeps cfg st clk ip id now ttl :
  let r := (xdp_layer cfg st clk ip id now ttl).1 in
  bk_recent r = bk_recent st /\ bk_reputations r = bk_reputations st /\ enforcement r = enforcement st.
Proof.
  unfold xdp_layer. destruct (negb _); [done|]. cbn zeta.
  destruct ((fun add => add ip _) <$> bw_shield) as [[[]|e]|]; [done|..];
    destruct ((fun run => run ip ttl _) <$> bw_skill "block-ip-xdp") as [[[] m]|]; done.
Qed.

(** The layers a block takes, with the state they leave. *)
Definition block_layers (cfg : BlockConfig) (st : BlockState S) (ip skill_id : string) (incident : Incident) (now : Z)
  (clk : string) : BlockState S * list string * Z :=
  let st := upd st (bk_recent st ++ [now]) (set_recent_block (bk_store st) clk now) (bk_xdp_times st)
              (bk_skip_until st) in
  let ttl := adaptive_block_ttl_secs
               (match bk_reputations st !! ip with Some r => total_blocks r | None => 0 end) in
  let '(st', xdp) := xdp_layer cfg st clk ip (in_incident_id incident) now ttl in
  (st', xdp ++ firewall_layer cfg ip skill_id ttl, ttl).

Lemma apply_block_spec cfg st ip skill_id d incident now clk :
  let r := apply_block cfg st ip skill_id d incident now clk in
  let '(st', layers, ttl) := block_layers cfg st ip skill_id incident now clk in
  bk_recent r.1 = bk_recent st ++ [now] /\
  match layers with
  | [] => r = (st', ("skipped: no block skill available for " +:+ ip, false)) /\ enforcement r.1 = enforcement st
  | _ =>
      bk_lifecycle r.1 = register_layers (bk_lifecycle st) now layers ip (in_incident_id incident) ttl /\
      bk_blocklist r.1 = {[ip]} ∪ bk_blocklist st /\ bk_blocked_file r.1 = bk_blocked_file st ++ [ip] /\
      length (bk_reports r.1) = (length (bk_reports st) + (if bc_abuseipdb cfg then 1 else 0))%nat /\
      starts_with ("Blocked " +:+ ip +:+ " via ") r.2.1 = true
  end.
Proof.
  unfold apply_block, block_layers. cbn zeta. set (st0 := upd st _ _ _ _).
  set (ttl := adaptive_block_ttl_secs _).
  pose proof (xdp_layer_keeps cfg st0 clk ip (in_incident_id incident) now ttl) as (Hr & Hp & He).
  destruct (xdp_layer cfg st0 clk ip (in_incident_id incident) now ttl) as [st1 xdp]. cbn [fst] in Hr, Hp, He.
  unfold enforcement in He. injection He as Hlc Hbl Hrep Hf.
  destruct (xdp ++ firewall_layer cfg ip skill_id ttl) as [|l ls] eqn:El.
  { cbn. split; [done|]. split; [done|]. unfold enforcement. cbn. by rewrite Hlc, Hbl, Hrep, Hf. }
  assert (forall rest, starts_with ("Blocked " +:+ ip +:+ " via ") ("Blocked " +:+ ip +:+ " via " +:+ rest) = true)
    as Hmsg.
  { intros rest. unfold starts_with.
    replace ("Blocked " +:+ ip +:+ " via " +:+ rest) with (("Blocked " +:+ ip +:+ " via ") +:+ rest)
      by (by rewrite !append_assoc). apply prefix_app. }
  destruct (bc_abuseipdb cfg); cbn [fst snd bk_recent bk_lifecycle bk_blocklist bk_blocked_file bk_reports
    queue_report record_layers]; rewrite ?Hlc, ?Hbl, ?Hrep, ?Hf, ?Hr; (split; [done|]);
    repeat (split; [rewrite ?length_app; cbn; lia || done|]); apply Hmsg.
Qed.
(** ** The record of the layers *)

Lemma is_tracked_spec lc target backend :
  is_tracked lc target backend = true <-> exists r, r ∈ active lc /\ ar_target r = target /\ ar_backend r = backend.
Proof.
  unfold is_tracked. rewrite any_true. apply exist_proper. intros r.
  rewrite andb_true_iff, String.eqb_eq, bool_decide_eq_true. tauto.
Qed.

Lemma register_layers_grows lc now layers ip id ttl r :
  r ∈ active lc -> r ∈ active (register_layers lc now layers ip id ttl).
Proof.
  revert lc. induction layers as [|l ls IH]; intros lc Hr; [done|]. cbn [register_layers]. apply IH.
  destruct (layer_backend l) as [b|]; [|done]. destruct (is_tracked lc ip b); [done|]. cbn. set_solver.
Qed.

Lemma register_layers_tracked lc now layers ip id ttl layer backend :
  layer ∈ layers -> layer_backend layer = Some backend ->
  is_tracked (register_layers lc now layers ip id ttl) ip backend = true.
Proof.
  intros Hl Hb. revert lc. induction Hl as [layer ls|layer l ls Hl IH]; intros lc; cbn [register_layers].
  - rewrite Hb. assert (exists r, r ∈ active (if is_tracked lc ip backend then lc
      else (register lc now BlockIp backend ip id ttl None).1) /\ ar_target r = ip /\ ar_backend r = backend)
      as (r & Hr & Ht).
    { destruct (is_tracked lc ip backend) eqn:E; [by apply is_tracked_spec|]. cbn. eexists. split; [apply elem_of_app; right; left|done]. }
    apply is_tracked_spec. exists r. split; [by apply register_layers_grows|done].
  - by apply IH.
Qed.

(** Only a backend without a record gets a new one. *)
Lemma register_layers_new lc now layers ip id ttl r :
  r ∈ active (register_layers lc now layers ip id ttl) ->
  r ∈ active lc \/ is_tracked lc ip (ar_backend r) = false.
Proof.
  revert lc. induction layers as [|l ls IH]; intros lc Hr; [by left|]. cbn [register_layers] in Hr.
  destruct (layer_backend l) as [b|]; [|by apply IH].
  destruct (is_tracked lc ip b) eqn:E; [by apply IH|]. apply IH in Hr as [Hr|Hr].
  - cbn in Hr. rewrite elem_of_app, list_elem_of_singleton in Hr. destruct Hr as [?| -> ]; [by left|by right].
  - right. destruct (is_tracked lc ip (ar_backend r)) eqn:E'; [|done].
    apply is_tracked_spec in E' as (r' & Hr' & Ht). rewrite <- Hr. symmetry.
    apply is_tracked_spec. exists r'. split; [cbn; set_solver|done].
Qed.

Lemma layers_have_backends cfg st ip skill_id incident now clk layer :
  layer ∈ (block_layers cfg st ip skill_id incident now clk).1.2 -> is_Some (layer_backend layer).
Proof.
  unfold block_layers. cbn zeta. set (st0 := upd st _ _ _ _). set (ttl := adaptive_block_ttl_secs _).
  assert (forall l, l ∈ (xdp_layer cfg st0 clk ip (in_incident_id incident) now ttl).2 -> l = "XDP") as Hx.
  { unfold xdp_layer. destruct (negb _); [set_solver|]. cbn zeta.
    destruct ((fun add => add ip _) <$> bw_shield) as [[[]|e]|]; [set_solver|..];
      destruct ((fun run => run ip ttl _) <$> bw_skill "block-ip-xdp") as [[[] m]|]; set_solver. }
  destruct (xdp_layer cfg st0 clk ip (in_incident_id incident) now ttl) as [st1 xdp]. cbn [fst snd] in Hx |- *.
  rewrite elem_of_app. intros [Hl%Hx|Hl]; [subst; by eexists|].
  unfold firewall_layer in Hl. cbn zeta in Hl. repeat case_match; try set_solver.
  all: apply list_elem_of_singleton in Hl as ->; by eexists.
Qed.


(** A block applied while an expired record of the same address and
    firewall is still listed gets no record of its own: the next tick takes the
    expired record as due and reverts the rule that was just applied. *)
Theorem reblock_unregistered cfg st ip skill_id d incident now clk r layer :
  admitted cfg st ip incident now clk -> already_blocked st ip skill_id now = false ->
  r ∈ active (bk_lifecycle st) -> ar_target r = ip -> ar_state r = Active -> ar_expires_at r < now ->
  (forall ttl, firewall_layer cfg ip skill_id ttl = [layer]) -> layer_backend layer = Some (ar_backend r) ->
  let '(st', (answer, _)) := execute_block_ip_decision cfg st ip skill_id d incident now clk in
  starts_with ("Blocked " +:+ ip +:+ " via ") answer = true /\
  (forall r', r' ∈ active (bk_lifecycle st') -> ar_backend r' = ar_backend r -> r' ∈ active (bk_lifecycle st)) /\
  (forall now', now <= now' -> action_of r ∈ (stage_pending_reverts (bk_lifecycle st') now').2).
Proof.
  intros Ha Hb Hr Ht Hst Hexp Hfw Hlb.
  destruct (execute_cases cfg st ip skill_id d incident now clk) as [(_ & _ & st1 & -> & _ & _ & He & _)|[[] _]];
    [|done].
  pose proof (apply_block_spec cfg st1 ip skill_id d incident now clk) as Hs.
  destruct (apply_block cfg st1 ip skill_id d incident now clk) as [st' [answer pushed]].
  unfold block_layers in Hs. cbn zeta in Hs. rewrite Hfw in Hs.
  destruct (xdp_layer _ _ _ _ _ _ _) as [st2 xdp]. destruct Hs as [_ Hs].
  destruct (xdp ++ [layer]) as [|l ls] eqn:El; [by destruct xdp|]. rewrite <- El in Hs.
  destruct Hs as (Hlc & _ & _ & _ & Hm). cbn [fst snd] in Hlc, Hm.
  unfold enforcement in He. injection He as El' _ _ _. rewrite El' in Hlc. split; [done|]. split.
  - intros r' Hr' Hbk. rewrite Hlc in Hr'. apply register_layers_new in Hr' as [?|Hf]; [done|].
    exfalso. rewrite Hbk in Hf. apply not_true_iff_false in Hf. apply Hf, is_tracked_spec. by exists r.
  - intros now' Hn. unfold stage_pending_reverts. cbn [snd]. apply list_elem_of_omap. exists r. split.
    + rewrite Hlc. by apply register_layers_grows.
    + unfold staged_action, stage_next. rewrite Hst. by rewrite (proj2 (Z.ltb_lt _ _)) by lia.
Qed.

(** The verifier of managed agents has no say: the safeguards count the
    block in the reputation of its target before the block runs, the lookup then
    finds a known-bad destination for every incident that names the target, and
    a known-bad destination is never spared, whatever process is behind the
    incident. *)
Theorem safeguarded_block_never_downgraded {P : Type} `{KvLaws P} incident mode protected now clk (st : PostState P)
    d ip skill :
  (forall r, ps_reputations st !! ip = Some r -> 0 <= total_blocks r < 2 ^ 32 - 1) ->
  entity_ip ip ∈ in_entities incident ->
  let '(st', d') := apply_post_decision_safeguards incident mode protected now clk st d in
  dc_action d' = ABlockIp ip skill -> managed_agent_downgrade incident (ps_reputations st') = None.
Proof.
  intros Hr He. pose proof (safeguarded_known_bad incident mode protected now clk st d ip skill _ Hr He) as Hk.
  destruct (apply_post_decision_safeguards incident mode protected now clk st d) as [st' d']. intros Hd.
  unfold managed_agent_downgrade. destruct bw_registry as [reg|]; [|done]. cbn. rewrite (Hk Hd).
  unfold evaluate_managed_agent_downgrade. by destruct (incident_source_identity incident) as [[[pid comm] rp]|].
Qed.
End Enforcement.

(** ** The rate of blocks *)

Section Rate.
Context {S : Type} `{KvStore S} `{!KvListing S} `{Calendar} `{Chrono} `{Lowercase} `{ProcResolver}.

(** One call, with the world it meets. *)
Record BlockCall := {
  cl_world : BlockWorld;
  cl_cfg : BlockConfig;
  cl_ip : string;
  cl_skill : string;
  cl_decision : AiDecision;
  cl_incident : Incident;
  cl_now : Z;
  cl_clk : string;
}.

Definition block_call (st : BlockState S) (c : BlockCall) : BlockState S :=
  (execute_block_ip_decision (H4 := cl_world c) (cl_cfg c) st (cl_ip c) (cl_skill c) (cl_decision c) (cl_incident c)
     (cl_now c) (cl_clk c)).1.

(** The final state and the times of the blocks that were executed: one for each
    address that came to stand in the sensor's file of blocked addresses. *)
Fixpoint run_blocks (st : BlockState S) (calls : list BlockCall) : BlockState S * list Z :=
  match calls with
  | [] => (st, [])
  | c :: rest =>
      let st' := block_call st c in
      let executed := replicate (length (bk_blocked_file st') - length (bk_blocked_file st)) (cl_now c) in
      let '(st'', log) := run_blocks st' rest in
      (st'', executed ++ log)
  end.

(** The times that came to stand in the list of recent blocks. *)
Fixpoint run_recorded (st : BlockState S) (calls : list BlockCall) : list Z :=
  match calls with
  | [] => []
  | c :: rest =>
      drop (length (recent_at (cl_now c) st)) (bk_recent (block_call st c)) ++ run_recorded (block_call st c) rest
  end.

(** The entries of the minute up to [t]. *)
Definition minute (t : Z) (log : list Z) : list Z := retain (fun ts => (t - seconds 60 <? ts) && (ts <=? t)) log.
Definition since (t : Z) (log : list Z) : list Z := retain (fun ts => t - seconds 60 <? ts) log.

Lemma minute_app t l l' : minute t (l ++ l') = minute t l ++ minute t l'.
Proof. apply List.filter_app. Qed.
Lemma since_app t l l' : since t (l ++ l') = since t l ++ since t l'.
Proof. apply List.filter_app. Qed.
Lemma since_since t t' l : t <= t' -> since t' (since t l) = since t' l.
Proof. intros Ht. apply retain_retain. intros x. rewrite !Z.ltb_lt. lia. Qed.

Lemma block_call_recent st c :
  (bk_recent (block_call st c) = since (cl_now c) (bk_recent st) /\
   bk_blocked_file (block_call st c) = bk_blocked_file st) \/
  (bk_recent (block_call st c) = since (cl_now c) (bk_recent st) ++ [cl_now c] /\
   Z.of_nat (length (since (cl_now c) (bk_recent st))) < 20 /\
   (length (bk_blocked_file (block_call st c)) <= length (bk_blocked_file st) + 1)%nat).
Proof.
  unfold block_call. pose proof (execute_cases (H4 := cl_world c) (cl_cfg c) st (cl_ip c) (cl_skill c) (cl_decision c)
    (cl_incident c) (cl_now c) (cl_clk c)) as [(Ha & _ & st1 & -> & Hr & _ & He & _)|(_ & Hr & He & _)];
    (unfold enforcement in He; injection He as _ _ _ Hf); [right|by left].
  pose proof (apply_block_spec (H4 := cl_world c) (cl_cfg c) st1 (cl_ip c) (cl_skill c) (cl_decision c) (cl_incident c)
    (cl_now c) (cl_clk c)) as Hs.
  destruct (block_layers _ _ _ _ _ _ _) as [[st2 layers] ttl]. destruct Hs as [-> Hs]. rewrite Hr.
  split; [done|]. split; [by apply ad_rate in Ha|]. destruct layers as [|l layers].
  - destruct Hs as [_ Hs]. unfold enforcement in Hs. injection Hs as _ _ _ Hs. rewrite Hs, Hf. lia.
  - destruct Hs as (_ & _ & -> & _). rewrite Hf, length_app. cbn. lia.
Qed.

(** Every block that was executed is in the list of recent blocks. *)
Lemma executed_recorded calls : forall st, (run_blocks st calls).2 `sublist_of` run_recorded st calls.
Proof.
  induction calls as [|c calls IH]; intros st; [constructor|]. cbn [run_blocks run_recorded].
  specialize (IH (block_call st c)). destruct (run_blocks (block_call st c) calls) as [st'' log]. cbn [snd] in *.
  apply sublist_app; [|done]. change (recent_at (cl_now c) st) with (since (cl_now c) (bk_recent st)).
  destruct (block_call_recent st c) as [[-> ->]|(-> & _ & Hf)].
  - rewrite Nat.sub_diag. apply sublist_nil_l.
  - rewrite drop_app_length. set (n := (_ - _)%nat). assert (n = 0%nat \/ n = 1%nat) as [-> | ->] by lia;
      [apply sublist_nil_l|done].
Qed.

Lemma minute_sublist t l k : l `sublist_of` k -> (length (minute t l) <= length (minute t k))%nat.
Proof.
  unfold minute, retain. induction 1 as [|x l k _ IH|x l k _ IH]; cbn; [done| |]; case_match; cbn; lia.
Qed.

Lemma minute_since t now l : now <= t -> (length (minute t l) <= length (since now l))%nat.
Proof.
  intros Ht. unfold minute. rewrite <- (retain_retain (fun ts => now - seconds 60 <? ts)
    (fun ts => (t - seconds 60 <? ts) && (ts <=? t)) l); [apply retain_length|].
  intros x. rewrite andb_true_iff, !Z.ltb_lt. lia.
Qed.

(** The list of recent blocks is the last minute of the log. *)
Lemma run_blocks_bounded calls st log T :
  since T (bk_recent st) = since T log -> Forall (fun ts => ts <= T) log -> (forall t, length (minute t log) <= 20)%nat ->
  StronglySorted Z.le (T :: (cl_now <$> calls)) ->
  forall t, (length (minute t (log ++ run_recorded st calls)) <= 20)%nat.
Proof.
  revert st log T. induction calls as [|c calls IH]; intros st log T Hr HT Hw Hs t; [by rewrite app_nil_r|].
  cbn [run_recorded]. cbn [fmap list_fmap] in Hs. apply StronglySorted_inv in Hs as [Hs Hle].
  apply Forall_cons in Hle as [Hle _].
  assert (since (cl_now c) (bk_recent st) = since (cl_now c) log) as Hsince.
  { rewrite <- (since_since T _ (bk_recent st)), Hr, since_since by done. done. }
  change (recent_at (cl_now c) st) with (since (cl_now c) (bk_recent st)).
  assert (Forall (fun ts => ts <= cl_now c) log) as HT' by (eapply Forall_impl; [exact HT|]; cbn; lia).
  destruct (block_call_recent st c) as [[He _]|(He & Hlt & _)].
  - rewrite He, drop_all. cbn [app]. apply (IH (block_call st c) log (cl_now c)); try done.
    by rewrite He, since_since by done.
  - rewrite He, drop_app_length, app_assoc. apply (IH (block_call st c) (log ++ [cl_now c]) (cl_now c)); try done.
    + by rewrite He, !since_app, since_since, Hsince by done.
    + apply Forall_app. split; [done|]. constructor; [lia|constructor].
    + intros t'. rewrite minute_app, length_app. destruct (Z.lt_ge_cases t' (cl_now c)) as [Hlt'|Hge].
      * replace (minute t' [cl_now c]) with (@nil Z); [rewrite Nat.add_0_r; apply Hw|].
        unfold minute, retain. cbn. rewrite (proj2 (Z.leb_gt _ _)), andb_false_r by lia. done.
      * pose proof (minute_since t' (cl_now c) log Hge). rewrite Hsince in Hlt.
        pose proof (retain_length (fun ts => (t' - seconds 60 <? ts) && (ts <=? t')) [cl_now c]) as Hone.
        unfold minute at 2. cbn [length] in Hone. lia.
Qed.

(** C18. At most twenty blocks are executed in any minute: over any sequence of
    calls with a clock that never goes back, each in a world of its own, from a
    list of recent blocks that keeps to the bound, the addresses written to the
    sensor's file of blocked addresses in the sixty seconds up to any instant, the
    entries of the initial list included, are twenty at most. *)
Theorem blocks_bounded calls st start t :
  Forall (fun ts => ts <= start) (bk_recent st) -> (length (bk_recent st) <= 20)%nat ->
  StronglySorted Z.le (start :: (cl_now <$> calls)) ->
  (length (minute t (bk_recent st ++ (run_blocks st calls).2)) <= 20)%nat.
Proof.
  intros HT Hn Hs. etrans.
  - apply (minute_sublist t _ (bk_recent st ++ run_recorded st calls)). apply sublist_app; [done|apply executed_recorded].
  - apply (run_blocks_bounded calls st (bk_recent st) start); try done. intros t'. etrans; [apply retain_length|done].
Qed.
End Rate.

(** ** The properties at concrete inputs *)

#[local] Instance demo_case : Lowercase := {| to_lowercase := to_ascii_lowercase |}.
#[local] Instance demo_calendar : Calendar :=
  {| cal_year _ := 2026; cal_month _ := 1; cal_day _ := 1; cal_hour t := t / seconds 3600 |}.
#[local] Instance demo_chrono : Chrono := {| parse_utc _ := None; to_rfc3339 _ := ""; fmt_minute _ := "" |}.
#[local] Instance demo_proc : ProcResolver := {| resolve _ := None; file_owner_uid _ := None |}.

(** A host with ufw and nothing else. *)
Definition ufw_host : BlockWorld :=
  {| bw_shield := None;
     bw_skill id := if String.eqb id "block-ip-ufw" then Some (fun _ _ _ => (true, "ok")) else None;
     bw_status _ _ := None; bw_mesh := false; bw_cloudflare := None; bw_registry := None; bw_sigindex := index_new;
     bw_safelist := uninitialised; bw_percent _ := "90" |}.
#[local] Instance demo_host : BlockWorld := ufw_host.

Definition ufw_config : BlockConfig :=
  {| bc_max_blocks_per_hour := 100; bc_circuit_breaker_mode := "pause"; bc_dry_run := false; bc_allowed_skills := [];
     bc_block_backend := "ufw"; bc_cloudflare := false; bc_abuseipdb := false |}.

(** An hour-long block of the target that has run out. *)
Definition old_block : ActiveResponse :=
  {| ar_id := "resp-1"; ar_type := BlockIp; ar_backend := Ufw; ar_target := "203.0.113.7"; ar_incident_id := "x";
     ar_created_at := 0; ar_ttl_secs := 3600; ar_expires_at := seconds 3600; ar_revert_handle := None;
     ar_state := Active |}.
Definition block_state (lc : ResponseLifecycle) : BlockState Store :=
  {| bk_recent := []; bk_store := empty_store; bk_sqlite := None; bk_operator_ips := ∅; bk_reputations := ∅;
     bk_lifecycle := lc; bk_blocklist := ∅; bk_xdp_times := ∅; bk_skip_until := 0; bk_reports := [];
     bk_blocked_file := [] |}.

Lemma reblock_unregistered_witness :
  let '(st', (answer, _)) := execute_block_ip_decision ufw_config
    (block_state (push_response ResponseLifecycle_new old_block)) "203.0.113.7" "block-ip-ufw" demo_block
    (demo_scan "port_scan:203.0.113.7:a") (seconds 3610) "t" in
  answer = "Blocked 203.0.113.7 via ufw" /\
  action_of old_block ∈ (stage_pending_reverts (bk_lifecycle st') (seconds 3630)).2.
Proof.
  pose proof (reblock_unregistered ufw_config (block_state (push_response ResponseLifecycle_new old_block))
    "203.0.113.7" "block-ip-ufw" demo_block (demo_scan "port_scan:203.0.113.7:a") (seconds 3610) "t" old_block "ufw")
    as G.
  assert (admitted ufw_config (block_state (push_response ResponseLifecycle_new old_block)) "203.0.113.7"
    (demo_scan "port_scan:203.0.113.7:a") (seconds 3610) "t") as Ha.
  { constructor; [reflexivity|intros sq [=]|vm_compute; reflexivity|reflexivity|apply not_elem_of_empty|by vm_compute]. }
  specialize (G Ha ltac:(by vm_compute) ltac:(left) eq_refl eq_refl ltac:(by vm_compute) ltac:(done) eq_refl).
  destruct (execute_block_ip_decision _ _ _ _ _ _ _ _) as [st' [answer pushed]] eqn:E. destruct G as (_ & _ & G). split.
  - vm_compute in E. by injection E.
  - apply G. by vm_compute.
Defined.

Lemma safeguarded_block_never_downgraded_witness :
  managed_agent_downgrade (demo_scan "port_scan:203.0.113.7:a") (ps_reputations demo_after.1) = None.
Proof.
  pose proof (safeguarded_block_never_downgraded (demo_scan "port_scan:203.0.113.7:a") "enforce" ["10.0.0.0/8"] 0 "t"
    demo_post demo_block "203.0.113.7" "block-ip-ufw" ltac:(by intros r [=]) ltac:(left)) as G.
  change (apply_post_decision_safeguards _ _ _ _ _ _ _) with demo_after in G.
  rewrite (surjective_pairing demo_after) in G. apply G. reflexivity.
Defined.

Definition demo_call (now : Z) : BlockCall :=
  {| cl_world := ufw_host; cl_cfg := ufw_config; cl_ip := "203.0.113.7"; cl_skill := "block-ip-ufw";
     cl_decision := demo_block; cl_incident := demo_scan "port_scan:203.0.113.7:a"; cl_now := now; cl_clk := "t" |}.

Lemma blocks_bounded_witness :
  (length (minute (seconds 70) (run_blocks (block_state ResponseLifecycle_new)
     [demo_call (seconds 10); demo_call (seconds 10); demo_call (seconds 70)]).2) <= 20)%nat.
Proof.
  apply (blocks_bounded [demo_call (seconds 10); demo_call (seconds 10); demo_call (seconds 70)]
    (block_state ResponseLifecycle_new) 0 (seconds 70)).
  - constructor.
  - cbn. lia.
  - repeat constructor; by vm_compute.
Defined.
