(* ===== verification/AgentAutoRules.v ===== *)
(** * AgentAutoRules: blocks without a decider
    (crates/agent/src/incident_auto_rules.rs, with the BlockIp branch of
    execute_decision in process/post_decision.rs)

    Four detectors block the address of their incident at once, before the noise
    gate and the AI.  The block runs through the gates of AgentBlock.v, the
    decision goes to the trail of AgentDecisions.v, and a cooldown of an hour
    keeps to one attempt per address.  The knowledge graph and the Telegram
    report are left out. *)

From Stdlib Require Import ZArith Lia Ascii String SpecFloat.
From stdpp Require Import prelude strings list gmap sorting.
From S2P Require Import Prelude Text Json Net Floats CoreTypes StoreKv StoreDecisions AgentBreaker AgentLifecycle CoreAudit.
From S2P Require Import AgentCooldown AgentAllowlist AgentGate AgentSafelist AgentSafeguards AgentContextGate GuardThreats GuardRegistry.
From S2P Require Import AgentManaged AgentDecisions AgentBlock.

Local Open Scope string_scope.
Local Open Scope list_scope.
Local Open Scope Z_scope.

Record AutoRule := { rule_detector : string; duration_label : string }.

Definition AUTO_RULES : list AutoRule :=
  [{| rule_detector := "ssh_bruteforce"; duration_label := "24h" |}; {| rule_detector := "credential_stuffing"; duration_label := "24h" |};
   {| rule_detector := "port_scan"; duration_label := "12h" |}; {| rule_detector := "web_scan"; duration_label := "12h" |}].

Definition matching_auto_rule (detector : string) : option AutoRule :=
  head (retain (fun r => String.eqb (rule_detector r) detector) AUTO_RULES).

Definition is_internal_ip (ip : string) : bool :=
  match parse_ip ip with
  | None => false
  | Some (V4 (MkV4 a b _ _)) =>
      (a =? 10) || ((a =? 172) && ((16 <=? b) && (b <=? 31))) || ((a =? 192) && (b =? 168)) || (a =? 127) || ((a =? 169) && (b =? 254))
  | Some (V6 v6) =>
      let s0 := default 0 (v6 !! 0%nat) in
      v6_is_loopback v6 || (Z.land s0 0xffc0 =? 0xfe80) || (Z.land s0 0xfe00 =? 0xfc00)
  end.

Record AutoConfig := {
  responder_enabled : bool;
  auto_rules_enabled : bool;
  auto_trusted_ips : list string;
  dynamic_trusted_ips : list string;
  auto_block : BlockConfig;
}.

Section auto.
Context (sha256_hex : string -> string) (to_json : ChainedEntry -> string) (json_prev : string -> option string).
Context {S : Type} `{KvStore S} `{!KvListing S} `{Calendar} `{Chrono} `{Lowercase} `{ProcResolver} `{BlockWorld}.

(** The state a rule works on: that of the block, and the trail with its writer. *)
Record AutoState := { at_block : BlockState S; at_trail : Trail; at_writer : option DecisionWriter }.

(** The boundary of every block decision. *)
Definition execute_block (cfg : BlockConfig) (st : BlockState S) (ip skill_id : string) (d : AiDecision) (incident : Incident) (now : Z)
    (clk : string) : BlockState S * (string * bool) :=
  if negb (is_single_ip_block_target ip) then
    (st, ("skipped: AI router emitted BlockIp on invalid or CIDR target " +:+ ip +:+ " — refused at execute_decision boundary", false))
  else execute_block_ip_decision cfg st ip skill_id d incident now clk.

Definition auto_cooldown_key (ip : string) : string := "auto-rule:block_ip:" +:+ ip.

Definition auto_decision (detector ip skill_id : string) (rule : AutoRule) : AiDecision :=
  {| dc_action := ABlockIp ip skill_id; dc_confidence := f32_lit 95 100; dc_auto_execute := true;
     dc_reason := "Auto-blocked: " +:+ detector +:+ " from " +:+ ip +:+ " (rule-based, no AI needed, block " +:+ duration_label rule +:+ ")";
     dc_alternatives := []; dc_estimated_threat := "high" |}.

Definition auto_entry (now : Z) (incident : Incident) (detector ip skill_id : string) (dry_run : bool) (d : AiDecision) (execution_result : string)
    : DecisionEntry :=
  {| de_ts := now; de_incident_id := in_incident_id incident; de_host := in_host incident; de_ai_provider := "auto-rule:" +:+ detector;
     de_action_type := "block_ip"; de_target_ip := Some ip; de_target_user := None; de_skill_id := Some skill_id;
     de_confidence := f32_lit 95 100; de_auto_executed := true; de_dry_run := dry_run; de_reason := dc_reason d; de_estimated_threat := "high";
     de_execution_result := execution_result; de_prev_hash := None; de_decision_layer := Some "auto_rule" |}.

Definition skipped (execution_result : string) : bool := starts_with "skipped" execution_result.

Definition with_store_reputation (st : BlockState S) (store : S) (reps : Reputations) : BlockState S :=
  {| bk_recent := bk_recent st; bk_store := store; bk_sqlite := bk_sqlite st; bk_operator_ips := bk_operator_ips st; bk_reputations := reps;
     bk_lifecycle := bk_lifecycle st; bk_blocklist := bk_blocklist st; bk_xdp_times := bk_xdp_times st; bk_skip_until := bk_skip_until st;
     bk_reports := bk_reports st; bk_blocked_file := bk_blocked_file st |}.

(** The rule and the address, when every check of the rule lets them pass. *)
Definition auto_target (cfg : AutoConfig) (st : BlockState S) (incident : Incident) (now : Z) : option (AutoRule * string) :=
  if negb (responder_enabled cfg) then None
  else if negb (auto_rules_enabled cfg) then None
  else
    rule ← matching_auto_rule (incident_detector (in_incident_id incident));
    ip ← first_ip incident;
    if is_internal_ip ip then None
    else if is_ip_allowlisted ip (auto_trusted_ips cfg) || is_ip_allowlisted ip (dynamic_trusted_ips cfg) then None
    else if bool_decide (ip ∈ bk_operator_ips st) then None
    else match get_cooldown (bk_store st) TDecision (auto_cooldown_key ip) with
         | Some ts => if now - seconds DECISION_COOLDOWN_SECS <? ts then None else Some (rule, ip)
         | None => Some (rule, ip)
         end.

Definition try_handle_auto_rule (cfg : AutoConfig) (st : AutoState) (io : AppendIo) (incident : Incident) (now : Z) (clk : string)
    : AutoState * bool :=
  match auto_target cfg (at_block st) incident now with
  | None => (st, false)
  | Some (rule, ip) =>
      let detector := incident_detector (in_incident_id incident) in
      let skill_id := "block-ip-" +:+ bc_block_backend (auto_block cfg) in
      let d := auto_decision detector ip skill_id rule in
      let '(bst, (execution_result, _)) := execute_block (auto_block cfg) (at_block st) ip skill_id d incident now clk in
      let '(trail, writer) :=
        match at_writer st with
        | Some w =>
            let '(t, w, _) := DecisionWriter_write sha256_hex to_json json_prev (at_trail st) w io
              (auto_entry now incident detector ip skill_id (bc_dry_run (auto_block cfg)) d execution_result) in (t, Some w)
        | None => (at_trail st, None)
        end in
      let rep := record_incident now (default (LocalIpReputation_new now) (bk_reputations bst !! ip)) in
      let rep := if skipped execution_result then rep else record_block now rep in
      let bst := with_store_reputation bst (set_cooldown (bk_store bst) clk TDecision (auto_cooldown_key ip) now)
                   (<[ip := rep]> (bk_reputations bst)) in
      ({| at_block := bst; at_trail := trail; at_writer := writer |}, negb (skipped execution_result))
  end.

(** ** What the rules may block *)

Lemma auto_target_spec cfg st incident now rule ip : auto_target cfg st incident now = Some (rule, ip) ->
  responder_enabled cfg = true /\ auto_rules_enabled cfg = true /\
  matching_auto_rule (incident_detector (in_incident_id incident)) = Some rule /\ first_ip incident = Some ip /\
  is_internal_ip ip = false /\ is_ip_allowlisted ip (auto_trusted_ips cfg) = false /\ is_ip_allowlisted ip (dynamic_trusted_ips cfg) = false /\
  (ip ∉ bk_operator_ips st) /\
  forall ts, get_cooldown (bk_store st) TDecision (auto_cooldown_key ip) = Some ts -> ts <= now - seconds DECISION_COOLDOWN_SECS.
Proof.
  unfold auto_target. destruct (responder_enabled cfg), (auto_rules_enabled cfg); cbn [negb]; try done.
  intros (rule' & Hr & (ip' & Hi & Hx)%bind_Some)%bind_Some.
  destruct (is_internal_ip ip') eqn:Ein; [done|].
  destruct (is_ip_allowlisted ip' (auto_trusted_ips cfg)) eqn:E1, (is_ip_allowlisted ip' (dynamic_trusted_ips cfg)) eqn:E2; cbn [orb] in Hx; try done.
  case_bool_decide as Ho; [done|]. destruct (get_cooldown _ _ _) as [ts|] eqn:Ec.
  - destruct (Z.ltb_spec (now - seconds DECISION_COOLDOWN_SECS) ts); [done|]. injection Hx as -> ->. split_and!; try done.
    intros ts'. rewrite Ec. by intros [= <-].
  - injection Hx as -> ->. split_and!; try done. intros ts'. by rewrite Ec.
Qed.

(** A rule changes what is enforced only for the address of an incident of its
    detector, public, not allowlisted, not an operator's, not tried within the
    hour, a single address, and only when every gate of the block admits it and
    the firewall does not hold it already. *)
Theorem auto_block_admitted (cfg : AutoConfig) (st : AutoState) (io : AppendIo) (incident : Incident) (now : Z) (clk : string) :
  enforcement (at_block (try_handle_auto_rule cfg st io incident now clk).1) <> enforcement (at_block st) ->
  exists rule ip, auto_target cfg (at_block st) incident now = Some (rule, ip) /\ first_ip incident = Some ip /\
    rule_detector rule = incident_detector (in_incident_id incident) /\
    is_internal_ip ip = false /\ is_ip_allowlisted ip (auto_trusted_ips cfg) = false /\
    is_single_ip_block_target ip = true /\
    admitted (auto_block cfg) (at_block st) ip incident now clk /\
    already_blocked (at_block st) ip ("block-ip-" +:+ bc_block_backend (auto_block cfg)) now = false.
Proof.
  unfold try_handle_auto_rule. destruct (auto_target cfg (at_block st) incident now) as [[rule ip]|] eqn:Et; [|done].
  pose proof (auto_target_spec _ _ _ _ _ _ Et) as (_ & _ & Hr & Hi & Hin & Ha & _).
  set (skill_id := "block-ip-" +:+ _). set (d := auto_decision _ ip skill_id rule).
  unfold execute_block. destruct (is_single_ip_block_target ip) eqn:Es; cbn [negb].
  - pose proof (execute_cases (auto_block cfg) (at_block st) ip skill_id d incident now clk) as Hc.
    destruct (execute_block_ip_decision _ _ _ _ _ _ _ _) as [bst [res cf]]. cbn zeta in Hc. cbn [fst] in Hc.
    intros Hne. exists rule, ip. destruct Hc as [(Hadm & Hal & _)|(_ & _ & He & _)].
    + split_and!; try done. unfold matching_auto_rule in Hr. apply head_Some_elem_of in Hr. apply retain_elem in Hr as [_ Hr].
      by apply String.eqb_eq.
    + exfalso. apply Hne. destruct (at_writer st) as [w|].
      * destruct (DecisionWriter_write _ _ _ _ _ _ _) as [[t w'] r]. exact He.
      * exact He.
  - intros Hne. exfalso. apply Hne. by destruct (at_writer st) as [w|]; [destruct (DecisionWriter_write _ _ _ _ _ _ _) as [[t w'] r]|].
Qed.

(** ** One attempt an hour *)

Context `{!KvLaws S}.

(** The block leaves the store of the cooldowns working. *)
Lemma purge_store_ok now (st : BlockState S) : kv_ok (bk_store st) -> kv_ok (bk_store (purge now st)).
Proof.
  intros Hs. unfold purge, prune_recent_blocks_before. cbn [bk_store upd]. destruct (kvi_list _ _) as [entries|e]; [|done].
  revert Hs. generalize (bk_store st). induction entries as [|[k v] entries IH]; intros s Hs; [done|]. cbn [foldl]. apply IH.
  destruct (parse_i64 _) as [ms|]; [|done]. destruct (_ <? _); [|done]. by apply kvi_delete_ok.
Qed.

Lemma apply_store_ok cfg (st : BlockState S) ip skill_id d incident now clk :
  kv_ok (bk_store st) -> kv_ok (bk_store (apply_block cfg st ip skill_id d incident now clk).1).
Proof.
  intros Hs. unfold apply_block. cbn zeta. set (st0 := upd st _ _ _ _). set (ttl := adaptive_block_ttl_secs _).
  assert (kv_ok (bk_store st0)) as Hs0 by (by apply kvi_set_ok).
  assert (kv_ok (bk_store (xdp_layer cfg st0 clk ip (in_incident_id incident) now ttl).1)) as Hx.
  { unfold xdp_layer. destruct (negb _); [done|]. cbn zeta.
    destruct ((fun add => add ip _) <$> bw_shield) as [[[]|e]|]; [by apply kvi_set_ok|..];
      destruct ((fun run => run ip ttl _) <$> bw_skill "block-ip-xdp") as [[[] m]|]; try done; by apply kvi_set_ok. }
  destruct (xdp_layer cfg st0 clk ip (in_incident_id incident) now ttl) as [st1 xdp]. cbn [fst] in Hx.
  destruct (xdp ++ _) as [|l ls]; [done|]. by destruct (bc_abuseipdb cfg).
Qed.

Lemma execute_store_ok cfg (st : BlockState S) ip skill_id d incident now clk :
  kv_ok (bk_store st) -> kv_ok (bk_store (execute_block cfg st ip skill_id d incident now clk).1).
Proof.
  intros Hs0. pose proof (purge_store_ok now st Hs0) as Hs. unfold execute_block, execute_block_ip_decision. destruct (negb _); [done|].
  destruct (managed_agent_downgrade _ _) as [[ag nm]|]; [done|].
  assert (forall (st' : BlockState S) r, kv_ok (bk_store st') ->
    kv_ok (bk_store (match r with
      | Some reason => (st', (reason, false))
      | None => match check_block_eligibility_with_safelist ip (bk_operator_ips st') (Z.of_nat (length (bk_recent st'))) MAX_BLOCKS_PER_MINUTE (safelist_label bw_safelist) with
                | Err reason => (if contains "cloud provider safelist" reason then forget_reputation st' ip else st', (reason, false))
                | Ok _ => if is_ip_actively_blocked (bk_lifecycle st') ip now && is_ip_live_blocked ip skill_id
                          then (st', ("already blocked: live firewall rule verified active for this IP", true))
                          else apply_block cfg st' ip skill_id d incident now clk
                end
      end).1)) as Hk.
  { intros st' [reason|] Hs'; [done|]. destruct (check_block_eligibility_with_safelist _ _ _ _ _) as [?|reason]; [|by destruct (contains _ _)].
    destruct (_ && _); [done|]. by apply apply_store_ok. }
  destruct (bk_sqlite (purge now st)) as [sq|]; [|exact (Hk (purge now st) None Hs)].
  destruct (consult_circuit_breaker _ _ _ _ _ _) as [sq' r]. exact (Hk (set_sqlite (purge now st) (Some sq')) r Hs).
Qed.

(** After an attempt at an address, whatever came of it, the rules leave the
    address alone for an hour. *)
Theorem auto_rule_once_an_hour (cfg cfg' : AutoConfig) (st : AutoState) (io : AppendIo) (incident incident' : Incident) (now now' : Z)
    (clk : string) (rule : AutoRule) (ip : string) :
  auto_target cfg (at_block st) incident now = Some (rule, ip) -> first_ip incident' = Some ip -> chrono_instant now ->
  now' - seconds DECISION_COOLDOWN_SECS < to_millis now ->
  kv_ok (bk_store (at_block st)) ->
  auto_target cfg' (at_block (try_handle_auto_rule cfg st io incident now clk).1) incident' now' = None.
Proof.
  intros Ht Hi Hts Hn Hok. destruct (auto_target cfg' _ incident' now') as [[rule' ip']|] eqn:Et; [|done]. exfalso.
  pose proof (auto_target_spec _ _ _ _ _ _ Et) as (_ & _ & _ & Hi' & _ & _ & _ & _ & Hc). rewrite Hi in Hi'. injection Hi' as <-.
  specialize (Hc (to_millis now)). unfold try_handle_auto_rule in Hc. rewrite Ht in Hc.
  destruct (execute_block _ _ _ _ _ _ _ _) as [bst [res cf]] eqn:Ee.
  apply (execute_store_ok (auto_block cfg) _ ip ("block-ip-" +:+ bc_block_backend (auto_block cfg))
    (auto_decision (incident_detector (in_incident_id incident)) ip ("block-ip-" +:+ bc_block_backend (auto_block cfg)) rule) incident now clk) in Hok.
  rewrite Ee in Hok. cbn [fst] in Hok.
  assert (get_cooldown (set_cooldown (bk_store bst) clk TDecision (auto_cooldown_key ip) now) TDecision (auto_cooldown_key ip) = Some (to_millis now)) as Hg.
  { rewrite get_set_cooldown by done. by rewrite bool_decide_true. }
  destruct (at_writer st) as [w|].
  - destruct (DecisionWriter_write _ _ _ _ _ _ _) as [[t w'] r]. specialize (Hc Hg). lia.
  - specialize (Hc Hg). lia.
Qed.

(** ** What is taken for a block *)

(** An attempt that the limit of twenty a minute refused is not a skip: the
    incident is marked as handled and the address's reputation counts a block,
    though nothing was enforced. *)
Theorem rate_limited_handled (cfg : AutoConfig) (st : AutoState) (io : AppendIo) (incident : Incident) (now : Z) (clk : string)
    (rule : AutoRule) (ip : string) :
  auto_target cfg (at_block st) incident now = Some (rule, ip) -> is_single_ip_block_target ip = true ->
  managed_agent_downgrade incident (bk_reputations (at_block st)) = None -> bk_sqlite (at_block st) = None ->
  is_valid_block_target ip = true -> ip <> "" -> safelist_label bw_safelist ip = None ->
  20 <= Z.of_nat (length (recent_at now (at_block st))) ->
  let '(st', handled) := try_handle_auto_rule cfg st io incident now clk in
  handled = true /\ enforcement (at_block st') = enforcement (at_block st) /\
  exists r, bk_reputations (at_block st') !! ip = Some (record_block now (record_incident now r)).
Proof.
  intros Ht Hs Hm Hq Hv Hne Hl Hr. pose proof (auto_target_spec _ _ _ _ _ _ Ht) as (_ & _ & _ & _ & _ & _ & _ & Ho & _).
  unfold try_handle_auto_rule. rewrite Ht. unfold execute_block. rewrite Hs. cbn [negb].
  assert (exists bst, execute_block_ip_decision (auto_block cfg) (at_block st) ip ("block-ip-" +:+ bc_block_backend (auto_block cfg))
    (auto_decision (incident_detector (in_incident_id incident)) ip ("block-ip-" +:+ bc_block_backend (auto_block cfg)) rule) incident now clk =
    (bst, ("rate-limited: " +:+ ip +:+ " (>20 blocks/min)", false)) /\ enforcement bst = enforcement (at_block st))
    as (bst & -> & He).
  { unfold execute_block_ip_decision. change (bk_reputations (purge now (at_block st))) with (bk_reputations (at_block st)). rewrite Hm.
    change (bk_sqlite (purge now (at_block st))) with (bk_sqlite (at_block st)). rewrite Hq.
    unfold check_block_eligibility_with_safelist. rewrite (proj2 (String.eqb_neq _ _) Hne), Hv, Hl. cbn [negb].
    rewrite bool_decide_false by exact Ho. change (bk_recent (purge now (at_block st))) with (recent_at now (at_block st)).
    unfold MAX_BLOCKS_PER_MINUTE. rewrite (proj2 (Z.leb_le _ _) Hr).
    change ("rate-limited: " +:+ ip +:+ " (>" +:+ show 20 +:+ " blocks/min)") with ("rate-limited: " +:+ ip +:+ " (>20 blocks/min)").
    destruct (contains _ _); eexists; (split; [reflexivity|]); done. }
  change (skipped ("rate-limited: " +:+ ip +:+ " (>20 blocks/min)")) with false. cbn [negb].
  destruct (at_writer st) as [w|]; [destruct (DecisionWriter_write _ _ _ _ _ _ _) as [[t w'] r]|]; (split_and!; [done|exact He|]);
    cbn [at_block with_store_reputation bk_reputations]; rewrite lookup_insert_eq; by eexists.
Qed.

End auto.

(** A private IPv4 address written as an IPv6 one is not internal, and is a
    single address that a block may name. *)
Example mapped_private_not_internal :
  is_internal_ip "192.168.1.10" = true /\ is_internal_ip "::ffff:192.168.1.10" = false /\
  is_single_ip_block_target "::ffff:192.168.1.10" = true.
Proof. vm_compute. repeat split. Qed.

(** ** A host with ufw *)

#[local] Instance demo_auto_case : Lowercase := {| to_lowercase := to_ascii_lowercase |}.
#[local] Instance demo_auto_calendar : Calendar :=
  {| cal_year _ := 2026; cal_month _ := 1; cal_day _ := 1; cal_hour t := t / seconds 3600 |}.
#[local] Instance demo_auto_chrono : Chrono := {| parse_utc _ := None; to_rfc3339 _ := ""; fmt_minute _ := "" |}.
#[local] Instance demo_auto_proc : ProcResolver := {| resolve _ := None; file_owner_uid _ := None |}.
#[local] Instance demo_auto_host : BlockWorld := ufw_host.

Definition demo_auto_config : AutoConfig :=
  {| responder_enabled := true; auto_rules_enabled := true; auto_trusted_ips := ["198.51.100.0/24"]; dynamic_trusted_ips := [];
     auto_block := ufw_config |}.

Definition demo_auto_incident : Incident :=
  {| in_ts := 0; in_host := "h"; in_incident_id := "port_scan:203.0.113.7:x"; in_severity := High; in_title := ""; in_summary := "";
     in_evidence := JNull; in_recommended_checks := []; in_tags := []; in_entities := [entity_ip "203.0.113.7"] |}.

Definition demo_auto_state (recent : list Z) : AutoState :=
  {| at_block := {| bk_recent := recent; bk_store := empty_store; bk_sqlite := None; bk_operator_ips := ∅; bk_reputations := ∅;
       bk_lifecycle := ResponseLifecycle_new; bk_blocklist := ∅; bk_xdp_times := ∅; bk_skip_until := 0; bk_reports := []; bk_blocked_file := [] |};
     at_trail := {| tr_files := ∅; tr_store := None |}; at_writer := None |}.

Definition demo_auto_run (recent : list Z) : AutoState * bool :=
  try_handle_auto_rule (fun s => s) demo_json demo_prev demo_auto_config (demo_auto_state recent) (demo_append "2026-01-02") demo_auto_incident
    (seconds 5000) "t".

Lemma auto_block_admitted_witness :
  bk_blocked_file (at_block (demo_auto_run []).1) = ["203.0.113.7"] /\
  exists rule ip, first_ip demo_auto_incident = Some ip /\ rule_detector rule = "port_scan" /\ is_internal_ip ip = false /\
    admitted ufw_config (at_block (demo_auto_state [])) ip demo_auto_incident (seconds 5000) "t".
Proof.
  split; [vm_compute; reflexivity|].
  destruct (auto_block_admitted (fun s => s) demo_json demo_prev demo_auto_config (demo_auto_state []) (demo_append "2026-01-02")
    demo_auto_incident (seconds 5000) "t") as (rule & ip & _ & Hi & Hr & Hin & _ & _ & Ha & _).
  - intros E. apply (f_equal snd) in E. vm_compute in E. discriminate E.
  - exists rule, ip. split; [exact Hi|]. split; [exact Hr|]. split; [exact Hin|exact Ha].
Defined.

Lemma rate_limited_handled_witness :
  (demo_auto_run (replicate 20 (seconds 4999))).2 = true /\
  enforcement (at_block (demo_auto_run (replicate 20 (seconds 4999))).1) = enforcement (at_block (demo_auto_state (replicate 20 (seconds 4999)))).
Proof.
  pose proof (rate_limited_handled (fun s => s) demo_json demo_prev demo_auto_config (demo_auto_state (replicate 20 (seconds 4999)))
    (demo_append "2026-01-02") demo_auto_incident (seconds 5000) "t" {| rule_detector := "port_scan"; duration_label := "12h" |} "203.0.113.7") as G.
  unfold demo_auto_run. destruct (try_handle_auto_rule _ _ _ _ _ _ _ _ _) as [st' handled].
  destruct G as (G1 & G2 & _); try (vm_compute; reflexivity); try (vm_compute; discriminate).
  split; [exact G1|exact G2].
Defined.
