(* ===== verification/AgentCorrelation.v ===== *)
(** * AgentCorrelation: attack chains across layers
    (crates/agent/src/correlation_engine.rs and correlation_engine_yaml/mod.rs)

    The engine watches one stream of events of all layers.  An event that fits
    the first stage of a rule opens a pending chain; a later one that fits the
    next stage, and shares an entity where the rule asks for it, advances it;
    the last stage completes it, unless a cooldown of the rule and of one of the
    chain's entities is running.  The rules come from YAML files, whose reader is
    an argument; a panic is [None].  The entity of a cooldown is the first of a
    [HashSet], in an order that differs from set to set: [observe] takes it as
    the argument [pick].  Other walks of hash tables are in the order of
    [elements] and [map_to_list].  A rule's window is taken within chrono's
    range.

    Proved here: what an emitted chain says is true of the stream, a two-stage
    attack in the stream is reported, the elevation of low events and the rule
    loader are exact; and the engine panics on a rule without stages, misses
    longer chains by its greedy choice, and repeats a chain when the hash order
    changes. *)

From Stdlib Require Import ZArith Lia Ascii String SpecFloat.
From stdpp Require Import prelude strings list gmap sorting.
From S2P Require Import Prelude Text Json Floats CoreTypes.

Local Open Scope string_scope.
Local Open Scope list_scope.
Local Open Scope Z_scope.

(** ** Data *)

Inductive Layer := Firmware | Hypervisor | Kernel | Userspace | Network | Honeypot.

#[export] Instance layer_eq_dec : EqDecision Layer.
Proof. solve_decision. Defined.
Definition layer_code (l : Layer) : positive :=
  match l with Firmware => 1 | Hypervisor => 2 | Kernel => 3 | Userspace => 4 | Network => 5 | Honeypot => 6 end.
Definition layer_decode (p : positive) : option Layer :=
  match p with
  | 1%positive => Some Firmware | 2%positive => Some Hypervisor | 3%positive => Some Kernel
  | 4%positive => Some Userspace | 5%positive => Some Network | 6%positive => Some Honeypot | _ => None
  end.
#[export] Instance layer_countable : Countable Layer.
Proof. refine {| encode := layer_code; decode := layer_decode |}. by intros []. Defined.

Record CorrelationEvent := {
  ce_ts : Z;
  ce_layer : Layer;
  ce_source : string;
  ce_kind : string;
  ce_severity : Severity;
  ce_entities : list EntityRef;
  ce_details : Json;
  ce_incident_id : string;
}.

Record AttackChain := {
  at_chain_id : string;
  at_rule_id : string;
  at_rule_name : string;
  at_start_ts : Z;
  at_last_ts : Z;
  at_events : list CorrelationEvent;
  at_stages_matched : nat;
  at_stages_total : nat;
  at_confidence : spec_float;
  at_layers : list Layer;
  at_severity : Severity;
  at_summary : string;
}.

Record RuleStage := {
  rs_layer : option Layer;
  rs_kind_patterns : list string;
  rs_entity_must_match : bool;
}.

Record CorrelationRule := {
  ru_id : string;
  ru_name : string;
  ru_stages : list RuleStage;
  ru_window_secs : Z;
  ru_min_confidence : spec_float;
  ru_severity : Severity;
}.

Record PendingChain := {
  pc_rule_id : string;
  pc_events : list CorrelationEvent;
  pc_entities : gset string;
  pc_next_stage : nat;
  pc_started_at : Z;
  pc_expires_at : Z;
}.

Record CorrelationEngine := {
  en_window : list CorrelationEvent;
  en_max_window : nat;
  en_pending : list PendingChain;
  en_completed : list AttackChain;
  en_rules : list CorrelationRule;
  en_cooldowns : gmap string Z;
  en_next_id : Z;
}.

(** ** Which events take part *)

Definition PACKAGE_MANAGER_COMMS : list string :=
  ["apt"; "apt-get"; "apt-cache"; "apt-config"; "aptitude"; "apt-listchanges"; "apt-listbugs"; "dpkg"; "dpkg-deb";
   "dpkg-query"; "dpkg-divert"; "dpkg-statoverri"; "dpkg-trigger"; "unattended-upgr"; "needrestart"; "snap"; "snapd";
   "snap-update-ns"; "snap-confine"; "snap-mgmt"; "yum"; "dnf"; "dnf5"; "microdnf"; "yumdownloader"; "rpm";
   "rpm-ostree"; "zypper"; "pacman"; "pacstrap"; "makepkg"; "yay"; "paru"; "apk"; "abuild"; "emerge"; "ebuild";
   "portageq"; "xbps-install"; "xbps-remove"; "xbps-query"; "flatpak"; "brew"; "PackageKit"; "packagekitd"].

Definition CL008_SERVICE_DAEMON_COMMS : list string :=
  ["apache2"; "httpd"; "nginx"; "caddy"; "php-fpm"; "php-fpm7.4"; "php-fpm8.0"; "php-fpm8.1"; "php-fpm8.2";
   "php-fpm8.3"; "mysqld"; "mysqld_safe"; "mariadbd"; "postgres"; "crowdsec"; "cscli"].

Definition INNERWARDEN_SELF_COMMS : list string :=
  ["innerwarden-age"; "innerwarden-sen"; "innerwarden-ctl"; "innerwarden-watc"].

Definition rule_comm_suppressions (rule_id : string) : list string :=
  if String.eqb rule_id "CL-008" then PACKAGE_MANAGER_COMMS else [].

Definition event_comm_is_suppressed (rule_id : string) (event : CorrelationEvent) : bool :=
  match get_str (ce_details event) "comm" with
  | None => false
  | Some comm =>
      if mem_str comm INNERWARDEN_SELF_COMMS then true
      else if String.eqb rule_id "CL-008" && String.eqb comm "tokio-rt-worker" then true
      else if String.eqb rule_id "CL-008" && mem_str comm CL008_SERVICE_DAEMON_COMMS then true
      else mem_str comm (rule_comm_suppressions rule_id)
  end.

Definition entity_type_str (t : EntityType) : string :=
  match t with
  | EIp => "ip" | EUser => "user" | EContainer => "container" | EPath => "path" | EService => "service"
  end.
Definition entity_key (e : EntityRef) : string := entity_type_str (e_type e) +:+ ":" +:+ e_value e.
Definition entity_keys (event : CorrelationEvent) : gset string := list_to_set (entity_key <$> ce_entities event).

Definition kind_fits (kind pattern : string) : bool :=
  if contains "*" pattern then starts_with (trim_end_by (fun a => Ascii.eqb a "*") pattern) kind
  else if contains "|" pattern then any (fun p => String.eqb kind (trim p)) (split_on "|" pattern)
  else String.eqb kind pattern.

Definition matches_stage (stage : RuleStage) (event : CorrelationEvent) (previous : gset string) (rule_id : string)
  : bool :=
  match rs_layer stage with Some l => bool_decide (ce_layer event = l) | None => true end
  && any (kind_fits (ce_kind event)) (rs_kind_patterns stage)
  && negb (rs_entity_must_match stage && bool_decide (previous <> ∅)
           && bool_decide (entity_keys event ## previous))
  && negb (event_comm_is_suppressed rule_id event).

(** ** Events of the other parts *)

Definition classify_layer (source kind : string) : Layer :=
  if String.eqb source "hypervisor" || starts_with "hypervisor." kind || contains "cpuid" kind
     || contains "vmexit" kind || contains "blue_pill" kind then Hypervisor
  else if String.eqb source "smm" || starts_with "firmware." kind || contains "msr" kind || contains "acpi" kind
          || contains "uefi" kind || contains "tpm" kind || contains "spi" kind then Firmware
  else if starts_with "network." kind || starts_with "dns." kind || contains "outbound" kind
          || contains "bind_listen" kind then Network
  else if starts_with "honeypot" kind then Honeypot
  else if String.eqb source "ebpf" || String.eqb source "killchain" || starts_with "killchain." kind
          || starts_with "privilege." kind || starts_with "lsm." kind || String.eqb kind "kernel_module_load"
          || starts_with "dup." kind || String.eqb kind "mprotect" then Kernel
  else Userspace.

Definition classify_event (e : Event) : CorrelationEvent :=
  {| ce_ts := ev_ts e; ce_layer := classify_layer (ev_source e) (ev_kind e); ce_source := ev_source e;
     ce_kind := ev_kind e; ce_severity := ev_severity e; ce_entities := ev_entities e; ce_details := ev_details e;
     ce_incident_id := "" |}.

Definition detector_from_incident_id (incident_id : string) : string := first_piece ":" incident_id.

Definition classify_incident (i : Incident) : CorrelationEvent :=
  let detector := detector_from_incident_id (in_incident_id i) in
  {| ce_ts := in_ts i; ce_layer := classify_layer "detector" detector; ce_source := "detector"; ce_kind := detector;
     ce_severity := in_severity i; ce_entities := in_entities i; ce_details := in_evidence i;
     ce_incident_id := in_incident_id i |}.

(** The events of a part without entities; [now] is the clock. *)
Definition part_event (now : Z) (layer : Layer) (source kind : string) (severity : Severity)
  (entities : list EntityRef) (details : Json) : CorrelationEvent :=
  {| ce_ts := now; ce_layer := layer; ce_source := source; ce_kind := kind; ce_severity := severity;
     ce_entities := entities; ce_details := details; ce_incident_id := "" |}.
Definition firmware_event (now : Z) (kind : string) (details : Json) : CorrelationEvent :=
  part_event now Firmware "smm" kind High [] details.
Definition hypervisor_event (now : Z) (kind : string) (details : Json) : CorrelationEvent :=
  part_event now Hypervisor "hypervisor" kind High [] details.
Definition killchain_event (now : Z) (kind : string) (details : Json) : CorrelationEvent :=
  part_event now Kernel "killchain" kind Critical [] details.
Definition dna_event (now : Z) (kind : string) (details : Json) : CorrelationEvent :=
  part_event now Userspace "dna" kind Medium [] details.
Definition shield_event (now : Z) (kind : string) (details : Json) : CorrelationEvent :=
  part_event now Network "shield" kind High [] details.
Definition baseline_event (now : Z) (kind : string) (severity : Severity) (entities : list EntityRef) (details : Json)
  : CorrelationEvent :=
  part_event now Userspace "baseline" kind severity entities details.
Definition neural_event (now : Z) (score : spec_float) (entities : list EntityRef) (details : Json) : CorrelationEvent :=
  let severity := if f_gtb score (f32_lit 9 10) then High else if f_gtb score (f32_lit 7 10) then Medium else Low in
  part_event now Userspace "autoencoder" "neural.anomaly" severity entities details.

(** ** The engine *)

Definition with_rules (rules : list CorrelationRule) : CorrelationEngine :=
  {| en_window := []; en_max_window := Z.to_nat 10000; en_pending := []; en_completed := []; en_rules := rules;
     en_cooldowns := ∅; en_next_id := 1 |}.

Definition replace_rules (en : CorrelationEngine) (rules : list CorrelationRule) : CorrelationEngine * nat :=
  ({| en_window := en_window en; en_max_window := en_max_window en; en_pending := en_pending en;
      en_completed := en_completed en; en_rules := rules; en_cooldowns := en_cooldowns en;
      en_next_id := en_next_id en |}, length rules).

Definition find_rule (rules : list CorrelationRule) (id : string) : option CorrelationRule :=
  List.find (fun r => String.eqb (ru_id r) id) rules.

Definition advanced (pc : PendingChain) (event : CorrelationEvent) : PendingChain :=
  {| pc_rule_id := pc_rule_id pc; pc_events := pc_events pc ++ [event];
     pc_entities := pc_entities pc ∪ entity_keys event; pc_next_stage := S (pc_next_stage pc);
     pc_started_at := pc_started_at pc; pc_expires_at := pc_expires_at pc |}.

(** One pending chain, and its clone when the event completes it. *)
Definition advance (rules : list CorrelationRule) (event : CorrelationEvent) (pc : PendingChain)
  : PendingChain * option PendingChain :=
  match find_rule rules (pc_rule_id pc) with
  | None => (pc, None)
  | Some rule =>
      match ru_stages rule !! pc_next_stage pc with
      | None => (pc, None)
      | Some stage =>
          if matches_stage stage event (pc_entities pc) (pc_rule_id pc) then
            let pc := advanced pc event in
            (pc, if (length (ru_stages rule) <=? pc_next_stage pc)%nat then Some pc else None)
          else (pc, None)
      end
  end.

Definition chain_confidence (layers : nat) : spec_float :=
  if (3 <=? layers)%nat then f32_lit 95 100 else if (2 <=? layers)%nat then f32_lit 85 100 else f32_lit 70 100.

Definition ts_le (a b : CorrelationEvent) : Prop := ce_ts a <= ce_ts b.
#[export] Instance ts_le_dec : RelDecision ts_le.
Proof. intros a b. unfold ts_le. apply _. Defined.

Definition chain_id (n : Z) : string := "CHAIN-" +:+ pad0 4 (show n).

Definition attack_chain (rule : CorrelationRule) (pc : PendingChain) (n now : Z) : AttackChain :=
  let layers := elements (list_to_set (ce_layer <$> pc_events pc) : gset Layer) in
  let events := merge_sort ts_le (pc_events pc) in
  let start_ts := default now (ce_ts <$> head events) in
  let last_ts := default now (ce_ts <$> last events) in
  {| at_chain_id := chain_id n; at_rule_id := ru_id rule; at_rule_name := ru_name rule; at_start_ts := start_ts;
     at_last_ts := last_ts; at_events := events; at_stages_matched := length (ru_stages rule);
     at_stages_total := length (ru_stages rule); at_confidence := chain_confidence (length layers);
     at_layers := layers; at_severity := ru_severity rule;
     at_summary := ru_name rule +:+ ": " +:+ show (Z.of_nat (length events)) +:+ " stages across " +:+
       show (Z.of_nat (length layers)) +:+ " layers in " +:+ show_int (num_seconds (last_ts - start_ts)) +:+ "s" |}.

Definition cooldown_key (pick : PendingChain -> option string) (pc : PendingChain) : string :=
  pc_rule_id pc +:+ ":" +:+ default "" (pick pc).

Definition same_start (pc p : PendingChain) : bool :=
  String.eqb (pc_rule_id p) (pc_rule_id pc) && (pc_started_at p =? pc_started_at pc).

Definition emit (pick : PendingChain -> option string) (now : Z) (en : CorrelationEngine) (pc : PendingChain)
  : CorrelationEngine :=
  match find_rule (en_rules en) (pc_rule_id pc) with
  | None => en
  | Some rule =>
      let key := cooldown_key pick pc in
      match en_cooldowns en !! key with
      | Some _ => en
      | None =>
          {| en_window := en_window en; en_max_window := en_max_window en;
             en_pending := retain (fun p => negb (same_start pc p)) (en_pending en);
             en_completed := en_completed en ++ [attack_chain rule pc (en_next_id en) now];
             en_rules := en_rules en; en_cooldowns := <[key := now + seconds 600]> (en_cooldowns en);
             en_next_id := wrapping_add 64 (en_next_id en) 1 |}
      end
  end.

Definition new_chain (rule : CorrelationRule) (event : CorrelationEvent) : PendingChain :=
  {| pc_rule_id := ru_id rule; pc_events := [event]; pc_entities := entity_keys event; pc_next_stage := 1;
     pc_started_at := ce_ts event; pc_expires_at := ce_ts event + seconds (as_signed 64 (ru_window_secs rule)) |}.

(** The chains an event opens; the first stage of a rule without stages is out
    of range. *)
Fixpoint started (rules : list CorrelationRule) (event : CorrelationEvent) : option (list PendingChain) :=
  match rules with
  | [] => Some []
  | rule :: rules =>
      first ← head (ru_stages rule);
      rest ← started rules event;
      Some (if matches_stage first event ∅ (ru_id rule) then new_chain rule event :: rest else rest)
  end.

(** The expiry at the start of a turn, and the turn of the pending chains. *)
Definition expire (en : CorrelationEngine) (now : Z) : CorrelationEngine :=
  {| en_window := en_window en; en_max_window := en_max_window en;
     en_pending := retain (fun pc => now <? pc_expires_at pc) (en_pending en); en_completed := en_completed en;
     en_rules := en_rules en; en_cooldowns := filter (fun kv => now < kv.2) (en_cooldowns en);
     en_next_id := en_next_id en |}.

Definition set_pending (en : CorrelationEngine) (pending : list PendingChain) : CorrelationEngine :=
  {| en_window := en_window en; en_max_window := en_max_window en; en_pending := pending;
     en_completed := en_completed en; en_rules := en_rules en; en_cooldowns := en_cooldowns en;
     en_next_id := en_next_id en |}.

Definition push_window (en : CorrelationEngine) (event : CorrelationEvent) : CorrelationEngine :=
  let w := en_window en ++ [event] in
  {| en_window := drop (length w - en_max_window en) w; en_max_window := en_max_window en;
     en_pending := en_pending en; en_completed := en_completed en; en_rules := en_rules en;
     en_cooldowns := en_cooldowns en; en_next_id := en_next_id en |}.

Definition observe_pending (pick : PendingChain -> option string) (en : CorrelationEngine) (event : CorrelationEvent)
  : CorrelationEngine :=
  let en := expire en (ce_ts event) in
  let turns := advance (en_rules en) event <$> en_pending en in
  foldl (emit pick (ce_ts event)) (set_pending en turns.*1) (omap snd turns).

Definition observe (pick : PendingChain -> option string) (en : CorrelationEngine) (event : CorrelationEvent)
  : option CorrelationEngine :=
  let en := observe_pending pick en event in
  new ← started (en_rules en) event;
  Some (push_window (set_pending en (en_pending en ++ new)) event).

Definition drain_completed (en : CorrelationEngine) : CorrelationEngine * list AttackChain :=
  ({| en_window := en_window en; en_max_window := en_max_window en; en_pending := en_pending en; en_completed := [];
      en_rules := en_rules en; en_cooldowns := en_cooldowns en; en_next_id := en_next_id en |}, en_completed en).

(** ** Several low events of one address *)

Definition low_events (now : Z) (en : CorrelationEngine) : list CorrelationEvent :=
  retain (fun e => negb (ce_ts e <? now - seconds 600) && bool_decide (ce_severity e = Low)) (en_window en).

Definition event_ips (e : CorrelationEvent) : list string :=
  e_value <$> retain (fun r => bool_decide (e_type r = EIp)) (ce_entities e).

Definition ip_detectors (events : list CorrelationEvent) : gmap string (list CorrelationEvent) :=
  foldl (fun m e => foldl (fun m ip => <[ip := default [] (m !! ip) ++ [e]]> m) m (event_ips e)) ∅ events.

Definition unique_kinds (events : list CorrelationEvent) : gset string := list_to_set (ce_kind <$> events).

Definition elevates (en : CorrelationEngine) (ie : string * list CorrelationEvent) : bool :=
  (3 <=? length (elements (unique_kinds ie.2)))%nat
  && bool_decide (en_cooldowns en !! ("CL-010:ip:" +:+ ie.1) = None).

Definition check_multi_low_elevation (now : Z) (en : CorrelationEngine) : CorrelationEngine * option AttackChain :=
  match List.find (elevates en) (map_to_list (ip_detectors (low_events now en))) with
  | None => (en, None)
  | Some (ip, events) =>
      let kinds := elements (unique_kinds events) in
      ({| en_window := en_window en; en_max_window := en_max_window en; en_pending := en_pending en;
          en_completed := en_completed en; en_rules := en_rules en;
          en_cooldowns := <["CL-010:ip:" +:+ ip := now + seconds 600]> (en_cooldowns en);
          en_next_id := wrapping_add 64 (en_next_id en) 1 |},
       Some {| at_chain_id := chain_id (en_next_id en); at_rule_id := "CL-010";
               at_rule_name := "Multi-Low Severity Elevation"; at_start_ts := default now (ce_ts <$> head events);
               at_last_ts := default now (ce_ts <$> last events); at_events := events;
               at_stages_matched := length events; at_stages_total := length events;
               at_confidence := f32_lit 75 100;
               at_layers := elements (list_to_set (ce_layer <$> events) : gset Layer); at_severity := High;
               at_summary := "Multi-vector reconnaissance from " +:+ ip +:+ ": " +:+
                 show (Z.of_nat (length kinds)) +:+ " different low-severity detectors in 10 minutes (" +:+
                 join ", " kinds +:+ ")" |})
  end.

(** ** The loader *)

Record RawCorrelationStage := {
  rcs_layer : option string;
  rcs_kind_patterns : list string;
  rcs_entity_must_match : bool;
}.
Record RawCorrelationRule := {
  rcr_id : string;
  rcr_name : string;
  rcr_severity : string;
  rcr_window_secs : Z;
  rcr_min_confidence : spec_float;
  rcr_stages : list RawCorrelationStage;
  rcr_disabled : bool;
}.
Record RuleFile := { rf_lists : gmap string (list string); rf_rules : list RawCorrelationRule }.

Inductive RuleError := UnknownSeverity (rule severity : string) | UnknownLayer (rule layer : string).

Definition parse_severity (s : string) : option Severity :=
  let s := to_ascii_lowercase s in
  if String.eqb s "critical" then Some Critical
  else if String.eqb s "high" then Some High
  else if String.eqb s "medium" then Some Medium
  else if String.eqb s "low" then Some Low
  else if String.eqb s "info" then Some Info
  else if String.eqb s "debug" then Some Debug
  else None.

Definition parse_layer (s : string) : option Layer :=
  let s := to_ascii_lowercase s in
  if String.eqb s "firmware" then Some Firmware
  else if String.eqb s "hypervisor" then Some Hypervisor
  else if String.eqb s "kernel" then Some Kernel
  else if String.eqb s "userspace" then Some Userspace
  else if String.eqb s "network" then Some Network
  else if String.eqb s "honeypot" then Some Honeypot
  else None.

Definition expand_list_refs (lists : gmap string (list string)) (patterns : list string) : list string :=
  p ← patterns;
  match strip_prefix "$" p with
  | Some name => match lists !! name with Some expanded => expanded | None => [p] end
  | None => [p]
  end.

Fixpoint compile_stages (lists : gmap string (list string)) (id : string) (stages : list RawCorrelationStage)
  : result (list RuleStage) RuleError :=
  match stages with
  | [] => Ok []
  | s :: rest =>
      match match rcs_layer s with
            | Some l => match parse_layer l with Some layer => Ok (Some layer) | None => Err (UnknownLayer id l) end
            | None => Ok None
            end with
      | Err e => Err e
      | Ok layer =>
          match compile_stages lists id rest with
          | Err e => Err e
          | Ok out =>
              Ok ({| rs_layer := layer; rs_kind_patterns := expand_list_refs lists (rcs_kind_patterns s);
                     rs_entity_must_match := rcs_entity_must_match s |} :: out)
          end
      end
  end.

Definition compile_rule (lists : gmap string (list string)) (raw : RawCorrelationRule)
  : result CorrelationRule RuleError :=
  match parse_severity (rcr_severity raw) with
  | None => Err (UnknownSeverity (rcr_id raw) (rcr_severity raw))
  | Some severity =>
      match compile_stages lists (rcr_id raw) (rcr_stages raw) with
      | Err e => Err e
      | Ok stages =>
          Ok {| ru_id := rcr_id raw; ru_name := rcr_name raw; ru_stages := stages;
                ru_window_secs := rcr_window_secs raw; ru_min_confidence := rcr_min_confidence raw;
                ru_severity := severity |}
      end
  end.

Fixpoint compile_rules (lists : gmap string (list string)) (raws : list RawCorrelationRule)
  : result (list CorrelationRule) RuleError :=
  match raws with
  | [] => Ok []
  | raw :: rest =>
      if rcr_disabled raw then compile_rules lists rest
      else
        match compile_rule lists raw with
        | Err e => Err e
        | Ok rule => match compile_rules lists rest with Err e => Err e | Ok out => Ok (rule :: out) end
        end
  end.

(** A file that was read; [Map ∪] keeps the lists of the left side. *)
Definition parse_file (external : gmap string (list string)) (rf : RuleFile) : result (list CorrelationRule) RuleError :=
  compile_rules (external ∪ rf_lists rf) (rf_rules rf).

Definition insert_rules (by_id : gmap string CorrelationRule) (rules : list CorrelationRule)
  : gmap string CorrelationRule :=
  foldl (fun m r => <[ru_id r := r]> m) by_id rules.

(** The files of the directory in order; [None] for one that cannot be read. *)
Fixpoint load_files (lists : gmap string (list string)) (by_id : gmap string CorrelationRule)
  (files : list (option RuleFile)) : gmap string CorrelationRule :=
  match files with
  | [] => by_id
  | None :: rest => load_files lists by_id rest
  | Some rf :: rest =>
      match parse_file lists rf with
      | Ok rules => load_files (lists ∪ rf_lists rf) (insert_rules by_id rules) rest
      | Err _ => load_files lists by_id rest
      end
  end.

Definition id_le (a b : CorrelationRule) : Prop := str_le (ru_id a) (ru_id b).
#[export] Instance id_le_dec : RelDecision id_le.
Proof. intros a b. unfold id_le, str_le. apply _. Defined.

Definition load_rules_dir (builtin : RuleFile) (files : list (option RuleFile)) : result (list CorrelationRule) RuleError :=
  match parse_file ∅ builtin with
  | Err e => Err e
  | Ok rules =>
      Ok (merge_sort id_le (snd <$> map_to_list (load_files (rf_lists builtin) (insert_rules ∅ rules) files)))
  end.

(** ** What a stage asks of an event *)

Lemma entity_key_inj a b : entity_key a = entity_key b -> a = b.
Proof.
  destruct a as [t v], b as [t' v']. unfold entity_key. destruct t, t'; cbn; intros E; try discriminate E;
  apply (inj (String.append _)), (inj (String.append _)) in E; by subst.
Qed.

(** The entities events name. *)
Definition named (events : list CorrelationEvent) : list EntityRef := events ≫= ce_entities.
Definition keys_of (events : list CorrelationEvent) : gset string := list_to_set (entity_key <$> named events).

(** An event fits a stage after [earlier] events of the same chain: the layer,
    one of the kinds, an entity of an earlier event where the stage asks for one
    and there is any, and a process that is not exempt. *)
Record fits (stage : RuleStage) (e : CorrelationEvent) (earlier : list CorrelationEvent) (rule_id : string) : Prop := {
  fit_layer : forall l, rs_layer stage = Some l -> ce_layer e = l;
  fit_kind : exists pattern, pattern ∈ rs_kind_patterns stage /\ kind_fits (ce_kind e) pattern = true;
  fit_entity : rs_entity_must_match stage = true -> named earlier <> [] ->
    exists r, r ∈ ce_entities e /\ r ∈ named earlier;
  fit_comm : event_comm_is_suppressed rule_id e = false;
}.

Lemma keys_of_empty events : keys_of events = ∅ <-> named events = [].
Proof.
  unfold keys_of. destruct (named events) as [|r l]; [done|]. split; [|done]. cbn. intros Hf. exfalso.
  apply (not_elem_of_empty (C := gset string) (entity_key r)). rewrite <- Hf. set_solver.
Qed.

Lemma keys_shared e earlier :
  ~ entity_keys e ## keys_of earlier <-> exists r, r ∈ ce_entities e /\ r ∈ named earlier.
Proof.
  split.
  - intros Hd. destruct (decide (Exists (fun r => r ∈ named earlier) (ce_entities e))) as [Hx|Hx].
    + apply Exists_exists in Hx as (r & ? & ?). by exists r.
    + exfalso. apply Hd. intros k Hk Hk'. unfold entity_keys, keys_of in Hk, Hk'.
      apply elem_of_list_to_set, list_elem_of_fmap in Hk as (r & -> & Hr).
      apply elem_of_list_to_set, list_elem_of_fmap in Hk' as (r' & E & Hr'). apply entity_key_inj in E as <-.
      apply Hx, Exists_exists. by exists r.
  - intros (r & Hr & Hr') Hd. apply (Hd (entity_key r)); unfold entity_keys, keys_of;
      apply elem_of_list_to_set, list_elem_of_fmap; by exists r.
Qed.

Lemma matches_stage_fits stage e earlier rule_id :
  matches_stage stage e (keys_of earlier) rule_id = true <-> fits stage e earlier rule_id.
Proof.
  unfold matches_stage. rewrite !andb_true_iff, !negb_true_iff, any_true. split.
  - intros [[[Hl Hk] He] Hc]. split; [|done| |done].
    + intros l Hs. rewrite Hs in Hl. by apply bool_decide_eq_true in Hl.
    + intros Hm Hn. rewrite Hm in He. cbn [andb] in He.
      rewrite (bool_decide_eq_true_2 (keys_of earlier <> ∅)) in He by (by rewrite keys_of_empty).
      apply bool_decide_eq_false in He. by apply keys_shared.
  - intros [Hl Hk He Hc]. split; [split; [split|]|done]; [|done|].
    + destruct (rs_layer stage); [|done]. apply bool_decide_eq_true. by apply Hl.
    + destruct (rs_entity_must_match stage); [|done]. cbn [andb].
      destruct (bool_decide_reflect (keys_of earlier <> ∅)) as [Hn|]; [|done]. rewrite keys_of_empty in Hn.
      apply bool_decide_eq_false, keys_shared. by apply He.
Qed.

Lemma named_app l l' : named (l ++ l') = named l ++ named l'.
Proof. apply bind_app. Qed.
Lemma keys_of_snoc events e : keys_of (events ++ [e]) = keys_of events ∪ entity_keys e.
Proof.
  unfold keys_of. rewrite named_app, fmap_app, list_to_set_app_L. f_equal. unfold named. cbn. by rewrite app_nil_r.
Qed.

(** ** Pending chains tell the truth *)

Lemma find_rule_Some rules id rule : find_rule rules id = Some rule -> rule ∈ rules /\ ru_id rule = id.
Proof. intros [H1 H2]%List.find_some. split; [by apply list_elem_of_In|by apply String.eqb_eq]. Qed.

Lemma find_rule_unique rules rule : NoDup (ru_id <$> rules) -> rule ∈ rules -> find_rule rules (ru_id rule) = Some rule.
Proof.
  intros Hn Hr. unfold find_rule. induction rules as [|r rules IH]; [by apply not_elem_of_nil in Hr|].
  cbn [fmap list_fmap] in Hn. apply NoDup_cons in Hn as [Hx Hn]. cbn. apply elem_of_cons in Hr as [->|Hr].
  - by rewrite String.eqb_refl.
  - destruct (String.eqb_spec (ru_id r) (ru_id rule)) as [E|]; [|by apply IH]. exfalso. apply Hx. rewrite E.
    by apply (list_elem_of_fmap_2 ru_id).
Qed.

Definition rule_window (rule : CorrelationRule) : Z := seconds (as_signed 64 (ru_window_secs rule)).

(** A prefix of a rule's stages is met by events of the stream, in its order. *)
Record staged (rule : CorrelationRule) (fed events : list CorrelationEvent) : Prop := {
  sg_fed : events `sublist_of` fed;
  sg_len : (length events <= length (ru_stages rule))%nat;
  sg_fits : forall i e stage, events !! i = Some e -> ru_stages rule !! i = Some stage ->
    fits stage e (take i events) (ru_id rule);
  sg_window : forall first e, head events = Some first -> e ∈ tail events -> ce_ts e < ce_ts first + rule_window rule;
}.

Record tracks (rules : list CorrelationRule) (fed : list CorrelationEvent) (p : PendingChain) (rule : CorrelationRule)
  : Prop := {
  tk_rule : find_rule rules (pc_rule_id p) = Some rule;
  tk_staged : staged rule fed (pc_events p);
  tk_keys : pc_entities p = keys_of (pc_events p);
  tk_next : pc_next_stage p = length (pc_events p);
  tk_start : exists first, head (pc_events p) = Some first /\ pc_started_at p = ce_ts first
    /\ pc_expires_at p = ce_ts first + rule_window rule;
}.

Lemma tracks_fed rules fed e p rule : tracks rules fed p rule -> tracks rules (fed ++ [e]) p rule.
Proof.
  intros [H1 [H2 H3 H4 H5] H6 H7 H8]. split; try done. split; try done. by apply sublist_inserts_r.
Qed.

Lemma advanced_tracks rules fed p rule e stage :
  tracks rules fed p rule -> ru_stages rule !! pc_next_stage p = Some stage ->
  matches_stage stage e (pc_entities p) (pc_rule_id p) = true -> ce_ts e < pc_expires_at p ->
  tracks rules (fed ++ [e]) (advanced p e) rule.
Proof.
  intros [H1 [H2 H3 H4 H5] H6 H7 (first & Hf & Hs & Hx)] Hst Hm Ht.
  rewrite H6 in Hm. apply matches_stage_fits in Hm. apply find_rule_Some in H1 as Hid. destruct Hid as [_ Hid].
  pose proof (lookup_lt_Some _ _ _ Hst) as Hlt. split; cbn [pc_rule_id pc_events pc_entities pc_next_stage
    pc_started_at pc_expires_at advanced]; [done| | | |].
  - split.
    + by apply sublist_app.
    + rewrite length_app. cbn. lia.
    + intros i e' s Hi Hs'. apply lookup_snoc_Some in Hi as [[Hi Hi']|[-> ->]].
      * rewrite take_app_le by lia. by apply H4.
      * rewrite <- H7 in Hs'. rewrite Hst in Hs'. injection Hs' as <-. rewrite take_app_length, Hid. exact Hm.
    + intros first' e' Hf' He'. destruct (pc_events p) as [|x l]; [done|]. injection Hf as ->. injection Hf' as ->.
      cbn in He'. apply elem_of_app in He' as [He'|He']; [by apply (H5 first')|].
      apply list_elem_of_singleton in He' as ->. lia.
  - by rewrite H6, keys_of_snoc.
  - rewrite length_app. cbn. lia.
  - exists first. split; [|done]. by destruct (pc_events p).
Qed.

Lemma advance_tracks rules fed p rule e :
  tracks rules fed p rule -> ce_ts e < pc_expires_at p ->
  tracks rules (fed ++ [e]) (advance rules e p).1 rule /\
  forall q, (advance rules e p).2 = Some q ->
    q = (advance rules e p).1 /\ length (pc_events q) = length (ru_stages rule) /\ e ∈ pc_events q.
Proof.
  intros Ht Hx. pose proof (tk_rule _ _ _ _ Ht) as Hr. unfold advance. rewrite Hr.
  destruct (ru_stages rule !! pc_next_stage p) as [stage|] eqn:Es; [|split; [by apply tracks_fed|done]].
  destruct (matches_stage stage e (pc_entities p) (pc_rule_id p)) eqn:Em; [|split; [by apply tracks_fed|done]].
  pose proof (advanced_tracks _ _ _ _ _ _ Ht Es Em Hx) as Ht'. cbn [fst snd]. split; [done|].
  intros q Hq. destruct (length (ru_stages rule) <=? pc_next_stage (advanced p e))%nat eqn:El; [|done].
  injection Hq as <-. split; [done|]. apply Nat.leb_le in El. rewrite (tk_next _ _ _ _ Ht') in El.
  pose proof (sg_len _ _ _ (tk_staged _ _ _ _ Ht')). split; [lia|]. cbn. set_solver.
Qed.

Lemma new_chain_tracks rules fed rule first e :
  NoDup (ru_id <$> rules) -> rule ∈ rules -> head (ru_stages rule) = Some first ->
  matches_stage first e ∅ (ru_id rule) = true -> tracks rules (fed ++ [e]) (new_chain rule e) rule.
Proof.
  intros Hn Hr Hf Hm. change ∅ with (keys_of []) in Hm. apply matches_stage_fits in Hm.
  split; cbn [new_chain pc_rule_id pc_events pc_entities pc_next_stage pc_started_at pc_expires_at].
  - by apply find_rule_unique.
  - split.
    + by apply sublist_inserts_l.
    + destruct (ru_stages rule); [done|]. cbn. lia.
    + intros [|i] e' s Hi Hs; [|done]. injection Hi as <-. rewrite <- head_lookup, Hf in Hs. by injection Hs as <-.
    + intros x y _ Hy. by apply not_elem_of_nil in Hy.
  - unfold keys_of, entity_keys, named. cbn. by rewrite app_nil_r.
  - done.
  - by exists e.
Qed.

Lemma started_spec rules e : Forall (fun r => ru_stages r <> []) rules ->
  exists new, started rules e = Some new /\
    forall p, p ∈ new <-> exists rule first, rule ∈ rules /\ head (ru_stages rule) = Some first /\
      matches_stage first e ∅ (ru_id rule) = true /\ p = new_chain rule e.
Proof.
  induction 1 as [|rule rules Hr _ (new & IH1 & IH2)]; [exists []; split; [done|]; set_solver|].
  cbn [started]. destruct (ru_stages rule) as [|first ss] eqn:Es; [done|]. cbn [head mbind option_bind].
  rewrite IH1. cbn [mbind option_bind]. eexists. split; [reflexivity|]. intros p.
  assert (p ∈ new <-> exists rule0 first0, rule0 ∈ rules /\ head (ru_stages rule0) = Some first0 /\
    matches_stage first0 e ∅ (ru_id rule0) = true /\ p = new_chain rule0 e) as IH by apply IH2. split.
  - intros Hp. destruct (matches_stage first e ∅ (ru_id rule)) eqn:Em.
    + apply elem_of_cons in Hp as [->|Hp].
      * exists rule, first. rewrite Es. split; [left|done].
      * apply IH in Hp as (r & f & Hin & ?). exists r, f. split; [by right|done].
    + apply IH in Hp as (r & f & Hin & ?). exists r, f. split; [by right|done].
  - intros (r & f & Hin & Hf & Hm & ->). apply elem_of_cons in Hin as [->|Hin].
    + rewrite Es in Hf. injection Hf as <-. rewrite Hm. left.
    + assert (new_chain r e ∈ new) by (apply IH; by exists r, f).
      destruct (matches_stage first e ∅ (ru_id rule)); [by right|done].
Qed.

(** ** Emitted chains tell the truth *)

#[local] Instance ts_le_total : Total ts_le.
Proof. intros a b. unfold ts_le. lia. Qed.
#[local] Instance ts_le_trans : Transitive ts_le.
Proof. intros a b c. unfold ts_le. lia. Qed.

Lemma sorted_bounds (l : list CorrelationEvent) first lst e :
  StronglySorted ts_le l -> head l = Some first -> last l = Some lst -> e ∈ l -> ce_ts first <= ce_ts e <= ce_ts lst.
Proof.
  intros Hs Hf Hl He. split.
  - destruct l as [|x l]; [done|]. injection Hf as ->. apply StronglySorted_inv in Hs as [_ Hx].
    apply elem_of_cons in He as [->|He]; [lia|]. rewrite Forall_forall in Hx. by apply Hx.
  - apply last_Some in Hl as [l' ->]. apply elem_of_app in He as [He|He].
    + apply (StronglySorted_app_1_elem_of ts_le l' [lst]); [done|done|left].
    + apply list_elem_of_singleton in He as ->. lia.
Qed.

(** What a chain says, against the rules and the stream so far. *)
Record chain_ok (rules : list CorrelationRule) (fed : list CorrelationEvent) (c : AttackChain)
  (rule : CorrelationRule) (events : list CorrelationEvent) : Prop := {
  ck_rule : rule ∈ rules /\ at_rule_id c = ru_id rule /\ at_rule_name c = ru_name rule
    /\ at_severity c = ru_severity rule;
  ck_staged : staged rule fed events;
  ck_complete : length events = length (ru_stages rule) /\ at_stages_matched c = length (ru_stages rule);
  ck_events : at_events c ≡ₚ events;
  ck_times : (forall e, e ∈ events -> at_start_ts c <= ce_ts e <= at_last_ts c)
    /\ at_start_ts c ∈ ce_ts <$> events /\ at_last_ts c ∈ ce_ts <$> events;
  ck_layers : NoDup (at_layers c) /\ (forall l, l ∈ at_layers c <-> l ∈ ce_layer <$> events)
    /\ at_confidence c = chain_confidence (length (at_layers c));
}.

Lemma chain_ok_fed rules fed e c rule events : chain_ok rules fed c rule events -> chain_ok rules (fed ++ [e]) c rule events.
Proof.
  intros [Hr [Hfed Hl Hfit Hw] Hc He Ht Hy]. split; try done. split; try done. by apply sublist_inserts_r.
Qed.

Lemma attack_chain_ok rules fed p rule n now :
  tracks rules fed p rule -> length (pc_events p) = length (ru_stages rule) ->
  chain_ok rules fed (attack_chain rule p n now) rule (pc_events p).
Proof.
  intros [Hr Hs Hk Hn (first & Hf & _)] Hl. apply find_rule_Some in Hr as [Hr _].
  pose proof (merge_sort_Permutation ts_le (pc_events p)) as Hp.
  assert (exists x y, head (merge_sort ts_le (pc_events p)) = Some x /\ last (merge_sort ts_le (pc_events p)) = Some y)
    as (x & y & Hx & Hy).
  { destruct (merge_sort ts_le (pc_events p)) as [|x l] eqn:E.
    - apply Permutation_nil_l in Hp. by rewrite <- Hp in Hf.
    - destruct (last (x :: l)) as [y|] eqn:El; [by exists x, y|]. by apply last_None in El. }
  assert (x ∈ pc_events p /\ y ∈ pc_events p) as [Hxi Hyi].
  { rewrite <- Hp. split; [by apply head_Some_elem_of|by apply last_Some_elem_of]. }
  split; cbn [attack_chain at_rule_id at_rule_name at_severity at_stages_matched at_events at_start_ts at_last_ts
    at_layers at_confidence]; rewrite ?Hx, ?Hy; cbn [fmap option_fmap option_map default from_option id]; try done.
  - split; [|split; by apply (list_elem_of_fmap_2 ce_ts)]. intros e He.
    apply (sorted_bounds (merge_sort ts_le (pc_events p)));
      [apply (StronglySorted_merge_sort ts_le)|done|done|by rewrite Hp].
  - split; [apply NoDup_elements|]. split; [|done]. intros l. rewrite elem_of_elements, elem_of_list_to_set. done.
Qed.

(** ** The emission of what an event completed *)

Definition complete (rules : list CorrelationRule) (fed : list CorrelationEvent) (e : CorrelationEvent)
  (q : PendingChain) : Prop :=
  exists rule, tracks rules fed q rule /\ length (pc_events q) = length (ru_stages rule) /\ e ∈ pc_events q.

(** A chain of a rule that was reported not before [t]. *)
Definition reported (chains : list AttackChain) (id : string) (t : Z) : Prop :=
  exists c, c ∈ chains /\ at_rule_id c = id /\ t <= at_last_ts c.

Definition colon_free (id : string) : Prop := first_piece ":" id = id.

(** What the cooldowns stand for. *)
Definition cooled (en : CorrelationEngine) (chains : list AttackChain) : Prop :=
  forall key x, en_cooldowns en !! key = Some x -> reported chains (first_piece ":" key) (x - seconds 600).

Lemma first_piece_app (id s : string) : colon_free id -> first_piece ":" (id +:+ ":" +:+ s) = id.
Proof.
  unfold colon_free, first_piece. induction id as [|a id IH]; [done|].
  change (String a id +:+ ":" +:+ s) with (String a (id +:+ ":" +:+ s)). cbn [split_on].
  destruct (Ascii.eqb a ":"); [done|]. destruct (split_on ":" id) as [|h t] eqn:E; [by apply split_on_nonempty in E|].
  intros [= Eh]. specialize (IH Eh).
  destruct (split_on ":" (id +:+ ":" +:+ s)) as [|h' t'] eqn:E'; [by apply split_on_nonempty in E'|]. by rewrite IH.
Qed.

Section Invariant.
Context (rules : list CorrelationRule) (Hids : NoDup (ru_id <$> rules)).

Record engine_ok (fed : list CorrelationEvent) (en : CorrelationEngine) (out : list AttackChain) : Prop := {
  eo_rules : en_rules en = rules;
  eo_pending : forall p, p ∈ en_pending en -> exists rule, tracks rules fed p rule;
  eo_chains : forall c, c ∈ out ++ en_completed en -> exists rule events, chain_ok rules fed c rule events;
  eo_ids : Z.of_nat (length (out ++ en_completed en)) < 2 ^ 64 - 1 ->
    en_next_id en = 1 + Z.of_nat (length (out ++ en_completed en)) /\
    at_chain_id <$> (out ++ en_completed en) = chain_id <$> seqZ 1 (Z.of_nat (length (out ++ en_completed en)));
}.

(** The cooldowns run on, and stand for chains that were reported. *)
Record cooling (now : Z) (en : CorrelationEngine) (out : list AttackChain) : Prop := {
  cl_running : forall key x, en_cooldowns en !! key = Some x -> now < x;
  cl_cooled : cooled en (out ++ en_completed en);
}.

Lemma reported_mono chains chains' id t t' :
  (forall c, c ∈ chains -> c ∈ chains') -> t' <= t -> reported chains id t -> reported chains' id t'.
Proof. intros Hs Ht (c & Hc & Hi & Hl). exists c. split; [by apply Hs|]. split; [done|lia]. Qed.

(** A completed chain either starts a report or meets a cooldown. *)
Lemma emit_cases pick now en q rule : find_rule (en_rules en) (pc_rule_id q) = Some rule ->
  let en' := emit pick now en q in
  (exists x, en_cooldowns en !! cooldown_key pick q = Some x) /\ en' = en \/
  en_rules en' = en_rules en /\ en_pending en' = retain (fun p => negb (same_start q p)) (en_pending en) /\
  en_completed en' = en_completed en ++ [attack_chain rule q (en_next_id en) now] /\
  en_cooldowns en' = <[cooldown_key pick q := now + seconds 600]> (en_cooldowns en) /\
  en_next_id en' = wrapping_add 64 (en_next_id en) 1.
Proof.
  intros Hr. unfold emit. rewrite Hr. cbv zeta. destruct (en_cooldowns en !! cooldown_key pick q) as [x|] eqn:E.
  - left. split; [by exists x|done].
  - by right.
Qed.

Lemma emit_ok pick fed e en out q : engine_ok fed en out -> complete rules fed e q ->
  engine_ok fed (emit pick (ce_ts e) en q) out.
Proof.
  intros Ho (rule & Ht & Hl & He). pose proof (tk_rule _ _ _ _ Ht) as Hr. rewrite <- (eo_rules _ _ _ Ho) in Hr.
  destruct (emit_cases pick (ce_ts e) en q rule Hr) as [[_ ->]|(H1 & H2 & H3 & H4 & H5)]; [done|].
  destruct Ho as [Ho1 Ho2 Ho3 Ho4]. split.
  - by rewrite H1.
  - intros p. rewrite H2, retain_elem. intros [Hp _]. by apply Ho2.
  - intros c. rewrite H3, app_assoc, elem_of_app, list_elem_of_singleton. intros [Hc|Hc]; [by apply Ho3|].
    subst c. exists rule, (pc_events q). by apply attack_chain_ok.
  - rewrite H3, app_assoc, length_app, H5. cbn [length]. intros Hlen.
    destruct Ho4 as [Hid Hids']; [lia|]. set (n := length (out ++ en_completed en)) in *. split.
    + rewrite Hid, wrapping_add_small by (unfold in_width; lia). lia.
    + rewrite fmap_app, Hids'. replace (Z.of_nat (n + 1)) with (Z.of_nat n + 1) by lia.
      rewrite seqZ_app, fmap_app by lia. cbn. by rewrite Hid.
Qed.

Lemma emit_cooling pick fed e en out q : Forall colon_free (ru_id <$> rules) ->
  engine_ok fed en out -> complete rules fed e q -> cooling (ce_ts e) en out ->
  cooling (ce_ts e) (emit pick (ce_ts e) en q) out /\
  reported (out ++ en_completed (emit pick (ce_ts e) en q)) (pc_rule_id q) (ce_ts e - seconds 600).
Proof.
  intros Hcf Ho (rule & Ht & Hl & He) [Hrun Hcool]. pose proof (tk_rule _ _ _ _ Ht) as Hr.
  destruct (find_rule_Some _ _ _ Hr) as [Hin Hid]. rewrite <- (eo_rules _ _ _ Ho) in Hr.
  assert (first_piece ":" (cooldown_key pick q) = pc_rule_id q) as Hfp.
  { apply first_piece_app. rewrite <- Hid. rewrite Forall_forall in Hcf. apply Hcf. by apply (list_elem_of_fmap_2 ru_id). }
  destruct (emit_cases pick (ce_ts e) en q rule Hr) as [[[x Hx] ->]|(H1 & H2 & H3 & H4 & H5)].
  - split; [done|]. pose proof (Hcool _ _ Hx) as Hrep. rewrite Hfp in Hrep.
    apply (reported_mono (out ++ en_completed en) _ _ (x - seconds 600)); [done| |done]. specialize (Hrun _ _ Hx). lia.
  - set (c := attack_chain rule q (en_next_id en) (ce_ts e)) in *.
    assert (ce_ts e <= at_last_ts c) as Hlast.
    { eapply (ck_times _ _ _ _ _ (attack_chain_ok rules fed q rule (en_next_id en) (ce_ts e) Ht Hl)). exact He. }
    assert (reported (out ++ en_completed (emit pick (ce_ts e) en q)) (pc_rule_id q) (ce_ts e)) as Hrep.
    { exists c. rewrite H3. split; [set_solver|]. split; [exact Hid|lia]. }
    split; [|eapply reported_mono; [done| |exact Hrep]; unfold seconds, NANOS_PER_SEC; lia]. split.
    + intros key x. rewrite H4. intros Hx. apply lookup_insert_Some in Hx as [[_ <-]|[_ Hx]]; [|by apply (Hrun key)].
      unfold seconds, NANOS_PER_SEC. lia.
    + intros key x. rewrite H4. intros Hx. apply lookup_insert_Some in Hx as [[<- <-]|[_ Hx]].
      * rewrite Hfp. eapply reported_mono; [done| |exact Hrep]. lia.
      * eapply reported_mono; [|reflexivity|exact (Hcool _ _ Hx)]. rewrite H3. set_solver.
Qed.

(** A pending chain is dropped only for a report of its rule. *)
Lemma emit_keeps pick fed e en out q p : engine_ok fed en out -> complete rules fed e q -> p ∈ en_pending en ->
  p ∈ en_pending (emit pick (ce_ts e) en q) \/
  reported (out ++ en_completed (emit pick (ce_ts e) en q)) (pc_rule_id p) (pc_started_at p).
Proof.
  intros Ho (rule & Ht & Hl & He) Hp. pose proof (tk_rule _ _ _ _ Ht) as Hr. destruct (find_rule_Some _ _ _ Hr) as [_ Hid].
  rewrite <- (eo_rules _ _ _ Ho) in Hr.
  destruct (emit_cases pick (ce_ts e) en q rule Hr) as [[_ ->]|(H1 & H2 & H3 & H4 & H5)]; [by left|].
  destruct (same_start q p) eqn:Es.
  - right. unfold same_start in Es. apply andb_true_iff in Es as [Ei%String.eqb_eq Es%Z.eqb_eq].
    eexists. rewrite H3. split; [rewrite app_assoc; apply elem_of_app; right; left|]. split; [by rewrite Ei|].
    destruct (tk_start _ _ _ _ Ht) as (first & Hf & Hst & _). rewrite Es, Hst.
    eapply (ck_times _ _ _ _ _ (attack_chain_ok rules fed q rule (en_next_id en) (ce_ts e) Ht Hl)).
    by apply head_Some_elem_of.
  - left. rewrite H2, retain_elem. by rewrite Es.
Qed.

Lemma emit_grows pick now en q c : c ∈ en_completed en -> c ∈ en_completed (emit pick now en q).
Proof. unfold emit. repeat case_match; cbn; set_solver. Qed.
Lemma emit_fold pick fed e qs en out :
  Forall (complete rules fed e) qs -> engine_ok fed en out ->
  let en' := foldl (emit pick (ce_ts e)) en qs in
  engine_ok fed en' out /\
  (forall p, p ∈ en_pending en -> p ∈ en_pending en' \/
     reported (out ++ en_completed en') (pc_rule_id p) (pc_started_at p)) /\
  (forall c, c ∈ en_completed en -> c ∈ en_completed en') /\
  (Forall colon_free (ru_id <$> rules) -> cooling (ce_ts e) en out ->
   cooling (ce_ts e) en' out /\
   forall q, q ∈ qs -> reported (out ++ en_completed en') (pc_rule_id q) (ce_ts e - seconds 600)).
Proof.
  cbv zeta. intros Hqs. revert en. induction Hqs as [|q qs Hq Hqs IH]; intros en Ho; cbn [foldl].
  { split; [done|]. split; [by left|]. split; [done|]. intros _ Hc. split; [done|]. intros q Hq. set_solver. }
  destruct (IH _ (emit_ok pick fed e en out q Ho Hq)) as (Ho' & Hk & Hg & Hc).
  assert (forall c, c ∈ out ++ en_completed (emit pick (ce_ts e) en q) ->
    c ∈ out ++ en_completed (foldl (emit pick (ce_ts e)) (emit pick (ce_ts e) en q) qs)) as Hmono.
  { intros c. rewrite !elem_of_app. intros [?|?]; [by left|right; by apply Hg]. }
  split; [done|]. split; [|split].
  - intros p Hp. destruct (emit_keeps pick fed e en out q p Ho Hq Hp) as [Hp'|Hr]; [by apply Hk|].
    right. exact (reported_mono _ _ _ _ _ Hmono (Z.le_refl _) Hr).
  - intros c Hc'. by apply Hg, emit_grows.
  - intros Hcf Hcool. destruct (emit_cooling pick fed e en out q Hcf Ho Hq Hcool) as [Hcool' Hrep].
    destruct (Hc Hcf Hcool') as [Hcool'' Hreps]. split; [done|]. intros q' Hq'. apply elem_of_cons in Hq' as [->|Hq'].
    + exact (reported_mono _ _ _ _ _ Hmono (Z.le_refl _) Hrep).
    + by apply Hreps.
Qed.

Lemma advance_same e p : pc_rule_id (advance rules e p).1 = pc_rule_id p /\
  pc_started_at (advance rules e p).1 = pc_started_at p.
Proof. unfold advance. by repeat case_match. Qed.

Lemma expire_cooling en out e : cooled en (out ++ en_completed en) -> cooling (ce_ts e) (expire en (ce_ts e)) out.
Proof.
  intros Hc. split.
  - intros key x Hx. apply map_lookup_filter_Some in Hx as [_ Hx]. exact Hx.
  - intros key x Hx. apply map_lookup_filter_Some in Hx as [Hx _]. by apply Hc.
Qed.

(** The turn of the pending chains. *)
Lemma observe_pending_ok pick fed en out e : engine_ok fed en out ->
  let en' := observe_pending pick en e in
  engine_ok (fed ++ [e]) en' out /\
  (forall c, c ∈ en_completed en -> c ∈ en_completed en') /\
  (forall p, p ∈ en_pending en -> ce_ts e < pc_expires_at p -> (advance rules e p).1 ∈ en_pending en' \/
     reported (out ++ en_completed en') (pc_rule_id p) (pc_started_at p)) /\
  (Forall colon_free (ru_id <$> rules) -> cooled en (out ++ en_completed en) ->
   cooled en' (out ++ en_completed en') /\
   forall p q, p ∈ en_pending en -> ce_ts e < pc_expires_at p -> (advance rules e p).2 = Some q ->
     reported (out ++ en_completed en') (pc_rule_id p) (ce_ts e - seconds 600)).
Proof.
  intros Ho. cbv zeta. unfold observe_pending. set (en1 := expire en (ce_ts e)).
  change (en_rules en1) with (en_rules en). rewrite (eo_rules _ _ _ Ho).
  set (turns := advance rules e <$> en_pending en1).
  assert (forall p, p ∈ en_pending en1 <-> p ∈ en_pending en /\ ce_ts e < pc_expires_at p) as Hp1.
  { intros p. unfold en1. cbn [en_pending expire]. by rewrite retain_elem, Z.ltb_lt. }
  assert (forall p, p ∈ en_pending en1 -> exists rule, tracks rules fed p rule /\ ce_ts e < pc_expires_at p) as Htr.
  { intros p [Hp Hx]%Hp1. destruct (eo_pending _ _ _ Ho p Hp) as [rule ?]. by exists rule. }
  assert (engine_ok (fed ++ [e]) (set_pending en1 turns.*1) out) as Ho1.
  { destruct Ho as [Ho1 Ho2 Ho3 Ho4]. split; [done| | |done].
    - intros p Hp. cbn [en_pending set_pending] in Hp. apply list_elem_of_fmap in Hp as (t & -> & Ht).
      apply list_elem_of_fmap in Ht as (p & -> & Hp). destruct (Htr p Hp) as (rule & Ht & Hx). exists rule.
      by apply advance_tracks.
    - intros c Hc. destruct (Ho3 c Hc) as (rule & events & ?). exists rule, events. by apply chain_ok_fed. }
  assert (Forall (complete rules (fed ++ [e]) e) (omap snd turns)) as Hqs.
  { apply Forall_forall. intros q Hq. apply list_elem_of_omap in Hq as (t & Ht & Hq).
    apply list_elem_of_fmap in Ht as (p & -> & Hp). destruct (Htr p Hp) as (rule & Ht & Hx).
    destruct (advance_tracks rules fed p rule e Ht Hx) as [Ht' Hq']. destruct (Hq' q Hq) as (-> & Hl & He).
    by exists rule. }
  destruct (emit_fold pick (fed ++ [e]) e _ _ out Hqs Ho1) as (Ho' & Hk & Hg & Hc).
  split; [done|]. split; [exact Hg|]. split.
  - intros p Hp Hx. destruct (advance_same e p) as [Ei Es]. rewrite <- Ei, <- Es. apply Hk.
    cbn [en_pending set_pending]. apply (list_elem_of_fmap_2 fst), (list_elem_of_fmap_2 (advance rules e)). by apply Hp1.
  - intros Hcf Hcool. assert (cooling (ce_ts e) (set_pending en1 turns.*1) out) as Hcl
      by (destruct (expire_cooling en out e Hcool); by split).
    destruct (Hc Hcf Hcl) as [Hcool' Hreps].
    split; [apply Hcool'|]. intros p q Hp Hx Hq. destruct (advance_same e p) as [Ei _].
    assert (p ∈ en_pending en1) as Hp' by (by apply Hp1). destruct (Htr p Hp') as (rule & Ht & _).
    destruct (advance_tracks rules fed p rule e Ht Hx) as [_ Hq']. destruct (Hq' q Hq) as (Eq & _ & _).
    rewrite <- Ei, <- Eq. apply Hreps. apply list_elem_of_omap. exists (advance rules e p). split; [|done].
    by apply (list_elem_of_fmap_2 (advance rules e)).
Qed.

Context (Hstages : Forall (fun r => ru_stages r <> []) rules).

Lemma observe_ok pick fed en out e : engine_ok fed en out ->
  exists en', observe pick en e = Some en' /\ engine_ok (fed ++ [e]) en' out /\
    en_completed en' = en_completed (observe_pending pick en e) /\
    en_cooldowns en' = en_cooldowns (observe_pending pick en e) /\
    (forall p, p ∈ en_pending (observe_pending pick en e) -> p ∈ en_pending en') /\
    (forall rule first, rule ∈ rules -> head (ru_stages rule) = Some first ->
       matches_stage first e ∅ (ru_id rule) = true -> new_chain rule e ∈ en_pending en').
Proof.
  intros Ho. destruct (observe_pending_ok pick fed en out e Ho) as (Ho' & _). unfold observe. cbv zeta.
  set (en1 := observe_pending pick en e) in *. rewrite (eo_rules _ _ _ Ho').
  destruct (started_spec rules e Hstages) as (new & -> & Hnew). cbn [mbind option_bind].
  eexists. split; [reflexivity|]. destruct Ho' as [H1 H2 H3 H4].
  split; [split; [exact H1| |exact H3|exact H4]|split; [done|split; [done|split]]].
  - intros p Hp. cbn [en_pending push_window set_pending] in Hp. apply elem_of_app in Hp as [Hp|Hp]; [by apply H2|].
    apply Hnew in Hp as (rule & first & Hr & Hf & Hm & ->). exists rule. by apply (new_chain_tracks _ _ _ first).
  - intros p Hp. cbn. set_solver.
  - intros rule first Hr Hf Hm. cbn. apply elem_of_app. right. apply Hnew. by exists rule, first.
Qed.
End Invariant.

(** ** Runs of the engine *)

Inductive EngineOp := OObserve (pick : PendingChain -> option string) (event : CorrelationEvent) | ODrain.

Definition fed (ops : list EngineOp) : list CorrelationEvent :=
  omap (fun op => match op with OObserve _ e => Some e | ODrain => None end) ops.

(** The engine, and the chains drained from it so far. *)
Definition run_op (st : CorrelationEngine * list AttackChain) (op : EngineOp)
  : option (CorrelationEngine * list AttackChain) :=
  match op with
  | OObserve pick e => (fun en => (en, st.2)) <$> observe pick st.1 e
  | ODrain => let '(en, chains) := drain_completed st.1 in Some (en, st.2 ++ chains)
  end.

Fixpoint run_engine (st : CorrelationEngine * list AttackChain) (ops : list EngineOp)
  : option (CorrelationEngine * list AttackChain) :=
  match ops with [] => Some st | op :: ops => st ← run_op st op; run_engine st ops end.

Definition chains_of (st : CorrelationEngine * list AttackChain) : list AttackChain := st.2 ++ en_completed st.1.

Lemma chain_id_inj a b : 0 <= a -> 0 <= b -> chain_id a = chain_id b -> a = b.
Proof. intros Ha Hb E. apply (inj (String.append _)) in E. by apply (pad0_show_inj 4). Qed.

Lemma chain_ids_unique n : NoDup (chain_id <$> seqZ 1 (Z.of_nat n)).
Proof.
  apply NoDup_fmap_2_strong; [|apply NoDup_seqZ]. intros a b Ha%elem_of_seqZ Hb%elem_of_seqZ. apply chain_id_inj; lia.
Qed.

Section Runs.
Context (rules : list CorrelationRule) (Hids : NoDup (ru_id <$> rules)).
Context (Hstages : Forall (fun r => ru_stages r <> []) rules).

Lemma start_ok : engine_ok rules [] (with_rules rules) [].
Proof.
  split; [done|intros p Hp; by apply not_elem_of_nil in Hp|intros c Hc; by apply not_elem_of_nil in Hc|].
  intros _. by split.
Qed.

Lemma drain_ok before en out : engine_ok rules before en out ->
  engine_ok rules before (drain_completed en).1 (out ++ (drain_completed en).2).
Proof. intros [H1 H2 H3 H4]. split; cbn; rewrite ?app_nil_r; done. Qed.

Lemma run_ok ops : forall before st, engine_ok rules before st.1 st.2 ->
  exists st', run_engine st ops = Some st' /\ engine_ok rules (before ++ fed ops) st'.1 st'.2.
Proof.
  induction ops as [|[pick e|] ops IH]; intros before [en out] Ho; cbn [run_engine].
  - exists (en, out). split; [done|]. unfold fed. cbn. by rewrite app_nil_r.
  - destruct (observe_ok rules Hids Hstages pick before en out e Ho) as (en' & He & Ho' & _). cbn [run_op fst snd] in *.
    rewrite He. cbn [fmap option_fmap option_map mbind option_bind].
    destruct (IH (before ++ [e]) (en', out) Ho') as (st' & Hr & Hs). exists st'. split; [done|].
    unfold fed in *. cbn [omap list_omap]. by rewrite <- app_assoc in Hs.
  - cbn [run_op]. destruct (IH before ((drain_completed en).1, out ++ (drain_completed en).2) (drain_ok _ _ _ Ho))
      as (st' & Hr & Hs). exists st'. split; [exact Hr|exact Hs].
Qed.

(** ** Two-stage attacks are reported *)

Lemma run_engine_app st ops ops' : run_engine st (ops ++ ops') = (run_engine st ops ≫= fun st' => run_engine st' ops').
Proof. revert st. induction ops as [|op ops IH]; intros st; [done|]. cbn. destruct (run_op st op); [apply IH|done]. Qed.

Context (Hcolon : Forall colon_free (ru_id <$> rules)).

(** Every state of a run, with what its cooldowns stand for. *)
Definition run_state (before : list CorrelationEvent) (st : CorrelationEngine * list AttackChain) : Prop :=
  engine_ok rules before st.1 st.2 /\ cooled st.1 (chains_of st).

Lemma run_state_op before st op : run_state before st ->
  exists st', run_op st op = Some st' /\ run_state (before ++ fed [op]) st'.
Proof.
  destruct st as [en out]. intros [Ho Hc]. destruct op as [pick e|]; cbn [run_op fst snd] in *.
  - destruct (observe_ok rules Hids Hstages pick before en out e Ho) as (en' & He & Ho' & Ec & Ek & _).
    destruct (observe_pending_ok rules Hids pick before en out e Ho) as (_ & _ & _ & Hcl).
    destruct (Hcl Hcolon Hc) as [Hc' _]. rewrite He. eexists. split; [reflexivity|]. split; [exact Ho'|].
    unfold chains_of. cbn [fst snd]. intros key x. rewrite Ek, Ec. apply Hc'.
  - eexists. split; [reflexivity|]. split; [unfold fed; cbn [omap list_omap fst snd]; rewrite app_nil_r; by apply drain_ok|].
    unfold chains_of in *. cbn. rewrite app_nil_r. exact Hc.
Qed.

Lemma run_state_ops ops : forall before st, run_state before st ->
  exists st', run_engine st ops = Some st' /\ run_state (before ++ fed ops) st'.
Proof.
  induction ops as [|op ops IH]; intros before st Hs; cbn [run_engine].
  - exists st. split; [done|]. unfold fed. cbn. by rewrite app_nil_r.
  - destruct (run_state_op before st op Hs) as (st1 & -> & Hs1). cbn [mbind option_bind].
    destruct (IH _ st1 Hs1) as (st' & Hr & Hs'). exists st'. split; [done|].
    unfold fed in *. rewrite <- app_assoc in Hs'. destruct op; exact Hs'.
Qed.

Context (rule : CorrelationRule) (s1 s2 : RuleStage) (e1 : CorrelationEvent).
Context (Hrule : rule ∈ rules) (Htwo : ru_stages rule = [s1; s2]) (Hfit1 : fits s1 e1 [] (ru_id rule)).

Definition settled (st : CorrelationEngine * list AttackChain) : Prop :=
  reported (chains_of st) (ru_id rule) (ce_ts e1 - seconds 600).
Definition waiting (st : CorrelationEngine * list AttackChain) : Prop :=
  new_chain rule e1 ∈ en_pending st.1 \/ settled st.

(** The chain that [e1] opened, at an event within its window. *)
Lemma waiting_observe before st pick e : run_state before st -> waiting st ->
  ce_ts e1 <= ce_ts e < ce_ts e1 + rule_window rule ->
  exists st', run_op st (OObserve pick e) = Some st' /\ waiting st' /\ (fits s2 e [e1] (ru_id rule) -> settled st').
Proof.
  destruct st as [en out]. intros [Ho Hc] Hw Ht. cbn [run_op fst snd] in *.
  destruct (observe_ok rules Hids Hstages pick before en out e Ho) as (en' & He & _ & Ec & _ & Hk & _).
  destruct (observe_pending_ok rules Hids pick before en out e Ho) as (_ & Hg & Hadv & Hcl).
  destruct (Hcl Hcolon Hc) as [_ Hrep]. rewrite He. eexists. split; [reflexivity|].
  unfold waiting, settled, chains_of in *. cbn [fst snd] in *. rewrite Ec.
  assert (0 <= seconds 600) as Hpos by done.
  assert (forall t, ce_ts e1 - seconds 600 <= t ->
    reported (out ++ en_completed (observe_pending pick en e)) (ru_id rule) t ->
    reported (out ++ en_completed (observe_pending pick en e)) (ru_id rule) (ce_ts e1 - seconds 600)) as Hlate
    by (intros t Hl; by apply reported_mono).
  destruct Hw as [Hp|Hs].
  2: { assert (reported (out ++ en_completed (observe_pending pick en e)) (ru_id rule) (ce_ts e1 - seconds 600)) as Hs'.
       { apply (reported_mono (out ++ en_completed en) _ _ (ce_ts e1 - seconds 600)); [|lia|done].
         intros c. rewrite !elem_of_app. intros [?|?]; [by left|right; by apply Hg]. }
       split; [by right|done]. }
  assert (ce_ts e < pc_expires_at (new_chain rule e1)) as Hx by (cbn; unfold rule_window in Ht; lia).
  specialize (Hadv _ Hp Hx). specialize (Hrep _ (advanced (new_chain rule e1) e) Hp Hx).
  unfold advance in Hadv, Hrep. change (pc_rule_id (new_chain rule e1)) with (ru_id rule) in *.
  rewrite (find_rule_unique rules rule Hids Hrule), Htwo in Hadv, Hrep.
  change ([s1; s2] !! pc_next_stage (new_chain rule e1)) with (Some s2) in *. cbv iota in Hadv, Hrep.
  replace (pc_entities (new_chain rule e1)) with (keys_of [e1]) in Hadv, Hrep
    by (unfold keys_of, named, entity_keys; cbn; by rewrite app_nil_r).
  destruct (matches_stage s2 e (keys_of [e1]) (ru_id rule)) eqn:Em.
  - specialize (Hrep eq_refl). apply Hlate in Hrep; [|lia]. split; [by right|done].
  - split.
    + cbn [fst] in Hadv. destruct Hadv as [Hp'|Hr]; [left; by apply Hk|right]. apply (Hlate (ce_ts e1)); [lia|exact Hr].
    + intros Hf. apply matches_stage_fits in Hf. congruence.
Qed.

Lemma waiting_ops ops : forall before st, run_state before st -> waiting st ->
  Forall (fun e => ce_ts e1 <= ce_ts e < ce_ts e1 + rule_window rule) (fed ops) ->
  exists st', run_engine st ops = Some st' /\ run_state (before ++ fed ops) st' /\ waiting st'.
Proof.
  induction ops as [|op ops IH]; intros before st Hs Hw Hf; cbn [run_engine].
  - exists st. split; [done|]. unfold fed. cbn. by rewrite app_nil_r.
  - destruct (run_state_op before st op Hs) as (st1 & E1 & Hs1).
    assert (waiting st1 /\ Forall (fun e => ce_ts e1 <= ce_ts e < ce_ts e1 + rule_window rule) (fed ops)) as [Hw1 Hf1].
    { destruct op as [pick e|].
      - apply Forall_cons in Hf as [Ht Hf]. destruct (waiting_observe before st pick e Hs Hw Ht) as (st2 & E2 & Hw2 & _).
        split; [congruence|exact Hf].
      - split; [|exact Hf]. destruct st as [en out]. cbn in E1. injection E1 as <-.
        unfold waiting, settled, chains_of in *. cbn in *. by rewrite app_nil_r. }
    rewrite E1. cbn [mbind option_bind]. destruct (IH _ st1 Hs1 Hw1 Hf1) as (st' & Hr & Hs' & Hw').
    exists st'. split; [done|]. split; [|done]. unfold fed in *. rewrite <- app_assoc in Hs'. destruct op; exact Hs'.
Qed.
End Runs.

(** C11. The chains the engine reports are true: with rules of distinct ids that
    have stages, the engine takes every stream of events, drained as often as
    one likes and whatever order the hash sets have, and each chain it reports
    was met by the stream: a rule of the engine, for each of its stages in turn
    one event of the stream, in the order of the stream, of the layer, a kind
    and a process the stage admits, which names an entity of an earlier event
    where the stage asks for one and the earlier events name any, all within the
    window of the first; the times, the layers and the confidence are those of
    the events; and no two chains have the same id. *)
Theorem chains_sound rules ops :
  NoDup (ru_id <$> rules) -> Forall (fun r => ru_stages r <> []) rules ->
  exists st, run_engine (with_rules rules, []) ops = Some st /\
    (forall c, c ∈ chains_of st -> exists rule events, chain_ok rules (fed ops) c rule events) /\
    (Z.of_nat (length (chains_of st)) < 2 ^ 64 - 1 -> NoDup (at_chain_id <$> chains_of st)).
Proof.
  intros Hids Hst. destruct (run_ok rules Hids Hst ops [] (with_rules rules, []) (start_ok rules)) as (st & Hr & Ho).
  exists st. split; [done|]. split; [apply (eo_chains _ _ _ _ Ho)|]. intros Hn.
  destruct (eo_ids _ _ _ _ Ho Hn) as [_ E]. unfold chains_of. rewrite E. apply chain_ids_unique.
Qed.

(** No two-stage attack goes unreported: when an event that fits the first
    stage of a two-stage rule is followed, within the window, by one that fits
    the second after it, and the events between lie between them in time, then
    by then the engine has reported a chain of that rule, this one or another
    that was complete at most ten minutes before the first event, whatever other
    events and drains there were and whatever order the hash sets have. *)
Theorem two_stage_reported rules ops1 pick1 e1 ops2 pick2 e2 rule s1 s2 :
  NoDup (ru_id <$> rules) -> Forall (fun r => ru_stages r <> []) rules -> Forall colon_free (ru_id <$> rules) ->
  rule ∈ rules -> ru_stages rule = [s1; s2] -> fits s1 e1 [] (ru_id rule) -> fits s2 e2 [e1] (ru_id rule) ->
  ce_ts e1 <= ce_ts e2 < ce_ts e1 + rule_window rule ->
  Forall (fun e => ce_ts e1 <= ce_ts e <= ce_ts e2) (fed ops2) ->
  exists st c, run_engine (with_rules rules, []) (ops1 ++ OObserve pick1 e1 :: ops2 ++ [OObserve pick2 e2]) = Some st /\
    c ∈ chains_of st /\ at_rule_id c = ru_id rule /\ ce_ts e1 - seconds 600 <= at_last_ts c.
Proof.
  intros Hids Hst Hcol Hr Htwo Hf1 Hf2 Ht Hb.
  assert (run_state rules [] (with_rules rules, [])) as H0
    by (split; [apply start_ok|intros key x Hx; cbn in Hx; by rewrite lookup_empty in Hx]).
  destruct (run_state_ops rules Hids Hst Hcol ops1 [] _ H0) as (st1 & E1 & H1).
  destruct (run_state_op rules Hids Hst Hcol _ st1 (OObserve pick1 e1) H1) as (st2 & E2 & H2).
  assert (waiting rule e1 st2) as Hw.
  { left. destruct st1 as [en out]. destruct H1 as [Ho _].
    destruct (observe_ok rules Hids Hst pick1 _ en out e1 Ho) as (en' & He & _ & _ & _ & _ & Hn).
    cbn [run_op fst snd] in E2. rewrite He in E2. injection E2 as <-. apply (Hn rule s1); [done|by rewrite Htwo|].
    by apply (matches_stage_fits s1 e1 []). }
  destruct (waiting_ops rules Hids Hst Hcol rule s1 s2 e1 Hr Htwo ops2 _ st2 H2 Hw) as (st3 & E3 & H3 & Hw3).
  { eapply Forall_impl; [exact Hb|]. cbn. lia. }
  destruct (waiting_observe rules Hids Hst Hcol rule s1 s2 e1 Hr Htwo _ st3 pick2 e2 H3 Hw3 Ht)
    as (st4 & E4 & _ & Hs). destruct (Hs Hf2) as (c & Hc & Hi & Hl).
  exists st4, c. split; [|done]. rewrite run_engine_app, E1. cbn [mbind option_bind run_engine]. rewrite E2.
  cbn [mbind option_bind]. rewrite run_engine_app, E3. cbn [mbind option_bind run_engine]. by rewrite E4.
Qed.

(** ** Low events of one address *)

(** The events that name an address, once for each time they do. *)
Definition named_by (ip : string) (events : list CorrelationEvent) : list CorrelationEvent :=
  events ≫= fun e => (fun _ => e) <$> retain (String.eqb ip) (event_ips e).

Lemma group_lookup (e : CorrelationEvent) ips ip : forall m : gmap string (list CorrelationEvent),
  default [] (foldl (fun m ip => <[ip := default [] (m !! ip) ++ [e]]> m) m ips !! ip)
  = default [] (m !! ip) ++ ((fun _ => e) <$> retain (String.eqb ip) ips).
Proof.
  induction ips as [|i ips IH]; intros m; cbn [foldl]; [by rewrite app_nil_r|]. rewrite IH. unfold retain. cbn [List.filter].
  destruct (String.eqb_spec ip i) as [->|Hne].
  - rewrite lookup_insert_eq. cbn. by rewrite <- app_assoc.
  - by rewrite lookup_insert_ne by done.
Qed.

Lemma ip_detectors_lookup events ip : default [] (ip_detectors events !! ip) = named_by ip events.
Proof.
  unfold ip_detectors.
  assert (forall m : gmap string (list CorrelationEvent), default [] (foldl (fun m e => foldl (fun m ip =>
    <[ip := default [] (m !! ip) ++ [e]]> m) m (event_ips e)) m events !! ip) = default [] (m !! ip) ++ named_by ip events)
    as H; [|rewrite H; by rewrite lookup_empty].
  induction events as [|e events IH]; intros m; cbn [foldl]; [by rewrite app_nil_r|].
  rewrite IH, group_lookup, <- app_assoc. done.
Qed.

(** The elevation of low events is exact: it reports an address exactly when
    one that has no running cooldown was named by low events of three kinds
    within the last ten minutes of the window, with these events, and then
    starts the cooldown of that address; otherwise it changes nothing. *)
Theorem multi_low_exact now en :
  let key ip := "CL-010:ip:" +:+ ip in
  let kinds ip := unique_kinds (named_by ip (low_events now en)) in
  let '(en', r) := check_multi_low_elevation now en in
  match r with
  | Some c => exists ip, (3 <= size (kinds ip))%nat /\ en_cooldowns en !! key ip = None
      /\ at_rule_id c = "CL-010" /\ at_events c = named_by ip (low_events now en)
      /\ at_chain_id c = chain_id (en_next_id en)
      /\ en_cooldowns en' = <[key ip := now + seconds 600]> (en_cooldowns en)
  | None => en' = en /\ forall ip, (3 <= size (kinds ip))%nat -> is_Some (en_cooldowns en !! key ip)
  end.
Proof.
  cbv zeta. unfold check_multi_low_elevation.
  destruct (List.find (elevates en) (map_to_list (ip_detectors (low_events now en)))) as [[ip events]|] eqn:E.
  - apply List.find_some in E as [Hin He]. apply list_elem_of_In, elem_of_map_to_list in Hin.
    pose proof (ip_detectors_lookup (low_events now en) ip) as Hl. rewrite Hin in Hl. cbn in Hl. subst events.
    unfold elevates in He. apply andb_true_iff in He as [Hk%Nat.leb_le Hc%bool_decide_eq_true]. by exists ip.
  - split; [done|]. intros ip Hk.
    assert (ip_detectors (low_events now en) !! ip = Some (named_by ip (low_events now en))) as Hl.
    { pose proof (ip_detectors_lookup (low_events now en) ip) as Hl.
      destruct (ip_detectors (low_events now en) !! ip) as [evs|]; [by rewrite <- Hl|]. exfalso. rewrite <- Hl in Hk.
      unfold unique_kinds in Hk. cbn [default from_option fmap list_fmap list_to_set] in Hk. rewrite size_empty in Hk. lia. }
    apply elem_of_map_to_list, list_elem_of_In in Hl. pose proof (List.find_none _ _ E _ Hl) as Hn.
    unfold elevates in Hn. apply andb_false_iff in Hn as [Hn|Hn].
    + apply Nat.leb_gt in Hn. cbn [snd] in Hn. change (length (elements ?X)) with (size X) in Hn. lia.
    + apply bool_decide_eq_false in Hn. by apply not_eq_None_Some in Hn.
Qed.

(** ** The rules that are loaded *)

(** The rules of the files that compile, in their order. *)
Fixpoint loaded_rules (lists : gmap string (list string)) (files : list (option RuleFile)) : list CorrelationRule :=
  match files with
  | [] => []
  | None :: rest => loaded_rules lists rest
  | Some rf :: rest =>
      match parse_file lists rf with
      | Ok rules => rules ++ loaded_rules (lists ∪ rf_lists rf) rest
      | Err _ => loaded_rules lists rest
      end
  end.
Definition last_with (id : string) (rules : list CorrelationRule) : option CorrelationRule :=
  last (retain (fun r => String.eqb (ru_id r) id) rules).

Lemma load_files_loaded files : forall lists m, load_files lists m files = insert_rules m (loaded_rules lists files).
Proof.
  induction files as [|[rf|] files IH]; intros lists m; cbn [load_files loaded_rules]; [done| |apply IH].
  destruct (parse_file lists rf) as [rules|]; [|apply IH]. rewrite IH. unfold insert_rules. by rewrite foldl_app.
Qed.

Lemma insert_rules_lookup rules id : insert_rules ∅ rules !! id = last_with id rules.
Proof.
  unfold insert_rules, last_with. induction rules as [|r rules IH] using rev_ind; [by cbn; rewrite lookup_empty|].
  rewrite foldl_snoc. unfold retain in *. rewrite List.filter_app. cbn [List.filter].
  destruct (String.eqb_spec (ru_id r) id) as [<-|Hne].
  - by rewrite lookup_insert_eq, last_snoc.
  - by rewrite lookup_insert_ne, app_nil_r by done.
Qed.

Lemma last_with_id id rules r : last_with id rules = Some r -> ru_id r = id.
Proof.
  unfold last_with. intros Hl. apply last_Some_elem_of in Hl. apply retain_elem in Hl as [_ Hl]. by apply String.eqb_eq.
Qed.

#[local] Instance id_le_total : Total id_le.
Proof. intros a b. unfold id_le. apply (total str_le). Qed.
#[local] Instance id_le_trans : Transitive id_le.
Proof. intros a b c. unfold id_le. apply (transitivity (R := str_le)). Qed.

(** The rules in force are, in the order of their ids, for every id the last
    rule of that id that is not disabled, the files of the directory coming
    after the built-in one and a file with an unknown severity or layer not
    counting at all.  So every id is there once, and disabling a built-in rule
    in a file of the directory leaves it in force. *)
Theorem load_rules_exact builtin files rules :
  load_rules_dir builtin files = Ok rules ->
  exists own, parse_file ∅ builtin = Ok own /\ StronglySorted id_le rules /\ NoDup (ru_id <$> rules) /\
    forall r, r ∈ rules <-> last_with (ru_id r) (own ++ loaded_rules (rf_lists builtin) files) = Some r.
Proof.
  unfold load_rules_dir. destruct (parse_file ∅ builtin) as [own|]; [|done]. rewrite load_files_loaded.
  assert (insert_rules (insert_rules ∅ own) (loaded_rules (rf_lists builtin) files)
    = insert_rules ∅ (own ++ loaded_rules (rf_lists builtin) files)) as -> by (unfold insert_rules; by rewrite foldl_app).
  set (all := own ++ _). intros [= <-]. exists own. split; [done|].
  pose proof (merge_sort_Permutation id_le (snd <$> map_to_list (insert_rules ∅ all))) as Hp.
  split; [apply (StronglySorted_merge_sort id_le)|]. split.
  - rewrite Hp. replace (ru_id <$> (snd <$> map_to_list (insert_rules ∅ all)))
      with (fst <$> map_to_list (insert_rules ∅ all)); [apply NoDup_fst_map_to_list|].
    rewrite <- list_fmap_compose. apply list_fmap_ext. intros i [k r] Hi. cbn.
    apply list_elem_of_lookup_2, elem_of_map_to_list in Hi. rewrite insert_rules_lookup in Hi.
    symmetry. by apply last_with_id in Hi.
  - intros r. rewrite Hp, list_elem_of_fmap. split.
    + intros ([k r'] & -> & Hi). apply elem_of_map_to_list in Hi. rewrite insert_rules_lookup in Hi. cbn.
      by rewrite (last_with_id _ _ _ Hi).
    + intros Hl. exists (ru_id r, r). split; [done|]. apply elem_of_map_to_list. by rewrite insert_rules_lookup.
Qed.

(** ** Where the engine and its loader go wrong *)

Lemma emit_rules pick now en q : en_rules (emit pick now en q) = en_rules en.
Proof. unfold emit. by repeat case_match. Qed.
Lemma observe_pending_rules pick en e : en_rules (observe_pending pick en e) = en_rules en.
Proof.
  unfold observe_pending. set (qs := omap snd _). set (en1 := set_pending _ _). change (en_rules en) with (en_rules en1).
  generalize en1. induction qs as [|q qs IH]; intros en2; [done|]. cbn [foldl]. by rewrite IH, emit_rules.
Qed.

(** The engine panics on an event, any event, exactly when one of its rules
    has no stages; and the loader lets a rule without stages through. *)
Theorem empty_rule_panics :
  (forall pick en e, observe pick en e = None <-> exists rule, rule ∈ en_rules en /\ ru_stages rule = []) /\
  (forall lists raw severity, parse_severity (rcr_severity raw) = Some severity -> rcr_stages raw = [] ->
     exists rule, compile_rule lists raw = Ok rule /\ ru_stages rule = []).
Proof.
  split.
  - intros pick en e. unfold observe. cbv zeta. rewrite observe_pending_rules.
    destruct (decide (Forall (fun r => ru_stages r <> []) (en_rules en))) as [Hf|Hf].
    + destruct (started_spec _ e Hf) as (new & -> & _). split; [done|]. intros (rule & Hr & He).
      rewrite Forall_forall in Hf. by destruct (Hf rule Hr).
    + assert (started (en_rules en) e = None) as ->.
      { clear -Hf. induction (en_rules en) as [|r rules IH]; [by destruct Hf|]. cbn [started].
        destruct (ru_stages r) as [|s ss] eqn:Es; [done|]. cbn [head mbind option_bind]. rewrite IH; [done|].
        intros Hf'. apply Hf. constructor; [by rewrite Es|done]. }
      split; [|done]. intros _. apply not_Forall_Exists in Hf; [|apply _].
      apply Exists_exists in Hf as (rule & Hr & He). exists rule. split; [done|].
      cbn in He. destruct (ru_stages rule) as [|s ss]; [done|]. exfalso. by apply He.
  - intros lists raw severity Hs He. unfold compile_rule. rewrite Hs, He. by eexists.
Qed.

(** A file that only disables rules changes nothing: the rules in force are
    those without the file, so a built-in rule cannot be switched off by the
    override the command line prints for it. *)
Theorem disabled_override_ignored builtin before rf after :
  rf_lists rf = ∅ -> Forall (fun raw => rcr_disabled raw = true) (rf_rules rf) ->
  load_rules_dir builtin (before ++ Some rf :: after) = load_rules_dir builtin (before ++ after).
Proof.
  intros Hl Hd. assert (forall lists, parse_file lists rf = Ok []) as Hp.
  { intros lists. unfold parse_file. induction Hd as [|raw raws Hr _ IH]; [done|]. cbn. by rewrite Hr. }
  unfold load_rules_dir. destruct (parse_file ∅ builtin) as [own|]; [|done]. rewrite !load_files_loaded.
  enough (forall lists, loaded_rules lists (before ++ Some rf :: after) = loaded_rules lists (before ++ after)) as ->
    by done.
  induction before as [|[f|] before IH]; intros lists; cbn [app loaded_rules].
  - rewrite Hp, Hl. cbn [app]. by rewrite (right_id_L ∅ (∪)).
  - destruct (parse_file lists f); by rewrite IH.
  - apply IH.
Qed.

(** The watchdog's name as the kernel cuts it is not on the list, which has one
    letter more than a name can have. *)
Lemma watchdog_not_suppressed rule_id e :
  get_str (ce_details e) "comm" = Some (String.substring 0 15 "innerwarden-watchdog") ->
  event_comm_is_suppressed rule_id e = false.
Proof.
  intros E. unfold event_comm_is_suppressed, rule_comm_suppressions. rewrite E. by destruct (String.eqb rule_id "CL-008").
Qed.

Definition demo_event (ts : Z) (kind : string) (entities : list EntityRef) : CorrelationEvent :=
  {| ce_ts := ts; ce_layer := Userspace; ce_source := "detector"; ce_kind := kind; ce_severity := High;
     ce_entities := entities; ce_details := JNull; ce_incident_id := "" |}.
Definition demo_rule (kinds : list string) : CorrelationRule :=
  {| ru_id := "CL-900"; ru_name := "demo";
     ru_stages := (fun k => {| rs_layer := None; rs_kind_patterns := [k]; rs_entity_must_match := true |}) <$> kinds;
     ru_window_secs := 300; ru_min_confidence := f32_lit 8 10; ru_severity := High |}.
Definition host_a : EntityRef := MkEntity EIp "203.0.113.7".
Definition host_b : EntityRef := MkEntity EIp "198.51.100.9".
Definition user_u : EntityRef := MkEntity EUser "www-data".

Definition greedy_stream : list CorrelationEvent :=
  [demo_event 0 "a" [host_a]; demo_event 1 "b" [host_a]; demo_event 2 "b" [host_a; host_b]; demo_event 3 "c" [host_b]].

(** Longer chains can be missed: the engine takes the first event that fits
    a stage and never another.  The first, third and fourth events of this
    stream meet a three-stage rule, each sharing an address with the one before,
    and nothing is reported, because the second event took the second stage. *)
Theorem greedy_choice_misses pick :
  staged (demo_rule ["a"; "b"; "c"]) greedy_stream
    [demo_event 0 "a" [host_a]; demo_event 2 "b" [host_a; host_b]; demo_event 3 "c" [host_b]] /\
  exists st, run_engine (with_rules [demo_rule ["a"; "b"; "c"]], []) (OObserve pick <$> greedy_stream) = Some st /\
    chains_of st = [].
Proof.
  split.
  - split.
    + unfold greedy_stream. repeat constructor.
    + cbn. lia.
    + intros i e stage. do 3 (destruct i as [|i]; [intros [= <-] [= <-]; apply matches_stage_fits; by vm_compute|]). done.
    + intros first e [= <-] He. cbn [tail] in He. repeat (apply elem_of_cons in He as [->|He]; [by vm_compute|]).
      by apply not_elem_of_nil in He.
  - eexists. split; vm_compute; reflexivity.
Qed.

Definition twice (pick : PendingChain -> option string) : list EngineOp :=
  [OObserve (fun _ => Some (entity_key host_a)) (demo_event 0 "a" [host_a; user_u]);
   OObserve (fun _ => Some (entity_key host_a)) (demo_event 1 "b" [host_a; user_u]);
   OObserve pick (demo_event (seconds 5) "a" [host_a; user_u]);
   OObserve pick (demo_event (seconds 6) "b" [host_a; user_u])].

(** The cooldown depends on the order of a hash set: the same attack twice
    within six seconds is reported once when the walk of the second chain's
    entities starts where the first one's did, and twice when it starts with the
    other entity. *)
Theorem cooldown_depends_on_walk :
  (length <$> (chains_of <$> run_engine (with_rules [demo_rule ["a"; "b"]], [])
     (twice (fun _ => Some (entity_key host_a))))) = Some 1%nat /\
  (length <$> (chains_of <$> run_engine (with_rules [demo_rule ["a"; "b"]], [])
     (twice (fun _ => Some (entity_key user_u))))) = Some 2%nat.
Proof. split; vm_compute; reflexivity. Qed.

(** ** The properties at concrete inputs *)

Definition first_entity (pc : PendingChain) : option string := head (elements (pc_entities pc)).

Lemma chains_sound_witness :
  exists st, run_engine (with_rules [demo_rule ["a"; "b"]], []) (twice first_entity) = Some st /\
    (forall c, c ∈ chains_of st ->
       exists rule events, chain_ok [demo_rule ["a"; "b"]] (fed (twice first_entity)) c rule events).
Proof.
  destruct (chains_sound [demo_rule ["a"; "b"]] (twice first_entity)) as (st & Hr & Hc & _).
  - repeat constructor. apply not_elem_of_nil.
  - repeat constructor. done.
  - exists st. split; [exact Hr|exact Hc].
Defined.

Lemma two_stage_reported_witness :
  exists st c, run_engine (with_rules [demo_rule ["a"; "b"]], [])
    ([ODrain] ++ OObserve first_entity (demo_event 0 "a" [host_a])
       :: [OObserve first_entity (demo_event 1 "x" [])] ++ [OObserve first_entity (demo_event 2 "b" [host_a])]) = Some st /\
    c ∈ chains_of st /\ at_rule_id c = "CL-900" /\ 0 - seconds 600 <= at_last_ts c.
Proof.
  apply (two_stage_reported [demo_rule ["a"; "b"]] [ODrain] first_entity (demo_event 0 "a" [host_a])
    [OObserve first_entity (demo_event 1 "x" [])] first_entity (demo_event 2 "b" [host_a]) (demo_rule ["a"; "b"])
    {| rs_layer := None; rs_kind_patterns := ["a"]; rs_entity_must_match := true |}
    {| rs_layer := None; rs_kind_patterns := ["b"]; rs_entity_must_match := true |}).
  - repeat constructor. apply not_elem_of_nil.
  - repeat constructor. done.
  - repeat constructor.
  - left.
  - reflexivity.
  - apply (matches_stage_fits _ _ []). by vm_compute.
  - apply matches_stage_fits. by vm_compute.
  - by vm_compute.
  - repeat constructor; by vm_compute.
Defined.

Definition demo_raw (disabled : bool) : RawCorrelationRule :=
  {| rcr_id := "CL-008"; rcr_name := "exfil"; rcr_severity := "high"; rcr_window_secs := 60;
     rcr_min_confidence := f32_lit 8 10;
     rcr_stages := [{| rcs_layer := None; rcs_kind_patterns := ["file.read"]; rcs_entity_must_match := false |}];
     rcr_disabled := disabled |}.
Definition demo_file (disabled : bool) : RuleFile := {| rf_lists := ∅; rf_rules := [demo_raw disabled] |}.

Lemma load_rules_exact_witness :
  exists rules, load_rules_dir (demo_file false) [] = Ok rules /\ NoDup (ru_id <$> rules).
Proof.
  eexists. split; [reflexivity|].
  destruct (load_rules_exact (demo_file false) [] _ eq_refl) as (own & _ & _ & Hn & _). exact Hn.
Defined.

Lemma disabled_override_ignored_witness :
  load_rules_dir (demo_file false) ([] ++ Some (demo_file true) :: []) = load_rules_dir (demo_file false) ([] ++ []).
Proof.
  apply (disabled_override_ignored (demo_file false) [] (demo_file true) []); [reflexivity|].
  repeat constructor.
Defined.
