(* ===== verification/AgentTemporal.v ===== *)
(** * AgentTemporal: incidents that belong together
    (crates/agent/src/correlation.rs)

    The correlator keeps the recent incidents and finds those related to a new
    one: within the window and with a common address, user or detector.  The
    number of distinct detectors among them raises the confidence of a
    decision.  [build_clusters] groups a day's incidents for the report.  A
    [BTreeSet] is a [gset] read in sorted order; the window is taken within
    chrono's range.

    Proved here: the history is the fresh part of what was observed, the related
    incidents are exactly the ones the window and the pivots select, every
    incident is in exactly one cluster, clusters hold together and are not split
    needlessly; the boosted confidence is at most one, but a confidence without
    related incidents is not clamped and a NaN becomes certainty. *)

From Stdlib Require Import ZArith Lia Ascii String SpecFloat.
From stdpp Require Import prelude strings list gmap sorting.
From S2P Require Import Prelude Text Json Floats CoreTypes.

Local Open Scope string_scope.
Local Open Scope list_scope.
Local Open Scope Z_scope.

(** ** Pivots *)

Definition detector_kind (incident : Incident) : string := first_piece ":" (in_incident_id incident).

Definition entity_token (e : EntityRef) : option string :=
  match e_type e with
  | EIp => Some ("ip:" +:+ e_value e)
  | EUser => Some ("user:" +:+ e_value e)
  | _ => None
  end.

Definition correlation_tokens (incident : Incident) : gset string :=
  {["detector:" +:+ detector_kind incident]} ∪ list_to_set (omap entity_token (in_entities incident)).

Definition shares_correlation_pivot (a b : Incident) : bool :=
  negb (bool_decide (correlation_tokens a ## correlation_tokens b)).

Definition select_primary_pivot (tokens : gset string) : string :=
  let find p := List.find (starts_with p) (sorted_strings tokens) in
  match find "ip:" with
  | Some t => t
  | None =>
      match find "user:" with
      | Some t => t
      | None => default "detector:unknown" (find "detector:")
      end
  end.

Definition within_window (a b window : Z) : bool := Z.abs (num_seconds (a - b)) <=? num_seconds window.

(** ** The correlator *)

Record TemporalCorrelator := {
  tc_window : Z;
  tc_max_history : nat;
  tc_watermark : option Z;
  tc_history : list Incident;
}.

(** [window_seconds as i64]. *)
Definition TemporalCorrelator_new (window_seconds : Z) (max_history : nat) : TemporalCorrelator :=
  {| tc_window := seconds (as_signed 64 window_seconds); tc_max_history := max_history; tc_watermark := None;
     tc_history := [] |}.

Definition advance_watermark (tc : TemporalCorrelator) (ts : Z) : TemporalCorrelator :=
  match tc_watermark tc with
  | Some current => if ts <=? current then tc else
      {| tc_window := tc_window tc; tc_max_history := tc_max_history tc; tc_watermark := Some ts;
         tc_history := tc_history tc |}
  | None =>
      {| tc_window := tc_window tc; tc_max_history := tc_max_history tc; tc_watermark := Some ts;
         tc_history := tc_history tc |}
  end.

Definition with_history (tc : TemporalCorrelator) (h : list Incident) : TemporalCorrelator :=
  {| tc_window := tc_window tc; tc_max_history := tc_max_history tc; tc_watermark := tc_watermark tc;
     tc_history := h |}.

Definition prune_history (tc : TemporalCorrelator) : TemporalCorrelator :=
  match tc_watermark tc with
  | None => tc
  | Some watermark =>
      let cutoff := watermark - tc_window tc in
      let h := retain (fun i => cutoff <=? in_ts i) (tc_history tc) in
      with_history tc (if (tc_max_history tc <? length h)%nat then drop (length h - tc_max_history tc) h else h)
  end.

(** [sort_by(|a, b| b.ts.cmp(&a.ts))], which is stable. *)
Definition newer (a b : Incident) : Prop := in_ts b <= in_ts a.
#[export] Instance newer_dec : RelDecision newer.
Proof. intros a b. unfold newer. apply _. Defined.
#[export] Instance newer_total : Total newer.
Proof. intros a b. unfold newer. lia. Qed.
#[export] Instance newer_trans : Transitive newer.
Proof. intros a b c. unfold newer. lia. Qed.

Definition is_related (window : Z) (incident other : Incident) : bool :=
  negb (String.eqb (in_incident_id other) (in_incident_id incident)) &&
  within_window (in_ts other) (in_ts incident) window && shares_correlation_pivot other incident.

Definition related_to (tc : TemporalCorrelator) (incident : Incident) (limit : nat)
  : TemporalCorrelator * list Incident :=
  let tc := prune_history (advance_watermark tc (in_ts incident)) in
  (tc, take limit (merge_sort newer (retain (is_related (tc_window tc) incident) (tc_history tc)))).

Definition temporal_observe (tc : TemporalCorrelator) (incident : Incident) : TemporalCorrelator :=
  let tc := advance_watermark tc (in_ts incident) in
  prune_history (with_history tc (tc_history tc ++ [incident])).

(** ** The confidence boost *)

Definition boost_multiplier (distinct_detectors : nat) : spec_float :=
  match distinct_detectors with
  | O | 1%nat => f64_one
  | 2%nat => f64_lit 115 100
  | 3%nat => f64_lit 130 100
  | _ => f64_lit 150 100
  end.

Definition cross_detector_boost (tc : TemporalCorrelator) (incident : Incident) (base_confidence : spec_float)
  : TemporalCorrelator * (spec_float * list string) :=
  let '(tc, related) := related_to tc incident 20 in
  match related with
  | [] => (tc, (base_confidence, []))
  | _ :: _ =>
      let kinds : gset string := {[detector_kind incident]} ∪ list_to_set (detector_kind <$> related) in
      (tc, (f_min (f64_mul base_confidence (boost_multiplier (size kinds))) f64_one, sorted_strings kinds))
  end.

(** ** Clusters *)

Record IncidentCluster := {
  ic_pivot : string;
  ic_start_ts : Z;
  ic_end_ts : Z;
  ic_incident_ids : list string;
  ic_detector_kinds : list string;
}.

Definition cluster_size (c : IncidentCluster) : nat := length (ic_incident_ids c).

Record WorkingCluster := {
  wc_tokens : gset string;
  wc_start_ts : Z;
  wc_end_ts : Z;
  wc_incident_ids : list string;
  wc_detector_kinds : gset string;
}.

(** The loop over the working clusters; [selected] is an index with its cluster. *)
Fixpoint select_cluster (window ts : Z) (tokens : gset string) (idx : nat) (working : list WorkingCluster)
  (selected : option (nat * WorkingCluster)) : option (nat * WorkingCluster) :=
  match working with
  | [] => selected
  | cluster :: working' =>
      select_cluster window ts tokens (S idx) working'
        (if window <? ts - wc_end_ts cluster then selected
         else if bool_decide (wc_tokens cluster ## tokens) then selected
         else match selected with
              | Some (prev, p) => if wc_end_ts cluster <=? wc_end_ts p then selected else Some (idx, cluster)
              | None => Some (idx, cluster)
              end)
  end.

Definition join_cluster (cluster : WorkingCluster) (incident : Incident) : WorkingCluster :=
  {| wc_tokens := wc_tokens cluster ∪ correlation_tokens incident; wc_start_ts := wc_start_ts cluster;
     wc_end_ts := in_ts incident; wc_incident_ids := wc_incident_ids cluster ++ [in_incident_id incident];
     wc_detector_kinds := {[detector_kind incident]} ∪ wc_detector_kinds cluster |}.

Definition open_cluster (incident : Incident) : WorkingCluster :=
  {| wc_tokens := correlation_tokens incident; wc_start_ts := in_ts incident; wc_end_ts := in_ts incident;
     wc_incident_ids := [in_incident_id incident]; wc_detector_kinds := {[detector_kind incident]} |}.

Definition place (window : Z) (working : list WorkingCluster) (incident : Incident) : list WorkingCluster :=
  match select_cluster window (in_ts incident) (correlation_tokens incident) 0 working None with
  | Some (idx, cluster) => <[idx := join_cluster cluster incident]> working
  | None => working ++ [open_cluster incident]
  end.

Definition finish_cluster (c : WorkingCluster) : IncidentCluster :=
  {| ic_pivot := select_primary_pivot (wc_tokens c); ic_start_ts := wc_start_ts c; ic_end_ts := wc_end_ts c;
     ic_incident_ids := wc_incident_ids c; ic_detector_kinds := sorted_strings (wc_detector_kinds c) |}.

Definition older (a b : Incident) : Prop := in_ts a <= in_ts b.
#[export] Instance older_dec : RelDecision older.
Proof. intros a b. unfold older. apply _. Defined.
#[export] Instance older_total : Total older.
Proof. intros a b. unfold older. lia. Qed.
#[export] Instance older_trans : Transitive older.
Proof. intros a b c. unfold older. lia. Qed.

Definition starts_later (a b : IncidentCluster) : Prop := ic_start_ts b <= ic_start_ts a.
#[export] Instance starts_later_dec : RelDecision starts_later.
Proof. intros a b. unfold starts_later. apply _. Defined.
#[export] Instance starts_later_total : Total starts_later.
Proof. intros a b. unfold starts_later. lia. Qed.
#[export] Instance starts_later_trans : Transitive starts_later.
Proof. intros a b c. unfold starts_later. lia. Qed.

Definition build_clusters (incidents : list Incident) (window_seconds : Z) : list IncidentCluster :=
  match incidents with
  | [] => []
  | _ :: _ =>
      let window := seconds (as_signed 64 window_seconds) in
      merge_sort starts_later (finish_cluster <$> foldl (place window) [] (merge_sort older incidents))
  end.

(** ** The history of the correlator *)

Inductive temporal_op := OpObserve (i : Incident) | OpRelated (i : Incident) (limit : nat).

Definition op_incident (o : temporal_op) : Incident := match o with OpObserve i | OpRelated i _ => i end.
Definition temporal_step (tc : TemporalCorrelator) (o : temporal_op) : TemporalCorrelator :=
  match o with OpObserve i => temporal_observe tc i | OpRelated i limit => (related_to tc i limit).1 end.
Definition temporal_run (w : Z) (n : nat) (ops : list temporal_op) : TemporalCorrelator :=
  foldl temporal_step (TemporalCorrelator_new w n) ops.

(** What was observed, in order, and the stamps of all calls. *)
Definition observed (ops : list temporal_op) : list Incident :=
  omap (fun o => match o with OpObserve i => Some i | OpRelated _ _ => None end) ops.
Definition stamps (ops : list temporal_op) : list Z := in_ts ∘ op_incident <$> ops.

Definition fresh_at (window : Z) (stamps : list Z) (i : Incident) : bool :=
  forallb (fun t => t - window <=? in_ts i) stamps.
Definition lastn {A} (n : nat) (l : list A) : list A := drop (length l - n) l.

Section Suffixes.
Context {A : Type}.
Implicit Types (l k : list A).

Lemma lastn_suffix n l : lastn n l `suffix_of` l.
Proof. unfold lastn. exists (take (length l - n) l). by rewrite take_drop. Qed.

Lemma lastn_length n l : (length (lastn n l) <= n)%nat.
Proof. unfold lastn. rewrite length_drop. lia. Qed.

Lemma lastn_all n l : (length l <= n)%nat -> lastn n l = l.
Proof. intros H. unfold lastn. by replace (length l - n)%nat with O by lia. Qed.

Lemma suffix_lastn n k l : k `suffix_of` l -> (length k <= n)%nat -> k `suffix_of` lastn n l.
Proof.
  intros [m ->] H. unfold lastn. rewrite length_app, drop_app_le by lia. eexists; done.
Qed.

Lemma drop_suffix a b l : (a <= b)%nat -> drop b l `suffix_of` drop a l.
Proof.
  intros H. replace b with (a + (b - a))%nat by lia. rewrite <- drop_drop.
  exists (take (b - a) (drop a l)). by rewrite take_drop.
Qed.

Lemma lastn_snoc n l x : lastn n (l ++ [x]) `suffix_of` lastn n l ++ [x].
Proof.
  unfold lastn. rewrite length_app. cbn [length].
  destruct (decide (n = O)) as [->|].
  - replace (length l + 1 - 0)%nat with (length (l ++ [x])) by (rewrite length_app; cbn; lia).
    rewrite drop_all. apply suffix_nil.
  - rewrite drop_app_le by lia. apply suffix_app, drop_suffix. lia.
Qed.

Lemma retain_suffix (p : A -> bool) k l : k `suffix_of` l -> retain p k `suffix_of` retain p l.
Proof. intros [m ->]. unfold retain. rewrite List.filter_app. eexists; done. Qed.

Lemma suffix_antisym k l : k `suffix_of` l -> l `suffix_of` k -> k = l.
Proof.
  intros [m ->] [m' E]. apply (f_equal length) in E. rewrite !length_app in E. destruct m; [done|cbn in E; lia].
Qed.
End Suffixes.

(** The correlator [tc] after a log of observations and calls at [ts]. *)
Record temporal_ok (w : Z) (n : nat) (log : list Incident) (ts : list Z) (tc : TemporalCorrelator) : Prop := {
  to_window : tc_window tc = w;
  to_max : tc_max_history tc = n;
  to_mark : match tc_watermark tc with
            | None => ts = []
            | Some m => m ∈ ts /\ forall t, t ∈ ts -> t <= m
            end;
  to_upper : tc_history tc `suffix_of` retain (fresh_at w ts) log;
  to_lower : retain (fresh_at w ts) (lastn n log) `suffix_of` tc_history tc;
  to_length : (length (tc_history tc) <= n)%nat;
}.

Lemma advance_mark tc t ts :
  match tc_watermark tc with None => ts = [] | Some m => m ∈ ts /\ forall t, t ∈ ts -> t <= m end ->
  exists m, tc_watermark (advance_watermark tc t) = Some m /\ m ∈ t :: ts /\ forall u, u ∈ t :: ts -> u <= m.
Proof.
  unfold advance_watermark. destruct (tc_watermark tc) as [m|] eqn:E.
  - intros [Hm Hmax]. destruct (Z.leb_spec t m).
    + exists m. rewrite E. set_solver.
    + exists t. cbn. split; [done|]. split; [set_solver|]. intros u [->|Hu]%elem_of_cons; [done|].
      specialize (Hmax u Hu). lia.
  - intros ->. exists t. cbn. split; [done|]. set_solver by lia.
Qed.

Lemma advance_other tc t : tc_window (advance_watermark tc t) = tc_window tc /\
  tc_max_history (advance_watermark tc t) = tc_max_history tc /\ tc_history (advance_watermark tc t) = tc_history tc.
Proof. unfold advance_watermark. by repeat case_match. Qed.

Lemma fresh_at_mark w m ts i : m ∈ ts -> (forall t, t ∈ ts -> t <= m) -> fresh_at w ts i = (m - w <=? in_ts i).
Proof.
  intros Hm Hmax. apply eq_bool_prop_intro. rewrite !Is_true_true. unfold fresh_at.
  rewrite forallb_elem, Z.leb_le. split.
  - intros H. specialize (H m Hm). lia.
  - intros H t Ht. specialize (Hmax t Ht). lia.
Qed.

(** Pruning [h], which held what was fresh and possibly one more incident. *)
Lemma prune_ok w n log ts t tc h :
  temporal_ok w n log ts tc ->
  forall log',
  h `suffix_of` (retain (fresh_at w ts) log ++ drop (length log) log') ->
  retain (fresh_at w ts) (lastn n log) ++ drop (length log) log' `suffix_of` h ->
  log' = log ++ drop (length log) log' -> (length (drop (length log) log') <= 1)%nat ->
  temporal_ok w n log' (t :: ts) (prune_history (with_history (advance_watermark tc t) h)).
Proof.
  intros [Hw Hn Hmark _ _ _] log' Hup Hlow Elog Hone.
  destruct (advance_mark tc t ts Hmark) as (m & Em & Hm & Hmax).
  destruct (advance_other tc t) as (E1 & E2 & E3).
  set (x := drop (length log) log') in *.
  assert (Hfr : forall l, retain (fun i => m - w <=? in_ts i) l = retain (fresh_at w (t :: ts)) l).
  { intros l. apply List.filter_ext. intros i. symmetry. by apply fresh_at_mark. }
  assert (Hsub : forall l, retain (fresh_at w (t :: ts)) (retain (fresh_at w ts) l) = retain (fresh_at w (t :: ts)) l).
  { intros l. apply retain_retain. intros i. cbn. by intros [_ H]%andb_true_iff. }
  assert (Hcap : tc_history (prune_history (with_history (advance_watermark tc t) h)) =
                 lastn n (retain (fresh_at w (t :: ts)) h)).
  { unfold prune_history, with_history. cbn [tc_watermark tc_window tc_max_history tc_history].
    rewrite Em. cbn [tc_history]. rewrite E1, E2, Hw, Hn, Hfr.
    destruct (Nat.ltb_spec n (length (retain (fresh_at w (t :: ts)) h))); [reflexivity|]. by rewrite lastn_all. }
  split.
  - unfold prune_history. cbn. rewrite Em. cbn. by rewrite E1.
  - unfold prune_history. cbn. rewrite Em. cbn. by rewrite E2.
  - unfold prune_history. cbn. rewrite Em. cbn. by rewrite Em.
  - rewrite Hcap. etrans; [apply lastn_suffix|]. etrans; [apply retain_suffix, Hup|].
    unfold retain. rewrite List.filter_app. fold (@retain Incident). 
    change (List.filter (fresh_at w (t :: ts)) (retain (fresh_at w ts) log))
      with (retain (fresh_at w (t :: ts)) (retain (fresh_at w ts) log)).
    rewrite Hsub, Elog. unfold retain. by rewrite List.filter_app.
  - rewrite Hcap. apply suffix_lastn.
    + assert (Hl : lastn n log' `suffix_of` lastn n log ++ x).
      { rewrite Elog. destruct x as [|y [|]]; [by rewrite !app_nil_r|apply lastn_snoc|cbn in Hone; lia]. }
      etrans; [apply retain_suffix, Hl|]. unfold retain at 1. rewrite List.filter_app.
      change (List.filter (fresh_at w (t :: ts)) (lastn n log)) with (retain (fresh_at w (t :: ts)) (lastn n log)).
      rewrite <- Hsub. change (List.filter (fresh_at w (t :: ts)) x) with (retain (fresh_at w (t :: ts)) x).
      etrans; [|apply retain_suffix, Hlow]. unfold retain. by rewrite List.filter_app.
    + etrans; [apply retain_length|apply lastn_length].
  - rewrite Hcap. apply lastn_length.
Qed.

Lemma related_ok w n log ts tc i limit :
  temporal_ok w n log ts tc -> temporal_ok w n log (in_ts i :: ts) (related_to tc i limit).1.
Proof.
  intros H. unfold related_to. cbn.
  replace (advance_watermark tc (in_ts i)) with (with_history (advance_watermark tc (in_ts i)) (tc_history tc))
    by (unfold advance_watermark; repeat case_match; by destruct tc).
  eapply prune_ok; [done|..]; rewrite ?drop_all, ?app_nil_r; [apply H|apply H|done|cbn; lia].
Qed.

Lemma temporal_observe_ok w n log ts tc i :
  temporal_ok w n log ts tc -> temporal_ok w n (log ++ [i]) (in_ts i :: ts) (temporal_observe tc i).
Proof.
  intros H. unfold temporal_observe. destruct (advance_other tc (in_ts i)) as (_ & _ & ->).
  eapply prune_ok; [done|..]; rewrite ?drop_app_length; [by apply suffix_app, H..|done|cbn; lia].
Qed.

Lemma temporal_run_ok w n ops :
  temporal_ok (seconds (as_signed 64 w)) n (observed ops) (reverse (stamps ops)) (temporal_run w n ops).
Proof.
  induction ops as [|o ops IH] using rev_ind.
  - split; cbn; [done..|lia].
  - unfold temporal_run in *. rewrite foldl_snoc. unfold observed, stamps. rewrite omap_app, fmap_app.
    change (in_ts ∘ op_incident <$> [o]) with [in_ts (op_incident o)]. rewrite reverse_snoc.
    destruct o as [i|i limit]; cbn.
    + by apply temporal_observe_ok.
    + rewrite app_nil_r. by apply (related_ok _ _ _ _ _ i limit).
Qed.

(** After any calls, the incidents [related_to] returns are the newest [limit]
    of those, in what is left of the history, that are not the incident itself,
    lie within the window and share an address, a user or the detector with it.
    What is left is the fresh part of the observations, less the oldest ones
    beyond the bound: it is a suffix of the fresh observations, holds the fresh
    ones among the last [n], and is everything fresh while no more than [n]
    were observed. *)
Theorem related_exact (w : Z) (n : nat) (ops : list temporal_op) (i : Incident) (limit : nat) :
  let window := seconds (as_signed 64 w) in
  let fresh := fresh_at window (in_ts i :: reverse (stamps ops)) in
  let log := observed ops in
  exists h, (related_to (temporal_run w n ops) i limit).2 =
              take limit (merge_sort newer (retain (is_related window i) h)) /\
    h `suffix_of` retain fresh log /\ retain fresh (lastn n log) `suffix_of` h /\ (length h <= n)%nat /\
    ((length log <= n)%nat -> h = retain fresh log).
Proof.
  cbn zeta. pose proof (related_ok _ _ _ _ _ i limit (temporal_run_ok w n ops)) as [Hw Hn _ Hup Hlow Hlen].
  eexists. split; [unfold related_to; cbn [snd]; unfold related_to in Hw; cbn [fst] in Hw; by rewrite Hw|].
  split; [exact Hup|]. split; [exact Hlow|]. split; [exact Hlen|].
  intros Hall. apply suffix_antisym; [exact Hup|]. rewrite <- (lastn_all n (observed ops)) at 1 by done. exact Hlow.
Qed.

(** Whatever the confidence, the boost of an incident with related ones is at
    most 1.0, and names the distinct detectors involved, its own included, in
    order; without related incidents the confidence passes through untouched. *)
Theorem boost_bounded (tc : TemporalCorrelator) (i : Incident) (base : spec_float) :
  let related := (related_to tc i 20).2 in
  let '(boosted, kinds) := (cross_detector_boost tc i base).2 in
  match related with
  | [] => boosted = base /\ kinds = []
  | _ :: _ =>
      f_leb boosted f64_one = true /\ StronglySorted str_le kinds /\ NoDup kinds /\
      (forall k, k ∈ kinds <-> k = detector_kind i \/ exists r, r ∈ related /\ k = detector_kind r) /\
      boosted = f_min (f64_mul base (boost_multiplier (length kinds))) f64_one
  end.
Proof.
  unfold cross_detector_boost. destruct (related_to tc i 20) as [tc' related]. destruct related as [|r l]; [done|].
  cbn [snd]. set (kinds := ({[detector_kind i]} ∪ list_to_set (detector_kind <$> r :: l) : gset string)).
  pose proof (merge_sort_Permutation str_le (elements kinds)) as Hp.
  split; [by apply f_min_le_r|]. split; [apply (StronglySorted_merge_sort str_le)|].
  split; [unfold sorted_strings; rewrite Hp; apply NoDup_elements|]. split.
  - intros k. rewrite sorted_strings_elem. subst kinds. rewrite elem_of_union, elem_of_singleton, elem_of_list_to_set.
    rewrite list_elem_of_fmap. set_solver.
  - unfold sorted_strings. rewrite Hp. done.
Qed.

(** The documentation says the result is clamped to [0.0, 1.0]: a confidence of
    2.0 on a fresh correlator stays 2.0, a negative one stays negative, and a
    confidence that is not a number becomes 1.0 once a related incident is seen. *)
Definition demo_hit (id : string) (t : Z) : Incident :=
  {| in_ts := seconds t; in_host := "h"; in_incident_id := id; in_severity := High; in_title := ""; in_summary := "";
     in_evidence := JNull; in_recommended_checks := []; in_tags := []; in_entities := [entity_ip "203.0.113.7"] |}.

Theorem boost_not_clamped :
  let fresh := TemporalCorrelator_new 300 4096 in
  let seen := temporal_observe fresh (demo_hit "port_scan:1" 100) in
  let hit := demo_hit "ssh_bruteforce:2" 160 in
  (cross_detector_boost fresh hit (f64_of_Z 2)).2.1 = f64_of_Z 2 /\
  f_ltb (cross_detector_boost seen hit (f64_of_Z (-1))).2.1 f64_zero = true /\
  (cross_detector_boost seen hit S754_nan).2 = (f64_one, ["port_scan"; "ssh_bruteforce"]).
Proof. vm_compute. done. Qed.

(** ** Clusters *)

(** The members of a cluster, in order: each one after the first shares a pivot
    with an earlier one and follows the one before it within the window. *)
Definition linked (window : Z) (g : list Incident) : Prop :=
  forall k x t, g = k ++ x :: t -> k <> [] ->
    (exists y, y ∈ k /\ shares_correlation_pivot y x = true) /\
    (exists z, last k = Some z /\ in_ts x - in_ts z <= window).

(** No cluster was opened while one with a common pivot was still open. *)
Definition separated (window : Z) (groups : list (list Incident)) : Prop :=
  forall g1 g2 x y z, g1 ∈ groups -> g2 ∈ groups -> head g2 = Some x -> y ∈ g1 -> z ∈ g1 ->
    in_ts y < in_ts x -> in_ts z < in_ts x -> in_ts x - in_ts y <= window -> shares_correlation_pivot z x = false.

Definition tokens_of (g : list Incident) : gset string := ⋃ (correlation_tokens <$> g).

Record cluster_of (window : Z) (g : list Incident) (c : WorkingCluster) : Prop := {
  co_ids : wc_incident_ids c = in_incident_id <$> g;
  co_start : in_ts <$> head g = Some (wc_start_ts c);
  co_end : in_ts <$> last g = Some (wc_end_ts c);
  co_sorted : StronglySorted older g;
  co_tokens : wc_tokens c = tokens_of g;
  co_kinds : wc_detector_kinds c = list_to_set (detector_kind <$> g);
  co_linked : linked window g;
}.

Lemma tokens_of_elem g t : t ∈ tokens_of g <-> exists x, x ∈ g /\ t ∈ correlation_tokens x.
Proof.
  unfold tokens_of. rewrite elem_of_union_list. setoid_rewrite list_elem_of_fmap. naive_solver.
Qed.

Lemma shares_true a b :
  shares_correlation_pivot a b = true <-> exists t, t ∈ correlation_tokens a /\ t ∈ correlation_tokens b.
Proof.
  unfold shares_correlation_pivot. rewrite negb_true_iff, bool_decide_eq_false. rewrite elem_of_disjoint.
  split; [|naive_solver]. intros H.
  destruct (decide (set_Exists (fun t => t ∈ correlation_tokens b) (correlation_tokens a))) as [[t Ht]|Hn]; [by exists t|].
  destruct H. intros t Ha Hb. apply Hn. by exists t.
Qed.

Lemma shares_tokens_of g c x : wc_tokens c = tokens_of g ->
  (wc_tokens c ## correlation_tokens x <-> forall y, y ∈ g -> shares_correlation_pivot y x = false).
Proof.
  intros E. rewrite E. split.
  - intros H y Hy. destruct (shares_correlation_pivot y x) eqn:Es; [|done].
    apply shares_true in Es as (t & H1 & H2). destruct (H t); [|done]. apply tokens_of_elem. eauto.
  - intros H t (y & Hy & Ht)%tokens_of_elem Hx. specialize (H y Hy).
    assert (shares_correlation_pivot y x = true) by (apply shares_true; eauto). congruence.
Qed.

Lemma linked_snoc window g x :
  linked window g -> (exists y, y ∈ g /\ shares_correlation_pivot y x = true) ->
  (exists z, last g = Some z /\ in_ts x - in_ts z <= window) -> linked window (g ++ [x]).
Proof.
  intros Hg Hs Hl k y t E Hk. destruct t as [|u t _] using rev_ind.
  - apply app_inj_tail in E as [-> ->]. done.
  - rewrite app_comm_cons, app_assoc in E. apply app_inj_tail in E as [-> _]. by eapply Hg.
Qed.

Lemma open_of window x : cluster_of window [x] (open_cluster x).
Proof.
  split; cbn; [done..|repeat constructor| | |].
  - unfold tokens_of. cbn. set_solver.
  - set_solver.
  - intros [|? [|]] y t E Hk; simplify_eq/=.
Qed.

Lemma join_of window g c x :
  cluster_of window g c -> Forall (fun y => older y x) g ->
  in_ts x - wc_end_ts c <= window -> ~ wc_tokens c ## correlation_tokens x ->
  cluster_of window (g ++ [x]) (join_cluster c x).
Proof.
  intros [Hi Hs He Hso Ht Hk Hl] Hold Hw Hd. split; cbn.
  - by rewrite Hi, fmap_app.
  - by destruct g.
  - by rewrite last_snoc.
  - by apply StronglySorted_snoc.
  - rewrite Ht. unfold tokens_of. rewrite fmap_app, union_list_app_L. cbn. set_solver.
  - rewrite Hk, fmap_app. set_solver.
  - apply linked_snoc; [done|..].
    + destruct (decide (Exists (fun y => shares_correlation_pivot y x = true) g)) as [H|H].
      { by apply Exists_exists in H. }
      destruct Hd. apply (shares_tokens_of g c); [done|]. intros y Hy.
      apply not_true_iff_false. intros ?. apply H, Exists_exists. eauto.
    + apply fmap_Some in He as (z & Hz & E). exists z. split; [done|]. lia.
Qed.

Lemma select_spec window ts tokens l : forall idx sel,
  match select_cluster window ts tokens idx l sel with
  | None => sel = None /\ forall c, c ∈ l -> window < ts - wc_end_ts c \/ wc_tokens c ## tokens
  | Some (k, c) => sel = Some (k, c) \/
      exists j, k = (idx + j)%nat /\ l !! j = Some c /\ ts - wc_end_ts c <= window /\ ~ wc_tokens c ## tokens
  end.
Proof.
  induction l as [|c l IH]; intros idx sel; cbn [select_cluster].
  { destruct sel as [[]|]; [by left|]. split; [done|set_solver]. }
  set (sel' := if window <? _ then _ else _). specialize (IH (S idx) sel').
  assert (Hsel : (sel' = sel /\ (sel = None -> window < ts - wc_end_ts c \/ wc_tokens c ## tokens)) \/
    (sel' = Some (idx, c) /\ ts - wc_end_ts c <= window /\ ~ wc_tokens c ## tokens)).
  { subst sel'. destruct (Z.ltb_spec window (ts - wc_end_ts c)); [by left; auto|].
    case_bool_decide; [by left; auto|]. destruct sel as [[prev p]|]; [|by right].
    destruct (Z.leb_spec (wc_end_ts c) (wc_end_ts p)); [by left|by right]. }
  clearbody sel'.
  destruct (select_cluster _ _ _ _ _ _) as [[k d]|].
  - destruct IH as [E|(j & -> & Hj & H)].
    + destruct Hsel as [[<- _]|[E' H]]; [by left|]. right. rewrite E' in E. simplify_eq.
      exists O. rewrite Nat.add_0_r. done.
    + right. exists (S j). split; [lia|]. done.
  - destruct IH as [E H]. destruct Hsel as [[<- Hc]|[E' _]]; [|congruence].
    split; [done|]. intros d [->|Hd]%elem_of_cons; auto.
Qed.

(** [groups] account for the incidents [seen] that were placed into [working]. *)
Record placed (window : Z) (seen : list Incident) (working : list WorkingCluster) (groups : list (list Incident)) : Prop := {
  pl_perm : concat groups ≡ₚ seen;
  pl_of : Forall2 (cluster_of window) groups working;
  pl_sep : separated window groups;
}.

Lemma concat_snoc_at {A} (groups : list (list A)) j g x :
  groups !! j = Some g -> concat (<[j := g ++ [x]]> groups) ≡ₚ concat groups ++ [x].
Proof.
  revert j. induction groups as [|h groups IH]; intros [|j] E; simplify_eq/=.
  - rewrite <- !app_assoc. f_equiv. apply Permutation_app_comm.
  - rewrite IH by done. by rewrite app_assoc.
Qed.

Lemma group_seen window seen working groups g y :
  placed window seen working groups -> g ∈ groups -> y ∈ g -> y ∈ seen.
Proof.
  intros H Hg Hy. rewrite <- (pl_perm _ _ _ _ H). apply list_elem_of_In, List.in_concat.
  exists g. by rewrite <- !list_elem_of_In.
Qed.

Lemma end_latest window g c y : cluster_of window g c -> y ∈ g -> in_ts y <= wc_end_ts c.
Proof.
  intros [_ _ He Hs _ _ _] Hy. apply fmap_Some in He as (z & Hz & ->).
  apply last_Some in Hz as [g' ->]. apply elem_of_app in Hy as [Hy| ->%list_elem_of_singleton]; [|done].
  induction g' as [|a g' IH]; [set_solver|]. inversion Hs as [|?? Hs' Hall]; subst.
  apply elem_of_cons in Hy as [->|Hy]; [|by apply IH].
  rewrite Forall_app in Hall. destruct Hall as [_ Hall]. by inversion Hall.
Qed.

Lemma group_cluster window groups working g :
  Forall2 (cluster_of window) groups working -> g ∈ groups -> exists c, c ∈ working /\ cluster_of window g c.
Proof.
  intros H [j Hj]%list_elem_of_lookup. destruct (Forall2_lookup_l _ _ _ _ _ H Hj) as (c & Hc & Hgc).
  apply list_elem_of_lookup_2 in Hc. eauto.
Qed.

Lemma separated_join window groups j g x :
  groups !! j = Some g -> (forall h y, h ∈ groups -> y ∈ h -> in_ts y <= in_ts x) -> (forall h, h ∈ groups -> h <> []) ->
  separated window groups -> separated window (<[j := g ++ [x]]> groups).
Proof.
  intros Hg Hold Hne Hsep g1 g2 a y z H1 H2 Ha Hy Hz Hya Hza Hwin.
  assert (Hin : forall g', g' ∈ <[j := g ++ [x]]> groups -> exists h, h ∈ groups /\ (g' = h \/ g' = h ++ [x])).
  { intros g' [i Hi]%list_elem_of_lookup. destruct (decide (i = j)) as [->|].
    - rewrite list_lookup_insert_eq in Hi by (by eapply lookup_lt_Some). simplify_eq.
      apply list_elem_of_lookup_2 in Hg. eauto.
    - rewrite list_lookup_insert_ne in Hi by done. apply list_elem_of_lookup_2 in Hi. eauto. }
  destruct (Hin _ H1) as (h1 & Hh1 & E1), (Hin _ H2) as (h2 & Hh2 & E2).
  assert (Ha2 : head h2 = Some a /\ in_ts a <= in_ts x).
  { destruct h2 as [|b h2]; [by destruct (Hne _ Hh2)|].
    assert (in_ts b <= in_ts x) by (apply (Hold (b :: h2)); [done|by left]).
    destruct E2; subst; cbn in Ha; by simplify_eq. }
  assert (Hold1 : forall u, u ∈ g1 -> in_ts u < in_ts a -> u ∈ h1).
  { intros u Hu Hlt. destruct E1; subst; [done|]. apply elem_of_app in Hu as [|Hu]; [done|].
    apply list_elem_of_singleton in Hu. subst. lia. }
  destruct Ha2 as [Ha2 _]. by apply (Hsep h1 h2 a y z); auto.
Qed.

Lemma separated_open window groups working x :
  Forall2 (cluster_of window) groups working -> (forall h y, h ∈ groups -> y ∈ h -> in_ts y <= in_ts x) ->
  (forall c, c ∈ working -> window < in_ts x - wc_end_ts c \/ wc_tokens c ## correlation_tokens x) ->
  separated window groups -> separated window (groups ++ [[x]]).
Proof.
  intros Hof Hold Hnone Hsep g1 g2 a y z H1 H2 Ha Hy Hz Hya Hza Hwin.
  apply elem_of_app in H1 as [H1|H1].
  - apply elem_of_app in H2 as [H2|H2]; [by apply (Hsep g1 g2 a y z)|].
    apply list_elem_of_singleton in H2. subst. cbn in Ha. simplify_eq.
    destruct (group_cluster _ _ _ _ Hof H1) as (c & Hc & Hgc).
    destruct (Hnone c Hc) as [Hfar|Hdis].
    + pose proof (end_latest _ _ _ _ Hgc Hy). lia.
    + by apply (proj1 (shares_tokens_of g1 c a (co_tokens _ _ _ Hgc)) Hdis).
  - apply list_elem_of_singleton in H1. subst. apply list_elem_of_singleton in Hy. subst.
    apply elem_of_app in H2 as [H2|H2].
    + apply head_Some_elem_of in Ha. specialize (Hold g2 a H2 Ha). lia.
    + apply list_elem_of_singleton in H2. subst. cbn in Ha. simplify_eq. lia.
Qed.

Lemma place_ok window seen working groups x :
  placed window seen working groups -> Forall (fun y => older y x) seen ->
  exists groups', placed window (seen ++ [x]) (place window working x) groups'.
Proof.
  intros H Hseen. pose proof H as [Hp Hof Hsep]. rewrite Forall_forall in Hseen. unfold place.
  assert (Hold : forall h y, h ∈ groups -> y ∈ h -> in_ts y <= in_ts x).
  { intros h y Hh Hy. apply Hseen. by eapply group_seen. }
  pose proof (select_spec window (in_ts x) (correlation_tokens x) working 0 None) as Hs.
  destruct (select_cluster _ _ _ _ _ _) as [[k c]|].
  - destruct Hs as [|(j & -> & Hj & Hw & Hd)]; [done|]. cbn.
    destruct (Forall2_lookup_r _ _ _ _ _ Hof Hj) as (g & Hg & Hgc).
    exists (<[j := g ++ [x]]> groups). split.
    + rewrite concat_snoc_at by done. by rewrite Hp.
    + apply Forall2_insert; [done|]. apply join_of; try done. apply Forall_forall. intros y Hy.
      apply (Hold g y); [by eapply list_elem_of_lookup_2|done].
    + apply separated_join; try done. intros h Hh ->.
      destruct (group_cluster _ _ _ _ Hof Hh) as (d & _ & Hd'). by pose proof (co_start _ _ _ Hd').
  - destruct Hs as [_ Hnone]. exists (groups ++ [[x]]). split.
    + rewrite concat_app. cbn. by rewrite Hp.
    + apply Forall2_app; [done|]. constructor; [apply open_of|constructor].
    + by eapply separated_open.
Qed.

Lemma fold_placed window l : StronglySorted older l ->
  exists groups, placed window l (foldl (place window) [] l) groups.
Proof.
  induction l as [|x l IH] using rev_ind; intros Hs.
  - exists []. split; cbn; [done|constructor|]. intros g1 g2. set_solver.
  - apply StronglySorted_app in Hs as (Hx & Hs & _). destruct (IH Hs) as [groups Hg]. rewrite foldl_snoc.
    eapply place_ok; [done|]. apply Forall_forall. intros y Hy. apply Hx; [done|by left].
Qed.

(** ** The pivot *)

Lemma find_token p tokens t :
  List.find (starts_with p) (sorted_strings tokens) = Some t -> t ∈ tokens /\ starts_with p t = true.
Proof.
  intros [H1 H2]%List.find_some. split; [|done]. by apply sorted_strings_elem, list_elem_of_In.
Qed.

Lemma find_token_none p tokens t :
  List.find (starts_with p) (sorted_strings tokens) = None -> t ∈ tokens -> starts_with p t = false.
Proof.
  intros H Ht. apply (List.find_none _ _ H). by apply list_elem_of_In, sorted_strings_elem.
Qed.

(** An address where a member has one, else a user, else a detector. *)
Lemma pivot_spec g : g <> [] ->
  let pivot := select_primary_pivot (tokens_of g) in
  pivot ∈ tokens_of g /\
  ((exists t, t ∈ tokens_of g /\ starts_with "ip:" t = true) -> starts_with "ip:" pivot = true).
Proof.
  intros Hg. cbn zeta. unfold select_primary_pivot.
  destruct (List.find (starts_with "ip:") _) as [t|] eqn:E1; [apply find_token in E1; naive_solver|].
  split; [|intros (t & Ht & Hs); pose proof (find_token_none _ _ t E1 Ht); congruence].
  destruct (List.find (starts_with "user:") _) as [t|] eqn:E2; [apply find_token in E2; naive_solver|].
  destruct (List.find (starts_with "detector:") _) as [t|] eqn:E3; [apply find_token in E3; naive_solver|].
  destruct g as [|x g]; [done|]. exfalso.
  assert (Hd : "detector:" +:+ detector_kind x ∈ tokens_of (x :: g)).
  { apply tokens_of_elem. exists x. split; [by left|]. unfold correlation_tokens. set_solver. }
  pose proof (find_token_none _ _ _ E3 Hd) as H. unfold starts_with in H. by rewrite prefix_app in H.
Qed.

(** What a reported cluster says of its members. *)
Record reported (window : Z) (g : list Incident) (c : IncidentCluster) : Prop := {
  re_ids : ic_incident_ids c = in_incident_id <$> g;
  re_start : in_ts <$> head g = Some (ic_start_ts c);
  re_end : in_ts <$> last g = Some (ic_end_ts c);
  re_sorted : StronglySorted older g;
  re_kinds : ic_detector_kinds c = sorted_strings (list_to_set (detector_kind <$> g));
  re_pivot : exists x, x ∈ g /\ ic_pivot c ∈ correlation_tokens x;
  re_pivot_ip : forall x t, x ∈ g -> t ∈ correlation_tokens x -> starts_with "ip:" t = true ->
    starts_with "ip:" (ic_pivot c) = true;
  re_linked : linked window g;
}.

Lemma finish_reported window g c : cluster_of window g c -> reported window g (finish_cluster c).
Proof.
  intros [Hi Hs He Hso Ht Hk Hl]. assert (Hg : g <> []) by by intros ->.
  pose proof (pivot_spec g Hg) as [Hp Hip]. rewrite <- Ht in Hp, Hip.
  split; cbn; [done..| | | |done].
  - by rewrite Hk.
  - apply tokens_of_elem. by rewrite Ht in Hp |- *.
  - intros x t Hx Htx Hst. apply Hip. exists t. split; [|done]. rewrite Ht. apply tokens_of_elem. eauto.
Qed.

Lemma Forall2_permute_r {A B} (P : A -> B -> Prop) l k k' :
  Forall2 P l k -> k ≡ₚ k' -> exists l', l ≡ₚ l' /\ Forall2 P l' k'.
Proof.
  intros H Hk. revert l H. induction Hk as [|x k k' _ IH|x y k|k1 k2 k3 _ IH1 _ IH2]; intros l H.
  - exists l. done.
  - inversion H as [|a ? l1 ? Ha Hl]; subst. destruct (IH _ Hl) as (l' & E & Hl').
    exists (a :: l'). split; [by rewrite E|by constructor].
  - inversion H as [|a ? l1 ? Ha Hl]; subst. inversion Hl as [|b ? l2 ? Hb Hl2]; subst.
    exists (b :: a :: l2). split; [constructor|by repeat constructor].
  - destruct (IH1 _ H) as (l' & E & H'). destruct (IH2 _ H') as (l'' & E' & H''). exists l''. by rewrite E, E'.
Qed.

(** C16. Every incident given to [build_clusters] is in exactly one cluster.  A
    cluster lists its members in order of time with the first and last stamp
    and the detectors involved; its pivot is one of a member, an address
    whenever there is one; each member after the first shares a pivot with an
    earlier one and follows the previous one within the window.  And no cluster
    is opened by an incident while an earlier one with a common pivot is open.
    The clusters come newest first. *)
Theorem clusters_exact (incidents : list Incident) (w : Z) :
  let window := seconds (as_signed 64 w) in
  exists groups, concat groups ≡ₚ incidents /\ Forall2 (reported window) groups (build_clusters incidents w) /\
    separated window groups /\ StronglySorted starts_later (build_clusters incidents w).
Proof.
  cbn zeta. set (window := seconds (as_signed 64 w)).
  assert (E : build_clusters incidents w =
    merge_sort starts_later (finish_cluster <$> foldl (place window) [] (merge_sort older incidents))) by by destruct incidents.
  rewrite E. clear E.
  destruct (fold_placed window (merge_sort older incidents)) as [groups [Hp Hof Hsep]];
    [apply (StronglySorted_merge_sort older)|].
  set (working := foldl _ _ _) in *.
  pose proof (merge_sort_Permutation starts_later (finish_cluster <$> working)) as Hperm.
  assert (Hrep : Forall2 (reported window) groups (finish_cluster <$> working)).
  { apply Forall2_fmap_r. eapply Forall2_impl; [done|]. intros g c. apply finish_reported. }
  destruct (Forall2_permute_r _ _ _ _ Hrep (symmetry Hperm)) as (groups' & Hg & Hrep').
  exists groups'. split; [|split; [done|split; [|apply (StronglySorted_merge_sort starts_later)]]].
  - rewrite <- Hg, Hp. apply merge_sort_Permutation.
  - intros g1 g2 x y z H1 H2. rewrite <- Hg in H1, H2. by apply Hsep.
Qed.
