(* ===== verification/XdpBlocklist.v ===== *)
(** * XdpBlocklist: the addresses dropped at the network driver
    (crates/shield/src/xdp_manager.rs, crates/agent/src/skills/builtin/block_ip_xdp.rs
    and the sweep of expired blocks in crates/agent/src/loops/boot.rs)

    Three writers share one pair of kernel maps: the manager of the shield, which
    keeps a mirror of what it added, the agent's skill, and the sweep that removes
    blocks whose time is over.  All of them run bpftool; the answer to a command
    is an argument, which may depend on the commands before it, and every
    operation threads the commands run so far.  What bpftool reports as done
    counts as done ([in_kernel]).  Times are within chrono's range.

    Proved here: what the manager mirrors is in the kernel as long as no two
    texts name one address and no other writer takes it out; the sweep does exactly what each answer asks for, and
    a hopeless entry is retried ever more rarely; and the mirror goes stale: a
    failed deletion is forgotten, an alias takes a block away, and an address
    blocked again after its block expired is reported as blocked without any
    command. *)

From Stdlib Require Import ZArith Lia Ascii String.
From stdpp Require Import prelude strings list gmap.
From S2P Require Import Prelude Text Json Net StoreKv AgentLifecycle AgentBlock.

Local Open Scope string_scope.
Local Open Scope list_scope.
Local Open Scope Z_scope.

(** ** Commands *)

Record Command := { cm_program : string; cm_args : list string }.

#[export] Instance command_eq_dec : EqDecision Command.
Proof. solve_decision. Defined.

Inductive ToolAnswer := SpawnFailed | Exited (success : bool) (stderr : string).

(** The answer to a command, given the commands run before it. *)
Definition Tool : Type := list Command -> Command -> ToolAnswer.

(** ** The manager of the shield *)

Record BlocklistEntry := { be_ip : string; be_added_at : Z; be_reason : string }.

Record XdpManager := {
  xm_bpf_path : string;
  xm_bpftool_bin : string;
  xm_blocklist : list BlocklistEntry;
  xm_dry_run : bool;
}.

Definition XdpManager_new (bpf_path : string) : XdpManager :=
  {| xm_bpf_path := bpf_path; xm_bpftool_bin := "bpftool"; xm_blocklist := []; xm_dry_run := false |}.
Definition with_dry_run (m : XdpManager) (dry_run : bool) : XdpManager :=
  {| xm_bpf_path := xm_bpf_path m; xm_bpftool_bin := xm_bpftool_bin m; xm_blocklist := xm_blocklist m;
     xm_dry_run := dry_run |}.
Definition with_bpftool_bin (m : XdpManager) (bin : string) : XdpManager :=
  {| xm_bpf_path := xm_bpf_path m; xm_bpftool_bin := bin; xm_blocklist := xm_blocklist m;
     xm_dry_run := xm_dry_run m |}.
Definition set_blocklist (m : XdpManager) (l : list BlocklistEntry) : XdpManager :=
  {| xm_bpf_path := xm_bpf_path m; xm_bpftool_bin := xm_bpftool_bin m; xm_blocklist := l;
     xm_dry_run := xm_dry_run m |}.

Inductive XdpError := ExecFailed | ToolFailed (ip stderr : string) | InvalidIp (ip : string).

Definition hex_byte (b : Z) : string := "0x" +:+ show_hex02 b.

Definition ip_to_bpf_map_and_key (ip : string) : result (string * string) XdpError :=
  match parse_ipv4 ip with
  | Some v4 => Ok ("blocklist", join " " (hex_byte <$> v4_octets v4))
  | None =>
      match parse_ipv6 ip with
      | Some v6 => Ok ("blocklist_v6", join " " (hex_byte <$> v6_octets v6))
      | None => Err (InvalidIp ip)
      end
  end.

Definition pinned_map_path (bpf_path map_name : string) : string := bpf_path +:+ "/" +:+ map_name.

Definition bpftool_update_args (pinned_map key_hex : string) : list string :=
  ["map"; "update"; "pinned"; pinned_map; "key"; key_hex; "value"; "0x01"; "0x00"; "0x00"; "0x00"].
Definition bpftool_delete_args (pinned_map key_hex : string) : list string :=
  ["map"; "delete"; "pinned"; pinned_map; "key"; key_hex].

Definition xdp_is_blocked (m : XdpManager) (ip : string) : bool :=
  any (fun e => String.eqb (be_ip e) ip) (xm_blocklist m).
Definition get_blocklist (m : XdpManager) : list string := be_ip <$> xm_blocklist m.
Definition blocklist_count (m : XdpManager) : nat := length (xm_blocklist m).

(** [Vec::remove] at the position of the first entry of the address. *)
Fixpoint remove_first (ip : string) (l : list BlocklistEntry) : list BlocklistEntry :=
  match l with
  | [] => []
  | e :: l' => if String.eqb (be_ip e) ip then l' else e :: remove_first ip l'
  end.

Section Manager.
Context (tool : Tool).

Definition add_to_blocklist (m : XdpManager) (tr : list Command) (ip reason : string) (now : Z)
  : XdpManager * list Command * result unit XdpError :=
  let push := set_blocklist m (xm_blocklist m ++ [{| be_ip := ip; be_added_at := now; be_reason := reason |}]) in
  if any (fun e => String.eqb (be_ip e) ip) (xm_blocklist m) then (m, tr, Ok ())
  else if xm_dry_run m then (push, tr, Ok ())
  else
    match ip_to_bpf_map_and_key ip with
    | Err e => (m, tr, Err e)
    | Ok (map_name, key_hex) =>
        let cmd := {| cm_program := xm_bpftool_bin m;
                      cm_args := bpftool_update_args (pinned_map_path (xm_bpf_path m) map_name) key_hex |} in
        match tool tr cmd with
        | SpawnFailed => (m, tr ++ [cmd], Err ExecFailed)
        | Exited false stderr => (m, tr ++ [cmd], Err (ToolFailed ip (from_utf8_lossy stderr)))
        | Exited true _ => (push, tr ++ [cmd], Ok ())
        end
    end.

Definition remove_from_blocklist (m : XdpManager) (tr : list Command) (ip : string)
  : XdpManager * list Command * result unit XdpError :=
  let dropped := set_blocklist m (remove_first ip (xm_blocklist m)) in
  if negb (any (fun e => String.eqb (be_ip e) ip) (xm_blocklist m)) then (m, tr, Ok ())
  else if xm_dry_run m then (dropped, tr, Ok ())
  else
    match ip_to_bpf_map_and_key ip with
    | Err _ => (dropped, tr, Ok ())
    | Ok (map_name, key_hex) =>
        let cmd := {| cm_program := xm_bpftool_bin m;
                      cm_args := bpftool_delete_args (pinned_map_path (xm_bpf_path m) map_name) key_hex |} in
        match tool tr cmd with
        | SpawnFailed => (m, tr ++ [cmd], Err ExecFailed)
        | Exited _ _ => (dropped, tr ++ [cmd], Ok ())
        end
    end.

(** [chrono::Duration::from_std] fails beyond [i64::MAX] milliseconds. *)
Definition age_limit (max_age : Z) : Z :=
  if max_age <=? (2 ^ 63 - 1) * NANOS_PER_MILLI then max_age else seconds 300.

Definition cleanup_blocklist (m : XdpManager) (tr : list Command) (max_age now : Z) : XdpManager * list Command :=
  let cutoff := now - age_limit max_age in
  let stale := be_ip <$> retain (fun e => be_added_at e <? cutoff) (xm_blocklist m) in
  foldl (fun mt ip => (remove_from_blocklist mt.1 mt.2 ip).1) (m, tr) stale.

End Manager.

(** ** The skill of the agent *)

Definition BLOCKLIST_PIN : string := "/sys/fs/bpf/innerwarden/blocklist".
Definition BLOCKLIST_V6_PIN : string := "/sys/fs/bpf/innerwarden/blocklist_v6".

Definition xdp_blocklist_pin_for_ip (ip : string) : option (string * list string) :=
  match parse_ipv4 ip with
  | Some v4 => Some (BLOCKLIST_PIN, show <$> v4_octets v4)
  | None => v6 ← parse_ipv6 ip; Some (BLOCKLIST_V6_PIN, show <$> v6_octets v6)
  end.

Definition sudo (args : list string) : Command := {| cm_program := "sudo"; cm_args := args |}.
Definition delete_command (map_pin : string) (key_args : list string) : Command :=
  sudo (["bpftool"; "map"; "delete"; "pinned"; map_pin; "key"] ++ key_args).
Definition update_command (map_pin : string) (key_args : list string) : Command :=
  sudo (["bpftool"; "map"; "update"; "pinned"; map_pin; "key"] ++ key_args ++ ["value"; "1"; "0"; "0"; "0"; "any"]).

(** The skill: its result with its message; [exists_pin] answers whether a path exists. *)
Definition block_ip_xdp (tool : Tool) (exists_pin : string -> bool) (tr : list Command) (target_ip : option string)
  (dry_run : bool) : list Command * (bool * string) :=
  match target_ip with
  | None => (tr, (false, "block-ip-xdp: no target IP in context"))
  | Some ip =>
      match xdp_blocklist_pin_for_ip ip with
      | None => (tr, (false, "block-ip-xdp: invalid IP address: " +:+ ip))
      | Some (map_pin, key_args) =>
          if dry_run then (tr, (true, "DRY RUN: would block " +:+ ip +:+ " via XDP (wire-speed)"))
          else if negb (exists_pin map_pin) then
            (tr, (false, "XDP not available (map not found at " +:+ map_pin +:+
                         "). Ensure innerwarden-sensor is running with XDP attached."))
          else
            let cmd := update_command map_pin key_args in
            (tr ++ [cmd],
             match tool tr cmd with
             | Exited true _ => (true, "Blocked " +:+ ip +:+ " via XDP - wire-speed drop active")
             | Exited false stderr => (false, "XDP block failed for " +:+ ip +:+ ": " +:+ from_utf8_lossy stderr)
             | SpawnFailed => (false, "failed to run bpftool")
             end)
      end
  end.

Definition xdp_unblock_ip (tool : Tool) (tr : list Command) (ip : string) : list Command * result unit string :=
  match xdp_blocklist_pin_for_ip ip with
  | None => (tr, Err ("invalid IP: " +:+ ip))
  | Some (map_pin, key_args) =>
      let cmd := delete_command map_pin key_args in
      (tr ++ [cmd],
       match tool tr cmd with
       | SpawnFailed => Err "failed to run bpftool"
       | Exited true _ => Ok ()
       | Exited false stderr => Err (from_utf8_lossy stderr)
       end)
  end.

Definition is_xdp_privilege_failure (stderr_lower : string) : bool :=
  any (fun p => contains p stderr_lower)
    ["conversation failed"; "password is required"; "askpass"; "no tty present"; "not allowed to execute";
     "not in the sudoers"; "permission denied"; "operation not permitted"; "must be run as root"].

(** The shift is at most six, so [saturating_mul] does not saturate. *)
Definition xdp_cleanup_backoff_secs (consecutive_failures : Z) : Z :=
  let shift := Z.min (saturating_sub consecutive_failures 1) 6 in
  Z.min (60 * Z.shiftl 1 shift) 3600.

(** ** The sweep of expired blocks *)

Section Sweep.
Context {S : Type} `{KvStore S, Lowercase} (tool : Tool).

Record SweepState := {
  sw_times : gmap string (Z * Z);
  sw_backoff : gmap string (Z * Z);
  sw_store : S;
  sw_trace : list Command;
}.

Definition remove_xdp_block_time (s : S) (ip : string) : S := (kvi_delete s NS_XDP_BLOCK_TIMES ip).1.

Definition block_expired (now : Z) (block : Z * Z) : bool := block.1 + seconds block.2 <? now.

Definition expired_ips (now : Z) (times : gmap string (Z * Z)) : list string :=
  (retain (fun kv => block_expired now kv.2) (map_to_list times)).*1.

Definition drop_entry (st : SweepState) (ip : string) (tr : list Command) : SweepState :=
  {| sw_times := delete ip (sw_times st); sw_backoff := delete ip (sw_backoff st);
     sw_store := remove_xdp_block_time (sw_store st) ip; sw_trace := tr |}.

Definition keep_entry (st : SweepState) (tr : list Command) : SweepState :=
  {| sw_times := sw_times st; sw_backoff := sw_backoff st; sw_store := sw_store st; sw_trace := tr |}.

Definition next_backoff (now : Z) (old : option (Z * Z)) : Z * Z :=
  let failures := saturating_add 32 (fst (default (0, now) old)) 1 in
  (failures, now + seconds (xdp_cleanup_backoff_secs failures)).

Definition back_off (st : SweepState) (ip : string) (now : Z) (tr : list Command) : SweepState :=
  {| sw_times := sw_times st; sw_backoff := <[ip := next_backoff now (sw_backoff st !! ip)]> (sw_backoff st);
     sw_store := sw_store st; sw_trace := tr |}.

Definition already_absent (lower : string) : bool :=
  contains "no such" lower || contains "not found" lower || contains "does not exist" lower.

Definition backing_off (now : Z) (backoff : option (Z * Z)) : bool :=
  match backoff with Some (_, next_retry) => now <? next_retry | None => false end.

(** What the answer to the deletion asks for. *)
Inductive SweepOutcome := Forget | BackOff | KeepForRetry.

Definition classify_answer (a : ToolAnswer) : SweepOutcome :=
  match a with
  | Exited true _ => Forget
  | Exited false stderr =>
      let lower := to_lowercase (from_utf8_lossy stderr) in
      if already_absent lower then Forget
      else if is_xdp_privilege_failure lower then BackOff
      else KeepForRetry
  | SpawnFailed => BackOff
  end.

Definition sweep_one (now : Z) (st : SweepState) (ip : string) : SweepState :=
  if backing_off now (sw_backoff st !! ip) then st
  else
    match xdp_blocklist_pin_for_ip ip with
    | None => drop_entry st ip (sw_trace st)
    | Some (map_pin, key_args) =>
        let cmd := delete_command map_pin key_args in
        let tr := sw_trace st ++ [cmd] in
        match classify_answer (tool (sw_trace st) cmd) with
        | Forget => drop_entry st ip tr
        | BackOff => back_off st ip now tr
        | KeepForRetry => keep_entry st tr
        end
    end.

Definition sweep (now : Z) (st : SweepState) : SweepState :=
  foldl (sweep_one now) st (expired_ips now (sw_times st)).

End Sweep.
Arguments SweepState S : clear implicits.

(** ** The manager and the kernel *)

(** The keys in the pinned maps, when an answered success means that the map was
    changed and a failure that it was not. *)
Definition kernel_effect (c : Command) (a : ToolAnswer) (k : gset (string * string)) : gset (string * string) :=
  match a, cm_args c with
  | Exited true _, _ :: verb :: _ :: path :: _ :: key :: _ =>
      if String.eqb verb "update" then {[(path, key)]} ∪ k
      else if String.eqb verb "delete" then k ∖ {[(path, key)]} else k
  | _, _ => k
  end.

Fixpoint kernel_from (tool : Tool) (pre : list Command) (k : gset (string * string)) (tr : list Command)
  : gset (string * string) :=
  match tr with
  | [] => k
  | c :: tr' => kernel_from tool (pre ++ [c]) (kernel_effect c (tool pre c) k) tr'
  end.
Definition kernel (tool : Tool) (tr : list Command) : gset (string * string) := kernel_from tool [] ∅ tr.

(** The address is in the map the manager writes to. *)
Definition in_kernel (tool : Tool) (m : XdpManager) (tr : list Command) (ip : string) : Prop :=
  exists map_name key, ip_to_bpf_map_and_key ip = Ok (map_name, key) /\
    (pinned_map_path (xm_bpf_path m) map_name, key) ∈ kernel tool tr.

(** The operations of the manager, and a command run by another writer of the maps
    (the skill of the agent or the sweep; its key in the manager's spelling). *)
Inductive XdpOp :=
| XAdd (ip reason : string) (now : Z)
| XRemove (ip : string)
| XCleanup (max_age now : Z)
| XOther (c : Command).

Definition xdp_step (tool : Tool) (mt : XdpManager * list Command) (o : XdpOp) : XdpManager * list Command :=
  match o with
  | XAdd ip reason now => (add_to_blocklist tool mt.1 mt.2 ip reason now).1
  | XRemove ip => (remove_from_blocklist tool mt.1 mt.2 ip).1
  | XCleanup max_age now => cleanup_blocklist tool mt.1 mt.2 max_age now
  | XOther c => (mt.1, mt.2 ++ [c])
  end.
Definition xdp_run (tool : Tool) (bpf_path : string) (ops : list XdpOp) : XdpManager * list Command :=
  foldl (xdp_step tool) (XdpManager_new bpf_path, []) ops.

Definition added_ips (ops : list XdpOp) : list string :=
  omap (fun o => match o with XAdd ip _ _ => Some ip | _ => None end) ops.

Lemma kernel_from_snoc tool tr c : forall pre k,
  kernel_from tool pre k (tr ++ [c]) = kernel_effect c (tool (pre ++ tr) c) (kernel_from tool pre k tr).
Proof.
  induction tr as [|d tr IH]; intros pre k; cbn; [by rewrite app_nil_r|]. rewrite IH. by rewrite <- app_assoc.
Qed.

Lemma kernel_snoc tool tr c : kernel tool (tr ++ [c]) = kernel_effect c (tool tr c) (kernel tool tr).
Proof. apply kernel_from_snoc. Qed.

Lemma has_ip l ip : any (fun e => String.eqb (be_ip e) ip) l = true <-> ip ∈ be_ip <$> l.
Proof.
  rewrite any_true, list_elem_of_fmap. setoid_rewrite String.eqb_eq. naive_solver.
Qed.

Lemma has_no_ip l ip : any (fun e => String.eqb (be_ip e) ip) l = false <-> ip ∉ be_ip <$> l.
Proof. rewrite <- has_ip. by destruct (any _ _). Qed.

Lemma remove_first_retain ip l : NoDup (be_ip <$> l) ->
  remove_first ip l = retain (fun e => negb (String.eqb (be_ip e) ip)) l.
Proof.
  induction l as [|e l IH]; [done|]. cbn. intros [He Hl]%NoDup_cons. destruct (String.eqb_spec (be_ip e) ip) as [<-|]; cbn.
  - symmetry. apply retain_all, Forall_forall. intros x Hx. apply negb_true_iff, String.eqb_neq. intros E. apply He.
    rewrite <- E. by apply list_elem_of_fmap_2.
  - f_equal. auto.
Qed.

Lemma pinned_inj p a b : pinned_map_path p a = pinned_map_path p b -> a = b.
Proof. unfold pinned_map_path. intros E. by apply (inj (String.append _)), (inj (String.append _)) in E. Qed.

Definition distinct_addresses (ips : list string) : Prop :=
  forall a b, a ∈ ips -> b ∈ ips -> ip_to_bpf_map_and_key a = ip_to_bpf_map_and_key b -> a = b.

Definition listed (mt : XdpManager * list Command) (ip : string) : Prop := ip ∈ get_blocklist mt.1.
Definition kept (tool : Tool) (mt : XdpManager * list Command) (ip : string) : Prop := in_kernel tool mt.1 mt.2 ip.

(** The mirror: not in dry run, no address twice, all of them addresses among [ips]. *)
Record mirror_ok (ips : list string) (m : XdpManager) : Prop := {
  mo_live : xm_dry_run m = false;
  mo_nodup : NoDup (get_blocklist m);
  mo_ips : forall ip, ip ∈ get_blocklist m -> ip ∈ ips /\ exists t, ip_to_bpf_map_and_key ip = Ok t;
}.

(** An operation of the manager: an address that is listed after it was put into
    the kernel by it, or was listed before and is in the kernel if it was before. *)
Definition mirrored (tool : Tool) (mt mt' : XdpManager * list Command) : Prop :=
  forall ip, listed mt' ip -> kept tool mt' ip \/ (listed mt ip /\ (kept tool mt ip -> kept tool mt' ip)).

Section Mirror.
Context (tool : Tool) (ips : list string) (Hdist : distinct_addresses ips).

Lemma mirrored_refl mt : mirrored tool mt mt.
Proof. intros ip Hl. by right. Qed.

Lemma mirrored_trans a b c : mirrored tool a b -> mirrored tool b c -> mirrored tool a c.
Proof. intros Hab Hbc ip Hc. destruct (Hbc ip Hc) as [|[Hb Hk]]; [by left|]. destruct (Hab ip Hb) as [|[]]; naive_solver. Qed.

Lemma in_kernel_keep m tr m' c ip :
  xm_bpf_path m' = xm_bpf_path m -> in_kernel tool m tr ip -> kernel tool tr ⊆ kernel tool (tr ++ [c]) ->
  in_kernel tool m' (tr ++ [c]) ip.
Proof. intros E (mn & k & Hk & Hin) Hsub. exists mn, k. rewrite E. set_solver. Qed.

Lemma add_mirror m tr ip reason now : mirror_ok ips m -> ip ∈ ips ->
  let mt' := (add_to_blocklist tool m tr ip reason now).1 in mirror_ok ips mt'.1 /\ mirrored tool (m, tr) mt'.
Proof.
  intros H Hip. pose proof H as [Hl Hn Hi]. unfold add_to_blocklist. rewrite Hl.
  destruct (any _ _) eqn:Ea; [split; [done|apply mirrored_refl]|]. apply has_no_ip in Ea.
  destruct (ip_to_bpf_map_and_key ip) as [[mn key]|e] eqn:Ek; [|split; [done|apply mirrored_refl]].
  set (cmd := {| cm_program := _; cm_args := _ |}). pose proof (kernel_snoc tool tr cmd) as Es.
  assert (Hkeep : kernel tool tr ⊆ kernel tool (tr ++ [cmd])).
  { rewrite Es. destruct (tool tr cmd) as [|[|] err]; cbn; set_solver. }
  assert (Hold : forall m' x, xm_bpf_path m' = xm_bpf_path m -> kept tool (m, tr) x -> kept tool (m', tr ++ [cmd]) x).
  { intros m' x Hm. unfold kept. cbn [fst snd]. intros Hx. by eapply in_kernel_keep. }
  destruct (tool tr cmd) as [|[|] err]; cbn [fst]; [split; [done|]; intros x Hx; right; split; [done|by apply Hold]| |
    split; [done|]; intros x Hx; right; split; [done|by apply Hold]].
  cbn in Es. split.
  - split; cbn [fst set_blocklist xm_dry_run]; unfold get_blocklist in *; cbn [set_blocklist xm_blocklist]; rewrite ?fmap_app; cbn; [done|..].
    + apply NoDup_app. split; [done|]. split; [|apply NoDup_singleton]. set_solver.
    + intros x [Hx|Hx]%elem_of_app; [by apply Hi|]. apply list_elem_of_singleton in Hx as ->. eauto.
  - intros x Hx. unfold listed, get_blocklist in Hx. cbn in Hx. rewrite fmap_app in Hx. apply elem_of_app in Hx as [Hx|Hx].
    + right. split; [done|by apply Hold].
    + left. cbn in Hx. apply list_elem_of_singleton in Hx as ->. exists mn, key. split; [done|]. cbn [snd fst]. rewrite Es. cbn. set_solver.
Qed.

Lemma remove_mirror m tr ip : mirror_ok ips m ->
  let mt' := (remove_from_blocklist tool m tr ip).1 in mirror_ok ips mt'.1 /\ mirrored tool (m, tr) mt'.
Proof.
  intros H. pose proof H as [Hl Hn Hi]. unfold remove_from_blocklist. rewrite Hl.
  destruct (any _ _) eqn:Ea; cbn [negb]; [|split; [done|apply mirrored_refl]]. apply has_ip in Ea.
  assert (Hsub : forall x, x ∈ be_ip <$> remove_first ip (xm_blocklist m) -> x ∈ be_ip <$> xm_blocklist m /\ x <> ip).
  { intros x. rewrite remove_first_retain by done. rewrite list_elem_of_fmap. intros (e & -> & He).
    apply retain_elem in He as [He Hne]. split; [by apply list_elem_of_fmap_2|]. by apply negb_true_iff, String.eqb_neq in Hne. }
  assert (Hnd : NoDup (be_ip <$> remove_first ip (xm_blocklist m))).
  { rewrite remove_first_retain by done. eapply sublist_NoDup; [exact Hn|]. apply fmap_sublist, retain_sublist. }
  destruct (Hi ip Ea) as (Hin & [mn key] & Ek). rewrite Ek.
  set (cmd := {| cm_program := _; cm_args := _ |}). pose proof (kernel_snoc tool tr cmd) as Es.
  destruct (tool tr cmd) as [|b err] eqn:Et; cbn [fst].
  - split; [done|]. intros x Hx. right. split; [done|]. intros Hk. eapply in_kernel_keep; [done|exact Hk|]. by rewrite Es.
  - split; [split; unfold get_blocklist; cbn [fst set_blocklist xm_dry_run xm_blocklist]; [done|done|intros x Hx; by apply Hi, Hsub]|].
    intros x Hx. right. unfold listed, get_blocklist in Hx. cbn in Hx. apply Hsub in Hx as [Hx Hne]. split; [done|].
    intros (mn' & key' & Ek' & Hk). exists mn', key'. split; [done|]. cbn [fst snd set_blocklist xm_bpf_path] in *. rewrite Es.
    destruct b; [|done]. cbn. apply elem_of_difference. split; [done|]. intros [=E1 E2]%elem_of_singleton.
    apply pinned_inj in E1. subst. apply Hne, Hdist; [by apply Hi|done|congruence].
Qed.

Lemma cleanup_mirror m tr max_age now : mirror_ok ips m ->
  let mt' := cleanup_blocklist tool m tr max_age now in mirror_ok ips mt'.1 /\ mirrored tool (m, tr) mt'.
Proof.
  unfold cleanup_blocklist. set (stale := be_ip <$> _). clearbody stale. revert m tr.
  induction stale as [|ip stale IH]; intros m tr H; [split; [done|apply mirrored_refl]|]. cbn [foldl fst snd].
  pose proof (remove_mirror m tr ip H) as [H' Hm]. destruct (remove_from_blocklist tool m tr ip).1 as [m' tr'].
  destruct (IH m' tr' H') as [H'' Hm']. split; [done|]. by eapply mirrored_trans.
Qed.

Definition manager_op (o : XdpOp) : Prop := match o with XOther _ => False | _ => True end.

Lemma xdp_step_mirror mt o : mirror_ok ips mt.1 -> (forall ip, ip ∈ added_ips [o] -> ip ∈ ips) ->
  mirror_ok ips (xdp_step tool mt o).1 /\ (manager_op o -> mirrored tool mt (xdp_step tool mt o)).
Proof.
  destruct mt as [m tr]. cbn [fst]. intros H Ho. destruct o as [x r n|x|a n|c]; cbn [xdp_step fst snd].
  - destruct (add_mirror m tr x r n H) as [? ?]; [|done]. apply Ho. cbn. set_solver.
  - by destruct (remove_mirror m tr x H).
  - by destruct (cleanup_mirror m tr a n H).
  - done.
Qed.
End Mirror.

(** Another writer took the address out of the map while the manager listed it,
    and the manager has listed it ever since. *)
Definition taken_by_other (tool : Tool) (bpf_path : string) (ops : list XdpOp) (ip : string) : Prop :=
  exists pre c post, ops = pre ++ XOther c :: post /\
    kept tool (xdp_run tool bpf_path pre) ip /\ ~ kept tool (xdp_run tool bpf_path (pre ++ [XOther c])) ip /\
    forall k, k `prefix_of` post -> listed (xdp_run tool bpf_path (pre ++ XOther c :: k)) ip.

Lemma taken_snoc tool bpf_path ops o ip :
  taken_by_other tool bpf_path ops ip -> listed (xdp_run tool bpf_path (ops ++ [o])) ip ->
  taken_by_other tool bpf_path (ops ++ [o]) ip.
Proof.
  intros (pre & c & post & -> & Hk & Hn & Hl) Ho. exists pre, c, (post ++ [o]). split; [by rewrite <- app_assoc|].
  split; [done|]. split; [done|]. intros k [r Hr]. destruct r as [|y r _] using rev_ind.
  - rewrite app_nil_r in Hr. subst k. by rewrite <- app_assoc in Ho.
  - rewrite app_assoc in Hr. apply app_inj_tail in Hr as [-> _]. apply Hl. by exists r.
Qed.

Lemma kept_dec tool mt ip : Decision (kept tool mt ip).
Proof.
  unfold kept, in_kernel. destruct (ip_to_bpf_map_and_key ip) as [[mn key]|e].
  - destruct (decide ((pinned_map_path (xm_bpf_path mt.1) mn, key) ∈ kernel tool mt.2)); [left; eauto|right; naive_solver].
  - right. naive_solver.
Defined.

Lemma mirror_reachable tool bpf_path ips ops : distinct_addresses ips -> (forall ip, ip ∈ added_ips ops -> ip ∈ ips) ->
  mirror_ok ips (xdp_run tool bpf_path ops).1 /\
  forall ip, listed (xdp_run tool bpf_path ops) ip ->
    kept tool (xdp_run tool bpf_path ops) ip \/ taken_by_other tool bpf_path ops ip.
Proof.
  intros Hd. induction ops as [|o ops IH] using rev_ind; intros Hin.
  { split; [split; [done|constructor|set_solver]|]. intros ip Hl. by apply elem_of_nil in Hl. }
  assert (Hin' : forall ip, ip ∈ added_ips ops -> ip ∈ ips) by (intros; apply Hin; unfold added_ips; rewrite omap_app; set_solver).
  destruct (IH Hin') as [Hok Hk]. pose proof (xdp_step_mirror tool ips Hd (xdp_run tool bpf_path ops) o Hok) as Hs.
  unfold xdp_run at 1 2 3. rewrite foldl_snoc. fold (xdp_run tool bpf_path ops).
  destruct Hs as [Hok' Hm]; [intros ip Hi; apply Hin; unfold added_ips in *; rewrite omap_app; set_solver|].
  split; [done|]. intros ip Hl. assert (listed (xdp_run tool bpf_path (ops ++ [o])) ip) as Hl'.
  { unfold xdp_run. by rewrite foldl_snoc. }
  destruct o as [x r n|x|a n|c].
  1-3: destruct (Hm I ip Hl) as [|[Hb Hp]]; [by left|]; destruct (Hk ip Hb); [left; by apply Hp|right; by apply taken_snoc].
  destruct (Hk ip Hl) as [Hkept|]; [|right; by apply taken_snoc].
  destruct (kept_dec tool (xdp_step tool (xdp_run tool bpf_path ops) (XOther c)) ip) as [|Hno]; [by left|right].
  exists ops, c, []. split; [done|]. split; [done|]. split; [unfold xdp_run; rewrite foldl_snoc; exact Hno|].
  intros k Hp. by apply prefix_nil_inv in Hp as ->.
Qed.


(** A tool that does what it is told. *)
Definition obedient : Tool := fun _ _ => Exited true "".

(** The manager's own key of an address, deleted by the sweep. *)
Definition swept_away : Command :=
  {| cm_program := "sudo"; cm_args := bpftool_delete_args "/sys/fs/bpf/blocklist" "0xcb 0x00 0x71 0x07" |}.


(** The other case is real: the sweep's deletion goes unnoticed. *)
Theorem sweep_makes_stale :
  let ops := [XAdd "203.0.113.7" "flood" 0; XOther swept_away] in
  let '(m, tr) := xdp_run obedient "/sys/fs/bpf" ops in
  xdp_is_blocked m "203.0.113.7" = true /\ ~ in_kernel obedient m tr "203.0.113.7".
Proof. vm_compute. split; [done|]. intros (mn & k & [= <- <-] & Hin). by vm_compute in Hin. Qed.

(** Two texts of one address: after both were blocked and one was removed, the
    manager still takes the other for blocked, and the kernel drops nothing. *)
Theorem alias_loses_block :
  let ops := [XAdd "2001:db8::1" "flood" 0; XAdd "2001:db8:0::1" "flood" 1; XRemove "2001:db8:0::1"] in
  let '(m, tr) := xdp_run obedient "/sys/fs/bpf" ops in
  xdp_is_blocked m "2001:db8::1" = true /\ ~ in_kernel obedient m tr "2001:db8::1" /\ kernel obedient tr = ∅.
Proof.
  vm_compute. split; [done|]. split; [|done]. intros (mn & k & [= <- <-] & Hin). by vm_compute in Hin.
Qed.

(** A deletion that fails is forgotten: the address leaves the mirror and stays
    in the kernel, and no later removal or cleanup issues a command for it. *)
Theorem failed_removal_forgotten (tool : Tool) (m : XdpManager) (tr : list Command) (ip : string) (err : string) :
  let '(m', tr', r) := remove_from_blocklist tool m tr ip in
  NoDup (get_blocklist m) -> xdp_is_blocked m ip = true -> xm_dry_run m = false -> in_kernel tool m tr ip ->
  (forall c, tool tr c = Exited false err) ->
  r = Ok () /\ xdp_is_blocked m' ip = false /\ in_kernel tool m' tr' ip /\
  forall t, remove_from_blocklist t m' tr' ip = (m', tr', Ok ()).
Proof.
  destruct (remove_from_blocklist tool m tr ip) as [[m' tr'] r] eqn:E. intros Hn Hb Hl Hk Ht.
  unfold remove_from_blocklist in E. unfold xdp_is_blocked in Hb. rewrite Hb, Hl in E. cbn [negb] in E.
  destruct Hk as (mn & key & Ek & Hin). rewrite Ek, Ht in E. simplify_eq.
  assert (Hgone : any (fun e => String.eqb (be_ip e) ip) (remove_first ip (xm_blocklist m)) = false).
  { apply has_no_ip. rewrite remove_first_retain by done. rewrite list_elem_of_fmap. intros (e & E & He).
    apply retain_elem in He as [_ He]. by rewrite <- E, String.eqb_refl in He. }
  split; [done|]. split; [done|]. split.
  - exists mn, key. split; [done|]. rewrite kernel_snoc, Ht. done.
  - intros t. unfold remove_from_blocklist. cbn [set_blocklist xm_blocklist]. by rewrite Hgone.
Qed.

Lemma retain_twice {A} (p q : A -> bool) l : retain p (retain q l) = retain (fun x => q x && p x) l.
Proof.
  unfold retain in *. induction l as [|x l IH]; [done|]. cbn. destruct (q x); cbn; [destruct (p x); [f_equal|]|]; exact IH.
Qed.

(** When bpftool can be run, a cleanup leaves exactly the entries that are not
    older than the limit, in their order. *)
Theorem cleanup_exact (tool : Tool) (m : XdpManager) (tr : list Command) (max_age now : Z) :
  NoDup (get_blocklist m) -> (forall t c, tool t c <> SpawnFailed) ->
  xm_blocklist (cleanup_blocklist tool m tr max_age now).1 =
  retain (fun e => now - age_limit max_age <=? be_added_at e) (xm_blocklist m).
Proof.
  intros Hn Ht. unfold cleanup_blocklist. set (cutoff := now - age_limit max_age).
  set (stale := be_ip <$> _).
  assert (Hrm : forall m tr ip, NoDup (get_blocklist m) ->
    xm_blocklist (remove_from_blocklist tool m tr ip).1.1 = retain (fun e => negb (String.eqb (be_ip e) ip)) (xm_blocklist m)).
  { clear -Ht. intros m tr ip Hn. unfold remove_from_blocklist. rewrite <- remove_first_retain by done.
    destruct (any _ _) eqn:Ea; cbn [negb].
    - destruct (xm_dry_run m); [done|]. destruct (ip_to_bpf_map_and_key ip) as [[mn k]|]; [|done].
      specialize (Ht tr). destruct (tool tr _) eqn:Et; [by destruct (Ht _ Et)|done].
    - cbn. rewrite remove_first_retain by done. symmetry. apply retain_all, Forall_forall. intros e He.
      apply negb_true_iff, String.eqb_neq. intros E. apply has_no_ip in Ea. apply Ea. rewrite <- E. by apply list_elem_of_fmap_2. }
  assert (Hall : forall l m tr, NoDup (get_blocklist m) ->
    xm_blocklist (foldl (fun mt ip => (remove_from_blocklist tool mt.1 mt.2 ip).1) (m, tr) l).1 =
    retain (fun e => negb (mem_str (be_ip e) l)) (xm_blocklist m)).
  { clear -Hrm. induction l as [|ip l IH]; intros m tr Hn; cbn [foldl fst snd].
    - symmetry. apply retain_all, Forall_forall. intros e _. apply negb_true_iff, mem_str_false. set_solver.
    - pose proof (Hrm m tr ip Hn) as E. destruct (remove_from_blocklist tool m tr ip) as [[m' tr'] r]. cbn [fst] in *.
      rewrite IH by (unfold get_blocklist; rewrite E; eapply sublist_NoDup; [exact Hn|]; apply fmap_sublist, retain_sublist).
      rewrite E, retain_twice. apply List.filter_ext. intros e. apply eq_bool_prop_intro. rewrite !Is_true_true.
      rewrite andb_true_iff, !negb_true_iff, !mem_str_false, String.eqb_neq. set_solver. }
  rewrite Hall by done. apply List.filter_ext_in. intros e He%list_elem_of_In.
  apply eq_bool_prop_intro. rewrite !Is_true_true, negb_true_iff, mem_str_false, Z.leb_le. subst stale.
  rewrite list_elem_of_fmap. split.
  - intros H. apply Z.nlt_ge. intros Hlt. apply H. exists e. split; [done|]. apply retain_elem. split; [done|]. by apply Z.ltb_lt.
  - intros H (e' & E & He'). apply retain_elem in He' as [He' Hlt%Z.ltb_lt].
    enough (e = e') by (subst; lia). clear -Hn He He' E. unfold get_blocklist in Hn.
    apply list_elem_of_lookup in He as [i Hi], He' as [j Hj].
    assert (i = j) as ->; [|congruence]. eapply (NoDup_lookup _ i j); [exact Hn|..]; rewrite list_lookup_fmap.
    + by rewrite Hi.
    + rewrite Hj. cbn. by rewrite E.
Qed.

(** ** The sweep *)

Section SweepProofs.
Context {S : Type} `{KvStore S} `{!KvLaws S} `{Lowercase} (tool : Tool).

Definition delete_of (ip : string) : option Command :=
  '(map_pin, key_args) ← xdp_blocklist_pin_for_ip ip; Some (delete_command map_pin key_args).

(** What becomes of an expired block and its backoff under the answer [a]. *)
Definition swept (now : Z) (ip : string) (block backoff : option (Z * Z)) (a : ToolAnswer)
  : option (Z * Z) * option (Z * Z) :=
  if backing_off now backoff then (block, backoff)
  else if negb (bool_decide (is_Some (delete_of ip))) then (None, None)
  else match classify_answer a with
       | Forget => (None, None)
       | BackOff => (block, Some (next_backoff now backoff))
       | KeepForRetry => (block, backoff)
       end.

(** The commands of a sweep over [l]. *)
Definition sweep_commands (now : Z) (backoff : gmap string (Z * Z)) (l : list string) : list Command :=
  omap (fun ip => if backing_off now (backoff !! ip) then None else delete_of ip) l.

Definition looked (st : SweepState S) (ip : string) : option (Z * Z) * option (Z * Z) :=
  (sw_times st !! ip, sw_backoff st !! ip).

Lemma delete_of_pin ip : delete_of ip = (fun '(p, k) => delete_command p k) <$> xdp_blocklist_pin_for_ip ip.
Proof. unfold delete_of. by destruct (xdp_blocklist_pin_for_ip ip) as [[]|]. Qed.

(** One entry: only its own bookkeeping changes, its copy in the store goes with
    it, and at most one command is run. *)
Lemma sweep_one_spec now st ip :
  let st' := sweep_one tool now st ip in
  let a := tool (sw_trace st) (default (sudo []) (delete_of ip)) in
  looked st' ip = swept now ip (sw_times st !! ip) (sw_backoff st !! ip) a /\
  (forall x, x <> ip -> looked st' x = looked st x) /\
  sw_trace st' = sw_trace st ++ sweep_commands now (sw_backoff st) [ip] /\
  (is_Some (sw_times st !! ip) -> kv_ok (sw_store st) -> kv_ok (sw_store st') /\
    forall x, kvi_get (sw_store st') NS_XDP_BLOCK_TIMES x =
      if bool_decide (x = ip /\ sw_times st' !! ip = None) then Ok None else kvi_get (sw_store st) NS_XDP_BLOCK_TIMES x).
Proof.
  cbn zeta. unfold sweep_one, swept, sweep_commands, looked. cbn [omap list_omap].
  assert (Hkeep : forall st' : SweepState S, sw_times st' = sw_times st -> sw_store st' = sw_store st ->
    is_Some (sw_times st !! ip) -> kv_ok (sw_store st) -> kv_ok (sw_store st') /\
    forall x, kvi_get (sw_store st') NS_XDP_BLOCK_TIMES x =
      if bool_decide (x = ip /\ sw_times st' !! ip = None) then Ok None else kvi_get (sw_store st) NS_XDP_BLOCK_TIMES x).
  { intros st' Et Es [b Hb] Hok. rewrite Es. split; [done|]. intros x. rewrite bool_decide_eq_false_2; [done|].
    rewrite Et, Hb. naive_solver. }
  assert (Hdrop : forall tr, is_Some (sw_times st !! ip) -> kv_ok (sw_store st) ->
    kv_ok (sw_store (drop_entry st ip tr)) /\
    forall x, kvi_get (sw_store (drop_entry st ip tr)) NS_XDP_BLOCK_TIMES x =
      if bool_decide (x = ip /\ sw_times (drop_entry st ip tr) !! ip = None) then Ok None
      else kvi_get (sw_store st) NS_XDP_BLOCK_TIMES x).
  { intros tr _ Hok. cbn. split; [by apply kvi_delete_ok|]. intros x. unfold remove_xdp_block_time.
    rewrite kvi_get_delete by done. rewrite lookup_delete_eq.
    apply (f_equal (fun b : bool => if b then _ else _)), bool_decide_ext. naive_solver. }
  destruct (backing_off now (sw_backoff st !! ip)) eqn:Eb.
  { rewrite app_nil_r. split; [done|]. split; [done|]. split; [done|]. by apply Hkeep. }
  destruct (xdp_blocklist_pin_for_ip ip) as [[p k]|] eqn:Ep.
  - assert (Ed : delete_of ip = Some (delete_command p k)) by by rewrite delete_of_pin, Ep.
    rewrite Ed. cbn [default]. rewrite bool_decide_eq_true_2 by eauto. cbn [negb].
    destruct (classify_answer _).
    + split; [cbn; by rewrite !lookup_delete_eq|]. split; [|split; [done|apply Hdrop]].
      intros x Hx. cbn. by rewrite !lookup_delete_ne by done.
    + split; [cbn; by rewrite lookup_insert_eq|]. split; [|split; [done|by apply Hkeep]].
      intros x Hx. cbn. by rewrite lookup_insert_ne by done.
    + split; [done|]. split; [done|]. split; [done|by apply Hkeep].
  - assert (Ed : delete_of ip = None) by by rewrite delete_of_pin, Ep.
    rewrite Ed, bool_decide_eq_false_2 by (by intros []). cbn [negb].
    split; [cbn; by rewrite !lookup_delete_eq|]. split; [|split; [cbn; by rewrite app_nil_r|apply Hdrop]].
    intros x Hx. cbn. by rewrite !lookup_delete_ne by done.
Qed.

Lemma omap_agree {A B} (f g : A -> option B) (l : list A) : (forall x, x ∈ l -> f x = g x) -> omap f l = omap g l.
Proof.
  induction l as [|x l IH]; [done|]. intros E. cbn. rewrite (E x) by (by left). rewrite IH; [done|].
  intros y Hy. apply E. by right.
Qed.

Lemma sweep_list now l : NoDup l -> forall st, (forall ip, ip ∈ l -> is_Some (sw_times st !! ip)) ->
  let st' := foldl (sweep_one tool now) st l in
  exists ans : string -> ToolAnswer,
  (forall ip, ip ∈ l -> exists pre, ans ip = tool (sw_trace st ++ pre) (default (sudo []) (delete_of ip))) /\
  (forall ip, looked st' ip = if bool_decide (ip ∈ l) then swept now ip (sw_times st !! ip) (sw_backoff st !! ip) (ans ip)
                              else looked st ip) /\
  sw_trace st' = sw_trace st ++ sweep_commands now (sw_backoff st) l /\
  (kv_ok (sw_store st) -> kv_ok (sw_store st') /\
    forall x, kvi_get (sw_store st') NS_XDP_BLOCK_TIMES x =
      if bool_decide (x ∈ l /\ sw_times st' !! x = None) then Ok None else kvi_get (sw_store st) NS_XDP_BLOCK_TIMES x).
Proof.
  induction l as [|ip l IH]; intros Hnd st Hin; cbn [foldl].
  { exists (fun _ => SpawnFailed). cbn. rewrite app_nil_r. split; [set_solver|]. split; [done|]. split; [done|].
    intros Hok. split; [done|]. intros x. rewrite bool_decide_eq_false_2; [done|]. set_solver. }
  apply NoDup_cons in Hnd as [Hni Hnd].
  destruct (sweep_one_spec now st ip) as (Hip & Hoth & Htr & Hst). set (st1 := sweep_one tool now st ip) in *.
  destruct (IH Hnd st1) as (ans & Hans & Hlook & Htr' & Hst').
  { intros x Hx. assert (Hne : x <> ip) by set_solver. specialize (Hoth x Hne). unfold looked in Hoth.
    injection Hoth as -> _. apply Hin. by right. }
  set (st2 := foldl _ st1 l) in *.
  exists (fun x => if bool_decide (x = ip) then tool (sw_trace st) (default (sudo []) (delete_of ip)) else ans x).
  assert (Hip2 : looked st2 ip = looked st1 ip).
  { rewrite (Hlook ip). by rewrite bool_decide_eq_false_2. }
  split; [|split; [|split]].
  - intros x Hx. case_bool_decide as Ex; [subst; exists []; by rewrite app_nil_r|].
    apply elem_of_cons in Hx as [|Hx]; [done|]. destruct (Hans x Hx) as [pre ->]. rewrite Htr. eexists. by rewrite <- app_assoc.
  - intros x. destruct (decide (x = ip)) as [->|Hne].
    + rewrite Hip2, bool_decide_eq_true_2 by by left. by rewrite bool_decide_eq_true_2.
    + rewrite (Hlook x), (bool_decide_eq_false_2 (x = ip)) by done. specialize (Hoth x Hne).
      rewrite (bool_decide_ext (x ∈ ip :: l) (x ∈ l)) by set_solver. rewrite Hoth.
      unfold looked in Hoth. injection Hoth as -> ->. done.
  - rewrite Htr', Htr, <- app_assoc. f_equal. unfold sweep_commands.
    cbn [omap list_omap app].
    assert (E : sweep_commands now (sw_backoff st1) l = sweep_commands now (sw_backoff st) l).
    { apply omap_agree. intros x Hx. assert (Hne : x <> ip) by set_solver. specialize (Hoth x Hne).
      unfold looked in Hoth. by injection Hoth as _ ->. }
    unfold sweep_commands in E. rewrite E. by destruct (if backing_off _ _ then _ else _).
  - intros Hok. assert (Hs : is_Some (sw_times st !! ip)) by (apply Hin; by left).
    destruct (Hst Hs Hok) as [Hok1 Hg1]. destruct (Hst' Hok1) as [Hok2 Hg2]. split; [done|]. intros x. rewrite Hg2.
    assert (Et : sw_times st2 !! ip = sw_times st1 !! ip) by (unfold looked in Hip2; by injection Hip2).
    destruct (decide (x = ip)) as [->|Hne].
    + rewrite (bool_decide_eq_false_2 (ip ∈ l /\ _)) by naive_solver. rewrite Hg1, Et.
      rewrite (bool_decide_ext (ip ∈ ip :: l /\ sw_times st1 !! ip = None) (ip = ip /\ sw_times st1 !! ip = None)); [done|].
      set_solver.
    + rewrite (bool_decide_ext (x ∈ ip :: l /\ sw_times st2 !! x = None) (x ∈ l /\ sw_times st2 !! x = None)) by set_solver.
      destruct (bool_decide _); [done|]. rewrite Hg1. rewrite bool_decide_eq_false_2; [done|]. naive_solver.
Qed.

Lemma expired_ips_spec now times :
  NoDup (expired_ips now times) /\
  forall ip, ip ∈ expired_ips now times <-> exists b, times !! ip = Some b /\ block_expired now b = true.
Proof.
  unfold expired_ips. split.
  - eapply sublist_NoDup; [apply (NoDup_fst_map_to_list times)|]. apply fmap_sublist, retain_sublist.
  - intros ip. rewrite list_elem_of_fmap. split.
    + intros ([k b] & -> & Hb). apply retain_elem in Hb as [Hb He]. apply elem_of_map_to_list in Hb. eauto.
    + intros (b & Hb & He). exists (ip, b). split; [done|]. apply retain_elem. split; [|done]. by apply elem_of_map_to_list.
Qed.

(** A sweep runs one deletion for each expired block that is an address and not
    backing off, in the order of the table, and leaves every other entry alone.
    Each answer decides over its own entry: done or absent, it is forgotten, in
    the store too; hopeless, it is kept and backs off; else it is kept as it is.
    What is not an address is forgotten. *)
Theorem sweep_exact (now : Z) (st : SweepState S) :
  let st' := sweep tool now st in
  let expired := expired_ips now (sw_times st) in
  exists ans : string -> ToolAnswer,
  (forall ip, ip ∈ expired -> exists pre, ans ip = tool (sw_trace st ++ pre) (default (sudo []) (delete_of ip))) /\
  (forall ip, looked st' ip =
     if bool_decide (ip ∈ expired) then swept now ip (sw_times st !! ip) (sw_backoff st !! ip) (ans ip)
     else looked st ip) /\
  sw_trace st' = sw_trace st ++ sweep_commands now (sw_backoff st) expired /\
  (kv_ok (sw_store st) -> forall ip, kvi_get (sw_store st') NS_XDP_BLOCK_TIMES ip =
     if bool_decide (ip ∈ expired /\ sw_times st' !! ip = None) then Ok None
     else kvi_get (sw_store st) NS_XDP_BLOCK_TIMES ip).
Proof.
  cbn zeta. destruct (expired_ips_spec now (sw_times st)) as [Hnd Hex].
  destruct (sweep_list now _ Hnd st) as (ans & Ha & Hl & Ht & Hs).
  { intros ip (b & -> & _)%Hex. done. }
  exists ans. split; [done|]. split; [done|]. split; [done|]. intros Hok. by destruct (Hs Hok).
Qed.

(** ** Backing off *)

Definition attempted (now : Z) (st : SweepState S) (ip : string) : bool :=
  bool_decide (ip ∈ expired_ips now (sw_times st)) && negb (backing_off now (sw_backoff st !! ip)).

(** The instants at which sweeps try to remove the address. *)
Fixpoint attempts (ip : string) (st : SweepState S) (nows : list Z) : list Z :=
  match nows with
  | [] => []
  | now :: r => (if attempted now st ip then [now] else []) ++ attempts ip (sweep tool now st) r
  end.

(** From the [k]-th attempt on, each waits for the backoff of the one before. *)
Fixpoint spaced (k : Z) (l : list Z) : Prop :=
  match l with
  | t :: ((u :: _) as r) => t + seconds (xdp_cleanup_backoff_secs k) <= u /\ spaced (k + 1) r
  | _ => True
  end.

Definition hopeless (ip : string) : Prop :=
  exists c, delete_of ip = Some c /\ forall tr, classify_answer (tool tr c) = BackOff.

Lemma hopeless_step now st ip b : hopeless ip -> sw_times st !! ip = Some b ->
  looked (sweep tool now st) ip =
  (Some b, if attempted now st ip then Some (next_backoff now (sw_backoff st !! ip)) else sw_backoff st !! ip).
Proof.
  intros (c & Hc & Hh) Hb. destruct (sweep_exact now st) as (ans & Ha & Hl & _). rewrite Hl. unfold attempted, looked.
  destruct (decide (ip ∈ expired_ips now (sw_times st))) as [Hin|Hin].
  - rewrite bool_decide_eq_true_2 by done. cbn [andb]. unfold swept. destruct (Ha ip Hin) as [pre ->].
    rewrite Hc. cbn [default]. rewrite Hh, bool_decide_eq_true_2 by eauto. rewrite Hb.
    by destruct (backing_off now (sw_backoff st !! ip)).
  - rewrite bool_decide_eq_false_2 by done. by rewrite Hb.
Qed.

Lemma hopeless_spaced ip b nows : hopeless ip -> forall st k next,
  sw_times st !! ip = Some b -> 0 <= k -> k + Z.of_nat (length nows) < 2 ^ 32 ->
  sw_backoff st !! ip = (if k =? 0 then None else Some (k, next)) ->
  (0 < k -> forall t, head (attempts ip st nows) = Some t -> next <= t) /\ spaced (k + 1) (attempts ip st nows).
Proof.
  intros Hh. induction nows as [|now nows IH]; intros st k next Hb Hk Hlen Hbo; [done|]. cbn [attempts].
  pose proof (hopeless_step now st ip b Hh Hb) as Hst. unfold looked in Hst.
  destruct (attempted now st ip) eqn:Ea; injection Hst as Ht Hbo'; cbn [length] in Hlen.
  - assert (Hnext : next_backoff now (sw_backoff st !! ip) = (k + 1, now + seconds (xdp_cleanup_backoff_secs (k + 1)))).
    { rewrite Hbo. unfold next_backoff, saturating_add. destruct (Z.eqb_spec k 0) as [->|]; [done|].
      cbn [default from_option id fst]. rewrite Z.min_l by lia. done. }
    rewrite Hnext in Hbo'.
    destruct (IH (sweep tool now st) (k + 1) (now + seconds (xdp_cleanup_backoff_secs (k + 1)))) as [Hhead Hsp]; try done; try lia.
    { by rewrite (proj2 (Z.eqb_neq (k + 1) 0)) by lia. }
    cbn [app]. split.
    + intros Hpos t [= <-]. unfold attempted in Ea. apply andb_true_iff in Ea as [_ Ea].
      rewrite Hbo, (proj2 (Z.eqb_neq k 0)) in Ea by lia. cbn in Ea. bool_to_prop. done.
    + destruct (attempts ip (sweep tool now st) nows) as [|u r] eqn:El; [done|]. cbn [spaced]. split; [|done].
      apply Hhead; [lia|done].
  - cbn [app]. apply IH; try done; try lia. by rewrite Hbo'.
Qed.

Lemma spaced_total l : forall k t u, spaced k l -> head l = Some t -> last l = Some u ->
  t + seconds (sumZ (xdp_cleanup_backoff_secs <$> seqZ k (Z.of_nat (length l) - 1))) <= u.
Proof.
  induction l as [|x [|y l] IH]; intros k t u Hs Ht Hu; [done| |].
  - cbn in *. simplify_eq. change (Z.of_nat 1 - 1) with 0. rewrite seqZ_nil by lia. unfold seconds. cbn. lia.
  - destruct Hs as [Hxy Hs]. cbn in Ht. simplify_eq. specialize (IH (k + 1) y u Hs eq_refl Hu).
    rewrite seqZ_cons by (cbn [length]; lia). cbn [fmap list_fmap sumZ foldr].
    replace (Z.pred (Z.of_nat (length (t :: y :: l)) - 1)) with (Z.of_nat (length (y :: l)) - 1) by (cbn [length]; lia).
    replace (Z.succ k) with (k + 1) by lia. unfold seconds in *. unfold sumZ in *. lia.
Qed.

(** An expired block that cannot be removed for want of privilege, or because
    the command cannot be run, is never given up and is tried at growing
    intervals: after the k-th try the next one waits one minute times 2^(k-1),
    an hour at most; so n tries take at least the sum of the first n-1 waits. *)
Theorem hopeless_backs_off (ip : string) (block : Z * Z) (st : SweepState S) (nows : list Z) :
  hopeless ip -> sw_times st !! ip = Some block -> sw_backoff st !! ip = None ->
  Z.of_nat (length nows) < 2 ^ 32 ->
  let tries := attempts ip st nows in
  spaced 1 tries /\ sw_times (foldl (fun s now => sweep tool now s) st nows) !! ip = Some block /\
  forall t u, head tries = Some t -> last tries = Some u ->
    seconds (sumZ (xdp_cleanup_backoff_secs <$> seqZ 1 (Z.of_nat (length tries) - 1))) <= u - t.
Proof.
  intros Hh Hb Hbo Hlen. cbn zeta.
  assert (Hsp : spaced 1 (attempts ip st nows)) by (apply (hopeless_spaced ip block nows Hh st 0 0); done).
  split; [done|]. split.
  - clear Hsp Hbo Hlen. revert st Hb. induction nows as [|now nows IH]; intros st Hb; [done|]. cbn [foldl]. apply IH.
    pose proof (hopeless_step now st ip block Hh Hb) as Hst. unfold looked in Hst. by injection Hst.
  - intros t u Ht Hu. pose proof (spaced_total _ 1 t u Hsp Ht Hu). lia.
Qed.
End SweepProofs.

(** Where the privilege is missing, the half-minute ticks of three hours try
    eight times. *)
#[local] Instance demo_case : Lowercase := {| to_lowercase := to_ascii_lowercase |}.
Definition unprivileged : Tool := fun _ _ => Exited false "sudo: a password is required".
Definition demo_sweep : SweepState Store :=
  {| sw_times := {["203.0.113.7" := (0, 60)]}; sw_backoff := ∅; sw_store := {| st_usable := true; kv_state := ∅ |}; sw_trace := [] |}.
Definition half_minutes (n : nat) : list Z := (fun k => seconds (100 + 30 * k)) <$> seqZ 0 (Z.of_nat n).

Theorem hopeless_backs_off_witness :
  hopeless unprivileged "203.0.113.7" /\ length (attempts unprivileged "203.0.113.7" demo_sweep (half_minutes 360)) = 8%nat /\
  spaced 1 (attempts unprivileged "203.0.113.7" demo_sweep (half_minutes 360)).
Proof.
  assert (Hh : hopeless unprivileged "203.0.113.7") by (eexists; split; [vm_compute; reflexivity|intros tr; vm_compute; reflexivity]).
  split; [exact Hh|]. split; [vm_compute; reflexivity|].
  apply (hopeless_backs_off unprivileged "203.0.113.7" (0, 60) demo_sweep (half_minutes 360) Hh);
    [reflexivity|reflexivity|vm_compute; reflexivity].
Defined.

(** The sweep removes a block behind the manager's back: an address the manager
    once added is reported as added again, without any command, whatever became
    of it in the kernel meanwhile. *)
Theorem reblock_without_command (tool tool' : Tool) (m m' : XdpManager) (tr tr' : list Command)
  (ip reason : string) (now : Z) :
  add_to_blocklist tool m tr ip reason now = (m', tr', Ok ()) ->
  forall later reason' now', add_to_blocklist tool' m' later ip reason' now' = (m', later, Ok ()).
Proof.
  intros E later reason' now'.
  assert (Hin : any (fun e => String.eqb (be_ip e) ip) (xm_blocklist m') = true).
  { unfold add_to_blocklist in E. destruct (any _ (xm_blocklist m)) eqn:Ea; [by simplify_eq|].
    assert (any (fun e => String.eqb (be_ip e) ip)
      (xm_blocklist m ++ [{| be_ip := ip; be_added_at := now; be_reason := reason |}]) = true) as Hp.
    { apply has_ip. rewrite fmap_app. set_solver. }
    destruct (xm_dry_run m); [by simplify_eq|].
    destruct (ip_to_bpf_map_and_key ip) as [[mn k]|]; [|by simplify_eq].
    destruct (tool tr _) as [|[|] ?]; by simplify_eq. }
  unfold add_to_blocklist. by rewrite Hin.
Qed.

(** The comment at the sweep calls its test for an absent entry the same as the
    one of the response lifecycle; this error is absent there and kept here. *)
Theorem absent_tests_differ :
  let err := "Error: delete failed: key doesn't exist" in
  classify_revert_error err = KAlreadyAbsent /\ classify_answer (Exited false err) = KeepForRetry.
Proof. vm_compute. done. Qed.

(** The manager passes all bytes of a key as one argument; the skill passes one
    argument a byte. *)
Theorem key_in_one_argument :
  (bpftool_delete_args "/p" ∘ snd <$> result_ok (ip_to_bpf_map_and_key "203.0.113.7")) =
    Some ["map"; "delete"; "pinned"; "/p"; "key"; "0xcb 0x00 0x71 0x07"] /\
  (delete_command "/p" <$> (snd <$> xdp_blocklist_pin_for_ip "203.0.113.7")) =
    Some (sudo ["bpftool"; "map"; "delete"; "pinned"; "/p"; "key"; "203"; "0"; "113"; "7"]).
Proof. vm_compute. done. Qed.
