(* ===== verification/AgentShield.v ===== *)
(** * AgentShield: the shield inside the agent (crates/agent/src/shield_inline.rs,
    and the kind under which its incidents are correlated,
    crates/agent/src/loops/slow_loop.rs)

    [process_events] feeds the events of a tick to the rate limiter, the SYN
    detector and the fingerprinter, drops the addresses the limiter gives up at the
    network driver, and at every fifth tick lets the escalation engine decide; a
    transition scales the limits, toggles the Cloudflare proxy and the origin
    lockdown, and becomes an incident.  The parts are those of the shield's files;
    the clock, the answers of bpftool, of the Cloudflare API and of the firewall
    are arguments.

    Proved here: the tick never panics and keeps the parts consistent; what is
    reported as blocked is in the mirror of the driver's blocklist; the limits
    follow the state of the engine from a fresh start.  And what the code does not
    do: the risk scores have no influence, the scaled limits do not concern an
    address that is known, the lockdown is never initialised and so never
    activates, a restored attack is not answered, and an attack is not correlated
    under its own kind. *)

From Stdlib Require Import ZArith Lia Ascii String SpecFloat.
From stdpp Require Import prelude strings pretty gmap list.
From S2P Require Import Prelude Text Json Floats CoreTypes ShieldEscalation ShieldFailover ShieldSyn ShieldRateLimiter ShieldClassifier.
From S2P Require Import ShieldFingerprint ShieldLockdown XdpBlocklist.

Local Open Scope string_scope.
Local Open Scope list_scope.
Local Open Scope Z_scope.

Record ShieldState := {
  sh_rate_limiter : IpRateLimiter;
  sh_syn_detector : SynFloodDetector;
  sh_escalation : EscalationEngine;
  sh_classifier : AttackClassifier;
  sh_fingerprinter : TcpFingerprinter;
  sh_xdp : XdpManager;
  sh_tick_counter : Z;
  sh_default_rl_config : RateLimiterConfig;
  sh_cloudflare_failover : option CloudflareFailover;
  sh_cf_dry_run : bool;
  sh_origin_lockdown : option OriginLockdown;
  sh_lockdown_dry_run : bool;
}.

(** What the store keeps. *)
Record SavedState := { sv_escalation_state : EscalationState; sv_entered_at : string; sv_blocked_ips : list BlocklistEntry; sv_last_saved : string }.

Record FailoverSection := {
  fs_on : bool; fs_token : string; fs_zone : string; fs_record : string; fs_states : list string; fs_min_secs : Z; fs_dry_run : bool;
}.
Record LockdownSection := { lk_enabled : bool; lk_dry_run : bool }.

(** [saved] is the saved state, if it could be read, with the history of
    incidents, if that could be; [now] the clock at the start. *)
Definition ShieldState_new `{Chrono} (bpf_path : string) (dry_run : bool) (cf : FailoverSection) (ld : LockdownSection) (ssh_port_env : option string)
    (saved : option (SavedState * option (list DdosIncident))) (now : Z) : ShieldState :=
  let escalation := EscalationEngine_new now EscalationConfig_default in
  {| sh_rate_limiter := IpRateLimiter_new RateLimiterConfig_default;
     sh_syn_detector := SynFloodDetector_new SynFloodConfig_default;
     sh_escalation :=
       match saved with
       | Some (state, history) => restore escalation (sv_escalation_state state) (default now (parse_utc (sv_entered_at state))) (default [] history)
       | None => escalation
       end;
     sh_classifier := AttackClassifier_new;
     sh_fingerprinter := TcpFingerprinter_new;
     sh_xdp := with_dry_run (XdpManager_new bpf_path) dry_run;
     sh_tick_counter := 0;
     sh_default_rl_config := RateLimiterConfig_default;
     sh_cloudflare_failover :=
       if fs_on cf && negb (String.eqb (fs_token cf) "") && negb (String.eqb (fs_zone cf) "") && negb (String.eqb (fs_record cf) "") then
         Some (CloudflareFailover_new {| cf_enabled := true; cf_api_token := fs_token cf; cf_zone_id := fs_zone cf; cf_record_id := fs_record cf;
                                         cf_activate_on := fs_states cf; cf_min_proxy_duration_secs := fs_min_secs cf |})
       else None;
     sh_cf_dry_run := fs_dry_run cf;
     sh_origin_lockdown := if lk_enabled ld then Some (OriginLockdown_new ssh_port_env) else None;
     sh_lockdown_dry_run := lk_dry_run ld |}.

(** The readings and answers of one tick: the time at its start, when the entry of
    the n-th event was added, the two readings for the metrics, Cloudflare and its
    two readings, those of the incident and of the save, and the host's name. *)
Record TickEnv := {
  te_now : Z; te_added_at : nat -> Z; te_dur : Z; te_ts : Z; te_send : Request -> Reply; te_check : Z; te_mark : Z;
  te_inc_ts : Z; te_id_ts : Z; te_saved_at : Z; te_hostname : option string;
}.

(** ** The events *)

Definition event_source_ip (event : Event) : option string :=
  let v := match get (ev_details event) "src_ip" with Some v => Some v | None => get (ev_details event) "ip" end in
  s ← v ≫= as_str;
  let s := trim s in if String.eqb s "" then None else Some s.

Definition is_network (kind : string) : bool :=
  starts_with "network." kind || starts_with "ssh." kind || starts_with "http." kind || starts_with "dns." kind
  || String.eqb kind "port_scan" || String.eqb kind "web_scan" || String.eqb kind "credential_stuffing".

Definition effective_bytes (risks : gmap string Z) (ip : string) (event : Event) : Z :=
  let risk := default 0 (risks !! ip) in
  let raw := default 64 (get_u64 (ev_details event) "bytes") in
  if 60 <? risk then wrap 64 (raw * 2) else raw.

(** What the events of a tick go through. *)
Record EventState := {
  es_rate_limiter : IpRateLimiter; es_syn : SynFloodDetector; es_fp : TcpFingerprinter; es_xdp : XdpManager;
  es_commands : list Command; es_drops : Z; es_blocked : list string;
}.

(** A dropped address goes to the driver. *)
Definition drop_at_driver (tool : Tool) (st : EventState) (rl : IpRateLimiter) (ip kind : string) (added_at : Z) : EventState :=
  let '(xdp, tr, r) := add_to_blocklist tool (es_xdp st) (es_commands st) ip ("shield:rate_limit:" +:+ kind) added_at in
  {| es_rate_limiter := rl; es_syn := es_syn st; es_fp := es_fp st; es_xdp := xdp; es_commands := tr;
     es_drops := wrapping_add 64 (es_drops st) 1;
     es_blocked := match r with Ok _ => es_blocked st ++ [ip] | Err _ => es_blocked st end |}.

Definition with_limiter (st : EventState) (rl : IpRateLimiter) : EventState :=
  {| es_rate_limiter := rl; es_syn := es_syn st; es_fp := es_fp st; es_xdp := es_xdp st; es_commands := es_commands st;
     es_drops := es_drops st; es_blocked := es_blocked st |}.

(** The SYN detector and the fingerprinter. *)
Definition observe (now : Z) (ip : string) (event : Event) (st : EventState) : EventState :=
  let kind := ev_kind event in
  let syn := if String.eqb kind "network.syn" || contains "syn" kind then record_syn (es_syn st) ip now else es_syn st in
  let syn := if String.eqb kind "network.ack" || contains "established" kind then record_ack syn ip now else syn in
  let window_size := wrap 16 (default 0 (get_u64 (ev_details event) "window_size")) in
  let ttl := wrap 8 (default 64 (get_u64 (ev_details event) "ttl")) in
  {| es_rate_limiter := es_rate_limiter st; es_syn := syn;
     es_fp := if 0 <? window_size then record_connection (es_fp st) ip window_size ttl now else es_fp st;
     es_xdp := es_xdp st; es_commands := es_commands st; es_drops := es_drops st; es_blocked := es_blocked st |}.

(** One event; [None] is a panic of the limiter. *)
Definition process_event (tool : Tool) (now added_at : Z) (risks : gmap string Z) (st : EventState) (event : Event) : option EventState :=
  match event_source_ip event with
  | None => Some st
  | Some ip =>
      if negb (is_network (ev_kind event)) then Some st
      else
        '(rl, d) ← process_packet (es_rate_limiter st) ip (effective_bytes risks ip event) now;
        let st := match d with Drop => drop_at_driver tool st rl ip (ev_kind event) added_at | _ => with_limiter st rl end in
        Some (observe now ip event st)
  end.

Fixpoint process_each (tool : Tool) (now : Z) (added_at : nat -> Z) (risks : gmap string Z) (i : nat) (events : list Event) (st : EventState)
  : option EventState :=
  match events with
  | [] => Some st
  | e :: events => st ← process_event tool now (added_at i) risks st e; process_each tool now added_at risks (S i) events st
  end.

Definition start_tick (sh : ShieldState) (tr : list Command) : EventState :=
  {| es_rate_limiter := sh_rate_limiter sh; es_syn := sh_syn_detector sh; es_fp := sh_fingerprinter sh; es_xdp := sh_xdp sh;
     es_commands := tr; es_drops := 0; es_blocked := [] |}.

(** ** The escalation *)

(** The limits of a state. *)
Definition scaled_config (config : RateLimiterConfig) (factor : float) : RateLimiterConfig := {|
  bucket_max_tokens := f64_mul (bucket_max_tokens config) factor;
  bucket_refill_rate := f64_mul (bucket_refill_rate config) factor;
  rl_window_secs := rl_window_secs config; rl_sub_window_count := rl_sub_window_count config;
  window_max_rate := f64_to_u64 (f_max (f64_mul (f64_of_Z (window_max_rate config)) factor) f64_one);
  ema_alpha := ema_alpha config; ema_alpha_var := ema_alpha_var config;
  ema_threshold_multiplier := ema_threshold_multiplier config; ema_min_samples := ema_min_samples config |}.

Definition transition_severity (s : EscalationState) : string :=
  match s with Critical => "critical" | UnderAttack => "high" | Elevated => "medium" | Normal => "low" end.

Definition transition_title (t : StateTransition) : string :=
  "Shield escalation: " +:+ EscalationState_display (st_from t) +:+ " → " +:+ EscalationState_display (st_to t).

Definition transition_incident `{Chrono} (env : TickEnv) (t : StateTransition) (drops attackers : Z) (flagged : bool) : Json :=
  JObj [("ts", JStr (to_rfc3339 (te_inc_ts env)));
        ("host", JStr (trim (default "unknown" (te_hostname env))));
        ("incident_id", JStr ("shield:escalation:" +:+ to_ascii_lowercase (escalation_state_name (st_to t)) +:+ ":" +:+ fmt_minute (te_id_ts env)));
        ("severity", JStr (transition_severity (st_to t)));
        ("title", JStr (transition_title t));
        ("summary", JStr ("DDoS protection escalated. Drops/sec: " +:+ show (drops / 2) +:+ ", Attackers: " +:+ show attackers +:+
                          ", SYN flood: " +:+ show_bool flagged));
        ("tags", JArr [JStr "shield"; JStr "ddos"; JStr "escalation"]);
        ("entities", JArr [])].

(** The kind under which an incident goes to the correlation engine, by its title. *)
Definition correlation_kind (title : string) : string :=
  if contains "Critical" title then "shield.escalation.critical"
  else if contains "UnderAttack" title then "shield.escalation.under_attack"
  else if contains "Elevated" title then "shield.escalation.elevated"
  else "shield.escalation.transition".

(** A save of the state, when the store accepts it. *)
Record Saved := { sd_state : SavedState; sd_history : list DdosIncident }.

Section process.
Context `{Chrono} {Sys : Type} `{Commands Sys} (tool : Tool).

(** The shield with the firewall and the commands run. *)
Record World := { wd_shield : ShieldState; wd_commands : list Command; wd_sys : Sys; wd_saves : list Saved }.

(** The shield after the events. *)
Definition after_events (sh : ShieldState) (st : EventState) : ShieldState :=
  {| sh_rate_limiter := es_rate_limiter st; sh_syn_detector := es_syn st; sh_escalation := sh_escalation sh; sh_classifier := sh_classifier sh;
     sh_fingerprinter := es_fp st; sh_xdp := es_xdp st; sh_tick_counter := wrapping_add 64 (sh_tick_counter sh) 1;
     sh_default_rl_config := sh_default_rl_config sh; sh_cloudflare_failover := sh_cloudflare_failover sh; sh_cf_dry_run := sh_cf_dry_run sh;
     sh_origin_lockdown := sh_origin_lockdown sh; sh_lockdown_dry_run := sh_lockdown_dry_run sh |}.

Definition with_escalation (sh : ShieldState) (e : EscalationEngine) : ShieldState :=
  {| sh_rate_limiter := sh_rate_limiter sh; sh_syn_detector := sh_syn_detector sh; sh_escalation := e; sh_classifier := sh_classifier sh;
     sh_fingerprinter := sh_fingerprinter sh; sh_xdp := sh_xdp sh; sh_tick_counter := sh_tick_counter sh;
     sh_default_rl_config := sh_default_rl_config sh; sh_cloudflare_failover := sh_cloudflare_failover sh; sh_cf_dry_run := sh_cf_dry_run sh;
     sh_origin_lockdown := sh_origin_lockdown sh; sh_lockdown_dry_run := sh_lockdown_dry_run sh |}.

(** What a transition does to the limits, the proxy and the lockdown. *)
Definition respond (env : TickEnv) (sh : ShieldState) (sys : Sys) (to : EscalationState) : ShieldState * Sys :=
  let cf := if sh_cf_dry_run sh then sh_cloudflare_failover sh
            else (fun f => (ShieldFailover.check_and_toggle f (te_send env) (te_check env) (te_mark env) to).1) <$> sh_cloudflare_failover sh in
  let '(ld, sys) :=
    match sh_origin_lockdown sh with
    | Some l => if sh_lockdown_dry_run sh then (Some l, sys) else let '(l, sys) := ld_check_and_toggle l to sys in (Some l, sys)
    | None => (None, sys)
    end in
  ({| sh_rate_limiter := reset_config (sh_rate_limiter sh) (scaled_config (sh_default_rl_config sh) (rate_limit_factor to));
      sh_syn_detector := sh_syn_detector sh; sh_escalation := sh_escalation sh; sh_classifier := sh_classifier sh;
      sh_fingerprinter := sh_fingerprinter sh; sh_xdp := sh_xdp sh; sh_tick_counter := sh_tick_counter sh;
      sh_default_rl_config := sh_default_rl_config sh; sh_cloudflare_failover := cf; sh_cf_dry_run := sh_cf_dry_run sh;
      sh_origin_lockdown := ld; sh_lockdown_dry_run := sh_lockdown_dry_run sh |}, sys).

(** Every fifth tick. *)
Definition escalation_tick (env : TickEnv) (sh : ShieldState) (sys : Sys) (drops : Z) : ShieldState * Sys * list Json :=
  let flagged := negb (bool_decide (get_flagged_ips (sh_syn_detector sh) = [])) in
  let rl_metrics := get_metrics (sh_rate_limiter sh) in
  let metrics := build_metrics (sh_escalation sh) (te_dur env) (te_ts env) (drops / 2) (mt_blocked_ips rl_metrics) flagged false false
                   (mt_total_dropped rl_metrics) (mt_total_allowed rl_metrics) (mt_total_dropped rl_metrics) in
  let '(e, transition) := update (sh_escalation sh) metrics in
  let sh := with_escalation sh e in
  match transition with
  | Some t =>
      let '(sh, sys) := respond env sh sys (st_to t) in
      (sh, sys, [transition_incident env t drops (mt_blocked_ips rl_metrics) flagged])
  | None => (sh, sys, [])
  end.

(** Every thirtieth. *)
Definition saved_state (env : TickEnv) (sh : ShieldState) : Saved :=
  {| sd_state := {| sv_escalation_state := ee_state (sh_escalation sh); sv_entered_at := to_rfc3339 (ee_state_entered_at (sh_escalation sh));
                    sv_blocked_ips := xm_blocklist (sh_xdp sh); sv_last_saved := to_rfc3339 (te_saved_at env) |};
     sd_history := ee_incidents (sh_escalation sh) |}.

Definition clean (env : TickEnv) (sh : ShieldState) : ShieldState :=
  {| sh_rate_limiter := ShieldRateLimiter.cleanup_stale (sh_rate_limiter sh) (seconds 300) (te_now env);
     sh_syn_detector := expire_all (sh_syn_detector sh) (te_now env); sh_escalation := sh_escalation sh; sh_classifier := sh_classifier sh;
     sh_fingerprinter := ShieldFingerprint.cleanup_stale (sh_fingerprinter sh) (seconds 300) (te_now env); sh_xdp := sh_xdp sh;
     sh_tick_counter := sh_tick_counter sh; sh_default_rl_config := sh_default_rl_config sh;
     sh_cloudflare_failover := sh_cloudflare_failover sh; sh_cf_dry_run := sh_cf_dry_run sh;
     sh_origin_lockdown := sh_origin_lockdown sh; sh_lockdown_dry_run := sh_lockdown_dry_run sh |}.

(** The tick after its events. *)
Definition finish_tick (env : TickEnv) (w : World) (st : EventState) : World * list Json :=
  let sh := after_events (wd_shield w) st in
  if sh_tick_counter sh mod 5 =? 0 then
    let '(sh, sys, incidents) := escalation_tick env sh (wd_sys w) (es_drops st) in
    if sh_tick_counter sh mod 30 =? 0 then
      ({| wd_shield := clean env sh; wd_commands := es_commands st; wd_sys := sys; wd_saves := wd_saves w ++ [saved_state env sh] |}, incidents)
    else ({| wd_shield := sh; wd_commands := es_commands st; wd_sys := sys; wd_saves := wd_saves w |}, incidents)
  else ({| wd_shield := sh; wd_commands := es_commands st; wd_sys := wd_sys w; wd_saves := wd_saves w |}, []).

Definition process_events (env : TickEnv) (risks : gmap string Z) (events : list Event) (w : World)
  : option (World * (Z * list Json * list string)) :=
  st ← process_each tool (te_now env) (te_added_at env) risks 0 events (start_tick (wd_shield w) (wd_commands w));
  let '(w, incidents) := finish_tick env w st in
  Some (w, (es_drops st, incidents, es_blocked st)).

(** Ticks in sequence. *)
Record Batch := { bt_env : TickEnv; bt_risks : gmap string Z; bt_events : list Event }.

Fixpoint run_batches (w : World) (bs : list Batch) : option World :=
  match bs with
  | [] => Some w
  | b :: bs => '(w, _) ← process_events (bt_env b) (bt_risks b) (bt_events b) w; run_batches w bs
  end.
End process.

(** ** The tick never panics *)

Record shield_ok (sh : ShieldState) : Prop := {
  so_limiter : limiter_ok (sh_rate_limiter sh);
  so_default : sub_ok (rl_sub_window_count (sh_default_rl_config sh));
  so_fingerprints : tracker_ok (sh_fingerprinter sh);
}.

Record event_ok (st : EventState) : Prop := {
  eo_limiter : limiter_ok (es_rate_limiter st);
  eo_fingerprints : tracker_ok (es_fp st);
  eo_reported : Forall (fun ip => xdp_is_blocked (es_xdp st) ip = true) (es_blocked st);
}.

Lemma reset_limiter_ok l c : limiter_ok l -> sub_ok (rl_sub_window_count c) -> limiter_ok (reset_config l c).
Proof. intros [Hc Ht Hb Hw] Hs. split; simpl; [done|exact Ht|exact Hb|]. intros d. destruct d; [exact (Hw Allow)|exact (Hw Drop)|exact (Hw Challenge)]. Qed.

(** An entry of the mirror stays, and a success leaves one. *)
Lemma add_mirrors tool m tr ip reason now :
  let '(m', _, r) := add_to_blocklist tool m tr ip reason now in
  (forall i, xdp_is_blocked m i = true -> xdp_is_blocked m' i = true) /\ (forall u, r = Ok u -> xdp_is_blocked m' ip = true).
Proof.
  assert (Hpush : forall b, let m' := set_blocklist m (xm_blocklist m ++ [b]) in
    (forall i, xdp_is_blocked m i = true -> xdp_is_blocked m' i = true) /\ (be_ip b = ip -> xdp_is_blocked m' ip = true)).
  { intros b. unfold xdp_is_blocked. simpl. split.
    - intros i [e [He Hi]]%any_true. apply any_true. exists e. split; [set_solver|done].
    - intros Hb. apply any_true. exists b. split; [set_solver|by apply String.eqb_eq]. }
  unfold add_to_blocklist.
  destruct (any _ (xm_blocklist m)) eqn:E; [done|].
  specialize (Hpush {| be_ip := ip; be_added_at := now; be_reason := reason |}) as [Hk Hb].
  destruct (xm_dry_run m); [by split; [exact Hk|intros _ _; apply Hb]|].
  destruct (ip_to_bpf_map_and_key ip) as [[mn kh]|e]; [|done].
  destruct (tool tr _) as [|[] stderr]; [done| |done]. split; [exact Hk|intros _ _; by apply Hb].
Qed.

Section keeping.
Context (tool : Tool).

Lemma shield_event_ok now added_at risks st e :
  event_ok st -> exists st', process_event tool now added_at risks st e = Some st' /\ event_ok st'.
Proof.
  intros [Hl Hf Hr]. unfold process_event. destruct (event_source_ip e) as [ip|]; [|by exists st].
  destruct (negb (is_network (ev_kind e))); [by exists st|].
  destruct (process_packet_ok (es_rate_limiter st) ip (effective_bytes risks ip e) now Hl) as (rl & d & -> & Hrl & _). simpl.
  eexists. split; [done|]. unfold observe.
  assert (Hfp : forall t w x, tracker_ok t -> tracker_ok (if 0 <? w then record_connection t ip w x now else t)).
  { intros t w x Ht. destruct (0 <? w); [by apply record_tracker_ok|done]. }
  destruct d; simpl; [by split; simpl; auto| |by split; simpl; auto].
  unfold drop_at_driver.
  pose proof (add_mirrors tool (es_xdp st) (es_commands st) ip ("shield:rate_limit:" +:+ ev_kind e) added_at) as Hm.
  destruct (add_to_blocklist _ _ _ _ _ _) as [[m tr] r]. destruct Hm as [Hkeep Hnew]. split; simpl; [done|by apply Hfp|].
  assert (Hall : Forall (fun i => xdp_is_blocked m i = true) (es_blocked st)) by (eapply Forall_impl; [exact Hr|exact Hkeep]).
  destruct r as [u|]; [|done]. apply Forall_app_2; [done|]. constructor; [by apply (Hnew u)|done].
Qed.

Lemma process_each_ok now added_at risks events : forall i st,
  event_ok st -> exists st', process_each tool now added_at risks i events st = Some st' /\ event_ok st'.
Proof.
  induction events as [|e events IH]; intros i st Hst; [by exists st|]. simpl.
  destruct (shield_event_ok now (added_at i) risks st e Hst) as (st1 & -> & H1). simpl. apply (IH (S i) _ H1).
Qed.
End keeping.

Section ticks.
Context `{Chrono} {Sys : Type} `{Commands Sys} (tool : Tool).

Lemma start_tick_ok sh tr : shield_ok sh -> event_ok (start_tick sh tr).
Proof. intros [? ? ?]. by split. Qed.

Lemma escalation_tick_ok env sh sys drops : shield_ok sh -> shield_ok (escalation_tick env sh sys drops).1.1.
Proof.
  intros [Hl Hd Hf]. unfold escalation_tick. destruct (update _ _) as [e [t|]]; [|by split].
  unfold respond. destruct (sh_origin_lockdown _) as [l|]; simpl.
  - destruct (sh_lockdown_dry_run sh); [split; simpl; auto using reset_limiter_ok|].
    destruct (ld_check_and_toggle _ _ _). split; simpl; auto using reset_limiter_ok.
  - split; simpl; auto using reset_limiter_ok.
Qed.

Lemma finish_tick_ok env w st :
  shield_ok (wd_shield w) -> event_ok st ->
  shield_ok (wd_shield (finish_tick env w st).1) /\ sh_xdp (wd_shield (finish_tick env w st).1) = es_xdp st.
Proof.
  intros [Hl Hd Hf] [El Ef _]. unfold finish_tick. set (sh := after_events (wd_shield w) st).
  assert (Hsh : shield_ok sh) by by split. destruct (_ mod 5 =? 0); [|done].
  pose proof (escalation_tick_ok env sh (wd_sys w) (es_drops st) Hsh) as He.
  assert (Hx : sh_xdp (escalation_tick env sh (wd_sys w) (es_drops st)).1.1 = es_xdp st).
  { unfold escalation_tick. destruct (update _ _) as [e [t|]]; [|done]. unfold respond. destruct (sh_origin_lockdown _) as [l|]; simpl; [|done].
    destruct (sh_lockdown_dry_run _); [done|]. by destruct (ld_check_and_toggle _ _ _). }
  destruct (escalation_tick _ _ _ _) as [[sh' sys'] incs]. simpl in *. destruct (_ mod 30 =? 0); [|done]. split; [|done].
  destruct He as [A B C]. split; simpl; [by apply cleanup_stale_limiter_ok|done|by apply cleanup_tracker_ok].
Qed.

(** A tick never panics, whatever its events and answers, keeps the limiter, its
    configuration and the fingerprints consistent, and every address it reports
    as blocked is in the mirror of the driver's blocklist. *)
Theorem tick_never_panics env risks events w :
  shield_ok (wd_shield w) ->
  exists w' drops incidents blocked,
    process_events tool env risks events w = Some (w', (drops, incidents, blocked)) /\
    shield_ok (wd_shield w') /\ Forall (fun ip => xdp_is_blocked (sh_xdp (wd_shield w')) ip = true) blocked.
Proof.
  intros Hw. unfold process_events.
  destruct (process_each_ok tool (te_now env) (te_added_at env) risks events 0 _ (start_tick_ok _ (wd_commands w) Hw)) as (st & -> & Hst). simpl.
  pose proof (finish_tick_ok env w st Hw Hst) as [Hok Hx]. destruct (finish_tick env w st) as [w' incs]. simpl in *.
  exists w', (es_drops st), incs, (es_blocked st). split_and!; [done|done|]. rewrite Hx. apply Hst.
Qed.
End ticks.

(** ** The limits and the state *)

(** What [update] does to the state. *)
Lemma update_state e m :
  match (update e m).2 with
  | Some t => ee_state (update e m).1 = st_to t /\ ee_transitions (update e m).1 = ee_transitions e ++ [t]
  | None => ee_state (update e m).1 = ee_state e /\ ee_transitions (update e m).1 = ee_transitions e
  end.
Proof.
  unfold update, transition_to. destruct (level _ <? level _); simpl.
  - by destruct (track_incident _ _ _) as [[? ?] ?].
  - destruct (level _ <? level _); [|done]. destruct (_ <=? _); [|done]. simpl. destruct (_ <=? _); [|done]. simpl.
    by destruct (track_incident _ _ _) as [[? ?] ?].
Qed.

Lemma process_packet_config l ip bytes ts l' d : process_packet l ip bytes ts = Some (l', d) -> rl_config l' = rl_config l.
Proof.
  unfold process_packet. destruct (blocked l !! ip); [by intros [= <- _]|].
  destruct (track_packet _ _ _ _) as [[tr [[b w] e]]|]; simpl; [by intros [= <- _]|done].
Qed.

Lemma process_each_config tool now added_at risks events : forall i st st',
  process_each tool now added_at risks i events st = Some st' -> rl_config (es_rate_limiter st') = rl_config (es_rate_limiter st).
Proof.
  induction events as [|e events IH]; intros i st st' E; simpl in E; [by simplify_eq|].
  destruct (process_event tool now (added_at i) risks st e) as [st1|] eqn:E1; [|done]. simpl in E. rewrite (IH _ _ _ E). clear E IH.
  unfold process_event in E1. destruct (event_source_ip e) as [ip|]; [|by simplify_eq]. destruct (negb _); [by simplify_eq|].
  destruct (process_packet _ _ _ _) as [[rl d]|] eqn:Ep; [|done]. apply process_packet_config in Ep. simpl in E1.
  injection E1 as <-. destruct d; simpl; [done| |done]. unfold drop_at_driver. by destruct (add_to_blocklist _ _ _ _ _ _) as [[? ?] ?].
Qed.

Section limits.
Context `{Chrono} {Sys : Type} `{Commands Sys} (tool : Tool).

Definition limits_of (sh : ShieldState) : RateLimiterConfig := rl_config (sh_rate_limiter sh).

(** The responses of a shield with the firewall. *)
Definition responses (w : @World Sys) : RateLimiterConfig * option CloudflareFailover * option OriginLockdown * Sys :=
  let sh := wd_shield w in (limits_of sh, sh_cloudflare_failover sh, sh_origin_lockdown sh, wd_sys w).

Definition state_of (w : @World Sys) : EscalationState := ee_state (sh_escalation (wd_shield w)).
Definition transitions_of (w : @World Sys) : list StateTransition := ee_transitions (sh_escalation (wd_shield w)).

Lemma cleanup_config l a n : rl_config (ShieldRateLimiter.cleanup_stale l a n) = rl_config l.
Proof. apply (cleanup_stale_lookup l a n). Qed.

(** One tick: without a transition it responds nothing, and a transition is the
    one thing that is added to the engine's log. *)
Lemma tick_responses env risks events w w' out :
  process_events tool env risks events w = Some (w', out) ->
  sh_default_rl_config (wd_shield w') = sh_default_rl_config (wd_shield w) /\
  ((transitions_of w' = transitions_of w /\ state_of w' = state_of w /\ responses w' = responses w) \/
   (exists t, transitions_of w' = transitions_of w ++ [t] /\ state_of w' = st_to t /\
      limits_of (wd_shield w') = scaled_config (sh_default_rl_config (wd_shield w)) (rate_limit_factor (st_to t)))).
Proof.
  unfold process_events. destruct (process_each _ _ _ _ _ _ _) as [st|] eqn:E; [|done]. simpl. apply process_each_config in E. simpl in E.
  unfold finish_tick. set (sh := after_events (wd_shield w) st).
  destruct (_ mod 5 =? 0); [|intros [= <- <-]; simpl; split; [done|]; left; unfold responses, limits_of; simpl; by rewrite E].
  assert (Ht : let '(sh', sys', _) := escalation_tick env sh (wd_sys w) (es_drops st) in
    sh_default_rl_config sh' = sh_default_rl_config (wd_shield w) /\
    ((ee_transitions (sh_escalation sh') = transitions_of w /\ ee_state (sh_escalation sh') = state_of w /\
      (limits_of sh', sh_cloudflare_failover sh', sh_origin_lockdown sh', sys') = responses w) \/
     (exists t, ee_transitions (sh_escalation sh') = transitions_of w ++ [t] /\ ee_state (sh_escalation sh') = st_to t /\
        limits_of sh' = scaled_config (sh_default_rl_config (wd_shield w)) (rate_limit_factor (st_to t))))).
  { unfold escalation_tick. match goal with |- context [update ?e ?m] => pose proof (update_state e m) as Hu; destruct (update e m) as [e' [t|]] end.
    - simpl in Hu. destruct Hu as [Hs Htr]. unfold respond. destruct (sh_origin_lockdown _) as [l|]; simpl.
      + destruct (sh_lockdown_dry_run _); [split; [done|]; right; by exists t|].
        destruct (ld_check_and_toggle _ _ _). split; [done|]. right. by exists t.
      + split; [done|]. right. by exists t.
    - simpl in Hu. destruct Hu as [Hs Htr]. split; [done|]. left. split_and!; [done..|]. unfold responses, limits_of. simpl. by rewrite E. }
  destruct (escalation_tick _ _ _ _) as [[sh' sys'] incs]. destruct Ht as [Hd Ht].
  destruct (_ mod 30 =? 0); intros [= <- <-]; simpl; (split; [done|]).
  - unfold responses, transitions_of, state_of, limits_of in *. simpl. rewrite !cleanup_config. exact Ht.
  - exact Ht.
Qed.

(** From a fresh start the limits are at every time those of the state of the
    engine. *)
Theorem limits_follow_state bpf_path dry_run cf ld env now sys bs w :
  run_batches tool {| wd_shield := ShieldState_new bpf_path dry_run cf ld env None now; wd_commands := []; wd_sys := sys; wd_saves := [] |} bs = Some w ->
  limits_of (wd_shield w) = scaled_config RateLimiterConfig_default (rate_limit_factor (state_of w)).
Proof.
  set (w0 := {| wd_shield := _ |}).
  assert (Hn : scaled_config RateLimiterConfig_default (rate_limit_factor Normal) = RateLimiterConfig_default) by (vm_compute; reflexivity).
  assert (Hw0 : sh_default_rl_config (wd_shield w0) = RateLimiterConfig_default /\
               limits_of (wd_shield w0) = scaled_config RateLimiterConfig_default (rate_limit_factor (state_of w0))) by (split; [done|symmetry; exact Hn]).
  clear Hn. clearbody w0. revert w0 Hw0. induction bs as [|b bs IH]; intros w0 [Hd Hl] E; simpl in E; [by injection E as <-|].
  destruct (process_events _ _ _ _ w0) as [[w1 out]|] eqn:E1; [|done]. simpl in E. apply (IH w1); [|done].
  destruct (tick_responses _ _ _ _ _ _ E1) as [Hd1 [(_ & Hs & Hr)|(t & _ & Hs & Hr)]]; (split; [congruence|]).
  - rewrite Hs, <- Hl. unfold responses in Hr. congruence.
  - rewrite Hr, Hs, Hd. done.
Qed.

(** The limits, the proxy, the lockdown and the firewall change at transitions
    only.  So after a restart in the middle of an attack, when the state is
    restored without a transition, the limits are the default ones and neither
    the proxy nor the lockdown is on for as long as the attack goes on. *)
Theorem restored_attack_unanswered bpf_path dry_run cf ld env saved history now sys bs w :
  let sh := ShieldState_new bpf_path dry_run cf ld env (Some (saved, history)) now in
  run_batches tool {| wd_shield := sh; wd_commands := []; wd_sys := sys; wd_saves := [] |} bs = Some w -> transitions_of w = [] ->
  state_of w = sv_escalation_state saved /\
  responses w = (RateLimiterConfig_default, sh_cloudflare_failover sh, if lk_enabled ld then Some (OriginLockdown_new env) else None, sys).
Proof.
  intros sh. set (w0 := {| wd_shield := sh |}).
  assert (Hgen : forall bs w1, run_batches tool w1 bs = Some w ->
    exists l, transitions_of w = transitions_of w1 ++ l /\ (l = [] -> state_of w = state_of w1 /\ responses w = responses w1)).
  { clear. induction bs as [|b bs IH]; intros w1 E; simpl in E; [simplify_eq; exists []; by rewrite app_nil_r|].
    destruct (process_events _ _ _ _ w1) as [[w2 out]|] eqn:E1; [|done]. simpl in E. destruct (IH _ E) as (l & Hl & Hq).
    destruct (tick_responses _ _ _ _ _ _ E1) as [_ [(Ht & Hs & Hr)|(t & Ht & _)]].
    - exists l. rewrite <- Ht, <- Hs, <- Hr. done.
    - exists (t :: l). rewrite Hl, Ht, <- app_assoc. done. }
  intros E Ht. destruct (Hgen _ _ E) as (l & Hl & Hq). rewrite Ht in Hl. symmetry in Hl. apply app_eq_nil in Hl as [_ ->].
  destruct (Hq eq_refl) as [-> ->]. done.
Qed.
End limits.

(** ** The lockdown is never initialised *)

Section never_locked.
Context `{Chrono} {Sys : Type} `{Netfilter Sys} (tool : Tool).

Definition unlocked (sys : Sys) (w : @World Sys) : Prop :=
  match sh_origin_lockdown (wd_shield w) with Some l => ld_active l = false | None => True end /\
  views_eq sys (wd_sys w).

Lemma toggle_unlocked (sys s : Sys) l to :
  chain_rules sys CHAIN_NAME = None -> views_eq sys s -> ld_active l = false ->
  ld_active (ld_check_and_toggle l to s).1 = false /\ views_eq sys (ld_check_and_toggle l to s).2.
Proof.
  intros Hc [Hv Hn] Ha. unfold ld_check_and_toggle. rewrite Ha, andb_false_r. destruct (state_requires_lockdown to); simpl; [|by repeat split].
  destruct (activate_without_chain l s) as (s' & E & [A B]); [by rewrite Hv|done|]. rewrite E. simpl. split; [done|].
  split; intros; [by rewrite A|by rewrite B].
Qed.

(** In the agent nothing makes the chain of the lockdown: on a host where it does
    not exist the lockdown never becomes active and the firewall stays as it was,
    whatever the attack and the configuration. *)
Theorem agent_never_locks_down bpf_path dry_run cf ld env saved now sys bs w :
  chain_rules sys CHAIN_NAME = None ->
  run_batches tool {| wd_shield := ShieldState_new bpf_path dry_run cf ld env saved now; wd_commands := []; wd_sys := sys; wd_saves := [] |} bs = Some w ->
  unlocked sys w.
Proof.
  intros Hc. set (w0 := {| wd_shield := _ |}).
  assert (Hw0 : unlocked sys w0). { unfold unlocked, w0. simpl. destruct (lk_enabled ld); by repeat split. }
  clearbody w0. revert w0 Hw0. induction bs as [|b bs IH]; intros w0 Hw0 E; simpl in E; [by simplify_eq|].
  destruct (process_events _ _ _ _ w0) as [[w1 out]|] eqn:E1; [|done]. simpl in E. apply (IH w1); [|done]. clear IH E.
  unfold process_events in E1. destruct (process_each _ _ _ _ _ _ _) as [st|]; [|done]. simpl in E1. unfold finish_tick in E1.
  set (sh := after_events (wd_shield w0) st) in *. destruct (_ mod 5 =? 0); [|by simplify_eq/=].
  assert (Ht : let '(sh', sys', _) := escalation_tick (bt_env b) sh (wd_sys w0) (es_drops st) in
    match sh_origin_lockdown sh' with Some l => ld_active l = false | None => True end /\ views_eq sys sys').
  { unfold escalation_tick. destruct (update _ _) as [e [t|]]; [|exact Hw0]. unfold respond. simpl.
    destruct Hw0 as [Hl Hv]. destruct (sh_origin_lockdown (wd_shield w0)) as [l|]; [|done].
    destruct (sh_lockdown_dry_run _); [done|]. pose proof (toggle_unlocked sys (wd_sys w0) l (st_to t) Hc Hv Hl) as Htg.
    by destruct (ld_check_and_toggle _ _ _). }
  destruct (escalation_tick _ _ _ _) as [[sh' sys'] incs]. destruct (_ mod 30 =? 0); simplify_eq/=; exact Ht.
Qed.
End never_locked.

(** ** What has no influence *)

(** The limiter without its counts of bytes. *)
Definition no_bytes (tr : IpTracker) : IpTracker :=
  {| it_ip := it_ip tr; token_bucket := token_bucket tr; sliding_window := sliding_window tr; it_ema := it_ema tr; first_seen := first_seen tr;
     last_seen := last_seen tr; it_total_packets := it_total_packets tr; it_total_bytes := 0 |}.
Definition erase_bytes (l : IpRateLimiter) : IpRateLimiter := with_maps l (no_bytes <$> trackers l) (blocked l).

Lemma track_packet_bytes c tr bytes bytes' ts :
  (fun r => (no_bytes r.1, r.2)) <$> track_packet c tr bytes ts = (fun r => (no_bytes r.1, r.2)) <$> track_packet c (no_bytes tr) bytes' ts.
Proof.
  unfold track_packet. simpl. destruct (consume (token_bucket tr) ts) as [b ok]. destruct (record (sliding_window tr) ts) as [[w wok]|]; [|done].
  simpl. by destruct (ema_update _ _).
Qed.

Lemma no_bytes_twice (m : gmap string IpTracker) : no_bytes <$> (no_bytes <$> m) = no_bytes <$> m.
Proof. rewrite <- map_fmap_compose. by apply map_fmap_ext. Qed.

Lemma process_packet_bytes l ip bytes bytes' ts :
  (fun r => (erase_bytes r.1, r.2)) <$> process_packet l ip bytes ts
  = (fun r => (erase_bytes r.1, r.2)) <$> process_packet (erase_bytes l) ip bytes' ts.
Proof.
  unfold process_packet. simpl. destruct (blocked l !! ip).
  { simpl. unfold erase_bytes, with_maps. simpl. by rewrite no_bytes_twice. }
  rewrite lookup_fmap.
  assert (Ed : default (fresh_tracker (rl_config l) ip ts) (no_bytes <$> trackers l !! ip) = no_bytes (default (fresh_tracker (rl_config l) ip ts) (trackers l !! ip))).
  { by destruct (trackers l !! ip). }
  rewrite Ed. set (tr := default _ (trackers l !! ip)). pose proof (track_packet_bytes (rl_config l) tr bytes bytes' ts) as Ht.
  destruct (track_packet (rl_config l) tr bytes ts) as [[t1 [[b1 w1] e1]]|], (track_packet (rl_config l) (no_bytes tr) bytes' ts) as [[t2 [[b2 w2] e2]]|];
    simpl in Ht; try done. simpl. injection Ht as Hip Hb Hw He Hf Hls Hp -> -> ->.
  assert (Hn : no_bytes t1 = no_bytes t2) by (unfold no_bytes; congruence).
  unfold erase_bytes, with_maps. simpl. by rewrite !fmap_insert, Hn, Hp, no_bytes_twice.
Qed.

(** Two limiters that differ in their counts of bytes only. *)
Definition alike (l k : IpRateLimiter) : Prop := erase_bytes l = erase_bytes k.

Lemma alike_packet l k ip b b' ts :
  alike l k ->
  match process_packet l ip b ts, process_packet k ip b' ts with
  | Some (l', d), Some (k', d') => d = d' /\ alike l' k'
  | None, None => True
  | _, _ => False
  end.
Proof.
  intros Ha. pose proof (process_packet_bytes l ip b 0 ts) as H1. pose proof (process_packet_bytes k ip b' 0 ts) as H2.
  rewrite Ha, <- H2 in H1. destruct (process_packet l ip b ts) as [[l' d]|], (process_packet k ip b' ts) as [[k' d']|]; try done.
  change (Some (erase_bytes l', d) = Some (erase_bytes k', d')) in H1. unfold alike. split; congruence.
Qed.

Lemma alike_stale l k max_age now ip : alike l k -> stale l max_age now ip -> stale k max_age now ip.
Proof.
  intros Ha. unfold stale. intros (tr & Htr & Hs).
  assert (He : (no_bytes <$> trackers l) !! ip = (no_bytes <$> trackers k) !! ip) by (unfold alike, erase_bytes, with_maps in Ha; congruence).
  rewrite !lookup_fmap, Htr in He. destruct (trackers k !! ip) as [tr'|]; [|done]. exists tr'. split; [done|].
  assert (last_seen tr' = last_seen tr) as -> by (simpl in He; unfold no_bytes in He; congruence). exact Hs.
Qed.

Lemma alike_cleanup l k max_age now :
  alike l k -> alike (ShieldRateLimiter.cleanup_stale l max_age now) (ShieldRateLimiter.cleanup_stale k max_age now).
Proof.
  intros Ha. destruct (cleanup_stale_lookup l max_age now) as (Hlc & Hlt & Hl), (cleanup_stale_lookup k max_age now) as (Hkc & Hkt & Hk).
  pose proof (fun ip => alike_stale l k max_age now ip Ha) as Hlk. pose proof (fun ip => alike_stale k l max_age now ip (eq_sym Ha)) as Hkl.
  assert (Hd : forall ip, stale l max_age now ip \/ ~ stale l max_age now ip).
  { intros ip. unfold stale. destruct (trackers l !! ip) as [tr|]; [|right; naive_solver].
    destruct (Z.lt_decidable (as_signed 64 (wrap 64 (max_age / NANOS_PER_MILLI))) (num_milliseconds (now - last_seen tr))); naive_solver. }
  unfold alike in *. set (l' := ShieldRateLimiter.cleanup_stale l max_age now) in *. set (k' := ShieldRateLimiter.cleanup_stale k max_age now) in *.
  assert (Htr : no_bytes <$> trackers l' = no_bytes <$> trackers k').
  { apply map_eq. intros ip. rewrite !lookup_fmap.
    destruct (Hd ip) as [Hs|Hs].
    - destruct (Hl ip) as [[-> _] _]; [done|]. destruct (Hk ip) as [[-> _] _]; [auto|done].
    - destruct (Hl ip) as [_ [-> _]]; [done|]. destruct (Hk ip) as [_ [-> _]]; [auto|].
      rewrite <- !lookup_fmap. unfold erase_bytes, with_maps in Ha. congruence. }
  assert (Hbl : blocked l' = blocked k').
  { apply map_eq. intros ip. destruct (Hd ip) as [Hs|Hs].
    - destruct (Hl ip) as [[_ ->] _]; [done|]. destruct (Hk ip) as [[_ ->] _]; [auto|done].
    - destruct (Hl ip) as [_ [_ ->]]; [done|]. destruct (Hk ip) as [_ [_ ->]]; [auto|]. unfold erase_bytes, with_maps in Ha. congruence. }
  pose proof (Hlt Allow) as A1. pose proof (Hlt Drop) as A2. pose proof (Hlt Challenge) as A3.
  pose proof (Hkt Allow) as B1. pose proof (Hkt Drop) as B2. pose proof (Hkt Challenge) as B3. simpl in *.
  unfold erase_bytes, with_maps in *. rewrite Htr, Hbl, Hlc, Hkc, A1, A2, A3, B1, B2, B3. congruence.
Qed.

(** The states of the events and the shields that differ in counts of bytes only. *)
Definition alike_events (a b : EventState) : Prop :=
  alike (es_rate_limiter a) (es_rate_limiter b) /\ es_syn a = es_syn b /\ es_fp a = es_fp b /\ es_xdp a = es_xdp b /\
  es_commands a = es_commands b /\ es_drops a = es_drops b /\ es_blocked a = es_blocked b.

Definition set_limiter (sh : ShieldState) (l : IpRateLimiter) : ShieldState :=
  {| sh_rate_limiter := l; sh_syn_detector := sh_syn_detector sh; sh_escalation := sh_escalation sh;
     sh_classifier := sh_classifier sh; sh_fingerprinter := sh_fingerprinter sh; sh_xdp := sh_xdp sh; sh_tick_counter := sh_tick_counter sh;
     sh_default_rl_config := sh_default_rl_config sh; sh_cloudflare_failover := sh_cloudflare_failover sh; sh_cf_dry_run := sh_cf_dry_run sh;
     sh_origin_lockdown := sh_origin_lockdown sh; sh_lockdown_dry_run := sh_lockdown_dry_run sh |}.

Definition alike_shields (a b : ShieldState) : Prop := exists l, alike (sh_rate_limiter a) l /\ b = set_limiter a l.

Lemma alike_shields_refl a : alike_shields a a.
Proof. exists (sh_rate_limiter a). split; [done|by destruct a]. Qed.

(** What the metrics take of the limiter. *)
Lemma alike_metrics l k :
  alike l k -> mt_blocked_ips (get_metrics l) = mt_blocked_ips (get_metrics k) /\
  mt_total_dropped (get_metrics l) = mt_total_dropped (get_metrics k) /\ mt_total_allowed (get_metrics l) = mt_total_allowed (get_metrics k).
Proof. unfold alike, erase_bytes, with_maps. simpl. intros Ha. split_and!; congruence. Qed.

Lemma alike_reset l k c : alike l k -> alike (reset_config l c) (reset_config k c).
Proof. unfold alike, erase_bytes, with_maps, reset_config. simpl. congruence. Qed.

Section unheeded.
Context `{Chrono} {Sys : Type} `{Commands Sys} (tool : Tool).

Definition alike_worlds (a b : @World Sys) : Prop :=
  alike_shields (wd_shield a) (wd_shield b) /\ wd_commands a = wd_commands b /\ wd_sys a = wd_sys b /\ wd_saves a = wd_saves b.

Lemma alike_observe now ip e a b : alike_events a b -> alike_events (observe now ip e a) (observe now ip e b).
Proof. intros (Hl & Hs & Hf & Hx & Hc & Hd & Hb). unfold observe. rewrite Hs, Hf. by split_and!. Qed.

Lemma alike_event now added_at r1 r2 a b e :
  alike_events a b ->
  match process_event tool now added_at r1 a e, process_event tool now added_at r2 b e with
  | Some a', Some b' => alike_events a' b'
  | None, None => True
  | _, _ => False
  end.
Proof.
  intros Hab. unfold process_event. destruct (event_source_ip e) as [ip|]; [|done]. destruct (negb _); [done|].
  destruct Hab as (Hl & Hs & Hf & Hx & Hc & Hd & Hb).
  pose proof (alike_packet _ _ ip (effective_bytes r1 ip e) (effective_bytes r2 ip e) now Hl) as Hp.
  destruct (process_packet (es_rate_limiter a) _ _ _) as [[l d]|], (process_packet (es_rate_limiter b) _ _ _) as [[k d']|]; try done.
  destruct Hp as [<- Hlk]. simpl.
  assert (Hw : alike_events (with_limiter a l) (with_limiter b k)) by done.
  assert (Hdr : alike_events (drop_at_driver tool a l ip (ev_kind e) added_at) (drop_at_driver tool b k ip (ev_kind e) added_at)).
  { unfold drop_at_driver. rewrite Hx, Hc, Hb, Hs, Hf, Hd. by destruct (add_to_blocklist _ _ _ _ _ _) as [[? ?] ?]. }
  destruct d; by apply alike_observe.
Qed.

Lemma alike_each now added_at r1 r2 events : forall i a b,
  alike_events a b ->
  match process_each tool now added_at r1 i events a, process_each tool now added_at r2 i events b with
  | Some a', Some b' => alike_events a' b'
  | None, None => True
  | _, _ => False
  end.
Proof.
  induction events as [|e events IH]; intros i a b Hab; [done|]. simpl. pose proof (alike_event now (added_at i) r1 r2 a b e Hab) as He.
  destruct (process_event tool now (added_at i) r1 a e), (process_event tool now (added_at i) r2 b e); try done. simpl. by apply IH.
Qed.

Lemma alike_respond env a b sys to :
  alike_shields a b ->
  alike_shields (respond env a sys to).1 (respond env b sys to).1 /\ (respond env a sys to).2 = (respond env b sys to).2.
Proof.
  intros (l & Hl & ->). unfold respond. simpl.
  destruct (sh_origin_lockdown a) as [ld|]; [destruct (sh_lockdown_dry_run a) eqn:E; [|destruct (ld_check_and_toggle ld to sys)]|]; simpl;
    (split; [|done]); eexists; (split; [by apply alike_reset|by unfold set_limiter; simpl; rewrite ?E]).
Qed.

Lemma alike_escalation env a b sys drops :
  alike_shields a b ->
  alike_shields (escalation_tick env a sys drops).1.1 (escalation_tick env b sys drops).1.1 /\
  (escalation_tick env a sys drops).1.2 = (escalation_tick env b sys drops).1.2 /\
  (escalation_tick env a sys drops).2 = (escalation_tick env b sys drops).2.
Proof.
  intros (l & Hl & ->). unfold escalation_tick. destruct (alike_metrics _ _ Hl) as (H1 & H2 & H3). cbn [sh_syn_detector sh_rate_limiter sh_escalation set_limiter].
  rewrite H1, H2, H3. destruct (update _ _) as [e [t|]].
  - assert (Hw : alike_shields (with_escalation a e) (with_escalation (set_limiter a l) e)) by (exists l; split; done).
    destruct (alike_respond env _ _ sys (st_to t) Hw) as [Ha Hs].
    destruct (respond env (with_escalation a e) sys (st_to t)), (respond env (with_escalation (set_limiter a l) e) sys (st_to t)). done.
  - split; [|done]. by exists l.
Qed.

Lemma alike_clean env a b : alike_shields a b -> alike_shields (clean env a) (clean env b).
Proof. intros (l & Hl & ->). eexists. split; [by apply alike_cleanup|done]. Qed.

Lemma alike_saved env a b : alike_shields a b -> saved_state env a = saved_state env b.
Proof. by intros (l & Hl & ->). Qed.

Lemma alike_finish env w v a b :
  alike_worlds w v -> alike_events a b ->
  alike_worlds (finish_tick env w a).1 (finish_tick env v b).1 /\ (finish_tick env w a).2 = (finish_tick env v b).2.
Proof.
  intros ((l & Hl & Hsh) & Hc & Hs & Hsv) (Hr & Hsy & Hf & Hx & Hco & Hd & Hb). unfold finish_tick.
  assert (Ha : alike_shields (after_events (wd_shield w) a) (after_events (wd_shield v) b)).
  { exists (es_rate_limiter b). split; [done|]. rewrite Hsh. unfold after_events, set_limiter. simpl. by rewrite Hsy, Hf, Hx. }
  assert (Ht : sh_tick_counter (after_events (wd_shield v) b) = sh_tick_counter (after_events (wd_shield w) a)) by by rewrite Hsh.
  rewrite Ht, <- Hs, <- Hd, <- Hco, <- Hsv. destruct (_ mod 5 =? 0); [|by split; [split_and!|]].
  destruct (alike_escalation env _ _ (wd_sys w) (es_drops a) Ha) as (He & Hes & Hei).
  destruct (escalation_tick env (after_events (wd_shield w) a) _ _) as [[sh1 s1] i1],
    (escalation_tick env (after_events (wd_shield v) b) _ _) as [[sh2 s2] i2]. simpl in *. subst.
  assert (sh_tick_counter sh2 = sh_tick_counter sh1) as -> by (by destruct He as (k & _ & ->)).
  destruct (_ mod 30 =? 0); simpl; (split; [|done]); split_and!; simpl; try done; [by apply alike_clean|].
  by rewrite (alike_saved env _ _ He).
Qed.

(** C26. The risk scores of known attackers, which are to halve what a risky address may
    send, have no influence: whatever the scores, a tick drops the same packets,
    blocks the same addresses, makes the same incidents and leaves the same
    state, counts of bytes apart. *)
Theorem risk_scores_unheeded env r1 r2 events w w1 out :
  process_events tool env r1 events w = Some (w1, out) ->
  exists w2, process_events tool env r2 events w = Some (w2, out) /\ alike_worlds w1 w2.
Proof.
  unfold process_events. intros E.
  assert (Hst : alike_events (start_tick (wd_shield w) (wd_commands w)) (start_tick (wd_shield w) (wd_commands w))) by by split_and!.
  pose proof (alike_each (te_now env) (te_added_at env) r1 r2 events 0 _ _ Hst) as He.
  destruct (process_each tool (te_now env) (te_added_at env) r1 0 events _) as [a|]; [|done].
  destruct (process_each tool (te_now env) (te_added_at env) r2 0 events _) as [b|]; [|done]. simpl in *.
  assert (Hw : alike_worlds w w) by (split_and!; [apply alike_shields_refl|done..]).
  destruct (alike_finish env w w a b Hw He) as [Hf Hi]. destruct He as (_ & _ & _ & _ & _ & Hd & Hb).
  destruct (finish_tick env w a) as [wa ia], (finish_tick env w b) as [wb ib]. simpl in *. injection E as <- <-.
  exists wb. split; [|done]. congruence.
Qed.
End unheeded.

(** ** The scaled limits and the addresses that are known *)

Definition packet_op (p : string * Z * Z) : LimiterOp := OpPacket p.1.1 p.1.2 p.2.

(** The decisions of a sequence of packets. *)
Definition decisions_of (l : IpRateLimiter) (ps : list (string * Z * Z)) : option (list RateLimitDecision) :=
  snd <$> limiter_run l (packet_op <$> ps).

Lemma packet_scaled l c ip bytes ts :
  ema_min_samples c = ema_min_samples (rl_config l) -> is_Some (trackers l !! ip) ->
  process_packet (reset_config l c) ip bytes ts = (fun r => (reset_config r.1 c, r.2)) <$> process_packet l ip bytes ts.
Proof.
  intros Hc [tr Htr]. unfold process_packet. simpl. destruct (blocked l !! ip); [done|]. rewrite Htr. simpl.
  unfold track_packet. rewrite Hc. destruct (consume _ _) as [b ok]. destruct (record _ _) as [[w wok]|]; [|done]. simpl.
  by destruct (ema_update _ _).
Qed.

Lemma packet_tracks l ip bytes ts l' d i :
  process_packet l ip bytes ts = Some (l', d) -> is_Some (trackers l !! i) -> is_Some (trackers l' !! i).
Proof.
  unfold process_packet. destruct (blocked l !! ip); [by intros [= <- _]|].
  destruct (track_packet _ _ _ _) as [[tr [[b w] e]]|]; simpl; [|done]. intros [= <- _] Hi. simpl. by apply lookup_insert_is_Some'; right.
Qed.

(** New limits change no decision about addresses that are tracked already: their
    buckets and windows were made with the limits of their first packet. *)
Theorem scaling_spares_known c ps : forall l,
  ema_min_samples c = ema_min_samples (rl_config l) -> Forall (fun p => is_Some (trackers l !! p.1.1)) ps ->
  decisions_of (reset_config l c) ps = decisions_of l ps.
Proof.
  unfold decisions_of. induction ps as [|[[ip b] ts] ps IH]; intros l Hc Hps; [done|].
  apply Forall_cons in Hps as [Hip Hps]. simpl in *. rewrite (packet_scaled l c ip b ts Hc Hip).
  destruct (process_packet l ip b ts) as [[l' d]|] eqn:E; [|done]. simpl.
  specialize (IH l'). rewrite (process_packet_config _ _ _ _ _ _ E) in IH. specialize (IH Hc).
  assert (Hps' : Forall (fun p => is_Some (trackers l' !! p.1.1)) ps).
  { eapply Forall_impl; [exact Hps|]. intros p. simpl. exact (packet_tracks _ _ _ _ _ _ _ E). }
  specialize (IH Hps').
  destruct (limiter_run (reset_config l' c) _) as [[? ?]|], (limiter_run l' _) as [[? ?]|]; simpl in *; congruence.
Qed.

(** ** The kind of an attack *)

(** A transition to [UnderAttack] is never correlated under the kind of an attack:
    its title spells the state with a blank.  When it comes from [Elevated] it is
    taken for an elevation, and when it comes from [Critical] for a critical one. *)
Theorem attack_kind_never_used t :
  correlation_kind (transition_title t) <> "shield.escalation.under_attack" /\
  (st_to t = UnderAttack ->
   correlation_kind (transition_title t) =
     match st_from t with
     | Critical => "shield.escalation.critical" | Elevated => "shield.escalation.elevated" | _ => "shield.escalation.transition"
     end).
Proof.
  destruct t as [from to at_ trigger]. unfold transition_title. cbn [st_from st_to].
  destruct from, to; (split; [vm_compute; congruence|first [discriminate | intros _; vm_compute; reflexivity]]).
Qed.

(** ** Demonstrations *)

#[local] Instance demo_shield_chrono : Chrono := { parse_utc := fun _ => None; to_rfc3339 := show; fmt_minute := show }.
#[local] Existing Instance demo_commands.
#[local] Existing Instance demo_netfilter.

Definition no_tool : Tool := fun _ _ => SpawnFailed.
Definition demo_env (now : Z) : TickEnv :=
  {| te_now := now; te_added_at := fun _ => now; te_dur := now; te_ts := now; te_send := fun _ => SendFailed; te_check := now; te_mark := now;
     te_inc_ts := now; te_id_ts := now; te_saved_at := now; te_hostname := None |}.
Definition demo_event (kind ip : string) : Event :=
  {| ev_ts := 0; ev_host := ""; ev_source := ""; ev_kind := kind; ev_severity := Low; ev_summary := ""; ev_details := JObj [("ip", JStr ip)];
     ev_tags := []; ev_entities := [] |}.
Definition cf_off : FailoverSection :=
  {| fs_on := false; fs_token := ""; fs_zone := ""; fs_record := ""; fs_states := []; fs_min_secs := 0; fs_dry_run := true |}.
Definition ld_on : LockdownSection := {| lk_enabled := true; lk_dry_run := false |}.

Definition demo_shield (saved : option (SavedState * option (list DdosIncident))) : ShieldState :=
  ShieldState_new "/sys/fs/bpf" true cf_off ld_on None saved 0.
Definition demo_world (saved : option (SavedState * option (list DdosIncident))) (sys : Table) : World :=
  {| wd_shield := demo_shield saved; wd_commands := []; wd_sys := sys; wd_saves := [] |}.

(** Five ticks with four hundred packets of one address each. *)
Definition demo_flood : list Batch :=
  repeat {| bt_env := demo_env 0; bt_risks := ∅; bt_events := repeat (demo_event "http.request" "192.0.2.1") 400 |} 5.

Definition after_flood : option World := run_batches no_tool (demo_world None (demo_table false)) demo_flood.

Lemma demo_shield_ok saved : shield_ok (demo_shield saved).
Proof.
  split; [|vm_compute; congruence|apply map_Forall_empty].
  split; [vm_compute; congruence|by intros ? ? ?|by intros ? ? ?|intros d; destruct d; split; simpl; lia].
Qed.

Lemma tick_never_panics_witness :
  exists w' drops incidents blocked,
    process_events no_tool (demo_env 0) ∅ [demo_event "http.request" "192.0.2.1"] (demo_world None (demo_table false)) =
      Some (w', (drops, incidents, blocked)) /\
    shield_ok (wd_shield w') /\ Forall (fun ip => xdp_is_blocked (sh_xdp (wd_shield w')) ip = true) blocked.
Proof. apply tick_never_panics, (demo_shield_ok None). Defined.

(** The state and the limits after the flood. *)
Example flood_escalates : state_of <$> after_flood = Some Critical.
Proof. vm_compute. reflexivity. Qed.

Definition flooded : World := default (demo_world None (demo_table false)) after_flood.

Lemma flooded_run : run_batches no_tool (demo_world None (demo_table false)) demo_flood = Some flooded.
Proof. vm_compute. reflexivity. Qed.

Lemma flooded_critical : state_of flooded = Critical.
Proof. vm_compute. reflexivity. Qed.

Lemma limits_follow_state_witness :
  limits_of (wd_shield flooded) = scaled_config RateLimiterConfig_default (rate_limit_factor (state_of flooded)) /\ state_of flooded = Critical.
Proof. split; [exact (limits_follow_state no_tool "/sys/fs/bpf" true cf_off ld_on None 0 (demo_table false) demo_flood flooded flooded_run)|exact flooded_critical]. Defined.

(** The firewall of a fresh host after the flood, with the lockdown on and not dry. *)
Lemma agent_never_locks_down_witness : unlocked (demo_table false) flooded.
Proof. exact (agent_never_locks_down no_tool "/sys/fs/bpf" true cf_off ld_on None None 0 (demo_table false) demo_flood flooded eq_refl flooded_run). Defined.

(** A restart in a critical state, and one calm tick. *)
Definition critical_save : SavedState :=
  {| sv_escalation_state := Critical; sv_entered_at := ""; sv_blocked_ips := []; sv_last_saved := "" |}.
Definition demo_restart : list Batch := repeat {| bt_env := demo_env 0; bt_risks := ∅; bt_events := [] |} 5.
Definition restarted : World :=
  default (demo_world None (demo_table false)) (run_batches no_tool (demo_world (Some (critical_save, None)) (demo_table false)) demo_restart).

Lemma restarted_run : run_batches no_tool (demo_world (Some (critical_save, None)) (demo_table false)) demo_restart = Some restarted.
Proof. vm_compute. reflexivity. Qed.

Lemma restored_attack_unanswered_witness :
  state_of restarted = Critical /\
  responses restarted = (RateLimiterConfig_default, None, Some (OriginLockdown_new None), demo_table false).
Proof.
  apply (restored_attack_unanswered no_tool "/sys/fs/bpf" true cf_off ld_on None critical_save None 0 (demo_table false) demo_restart restarted restarted_run).
  vm_compute. reflexivity.
Defined.

(** The worst of scores. *)
Definition all_risky : gmap string Z := {[ "192.0.2.1" := 100 ]}.
Definition many_requests : list Event := repeat (demo_event "http.request" "192.0.2.1") 120.
Definition one_tick : option (World * (Z * list Json * list string)) :=
  process_events no_tool (demo_env 0) ∅ many_requests (demo_world None (demo_table false)).
Definition one_tick_after : World := default (demo_world None (demo_table false)) (fst <$> one_tick).
Definition one_tick_out : Z * list Json * list string := default (0, [], []) (snd <$> one_tick).

Lemma one_tick_run :
  process_events no_tool (demo_env 0) ∅ many_requests (demo_world None (demo_table false)) = Some (one_tick_after, one_tick_out).
Proof. vm_compute. reflexivity. Qed.

Lemma risk_scores_unheeded_witness :
  exists w2, process_events no_tool (demo_env 0) all_risky many_requests (demo_world None (demo_table false)) =
               Some (w2, one_tick_out) /\ alike_worlds one_tick_after w2.
Proof. exact (risk_scores_unheeded no_tool (demo_env 0) ∅ all_risky many_requests (demo_world None (demo_table false)) one_tick_after one_tick_out one_tick_run). Defined.

Lemma scaling_spares_known_witness :
  decisions_of (reset_config (sh_rate_limiter (wd_shield one_tick_after)) (scaled_config RateLimiterConfig_default (rate_limit_factor Critical)))
    [("192.0.2.1", 64, seconds 5)] =
  decisions_of (sh_rate_limiter (wd_shield one_tick_after)) [("192.0.2.1", 64, seconds 5)].
Proof.
  apply scaling_spares_known; [vm_compute; reflexivity|].
  constructor; [|constructor]. vm_compute. eauto.
Defined.

(** The second half of a handshake is counted as a first one. *)
Example syn_ack_counted_as_syn :
  let st := observe 0 "192.0.2.1" (demo_event "network.syn_ack" "192.0.2.1") (start_tick (demo_shield None) []) in
  syn_count_for (es_syn st) "192.0.2.1" = 1 /\ ack_count_for (es_syn st) "192.0.2.1" = 0.
Proof. vm_compute. done. Qed.
