(* ===== verification/AgentGateMonitor.v ===== *)
(** * AgentGateMonitor: is the execution gate what was signed?
    (crates/agent/src/execution_gate_monitor.rs)

    A tick of the slow loop compares the live maps of the kernel with the signed
    allowlist, at most every ten minutes, and writes an incident of its own when
    they have diverged, at most every six hours.  Both limits are a slot in memory
    that is claimed with a compare-and-exchange.  The verdict is [CoreGate]'s; the
    maps, the signed file and the clock are arguments.

    Proved here: whatever the interleaving of the threads that claim a slot, two
    claims are never closer than the interval; a tick writes exactly the incident
    the verdict calls for; a drift that lasts is never silent for longer than six
    hours and ten minutes. *)

From Stdlib Require Import ZArith Lia Ascii String.
From stdpp Require Import prelude strings pretty gmap list.
From S2P Require Import Prelude Text Json CoreTypes CoreGate.

Local Open Scope string_scope.
Local Open Scope list_scope.
Local Open Scope Z_scope.

Definition CHECK_INTERVAL_SECS : Z := 600.
Definition INCIDENT_COOLDOWN_SECS : Z := 6 * 3600.

Definition interval_elapsed (last now min_secs : Z) : bool := (last =? 0) || (min_secs <=? now - last).

(** ** The throttle, in threads *)

(** A thread before its load, after it, and done with its answer. *)
Inductive Claim := Loading (now : Z) | Loaded (now last : Z) | Claimed (now : Z) | Refused.

(** One atomic operation of one thread on the slot. *)
Inductive claim_step (min_secs : Z) : Z * Claim -> Z * Claim -> Prop :=
| step_load slot now :
    interval_elapsed slot now min_secs = true -> claim_step min_secs (slot, Loading now) (slot, Loaded now slot)
| step_too_early slot now :
    interval_elapsed slot now min_secs = false -> claim_step min_secs (slot, Loading now) (slot, Refused)
| step_exchange now last : claim_step min_secs (last, Loaded now last) (now, Claimed now)
| step_lost slot now last : slot <> last -> claim_step min_secs (slot, Loaded now last) (slot, Refused).

(** The slot, the threads, and the times at which it was claimed, in order. *)
Record Race := { rc_slot : Z; rc_threads : list Claim; rc_claims : list Z }.

Inductive race_step (min_secs : Z) : Race -> Race -> Prop :=
| race_one i slot slot' c c' ts l :
    ts !! i = Some c -> claim_step min_secs (slot, c) (slot', c') ->
    race_step min_secs {| rc_slot := slot; rc_threads := ts; rc_claims := l |}
      {| rc_slot := slot'; rc_threads := <[i := c']> ts; rc_claims := match c' with Claimed now => l ++ [now] | _ => l end |}
| race_spawn slot ts l now :
    now <> 0 -> race_step min_secs {| rc_slot := slot; rc_threads := ts; rc_claims := l |}
      {| rc_slot := slot; rc_threads := ts ++ [Loading now]; rc_claims := l |}.

Definition race_start : Race := {| rc_slot := 0; rc_threads := []; rc_claims := [] |}.

(** The same as a function: the answer and the slot after it, of one thread alone. *)
Definition throttle_allows (slot now min_secs : Z) : bool * Z :=
  if interval_elapsed slot now min_secs then (true, now) else (false, slot).

(** ** The incident *)

Definition mode_label (m : option GateMode) : Json := match m with Some m => JStr (gate_label m) | None => JNull end.
Definition count_value (n : option Z) : Json := match n with Some n => JInt n | None => JNull end.

Definition divergence_parts (d : Divergence) : option (Severity * string * string * string) :=
  match d with
  | NoDivergence => None
  | ActiveButEmpty mode _ =>
      Some (if bool_decide (mode = Enforce) then Critical else High,
            "execution_gate:active_but_empty:" +:+ gate_label mode,
            "Execution Gate is armed with an empty allowlist",
            "The kernel Execution Gate is in " +:+ gate_label mode +:+ " mode but the live EXEC_ALLOWLIST is empty. "
            +:+ "In enforce mode this denies EVERY exec (host brick risk); in observe mode it "
            +:+ "means no real coverage. The signed allowlist has not been applied to the kernel.")
  | ApplyDrift signed live intended_mode live_mode =>
      Some (High,
            "execution_gate:apply_drift:" +:+ show signed +:+ ":" +:+ show live,
            "Execution Gate apply drift (signed config not in kernel)",
            "The signed Execution Gate config (intent: " +:+ default "unknown" (gate_label <$> intended_mode) +:+ ", " +:+ show signed
            +:+ " entries) has not converged to the kernel: the live map has " +:+ show live +:+ " entries and the gate mode is "
            +:+ gate_label live_mode +:+ ". The paid reconcile/apply path is staged-not-applied — observe telemetry is not flowing and "
            +:+ "arming now would be unsafe. Re-run a FULL exec-gate apply, then verify the live map count equals the signed count.")
  end.

Definition build_divergence_incident (host : string) (gate : GateState) (d : Divergence) (now : Z) : option Incident :=
  '(severity, incident_id, title, summary) ← divergence_parts d;
  Some {|
    in_ts := now; in_host := host; in_incident_id := incident_id; in_severity := severity; in_title := title; in_summary := summary;
    in_evidence := JObj [("signed_count", count_value (signed_count gate)); ("intended_mode", mode_label (intended_mode gate));
                         ("live_count", count_value (live_count gate)); ("live_mode", JStr (gate_label (live_mode gate)));
                         ("exec_allowlist_pin", JStr EXEC_ALLOWLIST_PIN); ("lsm_policy_pin", JStr LSM_POLICY_PIN); ("spec", JStr "080-G4")];
    in_recommended_checks :=
      ["Run `innerwarden doctor` — the Execution Gate section shows signed vs live.";
       "Run a FULL `config-sign exec-gate apply` (not incremental) so the kernel map reconverges.";
       "Confirm `bpftool map dump` count for EXEC_ALLOWLIST equals the signed file count.";
       "Do NOT arm (enforce) until live == signed and a zero-deny rehearse passes."];
    in_tags := ["execution-gate"; "active-defence"; "apply-drift"; "self-incident"];
    in_entities := [] |}.

(** The signed file: its text if it could be read, and the parser of JSON. *)
Definition read_signed_allowlist (parse_json : string -> option Json) (raw : option string) : option Z * option GateMode :=
  match raw with
  | None => (None, None)
  | Some raw => match parse_json raw with Some v => parse_signed_allowlist v | None => (None, None) end
  end.

(** What a tick reads: the clock, twice, the host's name, the signed file and the maps. *)
Record GateReading := {
  gr_now : Z; gr_ts : Z; gr_hostname : option string; gr_signed_file : option string; gr_live : option Z * GateMode;
}.

(** The two slots and the incidents written. *)
Record Monitor := { mo_check_slot : Z; mo_incident_slot : Z; mo_written : list Incident }.

Section monitor.
Context (parse_json : string -> option Json).

Definition gather_gate_state (r : GateReading) : GateState :=
  let '(signed, intended) := read_signed_allowlist parse_json (gr_signed_file r) in
  {| signed_count := signed; intended_mode := intended; live_count := (gr_live r).1; live_mode := (gr_live r).2 |}.

Definition read_hostname (h : option string) : string := match h with Some s => trim s | None => "unknown" end.

Definition handle_gate_state (r : GateReading) (gate : GateState) (m : Monitor) : Monitor * bool :=
  let divergence := evaluate_divergence gate in
  if negb (is_drift divergence) then (m, false)
  else
    let '(allowed, slot) := throttle_allows (mo_incident_slot m) (gr_now r) INCIDENT_COOLDOWN_SECS in
    let m := {| mo_check_slot := mo_check_slot m; mo_incident_slot := slot; mo_written := mo_written m |} in
    if negb allowed then (m, false)
    else match build_divergence_incident (read_hostname (gr_hostname r)) gate divergence (gr_ts r) with
         | None => (m, false)
         | Some inc => ({| mo_check_slot := mo_check_slot m; mo_incident_slot := slot; mo_written := mo_written m ++ [inc] |}, true)
         end.

Definition process_execution_gate_tick (m : Monitor) (r : GateReading) : Monitor :=
  let '(allowed, slot) := throttle_allows (mo_check_slot m) (gr_now r) CHECK_INTERVAL_SECS in
  let m := {| mo_check_slot := slot; mo_incident_slot := mo_incident_slot m; mo_written := mo_written m |} in
  if negb allowed then m else (handle_gate_state r (gather_gate_state r) m).1.
End monitor.

(** ** Two claims are never too close *)

Definition spaced (min_secs : Z) (l : list Z) : Prop := forall i a b, l !! i = Some a -> l !! S i = Some b -> min_secs <= b - a.

Lemma claims_spaced_snoc min_secs l x :
  spaced min_secs l -> (forall a, last l = Some a -> min_secs <= x - a) -> spaced min_secs (l ++ [x]).
Proof.
  intros Hl Hx i a b Ha Hb. destruct (decide (S i < length l)%nat) as [Hi|Hi].
  - rewrite lookup_app_l in Ha, Hb by lia. by apply (Hl i).
  - assert (Hlen : (S i < length (l ++ [x]))%nat) by (by apply lookup_lt_Some in Hb). rewrite length_app in Hlen. simpl in Hlen.
    assert (S i = length l) as Hi' by lia. rewrite Hi', list_lookup_middle in Hb by done. injection Hb as <-.
    rewrite lookup_app_l in Ha by lia. apply Hx. rewrite last_lookup. replace (pred (length l)) with i by lia. done.
Qed.

(** What a thread may be, given the slot's history. *)
Definition claim_ok (min_secs : Z) (c : Claim) : Prop :=
  match c with Loading now => now <> 0 | Loaded now last => now <> 0 /\ interval_elapsed last now min_secs = true | _ => True end.

Record race_ok (min_secs : Z) (r : Race) : Prop := {
  ro_slot : rc_slot r = default 0 (last (rc_claims r));
  ro_claims : Forall (fun x => x <> 0) (rc_claims r);
  ro_spaced : spaced min_secs (rc_claims r);
  ro_threads : Forall (claim_ok min_secs) (rc_threads r);
}.

Lemma race_step_ok min_secs r r' : race_ok min_secs r -> race_step min_secs r r' -> race_ok min_secs r'.
Proof.
  intros [Hs Hc Hsp Ht] Hstep. destruct Hstep as [i slot slot' c c' ts l Hi Hcs|slot ts l now Hn]; simpl in *.
  - assert (Hci : claim_ok min_secs c) by (by eapply Forall_lookup_1).
    assert (Hins : claim_ok min_secs c' -> Forall (claim_ok min_secs) (<[i := c']> ts)) by (intros; by apply Forall_insert).
    inversion Hcs; subst; simpl in *.
    + split; simpl; [done..|]. by apply Hins.
    + split; simpl; [done..|]. by apply Hins.
    + destruct Hci as [Hn He]. split; simpl; [by rewrite last_snoc|by apply Forall_app_2; [|constructor]| |by apply Hins].
      apply claims_spaced_snoc; [done|]. intros a Ha. rewrite Ha in He. simpl in He. unfold interval_elapsed in He.
      apply orb_true_iff in He as [He|He]; [|lia].
      exfalso. apply Z.eqb_eq in He. subst a. apply last_Some_elem_of in Ha. rewrite Forall_forall in Hc. by apply (Hc 0).
    + split; simpl; [done..|]. by apply Hins.
  - split; simpl; [done..|]. by apply Forall_app_2; [|constructor].
Qed.

(** Whatever the interleaving of the loads and exchanges of any number of threads,
    and whatever their clocks say, two claims of a slot in a row are at least the
    interval apart. *)
Theorem claims_spaced min_secs r : rtc (race_step min_secs) race_start r -> spaced min_secs (rc_claims r).
Proof.
  intros Hr. enough (race_ok min_secs r) by apply ro_spaced, H.
  assert (H0 : race_ok min_secs race_start) by (split; simpl; [done|constructor|intros i a b Ha; by rewrite lookup_nil in Ha|constructor]).
  revert H0. induction Hr as [r|r1 r2 r3 Hstep _ IH]; [done|]. intros H0. apply IH. by eapply race_step_ok.
Qed.

(** One thread alone is the function. *)
Lemma throttle_alone min_secs slot now :
  let '(ok, slot') := throttle_allows slot now min_secs in
  rtc (claim_step min_secs) (slot, Loading now) (slot', if ok then Claimed now else Refused).
Proof.
  unfold throttle_allows. destruct (interval_elapsed slot now min_secs) eqn:E.
  - eapply rtc_l; [by apply step_load|]. eapply rtc_l; [apply step_exchange|]. done.
  - eapply rtc_l; [by apply step_too_early|]. done.
Qed.

(** ** What a tick writes *)

Section ticks.
Context (parse_json : string -> option Json).

Definition tick : Monitor -> GateReading -> Monitor := process_execution_gate_tick parse_json.
Definition verdict_now (r : GateReading) : Divergence := evaluate_divergence (gather_gate_state parse_json r).

(** Whether the tick is one that checks, and whether an incident is due. *)
Definition checks (m : Monitor) (r : GateReading) : bool := interval_elapsed (mo_check_slot m) (gr_now r) CHECK_INTERVAL_SECS.
Definition due (m : Monitor) (r : GateReading) : bool := interval_elapsed (mo_incident_slot m) (gr_now r) INCIDENT_COOLDOWN_SECS.

Lemma drift_has_incident host gate d now : is_drift d = true -> is_Some (build_divergence_incident host gate d now).
Proof. destruct d; [done|..]; intros _; unfold build_divergence_incident; simpl; eauto. Qed.

(** A tick writes an incident exactly when it checks, the kernel has diverged and an
    incident is due; it is then that of the verdict, critical when the gate would
    deny every execution, and both slots are claimed. *)
Theorem tick_exact m r :
  (checks m r && is_drift (verdict_now r) && due m r = true ->
   exists inc, mo_written (tick m r) = mo_written m ++ [inc] /\ mo_check_slot (tick m r) = gr_now r /\ mo_incident_slot (tick m r) = gr_now r /\
     build_divergence_incident (read_hostname (gr_hostname r)) (gather_gate_state parse_json r) (verdict_now r) (gr_ts r) = Some inc /\
     (in_severity inc = Critical <-> exists n, verdict_now r = ActiveButEmpty Enforce n)) /\
  (checks m r && is_drift (verdict_now r) && due m r = false ->
   mo_written (tick m r) = mo_written m /\ mo_incident_slot (tick m r) = mo_incident_slot m /\
   mo_check_slot (tick m r) = if checks m r then gr_now r else mo_check_slot m).
Proof.
  unfold tick, process_execution_gate_tick, throttle_allows. fold (checks m r). unfold handle_gate_state. fold (verdict_now r).
  destruct (checks m r); simpl; [|by split]. destruct (is_drift (verdict_now r)) eqn:Ed; simpl; [|by split].
  unfold throttle_allows. simpl. fold (due m r). destruct (due m r); simpl; [|by split]. split; [intros _|done].
  destruct (drift_has_incident (read_hostname (gr_hostname r)) (gather_gate_state parse_json r) (verdict_now r) (gr_ts r) Ed) as [inc E].
  rewrite E. exists inc. split_and!; [done..|]. unfold build_divergence_incident in E.
  destruct (verdict_now r) as [|mode n|sg lv im lm]; simpl in E; [done|..]; injection E as <-; simpl.
  - case_bool_decide as Em; [subst mode; split; [by exists n|done]|]. split; [done|]. intros [k [= ->]]. done.
  - split; [done|]. by intros [k [=]].
Qed.

Definition run_monitor (m : Monitor) (rs : list GateReading) : Monitor := foldl tick m rs.
Definition monitor_start : Monitor := {| mo_check_slot := 0; mo_incident_slot := 0; mo_written := [] |}.

Lemma elapsed_spec last now n : interval_elapsed last now n = true <-> last = 0 \/ n <= now - last.
Proof. unfold interval_elapsed. rewrite orb_true_iff, Z.eqb_eq, Z.leb_le. done. Qed.

Lemma elapsed_not last now n : interval_elapsed last now n = false <-> last <> 0 /\ now - last < n.
Proof. unfold interval_elapsed. rewrite orb_false_iff, Z.eqb_neq, Z.leb_gt. done. Qed.

(** A drift that is there at every tick is never silent for longer than the cooldown
    and one check interval: after each tick the last incident is younger. *)
Theorem drift_never_silent rs r :
  Forall (fun r => 0 < gr_now r /\ is_drift (verdict_now r) = true) (rs ++ [r]) ->
  let m := run_monitor monitor_start (rs ++ [r]) in
  mo_written m <> [] /\ mo_incident_slot m ∈ gr_now <$> rs ++ [r] /\
  gr_now r - mo_incident_slot m < INCIDENT_COOLDOWN_SECS + CHECK_INTERVAL_SECS.
Proof.
  intros Hrs.
  cut (let m := run_monitor monitor_start (rs ++ [r]) in
       mo_written m <> [] /\ mo_incident_slot m ∈ gr_now <$> rs ++ [r] /\ 0 < mo_check_slot m /\ 0 < mo_incident_slot m /\
       gr_now r - mo_check_slot m < CHECK_INTERVAL_SECS /\ mo_check_slot m - mo_incident_slot m < INCIDENT_COOLDOWN_SECS).
  { intros (A & B & _ & _ & C & D). split_and!; [done..|lia]. }
  revert r Hrs. induction rs as [|q rs IH] using rev_ind; intros r Hrs.
  - apply Forall_singleton in Hrs as [Hr Hd]. unfold run_monitor. simpl.
    destruct (tick_exact monitor_start r) as [Hw _]. unfold checks, due in Hw. simpl in Hw. rewrite Hd in Hw.
    destruct Hw as (inc & E1 & E2 & E3 & _); [done|]. rewrite E1, E2, E3. simpl. unfold CHECK_INTERVAL_SECS, INCIDENT_COOLDOWN_SECS.
    split_and!; [done|set_solver|lia..].
  - apply Forall_app in Hrs as [Hq Hr]. apply Forall_singleton in Hr as [Hr Hd]. specialize (IH q Hq). cbv zeta in IH.
    unfold run_monitor in *. rewrite foldl_app. simpl. set (m := foldl tick monitor_start (rs ++ [q])) in *.
    destruct IH as (Hwr & Hin & Hc0 & Hi0 & Hc & Hi). rewrite fmap_app.
    destruct (tick_exact m r) as [Hyes Hno]. rewrite Hd, andb_true_r in *. destruct (checks m r && due m r) eqn:E.
    + destruct (Hyes eq_refl) as (inc & -> & -> & -> & _). unfold CHECK_INTERVAL_SECS, INCIDENT_COOLDOWN_SECS.
      split_and!; [by destruct (mo_written m)|set_solver|lia..].
    + destruct (Hno eq_refl) as (-> & -> & ->). unfold checks, due in *. split_and!; [done|set_solver|..].
      * by destruct (interval_elapsed (mo_check_slot m) _ _).
      * done.
      * destruct (interval_elapsed (mo_check_slot m) (gr_now r) CHECK_INTERVAL_SECS) eqn:Ec; [unfold CHECK_INTERVAL_SECS; lia|].
        apply elapsed_not in Ec. lia.
      * destruct (interval_elapsed (mo_check_slot m) (gr_now r) CHECK_INTERVAL_SECS) eqn:Ec; [|done]. simpl in E. apply elapsed_not in E. lia.
Qed.
End ticks.

(** ** Demonstrations *)

(** Two threads that load before either exchanges: one of them loses. *)
Definition race_end : Race := {| rc_slot := 700; rc_threads := [Claimed 700; Refused]; rc_claims := [700] |}.

Lemma race_runs : rtc (race_step 600) race_start race_end.
Proof.
  eapply rtc_l; [apply (race_spawn 600 0 [] [] 700); done|]. simpl.
  eapply rtc_l; [apply (race_spawn 600 0 _ [] 701); done|]. simpl.
  eapply rtc_l; [apply (race_one 600 0 0 0 (Loading 700) (Loaded 700 0)); [done|by constructor]|]. simpl.
  eapply rtc_l; [apply (race_one 600 1 0 0 (Loading 701) (Loaded 701 0)); [done|by constructor]|]. simpl.
  eapply rtc_l; [apply (race_one 600 0 0 700 (Loaded 700 0) (Claimed 700)); [done|by constructor]|]. simpl.
  eapply rtc_l; [apply (race_one 600 1 700 700 (Loaded 701 0) Refused); [done|by constructor]|]. simpl. apply rtc_refl.
Qed.

Lemma claims_spaced_witness : spaced 600 (rc_claims race_end) /\ rc_claims race_end = [700].
Proof. split; [apply claims_spaced, race_runs|reflexivity]. Defined.

Definition no_json : string -> option Json := fun _ => None.
(** The gate enforces an empty list. *)
Definition bricked (now : Z) : GateReading :=
  {| gr_now := now; gr_ts := now; gr_hostname := None; gr_signed_file := None; gr_live := (Some 0, Enforce) |}.

Lemma tick_exact_witness :
  exists inc, mo_written (tick no_json monitor_start (bricked 1000)) = [inc] /\ in_severity inc = Critical.
Proof.
  destruct (proj1 (tick_exact no_json monitor_start (bricked 1000)) eq_refl) as (inc & Hw & _ & _ & _ & Hs).
  exists inc. split; [exact Hw|]. apply Hs. exists 0. reflexivity.
Defined.

Lemma drift_never_silent_witness :
  mo_written (run_monitor no_json monitor_start [bricked 1000; bricked 1300; bricked 22000]) <> [] /\
  22000 - mo_incident_slot (run_monitor no_json monitor_start [bricked 1000; bricked 1300; bricked 22000]) < 22200.
Proof.
  destruct (drift_never_silent no_json [bricked 1000; bricked 1300] (bricked 22000)) as (A & _ & B); [repeat constructor; simpl; lia|].
  split; [exact A|exact B].
Defined.

(** A slot claimed at time zero counts as never claimed. *)
Example claim_at_zero_forgotten : (throttle_allows (throttle_allows 0 0 600).2 1 600).1 = true.
Proof. reflexivity. Qed.
