(* ===== verification/ShieldDaemon.v ===== *)
(** * ShieldDaemon: the shield as a process of its own (crates/shield/src/main.rs)

    Every two seconds [run_tick] polls the log files, feeds their events to the
    limiter, the SYN detector and the fingerprinter, drops addresses at the network
    driver, classifies, lets the escalation engine decide, and brings the limits,
    the Cloudflare proxy, the origin lockdown, the rate limit of the kernel and the
    state of the API in line with its decision.  The parts are those of the other
    files; the clock, the files, the answers of bpftool, of the Cloudflare API and
    of the firewall are arguments.

    Proved here: a tick never panics and keeps the parts consistent and the history
    of the API bounded; the lockdown is off in every calm state, and follows the
    state when no command fails; an escalation while the daemon warms up is undone,
    and yet sets the rate limit of the kernel; a dry run runs bpftool. *)

From Stdlib Require Import ZArith Lia Ascii String SpecFloat.
From stdpp Require Import prelude strings pretty gmap list.
From S2P Require Import Prelude Text Json Floats CoreTypes ShieldEscalation ShieldFailover ShieldSyn ShieldRateLimiter ShieldClassifier.
From S2P Require Import ShieldFingerprint ShieldLockdown ShieldIngest XdpBlocklist AgentShield.

Local Open Scope string_scope.
Local Open Scope list_scope.
Local Open Scope Z_scope.

(** ** What the API shows (api.rs) *)

Record BlockedIpInfo := { ap_ip : string; ap_reason : string; ap_blocked_since : string; ap_duration_secs : Z; ap_packets_dropped : Z }.
Record MetricsSnapshot := {
  ms_timestamp : string; ms_packets_per_sec : Z; ms_drops_per_sec : Z; ms_escalation_level : string; ms_attack_types : list string;
}.
Record AppState := {
  as_metrics : option DdosMetrics;
  as_blocked_ips : list BlockedIpInfo;
  as_incidents : list DdosIncident;
  as_attack_incidents : list AttackIncident;
  as_metrics_history : list MetricsSnapshot;
  as_started_at : Z;
}.

Definition AppState_new (now : Z) : AppState :=
  {| as_metrics := None; as_blocked_ips := []; as_incidents := []; as_attack_incidents := []; as_metrics_history := []; as_started_at := now |}.

(** ** The daemon *)

Record ShieldDaemon := {
  da_rate_limiter : IpRateLimiter;
  da_syn_detector : SynFloodDetector;
  da_escalation : EscalationEngine;
  da_classifier : AttackClassifier;
  da_fingerprinter : TcpFingerprinter;
  da_xdp : XdpManager;
  da_ingestor : EventIngestor;
  da_api_state : AppState;
  da_cloudflare_failover : option CloudflareFailover;
  da_origin_lockdown : OriginLockdown;
  da_telegram : bool;
  da_default_rl_config : RateLimiterConfig;
  da_boot_time : Z;
}.

(** The environment variables of the Cloudflare failover, and that of the SSH port. *)
Record DaemonVars := {
  dv_cf_enabled : option string; dv_cf_token : option string; dv_cf_zone : option string; dv_cf_record : option string;
  dv_ssh_port : option string; dv_telegram : bool;
}.

Definition failover_of (v : DaemonVars) : option CloudflareFailover :=
  match dv_cf_enabled v with
  | None => None
  | Some _ =>
      let token := default "" (dv_cf_token v) in
      let zone := default "" (dv_cf_zone v) in
      let record := default "" (dv_cf_record v) in
      if String.eqb token "" || String.eqb zone "" || String.eqb record "" then None
      else Some (CloudflareFailover_new
             {| cf_enabled := true; cf_api_token := token; cf_zone_id := zone; cf_record_id := record;
                cf_activate_on := cf_activate_on CloudflareFailoverConfig_default;
                cf_min_proxy_duration_secs := cf_min_proxy_duration_secs CloudflareFailoverConfig_default |})
  end.

Section daemon.
Context `{Chrono} {Sys : Type} `{Commands Sys} (tool : Tool) (parse_json : string -> option Json).

(** [saved] and [history] are what the store loads; an error ends the start.
    [now] is the clock at every reading of the start. *)
Definition ShieldDaemon_new (bpf_path : string) (dry_run : bool) (v : DaemonVars) (saved : option SavedState) (history : option (list DdosIncident))
    (now : Z) (tr : list Command) : option (ShieldDaemon * list Command) :=
  saved ← saved; history ← history;
  let '(xdp, tr) := foldl (fun acc e => (add_to_blocklist tool acc.1 acc.2 (be_ip e) (be_reason e) now).1)
                      (with_dry_run (XdpManager_new bpf_path) dry_run, tr) (sv_blocked_ips saved) in
  Some ({| da_rate_limiter := IpRateLimiter_new RateLimiterConfig_default; da_syn_detector := SynFloodDetector_new SynFloodConfig_default;
           da_escalation := restore (EscalationEngine_new now EscalationConfig_default) (sv_escalation_state saved)
                              (default now (parse_utc (sv_entered_at saved))) history;
           da_classifier := AttackClassifier_new; da_fingerprinter := TcpFingerprinter_new; da_xdp := xdp; da_ingestor := EventIngestor_new;
           da_api_state := AppState_new now; da_cloudflare_failover := failover_of v; da_origin_lockdown := OriginLockdown_new (dv_ssh_port v);
           da_telegram := dv_telegram v; da_default_rl_config := RateLimiterConfig_default; da_boot_time := now |}, tr).

(** The readings and answers of one tick: the time at its start, that for events
    without one, when the n-th entry of the blocklist was added, the two readings
    for the metrics, Cloudflare and its two readings, those of the incident, the
    host's name, and the files. *)
Record DaemonEnv := {
  de_now : Z; de_parse_now : Z; de_added_at : nat -> Z; de_dur : Z; de_ts : Z; de_send : Request -> Reply; de_check : Z; de_mark : Z;
  de_inc_ts : Z; de_id_ts : Z; de_hostname : option string; de_dir : list LogFile;
}.

(** What the events of a tick go through. *)
Record Feed := { fd_rl : IpRateLimiter; fd_syn : SynFloodDetector; fd_fp : TcpFingerprinter; fd_xdp : XdpManager; fd_commands : list Command; fd_blocks : Z }.

Definition feed_event (i : nat) (env : DaemonEnv) (st : Feed) (event : NetworkEvent) : option Feed :=
  '(rl, d) ← process_packet (fd_rl st) (ne_ip event) (ne_bytes event) (ne_timestamp event);
  let '(xdp, tr, blocks) :=
    match d with
    | Drop =>
        let '(xdp, tr, _) := add_to_blocklist tool (fd_xdp st) (fd_commands st) (ne_ip event) ("rate_limit:" +:+ ne_kind event) (de_added_at env i) in
        (xdp, tr, wrapping_add 64 (fd_blocks st) 1)
    | _ => (fd_xdp st, fd_commands st, fd_blocks st)
    end in
  let syn := if ne_is_syn event then record_syn (fd_syn st) (ne_ip event) (ne_timestamp event) else fd_syn st in
  let syn := if ne_is_syn_ack event then record_ack syn (ne_ip event) (ne_timestamp event) else syn in
  Some {| fd_rl := rl; fd_syn := syn; fd_fp := record_connection (fd_fp st) (ne_ip event) 65535 64 (ne_timestamp event); fd_xdp := xdp;
          fd_commands := tr; fd_blocks := blocks |}.

Fixpoint feed_events (i : nat) (env : DaemonEnv) (events : list NetworkEvent) (st : Feed) : option Feed :=
  match events with [] => Some st | e :: events => st ← feed_event i env st e; feed_events (S i) env events st end.

(** The flagged addresses go to the driver; [i] counts the entries. *)
Fixpoint block_flagged (i : nat) (env : DaemonEnv) (ips : list string) (m : XdpManager) (tr : list Command) : XdpManager * list Command :=
  match ips with
  | [] => (m, tr)
  | ip :: ips => let '(m, tr, _) := add_to_blocklist tool m tr ip "syn_flood" (de_added_at env i) in block_flagged (S i) env ips m tr
  end.

(** The signals of a tick; all others are those of [Default]. *)
Definition tick_signals (now : Z) (syn_active : bool) (flagged : list string) (total : Z) : ClassifierSignals := {|
  cl_syn_flood_active := syn_active; cl_syn_flood_ips := flagged; cl_udp_high_rate := false; cl_udp_source_count := 0;
  cl_dns_response_count := 0; cl_dns_source_count := 0; cl_http_request_count := 0; cl_http_source_count := 0;
  cl_long_held_connections := 0; cl_long_held_source_count := 0; cl_ntp_response_count := 0; cl_ntp_source_count := 0;
  cl_total_dropped := total; cl_peak_pps := total; cl_timestamp := now |}.

(** The message to Telegram. *)
Record Notice := { nt_from : string; nt_to : string; nt_drops : Z; nt_attackers : Z; nt_cf_active : bool }.

Definition severity_of_name (to : string) : string :=
  if String.eqb to "Critical" then "critical" else if String.eqb to "Under Attack" then "high" else if String.eqb to "Elevated" then "medium" else "low".

Definition shield_incident (env : DaemonEnv) (from to : string) (drops attackers : Z) : Json :=
  JObj [("ts", JStr (to_rfc3339 (de_inc_ts env)));
        ("host", JStr (trim (default "unknown" (de_hostname env))));
        ("incident_id", JStr ("shield:escalation:" +:+ replace_char (ascii_of_nat 32) "_" (to_ascii_lowercase to) +:+ ":" +:+ fmt_minute (de_id_ts env)));
        ("severity", JStr (severity_of_name to));
        ("title", JStr ("Shield escalated: " +:+ from +:+ " → " +:+ to));
        ("summary", JStr ("DDoS protection level changed from " +:+ from +:+ " to " +:+ to +:+ ". Drops/sec: " +:+ show drops +:+
                          ", active attackers: " +:+ show attackers +:+ "."));
        ("evidence", JArr [JObj [("drops_per_sec", JInt drops); ("attackers", JInt attackers); ("from", JStr from); ("to", JStr to)]]);
        ("recommended_checks", JArr [JStr "Check innerwarden-shield logs"; JStr "Review blocked IPs"]);
        ("tags", JArr [JStr "shield"; JStr "ddos"; JStr "escalation"]);
        ("entities", JArr [])].

(** The nanoseconds between two calls of a process that the kernel allows. *)
Definition kernel_rate (to : EscalationState) : Z :=
  match to with Normal => 100000000 | Elevated => 50000000 | UnderAttack => 20000000 | Critical => 10000000 end.

Definition rate_command (bpf_path : string) (to : EscalationState) : Command :=
  {| cm_program := "bpftool";
     cm_args := ["map"; "update"; "pinned"; bpf_path +:+ "/PID_RATE_LIMIT_CONFIG"; "key"; "0x00"; "0x00"; "0x00"; "0x00"; "value"]
                ++ ((fun k => hex_byte (Z.land (Z.shiftr (kernel_rate to) (8 * Z.of_nat k)) 255)) <$> seq 0 8) |}.

(** The decision of the engine and what follows at once: the limits, the message
    and the incident, or, while the daemon warms up, back to [Normal]. *)
Record TickDecision := { dc_rl : IpRateLimiter; dc_escalation : EscalationEngine; dc_notices : list Notice; dc_incidents : list Json }.

Definition decide_tick (env : DaemonEnv) (d : ShieldDaemon) (rl : IpRateLimiter) (metrics : DdosMetrics) (dropped_per_sec attackers : Z) : TickDecision :=
  let in_warmup := num_seconds (de_now env - da_boot_time d) <? 10 in
  let '(e, transition) := update (da_escalation d) metrics in
  match transition with
  | None => {| dc_rl := rl; dc_escalation := e; dc_notices := []; dc_incidents := [] |}
  | Some t =>
      if in_warmup then {| dc_rl := rl; dc_escalation := restore e Normal (de_now env) (ee_incidents e); dc_notices := []; dc_incidents := [] |}
      else
        let from := EscalationState_display (st_from t) in
        let to := EscalationState_display (st_to t) in
        {| dc_rl := reset_config rl (scaled_config (da_default_rl_config d) (rate_limit_factor (st_to t)));
           dc_escalation := e;
           dc_notices := if da_telegram d then [{| nt_from := from; nt_to := to; nt_drops := dropped_per_sec; nt_attackers := attackers;
                           nt_cf_active := match da_cloudflare_failover d with Some f => ShieldFailover.is_active f | None => false end |}] else [];
           dc_incidents := [shield_incident env from to dropped_per_sec attackers] |}
  end.

(** What the API shows after the tick. *)
Definition api_after (env : DaemonEnv) (a : AppState) (metrics : DdosMetrics) (rl : IpRateLimiter) (c : AttackClassifier) (e : EscalationEngine)
    (dropped_per_sec : Z) : AppState :=
  let h := as_metrics_history a ++
    [{| ms_timestamp := to_rfc3339 (de_now env); ms_packets_per_sec := dropped_per_sec; ms_drops_per_sec := dropped_per_sec;
        ms_escalation_level := EscalationState_display (ee_state e);
        ms_attack_types := (fun x => attack_display (ai_attack_type x)) <$> active_attacks c |}] in
  {| as_metrics := Some metrics;
     as_blocked_ips := (fun b => {| ap_ip := bl_ip b; ap_reason := bl_reason b; ap_blocked_since := to_rfc3339 (bl_blocked_at b);
                                    ap_duration_secs := num_seconds (de_now env - bl_blocked_at b); ap_packets_dropped := bl_total_packets b |})
                         <$> get_blocked_ips rl;
     as_incidents := ee_incidents e; as_attack_incidents := all_attacks c;
     as_metrics_history := if Nat.ltb 1000 (length h) then drop (length h - 1000) h else h;
     as_started_at := as_started_at a |}.

Record DaemonWorld := { dw_daemon : ShieldDaemon; dw_commands : list Command; dw_sys : Sys }.

(** The tick after the events were fed. *)
Definition finish (env : DaemonEnv) (w : DaemonWorld) (ingestor : EventIngestor) (events : list NetworkEvent) (st : Feed)
  : DaemonWorld * list Notice * list Json :=
  let d := dw_daemon w in
  let syn_flagged := get_flagged_ips (fd_syn st) in
  let '(xdp, tr) := block_flagged (length events) env syn_flagged (fd_xdp st) (fd_commands st) in
  let syn_active := negb (bool_decide (syn_flagged = [])) || match check_global (fd_syn st) with SynNormal => false | _ => true end in
  let rl_metrics := get_metrics (fd_rl st) in
  let classifier := ShieldClassifier.classify (da_classifier d) (tick_signals (de_now env) syn_active syn_flagged (mt_total_dropped rl_metrics)) in
  let dropped_per_sec := if Nat.ltb 0 (length events) then fd_blocks st / 2 else 0 in
  let metrics := build_metrics (da_escalation d) (de_dur env) (de_ts env) dropped_per_sec (mt_blocked_ips rl_metrics) syn_active false false
                   (mt_total_dropped rl_metrics) (mt_total_allowed rl_metrics) (mt_total_dropped rl_metrics) in
  let dc := decide_tick env d (fd_rl st) metrics dropped_per_sec (mt_blocked_ips rl_metrics) in
  let e := dc_escalation dc in
  let cf := (fun f => (ShieldFailover.check_and_toggle f (de_send env) (de_check env) (de_mark env) (ee_state e)).1) <$> da_cloudflare_failover d in
  let '(ld, sys) := ld_check_and_toggle (da_origin_lockdown d) (ee_state e) (dw_sys w) in
  let tr := match last_transition e with Some t => tr ++ [rate_command (xm_bpf_path xdp) (st_to t)] | None => tr end in
  let '(xdp, tr) := if bool_decide (ee_state e = Normal) then cleanup_blocklist tool xdp tr (seconds 300) (de_now env) else (xdp, tr) in
  let rl := ShieldRateLimiter.cleanup_stale (dc_rl dc) (seconds 300) (de_now env) in
  ({| dw_daemon := {|
        da_rate_limiter := rl; da_syn_detector := expire_all (fd_syn st) (de_now env); da_escalation := e; da_classifier := classifier;
        da_fingerprinter := ShieldFingerprint.cleanup_stale (fd_fp st) (seconds 600) (de_now env); da_xdp := xdp; da_ingestor := ingestor;
        da_api_state := api_after env (da_api_state d) metrics rl classifier e dropped_per_sec; da_cloudflare_failover := cf;
        da_origin_lockdown := ld; da_telegram := da_telegram d; da_default_rl_config := da_default_rl_config d; da_boot_time := da_boot_time d |};
      dw_commands := tr; dw_sys := sys |}, dc_notices dc, dc_incidents dc).

(** [None] is a panic of the limiter. *)
Definition run_tick (env : DaemonEnv) (w : DaemonWorld) : option (DaemonWorld * list Notice * list Json) :=
  let d := dw_daemon w in
  let '(ingestor, events) := poll parse_json (de_parse_now env) (da_ingestor d) (de_dir env) in
  st ← feed_events 0 env events
         {| fd_rl := da_rate_limiter d; fd_syn := da_syn_detector d; fd_fp := da_fingerprinter d; fd_xdp := da_xdp d; fd_commands := dw_commands w;
            fd_blocks := 0 |};
  Some (finish env w ingestor events st).

(** What is saved every fifteenth tick and at the end, when the lockdown is lifted. *)
Definition save_state (now : Z) (d : ShieldDaemon) : Saved :=
  {| sd_state := {| sv_escalation_state := ee_state (da_escalation d); sv_entered_at := to_rfc3339 (ee_state_entered_at (da_escalation d));
                    sv_blocked_ips := xm_blocklist (da_xdp d); sv_last_saved := to_rfc3339 now |};
     sd_history := ee_incidents (da_escalation d) |}.

Definition shutdown (now : Z) (w : DaemonWorld) : OriginLockdown * Sys * Saved :=
  let '(_, ld, sys) := deactivate (da_origin_lockdown (dw_daemon w)) (dw_sys w) in (ld, sys, save_state now (dw_daemon w)).

Fixpoint run_ticks (envs : list DaemonEnv) (w : DaemonWorld) : option DaemonWorld :=
  match envs with [] => Some w | env :: envs => '(w, _, _) ← run_tick env w; run_ticks envs w end.
End daemon.

(** ** The tick never panics *)

Record daemon_ok (d : ShieldDaemon) : Prop := {
  do_limiter : limiter_ok (da_rate_limiter d);
  do_default : sub_ok (rl_sub_window_count (da_default_rl_config d));
  do_fingerprints : tracker_ok (da_fingerprinter d);
  do_history : (length (as_metrics_history (da_api_state d)) <= 1000)%nat;
}.

Section ticks.
Context `{Chrono} {Sys : Type} `{Commands Sys} (tool : Tool) (parse_json : string -> option Json).

Lemma feed_event_ok i env st e :
  limiter_ok (fd_rl st) -> tracker_ok (fd_fp st) ->
  exists st', feed_event tool i env st e = Some st' /\ limiter_ok (fd_rl st') /\ tracker_ok (fd_fp st').
Proof.
  intros Hl Hf. unfold feed_event.
  destruct (process_packet_ok (fd_rl st) (ne_ip e) (ne_bytes e) (ne_timestamp e) Hl) as (rl & d & -> & Hrl & _). simpl.
  destruct d; [| destruct (add_to_blocklist _ _ _ _ _ _) as [[? ?] ?] |];
    (eexists; split; [reflexivity|]; split; [exact Hrl|by apply record_tracker_ok]).
Qed.

Lemma feed_events_ok env events : forall i st,
  limiter_ok (fd_rl st) -> tracker_ok (fd_fp st) ->
  exists st', feed_events tool i env events st = Some st' /\ limiter_ok (fd_rl st') /\ tracker_ok (fd_fp st').
Proof.
  induction events as [|e events IH]; intros i st Hl Hf; [by exists st|]. simpl.
  destruct (feed_event_ok i env st e Hl Hf) as (st1 & -> & H1 & H2). simpl. by apply IH.
Qed.

Lemma decide_limiter_ok env d rl m n a :
  limiter_ok rl -> sub_ok (rl_sub_window_count (da_default_rl_config d)) -> limiter_ok (dc_rl (decide_tick env d rl m n a)).
Proof.
  intros Hl Hs. unfold decide_tick. destruct (update _ _) as [e [t|]]; [|done]. destruct (_ <? 10); [done|]. simpl. by apply reset_limiter_ok.
Qed.

Lemma api_history_bounded env a m rl c e n :
  (length (as_metrics_history a) <= 1000)%nat -> (length (as_metrics_history (api_after env a m rl c e n)) <= 1000)%nat.
Proof.
  intros Ha. unfold api_after. cbn [as_metrics_history]. match goal with |- context [Nat.ltb 1000 (length ?h)] => set (x := h) end.
  destruct (Nat.ltb_spec 1000 (length x)) as [Hx|Hx]; [rewrite length_drop; lia|exact Hx].
Qed.

(** A tick never panics, whatever the files and the answers, and keeps the limiter,
    its configuration, the fingerprints and the history of the API in order. *)
Theorem daemon_never_panics env w :
  daemon_ok (dw_daemon w) ->
  exists w' notices incidents, run_tick tool parse_json env w = Some (w', notices, incidents) /\ daemon_ok (dw_daemon w').
Proof.
  intros [Hl Hd Hf Hh]. unfold run_tick. destruct (poll _ _ _ _) as [ingestor events].
  destruct (feed_events_ok env events 0
    {| fd_rl := da_rate_limiter (dw_daemon w); fd_syn := da_syn_detector (dw_daemon w); fd_fp := da_fingerprinter (dw_daemon w);
       fd_xdp := da_xdp (dw_daemon w); fd_commands := dw_commands w; fd_blocks := 0 |} Hl Hf) as (st & -> & H1 & H2). simpl.
  unfold finish. destruct (block_flagged _ _ _ _ _ _) as [xdp tr]. destruct (ld_check_and_toggle _ _ _) as [ld sys].
  match goal with |- context [if bool_decide ?P then ?a else ?b] => destruct (if bool_decide P then a else b) as [xdp' tr'] end.
  do 3 eexists. split; [reflexivity|]. split; cbn [dw_daemon da_rate_limiter da_default_rl_config da_fingerprinter da_api_state].
  - apply cleanup_stale_limiter_ok. by apply decide_limiter_ok.
  - exact Hd.
  - by apply cleanup_tracker_ok.
  - by apply api_history_bounded.
Qed.

(** ** The lockdown *)

(** What a toggle leaves. *)
Lemma toggle_result l state (s : Sys) :
  (state_requires_lockdown state = false -> ld_active (ld_check_and_toggle l state s).1 = false) /\
  ((forall cmd a (s : Sys), (exec cmd a s).1 = true) -> ld_active (ld_check_and_toggle l state s).1 = state_requires_lockdown state).
Proof.
  unfold ld_check_and_toggle. destruct (state_requires_lockdown state) eqn:E, (ld_active l) eqn:Ea; simpl; try (split; [done|intros _; done]).
  - split; [done|]. intros Hok. unfold activate. rewrite Ea.
    assert (Hrun : forall c (s : Sys), (run_each c s).1 = true).
    { induction c as [|x c IH]; intros s1; [done|]. simpl. pose proof (Hok "iptables" x s1) as Hx. unfold iptables.
      destruct (exec "iptables" x s1) as [ok s2]. simpl in Hx. subst ok. apply IH. }
    pose proof (Hrun (activation_iptables_args (locked_ports l) (exempt_ports l)) s) as Hr.
    destruct (run_each _ s) as [ok s1]. simpl in Hr. subst ok. simpl.
    destruct (iptables input_chain_delete_args s1) as [ok2 s2].
    pose proof (Hok "iptables" input_chain_insert_args s2) as Hi. unfold iptables. destruct (exec "iptables" _ s2) as [ok3 s3]. simpl in Hi. by subst ok3.
  - unfold deactivate. rewrite Ea. simpl. done.
Qed.

Lemma finish_lockdown env w ingestor events st :
  let d := dw_daemon (finish tool env w ingestor events st).1.1 in
  (state_requires_lockdown (ee_state (da_escalation d)) = false -> ld_active (da_origin_lockdown d) = false) /\
  ((forall cmd a (s : Sys), (exec cmd a s).1 = true) -> ld_active (da_origin_lockdown d) = state_requires_lockdown (ee_state (da_escalation d))).
Proof.
  unfold finish. destruct (block_flagged _ _ _ _ _ _) as [xdp tr].
  match goal with |- context [ld_check_and_toggle ?l ?st ?s] => pose proof (toggle_result l st s) as Ht; destruct (ld_check_and_toggle l st s) as [ld sys] end.
  match goal with |- context [if bool_decide ?P then ?a else ?b] => destruct (if bool_decide P then a else b) as [xdp' tr'] end. exact Ht.
Qed.

(** After every tick the lockdown is off when the state of the engine is calm, and on
    exactly when the state requires it if no command of the firewall fails. *)
Theorem lockdown_follows_state env w w' notices incidents :
  run_tick tool parse_json env w = Some (w', notices, incidents) ->
  let d := dw_daemon w' in
  (state_requires_lockdown (ee_state (da_escalation d)) = false -> ld_active (da_origin_lockdown d) = false) /\
  ((forall cmd a (s : Sys), (exec cmd a s).1 = true) -> ld_active (da_origin_lockdown d) = state_requires_lockdown (ee_state (da_escalation d))).
Proof.
  unfold run_tick. destruct (poll _ _ _ _) as [ingestor events]. destruct (feed_events _ _ _ _ _) as [st|]; [|done]. simpl.
  intros E. injection E as E. pose proof (finish_lockdown env w ingestor events st) as Hf. rewrite E in Hf. exact Hf.
Qed.

(** ** A dry run, and the daemon while it warms up *)

Lemma add_dry m tr ip reason now :
  xm_dry_run m = true -> (add_to_blocklist tool m tr ip reason now).1.2 = tr /\ xm_dry_run (add_to_blocklist tool m tr ip reason now).1.1 = true
  /\ xm_bpf_path (add_to_blocklist tool m tr ip reason now).1.1 = xm_bpf_path m.
Proof. intros Hd. unfold add_to_blocklist. destruct (any _ _); [done|]. by rewrite Hd. Qed.

Lemma flagged_dry env ips : forall i m tr,
  xm_dry_run m = true -> (block_flagged tool i env ips m tr).2 = tr /\ xm_dry_run (block_flagged tool i env ips m tr).1 = true
  /\ xm_bpf_path (block_flagged tool i env ips m tr).1 = xm_bpf_path m.
Proof.
  induction ips as [|ip ips IH]; intros i m tr Hd; [done|]. simpl. destruct (add_dry m tr ip "syn_flood" (de_added_at env i) Hd) as (A & B & C).
  destruct (add_to_blocklist _ _ _ _ _ _) as [[m1 tr1] r]. simpl in *. subst tr1. destruct (IH (S i) m1 tr B) as (D & E & F). by rewrite F, C in *.
Qed.

Lemma remove_dry m tr ip :
  xm_dry_run m = true -> (remove_from_blocklist tool m tr ip).1.2 = tr /\ xm_dry_run (remove_from_blocklist tool m tr ip).1.1 = true.
Proof. intros Hd. unfold remove_from_blocklist. destruct (negb _); [done|]. by rewrite Hd. Qed.

Lemma cleanup_dry m tr a n :
  xm_dry_run m = true -> (cleanup_blocklist tool m tr a n).2 = tr /\ xm_dry_run (cleanup_blocklist tool m tr a n).1 = true.
Proof.
  unfold cleanup_blocklist. generalize (be_ip <$> retain (fun e => be_added_at e <? n - age_limit a) (xm_blocklist m)) as ips. intros ips. revert m.
  induction ips as [|ip ips IH]; intros m Hd; [done|]. simpl. destruct (remove_dry m tr ip Hd) as [A B].
  destruct (remove_from_blocklist _ _ _ _) as [[m1 tr1] r]. simpl in *. subst tr1. by apply IH.
Qed.

Lemma feed_dry env events : forall i st st',
  xm_dry_run (fd_xdp st) = true -> feed_events tool i env events st = Some st' ->
  fd_commands st' = fd_commands st /\ xm_dry_run (fd_xdp st') = true /\ xm_bpf_path (fd_xdp st') = xm_bpf_path (fd_xdp st)
  /\ rl_config (fd_rl st') = rl_config (fd_rl st).
Proof.
  induction events as [|e events IH]; intros i st st' Hd E; simpl in E; [by simplify_eq|].
  destruct (feed_event tool i env st e) as [st1|] eqn:E1; [|done]. simpl in E.
  assert (H1 : fd_commands st1 = fd_commands st /\ xm_dry_run (fd_xdp st1) = true /\ xm_bpf_path (fd_xdp st1) = xm_bpf_path (fd_xdp st)
               /\ rl_config (fd_rl st1) = rl_config (fd_rl st)).
  { unfold feed_event in E1. destruct (process_packet _ _ _ _) as [[rl d]|] eqn:Ep; [|done]. apply process_packet_config in Ep. simpl in E1.
    pose proof (add_dry (fd_xdp st) (fd_commands st) (ne_ip e) ("rate_limit:" +:+ ne_kind e) (de_added_at env i) Hd) as (A & B & C).
    destruct d; [injection E1 as <-; done| |injection E1 as <-; done].
    destruct (add_to_blocklist _ _ _ _ _ _) as [[m tr] r]. injection E1 as <-. simpl in *. by subst tr. }
  destruct H1 as (A & B & C & D), (IH (S i) st1 st' B E) as (A' & B' & C' & D'). split_and!; congruence.
Qed.

(** One tick of a dry run. *)
Lemma dry_tick env w w' notices incidents :
  xm_dry_run (da_xdp (dw_daemon w)) = true -> run_tick tool parse_json env w = Some (w', notices, incidents) ->
  let d := dw_daemon w in
  exists metrics rl drops attackers,
    rl_config rl = rl_config (da_rate_limiter d) /\
    da_escalation (dw_daemon w') = dc_escalation (decide_tick env d rl metrics drops attackers) /\
    rl_config (da_rate_limiter (dw_daemon w')) = rl_config (dc_rl (decide_tick env d rl metrics drops attackers)) /\
    dw_commands w' = dw_commands w ++ match last_transition (da_escalation (dw_daemon w')) with
                                      | Some t => [rate_command (xm_bpf_path (da_xdp d)) (st_to t)] | None => [] end.
Proof.
  intros Hd. unfold run_tick. destruct (poll _ _ _ _) as [ingestor events].
  match goal with |- context [feed_events tool 0 env events ?x] => destruct (feed_events tool 0 env events x) as [st|] eqn:E end; [|done]. simpl.
  apply feed_dry in E as (Hc & Hx & Hp & Hr); [|exact Hd]. simpl in Hc, Hp, Hr. unfold finish.
  pose proof (flagged_dry env (get_flagged_ips (fd_syn st)) (length events) (fd_xdp st) (fd_commands st) Hx) as (A & B & C).
  destruct (block_flagged _ _ _ _ _ _) as [xdp tr]. simpl in A, B, C. subst tr.
  destruct (ld_check_and_toggle _ _ _) as [ld sys].
  match goal with |- context [decide_tick env ?d ?rl ?m ?n ?a] => intros E; exists m, rl, n, a; set (dc := decide_tick env d rl m n a) in * end.
  split; [exact Hr|]. rewrite Hc, C, Hp in E.
  match type of E with context [cleanup_blocklist tool xdp ?tr ?a ?n] => pose proof (cleanup_dry xdp tr a n B) as [F _]; set (cl := cleanup_blocklist tool xdp tr a n) in * end.
  assert (Hcl : (if bool_decide (ee_state (dc_escalation dc) = Normal) then cl else (xdp, match last_transition (dc_escalation dc) with
       | Some t => dw_commands w ++ [rate_command (xm_bpf_path (da_xdp (dw_daemon w))) (st_to t)] | None => dw_commands w end)).2
     = match last_transition (dc_escalation dc) with
       | Some t => dw_commands w ++ [rate_command (xm_bpf_path (da_xdp (dw_daemon w))) (st_to t)] | None => dw_commands w end).
  { case_bool_decide; [exact F|done]. }
  destruct (if bool_decide _ then cl else _) as [xdp' tr']. simpl in Hcl. subst tr'. injection E as <- _ _.
  cbn [dw_daemon dw_commands da_escalation da_rate_limiter]. split_and!; [done|apply cleanup_config|].
  destruct (last_transition (dc_escalation dc)); [done|by rewrite app_nil_r].
Qed.

(** A dry run runs bpftool in every tick once there was a transition, to set the
    rate limit of the kernel, and otherwise no command. *)
Theorem dry_run_sets_kernel_rate env w w' notices incidents :
  xm_dry_run (da_xdp (dw_daemon w)) = true -> run_tick tool parse_json env w = Some (w', notices, incidents) ->
  dw_commands w' = dw_commands w ++ match last_transition (da_escalation (dw_daemon w')) with
                                    | Some t => [rate_command (xm_bpf_path (da_xdp (dw_daemon w))) (st_to t)] | None => [] end.
Proof. intros Hd E. by destruct (dry_tick _ _ _ _ _ Hd E) as (m & rl & n & a & _ & _ & _ & Hc). Qed.

(** A transition in the first ten seconds is undone: the state is [Normal] after the
    tick and the limits are as before; but it stays in the engine's log, so the
    rate limit of the kernel is set to that of the state that was refused. *)
Theorem warmup_transition_undone env w w' notices incidents :
  xm_dry_run (da_xdp (dw_daemon w)) = true -> num_seconds (de_now env - da_boot_time (dw_daemon w)) < 10 ->
  run_tick tool parse_json env w = Some (w', notices, incidents) ->
  let e := da_escalation (dw_daemon w) in
  let e' := da_escalation (dw_daemon w') in
  rl_config (da_rate_limiter (dw_daemon w')) = rl_config (da_rate_limiter (dw_daemon w)) /\
  ((ee_state e' = ee_state e /\ ee_transitions e' = ee_transitions e) \/
   (exists t, ee_state e' = Normal /\ ee_transitions e' = ee_transitions e ++ [t] /\
      last (dw_commands w') = Some (rate_command (xm_bpf_path (da_xdp (dw_daemon w))) (st_to t)))).
Proof.
  intros Hd Hw E. destruct (dry_tick _ _ _ _ _ Hd E) as (m & rl & n & a & Hr & He & Hl & Hc).
  unfold decide_tick in He, Hl. pose proof (update_state (da_escalation (dw_daemon w)) m) as Hu.
  destruct (update (da_escalation (dw_daemon w)) m) as [e1 [t|]]; simpl in Hu.
  - rewrite (proj2 (Z.ltb_lt _ _)) in He, Hl by exact Hw. simpl in He, Hl. split; [congruence|]. right. exists t. rewrite He, Hc, He. simpl.
    split_and!; [done|apply Hu|]. unfold last_transition. simpl. destruct Hu as [_ ->]. rewrite last_snoc. apply last_snoc.
  - simpl in He, Hl. split; [congruence|]. left. by rewrite He.
Qed.
End ticks.

(** ** Demonstrations *)

#[local] Instance daemon_chrono : Chrono := { parse_utc := fun _ => None; to_rfc3339 := show; fmt_minute := show }.
#[local] Existing Instance demo_commands.

Definition no_vars : DaemonVars :=
  {| dv_cf_enabled := None; dv_cf_token := None; dv_cf_zone := None; dv_cf_record := None; dv_ssh_port := None; dv_telegram := false |}.
Definition calm_save : SavedState := {| sv_escalation_state := Normal; sv_entered_at := ""; sv_blocked_ips := []; sv_last_saved := "" |}.

(** A host whose lockdown is ready, and a daemon that starts dry at time zero. *)
Definition demo_daemon : DaemonWorld :=
  match ShieldDaemon_new no_tool "/sys/fs/bpf" true no_vars (Some calm_save) (Some []) 0 [] with
  | Some (d, tr) => {| dw_daemon := d; dw_commands := tr; dw_sys := demo_ready |}
  | None => {| dw_daemon := {|
      da_rate_limiter := IpRateLimiter_new RateLimiterConfig_default; da_syn_detector := SynFloodDetector_new SynFloodConfig_default;
      da_escalation := EscalationEngine_new 0 EscalationConfig_default; da_classifier := AttackClassifier_new; da_fingerprinter := TcpFingerprinter_new;
      da_xdp := XdpManager_new ""; da_ingestor := EventIngestor_new; da_api_state := AppState_new 0; da_cloudflare_failover := None;
      da_origin_lockdown := OriginLockdown_new None; da_telegram := false; da_default_rl_config := RateLimiterConfig_default; da_boot_time := 0 |};
      dw_commands := []; dw_sys := demo_ready |}
  end.

(** A tick that finds four hundred lines about one address. *)
Definition flood_env (now : Z) : DaemonEnv :=
  {| de_now := now; de_parse_now := now; de_added_at := fun _ => now; de_dur := now; de_ts := now; de_send := fun _ => SendFailed; de_check := now;
     de_mark := now; de_inc_ts := now; de_id_ts := now; de_hostname := None;
     de_dir := [whole "events-1.jsonl" (repeat "192.0.2.1" 400)] |}.

Definition flooded_daemon (now : Z) : DaemonWorld :=
  match run_tick no_tool demo_parse (flood_env now) demo_daemon with Some (w, _, _) => w | None => demo_daemon end.
Definition flood_incidents (now : Z) : list Json :=
  match run_tick no_tool demo_parse (flood_env now) demo_daemon with Some (_, _, i) => i | None => [] end.

Lemma flood_late : run_tick no_tool demo_parse (flood_env (seconds 60)) demo_daemon = Some (flooded_daemon (seconds 60), [], flood_incidents (seconds 60)).
Proof. vm_compute. reflexivity. Qed.

Lemma flood_early : run_tick no_tool demo_parse (flood_env (seconds 5)) demo_daemon = Some (flooded_daemon (seconds 5), [], flood_incidents (seconds 5)).
Proof. vm_compute. reflexivity. Qed.

Lemma demo_daemon_ok : daemon_ok (dw_daemon demo_daemon).
Proof.
  split; [|vm_compute; congruence|apply map_Forall_empty|simpl; lia].
  split; [vm_compute; congruence|by intros ? ? ?|by intros ? ? ?|intros d; destruct d; split; simpl; lia].
Qed.

Lemma daemon_never_panics_witness :
  exists w' notices incidents,
    run_tick no_tool demo_parse (flood_env (seconds 60)) demo_daemon = Some (w', notices, incidents) /\ daemon_ok (dw_daemon w').
Proof. apply daemon_never_panics, demo_daemon_ok. Defined.

Lemma flood_late_state :
  ee_state (da_escalation (dw_daemon (flooded_daemon (seconds 60)))) = Critical /\
  ld_active (da_origin_lockdown (dw_daemon (flooded_daemon (seconds 60)))) = true.
Proof. vm_compute. done. Qed.

Lemma lockdown_follows_state_witness :
  state_requires_lockdown (ee_state (da_escalation (dw_daemon (flooded_daemon (seconds 5))))) = false /\
  ld_active (da_origin_lockdown (dw_daemon (flooded_daemon (seconds 5)))) = false.
Proof.
  assert (Hs : state_requires_lockdown (ee_state (da_escalation (dw_daemon (flooded_daemon (seconds 5))))) = false) by (vm_compute; reflexivity).
  split; [exact Hs|].
  exact (proj1 (lockdown_follows_state no_tool demo_parse (flood_env (seconds 5)) demo_daemon _ _ _ flood_early) Hs).
Defined.

Lemma dry_run_sets_kernel_rate_witness :
  dw_commands (flooded_daemon (seconds 60)) = [] ++ [rate_command "/sys/fs/bpf" Critical].
Proof.
  pose proof (dry_run_sets_kernel_rate no_tool demo_parse (flood_env (seconds 60)) demo_daemon _ _ _ eq_refl flood_late) as E.
  etrans; [exact E|]. vm_compute. reflexivity.
Defined.

Lemma flood_early_state :
  last (dw_commands (flooded_daemon (seconds 5))) = Some (rate_command "/sys/fs/bpf" Critical) /\
  ee_state (da_escalation (dw_daemon (flooded_daemon (seconds 5)))) = Normal.
Proof. vm_compute. done. Qed.

Lemma warmup_transition_undone_witness :
  rl_config (da_rate_limiter (dw_daemon (flooded_daemon (seconds 5)))) = rl_config (da_rate_limiter (dw_daemon demo_daemon)) /\
  last (dw_commands (flooded_daemon (seconds 5))) = Some (rate_command "/sys/fs/bpf" Critical) /\
  ee_state (da_escalation (dw_daemon (flooded_daemon (seconds 5)))) = Normal.
Proof.
  assert (Hw : num_seconds (de_now (flood_env (seconds 5)) - da_boot_time (dw_daemon demo_daemon)) < 10) by (vm_compute; reflexivity).
  destruct (warmup_transition_undone no_tool demo_parse (flood_env (seconds 5)) demo_daemon _ _ _ eq_refl Hw flood_early) as [Hr _].
  split; [exact Hr|exact flood_early_state].
Defined.
