(* ===== verification/AgentGraph.v ===== *)
(** * AgentGraph: the knowledge graph (crates/agent/src/knowledge_graph/graph.rs,
    types.rs)

    What the agent knows of processes, addresses, files and incidents is one
    graph: nodes found again by a key of their type, edges in one vector with
    lists of their positions at both ends, a position left behind ("tombstoned")
    when an end is removed, and a running estimate of the memory in use.  The
    counters of ingested events are left out, and a [HashMap] is iterated in any
    order.  The triggers that run on every new edge are in AgentGraphTriggers.v,
    the traversals in AgentGraphQueries.v.

    Proved here: from the empty graph every sequence of operations keeps the
    graph well formed, removing a node removes its edges and nothing else,
    compaction changes no edge that can be seen, the oldest nodes are evicted
    first, and when the edges alone are over the limit everything is evicted. *)

From Stdlib Require Import ZArith Lia Ascii String SpecFloat.
From stdpp Require Import prelude strings gmap list sorting.
From S2P Require Import Prelude Text Json Floats CoreTypes.

Local Open Scope string_scope.
Local Open Scope list_scope.
Local Open Scope Z_scope.

(** ** Nodes and edges *)

Inductive NodeType := TProcess | TIp | TFile | TUser | TDomain | TPort | TContainer | TDevice | TSystem | TIncident | TCampaign.

#[export] Instance node_type_eq_dec : EqDecision NodeType.
Proof. solve_decision. Defined.

Definition all_node_types : list NodeType := [TProcess; TIp; TFile; TUser; TDomain; TPort; TContainer; TDevice; TSystem; TIncident; TCampaign].
#[export] Instance node_type_countable : Countable NodeType.
Proof.
  apply (inj_countable' (fun t => match t with
    | TProcess => 0 | TIp => 1 | TFile => 2 | TUser => 3 | TDomain => 4 | TPort => 5 | TContainer => 6 | TDevice => 7 | TSystem => 8
    | TIncident => 9 | TCampaign => 10 end)%nat (fun n => nth n all_node_types TProcess)).
  by intros [].
Defined.

Record ProcessNode := {
  pn_pid : Z; pn_ppid : Z; pn_comm : string; pn_exe : option string; pn_uid : Z; pn_container_id : option string;
  pn_start_ts : Z; pn_exit_ts : option Z }.
Record IpNode := {
  ipn_addr : string; ipn_is_internal : bool; ipn_datasets : list string; ipn_risk_score : Z; ipn_is_tor : bool;
  ipn_first_seen : Z; ipn_last_seen : Z; ipn_attempted_usernames : list string }.
Record FileNode := {
  fn_path : string; fn_sha256 : option string; fn_size : option Z; fn_entropy : option spec_float; fn_is_sensitive : bool;
  fn_yara_matches : list string }.
Record DomainNode := { dn_name : string; dn_datasets : list string; dn_is_dga : option bool; dn_entropy : option spec_float }.
Record ContainerNode := {
  cn_container_id : string; cn_name : option string; cn_image : option string; cn_start_ts : option Z; cn_exit_ts : option Z;
  cn_oom_killed : bool }.
Record DeviceNode := { vn_vendor : string; vn_product : string; vn_serial : option string; vn_dev_class : option string }.
Record IncidentNode := {
  inn_incident_id : string; inn_detector : string; inn_severity : string; inn_title : string; inn_summary : string; inn_ts : Z;
  inn_mitre_ids : list string; inn_decision : option string; inn_confidence : option spec_float; inn_decision_reason : option string;
  inn_decision_target : option string; inn_auto_executed : bool; inn_is_allowlisted : bool; inn_false_positive : bool;
  inn_fp_reporter : option string; inn_fp_reported_at : option Z; inn_research_only : bool }.
Record CampaignNode := {
  can_campaign_id : string; can_dna_hash : option string; can_pattern_class : string; can_first_seen : Z; can_last_seen : Z;
  can_ip_count : Z }.

Inductive Node :=
| NProcess (p : ProcessNode)
| NIp (i : IpNode)
| NFile (f : FileNode)
| NUser (name : string) (uid : option Z)
| NDomain (d : DomainNode)
| NPort (number : Z) (protocol : string)
| NContainer (c : ContainerNode)
| NDevice (v : DeviceNode)
| NSystem (hostname : string) (sysctl_params : gmap string string)
| NIncident (i : IncidentNode)
| NCampaign (c : CampaignNode).

Definition node_type (n : Node) : NodeType :=
  match n with
  | NProcess _ => TProcess | NIp _ => TIp | NFile _ => TFile | NUser _ _ => TUser | NDomain _ => TDomain | NPort _ _ => TPort
  | NContainer _ => TContainer | NDevice _ => TDevice | NSystem _ _ => TSystem | NIncident _ => TIncident | NCampaign _ => TCampaign
  end.

(** [&container_id[..12.min(len)]] stops the program inside a character. *)
Definition label (n : Node) : option string :=
  match n with
  | NProcess p => Some (pn_comm p +:+ "(" +:+ show (pn_pid p) +:+ ")")
  | NIp i => Some (ipn_addr i)
  | NFile f => Some (fn_path f)
  | NUser name _ => Some name
  | NDomain d => Some (dn_name d)
  | NPort number protocol => Some (show number +:+ "/" +:+ protocol)
  | NContainer c =>
      let k := Nat.min 12 (String.length (cn_container_id c)) in
      if is_char_boundary (cn_container_id c) k then Some (default (substring 0 k (cn_container_id c)) (cn_name c)) else None
  | NDevice v => Some (vn_vendor v +:+ " " +:+ vn_product v)
  | NSystem hostname _ => Some hostname
  | NIncident i => Some (inn_incident_id i)
  | NCampaign c => Some (can_campaign_id c)
  end.

Inductive Relation :=
| SpawnedBy | PtraceAttached | Signaled | ConnectedTo | AcceptedFrom | ListensOn | Wrote | Read | Executed | Deleted | Renamed | Truncated
| Timestomped | Mounted | Resolved | RunAs | EscalatedTo | SudoAs | InContainer | CreatedMemfd | RedirectedFd | MprotectExec | LoggedInFrom
| ScannedPort | HttpRequestTo | HostedAt | DownloadedFrom | IntegrityChanged | InsertedOn | RemovedFrom | LoadedModule | LoadedBpf | WroteMsr
| CalledEfi | ChangedIoperm | ChangedIopl | EvalAcpi | TimingAnomaly | ChangedSysctl | SyscallTableModified | ExecBlocked | IoUringSubmit
| IoUringCreate | StartedOn | DiedOn | OomKilled | SnapshotConnectedTo | SnapshotListensOn | TriggeredBy | CorrelatedWith | EscalatedFrom
| MemberOf | BlockedBy.

#[export] Instance relation_eq_dec : EqDecision Relation.
Proof. solve_decision. Defined.

Record Edge := { ed_from : Z; ed_to : Z; ed_relation : Relation; ed_ts : Z; ed_properties : gmap string Json }.

Definition Edge_new (from to_ : Z) (relation : Relation) (ts : Z) : Edge :=
  {| ed_from := from; ed_to := to_; ed_relation := relation; ed_ts := ts; ed_properties := ∅ |}.
Definition with_prop (e : Edge) (key : string) (value : Json) : Edge :=
  {| ed_from := ed_from e; ed_to := ed_to e; ed_relation := ed_relation e; ed_ts := ed_ts e;
     ed_properties := <[key := value]> (ed_properties e) |}.
Definition is_snapshot (e : Edge) : bool :=
  match ed_relation e with SnapshotConnectedTo | SnapshotListensOn => true | _ => false end.

Definition estimate_node_size (n : Node) : Z :=
  match n with
  | NProcess _ => 250 | NIp _ => 200 | NFile _ => 200 | NUser _ _ => 100 | NDomain _ => 150 | NPort _ _ => 50
  | NContainer _ => 200 | NDevice _ => 150 | NSystem _ _ => 500 | NIncident _ => 300 | NCampaign _ => 200
  end.
Definition estimate_edge_size (e : Edge) : Z := 120 + Z.of_nat (size (ed_properties e)) * 40.

Definition is_internal_ip (addr : string) : bool :=
  any (fun p => starts_with p addr)
    ["10."; "172.16."; "172.17."; "172.18."; "172.19."; "172.2"; "172.30."; "172.31."; "192.168."]
  || String.eqb addr "127.0.0.1" || String.eqb addr "::1".

Definition is_sensitive_path (path : string) : bool :=
  any (fun s => contains s path)
    ["/etc/passwd"; "/etc/shadow"; "/etc/sudoers"; "/etc/ssh/"; "authorized_keys"; "/etc/cron"; "/etc/systemd/"; "/usr/lib/systemd/";
     "/var/spool/cron"; ".ssh/id_"; ".ssh/config"; ".bashrc"; ".bash_profile"; ".profile"].

Definition device_key (vendor product : string) (serial : option string) : string :=
  vendor +:+ ":" +:+ product +:+ ":" +:+ default "" serial.

(** ** The graph *)

(** A node is found again by its type and what names it in its type: a number, a
    text or both.  The ten maps of the source, one for each type, and its
    [system_node] are one map from these keys. *)
Definition NodeKey : Type := NodeType * (Z * string).

Definition KPid (pid : Z) : NodeKey := (TProcess, (pid, "")).
Definition KIp (addr : string) : NodeKey := (TIp, (0, addr)).
Definition KFile (path : string) : NodeKey := (TFile, (0, path)).
Definition KUser (name : string) : NodeKey := (TUser, (0, name)).
Definition KDomain (name : string) : NodeKey := (TDomain, (0, name)).
Definition KPort (number : Z) (protocol : string) : NodeKey := (TPort, (number, protocol)).
Definition KContainer (id : string) : NodeKey := (TContainer, (0, id)).
Definition KDevice (key : string) : NodeKey := (TDevice, (0, key)).
Definition KSystem : NodeKey := (TSystem, (0, "")).
Definition KIncident (incident_id : string) : NodeKey := (TIncident, (0, incident_id)).
Definition KCampaign (campaign_id : string) : NodeKey := (TCampaign, (0, campaign_id)).

Definition node_key (n : Node) : NodeKey :=
  match n with
  | NProcess p => KPid (pn_pid p)
  | NIp i => KIp (ipn_addr i)
  | NFile f => KFile (fn_path f)
  | NUser name _ => KUser name
  | NDomain d => KDomain (dn_name d)
  | NPort number protocol => KPort number protocol
  | NContainer c => KContainer (cn_container_id c)
  | NDevice v => KDevice (device_key (vn_vendor v) (vn_product v) (vn_serial v))
  | NSystem _ _ => KSystem
  | NIncident i => KIncident (inn_incident_id i)
  | NCampaign c => KCampaign (can_campaign_id c)
  end.

(** What is being ingested. *)
Record EventMeta := {
  current_source : option string; current_kind : option string; current_summary : option string; current_severity : option string }.

Record KnowledgeGraph := {
  kg_nodes : gmap Z Node;
  kg_edges : list Edge;
  kg_index : gmap NodeKey Z;
  kg_outgoing : gmap Z (list nat);
  kg_incoming : gmap Z (list nat);
  kg_last_edge_ts : gmap Z Z;
  kg_threat_intel : gset Z;
  kg_next_id : Z;
  kg_memory : Z;
  kg_tombstoned : Z;
  kg_max_memory : Z;
  kg_created_at : Z;
  kg_event : EventMeta;
  kg_trigger_incidents : list Incident;
  kg_trigger_host : string;
}.

Definition KnowledgeGraph_new (now : Z) : KnowledgeGraph :=
  {| kg_nodes := ∅; kg_edges := [];
     kg_index := ∅;
     kg_outgoing := ∅; kg_incoming := ∅; kg_last_edge_ts := ∅; kg_threat_intel := ∅; kg_next_id := 1; kg_memory := 0; kg_tombstoned := 0;
     kg_max_memory := 50 * 1024 * 1024; kg_created_at := now;
     kg_event := {| current_source := None; current_kind := None; current_summary := None; current_severity := None |};
     kg_trigger_incidents := []; kg_trigger_host := "" |}.

(** The graph with other nodes, and what goes with them. *)
Definition with_nodes (g : KnowledgeGraph) (nodes : gmap Z Node) (index : gmap NodeKey Z) (threat : gset Z) (next_id memory : Z) : KnowledgeGraph :=
  {| kg_nodes := nodes; kg_edges := kg_edges g; kg_index := index; kg_outgoing := kg_outgoing g; kg_incoming := kg_incoming g;
     kg_last_edge_ts := kg_last_edge_ts g; kg_threat_intel := threat; kg_next_id := next_id; kg_memory := memory;
     kg_tombstoned := kg_tombstoned g; kg_max_memory := kg_max_memory g; kg_created_at := kg_created_at g; kg_event := kg_event g;
     kg_trigger_incidents := kg_trigger_incidents g; kg_trigger_host := kg_trigger_host g |}.

(** The graph with other edges, and what goes with them. *)
Definition with_edges (g : KnowledgeGraph) (edges : list Edge) (outgoing incoming : gmap Z (list nat)) (last : gmap Z Z)
    (memory tombstoned : Z) : KnowledgeGraph :=
  {| kg_nodes := kg_nodes g; kg_edges := edges; kg_index := kg_index g; kg_outgoing := outgoing; kg_incoming := incoming;
     kg_last_edge_ts := last; kg_threat_intel := kg_threat_intel g; kg_next_id := kg_next_id g; kg_memory := memory;
     kg_tombstoned := tombstoned; kg_max_memory := kg_max_memory g; kg_created_at := kg_created_at g; kg_event := kg_event g;
     kg_trigger_incidents := kg_trigger_incidents g; kg_trigger_host := kg_trigger_host g |}.

Definition with_triggers (g : KnowledgeGraph) (incidents : list Incident) (host : string) : KnowledgeGraph :=
  {| kg_nodes := kg_nodes g; kg_edges := kg_edges g; kg_index := kg_index g; kg_outgoing := kg_outgoing g; kg_incoming := kg_incoming g;
     kg_last_edge_ts := kg_last_edge_ts g; kg_threat_intel := kg_threat_intel g; kg_next_id := kg_next_id g; kg_memory := kg_memory g;
     kg_tombstoned := kg_tombstoned g; kg_max_memory := kg_max_memory g; kg_created_at := kg_created_at g; kg_event := kg_event g;
     kg_trigger_incidents := incidents; kg_trigger_host := host |}.

Definition set_trigger_host (g : KnowledgeGraph) (host : string) : KnowledgeGraph := with_triggers g (kg_trigger_incidents g) host.
Definition drain_trigger_incidents (g : KnowledgeGraph) : KnowledgeGraph * list Incident :=
  (with_triggers g [] (kg_trigger_host g), kg_trigger_incidents g).

(** ** The indexes *)

Definition find_by_pid (g : KnowledgeGraph) (pid : Z) : option Z := kg_index g !! KPid pid.
Definition find_by_ip (g : KnowledgeGraph) (addr : string) : option Z := kg_index g !! KIp addr.
Definition find_by_path (g : KnowledgeGraph) (path : string) : option Z := kg_index g !! KFile path.
Definition find_by_user (g : KnowledgeGraph) (name : string) : option Z := kg_index g !! KUser name.
Definition find_by_domain (g : KnowledgeGraph) (name : string) : option Z := kg_index g !! KDomain name.
Definition find_by_port (g : KnowledgeGraph) (number : Z) (protocol : string) : option Z := kg_index g !! KPort number protocol.
Definition find_by_container (g : KnowledgeGraph) (id : string) : option Z := kg_index g !! KContainer id.
Definition find_by_incident (g : KnowledgeGraph) (incident_id : string) : option Z := kg_index g !! KIncident incident_id.
Definition find_by_campaign (g : KnowledgeGraph) (campaign_id : string) : option Z := kg_index g !! KCampaign campaign_id.
Definition system_node (g : KnowledgeGraph) : option Z := kg_index g !! KSystem.

Definition find_existing (g : KnowledgeGraph) (n : Node) : option Z := kg_index g !! node_key n.

Definition index_node (index : gmap NodeKey Z) (threat : gset Z) (id : Z) (n : Node) : gmap NodeKey Z * gset Z :=
  (<[node_key n := id]> index,
   match n with NIp i => match ipn_datasets i with [] => threat | _ => {[id]} ∪ threat end | _ => threat end).

Definition deindex_node (index : gmap NodeKey Z) (id : Z) (n : Node) : gmap NodeKey Z :=
  match n with
  | NSystem _ _ => if bool_decide (index !! KSystem = Some id) then delete KSystem index else index
  | _ => delete (node_key n) index
  end.

(** ** Adjacency *)

Definition adj (m : gmap Z (list nat)) (v : Z) : list nat := default [] (m !! v).

Definition edges_at (edges : list Edge) (idxs : list nat) : list Edge := omap (fun i => edges !! i) idxs.

Definition outgoing_edges (g : KnowledgeGraph) (v : Z) : list Edge := edges_at (kg_edges g) (adj (kg_outgoing g) v).
Definition incoming_edges (g : KnowledgeGraph) (v : Z) : list Edge := edges_at (kg_edges g) (adj (kg_incoming g) v).

(** [filter(|idx| seen.insert(idx))]. *)
Fixpoint first_seen_only (seen : gset nat) (l : list nat) : list nat :=
  match l with
  | [] => []
  | i :: l => if bool_decide (i ∈ seen) then first_seen_only seen l else i :: first_seen_only ({[i]} ∪ seen) l
  end.

Definition edge_ts_le (a b : Edge) : Prop := ed_ts a <= ed_ts b.
#[export] Instance edge_ts_le_dec a b : Decision (edge_ts_le a b).
Proof. unfold edge_ts_le. apply _. Defined.

Definition all_edges (g : KnowledgeGraph) (v : Z) : list Edge :=
  merge_sort edge_ts_le (edges_at (kg_edges g) (first_seen_only ∅ (adj (kg_outgoing g) v ++ adj (kg_incoming g) v))).

Definition timeline (g : KnowledgeGraph) (v : Z) : list Edge := retain (fun e => negb (is_snapshot e)) (all_edges g v).

(** ** Nodes *)

Definition add_node (g : KnowledgeGraph) (n : Node) : KnowledgeGraph * Z :=
  match find_existing g n with
  | Some existing => (g, existing)
  | None =>
      let id := kg_next_id g in
      let '(index, threat) := index_node (kg_index g) (kg_threat_intel g) id n in
      (with_nodes g (<[id := n]> (kg_nodes g)) index threat (id + 1) (kg_memory g + estimate_node_size n), id)
  end.

(** A node replaced by what a mutation in place makes of it. *)
Definition update_node (g : KnowledgeGraph) (id : Z) (f : Node -> Node) : KnowledgeGraph :=
  with_nodes g (alter f id (kg_nodes g)) (kg_index g) (kg_threat_intel g) (kg_next_id g) (kg_memory g).

Definition keep {A} (old new : option A) : option A := match old with Some _ => old | None => new end.
Definition add_missing (old new : list string) : list string :=
  foldl (fun l x => if mem_str x l then l else l ++ [x]) old new.

Definition merge_node (existing incoming : Node) : Node :=
  match existing, incoming with
  | NProcess p, NProcess q =>
      NProcess {| pn_pid := pn_pid p; pn_ppid := pn_ppid p; pn_comm := pn_comm p; pn_exe := keep (pn_exe p) (pn_exe q); pn_uid := pn_uid p;
                  pn_container_id := keep (pn_container_id p) (pn_container_id q); pn_start_ts := pn_start_ts p;
                  pn_exit_ts := keep (pn_exit_ts p) (pn_exit_ts q) |}
  | NIp i, NIp j =>
      NIp {| ipn_addr := ipn_addr i; ipn_is_internal := ipn_is_internal i; ipn_datasets := add_missing (ipn_datasets i) (ipn_datasets j);
             ipn_risk_score := if ipn_risk_score i <? ipn_risk_score j then ipn_risk_score j else ipn_risk_score i;
             ipn_is_tor := ipn_is_tor i || ipn_is_tor j; ipn_first_seen := ipn_first_seen i;
             ipn_last_seen := if ipn_last_seen i <? ipn_last_seen j then ipn_last_seen j else ipn_last_seen i;
             ipn_attempted_usernames := ipn_attempted_usernames i |}
  | NFile f, NFile h =>
      NFile {| fn_path := fn_path f; fn_sha256 := keep (fn_sha256 f) (fn_sha256 h); fn_size := keep (fn_size f) (fn_size h);
               fn_entropy := keep (fn_entropy f) (fn_entropy h); fn_is_sensitive := fn_is_sensitive f;
               fn_yara_matches := add_missing (fn_yara_matches f) (fn_yara_matches h) |}
  | NContainer c, NContainer d =>
      NContainer {| cn_container_id := cn_container_id c; cn_name := keep (cn_name c) (cn_name d); cn_image := keep (cn_image c) (cn_image d);
                    cn_start_ts := keep (cn_start_ts c) (cn_start_ts d); cn_exit_ts := keep (cn_exit_ts c) (cn_exit_ts d);
                    cn_oom_killed := cn_oom_killed c || cn_oom_killed d |}
  | NDomain c, NDomain d =>
      NDomain {| dn_name := dn_name c; dn_datasets := add_missing (dn_datasets c) (dn_datasets d); dn_is_dga := keep (dn_is_dga c) (dn_is_dga d);
                 dn_entropy := keep (dn_entropy c) (dn_entropy d) |}
  | _, _ => existing
  end.

Definition upsert_node (g : KnowledgeGraph) (n : Node) : KnowledgeGraph * Z :=
  match find_existing g n with
  | Some id =>
      let g := update_node g id (fun existing => merge_node existing n) in
      let threat := match n with
                    | NIp i => match ipn_datasets i with [] => kg_threat_intel g | _ => {[id]} ∪ kg_threat_intel g end
                    | _ => kg_threat_intel g
                    end in
      (with_nodes g (kg_nodes g) (kg_index g) threat (kg_next_id g) (kg_memory g), id)
  | None => add_node g n
  end.


Definition mark_false_positive (g : KnowledgeGraph) (node_id : Z) (reporter : string) (now : Z) : KnowledgeGraph :=
  update_node g node_id (fun n => match n with
    | NIncident i => NIncident {| inn_incident_id := inn_incident_id i; inn_detector := inn_detector i; inn_severity := inn_severity i;
        inn_title := inn_title i; inn_summary := inn_summary i; inn_ts := inn_ts i; inn_mitre_ids := inn_mitre_ids i;
        inn_decision := inn_decision i; inn_confidence := inn_confidence i; inn_decision_reason := inn_decision_reason i;
        inn_decision_target := inn_decision_target i; inn_auto_executed := inn_auto_executed i; inn_is_allowlisted := inn_is_allowlisted i;
        inn_false_positive := true; inn_fp_reporter := Some reporter; inn_fp_reported_at := Some now;
        inn_research_only := inn_research_only i |}
    | _ => n
    end).

Definition ensure_process (g : KnowledgeGraph) (pid ppid : Z) (comm : string) (uid ts : Z) : KnowledgeGraph * Z :=
  match find_by_pid g pid with
  | Some id =>
      (update_node g id (fun n => match n with
         | NProcess p => NProcess {| pn_pid := pn_pid p; pn_ppid := if (pn_ppid p =? 0) && (0 <? ppid) then ppid else pn_ppid p;
             pn_comm := if String.eqb (pn_comm p) "" && negb (String.eqb comm "") then comm else pn_comm p; pn_exe := pn_exe p;
             pn_uid := if (pn_uid p =? 0) && (0 <? uid) then uid else pn_uid p; pn_container_id := pn_container_id p;
             pn_start_ts := pn_start_ts p; pn_exit_ts := pn_exit_ts p |}
         | _ => n
         end), id)
  | None => add_node g (NProcess {| pn_pid := pid; pn_ppid := ppid; pn_comm := comm; pn_exe := None; pn_uid := uid; pn_container_id := None;
                                    pn_start_ts := ts; pn_exit_ts := None |})
  end.

Definition ensure_ip (g : KnowledgeGraph) (addr : string) (ts : Z) : KnowledgeGraph * Z :=
  match find_by_ip g addr with
  | Some id =>
      (update_node g id (fun n => match n with
         | NIp i => NIp {| ipn_addr := ipn_addr i; ipn_is_internal := ipn_is_internal i; ipn_datasets := ipn_datasets i;
             ipn_risk_score := ipn_risk_score i; ipn_is_tor := ipn_is_tor i; ipn_first_seen := ipn_first_seen i; ipn_last_seen := ts;
             ipn_attempted_usernames := ipn_attempted_usernames i |}
         | _ => n
         end), id)
  | None => add_node g (NIp {| ipn_addr := addr; ipn_is_internal := is_internal_ip addr; ipn_datasets := []; ipn_risk_score := 0;
                               ipn_is_tor := false; ipn_first_seen := ts; ipn_last_seen := ts; ipn_attempted_usernames := [] |})
  end.

Definition MAX_ATTEMPTED : nat := 50.

(** [position] and [remove]: the first of equal names goes. *)
Fixpoint remove_first (x : string) (l : list string) : list string :=
  match l with [] => [] | y :: l => if String.eqb y x then l else y :: remove_first x l end.

Definition remember_username (names : list string) (login : string) : list string :=
  let names := remove_first login names ++ [login] in
  drop (length names - MAX_ATTEMPTED) names.

Definition record_attempted_username (g : KnowledgeGraph) (ip_id : Z) (attacker_login : string) : KnowledgeGraph :=
  if String.eqb attacker_login "" then g
  else update_node g ip_id (fun n => match n with
         | NIp i => NIp {| ipn_addr := ipn_addr i; ipn_is_internal := ipn_is_internal i; ipn_datasets := ipn_datasets i;
             ipn_risk_score := ipn_risk_score i; ipn_is_tor := ipn_is_tor i; ipn_first_seen := ipn_first_seen i;
             ipn_last_seen := ipn_last_seen i; ipn_attempted_usernames := remember_username (ipn_attempted_usernames i) attacker_login |}
         | _ => n
         end).

Definition attempted_usernames_for_ip (g : KnowledgeGraph) (ip_id : Z) : list string :=
  match kg_nodes g !! ip_id with Some (NIp i) => ipn_attempted_usernames i | _ => [] end.

Definition ensure_file (g : KnowledgeGraph) (path : string) : KnowledgeGraph * Z :=
  match find_by_path g path with
  | Some id => (g, id)
  | None => add_node g (NFile {| fn_path := path; fn_sha256 := None; fn_size := None; fn_entropy := None;
                                 fn_is_sensitive := is_sensitive_path path; fn_yara_matches := [] |})
  end.
Definition ensure_user (g : KnowledgeGraph) (name : string) : KnowledgeGraph * Z :=
  match find_by_user g name with Some id => (g, id) | None => add_node g (NUser name None) end.
Definition ensure_domain (g : KnowledgeGraph) (name : string) : KnowledgeGraph * Z :=
  match find_by_domain g name with
  | Some id => (g, id)
  | None => add_node g (NDomain {| dn_name := name; dn_datasets := []; dn_is_dga := None; dn_entropy := None |})
  end.
Definition ensure_port (g : KnowledgeGraph) (number : Z) (protocol : string) : KnowledgeGraph * Z :=
  match find_by_port g number protocol with Some id => (g, id) | None => add_node g (NPort number protocol) end.
Definition ensure_container (g : KnowledgeGraph) (container_id : string) : KnowledgeGraph * Z :=
  match find_by_container g container_id with
  | Some id => (g, id)
  | None => add_node g (NContainer {| cn_container_id := container_id; cn_name := None; cn_image := None; cn_start_ts := None;
                                      cn_exit_ts := None; cn_oom_killed := false |})
  end.

(** The new System node is written to [system_node] once more than
    [index_node] does. *)
Definition ensure_system (g : KnowledgeGraph) (hostname : string) : KnowledgeGraph * Z :=
  match system_node g with
  | Some id =>
      (if String.eqb hostname "" then g
       else update_node g id (fun n => match n with
              | NSystem h params => if String.eqb h "" then NSystem hostname params else n
              | _ => n
              end), id)
  | None =>
      let '(g, id) := add_node g (NSystem hostname ∅) in
      (with_nodes g (kg_nodes g) (<[KSystem := id]> (kg_index g)) (kg_threat_intel g) (kg_next_id g) (kg_memory g), id)
  end.

(** ** Removing a node *)

(** [sort_unstable] and [dedup] of positions. *)
Fixpoint dedup_idx (l : list nat) : list nat :=
  match l with
  | x :: ((y :: _) as r) => if Nat.eqb x y then dedup_idx r else x :: dedup_idx r
  | _ => l
  end.

Definition drop_idx (idx : nat) (l : list nat) : list nat := retain (fun i => negb (Nat.eqb i idx)) l.

(** One position of a removed node [id]. *)
Definition detach (edges : list Edge) (id : Z) (st : gmap Z (list nat) * gmap Z (list nat) * Z) (idx : nat)
    : gmap Z (list nat) * gmap Z (list nat) * Z :=
  let '(outgoing, incoming, tombs) := st in
  match edges !! idx with
  | Some e =>
      let other := if ed_from e =? id then ed_to e else ed_from e in
      (alter (drop_idx idx) other outgoing, alter (drop_idx idx) other incoming, tombs + 1)
  | None => (outgoing, incoming, tombs + 1)
  end.

Definition remove_node (g : KnowledgeGraph) (id : Z) : KnowledgeGraph :=
  match kg_nodes g !! id with
  | None => g
  | Some n =>
      let g := with_nodes g (delete id (kg_nodes g)) (deindex_node (kg_index g) id n) (kg_threat_intel g ∖ {[id]}) (kg_next_id g)
                 (saturating_sub (kg_memory g) (estimate_node_size n)) in
      let idxs := dedup_idx (merge_sort Nat.le (adj (kg_outgoing g) id ++ adj (kg_incoming g) id)) in
      let '(outgoing, incoming, tombs) :=
        foldl (detach (kg_edges g) id) (delete id (kg_outgoing g), delete id (kg_incoming g), kg_tombstoned g) idxs in
      with_edges g (kg_edges g) outgoing incoming (delete id (kg_last_edge_ts g)) (kg_memory g) tombs
  end.

(** ** Compaction *)

Definition live (g : KnowledgeGraph) : gset nat := list_to_set (concat (map_to_list (kg_outgoing g)).*2).

(** The edges that stay, where each of them goes, and the memory left, from
    position [i] on. *)
Fixpoint compact_from (alive : gset nat) (i : nat) (edges new_edges : list Edge) (old_to_new : gmap nat nat) (memory : Z)
    : list Edge * gmap nat nat * Z :=
  match edges with
  | [] => (new_edges, old_to_new, memory)
  | e :: edges =>
      if bool_decide (i ∈ alive)
      then compact_from alive (S i) edges (new_edges ++ [e]) (<[i := length new_edges]> old_to_new) memory
      else compact_from alive (S i) edges new_edges old_to_new (saturating_sub memory (estimate_edge_size e))
  end.

Definition remap (old_to_new : gmap nat nat) (idxs : list nat) : list nat := omap (fun i => old_to_new !! i) idxs.

Definition compacted (g : KnowledgeGraph) : KnowledgeGraph :=
  let '(edges, old_to_new, memory) := compact_from (live g) 0 (kg_edges g) [] ∅ (kg_memory g) in
  with_edges g edges (remap old_to_new <$> kg_outgoing g) (remap old_to_new <$> kg_incoming g) (kg_last_edge_ts g) memory 0.

Definition compact_edges (g : KnowledgeGraph) : KnowledgeGraph :=
  if match kg_edges g with [] => true | _ => false end || (kg_tombstoned g =? 0) then g
  else if f_ltb (f32_div (f32_of_Z (kg_tombstoned g)) (f32_of_Z (Z.of_nat (length (kg_edges g))))) (f32_lit 2 10) then g
  else compacted g.

Definition compact_edges_force (g : KnowledgeGraph) : KnowledgeGraph :=
  if match kg_edges g with [] => true | _ => false end || (kg_tombstoned g =? 0) then g else compacted g.

(** ** Adding an edge *)

Definition safe_truncate (s : string) (max : nat) : string :=
  if Nat.leb (String.length s) max then s else substring 0 (floor_boundary s max) s.

Definition add_prop (key : string) (value : option string) (e : Edge) : Edge :=
  match value with
  | Some v => if bool_decide (is_Some (ed_properties e !! key)) then e else with_prop e key (JStr v)
  | None => e
  end.

(** What is being ingested, written on the edge. *)
Definition enrich (ev : EventMeta) (e : Edge) : Edge :=
  let e := add_prop "event_source" (current_source ev) e in
  let e := add_prop "event_kind" (current_kind ev) e in
  let e := match current_summary ev with
           | Some s => if String.eqb s "" then e else add_prop "summary" (Some (safe_truncate s 200)) e
           | None => e
           end in
  add_prop "severity" (current_severity ev) e.

Definition push_idx (idx : nat) (o : option (list nat)) : option (list nat) := Some (default [] o ++ [idx]).
Definition bump_ts (ts : Z) (o : option Z) : option Z := Some (match o with Some t => if t <? ts then ts else t | None => ts end).

(** [add_edge] up to the triggers. *)
Definition push_edge (g : KnowledgeGraph) (e : Edge) : KnowledgeGraph * nat :=
  let e := enrich (kg_event g) e in
  let idx := length (kg_edges g) in
  let last := partial_alter (bump_ts (ed_ts e)) (ed_from e) (kg_last_edge_ts g) in
  let last := if ed_to e =? ed_from e then last else partial_alter (bump_ts (ed_ts e)) (ed_to e) last in
  (with_edges g (kg_edges g ++ [e]) (partial_alter (push_idx idx) (ed_from e) (kg_outgoing g))
     (partial_alter (push_idx idx) (ed_to e) (kg_incoming g)) last (kg_memory g + estimate_edge_size e) (kg_tombstoned g), idx).

(** ** Age and memory *)

Definition hours (n : Z) : Z := seconds (3600 * n).
Definition days (n : Z) : Z := hours (24 * n).

Definition older (now ts limit : Z) : bool := limit <? now - ts.

(** The last edge of a node is older than a day; [none] if it has none. *)
Definition last_edge_old (g : KnowledgeGraph) (id now : Z) (none : bool) : bool :=
  match last (all_edges g id) with Some e => older now (ed_ts e) (hours 24) | None => none end.

Definition ACTIVE_RESPONSES : list string := ["block_ip"; "kill_process"; "suspend_user_sudo"; "block_container"].

Definition is_expired (g : KnowledgeGraph) (id : Z) (n : Node) (now : Z) : bool :=
  match n with
  | NProcess p =>
      match pn_exit_ts p with
      | Some exit => older now exit (hours 1)
      | None => last_edge_old g id now (older now (kg_created_at g) (hours 24))
      end
  | NIp i =>
      if negb (match ipn_datasets i with [] => true | _ => false end) || (0 <? ipn_risk_score i) then false
      else older now (ipn_last_seen i) (hours 24)
  | NFile f => if fn_is_sensitive f then false else last_edge_old g id now false
  | NUser _ _ | NDevice _ | NSystem _ _ => false
  | NDomain d => if negb (match dn_datasets d with [] => true | _ => false end) then false else last_edge_old g id now false
  | NPort _ _ => last_edge_old g id now false
  | NContainer c => match cn_exit_ts c with Some exit => older now exit (hours 1) | None => false end
  | NIncident i =>
      if match inn_decision i with Some d => mem_str d ACTIVE_RESPONSES | None => false end then false
      else older now (inn_ts i) (days 7)
  | NCampaign c => older now (can_last_seen c) (days 30)
  end.

(** The order in which a [HashMap] is iterated. *)
Class HashOrder := { hash_iter : gmap Z Node -> list (Z * Node); hash_iter_perm m : hash_iter m ≡ₚ map_to_list m }.

Section upkeep.
Context `{HashOrder}.

Definition cleanup_expired (g : KnowledgeGraph) (now : Z) : KnowledgeGraph :=
  foldl remove_node g (retain (fun kv => is_expired g kv.1 kv.2 now) (hash_iter (kg_nodes g))).*1.

Definition is_system (n : Node) : bool := match n with NSystem _ _ => true | _ => false end.

Definition last_activity (g : KnowledgeGraph) (id : Z) : Z := default (kg_created_at g) (kg_last_edge_ts g !! id).

Definition activity_le (g : KnowledgeGraph) (a b : Z) : Prop := last_activity g a <= last_activity g b.
#[export] Instance activity_le_dec g a b : Decision (activity_le g a b).
Proof. unfold activity_le. apply _. Defined.

Definition candidates (g : KnowledgeGraph) : list Z :=
  merge_sort (activity_le g) (retain (fun kv => negb (is_system kv.2)) (hash_iter (kg_nodes g))).*1.

Fixpoint evict (g : KnowledgeGraph) (ids : list Z) : KnowledgeGraph :=
  match ids with
  | [] => g
  | id :: ids => if kg_memory g <=? kg_max_memory g then g else evict (remove_node g id) ids
  end.

Definition enforce_memory_limit (g : KnowledgeGraph) : KnowledgeGraph :=
  if kg_memory g <=? kg_max_memory g then g else evict g (candidates g).

(** Once a minute, before the snapshot. *)
Definition graph_upkeep (g : KnowledgeGraph) (now : Z) : KnowledgeGraph := compact_edges_force (enforce_memory_limit (cleanup_expired g now)).
End upkeep.

(** ** Well-formed graphs *)

Definition nodes_size (nodes : gmap Z Node) : Z := sumZ ((fun kv => estimate_node_size kv.2) <$> map_to_list nodes).
Definition edges_size (edges : list Edge) : Z := sumZ (estimate_edge_size <$> edges).
#[local] Arguments nodes_size _ : simpl never.
#[local] Arguments edges_size _ : simpl never.

(** An address on a list of threat intelligence. *)
Definition listed (n : Node) : bool := match n with NIp i => negb (match ipn_datasets i with [] => true | _ => false end) | _ => false end.

(** The nodes are exactly what the keys find, ids are fresh, and the threat
    intelligence set is that of the listed addresses. *)
Record nodes_ok (g : KnowledgeGraph) : Prop := {
  no_fresh id : is_Some (kg_nodes g !! id) -> id < kg_next_id g;
  no_index k id : kg_index g !! k = Some id <-> exists n, kg_nodes g !! id = Some n /\ node_key n = k;
  no_threat id : id ∈ kg_threat_intel g <-> exists n, kg_nodes g !! id = Some n /\ listed n = true;
}.

(** A position is listed at both ends of its edge or at neither, once, and the
    tombstones count those listed nowhere. *)
Record adj_ok (edges : list Edge) (outgoing incoming : gmap Z (list nat)) (tombs : Z) : Prop := {
  ao_out v i : i ∈ adj outgoing v -> exists e, edges !! i = Some e /\ ed_from e = v;
  ao_in v i : i ∈ adj incoming v -> exists e, edges !! i = Some e /\ ed_to e = v;
  ao_sym i e : edges !! i = Some e -> i ∈ adj outgoing (ed_from e) <-> i ∈ adj incoming (ed_to e);
  ao_nodup v : NoDup (adj outgoing v) /\ NoDup (adj incoming v);
  ao_dead : exists dead, NoDup dead /\ Z.of_nat (length dead) = tombs /\
    forall i, i ∈ dead <-> exists e, edges !! i = Some e /\ (i ∉ adj outgoing (ed_from e));
}.

(** A node with edges has a last activity, no older than its edges but for the
    flows, whose time is moved without it (AgentGraphIngest.v). *)
Definition last_ok (g : KnowledgeGraph) : Prop :=
  forall v i e, i ∈ adj (kg_outgoing g) v \/ i ∈ adj (kg_incoming g) v -> kg_edges g !! i = Some e ->
  exists t, kg_last_edge_ts g !! v = Some t /\ (ed_properties e !! "flow_count" = None -> ed_ts e <= t).

Record kg_ok (g : KnowledgeGraph) : Prop := {
  ok_nodes : nodes_ok g;
  ok_adj : adj_ok (kg_edges g) (kg_outgoing g) (kg_incoming g) (kg_tombstoned g);
  ok_last : last_ok g;
  ok_memory : kg_memory g = nodes_size (kg_nodes g) + edges_size (kg_edges g);
}.

(** *** Generic facts *)

#[local] Instance sumZ_Permutation : Proper (Permutation ==> eq) sumZ.
Proof. intros l k H. unfold sumZ. induction H; cbn [foldr]; lia. Qed.

Lemma estimate_node_pos n : 0 < estimate_node_size n.
Proof. by destruct n. Qed.

Lemma nodes_size_insert nodes id n : nodes !! id = None -> nodes_size (<[id := n]> nodes) = estimate_node_size n + nodes_size nodes.
Proof. intros Hn. unfold nodes_size. rewrite map_to_list_insert by done. done. Qed.

Lemma nodes_size_delete nodes id n : nodes !! id = Some n -> nodes_size nodes = estimate_node_size n + nodes_size (delete id nodes).
Proof.
  intros Hn. rewrite <- (insert_delete_id nodes id n Hn) at 1. apply nodes_size_insert. apply lookup_delete_eq.
Qed.

Lemma nodes_size_nonneg nodes : 0 <= nodes_size nodes.
Proof.
  apply sumZ_nonneg, Forall_fmap, Forall_forall. intros kv _. cbn. pose proof (estimate_node_pos kv.2). lia.
Qed.

Lemma edge_size_pos e : 0 < estimate_edge_size e.
Proof. unfold estimate_edge_size. lia. Qed.

Lemma edges_size_nonneg edges : 0 <= edges_size edges.
Proof. apply sumZ_nonneg, Forall_fmap, Forall_forall. intros e _. cbn. pose proof (edge_size_pos e). lia. Qed.

Lemma node_key_type n n' : node_key n = node_key n' -> node_type n = node_type n'.
Proof. by destruct n, n'. Qed.

Lemma adj_delete m v w : adj (delete v m) w = if bool_decide (w = v) then [] else adj m w.
Proof. unfold adj. case_bool_decide; [subst; by rewrite lookup_delete_eq|by rewrite lookup_delete_ne]. Qed.

Lemma adj_push m v i w : adj (partial_alter (push_idx i) v m) w = if bool_decide (w = v) then adj m v ++ [i] else adj m w.
Proof. unfold adj. case_bool_decide; [subst; by rewrite lookup_partial_alter_eq|by rewrite lookup_partial_alter_ne]. Qed.

Lemma adj_alter f m v w : f [] = [] -> adj (alter f v m) w = if bool_decide (w = v) then f (adj m v) else adj m w.
Proof.
  intros Hf. unfold adj. case_bool_decide; [subst; rewrite lookup_alter_eq|by rewrite lookup_alter_ne].
  by destruct (m !! v).
Qed.

(** *** Nodes *)

Lemma find_existing_some g n id : nodes_ok g -> find_existing g n = Some id ->
  exists n', kg_nodes g !! id = Some n' /\ node_key n' = node_key n.
Proof. intros Hok. unfold find_existing. apply (no_index _ Hok). Qed.

Lemma node_key_size n n' : node_key n = node_key n' -> estimate_node_size n = estimate_node_size n'.
Proof. by destruct n, n'. Qed.

Lemma nodes_size_alter nodes id f : (forall n, nodes !! id = Some n -> node_key (f n) = node_key n) ->
  nodes_size (alter f id nodes) = nodes_size nodes.
Proof.
  intros Hf. destruct (nodes !! id) as [n|] eqn:En.
  - rewrite (nodes_size_delete (alter f id nodes) id (f n)) by (rewrite lookup_alter_eq, En; done).
    rewrite (nodes_size_delete nodes id n) by done. rewrite delete_alter_eq. by rewrite (node_key_size _ _ (Hf n eq_refl)).
  - assert (alter f id nodes = nodes) as ->; [|done]. apply map_eq. intros j. destruct (decide (j = id)) as [->|].
    + by rewrite lookup_alter_eq, En.
    + by rewrite lookup_alter_ne.
Qed.

(** A node is changed in place, keeping its key. *)
Lemma change_node_ok g id f threat :
  (forall n, kg_nodes g !! id = Some n -> node_key (f n) = node_key n /\ (id ∈ threat <-> listed (f n) = true)) ->
  (kg_nodes g !! id = None -> id ∉ threat) -> (forall id', id' <> id -> id' ∈ threat <-> id' ∈ kg_threat_intel g) ->
  kg_ok g -> kg_ok (with_nodes g (alter f id (kg_nodes g)) (kg_index g) threat (kg_next_id g) (kg_memory g)).
Proof.
  intros Hf Hno Ht [[Hfr Hix Hth] Ha Hl Hm]. split; [|exact Ha|exact Hl|].
  - assert (forall id' n', alter f id (kg_nodes g) !! id' = Some n' <->
      exists n, kg_nodes g !! id' = Some n /\ n' = if bool_decide (id' = id) then f n else n) as Hlk.
    { intros id' n'. case_bool_decide; [subst; rewrite lookup_alter_eq|rewrite lookup_alter_ne by done].
      - rewrite fmap_Some. done.
      - split; [intros; by eexists|by intros (n & ? & ->)]. }
    split; cbn.
    + intros id' [n' (n & Hn & _)%Hlk]. apply Hfr. by eexists.
    + intros k id'. rewrite Hix. split.
      * intros (n & Hn & Hk). eexists. split; [apply Hlk; by eexists|]. case_bool_decide; [subst id'|done].
        by destruct (Hf n Hn) as [-> _].
      * intros (n' & (n & Hn & ->)%Hlk & Hk). exists n. split; [done|]. case_bool_decide; [subst id'|done].
        by destruct (Hf n Hn) as [<- _].
    + intros id'. setoid_rewrite Hlk. destruct (decide (id' = id)) as [->|Hne].
      * destruct (kg_nodes g !! id) as [n|] eqn:En.
        -- destruct (Hf n eq_refl) as [_ ->]. rewrite bool_decide_true by done.
           split; [intros; by eauto|by intros (n' & (n0 & [= <-] & ->) & ?)].
        -- split; [intros; by destruct (Hno eq_refl)|by intros (n' & (n0 & ? & _) & _)].
      * rewrite Ht, Hth by done. rewrite bool_decide_false by done. split.
        -- intros (n & Hn & Hd). by eauto.
        -- intros (n' & (n & Hn & ->) & Hd). by eauto.
  - cbn. rewrite nodes_size_alter; [done|]. intros n Hn. by destruct (Hf n Hn).
Qed.

Lemma update_node_ok g id f :
  (forall n, kg_nodes g !! id = Some n -> node_key (f n) = node_key n /\ listed (f n) = listed n) ->
  kg_ok g -> kg_ok (update_node g id f).
Proof.
  intros Hf Hok. apply change_node_ok; [|..|done].
  - intros n Hn. destruct (Hf n Hn) as [Hk Hd]. split; [done|]. rewrite (no_threat _ (ok_nodes _ Hok)), Hn, Hd.
    split; [by intros (? & [= <-] & ?)|by eauto].
  - intros Hn. rewrite (no_threat _ (ok_nodes _ Hok)), Hn. by intros (? & ? & _).
  - done.
Qed.

Lemma add_node_ok g n : kg_ok g -> kg_ok (add_node g n).1.
Proof.
  intros Hok. unfold add_node. destruct (find_existing g n) as [id|] eqn:Ef; [done|].
  destruct Hok as [[Hfr Hix Hth] Ha Hl Hm]. cbn. set (id := kg_next_id g).
  assert (kg_nodes g !! id = None) as Hid.
  { destruct (kg_nodes g !! id) eqn:E; [|done]. specialize (Hfr id ltac:(by eexists)). unfold id in Hfr. lia. }
  split; [split|exact Ha|exact Hl|]; cbn.
  - intros id' [n' Hn']. destruct (decide (id' = id)) as [->|]; [lia|]. rewrite lookup_insert_ne in Hn' by done.
    specialize (Hfr id' ltac:(by eexists)). unfold id. lia.
  - intros k id'. destruct (decide (k = node_key n)) as [->|Hk].
    + rewrite lookup_insert_eq. split.
      * intros [= <-]. exists n. by rewrite lookup_insert_eq.
      * intros (n' & Hn' & Hk'). destruct (decide (id' = id)) as [->|]; [done|]. rewrite lookup_insert_ne in Hn' by done.
        assert (kg_index g !! node_key n = Some id') as E by (apply Hix; by exists n'). unfold find_existing in Ef. congruence.
    + rewrite lookup_insert_ne, Hix by done. split.
      * intros (n' & Hn' & Hk'). exists n'. rewrite lookup_insert_ne; [done|]. intros <-. congruence.
      * intros (n' & Hn' & Hk'). destruct (decide (id' = id)) as [->|]; [rewrite lookup_insert_eq in Hn'; congruence|].
        rewrite lookup_insert_ne in Hn' by done. by exists n'.
  - intros id'. assert (id ∉ kg_threat_intel g) as Hno by (rewrite Hth, Hid; by intros (? & ? & _)).
    transitivity (if listed n then id' = id \/ id' ∈ kg_threat_intel g else id' ∈ kg_threat_intel g).
    { destruct n as [|i| | | | | | | | |]; try done. cbn. destruct (ipn_datasets i); cbn; [done|]. by rewrite elem_of_union, elem_of_singleton. }
    destruct (decide (id' = id)) as [->|Hne].
    + rewrite lookup_insert_eq. split.
      * intros Hd. exists n. split; [done|]. by destruct (listed n).
      * intros (? & [= <-] & ->). by left.
    + rewrite lookup_insert_ne by done. rewrite <- Hth. destruct (listed n); [|done]. split; [by intros [|]|by right].
  - rewrite (nodes_size_insert (kg_nodes g) id n Hid). lia.
Qed.

Lemma add_missing_nil old new : add_missing old new = [] <-> old = [] /\ new = [].
Proof.
  unfold add_missing. revert old. induction new as [|x new IH]; intros old; cbn [foldl]; [by split; [|intros []]|].
  rewrite IH. destruct (mem_str x old) eqn:Em.
  - apply mem_str_true in Em. split; intros [-> _]; by apply elem_of_nil in Em.
  - split; intros [H H']; [by destruct old|done].
Qed.

Lemma merge_node_key n n' : node_key (merge_node n n') = node_key n.
Proof. by destruct n, n'. Qed.

Lemma merge_node_listed n n' : node_key n = node_key n' -> listed (merge_node n n') = listed n || listed n'.
Proof.
  destruct n as [|i| | | | | | | | |], n' as [|j| | | | | | | | |]; try done. intros _. cbn.
  destruct (add_missing (ipn_datasets i) (ipn_datasets j)) eqn:E.
  - apply add_missing_nil in E as [-> ->]. done.
  - destruct (ipn_datasets i) eqn:Ei, (ipn_datasets j) eqn:Ej; done.
Qed.

Lemma upsert_node_ok g n : kg_ok g -> kg_ok (upsert_node g n).1.
Proof.
  intros Hok. unfold upsert_node. destruct (find_existing g n) as [id|] eqn:Ef; [|by apply add_node_ok].
  destruct (find_existing_some _ _ _ (ok_nodes _ Hok) Ef) as (n0 & Hn0 & Hk).
  set (threat := match n with NIp _ => _ | _ => _ end).
  assert (forall id', id' ∈ threat <-> (id' = id /\ listed n = true) \/ id' ∈ kg_threat_intel g) as Ht.
  { intros id'. unfold threat. destruct n as [|i| | | | | | | | |]; cbn; try (split; [by right|by intros [[_ ?]|]]).
    destruct (ipn_datasets i); cbn; [split; [by right|by intros [[_ ?]|]]|]. rewrite elem_of_union, elem_of_singleton.
    split; intros [H|H]; [by left|by right|left; by destruct H|by right]. }
  apply (change_node_ok g id (fun existing => merge_node existing n) threat); [..|done].
  - intros n1 Hn1. rewrite Hn0 in Hn1. injection Hn1 as <-. split; [apply merge_node_key|].
    rewrite Ht, (no_threat _ (ok_nodes _ Hok)), Hn0, merge_node_listed, orb_true_iff by done. split.
    + intros [[_ ?]|(? & [= <-] & ?)]; [by right|by left].
    + intros [?|?]; [right; by eexists|by left].
  - by rewrite Hn0.
  - intros id' Hne. rewrite Ht. split; [by intros [[-> _]|]|by right].
Qed.

(** The helpers only add nodes or change them in place. *)
Lemma ensure_ok g : kg_ok g ->
  (forall pid ppid comm uid ts, kg_ok (ensure_process g pid ppid comm uid ts).1) /\ (forall addr ts, kg_ok (ensure_ip g addr ts).1) /\
  (forall path, kg_ok (ensure_file g path).1) /\ (forall name, kg_ok (ensure_user g name).1) /\ (forall name, kg_ok (ensure_domain g name).1) /\
  (forall number protocol, kg_ok (ensure_port g number protocol).1) /\ (forall cid, kg_ok (ensure_container g cid).1).
Proof.
  intros Hok. split_and!; intros;
    unfold ensure_process, ensure_ip, ensure_file, ensure_user, ensure_domain, ensure_port, ensure_container;
    match goal with |- context [match ?o with Some _ => _ | None => _ end] => destruct o end; cbn [fst]; try (by apply add_node_ok); try done;
    (apply update_node_ok; [by intros []|done]).
Qed.

Lemma ensure_system_ok g hostname : kg_ok g -> kg_ok (ensure_system g hostname).1.
Proof.
  intros Hok. unfold ensure_system. destruct (system_node g) as [id|] eqn:Es.
  - cbn [fst]. destruct (String.eqb hostname ""); [done|]. apply update_node_ok; [|done].
    intros [] _; cbn; try done. by destruct (String.eqb _ _).
  - pose proof (add_node_ok g (NSystem hostname ∅) Hok) as Hok'. unfold add_node in *. unfold find_existing in *. cbn [node_key] in *.
    unfold system_node in Es. rewrite Es in Hok' |- *. cbn in Hok' |- *. unfold with_nodes in *. cbn in *.
    rewrite insert_insert_eq. exact Hok'.
Qed.

Lemma mark_false_positive_ok g id reporter now : kg_ok g -> kg_ok (mark_false_positive g id reporter now).
Proof. apply update_node_ok. by intros []. Qed.

Lemma record_username_ok g id login : kg_ok g -> kg_ok (record_attempted_username g id login).
Proof. unfold record_attempted_username. destruct (String.eqb login ""); [done|]. apply update_node_ok. by intros []. Qed.

(** *** Adding an edge *)

Lemma add_prop_ends key v e : ed_from (add_prop key v e) = ed_from e /\ ed_to (add_prop key v e) = ed_to e /\ ed_ts (add_prop key v e) = ed_ts e
  /\ ed_relation (add_prop key v e) = ed_relation e.
Proof. unfold add_prop. destruct v; [|done]. by case_bool_decide. Qed.

Lemma enrich_ends ev e : ed_from (enrich ev e) = ed_from e /\ ed_to (enrich ev e) = ed_to e /\ ed_ts (enrich ev e) = ed_ts e
  /\ ed_relation (enrich ev e) = ed_relation e.
Proof.
  unfold enrich. destruct (current_summary ev) as [s|]; [destruct (String.eqb s "")|];
    repeat match goal with |- context [add_prop ?k ?v ?e] => destruct (add_prop_ends k v e) as (-> & -> & -> & ->) end; done.
Qed.

Lemma lookup_snoc_inv {A} (l : list A) x i y : (l ++ [x]) !! i = Some y -> l !! i = Some y \/ (i = length l /\ y = x).
Proof. intros [H|(H & H')]%lookup_app_Some; [by left|right]. apply list_lookup_singleton_Some in H' as [? ->]. split; [lia|done]. Qed.

Lemma push_adj_ok edges outgoing incoming tombs e : adj_ok edges outgoing incoming tombs ->
  adj_ok (edges ++ [e]) (partial_alter (push_idx (length edges)) (ed_from e) outgoing)
    (partial_alter (push_idx (length edges)) (ed_to e) incoming) tombs.
Proof.
  intros [Ho Hi Hs Hn (dead & Hd1 & Hd2 & Hd3)].
  assert (forall i v, i ∈ adj outgoing v -> (i < length edges)%nat) as Hlo.
  { intros i v (e' & He & _)%Ho. by apply lookup_lt_Some in He. }
  assert (forall i v, i ∈ adj incoming v -> (i < length edges)%nat) as Hli.
  { intros i v (e' & He & _)%Hi. by apply lookup_lt_Some in He. }
  assert (forall m v w i, i ∈ adj (partial_alter (push_idx (length edges)) v m) w <-> i ∈ adj m w \/ (w = v /\ i = length edges)) as Ha.
  { intros m v w i. rewrite adj_push. case_bool_decide; [subst w|].
    - rewrite elem_of_app, list_elem_of_singleton. split; [intros [|]; auto|intros [|[_ ?]]; auto].
    - split; [auto|by intros [|[? _]]]. }
  assert ((edges ++ [e]) !! length edges = Some e) as Hnew by (rewrite lookup_app_r, Nat.sub_diag by lia; done).
  split.
  - intros v i [(e' & He & Hv)%Ho|[-> ->]]%Ha; [|by eexists]. exists e'. split; [by apply lookup_app_l_Some|done].
  - intros v i [(e' & He & Hv)%Hi|[-> ->]]%Ha; [|by eexists]. exists e'. split; [by apply lookup_app_l_Some|done].
  - intros i e' He'. rewrite !Ha. destruct (lookup_snoc_inv _ _ _ _ He') as [He|[-> ->]].
    + rewrite (Hs i e' He). apply lookup_lt_Some in He. split; intros [|[_ ?]]; auto; lia.
    + split; intros _; by right.
  - intros v. rewrite !adj_push. split; case_bool_decide; try apply Hn; subst v; apply NoDup_app; (split; [apply Hn|split; [|apply NoDup_singleton]]);
      intros i H1 ->%list_elem_of_singleton; [apply Hlo in H1|apply Hli in H1]; lia.
  - exists dead. split; [done|]. split; [done|]. intros i. rewrite Hd3. split.
    + intros (e' & He & Hno). exists e'. split; [by apply lookup_app_l_Some|]. rewrite Ha. apply lookup_lt_Some in He.
      intros [?|[_ ?]]; [done|lia].
    + intros (e' & He & Hno). rewrite Ha in Hno. destruct (lookup_snoc_inv _ _ _ _ He) as [He'|[-> ->]]; [|by destruct Hno; right].
      exists e'. split; [done|]. intros ?. apply Hno. by left.
Qed.

Lemma bump_ts_lookup ts v (m : gmap Z Z) w : partial_alter (bump_ts ts) v m !! w = if bool_decide (w = v) then bump_ts ts (m !! v) else m !! w.
Proof. case_bool_decide; [subst; by rewrite lookup_partial_alter_eq|by rewrite lookup_partial_alter_ne]. Qed.

(** Activity only moves forward. *)
Lemma bump_ts_ge ts (m : gmap Z Z) v w t : m !! w = Some t -> exists t', partial_alter (bump_ts ts) v m !! w = Some t' /\ t <= t'.
Proof.
  intros Hm. rewrite bump_ts_lookup. case_bool_decide; [subst w|exists t; split; [done|lia]].
  unfold bump_ts. rewrite Hm. eexists. split; [done|]. destruct (Z.ltb_spec t ts); lia.
Qed.
Lemma bump_ts_new ts (m : gmap Z Z) v : exists t', partial_alter (bump_ts ts) v m !! v = Some t' /\ ts <= t'.
Proof.
  rewrite lookup_partial_alter_eq. unfold bump_ts. eexists. split; [done|]. destruct (m !! v) as [t|]; [|lia].
  destruct (Z.ltb_spec t ts); lia.
Qed.

Lemma push_edge_ok g e : kg_ok g -> kg_ok (push_edge g e).1.
Proof.
  intros [Hn Ha Hl Hm]. unfold push_edge. cbn [fst]. set (e' := enrich (kg_event g) e).
  split; [destruct Hn as [H1 H2 H3]; split; done|by apply push_adj_ok| |].
  - set (last := if ed_to e' =? ed_from e' then _ else _).
    assert (forall v t, kg_last_edge_ts g !! v = Some t -> exists t', last !! v = Some t' /\ t <= t') as Hge.
    { intros v t Hv. unfold last. destruct (bump_ts_ge (ed_ts e') _ (ed_from e') v t Hv) as (t1 & H1 & ?).
      destruct (_ =? _); [by eauto|]. destruct (bump_ts_ge (ed_ts e') _ (ed_to e') v t1 H1) as (t2 & ? & ?).
      exists t2. split; [done|lia]. }
    assert (forall v, v = ed_from e' \/ v = ed_to e' -> exists t', last !! v = Some t' /\ ed_ts e' <= t') as Hnew.
    { intros v Hv. unfold last. destruct (Z.eqb_spec (ed_to e') (ed_from e')) as [E|E].
      - assert (v = ed_from e') as -> by (destruct Hv; congruence). apply bump_ts_new.
      - destruct Hv as [->| ->]; [|apply bump_ts_new].
        destruct (bump_ts_new (ed_ts e') (kg_last_edge_ts g) (ed_from e')) as (t1 & H1 & ?).
        destruct (bump_ts_ge (ed_ts e') _ (ed_to e') (ed_from e') t1 H1) as (t2 & ? & ?). exists t2. split; [done|lia]. }
    intros v i e0 Hi He0. cbn in Hi, He0 |- *. rewrite !adj_push in Hi.
    destruct (lookup_snoc_inv _ _ _ _ He0) as [He|[-> ->]].
    + destruct (Hl v i e0) as (t & Ht & Hle); [|done|].
      * apply lookup_lt_Some in He. destruct Hi as [Hi|Hi]; case_bool_decide; subst; auto;
          apply elem_of_app in Hi as [Hi| ->%list_elem_of_singleton]; auto; lia.
      * destruct (Hge v t Ht) as (t' & ? & ?). exists t'. split; [done|]. intros Hf. specialize (Hle Hf). lia.
    + cut (exists t', last !! v = Some t' /\ ed_ts e' <= t'); [intros (t' & ? & ?); by exists t'|]. apply Hnew. assert (forall w m (P : forall i, i ∈ adj m w -> exists e, kg_edges g !! i = Some e), length (kg_edges g) ∉ adj m w) as Hno.
      { intros w m P [e1 Hx%lookup_lt_Some]%P. lia. }
      destruct (decide (v = ed_from e')); [by left|]. destruct (decide (v = ed_to e')); [by right|].
      rewrite !bool_decide_false in Hi by done. destruct Ha as [Ho Hi' _ _ _].
      destruct Hi as [Hi|Hi]; exfalso; revert Hi; apply Hno; intros i Hx; [destruct (Ho _ _ Hx) as (? & ? & _)|destruct (Hi' _ _ Hx) as (? & ? & _)]; by eauto.
  - cbn. rewrite Hm. unfold edges_size. rewrite fmap_app, sumZ_app. cbn. lia.
Qed.

(** *** Removing a node *)

Lemma dedup_idx_cons x y r : dedup_idx (x :: y :: r) = if Nat.eqb x y then dedup_idx (y :: r) else x :: dedup_idx (y :: r).
Proof. done. Qed.

Lemma dedup_idx_elem i l : i ∈ dedup_idx l <-> i ∈ l.
Proof.
  induction l as [|x [|y r] IH]; [done|done|]. rewrite dedup_idx_cons. destruct (Nat.eqb_spec x y) as [->|].
  - rewrite IH, !elem_of_cons. naive_solver.
  - by rewrite !(elem_of_cons _ i x), IH.
Qed.

Lemma dedup_idx_NoDup l : StronglySorted Nat.le l -> NoDup (dedup_idx l).
Proof.
  induction l as [|x [|y r] IH]; intros Hs; [constructor|by apply NoDup_singleton|]. apply StronglySorted_inv in Hs as [Hs Hx].
  rewrite dedup_idx_cons. destruct (Nat.eqb_spec x y) as [->|Hne]; [by apply IH|]. apply NoDup_cons. split; [|by apply IH].
  rewrite dedup_idx_elem. intros Hin. rewrite Forall_forall in Hx. pose proof (Hx y ltac:(left)).
  apply elem_of_cons in Hin as [->|Hin]; [done|]. apply StronglySorted_inv in Hs as [_ Hy]. rewrite Forall_forall in Hy.
  specialize (Hy x Hin). lia.
Qed.

(** The positions of a node, as [remove_node] collects them. *)
Definition positions (g : KnowledgeGraph) (id : Z) : list nat :=
  dedup_idx (merge_sort Nat.le (adj (kg_outgoing g) id ++ adj (kg_incoming g) id)).

Lemma positions_elem g id i : i ∈ positions g id <-> i ∈ adj (kg_outgoing g) id \/ i ∈ adj (kg_incoming g) id.
Proof. unfold positions. rewrite dedup_idx_elem, merge_sort_Permutation, elem_of_app. done. Qed.

Lemma positions_NoDup g id : NoDup (positions g id).
Proof. apply dedup_idx_NoDup, Sorted_StronglySorted; [intros x y z; lia|]. apply (Sorted_merge_sort Nat.le). Qed.

(** The other end of the edge at a position. *)
Definition other_end (edges : list Edge) (id : Z) (i : nat) : option Z :=
  (fun e => if ed_from e =? id then ed_to e else ed_from e) <$> edges !! i.

Lemma detach_fold edges id idxs : forall o n t,
  let '(o', n', t') := foldl (detach edges id) (o, n, t) idxs in
  t' = t + Z.of_nat (length idxs) /\
  forall v, adj o' v = retain (fun i => negb (bool_decide (i ∈ idxs /\ other_end edges id i = Some v))) (adj o v) /\
            adj n' v = retain (fun i => negb (bool_decide (i ∈ idxs /\ other_end edges id i = Some v))) (adj n v).
Proof.
  induction idxs as [|i idxs IH]; intros o n t; cbn [foldl].
  { split; [cbn; lia|]. intros v. split; symmetry; apply retain_all, Forall_forall; intros j _;
      (rewrite bool_decide_false; [done|by intros [?%elem_of_nil _]]). }
  destruct (detach edges id (o, n, t) i) as [[o1 n1] t1] eqn:Ed. specialize (IH o1 n1 t1).
  destruct (foldl _ _ idxs) as [[o' n'] t']. destruct IH as [-> IH]. unfold detach in Ed.
  assert (t1 = t + 1 /\ forall v, adj o1 v = retain (fun j => negb (bool_decide (j = i /\ other_end edges id i = Some v))) (adj o v) /\
                                  adj n1 v = retain (fun j => negb (bool_decide (j = i /\ other_end edges id i = Some v))) (adj n v)) as [-> H1].
  { unfold other_end. destruct (edges !! i) as [e|]; injection Ed as <- <- <-; (split; [done|]); intros v; cbn [fmap option_fmap option_map].
    - set (w := if _ =? _ then _ else _). rewrite !adj_alter by done. unfold drop_idx. case_bool_decide as Ev.
      + subst v. split; apply List.filter_ext; intros j; f_equal; destruct (Nat.eqb_spec j i);
          [rewrite bool_decide_true by done|rewrite bool_decide_false by (by intros [? _])|
           rewrite bool_decide_true by done|rewrite bool_decide_false by (by intros [? _])]; done.
      + split; symmetry; apply retain_all, Forall_forall; intros j _; (rewrite bool_decide_false; [done|]); intros [_ [= E]]; by destruct Ev.
    - split; symmetry; apply retain_all, Forall_forall; intros j _; (rewrite bool_decide_false; [done|by intros [_ ?]]). }
  split; [cbn [length]; lia|]. intros v. destruct (IH v) as [-> ->], (H1 v) as [-> ->]. rewrite !retain_and.
  split; apply List.filter_ext; intros j; rewrite <- negb_orb; f_equal; rewrite <- bool_decide_or; apply bool_decide_ext;
    rewrite elem_of_cons; naive_solver.
Qed.

(** What is left of the adjacency lists. *)
Lemma remove_adj g id n : kg_ok g -> kg_nodes g !! id = Some n ->
  let g' := remove_node g id in
  kg_tombstoned g' = kg_tombstoned g + Z.of_nat (length (positions g id)) /\
  forall v, adj (kg_outgoing g') v = (if bool_decide (v = id) then [] else retain (fun i => negb (bool_decide (i ∈ positions g id))) (adj (kg_outgoing g) v)) /\
            adj (kg_incoming g') v = (if bool_decide (v = id) then [] else retain (fun i => negb (bool_decide (i ∈ positions g id))) (adj (kg_incoming g) v)).
Proof.
  intros Hok Hn. unfold remove_node. rewrite Hn. cbn zeta. cbn [with_nodes kg_outgoing kg_incoming kg_edges kg_tombstoned kg_last_edge_ts kg_memory].
  fold (positions g id).
  pose proof (detach_fold (kg_edges g) id (positions g id) (delete id (kg_outgoing g)) (delete id (kg_incoming g)) (kg_tombstoned g)) as Hf.
  destruct (foldl _ _ _) as [[o' n'] t']. destruct Hf as [-> Hf]. split; [done|]. cbn [with_edges kg_outgoing kg_incoming].
  intros v. destruct (Hf v) as [-> ->]. rewrite !adj_delete. case_bool_decide as Ev; [done|].
  destruct (ok_adj _ Hok) as [Ho Hi Hs _ _].
  split; apply retain_ext_in; intros i Hin; f_equal; apply bool_decide_ext; (split; [by intros [? _]|]); intros Hp; (split; [done|]).
  - destruct (Ho _ _ Hin) as (e & He & Hv). unfold other_end. rewrite He. cbn. destruct (Z.eqb_spec (ed_from e) id); congruence.
  - destruct (Hi _ _ Hin) as (e & He & Hv). unfold other_end. rewrite He. cbn. destruct (Z.eqb_spec (ed_from e) id); [congruence|].
    f_equal. exfalso. apply positions_elem in Hp as [Hp|Hp].
    + destruct (Ho _ _ Hp) as (e' & He' & Hv'). congruence.
    + destruct (Hi _ _ Hp) as (e' & He' & Hv'). congruence.
Qed.

(** The fields of a graph without one of its nodes. *)
Lemma remove_fields g id n : kg_nodes g !! id = Some n ->
  let g' := remove_node g id in
  kg_nodes g' = delete id (kg_nodes g) /\ kg_edges g' = kg_edges g /\ kg_index g' = deindex_node (kg_index g) id n /\
  kg_threat_intel g' = kg_threat_intel g ∖ {[id]} /\ kg_next_id g' = kg_next_id g /\ kg_last_edge_ts g' = delete id (kg_last_edge_ts g) /\
  kg_memory g' = saturating_sub (kg_memory g) (estimate_node_size n) /\ kg_max_memory g' = kg_max_memory g /\ kg_created_at g' = kg_created_at g.
Proof. intros Hn. unfold remove_node. rewrite Hn. by destruct (foldl _ _ _) as [[o' n'] t']. Qed.

Lemma remove_none g id : kg_nodes g !! id = None -> remove_node g id = g.
Proof. intros Hn. unfold remove_node. by rewrite Hn. Qed.

Lemma deindex_eq g id n : nodes_ok g -> kg_nodes g !! id = Some n -> deindex_node (kg_index g) id n = delete (node_key n) (kg_index g).
Proof.
  intros Hok Hn. destruct n; try done. cbn. rewrite bool_decide_true; [done|]. apply (no_index _ Hok). by eexists.
Qed.

Lemma remove_nodes_ok g id n : kg_ok g -> kg_nodes g !! id = Some n -> nodes_ok (remove_node g id).
Proof.
  intros Hok Hn. destruct (remove_fields g id n Hn) as (En & _ & Ei & Et & Ex & _). pose proof (ok_nodes _ Hok) as Hno.
  rewrite (deindex_eq _ _ _ Hno Hn) in Ei. destruct Hno as [Hfr Hix Hth].
  assert (forall k id', kg_index g !! k = Some id' -> id' = id -> k = node_key n) as Hk.
  { intros k id' (n' & Hn' & <-)%Hix ->. congruence. }
  split; rewrite ?En, ?Ei, ?Et, ?Ex.
  - intros id' [n' [_ Hn']%lookup_delete_Some]. apply Hfr. by eexists.
  - intros k id'. rewrite lookup_delete_Some. setoid_rewrite lookup_delete_Some. rewrite Hix. split.
    + intros (Hne & n' & Hn' & <-). exists n'. split; [|done]. split; [|done]. intros <-. apply Hne. congruence.
    + intros (n' & (Hne & Hn') & <-). split; [|by eexists]. intros Hk'. apply Hne.
      assert (kg_index g !! node_key n = Some id) as E1 by (apply Hix; by eexists).
      assert (kg_index g !! node_key n' = Some id') as E2 by (apply Hix; by eexists). rewrite Hk' in E1. congruence.
  - intros id'. setoid_rewrite lookup_delete_Some. rewrite elem_of_difference, elem_of_singleton, Hth. split.
    + intros ((n' & Hn' & Hd) & Hne). exists n'. split; [split; [by intros ->|done]|done].
    + intros (n' & (Hne & Hn') & Hd). split; [by eexists|by intros ->].
Qed.

(** A listed position of a removed node's edge is one of the node's. *)
Lemma positions_edge g id i e : kg_ok g -> kg_edges g !! i = Some e -> i ∈ adj (kg_outgoing g) (ed_from e) ->
  i ∈ positions g id <-> ed_from e = id \/ ed_to e = id.
Proof.
  intros Hok He Hin. rewrite positions_elem. destruct (ok_adj _ Hok) as [Ho Hi Hs _ _]. split.
  - intros [(e' & He' & Hv)%Ho|(e' & He' & Hv)%Hi]; [left|right]; congruence.
  - intros [<-|<-]; [by left|right]. by apply (Hs i e).
Qed.

Lemma remove_adj_ok g id n : kg_ok g -> kg_nodes g !! id = Some n ->
  let g' := remove_node g id in adj_ok (kg_edges g') (kg_outgoing g') (kg_incoming g') (kg_tombstoned g').
Proof.
  intros Hok Hn g'. destruct (remove_adj g id n Hok Hn) as [Et Ha]. fold g' in Et, Ha.
  destruct (remove_fields g id n Hn) as (_ & Ee & _). fold g' in Ee. rewrite Ee.
  assert (forall v i, i ∈ adj (kg_outgoing g') v <-> v <> id /\ i ∈ adj (kg_outgoing g) v /\ (i ∉ positions g id)) as Ho'.
  { intros v i. destruct (Ha v) as [-> _]. case_bool_decide; [split; [by intros ?%elem_of_nil|by intros [? _]]|].
    rewrite retain_elem, negb_true_iff, bool_decide_eq_false. tauto. }
  assert (forall v i, i ∈ adj (kg_incoming g') v <-> v <> id /\ i ∈ adj (kg_incoming g) v /\ (i ∉ positions g id)) as Hi'.
  { intros v i. destruct (Ha v) as [_ ->]. case_bool_decide; [split; [by intros ?%elem_of_nil|by intros [? _]]|].
    rewrite retain_elem, negb_true_iff, bool_decide_eq_false. tauto. }
  destruct (ok_adj _ Hok) as [Ho Hi Hs Hd (dead & Hd1 & Hd2 & Hd3)]. split.
  - intros v i (_ & Hin & _)%Ho'. by apply Ho.
  - intros v i (_ & Hin & _)%Hi'. by apply Hi.
  - intros i e He. rewrite Ho', Hi', <- (Hs i e He). split.
    + intros (Hf & Hin & Hp). split_and!; [|done|done]. intros <-. apply Hp, (positions_edge g _ i e Hok He Hin). by right.
    + intros (Hf & Hin & Hp). split_and!; [|done|done]. intros <-. apply Hp, (positions_edge g _ i e Hok He Hin). by left.
  - intros v. destruct (Ha v) as [-> ->]. case_bool_decide; [split; constructor|]. split; apply retain_NoDup, Hd.
  - exists (dead ++ positions g id). split_and!.
    + apply NoDup_app. split; [done|]. split; [|apply positions_NoDup]. intros i (e & He & Hno)%Hd3 Hp. apply positions_elem in Hp as [Hp|Hp].
      * destruct (Ho _ _ Hp) as (e' & He' & <-). congruence.
      * destruct (Hi _ _ Hp) as (e' & He' & <-). assert (e' = e) as -> by congruence. by apply Hno, Hs.
    + rewrite length_app. lia.
    + intros i. rewrite elem_of_app. split.
      * intros [(e & He & Hno)%Hd3|Hp].
        -- exists e. split; [done|]. rewrite Ho'. by intros (_ & ? & _).
        -- pose proof Hp as [Hp'|Hp']%positions_elem; [destruct (Ho _ _ Hp') as (e & He & Hv)|destruct (Hi _ _ Hp') as (e & He & Hv)];
             (exists e; split; [done|]; rewrite Ho'; by intros (_ & _ & ?)).
      * intros (e & He & Hno). rewrite Ho' in Hno. destruct (decide (i ∈ positions g id)) as [|Hp]; [by right|left].
        apply Hd3. exists e. split; [done|]. intros Hin. apply Hno. split_and!; [|done|done].
        intros <-. apply Hp, (positions_edge g _ i e Hok He Hin). by left.
Qed.

Lemma remove_node_ok g id : kg_ok g -> kg_ok (remove_node g id).
Proof.
  intros Hok. destruct (kg_nodes g !! id) as [n|] eqn:Hn; [|by rewrite remove_none].
  split; [by eapply remove_nodes_ok|by eapply remove_adj_ok| |].
  - destruct (remove_adj g id n Hok Hn) as [_ Ha]. destruct (remove_fields g id n Hn) as (_ & Ee & _ & _ & _ & El & _).
    intros v i e Hi He. rewrite Ee in He. rewrite El. destruct (Ha v) as [Ho Hin]. rewrite Ho, Hin in Hi. case_bool_decide as Ev.
    { by destruct Hi as [?%elem_of_nil|?%elem_of_nil]. }
    rewrite lookup_delete_ne by done. apply (ok_last _ Hok v i e); [|done]. rewrite !retain_elem in Hi. tauto.
  - destruct (remove_fields g id n Hn) as (-> & -> & _ & _ & _ & _ & -> & _). rewrite (ok_memory _ Hok), (nodes_size_delete _ id n Hn).
    pose proof (nodes_size_nonneg (delete id (kg_nodes g))). pose proof (edges_size_nonneg (kg_edges g)).
    unfold saturating_sub. pose proof (estimate_node_pos n). lia.
Qed.

Lemma edges_at_retain edges (p : nat -> bool) (q : Edge -> bool) l :
  (forall i e, i ∈ l -> edges !! i = Some e -> p i = q e) -> edges_at edges (retain p l) = retain q (edges_at edges l).
Proof.
  unfold edges_at, retain. induction l as [|i l IH]; intros H; [done|]. cbn.
  specialize (IH ltac:(intros j e Hj; apply H; by right)). specialize (H i).
  destruct (edges !! i) as [e|] eqn:He; cbn.
  - rewrite (H e ltac:(left) eq_refl). destruct (q e); cbn; [rewrite He|]; by rewrite IH.
  - destruct (p i); cbn; [rewrite He|]; by rewrite IH.
Qed.

Definition touches (id : Z) (e : Edge) : bool := (ed_from e =? id) || (ed_to e =? id).

(** Removing a node takes away the node, what finds it and its edges at both
    ends; every other node keeps its other edges in their order. *)
Theorem remove_node_exact (g : KnowledgeGraph) (id : Z) : kg_ok g -> is_Some (kg_nodes g !! id) ->
  let g' := remove_node g id in
  kg_nodes g' = delete id (kg_nodes g) /\
  (forall k, kg_index g' !! k = if bool_decide (kg_index g !! k = Some id) then None else kg_index g !! k) /\
  (forall v, outgoing_edges g' v = retain (fun e => negb (touches id e)) (outgoing_edges g v) /\
             incoming_edges g' v = retain (fun e => negb (touches id e)) (incoming_edges g v)).
Proof.
  intros Hok [n Hn] g'. destruct (remove_fields g id n Hn) as (En & Ee & Ei & _). fold g' in En, Ee, Ei.
  destruct (remove_adj g id n Hok Hn) as [_ Ha]. fold g' in Ha. split; [done|]. split.
  - intros k. rewrite Ei, (deindex_eq _ _ _ (ok_nodes _ Hok) Hn). pose proof (no_index _ (ok_nodes _ Hok)) as Hix. case_bool_decide as Hk.
    + apply Hix in Hk as (n' & Hn' & <-). rewrite Hn in Hn'. injection Hn' as ->. apply lookup_delete_eq.
    + rewrite lookup_delete_ne; [done|]. intros <-. apply Hk, Hix. by eexists.
  - intros v. unfold outgoing_edges, incoming_edges. rewrite Ee. destruct (Ha v) as [-> ->]. destruct (ok_adj _ Hok) as [Ho Hi Hs _ _].
    assert (forall i e, i ∈ adj (kg_outgoing g) v \/ i ∈ adj (kg_incoming g) v -> kg_edges g !! i = Some e ->
      bool_decide (i ∈ positions g id) = touches id e) as Ht.
    { intros i e Hv He. assert (i ∈ adj (kg_outgoing g) (ed_from e)) as Hin.
      { destruct Hv as [Hv|Hv]; [destruct (Ho _ _ Hv) as (e' & He' & <-)|destruct (Hi _ _ Hv) as (e' & He' & <-)];
          assert (e' = e) as -> by congruence; [done|by apply (Hs i e)]. }
      apply eq_true_iff_eq. rewrite bool_decide_eq_true, (positions_edge g id i e Hok He Hin). unfold touches.
      rewrite orb_true_iff, !Z.eqb_eq. done. }
    case_bool_decide as Ev.
    + subst v. split; symmetry; apply list_filter_none; intros e Hin; apply list_elem_of_omap in Hin as (i & Hi1 & He);
        apply negb_false_iff; rewrite <- (Ht i e) by auto; apply bool_decide_true, positions_elem; auto.
    + split; apply edges_at_retain; intros i e Hin He; f_equal; apply Ht; auto.
Qed.

(** *** Compaction *)

(** After the first [k] of the edges [all]: where the live ones went. *)
Record moved (alive : gset nat) (all : list Edge) (k : nat) (new : list Edge) (m : gmap nat nat) : Prop := {
  mv_some i j : m !! i = Some j -> (i < k)%nat /\ i ∈ alive /\ (j < length new)%nat /\ new !! j = all !! i;
  mv_live i : (i < k)%nat -> i ∈ alive -> is_Some (m !! i);
  mv_inj i i' j : m !! i = Some j -> m !! i' = Some j -> i = i';
  mv_onto j : (j < length new)%nat -> exists i, m !! i = Some j;
}.

Lemma moved_step alive all k new m e : moved alive all k new m -> all !! k = Some e ->
  if bool_decide (k ∈ alive) then moved alive all (S k) (new ++ [e]) (<[k := length new]> m) else moved alive all (S k) new m.
Proof.
  intros [Hs Hl Hi Ho] He. case_bool_decide as Hk.
  - assert (forall i j, m !! i = Some j -> i <> k) as Hne by (intros i j Hm ->; destruct (Hs _ _ Hm); lia).
    split.
    + intros i j. rewrite lookup_insert_Some, length_app. cbn. intros [[<- <-]|[Hd Hm]].
      * split_and!; [lia|done|lia|]. rewrite lookup_app_r, Nat.sub_diag by lia. done.
      * destruct (Hs _ _ Hm) as (? & ? & ? & Hx). split_and!; [lia|done|lia|]. rewrite lookup_app_l by done. done.
    + intros i Hik Hin. destruct (decide (i = k)) as [->|]; [rewrite lookup_insert_eq; by eexists|].
      rewrite lookup_insert_ne by done. apply Hl; [lia|done].
    + intros i i' j. rewrite !lookup_insert_Some. intros [[<- <-]|[Hd Hm]] [[<- E]|[Hd' Hm']]; [done| | |by eapply Hi].
      * destruct (Hs _ _ Hm') as (_ & _ & ? & _). lia.
      * subst j. destruct (Hs _ _ Hm) as (_ & _ & ? & _). lia.
    + intros j. rewrite length_app. cbn. intros Hj. destruct (decide (j = length new)) as [->|]; [exists k; apply lookup_insert_eq|].
      destruct (Ho j ltac:(lia)) as [i Hm]. exists i. rewrite lookup_insert_ne; [done|]. intros <-. by apply (Hne _ _ Hm).
  - split.
    + intros i j Hm. destruct (Hs _ _ Hm) as (? & ?). split; [lia|done].
    + intros i Hik Hin. apply Hl; [|done]. assert (i <> k) by (by intros ->). lia.
    + done.
    + done.
Qed.

Lemma compact_moved alive all es : forall k new m mem, drop k all = es -> moved alive all k new m ->
  edges_size es <= mem -> length all = (k + length es)%nat ->
  let '(new', m', mem') := compact_from alive k es new m mem in
  moved alive all (length all) new' m' /\ mem' + edges_size new + edges_size es = mem + edges_size new'.
Proof.
  induction es as [|e es IH]; intros k new m mem Hd Hmv Hmem Hlen; cbn [compact_from length] in *.
  - replace (length all) with k by lia. split; [done|]. unfold edges_size at 2. cbn. lia.
  - assert (all !! k = Some e) as He by (rewrite <- (Nat.add_0_r k), <- lookup_drop, Hd; done).
    assert (drop (S k) all = es) as Hd' by (rewrite <- Nat.add_1_r, <- drop_drop, Hd; done).
    assert (edges_size (e :: es) = estimate_edge_size e + edges_size es) as Hsz by done. rewrite Hsz in Hmem |- *.
    pose proof (moved_step _ _ _ _ _ e Hmv He) as Hst. pose proof (edges_size_nonneg es). pose proof (edge_size_pos e).
    case_bool_decide as Hk.
    + specialize (IH (S k) _ _ mem Hd' Hst ltac:(lia) ltac:(lia)). destruct (compact_from _ _ _ _ _ _) as [[new' m'] mem'].
      destruct IH as [H1 H2]. split; [done|]. unfold edges_size at 1 in H2. rewrite fmap_app, sumZ_app in H2. cbn in H2.
      fold (edges_size new) in H2. lia.
    + specialize (IH (S k) _ _ (saturating_sub mem (estimate_edge_size e)) Hd' Hst). unfold saturating_sub in *.
      specialize (IH ltac:(lia) ltac:(lia)). destruct (compact_from _ _ _ _ _ _) as [[new' m'] mem']. destruct IH as [H1 H2]. split; [done|lia].
Qed.

Lemma live_elem g i : i ∈ live g <-> exists v, i ∈ adj (kg_outgoing g) v.
Proof.
  unfold live. rewrite elem_of_list_to_set, list_elem_of_In, in_concat. setoid_rewrite <- list_elem_of_In. split.
  - intros (l & ([v l'] & -> & Hv)%list_elem_of_fmap & Hi). apply elem_of_map_to_list in Hv. exists v. unfold adj. cbn in Hi. by rewrite Hv.
  - intros (v & Hi). unfold adj in Hi. destruct (kg_outgoing g !! v) as [l|] eqn:Hv; [|by apply elem_of_nil in Hi].
    exists l. split; [|done]. apply list_elem_of_fmap. exists (v, l). split; [done|]. by apply elem_of_map_to_list.
Qed.

Lemma adj_remap m o v : adj (remap m <$> o) v = remap m (adj o v).
Proof. unfold adj. rewrite lookup_fmap. by destruct (o !! v). Qed.

Lemma remap_elem m l j : j ∈ remap m l <-> exists i, i ∈ l /\ m !! i = Some j.
Proof. unfold remap. apply list_elem_of_omap. Qed.

(** What compaction does to a well-formed graph. *)
Lemma compacted_spec g : kg_ok g -> exists m, moved (live g) (kg_edges g) (length (kg_edges g)) (kg_edges (compacted g)) m /\
  kg_outgoing (compacted g) = remap m <$> kg_outgoing g /\ kg_incoming (compacted g) = remap m <$> kg_incoming g /\
  kg_nodes (compacted g) = kg_nodes g /\ kg_index (compacted g) = kg_index g /\ kg_threat_intel (compacted g) = kg_threat_intel g /\
  kg_next_id (compacted g) = kg_next_id g /\ kg_last_edge_ts (compacted g) = kg_last_edge_ts g /\ kg_tombstoned (compacted g) = 0 /\
  kg_memory (compacted g) = nodes_size (kg_nodes g) + edges_size (kg_edges (compacted g)).
Proof.
  intros Hok. unfold compacted. pose proof (ok_memory _ Hok) as Hm. pose proof (nodes_size_nonneg (kg_nodes g)) as Hn.
  pose proof (compact_moved (live g) (kg_edges g) (kg_edges g) 0 [] ∅ (kg_memory g) eq_refl) as Hc.
  destruct (compact_from _ _ _ _ _ _) as [[new m] mem]. exists m. cbn. destruct Hc as [Hmv Hs]; [..|lia|done|].
  - split; [intros i j Hx; by rewrite lookup_empty in Hx|lia|intros i i' j Hx; by rewrite lookup_empty in Hx|cbn; lia].
  - change (edges_size []) with 0 in Hs. split; [done|]. split_and!; try done. lia.
Qed.

Lemma remap_NoDup (m : gmap nat nat) l : (forall i i' j, m !! i = Some j -> m !! i' = Some j -> i = i') -> NoDup l -> NoDup (remap m l).
Proof.
  intros Hinj. unfold remap. induction 1 as [|i l Hi Hl IH]; cbn; [constructor|]. destruct (m !! i) as [j|] eqn:Ej; cbn; [|done].
  apply NoDup_cons. split; [|done]. intros (i' & Hi' & Ej')%list_elem_of_omap. apply Hi. by rewrite (Hinj i i' j Ej Ej').
Qed.

Lemma compacted_ok g : kg_ok g -> kg_ok (compacted g).
Proof.
  intros Hok. destruct (compacted_spec g Hok) as (m & [Hs Hl Hi Hon] & Eo & Ei & En & Ex & Et & Ef & El & Etb & Em).
  destruct Hok as [[H1 H2 H3] [Ho Hin Hsy Hnd _] Hla _]. split.
  - split; rewrite ?En, ?Ex, ?Et, ?Ef; done.
  - rewrite Etb. split.
    + intros v j. rewrite Eo, adj_remap, remap_elem. intros (i & Hv & Hj). destruct (Hs _ _ Hj) as (_ & _ & _ & ->). by apply Ho.
    + intros v j. rewrite Ei, adj_remap, remap_elem. intros (i & Hv & Hj). destruct (Hs _ _ Hj) as (_ & _ & _ & ->). by apply Hin.
    + intros j e He. rewrite Eo, Ei, !adj_remap, !remap_elem. pose proof (lookup_lt_Some _ _ _ He) as Hlt. split; intros (i & Hv & Hj);
        destruct (Hs _ _ Hj) as (_ & _ & _ & E); rewrite He in E; exists i; (split; [|done]); by apply (Hsy i e).
    + intros v. rewrite Eo, Ei, !adj_remap. split; (apply remap_NoDup; [exact Hi|apply Hnd]).
    + exists []. split; [constructor|]. split; [done|]. intros j. split; [by intros ?%elem_of_nil|].
      intros (e & He & Hno). exfalso. apply Hno. rewrite Eo, adj_remap, remap_elem.
      destruct (Hon j (lookup_lt_Some _ _ _ He)) as [i Hj]. exists i. split; [|done]. destruct (Hs _ _ Hj) as (_ & Ha & _ & E).
      apply live_elem in Ha as [v Hv]. destruct (Ho _ _ Hv) as (e' & He' & <-). congruence.
  - intros v j e. rewrite Eo, Ei, !adj_remap, !remap_elem, El. intros Hv He.
    assert (exists i, (i ∈ adj (kg_outgoing g) v \/ i ∈ adj (kg_incoming g) v) /\ m !! i = Some j) as (i & Hi' & Hj) by naive_solver.
    destruct (Hs _ _ Hj) as (_ & _ & _ & E). apply (Hla v i e Hi'). congruence.
  - rewrite Em, En. done.
Qed.

Lemma edges_at_remap (m : gmap nat nat) all new l : (forall i, i ∈ l -> exists j, m !! i = Some j /\ new !! j = all !! i) ->
  edges_at new (remap m l) = edges_at all l.
Proof.
  unfold edges_at, remap. induction l as [|i l IH]; intros H; [done|]. cbn.
  destruct (H i ltac:(left)) as (j & -> & Hj). cbn. rewrite Hj. rewrite IH; [done|]. intros i' Hi'. apply H. by right.
Qed.

(** C39. Compaction changes no node, no index and no edge of any node at either end;
    what is left are exactly the listed edges, and the estimate is theirs. *)
Theorem compaction_invisible (g : KnowledgeGraph) : kg_ok g ->
  let g' := compact_edges_force g in
  kg_nodes g' = kg_nodes g /\ kg_index g' = kg_index g /\
  (forall v, outgoing_edges g' v = outgoing_edges g v /\ incoming_edges g' v = incoming_edges g v) /\
  (forall e, e ∈ kg_edges g' -> e ∈ outgoing_edges g (ed_from e)) /\
  kg_memory g' = nodes_size (kg_nodes g) + edges_size (kg_edges g').
Proof.
  intros Hok. unfold compact_edges_force. pose proof (ok_adj _ Hok) as [Ho Hin Hsy _ (dead & Hd1 & Hd2 & Hd3)].
  assert (kg_tombstoned g = 0 -> forall e, e ∈ kg_edges g -> e ∈ outgoing_edges g (ed_from e)) as Hall.
  { intros Hz e (i & He)%list_elem_of_lookup. apply list_elem_of_omap. exists i. split; [|done].
    destruct (decide (i ∈ adj (kg_outgoing g) (ed_from e))) as [|Hno]; [done|]. exfalso.
    assert (i ∈ dead) as Hx by (apply Hd3; by eexists). destruct dead; [by apply elem_of_nil in Hx|cbn in Hd2; lia]. }
  destruct (_ || _) eqn:Eb.
  { split_and!; try done; [|by apply ok_memory]. apply orb_true_iff in Eb as [Eb|Eb%Z.eqb_eq]; [|by apply Hall].
    destruct (kg_edges g); [by intros e ?%elem_of_nil|done]. }
  destruct (compacted_spec g Hok) as (m & [Hs Hl Hi Hon] & Eo & Ei & En & Ex & _ & _ & _ & _ & Em). split_and!; [done|done| | |done].
  - intros v. unfold outgoing_edges, incoming_edges. rewrite Eo, Ei, !adj_remap.
    assert (forall i, i ∈ live g -> (i < length (kg_edges g))%nat -> exists j, m !! i = Some j /\ kg_edges (compacted g) !! j = kg_edges g !! i) as Hmv.
    { intros i Hi' Hlt. destruct (Hl i Hlt Hi') as [j Hj]. exists j. split; [done|]. by destruct (Hs _ _ Hj) as (_ & _ & _ & ?). }
    split; apply edges_at_remap; intros i Hv.
    + apply Hmv; [apply live_elem; by exists v|]. destruct (Ho _ _ Hv) as (e & He & _). by apply lookup_lt_Some in He.
    + destruct (Hin _ _ Hv) as (e & He & <-). apply Hmv; [|by apply lookup_lt_Some in He]. apply live_elem. exists (ed_from e). by apply (Hsy i e).
  - intros e (j & He)%list_elem_of_lookup. destruct (Hon j (lookup_lt_Some _ _ _ He)) as [i Hj].
    destruct (Hs _ _ Hj) as (_ & Ha & _ & E). apply live_elem in Ha as [v Hv].
    destruct (Ho _ _ Hv) as (e' & He' & <-). assert (e' = e) as -> by congruence. apply list_elem_of_omap. exists i. split; [done|]. congruence.
Qed.

Lemma compact_force_ok g : kg_ok g -> kg_ok (compact_edges_force g).
Proof. intros Hok. unfold compact_edges_force. destruct (_ || _); [done|]. by apply compacted_ok. Qed.

Lemma compact_edges_ok g : kg_ok g -> kg_ok (compact_edges g).
Proof. intros Hok. unfold compact_edges. destruct (_ || _); [done|]. destruct (f_ltb _ _); [done|]. by apply compacted_ok. Qed.

(** *** Removing several nodes *)

Lemma removes_fields ids : forall g, let g' := foldl remove_node g ids in
  kg_edges g' = kg_edges g /\ kg_max_memory g' = kg_max_memory g /\ kg_created_at g' = kg_created_at g /\
  forall id, kg_nodes g' !! id = if bool_decide (id ∈ ids) then None else kg_nodes g !! id.
Proof.
  induction ids as [|i ids IH]; intros g; cbn [foldl].
  { done. }
  destruct (IH (remove_node g i)) as (E1 & E2 & E3 & E4). cbn zeta. rewrite E1, E2, E3.
  assert (kg_edges (remove_node g i) = kg_edges g /\ kg_max_memory (remove_node g i) = kg_max_memory g /\
    kg_created_at (remove_node g i) = kg_created_at g /\ kg_nodes (remove_node g i) = delete i (kg_nodes g)) as (-> & -> & -> & En).
  { destruct (kg_nodes g !! i) as [n|] eqn:Hn.
    - destruct (remove_fields g i n Hn) as (? & ? & _ & _ & _ & _ & _ & ? & ?). done.
    - rewrite remove_none by done. split_and!; try done. by rewrite delete_id. }
  split_and!; try done. intros id. rewrite E4, En, lookup_delete. destruct (decide (id = i)) as [->|Hne].
  - rewrite decide_True by done. rewrite (bool_decide_true (i ∈ i :: ids)) by left. by case_bool_decide.
  - rewrite decide_False by done. rewrite (bool_decide_ext (id ∈ i :: ids) (id ∈ ids)); [done|]. rewrite elem_of_cons. naive_solver.
Qed.

Lemma removes_ok ids g : kg_ok g -> kg_ok (foldl remove_node g ids).
Proof. revert g. induction ids as [|i ids IH]; intros g Hok; [done|]. by apply IH, remove_node_ok. Qed.

Section upkeep_proofs.
Context `{HashOrder}.

Lemma hash_iter_elem (m : gmap Z Node) id n : (id, n) ∈ hash_iter m <-> m !! id = Some n.
Proof. rewrite hash_iter_perm. apply elem_of_map_to_list. Qed.

(** Clean-up removes exactly the nodes that had expired when it began. *)
Theorem graph_cleanup_exact (g : KnowledgeGraph) (now id : Z) :
  kg_nodes (cleanup_expired g now) !! id =
  (n ← kg_nodes g !! id; if is_expired g id n now then None else Some n).
Proof.
  unfold cleanup_expired. destruct (removes_fields (retain (fun kv => is_expired g kv.1 kv.2 now) (hash_iter (kg_nodes g))).*1 g) as (_ & _ & _ & ->).
  assert (id ∈ (retain (fun kv => is_expired g kv.1 kv.2 now) (hash_iter (kg_nodes g))).*1 <->
    exists n, kg_nodes g !! id = Some n /\ is_expired g id n now = true) as E.
  { rewrite list_elem_of_fmap. setoid_rewrite retain_elem. split.
    - intros ([id' n] & -> & Hin%hash_iter_elem & Hx). by exists n.
    - intros (n & Hn & Hx). exists (id, n). split; [done|]. by rewrite hash_iter_elem. }
  destruct (kg_nodes g !! id) as [n|] eqn:Hn; cbn.
  - destruct (is_expired g id n now) eqn:Ex.
    + rewrite bool_decide_true; [done|]. apply E. by exists n.
    + rewrite bool_decide_false; [done|]. intros (n' & [= <-] & ?)%E. congruence.
  - by case_bool_decide.
Qed.

Lemma evict_steps ids : forall g, exists k, evict g ids = foldl remove_node g (take k ids) /\
  (kg_memory (evict g ids) <= kg_max_memory g \/ (length ids <= k)%nat).
Proof.
  induction ids as [|i ids IH]; intros g; cbn [evict]; [exists 0%nat; split; [done|right; cbn; lia]|].
  destruct (Z.leb_spec (kg_memory g) (kg_max_memory g)); [exists 0%nat; split; [done|by left]|].
  destruct (IH (remove_node g i)) as (k & E & Hk). exists (S k). split; [exact E|].
  destruct (removes_fields [i] g) as (_ & Em & _). cbn [foldl] in Em. rewrite Em in Hk. destruct Hk; [by left|right; cbn; lia].
Qed.

Lemma candidates_elem g id : id ∈ candidates g <-> exists n, kg_nodes g !! id = Some n /\ is_system n = false.
Proof.
  unfold candidates. rewrite merge_sort_Permutation, list_elem_of_fmap. setoid_rewrite retain_elem. split.
  - intros ([id' n] & -> & Hin%hash_iter_elem & Hs%negb_true_iff). by exists n.
  - intros (n & Hn & Hs). exists (id, n). split; [done|]. rewrite hash_iter_elem. cbn. by rewrite Hs.
Qed.

#[local] Instance activity_trans g : Transitive (activity_le g).
Proof. intros x y z. unfold activity_le. lia. Qed.
#[local] Instance activity_total g : Total (activity_le g).
Proof. intros x y. unfold activity_le. lia. Qed.

Lemma candidates_sorted g : StronglySorted (activity_le g) (candidates g).
Proof. unfold candidates. apply (StronglySorted_merge_sort (activity_le g)). Qed.

Lemma sorted_take_le {A} (R : A -> A -> Prop) k l x y : StronglySorted R l -> x ∈ take k l -> y ∈ drop k l -> R x y.
Proof. intros Hs Hx Hy. rewrite <- (take_drop k l) in Hs. apply StronglySorted_app in Hs as (Hs & _). by apply Hs. Qed.

(** Over the limit, the nodes that have been quiet longest are removed first, the
    System node never, until the estimate is within the limit or nothing but
    the System node is left. *)
Theorem evicts_oldest (g : KnowledgeGraph) :
  let g' := enforce_memory_limit g in
  (forall id n, kg_nodes g !! id = Some n -> is_system n = true -> kg_nodes g' !! id = Some n) /\
  (forall id n, kg_nodes g' !! id = Some n -> kg_nodes g !! id = Some n) /\
  (forall id id' n, is_Some (kg_nodes g !! id) -> kg_nodes g' !! id = None -> kg_nodes g' !! id' = Some n -> is_system n = false ->
     last_activity g id <= last_activity g id') /\
  (kg_memory g' <= kg_max_memory g \/ forall id n, kg_nodes g' !! id = Some n -> is_system n = true).
Proof.
  unfold enforce_memory_limit. destruct (Z.leb_spec (kg_memory g) (kg_max_memory g)) as [Hle|Hgt]; cbn zeta.
  { split_and!; [done|done| |by left]. intros id id' n [x Hx]. congruence. }
  destruct (evict_steps (candidates g) g) as (k & E & Hk). rewrite E in *.
  destruct (removes_fields (take k (candidates g)) g) as (_ & _ & _ & En).
  assert (forall id, id ∈ take k (candidates g) -> id ∈ candidates g) as Hsub.
  { intros id Hin. rewrite <- (take_drop k (candidates g)), elem_of_app. by left. }
  split_and!.
  - intros id n Hn Hs. rewrite En, bool_decide_false; [done|]. intros (n' & Hn' & Hs')%Hsub%candidates_elem. congruence.
  - intros id n. rewrite En. by case_bool_decide.
  - intros id id' n [n0 Hn0] Hgone Hkept Hsys. rewrite En in Hgone, Hkept.
    destruct (bool_decide_reflect (id ∈ take k (candidates g))) as [Hin|]; [|congruence].
    destruct (bool_decide_reflect (id' ∈ take k (candidates g))) as [|Hout]; [done|]. assert (id' ∈ candidates g) as Hc by (apply candidates_elem; by exists n).
    rewrite <- (take_drop k (candidates g)), elem_of_app in Hc. destruct Hc as [?|Hc]; [done|].
    exact (sorted_take_le (activity_le g) k (candidates g) id id' (candidates_sorted g) Hin Hc).
  - destruct Hk as [Hk|Hk]; [by left|right]. intros id n. rewrite En, take_ge by done. case_bool_decide as Hin; [done|].
    intros Hn. destruct (is_system n) eqn:Es; [done|]. destruct Hin. apply candidates_elem. by exists n.
Qed.

(** The estimate counts the edges of removed nodes until the next compaction,
    which comes after the eviction: when the edges alone are over the limit
    every node but the System node is evicted, however few would do. *)
Theorem edges_evict_everything (g : KnowledgeGraph) : kg_ok g -> kg_max_memory g < edges_size (kg_edges g) ->
  forall id n, kg_nodes (enforce_memory_limit g) !! id = Some n -> is_system n = true.
Proof.
  intros Hok Hover id n. unfold enforce_memory_limit. pose proof (nodes_size_nonneg (kg_nodes g)) as Hn0.
  destruct (Z.leb_spec (kg_memory g) (kg_max_memory g)) as [Hle|Hgt].
  { rewrite (ok_memory _ Hok) in Hle. lia. }
  destruct (evict_steps (candidates g) g) as (k & E & Hk). rewrite E in *. pose proof (removes_ok (take k (candidates g)) g Hok) as Hok'.
  destruct (removes_fields (take k (candidates g)) g) as (Ee & _ & _ & En). destruct Hk as [Hk|Hk].
  - rewrite (ok_memory _ Hok'), Ee in Hk. pose proof (nodes_size_nonneg (kg_nodes (foldl remove_node g (take k (candidates g))))). lia.
  - rewrite En, take_ge by done. case_bool_decide as Hin; [done|]. intros Hn. destruct (is_system n) eqn:Es; [done|].
    destruct Hin. apply candidates_elem. by exists n.
Qed.

Lemma enforce_ok g : kg_ok g -> kg_ok (enforce_memory_limit g).
Proof.
  intros Hok. unfold enforce_memory_limit. destruct (_ <=? _); [done|]. destruct (evict_steps (candidates g) g) as (k & -> & _).
  by apply removes_ok.
Qed.

Lemma cleanup_ok g now : kg_ok g -> kg_ok (cleanup_expired g now).
Proof. apply removes_ok. Qed.

Lemma graph_upkeep_ok g now : kg_ok g -> kg_ok (graph_upkeep g now).
Proof. intros Hok. by apply compact_force_ok, enforce_ok, cleanup_ok. Qed.

End upkeep_proofs.

Lemma KnowledgeGraph_new_ok now : kg_ok (KnowledgeGraph_new now).
Proof.
  split; [split| | |done]; cbn.
  - intros id [n Hn]. by rewrite lookup_empty in Hn.
  - intros k id. rewrite lookup_empty. split; [done|]. intros (n & Hn & _). by rewrite lookup_empty in Hn.
  - intros id. split; [set_solver|]. intros (n & Hn & _). by rewrite lookup_empty in Hn.
  - assert (forall v, adj ∅ v = []) as E by (intros v; unfold adj; by rewrite lookup_empty).
    split; [..|exists []; split_and!; [constructor|done|]]; try (intros *; rewrite E; by intros ?%elem_of_nil); try done.
    + intros v. rewrite E. split; constructor.
    + intros i. split; [by intros ?%elem_of_nil|by intros (e & ? & _)].
  - intros v i e _ He. done.
Qed.

(** ** What the keys tell apart *)

(** The public addresses from 172.200.0.0 on, and 172.2.0.0/16, count as
    internal, so that no trigger looks at them. *)
Example public_taken_for_internal :
  is_internal_ip "172.217.16.142" = true /\ is_internal_ip "172.2.0.1" = true /\ is_internal_ip "172.32.0.1" = false.
Proof. vm_compute. repeat split. Qed.

(** Two devices whose names differ only in where a colon stands share a key, and
    the second is taken for the first. *)
Theorem device_keys_collide (vendor product rest : string) (serial : option string) :
  device_key (vendor +:+ ":" +:+ product) rest serial = device_key vendor (product +:+ ":" +:+ rest) serial.
Proof. unfold device_key. by rewrite !append_assoc. Qed.

(** ** A process and two addresses *)

#[local] Instance demo_hash_order : HashOrder := {| hash_iter := map_to_list; hash_iter_perm m := reflexivity _ |}.

Definition demo_graph : KnowledgeGraph :=
  let g := (ensure_process (KnowledgeGraph_new 0) 4242 1 "curl" 1000 0).1 in
  let g := (ensure_ip g "203.0.113.9" 0).1 in
  let g := (ensure_ip g "198.51.100.7" 0).1 in
  let g := (push_edge g (Edge_new 1 2 ConnectedTo 10)).1 in
  (push_edge g (Edge_new 1 3 ConnectedTo 20)).1.

Lemma demo_graph_ok : kg_ok demo_graph.
Proof.
  assert (forall g, kg_ok g -> forall addr ts, kg_ok (ensure_ip g addr ts).1) as Hip by (intros g Hg; by destruct (ensure_ok g Hg) as (_ & ? & _)).
  destruct (ensure_ok (KnowledgeGraph_new 0) (KnowledgeGraph_new_ok 0)) as (Hp & _). apply push_edge_ok, push_edge_ok, Hip, Hip, Hp.
Qed.

Lemma remove_node_exact_witness :
  ed_to <$> outgoing_edges demo_graph 1 = [2; 3] /\
  outgoing_edges (remove_node demo_graph 2) 1 = retain (fun e => negb (touches 2 e)) (outgoing_edges demo_graph 1).
Proof.
  split; [vm_compute; reflexivity|].
  destruct (remove_node_exact demo_graph 2 demo_graph_ok) as (_ & _ & H); [vm_compute; by eexists|]. exact (proj1 (H 1)).
Defined.

Lemma compaction_invisible_witness :
  length (kg_edges (remove_node demo_graph 2)) = 2%nat /\ length (kg_edges (compact_edges_force (remove_node demo_graph 2))) = 1%nat /\
  outgoing_edges (compact_edges_force (remove_node demo_graph 2)) 1 = outgoing_edges (remove_node demo_graph 2) 1.
Proof.
  split; [vm_compute; reflexivity|]. split; [vm_compute; reflexivity|].
  destruct (compaction_invisible (remove_node demo_graph 2) (remove_node_ok demo_graph 2 demo_graph_ok)) as (_ & _ & H & _). exact (proj1 (H 1)).
Defined.

(** The graph with another limit. *)
Definition limited (g : KnowledgeGraph) (max_memory : Z) : KnowledgeGraph :=
  {| kg_nodes := kg_nodes g; kg_edges := kg_edges g; kg_index := kg_index g; kg_outgoing := kg_outgoing g; kg_incoming := kg_incoming g;
     kg_last_edge_ts := kg_last_edge_ts g; kg_threat_intel := kg_threat_intel g; kg_next_id := kg_next_id g; kg_memory := kg_memory g;
     kg_tombstoned := kg_tombstoned g; kg_max_memory := max_memory; kg_created_at := kg_created_at g; kg_event := kg_event g;
     kg_trigger_incidents := kg_trigger_incidents g; kg_trigger_host := kg_trigger_host g |}.

Lemma limited_ok g max_memory : kg_ok g -> kg_ok (limited g max_memory).
Proof. intros [[H1 H2 H3] Ha Hl Hm]. split; [split|..]; done. Qed.

(** Three nodes and two edges of 120 bytes under a limit of 200: all three nodes
    go. *)
Lemma edges_evict_everything_witness :
  size (kg_nodes demo_graph) = 3%nat /\
  forall id n, kg_nodes (enforce_memory_limit (limited demo_graph 200)) !! id = Some n -> is_system n = true.
Proof.
  split; [vm_compute; reflexivity|]. apply (edges_evict_everything (limited demo_graph 200) (limited_ok demo_graph 200 demo_graph_ok)).
  vm_compute. reflexivity.
Defined.
