(* ===== verification/AgentGraphTriggers.v ===== *)
(** * AgentGraphTriggers: what every new edge sets off
    (crates/agent/src/knowledge_graph/triggers.rs, with add_edge and
    link_correlated_incidents of graph.rs)

    An edge added to the graph of AgentGraph.v is checked at once against four
    patterns (a reverse shell, code that runs from memory, a container escape, a
    security service stopped); a match becomes an incident that waits in the
    graph.  An index out of range, or a container's name cut inside a character,
    stops the program: [None].

    Proved here: from the empty graph every sequence of operations runs to its
    end and leaves the graph well formed; a redirected descriptor and an outside
    connection within half a minute are reported in either order, unless a report
    that waits has the node's number in its name. *)

From Stdlib Require Import ZArith Lia Ascii String SpecFloat.
From stdpp Require Import prelude strings gmap list sorting.
From S2P Require Import Prelude Text Json Floats CoreTypes AgentGraph.

Local Open Scope string_scope.
Local Open Scope list_scope.
Local Open Scope Z_scope.

Definition ESCAPE_PATHS : list string :=
  ["/var/run/docker.sock"; "/run/docker.sock"; "/proc/1/root"; "/proc/1/ns/mnt"; "/proc/1/ns/pid"; "/proc/1/ns/net"].
Definition SECURITY_SERVICES : list string :=
  ["innerwarden"; "fail2ban"; "auditd"; "rsyslog"; "syslog"; "iptables"; "nftables"; "ufw"; "firewalld"; "apparmor"].

(** [idxs.iter().any(|&i| p(&graph.edges[i]))]. *)
Fixpoint any_edge (edges : list Edge) (p : Edge -> bool) (idxs : list nat) : option bool :=
  match idxs with
  | [] => Some false
  | i :: idxs => e ← edges !! i; if p e then Some true else any_edge edges p idxs
  end.

(** [matches!(n, Node::Ip { is_internal: b, .. })]. *)
Definition is_ip_internal (b : bool) (n : option Node) : bool :=
  match n with Some (NIp i) => Bool.eqb (ipn_is_internal i) b | _ => false end.

Definition old_fd (properties : gmap string Json) : Z := default 99 (properties !! "old_fd" ≫= as_u64).

(** [format!("{}", now.timestamp())]. *)
Definition stamp (now : Z) : string := show_int (now / NANOS_PER_SEC).

Definition push_incident (g : KnowledgeGraph) (i : Incident) : KnowledgeGraph :=
  with_triggers g (kg_trigger_incidents g ++ [i]) (kg_trigger_host g).

(** An incident about this is waiting already. *)
Definition pending (g : KnowledgeGraph) (key : string) : bool := any (fun i => contains key (in_incident_id i)) (kg_trigger_incidents g).

Definition trigger_incident (g : KnowledgeGraph) (now : Z) (id title summary : string) (evidence : list (string * Json)) (checks : list string)
    (tag : string) : Incident :=
  {| in_ts := now; in_host := kg_trigger_host g; in_incident_id := id; in_severity := Critical; in_title := title; in_summary := summary;
     in_evidence := JObj ([("source", JStr "knowledge_graph_trigger")] ++ evidence ++ [("realtime", JBool true)]);
     in_recommended_checks := checks; in_tags := [tag]; in_entities := [] |}.

(** [graph.get_node(id).map(|n| n.label()).unwrap_or_default()]. *)
Definition label_of (g : KnowledgeGraph) (id : Z) : option string :=
  match kg_nodes g !! id with Some n => label n | None => Some "" end.

(** ** Reverse shells *)

Definition emit_reverse_shell (g : KnowledgeGraph) (proc_id now : Z) : option KnowledgeGraph :=
  comm ← label_of g proc_id;
  if pending g ("trigger_reverse_shell:" +:+ show proc_id) then Some g
  else Some (push_incident g (trigger_incident g now ("trigger_reverse_shell:" +:+ show proc_id +:+ ":" +:+ stamp now)
    ("REAL-TIME: Reverse shell detected — " +:+ comm)
    ("Process '" +:+ comm +:+ "' (PID area " +:+ show proc_id +:+ ") redirected fd 0/1/2 and connected to external IP. Reverse shell confirmed.")
    [("detector", JStr "trigger_reverse_shell"); ("process", JStr comm)]
    ["IMMEDIATE: kill -9 " +:+ show proc_id; "Check for persistence: crontab -l, ~/.bashrc, systemctl list-units"] "T1059.004")).

Definition outside_connect (g : KnowledgeGraph) (now : Z) (e : Edge) : bool :=
  bool_decide (ed_relation e = ConnectedTo) && (now - ed_ts e <? seconds 30) && negb (is_snapshot e)
  && is_ip_internal false (kg_nodes g !! ed_to e).

Definition trigger_reverse_shell_from_fd (g : KnowledgeGraph) (proc_id now : Z) (properties : gmap string Json) : option KnowledgeGraph :=
  if 2 <? old_fd properties then Some g
  else
    match any_edge (kg_edges g) (outside_connect g now) (adj (kg_outgoing g) proc_id) with
    | Some true => emit_reverse_shell g proc_id now
    | Some false => Some g
    | None => None
    end.

Definition fd_redirect (now : Z) (e : Edge) : bool :=
  bool_decide (ed_relation e = RedirectedFd) && (now - ed_ts e <? seconds 30) && negb (is_snapshot e) && (old_fd (ed_properties e) <=? 2).

Definition trigger_reverse_shell_from_connect (g : KnowledgeGraph) (proc_id ip_id now : Z) : option KnowledgeGraph :=
  if is_ip_internal true (kg_nodes g !! ip_id) then Some g
  else
    match any_edge (kg_edges g) (fd_redirect now) (adj (kg_outgoing g) proc_id) with
    | Some true => emit_reverse_shell g proc_id now
    | Some false => Some g
    | None => None
    end.

(** ** Code run from memory *)

Record FilelessSigns := { has_memfd : bool; has_mprotect : bool; has_external : bool }.

Definition fileless_sign (g : KnowledgeGraph) (now : Z) (s : FilelessSigns) (e : Edge) : FilelessSigns :=
  if is_snapshot e || (seconds 60 <? now - ed_ts e) then s
  else
    match ed_relation e with
    | CreatedMemfd => {| has_memfd := true; has_mprotect := has_mprotect s; has_external := has_external s |}
    | MprotectExec => {| has_memfd := has_memfd s; has_mprotect := true; has_external := has_external s |}
    | ConnectedTo => if is_ip_internal false (kg_nodes g !! ed_to e)
                     then {| has_memfd := has_memfd s; has_mprotect := has_mprotect s; has_external := true |} else s
    | _ => s
    end.

Fixpoint fileless_signs (g : KnowledgeGraph) (now : Z) (s : FilelessSigns) (idxs : list nat) : option FilelessSigns :=
  match idxs with
  | [] => Some s
  | i :: idxs => e ← kg_edges g !! i; fileless_signs g now (fileless_sign g now s e) idxs
  end.

Definition check_fileless_complete (g : KnowledgeGraph) (proc_id now : Z) : option KnowledgeGraph :=
  match kg_outgoing g !! proc_id with
  | None => Some g
  | Some idxs =>
      s ← fileless_signs g now {| has_memfd := false; has_mprotect := false; has_external := false |} idxs;
      if negb (has_memfd s) || negb (has_mprotect s) || negb (has_external s) then Some g
      else if pending g ("trigger_fileless:" +:+ show proc_id) then Some g
      else
        comm ← label_of g proc_id;
        Some (push_incident g (trigger_incident g now ("trigger_fileless:" +:+ show proc_id +:+ ":" +:+ stamp now)
          ("REAL-TIME: Fileless execution — " +:+ comm)
          ("Process '" +:+ comm +:+ "' created memfd + set executable permissions + connected to external IP. In-memory malware execution confirmed.")
          [("detector", JStr "trigger_fileless"); ("process", JStr comm)]
          ["IMMEDIATE: kill -9 " +:+ show proc_id; "Dump memory: /proc/PID/maps, /proc/PID/mem"] "T1055.009"))
  end.

Definition trigger_fileless_from_mprotect (g : KnowledgeGraph) (proc_id now : Z) : option KnowledgeGraph := check_fileless_complete g proc_id now.
Definition trigger_fileless_from_connect (g : KnowledgeGraph) (proc_id ip_id now : Z) : option KnowledgeGraph :=
  if is_ip_internal true (kg_nodes g !! ip_id) then Some g else check_fileless_complete g proc_id now.

(** ** Container escapes *)

Definition trigger_container_escape (g : KnowledgeGraph) (proc_id file_id now : Z) : option KnowledgeGraph :=
  match kg_nodes g !! file_id with
  | Some (NFile f) =>
      let file_path := fn_path f in
      if negb (any (fun p => starts_with p file_path) ESCAPE_PATHS) then Some g
      else if pending g ("trigger_escape:" +:+ show proc_id +:+ ":" +:+ file_path) then Some g
      else
        comm ← label_of g proc_id;
        Some (push_incident g (trigger_incident g now ("trigger_escape:" +:+ show proc_id +:+ ":" +:+ file_path +:+ ":" +:+ stamp now)
          ("REAL-TIME: Container escape — " +:+ comm +:+ " accessed " +:+ file_path)
          ("Process '" +:+ comm +:+ "' accessed '" +:+ file_path +:+ "'. Container escape attempt detected in real-time.")
          [("detector", JStr "trigger_container_escape"); ("process", JStr comm); ("file", JStr file_path)]
          ["Check if running in container: cat /proc/1/cgroup"; "Kill process and investigate: kill -9 " +:+ show proc_id] "T1611"))
  | _ => Some g
  end.

Section triggers.
Context `{Lowercase}.

(** ** Services stopped *)

Definition trigger_service_stop (g : KnowledgeGraph) (proc_id now : Z) (properties : gmap string Json) : option KnowledgeGraph :=
  match kg_nodes g !! proc_id with
  | Some (NProcess p) =>
      let comm := pn_comm p in
      if negb (String.eqb comm "systemctl" || String.eqb comm "service") then Some g
      else
        let summary := to_lowercase (default "" (properties !! "summary" ≫= as_str)) in
        if negb (contains "stop" summary) && negb (contains "disable" summary) then Some g
        else match List.find (fun s => contains s summary) SECURITY_SERVICES with
             | None => Some g
             | Some svc =>
                 if pending g ("trigger_svcstop:" +:+ svc) then Some g
                 else Some (push_incident g (trigger_incident g now ("trigger_svcstop:" +:+ svc +:+ ":" +:+ stamp now)
                   ("REAL-TIME: Security service stopped — " +:+ svc)
                   ("Process '" +:+ comm +:+ "' stopped security service '" +:+ svc +:+ "'. Defense evasion detected in real-time.")
                   [("detector", JStr "trigger_service_stop"); ("process", JStr comm); ("service", JStr svc)]
                   ["IMMEDIATE: systemctl start " +:+ svc; "Check who initiated: journalctl -u {} -n 20"] "T1562.001"))
             end
  | _ => Some g
  end.

Definition check_critical_triggers (g : KnowledgeGraph) (relation : Relation) (from to_ now : Z) (properties : gmap string Json)
    : option KnowledgeGraph :=
  match relation with
  | RedirectedFd => trigger_reverse_shell_from_fd g from now properties
  | ConnectedTo => g ← trigger_reverse_shell_from_connect g from to_ now; trigger_fileless_from_connect g from to_ now
  | MprotectExec => trigger_fileless_from_mprotect g from now
  | Read | Wrote => trigger_container_escape g from to_ now
  | Executed => trigger_service_stop g from now properties
  | _ => Some g
  end.

Definition add_edge (g : KnowledgeGraph) (e : Edge) : option (KnowledgeGraph * nat) :=
  let '(g, idx) := push_edge g e in
  e ← kg_edges g !! idx;
  if is_snapshot e then Some (g, idx)
  else g ← check_critical_triggers g (ed_relation e) (ed_from e) (ed_to e) (ed_ts e) (ed_properties e); Some (g, idx).

(** The edges from one node to each of the later ones, and so on. *)
Fixpoint link_pairs (g : KnowledgeGraph) (ids : list Z) (chain_id : string) (now : Z) : option KnowledgeGraph :=
  match ids with
  | [] => Some g
  | a :: rest =>
      g ← foldl (fun acc b => g ← acc; fst <$> add_edge g (with_prop (Edge_new a b CorrelatedWith now) "chain_id" (JStr chain_id))) (Some g) rest;
      link_pairs g rest chain_id now
  end.

Definition link_correlated_incidents (g : KnowledgeGraph) (incident_ids : list string) (chain_id : string) (now : Z) : option KnowledgeGraph :=
  let node_ids := omap (find_by_incident g) incident_ids in
  if Nat.ltb (length node_ids) 2 then Some g else link_pairs g node_ids chain_id now.

End triggers.

(** ** Nothing stops the program *)

(** Every node has a label. *)
Definition labelled (g : KnowledgeGraph) : Prop := forall id n, kg_nodes g !! id = Some n -> is_Some (label n).

(** Only incidents were added. *)
Definition grown (g g' : KnowledgeGraph) : Prop :=
  exists extra, g' = with_triggers g (kg_trigger_incidents g ++ extra) (kg_trigger_host g).

#[local] Instance grown_refl : Reflexive grown.
Proof. intros []. exists []. unfold with_triggers. cbn. by rewrite app_nil_r. Qed.
#[local] Instance grown_trans : Transitive grown.
Proof. intros g1 g2 g3 [l1 ->] [l2 ->]. exists (l1 ++ l2). unfold with_triggers. cbn. by rewrite app_assoc. Qed.

Lemma grown_push g i : grown g (push_incident g i).
Proof. by exists [i]. Qed.

Lemma with_triggers_ok g l h : kg_ok g -> kg_ok (with_triggers g l h).
Proof. intros [[H1 H2 H3] Ha Hl Hm]. split; [split|..]; done. Qed.

Lemma grown_ok g g' : grown g g' -> kg_ok g -> kg_ok g'.
Proof. intros [l ->]. apply with_triggers_ok. Qed.

Lemma grown_labelled g g' : grown g g' -> labelled g -> labelled g'.
Proof. by intros [l ->]. Qed.

Lemma any_edge_total edges p idxs : (forall i, i ∈ idxs -> is_Some (edges !! i)) -> any_edge edges p idxs = Some (any p (edges_at edges idxs)).
Proof.
  induction idxs as [|i idxs IH]; intros Hi; [done|]. cbn. destruct (Hi i ltac:(left)) as [e He]. rewrite He. cbn.
  rewrite IH by (intros j Hj; apply Hi; by right). by destruct (p e).
Qed.

Lemma outgoing_in_range g v i : kg_ok g -> i ∈ adj (kg_outgoing g) v -> is_Some (kg_edges g !! i).
Proof. intros Hok Hi. destruct (ao_out _ _ _ _ (ok_adj _ Hok) v i Hi) as (e & -> & _). by eexists. Qed.

Lemma any_outgoing g p v : kg_ok g -> any_edge (kg_edges g) p (adj (kg_outgoing g) v) = Some (any p (outgoing_edges g v)).
Proof. intros Hok. apply any_edge_total. intros i. by apply outgoing_in_range. Qed.

Lemma fileless_signs_total g now idxs : forall s, (forall i, i ∈ idxs -> is_Some (kg_edges g !! i)) ->
  fileless_signs g now s idxs = Some (foldl (fileless_sign g now) s (edges_at (kg_edges g) idxs)).
Proof.
  induction idxs as [|i idxs IH]; intros s Hi; [done|]. cbn. destruct (Hi i ltac:(left)) as [e He]. rewrite He. cbn.
  apply IH. intros j Hj. apply Hi. by right.
Qed.

Lemma label_of_total g id : labelled g -> is_Some (label_of g id).
Proof. intros Hl. unfold label_of. destruct (kg_nodes g !! id) as [n|] eqn:Hn; [by eapply Hl|by eexists]. Qed.

Lemma emit_total g proc_id now : labelled g -> exists g', emit_reverse_shell g proc_id now = Some g' /\ grown g g'.
Proof.
  intros Hl. unfold emit_reverse_shell. destruct (label_of_total g proc_id Hl) as [comm ->]. cbn.
  destruct (pending _ _); eexists; (split; [done|]); [done|apply grown_push].
Qed.

Lemma fileless_total g proc_id now : kg_ok g -> labelled g -> exists g', check_fileless_complete g proc_id now = Some g' /\ grown g g'.
Proof.
  intros Hok Hl. unfold check_fileless_complete. destruct (kg_outgoing g !! proc_id) as [idxs|] eqn:Ho; [|by exists g].
  rewrite fileless_signs_total.
  2: { intros i Hi. apply (outgoing_in_range g proc_id i Hok). unfold adj. by rewrite Ho. }
  cbn. destruct (_ || _); [by exists g|]. destruct (pending _ _); [by exists g|].
  destruct (label_of_total g proc_id Hl) as [comm ->]. eexists. split; [done|apply grown_push].
Qed.

Section totality.
Context `{Lowercase}.

Lemma triggers_total g relation from to_ now properties : kg_ok g -> labelled g ->
  exists g', check_critical_triggers g relation from to_ now properties = Some g' /\ grown g g'.
Proof.
  intros Hok Hl. destruct relation; try (by exists g); cbn [check_critical_triggers].
  - destruct (is_ip_internal true (kg_nodes g !! to_)) eqn:Ei.
    { exists g. unfold trigger_reverse_shell_from_connect, trigger_fileless_from_connect. rewrite Ei. cbn [mbind option_bind]. by rewrite Ei. }
    assert (exists g1, trigger_reverse_shell_from_connect g from to_ now = Some g1 /\ grown g g1) as (g1 & -> & Hg1).
    { unfold trigger_reverse_shell_from_connect. rewrite Ei, any_outgoing by done. destruct (any _ _); [by apply emit_total|by exists g]. }
    cbn [mbind option_bind]. unfold trigger_fileless_from_connect. destruct (is_ip_internal true (kg_nodes g1 !! to_)); [by exists g1|].
    destruct (fileless_total g1 from now (grown_ok _ _ Hg1 Hok) (grown_labelled _ _ Hg1 Hl)) as (g2 & -> & Hg2).
    exists g2. split; [done|by etrans].
  - unfold trigger_container_escape. destruct (kg_nodes g !! to_) as [[]|]; try (by exists g).
    destruct (negb _); [by exists g|]. destruct (pending _ _); [by exists g|].
    destruct (label_of_total g from Hl) as [comm ->]. eexists. split; [done|apply grown_push].
  - unfold trigger_container_escape. destruct (kg_nodes g !! to_) as [[]|]; try (by exists g).
    destruct (negb _); [by exists g|]. destruct (pending _ _); [by exists g|].
    destruct (label_of_total g from Hl) as [comm ->]. eexists. split; [done|apply grown_push].
  - unfold trigger_service_stop. destruct (kg_nodes g !! from) as [[]|]; try (by exists g).
    destruct (negb _); [by exists g|]. destruct (_ && _); [by exists g|]. destruct (List.find _ _); [|by exists g].
    destruct (pending _ _); [by exists g|]. eexists. split; [done|apply grown_push].
  - unfold trigger_reverse_shell_from_fd. destruct (_ <? _); [by exists g|]. rewrite any_outgoing by done.
    destruct (any _ _); [by apply emit_total|by exists g].
  - by apply fileless_total.
Qed.

Lemma push_edge_at g e : kg_edges (push_edge g e).1 !! (push_edge g e).2 = Some (enrich (kg_event g) e).
Proof. cbn. rewrite lookup_app_r, Nat.sub_diag by lia. done. Qed.

Lemma add_edge_total g e : kg_ok g -> labelled g ->
  exists g', add_edge g e = Some (g', length (kg_edges g)) /\ grown (push_edge g e).1 g'.
Proof.
  intros Hok Hl. unfold add_edge. pose proof (push_edge_at g e) as He. pose proof (push_edge_ok g e Hok) as Hok1.
  assert (labelled (push_edge g e).1) as Hl1 by done. assert ((push_edge g e).2 = length (kg_edges g)) as Ei by done.
  destruct (push_edge g e) as [g1 idx]. cbn [fst snd] in *. subst idx. rewrite He. cbn [mbind option_bind].
  destruct (is_snapshot _); [by exists g1|].
  destruct (triggers_total g1 (ed_relation (enrich (kg_event g) e)) (ed_from (enrich (kg_event g) e)) (ed_to (enrich (kg_event g) e))
    (ed_ts (enrich (kg_event g) e)) (ed_properties (enrich (kg_event g) e)) Hok1 Hl1) as (g' & -> & Hg). exists g'. split; [done|exact Hg].
Qed.

(** ** Every sequence of operations *)

Context `{HashOrder}.

Inductive GraphOp :=
| OpAddNode (n : Node)
| OpUpsert (n : Node)
| OpProcess (pid ppid : Z) (comm : string) (uid ts : Z)
| OpIp (addr : string) (ts : Z)
| OpFile (path : string)
| OpUser (name : string)
| OpDomain (name : string)
| OpPort (number : Z) (protocol : string)
| OpContainer (container_id : string)
| OpSystem (hostname : string)
| OpUsername (ip_id : Z) (login : string)
| OpFalsePositive (id : Z) (reporter : string) (now : Z)
| OpEdge (e : Edge)
| OpRemove (id : Z)
| OpCompact
| OpUpkeep (now : Z)
| OpHost (host : string)
| OpDrain.

Definition apply_op (g : KnowledgeGraph) (op : GraphOp) : option KnowledgeGraph :=
  match op with
  | OpAddNode n => Some (add_node g n).1
  | OpUpsert n => Some (upsert_node g n).1
  | OpProcess pid ppid comm uid ts => Some (ensure_process g pid ppid comm uid ts).1
  | OpIp addr ts => Some (ensure_ip g addr ts).1
  | OpFile path => Some (ensure_file g path).1
  | OpUser name => Some (ensure_user g name).1
  | OpDomain name => Some (ensure_domain g name).1
  | OpPort number protocol => Some (ensure_port g number protocol).1
  | OpContainer container_id => Some (ensure_container g container_id).1
  | OpSystem hostname => Some (ensure_system g hostname).1
  | OpUsername ip_id login => Some (record_attempted_username g ip_id login)
  | OpFalsePositive id reporter now => Some (mark_false_positive g id reporter now)
  | OpEdge e => fst <$> add_edge g e
  | OpRemove id => Some (remove_node g id)
  | OpCompact => Some (compact_edges g)
  | OpUpkeep now => Some (graph_upkeep g now)
  | OpHost host => Some (set_trigger_host g host)
  | OpDrain => Some (drain_trigger_incidents g).1
  end.

Fixpoint run_ops (g : KnowledgeGraph) (ops : list GraphOp) : option KnowledgeGraph :=
  match ops with [] => Some g | op :: ops => g ← apply_op g op; run_ops g ops end.

(** The first twelve bytes of a container's name are whole characters. *)
Definition cuttable (container_id : string) : Prop := is_char_boundary container_id (Nat.min 12 (String.length container_id)) = true.

Definition op_named (op : GraphOp) : Prop :=
  match op with
  | OpAddNode n | OpUpsert n => is_Some (label n)
  | OpContainer container_id => cuttable container_id
  | _ => True
  end.

Lemma update_labelled g id f : (forall n, is_Some (label n) -> is_Some (label (f n))) -> labelled g -> labelled (update_node g id f).
Proof.
  intros Hf Hl i n. cbn. destruct (decide (i = id)) as [->|]; [rewrite lookup_alter_eq, fmap_Some|rewrite lookup_alter_ne by done].
  - intros (n0 & Hn0 & ->). by apply Hf, (Hl id).
  - apply Hl.
Qed.

Lemma add_labelled g n : is_Some (label n) -> labelled g -> labelled (add_node g n).1.
Proof.
  intros Hn Hl. unfold add_node. destruct (find_existing g n); [done|]. cbn. intros i n'. cbn.
  rewrite lookup_insert_Some. intros [[_ <-]|[_ Hi]]; [done|by apply (Hl i)].
Qed.

Lemma remove_labelled g id : labelled g -> labelled (remove_node g id).
Proof.
  intros Hl. destruct (kg_nodes g !! id) as [n|] eqn:Hn; [|by rewrite remove_none]. destruct (remove_fields g id n Hn) as (En & _).
  intros i n'. rewrite En. intros [_ Hi]%lookup_delete_Some. by apply (Hl i).
Qed.

Lemma removes_labelled ids g : labelled g -> labelled (foldl remove_node g ids).
Proof. revert g. induction ids as [|i ids IH]; intros g Hl; [done|]. by apply IH, remove_labelled. Qed.

Lemma merge_label n n' : is_Some (label n) -> is_Some (label (merge_node n n')).
Proof.
  destruct n, n'; try done. cbn. destruct (is_char_boundary _ _); [by eexists|by intros [? ?]].
Qed.

Lemma compact_labelled g : labelled g -> labelled (compacted g).
Proof. unfold compacted. by destruct (compact_from _ _ _ _ _ _) as [[es m] mem]. Qed.

Lemma apply_op_labelled g op g' : op_named op -> kg_ok g -> labelled g -> apply_op g op = Some g' -> labelled g'.
Proof.
  intros Hop Hok Hl. destruct op; cbn [apply_op op_named] in *; try (intros [= <-]).
  - by apply add_labelled.
  - unfold upsert_node. destruct (find_existing g n) as [i|]; [|by apply add_labelled].
    change (labelled (update_node g i (fun existing => merge_node existing n))). apply update_labelled; [|done]. intros m. apply merge_label.
  - unfold ensure_process. destruct (find_by_pid g pid); [|by apply add_labelled]. apply update_labelled; [|done]. intros []; try done; cbn; by eexists.
  - unfold ensure_ip. destruct (find_by_ip g addr); [|by apply add_labelled]. apply update_labelled; [|done]. by intros [].
  - unfold ensure_file. destruct (find_by_path g path); [done|by apply add_labelled].
  - unfold ensure_user. destruct (find_by_user g name); [done|by apply add_labelled].
  - unfold ensure_domain. destruct (find_by_domain g name); [done|by apply add_labelled].
  - unfold ensure_port. destruct (find_by_port g number protocol); [done|by apply add_labelled].
  - unfold ensure_container. destruct (find_by_container g container_id); [done|]. apply add_labelled; [|done].
    unfold cuttable in Hop. cbn [label cn_container_id]. cbv zeta. rewrite Hop. by eexists.
  - unfold ensure_system. destruct (system_node g) as [i|] eqn:Es.
    + destruct (String.eqb hostname ""); [done|]. apply update_labelled; [|done]. intros []; try done. intros _. cbn. destruct (String.eqb _ _); by eexists.
    + pose proof (add_labelled g (NSystem hostname ∅) ltac:(by eexists) Hl) as Hl'. by destruct (add_node g (NSystem hostname ∅)) as [g1 i].
  - unfold record_attempted_username. destruct (String.eqb login ""); [done|]. apply update_labelled; [|done]. by intros [].
  - apply update_labelled; [|done]. by intros [].
  - destruct (add_edge_total g e Hok Hl) as (g1 & -> & Hg). intros [= <-]. cbn. exact (grown_labelled _ _ Hg Hl).
  - by apply remove_labelled.
  - unfold compact_edges. destruct (_ || _); [done|]. destruct (f_ltb _ _); [done|]. by apply compact_labelled.
  - unfold graph_upkeep, compact_edges_force, enforce_memory_limit, cleanup_expired.
    assert (forall g, labelled g -> forall ids, labelled (evict g ids)) as Hev.
    { intros g0 Hl0 ids. destruct (evict_steps ids g0) as (k & -> & _). by apply removes_labelled. }
    pose proof (removes_labelled (retain (fun kv => is_expired g kv.1 kv.2 now) (hash_iter (kg_nodes g))).*1 g Hl) as Hl1.
    set (g1 := foldl remove_node g _) in *. destruct (kg_memory g1 <=? kg_max_memory g1).
    + destruct (_ || _); [done|by apply compact_labelled].
    + destruct (_ || _); [by apply Hev|by apply compact_labelled, Hev].
  - done.
  - done.
Qed.

Lemma apply_op_ok g op g' : kg_ok g -> labelled g -> apply_op g op = Some g' -> kg_ok g'.
Proof.
  intros Hok Hl. destruct (ensure_ok g Hok) as (E1 & E2 & E3 & E4 & E5 & E6 & E7).
  destruct op; cbn [apply_op] in *; try (intros [= <-]);
    eauto using add_node_ok, upsert_node_ok, ensure_system_ok, record_username_ok, mark_false_positive_ok, remove_node_ok, compact_edges_ok,
      graph_upkeep_ok, with_triggers_ok.
  - destruct (add_edge_total g e Hok Hl) as (g1 & -> & Hg). intros [= <-]. exact (grown_ok _ _ Hg (push_edge_ok g e Hok)).
Qed.

Lemma apply_op_total g op : kg_ok g -> labelled g -> is_Some (apply_op g op).
Proof.
  intros Hok Hl. destruct op; cbn [apply_op]; try (by eexists). destruct (add_edge_total g e Hok Hl) as (g1 & -> & _). by eexists.
Qed.

Lemma graph_ops_ok ops : Forall op_named ops -> forall g, kg_ok g -> labelled g -> exists g', run_ops g ops = Some g' /\ kg_ok g' /\ labelled g'.
Proof.
  induction 1 as [|op ops Hop _ IH]; intros g Hok Hl; cbn [run_ops]; [by exists g|].
  destruct (apply_op_total g op Hok Hl) as [g1 E]. rewrite E. cbn. apply IH; [by eapply apply_op_ok|by eapply apply_op_labelled].
Qed.

Lemma new_labelled start : labelled (KnowledgeGraph_new start).
Proof. intros i n Hn. cbn in Hn. by rewrite lookup_empty in Hn. Qed.

(** C27. From the empty graph, every sequence of operations on named nodes runs to
    its end, and the graph is well formed all along: each key finds its one
    node, each edge is listed once at both ends or tombstoned, and the estimate
    of the memory is exact. *)
Theorem graph_always_ok (ops : list GraphOp) (start : Z) : Forall op_named ops ->
  exists g, run_ops (KnowledgeGraph_new start) ops = Some g /\ kg_ok g.
Proof.
  intros Hops. destruct (graph_ops_ok ops Hops _ (KnowledgeGraph_new_ok start) (new_labelled start)) as (g & E & Hok & _). by exists g.
Qed.

(** ** What is reported *)

Notation shell_key id := ("trigger_reverse_shell:" +:+ show id).

(** [now] is in nanoseconds; the text has the second. *)
Definition shell_report (id now : Z) (i : Incident) : Prop :=
  in_incident_id i = shell_key id +:+ ":" +:+ stamp now /\ in_ts i = now /\ in_severity i = Critical /\ in_tags i = ["T1059.004"].

(** What the reports [new] say of node [id] when those of [g] wait already: its
    reverse shell first, unless a waiting report holds its number. *)
Definition shell_news (g : KnowledgeGraph) (id now : Z) (new : list Incident) : Prop :=
  exists shell rest, new = shell ++ rest /\ Forall (fun i => starts_with "trigger_fileless:" (in_incident_id i) = true) rest /\
    (((forall w, w ∈ kg_trigger_incidents g -> contains (shell_key id) (in_incident_id w) = false) /\
        exists i, shell = [i] /\ shell_report id now i)
     \/ ((exists w, w ∈ kg_trigger_incidents g /\ contains (shell_key id) (in_incident_id w) = true) /\ shell = [])).

Lemma emit_news g id now g' : emit_reverse_shell g id now = Some g' ->
  exists new, kg_trigger_incidents g' = kg_trigger_incidents g ++ new /\ shell_news g id now new.
Proof.
  unfold emit_reverse_shell. destruct (label_of g id) as [comm|]; [|done]. cbn [mbind option_bind].
  destruct (pending g _) eqn:Ep; unfold pending in Ep; intros [= <-].
  - exists []. split; [by rewrite app_nil_r|]. exists [], []. split; [done|]. split; [done|]. right. split; [|done]. by apply any_true in Ep.
  - eexists. split; [reflexivity|]. eexists [_], []. split; [done|]. split; [done|]. left. split; [|by eexists].
    intros w Hw. apply not_true_iff_false. intros Hc. apply not_true_iff_false in Ep. apply Ep, any_true. by exists w.
Qed.

Lemma fileless_news g id now g' : check_fileless_complete g id now = Some g' ->
  exists rest, kg_trigger_incidents g' = kg_trigger_incidents g ++ rest /\
    Forall (fun i => starts_with "trigger_fileless:" (in_incident_id i) = true) rest.
Proof.
  unfold check_fileless_complete. destruct (kg_outgoing g !! id) as [idxs|]; [|intros [= <-]; exists []; by rewrite app_nil_r].
  destruct (fileless_signs _ _ _ _) as [s|]; [|done]. cbn [mbind option_bind].
  destruct (_ || _); [intros [= <-]; exists []; by rewrite app_nil_r|].
  destruct (pending _ _); [intros [= <-]; exists []; by rewrite app_nil_r|]. destruct (label_of _ _); [|done]. cbn [mbind option_bind].
  intros [= <-]. eexists. split; [reflexivity|]. constructor; [|done]. unfold starts_with. apply prefix_app.
Qed.

Lemma news_then_fileless g g1 g2 id now new :
  kg_trigger_incidents g1 = kg_trigger_incidents g ++ new -> shell_news g id now new -> check_fileless_complete g1 id now = Some g2 ->
  exists new', kg_trigger_incidents g2 = kg_trigger_incidents g ++ new' /\ shell_news g id now new'.
Proof.
  intros E (shell & rest & -> & Hr & Hs) Hf. destruct (fileless_news _ _ _ _ Hf) as (rest' & E' & Hr').
  exists ((shell ++ rest) ++ rest'). split; [by rewrite E', E, <- !app_assoc|]. exists shell, (rest ++ rest').
  split; [by rewrite <- app_assoc|]. split; [by apply Forall_app|done].
Qed.

Lemma add_prop_other key key' v e : key <> key' -> ed_properties (add_prop key v e) !! key' = ed_properties e !! key'.
Proof. intros Hne. unfold add_prop. destruct v as [v|]; [|done]. case_bool_decide; [done|]. cbn. by rewrite lookup_insert_ne. Qed.

Lemma enrich_old_fd ev e : old_fd (ed_properties (enrich ev e)) = old_fd (ed_properties e).
Proof.
  unfold old_fd. f_equal. f_equal. unfold enrich. destruct (current_summary ev) as [s|]; [destruct (String.eqb s "")|];
    by rewrite !add_prop_other by done.
Qed.

Lemma push_outgoing g e : kg_ok g -> outgoing_edges (push_edge g e).1 (ed_from e) = outgoing_edges g (ed_from e) ++ [enrich (kg_event g) e].
Proof.
  intros Hok. unfold outgoing_edges, push_edge. cbn. destruct (enrich_ends (kg_event g) e) as (Ef & _). rewrite adj_push, Ef.
  rewrite bool_decide_true by done. unfold edges_at. rewrite omap_app. f_equal.
  - apply list_omap_ext, Forall_Forall2_diag, Forall_forall. intros i Hi. rewrite lookup_app_l; [done|].
    apply lookup_lt_is_Some. by eapply outgoing_in_range.
  - cbn. rewrite lookup_app_r, Nat.sub_diag by lia. done.
Qed.

(** C38. In a well-formed graph whose labels can be computed, a node has a redirected
    descriptor whose old number is a standard one, and a connection to an outside
    address, less than half a minute apart.  When the second of the two is added,
    whichever it is, a critical report of a reverse shell of this very node joins
    the waiting ones, unless the name of a waiting report holds the key of the
    node as a part of it; then no report of a reverse shell is added.  (The waiting
    report need not be of this node: the key of one whose number begins with this
    one's digits holds it too, see [shorter_id_hidden].)  Nothing else is added but
    reports of code run from memory. *)
Theorem reverse_shell_reported (g : KnowledgeGraph) (e r : Edge) : kg_ok g -> labelled g -> r ∈ outgoing_edges g (ed_from e) ->
  ed_ts e - ed_ts r < seconds 30 ->
  (ed_relation e = ConnectedTo /\ ed_relation r = RedirectedFd /\ is_ip_internal true (kg_nodes g !! ed_to e) = false /\
     old_fd (ed_properties r) <= 2) \/
  (ed_relation e = RedirectedFd /\ ed_relation r = ConnectedTo /\ is_ip_internal false (kg_nodes g !! ed_to r) = true /\
     old_fd (ed_properties e) <= 2) ->
  exists g' idx new, add_edge g e = Some (g', idx) /\ kg_trigger_incidents g' = kg_trigger_incidents g ++ new /\
    shell_news g (ed_from e) (ed_ts e) new.
Proof.
  intros Hok Hl Hr Ht Hcase. unfold add_edge. pose proof (push_edge_at g e) as He. pose proof (push_edge_ok g e Hok) as Hok1.
  pose proof (push_outgoing g e Hok) as Ho. assert (kg_nodes (push_edge g e).1 = kg_nodes g) as En by done.
  assert (kg_trigger_incidents (push_edge g e).1 = kg_trigger_incidents g) as Ei by done.
  assert (labelled (push_edge g e).1) as Hl1 by done. destruct (push_edge g e) as [g1 idx]. cbn [fst snd] in *. rewrite He. cbn [mbind option_bind].
  destruct (enrich_ends (kg_event g) e) as (Ef & Et & Es & Er). rewrite Ef, Et, Es, Er. unfold is_snapshot. rewrite Er.
  assert (exists g2 new, emit_reverse_shell g1 (ed_from e) (ed_ts e) = Some g2 /\ grown g1 g2 /\
    kg_trigger_incidents g2 = kg_trigger_incidents g ++ new /\ shell_news g (ed_from e) (ed_ts e) new) as (g2 & new & E2 & Hg2 & Eg & Hn).
  { destruct (emit_total g1 (ed_from e) (ed_ts e) Hl1) as (g2 & E2 & Hg2). destruct (emit_news _ _ _ _ E2) as (new & Eg & Hn).
    exists g2, new. unfold shell_news in *. rewrite Ei in *. by split_and!. }
  destruct Hcase as [(R1 & R2 & Hip & Hfd)|(R1 & R2 & Hip & Hfd)]; rewrite R1; cbn [check_critical_triggers].
  - unfold trigger_reverse_shell_from_connect. rewrite En, Hip, any_outgoing, Ho by done.
    assert (any (fd_redirect (ed_ts e)) (outgoing_edges g (ed_from e) ++ [enrich (kg_event g) e]) = true) as ->.
    { apply any_true. exists r. split; [apply elem_of_app; by left|]. unfold fd_redirect, is_snapshot. rewrite R2, bool_decide_true by done.
      rewrite (proj2 (Z.ltb_lt _ _) Ht), (proj2 (Z.leb_le _ _) Hfd). done. }
    rewrite E2. cbn [mbind option_bind]. unfold trigger_fileless_from_connect.
    destruct (is_ip_internal true (kg_nodes g2 !! ed_to e)); [by exists g2, idx, new|].
    destruct (fileless_total g2 (ed_from e) (ed_ts e) (grown_ok _ _ Hg2 Hok1) (grown_labelled _ _ Hg2 Hl1)) as (g3 & E3 & _).
    destruct (news_then_fileless _ _ _ _ _ _ Eg Hn E3) as (new' & Eg' & Hn'). rewrite E3. by exists g3, idx, new'.
  - unfold trigger_reverse_shell_from_fd. rewrite enrich_old_fd. destruct (Z.ltb_spec 2 (old_fd (ed_properties e))); [lia|].
    rewrite any_outgoing, Ho by done.
    assert (any (outside_connect g1 (ed_ts e)) (outgoing_edges g (ed_from e) ++ [enrich (kg_event g) e]) = true) as ->.
    { apply any_true. exists r. split; [apply elem_of_app; by left|]. unfold outside_connect, is_snapshot. rewrite R2, bool_decide_true, En, Hip by done.
      rewrite (proj2 (Z.ltb_lt _ _) Ht). done. }
    rewrite E2. by exists g2, idx, new.
Qed.

(** While a reverse shell of one node waits, none is reported for a node whose
    number begins the other's: the test for a duplicate looks for a part of the
    text. *)
Theorem shorter_id_hidden (g : KnowledgeGraph) (proc_id other now : Z) (digits : string) : labelled g ->
  show other = show proc_id +:+ digits -> pending g ("trigger_reverse_shell:" +:+ show other) = true ->
  emit_reverse_shell g proc_id now = Some g.
Proof.
  intros Hl Hd Hp. unfold emit_reverse_shell. destruct (label_of_total g proc_id Hl) as [comm ->]. cbn [mbind option_bind].
  assert (pending g ("trigger_reverse_shell:" +:+ show proc_id) = true) as ->; [|done].
  unfold pending in *. apply any_true in Hp as (i & Hi & (l & r & E)%contains_spec). apply any_true. exists i. split; [done|].
  apply contains_spec. exists l, (digits +:+ r). rewrite E, Hd, !append_assoc. done.
Qed.

End totality.

(** ** A process on a new host *)

#[local] Instance demo_graph_lower : Lowercase := {| to_lowercase := to_ascii_lowercase |}.
#[local] Instance demo_graph_order : HashOrder := {| hash_iter := map_to_list; hash_iter_perm m := reflexivity _ |}.

(** A shell with process number 4242 whose input is redirected and which then
    connects to an outside address. *)
Definition demo_shell_ops : list GraphOp :=
  [OpProcess 4242 1 "bash" 1000 0; OpIp "203.0.113.9" 0; OpEdge (with_prop (Edge_new 1 1 RedirectedFd (seconds 10)) "old_fd" (JInt 0));
   OpEdge (Edge_new 1 2 ConnectedTo (seconds 12))].

(** The advice names the number of the node and not that of the process: here
    that of init. *)
Example kill_names_node :
  (fun g => in_recommended_checks <$> kg_trigger_incidents g) <$> run_ops (KnowledgeGraph_new 0) demo_shell_ops =
  Some [["IMMEDIATE: kill -9 1"; "Check for persistence: crontab -l, ~/.bashrc, systemctl list-units"]].
Proof. vm_compute. reflexivity. Qed.

Lemma graph_always_ok_witness : exists g, run_ops (KnowledgeGraph_new 0) demo_shell_ops = Some g /\ kg_ok g.
Proof. apply (graph_always_ok demo_shell_ops 0). repeat constructor. Defined.

Definition demo_shell_graph : KnowledgeGraph := default (KnowledgeGraph_new 0) (run_ops (KnowledgeGraph_new 0) (take 3 demo_shell_ops)).

Lemma demo_shell_ok : kg_ok demo_shell_graph /\ labelled demo_shell_graph.
Proof.
  unfold demo_shell_graph. destruct (graph_ops_ok (take 3 demo_shell_ops) ltac:(repeat constructor) _ (KnowledgeGraph_new_ok 0) (new_labelled 0))
    as (g & -> & H). exact H.
Qed.

Definition demo_redirect : Edge := with_prop (Edge_new 1 1 RedirectedFd (seconds 10)) "old_fd" (JInt 0).

Lemma reverse_shell_reported_witness :
  exists g' idx new, add_edge demo_shell_graph (Edge_new 1 2 ConnectedTo (seconds 12)) = Some (g', idx) /\
    kg_trigger_incidents g' = kg_trigger_incidents demo_shell_graph ++ new /\ shell_news demo_shell_graph 1 (seconds 12) new.
Proof.
  apply (reverse_shell_reported demo_shell_graph (Edge_new 1 2 ConnectedTo (seconds 12)) demo_redirect).
  - exact (proj1 demo_shell_ok).
  - exact (proj2 demo_shell_ok).
  - assert (outgoing_edges demo_shell_graph 1 = [demo_redirect]) as E by (vm_compute; reflexivity).
    change (ed_from (Edge_new 1 2 ConnectedTo (seconds 12))) with 1. rewrite E. left.
  - reflexivity.
  - left. split; [reflexivity|]. split; [reflexivity|]. split; [vm_compute; reflexivity|]. vm_compute. discriminate.
Defined.
