(* ===== verification/AgentGraphQueries.v ===== *)
(** * AgentGraphQueries: walking the knowledge graph
    (crates/agent/src/knowledge_graph/graph.rs: traversals, aggregation)

    Questions asked of the graph of AgentGraph.v: the shortest path between two
    nodes, the process tree above and below a process, the neighbourhood of a
    node under its caps, the nodes active since an instant, and hits of threat
    intelligence.  The loops have fuel: each turn takes a node from the queue,
    and a node is queued once, when it is first seen, so that the number of
    edges bounds them; [None] is a walk that ran out, which is proved never to
    happen.

    Proved here: [path_between] finds a shortest path within its depth or there
    is none, [descendants] are exactly the processes below, and the
    neighbourhood keeps to its caps. *)

From Stdlib Require Import ZArith Lia Ascii String SpecFloat.
From stdpp Require Import prelude strings gmap list sorting relations.
From S2P Require Import Prelude Text Json Floats CoreTypes AgentGraph.

Local Open Scope string_scope.
Local Open Scope list_scope.
Local Open Scope Z_scope.

(** ** Shortest paths *)

(** The edges at a node with their position and other end, outgoing ones first. *)
Definition hops (g : KnowledgeGraph) (c : Z) : list (nat * Edge * Z) :=
  omap (fun i => e ← kg_edges g !! i; Some (i, e, ed_to e)) (adj (kg_outgoing g) c) ++
  omap (fun i => e ← kg_edges g !! i; Some (i, e, ed_from e)) (adj (kg_incoming g) c).

(** One node's edges: the target is reached, or more nodes are queued. *)
Fixpoint scan (g : KnowledgeGraph) (target : Z) (path : list nat) (items : list (nat * Edge * Z)) (visited : gset Z)
    (queue : list (Z * list nat)) : list Edge + (gset Z * list (Z * list nat)) :=
  match items with
  | [] => inr (visited, queue)
  | (idx, e, other) :: items =>
      if other =? target then inl (edges_at (kg_edges g) path ++ [e])
      else if bool_decide (other ∈ visited) then scan g target path items visited queue
      else scan g target path items ({[other]} ∪ visited) (queue ++ [(other, path ++ [idx])])
  end.

Fixpoint search (fuel : nat) (g : KnowledgeGraph) (target : Z) (max_depth : nat) (visited : gset Z) (queue : list (Z * list nat))
    : option (option (list Edge)) :=
  match queue with
  | [] => Some None
  | (current, path) :: queue =>
      match fuel with
      | O => None
      | S fuel =>
          if Nat.leb max_depth (length path) then search fuel g target max_depth visited queue
          else match scan g target path (hops g current) visited queue with
               | inl found => Some (Some found)
               | inr (visited, queue) => search fuel g target max_depth visited queue
               end
      end
  end.

Definition walk_fuel (g : KnowledgeGraph) : nat := S (S (2 * length (kg_edges g))).

Definition path_between (g : KnowledgeGraph) (from to_ : Z) (max_depth : nat) : option (option (list Edge)) :=
  if from =? to_ then Some (Some []) else search (walk_fuel g) g to_ max_depth {[from]} [(from, [])].

(** ** Process trees *)

(** New ones of [l], and the nodes seen after it. *)
Fixpoint unseen (l : list Z) (visited : gset Z) : gset Z * list Z :=
  match l with
  | [] => (visited, [])
  | x :: l => if bool_decide (x ∈ visited) then unseen l visited
              else let '(visited, fresh) := unseen l ({[x]} ∪ visited) in (visited, x :: fresh)
  end.

Fixpoint flood (fuel : nat) (next : Z -> list Z) (queue : list Z) (visited : gset Z) (result : list Z) : option (list Z) :=
  match queue with
  | [] => Some result
  | current :: queue =>
      match fuel with
      | O => None
      | S fuel => let '(visited, fresh) := unseen (next current) visited in flood fuel next (queue ++ fresh) visited (result ++ fresh)
      end
  end.

Definition is_spawn (e : Edge) : bool := bool_decide (ed_relation e = SpawnedBy).

(** The processes with an edge [SpawnedBy] to this one. *)
Definition children (g : KnowledgeGraph) (c : Z) : list Z := ed_from <$> retain is_spawn (incoming_edges g c).

Definition descendants (g : KnowledgeGraph) (pid : Z) : option (list Z) :=
  match find_by_pid g pid with
  | None => Some []
  | Some start => flood (walk_fuel g) (children g) [start] {[start]} []
  end.

Definition parent (g : KnowledgeGraph) (c : Z) : option Z := ed_to <$> head (retain is_spawn (outgoing_edges g c)).

Fixpoint climb (fuel : nat) (g : KnowledgeGraph) (current : Z) (visited : gset Z) (result : list Z) : option (list Z) :=
  match parent g current with
  | None => Some result
  | Some p =>
      if bool_decide (p ∈ visited) then Some result
      else match fuel with O => None | S fuel => climb fuel g p ({[p]} ∪ visited) (result ++ [p]) end
  end.

Definition ancestors (g : KnowledgeGraph) (pid : Z) : option (list Z) :=
  match find_by_pid g pid with
  | None => Some []
  | Some start => climb (walk_fuel g) g start {[start]} []
  end.

(** ** Neighbourhoods *)

Definition MAX_TOTAL_EDGES : nat := 500.
Definition MAX_EDGES_PER_NODE : nat := 50.

Record SubGraph := { sg_nodes : gmap Z Node; sg_edges : list Edge }.

Record Walk := { wk_sub : SubGraph; wk_visited : gset Z; wk_queue : list (Z * nat); wk_per_node : nat }.

Definition take_edge (g : KnowledgeGraph) (d : nat) (w : Walk) (e : Edge) (other : Z) : Walk :=
  let sub := {| sg_nodes := sg_nodes (wk_sub w); sg_edges := sg_edges (wk_sub w) ++ [e] |} in
  if bool_decide (other ∈ wk_visited w) then
    {| wk_sub := sub; wk_visited := wk_visited w; wk_queue := wk_queue w; wk_per_node := S (wk_per_node w) |}
  else
    {| wk_sub := {| sg_nodes := match kg_nodes g !! other with Some n => <[other := n]> (sg_nodes sub) | None => sg_nodes sub end;
                    sg_edges := sg_edges sub |};
       wk_visited := {[other]} ∪ wk_visited w; wk_queue := wk_queue w ++ [(other, S d)]; wk_per_node := S (wk_per_node w) |}.

(** [true]: the whole walk is at its cap. *)
Fixpoint take_edges (g : KnowledgeGraph) (d cap : nat) (other : Edge -> Z) (es : list Edge) (w : Walk) : Walk * bool :=
  match es with
  | [] => (w, false)
  | e :: es =>
      if Nat.leb MAX_TOTAL_EDGES (length (sg_edges (wk_sub w))) then (w, true)
      else if Nat.leb cap (wk_per_node w) then (w, false)
      else take_edges g d cap other es (take_edge g d w e (other e))
  end.

Definition expand (g : KnowledgeGraph) (current : Z) (d : nat) (w : Walk) : Walk * bool :=
  let w := {| wk_sub := wk_sub w; wk_visited := wk_visited w; wk_queue := wk_queue w; wk_per_node := 0 |} in
  let '(w, stop) := take_edges g d MAX_EDGES_PER_NODE ed_to (outgoing_edges g current) w in
  if stop then (w, true) else take_edges g d (MAX_EDGES_PER_NODE * 2) ed_from (incoming_edges g current) w.

Fixpoint roam (fuel : nat) (g : KnowledgeGraph) (depth : nat) (w : Walk) : option SubGraph :=
  match wk_queue w with
  | [] => Some (wk_sub w)
  | (current, d) :: queue =>
      match fuel with
      | O => None
      | S fuel =>
          let w := {| wk_sub := wk_sub w; wk_visited := wk_visited w; wk_queue := queue; wk_per_node := wk_per_node w |} in
          if Nat.leb depth d then roam fuel g depth w
          else let '(w, stop) := expand g current d w in if stop then Some (wk_sub w) else roam fuel g depth w
      end
  end.

Definition neighborhood (g : KnowledgeGraph) (start : Z) (depth : nat) : option SubGraph :=
  match kg_nodes g !! start with
  | None => Some {| sg_nodes := ∅; sg_edges := [] |}
  | Some n => roam (walk_fuel g) g depth {| wk_sub := {| sg_nodes := {[start := n]}; sg_edges := [] |}; wk_visited := {[start]};
                                            wk_queue := [(start, 0%nat)]; wk_per_node := 0 |}
  end.

(** ** Activity, threat intelligence, counts *)

Fixpoint active_from (since : Z) (newest_first : list Edge) (active : gset Z) : gset Z :=
  match newest_first with
  | [] => active
  | e :: es => if ed_ts e <? since then active else active_from since es ({[ed_from e; ed_to e]} ∪ active)
  end.
Definition active_nodes_since (g : KnowledgeGraph) (since : Z) : gset Z := active_from since (rev (kg_edges g)) ∅.

(** A [HashSet] is iterated in any order; here in that of its elements. *)
Definition threat_intel_hits (g : KnowledgeGraph) : list (Z * Z * string) :=
  ip_id ← elements (kg_threat_intel g);
  match kg_nodes g !! ip_id with
  | Some (NIp i) =>
      e ← retain (fun e => bool_decide (ed_relation e = ConnectedTo)) (incoming_edges g ip_id);
      (fun ds => (ed_from e, ip_id, ds)) <$> ipn_datasets i
  | _ => []
  end.

Definition nodes_of_type (g : KnowledgeGraph) (nt : NodeType) : list Z :=
  (retain (fun kv => bool_decide (node_type kv.2 = nt)) (map_to_list (kg_nodes g))).*1.

Definition edges_in_window (g : KnowledgeGraph) (v : Z) (relation : Relation) (now window : Z) : list Edge :=
  retain (fun e => bool_decide (ed_relation e = relation) && (now - ed_ts e <? window)) (outgoing_edges g v).
Definition count_edges_in_window (g : KnowledgeGraph) (v : Z) (relation : Relation) (now window : Z) : nat :=
  length (edges_in_window g v relation now window).
Definition count_distinct_targets_in_window (g : KnowledgeGraph) (v : Z) (relation : Relation) (now window : Z) : nat :=
  size (list_to_set (ed_to <$> edges_in_window g v relation now window) : gset Z).

(** ** Counting what is left to see *)

Lemma size_unseen (U V : gset Z) (fresh : list Z) : NoDup fresh -> (forall x, x ∈ fresh -> x ∈ U /\ (x ∉ V)) ->
  size (U ∖ V) = (length fresh + size (U ∖ (list_to_set fresh ∪ V)))%nat.
Proof.
  intros Hnd Hf. rewrite <- (size_list_to_set (C := gset Z) fresh Hnd), <- size_union by set_solver.
  f_equal. apply set_eq. intros x. rewrite elem_of_difference, elem_of_union, elem_of_difference, elem_of_union, elem_of_list_to_set.
  destruct (decide (x ∈ fresh)); [|tauto]. pose proof (Hf x). tauto.
Qed.

(** All nodes that an edge of the graph names, and one more. *)
Definition universe (g : KnowledgeGraph) (start : Z) : gset Z :=
  {[start]} ∪ (list_to_set (ed_from <$> kg_edges g) ∪ list_to_set (ed_to <$> kg_edges g)).

Lemma size_union_le (X Y : gset Z) : (size (X ∪ Y) <= size X + size Y)%nat.
Proof. rewrite size_union_alt. assert (size (Y ∖ X) <= size Y)%nat by (apply subseteq_size; set_solver). lia. Qed.

Lemma size_list_to_set_le (l : list Z) : (size (list_to_set l : gset Z) <= length l)%nat.
Proof.
  induction l as [|x l IH]; cbn; [by rewrite size_empty|]. pose proof (size_union_le ({[x]} : gset Z) (list_to_set l)) as Hu.
  rewrite size_singleton in Hu. lia.
Qed.

Lemma universe_size g start : (size (universe g start ∖ {[start]}) <= 2 * length (kg_edges g))%nat.
Proof.
  set (A := list_to_set (ed_from <$> kg_edges g) : gset Z). set (B := list_to_set (ed_to <$> kg_edges g) : gset Z).
  assert (size (universe g start ∖ {[start]}) <= size (A ∪ B))%nat as Hle by (apply subseteq_size; unfold universe; set_solver).
  pose proof (size_union_le A B) as Hu. pose proof (size_list_to_set_le (ed_from <$> kg_edges g)) as H1.
  pose proof (size_list_to_set_le (ed_to <$> kg_edges g)) as H2. rewrite length_fmap in H1, H2. unfold A, B in *. lia.
Qed.

Lemma universe_edge g start i e : kg_edges g !! i = Some e -> ed_from e ∈ universe g start /\ ed_to e ∈ universe g start.
Proof.
  intros He%list_elem_of_lookup_2. unfold universe. rewrite !elem_of_union, !elem_of_list_to_set.
  split; right; [left|right]; by apply list_elem_of_fmap_2.
Qed.

(** ** Paths *)

Lemma hops_elem g c i e y : (i, e, y) ∈ hops g c <->
  kg_edges g !! i = Some e /\ ((i ∈ adj (kg_outgoing g) c /\ y = ed_to e) \/ (i ∈ adj (kg_incoming g) c /\ y = ed_from e)).
Proof.
  unfold hops. rewrite elem_of_app, !list_elem_of_omap. split.
  - intros [(i' & Hi & (e' & He & [= <- <- <-])%bind_Some)|(i' & Hi & (e' & He & [= <- <- <-])%bind_Some)]; auto.
  - intros [He [[Hi ->]|[Hi ->]]]; [left|right]; exists i; (split; [done|]); by rewrite He.
Qed.

(** An edge, in either direction, leads from one node to the other. *)
Definition linked (g : KnowledgeGraph) (x y : Z) : Prop := exists i e, (i, e, y) ∈ hops g x.

(** The edges lead from one node to the other, each in either direction. *)
Inductive chain (g : KnowledgeGraph) : Z -> list Edge -> Z -> Prop :=
| chain_nil x : chain g x [] x
| chain_cons x i e y es z : (i, e, y) ∈ hops g x -> chain g y es z -> chain g x (e :: es) z.

Lemma chain_snoc g x es y i e z : chain g x es y -> (i, e, z) ∈ hops g y -> chain g x (es ++ [e]) z.
Proof. induction 1 as [x|x i' e' y' es z' Hh Hc IH]; intros Hz; cbn; econstructor; try done; [constructor|by apply IH]. Qed.

Lemma chain_nsteps g x es y : chain g x es y -> nsteps (linked g) (length es) x y.
Proof. induction 1 as [x|x i e y es z Hh Hc IH]; [constructor|]. cbn. econstructor; [|exact IH]. by exists i, e. Qed.

Lemma scan_spec g target path items : forall V Q,
  match scan g target path items V Q with
  | inl r => exists i e, (i, e, target) ∈ items /\ r = edges_at (kg_edges g) path ++ [e]
  | inr (V', Q') => exists add, Q' = Q ++ add /\ NoDup add.*1 /\ V' = list_to_set add.*1 ∪ V /\
      (forall v p, (v, p) ∈ add -> (v ∉ V) /\ v <> target /\ exists i e, (i, e, v) ∈ items /\ p = path ++ [i]) /\
      (forall i e y, (i, e, y) ∈ items -> y ∈ V' /\ y <> target)
  end.
Proof.
  induction items as [|[[i e] other] items IH]; intros V Q; cbn [scan].
  { exists []. rewrite app_nil_r. split_and!; [done|constructor|set_solver|by intros v p ?%elem_of_nil|by intros ??? ?%elem_of_nil]. }
  destruct (Z.eqb_spec other target) as [->|Hne]; [exists i, e; split; [left|done]|]. case_bool_decide as Hv.
  - specialize (IH V Q). destruct (scan _ _ _ _ _ _) as [r|[V' Q']].
    + destruct IH as (i' & e' & Hin & ->). exists i', e'. split; [by right|done].
    + destruct IH as (add & -> & Hnd & -> & Ha & Hy). exists add. split_and!; [done|done|done| |].
      * intros v p Hin. destruct (Ha v p Hin) as (? & ? & i' & e' & ? & ?). split_and!; [done|done|]. exists i', e'. split; [by right|done].
      * intros i' e' y [[= -> -> ->]|Hin]%elem_of_cons; [split; [set_solver|done]|by apply (Hy i' e')].
  - specialize (IH ({[other]} ∪ V) (Q ++ [(other, path ++ [i])])). destruct (scan _ _ _ _ _ _) as [r|[V' Q']].
    + destruct IH as (i' & e' & Hin & ->). exists i', e'. split; [by right|done].
    + destruct IH as (add & -> & Hnd & -> & Ha & Hy). exists ((other, path ++ [i]) :: add). split_and!.
      * by rewrite <- app_assoc.
      * cbn. apply NoDup_cons. split; [|done]. intros ([v p] & Ev & Hin)%list_elem_of_fmap. cbn in Ev. subst v.
        destruct (Ha _ _ Hin) as (Hno & _). apply Hno. set_solver.
      * cbn. set_solver.
      * intros v p [[= -> ->]|Hin]%elem_of_cons.
        -- split_and!; [done|done|]. exists i, e. split; [left|done].
        -- destruct (Ha v p Hin) as (Hno & ? & i' & e' & ? & ?). split_and!; [set_solver|done|]. exists i', e'. split; [by right|done].
      * intros i' e' y [[= -> -> ->]|Hin]%elem_of_cons; [split; [set_solver|done]|]. destruct (Hy i' e' y Hin). split; [set_solver|done].
Qed.

Section shortest.
Context (g : KnowledgeGraph) (from target : Z) (max_depth : nat).

Definition within (d : nat) (v : Z) : Prop := exists n, (n <= d)%nat /\ nsteps (linked g) n from v.

(** The queue holds what is left of the nodes at distance [d], and those found
    at distance [S d]. *)
Record layers (d : nat) (q1 q2 : list (Z * list nat)) (V : gset Z) : Prop := {
  ly_path v p : (v, p) ∈ q1 ++ q2 -> v ∈ V /\ chain g from (edges_at (kg_edges g) p) v /\ length (edges_at (kg_edges g) p) = length p;
  ly_near v p : (v, p) ∈ q1 -> length p = d;
  ly_far v p : (v, p) ∈ q2 -> length p = S d /\ ~ within d v;
  ly_all v : within d v -> v ∈ V;
  ly_done v : v ∈ V -> (exists p, (v, p) ∈ q1 ++ q2) \/ forall y, linked g v y -> y ∈ V /\ y <> target;
  ly_target : target ∉ V;
  ly_sub : V ⊆ universe g from;
}.

Lemma within_S d v : within (S d) v -> within d v \/ exists u, within d u /\ linked g u v.
Proof.
  intros (n & Hn & Hs). destruct n as [|n]; [left; exists 0%nat; split; [lia|done]|].
  destruct (nsteps_inv_r n from v Hs) as (u & Hu & Hl). right. exists u. split; [|done]. exists n. split; [lia|done].
Qed.

Lemma layers_shift d q2 V : layers d [] q2 V -> layers (S d) q2 [] V.
Proof.
  intros [Hp Hn Hf Ha Hd Ht Hu]. split; try done.
  - intros v p. rewrite app_nil_r. apply Hp.
  - intros v p Hin. by destruct (Hf v p Hin).
  - by intros v p ?%elem_of_nil.
  - intros v [Hw|(u & Hw & Hl)]%within_S; [by apply Ha|]. destruct (Hd u (Ha u Hw)) as [(p & Hin)|Hnext].
    + by destruct (Hf u p Hin).
    + by destruct (Hnext v Hl).
  - intros v Hv. rewrite app_nil_r. by apply Hd.
Qed.

(** A queue of nodes that are all too far is only emptied. *)
Lemma search_far fuel V q : (length q <= fuel)%nat -> (forall v p, (v, p) ∈ q -> (max_depth <= length p)%nat) ->
  search fuel g target max_depth V q = Some None.
Proof.
  revert q. induction fuel as [|fuel IH]; intros [|[c p] q] Hl Hq; cbn in Hl |- *; try done; [lia|].
  rewrite (proj2 (Nat.leb_le _ _) (Hq c p ltac:(left))). apply IH; [lia|]. intros v p' Hin. apply (Hq v). by right.
Qed.

Definition shortest (r : option (list Edge)) : Prop :=
  match r with
  | Some es => chain g from es target /\ (length es <= max_depth)%nat /\ forall n, nsteps (linked g) n from target -> (length es <= n)%nat
  | None => forall n, (n <= max_depth)%nat -> ~ nsteps (linked g) n from target
  end.

Lemma layers_beyond d q1 q2 V : layers d q1 q2 V -> (max_depth <= d)%nat -> shortest None.
Proof. intros Hl Hd n Hn Hs. apply (ly_target _ _ _ _ Hl), (ly_all _ _ _ _ Hl). exists n. split; [lia|done]. Qed.

Lemma layers_empty d V : layers d [] [] V -> shortest None.
Proof.
  intros Hl n _ Hs. apply (ly_target _ _ _ _ Hl). revert Hs. assert (from ∈ V) as Hf.
  { apply (ly_all _ _ _ _ Hl). exists 0%nat. split; [lia|constructor]. }
  assert (forall v y, v ∈ V -> linked g v y -> y ∈ V) as Hc.
  { intros v y Hv Hy. destruct (ly_done _ _ _ _ Hl v Hv) as [(p & ?%elem_of_nil)|Hx]; [done|by apply Hx]. }
  clear Hl. generalize from Hf. induction n as [|n IH]; intros x Hx Hs; inversion Hs; subst; [done|]. by apply (IH y); [eapply Hc|].
Qed.

Lemma edges_at_snoc edges p i e : edges !! i = Some e -> edges_at edges (p ++ [i]) = edges_at edges p ++ [e].
Proof. intros He. unfold edges_at. rewrite omap_app. cbn. by rewrite He. Qed.

(** Taking one node of the near layer. *)
Lemma layers_expand d c path q1 q2 V : layers d ((c, path) :: q1) q2 V -> (d < max_depth)%nat ->
  match scan g target path (hops g c) V (q1 ++ q2) with
  | inl r => shortest (Some r)
  | inr (V', Q') => exists add, Q' = q1 ++ q2 ++ add /\ layers d q1 (q2 ++ add) V' /\
      size (universe g from ∖ V) = (length add + size (universe g from ∖ V'))%nat
  end.
Proof.
  intros Hly Hd. pose proof Hly as [Hp Hn Hf Ha Hdn Ht Hu].
  destruct (Hp c path ltac:(left)) as (Hcv & Hch & Hlen). pose proof (Hn c path ltac:(left)) as Hpd.
  pose proof (scan_spec g target path (hops g c) V (q1 ++ q2)) as Hs. destruct (scan _ _ _ _ _ _) as [r|[V' Q']].
  - destruct Hs as (i & e & Hh & ->). split_and!.
    + by eapply chain_snoc.
    + rewrite length_app. cbn. lia.
    + intros n Hst. destruct (Nat.le_gt_cases (length (edges_at (kg_edges g) path ++ [e])) n) as [|Hlt]; [done|]. exfalso.
      rewrite length_app in Hlt. cbn in Hlt. apply Ht, Ha. exists n. split; [lia|done].
  - destruct Hs as (add & -> & Hnd & -> & Hadd & Hy). exists add.
    assert (forall v p, (v, p) ∈ add -> v ∈ universe g from) as Hau.
    { intros v p Hin. destruct (Hadd v p Hin) as (_ & _ & i & e & Hh & _). apply hops_elem in Hh as [He Hh].
      destruct (universe_edge g from i e He). by destruct Hh as [[_ ->]|[_ ->]]. }
    split; [by rewrite app_assoc|]. split.
    + split.
      * intros v p Hin. assert ((v, p) ∈ q1 ++ q2 \/ (v, p) ∈ add) as [Hin'|Hin'] by (rewrite !elem_of_app in Hin; rewrite elem_of_app; tauto).
        -- destruct (Hp v p) as (? & ? & ?); [by right|]. split_and!; [set_solver|done|done].
        -- destruct (Hadd v p Hin') as (_ & _ & i & e & Hh & ->). pose proof Hh as [He _]%hops_elem.
           rewrite (edges_at_snoc _ _ _ _ He), !length_app. split_and!; [|by eapply chain_snoc|cbn; lia].
           apply elem_of_union. left. apply elem_of_list_to_set, list_elem_of_fmap. by exists (v, path ++ [i]).
      * intros v p Hin. apply (Hn v). by right.
      * intros v p [Hin|Hin]%elem_of_app; [by apply Hf|]. destruct (Hadd v p Hin) as (Hno & _ & i & e & _ & ->). rewrite length_app. cbn.
        split; [lia|]. intros Hw. by apply Hno, Ha.
      * intros v Hw. apply elem_of_union. right. by apply Ha.
      * intros v Hv. apply elem_of_union in Hv as [Hv|Hv].
        -- apply elem_of_list_to_set, list_elem_of_fmap in Hv as ([v' p] & -> & Hin). left. exists p. rewrite !elem_of_app. auto.
        -- destruct (Hdn v Hv) as [(p & Hin)|Hnext].
           ++ cbn in Hin. apply elem_of_cons in Hin as [[= -> ->]|Hin].
              ** right. intros y (i & e & Hh). by apply (Hy i e).
              ** left. exists p. rewrite !elem_of_app in *. tauto.
           ++ right. intros y Hl. destruct (Hnext y Hl). split; [set_solver|done].
      * rewrite elem_of_union, elem_of_list_to_set, list_elem_of_fmap. intros [([v p] & -> & Hin)|?]; [|done].
        by destruct (Hadd _ _ Hin) as (_ & ? & _).
      * apply union_subseteq. split; [|done]. intros v. rewrite elem_of_list_to_set, list_elem_of_fmap.
        intros ([v' p] & -> & Hin). by eapply Hau.
    + rewrite <- (length_fmap fst add). apply size_unseen; [done|]. intros v. rewrite list_elem_of_fmap.
      intros ([v' p] & -> & Hin). split; [by eapply Hau|]. by destruct (Hadd _ _ Hin).
Qed.

Lemma search_layers fuel : forall d q1 q2 V, layers d q1 q2 V -> (length (q1 ++ q2) + size (universe g from ∖ V) <= fuel)%nat ->
  exists r, search fuel g target max_depth V (q1 ++ q2) = Some r /\ shortest r.
Proof.
  induction fuel as [|fuel IH]; intros d q1 q2 V Hl Hf.
  { assert (q1 ++ q2 = []) as E by (destruct (q1 ++ q2); [done|cbn in Hf; lia]). rewrite E. exists None. split; [done|].
    apply app_eq_nil in E as [-> ->]. by eapply layers_empty. }
  assert (exists d' q1' q2', layers d' q1' q2' V /\ q1' ++ q2' = q1 ++ q2 /\ (q1' = [] -> q1 ++ q2 = [])) as (d' & q1' & q2' & Hl' & E & Hne).
  { destruct q1 as [|x q1]; [|by exists d, (x :: q1), q2].
    exists (S d), q2, []. split; [by apply layers_shift|]. rewrite app_nil_r. split; [done|]. by intros ->. }
  rewrite <- E in *. clear d q1 q2 Hl E. destruct q1' as [|[c path] q1].
  { rewrite (Hne eq_refl). exists None. split; [done|]. specialize (Hne eq_refl). cbn in Hne. subst q2'. by eapply layers_empty. }
  cbn [app] in *. cbn [search]. pose proof (ly_near _ _ _ _ Hl' c path ltac:(left)) as Hd. cbn in Hf.
  destruct (Nat.leb_spec max_depth (length path)) as [Hm|Hm].
  - exists None. split; [|eapply layers_beyond; [done|lia]]. apply search_far; [lia|]. intros v p Hin.
    apply elem_of_app in Hin as [Hin|Hin].
    + rewrite (ly_near _ _ _ _ Hl' v p ltac:(by right)). lia.
    + destruct (ly_far _ _ _ _ Hl' v p Hin). lia.
  - pose proof (layers_expand d' c path q1 q2' V Hl' ltac:(lia)) as Hx. destruct (scan _ _ _ _ _ _) as [r|[V' Q']]; [by exists (Some r)|].
    destruct Hx as (add & -> & Hl2 & Hsz). apply (IH d' q1 (q2' ++ add)); [done|]. rewrite !length_app in *. lia.
Qed.

Lemma start_layers : from <> target -> layers 0 [(from, [])] [] {[from]}.
Proof.
  intros Hne. split.
  - intros v p [[= -> ->]|?%elem_of_nil]%elem_of_cons; [|done]. split; [set_solver|]. split; [constructor|done].
  - by intros v p [[= -> ->]|?%elem_of_nil]%elem_of_cons.
  - by intros v p ?%elem_of_nil.
  - intros v (n & Hn & Hs). assert (n = 0%nat) as -> by lia. inversion Hs; subst. set_solver.
  - intros v ->%elem_of_singleton. left. exists []. left.
  - set_solver.
  - unfold universe. set_solver.
Qed.
End shortest.

(** C36. The search ends; what it finds are edges that lead from one node to the
    other, no longer than the limit and than any other way, and when it finds
    nothing no way is within the limit. *)
Theorem path_between_shortest (g : KnowledgeGraph) (from target : Z) (max_depth : nat) :
  exists r, path_between g from target max_depth = Some r /\ shortest g from target max_depth r.
Proof.
  unfold path_between. destruct (Z.eqb_spec from target) as [->|Hne].
  { exists (Some []). split; [done|]. split_and!; [constructor|cbn; lia|cbn; lia]. }
  apply (search_layers g from target max_depth (walk_fuel g) 0 [(from, [])] [] {[from]}); [by apply start_layers|].
  pose proof (universe_size g from). cbn. unfold walk_fuel. lia.
Qed.

(** ** Descendants *)

Lemma unseen_spec l : forall V, let '(V', fresh) := unseen l V in
  NoDup fresh /\ V' = list_to_set fresh ∪ V /\ forall x, x ∈ fresh <-> x ∈ l /\ (x ∉ V).
Proof.
  induction l as [|a l IH]; intros V; cbn [unseen].
  { split_and!; [constructor|set_solver|]. intros x. split; [by intros ?%elem_of_nil|by intros [?%elem_of_nil _]]. }
  case_bool_decide as Ha.
  - specialize (IH V). destruct (unseen l V) as [V' fresh]. destruct IH as (H1 & H2 & H3). split_and!; [done|done|].
    intros x. rewrite H3, elem_of_cons. split; [tauto|]. intros [[->|?] ?]; [done|done].
  - specialize (IH ({[a]} ∪ V)). destruct (unseen l ({[a]} ∪ V)) as [V' fresh]. destruct IH as (H1 & -> & H3). split_and!.
    + apply NoDup_cons. split; [|done]. rewrite H3. set_solver.
    + cbn. set_solver.
    + intros x. rewrite !elem_of_cons, H3, elem_of_union, elem_of_singleton. destruct (decide (x = a)) as [->|]; tauto.
Qed.

Section flooding.
Context (next : Z -> list Z) (U : gset Z) (start : Z).
Context (HU : forall x y, y ∈ next x -> y ∈ U).

Definition below (x y : Z) : Prop := y ∈ next x.

Record flooded (queue : list Z) (V : gset Z) (result : list Z) : Prop := {
  fl_seen : V = {[start]} ∪ list_to_set result;
  fl_nodup : NoDup (start :: result);
  fl_queue x : x ∈ queue -> x ∈ V;
  fl_reach x : x ∈ V -> rtc below start x;
  fl_closed x : x ∈ V -> x ∈ queue \/ forall y, below x y -> y ∈ V;
  fl_sub : list_to_set result ⊆ U;
}.

Lemma flood_step c q V r : flooded (c :: q) V r -> let '(V', fresh) := unseen (next c) V in
  flooded (q ++ fresh) V' (r ++ fresh) /\ size (U ∖ V) = (length fresh + size (U ∖ V'))%nat.
Proof.
  intros [Hs Hn Hq Hr Hc Hu]. pose proof (unseen_spec (next c) V) as Hx. destruct (unseen (next c) V) as [V' fresh].
  destruct Hx as (Hnd & -> & Hf). split; [split|].
  - rewrite Hs, list_to_set_app_L. set_solver.
  - rewrite app_comm_cons. apply NoDup_app. split; [done|]. split; [|done]. intros x Hx [_ Hno]%Hf. apply Hno. rewrite Hs.
    apply elem_of_cons in Hx as [->|Hx]; [set_solver|]. apply elem_of_union. right. by apply elem_of_list_to_set.
  - intros x [Hx|Hx]%elem_of_app; apply elem_of_union; [right; apply Hq; by right|left; by apply elem_of_list_to_set].
  - intros x [Hx%elem_of_list_to_set|Hx]%elem_of_union; [|by apply Hr]. apply Hf in Hx as [Hx _]. eapply rtc_r; [|exact Hx]. apply Hr, Hq. left.
  - intros x [Hx%elem_of_list_to_set|Hx]%elem_of_union; [left; apply elem_of_app; by right|].
    destruct (Hc x Hx) as [[->|Hin]%elem_of_cons|Hcl].
    + right. intros y Hy. destruct (decide (y ∈ V)); [set_solver|]. apply elem_of_union. left. apply elem_of_list_to_set, Hf. done.
    + left. apply elem_of_app. by left.
    + right. intros y Hy. apply elem_of_union. right. by apply Hcl.
  - rewrite list_to_set_app_L. apply union_subseteq. split; [done|]. intros x Hx%elem_of_list_to_set. apply Hf in Hx as [Hx _]. by eapply HU.
  - apply size_unseen; [done|]. intros x [Hx Hno]%Hf. split; [by eapply HU|done].
Qed.

Lemma flood_spec fuel : forall q V r, flooded q V r -> (length q + size (U ∖ V) <= fuel)%nat ->
  exists r', flood fuel next q V r = Some r' /\ NoDup r' /\ forall x, x ∈ r' <-> x <> start /\ rtc below start x.
Proof.
  assert (forall V r, flooded [] V r -> NoDup r /\ forall x, x ∈ r <-> x <> start /\ rtc below start x) as Hend.
  { intros V r [-> Hn Hq Hr Hc _]. apply NoDup_cons in Hn as [Hs Hn]. split; [done|].
    assert (forall x, rtc below start x -> x ∈ ({[start]} ∪ list_to_set r : gset Z)) as Hall.
    { apply (rtc_ind_r (fun x => x ∈ ({[start]} ∪ list_to_set r : gset Z)) start); [set_solver|]. intros x y _ Hxy IH.
      destruct (Hc x IH) as [?%elem_of_nil|Hcl]; [done|by apply Hcl]. }
    intros x. split.
    - intros Hx. split; [by intros ->|]. apply Hr, elem_of_union. right. by apply elem_of_list_to_set.
    - intros [Hne Hx%Hall]. apply elem_of_union in Hx as [->%elem_of_singleton|Hx%elem_of_list_to_set]; done. }
  induction fuel as [|fuel IH]; intros [|c q] V r Hf Hl; cbn [flood]; [by exists r; split; [|eapply Hend]|cbn in Hl; lia|by exists r; split; [|eapply Hend]|].
  pose proof (flood_step c q V r Hf) as Hst. destruct (unseen (next c) V) as [V' fresh]. destruct Hst as [Hf' Hsz].
  apply IH; [done|]. rewrite length_app. cbn in Hl. lia.
Qed.
End flooding.

Lemma children_universe g start x y : y ∈ children g x -> y ∈ universe g start.
Proof.
  unfold children. intros (e & -> & [He _]%retain_elem)%list_elem_of_fmap. apply list_elem_of_omap in He as (i & _ & He).
  by destruct (universe_edge g start i e He).
Qed.

(** The walk ends, and lists every process that the start has spawned, directly
    or through others, once, and no other. *)
Theorem descendants_exact (g : KnowledgeGraph) (pid : Z) :
  exists l, descendants g pid = Some l /\ NoDup l /\
  forall x, x ∈ l <-> exists start, find_by_pid g pid = Some start /\ x <> start /\ rtc (fun p c => c ∈ children g p) start x.
Proof.
  unfold descendants. destruct (find_by_pid g pid) as [start|].
  2: { exists []. split; [done|]. split; [constructor|]. intros x. split; [by intros ?%elem_of_nil|by intros (s & ? & _)]. }
  destruct (flood_spec (children g) (universe g start) start (children_universe g start) (walk_fuel g) [start] {[start]} []) as (l & -> & Hn & Hx).
  - split.
    + set_solver.
    + apply NoDup_singleton.
    + intros x ->%list_elem_of_singleton. set_solver.
    + intros x ->%elem_of_singleton. constructor.
    + intros x ->%elem_of_singleton. left. left.
    + set_solver.
  - pose proof (universe_size g start). cbn. unfold walk_fuel. lia.
  - exists l. split; [done|]. split; [done|]. intros x. rewrite Hx. split; [by exists start|by intros (s & [= <-] & ?)].
Qed.

(** ** Ancestors *)

Lemma parent_universe g start c p : parent g c = Some p -> p ∈ universe g start.
Proof.
  unfold parent. intros (e & He & ->)%fmap_Some. apply head_Some_elem_of, retain_elem in He as [He _].
  apply list_elem_of_omap in He as (i & _ & He). by destruct (universe_edge g start i e He).
Qed.

(** The ids lead upwards, each the parent of the one before. *)
Fixpoint upwards (g : KnowledgeGraph) (c : Z) (l : list Z) : Prop :=
  match l with [] => True | p :: l => parent g c = Some p /\ upwards g p l end.

Lemma upwards_snoc g l : forall c p, upwards g c l -> parent g (default c (last l)) = Some p -> upwards g c (l ++ [p]).
Proof.
  induction l as [|x l IH]; intros c p Hl Hp; [done|]. destruct Hl as [Hx Hl]. cbn. split; [done|]. apply IH; [done|].
  rewrite last_cons in Hp. by destruct (last l).
Qed.

Lemma climb_spec g start fuel : forall V r, V = {[start]} ∪ list_to_set r -> NoDup (start :: r) -> upwards g start r ->
  (size (universe g start ∖ V) <= fuel)%nat ->
  exists l, climb fuel g (default start (last r)) V r = Some l /\ NoDup (start :: l) /\ upwards g start l /\
  match parent g (default start (last l)) with Some p => p ∈ start :: l | None => True end.
Proof.
  induction fuel as [|fuel IH]; intros V r HV Hn Hu Hf; cbn [climb];
    destruct (parent g (default start (last r))) as [p|] eqn:Ep; try (exists r; rewrite Ep; done);
    case_bool_decide as Hp.
  1, 3: exists r; rewrite Ep; split_and!; try done; subst V; apply elem_of_union in Hp as [->%elem_of_singleton|Hp%elem_of_list_to_set];
    [left|by right].
  - exfalso. assert (p ∈ universe g start ∖ V) as Hx by (apply elem_of_difference; split; [by eapply parent_universe|done]).
    assert (size (universe g start ∖ V) <> 0%nat); [|lia]. apply size_non_empty_iff. set_solver.
  - assert (default start (last (r ++ [p])) = p) as El by by rewrite last_snoc.
    specialize (IH ({[p]} ∪ V) (r ++ [p])). rewrite El in IH. apply IH.
    + subst V. rewrite list_to_set_app_L. cbn. set_solver.
    + rewrite app_comm_cons. apply NoDup_app. split; [done|]. split; [|apply NoDup_singleton]. intros x Hx ->%list_elem_of_singleton.
      apply Hp. subst V. apply elem_of_cons in Hx as [->|Hx]; [set_solver|]. apply elem_of_union. right. by apply elem_of_list_to_set.
    + by apply upwards_snoc.
    + rewrite (size_unseen (universe g start) V [p]) in Hf.
      * cbn in Hf. rewrite union_empty_r_L in Hf. lia.
      * apply NoDup_singleton.
      * intros x ->%list_elem_of_singleton. split; [by eapply parent_universe|done].
Qed.

(** The walk up the process tree ends, at a process without a parent or where it
    would close a circle; no process comes twice. *)
Theorem ancestors_end (g : KnowledgeGraph) (pid start : Z) : find_by_pid g pid = Some start ->
  exists l, ancestors g pid = Some l /\ NoDup (start :: l) /\ upwards g start l /\
  match parent g (default start (last l)) with Some p => p ∈ start :: l | None => True end.
Proof.
  intros Hs. unfold ancestors. rewrite Hs. apply (climb_spec g start (walk_fuel g) {[start]} []).
  - set_solver.
  - apply NoDup_singleton.
  - done.
  - pose proof (universe_size g start). unfold walk_fuel. lia.
Qed.

(** ** Neighbourhoods *)

Record roaming (g : KnowledgeGraph) (start : Z) (w : Walk) : Prop := {
  rm_edges : (length (sg_edges (wk_sub w)) <= MAX_TOTAL_EDGES)%nat;
  rm_real e : e ∈ sg_edges (wk_sub w) -> e ∈ kg_edges g;
  rm_nodes id n : sg_nodes (wk_sub w) !! id = Some n -> kg_nodes g !! id = Some n /\ id ∈ wk_visited w;
  rm_seen : (size (wk_visited w) <= S (length (sg_edges (wk_sub w))))%nat;
  rm_sub : wk_visited w ⊆ universe g start;
}.

(** What a walk has left to do. *)
Definition left_to_do (g : KnowledgeGraph) (start : Z) (w : Walk) : nat := (length (wk_queue w) + size (universe g start ∖ wk_visited w))%nat.

Lemma take_edge_ok g start d w e other : roaming g start w -> (length (sg_edges (wk_sub w)) < MAX_TOTAL_EDGES)%nat -> e ∈ kg_edges g ->
  other ∈ universe g start -> roaming g start (take_edge g d w e other) /\ left_to_do g start (take_edge g d w e other) = left_to_do g start w.
Proof.
  intros [H1 H2 H3 H4 H5] Hlt He Ho. unfold take_edge, left_to_do. case_bool_decide as Hv; cbn; rewrite ?length_app; cbn.
  - split; [|done]. split; cbn; rewrite ?length_app; cbn; [lia| |done|lia|done].
    intros e' [?| ->%list_elem_of_singleton]%elem_of_app; auto.
  - split.
    + split; cbn; rewrite ?length_app; cbn; [lia| | | |set_solver].
      * intros e' [?| ->%list_elem_of_singleton]%elem_of_app; auto.
      * intros id n. destruct (kg_nodes g !! other) as [n'|] eqn:En.
        -- rewrite lookup_insert_Some. intros [[<- <-]|[_ Hn]]; [split; [done|set_solver]|]. destruct (H3 id n Hn). split; [done|set_solver].
        -- intros Hn. destruct (H3 id n Hn). split; [done|set_solver].
      * pose proof (size_union_le {[other]} (wk_visited w)) as Hs. rewrite size_singleton in Hs. lia.
    + pose proof (size_unseen (universe g start) (wk_visited w) [other] (NoDup_singleton _)) as Hs.
      rewrite Hs by (by intros x ->%list_elem_of_singleton). cbn. rewrite union_empty_r_L. lia.
Qed.

Lemma take_edges_ok g start d cap other es : (forall e, e ∈ es -> e ∈ kg_edges g /\ other e ∈ universe g start) -> forall w,
  roaming g start w -> let '(w', _) := take_edges g d cap other es w in roaming g start w' /\ left_to_do g start w' = left_to_do g start w.
Proof.
  induction es as [|e es IH]; intros Hes w Hw; cbn [take_edges]; [done|].
  destruct (Nat.leb_spec MAX_TOTAL_EDGES (length (sg_edges (wk_sub w)))); [done|]. destruct (Nat.leb cap (wk_per_node w)); [done|].
  destruct (Hes e ltac:(left)) as [He Ho]. destruct (take_edge_ok g start d w e (other e) Hw ltac:(lia) He Ho) as [Hw' El].
  specialize (IH ltac:(intros e' ?; apply Hes; by right) _ Hw'). destruct (take_edges _ _ _ _ _ _) as [w' b]. destruct IH as [? ->]. done.
Qed.

Lemma edges_real g start l e : e ∈ edges_at (kg_edges g) l -> e ∈ kg_edges g /\ ed_to e ∈ universe g start /\ ed_from e ∈ universe g start.
Proof.
  intros (i & _ & He)%list_elem_of_omap. destruct (universe_edge g start i e He). split; [|done]. by eapply list_elem_of_lookup_2.
Qed.

Lemma expand_ok g start c d w : roaming g start w -> let '(w', _) := expand g c d w in
  roaming g start w' /\ left_to_do g start w' = left_to_do g start w.
Proof.
  intros Hw. unfold expand. set (w0 := {| wk_sub := _; wk_visited := _; wk_queue := _; wk_per_node := 0 |}).
  assert (roaming g start w0 /\ left_to_do g start w0 = left_to_do g start w) as [Hw0 E0] by (split; [by destruct Hw; split|done]).
  pose proof (take_edges_ok g start d MAX_EDGES_PER_NODE ed_to (outgoing_edges g c)) as H1.
  specialize (H1 ltac:(intros e He; apply (edges_real g start) in He as (? & ? & _); done) w0 Hw0).
  destruct (take_edges _ _ _ _ _ w0) as [w1 stop]. destruct H1 as [Hw1 E1]. destruct stop; [split; [done|congruence]|].
  pose proof (take_edges_ok g start d (MAX_EDGES_PER_NODE * 2) ed_from (incoming_edges g c)) as H2.
  specialize (H2 ltac:(intros e He; apply (edges_real g start) in He as (? & _ & ?); done) w1 Hw1).
  destruct (take_edges _ _ _ _ _ w1) as [w2 stop]. destruct H2 as [Hw2 E2]. split; [done|congruence].
Qed.

Definition capped (g : KnowledgeGraph) (s : SubGraph) : Prop :=
  (length (sg_edges s) <= 500)%nat /\ (size (sg_nodes s) <= 501)%nat /\ (forall e, e ∈ sg_edges s -> e ∈ kg_edges g) /\ sg_nodes s ⊆ kg_nodes g.

Lemma roaming_capped g start w : roaming g start w -> capped g (wk_sub w).
Proof.
  intros [H1 H2 H3 H4 _]. unfold MAX_TOTAL_EDGES in H1. split_and!; [done| |done|].
  - assert (size (sg_nodes (wk_sub w)) <= size (wk_visited w))%nat; [|lia]. rewrite <- size_dom. apply subseteq_size.
    intros id [n Hn]%elem_of_dom. by destruct (H3 id n Hn).
  - apply map_subseteq_spec. intros id n Hn. by destruct (H3 id n Hn).
Qed.

Lemma roam_ok g start depth fuel : forall w, roaming g start w -> (left_to_do g start w <= fuel)%nat ->
  exists s, roam fuel g depth w = Some s /\ capped g s.
Proof.
  induction fuel as [|fuel IH]; intros w Hw Hf.
  { unfold left_to_do in Hf. destruct (wk_queue w) as [|x q] eqn:Eq; [|cbn in Hf; lia]. cbn [roam]. rewrite Eq.
    eexists. split; [done|by eapply roaming_capped]. }
  cbn [roam]. destruct (wk_queue w) as [|[c d] q] eqn:Eq; [eexists; split; [done|by eapply roaming_capped]|].
  set (w0 := {| wk_sub := _; wk_visited := _; wk_queue := q; wk_per_node := _ |}).
  assert (roaming g start w0) as Hw0 by (by destruct Hw; split). assert (S (left_to_do g start w0) = left_to_do g start w) as E0.
  { unfold left_to_do. cbn. rewrite Eq. done. }
  destruct (Nat.leb depth d); [apply IH; [done|lia]|]. pose proof (expand_ok g start c d w0 Hw0) as Hx.
  destruct (expand g c d w0) as [w1 stop]. destruct Hx as [Hw1 E1]. destruct stop; [|apply IH; [done|lia]].
  eexists. split; [done|by eapply roaming_capped].
Qed.

(** The neighbourhood of a node, at any depth, is a part of the graph of at most
    five hundred edges and five hundred and one nodes. *)
Theorem neighborhood_capped (g : KnowledgeGraph) (start : Z) (depth : nat) : exists s, neighborhood g start depth = Some s /\ capped g s.
Proof.
  unfold neighborhood. destruct (kg_nodes g !! start) as [n|] eqn:Hn.
  - apply roam_ok with (start := start).
    + split; cbn; [unfold MAX_TOTAL_EDGES; lia|by intros e ?%elem_of_nil| | |unfold universe; set_solver].
      * intros id n'. rewrite lookup_singleton_Some. intros [<- <-]. split; [done|set_solver].
      * by rewrite size_singleton.
    + unfold left_to_do. cbn. pose proof (universe_size g start). unfold walk_fuel. lia.
  - eexists. split; [done|]. split_and!; cbn; [lia|rewrite map_size_empty; lia|by intros e ?%elem_of_nil|apply map_empty_subseteq].
Qed.

(** ** Activity and threat intelligence *)

(** One edge with an old instant at the end of the list hides all the activity
    before it: the edges are taken to be in the order of their instants. *)
Theorem late_edge_blinds (g : KnowledgeGraph) (e : Edge) (since : Z) : ed_ts e < since ->
  active_nodes_since (push_edge g e).1 since = ∅.
Proof.
  intros Ht. unfold active_nodes_since. cbn. rewrite rev_app_distr. cbn. destruct (enrich_ends (kg_event g) e) as (_ & _ & -> & _).
  by rewrite (proj2 (Z.ltb_lt _ _) Ht).
Qed.

(** With the edges in that order, the active nodes are the ends of the edges
    since then. *)
Theorem active_in_order (g : KnowledgeGraph) (since : Z) : StronglySorted edge_ts_le (kg_edges g) ->
  forall v, v ∈ active_nodes_since g since <-> exists e, e ∈ kg_edges g /\ since <= ed_ts e /\ (v = ed_from e \/ v = ed_to e).
Proof.
  unfold active_nodes_since. intros Hs v.
  assert (forall l acc, StronglySorted (fun a b => edge_ts_le b a) l ->
    v ∈ active_from since l acc <-> v ∈ acc \/ exists e, e ∈ l /\ since <= ed_ts e /\ (v = ed_from e \/ v = ed_to e)) as Ha.
  { induction l as [|e l IH]; intros acc Hl; cbn [active_from].
    - split; [by left|]. intros [?|(e & ?%elem_of_nil & _)]; done.
    - apply StronglySorted_inv in Hl as [Hl He]. destruct (Z.ltb_spec (ed_ts e) since).
      + split; [by left|]. intros [?|(e' & [->|Hin]%elem_of_cons & Hge & _)]; [done|lia|]. rewrite Forall_forall in He.
        specialize (He e' Hin). unfold edge_ts_le in He. lia.
      + rewrite IH by done. rewrite !elem_of_union, !elem_of_singleton. setoid_rewrite elem_of_cons. split.
        * intros [[?|?]|(e' & ? & ?)]; [right; exists e; auto|by left|right; exists e'; auto].
        * intros [?|(e' & [->|?] & ? & ?)]; [left; by right|left; by left|right; exists e'; auto]. }
  rewrite Ha.
  - assert (forall e, e ∈ rev (kg_edges g) <-> e ∈ kg_edges g) as Hr by (intros e; rewrite !list_elem_of_In; symmetry; apply in_rev).
    setoid_rewrite Hr. split; [intros [?|?]; [set_solver|done]|by right].
  - clear Ha. induction Hs as [|e l Hl IH He]; cbn; [constructor|]. apply StronglySorted_snoc. split; [done|].
    apply Forall_forall. intros e' Hin%list_elem_of_In%in_rev%list_elem_of_In. rewrite Forall_forall in He. by apply He.
Qed.

(** A hit is a connection of a process to an address on a list. *)
Theorem threat_hits_exact (g : KnowledgeGraph) (process ip_id : Z) (dataset : string) : kg_ok g ->
  (process, ip_id, dataset) ∈ threat_intel_hits g <->
  exists i e, kg_nodes g !! ip_id = Some (NIp i) /\ dataset ∈ ipn_datasets i /\ e ∈ incoming_edges g ip_id /\
    ed_relation e = ConnectedTo /\ ed_from e = process.
Proof.
  intros Hok. unfold threat_intel_hits. rewrite list_elem_of_bind. split.
  - intros (ip & Hin & _). destruct (kg_nodes g !! ip) as [[]|] eqn:En; try (by apply elem_of_nil in Hin).
    apply list_elem_of_bind in Hin as (e & (ds & [= -> -> ->] & Hds)%list_elem_of_fmap & [He Hr%bool_decide_eq_true]%retain_elem).
    by exists i, e.
  - intros (i & e & Hn & Hds & He & Hr & <-). exists ip_id. rewrite Hn. split.
    + apply list_elem_of_bind. exists e. split; [apply list_elem_of_fmap; by exists dataset|]. apply retain_elem. split; [done|].
      by apply bool_decide_eq_true.
    + apply elem_of_elements, (no_threat _ (ok_nodes _ Hok)). exists (NIp i). split; [done|]. cbn. by destruct (ipn_datasets i); [apply elem_of_nil in Hds|].
Qed.
