(* ===== verification/AgentGraphIngest.v ===== *)
(** * AgentGraphIngest: what becomes a part of the graph
    (crates/agent/src/knowledge_graph/ingestion.rs)

    Every event of the sensor, every incident and every decision is written into
    the graph of AgentGraph.v by a handler of its kind, which finds or makes the
    nodes it names, changes some of them in place and adds edges; a new edge may
    set off the triggers of AgentGraphTriggers.v.  A handler is a program in the
    monad [G] of the graph, in which [None] is a panic.  The regular expression
    that finds addresses in texts is an argument, the counters of the sensors
    page are left out.

    Proved here: no sequence of inputs stops the agent or breaks the graph, as long
    as the ids of containers can be cut after twelve bytes; the cap on snapshots holds; flows are counted on one edge; failed logins make no
    users; and the reverse shells of the triggers are never seen in the events
    that the sensor writes, because the two sides name the descriptor
    differently. *)

From Stdlib Require Import ZArith Lia Ascii String SpecFloat.
From stdpp Require Import prelude strings gmap list sorting.
From S2P Require Import Prelude Text Json Floats Net CoreTypes AgentSafelist AgentGraph AgentGraphTriggers.

Local Open Scope string_scope.
Local Open Scope list_scope.
Local Open Scope Z_scope.

(** ** Reading an event *)

Definition non_empty (s : string) : option string := if String.eqb s "" then None else Some s.

Definition detail_str (event : Event) (key : string) : option string := get_str (ev_details event) key ≫= fun s => non_empty (trim s).
Definition detail_u32 (event : Event) (key : string) : option Z := wrap 32 <$> get_u64 (ev_details event) key.
Definition detail_u16 (event : Event) (key : string) : option Z := wrap 16 <$> get_u64 (ev_details event) key.
Definition detail_u64 (event : Event) (key : string) : option Z := get_u64 (ev_details event) key.
Definition detail_i64 (event : Event) (key : string) : option Z := get_i64 (ev_details event) key.

(** [as_f64] and [as f32]. *)
Definition as_f64 (v : Json) : option spec_float :=
  match v with JInt z => Some (f64_of_Z z) | JFloat f => Some f | _ => None end.
Definition f64_as_f32 (a : spec_float) : spec_float :=
  match a with S754_finite s m e => binary_normalize 24 128 (if s then Zneg m else Zpos m) e s | _ => a end.
Definition detail_f32 (event : Event) (key : string) : option spec_float := f64_as_f32 <$> (get (ev_details event) key ≫= as_f64).

(** [Value::from] of an [f32]: what is no number is null. *)
Definition json_f32 (f : spec_float) : Json :=
  match f with S754_nan | S754_infinity _ => JNull | _ => JFloat (f32_as_f64 f) end.

(** [a.or_else(|| b)]. *)
Definition or_else {A} (a b : option A) : option A := match a with Some _ => a | None => b end.

(** ** The monad of the handlers *)

Definition G (A : Type) : Type := KnowledgeGraph -> option (KnowledgeGraph * A).
Definition gret {A} (a : A) : G A := fun g => Some (g, a).
Definition gbind {A B} (m : G A) (k : A -> G B) : G B := fun g => match m g with Some (g, a) => k a g | None => None end.

Notation "'let*' x := m 'in' k" := (gbind m (fun x => k)) (at level 10, x name, m at level 100, k at level 200).
Notation "m ;;* k" := (gbind m (fun _ => k)) (at level 199, k at level 200, right associativity).

(** [if let Some(a) = o { ... }]. *)
Definition when_some {A} (o : option A) (k : A -> G unit) : G unit := match o with Some a => k a | None => gret tt end.

Definition gprocess (pid ppid : Z) (comm : string) (uid ts : Z) : G Z := fun g => Some (ensure_process g pid ppid comm uid ts).
Definition gip (addr : string) (ts : Z) : G Z := fun g => Some (ensure_ip g addr ts).
Definition gfile (path : string) : G Z := fun g => Some (ensure_file g path).
Definition guser (name : string) : G Z := fun g => Some (ensure_user g name).
Definition gdomain (name : string) : G Z := fun g => Some (ensure_domain g name).
Definition gport (number : Z) (protocol : string) : G Z := fun g => Some (ensure_port g number protocol).
Definition gcontainer (id : string) : G Z := fun g => Some (ensure_container g id).
Definition gsystem (hostname : string) : G Z := fun g => Some (ensure_system g hostname).
Definition gupsert (n : Node) : G Z := fun g => Some (upsert_node g n).

(** [if let Some(node) = self.get_node_mut(id) { ... }]. *)
Definition gchange (id : Z) (f : Node -> Node) : G unit := fun g => Some (update_node g id f, tt).

(** [edge = edge.with_prop(key, value)] when there is a value. *)
Definition opt_prop (key : string) (value : option Json) (e : Edge) : Edge :=
  match value with Some v => with_prop e key v | None => e end.
Definition str_prop (event : Event) (key : string) (e : Edge) : Edge := opt_prop key (JStr <$> detail_str event key) e.
Definition u64_prop (event : Event) (key : string) (e : Edge) : Edge := opt_prop key (JInt <$> detail_u64 event key) e.
Definition u32_prop (event : Event) (key : string) (e : Edge) : Edge := opt_prop key (JInt <$> detail_u32 event key) e.
Definition i64_prop (event : Event) (key : string) (e : Edge) : Edge := opt_prop key (JInt <$> detail_i64 event key) e.

(** *** Changes in place *)

Definition on_process (f : ProcessNode -> ProcessNode) (n : Node) : Node := match n with NProcess p => NProcess (f p) | _ => n end.
Definition on_file (f : FileNode -> FileNode) (n : Node) : Node := match n with NFile h => NFile (f h) | _ => n end.
Definition on_container (f : ContainerNode -> ContainerNode) (n : Node) : Node := match n with NContainer c => NContainer (f c) | _ => n end.
Definition on_incident (f : IncidentNode -> IncidentNode) (n : Node) : Node := match n with NIncident i => NIncident (f i) | _ => n end.

Definition with_exe (exe : string) (p : ProcessNode) : ProcessNode :=
  {| pn_pid := pn_pid p; pn_ppid := pn_ppid p; pn_comm := pn_comm p; pn_exe := keep (pn_exe p) (Some exe); pn_uid := pn_uid p;
     pn_container_id := pn_container_id p; pn_start_ts := pn_start_ts p; pn_exit_ts := pn_exit_ts p |}.
Definition with_container (cid : string) (p : ProcessNode) : ProcessNode :=
  {| pn_pid := pn_pid p; pn_ppid := pn_ppid p; pn_comm := pn_comm p; pn_exe := pn_exe p; pn_uid := pn_uid p;
     pn_container_id := keep (pn_container_id p) (Some cid); pn_start_ts := pn_start_ts p; pn_exit_ts := pn_exit_ts p |}.
Definition with_exit (ts : Z) (p : ProcessNode) : ProcessNode :=
  {| pn_pid := pn_pid p; pn_ppid := pn_ppid p; pn_comm := pn_comm p; pn_exe := pn_exe p; pn_uid := pn_uid p;
     pn_container_id := pn_container_id p; pn_start_ts := pn_start_ts p; pn_exit_ts := Some ts |}.

Definition with_file (sha256 : option string) (size : option Z) (entropy : option spec_float) (sensitive : bool) (yara : list string)
    (f : FileNode) : FileNode :=
  {| fn_path := fn_path f; fn_sha256 := or_else sha256 (fn_sha256 f); fn_size := or_else size (fn_size f);
     fn_entropy := or_else entropy (fn_entropy f); fn_is_sensitive := sensitive || fn_is_sensitive f;
     fn_yara_matches := add_missing (fn_yara_matches f) yara |}.

Section ingest.
Context `{Lowercase}.

Definition gedge (e : Edge) : G unit := fun g => r ← add_edge g e; Some (r.1, tt).

(** ** Execution *)

Definition uid_to_user_name (event : Event) (uid : Z) : string :=
  match head (retain (fun e => bool_decide (e_type e = EUser)) (ev_entities event)) with
  | Some e => e_value e
  | None => if uid =? 0 then "root" else "uid:" +:+ show uid
  end.

Definition ingest_shell_command_exec (event : Event) : G unit :=
  when_some (detail_u32 event "pid") (fun pid =>
    let ppid := default 0 (detail_u32 event "ppid") in
    let comm := default "" (detail_str event "comm") in
    let uid := default 0 (detail_u32 event "uid") in
    let* proc_id := gprocess pid ppid comm uid (ev_ts event) in
    when_some (detail_str event "exe") (fun exe =>
      gchange proc_id (on_process (with_exe exe)) ;;*
      let* file_id := gfile exe in
      gedge (Edge_new proc_id file_id Executed (ev_ts event))) ;;*
    when_some (detail_str event "container_id") (fun cid =>
      gchange proc_id (on_process (with_container cid)) ;;*
      let* cont_id := gcontainer cid in
      gedge (Edge_new proc_id cont_id InContainer (ev_ts event))) ;;*
    (if 0 <? ppid then
       let* parent_id := gprocess ppid 0 "" 0 (ev_ts event) in
       gedge (Edge_new proc_id parent_id SpawnedBy (ev_ts event))
     else gret tt) ;;*
    let* user_id := guser (uid_to_user_name event uid) in
    gedge (Edge_new proc_id user_id RunAs (ev_ts event))).

Definition ingest_process_exec (event : Event) : G unit :=
  when_some (detail_u32 event "pid") (fun pid =>
    let comm := default "" (detail_str event "comm") in
    let* proc_id := gprocess pid 0 comm 0 (ev_ts event) in
    when_some (detail_str event "exe") (fun exe =>
      let* file_id := gfile exe in
      gedge (Edge_new proc_id file_id Executed (ev_ts event)))).

Definition ingest_process_exit (event : Event) : G unit :=
  when_some (detail_u32 event "pid") (fun pid g =>
    match find_by_pid g pid with
    | Some proc_id => gchange proc_id (on_process (with_exit (ev_ts event))) g
    | None => Some (g, tt)
    end).

Definition ingest_process_clone (event : Event) : G unit :=
  when_some (or_else (detail_u32 event "child_pid") (detail_u32 event "pid")) (fun child_pid =>
    let parent_pid := default 0 (or_else (detail_u32 event "ppid") (detail_u32 event "parent_pid")) in
    let comm := default "" (detail_str event "comm") in
    let uid := default 0 (detail_u32 event "uid") in
    let* child_id := gprocess child_pid parent_pid comm uid (ev_ts event) in
    if 0 <? parent_pid then
      let* parent_id := gprocess parent_pid 0 "" 0 (ev_ts event) in
      gedge (Edge_new child_id parent_id SpawnedBy (ev_ts event))
    else gret tt).

Definition ingest_shell_tty_input (event : Event) : G unit := gret tt.

(** ** Privileges *)

Definition ingest_privilege_escalation (event : Event) : G unit :=
  when_some (detail_u32 event "pid") (fun pid =>
    let comm := default "" (detail_str event "comm") in
    let uid := default 0 (detail_u32 event "uid") in
    let* proc_id := gprocess pid 0 comm uid (ev_ts event) in
    let new_uid := default 0 (detail_u32 event "new_uid") in
    let* user_id := guser ("uid:" +:+ show new_uid) in
    gedge (with_prop (with_prop (Edge_new proc_id user_id EscalatedTo (ev_ts event)) "old_uid" (JInt uid)) "new_uid" (JInt new_uid))).

Definition ingest_privilege_setuid (event : Event) : G unit := ingest_privilege_escalation event.

(** Without a process number the next node's number makes one up. *)
Definition synthetic_pid (g : KnowledgeGraph) : Z := wrapping_add 32 (wrap 32 (kg_next_id g)) 100000.

Definition ingest_sudo_command (event : Event) : G unit :=
  let user := default "" (detail_str event "user") in
  let run_as := default "root" (detail_str event "run_as") in
  let command := default "" (detail_str event "command") in
  let* proc_id := match detail_u32 event "pid" with
                  | Some pid => gprocess pid 0 "sudo" 0 (ev_ts event)
                  | None => fun g => gprocess (synthetic_pid g) 0 "sudo" 0 (ev_ts event) g
                  end in
  let* user_id := guser run_as in
  gedge (with_prop (with_prop (Edge_new proc_id user_id SudoAs (ev_ts event)) "command" (JStr command)) "original_user" (JStr user)).

(** ** SSH *)

Definition ingest_ssh_login (event : Event) (success : bool) : G unit :=
  let ip_str := default "" (detail_str event "ip") in
  let user_str := default "" (detail_str event "user") in
  if String.eqb ip_str "" || String.eqb user_str "" then gret tt
  else
    let* ip_id := gip ip_str (ev_ts event) in
    if negb success then fun g => Some (record_attempted_username g ip_id user_str, tt)
    else
      let* user_id := guser user_str in
      gedge (str_prop event "method" (with_prop (Edge_new user_id ip_id LoggedInFrom (ev_ts event)) "success" (JBool true))).

(** A change of a file that is watched, an edge from it to itself. *)
Definition integrity_edge (event : Event) (file_id : Z) : Edge :=
  str_prop event "new_hash" (str_prop event "old_hash" (Edge_new file_id file_id IntegrityChanged (ev_ts event))).

Definition rehash (event : Event) (file_id : Z) : G unit :=
  when_some (detail_str event "new_hash") (fun new => gchange file_id (on_file (with_file (Some new) None None false []))).

Definition ingest_ssh_authorized_keys_changed (event : Event) : G unit :=
  let path := default "" (detail_str event "path") in
  if String.eqb path "" then gret tt
  else
    let* file_id := gfile path in
    rehash event file_id ;;* gedge (integrity_edge event file_id).

(** ** The network *)

Definition in_container (event : Event) (proc_id : Z) : G unit :=
  when_some (detail_str event "container_id") (fun cid =>
    let* cont_id := gcontainer cid in
    gedge (Edge_new proc_id cont_id InContainer (ev_ts event))).

Definition ingest_network_outbound (event : Event) : G unit :=
  when_some (detail_u32 event "pid") (fun pid =>
    let comm := default "" (detail_str event "comm") in
    let uid := default 0 (detail_u32 event "uid") in
    when_some (detail_str event "dst_ip") (fun dst_ip =>
      let dst_port := default 0 (detail_u16 event "dst_port") in
      let* proc_id := gprocess pid 0 comm uid (ev_ts event) in
      let* ip_id := gip dst_ip (ev_ts event) in
      gedge (with_prop (with_prop (Edge_new proc_id ip_id ConnectedTo (ev_ts event)) "port" (JInt dst_port)) "proto" (JStr "tcp")) ;;*
      in_container event proc_id)).

Definition ingest_network_accept (event : Event) : G unit :=
  when_some (detail_u32 event "pid") (fun pid =>
    let comm := default "" (detail_str event "comm") in
    let uid := default 0 (detail_u32 event "uid") in
    when_some (or_else (detail_str event "src_ip") (detail_str event "ip")) (fun src_ip =>
      let* proc_id := gprocess pid 0 comm uid (ev_ts event) in
      let* ip_id := gip src_ip (ev_ts event) in
      gedge (opt_prop "port" (JInt <$> or_else (detail_u16 event "dst_port") (detail_u16 event "port"))
        (Edge_new proc_id ip_id AcceptedFrom (ev_ts event))))).

Definition ingest_network_listen (event : Event) : G unit :=
  when_some (detail_u32 event "pid") (fun pid =>
    let comm := default "" (detail_str event "comm") in
    let uid := default 0 (detail_u32 event "uid") in
    when_some (or_else (detail_u16 event "port") (detail_u16 event "dst_port")) (fun port_num =>
      let proto := default "tcp" (detail_str event "proto") in
      let* proc_id := gprocess pid 0 comm uid (ev_ts event) in
      let* port_id := gport port_num proto in
      gedge (Edge_new proc_id port_id ListensOn (ev_ts event)))).

Definition ingest_network_blocked (event : Event) : G unit :=
  when_some (detail_str event "src_ip") (fun src_ip =>
    when_some (detail_u16 event "dst_port") (fun dst_port =>
      let proto := default "tcp" (detail_str event "proto") in
      let* ip_id := gip src_ip (ev_ts event) in
      let* port_id := gport dst_port proto in
      gedge (str_prop event "action" (Edge_new ip_id port_id ScannedPort (ev_ts event))))).

Definition ingest_network_connection (event : Event) : G unit :=
  when_some (detail_str event "dst_ip") (fun dst_ip =>
    let* ip_id := gip dst_ip (ev_ts event) in
    when_some (detail_u32 event "pid") (fun pid =>
      let comm := default "" (detail_str event "comm") in
      let* proc_id := gprocess pid 0 comm 0 (ev_ts event) in
      gedge (Edge_new proc_id ip_id ConnectedTo (ev_ts event)))).

Definition MAX_SNAPSHOT_EDGES : nat := 200.

(** One connection, and one listening port, of a snapshot; whether it counts. *)
Definition snapshot_connection (event : Event) (conn : Json) : G bool :=
  match wrap 32 <$> get_u64 conn "pid", get_str conn "dst_ip" with
  | Some pid, Some dst_ip =>
      let* proc_id := gprocess pid 0 "" 0 (ev_ts event) in
      let* ip_id := gip dst_ip (ev_ts event) in
      let e := opt_prop "port" ((fun p => JInt (wrap 16 p)) <$> get_u64 conn "port") (Edge_new proc_id ip_id SnapshotConnectedTo (ev_ts event)) in
      gedge (opt_prop "state" (JStr <$> get_str conn "state") e) ;;* gret true
  | _, _ => gret false
  end.

Definition snapshot_port (event : Event) (entry : Json) : G bool :=
  match wrap 32 <$> get_u64 entry "pid", wrap 16 <$> get_u64 entry "port" with
  | Some pid, Some port_num =>
      let* proc_id := gprocess pid 0 "" 0 (ev_ts event) in
      let* port_id := gport port_num (default "tcp" (get_str entry "proto")) in
      gedge (Edge_new proc_id port_id SnapshotListensOn (ev_ts event)) ;;* gret true
  | _, _ => gret false
  end.

Fixpoint snapshot_items (f : Json -> G bool) (items : list Json) (count : nat) : G nat :=
  match items with
  | [] => gret count
  | x :: items =>
      if Nat.leb MAX_SNAPSHOT_EDGES count then gret count
      else let* counted := f x in snapshot_items f items (if counted then S count else count)
  end.

Definition ingest_network_snapshot (event : Event) : G unit :=
  let* count := snapshot_items (snapshot_connection event) (default [] (get_array (ev_details event) "connections")) 0%nat in
  snapshot_items (snapshot_port event) (default [] (get_array (ev_details event) "listening_ports")) count ;;* gret tt.

Definition ingest_http_request (event : Event) : G unit :=
  when_some (or_else (detail_str event "ip") (detail_str event "src_ip")) (fun src_ip =>
    let* src_id := gip src_ip (ev_ts event) in
    let* dst_id := match or_else (detail_str event "host") (detail_str event "dst_ip") with
                   | Some d => gip d (ev_ts event)
                   | None => gsystem (ev_host event)
                   end in
    let e := str_prop event "path" (str_prop event "method" (Edge_new src_id dst_id HttpRequestTo (ev_ts event))) in
    gedge (str_prop event "user_agent" (opt_prop "status" (JInt <$> detail_u16 event "status") e))).

Definition ingest_dns_query (event : Event) : G unit :=
  when_some (detail_str event "domain") (fun domain =>
    let* domain_id := gdomain domain in
    let described e := str_prop event "response_code" (str_prop event "query_type" e) in
    match detail_u32 event "pid" with
    | Some pid =>
        let* proc_id := gprocess pid 0 "" 0 (ev_ts event) in
        gedge (described (Edge_new proc_id domain_id Resolved (ev_ts event)))
    | None =>
        when_some (detail_str event "src_ip") (fun src_ip =>
          let* ip_id := gip src_ip (ev_ts event) in
          gedge (described (Edge_new ip_id domain_id Resolved (ev_ts event))))
    end).

(** ** Files *)

(** The three names a path goes by, in the order a handler asks for them. *)
Definition any_path (event : Event) (k1 k2 k3 : string) : option string :=
  or_else (detail_str event k1) (or_else (detail_str event k2) (detail_str event k3)).

(** The process of the event did [relation] to the file. *)
Definition file_act (event : Event) (file_id : Z) (comm : string) (uid : Z) (relation : Relation) (props : Edge -> Edge) : G unit :=
  when_some (detail_u32 event "pid") (fun pid =>
    let* proc_id := gprocess pid 0 comm uid (ev_ts event) in
    gedge (props (Edge_new proc_id file_id relation (ev_ts event)))).

Definition ingest_file_write (event : Event) : G unit :=
  when_some (any_path event "path" "filename" "pathname") (fun path =>
    let* file_id := gfile path in
    file_act event file_id (default "" (detail_str event "comm")) (default 0 (detail_u32 event "uid")) Wrote (fun e => e)).

Definition ingest_file_read (event : Event) : G unit :=
  when_some (any_path event "path" "filename" "pathname") (fun path =>
    let* file_id := gfile path in
    file_act event file_id (default "" (detail_str event "comm")) 0 Read (fun e => e)).

Definition ingest_file_delete (event : Event) : G unit :=
  when_some (any_path event "pathname" "filename" "path") (fun path =>
    let* file_id := gfile path in
    file_act event file_id "" 0 Deleted (fun e => e)).

Definition ingest_file_rename (event : Event) : G unit :=
  when_some (any_path event "old_path" "oldname" "path") (fun old_path =>
    let new_path := default "" (or_else (detail_str event "new_path") (detail_str event "newname")) in
    let* file_id := gfile old_path in
    (if String.eqb new_path "" then gret 0 else gfile new_path) ;;*
    file_act event file_id "" 0 Renamed (fun e => with_prop e "new_path" (JStr new_path))).

Definition ingest_file_truncate (event : Event) : G unit :=
  when_some (any_path event "path" "filename" "pathname") (fun path =>
    let* file_id := gfile path in
    file_act event file_id "" 0 Truncated (fun e => e)).

Definition ingest_file_timestomp (event : Event) : G unit :=
  when_some (any_path event "path" "filename" "pathname") (fun path =>
    let* file_id := gfile path in
    file_act event file_id "" 0 Timestomped (fun e => e)).

Definition ingest_file_ransomware_burst (event : Event) : G unit :=
  when_some (detail_str event "path") (fun path =>
    let* file_id := gfile path in
    file_act event file_id "" 0 Wrote (fun e =>
      u32_prop event "time_window_secs" (u32_prop event "write_count" (with_prop e "ransomware_burst" (JBool true))))).

Definition ingest_file_changed (event : Event) : G unit :=
  when_some (detail_str event "path") (fun path =>
    let* file_id := gfile path in
    rehash event file_id ;;* gedge (integrity_edge event file_id)).

Definition ingest_file_extracted (event : Event) : G unit :=
  when_some (detail_str event "filename") (fun filename =>
    when_some (detail_str event "source_ip") (fun source_ip =>
      let* file_id := gfile filename in
      let* ip_id := gip source_ip (ev_ts event) in
      gchange file_id (on_file (with_file (detail_str event "sha256") (detail_u64 event "size") (detail_f32 event "entropy") false [])) ;;*
      gedge (str_prop event "method" (Edge_new file_id ip_id DownloadedFrom (ev_ts event))))).

Definition ingest_file_scanned (event : Event) : G unit :=
  when_some (detail_str event "path") (fun path =>
    let* file_id := gfile path in
    when_some (detail_str event "yara_rule") (fun rule => gchange file_id (on_file (with_file None None None false [rule])))).

Definition ingest_filesystem_mount (event : Event) : G unit :=
  when_some (detail_u32 event "pid") (fun pid =>
    let mount_point := default "" (or_else (detail_str event "path") (detail_str event "mount_point")) in
    let* proc_id := gprocess pid 0 "" 0 (ev_ts event) in
    let* file_id := gfile mount_point in
    gedge (str_prop event "flags" (str_prop event "fstype" (Edge_new proc_id file_id Mounted (ev_ts event))))).

Definition ingest_cron_tampering (event : Event) : G unit :=
  when_some (detail_str event "path") (fun path =>
    let* file_id := gfile path in
    gchange file_id (on_file (with_file None None None true [])) ;;*
    gedge (integrity_edge event file_id)).

(** ** Containers *)

Definition container_event (event : Event) (f : ContainerNode -> ContainerNode) (relation : Relation) : G unit :=
  when_some (detail_str event "container_id") (fun container_id =>
    let* cont_id := gcontainer container_id in
    gchange cont_id (on_container f) ;;*
    let* sys_id := gsystem (ev_host event) in
    gedge (Edge_new cont_id sys_id relation (ev_ts event))).

Definition ingest_container_start (event : Event) : G unit :=
  container_event event (fun c =>
    {| cn_container_id := cn_container_id c; cn_name := or_else (detail_str event "name") (cn_name c);
       cn_image := or_else (detail_str event "image") (cn_image c); cn_start_ts := Some (ev_ts event); cn_exit_ts := cn_exit_ts c;
       cn_oom_killed := cn_oom_killed c |}) StartedOn.

Definition ingest_container_die (event : Event) : G unit :=
  container_event event (fun c =>
    {| cn_container_id := cn_container_id c; cn_name := cn_name c; cn_image := cn_image c; cn_start_ts := cn_start_ts c;
       cn_exit_ts := Some (ev_ts event); cn_oom_killed := cn_oom_killed c |}) DiedOn.

Definition ingest_container_oom (event : Event) : G unit :=
  container_event event (fun c =>
    {| cn_container_id := cn_container_id c; cn_name := cn_name c; cn_image := cn_image c; cn_start_ts := cn_start_ts c;
       cn_exit_ts := cn_exit_ts c; cn_oom_killed := true |}) OomKilled.

(** ** Kernel and firmware *)

Definition ingest_kernel_module_load (event : Event) : G unit :=
  let* sys_id := gsystem (ev_host event) in
  let* from := match detail_u32 event "pid" with Some pid => gprocess pid 0 "" 0 (ev_ts event) | None => gret sys_id end in
  gedge (str_prop event "module_params" (str_prop event "module_name" (Edge_new from sys_id LoadedModule (ev_ts event)))).

Definition ingest_kernel_new_module (event : Event) : G unit :=
  let* sys_id := gsystem (ev_host event) in
  gedge (with_prop (str_prop event "module_name" (Edge_new sys_id sys_id LoadedModule (ev_ts event))) "post_boot" (JBool true)).

Definition ingest_kernel_bpf_loaded (event : Event) : G unit :=
  let* sys_id := gsystem (ev_host event) in
  gedge (str_prop event "prog_type" (Edge_new sys_id sys_id LoadedBpf (ev_ts event))).

Definition ingest_syscall_table_modified (event : Event) : G unit :=
  let* sys_id := gsystem (ev_host event) in
  gedge (Edge_new sys_id sys_id SyscallTableModified (ev_ts event)).

Definition ingest_firmware_event (event : Event) (relation : Relation) : G unit :=
  let* sys_id := gsystem (ev_host event) in
  match detail_u32 event "pid" with
  | Some pid =>
      let* proc_id := gprocess pid 0 "" 0 (ev_ts event) in
      let e := u64_prop event "value" (u32_prop event "msr_number" (Edge_new proc_id sys_id relation (ev_ts event))) in
      gedge (opt_prop "delta" (json_f32 <$> detail_f32 event "delta") e)
  | None => gedge (Edge_new sys_id sys_id relation (ev_ts event))
  end.

(** ** Processes and memory *)

Definition ingest_ptrace_attach (event : Event) : G unit :=
  when_some (or_else (detail_u32 event "parent_pid") (detail_u32 event "pid")) (fun parent_pid =>
    when_some (detail_u32 event "target_pid") (fun target_pid =>
      let* parent_id := gprocess parent_pid 0 "" 0 (ev_ts event) in
      let* target_id := gprocess target_pid 0 "" 0 (ev_ts event) in
      gedge (u64_prop event "request" (Edge_new parent_id target_id PtraceAttached (ev_ts event))))).

Definition ingest_process_prctl (event : Event) : G unit :=
  when_some (detail_u32 event "pid") (fun pid => gprocess pid 0 "" 0 (ev_ts event) ;;* gret tt).

Definition ingest_process_signal (event : Event) : G unit :=
  when_some (detail_u32 event "pid") (fun sender_pid =>
    when_some (detail_u32 event "target_pid") (fun target_pid =>
      let signal := as_signed 32 (wrap 32 (default 0 (detail_i64 event "signal"))) in
      let* sender_id := gprocess sender_pid 0 "" 0 (ev_ts event) in
      let* target_id := gprocess target_pid 0 "" 0 (ev_ts event) in
      gedge (with_prop (Edge_new sender_id target_id Signaled (ev_ts event)) "signal" (JInt signal)))).

Definition ingest_fd_redirect (event : Event) : G unit :=
  when_some (detail_u32 event "pid") (fun pid =>
    let* proc_id := gprocess pid 0 "" 0 (ev_ts event) in
    gedge (i64_prop event "new_fd" (i64_prop event "old_fd" (Edge_new proc_id proc_id RedirectedFd (ev_ts event))))).

Definition ingest_memfd_create (event : Event) : G unit :=
  when_some (detail_u32 event "pid") (fun pid =>
    let* proc_id := gprocess pid 0 "" 0 (ev_ts event) in
    gedge (i64_prop event "fd" (Edge_new proc_id proc_id CreatedMemfd (ev_ts event)))).

Definition ingest_mprotect_exec (event : Event) : G unit :=
  when_some (detail_u32 event "pid") (fun pid =>
    let* proc_id := gprocess pid 0 "" 0 (ev_ts event) in
    gedge (u32_prop event "prot" (u64_prop event "len" (u64_prop event "addr" (Edge_new proc_id proc_id MprotectExec (ev_ts event)))))).

(** [trim_end_matches(" (deleted)")]. *)
Definition strip_deleted (path : string) : string :=
  iter_strip (fun s => rev_string <$> strip_prefix (rev_string " (deleted)") (rev_string s)) (String.length path) path.

Definition ingest_memory_region (event : Event) (region_type : string) : G unit :=
  when_some (detail_u32 event "pid") (fun pid =>
    let comm := default "" (detail_str event "comm") in
    let* proc_id := gprocess pid 0 comm 0 (ev_ts event) in
    let path := default "" (detail_str event "path") in
    let region e := str_prop event "perms" (with_prop (with_prop e "region_type" (JStr region_type)) "memory_anomaly" (JBool true)) in
    if negb (String.eqb path "") && negb (String.eqb path "(anonymous)") then
      let* file_id := gfile (strip_deleted path) in
      let e := region (Edge_new proc_id file_id Read (ev_ts event)) in
      gedge (if contains "(deleted)" path then with_prop e "deleted" (JBool true) else e)
    else gedge (u64_prop event "size_kb" (region (Edge_new proc_id proc_id MprotectExec (ev_ts event))))).

Definition ingest_cgroup_event (event : Event) (kind : string) : G unit :=
  let* sys_id := gsystem (ev_host event) in
  match detail_u32 event "pid" with
  | Some pid =>
      let comm := default "" (detail_str event "comm") in
      let* proc_id := gprocess pid 0 comm 0 (ev_ts event) in
      let e := u64_prop event "memory_mb" (with_prop (Edge_new proc_id sys_id Signaled (ev_ts event)) "cgroup_event" (JStr kind)) in
      gedge (opt_prop "cpu_pct" (json_f32 <$> detail_f32 event "cpu_usage_percent") e)
  | None =>
      match detail_str event "container_id" with
      | Some container_id =>
          let* cont_id := gcontainer container_id in
          gedge (u64_prop event "memory_mb" (with_prop (Edge_new cont_id sys_id OomKilled (ev_ts event)) "cgroup_event" (JStr kind)))
      | None =>
          when_some (detail_str event "cgroup") (fun cgroup =>
            gedge (u64_prop event "memory_mb"
              (with_prop (with_prop (Edge_new sys_id sys_id Signaled (ev_ts event)) "cgroup_event" (JStr kind)) "cgroup" (JStr cgroup))))
      end
  end.

(** ** Hardware, rings and the system *)

Definition ingest_usb (event : Event) (relation : Relation) : G unit :=
  let* device_id := gupsert (NDevice {| vn_vendor := default "" (detail_str event "vendor"); vn_product := default "" (detail_str event "product");
                                        vn_serial := detail_str event "serial"; vn_dev_class := detail_str event "dev_class" |}) in
  let* sys_id := gsystem (ev_host event) in
  gedge (Edge_new device_id sys_id relation (ev_ts event)).

Definition ingest_io_uring_submit (event : Event) : G unit :=
  when_some (detail_u32 event "pid") (fun pid =>
    let* proc_id := gprocess pid 0 "" 0 (ev_ts event) in
    let* sys_id := gsystem (ev_host event) in
    gedge (u32_prop event "flags" (u32_prop event "sqe_count" (Edge_new proc_id sys_id IoUringSubmit (ev_ts event))))).

Definition ingest_io_uring_create (event : Event) : G unit :=
  when_some (detail_u32 event "pid") (fun pid =>
    let* proc_id := gprocess pid 0 "" 0 (ev_ts event) in
    let* sys_id := gsystem (ev_host event) in
    gedge (u32_prop event "entries" (Edge_new proc_id sys_id IoUringCreate (ev_ts event)))).

Definition ingest_sysctl_changed (event : Event) : G unit :=
  let* sys_id := gsystem (ev_host event) in
  let param := default "" (detail_str event "param") in
  let old_value := default "" (detail_str event "old_value") in
  let new_value := default "" (detail_str event "new_value") in
  gchange sys_id (fun n => match n with NSystem h params => NSystem h (<[param := new_value]> params) | _ => n end) ;;*
  gedge (with_prop (with_prop (with_prop (Edge_new sys_id sys_id ChangedSysctl (ev_ts event)) "param" (JStr param))
    "old_value" (JStr old_value)) "new_value" (JStr new_value)).

Definition ingest_lsm_exec_blocked (event : Event) : G unit :=
  let* sys_id := gsystem (ev_host event) in
  when_some (detail_u32 event "pid") (fun pid =>
    let* proc_id := gprocess pid 0 "" 0 (ev_ts event) in
    gedge (str_prop event "reason" (Edge_new sys_id proc_id ExecBlocked (ev_ts event)))).

Definition ingest_web_scan (event : Event) : G unit :=
  when_some (or_else (detail_str event "src_ip") (detail_str event "ip")) (fun src_ip =>
    let* src_id := gip src_ip (ev_ts event) in
    let* sys_id := gsystem (ev_host event) in
    gedge (with_prop (Edge_new src_id sys_id HttpRequestTo (ev_ts event)) "scan" (JBool true))).

(** ** Flows *)

(** The edge of a flow to [dst_id] at [dst_port]. *)
Definition is_flow (dst_id dst_port : Z) (e : Edge) : bool :=
  (ed_to e =? dst_id) && bool_decide (ed_relation e = ConnectedTo) &&
  match ed_properties e !! "dst_port" with Some (JInt p) => p =? dst_port | _ => false end.

Definition find_flow (g : KnowledgeGraph) (src_id dst_id dst_port : Z) : option nat :=
  List.find (fun i => match kg_edges g !! i with Some e => is_flow dst_id dst_port e | None => false end) (adj (kg_outgoing g) src_id).

(** One more connection on a flow. *)
Definition count_flow (client_bytes server_bytes ts : Z) (e : Edge) : Edge :=
  let count := wrapping_add 64 (default 1 (ed_properties e !! "flow_count" ≫= as_u64)) 1 in
  let e := with_prop e "flow_count" (JInt count) in
  let total := wrapping_add 64 (wrapping_add 64 (default 0 (ed_properties e !! "total_bytes" ≫= as_u64)) client_bytes) server_bytes in
  let e := with_prop e "total_bytes" (JInt total) in
  {| ed_from := ed_from e; ed_to := ed_to e; ed_relation := ed_relation e; ed_ts := ts; ed_properties := ed_properties e |}.

Definition set_edge (g : KnowledgeGraph) (idx : nat) (e : Edge) : KnowledgeGraph :=
  with_edges g (<[idx := e]> (kg_edges g)) (kg_outgoing g) (kg_incoming g) (kg_last_edge_ts g) (kg_memory g) (kg_tombstoned g).

Definition new_flow (src_id dst_id dst_port client_bytes server_bytes ts : Z) (app_proto : string) : Edge :=
  let e := with_prop (Edge_new src_id dst_id ConnectedTo ts) "dst_port" (JInt dst_port) in
  let e := opt_prop "app_proto" (JStr <$> non_empty app_proto) e in
  with_prop (with_prop e "flow_count" (JInt 1)) "total_bytes" (JInt (wrapping_add 64 client_bytes server_bytes)).

(** The flow between two nodes, found or made. *)
Definition record_flow (src_id dst_id dst_port client_bytes server_bytes ts : Z) (app_proto : string) : G unit := fun g =>
  match find_flow g src_id dst_id dst_port with
  | Some idx => e ← kg_edges g !! idx; Some (set_edge g idx (count_flow client_bytes server_bytes ts e), tt)
  | None => gedge (new_flow src_id dst_id dst_port client_bytes server_bytes ts app_proto) g
  end.

Definition ingest_tcp_stream (event : Event) : G unit :=
  when_some (detail_str event "src_ip") (fun src_ip =>
    when_some (detail_str event "dst_ip") (fun dst_ip =>
      if String.eqb src_ip "127.0.0.1" && String.eqb dst_ip "127.0.0.1" then gret tt
      else
        let dst_port := default 0 (detail_u16 event "dst_port") in
        let client_bytes := default 0 (detail_u64 event "client_bytes") in
        let server_bytes := default 0 (detail_u64 event "server_bytes") in
        let app_proto := default "" (detail_str event "app_proto") in
        let* src_id := gip src_ip (ev_ts event) in
        let* dst_id := gip dst_ip (ev_ts event) in
        record_flow src_id dst_id dst_port client_bytes server_bytes (ev_ts event) app_proto)).

(** ** One event *)

Definition handler (event : Event) : G unit :=
  let kind := ev_kind event in
  if String.eqb kind "shell.command_exec" then ingest_shell_command_exec event
  else if String.eqb kind "process.exec" then ingest_process_exec event
  else if String.eqb kind "process.exit" then ingest_process_exit event
  else if String.eqb kind "process.clone" then ingest_process_clone event
  else if String.eqb kind "shell.tty_input" then ingest_shell_tty_input event
  else if String.eqb kind "privilege.escalation" then ingest_privilege_escalation event
  else if String.eqb kind "privilege.setuid" then ingest_privilege_setuid event
  else if String.eqb kind "sudo.command" then ingest_sudo_command event
  else if String.eqb kind "ssh.login_failed" then ingest_ssh_login event false
  else if String.eqb kind "ssh.login_success" then ingest_ssh_login event true
  else if String.eqb kind "ssh.authorized_keys_changed" then ingest_ssh_authorized_keys_changed event
  else if String.eqb kind "network.outbound_connect" then ingest_network_outbound event
  else if String.eqb kind "network.accept" then ingest_network_accept event
  else if String.eqb kind "network.listen" || String.eqb kind "network.bind_listen" then ingest_network_listen event
  else if String.eqb kind "network.connection_blocked" then ingest_network_blocked event
  else if String.eqb kind "network.connection" then ingest_network_connection event
  else if String.eqb kind "network.snapshot" then ingest_network_snapshot event
  else if String.eqb kind "http.request" || String.eqb kind "http.error" then ingest_http_request event
  else if String.eqb kind "dns.query" then ingest_dns_query event
  else if String.eqb kind "file.write_access" then ingest_file_write event
  else if String.eqb kind "file.read_access" then ingest_file_read event
  else if String.eqb kind "file.delete" then ingest_file_delete event
  else if String.eqb kind "file.rename" then ingest_file_rename event
  else if String.eqb kind "file.truncate" then ingest_file_truncate event
  else if String.eqb kind "file.timestomp" then ingest_file_timestomp event
  else if String.eqb kind "file.ransomware_burst" then ingest_file_ransomware_burst event
  else if String.eqb kind "file.changed" then ingest_file_changed event
  else if String.eqb kind "file.extracted_from_network" then ingest_file_extracted event
  else if String.eqb kind "file.scanned" then ingest_file_scanned event
  else if String.eqb kind "filesystem.mount" then ingest_filesystem_mount event
  else if String.eqb kind "cron.tampering" then ingest_cron_tampering event
  else if String.eqb kind "container.start" then ingest_container_start event
  else if String.eqb kind "container.die" then ingest_container_die event
  else if String.eqb kind "container.oom" then ingest_container_oom event
  else if String.eqb kind "kernel.module_load" then ingest_kernel_module_load event
  else if String.eqb kind "kernel.new_module_post_boot" then ingest_kernel_new_module event
  else if String.eqb kind "kernel.bpf_program_loaded" then ingest_kernel_bpf_loaded event
  else if String.eqb kind "kernel.syscall_table_modified" then ingest_syscall_table_modified event
  else if String.eqb kind "firmware.msr_write" then ingest_firmware_event event WroteMsr
  else if String.eqb kind "firmware.efi_call" then ingest_firmware_event event CalledEfi
  else if String.eqb kind "firmware.ioperm" then ingest_firmware_event event ChangedIoperm
  else if String.eqb kind "firmware.iopl" then ingest_firmware_event event ChangedIopl
  else if String.eqb kind "firmware.acpi_eval" then ingest_firmware_event event EvalAcpi
  else if String.eqb kind "firmware.timing_anomaly" then ingest_firmware_event event TimingAnomaly
  else if String.eqb kind "firmware.bpf_load" then ingest_firmware_event event LoadedBpf
  else if String.eqb kind "process.ptrace_attach" then ingest_ptrace_attach event
  else if String.eqb kind "process.prctl" then ingest_process_prctl event
  else if String.eqb kind "process.signal" then ingest_process_signal event
  else if String.eqb kind "process.fd_redirect" then ingest_fd_redirect event
  else if String.eqb kind "process.memfd_create" then ingest_memfd_create event
  else if String.eqb kind "memory.mprotect_exec" then ingest_mprotect_exec event
  else if String.eqb kind "memory.anon_executable" then ingest_memory_region event "anon_executable"
  else if String.eqb kind "memory.rwx_memory" then ingest_memory_region event "rwx_memory"
  else if String.eqb kind "memory.deleted_file_mapping" then ingest_memory_region event "deleted_file_mapping"
  else if String.eqb kind "cgroup.memory_spike" then ingest_cgroup_event event "memory_spike"
  else if String.eqb kind "cgroup.cpu_abuse" then ingest_cgroup_event event "cpu_abuse"
  else if String.eqb kind "hardware.usb_inserted" then ingest_usb event InsertedOn
  else if String.eqb kind "hardware.usb_removed" then ingest_usb event RemovedFrom
  else if String.eqb kind "io_uring.submit" then ingest_io_uring_submit event
  else if String.eqb kind "io_uring.create" then ingest_io_uring_create event
  else if mem_str kind ["tcp_stream.flow"; "tcp_stream.http"; "tcp_stream.ssh"; "tcp_stream.smb"] then ingest_tcp_stream event
  else if String.eqb kind "system.sysctl_changed" then ingest_sysctl_changed event
  else if String.eqb kind "lsm.exec_blocked" then ingest_lsm_exec_blocked event
  else if String.eqb kind "web_scan" then ingest_web_scan event
  else gret tt.

Definition no_event : EventMeta := {| current_source := None; current_kind := None; current_summary := None; current_severity := None |}.

Definition event_meta (event : Event) : EventMeta :=
  {| current_source := Some (ev_source event); current_kind := Some (ev_kind event); current_summary := Some (ev_summary event);
     current_severity := Some (to_lowercase (severity_debug (ev_severity event))) |}.

Definition set_meta (g : KnowledgeGraph) (ev : EventMeta) : KnowledgeGraph :=
  {| kg_nodes := kg_nodes g; kg_edges := kg_edges g; kg_index := kg_index g; kg_outgoing := kg_outgoing g; kg_incoming := kg_incoming g;
     kg_last_edge_ts := kg_last_edge_ts g; kg_threat_intel := kg_threat_intel g; kg_next_id := kg_next_id g; kg_memory := kg_memory g;
     kg_tombstoned := kg_tombstoned g; kg_max_memory := kg_max_memory g; kg_created_at := kg_created_at g; kg_event := ev;
     kg_trigger_incidents := kg_trigger_incidents g; kg_trigger_host := kg_trigger_host g |}.

Definition ingest (event : Event) : G unit := fun g =>
  match handler event (set_meta g (event_meta event)) with
  | Some (g, tt) => Some (set_meta g no_event, tt)
  | None => None
  end.

(** ** Incidents *)

Context (ipv4_matches : string -> list string) (safelist : SafelistState).

Fixpoint new_v4 (seen : gset string) (candidates : list string) : gset string * list EntityRef :=
  match candidates with
  | [] => (seen, [])
  | c :: candidates =>
      if bool_decide (is_Some (parse_ipv4 c)) && negb (bool_decide (c ∈ seen)) then
        let '(seen, out) := new_v4 ({[c]} ∪ seen) candidates in (seen, entity_ip c :: out)
      else new_v4 seen candidates
  end.

Definition derive_implicit_entities (incident : Incident) : list EntityRef :=
  (new_v4 ∅ (ipv4_matches (in_incident_id incident) ++ ipv4_matches (in_title incident) ++ ipv4_matches (in_summary incident))).2.

Definition is_agent_process (comm : string) : bool :=
  mem_str comm ["innerwarden-agent"; "innerwarden-sensor"; "innerwarden-watchdog"; "tokio-rt-worker"; "openclaw-gatewa"; "crowdsec"; "gomon"].

Definition values_of (t : EntityType) (incident : Incident) : list string :=
  e_value <$> retain (fun e => bool_decide (e_type e = t)) (in_entities incident).

Definition is_self_traffic_incident (incident : Incident) : bool :=
  if bool_decide (in_severity incident = Medium) && starts_with "kill_chain" (in_incident_id incident)
     && starts_with "Kill chain forming" (in_title incident) then true
  else
    let ips := values_of EIp incident in
    if negb (match ips with [] => true | _ => false end) && forallb (is_self_traffic_ip safelist) ips then true
    else if starts_with "cross_layer_chain" (in_incident_id incident) then
      any (fun s => is_agent_process s || contains "crowdsec" s || contains "gomon" s || contains "snap" s || contains "oracle-cloud" s)
        (values_of EService incident)
    else false.

Definition sanitized_incident_ip (value : string) : option string :=
  trimmed ← non_empty (trim value); if bool_decide (is_Some (parse_ip trimmed)) then Some trimmed else None.
Definition sanitized_incident_user (value : string) : option string := non_empty (trim value).
Definition sanitized_incident_path (value : string) : option string := non_empty (trim value).

Definition incident_node (incident : Incident) : Node :=
  NIncident {| inn_incident_id := in_incident_id incident; inn_detector := first_piece ":" (in_incident_id incident);
    inn_severity := severity_debug (in_severity incident); inn_title := in_title incident; inn_summary := in_summary incident;
    inn_ts := in_ts incident; inn_mitre_ids := retain (fun t => starts_with "T" t && Nat.leb 5 (String.length t)) (in_tags incident);
    inn_decision := None; inn_confidence := None; inn_decision_reason := None; inn_decision_target := None; inn_auto_executed := false;
    inn_is_allowlisted := false; inn_false_positive := false; inn_fp_reporter := None; inn_fp_reported_at := None;
    inn_research_only := is_self_traffic_incident incident |}.

(** The node of an entity, found or made. *)
Definition entity_node (ts : Z) (entity : EntityRef) : option (G Z) :=
  match e_type entity with
  | EIp => (fun ip => gip ip ts) <$> sanitized_incident_ip (e_value entity)
  | EUser => guser <$> sanitized_incident_user (e_value entity)
  | EPath => gfile <$> sanitized_incident_path (e_value entity)
  | EContainer => Some (gcontainer (e_value entity))
  | EService => (fun trimmed => gfile ("service:" +:+ trimmed)) <$> non_empty (trim (e_value entity))
  end.

Fixpoint link_entities (inc_id ts : Z) (entities : list EntityRef) : G unit :=
  match entities with
  | [] => gret tt
  | entity :: entities =>
      when_some (entity_node ts entity) (fun node =>
        let* target_id := node in gedge (Edge_new inc_id target_id TriggeredBy ts)) ;;*
      link_entities inc_id ts entities
  end.

(** A process named in the evidence. *)
Definition link_evidence (inc_id ts : Z) (ev : Json) : G unit :=
  when_some (get_u64 ev "pid") (fun pid =>
    if pid =? 0 then gret tt
    else
      let comm := default "" (get_str ev "comm") in
      let uid := wrap 32 (default 0 (get_u64 ev "uid")) in
      let* proc_id := gprocess (wrap 32 pid) 0 comm uid ts in
      gedge (Edge_new inc_id proc_id TriggeredBy ts)).

Fixpoint link_evidences (inc_id ts : Z) (evs : list Json) : G unit :=
  match evs with [] => gret tt | ev :: evs => link_evidence inc_id ts ev ;;* link_evidences inc_id ts evs end.

Definition linked_entities (incident : Incident) : list EntityRef :=
  match in_entities incident with [] => derive_implicit_entities incident | entities => entities end.

Definition ingest_incident (incident : Incident) : G unit :=
  let* inc_id := gupsert (incident_node incident) in
  link_entities inc_id (in_ts incident) (linked_entities incident) ;;*
  match in_evidence incident with
  | JArr evs => link_evidences inc_id (in_ts incident) evs
  | JObj _ => link_evidence inc_id (in_ts incident) (in_evidence incident)
  | _ => gret tt
  end.

(** ** Decisions *)

Definition set_allowlisted (incident_id : string) (value : bool) : G unit := fun g =>
  match find_by_incident g incident_id with
  | Some id => gchange id (on_incident (fun i =>
      {| inn_incident_id := inn_incident_id i; inn_detector := inn_detector i; inn_severity := inn_severity i; inn_title := inn_title i;
         inn_summary := inn_summary i; inn_ts := inn_ts i; inn_mitre_ids := inn_mitre_ids i; inn_decision := inn_decision i;
         inn_confidence := inn_confidence i; inn_decision_reason := inn_decision_reason i; inn_decision_target := inn_decision_target i;
         inn_auto_executed := inn_auto_executed i; inn_is_allowlisted := value; inn_false_positive := inn_false_positive i;
         inn_fp_reporter := inn_fp_reporter i; inn_fp_reported_at := inn_fp_reported_at i; inn_research_only := inn_research_only i |})) g
  | None => Some (g, tt)
  end.

(** What a decision writes on the node of its incident. *)
Definition decided (action_type : string) (action_target : option string) (confidence : spec_float) (reason : string) (auto_executed : bool)
    (i : IncidentNode) : IncidentNode :=
  {| inn_incident_id := inn_incident_id i; inn_detector := inn_detector i; inn_severity := inn_severity i; inn_title := inn_title i;
     inn_summary := inn_summary i; inn_ts := inn_ts i; inn_mitre_ids := inn_mitre_ids i; inn_decision := Some action_type;
     inn_confidence := Some confidence; inn_decision_reason := Some reason; inn_decision_target := action_target;
     inn_auto_executed := auto_executed; inn_is_allowlisted := inn_is_allowlisted i; inn_false_positive := inn_false_positive i;
     inn_fp_reporter := inn_fp_reporter i; inn_fp_reported_at := inn_fp_reported_at i; inn_research_only := inn_research_only i |}.

(** The target of an action is held by the system. *)
Definition held (node : G Z) (ts : Z) (props : Edge -> Edge) : G unit :=
  let* id := node in
  let* sys_id := gsystem "" in
  gedge (props (Edge_new id sys_id BlockedBy ts)).

Definition held_props (reason incident_id : string) (e : Edge) : Edge :=
  with_prop (with_prop e "reason" (JStr reason)) "incident_id" (JStr incident_id).

Definition ingest_decision (incident_id action_type : string) (action_target : option string) (confidence : spec_float) (reason : string)
    (auto_executed : bool) (ts : Z) : G unit := fun g =>
  match find_by_incident g incident_id with
  | None => Some (g, tt)
  | Some inc_node_id =>
      (gchange inc_node_id (on_incident (decided action_type action_target confidence reason auto_executed)) ;;*
       when_some action_target (fun target =>
         if String.eqb action_type "block_ip" then
           held (gip target ts) ts (fun e => with_prop (with_prop (held_props reason incident_id e) "auto_executed" (JBool auto_executed))
                                               "confidence" (json_f32 confidence))
         else if String.eqb action_type "honeypot" then held (gip target ts) ts (held_props "honeypot_diversion" incident_id)
         else if String.eqb action_type "suspend_user_sudo" then held (guser target) ts (held_props "sudo_suspended" incident_id)
         else if String.eqb action_type "kill_process" then held (guser target) ts (held_props "process_killed" incident_id)
         else gret tt)) g
  end.

(** ** Everything that comes in *)

Inductive Input :=
| InEvent (event : Event)
| InIncident (incident : Incident)
| InAllowlisted (incident_id : string) (value : bool)
| InDecision (incident_id action_type : string) (action_target : option string) (confidence : spec_float) (reason : string)
    (auto_executed : bool) (ts : Z).

Definition take_in (i : Input) : G unit :=
  match i with
  | InEvent event => ingest event
  | InIncident incident => ingest_incident incident
  | InAllowlisted incident_id value => set_allowlisted incident_id value
  | InDecision incident_id action_type target confidence reason auto_executed ts =>
      ingest_decision incident_id action_type target confidence reason auto_executed ts
  end.

Fixpoint take_all (inputs : list Input) : G unit :=
  match inputs with [] => gret tt | i :: inputs => take_in i ;;* take_all inputs end.

End ingest.

(** ** What every handler keeps *)

(** A flow carries its counters. *)
Definition flow_ok (e : Edge) : Prop :=
  ed_relation e = ConnectedTo -> is_Some (ed_properties e !! "dst_port") ->
  is_Some (ed_properties e !! "flow_count") /\ is_Some (ed_properties e !! "total_bytes").

(** No redirection names the old descriptor, when [b]. *)
Definition no_fd (b : bool) (e : Edge) : Prop := b = true -> ed_relation e = RedirectedFd -> ed_properties e !! "old_fd" = None.

Definition edge_ok (b : bool) (e : Edge) : Prop := flow_ok e /\ no_fd b e.

Definition is_shell_report (i : Incident) : bool := starts_with "trigger_reverse_shell:" (in_incident_id i).
Definition quiet (g : KnowledgeGraph) : Prop := Forall (fun i => is_shell_report i = false) (kg_trigger_incidents g).

Record inv (b : bool) (ev : EventMeta) (g : KnowledgeGraph) : Prop := {
  iv_ok : kg_ok g;
  iv_labelled : labelled g;
  iv_edges : Forall (edge_ok b) (kg_edges g);
  iv_quiet : b = true -> quiet g;
  iv_event : kg_event g = ev;
}.

(** The program ends and keeps the invariant. *)
Definition keeps (b : bool) (ev : EventMeta) {A} (m : G A) : Prop :=
  forall g, inv b ev g -> exists g' a, m g = Some (g', a) /\ inv b ev g'.

Create HintDb ingest discriminated.

Section kept.
Context `{Lowercase} (b : bool) (ev : EventMeta).
Implicit Types g : KnowledgeGraph.

Lemma keeps_ret {A} (a : A) : keeps b ev (gret a).
Proof. intros g Hg. by exists g, a. Qed.

Lemma keeps_bind {A B} (m : G A) (k : A -> G B) : keeps b ev m -> (forall a, keeps b ev (k a)) -> keeps b ev (gbind m k).
Proof. intros Hm Hk g Hg. destruct (Hm g Hg) as (g1 & a & E & H1). unfold gbind. rewrite E. by apply Hk. Qed.

Lemma keeps_when {A} (o : option A) (k : A -> G unit) : (forall a, o = Some a -> keeps b ev (k a)) -> keeps b ev (when_some o k).
Proof. intros Hk. destruct o as [a|]; [by apply Hk|apply keeps_ret]. Qed.

Lemma keeps_if {A} (c : bool) (m n : G A) : keeps b ev m -> keeps b ev n -> keeps b ev (if c then m else n).
Proof. by destruct c. Qed.

(** *** Nodes *)

#[local] Instance some_order : HashOrder := {| hash_iter := map_to_list; hash_iter_perm m := reflexivity _ |}.

Definition same_edges g g' : Prop :=
  kg_edges g' = kg_edges g /\ kg_trigger_incidents g' = kg_trigger_incidents g /\ kg_event g' = kg_event g.

Lemma keeps_nodes {A} (f : KnowledgeGraph -> KnowledgeGraph * A) (op : KnowledgeGraph -> GraphOp) :
  (forall g, same_edges g (f g).1) -> (forall g, op_named (op g)) -> (forall g, apply_op g (op g) = Some (f g).1) ->
  keeps b ev (fun g => Some (f g)).
Proof.
  intros Hs Hn Ha g [Hok Hl He Hq Hev]. exists (f g).1, (f g).2. split; [by destruct (f g)|]. destruct (Hs g) as (E1 & E2 & E3).
  split; [by eapply apply_op_ok, Ha|by eapply apply_op_labelled, Ha| | |].
  - by rewrite E1.
  - unfold quiet. by rewrite E2.
  - by rewrite E3.
Qed.

Lemma add_node_same g n : same_edges g (add_node g n).1.
Proof. unfold add_node. by destruct (find_existing g n). Qed.

Lemma keeps_process pid ppid comm uid ts : keeps b ev (gprocess pid ppid comm uid ts).
Proof.
  apply (keeps_nodes _ (fun _ => OpProcess pid ppid comm uid ts)); [|done|done]. intros g. unfold ensure_process.
  destruct (find_by_pid g pid); [done|apply add_node_same].
Qed.
Lemma keeps_ip addr ts : keeps b ev (gip addr ts).
Proof.
  apply (keeps_nodes _ (fun _ => OpIp addr ts)); [|done|done]. intros g. unfold ensure_ip.
  destruct (find_by_ip g addr); [done|apply add_node_same].
Qed.
Lemma keeps_file path : keeps b ev (gfile path).
Proof.
  apply (keeps_nodes _ (fun _ => OpFile path)); [|done|done]. intros g. unfold ensure_file.
  destruct (find_by_path g path); [done|apply add_node_same].
Qed.
Lemma keeps_user name : keeps b ev (guser name).
Proof.
  apply (keeps_nodes _ (fun _ => OpUser name)); [|done|done]. intros g. unfold ensure_user.
  destruct (find_by_user g name); [done|apply add_node_same].
Qed.
Lemma keeps_domain name : keeps b ev (gdomain name).
Proof.
  apply (keeps_nodes _ (fun _ => OpDomain name)); [|done|done]. intros g. unfold ensure_domain.
  destruct (find_by_domain g name); [done|apply add_node_same].
Qed.
Lemma keeps_port number protocol : keeps b ev (gport number protocol).
Proof.
  apply (keeps_nodes _ (fun _ => OpPort number protocol)); [|done|done]. intros g. unfold ensure_port.
  destruct (find_by_port g number protocol); [done|apply add_node_same].
Qed.
Lemma keeps_container id : cuttable id -> keeps b ev (gcontainer id).
Proof.
  intros Hc. apply (keeps_nodes _ (fun _ => OpContainer id)); [|done|done]. intros g. unfold ensure_container.
  destruct (find_by_container g id); [done|apply add_node_same].
Qed.
Lemma keeps_system hostname : keeps b ev (gsystem hostname).
Proof.
  apply (keeps_nodes _ (fun _ => OpSystem hostname)); [|done|done]. intros g. unfold ensure_system.
  destruct (system_node g); [by destruct (String.eqb _ _)|]. pose proof (add_node_same g (NSystem hostname ∅)) as Hs.
  by destruct (add_node g (NSystem hostname ∅)) as [g1 id].
Qed.
Lemma keeps_upsert n : is_Some (label n) -> keeps b ev (gupsert n).
Proof.
  intros Hn. apply (keeps_nodes _ (fun _ => OpUpsert n)); [|done|done]. intros g. unfold upsert_node.
  destruct (find_existing g n); [done|apply add_node_same].
Qed.

(** A change in place that leaves the key, the threat lists and the label. *)
Lemma keeps_change id f :
  (forall n, node_key (f n) = node_key n /\ listed (f n) = listed n /\ (is_Some (label n) -> is_Some (label (f n)))) ->
  keeps b ev (gchange id f).
Proof.
  intros Hf g [Hok Hl He Hq Hev]. eexists _, tt. split; [done|]. split; try done.
  - apply update_node_ok; [|done]. intros n _. by destruct (Hf n) as (? & ? & _).
  - apply update_labelled; [|done]. intros n. by destruct (Hf n) as (_ & _ & ?).
Qed.

(** *** Edges *)

Lemma edge_new_ok from to_ relation ts : edge_ok b (Edge_new from to_ relation ts).
Proof.
  split.
  - intros _ Hp. cbn in Hp. rewrite lookup_empty in Hp. by apply is_Some_None in Hp.
  - intros _ _. apply lookup_empty.
Qed.

Lemma with_prop_ok e key v : key <> "dst_port" -> key <> "old_fd" -> edge_ok b e -> edge_ok b (with_prop e key v).
Proof.
  intros H1 H2 [Hf Hn]. split.
  - intros Hr. cbn. rewrite lookup_insert_ne by done. intros Hp. destruct (Hf Hr Hp) as [? ?].
    split; apply lookup_insert_is_Some'; by right.
  - intros Hb Hr. cbn. rewrite lookup_insert_ne by done. by apply Hn.
Qed.

Lemma opt_prop_ok e key v : key <> "dst_port" -> key <> "old_fd" -> edge_ok b e -> edge_ok b (opt_prop key v e).
Proof. destruct v; [apply with_prop_ok|done]. Qed.

Lemma enrich_ok m e : edge_ok b e -> edge_ok b (enrich m e).
Proof.
  intros He. assert (forall key v e, key <> "dst_port" -> key <> "old_fd" -> edge_ok b e -> edge_ok b (add_prop key v e)) as Ha.
  { intros key [v|] e' H1 H2 He'; cbn; [|done]. case_bool_decide; [done|by apply with_prop_ok]. }
  unfold enrich. destruct (current_summary m) as [s|]; [destruct (String.eqb s "")|]; repeat apply Ha; done.
Qed.

Lemma any_edge_true edges p idxs : any_edge edges p idxs = Some true -> exists e, e ∈ edges /\ p e = true.
Proof.
  induction idxs as [|i idxs IH]; cbn; [done|]. destruct (edges !! i) as [e|] eqn:Ee; [|done]. cbn.
  destruct (p e) eqn:Ep; [|done]. intros _. exists e. split; [by eapply list_elem_of_lookup_2|done].
Qed.

Lemma fd_redirect_never edges now idxs : Forall (edge_ok true) edges -> any_edge edges (fd_redirect now) idxs <> Some true.
Proof.
  intros He (e & Hin & Hp)%any_edge_true. rewrite Forall_forall in He. destruct (He e Hin) as [_ Hn]. unfold fd_redirect in Hp.
  bool_to_prop. specialize (Hn eq_refl ltac:(done)). unfold old_fd in *. rewrite Hn in *. cbn in *. lia.
Qed.

Lemma quiet_push g i : quiet g -> is_shell_report i = false -> quiet (push_incident g i).
Proof. intros Hq Hi. apply Forall_app. split; [done|by constructor]. Qed.

(** Without the old descriptor no trigger reports a reverse shell. *)
Lemma triggers_quiet g relation from to_ now properties g' :
  Forall (edge_ok true) (kg_edges g) -> (relation = RedirectedFd -> properties !! "old_fd" = None) -> quiet g ->
  check_critical_triggers g relation from to_ now properties = Some g' -> quiet g'.
Proof.
  intros He Hp Hq.
  assert (forall g2, quiet g2 -> check_fileless_complete g2 from now = Some g' -> quiet g') as Hfl.
  { intros g2 Hq2. unfold check_fileless_complete. destruct (kg_outgoing g2 !! from); [|by intros [= <-]].
    destruct (fileless_signs _ _ _ _); [|done]. cbn [mbind option_bind]. destruct (_ || _); [by intros [= <-]|].
    destruct (pending _ _); [by intros [= <-]|]. destruct (label_of _ _); [|done]. cbn [mbind option_bind]. intros [= <-]. by apply quiet_push. }
  destruct relation; cbn [check_critical_triggers]; try (by intros [= <-]).
  - unfold trigger_reverse_shell_from_connect. destruct (is_ip_internal _ _) eqn:Ei.
    + cbn [mbind option_bind]. unfold trigger_fileless_from_connect. rewrite Ei. by intros [= <-].
    + pose proof (fd_redirect_never _ now (adj (kg_outgoing g) from) He) as Hno.
      destruct (any_edge _ _ _) as [[]|]; [done| |done]. cbn [mbind option_bind]. unfold trigger_fileless_from_connect.
      rewrite Ei. by apply Hfl.
  - unfold trigger_container_escape. destruct (kg_nodes g !! to_) as [[]|]; try (by intros [= <-]).
    destruct (negb _); [by intros [= <-]|]. destruct (pending _ _); [by intros [= <-]|]. destruct (label_of _ _); [|done].
    cbn [mbind option_bind]. intros [= <-]. by apply quiet_push.
  - unfold trigger_container_escape. destruct (kg_nodes g !! to_) as [[]|]; try (by intros [= <-]).
    destruct (negb _); [by intros [= <-]|]. destruct (pending _ _); [by intros [= <-]|]. destruct (label_of _ _); [|done].
    cbn [mbind option_bind]. intros [= <-]. by apply quiet_push.
  - unfold trigger_service_stop. destruct (kg_nodes g !! from) as [[]|]; try (by intros [= <-]).
    destruct (negb _); [by intros [= <-]|]. destruct (_ && _); [by intros [= <-]|]. destruct (List.find _ _); [|by intros [= <-]].
    destruct (pending _ _); [by intros [= <-]|]. intros [= <-]. by apply quiet_push.
  - unfold trigger_reverse_shell_from_fd, old_fd. rewrite Hp by done. cbn. by intros [= <-].
  - by apply Hfl.
Qed.

Lemma keeps_edge e : edge_ok b e -> keeps b ev (gedge e).
Proof.
  intros He g [Hok Hl Hes Hq Hev]. destruct (add_edge_total g e Hok Hl) as (g' & E & Hg). exists g', tt. unfold gedge. rewrite E.
  split; [done|]. pose proof (enrich_ok (kg_event g) e He) as He'.
  assert (Forall (edge_ok b) (kg_edges (push_edge g e).1)) as Hes' by (cbn; apply Forall_app; by split; [|constructor]).
  split.
  - eapply grown_ok; [done|]. by apply push_edge_ok.
  - by eapply grown_labelled.
  - destruct Hg as [x ->]. exact Hes'.
  - intros ->. specialize (Hq eq_refl). revert E. unfold add_edge. pose proof (push_edge_at g e) as Hat.
    assert (quiet (push_edge g e).1) as Hq' by done. destruct (push_edge g e) as [g1 idx]. cbn [fst snd] in *. rewrite Hat. cbn [mbind option_bind].
    destruct (is_snapshot _); [by intros [= <- _]|]. destruct (check_critical_triggers _ _ _ _ _ _) as [g2|] eqn:Et; [|done].
    cbn [mbind option_bind]. intros [= <- _]. eapply triggers_quiet; [exact Hes'| |exact Hq'|exact Et].
    destruct He' as [_ Hn]. by apply Hn.
  - destruct Hg as [x ->]. done.
Qed.

(** *** Flows *)

Lemma find_flow_spec g src dst port idx : find_flow g src dst port = Some idx ->
  idx ∈ adj (kg_outgoing g) src /\ exists e, kg_edges g !! idx = Some e /\ is_flow dst port e = true.
Proof.
  intros [Hin Hp]%List.find_some. split; [by apply list_elem_of_In|]. destruct (kg_edges g !! idx) as [e|]; [|done]. by exists e.
Qed.

(** An edge is replaced by one with the same ends and as many properties. *)
Lemma set_edge_ok g idx e e' : kg_edges g !! idx = Some e -> ed_from e' = ed_from e -> ed_to e' = ed_to e ->
  estimate_edge_size e' = estimate_edge_size e -> is_Some (ed_properties e' !! "flow_count") -> kg_ok g -> kg_ok (set_edge g idx e').
Proof.
  intros He Hf Ht Hs Hc [[N1 N2 N3] [Ho Hi Hsy Hnd (dead & D1 & D2 & D3)] Hla Hm].
  assert (idx < length (kg_edges g))%nat as Hlt by (by eapply lookup_lt_Some).
  assert (forall i x, <[idx := e']> (kg_edges g) !! i = Some x ->
    exists y, kg_edges g !! i = Some y /\ ed_from x = ed_from y /\ ed_to x = ed_to y /\ (x = y \/ x = e')) as Hback.
  { intros i x. destruct (decide (i = idx)) as [->|Hne].
    - rewrite list_lookup_insert_eq by done. intros [= <-]. exists e. auto.
    - rewrite list_lookup_insert_ne by done. intros Hx. exists x. auto. }
  assert (forall i y, kg_edges g !! i = Some y -> exists x, <[idx := e']> (kg_edges g) !! i = Some x /\ ed_from x = ed_from y /\ ed_to x = ed_to y) as Hfw.
  { intros i y Hy. destruct (decide (i = idx)) as [->|Hne].
    - rewrite list_lookup_insert_eq by done. assert (y = e) as -> by congruence. by exists e'.
    - rewrite list_lookup_insert_ne by done. by exists y. }
  split; [by split| | |]; cbn.
  - split.
    + intros v i (y & Hy & <-)%Ho. destruct (Hfw i y Hy) as (x & ? & ? & ?). by exists x.
    + intros v i (y & Hy & <-)%Hi. destruct (Hfw i y Hy) as (x & ? & ? & ?). by exists x.
    + intros i x (y & Hy & -> & -> & _)%Hback. by apply Hsy.
    + done.
    + exists dead. split_and!; [done|done|]. intros i. rewrite D3. split.
      * intros (y & Hy & Hno). destruct (Hfw i y Hy) as (x & Hx & E & _). exists x. by rewrite E.
      * intros (x & (y & Hy & E & _)%Hback & Hno). exists y. by rewrite <- E.
  - intros v i x Hv (y & Hy & _ & _ & Hxy)%Hback. destruct (Hla v i y Hv Hy) as (t & Hlt' & Hle). exists t. split; [done|].
    destruct Hxy as [->| ->]; [done|]. intros Hn. rewrite Hn in Hc. by apply is_Some_None in Hc.
  - rewrite Hm. f_equal. unfold edges_size. rewrite list_fmap_insert, Hs. f_equal. symmetry. apply list_insert_id. by rewrite list_lookup_fmap, He.
Qed.

Lemma count_flow_size cb sb ts e : is_Some (ed_properties e !! "flow_count") -> is_Some (ed_properties e !! "total_bytes") ->
  estimate_edge_size (count_flow cb sb ts e) = estimate_edge_size e.
Proof.
  intros H1 H2. unfold estimate_edge_size, count_flow. cbn. rewrite !map_size_insert_Some; [done|done|by rewrite lookup_insert_ne].
Qed.

Lemma count_flow_ok cb sb ts e : edge_ok b e -> edge_ok b (count_flow cb sb ts e).
Proof. intros He. unfold count_flow. apply (with_prop_ok _ "total_bytes"), (with_prop_ok _ "flow_count"); done. Qed.

Lemma new_flow_ok src dst port cb sb ts proto : edge_ok b (new_flow src dst port cb sb ts proto).
Proof.
  split; [|intros _ Hr; unfold new_flow, opt_prop in Hr; by destruct (non_empty proto)].
  intros _ _. cbn. split; [rewrite lookup_insert_ne by done|]; rewrite lookup_insert_eq; by eexists.
Qed.

Lemma keeps_flow src dst port cb sb ts proto : keeps b ev (record_flow src dst port cb sb ts proto).
Proof.
  intros g Hg. unfold record_flow. destruct (find_flow g src dst port) as [idx|] eqn:Ef; [|by apply keeps_edge; [apply new_flow_ok|]].
  destruct (find_flow_spec _ _ _ _ _ Ef) as (Hin & e & He & Hfl). rewrite He. cbn [mbind option_bind]. eexists _, tt. split; [done|].
  destruct Hg as [Hok Hl Hes Hq Hev]. assert (edge_ok b e) as Heo by (by eapply Forall_lookup_1).
  assert (is_Some (ed_properties e !! "flow_count") /\ is_Some (ed_properties e !! "total_bytes")) as [H1 H2].
  { unfold is_flow in Hfl. bool_to_prop. apply (proj1 Heo); [done|]. by destruct (ed_properties e !! "dst_port"). }
  split; [|done| |done|done].
  - apply (set_edge_ok g idx e); try done; [by apply count_flow_size|]. cbn. rewrite lookup_insert_ne, lookup_insert_eq by done. by eexists.
  - cbn. apply Forall_insert; [done|by apply count_flow_ok].
Qed.

End kept.

(** *** The handlers *)

Ltac kept_node := let n := fresh in intros n; destruct n; cbn; (split; [done|]); (split; [done|]); try done; try (intros _; by eexists);
  (destruct (is_char_boundary _ _); [intros _; by eexists|done]).
Ltac kept_edge := unfold integrity_edge, str_prop, u64_prop, u32_prop, i64_prop;
  repeat match goal with
  | |- edge_ok _ (Edge_new _ _ _ _) => apply edge_new_ok
  | |- edge_ok _ (with_prop _ _ _) => apply with_prop_ok; [done|done|]
  | |- edge_ok _ (opt_prop _ _ _) => apply opt_prop_ok; [done|done|]
  | |- edge_ok _ (if ?c then _ else _) => destruct c
  end.
Ltac kept := repeat match goal with
  | |- keeps _ _ (gret _) => apply keeps_ret
  | |- keeps _ _ (gprocess _ _ _ _ _) => apply keeps_process
  | |- keeps _ _ (gip _ _) => apply keeps_ip
  | |- keeps _ _ (gfile _) => apply keeps_file
  | |- keeps _ _ (guser _) => apply keeps_user
  | |- keeps _ _ (gdomain _) => apply keeps_domain
  | |- keeps _ _ (gport _ _) => apply keeps_port
  | |- keeps _ _ (gsystem _) => apply keeps_system
  | |- keeps _ _ (gcontainer _) => apply keeps_container; auto
  | |- keeps _ _ (gupsert _) => apply keeps_upsert; by eexists
  | |- keeps _ _ (record_flow _ _ _ _ _ _ _) => apply keeps_flow
  | |- keeps _ _ (gedge _) => apply keeps_edge; by kept_edge
  | |- keeps _ _ (gchange _ _) => apply keeps_change; by kept_node
  | |- keeps _ _ (gbind _ _) => apply keeps_bind; [|intro]
  | |- keeps _ _ (when_some _ _) => apply keeps_when; intros
  | |- keeps _ _ (if _ then _ else _) => apply keeps_if
  | |- keeps _ _ (match ?x with _ => _ end) => destruct x eqn:?
  | |- keeps _ _ (let _ := _ in _) => cbv zeta
  end.

Section handlers.
Context `{Lowercase} (b : bool) (ev : EventMeta).
Implicit Types g : KnowledgeGraph.

Lemma keeps_snapshot_items f items : (forall x, keeps b ev (f x)) -> forall count, keeps b ev (snapshot_items f items count).
Proof. intros Hf. induction items as [|x items IH]; intros count; cbn [snapshot_items]; kept; [apply Hf|apply IH]. Qed.

Lemma keeps_snapshot event : keeps b ev (ingest_network_snapshot event).
Proof.
  unfold ingest_network_snapshot. kept; apply keeps_snapshot_items; intros x; [unfold snapshot_connection|unfold snapshot_port]; kept.
Qed.

Lemma keeps_ssh_login event success : keeps b ev (ingest_ssh_login event success).
Proof.
  unfold ingest_ssh_login. kept. intros g [Hok Hl He Hq Hev]. eexists _, tt. split; [done|].
  set (user := default "" (detail_str event "user")).
  split; [by apply record_username_ok| | | |]; unfold record_attempted_username; destruct (String.eqb user ""); try done.
  apply update_labelled; [|done]. by intros [].
Qed.

Lemma keeps_process_exit event : keeps b ev (ingest_process_exit event).
Proof.
  unfold ingest_process_exit. kept. intros g Hg. destruct (find_by_pid g a) as [id|]; [|by exists g, tt].
  revert g Hg. change (keeps b ev (gchange id (on_process (with_exit (ev_ts event))))). kept.
Qed.

Lemma keeps_sudo event : keeps b ev (ingest_sudo_command event).
Proof. unfold ingest_sudo_command. kept. intros g. apply keeps_process. Qed.

Lemma keeps_fd_redirect event : (b = true -> detail_i64 event "old_fd" = None) -> keeps b ev (ingest_fd_redirect event).
Proof.
  intros Hfd. unfold ingest_fd_redirect. kept. apply keeps_edge. unfold i64_prop. apply opt_prop_ok; [done|done|].
  destruct (detail_i64 event "old_fd") as [fd|] eqn:E; [|apply edge_new_ok]. split; [done|]. intros Hb. by specialize (Hfd Hb).
Qed.

Lemma keeps_handler event : (forall cid, detail_str event "container_id" = Some cid -> cuttable cid) ->
  (b = true -> detail_i64 event "old_fd" = None) -> keeps b ev (handler event).
Proof.
  intros Hc Hfd. unfold handler. cbv zeta.
  repeat match goal with |- keeps _ _ (if _ then _ else _) => apply keeps_if end;
  auto using keeps_ret, keeps_snapshot, keeps_ssh_login, keeps_process_exit, keeps_sudo, keeps_fd_redirect;
  unfold ingest_shell_command_exec, ingest_process_exec, ingest_process_clone, ingest_shell_tty_input, ingest_privilege_setuid, ingest_privilege_escalation,
    ingest_ssh_authorized_keys_changed, ingest_network_outbound, ingest_network_accept,
    ingest_network_listen, ingest_network_blocked, ingest_network_connection, ingest_http_request, ingest_dns_query,
    ingest_file_write, ingest_file_read, ingest_file_delete, ingest_file_rename, ingest_file_truncate, ingest_file_timestomp,
    ingest_file_ransomware_burst, ingest_file_changed, ingest_file_extracted, ingest_file_scanned, ingest_filesystem_mount,
    ingest_cron_tampering, ingest_container_start, ingest_container_die, ingest_container_oom, container_event, ingest_kernel_module_load,
    ingest_kernel_new_module, ingest_kernel_bpf_loaded, ingest_syscall_table_modified, ingest_firmware_event, ingest_ptrace_attach,
    ingest_process_prctl, ingest_process_signal, ingest_memfd_create, ingest_mprotect_exec, ingest_memory_region,
    ingest_cgroup_event, ingest_usb, ingest_io_uring_submit, ingest_io_uring_create, ingest_tcp_stream, ingest_sysctl_changed,
    ingest_lsm_exec_blocked, ingest_web_scan, in_container, file_act, rehash; kept.
Qed.

Lemma set_meta_inv g m : inv b ev g -> inv b m (set_meta g m).
Proof. intros [[[H1 H2 H3] Ha Hl Hm] Hla He Hq Hev]. by split. Qed.
End handlers.

(** ** What comes in with cuttable names does not stop the agent *)

Definition event_named (event : Event) : Prop := forall cid, detail_str event "container_id" = Some cid -> cuttable cid.

(** The names of containers can be cut after twelve bytes. *)
Definition input_named (i : Input) : Prop :=
  match i with
  | InEvent event => event_named event
  | InIncident incident => Forall (fun e => e_type e = EContainer -> cuttable (e_value e)) (in_entities incident)
  | _ => True
  end.

(** The event does not say which descriptor was the old one. *)
Definition input_without_old_fd (i : Input) : Prop :=
  match i with InEvent event => get (ev_details event) "old_fd" = None | _ => True end.

Section ingested.
Context `{Lowercase} (ipv4_matches : string -> list string) (safelist : SafelistState) (b : bool).

Lemma keeps_ingest event : event_named event -> (b = true -> detail_i64 event "old_fd" = None) -> keeps b no_event (ingest event).
Proof.
  intros Hc Hfd g Hg. unfold ingest. destruct (keeps_handler b (event_meta event) event Hc Hfd (set_meta g (event_meta event))) as (g' & [] & -> & Hg').
  { by eapply set_meta_inv. }
  exists (set_meta g' no_event), tt. split; [done|by eapply set_meta_inv].
Qed.

Lemma new_v4_ips seen candidates : Forall (fun e => e_type e = EIp) (new_v4 seen candidates).2.
Proof.
  revert seen. induction candidates as [|c candidates IH]; intros seen; cbn [new_v4]; [constructor|]. destruct (_ && _); [|apply IH].
  specialize (IH ({[c]} ∪ seen)). destruct (new_v4 _ _) as [seen' out]. by constructor.
Qed.

Lemma linked_cuttable incident : input_named (InIncident incident) ->
  Forall (fun e => e_type e = EContainer -> cuttable (e_value e)) (linked_entities ipv4_matches incident).
Proof.
  unfold linked_entities. cbn. destruct (in_entities incident); [|done]. intros _. eapply Forall_impl; [apply new_v4_ips|]. cbn. congruence.
Qed.

Lemma keeps_link_entities inc_id ts entities : Forall (fun e => e_type e = EContainer -> cuttable (e_value e)) entities ->
  keeps b no_event (link_entities inc_id ts entities).
Proof.
  induction 1 as [|e entities He _ IH]; cbn [link_entities]; kept; [|exact IH]. revert a H0. unfold entity_node.
  destruct (e_type e); cbn; intros a; try (intros (x & _ & ->)%fmap_Some); try (intros [= <-]); kept.
Qed.

Lemma keeps_link_evidence inc_id ts x : keeps b no_event (link_evidence inc_id ts x).
Proof. unfold link_evidence. kept. Qed.

Lemma keeps_link_evidences inc_id ts evs : keeps b no_event (link_evidences inc_id ts evs).
Proof. induction evs as [|x evs IH]; cbn [link_evidences]; kept; [apply keeps_link_evidence|exact IH]. Qed.

Lemma keeps_ingest_incident incident : input_named (InIncident incident) -> keeps b no_event (ingest_incident ipv4_matches safelist incident).
Proof.
  intros Hn. unfold ingest_incident. kept; auto using keeps_link_entities, linked_cuttable, keeps_link_evidence, keeps_link_evidences.
Qed.

Lemma keeps_decision incident_id action_type target confidence reason auto_executed ts :
  keeps b no_event (ingest_decision incident_id action_type target confidence reason auto_executed ts).
Proof.
  intros g Hg. unfold ingest_decision. destruct (find_by_incident g incident_id) as [id|]; [|by exists g, tt]. revert g Hg.
  match goal with |- forall g, _ -> exists g' a, ?m g = _ /\ _ => change (keeps b no_event m) end. unfold held, held_props. kept.
Qed.

Lemma keeps_allowlisted incident_id value : keeps b no_event (set_allowlisted incident_id value).
Proof.
  intros g Hg. unfold set_allowlisted. destruct (find_by_incident g incident_id) as [id|]; [|by exists g, tt]. revert g Hg.
  match goal with |- forall g, _ -> exists g' a, ?m g = _ /\ _ => change (keeps b no_event m) end. kept.
Qed.

Lemma keeps_take_in i : input_named i -> (b = true -> input_without_old_fd i) -> keeps b no_event (take_in ipv4_matches safelist i).
Proof.
  intros Hn Hfd. destruct i as [event|incident|id v|id at_ tg cf rs ae ts]; cbn [take_in].
  - apply keeps_ingest; [done|]. intros Hb. unfold detail_i64, get_i64. by rewrite (Hfd Hb).
  - by apply keeps_ingest_incident.
  - apply keeps_allowlisted.
  - apply keeps_decision.
Qed.

Lemma keeps_take_all inputs : Forall input_named inputs -> (b = true -> Forall input_without_old_fd inputs) ->
  keeps b no_event (take_all ipv4_matches safelist inputs).
Proof.
  intros Hn Hfd. induction inputs as [|i inputs IH]; cbn [take_all]; [apply keeps_ret|]. apply Forall_cons in Hn as [H1 H2]. apply keeps_bind.
  - apply keeps_take_in; [done|]. intros Hb. specialize (Hfd Hb). by apply Forall_cons in Hfd as [? _].
  - intros _. apply IH; [done|]. intros Hb. specialize (Hfd Hb). by apply Forall_cons in Hfd as [_ ?].
Qed.

Lemma new_inv start : inv b no_event (KnowledgeGraph_new start).
Proof. split; [apply KnowledgeGraph_new_ok|apply new_labelled|constructor|intros; constructor|done]. Qed.
End ingested.

Section claims.
Context `{Lowercase} (ipv4_matches : string -> list string) (safelist : SafelistState).

(** C32. Events, incidents, decisions and allowlistings in any order are taken in
    to their end, provided that every container id they carry (the container_id
    of an event, a container among the entities of an incident) has at most twelve
    bytes or a whole character before its thirteenth; the graph stays well
    formed, and no event is left behind for the next edges to be taken for.
    Without the proviso the graph can hold a node whose label panics, see
    [uncuttable_label_panics]. *)
Theorem inputs_keep_graph (inputs : list Input) (start : Z) : Forall input_named inputs ->
  exists g, take_all ipv4_matches safelist inputs (KnowledgeGraph_new start) = Some (g, tt) /\ kg_ok g /\ kg_event g = no_event.
Proof.
  intros Hn. destruct (keeps_take_all ipv4_matches safelist false inputs Hn ltac:(done) _ (new_inv false start)) as (g & [] & E & Hg).
  exists g. split_and!; [done|apply Hg|apply Hg].
Qed.

(** C40. The sensor writes the redirected descriptor as "oldfd"; the graph reads
    "old_fd".  While no event has that key, whatever comes in (with container ids
    that can be cut, as in [inputs_keep_graph]), no reverse shell is ever reported
    by the triggers. *)
Theorem sensor_shells_unseen (inputs : list Input) (start : Z) : Forall input_named inputs -> Forall input_without_old_fd inputs ->
  exists g, take_all ipv4_matches safelist inputs (KnowledgeGraph_new start) = Some (g, tt) /\
    Forall (fun i => is_shell_report i = false) (kg_trigger_incidents g).
Proof.
  intros Hn Hfd. destruct (keeps_take_all ipv4_matches safelist true inputs Hn ltac:(done) _ (new_inv true start)) as (g & [] & E & Hg).
  exists g. split; [done|]. by apply Hg.
Qed.
(** ** Failed logins *)

Lemma ensure_ip_others g addr ts k : kg_ok g -> k <> KIp addr -> kg_index (ensure_ip g addr ts).1 !! k = kg_index g !! k.
Proof.
  intros Hok Hk. unfold ensure_ip. destruct (find_by_ip g addr); [done|]. unfold add_node. destruct (find_existing _ _); [done|].
  cbn. by rewrite lookup_insert_ne.
Qed.

(** A failed login makes no user and no edge, whatever name was tried. *)
Theorem failed_login_makes_no_user (g : KnowledgeGraph) (event : Event) : kg_ok g -> ev_kind event = "ssh.login_failed" ->
  exists g', ingest event g = Some (g', tt) /\ (forall name, find_by_user g' name = find_by_user g name) /\ kg_edges g' = kg_edges g.
Proof.
  intros Hok Hk. unfold ingest, handler. rewrite Hk. cbn [String.eqb Ascii.eqb Bool.eqb]. unfold ingest_ssh_login.
  set (ip := default "" (detail_str event "ip")). set (user := default "" (detail_str event "user")).
  set (g0 := set_meta g (event_meta event)). destruct (String.eqb ip "" || String.eqb user ""); [by eexists|].
  assert (kg_ok g0) as Hok0 by (destruct Hok as [[H1 H2 H3] Ha Hl Hm]; split; [split|..]; done).
  unfold gbind, gip. cbn [negb]. pose proof (fun k => ensure_ip_others g0 ip (ev_ts event) k Hok0) as Hx.
  assert (kg_edges (ensure_ip g0 ip (ev_ts event)).1 = kg_edges g) as He.
  { unfold ensure_ip. destruct (find_by_ip g0 ip); [done|]. exact (proj1 (add_node_same _ _)). }
  destruct (ensure_ip g0 ip (ev_ts event)) as [g1 id]. cbn [fst] in *. unfold record_attempted_username.
  destruct (String.eqb user ""); eexists; (split; [done|]); (split; [|done]); intros name; unfold find_by_user; cbn;
    rewrite Hx by done; done.
Qed.

(** ** Snapshots *)

Lemma gedge_one g e b ev : inv b ev g -> edge_ok b e ->
  exists g', gedge e g = Some (g', tt) /\ inv b ev g' /\ length (kg_edges g') = S (length (kg_edges g)).
Proof.
  intros Hg He. destruct (keeps_edge b ev e He g Hg) as (g' & [] & E & Hg'). exists g'. split_and!; [done|done|].
  destruct Hg as [Hok Hl _ _ _]. destruct (add_edge_total g e Hok Hl) as (g1 & E1 & [x Hx]). unfold gedge in E. rewrite E1 in E.
  injection E as <-. rewrite Hx. cbn. rewrite length_app. cbn. lia.
Qed.

(** A program that adds one edge when it says so. *)
Definition counts (b : bool) (ev : EventMeta) (m : G bool) : Prop :=
  forall g, inv b ev g -> exists g' c, m g = Some (g', c) /\ inv b ev g' /\
    length (kg_edges g') = (length (kg_edges g) + if c then 1 else 0)%nat.

Lemma process_edges g pid ppid comm uid ts : kg_edges (ensure_process g pid ppid comm uid ts).1 = kg_edges g.
Proof. unfold ensure_process. destruct (find_by_pid g pid); [done|]. exact (proj1 (add_node_same _ _)). Qed.

Lemma ip_edges g addr ts : kg_edges (ensure_ip g addr ts).1 = kg_edges g.
Proof. unfold ensure_ip. destruct (find_by_ip g addr); [done|]. exact (proj1 (add_node_same _ _)). Qed.

Lemma port_edges g number protocol : kg_edges (ensure_port g number protocol).1 = kg_edges g.
Proof. unfold ensure_port. destruct (find_by_port g number protocol); [done|]. exact (proj1 (add_node_same _ _)). Qed.

Lemma connection_counts b ev event conn : counts b ev (snapshot_connection event conn).
Proof.
  intros g Hg. unfold snapshot_connection. destruct (wrap 32 <$> _) as [pid|]; [|by exists g, false; rewrite Nat.add_0_r].
  destruct (get_str conn "dst_ip") as [dst|]; [|by exists g, false; rewrite Nat.add_0_r].
  unfold gbind at 1. destruct (keeps_process b ev pid 0 "" 0 (ev_ts event) g Hg) as (g1 & p & E1 & H1). rewrite E1.
  pose proof (process_edges g pid 0 "" 0 (ev_ts event)) as L1. injection E1 as E1. rewrite E1 in L1. cbn [fst] in L1.
  unfold gbind at 1. destruct (keeps_ip b ev dst (ev_ts event) g1 H1) as (g2 & i & E2 & H2). rewrite E2.
  pose proof (ip_edges g1 dst (ev_ts event)) as L2. injection E2 as E2. rewrite E2 in L2. cbn [fst] in L2. cbv zeta.
  match goal with |- context [gedge ?e] => destruct (gedge_one g2 e b ev H2) as (g3 & E3 & H3 & L3); [by kept_edge|] end.
  unfold gbind. rewrite E3. exists g3, true. split_and!; [done|done|]. rewrite L3, L2, L1. lia.
Qed.

Lemma port_counts b ev event entry : counts b ev (snapshot_port event entry).
Proof.
  intros g Hg. unfold snapshot_port. destruct (wrap 32 <$> _) as [pid|]; [|by exists g, false; rewrite Nat.add_0_r].
  destruct (wrap 16 <$> _) as [port|]; [|by exists g, false; rewrite Nat.add_0_r].
  unfold gbind at 1. destruct (keeps_process b ev pid 0 "" 0 (ev_ts event) g Hg) as (g1 & p & E1 & H1). rewrite E1.
  pose proof (process_edges g pid 0 "" 0 (ev_ts event)) as L1. injection E1 as E1. rewrite E1 in L1. cbn [fst] in L1.
  unfold gbind at 1. destruct (keeps_port b ev port (default "tcp" (get_str entry "proto")) g1 H1) as (g2 & i & E2 & H2). rewrite E2.
  pose proof (port_edges g1 port (default "tcp" (get_str entry "proto"))) as L2. injection E2 as E2. rewrite E2 in L2. cbn [fst] in L2.
  destruct (gedge_one g2 (Edge_new p i SnapshotListensOn (ev_ts event)) b ev H2 (edge_new_ok b _ _ _ _)) as (g3 & E3 & H3 & L3).
  unfold gbind. rewrite E3. exists g3, true. split_and!; [done|done|]. rewrite L3, L2, L1. lia.
Qed.

Lemma items_counted b ev f items : (forall x, counts b ev (f x)) -> forall count g, inv b ev g -> (count <= MAX_SNAPSHOT_EDGES)%nat ->
  exists g' count', snapshot_items f items count g = Some (g', count') /\ inv b ev g' /\ (count' <= MAX_SNAPSHOT_EDGES)%nat /\
    (length (kg_edges g') + count = length (kg_edges g) + count')%nat.
Proof.
  intros Hf. induction items as [|x items IH]; intros count g Hg Hc; cbn [snapshot_items]; [by exists g, count|].
  destruct (Nat.leb_spec MAX_SNAPSHOT_EDGES count); [by exists g, count|]. unfold gbind.
  destruct (Hf x g Hg) as (g1 & c & -> & H1 & L1). destruct (IH (if c then S count else count) g1 H1) as (g2 & n & -> & H2 & Hn & L2).
  { destruct c; lia. }
  exists g2, n. split_and!; [done|done|done|]. destruct c; lia.
Qed.

(** However long a snapshot of the connections is, it adds two hundred edges at
    most, over both of its lists. *)
Theorem snapshot_capped (g : KnowledgeGraph) (event : Event) : kg_ok g -> labelled g -> Forall flow_ok (kg_edges g) ->
  exists g', ingest_network_snapshot event g = Some (g', tt) /\ (length (kg_edges g') <= length (kg_edges g) + 200)%nat.
Proof.
  intros Hok Hl Hf. assert (inv false (kg_event g) g) as Hg.
  { split; try done. eapply Forall_impl; [done|]. by intros e He. }
  unfold ingest_network_snapshot, gbind.
  destruct (items_counted false (kg_event g) (snapshot_connection event) (default [] (get_array (ev_details event) "connections"))
    (connection_counts _ _ event) 0 g Hg ltac:(unfold MAX_SNAPSHOT_EDGES; lia)) as (g1 & n & -> & H1 & Hn & L1).
  destruct (items_counted false (kg_event g) (snapshot_port event) (default [] (get_array (ev_details event) "listening_ports"))
    (port_counts _ _ event) n g1 H1 Hn) as (g2 & n2 & -> & H2 & Hn2 & L2).
  exists g2. split; [done|]. unfold MAX_SNAPSHOT_EDGES in *. lia.
Qed.

(** ** Flows *)

Section flow.
Context (src dst : string) (port s d : Z).

(** An event of the flow from [src] to [dst] at [port]. *)
Definition stream_event (event : Event) : Prop :=
  mem_str (ev_kind event) ["tcp_stream.flow"; "tcp_stream.http"; "tcp_stream.ssh"; "tcp_stream.smb"] = true /\
  detail_str event "src_ip" = Some src /\ detail_str event "dst_ip" = Some dst /\ default 0 (detail_u16 event "dst_port") = port.

Definition bytes_of (event : Event) : Z := default 0 (detail_u64 event "client_bytes") + default 0 (detail_u64 event "server_bytes").

(** The last edge is that of the flow, with these counts. *)
Record tracked (base : list Edge) (g : KnowledgeGraph) (e : Edge) (n total : Z) : Prop := {
  tk_src : kg_index g !! KIp src = Some s;
  tk_dst : kg_index g !! KIp dst = Some d;
  tk_edges : kg_edges g = base ++ [e];
  tk_find : find_flow g s d port = Some (length base);
  tk_ends : ed_from e = s /\ ed_to e = d;
  tk_count : ed_properties e !! "flow_count" = Some (JInt (wrap 64 n));
  tk_total : ed_properties e !! "total_bytes" = Some (JInt (wrap 64 total));
}.

Lemma as_u64_wrap z : as_u64 (JInt (wrap 64 z)) = Some (wrap 64 z).
Proof.
  cbn. destruct (wrap_range 64 z ltac:(lia)) as [H1 H2]. rewrite (proj2 (Z.leb_le _ _) H1), (proj2 (Z.ltb_lt _ _) H2). done.
Qed.

Lemma add64_wrap a b : wrapping_add 64 (wrap 64 a) b = wrap 64 (a + b).
Proof. unfold wrapping_add, wrap. by rewrite Zplus_mod_idemp_l. Qed.

Lemma stream_handler event : stream_event event -> handler event = ingest_tcp_stream event.
Proof.
  intros (Hk & _). unfold handler. cbv zeta. apply mem_str_true in Hk. rewrite !elem_of_cons, elem_of_nil in Hk.
  destruct Hk as [->|[->|[->|[->|[]]]]]; reflexivity.
Qed.

(** An address that is known keeps its node, and only nodes are touched. *)
Lemma ensure_known g addr ts id : kg_index g !! KIp addr = Some id ->
  exists g', ensure_ip g addr ts = (g', id) /\ kg_index g' = kg_index g /\ kg_edges g' = kg_edges g /\ kg_outgoing g' = kg_outgoing g /\
    kg_event g' = kg_event g /\ (kg_ok g /\ labelled g -> kg_ok g' /\ labelled g').
Proof.
  intros E. pose proof (fun Hok => proj1 (proj2 (ensure_ok g Hok)) addr ts) as Hk. revert Hk. unfold ensure_ip, find_by_ip. rewrite E. intros Hk.
  eexists. split_and!; [done..|]. intros [Hok Hl]. split; [by apply Hk|]. apply update_labelled; [|done]. by intros [].
Qed.

Lemma find_ext {A} (f f' : A -> bool) l : (forall x, x ∈ l -> f x = f' x) -> List.find f l = List.find f' l.
Proof.
  induction l as [|x l IH]; intros Hf; [done|]. cbn. rewrite Hf by left. destruct (f' x); [done|]. apply IH. intros y Hy. apply Hf. by right.
Qed.

Hypothesis Hloop : String.eqb src "127.0.0.1" && String.eqb dst "127.0.0.1" = false.

(** What one event of the flow does, up to the edge. *)
Lemma ingest_stream event g : stream_event event -> kg_index g !! KIp src = Some s -> kg_index g !! KIp dst = Some d ->
  exists g1, kg_index g1 = kg_index g /\ kg_edges g1 = kg_edges g /\ kg_outgoing g1 = kg_outgoing g /\ kg_event g1 = event_meta event /\
    (kg_ok g /\ labelled g -> kg_ok g1 /\ labelled g1) /\
    ingest event g = (fun r => (set_meta r.1 no_event, tt)) <$>
      record_flow s d port (default 0 (detail_u64 event "client_bytes")) (default 0 (detail_u64 event "server_bytes")) (ev_ts event)
        (default "" (detail_str event "app_proto")) g1.
Proof.
  intros He Hs Hd. unfold ingest. rewrite (stream_handler event He). destruct He as (_ & E1 & E2 & E3). unfold ingest_tcp_stream.
  rewrite E1, E2. cbn [when_some]. rewrite Hloop. cbv zeta. rewrite E3. unfold gbind at 1, gip at 1. set (g0 := set_meta g (event_meta event)).
  destruct (ensure_known g0 src (ev_ts event) s Hs) as (g1 & F1 & I1 & Ed1 & O1 & M1 & K1). rewrite F1.
  assert (kg_index g1 !! KIp dst = Some d) as Hd1 by (by rewrite I1).
  unfold gbind at 1, gip at 1. destruct (ensure_known g1 dst (ev_ts event) d Hd1) as (g2 & F2 & I2 & Ed2 & O2 & M2 & K2). rewrite F2.
  exists g2. rewrite I2, I1, Ed2, Ed1, O2, O1, M2, M1. split_and!; try done.
  - intros [Hok Hl]. apply K2, K1. split; [|done]. destruct Hok as [[H1 H2 H3] Ha Hla Hm]; split; [split|..]; done.
  - by destruct (record_flow _ _ _ _ _ _ _ g2) as [[g3 []]|].
Qed.

Lemma enrich_other m key e : (key ∉ ["event_source"; "event_kind"; "summary"; "severity"]) -> ed_properties (enrich m e) !! key = ed_properties e !! key.
Proof.
  rewrite !not_elem_of_cons. intros (H1 & H2 & H3 & H4 & _).
  unfold enrich. destruct (current_summary m) as [t|]; [destruct (String.eqb t "")|]; by rewrite !add_prop_other by done.
Qed.

Lemma flow_starts base event g : stream_event event -> kg_ok g -> labelled g -> kg_index g !! KIp src = Some s -> kg_index g !! KIp dst = Some d ->
  find_flow g s d port = None -> kg_edges g = base ->
  exists g' e, ingest event g = Some (g', tt) /\ tracked base g' e 1 (bytes_of event).
Proof.
  intros He Hok Hl Hs Hd Hno <-. destruct (ingest_stream event g He Hs Hd) as (g1 & I1 & E1 & O1 & M1 & K1 & ->).
  destruct (K1 (conj Hok Hl)) as [Hok1 Hl1]. unfold record_flow. assert (find_flow g1 s d port = None) as -> by (unfold find_flow in *; by rewrite E1, O1).
  unfold gedge. set (e0 := new_flow _ _ _ _ _ _ _). destruct (add_edge_total g1 e0 Hok1 Hl1) as (g2 & -> & [x ->]). cbn [mbind option_bind fmap option_fmap option_map].
  eexists _, (enrich (kg_event g1) e0). split; [done|].
  destruct (enrich_ends (kg_event g1) e0) as (F1 & F2 & F3 & F4).
  assert (ed_from e0 = s /\ ed_to e0 = d /\ ed_relation e0 = ConnectedTo /\ ed_properties e0 !! "dst_port" = Some (JInt port) /\
    ed_properties e0 !! "flow_count" = Some (JInt 1) /\
    ed_properties e0 !! "total_bytes" = Some (JInt (wrap 64 (bytes_of event)))) as (G1 & G2 & G3 & G4 & G5 & G6).
  { unfold e0, new_flow. destruct (non_empty _); cbn; split_and!; try done; repeat first [rewrite lookup_insert_eq|rewrite lookup_insert_ne by done]; done. }
  split; cbn -[enrich].
  - by rewrite I1.
  - by rewrite I1.
  - by rewrite E1.
  - unfold find_flow. cbn -[enrich adj]. rewrite adj_push, F1, G1, bool_decide_true, E1, O1 by done. unfold find_flow in Hno.
    assert (forall l, (forall i, i ∈ l -> (i < length (kg_edges g))%nat) ->
      List.find (fun i => match kg_edges g !! i with Some e => is_flow d port e | None => false end) l = None ->
      List.find (fun i => match (kg_edges g ++ [enrich (kg_event g1) e0]) !! i with Some e => is_flow d port e | None => false end)
        (l ++ [length (kg_edges g)]) = Some (length (kg_edges g))) as Hgo.
    { induction l as [|i l IH]; intros Hlt Hf; cbn [List.find app].
      - rewrite lookup_app_r, Nat.sub_diag by lia. cbn -[enrich]. unfold is_flow.
        rewrite F2, F4, G2, G3, Z.eqb_refl, bool_decide_true, enrich_other, G4 by (done || set_solver). by rewrite Z.eqb_refl.
      - cbn in Hf. rewrite lookup_app_l by (apply Hlt; left). destruct (match kg_edges g !! i with Some _ => _ | None => _ end); [done|].
        apply IH; [|done]. intros j Hj. apply Hlt. by right. }
    apply Hgo; [|done]. intros i Hi. destruct (ao_out _ _ _ _ (ok_adj _ Hok) s i Hi) as (e & He' & _). by eapply lookup_lt_Some.
  - by rewrite F1, F2.
  - rewrite enrich_other by set_solver. done.
  - rewrite enrich_other by set_solver. done.
Qed.

Lemma flow_goes_on base event g e n total : stream_event event -> tracked base g e n total ->
  exists g' e', ingest event g = Some (g', tt) /\ tracked base g' e' (n + 1) (total + bytes_of event).
Proof.
  intros He [Hs Hd Hes Hf [Ef Et] Hc Ht]. destruct (ingest_stream event g He Hs Hd) as (g1 & I1 & E1 & O1 & M1 & _ & ->).
  unfold record_flow. assert (find_flow g1 s d port = Some (length base)) as -> by (unfold find_flow in *; by rewrite E1, O1).
  assert (kg_edges g1 !! length base = Some e) as Hat by (rewrite E1, Hes, lookup_app_r, Nat.sub_diag by lia; done).
  rewrite Hat. cbn [mbind option_bind fmap option_fmap option_map]. set (e' := count_flow _ _ _ e). eexists _, e'. split; [done|].
  assert (<[length base := e']> (kg_edges g1) = base ++ [e']) as Hes' by (rewrite E1, Hes, insert_app_r_alt, Nat.sub_diag by lia; done).
  split; cbn.
  - by rewrite I1.
  - by rewrite I1.
  - done.
  - unfold find_flow in *. cbn. rewrite O1. rewrite <- Hf. apply find_ext. intros i _. rewrite Hes', Hes.
    destruct (decide (i < length base)%nat) as [Hlt|Hge]; [by rewrite !lookup_app_l by done|]. rewrite !lookup_app_r by lia.
    destruct (i - length base)%nat; [|done]. cbn. unfold is_flow. cbn. by rewrite !lookup_insert_ne by done.
  - done.
  - rewrite lookup_insert_ne, lookup_insert_eq, Hc by done. cbn [mbind option_bind]. rewrite as_u64_wrap. cbn [default from_option Datatypes.id].
    by rewrite add64_wrap.
  - rewrite lookup_insert_eq, lookup_insert_ne, Ht by done. cbn [mbind option_bind]. rewrite as_u64_wrap. cbn [default from_option Datatypes.id].
    rewrite !add64_wrap. unfold bytes_of. by rewrite Z.add_assoc.
Qed.

Lemma flow_goes_on_all base events : forall g e n total, Forall stream_event events -> tracked base g e n total ->
  exists g' e', take_all ipv4_matches safelist (InEvent <$> events) g = Some (g', tt) /\
    tracked base g' e' (n + Z.of_nat (length events)) (total + sumZ (bytes_of <$> events)).
Proof.
  induction events as [|event events IH]; intros g e n total Hev Ht; cbn [fmap list_fmap take_all].
  { exists g, e. split; [done|]. change (sumZ []) with 0. cbn [length]. by rewrite !Z.add_0_r. }
  apply Forall_cons in Hev as [H1 H2]. destruct (flow_goes_on base event g e n total H1 Ht) as (g1 & e1 & E1 & T1). unfold gbind. cbn [take_in].
  rewrite E1. destruct (IH g1 e1 _ _ H2 T1) as (g2 & e2 & E2 & T2). exists g2, e2. split; [done|].
  replace (n + Z.of_nat (length (event :: events))) with (n + 1 + Z.of_nat (length events)) by (cbn [length]; lia).
  change (sumZ (bytes_of event :: (bytes_of <$> events))) with (bytes_of event + sumZ (bytes_of <$> events)). by rewrite Z.add_assoc.
Qed.

(** All connections of a flow between two known addresses are one edge, however
    many they are: it carries their number and the sum of their bytes. *)
Theorem flow_counted (g : KnowledgeGraph) (events : list Event) : kg_ok g -> labelled g ->
  find_by_ip g src = Some s -> find_by_ip g dst = Some d -> find_flow g s d port = None -> events <> [] -> Forall stream_event events ->
  exists g' e, take_all ipv4_matches safelist (InEvent <$> events) g = Some (g', tt) /\ kg_edges g' = kg_edges g ++ [e] /\
    ed_from e = s /\ ed_to e = d /\ ed_properties e !! "flow_count" = Some (JInt (wrap 64 (Z.of_nat (length events)))) /\
    ed_properties e !! "total_bytes" = Some (JInt (wrap 64 (sumZ (bytes_of <$> events)))).
Proof.
  intros Hok Hl Hs Hd Hno Hne Hev. destruct events as [|event events]; [done|]. apply Forall_cons in Hev as [H1 H2].
  destruct (flow_starts (kg_edges g) event g H1 Hok Hl Hs Hd Hno eq_refl) as (g1 & e1 & E1 & T1).
  destruct (flow_goes_on_all _ events g1 e1 _ _ H2 T1) as (g2 & e2 & E2 & [_ _ T3 _ [T5 T6] T7 T8]). exists g2, e2.
  cbn [fmap list_fmap take_all]. unfold gbind. cbn [take_in]. rewrite E1. split_and!; try done.
  - rewrite T7. do 3 f_equal. cbn [length]. lia.
Qed.
End flow.
End claims.

(** ** A host with a shell *)

#[local] Instance demo_ingest_lower : Lowercase := {| to_lowercase := to_ascii_lowercase |}.
#[local] Instance demo_ingest_order : HashOrder := {| hash_iter := map_to_list; hash_iter_perm m := reflexivity _ |}.

Definition demo_event (ts : Z) (kind : string) (details : list (string * Json)) : Event :=
  {| ev_ts := seconds ts; ev_host := "web1"; ev_source := "ebpf"; ev_kind := kind; ev_severity := Info; ev_summary := "";
     ev_details := JObj details; ev_tags := []; ev_entities := [] |}.

(** A shell connects out and makes the socket its input, its output and its
    errors, with the keys the sensor writes and with those the graph reads. *)
Definition shell_events (old_key new_key : string) (old_fd : Z) : list Input :=
  InEvent <$> ([demo_event 10 "network.outbound_connect" [("pid", JInt 4242); ("comm", JStr "bash"); ("dst_ip", JStr "203.0.113.9"); ("dst_port", JInt 4444)]] ++
    ((fun fd => demo_event 11 "process.fd_redirect" [("pid", JInt 4242); (old_key, JInt old_fd); (new_key, JInt fd)]) <$> [0; 1; 2])).

Definition demo_taken (inputs : list Input) : option (list string) :=
  (fun r : KnowledgeGraph * unit => in_incident_id <$> kg_trigger_incidents r.1) <$>
    take_all (fun _ => []) uninitialised inputs (KnowledgeGraph_new 0).

(** A socket made the standard input is not reported even under the graph's own
    key, since the trigger asks for the number of the old descriptor and not of
    the new one; the reverse of it is. *)
Example only_reversed_redirect_reported :
  demo_taken (shell_events "oldfd" "newfd" 3) = Some [] /\
  demo_taken (shell_events "old_fd" "new_fd" 3) = Some [] /\
  demo_taken (shell_events "old_fd" "new_fd" 0) = Some ["trigger_reverse_shell:1:11"].
Proof. vm_compute. repeat split. Qed.

Lemma inputs_keep_graph_witness :
  exists g, take_all (fun _ => []) uninitialised (shell_events "old_fd" "new_fd" 0) (KnowledgeGraph_new 0) = Some (g, tt) /\ kg_ok g /\ kg_event g = no_event.
Proof. apply (inputs_keep_graph (fun _ => []) uninitialised). repeat constructor; intros cid; discriminate. Defined.

(** A container with a name and this id, started on an empty graph. *)
Definition demo_container (id : string) : option Node :=
  r ← take_all (fun _ => []) uninitialised [InEvent (demo_event 5 "container.start" [("container_id", JStr id); ("name", JStr "web")])]
        (KnowledgeGraph_new 0);
  kg_nodes r.1 !! 1.

(** Byte twelve of the first id is inside a character: whoever asks for the label
    of the node panics, although the container has a name. *)
Example uncuttable_label_panics :
  label <$> demo_container "01234567890é" = Some None /\ label <$> demo_container "0123456789é" = Some (Some "web").
Proof. vm_compute. split; reflexivity. Qed.

Lemma sensor_shells_unseen_witness :
  exists g, take_all (fun _ => []) uninitialised (shell_events "oldfd" "newfd" 3) (KnowledgeGraph_new 0) = Some (g, tt) /\
    Forall (fun i => is_shell_report i = false) (kg_trigger_incidents g).
Proof.
  apply (sensor_shells_unseen (fun _ => []) uninitialised); [repeat constructor; intros cid; discriminate|repeat constructor].
Defined.

Definition demo_login : Event := demo_event 5 "ssh.login_failed" [("ip", JStr "203.0.113.9"); ("user", JStr "admin")].

Lemma failed_login_makes_no_user_witness :
  exists g', ingest demo_login (KnowledgeGraph_new 0) = Some (g', tt) /\ find_by_user g' "admin" = None /\ kg_edges g' = [].
Proof.
  destruct (failed_login_makes_no_user (KnowledgeGraph_new 0) demo_login (KnowledgeGraph_new_ok 0) eq_refl) as (g' & E & Hu & He).
  exists g'. split; [exact E|]. split; [rewrite Hu; reflexivity|exact He].
Defined.

Lemma snapshot_capped_witness :
  exists g', ingest_network_snapshot (demo_event 5 "network.snapshot" [("connections", JArr (replicate 300 (JObj [("pid", JInt 7); ("dst_ip", JStr "203.0.113.9")])))])
    (KnowledgeGraph_new 0) = Some (g', tt) /\ (length (kg_edges g') <= 200)%nat.
Proof.
  apply (snapshot_capped (KnowledgeGraph_new 0)); [exact (KnowledgeGraph_new_ok 0)|exact (new_labelled 0)|constructor].
Defined.

Definition demo_flow (ts : Z) (src dst : string) (bytes : Z) : Event :=
  demo_event ts "tcp_stream.flow" [("src_ip", JStr src); ("dst_ip", JStr dst); ("dst_port", JInt 443); ("client_bytes", JInt bytes)].

(** Two addresses with nothing between them. *)
Definition demo_two_ips : KnowledgeGraph := (ensure_ip (ensure_ip (KnowledgeGraph_new 0) "10.0.0.2" 0).1 "203.0.113.9" 0).1.

Lemma demo_two_ips_ok : kg_ok demo_two_ips /\ labelled demo_two_ips.
Proof.
  destruct (graph_ops_ok [OpIp "10.0.0.2" 0; OpIp "203.0.113.9" 0] ltac:(repeat constructor) _ (KnowledgeGraph_new_ok 0) (new_labelled 0)) as (g & E & H).
  injection E as <-. exact H.
Qed.

Lemma flow_counted_witness :
  exists g' e, take_all (fun _ => []) uninitialised (InEvent <$> [demo_flow 1 "10.0.0.2" "203.0.113.9" 100; demo_flow 2 "10.0.0.2" "203.0.113.9" 20])
    demo_two_ips = Some (g', tt) /\ kg_edges g' = [e] /\ ed_properties e !! "flow_count" = Some (JInt 2) /\
    ed_properties e !! "total_bytes" = Some (JInt 120).
Proof.
  destruct (flow_counted (fun _ => []) uninitialised "10.0.0.2" "203.0.113.9" 443 1 2 eq_refl demo_two_ips
    [demo_flow 1 "10.0.0.2" "203.0.113.9" 100; demo_flow 2 "10.0.0.2" "203.0.113.9" 20] (proj1 demo_two_ips_ok) (proj2 demo_two_ips_ok))
    as (g' & e & E & Hes & _ & _ & Hc & Ht); try reflexivity; try discriminate.
  { repeat constructor. }
  exists g', e. split; [exact E|]. split; [exact Hes|]. split; [exact Hc|exact Ht].
Defined.

(** A flow from 10.0.0.2 that was in use a minute ago, and one from 10.0.0.3 of
    fifty minutes ago: the nodes of the first are the first to be evicted, since
    the time of a flow in use moves without the activity of its ends. *)
Example busy_flow_evicted_first :
  (fun r : KnowledgeGraph * unit => (candidates r.1, ed_ts <$> kg_edges r.1)) <$>
    take_all (fun _ => []) uninitialised
      (InEvent <$> [demo_flow 0 "10.0.0.2" "203.0.113.9" 1; demo_flow 600 "10.0.0.3" "203.0.113.8" 1; demo_flow 3540 "10.0.0.2" "203.0.113.9" 1])
      (KnowledgeGraph_new 0) =
  Some ([2; 1; 3; 4], [seconds 3540; seconds 600]).
Proof. vm_compute. reflexivity. Qed.
