(* ===== verification/AgentGraphHistory.v ===== *)
(** * AgentGraphHistory: what an address's past says of its next incident
    (crates/agent/src/kg_decide_features.rs, kg_fp_suppression.rs, with
    apply_kg_decide_modifier of incident_decision_eval.rs and
    try_kg_fp_suppression of process/incidents.rs)

    The graph of AgentGraph.v remembers the incidents of an address and what
    became of them.  Two gates use it: one moves the confidence of a decision, the
    other dismisses an incident on intake.  Each can be off, only write what it
    would do into a log (shadow), or act.  The log files and the profiles of
    attackers are effects and arguments; a poisoned lock of the graph is [None].

    Proved here: neither gate works against a critical incident, an incident is
    dismissed exactly under the stated conditions, and every incident counts
    itself, since it is in the graph before it is judged: the strongest of the
    benign bands is out of reach. *)

From Stdlib Require Import ZArith Lia Ascii String SpecFloat.
From stdpp Require Import prelude strings gmap list sorting.
From S2P Require Import Prelude Text Json Floats Net CoreTypes CoreAudit StoreDecisions AgentCooldown AgentGate AgentSafelist AgentSafeguards AgentContextGate.
From S2P Require Import AgentDecisions AgentGraph AgentGraphTriggers AgentGraphIngest.

Local Open Scope string_scope.
Local Open Scope list_scope.
Local Open Scope Z_scope.

(** ** Features *)

Inductive GateMode := MOff | MShadow | MEnforce.

Definition parse_mode (s : string) : GateMode :=
  let s := to_ascii_lowercase (trim s) in
  if String.eqb s "enforce" then MEnforce else if String.eqb s "shadow" then MShadow else MOff.

Record KgDecideFeatures := {
  prior_incidents_24h : Z;
  benign_history_score : spec_float;
  related_campaigns : Z;
  cluster_size : Z;
  risk_score : Z;
  first_seen_age_days : Z;
}.

(** A [u32] counter of the elements that satisfy [p]. *)
Definition count32 {A} (p : A -> bool) (l : list A) : Z := foldl (fun n x => if p x then saturating_add 32 n 1 else n) 0 l.

Definition num_days (d : Z) : Z := Z.quot (num_seconds d) 86400.
Definition age_days (now since : Z) : Z := wrap 32 (Z.max 0 (num_days (now - since))).

(** The incidents at the other end of the edges to [id]. *)
Definition incidents_of (kg : KnowledgeGraph) (id : Z) : list IncidentNode :=
  omap (fun e => if bool_decide (ed_relation e = TriggeredBy)
                 then match kg_nodes kg !! ed_from e with Some (NIncident i) => Some i | _ => None end else None) (incoming_edges kg id).

Definition eq_ignore_ascii_case (a b : string) : bool := String.eqb (to_ascii_lowercase a) (to_ascii_lowercase b).

Definition benign_class (i : IncidentNode) : bool :=
  let sev := to_ascii_lowercase (inn_severity i) in
  let dismissed := match inn_decision i with Some d => eq_ignore_ascii_case d "dismiss" | None => false end in
  inn_false_positive i || dismissed || String.eqb sev "low" || String.eqb sev "info".

Definition half : spec_float := f32_lit 5 10.

Definition extract_features_for_ip (kg : KnowledgeGraph) (ip : string) (now : Z) : option KgDecideFeatures :=
  ip_id ← find_by_ip kg ip;
  match kg_nodes kg !! ip_id with
  | Some (NIp n) =>
      let incidents := incidents_of kg ip_id in
      let recent i := now - days 7 <=? inn_ts i in
      let benign_count := count32 (fun i => recent i && benign_class i) incidents in
      let malicious_count := count32 (fun i => recent i && negb (benign_class i)) incidents in
      let total_7d := saturating_add 32 benign_count malicious_count in
      Some {| prior_incidents_24h := count32 (fun i => now - hours 24 <=? inn_ts i) incidents;
              benign_history_score := if total_7d =? 0 then half else f32_div (f32_of_Z benign_count) (f32_of_Z total_7d);
              related_campaigns := wrap 32 (Z.of_nat (length (retain (fun e => bool_decide (ed_relation e = MemberOf)) (outgoing_edges kg ip_id))));
              cluster_size := wrap 32 (Z.of_nat (size (list_to_set (C := gset Z) ((ed_to <$> outgoing_edges kg ip_id) ++ (ed_from <$> incoming_edges kg ip_id)))));
              risk_score := ipn_risk_score n;
              first_seen_age_days := age_days now (ipn_first_seen n) |}
  | _ => None
  end.

Definition extract_features (kg : KnowledgeGraph) (incident : Incident) (now : Z) : option KgDecideFeatures :=
  ip ← first_ip incident; extract_features_for_ip kg ip now.

(** The incidents of the day whose detector is not one of [excluded]. *)
Definition incidents_24h_excluding_detectors (kg : KnowledgeGraph) (ip : string) (excluded : list string) (now : Z) : Z :=
  match find_by_ip kg ip with
  | None => 0
  | Some ip_id => count32 (fun i => (now - hours 24 <=? inn_ts i) && negb (mem_str (first_piece ":" (inn_incident_id i)) excluded)) (incidents_of kg ip_id)
  end.

(** ** The modifier of the confidence *)

Definition BENIGN_STRONG : string := "long-tenure benign entity (history>=0.90, risk<20, age>=7d, no recent activity)".
Definition BENIGN_MODERATE : string := "moderately benign (history>=0.75, risk<40, age>=7d)".
Definition CAMPAIGN : string := "campaign-cluster member with low benign history".
Definition REPEAT_RISK : string := "high-reputation-risk repeat offender (risk>80, prior_24h>5)".
Definition NO_SIGNAL : string := "no actionable signal".

Definition compute_modifier (f : KgDecideFeatures) : spec_float * string :=
  if f_geb (benign_history_score f) (f32_lit 90 100) && (risk_score f <? 20) && (7 <=? first_seen_age_days f) && (prior_incidents_24h f =? 0)
  then (f32_lit (-30) 100, BENIGN_STRONG)
  else if f_geb (benign_history_score f) (f32_lit 75 100) && (risk_score f <? 40) && (7 <=? first_seen_age_days f)
  then (f32_lit (-10) 100, BENIGN_MODERATE)
  else if f_ltb (benign_history_score f) (f32_lit 30 100) && (0 <? related_campaigns f) then (f32_lit 20 100, CAMPAIGN)
  else if (80 <? risk_score f) && (5 <? prior_incidents_24h f) then (f32_lit 15 100, REPEAT_RISK)
  else (S754_zero false, NO_SIGNAL).

Definition apply_critical_floor (modifier : spec_float) (severity : Severity) : spec_float :=
  if bool_decide (severity = Critical) then f_max modifier (S754_zero false) else modifier.

Definition merge_persisted_profile (f : KgDecideFeatures) (profile_first_seen profile_risk_score now : Z) : KgDecideFeatures :=
  {| prior_incidents_24h := prior_incidents_24h f; benign_history_score := benign_history_score f; related_campaigns := related_campaigns f;
     cluster_size := cluster_size f; risk_score := Z.max (risk_score f) profile_risk_score;
     first_seen_age_days := Z.max (first_seen_age_days f) (age_days now profile_first_seen) |}.

Definition would_change_action (real_conf new_conf : spec_float) : bool :=
  negb (Bool.eqb (f_geb real_conf (f32_lit 85 100)) (f_geb new_conf (f32_lit 85 100))).

(** One line of the log of what would have been done. *)
Record DecideLog := {
  dl_incident_id : string; dl_real_action : AiAction; dl_real_confidence : spec_float; dl_modifier_raw : spec_float;
  dl_modifier_after_floor : spec_float; dl_new_confidence : spec_float; dl_would_change : bool; dl_features : KgDecideFeatures;
  dl_reason : string }.

Definition with_confidence (d : AiDecision) (confidence : spec_float) (reason : string) : AiDecision :=
  {| dc_action := dc_action d; dc_confidence := confidence; dc_auto_execute := dc_auto_execute d; dc_reason := reason;
     dc_alternatives := dc_alternatives d; dc_estimated_threat := dc_estimated_threat d |}.

(** [{:+.2}]. *)
Definition show_signed (f : spec_float) : string := if f_ltb f (S754_zero false) then show_fixed 2 f else "+" +:+ show_fixed 2 f.

Definition adjusted_reason (d : AiDecision) (f : KgDecideFeatures) (modifier : spec_float) : string :=
  dc_reason d +:+ " [kg: benign=" +:+ show_fixed 2 (benign_history_score f) +:+ ", risk=" +:+ show (risk_score f) +:+ ", age=" +:+
  show (first_seen_age_days f) +:+ "d, modifier=" +:+ show_signed modifier +:+ "]".

(** The profile of an attacker, as far as it is read: when it was first seen, and
    its risk. *)
Definition Profiles : Type := gmap string (Z * Z).

Definition features_with_profile (kg : KnowledgeGraph) (profiles : Profiles) (incident : Incident) (now : Z) : option KgDecideFeatures :=
  f ← extract_features kg incident now;
  Some match first_ip incident ≫= fun ip => profiles !! ip with
       | Some (first_seen, risk) => merge_persisted_profile f first_seen risk now
       | None => f
       end.

Definition apply_kg_decide_modifier (mode : string) (kg : option KnowledgeGraph) (profiles : Profiles) (incident : Incident) (now : Z)
    (d : AiDecision) : AiDecision * option DecideLog :=
  match parse_mode mode, kg with
  | MOff, _ | _, None => (d, None)
  | mode, Some kg =>
      match features_with_profile kg profiles incident now with
      | None => (d, None)
      | Some f =>
          let '(modifier_raw, reason) := compute_modifier f in
          let modifier := apply_critical_floor modifier_raw (in_severity incident) in
          let new_confidence := f_clamp (f32_add (dc_confidence d) modifier) (S754_zero false) (f32_of_Z 1) in
          match mode with
          | MEnforce => if f_gtb (f_abs modifier) f32_epsilon then (with_confidence d new_confidence (adjusted_reason d f modifier), None) else (d, None)
          | _ => (d, Some {| dl_incident_id := in_incident_id incident; dl_real_action := dc_action d; dl_real_confidence := dc_confidence d;
                   dl_modifier_raw := modifier_raw; dl_modifier_after_floor := modifier; dl_new_confidence := new_confidence;
                   dl_would_change := would_change_action (dc_confidence d) new_confidence; dl_features := f; dl_reason := reason |})
          end
      end
  end.

(** ** Suppression of false positives *)

Inductive FpAction := FpPassThrough | FpSuppress.

Definition fp_edge_bonus (fp_count : Z) : spec_float := f_min (f32_mul (f32_of_Z fp_count) (f32_lit 10 100)) (f32_lit 30 100).

Definition fp_likelihood (kg : KnowledgeGraph) (incident : Incident) (now : Z) : spec_float :=
  match extract_features kg incident now, first_ip incident with
  | Some f, Some ip =>
      match find_by_ip kg ip with
      | Some ip_id =>
          let bonus := fp_edge_bonus (count32 inn_false_positive (incidents_of kg ip_id)) in
          f_clamp (f32_add (f32_mul (benign_history_score f) (f32_lit 70 100)) bonus) (S754_zero false) (f32_of_Z 1)
      | None => benign_history_score f
      end
  | _, _ => S754_zero false
  end.

Definition classify (likelihood : spec_float) (severity : Severity) (suppress_threshold : spec_float) : FpAction :=
  if bool_decide (severity = Critical) then FpPassThrough
  else if f_geb likelihood suppress_threshold then FpSuppress else FpPassThrough.

Definition severity_label (s : Severity) : string :=
  match s with Critical => "critical" | High => "high" | Medium => "medium" | Low => "low" | Info => "info" | Debug => "low" end.

(** One line of the log of what would have been suppressed. *)
Record FpLog := {
  fl_incident_id : string; fl_real_severity : string; fl_likelihood : spec_float; fl_action : string; fl_would_change : bool;
  fl_features : KgDecideFeatures }.

Definition make_shadow_record (incident : Incident) (likelihood : spec_float) (action : FpAction) (features : KgDecideFeatures) : FpLog :=
  {| fl_incident_id := in_incident_id incident; fl_real_severity := severity_label (in_severity incident); fl_likelihood := likelihood;
     fl_action := match action with FpPassThrough => "passthrough" | FpSuppress => "suppress" end;
     fl_would_change := match action with FpSuppress => true | FpPassThrough => false end; fl_features := features |}.

Definition neutral_features : KgDecideFeatures :=
  {| prior_incidents_24h := 0; benign_history_score := half; related_campaigns := 0; cluster_size := 0; risk_score := 0;
     first_seen_age_days := 0 |}.

Definition fp_reason (likelihood threshold : spec_float) (f : KgDecideFeatures) : string :=
  "Auto-dismissed by Spec 043 Phase 7 (KG FP suppression): likelihood=" +:+ show_fixed 2 likelihood +:+ " (threshold " +:+ show_fixed 2 threshold +:+
  "). Entity has strongly benign KG history (benign_history=" +:+ show_fixed 2 (benign_history_score f) +:+ ", prior_24h=" +:+
  show (prior_incidents_24h f) +:+ ", age=" +:+ show (first_seen_age_days f) +:+ "d, risk=" +:+ show (risk_score f) +:+
  "). See kg_shadow_fp_suppression_*.jsonl for the per-evaluation audit trail.".

Definition fp_entry (now : Z) (incident : Incident) (likelihood : spec_float) (reason : string) : DecisionEntry :=
  {| de_ts := now; de_incident_id := in_incident_id incident; de_host := in_host incident; de_ai_provider := "kg-fp-suppression";
     de_action_type := "dismiss"; de_target_ip := first_ip incident; de_target_user := None; de_skill_id := None; de_confidence := likelihood;
     de_auto_executed := true; de_dry_run := false; de_reason := reason; de_estimated_threat := "none"; de_execution_result := "dismissed";
     de_prev_hash := None; de_decision_layer := Some "algorithm_gate" |}.

Section history.
Context `{Lowercase} `{Chrono} (sha256_hex : string -> string) (to_json : ChainedEntry -> string) (json_prev : string -> option string).

(** The trail, the writer, the graph, the line of the log, and whether the
    incident is done with; [None] when a panic stops the agent. *)
Definition try_kg_fp_suppression (mode : string) (threshold : spec_float) (t : Trail) (writer : option DecisionWriter) (io : AppendIo)
    (kg : KnowledgeGraph) (incident : Incident) (now : Z) : option (Trail * option DecisionWriter * KnowledgeGraph * option FpLog * bool) :=
  match parse_mode mode with
  | MOff => Some (t, writer, kg, None, false)
  | mode =>
      let likelihood := fp_likelihood kg incident now in
      let action := classify likelihood (in_severity incident) threshold in
      let features := default neutral_features (extract_features kg incident now) in
      match mode, action with
      | MEnforce, FpSuppress =>
          let reason := fp_reason likelihood threshold features in
          let '(t, writer, written) :=
            match writer with
            | Some w => let '(t, w, r) := DecisionWriter_write sha256_hex to_json json_prev t w io (fp_entry now incident likelihood reason) in
                        (t, Some w, match r with Ok _ => true | Err _ => false end)
            | None => (t, None, true)
            end in
          if written then
            r ← ingest_decision (in_incident_id incident) "dismiss" None likelihood reason true now kg; Some (t, writer, r.1, None, true)
          else Some (t, writer, kg, None, false)
      | MEnforce, FpPassThrough => Some (t, writer, kg, None, false)
      | _, _ => Some (t, writer, kg, Some (make_shadow_record incident likelihood action features), false)
      end
  end.
End history.

(** ** Critical incidents *)

Definition BENIGN_BANDS : list (spec_float * string) := [(f32_lit (-30) 100, BENIGN_STRONG); (f32_lit (-10) 100, BENIGN_MODERATE)].
Definition THREAT_BANDS : list (spec_float * string) := [(f32_lit 20 100, CAMPAIGN); (f32_lit 15 100, REPEAT_RISK)].

Lemma compute_modifier_bands f : compute_modifier f ∈ BENIGN_BANDS \/ compute_modifier f ∈ THREAT_BANDS \/
  compute_modifier f = (S754_zero false, NO_SIGNAL).
Proof.
  unfold compute_modifier. destruct (_ && _ && _ && _); [left; left|]. destruct (_ && _ && _); [left; right; left|].
  destruct (_ && _); [right; left; left|]. destruct (_ && _); [right; left; right; left|]. by right; right.
Qed.

(** However benign the past of its address, the confidence in a decision on a
    critical incident is never lowered by it: the decision stays as it is, or one
    of the two bands of a threat is added. *)
Theorem critical_not_talked_down (mode : string) (kg : option KnowledgeGraph) (profiles : Profiles) (incident : Incident) (now : Z)
    (d : AiDecision) : in_severity incident = Critical ->
  let d' := (apply_kg_decide_modifier mode kg profiles incident now d).1 in
  d' = d \/ exists modifier why reason, (modifier, why) ∈ THREAT_BANDS /\
    d' = with_confidence d (f_clamp (f32_add (dc_confidence d) modifier) (S754_zero false) (f32_of_Z 1)) reason.
Proof.
  intros Hc d'. unfold d', apply_kg_decide_modifier. destruct (parse_mode mode); [by left| |]; (destruct kg as [kg|]; [|by left]);
    (destruct (features_with_profile kg profiles incident now) as [f|]; [|by left]); pose proof (compute_modifier_bands f) as Hb;
    destruct (compute_modifier f) as [raw why]; cbn zeta; [by left|].
  unfold apply_critical_floor. rewrite bool_decide_true by done. destruct Hb as [Hb|[Hb|Hb]].
  - left. apply elem_of_cons in Hb as [[= -> ->]|Hb%list_elem_of_singleton]; [by vm_compute|]. injection Hb as -> ->. by vm_compute.
  - right. exists raw, why. assert (f_max raw (S754_zero false) = raw /\ f_gtb (f_abs raw) f32_epsilon = true) as [-> ->].
    { apply elem_of_cons in Hb as [[= -> ->]|Hb%list_elem_of_singleton]; [by vm_compute|]. injection Hb as -> ->. by vm_compute. }
    eexists. split; [done|reflexivity].
  - left. injection Hb as -> ->. by vm_compute.
Qed.

Section claims.
Context `{Lowercase} `{Chrono} (sha256_hex : string -> string) (to_json : ChainedEntry -> string) (json_prev : string -> option string).

(** An incident is dismissed on its address's past exactly when the gate is
    enforced, it is not critical, the likelihood reaches the threshold, and the
    dismissal is on the trail if there is one; an incident that is not dismissed leaves graph
    untouched. *)
Theorem suppressed_exactly (mode : string) (threshold : spec_float) (t : Trail) (writer : option DecisionWriter) (io : AppendIo)
    (kg : KnowledgeGraph) (incident : Incident) (now : Z) : inv false no_event kg ->
  exists t' writer' kg' log handled,
    try_kg_fp_suppression sha256_hex to_json json_prev mode threshold t writer io kg incident now = Some (t', writer', kg', log, handled) /\
    (handled = true <->
       parse_mode mode = MEnforce /\ in_severity incident <> Critical /\ f_geb (fp_likelihood kg incident now) threshold = true /\
       forall w, writer = Some w ->
         (DecisionWriter_write sha256_hex to_json json_prev t w io (fp_entry now incident (fp_likelihood kg incident now)
            (fp_reason (fp_likelihood kg incident now) threshold (default neutral_features (extract_features kg incident now))))).2 = Ok tt) /\
    (handled = false -> kg' = kg).
Proof.
  intros Hinv. unfold try_kg_fp_suppression. set (likelihood := fp_likelihood kg incident now).
  set (features := default neutral_features (extract_features kg incident now)). destruct (parse_mode mode).
  - exists t, writer, kg, None, false. by split_and!; [|split; [|intros (? & _)]|].
  - eexists t, writer, kg, _, false. by split_and!; [|split; [|intros (? & _)]|].
  - unfold classify. case_bool_decide as Hc; [|destruct (f_geb likelihood threshold) eqn:El].
    + exists t, writer, kg, None, false. by split_and!; [|split; [|intros (_ & ? & _)]|].
    + set (entry := fp_entry now incident likelihood (fp_reason likelihood threshold features)).
      destruct (keeps_decision false (in_incident_id incident) "dismiss" None likelihood (fp_reason likelihood threshold features) true now kg Hinv)
        as (g' & [] & E & _). rewrite E. cbn [mbind option_bind].
      destruct writer as [w|]; [destruct (DecisionWriter_write _ _ _ _ _ _ entry) as [[t1 w1] [[]|m]] eqn:Ew|].
      * eexists _, _, _, _, true. split; [done|]. split; [|done]. split; [|done]. intros _. split_and!; try done. intros w' [= <-]. by rewrite Ew.
      * eexists _, _, _, _, false. split; [done|]. split; [|done]. split; [done|]. intros (_ & _ & _ & Hw). specialize (Hw w eq_refl). by rewrite Ew in Hw.
      * eexists _, _, _, _, true. split; [done|]. split; [|done]. split; [|done]. by intros _.
    + exists t, writer, kg, None, false. by split_and!; [|split; [|intros (_ & _ & ? & _)]|].
Qed.
End claims.

(** ** An incident counts itself *)

(** Keys, edges and incidents that were there are still there. *)
Record grows (g g' : KnowledgeGraph) : Prop := {
  gr_index k id : kg_index g !! k = Some id -> kg_index g' !! k = Some id;
  gr_incoming v e : e ∈ incoming_edges g v -> e ∈ incoming_edges g' v;
  gr_incident id i : kg_nodes g !! id = Some (NIncident i) -> kg_nodes g' !! id = Some (NIncident i);
}.

#[local] Instance grows_refl : Reflexive grows.
Proof. by intros g. Qed.
#[local] Instance grows_trans : Transitive grows.
Proof. intros g1 g2 g3 [] []. split; eauto. Qed.

(** A program that only adds, besides keeping the graph well formed. *)
Definition adds {A} (m : G A) : Prop :=
  forall g, inv false no_event g -> exists g' a, m g = Some (g', a) /\ inv false no_event g' /\ grows g g'.

Lemma grows_add_node g n : kg_ok g -> grows g (add_node g n).1.
Proof.
  intros Hok. unfold add_node. destruct (find_existing g n) as [id|] eqn:Ef; [done|]. split; cbn; [|done|].
  - intros k id Hk. rewrite lookup_insert_ne; [done|]. intros <-. unfold find_existing in Ef. congruence.
  - intros id i Hi. rewrite lookup_insert_ne; [done|]. intros <-. pose proof (no_fresh _ (ok_nodes _ Hok) (kg_next_id g) ltac:(by eexists)). lia.
Qed.

Lemma grows_update g id f : (forall i, f (NIncident i) = NIncident i) -> grows g (update_node g id f).
Proof.
  intros Hf. split; cbn; [done|done|]. intros id' i Hi. destruct (decide (id' = id)) as [->|]; [|by rewrite lookup_alter_ne].
  rewrite lookup_alter_eq, Hi. cbn. by rewrite Hf.
Qed.

Section growth.
Context `{Lowercase}.

Lemma grows_edge g e : kg_ok g -> labelled g -> exists g', gedge e g = Some (g', tt) /\ grows g g' /\
  enrich (kg_event g) e ∈ incoming_edges g' (ed_to e).
Proof.
  intros Hok Hl. unfold gedge. destruct (add_edge_total g e Hok Hl) as (g' & -> & [x ->]). eexists. split; [done|].
  destruct (enrich_ends (kg_event g) e) as (F1 & F2 & _).
  assert (forall i e', kg_edges g !! i = Some e' -> (kg_edges g ++ [enrich (kg_event g) e]) !! i = Some e') as Hlk.
  { intros i e' Hi. rewrite lookup_app_l; [done|]. by eapply lookup_lt_Some. }
  split; [split; cbn -[enrich]; [done| |done]|].
  - intros v e'. unfold incoming_edges, edges_at. cbn -[enrich]. rewrite adj_push, F2. rewrite !list_elem_of_omap. intros (i & Hi & He).
    exists i. split; [|by apply Hlk]. case_bool_decide; [subst v; apply elem_of_app; by left|done].
  - unfold incoming_edges, edges_at. cbn -[enrich]. rewrite adj_push, F2, bool_decide_true by done. apply list_elem_of_omap.
    exists (length (kg_edges g)). split; [apply elem_of_app; right; by left|]. by rewrite lookup_app_r, Nat.sub_diag by lia.
Qed.

Lemma adds_ret {A} (a : A) : adds (gret a).
Proof. intros g Hg. by exists g, a. Qed.
Lemma adds_bind {A B} (m : G A) (k : A -> G B) : adds m -> (forall a, adds (k a)) -> adds (gbind m k).
Proof.
  intros Hm Hk g Hg. destruct (Hm g Hg) as (g1 & a & E & H1 & G1). destruct (Hk a g1 H1) as (g2 & x & E2 & H2 & G2).
  exists g2, x. unfold gbind. rewrite E. split_and!; [done|done|by etrans].
Qed.
Lemma adds_when {A} (o : option A) (k : A -> G unit) : (forall a, o = Some a -> adds (k a)) -> adds (when_some o k).
Proof. intros Hk. destruct o as [a|]; [by apply Hk|apply adds_ret]. Qed.

Lemma adds_lift {A} (f : KnowledgeGraph -> KnowledgeGraph * A) : keeps false no_event (fun g => Some (f g)) ->
  (forall g, kg_ok g -> grows g (f g).1) -> adds (fun g => Some (f g)).
Proof.
  intros Hk Hf g Hg. destruct (Hk g Hg) as (g' & a & [= E] & H1). exists g', a. rewrite E. split_and!; [done|done|].
  specialize (Hf g (iv_ok _ _ _ Hg)). by rewrite E in Hf.
Qed.

Lemma adds_ip addr ts : adds (gip addr ts).
Proof.
  apply adds_lift; [apply keeps_ip|]. intros g Hok. unfold ensure_ip. destruct (find_by_ip g addr); [by apply grows_update|by apply grows_add_node].
Qed.
Lemma adds_process pid ppid comm uid ts : adds (gprocess pid ppid comm uid ts).
Proof.
  apply adds_lift; [apply keeps_process|]. intros g Hok. unfold ensure_process.
  destruct (find_by_pid g pid); [by apply grows_update|by apply grows_add_node].
Qed.
Lemma adds_file path : adds (gfile path).
Proof. apply adds_lift; [apply keeps_file|]. intros g Hok. unfold ensure_file. destruct (find_by_path g path); [done|by apply grows_add_node]. Qed.
Lemma adds_user name : adds (guser name).
Proof. apply adds_lift; [apply keeps_user|]. intros g Hok. unfold ensure_user. destruct (find_by_user g name); [done|by apply grows_add_node]. Qed.
Lemma adds_container id : cuttable id -> adds (gcontainer id).
Proof.
  intros Hc. apply adds_lift; [by apply keeps_container|]. intros g Hok. unfold ensure_container.
  destruct (find_by_container g id); [done|by apply grows_add_node].
Qed.
Lemma adds_edge e : edge_ok false e -> adds (gedge e).
Proof.
  intros He g Hg. destruct (keeps_edge false no_event e He g Hg) as (g' & [] & E & H1). exists g', tt. split_and!; [done|done|].
  destruct (grows_edge g e (iv_ok _ _ _ Hg) (iv_labelled _ _ _ Hg)) as (g2 & E2 & G2 & _). rewrite E in E2. by injection E2 as <-.
Qed.

Lemma adds_entity ts e node : (e_type e = EContainer -> cuttable (e_value e)) -> entity_node ts e = Some node -> adds node.
Proof.
  intros Hc. unfold entity_node. destruct (e_type e); cbn; try (intros (x & _ & ->)%fmap_Some); try (intros [= <-]);
    auto using adds_ip, adds_user, adds_container, adds_file.
Qed.

Lemma adds_links inc_id ts entities : Forall (fun e => e_type e = EContainer -> cuttable (e_value e)) entities -> adds (link_entities inc_id ts entities).
Proof.
  induction 1 as [|e entities He _ IH]; cbn [link_entities]; [apply adds_ret|]. apply adds_bind; [|done]. apply adds_when. intros node Hn.
  apply adds_bind; [by eapply adds_entity|]. intros id. apply adds_edge, edge_new_ok.
Qed.

Lemma adds_evidence inc_id ts x : adds (link_evidence inc_id ts x).
Proof.
  unfold link_evidence. apply adds_when. intros pid _. destruct (pid =? 0); [apply adds_ret|]. cbv zeta.
  apply adds_bind; [apply adds_process|]. intros id. apply adds_edge, edge_new_ok.
Qed.

Lemma adds_evidences inc_id ts evs : adds (link_evidences inc_id ts evs).
Proof. induction evs as [|x evs IH]; cbn [link_evidences]; [apply adds_ret|]. apply adds_bind; [apply adds_evidence|done]. Qed.

Lemma gip_index g addr ts : kg_index (ensure_ip g addr ts).1 !! KIp addr = Some (ensure_ip g addr ts).2.
Proof.
  unfold ensure_ip, find_by_ip. destruct (kg_index g !! KIp addr) as [id|] eqn:E; [exact E|]. unfold add_node, find_existing. cbn [node_key ipn_addr].
  rewrite E. cbn. by rewrite lookup_insert_eq.
Qed.

(** The incident is linked to each address among its entities. *)
Lemma links_ip inc_id ts entities e ip : Forall (fun e => e_type e = EContainer -> cuttable (e_value e)) entities -> e ∈ entities ->
  e_type e = EIp -> sanitized_incident_ip (e_value e) = Some ip -> forall g, inv false no_event g ->
  exists g', link_entities inc_id ts entities g = Some (g', tt) /\ inv false no_event g' /\ grows g g' /\
    exists id edge, kg_index g' !! KIp ip = Some id /\ edge ∈ incoming_edges g' id /\ ed_from edge = inc_id /\ ed_relation edge = TriggeredBy.
Proof.
  intros Hc. revert e. induction Hc as [|x entities Hx Hc IH]; intros e Hin Ht Hs g Hg; [by apply elem_of_nil in Hin|].
  cbn [link_entities]. apply elem_of_cons in Hin as [->|Hin].
  - unfold entity_node. rewrite Ht, Hs. cbn [fmap option_fmap option_map when_some].
    destruct (adds_ip ip ts g Hg) as (g1 & id & E1 & H1 & G1). pose proof (gip_index g ip ts) as Hi. injection E1 as E1. rewrite E1 in Hi. cbn [fst snd] in Hi.
    destruct (adds_edge (Edge_new inc_id id TriggeredBy ts) (edge_new_ok _ _ _ _ _) g1 H1) as (g2 & [] & E2 & H2 & G2).
    destruct (grows_edge g1 (Edge_new inc_id id TriggeredBy ts) (iv_ok _ _ _ H1) (iv_labelled _ _ _ H1)) as (g2' & E2' & _ & Hed).
    rewrite E2 in E2'. injection E2' as <-. destruct (adds_links inc_id ts entities Hc g2 H2) as (g3 & [] & E3 & H3 & G3).
    exists g3. unfold gbind, gip. rewrite E1, E2. split_and!; [done|done|by etrans; [|etrans]|].
    destruct (enrich_ends (kg_event g1) (Edge_new inc_id id TriggeredBy ts)) as (F1 & _ & _ & F4). eexists id, _. split_and!; [|by apply (gr_incoming _ _ G3)|done|done].
    by apply (gr_index _ _ G3), (gr_index _ _ G2).
  - destruct (adds_when (entity_node ts x) (fun node => let* target_id := node in gedge (Edge_new inc_id target_id TriggeredBy ts))) with (g := g) as (g1 & [] & E1 & H1 & G1); [|done|].
    { intros node Hn. apply adds_bind; [by eapply adds_entity|]. intros id. apply adds_edge, edge_new_ok. }
    destruct (IH e Hin Ht Hs g1 H1) as (g2 & E2 & H2 & G2 & Hex). exists g2. unfold gbind at 1. rewrite E1. split_and!; [done|done|by etrans|done].
Qed.

Lemma count32_ge {A} (p : A -> bool) l : forall n, 0 <= n -> n <= foldl (fun n x => if p x then saturating_add 32 n 1 else n) n l \/ 2 ^ 32 - 1 <= foldl (fun n x => if p x then saturating_add 32 n 1 else n) n l.
Proof.
  induction l as [|x l IH]; intros n Hn; cbn [foldl]; [left; lia|]. destruct (p x); [|by apply IH].
  unfold saturating_add at 2 4. destruct (IH (Z.min (n + 1) (2 ^ 32 - 1)) ltac:(lia)) as [?|?]; [|by right]. lia.
Qed.

Lemma count32_pos {A} (p : A -> bool) l x : x ∈ l -> p x = true -> 1 <= count32 p l.
Proof.
  unfold count32. intros Hin Hp. assert (forall n, 0 <= n -> 1 <= foldl (fun n x => if p x then saturating_add 32 n 1 else n) n l) as Hg; [|by apply Hg].
  induction l as [|y l IH]; intros n Hn; [by apply elem_of_nil in Hin|]. cbn [foldl]. apply elem_of_cons in Hin as [->|Hin].
  - rewrite Hp. assert (1 <= saturating_add 32 n 1) as H1 by (unfold saturating_add; lia).
    destruct (count32_ge p l (saturating_add 32 n 1)) as [?|?]; lia.
  - apply IH; [done|]. destruct (p y); [unfold saturating_add; lia|done].
Qed.

Context (ipv4_matches : string -> list string) (safelist : SafelistState).

(** A new incident of the last day is in the graph when it is judged and is
    counted among the earlier incidents of its address: the band for a long
    benign past without recent activity is never reached. *)
Theorem strongest_band_unreachable (g : KnowledgeGraph) (incident : Incident) (ip : string) (now : Z) (profiles : Profiles) :
  inv false no_event g -> input_named (InIncident incident) -> find_by_incident g (in_incident_id incident) = None ->
  first_ip incident = Some ip -> sanitized_incident_ip ip = Some ip -> now - hours 24 <= in_ts incident ->
  exists g' f, ingest_incident ipv4_matches safelist incident g = Some (g', tt) /\ features_with_profile g' profiles incident now = Some f /\
    1 <= prior_incidents_24h f /\ (compute_modifier f).2 <> BENIGN_STRONG.
Proof.
  intros Hg Hn Hfresh Hip Hs Hts. unfold ingest_incident. set (n := incident_node safelist incident).
  destruct (keeps_upsert false no_event n ltac:(by eexists) g Hg) as (g1 & inc_id & E1 & H1).
  assert (kg_nodes g1 !! inc_id = Some n) as Hnode.
  { injection E1 as E1. revert E1. unfold upsert_node, find_existing, n, incident_node. cbn [node_key inn_incident_id].
    unfold find_by_incident in Hfresh. rewrite Hfresh. unfold add_node, find_existing. cbn [node_key inn_incident_id]. rewrite Hfresh. intros [= <- <-].
    cbn. by rewrite lookup_insert_eq. }
  assert (exists e, e ∈ in_entities incident /\ e_type e = EIp /\ e_value e = ip) as (e & Hin & Ht & Hv).
  { unfold first_ip in Hip. destruct (head _) as [e|] eqn:Eh; [|done]. injection Hip as <-. apply head_Some_elem_of, retain_elem in Eh as [? ?]. bool_to_prop. eauto. }
  assert (linked_entities ipv4_matches incident = in_entities incident) as Hl.
  { unfold linked_entities. destruct (in_entities incident); [by apply elem_of_nil in Hin|done]. }
  destruct (links_ip inc_id (in_ts incident) (in_entities incident) e ip Hn Hin Ht ltac:(by rewrite Hv) g1 H1) as (g2 & E2 & H2 & G2 & id & ed & Hid & Hed & Hfrom & Hrel).
  assert (exists g3, match in_evidence incident with
    | JArr evs => link_evidences inc_id (in_ts incident) evs
    | JObj _ => link_evidence inc_id (in_ts incident) (in_evidence incident)
    | _ => gret tt end g2 = Some (g3, tt) /\ inv false no_event g3 /\ grows g2 g3) as (g3 & E3 & H3 & G3).
  { assert (forall m : G unit, adds m -> exists g3, m g2 = Some (g3, tt) /\ inv false no_event g3 /\ grows g2 g3) as Hm.
    { intros m Hm. destruct (Hm g2 H2) as (g3 & [] & ? & ? & ?). by exists g3. }
    destruct (in_evidence incident); apply Hm; auto using adds_ret, adds_evidence, adds_evidences. }
  exists g3. unfold gbind at 1. rewrite E1. unfold gbind at 1. rewrite Hl, E2, E3.
  pose proof (gr_index _ _ G3 _ _ Hid) as Hid3. pose proof (gr_incoming _ _ G3 _ _ Hed) as Hed3.
  assert (kg_nodes g3 !! inc_id = Some n) as Hn3 by (by apply (gr_incident _ _ G3), (gr_incident _ _ G2)).
  destruct (proj1 (no_index _ (ok_nodes _ (iv_ok _ _ _ H3)) _ _) Hid3) as (nd & Hnd & Hkey). destruct nd as [|ipn| | | | | | | | |]; try done.
  unfold features_with_profile, extract_features. rewrite Hip. cbn [mbind option_bind]. unfold extract_features_for_ip, find_by_ip. rewrite Hid3.
  cbn [mbind option_bind]. rewrite Hnd. cbn [mbind option_bind].
  assert (1 <= count32 (fun i => now - hours 24 <=? inn_ts i) (incidents_of g3 id)) as Hpos.
  { destruct n as [| | | | | | | | |i|] eqn:En; try done. apply (count32_pos _ _ i).
    - apply list_elem_of_omap. exists ed. split; [done|]. rewrite bool_decide_true by done. by rewrite Hfrom, Hn3.
    - unfold n, incident_node in En. injection En as <-. cbn. by apply Z.leb_le. }
  eexists. split; [done|]. split; [done|].
  assert (forall f, 1 <= prior_incidents_24h f -> (compute_modifier f).2 <> BENIGN_STRONG) as Hband.
  { intros f Hf. unfold compute_modifier. rewrite (proj2 (Z.eqb_neq (prior_incidents_24h f) 0)) by lia. rewrite andb_false_r.
    destruct (_ && _ && _); [done|]. destruct (_ && _); [done|]. by destruct (_ && _). }
  destruct (profiles !! ip) as [[fs risk]|]; (split; [exact Hpos|apply Hband; exact Hpos]).
Qed.
End growth.

(** ** A noisy address *)

#[local] Instance demo_history_lower : Lowercase := {| to_lowercase := to_ascii_lowercase |}.
#[local] Instance demo_history_chrono : Chrono := {| parse_utc _ := None; to_rfc3339 _ := ""; fmt_minute _ := "" |}.

Definition demo_past_incident (n : string) (severity : Severity) (ts : Z) : Incident :=
  {| in_ts := ts; in_host := "h"; in_incident_id := "proto_anomaly:" +:+ n; in_severity := severity; in_title := ""; in_summary := "";
     in_evidence := JNull; in_recommended_checks := []; in_tags := []; in_entities := [entity_ip "203.0.113.7"] |}.

Definition demo_past_inputs : list Input := [InIncident (demo_past_incident "a" Low 0)].

(** The graph with one incident of little severity. *)
Definition demo_past : KnowledgeGraph :=
  default (KnowledgeGraph_new 0) (fst <$> take_all (fun _ => []) uninitialised demo_past_inputs (KnowledgeGraph_new 0)).

Lemma demo_past_inv : inv false no_event demo_past.
Proof.
  unfold demo_past. destruct (keeps_take_all (fun _ => []) uninitialised false demo_past_inputs ltac:(repeat constructor; discriminate) ltac:(done)
    (KnowledgeGraph_new 0) (new_inv false 0)) as (g & [] & -> & Hg). exact Hg.
Qed.

Lemma critical_not_talked_down_witness :
  let incident := demo_past_incident "b" Critical (days 8) in
  let d := {| dc_action := AMonitor "203.0.113.7"; dc_confidence := f32_lit 9 10; dc_auto_execute := true; dc_reason := ""; dc_alternatives := [];
              dc_estimated_threat := "" |} in
  option_map fst (compute_modifier <$> extract_features demo_past (demo_past_incident "b" Critical (days 7)) (days 7)) = Some (f32_lit (-30) 100) /\
  let d' := (apply_kg_decide_modifier "enforce" (Some demo_past) ∅ incident (days 7) d).1 in
  d' = d \/ exists modifier why reason, (modifier, why) ∈ THREAT_BANDS /\
    d' = with_confidence d (f_clamp (f32_add (dc_confidence d) modifier) (S754_zero false) (f32_of_Z 1)) reason.
Proof.
  cbv zeta. split; [vm_compute; reflexivity|]. apply (critical_not_talked_down "enforce" (Some demo_past) ∅ (demo_past_incident "b" Critical (days 8)) (days 7)). reflexivity.
Defined.

Lemma suppressed_exactly_witness :
  exists t' writer' kg' log,
    try_kg_fp_suppression (fun s => s) demo_json demo_prev "enforce" (f32_lit 70 100) {| tr_files := ∅; tr_store := None |} None
      (demo_append "2026-01-02") demo_past (demo_past_incident "a" Low 0) 10 = Some (t', writer', kg', log, true).
Proof.
  destruct (suppressed_exactly (fun s => s) demo_json demo_prev "enforce" (f32_lit 70 100) {| tr_files := ∅; tr_store := None |} None
    (demo_append "2026-01-02") demo_past (demo_past_incident "a" Low 0) 10 demo_past_inv) as (t' & w' & kg' & log & handled & E & Hh & _).
  exists t', w', kg', log. rewrite E. assert (handled = true) as ->; [|reflexivity]. apply Hh. split; [reflexivity|]. split; [discriminate|].
  split; [vm_compute; reflexivity|discriminate].
Defined.

Lemma strongest_band_unreachable_witness :
  exists g' f, ingest_incident (fun _ => []) uninitialised (demo_past_incident "b" High (days 8)) demo_past = Some (g', tt) /\
    features_with_profile g' ∅ (demo_past_incident "b" High (days 8)) (days 8) = Some f /\ 1 <= prior_incidents_24h f /\
    (compute_modifier f).2 <> BENIGN_STRONG.
Proof.
  apply (strongest_band_unreachable (fun _ => []) uninitialised demo_past (demo_past_incident "b" High (days 8)) "203.0.113.7" (days 8) ∅).
  - exact demo_past_inv.
  - repeat constructor; discriminate.
  - vm_compute; reflexivity.
  - vm_compute; reflexivity.
  - vm_compute; reflexivity.
  - vm_compute; discriminate.
Defined.
