(* ===== verification/AgentEscalation.v ===== *)
(** * AgentEscalation: blocks out of correlations
    (crates/agent/src/correlation_response.rs)

    Every half minute the completed chains of AgentCorrelation.v, the addresses
    that were blocked three times, and those that two detectors reported within
    half an hour (found in the graph of AgentGraph.v) are blocked directly,
    without a decider, through the gates of AgentBlock.v.  The history of
    AgentGraphHistory.v moves the confidence of the decision, the decision goes to
    the trail of AgentDecisions.v.  The name of the host is an argument; the
    report to Telegram is left out.

    Proved here: only admitted addresses are enforced; which addresses count as
    attacking with several techniques; the history cannot stop a block; a chain
    answers an address once in ten minutes for each rule. *)

From Stdlib Require Import ZArith Lia Ascii String SpecFloat.
From stdpp Require Import prelude strings gmap list sorting.
From S2P Require Import Prelude Text Json Floats Net CoreTypes StoreKv StoreDecisions CoreAudit AgentBreaker AgentLifecycle.
From S2P Require Import AgentCooldown AgentAllowlist AgentGate AgentSafelist AgentSafeguards AgentContextGate GuardThreats GuardRegistry.
From S2P Require Import AgentManaged AgentDecisions AgentBlock AgentCorrelation AgentGraph AgentGraphTriggers AgentGraphIngest AgentGraphHistory.
From S2P Require Import AgentAutoRules.

Local Open Scope string_scope.
Local Open Scope list_scope.
Local Open Scope Z_scope.

Definition NS_IP_REPUTATIONS : string := "ip_reputations".

Definition layer_debug (l : Layer) : string :=
  match l with
  | Firmware => "Firmware" | Hypervisor => "Hypervisor" | Kernel => "Kernel" | Userspace => "Userspace" | Network => "Network"
  | Honeypot => "Honeypot"
  end.

(** ** Addresses with several techniques *)

(** The address and the detector of a [TriggeredBy] edge of a recent incident. *)
Definition technique (g : KnowledgeGraph) (detector : string) (e : Edge) : option (string * string) :=
  if bool_decide (ed_relation e = TriggeredBy)
  then match kg_nodes g !! ed_to e with Some (NIp n) => Some (ipn_addr n, detector) | _ => None end else None.

Definition techniques (g : KnowledgeGraph) (cutoff : Z) (node : Z * Node) : list (string * string) :=
  match node.2 with
  | NIncident i => if inn_ts i <? cutoff then [] else omap (technique g (inn_detector i)) (all_edges g node.1)
  | _ => []
  end.

Definition add_technique (m : gmap string (gset string)) (t : string * string) : gmap string (gset string) :=
  <[t.1 := {[t.2]} ∪ default ∅ (m !! t.1)]> m.

Definition find_multi_technique_ips (g : KnowledgeGraph) (cutoff : Z) : list (string * list string) :=
  let ip_detectors := foldl add_technique ∅ (concat (techniques g cutoff <$> map_to_list (kg_nodes g))) in
  (fun kv => (kv.1, sorted_strings kv.2)) <$> retain (fun kv => Nat.leb 2 (size kv.2)) (map_to_list ip_detectors).

(** ** The answer *)

Record EscConfig := { ec_auto : AutoConfig; ec_kg_mode : string; ec_hostname : string }.

Section escalation.
Context (sha256_hex : string -> string) (to_json : ChainedEntry -> string) (json_prev : string -> option string).
Context {S : Type} `{KvStore S} `{!KvListing S} `{Calendar} `{Chrono} `{Lowercase} `{ProcResolver} `{BlockWorld}.

Record EscState := { es_auto : AutoState (S := S); es_graph : KnowledgeGraph; es_engine : CorrelationEngine; es_profiles : Profiles }.

Definition es_block (st : EscState) : BlockState S := at_block (es_auto st).

Definition with_block (st : EscState) (b : BlockState S) : EscState :=
  {| es_auto := {| at_block := b; at_trail := at_trail (es_auto st); at_writer := at_writer (es_auto st) |}; es_graph := es_graph st;
     es_engine := es_engine st; es_profiles := es_profiles st |}.

Definition cooling (st : EscState) (key : string) (secs now : Z) : bool :=
  match get_cooldown (bk_store (es_block st)) TDecision key with Some ts => now - seconds secs <? ts | None => false end.

(** Trusted, or an operator's. *)
Definition spared (cfg : EscConfig) (st : EscState) (ip : string) : bool :=
  is_ip_allowlisted ip (auto_trusted_ips (ec_auto cfg)) || is_ip_allowlisted ip (dynamic_trusted_ips (ec_auto cfg))
  || bool_decide (ip ∈ bk_operator_ips (es_block st)).

Definition skill_of (cfg : EscConfig) : string := "block-ip-" +:+ bc_block_backend (auto_block (ec_auto cfg)).

Definition block_decision (cfg : EscConfig) (ip : string) (confidence : spec_float) (reason threat : string) : AiDecision :=
  {| dc_action := ABlockIp ip (skill_of cfg); dc_confidence := confidence; dc_auto_execute := true; dc_reason := reason; dc_alternatives := [];
     dc_estimated_threat := threat |}.

Definition escalation_entry (cfg : EscConfig) (now : Z) (incident : Incident) (ip provider : string) (confidence : spec_float) (d : AiDecision)
    (threat execution_result : string) : DecisionEntry :=
  {| de_ts := now; de_incident_id := in_incident_id incident; de_host := in_host incident; de_ai_provider := provider; de_action_type := "block_ip";
     de_target_ip := Some ip; de_target_user := None; de_skill_id := Some (skill_of cfg); de_confidence := confidence; de_auto_executed := true;
     de_dry_run := bc_dry_run (auto_block (ec_auto cfg)); de_reason := dc_reason d; de_estimated_threat := threat;
     de_execution_result := execution_result; de_prev_hash := None; de_decision_layer := Some "correlation_rule" |}.

(** The decision as the history leaves it, its execution and its entry. *)
Definition direct_block (cfg : EscConfig) (st : EscState) (io : AppendIo) (incident : Incident) (ip provider : string) (d : AiDecision) (now : Z)
    (clk : string) : EscState * AiDecision * string :=
  let confidence := dc_confidence d in
  let d := (apply_kg_decide_modifier (ec_kg_mode cfg) (Some (es_graph st)) (es_profiles st) incident now d).1 in
  let '(bst, (execution_result, _)) := execute_block (auto_block (ec_auto cfg)) (es_block st) ip (skill_of cfg) d incident now clk in
  let '(trail, writer) :=
    match at_writer (es_auto st) with
    | Some w =>
        let '(t, w, _) := DecisionWriter_write sha256_hex to_json json_prev (at_trail (es_auto st)) w io
          (escalation_entry cfg now incident ip provider confidence d (dc_estimated_threat d) execution_result) in (t, Some w)
    | None => (at_trail (es_auto st), None)
    end in
  ({| es_auto := {| at_block := bst; at_trail := trail; at_writer := writer |}; es_graph := es_graph st; es_engine := es_engine st;
      es_profiles := es_profiles st |}, d, execution_result).

(** The reputation of an address and its cooldown, after the answer. *)
Definition note (st : EscState) (ip : string) (rep : LocalIpReputation -> LocalIpReputation) (key : string) (now : Z) (clk : string) : EscState :=
  let b := es_block st in
  with_block st (with_store_reputation b (set_cooldown (bk_store b) clk TDecision key now)
    (<[ip := rep (default (LocalIpReputation_new now) (bk_reputations b !! ip))]> (bk_reputations b))).

Definition cool (st : EscState) (key : string) (now : Z) (clk : string) : EscState :=
  let b := es_block st in with_block st (with_store_reputation b (set_cooldown (bk_store b) clk TDecision key now) (bk_reputations b)).

(** *** Completed chains *)

Definition chain_ip (chain : AttackChain) : option string :=
  e_value <$> head (retain (fun e => bool_decide (e_type e = EIp)) (concat (ce_entities <$> at_events chain))).

Definition chain_key (chain : AttackChain) (ip : string) : string := "chain:" +:+ at_rule_id chain +:+ ":" +:+ ip.

Definition chain_incident (cfg : EscConfig) (chain : AttackChain) (ip : string) : Incident :=
  {| in_ts := at_last_ts chain; in_host := ec_hostname cfg; in_incident_id := "correlation:" +:+ at_chain_id chain +:+ ":" +:+ ip;
     in_severity := at_severity chain; in_title := "Attack chain: " +:+ at_rule_name chain; in_summary := at_summary chain;
     in_evidence := JObj [("chain_id", JStr (at_chain_id chain)); ("rule_id", JStr (at_rule_id chain));
       ("stages_matched", JInt (Z.of_nat (at_stages_matched chain))); ("stages_total", JInt (Z.of_nat (at_stages_total chain)));
       ("layers", JArr (JStr ∘ layer_debug <$> at_layers chain))];
     in_recommended_checks := []; in_tags := ["correlation"; at_rule_id chain]; in_entities := [entity_ip ip] |}.

Definition block_label (chain : AttackChain) : string := if f_geb (at_confidence chain) (f32_lit 90 100) then "48h" else "24h".

Definition chain_reason (chain : AttackChain) : string :=
  "Correlation chain: " +:+ at_rule_name chain +:+ " (" +:+ show (Z.of_nat (at_stages_matched chain)) +:+ " stages, " +:+
  show_fixed 0 (f32_mul (at_confidence chain) (f32_of_Z 100)) +:+ "% confidence, block " +:+ block_label chain +:+ ")".

Definition punish (confidence : spec_float) (r : LocalIpReputation) : LocalIpReputation :=
  {| total_incidents := total_incidents r; total_blocks := total_blocks r; first_seen := first_seen r; last_seen := last_seen r;
     reputation_score := f32_add (reputation_score r) (f32_mul confidence (f32_of_Z 3)) |}.

Definition handle_completed_chain (cfg : EscConfig) (st : EscState) (io : AppendIo) (chain : AttackChain) (now : Z) (clk : string)
    : option EscState :=
  match chain_ip chain with
  | None => Some st
  | Some ip =>
      if AgentAutoRules.is_internal_ip ip then Some st
      else if bool_decide (is_Some (safelist_label bw_safelist ip)) then Some (with_block st (forget_reputation (es_block st) ip))
      else if spared cfg st ip then Some st
      else if cooling st (chain_key chain ip) 600 now then Some st
      else
        let incident := chain_incident cfg chain ip in
        let d := block_decision cfg ip (at_confidence chain) (chain_reason chain) (to_lowercase (severity_debug (at_severity chain))) in
        let '(st, d, execution_result) := direct_block cfg st io incident ip ("correlation:" +:+ at_rule_id chain) d now clk in
        r ← ingest_decision (in_incident_id incident) "block_ip" (Some ip) (dc_confidence d) (dc_reason d) (negb (skipped execution_result)) now
              (es_graph st);
        let st := {| es_auto := es_auto st; es_graph := r.1; es_engine := es_engine st; es_profiles := es_profiles st |} in
        Some (note st ip (fun rep => let rep := record_incident now rep in
                                     if skipped execution_result then rep else punish (at_confidence chain) (record_block now rep))
                (chain_key chain ip) now clk)
  end.

(** *** Repeat offenders *)

Definition drop_invalid_repeat_offender (st : EscState) (ip : string) : EscState * bool :=
  if is_single_ip_block_target ip then (st, false)
  else
    let b := forget_reputation (es_block st) ip in
    (with_block st (with_store_reputation b (kvi_delete (bk_store b) NS_IP_REPUTATIONS ip).1 (bk_reputations b)), true).

Definition repeat_incident (cfg : EscConfig) (ip : string) (n now : Z) : Incident :=
  {| in_ts := now; in_host := ec_hostname cfg; in_incident_id := "repeat-offender:" +:+ ip +:+ ":" +:+ stamp now; in_severity := High;
     in_title := "Repeat offender: " +:+ ip +:+ " blocked " +:+ show n +:+ " times";
     in_summary := "IP " +:+ ip +:+ " has been blocked " +:+ show n +:+ " times. Escalating to extended block.";
     in_evidence := JObj [("total_blocks", JInt n)]; in_recommended_checks := []; in_tags := ["repeat-offender"]; in_entities := [entity_ip ip] |}.

Definition repeat_key (ip : string) : string := "repeat-offender:" +:+ ip.

Definition escalate_repeat (cfg : EscConfig) (st : EscState) (io : AppendIo) (now : Z) (clk : string) (offender : string * Z) : EscState :=
  let '(ip, n) := offender in
  let '(st, dropped) := drop_invalid_repeat_offender st ip in
  if dropped then st
  else if cooling st (repeat_key ip) 86400 now then st
  else if AgentAutoRules.is_internal_ip ip then st
  else if bool_decide (is_Some (safelist_label bw_safelist ip)) then
    let b := forget_reputation (es_block st) ip in
    with_block st (with_store_reputation b (kvi_delete (bk_store b) NS_IP_REPUTATIONS ip).1 (bk_reputations b))
  else if spared cfg st ip then st
  else
    let reason := "Repeat offender: " +:+ ip +:+ " blocked " +:+ show n +:+ "x — extended block (7 days)" in
    let '(st, _, _) := direct_block cfg st io (repeat_incident cfg ip n now) ip "repeat-offender"
      (block_decision cfg ip (f32_lit 98 100) reason "high") now clk in
    cool st (repeat_key ip) now clk.

Definition repeat_ips (st : EscState) : list (string * Z) :=
  (fun kv => (kv.1, total_blocks kv.2)) <$> retain (fun kv => 3 <=? total_blocks kv.2) (map_to_list (bk_reputations (es_block st))).

Definition check_repeat_offenders (cfg : EscConfig) (st : EscState) (io : AppendIo) (now : Z) (clk : string) : EscState :=
  foldl (fun st offender => escalate_repeat cfg st io now clk offender) st (repeat_ips st).

(** *** Several techniques *)

Definition multi_key (ip : string) : string := "multi-technique:" +:+ ip.

Definition multi_incident (cfg : EscConfig) (ip : string) (detectors : list string) (now : Z) : Incident :=
  {| in_ts := now; in_host := ec_hostname cfg; in_incident_id := "multi-technique:" +:+ ip +:+ ":" +:+ stamp now; in_severity := High;
     in_title := "Multi-technique attack from " +:+ ip;
     in_summary := "IP " +:+ ip +:+ " triggered " +:+ show (Z.of_nat (length detectors)) +:+ " distinct detectors: " +:+ join ", " detectors +:+ ". Escalating.";
     in_evidence := JObj [("detectors", JArr (JStr <$> detectors))]; in_recommended_checks := []; in_tags := ["multi-technique"];
     in_entities := [entity_ip ip] |}.

Definition escalate_multi (cfg : EscConfig) (st : EscState) (io : AppendIo) (now : Z) (clk : string) (attacker : string * list string) : EscState :=
  let '(ip, detectors) := attacker in
  if negb (is_single_ip_block_target ip) then st
  else if cooling st (multi_key ip) 3600 now then st
  else if AgentAutoRules.is_internal_ip ip then st
  else if spared cfg st ip then st
  else
    let reason := "Multi-technique: " +:+ ip +:+ " triggered " +:+ show (Z.of_nat (length detectors)) +:+ " detectors (" +:+ join ", " detectors +:+
                  ") — block 48h" in
    let '(st, _, execution_result) := direct_block cfg st io (multi_incident cfg ip detectors now) ip "multi-technique"
      (block_decision cfg ip (f32_lit 92 100) reason "high") now clk in
    note st ip (fun rep => if skipped execution_result then rep else record_block now rep) (multi_key ip) now clk.

Definition check_multi_technique (cfg : EscConfig) (st : EscState) (io : AppendIo) (now : Z) (clk : string) : EscState :=
  foldl (fun st attacker => escalate_multi cfg st io now clk attacker) st (find_multi_technique_ips (es_graph st) (now - seconds 1800)).

(** *** One tick *)

Fixpoint handle_chains (cfg : EscConfig) (st : EscState) (io : AppendIo) (chains : list AttackChain) (now : Z) (clk : string) : option EscState :=
  match chains with
  | [] => Some st
  | chain :: chains => st ← handle_completed_chain cfg st io chain now clk; handle_chains cfg st io chains now clk
  end.

Definition process_correlation_escalations (cfg : EscConfig) (st : EscState) (io : AppendIo) (now : Z) (clk : string) : option EscState :=
  if negb (responder_enabled (ec_auto cfg)) then Some st
  else
    let '(engine, chains) := drain_completed (es_engine st) in
    let st := {| es_auto := es_auto st; es_graph := es_graph st; es_engine := engine; es_profiles := es_profiles st |} in
    st ← handle_chains cfg st io chains now clk;
    Some (check_multi_technique cfg (check_repeat_offenders cfg st io now clk) io now clk).

End escalation.

(** ** Only admitted addresses are enforced *)

Section claims.
Context (sha256_hex : string -> string) (to_json : ChainedEntry -> string) (json_prev : string -> option string).
Context {S : Type} `{KvStore S} `{!KvListing S} `{Calendar} `{Chrono} `{Lowercase} `{ProcResolver} `{BlockWorld}.

(** What the block of [ip] for [incident] does to the state: its layers, and there
    is one, are registered in the lifecycle under this address, which joins the
    block list and the sensor's file; the minute's blocks count it, and at most one
    report is queued. *)
Definition blocks_only (cfg : EscConfig) (now : Z) (ip : string) (incident : Incident) (b b' : BlockState S) : Prop :=
  bk_recent b' = recent_at now b ++ [now] /\
  (exists layers ttl, bk_lifecycle b' = register_layers (bk_lifecycle b) now layers ip (in_incident_id incident) ttl) /\
  (exists backend, is_tracked (bk_lifecycle b') ip backend = true) /\
  bk_blocklist b' = {[ip]} ∪ bk_blocklist b /\ bk_blocked_file b' = bk_blocked_file b ++ [ip] /\
  length (bk_reports b') = (length (bk_reports b) + (if bc_abuseipdb (auto_block (ec_auto cfg)) then 1 else 0))%nat.

(** One answer: nothing that is enforced changes, or the block of one address is
    all that changes, a single outside address, neither trusted nor an operator's,
    that every gate admits and the firewall does not hold already. *)
Definition answers (cfg : EscConfig) (now : Z) (clk : string) (b b' : BlockState S) : Prop :=
  enforcement b' = enforcement b \/
  exists ip incident, is_single_ip_block_target ip = true /\ AgentAutoRules.is_internal_ip ip = false /\
    is_ip_allowlisted ip (auto_trusted_ips (ec_auto cfg)) = false /\ is_ip_allowlisted ip (dynamic_trusted_ips (ec_auto cfg)) = false /\
    (ip ∉ bk_operator_ips b) /\ admitted (auto_block (ec_auto cfg)) b ip incident now clk /\ already_blocked b ip (skill_of cfg) now = false /\
    blocks_only cfg now ip incident b b'.

Lemma spared_false cfg (st : EscState (S := S)) ip : spared cfg st ip = false ->
  is_ip_allowlisted ip (auto_trusted_ips (ec_auto cfg)) = false /\ is_ip_allowlisted ip (dynamic_trusted_ips (ec_auto cfg)) = false /\
  (ip ∉ bk_operator_ips (es_block st)).
Proof. unfold spared. intros Hs. bool_to_prop. done. Qed.

Lemma execute_answers cfg (b : BlockState S) ip d incident now clk :
  let r := execute_block_ip_decision (auto_block (ec_auto cfg)) b ip (skill_of cfg) d incident now clk in
  enforcement r.1 = enforcement b \/
  (admitted (auto_block (ec_auto cfg)) b ip incident now clk /\ already_blocked b ip (skill_of cfg) now = false /\ blocks_only cfg now ip incident b r.1).
Proof.
  cbv zeta. destruct (execute_cases (auto_block (ec_auto cfg)) b ip (skill_of cfg) d incident now clk)
    as [(Ha & Hb & b1 & -> & Hr & _ & He & _)|(_ & _ & He & _)]; [|by left].
  pose proof (apply_block_spec (auto_block (ec_auto cfg)) b1 ip (skill_of cfg) d incident now clk) as Hs.
  pose proof (layers_have_backends (auto_block (ec_auto cfg)) b1 ip (skill_of cfg) incident now clk) as Hl.
  destruct (block_layers _ _ _ _ _ _ _) as [[b2 layers] ttl]. cbn [fst snd] in Hl. destruct Hs as [Hrec Hs]. destruct layers as [|l ls].
  - left. destruct Hs as [_ ->]. exact He.
  - right. destruct Hs as (Hlc & Hbl & Hf & Hrep & _). unfold enforcement in He. injection He as El Eb Er Ef.
    split; [done|]. split; [done|]. unfold blocks_only. rewrite Hrec, Hr, Hlc, Hbl, Hf, Hrep, El, Eb, Er, Ef. split_and!; [done| | |done..].
    + by eexists _, _.
    + destruct (Hl l ltac:(left)) as [bk Hlb]. exists bk. apply (register_layers_tracked _ _ _ _ _ _ l); [left|done].
Qed.

Lemma direct_block_answers cfg (st : EscState (S := S)) io incident ip provider d now clk : AgentAutoRules.is_internal_ip ip = false -> spared cfg st ip = false ->
  answers cfg now clk (es_block st) (es_block (direct_block sha256_hex to_json json_prev cfg st io incident ip provider d now clk).1.1).
Proof.
  intros Hi Hs. destruct (spared_false _ _ _ Hs) as (Ht & Hd & Ho). unfold direct_block. set (d' := (apply_kg_decide_modifier _ _ _ _ _ _).1).
  assert (answers cfg now clk (es_block st) (execute_block (auto_block (ec_auto cfg)) (es_block st) ip (skill_of cfg) d' incident now clk).1) as Ha.
  { unfold execute_block. destruct (is_single_ip_block_target ip) eqn:Es; cbn [negb]; [|by left].
    destruct (execute_answers cfg (es_block st) ip d' incident now clk) as [?|(? & ? & ?)]; [by left|right; by exists ip, incident]. }
  destruct (execute_block _ _ _ _ _ _ _ _) as [bst [res cf]].
  destruct (at_writer (es_auto st)) as [w|]; [destruct (DecisionWriter_write _ _ _ _ _ _ _) as [[t w'] r]|]; exact Ha.
Qed.

(** What is noted afterwards enforces nothing. *)
Lemma answers_note cfg now clk b b1 b2 : answers cfg now clk b b1 -> enforcement b2 = enforcement b1 -> bk_recent b2 = bk_recent b1 ->
  answers cfg now clk b b2.
Proof.
  intros [He|(ip & incident & ? & ? & ? & ? & ? & ? & ? & Hb)] E Er; [left; congruence|right; exists ip, incident].
  unfold enforcement in E. injection E as El Eb Ep Ef. do 7 (split; [done|]). unfold blocks_only in *. by rewrite Er, El, Eb, Ep, Ef.
Qed.

Lemma direct_block_graph cfg (st : EscState (S := S)) io incident ip provider d now clk :
  es_graph (direct_block sha256_hex to_json json_prev cfg st io incident ip provider d now clk).1.1 = es_graph st.
Proof.
  unfold direct_block. destruct (execute_block _ _ _ _ _ _ _ _) as [bst [res cf]].
  by destruct (at_writer (es_auto st)) as [w|]; [destruct (DecisionWriter_write _ _ _ _ _ _ _) as [[t w'] r]|].
Qed.

Lemma chain_answers cfg (st : EscState (S := S)) io chain now clk : inv false no_event (es_graph st) ->
  exists st', handle_completed_chain sha256_hex to_json json_prev cfg st io chain now clk = Some st' /\ inv false no_event (es_graph st') /\
    answers cfg now clk (es_block st) (es_block st').
Proof.
  intros Hg. unfold handle_completed_chain. destruct (chain_ip chain) as [ip|]; [|exists st; by split_and!; [| |left]].
  destruct (AgentAutoRules.is_internal_ip ip) eqn:Ei; [exists st; by split_and!; [| |left]|].
  case_bool_decide; [eexists; by split_and!; [| |left]|]. destruct (spared cfg st ip) eqn:Es; [exists st; by split_and!; [| |left]|].
  destruct (cooling _ _ _ _); [exists st; by split_and!; [| |left]|]. cbv zeta.
  set (incident := chain_incident cfg chain ip). set (d0 := block_decision _ _ _ _ _).
  pose proof (direct_block_answers cfg st io incident ip ("correlation:" +:+ at_rule_id chain) d0 now clk Ei Es) as Ha.
  pose proof (direct_block_graph cfg st io incident ip ("correlation:" +:+ at_rule_id chain) d0 now clk) as Eg.
  destruct (direct_block _ _ _ _ _ _ _ _ _ _ _ _) as [[st1 d] res]. cbn [fst] in Ha, Eg. rewrite <- Eg in Hg.
  destruct (keeps_decision false (in_incident_id incident) "block_ip" (Some ip) (dc_confidence d) (dc_reason d) (negb (skipped res)) now _ Hg)
    as (g' & [] & -> & Hg'). cbn [mbind option_bind]. eexists. split; [done|]. split; [done|]. eapply answers_note; [exact Ha|done|done].
Qed.

Lemma repeat_answers cfg (st : EscState (S := S)) io now clk offender :
  answers cfg now clk (es_block st) (es_block (escalate_repeat sha256_hex to_json json_prev cfg st io now clk offender)).
Proof.
  destruct offender as [ip n]. unfold escalate_repeat, drop_invalid_repeat_offender. destruct (is_single_ip_block_target ip); [|by left].
  destruct (cooling _ _ _ _); [by left|]. destruct (AgentAutoRules.is_internal_ip ip) eqn:Ei; [by left|]. case_bool_decide; [by left|].
  destruct (spared cfg st ip) eqn:Es; [by left|]. cbv zeta. set (d0 := block_decision _ _ _ _ _).
  pose proof (direct_block_answers cfg st io (repeat_incident cfg ip n now) ip "repeat-offender" d0 now clk Ei Es) as Ha.
  destruct (direct_block _ _ _ _ _ _ _ _ _ _ _ _) as [[st1 d] res]. eapply answers_note; [exact Ha|done|done].
Qed.

Lemma multi_answers cfg (st : EscState (S := S)) io now clk attacker :
  answers cfg now clk (es_block st) (es_block (escalate_multi sha256_hex to_json json_prev cfg st io now clk attacker)).
Proof.
  destruct attacker as [ip dets]. unfold escalate_multi. destruct (negb _); [by left|].
  destruct (cooling _ _ _ _); [by left|]. destruct (AgentAutoRules.is_internal_ip ip) eqn:Ei; [by left|].
  destruct (spared cfg st ip) eqn:Es; [by left|]. cbv zeta. set (d0 := block_decision _ _ _ _ _).
  pose proof (direct_block_answers cfg st io (multi_incident cfg ip dets now) ip "multi-technique" d0 now clk Ei Es) as Ha.
  destruct (direct_block _ _ _ _ _ _ _ _ _ _ _ _) as [[st1 d] res]. eapply answers_note; [exact Ha|done|done].
Qed.

Lemma fold_answers {A} cfg now clk (f : EscState (S := S) -> A -> EscState) l :
  (forall st x, answers cfg now clk (es_block st) (es_block (f st x))) -> forall st, rtc (answers cfg now clk) (es_block st) (es_block (foldl f st l)).
Proof. intros Hf. induction l as [|x l IH]; intros st; cbn [foldl]; [done|]. eapply rtc_l; [apply Hf|apply IH]. Qed.

(** C28. On a graph as ingestion leaves it a tick of the correlations comes to its
    end, and what is enforced after it was reached by answers one after the other.
    An answer leaves the lifecycle, the block list, the queued reports and the
    sensor's file as they were, or it is the block of one address: single, outside,
    neither trusted nor an operator's, not held by the firewall, and admitted by
    every gate in the state the answer starts from.  Then that address and no
    other joins the block list and the file, its layers are registered, the
    minute's blocks count it, and at most one report is queued. *)
Theorem tick_only_answers (cfg : EscConfig) (st : EscState (S := S)) (io : AppendIo) (now : Z) (clk : string) :
  inv false no_event (es_graph st) ->
  exists st', process_correlation_escalations sha256_hex to_json json_prev cfg st io now clk = Some st' /\
    rtc (answers cfg now clk) (es_block st) (es_block st').
Proof.
  unfold process_correlation_escalations. intros Hg. destruct (negb _); [by exists st|]. destruct (drain_completed _) as [engine chains].
  set (st0 := Build_EscState _ _ _ _). change (es_block st) with (es_block st0). assert (inv false no_event (es_graph st0)) as Hg0 by done.
  clearbody st0. clear st Hg. revert st0 Hg0. induction chains as [|chain chains IH]; intros st Hg; cbn [handle_chains mbind option_bind].
  - eexists. split; [done|]. etrans.
    + apply (fold_answers cfg now clk (fun st o => escalate_repeat sha256_hex to_json json_prev cfg st io now clk o)). intros; apply repeat_answers.
    + apply (fold_answers cfg now clk (fun st a => escalate_multi sha256_hex to_json json_prev cfg st io now clk a)). intros; apply multi_answers.
  - destruct (chain_answers cfg st io chain now clk Hg) as (st1 & -> & Hg1 & Ha). cbn [mbind option_bind].
    destruct (IH st1 Hg1) as (st' & E & Hr). exists st'. split; [exact E|]. by eapply rtc_l.
Qed.

(** ** The history *)

(** What a block leaves in the kernel, the firewall and the lifecycle. *)
Definition enforced (b : BlockState S) :=
  (bk_recent b, bk_lifecycle b, bk_blocklist b, bk_xdp_times b, bk_skip_until b, bk_blocked_file b).

Lemma execute_decision_irrelevant cfg (b : BlockState S) ip skill_id d d' incident now clk :
  enforced (execute_block cfg b ip skill_id d incident now clk).1 = enforced (execute_block cfg b ip skill_id d' incident now clk).1.
Proof.
  unfold execute_block. destruct (negb _); [done|]. unfold execute_block_ip_decision. destruct (managed_agent_downgrade _ _) as [[ag nm]|]; [done|].
  destruct (bk_sqlite (purge now b)); [destruct (consult_circuit_breaker _ _ _ _ _ _) as [sq [r|]]; [done|]|];
    (destruct (check_block_eligibility_with_safelist _ _ _ _ _); [|done]); (destruct (_ && _); [done|]);
    unfold apply_block; cbv zeta; destruct (xdp_layer _ _ _ _ _ _ _) as [b1 xdp]; (destruct (xdp ++ _) as [|l ls]; [done|]);
    by destruct (bc_abuseipdb cfg).
Qed.

(** Whatever the mode of the gate, the graph and the profiles say, what is enforced
    is the same: the history only changes the texts about it. *)
Theorem history_cannot_stop_block (cfg cfg' : EscConfig) (st st' : EscState (S := S)) (io : AppendIo) (incident : Incident) (ip provider : string)
    (d : AiDecision) (now : Z) (clk : string) : ec_auto cfg' = ec_auto cfg -> es_block st' = es_block st ->
  enforced (es_block (direct_block sha256_hex to_json json_prev cfg' st' io incident ip provider d now clk).1.1) =
  enforced (es_block (direct_block sha256_hex to_json json_prev cfg st io incident ip provider d now clk).1.1).
Proof.
  intros Hc Hb. unfold direct_block, skill_of. rewrite Hc, Hb. set (d1 := (apply_kg_decide_modifier (ec_kg_mode cfg') _ _ _ _ _).1).
  set (d2 := (apply_kg_decide_modifier (ec_kg_mode cfg) _ _ _ _ _).1).
  pose proof (execute_decision_irrelevant (auto_block (ec_auto cfg)) (es_block st) ip ("block-ip-" +:+ bc_block_backend (auto_block (ec_auto cfg))) d1 d2
    incident now clk) as He.
  destruct (execute_block _ _ _ _ d1 _ _ _) as [b1 [r1 c1]]. destruct (execute_block _ _ _ _ d2 _ _ _) as [b2 [r2 c2]]. cbn [fst] in He.
  destruct (at_writer (es_auto st')) as [w|]; [destruct (DecisionWriter_write _ _ _ _ _ _ _) as [[t w'] r]|];
    (destruct (at_writer (es_auto st)) as [w0|]; [destruct (DecisionWriter_write _ _ _ _ _ _ _) as [[t0 w0'] r0]|]); exact He.
Qed.

(** ** Chains are answered once *)

Context `{!KvLaws S}.

Lemma note_cooling (st : EscState (S := S)) ip rep key now clk now' secs : kv_ok (bk_store (es_block st)) -> chrono_instant now ->
  now' - seconds secs < to_millis now -> cooling (note st ip rep key now clk) key secs now' = true.
Proof.
  intros Hok Hts Hn. unfold cooling. cbn. rewrite get_set_cooldown by done. rewrite bool_decide_true by done. by apply Z.ltb_lt.
Qed.

(** After the answer to a chain, another chain of the same rule against the same
    address changes nothing for ten minutes. *)
Theorem chain_answered_once (cfg : EscConfig) (st st' : EscState (S := S)) (io io' : AppendIo) (chain chain' : AttackChain) (ip : string)
    (now now' : Z) (clk clk' : string) :
  chain_ip chain = Some ip -> AgentAutoRules.is_internal_ip ip = false -> safelist_label bw_safelist ip = None -> spared cfg st ip = false ->
  cooling st (chain_key chain ip) 600 now = false -> kv_ok (bk_store (es_block st)) -> chrono_instant now ->
  handle_completed_chain sha256_hex to_json json_prev cfg st io chain now clk = Some st' ->
  chain_ip chain' = Some ip -> at_rule_id chain' = at_rule_id chain -> now' - seconds 600 < to_millis now ->
  handle_completed_chain sha256_hex to_json json_prev cfg st' io' chain' now' clk' = Some st'.
Proof.
  intros Hip Hi Hl Hs Hc Hok Hts E Hip' Hr Hn. unfold handle_completed_chain in E. rewrite Hip, Hi, Hs, Hc in E.
  rewrite bool_decide_false in E by (rewrite Hl; by intros [? ?]). cbv zeta in E.
  assert (cooling st' (chain_key chain ip) 600 now' = true) as Hcool.
  { revert E. unfold direct_block. set (d' := (apply_kg_decide_modifier _ _ _ _ _ _).1).
    pose proof (execute_store_ok (auto_block (ec_auto cfg)) (es_block st) ip (skill_of cfg) d' (chain_incident cfg chain ip) now clk Hok) as Hok1.
    destruct (execute_block _ _ _ _ _ _ _ _) as [bst [res cf]]. cbn [fst] in Hok1.
    destruct (at_writer (es_auto st)) as [w|]; [destruct (DecisionWriter_write _ _ _ _ _ _ _) as [[t w'] r]|];
      (destruct (ingest_decision _ _ _ _ _ _ _ _) as [[g' []]|]; [|done]); cbn [mbind option_bind]; intros [= <-]; by apply note_cooling. }
  unfold handle_completed_chain. rewrite Hip', Hi. rewrite bool_decide_false by (rewrite Hl; by intros [? ?]).
  destruct (spared cfg st' ip); [done|]. assert (chain_key chain' ip = chain_key chain ip) as -> by (unfold chain_key; by rewrite Hr).
  by rewrite Hcool.
Qed.
End claims.

(** ** Several techniques *)

(** A recent incident of the detector [det] names the address [ip]. *)
Definition attacked (g : KnowledgeGraph) (cutoff : Z) (ip det : string) : Prop :=
  exists id i e n, kg_nodes g !! id = Some (NIncident i) /\ cutoff <= inn_ts i /\ inn_detector i = det /\
    e ∈ all_edges g id /\ ed_relation e = TriggeredBy /\ kg_nodes g !! ed_to e = Some (NIp n) /\ ipn_addr n = ip.

Lemma techniques_spec g cutoff ip det :
  (ip, det) ∈ concat (techniques g cutoff <$> map_to_list (kg_nodes g)) <-> attacked g cutoff ip det.
Proof.
  rewrite list_elem_of_In, in_concat. split.
  - intros (l & Hl & Hin). apply list_elem_of_In, list_elem_of_fmap in Hl as ([id n] & -> & Hn%elem_of_map_to_list). apply list_elem_of_In in Hin.
    unfold techniques in Hin. cbn in Hin. destruct n as [| | | | | | | | |i|]; try (by apply elem_of_nil in Hin).
    destruct (Z.ltb_spec (inn_ts i) cutoff); [by apply elem_of_nil in Hin|]. apply list_elem_of_omap in Hin as (e & He & Ht). unfold technique in Ht.
    case_bool_decide; [|done]. destruct (kg_nodes g !! ed_to e) as [[|n| | | | | | | | |]|] eqn:En; try done. injection Ht as <- <-.
    exists id, i, e, n. by split_and!.
  - intros (id & i & e & n & Hi & Hts & <- & He & Hr & Hn & <-). exists (techniques g cutoff (id, NIncident i)). split.
    + apply list_elem_of_In, list_elem_of_fmap. exists (id, NIncident i). split; [done|]. by apply elem_of_map_to_list.
    + apply list_elem_of_In. unfold techniques. cbn. destruct (Z.ltb_spec (inn_ts i) cutoff); [lia|]. apply list_elem_of_omap. exists e. split; [done|].
      unfold technique. by rewrite bool_decide_true, Hn by done.
Qed.

Lemma add_techniques l : forall m ip det, det ∈ default ∅ (foldl add_technique m l !! ip) <-> det ∈ default (∅ : gset string) (m !! ip) \/ (ip, det) ∈ l.
Proof.
  induction l as [|[ip' det'] l IH]; intros m ip det; cbn [foldl].
  { split; [by left|]. by intros [?|?%elem_of_nil]. }
  rewrite IH. unfold add_technique. cbn. destruct (decide (ip' = ip)) as [->|Hne].
  - rewrite lookup_insert_eq. cbn. rewrite elem_of_union, elem_of_singleton, elem_of_cons. split; [intros [[->|?]|?]; auto|].
    intros [?|[[= <-]|?]]; auto.
  - rewrite lookup_insert_ne by done. rewrite elem_of_cons. split; [intros [?|?]; auto|]. intros [?|[[= <- <-]|?]]; auto; done.
Qed.

Lemma size_two (s : gset string) : (2 <= size s)%nat <-> exists d1 d2, d1 <> d2 /\ d1 ∈ s /\ d2 ∈ s.
Proof.
  split.
  - intros Hs. unfold size, set_size in Hs. pose proof (NoDup_elements s) as Hnd.
    assert (forall d, d ∈ elements s -> d ∈ s) as He by (intros d; by rewrite elem_of_elements). cbn in Hs.
    destruct (elements s) as [|d1 [|d2 l]]; cbn in Hs; [lia|lia|]. exists d1, d2. apply NoDup_cons in Hnd as [Hn _].
    split_and!; [|apply He; left|apply He; right; left]. intros ->. apply Hn. left.
  - intros (d1 & d2 & Hne & H1 & H2). transitivity (size ({[d1; d2]} : gset string)).
    + rewrite size_union by set_solver. by rewrite !size_singleton.
    + apply subseteq_size. set_solver.
Qed.

(** The addresses that are answered for several techniques are exactly those that
    recent incidents of two detectors name, with exactly these detectors. *)
Theorem multi_technique_exact (g : KnowledgeGraph) (cutoff : Z) (ip : string) :
  ((exists detectors, (ip, detectors) ∈ find_multi_technique_ips g cutoff) <->
   exists d1 d2, d1 <> d2 /\ attacked g cutoff ip d1 /\ attacked g cutoff ip d2) /\
  forall detectors, (ip, detectors) ∈ find_multi_technique_ips g cutoff -> forall det, det ∈ detectors <-> attacked g cutoff ip det.
Proof.
  set (m := foldl add_technique ∅ (concat (techniques g cutoff <$> map_to_list (kg_nodes g)))).
  assert (forall det, det ∈ default ∅ (m !! ip) <-> attacked g cutoff ip det) as Hm.
  { intros det. unfold m. rewrite add_techniques, lookup_empty, techniques_spec. cbn. set_solver. }
  assert (forall dets, (ip, dets) ∈ find_multi_technique_ips g cutoff <-> exists s, m !! ip = Some s /\ (2 <= size s)%nat /\ dets = sorted_strings s) as Hf.
  { intros dets. unfold find_multi_technique_ips. fold m. rewrite list_elem_of_fmap. split.
    - intros ([k s] & [= -> ->] & Hin). apply retain_elem in Hin as [Hin Hs]. apply elem_of_map_to_list in Hin. apply Nat.leb_le in Hs. by exists s.
    - intros (s & Hs & Hn & ->). exists (ip, s). split; [done|]. apply retain_elem. split; [by apply elem_of_map_to_list|by apply Nat.leb_le]. }
  split.
  - split.
    + intros (dets & (s & Hs & Hn & _)%Hf). rewrite Hs in Hm. cbn in Hm. apply size_two in Hn as (d1 & d2 & ? & ?%Hm & ?%Hm). by exists d1, d2.
    + intros (d1 & d2 & Hne & H1%Hm & H2%Hm). destruct (m !! ip) as [s|] eqn:Es; [|by apply elem_of_empty in H1]. cbn in *.
      exists (sorted_strings s). apply Hf. exists s. split_and!; [done| |done]. apply size_two. by exists d1, d2.
  - intros dets (s & Hs & _ & ->)%Hf det. rewrite Hs in Hm. cbn in Hm. rewrite <- Hm. unfold sorted_strings. rewrite merge_sort_Permutation.
    apply elem_of_elements.
Qed.

(** ** A host with ufw *)

#[local] Instance demo_esc_case : Lowercase := {| to_lowercase := to_ascii_lowercase |}.
#[local] Instance demo_esc_calendar : Calendar :=
  {| cal_year _ := 2026; cal_month _ := 1; cal_day _ := 1; cal_hour t := t / seconds 3600 |}.
#[local] Instance demo_esc_chrono : Chrono := {| parse_utc _ := None; to_rfc3339 _ := ""; fmt_minute _ := "" |}.
#[local] Instance demo_esc_proc : ProcResolver := {| resolve _ := None; file_owner_uid _ := None |}.
#[local] Instance demo_esc_host : BlockWorld := ufw_host.

Definition demo_esc_config (mode : string) : EscConfig := {| ec_auto := demo_auto_config; ec_kg_mode := mode; ec_hostname := "h" |}.

Definition demo_report (detector : string) : Incident :=
  {| in_ts := seconds 4900; in_host := "h"; in_incident_id := detector +:+ ":203.0.113.7"; in_severity := High; in_title := ""; in_summary := "";
     in_evidence := JNull; in_recommended_checks := []; in_tags := []; in_entities := [entity_ip "203.0.113.7"] |}.

Definition demo_esc_inputs : list Input := [InIncident (demo_report "port_scan"); InIncident (demo_report "web_scan")].

Definition demo_esc_graph : KnowledgeGraph :=
  default (KnowledgeGraph_new 0) (fst <$> take_all (fun _ => []) uninitialised demo_esc_inputs (KnowledgeGraph_new 0)).

Lemma demo_esc_graph_inv : inv false no_event demo_esc_graph.
Proof.
  unfold demo_esc_graph. destruct (keeps_take_all (fun _ => []) uninitialised false demo_esc_inputs ltac:(repeat constructor; discriminate) ltac:(done)
    (KnowledgeGraph_new 0) (new_inv false 0)) as (g & [] & -> & Hg). exact Hg.
Qed.

Definition demo_esc_chain : AttackChain :=
  {| at_chain_id := "c1"; at_rule_id := "CL-008"; at_rule_name := "exfil"; at_start_ts := 0; at_last_ts := seconds 4900;
     at_events := [{| ce_ts := seconds 4900; ce_layer := Network; ce_source := ""; ce_kind := ""; ce_severity := High; ce_entities := [entity_ip "203.0.113.9"];
                      ce_details := JNull; ce_incident_id := "" |}];
     at_stages_matched := 2; at_stages_total := 2; at_confidence := f32_lit 9 10; at_layers := [Network]; at_severity := High; at_summary := "" |}.

Definition demo_esc_engine : CorrelationEngine :=
  {| en_window := []; en_max_window := 10; en_pending := []; en_completed := [demo_esc_chain]; en_rules := []; en_cooldowns := ∅; en_next_id := 0 |}.

Definition demo_esc_state : EscState (S := Store) :=
  {| es_auto := demo_auto_state []; es_graph := demo_esc_graph; es_engine := demo_esc_engine; es_profiles := ∅ |}.

Definition demo_tick : option (EscState (S := Store)) :=
  process_correlation_escalations (fun s => s) demo_json demo_prev (demo_esc_config "enforce") demo_esc_state (demo_append "2026-01-02") (seconds 5000) "t".

Lemma tick_only_answers_witness :
  ((fun st => bk_blocked_file (es_block st)) <$> demo_tick = Some ["203.0.113.9"; "203.0.113.7"]) /\
  exists st', demo_tick = Some st' /\ rtc (answers (demo_esc_config "enforce") (seconds 5000) "t") (es_block demo_esc_state) (es_block st').
Proof.
  split; [vm_compute; reflexivity|].
  exact (tick_only_answers (fun s => s) demo_json demo_prev (demo_esc_config "enforce") demo_esc_state (demo_append "2026-01-02") (seconds 5000) "t" demo_esc_graph_inv).
Defined.

(** Here the history of the attacker is benign and old enough to lower the
    confidence; the block is the same. *)
Lemma history_cannot_stop_block_witness :
  enforced (es_block (direct_block (fun s => s) demo_json demo_prev (demo_esc_config "enforce") demo_esc_state (demo_append "2026-01-02")
    (demo_report "port_scan") "203.0.113.7" "p" (block_decision (demo_esc_config "off") "203.0.113.7" (f32_lit 9 10) "" "high") (seconds 5000) "t").1.1) =
  enforced (es_block (direct_block (fun s => s) demo_json demo_prev (demo_esc_config "off") demo_esc_state (demo_append "2026-01-02")
    (demo_report "port_scan") "203.0.113.7" "p" (block_decision (demo_esc_config "off") "203.0.113.7" (f32_lit 9 10) "" "high") (seconds 5000) "t").1.1).
Proof.
  apply (history_cannot_stop_block (fun s => s) demo_json demo_prev (demo_esc_config "off") (demo_esc_config "enforce") demo_esc_state demo_esc_state);
    reflexivity.
Defined.

Definition demo_after_chain : option (EscState (S := Store)) :=
  handle_completed_chain (fun s => s) demo_json demo_prev (demo_esc_config "off") demo_esc_state (demo_append "2026-01-02") demo_esc_chain (seconds 5000) "t".

Lemma demo_after_chain_some : demo_after_chain = Some (default demo_esc_state demo_after_chain).
Proof. vm_compute. reflexivity. Qed.

Lemma chain_answered_once_witness :
  exists st', demo_after_chain = Some st' /\
    handle_completed_chain (fun s => s) demo_json demo_prev (demo_esc_config "off") st' (demo_append "2026-01-02") demo_esc_chain (seconds 5500) "t" = Some st'.
Proof.
  pose proof demo_after_chain_some as E.
  exists (default demo_esc_state demo_after_chain). split; [exact E|].
  apply (chain_answered_once (fun s => s) demo_json demo_prev (demo_esc_config "off") demo_esc_state _ (demo_append "2026-01-02") (demo_append "2026-01-02")
    demo_esc_chain demo_esc_chain "203.0.113.9" (seconds 5000) (seconds 5500) "t" "t"); try exact E; try (vm_compute; reflexivity).
  vm_compute. split; discriminate.
Defined.

(** A chain of another rule is answered in the same minute, although one answer
    for each address was meant; and the third block of an address, announced as
    seven days, is one of a day. *)
Example another_rule_answers :
  ((fun st => cooling st (chain_key demo_esc_chain "203.0.113.9") 600 (seconds 5060)) <$> demo_after_chain = Some true) /\
  ((fun st => cooling st (chain_key {| at_chain_id := "c2"; at_rule_id := "CL-001"; at_rule_name := ""; at_start_ts := 0; at_last_ts := 0; at_events := [];
     at_stages_matched := 2; at_stages_total := 2; at_confidence := f32_lit 9 10; at_layers := []; at_severity := High; at_summary := "" |}
     "203.0.113.9") 600 (seconds 5060)) <$> demo_after_chain = Some false) /\
  adaptive_block_ttl_secs 3 = 86400.
Proof. vm_compute. repeat split. Qed.

(** The decision on a chain is not in the graph: its incident is not there. *)
Example chain_decision_not_in_graph :
  (fun st => (size (kg_nodes (es_graph st)), length (kg_edges (es_graph st)))) <$> demo_after_chain =
  Some (size (kg_nodes demo_esc_graph), length (kg_edges demo_esc_graph)).
Proof. vm_compute. reflexivity. Qed.
