(* ===== verification/AgentNotify.v ===== *)
(** * AgentNotify: which alerts reach the operator at once
    (crates/agent/src/notification_gate.rs)

    Every automatic message passes one gate: an uncontained compromise or
    intrusion is sent, a contained threat is left to the daily briefing, a mere
    probe is dropped.  Contained threats are counted per hour; the fiftieth of a
    window sends one summary.  The calls of the tracker are atomic; the clock is
    an argument.  The knowledge graph, /etc/hostname and the network are
    arguments.

    Proved here: the gate's verdict exactly, and the burst tracker as a function
    of the calls of its window: one summary per window, at the fiftieth call,
    with the true counts of what was blocked. *)

From Stdlib Require Import ZArith Lia Ascii String.
From stdpp Require Import prelude strings list gmap sorting.
From S2P Require Import Prelude Text Json CoreTypes.

Local Open Scope string_scope.
Local Open Scope list_scope.
Local Open Scope Z_scope.

(** ** Contexts *)

Inductive NotificationVerdict := SendNow | DailyBriefingOnly | DropIt.

#[export] Instance notification_verdict_eq_dec : EqDecision NotificationVerdict.
Proof. solve_decision. Defined.

Record NotificationContext := {
  nc_severity : string;
  nc_detector : string;
  nc_outcome : string;
  nc_is_contained : bool;
  nc_is_active_intrusion : bool;
  nc_is_compromise : bool;
  nc_is_honeypot_probe : bool;
}.

Definition check_contained (outcome : string) : bool :=
  mem_str outcome ["blocked"; "killed"; "contained"; "suspended"; "auto_blocked"].

Definition extract_outcome (incident : Incident) : string :=
  match List.find (fun t => mem_str t ["blocked"; "killed"; "contained"; "suspended"]) (in_tags incident) with
  | Some tag => tag
  | None =>
      match get_str (in_evidence incident) "outcome" with
      | Some outcome => outcome
      | None =>
          match as_array (in_evidence incident) with
          | Some arr => default "open" (head (omap (fun e => get_str e "outcome") arr))
          | None => "open"
          end
      end
  end.

Definition tagged (incident : Incident) (names : list string) : bool :=
  any (fun t => mem_str t names) (in_tags incident).

Definition is_critical (s : Severity) : bool := bool_decide (s = Critical).

Definition from_incident (incident : Incident) : NotificationContext :=
  let detector := first_piece ":" (in_incident_id incident) in
  let outcome := extract_outcome incident in
  let critical := is_critical (in_severity incident) in
  let has_multi_stage := any (fun t => contains "killchain" t) (in_tags incident) || starts_with "killchain" detector in
  let has_privesc := tagged incident ["privesc"; "privilege_escalation"] in
  let has_persistence := tagged incident ["persistence"] in
  let has_lateral := tagged incident ["lateral_movement"] in
  {| nc_severity := severity_text (in_severity incident); nc_detector := detector; nc_outcome := outcome;
     nc_is_contained := check_contained outcome;
     nc_is_active_intrusion :=
       critical && (has_multi_stage || (has_privesc && has_persistence) || (has_privesc && has_lateral));
     nc_is_compromise :=
       critical && tagged incident ["data_exfiltration"; "persistence"; "data_exfil"; "exfiltration"; "rootkit"];
     nc_is_honeypot_probe := String.eqb detector "honeypot" && tagged incident ["probe"; "probe_only"] |}.

Definition from_killchain_json (inc : Json) : NotificationContext :=
  let severity := default "medium" (get_str inc "severity") in
  let pattern := default "unknown" (e ← get inc "evidence"; get_str e "pattern") in
  let outcome := default "open" (get_str inc "outcome") in
  let critical := String.eqb severity "critical" in
  let stage_count := default 0 (e ← get inc "evidence"; f ← get_u64 e "flags"; Some (count_ones (wrap 32 f))) in
  {| nc_severity := severity; nc_detector := "killchain." +:+ pattern; nc_outcome := outcome;
     nc_is_contained := check_contained outcome;
     nc_is_active_intrusion := critical && (3 <=? stage_count);
     nc_is_compromise := critical && (String.eqb pattern "data_exfil" || String.eqb pattern "full_exploit");
     nc_is_honeypot_probe := false |}.

Definition from_shield_json (inc : Json) : NotificationContext :=
  let severity := default "low" (get_str inc "severity") in
  let outcome := default "blocked" (get_str inc "outcome") in
  let contained := check_contained outcome in
  {| nc_severity := severity; nc_detector := "shield"; nc_outcome := outcome; nc_is_contained := contained;
     nc_is_active_intrusion := String.eqb severity "critical" && negb contained; nc_is_compromise := false;
     nc_is_honeypot_probe := false |}.

Definition from_firmware_or_hypervisor (inc : Incident) (detector_label : string) : NotificationContext :=
  {| nc_severity := severity_text (in_severity inc); nc_detector := detector_label; nc_outcome := "monitoring";
     nc_is_contained := false; nc_is_active_intrusion := false;
     nc_is_compromise := is_critical (in_severity inc) &&
       tagged inc ["rootkit"; "firmware_tampering"; "msr_write"; "spi_flash"];
     nc_is_honeypot_probe := false |}.

Definition for_mesh_block : NotificationContext :=
  {| nc_severity := "medium"; nc_detector := "mesh"; nc_outcome := "blocked"; nc_is_contained := true;
     nc_is_active_intrusion := false; nc_is_compromise := false; nc_is_honeypot_probe := false |}.

Definition for_advisory_ignored (risk_score : Z) : NotificationContext :=
  {| nc_severity := if 80 <=? risk_score then "critical" else if 60 <=? risk_score then "high" else "medium";
     nc_detector := "advisory"; nc_outcome := "open"; nc_is_contained := false;
     nc_is_active_intrusion := 80 <=? risk_score; nc_is_compromise := false; nc_is_honeypot_probe := false |}.

Definition for_honeypot_session (is_probe_only auto_blocked : bool) : NotificationContext :=
  {| nc_severity := "low"; nc_detector := "honeypot"; nc_outcome := if auto_blocked then "blocked" else "monitoring";
     nc_is_contained := auto_blocked; nc_is_active_intrusion := false; nc_is_compromise := false;
     nc_is_honeypot_probe := is_probe_only |}.

Definition for_autofp_suggestion : NotificationContext :=
  {| nc_severity := "info"; nc_detector := "autofp"; nc_outcome := "monitoring"; nc_is_contained := false;
     nc_is_active_intrusion := false; nc_is_compromise := false; nc_is_honeypot_probe := false |}.

(** ** The gate *)

Definition evaluate_verdict (ctx : NotificationContext) : NotificationVerdict :=
  if nc_is_compromise ctx && negb (nc_is_contained ctx) then SendNow
  else if nc_is_active_intrusion ctx && negb (nc_is_contained ctx) then SendNow
  else if nc_is_contained ctx then DailyBriefingOnly
  else if nc_is_honeypot_probe ctx then DropIt
  else DailyBriefingOnly.

Definition should_notify (ctx : NotificationContext) : NotificationVerdict := evaluate_verdict ctx.

Definition should_notify_with_counter (ctx : NotificationContext) (gate_suppressed_total : Z)
  : Z * NotificationVerdict :=
  let verdict := evaluate_verdict ctx in
  (match verdict with SendNow => gate_suppressed_total | _ => wrapping_add 64 gate_suppressed_total 1 end, verdict).

(** ** Bursts *)

Record BurstSummary := {
  bs_host : string;
  bs_total : Z;
  bs_top_categories : list (string * Z);
  bs_distinct_sources : nat;
}.

Record BurstTracker := {
  bt_contained_count : Z;
  bt_categories : gmap string Z;
  bt_sources : gset string;
  bt_window_start : Z;
  bt_summary_sent : bool;
}.

Definition BURST_THRESHOLD : Z := 50.
Definition BURST_WINDOW_SECS : Z := 3600.

Definition BurstTracker_new (now : Z) : BurstTracker :=
  {| bt_contained_count := 0; bt_categories := ∅; bt_sources := ∅; bt_window_start := now; bt_summary_sent := false |}.

(** Count descending, then name ascending. *)
Definition category_le (a b : string * Z) : Prop := b.2 < a.2 \/ (a.2 = b.2 /\ str_le a.1 b.1).
#[export] Instance category_le_dec : RelDecision category_le.
Proof. intros a b. unfold category_le. apply _. Defined.

Definition snapshot (t : BurstTracker) (total : Z) : BurstSummary :=
  {| bs_host := ""; bs_total := total;
     bs_top_categories := take 3 (merge_sort category_le (map_to_list (bt_categories t)));
     bs_distinct_sources := size (bt_sources t) |}.

Definition reset_window (t : BurstTracker) (now : Z) : BurstTracker :=
  if BURST_WINDOW_SECS <=? num_seconds (now - bt_window_start t) then BurstTracker_new now else t.

Definition record_contained (t : BurstTracker) (now : Z) (category : string) (source_ip : option string)
  : BurstTracker * option BurstSummary :=
  let t := reset_window t now in
  let categories := <[category := wrapping_add 64 (default 0 (bt_categories t !! category)) 1]> (bt_categories t) in
  let sources := match source_ip with
                 | Some ip => if String.eqb ip "" then bt_sources t else {[ip]} ∪ bt_sources t
                 | None => bt_sources t
                 end in
  let count := wrapping_add 64 (bt_contained_count t) 1 in
  let fires := (BURST_THRESHOLD <=? count) && negb (bt_summary_sent t) in
  let t' := {| bt_contained_count := count; bt_categories := categories; bt_sources := sources;
               bt_window_start := bt_window_start t;
               bt_summary_sent := (BURST_THRESHOLD <=? count) || bt_summary_sent t |} in
  (t', if fires then Some (snapshot t' count) else None).

Definition burst_category (detector : string) : string :=
  let d := to_ascii_lowercase detector in
  let has := any (fun needle => contains needle d) in
  if has ["data_exfil"; "exfiltration"; "exfil"] then "Data-exfiltration attempts"
  else if has ["container_escape"; "privesc"; "privilege_escalation"; "setns"; "kernel_module"; "escape"]
  then "Privilege-escalation / escape"
  else if has ["reverse_shell"; "web_shell"; "exploit_c2"; "c2_"; "c2"; "process_injection"; "fileless"; "exploit"]
  then "Exploit / C2 attempts"
  else if has ["ssh_bruteforce"; "credential_stuffing"; "distributed_ssh"; "brute"]
  then "Password-guessing (brute force)"
  else if has ["port_scan"; "web_scan"; "nmap"; "wordlist"; "user_agent_scanner"; "discovery"; "scan"]
  then "Scans & probes"
  else if has ["flood"; "syn"; "packet"; "shield"; "ddos"; "rate"] then "DDoS / flood"
  else "Other suspicious activity".

Definition format_burst_summary (host : string) (s : BurstSummary) : string :=
  let prefix := if String.eqb host "" then "" else "[" +:+ escape_html host +:+ "] " in
  let nl2 := String nl (String nl "") in
  "🛡️ <b>" +:+ prefix +:+ "Under attack — auto-contained</b>" +:+ nl2 +:+
  "Blocked <b>" +:+ show (bs_total s) +:+ "+</b> attack attempts in the last hour — all stopped automatically, nothing got through." +:+ nl2 +:+
  match bs_top_categories s with
  | [] => ""
  | cats =>
      "<b>What hit you</b>" +:+ String nl "" +:+
      foldr String.append "" ((fun cn => "• " +:+ escape_html cn.1 +:+ " — " +:+ show cn.2 +:+ String nl "") <$> cats) +:+
      (if (0 <? bs_distinct_sources s)%nat
       then "From ~" +:+ show (Z.of_nat (bs_distinct_sources s)) +:+ " different IPs." +:+ String nl "" else "") +:+
      String nl ""
  end +:+
  "<b>Should you worry?</b> No — your defenses caught all of it. This is the normal background noise of any internet-facing server: automated bots constantly scan and probe the whole internet; it is almost never aimed at you specifically." +:+ nl2 +:+
  "You only get this alert when blocks spike past 50/hour. The full list of IPs + detectors is in the daily briefing.".

(** [graph_label] is the label of the graph's system node, [hostname] the text of
    /etc/hostname, where they can be read. *)
Definition resolve_host_id (tags : list string) (graph_label hostname : option string) : string :=
  match List.find (fun t => negb (String.eqb (trim t) "")) tags with
  | Some first => trim first
  | None =>
      let label := trim <$> graph_label in
      match label with
      | Some l => if negb (String.eqb l "") && negb (String.eqb l "unknown") then l else
          match trim <$> hostname with Some h => if String.eqb h "" then "this server" else h | None => "this server" end
      | None => match trim <$> hostname with Some h => if String.eqb h "" then "this server" else h | None => "this server" end
      end
  end.

(** One alert through the gate: the tracker, the deferred counts, whether it is
    sent now, the summaries sent and the verdict. *)
Definition bump (m : gmap string Z) (k : string) : gmap string Z :=
  <[k := wrapping_add 32 (default 0 (m !! k)) 1]> m.

Definition gate_and_send (ctx : NotificationContext) (now : Z) (t : BurstTracker) (deferred : gmap string Z)
  : BurstTracker * gmap string Z * bool * list string * NotificationVerdict :=
  match should_notify ctx with
  | SendNow => (t, deferred, true, [], SendNow)
  | DailyBriefingOnly =>
      let deferred := bump deferred (nc_detector ctx) in
      if nc_is_contained ctx then
        let '(t, s) := record_contained t now (burst_category (nc_detector ctx)) None in
        (t, deferred, false, match s with Some s => [format_burst_summary "" s] | None => [] end, DailyBriefingOnly)
      else (t, deferred, false, [], DailyBriefingOnly)
  | DropIt => (t, deferred, false, [], DropIt)
  end.

(** ** The gate, exactly *)

(** A message is sent at once exactly for an uncontained compromise or
    intrusion, and dropped exactly when it is an uncontained probe that is
    neither; the counter counts everything that is not sent. *)
Theorem verdict_exact (ctx : NotificationContext) (n : Z) :
  let threat := nc_is_compromise ctx || nc_is_active_intrusion ctx in
  let '(n', v) := should_notify_with_counter ctx n in
  v = should_notify ctx /\
  (v = SendNow <-> threat = true /\ nc_is_contained ctx = false) /\
  (v = DropIt <-> threat = false /\ nc_is_contained ctx = false /\ nc_is_honeypot_probe ctx = true) /\
  n' = if bool_decide (v = SendNow) then n else wrapping_add 64 n 1.
Proof.
  destruct ctx as [sev det out c i m h]. unfold should_notify_with_counter, should_notify, evaluate_verdict. cbn.
  destruct c, i, m, h; cbn; repeat split; try done; try (by intros []); naive_solver.
Qed.

(** ** The burst tracker *)

Record BurstCall := { bc_now : Z; bc_category : string; bc_source : option string }.

Definition burst_run (t : BurstTracker) (calls : list BurstCall) : BurstTracker :=
  foldl (fun t c => (record_contained t (bc_now c) (bc_category c) (bc_source c)).1) t calls.

(** The calls of the current window, and its start: a call an hour or more
    after the start opens the next window. *)
Definition window_step (w : Z * list BurstCall) (c : BurstCall) : Z * list BurstCall :=
  if BURST_WINDOW_SECS <=? num_seconds (bc_now c - w.1) then (bc_now c, [c]) else (w.1, w.2 ++ [c]).
Definition window_of (start : Z) (calls : list BurstCall) : Z * list BurstCall := foldl window_step (start, []) calls.

Definition occurrences (category : string) (calls : list BurstCall) : Z :=
  Z.of_nat (length (retain (fun c => String.eqb (bc_category c) category) calls)).
Definition source_set (calls : list BurstCall) : gset string :=
  list_to_set (retain (fun ip => negb (String.eqb ip "")) (omap bc_source calls)).

Record burst_ok (start : Z) (cur : list BurstCall) (t : BurstTracker) : Prop := {
  bo_count : bt_contained_count t = Z.of_nat (length cur);
  bo_categories : forall c, bt_categories t !! c = if occurrences c cur =? 0 then None else Some (occurrences c cur);
  bo_sources : bt_sources t = source_set cur;
  bo_start : bt_window_start t = start;
  bo_sent : bt_summary_sent t = (BURST_THRESHOLD <=? Z.of_nat (length cur));
}.

(** What a summary says of the calls [cur]. *)
Record summary_of (cur : list BurstCall) (s : BurstSummary) : Prop := {
  so_total : bs_total s = Z.of_nat (length cur);
  so_sources : bs_distinct_sources s = size (source_set cur);
  so_top : exists ranking, bs_top_categories s = take 3 ranking /\ StronglySorted category_le ranking /\
    NoDup ranking.*1 /\ forall c n, (c, n) ∈ ranking <-> n = occurrences c cur /\ 0 < n;
}.

#[export] Instance category_le_total : Total category_le.
Proof.
  intros [a n] [b k]. unfold category_le. cbn. destruct (Z.lt_trichotomy n k) as [?|[->|?]]; [by right; left| |by left; left].
  destruct (total str_le a b); [left|right]; by right.
Qed.
#[export] Instance category_le_trans : Transitive category_le.
Proof.
  intros [a n] [b k] [c m]. unfold category_le. cbn. intros [?|[-> ?]] [?|[-> ?]]; try (left; lia). right. split; [done|].
  by etrans.
Qed.

Lemma occurrences_snoc c cur x :
  occurrences c (cur ++ [x]) = occurrences c cur + (if String.eqb (bc_category x) c then 1 else 0).
Proof.
  unfold occurrences, retain. rewrite List.filter_app, length_app. cbn. destruct (String.eqb (bc_category x) c); cbn; lia.
Qed.

Lemma occurrences_le c cur : 0 <= occurrences c cur <= Z.of_nat (length cur).
Proof. unfold occurrences. pose proof (retain_length (fun x => String.eqb (bc_category x) c) cur). lia. Qed.

Lemma source_set_snoc cur x :
  source_set (cur ++ [x]) = match bc_source x with
                            | Some ip => if String.eqb ip "" then source_set cur else {[ip]} ∪ source_set cur
                            | None => source_set cur
                            end.
Proof.
  unfold source_set. rewrite omap_app. unfold retain. rewrite List.filter_app, list_to_set_app_L. cbn.
  destruct (bc_source x) as [ip|]; cbn; [|set_solver]. destruct (String.eqb ip ""); cbn; set_solver.
Qed.

Lemma burst_ok_new start : burst_ok start [] (BurstTracker_new start).
Proof. split; done. Qed.

Lemma reset_ok start cur t c : burst_ok start cur t ->
  let w := window_step (start, cur) c in
  exists cur0, w.2 = cur0 ++ [c] /\ burst_ok w.1 cur0 (reset_window t (bc_now c)).
Proof.
  intros H. unfold window_step, reset_window. cbn [fst snd]. rewrite (bo_start _ _ _ H).
  destruct (BURST_WINDOW_SECS <=? _); cbn [fst snd].
  - exists []. split; [done|]. apply burst_ok_new.
  - by exists cur.
Qed.

Lemma snapshot_ok start cur t : burst_ok start cur t -> summary_of cur (snapshot t (Z.of_nat (length cur))).
Proof.
  intros [Hc Hk Hs _ _]. split; [done|by cbn; rewrite Hs|]. cbn.
  exists (merge_sort category_le (map_to_list (bt_categories t))).
  pose proof (merge_sort_Permutation category_le (map_to_list (bt_categories t))) as Hp.
  split; [done|]. split; [apply (StronglySorted_merge_sort category_le)|]. split.
  - rewrite Hp. apply NoDup_fst_map_to_list.
  - intros c n. rewrite Hp, elem_of_map_to_list, Hk. pose proof (occurrences_le c cur).
    destruct (Z.eqb_spec (occurrences c cur) 0); split; [done|lia|intros [= <-]; lia|]. by intros [-> _].
Qed.

(** One call: the tracker follows the window, and the summary is sent exactly
    when the window reaches the threshold. *)
Lemma record_ok start cur t c : burst_ok start cur t -> Z.of_nat (length cur) + 1 < 2 ^ 64 ->
  let w := window_step (start, cur) c in
  let '(t', s) := record_contained t (bc_now c) (bc_category c) (bc_source c) in
  burst_ok w.1 w.2 t' /\
  match s with
  | Some s => Z.of_nat (length w.2) = BURST_THRESHOLD /\ summary_of w.2 s
  | None => Z.of_nat (length w.2) <> BURST_THRESHOLD
  end.
Proof.
  intros H Hlen. destruct (reset_ok start cur t c H) as (cur0 & Ew & H0). cbn zeta.
  assert (Hlen0 : Z.of_nat (length cur0) + 1 < 2 ^ 64).
  { assert (length (window_step (start, cur) c).2 <= length cur + 1)%nat.
    { unfold window_step. cbn. destruct (BURST_WINDOW_SECS <=? _); cbn; [lia|]. rewrite length_app. cbn. lia. }
    rewrite Ew, length_app in H1. cbn in H1. lia. }
  unfold record_contained. set (t0 := reset_window t (bc_now c)) in *. set (w := window_step (start, cur) c) in *.
  destruct H0 as [Hc Hk Hs Hst Hse].
  assert (Ecount : wrapping_add 64 (bt_contained_count t0) 1 = Z.of_nat (length w.2)).
  { rewrite Hc, Ew, length_app. cbn [length]. rewrite wrapping_add_small; [lia|]. unfold in_width. lia. }
  rewrite Ecount, Hse.
  assert (Hlen2 : Z.of_nat (length w.2) = Z.of_nat (length cur0) + 1) by (rewrite Ew, length_app; cbn; lia).
  set (t' := {| bt_contained_count := _ |}).
  assert (Hok : burst_ok w.1 w.2 t').
  { split; [done| | |done|].
    - intros k. cbn [bt_categories t']. rewrite Ew, occurrences_snoc. pose proof (occurrences_le k cur0).
      destruct (String.eqb_spec (bc_category c) k) as [<-|Hne].
      + rewrite lookup_insert_eq, Hk.
        assert (default 0 (if occurrences (bc_category c) cur0 =? 0 then None else Some (occurrences (bc_category c) cur0))
          = occurrences (bc_category c) cur0) as -> by (destruct (Z.eqb_spec (occurrences (bc_category c) cur0) 0); cbn; lia).
        rewrite wrapping_add_small by (unfold in_width; lia).
        by rewrite (proj2 (Z.eqb_neq (occurrences (bc_category c) cur0 + 1) 0)) by lia.
      + rewrite lookup_insert_ne by done. by rewrite Hk, Z.add_0_r.
    - cbn [bt_sources t']. rewrite Ew, source_set_snoc, Hs. done.
    - cbn [bt_summary_sent t']. apply eq_bool_prop_intro. rewrite !Is_true_true, orb_true_iff, !Z.leb_le. lia. }
  split; [exact Hok|].
  destruct (Z.leb_spec BURST_THRESHOLD (Z.of_nat (length w.2))), (Z.leb_spec BURST_THRESHOLD (Z.of_nat (length cur0))); cbn; try lia.
  split; [lia|]. eapply snapshot_ok. exact Hok.
Qed.

Lemma burst_run_ok start calls : Z.of_nat (length calls) < 2 ^ 64 ->
  burst_ok (window_of start calls).1 (window_of start calls).2 (burst_run (BurstTracker_new start) calls) /\
  (length (window_of start calls).2 <= length calls)%nat.
Proof.
  induction calls as [|c calls IH] using rev_ind; intros Hlen; [split; [apply burst_ok_new|done]|].
  rewrite length_app in Hlen. cbn in Hlen. destruct IH as [IH Hle]; [lia|].
  unfold burst_run, window_of in *. rewrite !foldl_snoc.
  set (w := foldl window_step (start, []) calls) in *. set (t := foldl _ (BurstTracker_new start) calls) in *.
  pose proof (record_ok w.1 w.2 t c IH) as Hr. rewrite <- surjective_pairing in Hr.
  destruct (record_contained t _ _ _) as [t' s]. cbn zeta in Hr. destruct Hr as [Hr _]; [lia|]. split; [exact Hr|].
  rewrite length_app. unfold window_step. destruct (BURST_WINDOW_SECS <=? _); cbn; rewrite ?length_app; cbn; lia.
Qed.

(** After any calls, the next one sends a summary exactly when it is the
    fiftieth of its window, so at most once in a window; the summary counts the
    calls of the window, its distinct sources, and names its three most frequent
    categories with their true numbers, in order. *)
Theorem burst_summary_exact (start : Z) (calls : list BurstCall) (c : BurstCall) :
  Z.of_nat (length calls) + 1 < 2 ^ 64 ->
  let cur := (window_of start (calls ++ [c])).2 in
  let s := (record_contained (burst_run (BurstTracker_new start) calls) (bc_now c) (bc_category c) (bc_source c)).2 in
  match s with
  | Some s => Z.of_nat (length cur) = BURST_THRESHOLD /\ summary_of cur s
  | None => Z.of_nat (length cur) <> BURST_THRESHOLD
  end.
Proof.
  intros Hlen. cbn zeta. destruct (burst_run_ok start calls) as [H Hle]; [lia|].
  pose proof (record_ok _ _ _ c H) as Hr. rewrite <- surjective_pairing in Hr.
  unfold window_of in *. rewrite foldl_snoc.
  destruct (record_contained (burst_run _ calls) _ _ _) as [t' s]. cbn zeta in Hr. destruct Hr as [_ Hr]; [lia|]. exact Hr.
Qed.

Definition demo_calls : list BurstCall :=
  (fun k => {| bc_now := seconds k; bc_category := if k mod 3 =? 0 then "Scans & probes" else "DDoS / flood";
               bc_source := if k mod 2 =? 0 then Some "203.0.113.7" else None |}) <$> seqZ 1 49.

Definition demo_call : BurstCall :=
  {| bc_now := seconds 50; bc_category := "DDoS / flood"; bc_source := Some "198.51.100.2" |}.
Definition demo_summary : BurstSummary :=
  {| bs_host := ""; bs_total := 50; bs_top_categories := [("DDoS / flood", 34); ("Scans & probes", 16)];
     bs_distinct_sources := 2 |}.

Theorem burst_summary_exact_witness :
  (record_contained (burst_run (BurstTracker_new 0) demo_calls) (bc_now demo_call) (bc_category demo_call)
    (bc_source demo_call)).2 = Some demo_summary /\
  summary_of (window_of 0 (demo_calls ++ [demo_call])).2 demo_summary.
Proof.
  assert (E : (record_contained (burst_run (BurstTracker_new 0) demo_calls) (bc_now demo_call) (bc_category demo_call)
    (bc_source demo_call)).2 = Some demo_summary) by (vm_compute; reflexivity).
  assert (Hlen : Z.of_nat (length demo_calls) + 1 < 2 ^ 64) by (vm_compute; reflexivity).
  split; [exact E|].
  pose proof (burst_summary_exact 0 demo_calls demo_call Hlen) as H. cbn zeta in H. rewrite E in H. exact (proj2 H).
Defined.
