(* ===== verification/AgentKillchain.v ===== *)
(** * AgentKillchain: what the agent does with kill chains
    (crates/agent/src/killchain_inline.rs, with the tick of loops/slow_loop.rs
    and crates/killchain/src/detector.rs)

    The slow loop feeds the events of a tick to the tracker of
    KillChainTracker.v, and the incidents to the correlation engine; it
    registers the processes with the kernel, unless a managed agent is verified,
    writes the incidents, dismisses those of the operator and of system tools,
    blocks the addresses of strong patterns without asking the AI, and notifies
    the operator through the gate of AgentNotify.v.  Reading an incident back
    from JSON is an argument; so are the decisions on file and the name of the
    host.  Log lines are left out.

    Proved here: what is dismissed and what is blocked, exactly; strong patterns
    are never dismissed and a dismissed incident is never blocked in the same
    tick; every process of an incident is registered unless it is a verified
    managed agent in one of two patterns.  And three defects of the composition:
    no kill chain is ever notified at once, a warning of a chain that is only
    forming is blocked like a complete one, and a web server counts as a package
    fetcher. *)

From Stdlib Require Import ZArith Lia Ascii String SpecFloat.
From stdpp Require Import prelude strings list gmap.
From S2P Require Import Prelude Text Json Floats CoreTypes KillChain KillChainTracker StoreKv AgentCooldown.
From S2P Require Import AgentSafelist AgentSafeguards AgentBreaker GuardRegistry AgentManaged AgentBlock AgentNotify.
From S2P Require Import AgentCorrelation AgentAllowlist AgentGate AgentLifecycle StoreDecisions GuardThreats.

Local Open Scope string_scope.
Local Open Scope list_scope.
Local Open Scope Z_scope.

Definition eq_ignore_ascii_case (a b : string) : bool := String.eqb (to_ascii_lowercase a) (to_ascii_lowercase b).

Definition or_null (v : option Json) : Json := default JNull v.
Definition jstrs (l : list string) : Json := JArr (JStr <$> l).

(** ** detector.rs *)

Section Detector.
Context `{Chrono}.

(** The name of a pattern, which is ASCII. *)
Definition pattern_upper (flags : Z) : string := to_ascii_uppercase (default "unknown" (best_match flags)).

Definition timeline_of (events : list ChainEvent) : Json :=
  JArr ((fun ev => JObj [("ts", JStr (to_rfc3339 (KillChainTracker.ce_ts ev))); ("syscall", JStr (ce_syscall ev));
                         ("details", KillChainTracker.ce_details ev); ("flag_set", JInt (ce_flag_set ev))]) <$> events).

(** [Vec::dedup]. *)
Fixpoint dedup_adjacent (l : list string) : list string :=
  match l with
  | x :: ((y :: _) as r) => if String.eqb x y then dedup_adjacent r else x :: dedup_adjacent r
  | _ => l
  end.

Definition blocked_incident (state : PidChainState) (pid uid : Z) (comm filename ts host : string) : Json :=
  let pattern_name := pattern_upper (cs_flags state) in
  let c2_ip := default "unknown" (cs_last_connect_ip state) in
  let known := negb (String.eqb c2_ip "unknown") in
  JObj [
    ("ts", JStr ts); ("host", JStr host);
    ("incident_id", JStr ("kill_chain:blocked:" +:+ pattern_name +:+ ":" +:+ show pid +:+ ":" +:+ ts));
    ("severity", JStr "critical");
    ("title", JStr ("Kill chain BLOCKED: " +:+ pattern_name +:+ " (PID " +:+ show pid +:+ ", " +:+ comm +:+ ")"));
    ("summary", JStr ("Kernel LSM blocked execve() for PID " +:+ show pid +:+ " (" +:+ comm +:+ ") after detecting " +:+
       pattern_name +:+ " pattern. The process was denied execution of " +:+ filename +:+ "."));
    ("evidence", JArr [JObj [
       ("kind", JStr "kill_chain_blocked"); ("pattern", JStr pattern_name); ("pid", JInt pid); ("uid", JInt uid);
       ("comm", JStr comm); ("filename", JStr filename); ("chain_flags", JStr ("0x" +:+ show_hex02 (cs_flags state)));
       ("chain_bits", jstrs (to_ascii_uppercase <$> flag_names (cs_flags state))); ("c2_ip", JStr c2_ip);
       ("c2_port", JInt (default 0 (cs_last_connect_port state))); ("timeline", timeline_of (cs_events state))]]);
    ("recommended_checks", jstrs (["Investigate process tree: pstree -p " +:+ show pid] ++
       (if known then ["Block C2 IP: innerwarden block " +:+ c2_ip] else []) ++
       ["Check for lateral movement from this host"; "Review user account uid=" +:+ show uid +:+ " for compromise"]));
    ("tags", jstrs (dedup_adjacent ["kill_chain"; "lsm_blocked"; to_ascii_lowercase pattern_name; "ebpf"]));
    ("entities", JArr (if known then [JObj [("type", JStr "ip"); ("value", JStr c2_ip)]] else []))].

Definition unknown_blocked_incident (pid uid : Z) (comm filename ts host : string) : Json :=
  JObj [
    ("ts", JStr ts); ("host", JStr host);
    ("incident_id", JStr ("kill_chain:blocked:UNKNOWN:" +:+ show pid +:+ ":" +:+ ts));
    ("severity", JStr "critical");
    ("title", JStr ("Kill chain BLOCKED: UNKNOWN (PID " +:+ show pid +:+ ", " +:+ comm +:+ ")"));
    ("summary", JStr ("Kernel LSM blocked execve() for PID " +:+ show pid +:+ " (" +:+ comm +:+
       ") but no chain state was found in the tracker. The process was denied execution of " +:+ filename +:+ "."));
    ("evidence", JArr [JObj [
       ("kind", JStr "kill_chain_blocked"); ("pattern", JStr "UNKNOWN"); ("pid", JInt pid); ("uid", JInt uid);
       ("comm", JStr comm); ("filename", JStr filename); ("chain_flags", JStr "0x00"); ("chain_bits", JArr []);
       ("c2_ip", JNull); ("c2_port", JNull); ("timeline", JArr [])]]);
    ("recommended_checks", jstrs ["Investigate process tree: pstree -p " +:+ show pid;
       "Check for lateral movement from this host"; "Review user account uid=" +:+ show uid +:+ " for compromise"]);
    ("tags", jstrs ["kill_chain"; "lsm_blocked"; "ebpf"]);
    ("entities", JArr [])].

Definition process_lsm_blocked (event : Json) (tracker : PidTracker) : option Json :=
  kind ← get_str event "kind";
  if negb (String.eqb kind "lsm.exec_blocked") then None
  else
    details ← get event "details";
    filename ← get_str details "filename";
    if negb (contains "KILL_CHAIN_BLOCKED" filename) then None
    else
      pid ← get_u64 details "pid";
      uid ← get_u64 details "uid";
      comm ← get details "comm";
      let pid := wrap 32 pid in
      let uid := wrap 32 uid in
      let comm := default "unknown" (as_str comm) in
      let ts := default "unknown" (get_str event "ts") in
      let host := default "unknown" (get_str event "host") in
      Some (match get_state tracker pid with
            | Some state => blocked_incident state pid uid comm filename ts host
            | None => unknown_blocked_incident pid uid comm filename ts host
            end).
End Detector.

(** ** Events *)

Definition KILLCHAIN_SELF_EXCLUDED_COMMS : list string :=
  ["tokio-rt-worker"; "innerwarden-age"; "innerwarden-sen"; "innerwarden-wat"].

Definition evidence_obj (inc : Json) : option Json :=
  e ← get inc "evidence";
  match e with JArr arr => head arr | JObj _ => Some e | _ => None end.

Definition ev_str (inc : Json) (key : string) : option string := ev ← evidence_obj inc; get_str ev key.

Section Events.
Context `{Chrono}.

Definition event_to_tracker_json (event : Event) : Json :=
  JObj [("kind", JStr (ev_kind event)); ("source", JStr (ev_source event)); ("host", JStr (ev_host event));
        ("ts", JStr (to_rfc3339 (ev_ts event))); ("details", ev_details event)].

Definition with_incident_id (e : CorrelationEvent) (id : option string) : CorrelationEvent :=
  {| ce_ts := ce_ts e; ce_layer := ce_layer e; ce_source := ce_source e; ce_kind := ce_kind e;
     ce_severity := ce_severity e; ce_entities := ce_entities e; ce_details := ce_details e;
     ce_incident_id := default (ce_incident_id e) id |}.

Definition chain_event (now : Z) (inc : Json) : CorrelationEvent :=
  let pattern := default "unknown" (ev_str inc "pattern") in
  with_incident_id
    (killchain_event now ("killchain." +:+ pattern)
       (JObj [("pattern", JStr pattern); ("severity", JStr (default "medium" (get_str inc "severity")));
              ("pid", or_null (ev ← evidence_obj inc; get ev "pid"))]))
    (get_str inc "incident_id").

Definition lsm_chain_event (now : Z) (inc : Json) : CorrelationEvent :=
  let pattern := default "unknown" (ev_str inc "pattern") in
  with_incident_id
    (killchain_event now ("killchain.blocked." +:+ pattern)
       (JObj [("pattern", JStr pattern); ("severity", JStr "critical");
              ("pid", or_null (ev ← evidence_obj inc; get ev "pid")); ("lsm_blocked", JBool true)]))
    (get_str inc "incident_id").

Definition observe_all (pick : PendingChain -> option string) (en : CorrelationEngine) (l : list CorrelationEvent)
  : option CorrelationEngine :=
  foldl (fun o e => en ← o; observe pick en e) (Some en) l.

(** The tracker, the engine, the processes to forget in the kernel and the
    incidents; [None] is a panic of the engine. *)
Record EventPass := { ep_tracker : PidTracker; ep_engine : CorrelationEngine; ep_exited : list Z; ep_incidents : list Json }.

Definition one_event (pick : PendingChain -> option string) (now : Z) (p : EventPass) (event : Event) : option EventPass :=
  let exited := if String.eqb (ev_kind event) "process.exit"
                then match get_u64 (ev_details event) "pid" with Some pid => [wrap 32 pid] | None => [] end else [] in
  let json := event_to_tracker_json event in
  let '(tracker, incidents) := process_event (ep_tracker p) now json in
  engine ← observe_all pick (ep_engine p) (chain_event now <$> incidents);
  let lsm := if String.eqb (ev_kind event) "lsm.exec_blocked" then process_lsm_blocked json tracker else None in
  engine ← observe_all pick engine (match lsm with Some i => [lsm_chain_event now i] | None => [] end);
  Some {| ep_tracker := tracker; ep_engine := engine; ep_exited := ep_exited p ++ exited;
          ep_incidents := ep_incidents p ++ incidents ++ match lsm with Some i => [i] | None => [] end |}.

Definition killchain_process_events (pick : PendingChain -> option string) (now : Z) (tracker : PidTracker)
  (engine : CorrelationEngine) (events : list Event) : option EventPass :=
  foldl (fun o e => p ← o; one_event pick now p e)
    (Some {| ep_tracker := tracker; ep_engine := engine; ep_exited := []; ep_incidents := [] |}) events.
End Events.

(** ** The kernel block *)

Definition MANAGED_AGENT_GATED_PATTERNS : list string := ["data_exfil"; "exploit_c2"].
Definition is_managed_agent_gated_pattern (pattern : string) : bool :=
  any (eq_ignore_ascii_case pattern) MANAGED_AGENT_GATED_PATTERNS.

Section KernelBlocks.
Context `{Lowercase} `{ProcResolver}.

Definition evaluate_kernel_block_withhold (ev : Json) (registry : Registry) (sigindex : SignatureIndex)
  : option (string * string) :=
  pid ← get_u64 ev "pid";
  let pattern := default "" (get_str ev "pattern") in
  if negb (is_managed_agent_gated_pattern pattern) then None
  else
    let comm := default "" (get_str ev "comm") in
    let read_path := get_str ev "sensitive_file" in
    if eq_ignore_ascii_case pattern "data_exfil" && bool_decide (read_path = None) then None
    else match verify_managed_agent_self_activity (wrap 32 pid) comm read_path registry sigindex false with
         | Managed agent_id name => Some (agent_id, name)
         | NotManaged => None
         end.

(** The processes registered with the kernel, with the reason. *)
Definition register_one (registry : Registry) (sigindex : SignatureIndex) (inc : Json) : option (Z * string) :=
  ev ← evidence_obj inc;
  pid ← get_u64 ev "pid";
  match evaluate_kernel_block_withhold ev registry sigindex with
  | Some _ => None
  | None => Some (wrap 32 pid, "kill_chain:" +:+ default "" (get_str ev "pattern"))
  end.

Definition register_kernel_blocks (registry : Registry) (sigindex : SignatureIndex) (incidents : list Json)
  : list (Z * string) := omap (register_one registry sigindex) incidents.
End KernelBlocks.

(** ** Records *)

(** The rows of the incident table: what reads back with an identifier. *)
Definition write_incidents (from_value : Json -> option Incident) (incidents : list Json) : list Incident :=
  omap (fun inc => i ← from_value inc; if String.eqb (in_incident_id i) "" then None else Some i) incidents.

Definition STRONG_KILLCHAIN_PATTERNS : list string :=
  ["reverse_shell"; "bind_shell"; "code_inject"; "inject_shell"; "exploit_shell"; "exploit_c2"; "full_exploit"].
Definition is_strong_killchain_pattern (pattern : string) : bool :=
  any (eq_ignore_ascii_case pattern) STRONG_KILLCHAIN_PATTERNS.

Definition FAST_PATH_KILLCHAIN_PATTERNS : list string :=
  ["reverse_shell"; "bind_shell"; "code_inject"; "inject_shell"; "ebpf_reverse_shell"; "ebpf_bind_shell"].
Definition is_fast_path_killchain_pattern (pattern : string) : bool :=
  any (eq_ignore_ascii_case pattern) FAST_PATH_KILLCHAIN_PATTERNS.

Definition fast_path_extract_block_target (inc : Json) : option (string * string * string) :=
  arr ← get_array inc "evidence";
  ev ← head arr;
  pattern ← get_str ev "pattern";
  if negb (is_fast_path_killchain_pattern pattern) then None
  else
    c2_ip ← get_str ev "c2_ip";
    if String.eqb c2_ip "" then None
    else
      incident_id ← get_str inc "incident_id";
      if String.eqb incident_id "" then None else Some (pattern, c2_ip, incident_id).

Definition dismissal (now : Z) (host provider incident_id reason : string) (target_ip : option string) : DecisionEntry :=
  {| de_ts := now; de_incident_id := incident_id; de_host := host; de_ai_provider := provider;
     de_action_type := "dismiss"; de_target_ip := target_ip; de_target_user := None; de_skill_id := None;
     de_confidence := f32_of_Z 1; de_auto_executed := true; de_dry_run := false; de_reason := reason;
     de_estimated_threat := "none"; de_execution_result := "dismissed"; de_prev_hash := None;
     de_decision_layer := Some "killchain_fast_path" |}.

Definition operator_dismissal (now : Z) (host : string) (operator_ips : gset string) (inc : Json) : option DecisionEntry :=
  ev ← evidence_obj inc;
  target_ip ← get_str ev "c2_ip";
  if negb (bool_decide (target_ip ∈ operator_ips)) then None
  else
    let incident_id := default "" (get_str inc "incident_id") in
    let pattern := default "?" (get_str ev "pattern") in
    if String.eqb incident_id "" then None
    else if is_strong_killchain_pattern pattern then None
    else Some (dismissal now host "operator-session-fp" incident_id
      ("Auto-dismissed: kill chain " +:+ pattern +:+ " target IP matches an active operator SSH session (" +:+ target_ip +:+
       "). The operator's own shell tripped the socket+sensitive_read pattern; this is a known false positive on operator-initiated activity.")
      (Some target_ip)).

Definition dismiss_operator_session_incidents (now : Z) (host : string) (incidents : list Json)
  (operator_ips : gset string) : list DecisionEntry :=
  if bool_decide (operator_ips = ∅) then [] else omap (operator_dismissal now host operator_ips) incidents.

(** ** Traffic of the system itself *)

Definition BUILTIN_SELF_TRAFFIC_COMMS : list string :=
  ["ssh"; "scp"; "sftp"; "rsync"; "git"; "git-remote-"; "curl"; "wget"; "http"; "https"; "apt"; "apt-get"; "snap"; "snapd";
   "systemd-resolv"; "systemd-network"; "chronyd"; "ntpd"; "fwupdmgr"; "unattended-upgr"; "needrestart"; "cloud-init"].
Definition UID_AGNOSTIC_FETCHER_COMMS : list string :=
  ["apt"; "apt-get"; "snap"; "snapd"; "http"; "https"; "curl"; "wget"; "systemd-resolv"; "systemd-network"; "chronyd";
   "ntpd"; "fwupdmgr"; "unattended-upgr"; "needrestart"; "cloud-init"].

Definition matches_self_traffic_comm (comm : string) (list_ : list string) : bool :=
  if String.eqb comm "" then false else any (fun prefix => String.eqb comm prefix || starts_with prefix comm) list_.
Definition comm_is_uid_agnostic_fetcher (comm : string) : bool :=
  matches_self_traffic_comm comm UID_AGNOSTIC_FETCHER_COMMS.

Definition self_traffic_comms (extra : list string) : list string :=
  foldl (fun merged e => let t := trim e in
           if negb (String.eqb t "") && negb (mem_str t merged) then merged ++ [t] else merged)
    BUILTIN_SELF_TRAFFIC_COMMS extra.

Definition self_traffic_dismissal (now : Z) (host : string) (self_traffic_list : list string) (inc : Json)
  : option DecisionEntry :=
  arr ← get_array inc "evidence";
  ev ← head arr;
  let comm := default "" (get_str ev "comm") in
  let uid := default u64_max (get_u64 ev "uid") in
  let pid := default 0 (get_u64 ev "pid") in
  let pattern := default "?" (get_str ev "pattern") in
  let c2_ip := default "" (get_str ev "c2_ip") in
  if String.eqb comm "" then None
  else if negb (matches_self_traffic_comm comm self_traffic_list) then None
  else if negb (comm_is_uid_agnostic_fetcher comm || (uid =? 0) || (1000 <=? uid)) then None
  else
    let incident_id := default "" (get_str inc "incident_id") in
    if String.eqb incident_id "" then None
    else if is_strong_killchain_pattern pattern then None
    else Some (dismissal now host "self-traffic-fp" incident_id
      ("Auto-dismissed: kill chain " +:+ pattern +:+ " target " +:+ c2_ip +:+ " fired by process " +:+ comm +:+ " (PID " +:+
       show pid +:+ ", UID " +:+ show uid +:+ "). " +:+ comm +:+
       " is a known operator/system tool, not attacker activity (apt/snap update, ssh jump, git fetch, etc).")
      (if String.eqb c2_ip "" then None else Some c2_ip)).

Definition dismiss_self_traffic_incidents (now : Z) (host : string) (incidents : list Json) (self_traffic_list : list string)
  : list DecisionEntry := omap (self_traffic_dismissal now host self_traffic_list) incidents.

(** ** The fast path *)

Section FastPath.
Context {S : Type} `{KvStore S} `{!KvListing S} `{Calendar} `{Chrono} `{Lowercase} `{ProcResolver} `{BlockWorld}.

Definition fast_path_decision (cfg : BlockConfig) (pattern c2_ip : string) : AiDecision :=
  {| dc_action := ABlockIp c2_ip ("block-ip-" +:+ bc_block_backend cfg); dc_confidence := f32_of_Z 1;
     dc_auto_execute := true;
     dc_reason := "Fast-path: kill chain pattern `" +:+ pattern +:+ "` is in the deterministic-block set (reverse_shell / bind_shell / code_inject / inject_shell). The AI verdict for these is always `block_ip`; we shortcut the AI call to cut response time and stay resilient when the AI provider is degraded. Existing safeguards still apply: circuit breaker, rate limit, safelist, cloud-provider check, untouchable gate.";
     dc_alternatives := []; dc_estimated_threat := "critical" |}.

(** The block an incident asks for: address and incident. [decided] tells whether
    a decision is on file. *)
Definition fast_path_block (decided : string -> bool) (from_value : Json -> option Incident) (inc : Json)
  : option (string * string * Incident) :=
  '(pattern, c2_ip, incident_id) ← fast_path_extract_block_target inc;
  if decided incident_id then None
  else incident ← from_value inc; Some (pattern, c2_ip, incident).

Definition fast_path_block_strong_patterns (cfg : BlockConfig) (st : BlockState S) (decided : string -> bool)
  (from_value : Json -> option Incident) (incidents : list Json) (now : Z) (clk : string) : BlockState S :=
  foldl (fun st '(pattern, c2_ip, incident) =>
    (execute_block_ip_decision cfg st c2_ip ("block-ip-" +:+ bc_block_backend cfg) (fast_path_decision cfg pattern c2_ip)
       incident now clk).1) st (omap (fast_path_block decided from_value) incidents).
End FastPath.

(** ** Notification *)

Definition KILLCHAIN_SERVICE_ALLOWLIST : list string :=
  ["ruby"; "python"; "python3"; "node"; "java"; "beam.smp"; "nginx"; "haproxy"; "envoy"; "caddy"; "postgres"; "mysqld";
   "redis-server"; "openclaw"; "innerwarden"].

Record NotifyState := {
  ns_burst : BurstTracker;
  ns_deferred : gmap string Z;
  ns_suppressed : Z;
  ns_sent : list string;
}.

Definition killchain_message (inc : Json) : string :=
  let nl1 := String nl "" in
  "⛓️ <b>Kill Chain Alert</b>" +:+ nl1 +:+ nl1 +:+ "🔴 CRITICAL" +:+ nl1 +:+
  "<b>" +:+ default "Kill chain detected" (get_str inc "title") +:+ "</b>" +:+ nl1 +:+
  "Pattern: " +:+ default "unknown" (ev_str inc "pattern") +:+ nl1 +:+ default "" (get_str inc "summary").

Definition source_ip_of (inc : Json) : option string :=
  ev ← evidence_obj inc;
  v ← match get ev "c2_ip" with
      | Some v => Some v
      | None => match get ev "source_ip" with Some v => Some v | None => get ev "remote_ip" end
      end;
  ip ← as_str v;
  if String.eqb ip "" then None else Some ip.

Definition killchain_notify_one (self_traffic_list : list string) (host : string) (now : Z) (n : NotifyState) (inc : Json)
  : NotifyState :=
  let severity := default "medium" (get_str inc "severity") in
  let comm := default "" (ev_str inc "comm") in
  if negb (String.eqb severity "critical") then n
  else if any (fun a => starts_with a comm) KILLCHAIN_SERVICE_ALLOWLIST then n
  else if matches_self_traffic_comm comm self_traffic_list then n
  else
    let ctx := from_killchain_json inc in
    let '(suppressed, verdict) := should_notify_with_counter ctx (ns_suppressed n) in
    match verdict with
    | SendNow => {| ns_burst := ns_burst n; ns_deferred := ns_deferred n; ns_suppressed := suppressed;
                    ns_sent := ns_sent n ++ [killchain_message inc] |}
    | DailyBriefingOnly =>
        let deferred := bump (ns_deferred n) (nc_detector ctx) in
        if nc_is_contained ctx then
          let '(burst, s) := record_contained (ns_burst n) now (burst_category (nc_detector ctx)) (source_ip_of inc) in
          {| ns_burst := burst; ns_deferred := deferred; ns_suppressed := suppressed;
             ns_sent := ns_sent n ++ match s with Some s => [format_burst_summary host s] | None => [] end |}
        else {| ns_burst := ns_burst n; ns_deferred := deferred; ns_suppressed := suppressed; ns_sent := ns_sent n |}
    | DropIt => {| ns_burst := ns_burst n; ns_deferred := ns_deferred n; ns_suppressed := suppressed; ns_sent := ns_sent n |}
    end.

Definition killchain_notify_telegram (client : bool) (incidents : list Json) (self_traffic_list : list string)
  (host : string) (now : Z) (n : NotifyState) : NotifyState :=
  if client then foldl (killchain_notify_one self_traffic_list host now) n incidents else n.

(** ** The tick *)

Section Tick.
Context {S : Type} `{KvStore S} `{!KvListing S} `{Calendar} `{Chrono} `{Lowercase} `{ProcResolver} `{BlockWorld}.

Record KillchainTick := {
  kt_pass : EventPass;
  kt_registered : list (Z * string);
  kt_rows : list Incident;
  kt_dismissed : list DecisionEntry;
  kt_block : BlockState S;
  kt_notify : NotifyState;
}.

(** [decided] are the incidents with a decision before the tick.  The dismissals
    of the tick are on file when the fast path looks, if there is a store (and
    its append succeeded, which is taken for granted); without one it sees no
    decision. *)
Definition killchain_tick (cfg : BlockConfig) (pick : PendingChain -> option string) (from_value : Json -> option Incident)
  (decided : string -> bool) (extra_comms : list string) (client : bool) (host burst_host : string)
  (registry : Registry) (sigindex : SignatureIndex) (tracker : PidTracker) (engine : CorrelationEngine)
  (st : BlockState S) (n : NotifyState) (events : list Event) (now : Z) (clk : string) : option KillchainTick :=
  pass ← killchain_process_events pick now tracker engine events;
  let incidents := ep_incidents pass in
  let comms := self_traffic_comms extra_comms in
  let dismissed := dismiss_operator_session_incidents now host incidents (bk_operator_ips st) ++
                   dismiss_self_traffic_incidents now host incidents comms in
  Some {| kt_pass := pass;
          kt_registered := register_kernel_blocks registry sigindex incidents;
          kt_rows := write_incidents from_value incidents;
          kt_dismissed := dismissed;
          kt_block := fast_path_block_strong_patterns cfg st
                        (fun id => bool_decide (is_Some (bk_sqlite st)) &&
                                   (decided id || mem_str id (de_incident_id <$> dismissed)))
                        from_value incidents now clk;
          kt_notify := killchain_notify_telegram client incidents comms burst_host now n |}.
End Tick.
Arguments KillchainTick S : clear implicits.

(** ** The shape of the incidents *)

(** Evidence in an array of one object, with a pattern and a process, and no
    outcome. *)
Definition PATTERN_LABELS : list string := "UNKNOWN" :: (to_ascii_uppercase ∘ fst <$> ALL_PATTERNS).

Record chain_shaped (inc : Json) : Prop := {
  sh_outcome : get inc "outcome" = None;
  sh_evidence : exists ev, get inc "evidence" = Some (JArr [ev]) /\
    (exists p, get_str ev "pattern" = Some p /\ p ∈ PATTERN_LABELS) /\ (exists pid, get_u64 ev "pid" = Some pid /\ in_width 32 pid);
}.

Lemma get_set_key v k x k' : k <> k' -> get (set_key v k x) k' = get v k'.
Proof. intros Hne. destruct v as [| | | | | |o]; cbn; [done..|]. by apply assoc_set_other. Qed.

Lemma enrich_get state ev k :
  k <> "c2_ip" -> k <> "c2_port" -> k <> "sensitive_file" -> get (enrich state ev) k = get ev k.
Proof.
  intros H1 H2 H3. unfold enrich. destruct (extract_c2 state) as [[ip port]|], (cs_last_sensitive_read_path state);
    rewrite ?get_set_key by congruence; done.
Qed.

Lemma label_of_pattern n m : (n, m) ∈ ALL_PATTERNS -> to_ascii_uppercase n ∈ PATTERN_LABELS.
Proof. intros H. right. apply list_elem_of_fmap. exists (n, m). done. Qed.

Lemma get_u64_pid ev pid : get ev "pid" = Some (JInt pid) -> in_width 32 pid -> get_u64 ev "pid" = Some pid.
Proof. intros E H. unfold get_u64. rewrite E. cbn [mbind option_bind]. apply as_u64_int. unfold in_width in *. lia. Qed.

Section Shape.
Context `{Chrono}.

Lemma pre_shaped f state n m prox : (n, m) ∈ ALL_PATTERNS -> in_width 32 (ef_pid f) ->
  chain_shaped (pre_chain_incident f state n m prox).
Proof.
  intros Hn Hp. split; [reflexivity|]. eexists. split; [reflexivity|]. split.
  - exists (to_ascii_uppercase n). split; [|by eapply label_of_pattern]. unfold get_str. by rewrite enrich_get.
  - exists (ef_pid f). split; [|done]. apply get_u64_pid; [|done]. by rewrite enrich_get.
Qed.

Lemma full_shaped f state n m : (n, m) ∈ ALL_PATTERNS -> in_width 32 (ef_pid f) ->
  chain_shaped (full_match_incident f state n m).
Proof.
  intros Hn Hp. split; [reflexivity|]. eexists. split; [reflexivity|]. split.
  - exists (to_ascii_uppercase n). split; [|by eapply label_of_pattern]. unfold get_str. by rewrite enrich_get.
  - exists (ef_pid f). split; [|done]. apply get_u64_pid; [|done]. by rewrite enrich_get.
Qed.

Lemma process_event_shaped t now event : Forall chain_shaped (process_event t now event).2.
Proof.
  unfold process_event. destruct (extract_fields t now event) as [f|] eqn:Ef; [|constructor].
  assert (Hpid : in_width 32 (ef_pid f)).
  { unfold extract_fields in Ef. repeat case_match; simplify_eq; cbn. by apply wrap_range. }
  destruct (event_flag _ _) as [[flag captured]|]; [|constructor].
  assert (Hfold : forall l acc, (forall p, p ∈ l -> p ∈ ALL_PATTERNS) -> Forall chain_shaped acc.2 ->
    Forall chain_shaped (foldl (check_pattern (pt_pre_chain_threshold t) f) acc l).2).
  { induction l as [|[n m] l IH]; intros [s incs] Hl Hacc; [done|]. cbn [foldl]. apply IH; [set_solver|].
    assert (Hn : (n, m) ∈ ALL_PATTERNS) by (apply Hl; by left). unfold check_pattern. cbn [snd] in Hacc.
    repeat (case_match; simplify_eq/=); rewrite ?Forall_app, ?Forall_singleton; auto using pre_shaped, full_shaped. }
  specialize (Hfold ALL_PATTERNS (merge_event f flag captured (pt_pids t !! ef_pid f), []) ltac:(done) ltac:(constructor)).
  destruct (foldl _ _ _) as [s incs]. exact Hfold.
Qed.

Lemma best_match_label flags : pattern_upper flags ∈ PATTERN_LABELS.
Proof.
  unfold pattern_upper, best_match. destruct (max_by_key _ _) as [[n m]|] eqn:E; cbn.
  - apply max_by_key_Some in E as [E _]. apply retain_elem in E as [E _]. by eapply label_of_pattern.
  - by left.
Qed.

Lemma lsm_shaped event t inc : process_lsm_blocked event t = Some inc -> chain_shaped inc.
Proof.
  unfold process_lsm_blocked. intros E. apply bind_Some in E as (kind & _ & E). case_match; [done|].
  apply bind_Some in E as (details & _ & E). apply bind_Some in E as (filename & _ & E). case_match; [done|].
  apply bind_Some in E as (pid & _ & E). apply bind_Some in E as (uid & _ & E). apply bind_Some in E as (comm & _ & E).
  simplify_eq. assert (Hw : in_width 32 (wrap 32 pid)) by by apply wrap_range.
  destruct (get_state t (wrap 32 pid)); (split; [reflexivity|]); (eexists; split; [reflexivity|]); (split;
    [eexists; split; [reflexivity|]|exists (wrap 32 pid); split; [by apply get_u64_pid|done]]).
  - apply best_match_label.
  - by left.
Qed.

Lemma pass_shaped pick now tracker engine events p :
  killchain_process_events pick now tracker engine events = Some p -> Forall chain_shaped (ep_incidents p).
Proof.
  unfold killchain_process_events. set (p0 := {| ep_incidents := [] |}).
  assert (H0 : Forall chain_shaped (ep_incidents p0)) by constructor. clearbody p0.
  revert p0 H0. induction events as [|e events IH]; intros p0 H0 E; [by simplify_eq/=|]. cbn [foldl mbind option_bind] in E.
  destruct (one_event pick now p0 e) as [p1|] eqn:E1.
  - apply (IH p1); [|done]. unfold one_event in E1.
    destruct (process_event (ep_tracker p0) now (event_to_tracker_json e)) as [t incs] eqn:Ep.
    pose proof (process_event_shaped (ep_tracker p0) now (event_to_tracker_json e)) as Hs. rewrite Ep in Hs.
    apply bind_Some in E1 as (en & _ & E1). apply bind_Some in E1 as (en' & _ & E1). simplify_eq. cbn [ep_incidents].
    rewrite !Forall_app. split; [done|]. split; [done|].
    destruct (String.eqb (ev_kind e) "lsm.exec_blocked"); [|constructor].
    destruct (process_lsm_blocked _ _) eqn:El; [|constructor]. constructor; [|constructor]. by eapply lsm_shaped.
  - assert (Hnone : foldl (fun o e => p ← o; one_event pick now p e) None events = None) by by clear; induction events.
    congruence.
Qed.
End Shape.

(** ** Notification *)

Lemma shaped_not_sent inc : chain_shaped inc -> evaluate_verdict (from_killchain_json inc) = DailyBriefingOnly.
Proof.
  intros [Ho (ev & He & _)]. unfold evaluate_verdict, from_killchain_json, get_str. rewrite Ho, He. cbn.
  by destruct (String.eqb _ "critical").
Qed.

Lemma shaped_not_contained inc : chain_shaped inc -> nc_is_contained (from_killchain_json inc) = false.
Proof. intros [Ho _]. unfold from_killchain_json, get_str. by rewrite Ho. Qed.

Lemma notify_silent client incidents comms host now n :
  Forall chain_shaped incidents -> ns_sent (killchain_notify_telegram client incidents comms host now n) = ns_sent n.
Proof.
  intros Hs. unfold killchain_notify_telegram. destruct client; [|done].
  revert n. induction Hs as [|inc incidents Hinc _ IH]; intros n; [done|]. cbn [foldl]. rewrite IH.
  unfold killchain_notify_one. repeat (case_match; [done|]). unfold should_notify_with_counter.
  rewrite (shaped_not_sent inc Hinc). cbn zeta. by rewrite (shaped_not_contained inc Hinc).
Qed.

Section Effects.
Context {S : Type} `{KvStore S} `{!KvListing S} `{Calendar} `{Chrono} `{Lowercase} `{ProcResolver} `{BlockWorld}.
Context (cfg : BlockConfig) (pick : PendingChain -> option string) (from_value : Json -> option Incident).
Context (decided : string -> bool) (extra : list string) (client : bool) (host burst_host : string).
Context (registry : Registry) (sigindex : SignatureIndex) (tracker : PidTracker) (engine : CorrelationEngine).
Context (st : BlockState S) (n : NotifyState) (events : list Event) (now : Z) (clk : string).

Local Notation tick := (killchain_tick cfg pick from_value decided extra client host burst_host registry sigindex
  tracker engine st n events now clk).

(** No kill chain is ever sent to the operator at once, however critical: the
    gate looks for the pattern and the flags in an object, in lower case, where
    the tracker and the detector write an array and upper case, so it takes every
    chain for an unknown pattern without stages. *)
Theorem killchain_never_paged (t : KillchainTick S) : tick = Some t -> ns_sent (kt_notify t) = ns_sent n.
Proof.
  unfold killchain_tick. intros E. apply bind_Some in E as (pass & Hp & E). simplify_eq. cbn.
  eapply notify_silent, pass_shaped, Hp.
Qed.

Lemma label_cases (P : string -> bool) (keep : list string) :
  forallb (fun p => negb (P p) || mem_str p keep) PATTERN_LABELS = true ->
  forall p, p ∈ PATTERN_LABELS -> P p = true -> p ∈ keep.
Proof.
  intros Hf p Hp HP. rewrite forallb_elem in Hf. specialize (Hf p Hp). rewrite HP in Hf. by apply mem_str_true.
Qed.

Lemma weak_labels p : p ∈ PATTERN_LABELS -> is_strong_killchain_pattern p = false -> p ∈ ["DATA_EXFIL"; "UNKNOWN"].
Proof.
  intros Hp Hs. apply (label_cases (fun p => negb (is_strong_killchain_pattern p)) ["DATA_EXFIL"; "UNKNOWN"]);
    [vm_compute; reflexivity|done|by rewrite Hs].
Qed.

Lemma fast_labels p : p ∈ PATTERN_LABELS -> is_fast_path_killchain_pattern p = true ->
  p ∈ ["REVERSE_SHELL"; "BIND_SHELL"; "CODE_INJECT"; "INJECT_SHELL"].
Proof. apply (label_cases is_fast_path_killchain_pattern). vm_compute. reflexivity. Qed.

Lemma gated_labels p : p ∈ PATTERN_LABELS -> is_managed_agent_gated_pattern p = true -> p ∈ ["DATA_EXFIL"; "EXPLOIT_C2"].
Proof. apply (label_cases is_managed_agent_gated_pattern). vm_compute. reflexivity. Qed.

Lemma shaped_evidence inc : chain_shaped inc -> exists ev p pid,
  evidence_obj inc = Some ev /\ get_array inc "evidence" = Some [ev] /\ get_str ev "pattern" = Some p /\ p ∈ PATTERN_LABELS /\
  get_u64 ev "pid" = Some pid /\ in_width 32 pid.
Proof.
  intros [_ (ev & He & (p & Hp & Hl) & (pid & Hpid & Hw))]. exists ev, p, pid.
  unfold evidence_obj, get_array. by rewrite He.
Qed.

(** Every process a kill chain names is registered with the kernel, which then
    refuses its next program, unless the verifier takes it for a managed agent
    on its own business, and then only for data exfiltration with a known file
    and for exploit-to-C2. *)
Theorem kernel_block_complete (t : KillchainTick S) (inc : Json) :
  tick = Some t -> inc ∈ ep_incidents (kt_pass t) ->
  exists ev p pid, evidence_obj inc = Some ev /\ get_str ev "pattern" = Some p /\ get_u64 ev "pid" = Some pid /\
    ((pid, "kill_chain:" +:+ p) ∈ kt_registered t \/
     exists id name, verify_managed_agent_self_activity pid (default "" (get_str ev "comm")) (get_str ev "sensitive_file")
         registry sigindex false = Managed id name /\
       (p = "EXPLOIT_C2" \/ (p = "DATA_EXFIL" /\ get_str ev "sensitive_file" <> None))).
Proof.
  unfold killchain_tick. intros E Hinc. apply bind_Some in E as (pass & Hp & E). simplify_eq. cbn [kt_pass kt_registered] in *.
  pose proof (pass_shaped _ _ _ _ _ _ Hp) as Hs. rewrite Forall_forall in Hs.
  destruct (shaped_evidence inc (Hs inc Hinc)) as (ev & p & pid & Hev & _ & Hpat & Hl & Hpid & Hw).
  exists ev, p, pid. split; [done|]. split; [done|]. split; [done|].
  assert (Hwrap : wrap 32 pid = pid) by by apply wrap_small.
  destruct (evaluate_kernel_block_withhold ev registry sigindex) as [[id name]|] eqn:Ew.
  - right. unfold evaluate_kernel_block_withhold in Ew. rewrite Hpid, Hpat in Ew. cbn [mbind option_bind from_option Datatypes.id] in Ew.
    destruct (is_managed_agent_gated_pattern p) eqn:Eg; [|done]. cbn [negb] in Ew.
    apply gated_labels in Eg; [|done]. rewrite Hwrap in Ew.
    destruct (eq_ignore_ascii_case p "data_exfil" && bool_decide (get_str ev "sensitive_file" = None)) eqn:Ed; [done|].
    destruct (verify_managed_agent_self_activity _ _ _ _ _ _) as [id' name'|] eqn:Ev; [|done]. simplify_eq.
    exists id, name. split; [done|]. rewrite !elem_of_cons in Eg. destruct Eg as [->|[->|Eg]]; [|by left|set_solver].
    right. split; [done|]. intros Hnone. by rewrite Hnone in Ed.
  - left. unfold register_kernel_blocks. apply list_elem_of_omap. exists inc. split; [done|].
    unfold register_one. rewrite Hev. cbn [mbind option_bind]. rewrite Hpid. cbn [mbind option_bind]. by rewrite Ew, Hpat, Hwrap.
Qed.

Lemma dismissal_pattern inc ev :
  chain_shaped inc -> evidence_obj inc = Some ev -> is_strong_killchain_pattern (default "?" (get_str ev "pattern")) = false ->
  String.eqb (default "" (get_str inc "incident_id")) "" = false ->
  get_str inc "incident_id" = Some (default "" (get_str inc "incident_id")) /\
  (get_str ev "pattern" = Some "DATA_EXFIL" \/ get_str ev "pattern" = Some "UNKNOWN").
Proof.
  intros Hs Hev Hstrong Hid. destruct (shaped_evidence inc Hs) as (ev' & p & pid & Hev' & _ & Hp & Hl & _). simplify_eq.
  rewrite Hp in Hstrong |- *. change (is_strong_killchain_pattern p = false) in Hstrong.
  apply weak_labels in Hstrong; [|done]. split.
  - by destruct (get_str inc "incident_id").
  - rewrite !elem_of_cons in Hstrong. destruct Hstrong as [->|[->|?]]; [by left|by right|set_solver].
Qed.

(** C21. A decision the tick writes on its own authority dismisses an incident of
    the tick, of data exfiltration or without a known pattern: never one with a
    shell, an injection or an exploit.  It does so because the address is one of
    an operator's session, or because the process bears the name of a known tool,
    which must be root's or a user's own unless it only fetches. *)
Theorem dismissals_sound (t : KillchainTick S) (d : DecisionEntry) :
  tick = Some t -> d ∈ kt_dismissed t ->
  exists inc ev, inc ∈ ep_incidents (kt_pass t) /\ evidence_obj inc = Some ev /\
    get_str inc "incident_id" = Some (de_incident_id d) /\
    (get_str ev "pattern" = Some "DATA_EXFIL" \/ get_str ev "pattern" = Some "UNKNOWN") /\
    ((exists ip, get_str ev "c2_ip" = Some ip /\ ip ∈ bk_operator_ips st) \/
     (let comm := default "" (get_str ev "comm") in
      let uid := default u64_max (get_u64 ev "uid") in
      matches_self_traffic_comm comm (self_traffic_comms extra) = true /\
      (comm_is_uid_agnostic_fetcher comm = true \/ uid = 0 \/ 1000 <= uid))).
Proof.
  unfold killchain_tick. intros E Hd. apply bind_Some in E as (pass & Hp & E). simplify_eq. cbn [kt_pass kt_dismissed] in *.
  pose proof (pass_shaped _ _ _ _ _ _ Hp) as Hs. rewrite Forall_forall in Hs. apply elem_of_app in Hd as [Hd|Hd].
  - unfold dismiss_operator_session_incidents in Hd. destruct (bool_decide _); [set_solver|].
    apply list_elem_of_omap in Hd as (inc & Hinc & Ed). unfold operator_dismissal in Ed.
    apply bind_Some in Ed as (ev & Hev & Ed). apply bind_Some in Ed as (ip & Hip & Ed).
    case_bool_decide as Hop; cbn [negb] in Ed; [|done]. cbn zeta in Ed.
    destruct (String.eqb _ "") eqn:Eid; [done|]. destruct (is_strong_killchain_pattern _) eqn:Est; [done|]. simplify_eq.
    exists inc, ev. split; [done|]. split; [done|].
    destruct (dismissal_pattern inc ev (Hs inc Hinc) Hev Est Eid) as [Hid Hpat]. split; [done|]. split; [done|]. left. eauto.
  - apply list_elem_of_omap in Hd as (inc & Hinc & Ed). unfold self_traffic_dismissal in Ed.
    destruct (shaped_evidence inc (Hs inc Hinc)) as (ev & p & pid & Hev & Harr & _). rewrite Harr in Ed.
    cbn [mbind option_bind head] in Ed. cbn zeta in Ed.
    destruct (String.eqb (default "" (get_str ev "comm")) "") eqn:Ec; [done|].
    destruct (matches_self_traffic_comm _ _) eqn:Em; cbn [negb] in Ed; [|done].
    destruct (_ || _) eqn:Eu in Ed; cbn [negb] in Ed; [|done].
    destruct (String.eqb (default "" (get_str inc "incident_id")) "") eqn:Eid; [done|].
    destruct (is_strong_killchain_pattern _) eqn:Est; [done|]. simplify_eq.
    exists inc, ev. split; [done|]. split; [done|].
    destruct (dismissal_pattern inc ev (Hs inc Hinc) Hev Est Eid) as [Hid Hpat]. split; [done|]. split; [done|]. right.
    cbn zeta. split; [done|]. rewrite !orb_true_iff, Z.eqb_eq, Z.leb_le in Eu. naive_solver.
Qed.

(** The blocks of the fast path. *)
Definition fast_path_blocks (t : KillchainTick S) : list (string * string * Incident) :=
  omap (fast_path_block (fun id => bool_decide (is_Some (bk_sqlite st)) &&
    (decided id || mem_str id (de_incident_id <$> kt_dismissed t))) from_value) (ep_incidents (kt_pass t)).

(** The blocking state after the tick is that of executing the blocks of the
    fast path in order.  Each is for an incident of the tick with a shell or an
    injection as its pattern and the address it names; when there is a store, no
    decision on file and no dismissal of the tick concerns it. *)
Theorem fast_path_sound (t : KillchainTick S) :
  tick = Some t ->
  kt_block t = foldl (fun st '(pattern, c2_ip, incident) =>
    (execute_block_ip_decision cfg st c2_ip ("block-ip-" +:+ bc_block_backend cfg)
       (fast_path_decision cfg pattern c2_ip) incident now clk).1) st (fast_path_blocks t) /\
  forall p ip incident, (p, ip, incident) ∈ fast_path_blocks t ->
    exists inc ev id, inc ∈ ep_incidents (kt_pass t) /\ evidence_obj inc = Some ev /\ from_value inc = Some incident /\
      get_str ev "pattern" = Some p /\ p ∈ ["REVERSE_SHELL"; "BIND_SHELL"; "CODE_INJECT"; "INJECT_SHELL"] /\
      get_str ev "c2_ip" = Some ip /\ ip <> "" /\ get_str inc "incident_id" = Some id /\
      (is_Some (bk_sqlite st) -> decided id = false /\ forall d, d ∈ kt_dismissed t -> de_incident_id d <> id).
Proof.
  unfold killchain_tick. intros E. apply bind_Some in E as (pass & Hp & E). simplify_eq. split; [done|].
  intros p ip incident Hb. unfold fast_path_blocks in Hb. cbn [kt_pass kt_dismissed] in *.
  pose proof (pass_shaped _ _ _ _ _ _ Hp) as Hs. rewrite Forall_forall in Hs.
  set (dismissed := dismiss_operator_session_incidents _ _ _ _ ++ _) in *. clearbody dismissed.
  apply list_elem_of_omap in Hb as (inc & Hinc & Eb). unfold fast_path_block in Eb.
  apply bind_Some in Eb as ([[p' ip'] id] & Ex & Eb). destruct (_ && _) eqn:Edec in Eb; [done|].
  apply bind_Some in Eb as (incident' & Hfv & Eb). simplify_eq.
  destruct (shaped_evidence inc (Hs inc Hinc)) as (ev & q & pid & Hev & Harr & Hq & Hl & _).
  unfold fast_path_extract_block_target in Ex. rewrite Harr in Ex. cbn [mbind option_bind head] in Ex.
  rewrite Hq in Ex. cbn [mbind option_bind] in Ex.
  destruct (is_fast_path_killchain_pattern q) eqn:Ef; cbn [negb] in Ex; [|done].
  apply bind_Some in Ex as (ip' & Hip & Ex). destruct (String.eqb_spec ip' ""); [done|].
  apply bind_Some in Ex as (id' & Hid & Ex). destruct (String.eqb_spec id' ""); [done|]. simplify_eq.
  exists inc, ev, id. do 4 (split; [done|]). split; [by apply fast_labels|]. do 3 (split; [done|]).
  intros Hsq. rewrite bool_decide_eq_true_2 in Edec by done. cbn [andb] in Edec. apply orb_false_iff in Edec as [Hd Hm].
  split; [done|]. intros d Hin Heq. apply mem_str_false in Hm. apply Hm. rewrite <- Heq. by apply list_elem_of_fmap_2.
Qed.
End Effects.

(** ** At concrete inputs *)

#[local] Instance kc_case : Lowercase := {| to_lowercase := to_ascii_lowercase |}.
#[local] Instance kc_calendar : Calendar :=
  {| cal_year _ := 2026; cal_month _ := 1; cal_day _ := 1; cal_hour t := t / seconds 3600 |}.
#[local] Instance kc_chrono : Chrono := {| parse_utc := parse_uint 63; to_rfc3339 := show; fmt_minute t := show t |}.
#[local] Instance kc_proc : ProcResolver := {| resolve _ := None; file_owner_uid _ := None |}.
#[local] Instance kc_host : BlockWorld := ufw_host.

Definition kc_event (kind comm : string) (uid : Z) (extra : list (string * Json)) : Event :=
  {| ev_ts := 1000; ev_host := "h"; ev_source := "ebpf"; ev_kind := kind; ev_severity := Info; ev_summary := "";
     ev_details := JObj ([("pid", JInt 1234); ("uid", JInt uid); ("comm", JStr comm)] ++ extra); ev_tags := [];
     ev_entities := [] |}.
Definition kc_connect (comm : string) (uid : Z) : Event :=
  kc_event "network.outbound_connect" comm uid [("dst_ip", JStr "185.234.1.1"); ("dst_port", JInt 4444)].
Definition kc_redirect (comm : string) (fd : Z) : Event := kc_event "process.fd_redirect" comm 1000 [("newfd", JInt fd)].

Definition kc_incident (inc : Json) : option Incident :=
  id ← get_str inc "incident_id";
  Some {| in_ts := 0; in_host := "h"; in_incident_id := id; in_severity := Critical; in_title := ""; in_summary := "";
          in_evidence := or_null (get inc "evidence"); in_recommended_checks := []; in_tags := []; in_entities := [] |}.

Definition kc_state (operators : gset string) : BlockState Store :=
  {| bk_recent := []; bk_store := {| st_usable := true; kv_state := ∅ |};
     bk_sqlite := Some {| st_usable := true; kv_state := ∅ |}; bk_operator_ips := operators; bk_reputations := ∅;
     bk_lifecycle := ResponseLifecycle_new; bk_blocklist := ∅; bk_xdp_times := ∅; bk_skip_until := 0; bk_reports := [];
     bk_blocked_file := [] |}.
Definition kc_notify : NotifyState :=
  {| ns_burst := BurstTracker_new 0; ns_deferred := ∅; ns_suppressed := 0; ns_sent := [] |}.

Definition kc_tick (operators : gset string) (events : list Event) : option (KillchainTick Store) :=
  killchain_tick ufw_config (fun _ => None) kc_incident (fun _ => false) [] true "h" "h" (Registry_new 1) index_new
    PidTracker_new (with_rules []) (kc_state operators) kc_notify events 0 "t".

Definition severities (t : KillchainTick Store) : list string := omap (fun i => get_str i "severity") (ep_incidents (kt_pass t)).

(** A complete reverse shell. *)
Definition shell_events : list Event := [kc_connect "sh" 1000; kc_redirect "sh" 0; kc_redirect "sh" 1].

(** The operator of a host with a live reverse shell gets no message, though the
    incident is critical. *)
Theorem killchain_never_paged_witness :
  exists t, kc_tick ∅ shell_events = Some t /\ "critical" ∈ severities t /\ ns_sent (kt_notify t) = [].
Proof.
  destruct (kc_tick ∅ shell_events) as [t|] eqn:E; [|by vm_compute in E].
  exists t. split; [reflexivity|]. split.
  - assert (Hs : severities <$> kc_tick ∅ shell_events = Some ["medium"; "critical"; "medium"]) by (vm_compute; reflexivity).
    rewrite E in Hs. injection Hs as ->. right. left.
  - unfold kc_tick in E. apply killchain_never_paged in E. exact E.
Defined.

(** Two of the three steps of a reverse shell make a warning of medium severity
    and no more; the fast path blocks the address all the same, and the process
    is registered with the kernel. *)
Theorem forming_chain_blocked :
  let shown := fun t => (severities t, bk_blocked_file (kt_block t), elements (bk_blocklist (kt_block t)), kt_registered t) in
  shown <$> kc_tick ∅ [kc_connect "sh" 1000; kc_redirect "sh" 0] =
  Some (["medium"], ["185.234.1.1"], ["185.234.1.1"], [(1234, "kill_chain:REVERSE_SHELL")]).
Proof. vm_compute. reflexivity. Qed.

(** The witnesses of the other theorems: the warning above, and the operator's
    own shell reading a password file. *)
Definition warning_events : list Event := [kc_connect "sh" 1000; kc_redirect "sh" 0].
Definition exfil_events (comm : string) (uid : Z) : list Event :=
  [kc_event "file.open" comm uid [("filename", JStr "/etc/shadow")]; kc_connect comm uid].

Theorem kernel_block_complete_witness :
  exists t inc ev p pid, kc_tick ∅ warning_events = Some t /\ inc ∈ ep_incidents (kt_pass t) /\ evidence_obj inc = Some ev /\
    get_str ev "pattern" = Some p /\ get_u64 ev "pid" = Some pid /\ (pid, "kill_chain:" +:+ p) ∈ kt_registered t.
Proof.
  destruct (kc_tick ∅ warning_events) as [t|] eqn:E; [|by vm_compute in E].
  assert (Hn : (length ∘ ep_incidents ∘ kt_pass) <$> kc_tick ∅ warning_events = Some 1%nat) by (vm_compute; reflexivity).
  rewrite E in Hn. injection Hn as Hn. destruct (ep_incidents (kt_pass t)) as [|inc l] eqn:Ei; [done|].
  unfold kc_tick in E. pose proof (fun Hin => kernel_block_complete _ _ _ _ _ _ _ _ _ _ _ _ _ _ _ _ _ t inc E Hin) as G.
  rewrite Ei in G. destruct (G ltac:(by left)) as (ev & p & pid & H1 & H2 & H3 & [H4|(id & name & H4 & _)]).
  - exists t, inc, ev, p, pid. rewrite Ei. split; [reflexivity|]. split; [by left|]. exact (conj H1 (conj H2 (conj H3 H4))).
  - exfalso. unfold verify_managed_agent_self_activity, decide_managed in H4. cbn in H4. done.
Defined.

Theorem dismissals_sound_witness :
  exists t d, kc_tick {["185.234.1.1"]} (exfil_events "bash" 1000) = Some t /\ d ∈ kt_dismissed t /\
    exists inc ev, inc ∈ ep_incidents (kt_pass t) /\ evidence_obj inc = Some ev /\
      (get_str ev "pattern" = Some "DATA_EXFIL" \/ get_str ev "pattern" = Some "UNKNOWN").
Proof.
  destruct (kc_tick {["185.234.1.1"]} (exfil_events "bash" 1000)) as [t|] eqn:E; [|by vm_compute in E].
  assert (Hn : (length ∘ kt_dismissed) <$> kc_tick {["185.234.1.1"]} (exfil_events "bash" 1000) = Some 1%nat)
    by (vm_compute; reflexivity).
  rewrite E in Hn. injection Hn as Hn. destruct (kt_dismissed t) as [|d l] eqn:Ed; [done|].
  unfold kc_tick in E. pose proof (fun Hin => dismissals_sound _ _ _ _ _ _ _ _ _ _ _ _ _ _ _ _ _ t d E Hin) as G.
  rewrite Ed in G. destruct (G ltac:(by left)) as (inc & ev & H1 & H2 & _ & H3 & _).
  exists t, d. rewrite Ed. split; [reflexivity|]. split; [by left|]. exists inc, ev. exact (conj H1 (conj H2 H3)).
Defined.

Theorem fast_path_sound_witness :
  exists t, kc_tick ∅ shell_events = Some t /\ bk_blocked_file (kt_block t) = ["185.234.1.1"; "185.234.1.1"] /\
    forall p ip incident, (p, ip, incident) ∈ fast_path_blocks kc_incident (fun _ => false) (kc_state ∅) t ->
      p ∈ ["REVERSE_SHELL"; "BIND_SHELL"; "CODE_INJECT"; "INJECT_SHELL"].
Proof.
  destruct (kc_tick ∅ shell_events) as [t|] eqn:E; [|by vm_compute in E].
  assert (Hn : (bk_blocked_file ∘ kt_block) <$> kc_tick ∅ shell_events = Some ["185.234.1.1"; "185.234.1.1"])
    by (vm_compute; reflexivity).
  rewrite E in Hn. injection Hn as Hn. exists t. split; [reflexivity|]. split; [exact Hn|].
  unfold kc_tick in E. apply fast_path_sound in E as [_ H]. intros p ip incident Hin.
  destruct (H p ip incident Hin) as (inc & ev & id & _ & _ & _ & _ & Hp & _). exact Hp.
Defined.

(** A compromised web server that reads the password file and calls out is
    dismissed as a package fetcher: the name httpd starts with http. *)
Theorem httpd_dismissed :
  (fun t => (severities t, de_ai_provider <$> kt_dismissed t)) <$> kc_tick ∅ (exfil_events "httpd" 48) =
  Some (["critical"], ["self-traffic-fp"]).
Proof. vm_compute. reflexivity. Qed.

(** An execution the kernel refused, of a process the tracker does not know, is
    dismissed when the process calls itself curl. *)
Theorem kernel_refusal_dismissed :
  (fun t => (severities t, de_ai_provider <$> kt_dismissed t)) <$>
    kc_tick ∅ [kc_event "lsm.exec_blocked" "curl" 33 [("filename", JStr "KILL_CHAIN_BLOCKED")]] =
  Some (["critical"], ["self-traffic-fp"]).
Proof. vm_compute. reflexivity. Qed.
