(* ===== verification/Rfc6238.v ===== *)
(** * Rfc6238: one-time passwords, as the standards define them

    What an authenticator shows: SHA-1 of FIPS 180-4, HMAC of RFC 2104, HOTP of
    RFC 4226, TOTP of RFC 6238 with its default parameters, and the base32 of
    RFC 4648 for a secret of whole groups.  Nothing here comes from the
    repository; AgentTotp.v shows that the agent's own implementation computes
    these functions.  The vectors of the standards are at the end. *)

From Stdlib Require Import ZArith Ascii String.
From stdpp Require Import prelude strings list.
From S2P Require Import Prelude Text.

Local Open Scope string_scope.
Local Open Scope list_scope.
Local Open Scope Z_scope.

(** The low [n] octets of [z], the highest first. *)
Definition octets (n : nat) (z : Z) : list Z := (fun k => (z / 2 ^ (8 * Z.of_nat k)) mod 2 ^ 8) <$> reverse (seq 0 n).

(** The number that octets spell, the highest first. *)
Definition number (l : list Z) : Z := foldl (fun n b => n * 2 ^ 8 + b) 0 l.

(** ** FIPS 180-4: SHA-1 *)

Definition ROTL (n x : Z) : Z := Z.lor ((x * 2 ^ n) mod 2 ^ 32) (x / 2 ^ (32 - n)).

Definition Ch (x y z : Z) : Z := Z.lxor (Z.land x y) (Z.ldiff z x).
Definition Parity (x y z : Z) : Z := Z.lxor (Z.lxor x y) z.
Definition Maj (x y z : Z) : Z := Z.lxor (Z.lxor (Z.land x y) (Z.land x z)) (Z.land y z).

Definition sha_f (t : nat) : Z -> Z -> Z -> Z :=
  if Nat.ltb t 20 then Ch else if Nat.ltb t 40 then Parity else if Nat.ltb t 60 then Maj else Parity.
Definition sha_K (t : nat) : Z :=
  if Nat.ltb t 20 then 0x5a827999 else if Nat.ltb t 40 then 0x6ed9eba1 else if Nat.ltb t 60 then 0x8f1bbcdc else 0xca62c1d6.

(** A one bit, zeros up to eight octets before a multiple of 64, and the length
    in bits. *)
Definition sha_pad (m : list Z) : list Z :=
  let l := Z.of_nat (length m) in m ++ [128] ++ replicate (Z.to_nat ((55 - l) mod 64)) 0 ++ octets 8 (8 * l).

Fixpoint words (l : list Z) : list Z :=
  match l with a :: b :: c :: d :: l => number [a; b; c; d] :: words l | _ => [] end.

Definition blocks (m : list Z) : list (list Z) := (fun i => words (take 64 (drop (64 * i) m))) <$> seq 0 (length m / 64).

(** The first [16 + n] words of the schedule of a block. *)
Fixpoint sha_W (M : list Z) (n : nat) : list Z :=
  match n with
  | O => M
  | S n =>
      let w := sha_W M n in
      let W k := nth (16 + n - k) w 0 in
      w ++ [ROTL 1 (Z.lxor (Z.lxor (Z.lxor (W 3%nat) (W 8%nat)) (W 14%nat)) (W 16%nat))]
  end.

Notation five := (Z * Z * Z * Z * Z)%type.

Definition sha_round (W : list Z) (s : five) (t : nat) : five :=
  let '(a, b, c, d, e) := s in
  ((ROTL 5 a + sha_f t b c d + e + sha_K t + nth t W 0) mod 2 ^ 32, a, ROTL 30 b, c, d).

Definition sha_block (H : five) (M : list Z) : five :=
  let '(a, b, c, d, e) := foldl (sha_round (sha_W M 64)) H (seq 0 80) in
  let '(h0, h1, h2, h3, h4) := H in
  ((a + h0) mod 2 ^ 32, (b + h1) mod 2 ^ 32, (c + h2) mod 2 ^ 32, (d + h3) mod 2 ^ 32, (e + h4) mod 2 ^ 32).

Definition SHA1 (m : list Z) : list Z :=
  let '(h0, h1, h2, h3, h4) :=
    foldl sha_block (0x67452301, 0xefcdab89, 0x98badcfe, 0x10325476, 0xc3d2e1f0) (blocks (sha_pad m)) in
  octets 4 h0 ++ octets 4 h1 ++ octets 4 h2 ++ octets 4 h3 ++ octets 4 h4.

(** ** RFC 2104: HMAC, with blocks of 64 octets *)

Definition hmac_K (key : list Z) : list Z := take 64 ((if Nat.ltb 64 (length key) then SHA1 key else key) ++ replicate 64 0).
Definition HMAC (key text : list Z) : list Z :=
  SHA1 ((Z.lxor 0x5c <$> hmac_K key) ++ SHA1 ((Z.lxor 0x36 <$> hmac_K key) ++ text)).

(** ** RFC 4226 and RFC 6238: six digits, steps of thirty seconds from 1970 *)

Definition DT (hs : list Z) : Z := number (take 4 (drop (Z.to_nat (nth 19 hs 0 mod 16)) hs)) mod 2 ^ 31.
Definition HOTP (key : list Z) (counter : Z) : Z := DT (HMAC key (octets 8 counter)) mod 10 ^ 6.
Definition TOTP (key : list Z) (now : Z) : Z := HOTP key (now / 30).

(** The last [n] digits of a number. *)
Fixpoint decimal (n : nat) (z : Z) : string :=
  match n with O => "" | S n => decimal n (z / 10) +:+ String (byte_of (48 + z mod 10)) "" end.

(** What the authenticator of a secret shows. *)
Definition shown (key : list Z) (now : Z) : string := decimal 6 (TOTP key now).

(** ** RFC 4648: base32 of whole groups of five octets *)

(** The values 0 to 25 are letters, 26 to 31 the digits from 2. *)
Definition base32_char (v : Z) : ascii := byte_of (if v <? 26 then 65 + v else 50 + (v - 26)).

(** The [n] groups of five bits of a number, the highest first. *)
Fixpoint base32_text (n : nat) (z : Z) : string :=
  match n with O => "" | S n => base32_text n (z / 32) +:+ String (base32_char (z mod 32)) "" end.
Definition BASE32 (l : list Z) : string := base32_text (8 * (length l / 5)) (number l).

(** ** The vectors of the standards *)

Definition chars (s : string) : list Z := code <$> list_ascii_of_string s.

Example standard_vectors :
  SHA1 (chars "abc") = octets 20 0xa9993e364706816aba3e25717850c26c9cd0d89d /\
  SHA1 (chars "abcdbcdecdefdefgefghfghighijhijkijkljklmklmnlmnomnopnopq") = octets 20 0x84983e441c3bd26ebaae4aa1f95129e5e54670f1 /\
  HMAC (replicate 80 0xaa) (chars "Test Using Larger Than Block-Size Key - Hash Key First") = octets 20 0xaa4ae5e15272d00e95705637ce8a3b55ed402112 /\
  (HOTP (chars "12345678901234567890") <$> [0; 1; 2; 9]) = [755224; 287082; 359152; 520489] /\
  (shown (chars "12345678901234567890") <$> [59; 1111111109; 1111111111; 1234567890; 2000000000; 20000000000]) =
    ["287082"; "081804"; "050471"; "005924"; "279037"; "353130"] /\
  BASE32 (chars "fooba") = "MZXW6YTB".
Proof. vm_compute. repeat split. Qed.
