(* ===== verification/AgentTotp.v ===== *)
(** * AgentTotp: time-based one-time passwords
    (crates/agent/src/two_factor.rs, everything but [TwoFactorState])

    The agent carries its own SHA-1, HMAC, base32 and TOTP.  Bytes are integers
    below 256; an index out of range is [None], the panic of the source, and
    the theorems show there is none.  The clock of [verify] is an argument, in
    seconds since 1970, and so are the random bytes of [generate_secret].

    Proved here: SHA-1, HMAC, the codes and the base32 of a secret are those of
    the standards (Rfc6238.v); [verify] accepts exactly what an authenticator of
    the secret shows within half a minute; base32 reads back what it wrote. *)

From Stdlib Require Import ZArith ZifyNat Lia Ascii String.
From stdpp Require Import prelude strings pretty list.
From S2P Require Import Prelude Text Rfc6238.

Local Open Scope string_scope.
Local Open Scope list_scope.
Local Open Scope Z_scope.

Notation bytes := (list Z).

Definition is_byte (b : Z) : Prop := in_width 8 b.

(** ** 32-bit words and big-endian bytes *)

Definition rotate_left (x n : Z) : Z := Z.lor (wrap 32 (Z.shiftl x n)) (Z.shiftr x (32 - n)).
Definition not_u32 (x : Z) : Z := Z.lxor x (2 ^ 32 - 1).

(** [to_be_bytes] of an [n]-byte integer. *)
Fixpoint to_be_bytes (n : nat) (z : Z) : bytes :=
  match n with O => [] | S n => (z / 256 ^ Z.of_nat n) mod 256 :: to_be_bytes n z end.

Definition from_be_bytes (l : bytes) : Z := foldl (fun acc b => acc * 256 + b) 0 l.

(** ** SHA-1 *)

(** [while padded.len() % 64 != 56]: at most 63 turns. *)
Fixpoint push_zeros (fuel : nat) (padded : bytes) : bytes :=
  match fuel with
  | O => padded
  | S n => if Nat.eqb (length padded mod 64) 56 then padded else push_zeros n (padded ++ [0])
  end.

Definition sha1_padded (data : bytes) : bytes :=
  let bit_len := wrap 64 (Z.of_nat (length data) * 8) in
  push_zeros 64 (data ++ [128]) ++ to_be_bytes 8 bit_len.

(** [chunks(64)]. *)
Fixpoint chunks64 (fuel : nat) (l : bytes) : list bytes :=
  match fuel, l with
  | S n, _ :: _ => take 64 l :: chunks64 n (drop 64 l)
  | _, _ => []
  end.

Definition chunk_word (chunk : bytes) (i : nat) : option Z :=
  b0 ← chunk !! (i * 4)%nat; b1 ← chunk !! (i * 4 + 1)%nat;
  b2 ← chunk !! (i * 4 + 2)%nat; b3 ← chunk !! (i * 4 + 3)%nat;
  Some (from_be_bytes [b0; b1; b2; b3]).

(** [w[i] = value], a panic past the end. *)
Definition set_word (w : list Z) (i : nat) (value : Z) : option (list Z) :=
  if Nat.ltb i (length w) then Some (<[i := value]> w) else None.

Definition load_word (chunk : bytes) (w : option (list Z)) (i : nat) : option (list Z) :=
  w ← w; v ← chunk_word chunk i; set_word w i v.

Definition expand_word (w : option (list Z)) (i : nat) : option (list Z) :=
  w ← w; w3 ← w !! (i - 3)%nat; w8 ← w !! (i - 8)%nat; w14 ← w !! (i - 14)%nat; w16 ← w !! (i - 16)%nat;
  set_word w i (rotate_left (Z.lxor (Z.lxor (Z.lxor w3 w8) w14) w16) 1).

Definition schedule (chunk : bytes) : option (list Z) :=
  foldl expand_word (foldl (load_word chunk) (Some (replicate 80 0)) (seq 0 16)) (seq 16 64).

Record Words := { wa : Z; wb : Z; wc : Z; wd : Z; we : Z }.

Definition round_fk (i : nat) (s : Words) : Z * Z :=
  let '{| wb := b; wc := c; wd := d |} := s in
  if Nat.leb i 19 then (Z.lor (Z.land b c) (Z.land (not_u32 b) d), 1518500249)
  else if Nat.leb i 39 then (Z.lxor (Z.lxor b c) d, 1859775393)
  else if Nat.leb i 59 then (Z.lor (Z.lor (Z.land b c) (Z.land b d)) (Z.land c d), 2400959708)
  else (Z.lxor (Z.lxor b c) d, 3395469782).

Definition round_step (w : list Z) (st : option Words) (i : nat) : option Words :=
  s ← st; wi ← w !! i;
  let '(f, k) := round_fk i s in
  let temp := wrapping_add 32 (wrapping_add 32 (wrapping_add 32 (wrapping_add 32
                (rotate_left (wa s) 5) f) (we s)) k) wi in
  Some {| wa := temp; wb := wa s; wc := rotate_left (wb s) 30; wd := wc s; we := wd s |}.

Definition process_chunk (h : option Words) (chunk : bytes) : option Words :=
  h ← h; w ← schedule chunk; s ← foldl (round_step w) (Some h) (seq 0 80);
  Some {| wa := wrapping_add 32 (wa h) (wa s); wb := wrapping_add 32 (wb h) (wb s);
          wc := wrapping_add 32 (wc h) (wc s); wd := wrapping_add 32 (wd h) (wd s);
          we := wrapping_add 32 (we h) (we s) |}.

Definition sha1_init : Words :=
  {| wa := 1732584193; wb := 4023233417; wc := 2562383102; wd := 271733878; we := 3285377520 |}.

Definition sha1_hash (data : bytes) : option bytes :=
  let padded := sha1_padded data in
  h ← foldl process_chunk (Some sha1_init) (chunks64 (length padded) padded);
  Some (to_be_bytes 4 (wa h) ++ to_be_bytes 4 (wb h) ++ to_be_bytes 4 (wc h)
        ++ to_be_bytes 4 (wd h) ++ to_be_bytes 4 (we h)).

(** ** HMAC-SHA1 *)

Definition BLOCK_SIZE : nat := 64.

(** [block[..n].copy_from_slice(src)] over a zeroed block. *)
Definition fill_block (src : bytes) : bytes := src ++ replicate (BLOCK_SIZE - length src) 0.

Definition hmac_key_block (key : bytes) : option bytes :=
  if Nat.ltb BLOCK_SIZE (length key) then h ← sha1_hash key; Some (fill_block h)
  else Some (fill_block key).

Definition hmac_sha1 (key message : bytes) : option bytes :=
  key_block ← hmac_key_block key;
  let ipad := zip_with Z.lxor (replicate BLOCK_SIZE 54) key_block in
  let opad := zip_with Z.lxor (replicate BLOCK_SIZE 92) key_block in
  inner_hash ← sha1_hash (ipad ++ message);
  sha1_hash (opad ++ inner_hash).

(** ** Base32 *)

Definition BASE32_ALPHABET : string := "ABCDEFGHIJKLMNOPQRSTUVWXYZ234567".

(** The characters whose upper case, by Unicode, is ASCII although they are
    not: the sharp s, the dotless i, the long s and the Latin ligatures. *)
Definition ascii_expansions : list (string * string) :=
  [("ß", "SS"); ("ı", "I"); ("ſ", "S"); ("ﬀ", "FF"); ("ﬁ", "FI"); ("ﬂ", "FL"); ("ﬃ", "FFI");
   ("ﬄ", "FFL"); ("ﬅ", "ST"); ("ﬆ", "ST")].

Definition expansion_of (s : string) : option string :=
  snd <$> List.find (fun p => starts_with p.1 s) ascii_expansions.

(** Filter and upper case.  A character whose upper case is not ASCII keeps its
    bytes: both texts have a character the decoder refuses there. *)
Fixpoint base32_clean (skip : nat) (s : string) : string :=
  match s with
  | EmptyString => EmptyString
  | String a r =>
      match skip with
      | S k => base32_clean k r
      | O =>
          if Ascii.eqb a "=" || Ascii.eqb a " " then base32_clean 0 r
          else match expansion_of s with
          | Some up => up +:+ base32_clean (if code a <? 224 then 1 else 2) r
          | None => String (upper_ascii a) (base32_clean 0 r)
          end
      end
  end.

Definition base32_value (ch : ascii) : option Z :=
  if in_range 65 90 ch then Some (code ch - 65)
  else if in_range 50 55 ch then Some (code ch - 50 + 26)
  else None.

(** The decoder's [bits], [bit_count] and [output]. *)
Record Decoder := { d_bits : Z; d_count : Z; d_out : bytes }.

Definition decode_value (d : Decoder) (val : Z) : Decoder :=
  let bits := Z.lor (wrap 64 (Z.shiftl (d_bits d) 5)) val in
  let bit_count := d_count d + 5 in
  if 8 <=? bit_count then
    let bit_count := bit_count - 8 in
    {| d_bits := Z.land bits (Z.shiftl 1 bit_count - 1); d_count := bit_count;
       d_out := d_out d ++ [wrap 8 (Z.shiftr bits bit_count)] |}
  else {| d_bits := bits; d_count := bit_count; d_out := d_out d |}.

Fixpoint decode_chars (d : Decoder) (s : string) : option Decoder :=
  match s with
  | EmptyString => Some d
  | String ch r => val ← base32_value ch; decode_chars (decode_value d val) r
  end.

Definition base32_decode (input : string) : option bytes :=
  let input := base32_clean 0 (trim input) in
  if String.eqb input "" then None
  else d_out <$> decode_chars {| d_bits := 0; d_count := 0; d_out := [] |} input.

(** The encoder's [bits], [bit_count] and [result]. *)
Record Encoder := { e_bits : Z; e_count : Z; e_result : string }.

Definition alphabet_char (idx : Z) : ascii :=
  default "A"%char (String.get (Z.to_nat idx) BASE32_ALPHABET).

Definition emit_char (e : Encoder) : Encoder :=
  let bit_count := e_count e - 5 in
  let idx := Z.land (Z.shiftr (e_bits e) bit_count) 31 in
  {| e_bits := Z.land (e_bits e) (Z.shiftl 1 bit_count - 1); e_count := bit_count;
     e_result := e_result e +:+ String (alphabet_char idx) "" |}.

(** [while bit_count >= 5]: a byte brings the count to 12 at most. *)
Fixpoint emit_chars (fuel : nat) (e : Encoder) : Encoder :=
  match fuel with
  | O => e
  | S n => if 5 <=? e_count e then emit_chars n (emit_char e) else e
  end.

Definition encode_byte (e : Encoder) (byte : Z) : Encoder :=
  emit_chars 3 {| e_bits := Z.lor (wrap 64 (Z.shiftl (e_bits e) 8)) byte;
                  e_count := e_count e + 8; e_result := e_result e |}.

Definition encode_finish (e : Encoder) : string :=
  if 0 <? e_count e then
    let idx := Z.land (wrap 64 (Z.shiftl (e_bits e) (5 - e_count e))) 31 in
    e_result e +:+ String (alphabet_char idx) ""
  else e_result e.

Definition base32_encode (data : bytes) : string :=
  encode_finish (foldl encode_byte {| e_bits := 0; e_count := 0; e_result := "" |} data).

(** ** Percent-encoding *)

Definition alnum (a : ascii) : bool := in_range 48 57 a || in_range 65 90 a || in_range 97 122 a.
Definition unreserved (a : ascii) : bool :=
  alnum a || Ascii.eqb a "-" || Ascii.eqb a "_" || Ascii.eqb a "." || Ascii.eqb a "~".

Definition hex_upper (d : Z) : ascii := byte_of (if d <? 10 then 48 + d else 55 + d).

(** A character outside the unreserved ones is written byte by byte. *)
Fixpoint percent_encode (s : string) : string :=
  match s with
  | EmptyString => ""
  | String a r =>
      if unreserved a then String a (percent_encode r)
      else String "%" (String (hex_upper (code a / 16)) (String (hex_upper (code a mod 16)) (percent_encode r)))
  end.

(** ** The provider *)

Record TotpProvider := { secret : bytes }.

Definition TotpProvider_new (secret_base32 : string) : option TotpProvider :=
  secret ← base32_decode secret_base32;
  if Nat.ltb (length secret) 10 then None else Some {| secret := secret |}.

Definition generate_code (p : TotpProvider) (time_step : Z) : option Z :=
  hash ← hmac_sha1 (secret p) (to_be_bytes 8 time_step);
  last ← hash !! 19%nat;
  let offset := Z.to_nat (Z.land last 15) in
  h0 ← hash !! offset; h1 ← hash !! (offset + 1)%nat; h2 ← hash !! (offset + 2)%nat; h3 ← hash !! (offset + 3)%nat;
  let code := Z.lor (Z.lor (Z.lor (Z.shiftl (Z.land h0 127) 24) (Z.shiftl h1 16)) (Z.shiftl h2 8)) h3 in
  Some (code mod 1000000).

Notation all_digits := (all_chars (in_range 48 57)).

Definition six_digits (s : string) : bool := Nat.eqb (String.length s) 6 && all_digits s.

(** [(time_step as i64 + offset) as u64]. *)
Definition step_at (time_step offset : Z) : Z := wrap 64 (as_signed 64 time_step + offset).

(** The loop over the offsets, until one matches; [None] is a panic. *)
Fixpoint any_step (p : TotpProvider) (time_step user_code : Z) (offsets : list Z) : option bool :=
  match offsets with
  | [] => Some false
  | o :: rest =>
      c ← generate_code p (step_at time_step o);
      if c =? user_code then Some true else any_step p time_step user_code rest
  end.

Definition verify (p : TotpProvider) (code : string) (now : Z) : option bool :=
  let code := trim code in
  if negb (six_digits code) then Some false
  else match parse_uint 32 code with
  | None => Some false
  | Some user_code => any_step p (now / 30) user_code [0; -1; 1]
  end.

Definition generate_uri (p : TotpProvider) (account issuer : string) : string :=
  "otpauth://totp/" +:+ percent_encode issuer +:+ ":" +:+ percent_encode account
  +:+ "?secret=" +:+ base32_encode (secret p) +:+ "&issuer=" +:+ percent_encode issuer
  +:+ "&algorithm=SHA1&digits=6&period=30".

(** [random] is what the operating system fills the 20 bytes with. *)
Definition generate_secret (random : bytes) : string := base32_encode random.

Definition ascii_bytes (s : string) : bytes := code <$> list_ascii_of_string s.

(** ** SHA-1 is total *)

#[local] Ltac Zify.zify_post_hook ::= Z.to_euclidean_division_equations.

Lemma to_be_bytes_length n z : length (to_be_bytes n z) = n.
Proof. induction n as [|n IH]; cbn; [done|by rewrite IH]. Qed.

Lemma to_be_bytes_bytes n z : Forall is_byte (to_be_bytes n z).
Proof.
  induction n as [|n IH]; cbn; constructor; [|done].
  apply (Z.mod_pos_bound _ 256). lia.
Qed.

Lemma push_zeros_spec fuel : forall p,
  ((120 - length p mod 64) mod 64 <= fuel)%nat ->
  exists k, push_zeros fuel p = p ++ replicate k 0 /\ (length (push_zeros fuel p) mod 64 = 56)%nat.
Proof.
  induction fuel as [|n IH]; intros p Hf; cbn [push_zeros].
  - exists O. rewrite app_nil_r. split; [done|lia].
  - destruct (Nat.eqb_spec (length p mod 64) 56) as [E|E]; [exists O; by rewrite app_nil_r|].
    destruct (IH (p ++ [0])) as (k & Ek & Hm); [rewrite length_app; cbn [length]; lia|].
    exists (S k). split; [|done]. rewrite Ek, <- app_assoc. done.
Qed.

Lemma sha1_padded_spec data :
  exists k, sha1_padded data = data ++ [128] ++ replicate k 0 ++ to_be_bytes 8 (wrap 64 (Z.of_nat (length data) * 8))
    /\ (length (sha1_padded data) mod 64 = 0)%nat.
Proof.
  destruct (push_zeros_spec 64 (data ++ [128])) as (k & E & Hm); [lia|].
  exists k. unfold sha1_padded. rewrite length_app, to_be_bytes_length. split; [|lia].
  by rewrite E, <- !app_assoc.
Qed.

Lemma chunks64_full fuel : forall l, (length l mod 64 = 0)%nat -> (length l <= fuel)%nat ->
  Forall (fun c => length c = 64%nat) (chunks64 fuel l) /\ concat (chunks64 fuel l) = l.
Proof.
  induction fuel as [|n IH]; intros [|x l] Hm Hl; cbn [chunks64]; try done; [cbn in Hl; lia|].
  assert (64 <= length (x :: l))%nat by (cbn [length] in *; lia).
  destruct (IH (drop 64 (x :: l))) as [H1 H2]; [rewrite length_drop; lia..|].
  split; [constructor; [rewrite length_take; lia|done]|].
  cbn [concat]. rewrite H2. apply take_drop.
Qed.

Lemma chunk_word_total chunk i : length chunk = 64%nat -> (i < 16)%nat -> is_Some (chunk_word chunk i).
Proof.
  intros Hc Hi. unfold chunk_word.
  destruct (lookup_lt_is_Some_2 chunk (i * 4)) as [b0 ->]; [lia|]; cbn.
  destruct (lookup_lt_is_Some_2 chunk (i * 4 + 1)) as [b1 ->]; [lia|]; cbn.
  destruct (lookup_lt_is_Some_2 chunk (i * 4 + 2)) as [b2 ->]; [lia|]; cbn.
  destruct (lookup_lt_is_Some_2 chunk (i * 4 + 3)) as [b3 ->]; [lia|]; cbn. by eexists.
Qed.

Lemma set_word_ok w i v : (i < length w)%nat -> set_word w i v = Some (<[i := v]> w).
Proof. intros H. unfold set_word. by rewrite (proj2 (Nat.ltb_lt _ _) H). Qed.

(** What the schedule holds once the first [n] words are filled. *)
Definition word_at (w : list Z) (t : nat) : Z := default 0 (w !! t).

Definition expanded (w : list Z) (t : nat) : Z :=
  rotate_left (Z.lxor (Z.lxor (Z.lxor (word_at w (t - 3)) (word_at w (t - 8))) (word_at w (t - 14))) (word_at w (t - 16))) 1.

Definition filled (chunk : bytes) (n : nat) (w : list Z) : Prop :=
  length w = 80%nat /\
  (forall t, (t < n `min` 16)%nat -> w !! t = chunk_word chunk t) /\
  (forall t, (16 <= t < n)%nat -> word_at w t = expanded w t).

Lemma word_at_insert_ne w i t v : i <> t -> word_at (<[i := v]> w) t = word_at w t.
Proof. intros H. unfold word_at. by rewrite list_lookup_insert_ne. Qed.

Lemma load_words chunk : length chunk = 64%nat -> forall n, (n <= 16)%nat ->
  exists w, foldl (load_word chunk) (Some (replicate 80 0)) (seq 0 n) = Some w /\ filled chunk n w.
Proof.
  intros Hc. induction n as [|n IH]; intros Hn.
  - eexists. split; [done|]. split_and!; [done|lia..].
  - destruct IH as (w & E & Hl & Hw & _); [lia|]. rewrite seq_S, foldl_app, E. cbn [foldl load_word Nat.add].
    destruct (chunk_word_total chunk n) as [v Ev]; [lia..|]. cbn. rewrite Ev. cbn. rewrite set_word_ok by lia.
    eexists. split; [done|]. split_and!; [by rewrite length_insert| |lia].
    intros t Ht. destruct (decide (t = n)) as [->|Hne]; [by rewrite list_lookup_insert_eq by lia|].
    rewrite list_lookup_insert_ne by done. apply Hw. lia.
Qed.

Lemma expand_one chunk n w : (16 <= n < 80)%nat -> filled chunk n w ->
  exists w', expand_word (Some w) n = Some w' /\ filled chunk (S n) w'.
Proof.
  intros Hn (Hl & Hw & Hx). unfold expand_word. cbn.
  assert (forall k, (0 < k <= 16)%nat -> w !! (n - k)%nat = Some (word_at w (n - k))) as Hk.
  { intros k ?. unfold word_at. by destruct (lookup_lt_is_Some_2 w (n - k)) as [? ->]; [lia|]. }
  rewrite !Hk by lia. cbn. rewrite set_word_ok by lia. eexists. split; [done|]. split_and!.
  - by rewrite length_insert.
  - intros t Ht. rewrite list_lookup_insert_ne by lia. apply Hw. lia.
  - intros t Ht. destruct (decide (t = n)) as [->|Hne].
    + unfold expanded. rewrite !(word_at_insert_ne w n (n - _)) by lia.
      unfold word_at at 1. by rewrite list_lookup_insert_eq by lia.
    + unfold expanded. rewrite !word_at_insert_ne by lia. apply Hx. lia.
Qed.

Lemma schedule_ok chunk : length chunk = 64%nat -> exists w, schedule chunk = Some w /\ filled chunk 80 w.
Proof.
  intros Hc. unfold schedule. destruct (load_words chunk Hc 16) as (w & -> & Hw); [done|].
  assert (forall k, (k <= 64)%nat -> exists w', foldl expand_word (Some w) (seq 16 k) = Some w' /\ filled chunk (16 + k) w') as H.
  { induction k as [|k IH]; intros Hk; [by exists w|]. destruct IH as (w1 & E & H1); [lia|].
    rewrite seq_S, foldl_app, E. cbn [foldl]. replace (16 + S k)%nat with (S (16 + k)) by lia. apply expand_one; [lia|done]. }
  apply (H 64%nat). lia.
Qed.

Lemma rounds_total w s : length w = 80%nat -> is_Some (foldl (round_step w) (Some s) (seq 0 80)).
Proof.
  intros Hw. assert (forall l s, Forall (fun i => i < 80)%nat l -> is_Some (foldl (round_step w) (Some s) l)) as H.
  { induction l as [|i l IH]; intros s' Hl; [by eexists|]. apply Forall_cons in Hl as [Hi Hl]. cbn [foldl].
    unfold round_step at 2. cbn. destruct (lookup_lt_is_Some_2 w i) as [wi ->]; [lia|]. cbn.
    destruct (round_fk i s') as [f k]. by apply IH. }
  apply H, Forall_forall. intros i Hi. apply elem_of_seq in Hi. lia.
Qed.

Lemma process_chunks_total l : forall h, Forall (fun c => length c = 64%nat) l ->
  is_Some (foldl process_chunk (Some h) l).
Proof.
  induction l as [|c l IH]; intros h Hl; [by eexists|]. apply Forall_cons in Hl as [Hc Hl]. cbn [foldl].
  unfold process_chunk at 2. cbn [mbind option_bind].
  destruct (schedule_ok c Hc) as (w & -> & Hw & _). cbn [mbind option_bind].
  destruct (rounds_total w h Hw) as [s ->]. cbn [mbind option_bind]. by apply IH.
Qed.

Lemma sha1_hash_total data : exists h, sha1_hash data = Some h /\ length h = 20%nat /\ Forall is_byte h.
Proof.
  unfold sha1_hash. destruct (sha1_padded_spec data) as (k & _ & Hm).
  destruct (chunks64_full _ _ Hm (Nat.le_refl _)) as [Hc _].
  destruct (process_chunks_total _ sha1_init Hc) as [h ->]. cbn [mbind option_bind]. eexists. split; [done|].
  rewrite !length_app, !to_be_bytes_length. split; [done|]. rewrite !Forall_app. by auto 10 using to_be_bytes_bytes.
Qed.

(** The schedule is that of FIPS 180-4: its first sixteen words are the
    block's, big-endian, and every other word is the rotated exclusive or of
    the words 3, 8, 14 and 16 places before it. *)
Theorem schedule_exact (chunk : bytes) : length chunk = 64%nat ->
  exists w, schedule chunk = Some w /\ length w = 80%nat /\
    (forall t, (t < 16)%nat -> w !! t = chunk_word chunk t) /\
    (forall t, (16 <= t < 80)%nat -> word_at w t = expanded w t).
Proof.
  intros Hc. destruct (schedule_ok chunk Hc) as (w & E & Hl & Hw & Hx).
  exists w. split_and!; [done..| |done]. intros t Ht. apply Hw. lia.
Qed.

Lemma schedule_exact_witness : exists w, schedule (replicate 64 0) = Some w /\ length w = 80%nat /\
  (forall t, (t < 16)%nat -> w !! t = chunk_word (replicate 64 0) t) /\
  (forall t, (16 <= t < 80)%nat -> word_at w t = expanded w t).
Proof. apply (schedule_exact (replicate 64 0)). reflexivity. Defined.

Lemma from_to_be_bytes n : forall z acc, 0 <= z < 256 ^ Z.of_nat n ->
  foldl (fun acc b => acc * 256 + b) acc (to_be_bytes n z) = acc * 256 ^ Z.of_nat n + z.
Proof.
  assert (forall n z acc, foldl (fun acc b => acc * 256 + b) acc (to_be_bytes n z)
    = acc * 256 ^ Z.of_nat n + z mod 256 ^ Z.of_nat n) as H.
  { clear n. induction n as [|n IH]; intros z acc; cbn [to_be_bytes foldl]; [rewrite Z.mod_1_r; cbn; lia|].
    rewrite IH, Nat2Z.inj_succ, Z.pow_succ_r by lia. rewrite (Z.mul_comm 256 (256 ^ Z.of_nat n)).
    rewrite (Z.rem_mul_r z) by lia. ring. }
  intros z acc Hz. rewrite H. by rewrite Z.mod_small.
Qed.

(** Two messages of at most 2^61 - 1 bytes are padded alike only if they are
    the same message. *)
Theorem padding_injective (m1 m2 : bytes) :
  Z.of_nat (length m1) < 2 ^ 61 -> Z.of_nat (length m2) < 2 ^ 61 ->
  sha1_padded m1 = sha1_padded m2 -> m1 = m2.
Proof.
  intros H1 H2 E. destruct (sha1_padded_spec m1) as (k1 & E1 & _), (sha1_padded_spec m2) as (k2 & E2 & _).
  assert (length m1 = length m2) as Hl.
  { rewrite E1, E2, !app_assoc in E. apply app_inj_2 in E as [_ E]; [|by rewrite !to_be_bytes_length].
    apply (f_equal (foldl (fun acc b => acc * 256 + b) 0)) in E.
    rewrite !wrap_small, !from_to_be_bytes in E by (unfold in_width; lia). lia. }
  rewrite E1, E2 in E. by apply app_inj_1 in E as [E _].
Qed.

Lemma padding_injective_witness : [1; 2] = [1; 2].
Proof. apply (padding_injective [1; 2] [1; 2]); [cbn; lia..|reflexivity]. Defined.

(** ** HMAC and the codes *)

Lemma fill_block_length src : (length src <= 64)%nat -> length (fill_block src) = 64%nat.
Proof. intros H. unfold fill_block, BLOCK_SIZE. rewrite length_app, length_replicate. lia. Qed.

Lemma hmac_total key message : exists h, hmac_sha1 key message = Some h /\ length h = 20%nat /\ Forall is_byte h.
Proof.
  unfold hmac_sha1. assert (exists kb, hmac_key_block key = Some kb) as [kb ->].
  { unfold hmac_key_block. destruct (Nat.ltb _ _); [|by eexists].
    destruct (sha1_hash_total key) as (h & -> & _). by eexists. }
  cbn [mbind option_bind]. match goal with |- context [sha1_hash (?i ++ message)] => destruct (sha1_hash_total (i ++ message)) as (ih & -> & _) end.
  cbn [mbind option_bind]. apply sha1_hash_total.
Qed.

(** The key block has the block's length, as the two XOR loops over it need. *)
Theorem hmac_key_block_length (key : bytes) : length <$> hmac_key_block key = Some BLOCK_SIZE.
Proof.
  unfold hmac_key_block. destruct (Nat.ltb_spec BLOCK_SIZE (length key)).
  - destruct (sha1_hash_total key) as (h & -> & Hl & _). cbn [mbind option_bind fmap option_fmap option_map].
    by rewrite fill_block_length by lia.
  - cbn [fmap option_fmap option_map]. by rewrite fill_block_length by (unfold BLOCK_SIZE in *; lia).
Qed.

Lemma generate_code_total p t : exists c, generate_code p t = Some c /\ 0 <= c < 1000000.
Proof.
  unfold generate_code. destruct (hmac_total (secret p) (to_be_bytes 8 t)) as (h & -> & Hl & Hb).
  cbn [mbind option_bind]. destruct (lookup_lt_is_Some_2 h 19) as [x Ex]; [lia|]. rewrite Ex. cbn [mbind option_bind].
  assert (Z.land x 15 <= 15 /\ 0 <= Z.land x 15) as Hx.
  { change (Z.land x 15) with (Z.land x (Z.ones 4)). rewrite Z.land_ones by lia. change (2 ^ 4) with 16. lia. }
  set (o := Z.to_nat (Z.land x 15)). assert (o <= 15)%nat by lia.
  destruct (lookup_lt_is_Some_2 h o) as [h0 ->]; [lia|]. cbn [mbind option_bind].
  destruct (lookup_lt_is_Some_2 h (o + 1)) as [h1 ->]; [lia|]. cbn [mbind option_bind].
  destruct (lookup_lt_is_Some_2 h (o + 2)) as [h2 ->]; [lia|]. cbn [mbind option_bind].
  destruct (lookup_lt_is_Some_2 h (o + 3)) as [h3 ->]; [lia|]. cbn [mbind option_bind].
  eexists. split; [done|]. by apply Z.mod_pos_bound.
Qed.

Lemma any_step_spec p ts c offsets : exists b, any_step p ts c offsets = Some b /\
  (b = true <-> exists o, o ∈ offsets /\ generate_code p (step_at ts o) = Some c).
Proof.
  induction offsets as [|o rest (b & E & Hb)]; cbn [any_step].
  - exists false. split; [done|]. split; [done|]. intros (o & H & _). by apply elem_of_nil in H.
  - destruct (generate_code_total p (step_at ts o)) as (g & Eg & _). rewrite Eg. cbn [mbind option_bind].
    destruct (Z.eqb_spec g c) as [->|Hne].
    + exists true. split; [done|]. split; [|done]. intros _. exists o. split; [by left|done].
    + exists b. split; [done|]. rewrite Hb. split.
      * intros (o' & Hin & Ho). exists o'. split; [by right|done].
      * intros (o' & [->|Hin]%elem_of_cons & Ho); [congruence|by exists o'].
Qed.

Lemma parse_digits_bound s : all_digits s = true -> forall acc, 0 <= acc ->
  exists v, parse_digits 10 digit_of acc s = Some v /\ 0 <= v < (acc + 1) * 10 ^ Z.of_nat (String.length s).
Proof.
  induction s as [|a r IH]; intros Hs acc Ha; cbn [parse_digits String.length]; [exists acc; split; [done|]; change (10 ^ Z.of_nat 0) with 1; lia|].
  cbn [all_chars] in Hs. apply andb_true_iff in Hs as [Hd Hr].
  unfold in_range in Hd. unfold digit_of at 1. rewrite Hd. cbv iota. bool_to_prop.
  destruct (IH Hr (acc * 10 + (code a - 48))) as (v & -> & Hv); [lia|]. exists v. split; [done|].
  rewrite Nat2Z.inj_succ, Z.pow_succ_r by lia. nia.
Qed.

Lemma digit_not_plus a r : all_digits (String a r) = true -> Ascii.eqb a "+" = false.
Proof.
  intros H. cbn [all_chars] in H. apply andb_true_iff in H as [H _]. apply Ascii.eqb_neq. intros ->.
  vm_compute in H. discriminate.
Qed.

Lemma six_digits_parse s : six_digits s = true ->
  exists v, parse_uint 32 s = Some v /\ parse_digits 10 digit_of 0 s = Some v.
Proof.
  unfold six_digits. intros [H6%Nat.eqb_eq Hd]%andb_true_iff.
  destruct s as [|a r] eqn:E; [done|]. rewrite <- E in *.
  destruct (parse_digits_bound s Hd 0) as (v & Hv & Hb); [lia|]. rewrite H6 in Hb.
  exists v. split; [|done]. unfold parse_uint, parse_radix. rewrite E in Hd. rewrite E, (digit_not_plus _ _ Hd).
  rewrite <- E, Hv. destruct (Z.ltb_spec v (2 ^ 32)); [done|lia].
Qed.

(** [verify] never panics, and accepts a text exactly when, without the white
    space around it, it is six digits whose value is the code of the current
    half-minute, of the one before or of the one after. *)
Theorem verify_exact (p : TotpProvider) (text : string) (now : Z) :
  exists b, verify p text now = Some b /\
    (b = true <->
     six_digits (trim text) = true /\
     exists o v, o ∈ [0; -1; 1] /\ parse_digits 10 digit_of 0 (trim text) = Some v /\
       generate_code p (step_at (now / 30) o) = Some v).
Proof.
  unfold verify. destruct (six_digits (trim text)) eqn:E6; cbn [negb].
  - destruct (six_digits_parse _ E6) as (v & -> & Hv).
    destruct (any_step_spec p (now / 30) v [0; -1; 1]) as (b & -> & Hb). exists b. split; [done|].
    rewrite Hb. split.
    + intros (o & Ho & Hg). split; [done|]. exists o, v. split_and!; [done|exact Hv|done].
    + intros (_ & o & v' & Ho & Hv' & Hg). exists o. rewrite Hv in Hv'. split; [done|congruence].
  - exists false. split; [done|]. split; [done|by intros [? _]].
Qed.

(** ** SHA-1 is that of FIPS 180-4 *)

Lemma octets_bytes n z : octets n z = to_be_bytes n z.
Proof.
  unfold octets. induction n as [|n IH]; [done|]. rewrite seq_S, reverse_app. cbn [to_be_bytes].
  rewrite <- IH. cbn. f_equal. rewrite Z.pow_mul_r by lia. done.
Qed.

Lemma number_from_be l : number l = from_be_bytes l.
Proof. done. Qed.

Lemma rotate_ROTL x n : 0 <= n <= 32 -> rotate_left x n = ROTL n x.
Proof. intros Hn. unfold rotate_left, ROTL, wrap. by rewrite Z.shiftl_mul_pow2, Z.shiftr_div_pow2 by lia. Qed.

Lemma words_lookup i : forall l, words l !! i = chunk_word l i.
Proof.
  induction i as [|i IH]; intros l; destruct l as [|a [|b [|c [|d l]]]]; try done.
  exact (IH l).
Qed.

Lemma nth_word_at w i : nth i w 0 = word_at w i.
Proof. apply nth_lookup. Qed.

Lemma word_at_take w n i : (i < n)%nat -> word_at (take n w) i = word_at w i.
Proof. intros Hi. unfold word_at. by rewrite lookup_take_lt. Qed.

(** The array the source fills is the schedule of the standard. *)
Lemma schedule_sha chunk : length chunk = 64%nat -> schedule chunk = Some (sha_W (words chunk) 64).
Proof.
  intros Hc. destruct (schedule_ok chunk Hc) as (w & -> & Hl & Hw & Hx). f_equal.
  assert (forall n, (n <= 64)%nat -> take (16 + n) w = sha_W (words chunk) n) as H.
  { induction n as [|n IH]; intros Hn.
    - cbn [sha_W]. apply list_eq. intros i. rewrite words_lookup. destruct (decide (i < 16)%nat).
      + rewrite lookup_take_lt by lia. apply Hw. lia.
      + rewrite lookup_take_ge by lia. unfold chunk_word. rewrite (lookup_ge_None_2 chunk (i * 4)) by lia. done.
    - destruct (lookup_lt_is_Some_2 w (16 + n)) as [x Ex]; [lia|]. replace (16 + S n)%nat with (S (16 + n)) by lia.
      rewrite (take_S_r _ _ _ Ex). cbn [sha_W]. rewrite <- IH by lia. do 2 f_equal. rewrite !nth_word_at, !word_at_take by lia.
      specialize (Hx (16 + n)%nat). unfold word_at at 1 in Hx. rewrite Ex in Hx. cbn in Hx. rewrite Hx by lia. unfold expanded. by rewrite rotate_ROTL by lia. }
  rewrite <- (H 64%nat) by lia. rewrite take_ge by lia. done.
Qed.

Definition five_of (s : Words) : Z * Z * Z * Z * Z := (wa s, wb s, wc s, wd s, we s).
Definition words_ok (s : Words) : Prop := in_width 32 (wa s) /\ in_width 32 (wb s) /\ in_width 32 (wc s) /\ in_width 32 (wd s).

Lemma high_bit x i : in_width 32 x -> 32 <= i -> Z.testbit x i = false.
Proof. intros Hx Hi. rewrite <- (Z.mod_small x (2 ^ 32)) by exact Hx. apply Z.mod_pow2_bits_high. lia. Qed.

Lemma choose_Ch b c d : in_width 32 b -> in_width 32 d -> Z.lor (Z.land b c) (Z.land (not_u32 b) d) = Ch b c d.
Proof.
  intros Hb Hd. unfold Ch, not_u32. apply Z.bits_inj'. intros i Hi.
  rewrite Z.lor_spec, Z.lxor_spec, !Z.land_spec, Z.ldiff_spec, Z.lxor_spec. change (2 ^ 32 - 1) with (Z.ones 32).
  destruct (Z.lt_ge_cases i 32).
  - rewrite Z.ones_spec_low by lia. by destruct (Z.testbit b i), (Z.testbit c i), (Z.testbit d i).
  - by rewrite (high_bit b), (high_bit d), !andb_false_r by done.
Qed.

Lemma majority_Maj b c d : Z.lor (Z.lor (Z.land b c) (Z.land b d)) (Z.land c d) = Maj b c d.
Proof.
  unfold Maj. apply Z.bits_inj'. intros i Hi. rewrite !Z.lor_spec, !Z.lxor_spec, !Z.land_spec.
  by destruct (Z.testbit b i), (Z.testbit c i), (Z.testbit d i).
Qed.

Lemma round_fk_sha i s : words_ok s -> round_fk i s = (sha_f i (wb s) (wc s) (wd s), sha_K i).
Proof.
  intros (_ & Hb & _ & Hd). destruct s as [a b c d e]. unfold round_fk, sha_f, sha_K. cbn [wb wc wd] in *.
  destruct (Nat.leb_spec i 19), (Nat.ltb_spec i 20); try lia; [by rewrite choose_Ch|].
  destruct (Nat.leb_spec i 39), (Nat.ltb_spec i 40); try lia; [done|].
  destruct (Nat.leb_spec i 59), (Nat.ltb_spec i 60); try lia; [by rewrite majority_Maj|done].
Qed.

Lemma ROTL_width x : in_width 32 x -> in_width 32 (ROTL 30 x).
Proof.
  intros Hx. unfold ROTL, in_width in *. change (32 - 30) with 2.
  assert ((x * 2 ^ 30) mod 2 ^ 32 = Z.shiftl (x mod 2 ^ 2) 30) as ->.
  { rewrite Z.shiftl_mul_pow2 by lia. change (2 ^ 32) with (2 ^ 2 * 2 ^ 30). by rewrite Z.mul_mod_distr_r by lia. }
  rewrite lor_shiftl_add by lia. lia.
Qed.

Lemma round_sha w i s : length w = 80%nat -> (i < 80)%nat -> words_ok s ->
  exists s', round_step w (Some s) i = Some s' /\ words_ok s' /\ five_of s' = sha_round w (five_of s) i.
Proof.
  intros Hw Hi Hs. unfold round_step. cbn [mbind option_bind]. destruct (lookup_lt_is_Some_2 w i) as [wi Ei]; [lia|].
  rewrite Ei. cbn [mbind option_bind]. rewrite round_fk_sha by done. eexists. split; [done|]. destruct Hs as (Ha & Hb & Hc & Hd).
  unfold words_ok, five_of, sha_round. cbn [wa wb wc wd we]. rewrite nth_word_at. unfold word_at. rewrite Ei. cbn [default].
  rewrite !rotate_ROTL by lia. split; [split_and!; [apply wrap_range; lia|done|by apply ROTL_width|done]|].
  unfold wrapping_add, wrap. by rewrite (Zplus_mod_idemp_l _ (we s)), (Zplus_mod_idemp_l _ (sha_K i)), (Zplus_mod_idemp_l _ wi).
Qed.

Lemma rounds_sha w l : forall s, length w = 80%nat -> Forall (fun i => i < 80)%nat l -> words_ok s ->
  exists s', foldl (round_step w) (Some s) l = Some s' /\ words_ok s' /\ five_of s' = foldl (sha_round w) (five_of s) l.
Proof.
  induction l as [|i l IH]; intros s Hw Hl Hs; [by exists s|]. apply Forall_cons in Hl as [Hi Hl].
  destruct (round_sha w i s Hw Hi Hs) as (s1 & E & H1 & F). cbn [foldl]. rewrite E, <- F. by apply IH.
Qed.

Lemma chunk_sha h chunk : length chunk = 64%nat -> words_ok h ->
  exists h', process_chunk (Some h) chunk = Some h' /\ words_ok h' /\ five_of h' = sha_block (five_of h) (words chunk).
Proof.
  intros Hc Hh. unfold process_chunk. cbn [mbind option_bind]. destruct (schedule_ok chunk Hc) as (w & E & Hl & _).
  pose proof (schedule_sha chunk Hc) as E'. apply (eq_trans (eq_sym E)), (inj Some) in E' as Ew. rewrite E. cbn [mbind option_bind].
  destruct (rounds_sha w (seq 0 80) h Hl) as (s & -> & Hs & F); [apply Forall_forall; intros i Hi%elem_of_seq; lia|done|].
  cbn [mbind option_bind]. eexists. split; [done|]. split; [split_and!; apply wrap_range; lia|].
  unfold sha_block. rewrite <- Ew, <- F. unfold five_of, wrapping_add, wrap. cbn [wa wb wc wd we]. by rewrite (Z.add_comm (wa h)), (Z.add_comm (wb h)), (Z.add_comm (wc h)), (Z.add_comm (wd h)), (Z.add_comm (we h)).
Qed.

Lemma chunks_sha l : forall h, Forall (fun c => length c = 64%nat) l -> words_ok h ->
  exists h', foldl process_chunk (Some h) l = Some h' /\ five_of h' = foldl sha_block (five_of h) (words <$> l).
Proof.
  induction l as [|c l IH]; intros h Hl Hh; [by exists h|]. apply Forall_cons in Hl as [Hc Hl].
  destruct (chunk_sha h c Hc Hh) as (h1 & E & H1 & F). cbn [foldl fmap list_fmap]. rewrite E, <- F. by apply IH.
Qed.

Lemma chunks64_blocks fuel : forall l, (length l mod 64 = 0)%nat -> (length l <= fuel)%nat -> words <$> chunks64 fuel l = blocks l.
Proof.
  unfold blocks. induction fuel as [|n IH]; intros [|x l] Hm Hl; try done; [cbn in Hl; lia|].
  assert (64 <= length (x :: l))%nat as H64 by (cbn [length] in *; lia). cbn [chunks64 fmap list_fmap]. rewrite IH by (rewrite length_drop; lia).
  rewrite length_drop. set (y := x :: l) in *. replace (length y / 64)%nat with (S ((length y - 64) / 64)) by lia.
  rewrite <- cons_seq, <- fmap_S_seq. cbn [fmap list_fmap]. rewrite <- list_fmap_compose. f_equal. apply list_fmap_ext. intros _ i _. cbn.
  rewrite drop_drop. do 3 f_equal. lia.
Qed.

Lemma push_zeros_fewest fuel : forall p, ((120 - length p mod 64) mod 64 <= fuel)%nat ->
  push_zeros fuel p = p ++ replicate ((120 - length p mod 64) mod 64) 0.
Proof.
  induction fuel as [|n IH]; intros p Hf; cbn [push_zeros].
  - replace ((120 - length p mod 64) mod 64)%nat with 0%nat by lia. by rewrite app_nil_r.
  - destruct (Nat.eqb_spec (length p mod 64) 56) as [E|E]; [rewrite E; by rewrite app_nil_r|].
    rewrite IH by (rewrite length_app; cbn [length]; lia). rewrite <- app_assoc. f_equal. rewrite length_app. cbn [length].
    replace ((120 - length p mod 64) mod 64)%nat with (S ((120 - (length p + 1) mod 64) mod 64)) by lia. done.
Qed.

Lemma to_be_bytes_wrap z : to_be_bytes 8 (wrap 64 z) = to_be_bytes 8 z.
Proof.
  rewrite <- !octets_bytes. unfold octets, wrap. apply list_fmap_ext. intros i k Hk%list_elem_of_lookup_2.
  rewrite elem_of_reverse, elem_of_seq in Hk. set (d := 2 ^ (8 * Z.of_nat k)). set (r := 2 ^ (56 - 8 * Z.of_nat k)).
  assert (0 < d /\ 0 < r) as [Hd Hr] by lia.
  assert (2 ^ 64 = d * (2 ^ 8 * r)) as -> by (unfold d, r; rewrite <- !Z.pow_add_r by lia; f_equal; lia).
  rewrite (Z.rem_mul_r z d) by lia. rewrite (Z.mul_comm d), Z.div_add, (Z.div_small (z mod d)), Z.add_0_l by (try apply Z.mod_pos_bound; lia).
  rewrite (Z.rem_mul_r (z / d) (2 ^ 8)) by lia. rewrite (Z.mul_comm (2 ^ 8)), Z_mod_plus_full. apply Z.mod_mod. lia.
Qed.

Lemma sha1_padded_sha m : sha1_padded m = sha_pad m.
Proof.
  unfold sha1_padded, sha_pad. rewrite push_zeros_fewest by lia. rewrite octets_bytes, to_be_bytes_wrap, <- !app_assoc. do 4 f_equal; [|lia].
  rewrite length_app. cbn [length]. f_equal. lia.
Qed.

Lemma sha1_is_SHA1 m : sha1_hash m = Some (SHA1 m).
Proof.
  unfold sha1_hash, SHA1. destruct (sha1_padded_spec m) as (k & _ & Hm). destruct (chunks64_full _ _ Hm (Nat.le_refl _)) as [Hc _].
  destruct (chunks_sha _ sha1_init Hc) as (h & -> & F); [by repeat split|]. cbn [mbind option_bind].
  rewrite chunks64_blocks, sha1_padded_sha in F by done. unfold five_of in F. cbn [sha1_init wa wb wc wd we] in F.
  match goal with |- context [foldl sha_block ?a ?b] => change (foldl sha_block a b) with (foldl sha_block (1732584193, 4023233417, 2562383102, 271733878, 3285377520) b) end.
  rewrite <- F, !octets_bytes. done.
Qed.

Lemma hmac_is_HMAC key m : hmac_sha1 key m = Some (HMAC key m).
Proof.
  unfold hmac_sha1, HMAC. assert (hmac_key_block key = Some (hmac_K key) /\ length (hmac_K key) = 64%nat) as [-> Hl].
  { unfold hmac_key_block, hmac_K, fill_block, BLOCK_SIZE. destruct (Nat.ltb_spec 64 (length key)) as [Hk|Hk].
    - destruct (sha1_hash_total key) as (h & E & Hl & _). rewrite sha1_is_SHA1 in *. injection E as <-. cbn [mbind option_bind].
      rewrite take_app, length_app, take_replicate, length_replicate, take_ge, Hl by lia. done.
    - rewrite take_app, length_app, take_replicate, length_replicate, (take_ge key) by lia. split; [|lia]. do 3 f_equal. lia. }
  cbn [mbind option_bind]. rewrite !zip_with_replicate_l by (unfold BLOCK_SIZE; lia). rewrite sha1_is_SHA1. cbn [mbind option_bind].
  by rewrite sha1_is_SHA1.
Qed.

Lemma truncated h0 h1 h2 h3 : is_byte h0 -> is_byte h1 -> is_byte h2 -> is_byte h3 ->
  Z.lor (Z.lor (Z.lor (Z.shiftl (Z.land h0 127) 24) (Z.shiftl h1 16)) (Z.shiftl h2 8)) h3 = number [h0; h1; h2; h3] mod 2 ^ 31.
Proof.
  unfold is_byte, in_width, number. change (2 ^ 8) with 256. intros H0 H1 H2 H3. cbn [foldl].
  change 127 with (Z.ones 7). rewrite Z.land_ones by lia. rewrite <- !Z.lor_assoc.
  rewrite (lor_shiftl_add h2) by lia. rewrite (lor_shiftl_add h1) by lia. rewrite lor_shiftl_add by lia. lia.
Qed.

Lemma generate_is_HOTP p t : generate_code p t = Some (HOTP (secret p) t).
Proof.
  unfold generate_code, HOTP, DT. destruct (hmac_total (secret p) (to_be_bytes 8 t)) as (h & E & Hl & Hb).
  rewrite hmac_is_HMAC in *. apply (inj Some) in E. cbn [mbind option_bind]. rewrite octets_bytes, E. clear E.
  destruct (lookup_lt_is_Some_2 h 19) as [x Ex]; [lia|]. rewrite Ex. cbn [mbind option_bind]. rewrite nth_lookup, Ex. cbn [default from_option id].
  change 15 with (Z.ones 4). rewrite Z.land_ones by lia. change (2 ^ 4) with 16. set (o := Z.to_nat (x mod 16)). assert (o <= 15)%nat by lia.
  assert (forall k, (k < 4)%nat -> exists b, h !! (o + k)%nat = Some b /\ is_byte b) as Hk.
  { intros k ?. destruct (lookup_lt_is_Some_2 h (o + k)) as [b E]; [lia|]. exists b. split; [done|]. by eapply Forall_lookup in Hb. }
  destruct (Hk 0%nat) as (h0 & E0 & B0), (Hk 1%nat) as (h1 & E1 & B1), (Hk 2%nat) as (h2 & E2 & B2), (Hk 3%nat) as (h3 & E3 & B3); try lia.
  rewrite Nat.add_0_r in E0. rewrite E0, E1, E2, E3. cbn [mbind option_bind]. rewrite truncated by done. do 3 f_equal.
  rewrite (drop_S _ _ _ E0). replace (o + 1)%nat with (S o) in E1 by lia. rewrite (drop_S _ _ _ E1).
  replace (o + 2)%nat with (S (S o)) in E2 by lia. rewrite (drop_S _ _ _ E2). replace (o + 3)%nat with (S (S (S o))) in E3 by lia.
  rewrite (drop_S _ _ _ E3). done.
Qed.

(** ** Base32 reads back what it wrote *)

Lemma alphabet_value idx : 0 <= idx < 32 -> base32_value (alphabet_char idx) = Some idx.
Proof.
  intros H. assert (idx ∈ seqZ 0 32) as Hin by (apply elem_of_seqZ; lia). revert Hin. clear H.
  assert (forallb (fun i => bool_decide (base32_value (alphabet_char i) = Some i)) (seqZ 0 32) = true) as Hall by reflexivity.
  intros Hin. by apply (proj1 (forallb_elem _ _) Hall) in Hin as ?%bool_decide_eq_true_1.
Qed.

Lemma shift_in_wrapped bits k v : 0 <= bits < 2 ^ 16 -> 0 <= k <= 8 -> 0 <= v < 2 ^ k ->
  Z.lor (wrap 64 (Z.shiftl bits k)) v = bits * 2 ^ k + v.
Proof.
  intros Hb Hk Hv. rewrite wrap_small; [apply lor_shiftl_add; lia|].
  rewrite Z.shiftl_mul_pow2 by lia. unfold in_width. assert (2 ^ k <= 2 ^ 8) by (apply Z.pow_le_mono_r; lia). nia.
Qed.

Lemma mask_mod z k : 0 <= k -> Z.land z (Z.shiftl 1 k - 1) = z mod 2 ^ k.
Proof.
  intros Hk. rewrite Z.shiftl_1_l. replace (2 ^ k - 1) with (Z.ones k) by (rewrite Z.ones_equiv; lia).
  by rewrite Z.land_ones.
Qed.

Lemma land_31 z : Z.land z 31 = z mod 32.
Proof. change 31 with (Z.ones 5). by rewrite Z.land_ones by lia. Qed.

Lemma decode_value_arith bits count out v : 0 <= bits < 2 ^ 16 -> 0 <= v < 32 -> 0 <= count ->
  decode_value {| d_bits := bits; d_count := count; d_out := out |} v =
  if 8 <=? count + 5 then
    {| d_bits := (bits * 32 + v) mod 2 ^ (count - 3); d_count := count - 3;
       d_out := out ++ [((bits * 32 + v) / 2 ^ (count - 3)) mod 256] |}
  else {| d_bits := bits * 32 + v; d_count := count + 5; d_out := out |}.
Proof.
  intros Hb Hv Hc. unfold decode_value. cbn [d_bits d_count d_out].
  rewrite shift_in_wrapped by lia. change (2 ^ 5) with 32.
  destruct (Z.leb_spec 8 (count + 5)); [|done].
  replace (count + 5 - 8) with (count - 3) by lia. rewrite mask_mod, Z.shiftr_div_pow2 by lia. done.
Qed.

Lemma emit_char_arith bits count r : 5 <= count ->
  emit_char {| e_bits := bits; e_count := count; e_result := r |} =
  {| e_bits := bits mod 2 ^ (count - 5); e_count := count - 5;
     e_result := r +:+ String (alphabet_char ((bits / 2 ^ (count - 5)) mod 32)) "" |}.
Proof.
  intros Hc. unfold emit_char. cbn [e_bits e_count e_result].
  by rewrite land_31, mask_mod, Z.shiftr_div_pow2 by lia.
Qed.

Lemma decode_chars_app s t : forall d,
  decode_chars d (s +:+ t) = d' ← decode_chars d s; decode_chars d' t.
Proof.
  induction s as [|a s IH]; intros d; [done|].
  change (String a s +:+ t) with (String a (s +:+ t)). cbn [decode_chars].
  destruct (base32_value a); cbn [mbind option_bind]; [apply IH|done].
Qed.

Lemma decode_alphabet d s idx d' : 0 <= idx < 32 -> decode_chars d s = Some d' ->
  decode_chars d (s +:+ String (alphabet_char idx) "") = Some (decode_value d' idx).
Proof.
  intros Hi Hd. rewrite decode_chars_app, Hd. cbn [mbind option_bind decode_chars].
  by rewrite alphabet_value.
Qed.

Definition decoder0 : Decoder := {| d_bits := 0; d_count := 0; d_out := [] |}.

(** The decoder on what the encoder has written: it lacks the [e_count] low
    bits of the last byte, which the encoder still holds. *)
Definition in_step (data : bytes) (e : Encoder) : Prop :=
  exists d, decode_chars decoder0 (e_result e) = Some d /\
    ((e_count e = 0 /\ e_bits e = 0 /\ d = {| d_bits := 0; d_count := 0; d_out := data |}) \/
     (1 <= e_count e <= 4 /\ exists front b, data = front ++ [b] /\ is_byte b /\
        e_bits e = b mod 2 ^ e_count e /\
        d = {| d_bits := b / 2 ^ e_count e; d_count := 8 - e_count e; d_out := front |})).

Ltac compute_counts :=
  repeat match goal with
  | |- context [Z.leb (Zpos ?a) (Zpos ?b)] => let r := eval cbv in (Z.leb (Zpos a) (Zpos b)) in change (Z.leb (Zpos a) (Zpos b)) with r; cbv iota
  | |- context [Z.leb (Zpos ?a) 0] => change (Z.leb (Zpos a) 0) with false; cbv iota
  | |- context [?x + ?y] => match x with Zpos _ => idtac | Z0 => idtac end; match y with Zpos _ => idtac end;
      let r := eval cbv in (x + y) in change (x + y) with r
  | |- context [?x - ?y] => match x with Zpos _ => idtac end; match y with Zpos _ => idtac end;
      let r := eval cbv in (x - y) in change (x - y) with r
  | |- context [2 ^ ?k] => match k with Zpos _ => idtac | Z0 => idtac end;
      let r := eval cbv in (2 ^ k) in change (2 ^ k) with r
  end.

(** One byte into the encoder, from each of the counts it can hold. *)
Lemma encode_byte_in_step data e b : in_step data e -> is_byte b -> in_step (data ++ [b]) (encode_byte e b).
Proof.
  intros (d & Hd & H) Hb. destruct e as [bits c r]. cbn [e_bits e_count e_result] in *.
  unfold is_byte, in_width in *. change (2 ^ 8) with 256 in *.
  unfold encode_byte. cbn [e_bits e_count e_result].
  destruct H as [(-> & -> & ->)|(Hc & front & x & -> & Hx & -> & ->)].
  - rewrite shift_in_wrapped by lia. cbn [emit_chars e_count]. compute_counts.
    rewrite emit_char_arith by lia. cbn [e_count]. compute_counts.
    eexists. cbn [e_result e_count e_bits]. split; [apply decode_alphabet; [lia|exact Hd]|]. right. split; [lia|].
    exists data, b. split_and!; [done|exact Hb|compute_counts; lia|].
    rewrite decode_value_arith by lia. compute_counts. f_equal; lia.
  - assert (c = 1 \/ c = 2 \/ c = 3 \/ c = 4) as [->|[->|[->| ->]]] by lia.
    all: rewrite shift_in_wrapped by (compute_counts; lia); cbn [emit_chars e_count]; compute_counts;
      repeat (rewrite emit_char_arith by lia; cbn [e_count]; compute_counts).
    all: eexists; cbn [e_result e_count e_bits]; split; [repeat (apply decode_alphabet; [lia|]); exact Hd|].
    all: repeat (rewrite decode_value_arith by (compute_counts; lia); compute_counts).
    2: { left. split_and!; [done|lia|repeat first [lia|f_equal]]. }
    all: right; split; [lia|]; eexists _, b; split_and!; [reflexivity|exact Hb|compute_counts; lia|].
    all: compute_counts; repeat first [lia|f_equal].
Qed.

Lemma encode_in_step data : Forall is_byte data ->
  in_step data (foldl encode_byte {| e_bits := 0; e_count := 0; e_result := "" |} data).
Proof.
  induction data as [|b data IH] using rev_ind; intros H.
  - exists decoder0. split; [done|]. left. done.
  - apply Forall_app in H as [Hd [Hb _]%Forall_cons]. rewrite foldl_app. apply encode_byte_in_step; auto.
Qed.

Lemma encode_finish_decodes data e : in_step data e ->
  exists d, decode_chars decoder0 (encode_finish e) = Some d /\ d_out d = data.
Proof.
  intros (d & Hd & H). destruct e as [bits c r]. unfold encode_finish. cbn [e_bits e_count e_result] in *.
  destruct H as [(-> & -> & ->)|(Hc & front & x & -> & Hx & -> & ->)]; [by eexists|].
  unfold is_byte, in_width in Hx. change (2 ^ 8) with 256 in Hx.
  assert (c = 1 \/ c = 2 \/ c = 3 \/ c = 4) as [->|[->|[->| ->]]] by lia.
  all: cbn [Z.ltb Z.compare]; rewrite Z.shiftl_mul_pow2 by lia; rewrite wrap_small by (unfold in_width; compute_counts; lia).
  all: eexists; split; [apply decode_alphabet; [rewrite land_31; lia|exact Hd]|].
  all: rewrite land_31, decode_value_arith by (compute_counts; lia); compute_counts; cbn [d_out].
  all: repeat first [lia|f_equal].
Qed.

(** A character of the alphabet is visible and survives the clean-up. *)
Definition base32_char (a : ascii) : bool := match base32_value a with Some _ => true | None => false end.

Lemma base32_char_clean a r : base32_char a = true ->
  visible a = true /\ base32_clean 0 (String a r) = String a (base32_clean 0 r).
Proof. destruct a as [[][][][][][][][]]; try discriminate; intros _; split; reflexivity. Qed.

Lemma decoded_chars s : forall d d', decode_chars d s = Some d' -> all_chars base32_char s = true.
Proof.
  induction s as [|a s IH]; intros d d' H; [done|]. cbn [decode_chars] in H. cbn [all_chars].
  unfold base32_char at 1. destruct (base32_value a); [|done]. eapply IH, H.
Qed.

Lemma clean_alphabet s : all_chars base32_char s = true -> base32_clean 0 (trim s) = s.
Proof.
  intros H. rewrite trim_visible; [|by eapply all_chars_impl, H; intros a Ha; apply (base32_char_clean a "" Ha)].
  induction s as [|a s IH]; [done|]. cbn [all_chars] in H. apply andb_true_iff in H as [Ha Hs].
  rewrite (proj2 (base32_char_clean a s Ha)). by rewrite IH.
Qed.

Lemma base32_decode_encode data : data <> [] -> Forall is_byte data -> base32_decode (base32_encode data) = Some data.
Proof.
  intros Hne Hb. destruct (encode_finish_decodes _ _ (encode_in_step data Hb)) as (d & Hd & Ho).
  unfold base32_decode, base32_encode. rewrite clean_alphabet by eapply decoded_chars, Hd.
  fold decoder0. destruct (String.eqb_spec (encode_finish (foldl encode_byte {| e_bits := 0; e_count := 0; e_result := "" |} data)) "") as [E|_].
  - rewrite E in Hd. injection Hd as <-. cbn in Ho. congruence.
  - rewrite Hd. cbn [fmap option_fmap option_map]. by rewrite Ho.
Qed.

(** Base32 reads back what it wrote, whatever the bytes. *)
Theorem base32_roundtrip (data : bytes) : data <> [] -> Forall is_byte data ->
  base32_decode (base32_encode data) = Some data.
Proof. apply base32_decode_encode. Qed.

Lemma base32_roundtrip_witness : base32_decode (base32_encode [0; 255; 7]) = Some [0; 255; 7].
Proof.
  apply (base32_roundtrip [0; 255; 7]); [discriminate|].
  repeat constructor; unfold is_byte, in_width; lia.
Defined.

(** ** The texts of the standards *)

Lemma alphabet_rfc idx : 0 <= idx < 32 -> alphabet_char idx = Rfc6238.base32_char idx.
Proof.
  intros H. assert (idx ∈ seqZ 0 32) as Hin by (apply elem_of_seqZ; lia). revert Hin. clear H.
  assert (forallb (fun i => bool_decide (alphabet_char i = Rfc6238.base32_char i)) (seqZ 0 32) = true) as Hall by reflexivity.
  intros Hin. by apply (proj1 (forallb_elem _ _) Hall) in Hin as ?%bool_decide_eq_true_1.
Qed.

(** The encoder has taken in [len] bits, the number [z]: it has written them but
    for the last [e_count], which it holds. *)
Definition encodes (z len : Z) (e : Encoder) : Prop :=
  0 <= e_count e /\ exists n, 5 * Z.of_nat n + e_count e = len /\
    e_result e = base32_text n (z / 2 ^ e_count e) /\ e_bits e = z mod 2 ^ e_count e.

Lemma emit_encodes z len e : encodes z len e -> 5 <= e_count e -> encodes z len (emit_char e) /\ e_count (emit_char e) = e_count e - 5.
Proof.
  destruct e as [bits c r]. unfold encodes. cbn [e_bits e_count e_result]. intros (_ & n & Hn & -> & ->) Hc.
  rewrite emit_char_arith by lia. cbn [e_bits e_count e_result]. split; [|done]. split; [lia|]. exists (S n). split; [lia|].
  set (p := 2 ^ (c - 5)). assert (0 < p) as Hp by (unfold p; lia).
  assert (2 ^ c = p * 32) as -> by (unfold p; change 32 with (2 ^ 5); rewrite <- Z.pow_add_r by lia; f_equal; lia).
  rewrite (Z.rem_mul_r z p 32) by lia. rewrite (Z.mul_comm p (_ mod 32)), Z.div_add, (Z.div_small (z mod p)), Z.add_0_l, Z.mod_mod
    by (try apply Z.mod_pos_bound; lia). cbn [base32_text]. rewrite Z.div_div by lia. rewrite alphabet_rfc by (apply Z.mod_pos_bound; lia).
  split; [done|]. rewrite Z_mod_plus_full. apply Z.mod_mod. lia.
Qed.

Lemma emits_encodes z len fuel : forall e, encodes z len e -> e_count e < 5 * Z.of_nat fuel + 5 ->
  encodes z len (emit_chars fuel e) /\ e_count (emit_chars fuel e) < 5.
Proof.
  induction fuel as [|n IH]; intros e He Hf; cbn [emit_chars]; [by split; [|lia]|]. destruct (Z.leb_spec 5 (e_count e)) as [H5|H5]; [|done].
  destruct (emit_encodes z len e He H5) as [He' Ec]. apply IH; [done|]. lia.
Qed.

Lemma byte_encodes z len e b : encodes z len e -> e_count e < 5 -> is_byte b ->
  encodes (z * 2 ^ 8 + b) (len + 8) (encode_byte e b) /\ e_count (encode_byte e b) < 5.
Proof.
  destruct e as [bits c r]. unfold encode_byte. cbn [e_bits e_count e_result]. intros (H0 & n & Hn & Hr & Hbits) Hc Hb.
  cbn [e_bits e_count e_result] in *. subst r bits.
  apply emits_encodes; cbn [e_bits e_count e_result]; [|lia]. split; cbn [e_bits e_count e_result]; [lia|]. exists n. split; [lia|].
  set (q := 2 ^ c). assert (0 < q <= 2 ^ 4) as [Hq Hq4] by (unfold q; split; [lia|apply Z.pow_le_mono_r; lia]). assert (2 ^ (c + 8) = 2 ^ 8 * q) as -> by (unfold q; rewrite Z.pow_add_r by lia; lia).
  unfold is_byte, in_width in Hb. assert ((z * 2 ^ 8 + b) / 2 ^ 8 = z) as Ez by lia. split.
  - by rewrite <- Z.div_div, Ez by lia.
  - rewrite shift_in_wrapped by (pose proof (Z.mod_pos_bound z q Hq); lia). rewrite Z.rem_mul_r, Ez by lia. lia.
Qed.

Lemma data_encodes data : Forall is_byte data ->
  let e := foldl encode_byte {| e_bits := 0; e_count := 0; e_result := "" |} data in
  encodes (number data) (8 * Z.of_nat (length data)) e /\ e_count e < 5.
Proof.
  induction data as [|b data IH] using rev_ind; intros H.
  - split; [|done]. split; [done|]. exists 0%nat. done.
  - apply Forall_app in H as [Hd [Hb _]%Forall_cons]. destruct (IH Hd) as [He Hc]. cbv zeta. unfold number in *. rewrite !foldl_app, length_app.
    cbn [length foldl]. replace (8 * Z.of_nat (length data + 1)) with (8 * Z.of_nat (length data) + 8) by lia. by apply byte_encodes.
Qed.

Lemma encode_is_BASE32 data : Forall is_byte data -> (length data mod 5 = 0)%nat -> base32_encode data = BASE32 data.
Proof.
  intros Hb Hm. destruct (data_encodes data Hb) as [(H0 & n & Hn & Hr & _) Hc]. unfold base32_encode, encode_finish, BASE32.
  assert (e_count (foldl encode_byte {| e_bits := 0; e_count := 0; e_result := "" |} data) = 0) as Ec by lia.
  rewrite Ec in *. cbn [Z.ltb Z.compare]. rewrite Hr, Z.div_1_r. f_equal. lia.
Qed.

Lemma parsed_digits s : forall acc v, parse_digits 10 digit_of acc s = Some v -> all_digits s = true.
Proof.
  induction s as [|a s IH]; intros acc v H; [done|]. cbn [parse_digits] in H. cbn [all_chars].
  unfold digit_of at 1 in H. unfold in_range. destruct (_ && _); [|done]. eapply IH, H.
Qed.

(** As many digits, the same number: the same text. *)
Lemma parse_digits_inj s : forall t acc acc' v, String.length s = String.length t ->
  parse_digits 10 digit_of acc s = Some v -> parse_digits 10 digit_of acc' t = Some v -> s = t /\ acc = acc'.
Proof.
  induction s as [|a s IH]; intros [|b t] acc acc' v Hl Hs Ht; try done; cbn [parse_digits] in *; [split; congruence|].
  injection Hl as Hl. unfold digit_of at 1 in Hs. unfold digit_of at 1 in Ht.
  destruct (_ && _) eqn:Ea in Hs; [|done]. destruct (_ && _) eqn:Eb in Ht; [|done].
  destruct (IH _ _ _ _ Hl Hs Ht) as [-> E]. bool_to_prop. assert (code a = code b) as Hab by lia. apply code_inj in Hab as ->. split; [done|lia].
Qed.

Lemma digit_of_byte x : 0 <= x < 10 -> digit_of (byte_of (48 + x)) = Some x.
Proof.
  intros Hx. unfold digit_of. rewrite code_byte_of, Z.mod_small by lia. rewrite (proj2 (Z.leb_le 48 _)), (proj2 (Z.leb_le _ 57)) by lia.
  cbn [andb]. f_equal. lia.
Qed.

Lemma parse_decimal n : forall z acc s, 
  parse_digits 10 digit_of acc (decimal n z +:+ s) = parse_digits 10 digit_of (acc * 10 ^ Z.of_nat n + z mod 10 ^ Z.of_nat n) s.
Proof.
  induction n as [|n IH]; intros z acc s; cbn [decimal].
  - rewrite Z.mod_1_r. f_equal. cbn. lia.
  - rewrite append_assoc, IH. change (String ?a "" +:+ s) with (String a s). cbn [parse_digits].
    rewrite digit_of_byte by (apply Z.mod_pos_bound; lia). f_equal. rewrite Nat2Z.inj_succ, Z.pow_succ_r by lia.
    rewrite (Z.rem_mul_r z 10) by lia. ring.
Qed.

Lemma decimal_length n : forall z, String.length (decimal n z) = n.
Proof. induction n as [|n IH]; intros z; cbn [decimal]; [done|]. rewrite string_length_app, IH. cbn. lia. Qed.

Lemma append_empty_r (s : string) : s +:+ "" = s.
Proof. induction s as [|a s IH]; [done|]. exact (f_equal (String a) IH). Qed.

(** Six digits whose number is [c]. *)
Lemma six_digits_decimal s c : 0 <= c < 10 ^ 6 -> six_digits s = true /\ parse_digits 10 digit_of 0 s = Some c <-> s = decimal 6 c.
Proof.
  intros Hc. assert (parse_digits 10 digit_of 0 (decimal 6 c) = Some c) as Hp.
  { pose proof (parse_decimal 6 c 0 "") as E. rewrite append_empty_r in E. rewrite E. cbn [parse_digits]. f_equal. rewrite Z.mod_small by done. lia. }
  unfold six_digits. split.
  - intros [[Hl%Nat.eqb_eq _]%andb_true_iff Hs]. eapply parse_digits_inj; [by rewrite decimal_length|exact Hs|exact Hp].
  - intros ->. split; [|exact Hp]. apply andb_true_iff. split; [by rewrite decimal_length|]. eapply parsed_digits, Hp.
Qed.

(** ** Enrolment and verification together *)

Lemma step_at_exact now o : 30 <= now < 2 ^ 63 -> o ∈ [-1; 0; 1] -> step_at (now / 30) o = (now + 30 * o) / 30.
Proof.
  intros Hn Ho. replace (now + 30 * o) with (now + o * 30) by lia. rewrite Z.div_add by lia.
  assert (-1 <= o <= 1) by (repeat (apply elem_of_cons in Ho as [->|Ho]; [lia|]); by apply elem_of_nil in Ho).
  unfold step_at, as_signed. change (64 - 1) with 63. rewrite (proj2 (Z.ltb_lt _ _)) by lia. apply wrap_small. unfold in_width. lia.
Qed.

(** C30. The secret that is handed out is the base32 of RFC 4648 of the twenty
    random bytes and is read back to them.  A text is then accepted at [now] exactly
    when, but for white space around it, it is what an authenticator of that secret
    shows at [now], half a minute before or half a minute after: the six digits of
    RFC 6238, computed there from SHA-1, HMAC and HOTP as the standards define
    them.  The clock is in seconds, past the first half-minute of 1970. *)
Theorem enrolled_code_accepted (random : bytes) (now : Z) (text : string) :
  length random = 20%nat -> Forall is_byte random -> 30 <= now < 2 ^ 63 ->
  generate_secret random = BASE32 random /\
  exists p accepted, TotpProvider_new (generate_secret random) = Some p /\ verify p text now = Some accepted /\
    (accepted = true <-> exists o, o ∈ [-1; 0; 1] /\ trim text = shown random (now + 30 * o)).
Proof.
  intros Hl Hb Hn. split; [apply encode_is_BASE32; [done|by rewrite Hl]|]. set (p := {| secret := random |}).
  destruct (verify_exact p text now) as (b & Hv & Hspec). exists p, b. split_and!; [|exact Hv|].
  - unfold TotpProvider_new, generate_secret. rewrite base32_decode_encode; [|intros E; rewrite E in Hl; discriminate Hl|exact Hb].
    cbn [mbind option_bind]. rewrite Hl. reflexivity.
  - rewrite Hspec. unfold shown, TOTP. split.
    + intros (H6 & o & v & Ho & Hp & Hg). exists o. assert (o ∈ [-1; 0; 1]) as Ho' by set_solver. split; [done|].
      rewrite generate_is_HOTP, step_at_exact in Hg by done. apply (inj Some) in Hg as <-.
      apply six_digits_decimal; [by apply Z.mod_pos_bound|done].
    + intros (o & Ho & E). apply six_digits_decimal in E as [H6 Hp]; [|by apply Z.mod_pos_bound]. split; [done|].
      exists o. eexists. split_and!; [set_solver|exact Hp|]. by rewrite generate_is_HOTP, step_at_exact.
Qed.

Definition rfc_secret : bytes := ascii_bytes "12345678901234567890".

(** The code of the half-minute before, with a blank behind it. *)
Lemma enrolled_code_accepted_witness :
  (shown rfc_secret 59 = "287082" /\ trim "287082 " = shown rfc_secret (89 + 30 * -1)) /\
  generate_secret rfc_secret = BASE32 rfc_secret /\
  exists p accepted, TotpProvider_new (generate_secret rfc_secret) = Some p /\ verify p "287082 " 89 = Some accepted /\
    (accepted = true <-> exists o, o ∈ [-1; 0; 1] /\ trim "287082 " = shown rfc_secret (89 + 30 * o)).
Proof.
  split; [split; vm_compute; reflexivity|]. apply (enrolled_code_accepted rfc_secret 89 "287082 "); [reflexivity| |split; reflexivity || discriminate].
  repeat (constructor; [unfold is_byte, in_width; split; [discriminate|reflexivity]|]). constructor.
Defined.

(** ** The URI of the QR code *)

Lemma hex_upper_unreserved d : 0 <= d < 16 -> unreserved (hex_upper d) = true.
Proof.
  intros H. assert (d ∈ seqZ 0 16) as Hin by (apply elem_of_seqZ; lia). revert Hin.
  apply (proj1 (forallb_elem (fun d => unreserved (hex_upper d)) (seqZ 0 16))). reflexivity.
Qed.

(** A percent-encoded name has only unreserved characters and percent signs:
    no account or issuer can add a parameter to the URI. *)
Theorem uri_name_safe (s : string) :
  all_chars (fun a => unreserved a || Ascii.eqb a "%") (percent_encode s) = true.
Proof.
  induction s as [|a s IH]; [done|]. cbn [percent_encode].
  destruct (unreserved a) eqn:E; cbn [all_chars]; [by rewrite E, IH|].
  assert (0 <= code a < 256) as Hc by (unfold code; pose proof (N_ascii_bounded a); lia).
  rewrite !hex_upper_unreserved, IH by lia. done.
Qed.

(** ** Known answers *)

(** The vectors of FIPS 180-4 (one and two blocks), of RFC 2202 (a key of 80
    bytes) and of RFC 6238, to six digits. *)
Example known_answers :
  sha1_hash (ascii_bytes "abc") = Some [169; 153; 62; 54; 71; 6; 129; 106; 186; 62; 37; 113; 120; 80; 194; 108; 156; 208; 216; 157] /\
  sha1_hash (ascii_bytes "abcdbcdecdefdefgefghfghighijhijkijkljklmklmnlmnomnopnopq") =
    Some [132; 152; 62; 68; 28; 59; 210; 110; 186; 174; 74; 161; 249; 81; 41; 229; 229; 70; 112; 241] /\
  hmac_sha1 (replicate 80 170) (ascii_bytes "Test Using Larger Than Block-Size Key - Hash Key First") =
    Some [170; 74; 229; 225; 82; 114; 208; 14; 149; 112; 86; 55; 206; 138; 59; 85; 237; 64; 33; 18] /\
  (generate_code {| secret := rfc_secret |} <$> ((fun t => t / 30) <$> [59; 1111111109; 1111111111; 1234567890; 2000000000; 20000000000])) =
    [Some 287082; Some 81804; Some 50471; Some 5924; Some 279037; Some 353130] /\
  base32_encode (ascii_bytes "foobar") = "MZXW6YTBOI" /\
  base32_decode "mzxw 6ytboi======" = Some (ascii_bytes "foobar").
Proof. vm_compute. split_and!; reflexivity. Qed.
