(* ===== verification/AgentTwoFactor.v ===== *)
(** * AgentTwoFactor: sensitive Telegram actions behind a one-time code
    (the state of crates/agent/src/two_factor.rs, the gate, the code handler
    and the gated commands of bot_helpers.rs and bot_commands.rs, the routing of
    telegram/client.rs)

    A message from the operator's chat becomes an [ApprovalResult]; the handlers
    answer it with a new state and a list of [Effect]s: the changes of files and
    tables that were made, and the replies.  What the files answered to one
    message is its [Io].  The commands that no code protects, which do not touch
    this state, are left out.  Codes are those of AgentTotp.v. *)

From Stdlib Require Import ZArith Lia Ascii String.
From stdpp Require Import prelude strings gmap list sorting.
From S2P Require Import Prelude Text Net AgentTotp.

Local Open Scope string_scope.
Local Open Scope list_scope.
Local Open Scope Z_scope.

(** ** The state *)

Inductive TwoFactorMethod := MethodNone | Totp | Dashboard.

Definition TwoFactorMethod_from_str `{Lowercase} (s : string) : TwoFactorMethod :=
  let s := to_lowercase s in
  if String.eqb s "totp" then Totp else if String.eqb s "dashboard" then Dashboard else MethodNone.

Definition TwoFactorMethod_label (m : TwoFactorMethod) : string :=
  match m with MethodNone => "none" | Totp => "TOTP" | Dashboard => "dashboard" end.

Inductive PendingActionType :=
| AllowlistProcess (comm : string)
| AllowlistIp (ip : string)
| UndoAllowlist (section key : string)
| AutoFpAllowlist (section entity : string)
| ModeChange (mode : string)
| Unblock (ip : string).

#[global] Instance PendingActionType_eq_dec : EqDecision PendingActionType.
Proof. solve_decision. Defined.

Record PendingAction := {
  action_type : PendingActionType;
  pa_operator : string;
  created_at : Z;
  expires_at : Z;
  pa_method : TwoFactorMethod;
}.

Record TwoFactorState := {
  pending : gmap string PendingAction;
  failed_attempts : gmap string (list Z);
  max_failures_per_hour : Z;
}.

Definition TwoFactorState_new : TwoFactorState :=
  {| pending := ∅; failed_attempts := ∅; max_failures_per_hour := 3 |}.

Definition one_hour : Z := seconds 3600.
Definition five_minutes : Z := seconds 300.

Definition recent (now : Z) (attempts : list Z) : list Z := retain (fun t => now - one_hour <? t) attempts.

Definition is_locked_out (st : TwoFactorState) (operator : string) (now : Z) : bool :=
  match failed_attempts st !! operator with
  | Some attempts => max_failures_per_hour st <=? Z.of_nat (length (recent now attempts))
  | None => false
  end.

Definition with_failures (st : TwoFactorState) (f : gmap string (list Z)) : TwoFactorState :=
  {| pending := pending st; failed_attempts := f; max_failures_per_hour := max_failures_per_hour st |}.
Definition with_pending (st : TwoFactorState) (p : gmap string PendingAction) : TwoFactorState :=
  {| pending := p; failed_attempts := failed_attempts st; max_failures_per_hour := max_failures_per_hour st |}.

Definition record_failure (st : TwoFactorState) (operator : string) (now : Z) : TwoFactorState :=
  let attempts := default [] (failed_attempts st !! operator) ++ [now] in
  with_failures st (<[operator := recent now attempts]> (failed_attempts st)).

Definition set_pending (st : TwoFactorState) (operator : string) (action : PendingAction) : TwoFactorState :=
  with_pending st (<[operator := action]> (pending st)).

Definition take_pending (st : TwoFactorState) (operator : string) : TwoFactorState * option PendingAction :=
  (with_pending st (delete operator (pending st)), pending st !! operator).

Definition cleanup_expired (st : TwoFactorState) (now : Z) : TwoFactorState :=
  {| pending := filter (fun oa => now < expires_at oa.2) (pending st);
     failed_attempts := filter (fun ol => ol.2 <> []) (recent now <$> failed_attempts st);
     max_failures_per_hour := max_failures_per_hour st |}.

(** ** The bot around it *)

Inductive GuardianMode := Guard | DryRun | Watch.

Record SecurityConfig := { two_factor_method : string; cfg_totp_secret : string }.

(** [env_secret] is the variable INNERWARDEN_TOTP_SECRET of the process. *)
Record BotConfig := { security : option SecurityConfig; env_secret : option string; bot_enabled : bool }.

Record ApprovalResult := {
  ap_incident_id : string;
  approved : bool;
  always : bool;
  operator_name : string;
  chosen_action : string;
}.

(** What a message changes outside the state.  [QueueUnblock] is the decision
    row that the slow loop reads. *)
Inductive Effect :=
| Reply (text : string)
| AllowlistAdd (section key reason : string)
| AllowlistRemove (section key : string)
| HistoryEntry (key section operator action : string)
| QueueUnblock (operator ip : string)
| FpReport (incident_id detector reporter : string)
| Audit (incident_id operator action_type : string) (target_ip target_user : option string)
    (reason execution_result : string).

(** The answers of the allowlist file and of the decision trail to one
    message, and the printed time. *)
Record Io := {
  append_answer : string -> string -> string -> result unit string;
  remove_answer : string -> string -> result unit string;
  append_chained_answer : string -> result unit string;
  fmt_now : string;
}.

Record Bot := { two_factor_state : TwoFactorState; pending_mode_change : option GuardianMode }.

Definition with_2fa (b : Bot) (st : TwoFactorState) : Bot :=
  {| two_factor_state := st; pending_mode_change := pending_mode_change b |}.

Definition in_code (s : string) : string := "<code>" +:+ s +:+ "</code>".

Definition new_line : string := String nl "".

Definition is_2fa_enabled (cfg : BotConfig) : bool :=
  match security cfg with Some s => String.eqb (two_factor_method s) "totp" | None => false end.

Definition totp_secret (cfg : BotConfig) : option string :=
  s ← match env_secret cfg with Some s => Some s | None => cfg_totp_secret <$> security cfg end;
  if String.eqb s "" then None else Some s.

(** ** The gate *)

(** The state, the replies, and whether the action was intercepted. *)
Definition check_2fa_gate (b : Bot) (cfg : BotConfig) (operator : string) (action : PendingActionType) (now : Z) :
    Bot * list Effect * bool :=
  if negb (is_2fa_enabled cfg) then (b, [], false)
  else if is_locked_out (two_factor_state b) operator now then
    (b, [Reply "🚫 Too many failed 2FA attempts. Try again later."], true)
  else
    let p := {| action_type := action; pa_operator := operator; created_at := now;
                expires_at := now + five_minutes; pa_method := Totp |} in
    (with_2fa b (set_pending (two_factor_state b) operator p),
     [Reply "🔐 Enter your 6-digit TOTP code (expires in 5 min):"], true).

(** ** The actions *)

Definition failed_reply (prefix quoted_key e : string) : Effect :=
  Reply (prefix +:+ quoted_key +:+ ": " +:+ take_chars 180 e).

Definition request_unblock (io : Io) (operator ip : string) : list Effect :=
  match append_chained_answer io ip with
  | Ok _ =>
      [QueueUnblock operator ip;
       Audit ("operator_unblock:" +:+ ip) operator "unblock_request" (Some ip) None
         ("Operator " +:+ operator +:+ " queued unblock for " +:+ ip +:+ " (2FA verified)") ("unblock_request:" +:+ ip);
       Reply ("✅ Unblock queued for " +:+ in_code (escape_html ip)
              +:+ ". I'll release it at the firewall within ~30s and stop re-blocking it.")]
  | Err e => [Reply ("❌ Could not queue the unblock for " +:+ in_code (escape_html ip) +:+ ": " +:+ take_chars 160 e)]
  end.

Definition parse_mode (mode_arg : string) : option GuardianMode :=
  let m := to_ascii_lowercase (trim mode_arg) in
  if mem_str m ["guard"; "live"; "on"; "defend"] then Some Guard
  else if mem_str m ["watch"; "monitor"; "passive"; "off"] then Some Watch
  else if mem_str m ["dryrun"; "dry-run"; "dry_run"; "simulate"] then Some DryRun
  else None.

Definition mode_text (m : GuardianMode) : string * string :=
  match m with
  | Guard => ("Guard", "auto-defend is ON. I block threats automatically.")
  | Watch => ("Watch", "passive monitor. I alert you but take no action myself.")
  | DryRun => ("Dry-run", "I simulate the action and log what I would do, but change nothing.")
  end.

Definition apply_mode_change_request (b : Bot) (operator mode_arg : string) : Bot * list Effect :=
  match parse_mode mode_arg with
  | Some m =>
      let '(label, desc) := mode_text m in
      ({| two_factor_state := two_factor_state b; pending_mode_change := Some m |},
       [Audit "__mode__" operator "mode_change" None None
          ("Operator " +:+ operator +:+ " switched guardian mode to " +:+ label) ("mode_change:" +:+ label);
        Reply ("🛡️ <b>Mode set to " +:+ label +:+ "</b>" +:+ new_line +:+ desc +:+ new_line
               +:+ "Applied now and saved for the next restart.")])
  | None =>
      (b, [Reply ("Unknown mode " +:+ in_code (escape_html mode_arg) +:+ ". Use <code>/mode guard</code> (auto-defend), <code>/mode watch</code> (monitor only), or <code>/mode dryrun</code> (simulate).")])
  end.

Definition execute_verified_action (b : Bot) (io : Io) (action : PendingActionType) (operator : string) : Bot * list Effect :=
  let ts := fmt_now io in
  let reason := "Allowed via Telegram + 2FA (" +:+ ts +:+ ")" in
  match action with
  | AllowlistProcess comm =>
      match append_answer io "processes" comm reason with
      | Ok _ =>
          (b, [AllowlistAdd "processes" comm reason; HistoryEntry comm "processes" operator "add";
               Audit "__2fa_verified__" operator "allowlist_add" None (Some ("process:" +:+ comm))
                 ("Operator " +:+ operator +:+ " added process '" +:+ comm +:+ "' to allowlist (2FA verified)")
                 ("allowlist_process_added:" +:+ comm);
               Reply ("✅ Allowed " +:+ in_code comm +:+ " (verified by TOTP). Sensor will pick this up in up to 60s.")])
      | Err e => (b, [failed_reply "❌ Failed to allowlist " (in_code comm) e])
      end
  | AllowlistIp ip =>
      match append_answer io "ips" ip reason with
      | Ok _ =>
          (b, [AllowlistAdd "ips" ip reason; HistoryEntry ip "ips" operator "add";
               Audit "__2fa_verified__" operator "allowlist_add" (Some ip) None
                 ("Operator " +:+ operator +:+ " added IP '" +:+ ip +:+ "' to allowlist (2FA verified)")
                 ("allowlist_ip_added:" +:+ ip);
               Reply ("✅ Allowed " +:+ in_code ip +:+ " (verified by TOTP). Sensor will pick this up in up to 60s.")])
      | Err e => (b, [failed_reply "❌ Failed to allowlist " (in_code ip) e])
      end
  | UndoAllowlist section key =>
      match remove_answer io section key with
      | Ok _ =>
          (b, [AllowlistRemove section key; HistoryEntry key section operator "remove";
               Audit "__2fa_verified__" operator "allowlist_remove" None None
                 ("Operator " +:+ operator +:+ " removed '" +:+ key +:+ "' from " +:+ section +:+ " allowlist (2FA verified)")
                 ("allowlist_removed:" +:+ key);
               Reply ("✅ Removed " +:+ in_code (escape_html key) +:+ " from allowlist (verified by TOTP).")])
      | Err e => (b, [failed_reply "❌ Failed to remove " (in_code (escape_html key)) e])
      end
  | AutoFpAllowlist section entity =>
      let reason := "Auto-FP allowlist via Telegram + 2FA (" +:+ ts +:+ ")" in
      match append_answer io section entity reason with
      | Ok _ =>
          (b, [AllowlistAdd section entity reason; HistoryEntry entity section operator "add";
               Reply ("✅ Added " +:+ in_code (escape_html entity) +:+ " to " +:+ section
                      +:+ " allowlist permanently (verified by TOTP).")])
      | Err e => (b, [failed_reply "❌ Failed to add to allowlist" "" e])
      end
  | ModeChange mode => apply_mode_change_request b operator mode
  | Unblock ip => (b, request_unblock io operator ip)
  end.

(** ** The code handler *)

(** [SystemTime] in seconds, zero before 1970. *)
Definition unix_seconds (now : Z) : Z := Z.max 0 (now / NANOS_PER_SEC).

(** The state, the effects, and whether the message was handled here.  [verify]
    never panics ([verify_exact] of AgentTotp.v). *)
Definition handle_totp_response (b : Bot) (cfg : BotConfig) (io : Io) (r : ApprovalResult) (now : Z) :
    Bot * list Effect * bool :=
  let text := trim (ap_incident_id r) in
  let operator := operator_name r in
  let '(st, taken) := take_pending (two_factor_state b) operator in
  if String.eqb text "/cancel" then
    match taken with
    | Some _ => (with_2fa b st, [Reply "❌ 2FA verification cancelled."], true)
    | None => (with_2fa b st, [], false)
    end
  else if negb (six_digits text) then (b, [], false)
  else match taken with
  | None => (with_2fa b st, [], false)
  | Some p =>
      let b := with_2fa b st in
      if expires_at p <? now then (b, [Reply "⏰ 2FA code expired. Please retry the action."], true)
      else match totp_secret cfg with
      | None => (b, [Reply "⚠️ 2FA is enabled but no TOTP secret is configured. Run: innerwarden configure 2fa"], true)
      | Some s =>
          match TotpProvider_new s with
          | None => (b, [Reply "⚠️ Invalid TOTP secret. Re-run: innerwarden configure 2fa"], true)
          | Some provider =>
              match verify provider text (unix_seconds now) with
              | Some true =>
                  let '(b, out) := execute_verified_action b io (action_type p) operator in (b, out, true)
              | _ =>
                  let st := record_failure st operator now in
                  if is_locked_out st operator now then
                    (with_2fa b st, [Reply "❌ Wrong code. You are now locked out for 1 hour."], true)
                  else (with_2fa b (set_pending st operator p), [Reply "❌ Wrong code. Try again or /cancel."], true)
              end
          end
      end
  end.

(** ** The gated commands *)

Inductive TelegramTriageAction := AllowProc (raw : string) | AllowIp (raw : string) | ReportFp (raw : string).

Definition parse_telegram_triage_action (incident_id : string) : option TelegramTriageAction :=
  match strip_prefix "__allow_proc__:" incident_id with
  | Some rest => Some (AllowProc rest)
  | None =>
      match strip_prefix "__allow_ip__:" incident_id with
      | Some rest => Some (AllowIp rest)
      | None => ReportFp <$> strip_prefix "__fp__:" incident_id
      end
  end.

Definition sanitize_allowlist_process_name (raw : string) : option string :=
  let cleaned := trim (replace_char nl " " (replace_char (ascii_of_nat 34) "" raw)) in
  if String.eqb cleaned "" then None else Some cleaned.

(** [two_factor_method != "none"], the test of the confirmation's wording. *)
Definition two_fa_worded (cfg : BotConfig) : bool :=
  match security cfg with Some s => negb (String.eqb (two_factor_method s) "none") | None => false end.

(** The confirmation of an addition made at once; the buttons under the warning
    are left out. *)
Definition allowed_reply (cfg : BotConfig) (key : string) : Effect :=
  if two_fa_worded cfg then
    Reply ("✅ Allowed " +:+ in_code key +:+ " (verified by TOTP). Sensor will pick this up in up to 60s.")
  else
    Reply ("✅ Allowed " +:+ in_code key +:+ ". Sensor will pick this up in up to 60s." +:+ new_line +:+ new_line
           +:+ "⚠️ Allowlist changes are not protected by 2FA." +:+ new_line
           +:+ "Anyone with your bot token can silence alerts.").

(** The addition of a process or an address at once, with its trail: [noun] and
    [tag] are the words of the audit for the kind. *)
Definition allow_now (cfg : BotConfig) (io : Io) (r : ApprovalResult) (section key noun tag : string)
    (target_ip target_user : option string) : list Effect :=
  let operator := operator_name r in
  let reason := "Allowed via Telegram (" +:+ fmt_now io +:+ ")" in
  match append_answer io section key reason with
  | Ok _ =>
      [AllowlistAdd section key reason; HistoryEntry key section operator "add";
       Audit (ap_incident_id r) operator "allowlist_add" target_ip target_user
         ("Operator " +:+ operator +:+ " added " +:+ noun +:+ " '" +:+ key +:+ "' to allowlist via Telegram")
         (tag +:+ key);
       allowed_reply cfg key]
  | Err e =>
      [Audit (ap_incident_id r) operator "allowlist_add" target_ip target_user
         ("Operator " +:+ operator +:+ " failed to add " +:+ noun +:+ " '" +:+ key +:+ "' to allowlist via Telegram")
         ("failed:" +:+ take_chars 180 e);
       failed_reply "❌ Failed to allowlist " (in_code key) e]
  end.

Definition handle_telegram_triage_action (b : Bot) (cfg : BotConfig) (io : Io) (r : ApprovalResult) (now : Z) :
    Bot * list Effect * bool :=
  let operator := operator_name r in
  match parse_telegram_triage_action (ap_incident_id r) with
  | None => (b, [], false)
  | Some (AllowProc raw) =>
      match sanitize_allowlist_process_name raw with
      | None =>
          (b, [Audit (ap_incident_id r) operator "allowlist_add" None (Some "process:(empty)")
                 ("Operator " +:+ operator +:+ " attempted to add empty process allowlist via Telegram")
                 "skipped:empty_process_name";
               Reply "⚠️ Could not add empty process name to allowlist."], true)
      | Some comm =>
          let '(b, out, intercepted) := check_2fa_gate b cfg operator (AllowlistProcess comm) now in
          if intercepted then (b, out, true)
          else (b, allow_now cfg io r "processes" comm "process" "allowlist_process_added:" None (Some ("process:" +:+ comm)), true)
      end
  | Some (AllowIp raw) =>
      let ip := trim raw in
      match parse_ip ip with
      | None =>
          (b, [Audit (ap_incident_id r) operator "allowlist_add" (Some ip) None
                 ("Operator " +:+ operator +:+ " attempted to add invalid IP '" +:+ ip +:+ "' to allowlist via Telegram")
                 "skipped:invalid_ip";
               Reply ("⚠️ Invalid IP for allowlist: " +:+ in_code ip)], true)
      | Some _ =>
          let '(b, out, intercepted) := check_2fa_gate b cfg operator (AllowlistIp ip) now in
          if intercepted then (b, out, true)
          else (b, allow_now cfg io r "ips" ip "IP" "allowlist_ip_added:" (Some ip) None, true)
      end
  | Some (ReportFp raw) =>
      let incident_id := trim raw in
      if String.eqb incident_id "" then
        (b, [Audit (ap_incident_id r) operator "fp_report" None None
               ("Operator " +:+ operator +:+ " attempted to report FP with empty incident id") "skipped:empty_incident_id";
             Reply "⚠️ Could not report false positive: missing incident id."], true)
      else
        let detector := first_piece ":" incident_id in
        (b, [FpReport incident_id detector operator;
             Audit incident_id operator "fp_report" None None
               ("Operator " +:+ operator +:+ " reported incident '" +:+ incident_id +:+ "' as false positive via Telegram")
               ("reported_fp:" +:+ detector);
             Reply "📝 Reported. Thanks for the feedback."], true)
  end.

(** [splitn(2, ':')] into two parts. *)
Definition split_once (c : ascii) (s : string) : option (string * string) :=
  match split_on c s with
  | a :: b :: rest => Some (a, join (String c "") (b :: rest))
  | _ => None
  end.

Definition section_of (sec_short : string) : string := if String.eqb sec_short "ip" then "ips" else "processes".

Definition undo_command (b : Bot) (cfg : BotConfig) (io : Io) (r : ApprovalResult) (rest : string) (now : Z) :
    Bot * list Effect :=
  let operator := operator_name r in
  match split_once ":" rest with
  | None => (b, [])
  | Some (sec_short, key) =>
      let key := trim key in
      let section := section_of sec_short in
      let '(b, out, intercepted) := check_2fa_gate b cfg operator (UndoAllowlist section key) now in
      if intercepted then (b, out)
      else match remove_answer io section key with
      | Ok _ =>
          (b, [AllowlistRemove section key; HistoryEntry key section operator "remove";
               Audit (ap_incident_id r) operator "allowlist_remove"
                 (if String.eqb sec_short "ip" then Some key else None)
                 (if String.eqb sec_short "proc" then Some ("process:" +:+ key) else None)
                 ("Operator " +:+ operator +:+ " removed '" +:+ key +:+ "' from " +:+ section +:+ " allowlist via Telegram")
                 ("allowlist_removed:" +:+ key);
               Reply ("✅ Removed " +:+ in_code (escape_html key) +:+ " from allowlist.")])
      | Err e => (b, [failed_reply "❌ Failed to remove " (in_code (escape_html key)) e])
      end
  end.

Definition autofp_command (b : Bot) (cfg : BotConfig) (io : Io) (r : ApprovalResult) (rest : string) (now : Z) :
    Bot * list Effect :=
  let operator := operator_name r in
  match strip_prefix "yes:" rest with
  | None => (b, [Reply "👀 OK, will keep monitoring."])
  | Some rest =>
      match split_once ":" rest with
      | None => (b, [])
      | Some (sec_short, entity) =>
          let entity := trim entity in
          let section := section_of sec_short in
          let '(b, out, intercepted) := check_2fa_gate b cfg operator (AutoFpAllowlist section entity) now in
          if intercepted then (b, out)
          else
            let reason := "Auto-FP allowlist via Telegram (" +:+ fmt_now io +:+ ")" in
            match append_answer io section entity reason with
            | Ok _ =>
                (b, [AllowlistAdd section entity reason; HistoryEntry entity section operator "add";
                     Reply ("✅ Added " +:+ in_code (escape_html entity) +:+ " to " +:+ section +:+ " allowlist permanently.")])
            | Err e => (b, [failed_reply "❌ Failed to add to allowlist" "" e])
            end
      end
  end.

(** The reply to a bare [/mode] names the mode in force, which the
    configuration decides: [current] is its text. *)
Definition mode_command (b : Bot) (cfg : BotConfig) (current : string) (r : ApprovalResult) (arg : string) (now : Z) :
    Bot * list Effect :=
  let mode_arg := trim arg in
  if negb (bot_enabled cfg) then (b, [])
  else if String.eqb mode_arg "" then (b, [Reply current])
  else
    let '(b, out, intercepted) := check_2fa_gate b cfg (operator_name r) (ModeChange mode_arg) now in
    if intercepted then (b, out) else apply_mode_change_request b (operator_name r) mode_arg.

Definition unblock_command (b : Bot) (cfg : BotConfig) (io : Io) (r : ApprovalResult) (arg : string) (now : Z) :
    Bot * list Effect :=
  let ip_arg := trim arg in
  if negb (bot_enabled cfg) then (b, [])
  else if String.eqb ip_arg "" then
    (b, [Reply "Usage: <code>/unblock &lt;ip&gt;</code>. See <code>/blocked</code> for what is contained."])
  else match parse_ip ip_arg with
  | None => (b, [Reply (in_code (escape_html ip_arg) +:+ " is not a valid IP address.")])
  | Some _ =>
      let '(b, out, intercepted) := check_2fa_gate b cfg (operator_name r) (Unblock ip_arg) now in
      if intercepted then (b, out) else (b, request_unblock io (operator_name r) ip_arg)
  end.

Definition handle_gated_command (b : Bot) (cfg : BotConfig) (current : string) (io : Io) (r : ApprovalResult) (now : Z) :
    Bot * list Effect * bool :=
  match strip_prefix "__undo__:" (ap_incident_id r) with
  | Some rest => (undo_command b cfg io r rest now, true)
  | None =>
      match strip_prefix "__autofp__:" (ap_incident_id r) with
      | Some rest => (autofp_command b cfg io r rest now, true)
      | None =>
          match strip_prefix "__mode__:" (ap_incident_id r) with
          | Some arg => (mode_command b cfg current r arg now, true)
          | None =>
              match strip_prefix "__unblock__:" (ap_incident_id r) with
              | Some arg => (unblock_command b cfg io r arg now, true)
              | None => (b, [], false)
              end
          end
      end
  end.

Definition process_telegram_approval (b : Bot) (cfg : BotConfig) (current : string) (io : Io) (r : ApprovalResult) (now : Z) :
    Bot * list Effect :=
  let '(b, out, handled) := handle_totp_response b cfg io r now in
  if handled then (b, out)
  else
    let '(b, out, handled) := handle_gated_command b cfg current io r now in
    if handled then (b, out)
    else (handle_telegram_triage_action b cfg io r now).1.

(** ** From a typed message to a result *)

Fixpoint find_char (c : ascii) (s : string) : option nat :=
  match s with
  | EmptyString => None
  | String a r => if Ascii.eqb a c then Some O else S <$> find_char c r
  end.

Definition str_take (n : nat) (s : string) : string := String.substring 0 n s.
Definition str_drop (n : nat) (s : string) : string := String.substring n (String.length s - n) s.

Definition strip_bot_suffix (text : string) : string :=
  if starts_with "/" text then
    match find_char "@" text with
    | Some at_pos =>
        let space_pos := default (String.length text) (find_char " " text) in
        if Nat.ltb at_pos space_pos then str_take at_pos text +:+ str_drop space_pos text else text
    | None => text
    end
  else text.

(** [text == cmd || text.starts_with(cmd + " ")]. *)
Definition is_command (cmd text : string) : bool := String.eqb text cmd || starts_with (cmd +:+ " ") text.

(** The chain of tests of the polling loop, in its order. *)
Definition simple_commands1 : list (list string * string) :=
  [(["/status"], "__status__"); (["/help"], "__help__"); (["/menu"], "__menu__");
   (["/incidents"; "/threats"], "__threats__"); (["/decisions"], "__decisions__"); (["/blocked"], "__blocked__")].
Definition simple_commands2 : list (list string * string) :=
  [(["/guard"], "__guard__"); (["/watch"], "__watch__"); (["/doctor"], "__doctor__"); (["/posture"], "__posture__");
   (["/capabilities"; "/list"], "__capabilities__")].

Definition find_simple (text : string) (l : list (list string * string)) : option string :=
  snd <$> List.find (fun p => any (fun c => is_command c text) p.1) l.

Definition route_text (text : string) : string :=
  match find_simple text simple_commands1 with
  | Some id => id
  | None =>
  if String.eqb text "/mode" then "__mode__:"
  else match strip_prefix "/mode " text with
  | Some m => "__mode__:" +:+ m
  | None =>
  if String.eqb text "/unblock" then "__unblock__:"
  else match strip_prefix "/unblock " text with
  | Some ip => "__unblock__:" +:+ ip
  | None =>
  match find_simple text simple_commands2 with
  | Some id => id
  | None =>
  if String.eqb text "/enable" || String.eqb text "/disable" then "__cap_usage__"
  else match strip_prefix "/enable " text with
  | Some cap => "__enable__:" +:+ cap
  | None =>
  match strip_prefix "/disable " text with
  | Some cap => "__disable__:" +:+ cap
  | None =>
  if is_command "/undo" text then "__undo__"
  else if is_command "/start" text then "__start__"
  else if negb (starts_with "/" text) || starts_with "/ask " text then
    "__ask__:" +:+ default text (strip_prefix "/ask " text)
  else "__unknown_cmd__"
  end end end end end end.

(** The result a typed message sends to the handlers. *)
Definition typed_result (raw_text operator : string) : ApprovalResult :=
  {| ap_incident_id := route_text (strip_bot_suffix (trim raw_text)); approved := true; always := false;
     operator_name := operator; chosen_action := "" |}.

(** ** Runs *)

Inductive BotEvent :=
| Message (current : string) (io : Io) (r : ApprovalResult)
| Cleanup.

Definition bot_step (cfg : BotConfig) (b : Bot) (e : Z * BotEvent) : Bot * list Effect :=
  match e.2 with
  | Message current io r => process_telegram_approval b cfg current io r e.1
  | Cleanup => (with_2fa b (cleanup_expired (two_factor_state b) e.1), [])
  end.

Definition Bot_new : Bot := {| two_factor_state := TwoFactorState_new; pending_mode_change := None |}.

(** The state after the events, and the effects of an event after others. *)
Definition bot_run (cfg : BotConfig) (evs : list (Z * BotEvent)) : Bot :=
  foldl (fun b e => (bot_step cfg b e).1) Bot_new evs.
Definition bot_effects (cfg : BotConfig) (before : list (Z * BotEvent)) (e : Z * BotEvent) : list Effect :=
  (bot_step cfg (bot_run cfg before) e).2.

(** An effect that needs a code: a change of the allowlist, an unblock, a
    change of mode (seen by its audit entry). *)
Definition privileged (e : Effect) : bool :=
  match e with
  | AllowlistAdd _ _ _ | AllowlistRemove _ _ | QueueUnblock _ _ => true
  | Audit _ _ action _ _ _ _ => String.eqb action "mode_change"
  | _ => false
  end.

(** The action a result asks for, if it reaches the gate. *)
Definition asked (cfg : BotConfig) (r : ApprovalResult) : option PendingActionType :=
  let id := ap_incident_id r in
  match strip_prefix "__undo__:" id with
  | Some rest => '(s, k) ← split_once ":" rest; Some (UndoAllowlist (section_of s) (trim k))
  | None =>
  match strip_prefix "__autofp__:" id with
  | Some rest => rest ← strip_prefix "yes:" rest; '(s, k) ← split_once ":" rest; Some (AutoFpAllowlist (section_of s) (trim k))
  | None =>
  match strip_prefix "__mode__:" id with
  | Some arg => if bot_enabled cfg && negb (String.eqb (trim arg) "") then Some (ModeChange (trim arg)) else None
  | None =>
  match strip_prefix "__unblock__:" id with
  | Some arg => if bot_enabled cfg && negb (String.eqb (trim arg) "") then _ ← parse_ip (trim arg); Some (Unblock (trim arg)) else None
  | None =>
  match parse_telegram_triage_action id with
  | Some (AllowProc raw) => AllowlistProcess <$> sanitize_allowlist_process_name raw
  | Some (AllowIp raw) => _ ← parse_ip (trim raw); Some (AllowlistIp (trim raw))
  | _ => None
  end end end end end.

(** A wrong code: a live pending action, a usable secret, and six digits that
    do not verify. *)
Definition wrong_code (cfg : BotConfig) (b : Bot) (r : ApprovalResult) (now : Z) : bool :=
  let text := trim (ap_incident_id r) in
  negb (String.eqb text "/cancel") && six_digits text &&
  match pending (two_factor_state b) !! operator_name r, (totp_secret cfg ≫= TotpProvider_new) with
  | Some p, Some provider => negb (expires_at p <? now) && negb (bool_decide (verify provider text (unix_seconds now) = Some true))
  | _, _ => false
  end.

(** The times of the wrong codes of an operator. *)
Definition event_failure (cfg : BotConfig) (b : Bot) (op : string) (e : Z * BotEvent) : list Z :=
  match e.2 with
  | Message _ _ r => if wrong_code cfg b r e.1 && String.eqb (operator_name r) op then [e.1] else []
  | Cleanup => []
  end.
Fixpoint failures_from (cfg : BotConfig) (b : Bot) (op : string) (evs : list (Z * BotEvent)) : list Z :=
  match evs with
  | [] => []
  | e :: rest => event_failure cfg b op e ++ failures_from cfg (bot_step cfg b e).1 op rest
  end.

Definition quiet (out : list Effect) : Prop := Forall (fun e => privileged e = false) out.

(** ** The gate and the commands behind it *)

(** With two-factor on, what follows the code handler makes no privileged
    effect; it leaves the state, or stores the action asked for, for an
    operator who is not locked out. *)
Definition gated_ok (cfg : BotConfig) (b : Bot) (r : ApprovalResult) (now : Z) (res : Bot * list Effect) : Prop :=
  quiet res.2 /\
  (res.1 = b \/ exists a, asked cfg r = Some a /\ is_locked_out (two_factor_state b) (operator_name r) now = false /\
     res.1 = with_2fa b (set_pending (two_factor_state b) (operator_name r)
       {| action_type := a; pa_operator := operator_name r; created_at := now; expires_at := now + five_minutes; pa_method := Totp |})).

Section gate.
Context (cfg : BotConfig) (Hon : is_2fa_enabled cfg = true).

Lemma gate_spec b operator action now :
  exists b' out, check_2fa_gate b cfg operator action now = (b', out, true) /\ quiet out /\
    (b' = b \/ is_locked_out (two_factor_state b) operator now = false /\
       b' = with_2fa b (set_pending (two_factor_state b) operator
         {| action_type := action; pa_operator := operator; created_at := now; expires_at := now + five_minutes; pa_method := Totp |})).
Proof.
  unfold check_2fa_gate. rewrite Hon. cbn [negb]. destruct (is_locked_out _ _ _) eqn:E.
  - eexists _, _. split; [done|]. split; [by repeat constructor|by left].
  - eexists _, _. split; [done|]. split; [by repeat constructor|by right].
Qed.

Ltac by_gate :=
  match goal with |- context [check_2fa_gate ?b cfg ?o ?a ?n] =>
    let Hq := fresh in let Hb := fresh in
    destruct (gate_spec b o a n) as (? & ? & -> & Hq & Hb); split; [exact Hq|];
    destruct Hb as [-> | [? ->]]; [by left|right; eexists; split; [|split; [eassumption|reflexivity]]]
  end.
Ltac by_reply := split; [by repeat constructor|by left].

Lemma gated_commands_ok b current io r now :
  gated_ok cfg b r now (let '(b', out, handled) := handle_gated_command b cfg current io r now in
    if handled then (b', out) else (handle_telegram_triage_action b' cfg io r now).1).
Proof.
  unfold handle_gated_command, gated_ok, asked.
  destruct (strip_prefix "__undo__:" _) as [rest|] eqn:E1.
  { unfold undo_command. destruct (split_once ":" rest) as [[s k]|] eqn:Es; [|by_reply]. by_gate. done. }
  destruct (strip_prefix "__autofp__:" _) as [rest|] eqn:E2.
  { unfold autofp_command. destruct (strip_prefix "yes:" rest) as [rest'|] eqn:Ey; [|by_reply].
    cbn [mbind option_bind]. destruct (split_once ":" rest') as [[s k]|] eqn:Es; [|by_reply]. by_gate. done. }
  destruct (strip_prefix "__mode__:" _) as [arg|] eqn:E3.
  { unfold mode_command. destruct (bot_enabled cfg) eqn:Eb; [|by_reply]. cbn [negb andb].
    destruct (String.eqb (trim arg) "") eqn:Et; [by_reply|]. cbn [negb]. by_gate. done. }
  destruct (strip_prefix "__unblock__:" _) as [arg|] eqn:E4.
  { unfold unblock_command. destruct (bot_enabled cfg) eqn:Eb; [|by_reply]. cbn [negb andb].
    destruct (String.eqb (trim arg) "") eqn:Et; [by_reply|]. cbn [negb].
    destruct (parse_ip (trim arg)) eqn:Ei; [|by_reply]. by_gate. done. }
  unfold handle_telegram_triage_action.
  destruct (parse_telegram_triage_action _) as [[raw|raw|raw]|] eqn:Ep; [| | |by_reply].
  - destruct (sanitize_allowlist_process_name raw) eqn:Es; [|by_reply]. by_gate. done.
  - destruct (parse_ip (trim raw)) eqn:Ei; [|by_reply]. by_gate. done.
  - destruct (String.eqb (trim raw) ""); by_reply.
Qed.

End gate.

(** ** What a message does *)

Definition code_text (r : ApprovalResult) : string := trim (ap_incident_id r).

(** The state once the operator's pending action is taken out. *)
Definition taken (b : Bot) (op : string) : TwoFactorState :=
  with_pending (two_factor_state b) (delete op (pending (two_factor_state b))).

Inductive outcome (cfg : BotConfig) (b : Bot) (io : Io) (r : ApprovalResult) (now : Z) : Bot -> list Effect -> Prop :=
| Asked b' out :
    wrong_code cfg b r now = false -> gated_ok cfg b r now (b', out) -> outcome cfg b io r now b' out
| Dropped out :
    wrong_code cfg b r now = false -> quiet out ->
    outcome cfg b io r now (with_2fa b (taken b (operator_name r))) out
| LockedOut out :
    wrong_code cfg b r now = true -> quiet out ->
    is_locked_out (record_failure (taken b (operator_name r)) (operator_name r) now) (operator_name r) now = true ->
    outcome cfg b io r now (with_2fa b (record_failure (taken b (operator_name r)) (operator_name r) now)) out
| Retry p out :
    wrong_code cfg b r now = true -> quiet out -> pending (two_factor_state b) !! operator_name r = Some p ->
    is_locked_out (record_failure (taken b (operator_name r)) (operator_name r) now) (operator_name r) now = false ->
    outcome cfg b io r now
      (with_2fa b (set_pending (record_failure (taken b (operator_name r)) (operator_name r) now) (operator_name r) p)) out
| Verified p s provider b' out :
    wrong_code cfg b r now = false -> pending (two_factor_state b) !! operator_name r = Some p ->
    now <= expires_at p -> totp_secret cfg = Some s -> TotpProvider_new s = Some provider ->
    six_digits (code_text r) = true -> verify provider (code_text r) (unix_seconds now) = Some true ->
    execute_verified_action (with_2fa b (taken b (operator_name r))) io (action_type p) (operator_name r) = (b', out) ->
    outcome cfg b io r now b' out.

Lemma taken_absent b op : pending (two_factor_state b) !! op = None -> with_2fa b (taken b op) = b.
Proof.
  intros H. unfold taken. rewrite delete_id by done. by destruct b as [[p f m] g].
Qed.

(** What runs when the code handler passes a message on. *)
Definition after_code (b : Bot) (cfg : BotConfig) (current : string) (io : Io) (r : ApprovalResult) (now : Z) : Bot * list Effect :=
  let '(b, out, handled) := handle_gated_command b cfg current io r now in
  if handled then (b, out) else (handle_telegram_triage_action b cfg io r now).1.

Lemma after_code_outcome cfg b current io r now : is_2fa_enabled cfg = true -> wrong_code cfg b r now = false ->
  forall b0, b0 = b -> outcome cfg b io r now (after_code b0 cfg current io r now).1 (after_code b0 cfg current io r now).2.
Proof.
  intros Hon Hw b0 ->. apply Asked; [done|]. pose proof (gated_commands_ok cfg Hon b current io r now) as Hg.
  fold (after_code b cfg current io r now) in Hg. by destruct (after_code b cfg current io r now).
Qed.

(** A six-digit message with a pending action that is still live. *)
Lemma live_code_outcome cfg b io r now p :
  String.eqb (code_text r) "/cancel" = false -> six_digits (code_text r) = true ->
  pending (two_factor_state b) !! operator_name r = Some p -> (expires_at p <? now) = false ->
  forall s provider, totp_secret cfg = Some s -> TotpProvider_new s = Some provider ->
  let st := taken b (operator_name r) in
  let res := match verify provider (code_text r) (unix_seconds now) with
    | Some true => let '(b, out) := execute_verified_action (with_2fa b st) io (action_type p) (operator_name r) in (b, out, true)
    | _ => let st := record_failure st (operator_name r) now in
        if is_locked_out st (operator_name r) now then
          (with_2fa (with_2fa b st) st, [Reply "❌ Wrong code. You are now locked out for 1 hour."], true)
        else (with_2fa (with_2fa b st) (set_pending st (operator_name r) p), [Reply "❌ Wrong code. Try again or /cancel."], true)
    end in
  res.2 = true /\ outcome cfg b io r now res.1.1 res.1.2.
Proof.
  intros Ec E6 Et Ee s provider Es En st. cbn zeta.
  assert (wrong_code cfg b r now = negb (bool_decide (verify provider (code_text r) (unix_seconds now) = Some true))) as Hw.
  { unfold wrong_code. fold (code_text r). rewrite Ec, E6, Et, Es. cbn [mbind option_bind]. by rewrite En, Ee. }
  destruct (decide (verify provider (code_text r) (unix_seconds now) = Some true)) as [Ev|Ev].
  - rewrite Ev. destruct (execute_verified_action _ _ _ _) as [b' out] eqn:Ex. split; [done|].
    eapply Verified; try eassumption; [|bool_to_prop; lia]. by rewrite Hw, bool_decide_eq_true_2.
  - rewrite bool_decide_eq_false_2 in Hw by done.
    assert (forall A (x y : A), match verify provider (code_text r) (unix_seconds now) with Some true => x | _ => y end = y) as Hm
      by (intros; by destruct (verify _ _ _) as [[]|]).
    rewrite Hm. destruct (is_locked_out _ _ _) eqn:El; (split; [done|]).
    + refine (LockedOut cfg b io r now _ _ _ _); [by rewrite Hw|by repeat constructor|exact El].
    + refine (Retry cfg b io r now p _ _ _ _ _); [by rewrite Hw|by repeat constructor|done|exact El].
Qed.

Lemma process_outcome cfg b current io r now : is_2fa_enabled cfg = true ->
  let res := process_telegram_approval b cfg current io r now in outcome cfg b io r now res.1 res.2.
Proof.
  intros Hon. cbn zeta. unfold process_telegram_approval, handle_totp_response, take_pending.
  fold (code_text r). fold (taken b (operator_name r)).
  destruct (String.eqb (code_text r) "/cancel") eqn:Ec.
  { assert (wrong_code cfg b r now = false) as Hw by (unfold wrong_code; fold (code_text r); by rewrite Ec).
    destruct (pending (two_factor_state b) !! operator_name r) eqn:Et.
    - apply Dropped; [done|by repeat constructor].
    - apply (after_code_outcome cfg b current io r now Hon Hw). by apply taken_absent. }
  destruct (six_digits (code_text r)) eqn:E6; cbn [negb].
  2: { apply (after_code_outcome cfg b current io r now Hon); [|done].
    unfold wrong_code. fold (code_text r). by rewrite E6, andb_false_r. }
  destruct (pending (two_factor_state b) !! operator_name r) as [p|] eqn:Et.
  2: { apply (after_code_outcome cfg b current io r now Hon); [|by apply taken_absent].
    unfold wrong_code. rewrite Et. by rewrite andb_false_r. }
  assert (forall x, (totp_secret cfg ≫= TotpProvider_new) = x -> (expires_at p <? now) = true \/ x = None ->
    wrong_code cfg b r now = false) as Hw.
  { unfold wrong_code. rewrite Et. intros x -> [-> | ->]; [by destruct x; rewrite andb_false_r|by rewrite andb_false_r]. }
  destruct (expires_at p <? now) eqn:Ee; [apply Dropped; [by eapply Hw; [done|left]|by repeat constructor]|].
  destruct (totp_secret cfg) as [s|] eqn:Es; [|apply Dropped; [by eapply Hw; [done|right]|by repeat constructor]].
  destruct (TotpProvider_new s) as [provider|] eqn:En; [|apply Dropped; [by eapply Hw; [exact En|right]|by repeat constructor]].
  pose proof (live_code_outcome cfg b io r now p Ec E6 Et Ee s provider Es En) as H. cbn zeta in H.
  destruct (match verify _ _ _ with Some _ => _ | None => _ end) as [[b' out] []]; [apply H|by destruct H].
Qed.

Lemma execute_state b io action operator :
  two_factor_state (execute_verified_action b io action operator).1 = two_factor_state b.
Proof.
  destruct action; cbn; unfold apply_mode_change_request; repeat case_match; done.
Qed.

(** ** Every privileged effect was asked for and verified *)

(** What the log of events says of a pending action. *)
Definition on_file (cfg : BotConfig) (log : list (Z * BotEvent)) (op : string) (p : PendingAction) : Prop :=
  exists current io r, (created_at p, Message current io r) ∈ log /\ operator_name r = op /\
    asked cfg r = Some (action_type p) /\ expires_at p = created_at p + five_minutes.

Lemma on_file_snoc cfg log e op p : on_file cfg log op p -> on_file cfg (log ++ [e]) op p.
Proof. intros (c & io & r & H & ?). exists c, io, r. split; [apply elem_of_app; by left|done]. Qed.

Definition all_on_file (cfg : BotConfig) (log : list (Z * BotEvent)) (b : Bot) : Prop :=
  forall op p, pending (two_factor_state b) !! op = Some p -> on_file cfg log op p.

Lemma step_on_file cfg log b e : is_2fa_enabled cfg = true ->
  all_on_file cfg log b -> all_on_file cfg (log ++ [e]) (bot_step cfg b e).1.
Proof.
  intros Hon H. assert (all_on_file cfg (log ++ [e]) b) as H' by (intros ???; by apply on_file_snoc, H).
  destruct e as [now [current io r|]]; unfold bot_step; cbn [fst snd].
  2: { intros op p Hp. cbn in Hp. apply map_lookup_filter_Some in Hp as [Hp _]. by apply H'. }
  destruct (process_outcome cfg b current io r now Hon) as [b' out _ [_ Hb]|out _ _|out _ _ _|q out _ _ Hq _|q s pr b' out _ Hq _ _ _ _ _ Ex].
  - cbn [fst] in Hb. destruct Hb as [-> | (a & Ha & _ & ->)]; [done|]. intros op p Hp. cbn in Hp.
    apply lookup_insert_Some in Hp as [[<- <-]|[_ Hp]]; [|by apply H'].
    exists current, io, r. split_and!; [apply elem_of_app; right; by left|done|done|done].
  - intros op p Hp. cbn in Hp. apply lookup_delete_Some in Hp as [_ Hp]. by apply H'.
  - intros op p Hp. cbn in Hp. apply lookup_delete_Some in Hp as [_ Hp]. by apply H'.
  - intros op p Hp. cbn in Hp. apply lookup_insert_Some in Hp as [[<- <-]|[_ Hp]]; [by apply H'|].
    apply lookup_delete_Some in Hp as [_ Hp]. by apply H'.
  - intros op p Hp. apply (f_equal fst) in Ex. cbn in Ex. subst b'. rewrite execute_state in Hp. cbn in Hp.
    apply lookup_delete_Some in Hp as [_ Hp]. by apply H'.
Qed.

Lemma run_on_file cfg evs : is_2fa_enabled cfg = true -> all_on_file cfg evs (bot_run cfg evs).
Proof.
  intros Hon. induction evs as [|e evs IH] using rev_ind; [intros op p Hp; cbn in Hp; by rewrite lookup_empty in Hp|].
  unfold bot_run. rewrite foldl_app. by apply step_on_file.
Qed.

(** C5. With two-factor on, whatever the messages, a change of the allowlist, an
    unblock or a change of mode happens only on a six-digit message that
    verifies against the configured secret, and is the action that the same
    operator asked for at most five minutes before; nothing is left pending, so
    it is done once. *)
Theorem privileged_only_verified (cfg : BotConfig) (before : list (Z * BotEvent)) (now : Z) (e : BotEvent) :
  is_2fa_enabled cfg = true -> ~ quiet (bot_effects cfg before (now, e)) ->
  exists current io r s provider t current' io' r' a,
    e = Message current io r /\ totp_secret cfg = Some s /\ TotpProvider_new s = Some provider /\
    six_digits (code_text r) = true /\ verify provider (code_text r) (unix_seconds now) = Some true /\
    (t, Message current' io' r') ∈ before /\ operator_name r' = operator_name r /\ asked cfg r' = Some a /\
    now <= t + five_minutes /\
    pending (two_factor_state (bot_run cfg (before ++ [(now, e)]))) !! operator_name r = None /\
    bot_effects cfg before (now, e) =
      (execute_verified_action (with_2fa (bot_run cfg before) (taken (bot_run cfg before) (operator_name r))) io a (operator_name r)).2.
Proof.
  intros Hon Hq. unfold bot_run at 1. rewrite foldl_app. fold (bot_run cfg before). cbn [foldl].
  unfold bot_effects, bot_step in *. destruct e as [current io r|]; cbn [fst snd] in *; [|by destruct Hq; constructor].
  pose proof (run_on_file cfg before Hon) as Hf. set (b := bot_run cfg before) in *.
  destruct (process_outcome cfg b current io r now Hon) as [b' out _ [Hb _]|out _ Hb|out _ Hb _|q out _ Hb _ _|q s pr b' out _ Hp Hx Hs Hpr H6 Hv Ex].
  1-4: by destruct Hq.
  destruct (Hf _ _ Hp) as (current' & io' & r' & Hin & Hop & Ha & He).
  exists current, io, r, s, pr, (created_at q), current', io', r', (action_type q).
  split_and!; [done..|lia| |by rewrite Ex].
  apply (f_equal fst) in Ex. cbn [fst] in Ex. subst b'. rewrite execute_state. apply lookup_delete_eq.
Qed.

(** ** Guessing is bounded *)

Definition window (t : Z) (l : list Z) : list Z := retain (fun x => (t - one_hour <? x) && (x <=? t)) l.

Record guard_ok (cfg : BotConfig) (now : Z) (b : Bot) (fails : string -> list Z) : Prop := {
  g_max : max_failures_per_hour (two_factor_state b) = 3;
  g_same op : recent now (default [] (failed_attempts (two_factor_state b) !! op)) = recent now (fails op);
  g_pending op p : pending (two_factor_state b) !! op = Some p -> (length (recent now (fails op)) < 3)%nat;
  g_past op : Forall (fun t => t <= now) (fails op);
  g_window op t : (length (window t (fails op)) <= 3)%nat;
}.

Lemma recent_recent now now' l : now <= now' -> recent now' (recent now l) = recent now' l.
Proof.
  intros H. apply retain_retain. intros x Hx. bool_to_prop. apply Z.ltb_lt. lia.
Qed.

Lemma recent_length now now' l : now <= now' -> (length (recent now' l) <= length (recent now l))%nat.
Proof. intros H. rewrite <- (recent_recent now now' l H). apply retain_length. Qed.

Lemma locked_recent b op now : max_failures_per_hour (two_factor_state b) = 3 ->
  is_locked_out (two_factor_state b) op now =
  (3 <=? Z.of_nat (length (recent now (default [] (failed_attempts (two_factor_state b) !! op))))).
Proof. intros H. unfold is_locked_out. rewrite H. by destruct (failed_attempts _ !! op). Qed.

(** Time passes. *)
Lemma guard_later cfg now now' b fails : now <= now' -> guard_ok cfg now b fails -> guard_ok cfg now' b fails.
Proof.
  intros Hn [Hm Hs Hp Ha Hw]. split; [done| | | |done].
  - intros op. rewrite <- (recent_recent now now' (default [] _)), Hs by done. by apply recent_recent.
  - intros op p H. eapply Nat.le_lt_trans; [by apply recent_length|]. by eapply Hp.
  - intros op. eapply Forall_impl; [apply Ha|]. cbn. lia.
Qed.

(** A step with no failure, after which every pending action was pending before
    or its operator is not locked out. *)
Lemma guard_no_failure cfg now b b' fails : guard_ok cfg now b fails ->
  failed_attempts (two_factor_state b') = failed_attempts (two_factor_state b) ->
  max_failures_per_hour (two_factor_state b') = max_failures_per_hour (two_factor_state b) ->
  (forall op p, pending (two_factor_state b') !! op = Some p ->
     is_Some (pending (two_factor_state b) !! op) \/ is_locked_out (two_factor_state b) op now = false) ->
  guard_ok cfg now b' fails.
Proof.
  intros [Hm Hs Hp Ha Hw] Ef Em H. split; [by rewrite Em|by rewrite Ef| |done|done].
  intros op p Hop. destruct (H op p Hop) as [[q Hq]|Hl]; [by eapply Hp|].
  rewrite locked_recent, Hs in Hl by done. bool_to_prop. lia.
Qed.

Lemma recent_snoc now l : recent now (l ++ [now]) = recent now l ++ [now].
Proof.
  unfold recent, retain. rewrite List.filter_app. cbn. destruct (Z.ltb_spec (now - one_hour) now); [done|].
  unfold one_hour, seconds, NANOS_PER_SEC in *. lia.
Qed.

Lemma window_recent now t l : now <= t -> (length (window t l) <= length (recent now l))%nat.
Proof.
  intros H. unfold window, recent, retain. induction l as [|x l IH]; cbn [List.filter length]; [done|].
  destruct (Z.ltb_spec (t - one_hour) x), (x <=? t), (Z.ltb_spec (now - one_hour) x); cbn [andb length]; lia.
Qed.

Lemma window_old now t l : t < now -> window t (l ++ [now]) = window t l.
Proof.
  intros H. unfold window, retain. rewrite List.filter_app. cbn.
  rewrite (proj2 (Z.leb_gt now t)), andb_false_r by done. apply app_nil_r.
Qed.

(** A step that records a failure of [op]. *)
Lemma guard_failure cfg now b b' fails op : guard_ok cfg now b fails ->
  is_Some (pending (two_factor_state b) !! op) ->
  failed_attempts (two_factor_state b') = failed_attempts (record_failure (two_factor_state b) op now) ->
  max_failures_per_hour (two_factor_state b') = max_failures_per_hour (two_factor_state b) ->
  (forall op' p, pending (two_factor_state b') !! op' = Some p ->
     is_Some (pending (two_factor_state b) !! op') /\
     (op' = op -> is_locked_out (record_failure (two_factor_state b) op now) op now = false)) ->
  guard_ok cfg now b' (fun o => fails o ++ (if String.eqb op o then [now] else [])).
Proof.
  intros [Hm Hs Hp Ha Hw] [q Hq] Ef Em H.
  assert (forall o, recent now (default [] (failed_attempts (two_factor_state b') !! o))
    = recent now (fails o ++ (if String.eqb op o then [now] else []))) as Hs'.
  { intros o. rewrite Ef. cbn. destruct (String.eqb_spec op o) as [<-|Hne].
    - rewrite lookup_insert_eq. cbn [default from_option Datatypes.id]. rewrite recent_recent by lia. by rewrite !recent_snoc, Hs.
    - rewrite lookup_insert_ne by done. by rewrite app_nil_r. }
  assert (length (recent now (fails op)) < 3)%nat as Hlt by by eapply Hp.
  split; [by rewrite Em|exact Hs'| | |].
  - intros o p Ho. destruct (H o p Ho) as [[p' Hp'] Hl]. destruct (String.eqb_spec op o) as [<-|Hne].
    + specialize (Hl eq_refl). unfold is_locked_out in Hl. cbn in Hl. rewrite lookup_insert_eq, Hm in Hl.
      rewrite recent_recent, !recent_snoc, Hs in Hl by lia. rewrite recent_snoc. bool_to_prop. lia.
    + rewrite app_nil_r. by eapply Hp.
  - intros o. apply Forall_app. split; [apply Ha|]. destruct (String.eqb op o); repeat constructor. lia.
  - intros o t. destruct (String.eqb_spec op o) as [<-|Hne]; [|by rewrite app_nil_r].
    destruct (Z.lt_ge_cases t now); [by rewrite window_old|].
    etransitivity; [by apply (window_recent now)|]. rewrite recent_snoc, length_app. cbn. lia.
Qed.

Lemma wrong_code_pending cfg b r now : wrong_code cfg b r now = true ->
  is_Some (pending (two_factor_state b) !! operator_name r).
Proof.
  unfold wrong_code. intros [_ H]%andb_true_iff. by destruct (pending (two_factor_state b) !! operator_name r).
Qed.

Lemma guard_ext cfg now b f g : (forall op, f op = g op) -> guard_ok cfg now b f -> guard_ok cfg now b g.
Proof. intros E [H1 H2 H3 H4 H5]. split; [done|..]; intros op; rewrite <- E; eauto. Qed.

Lemma cleanup_recent st now op :
  recent now (default [] (failed_attempts (cleanup_expired st now) !! op)) = recent now (default [] (failed_attempts st !! op)).
Proof.
  cbn [cleanup_expired failed_attempts]. destruct (failed_attempts st !! op) as [l|] eqn:El.
  - destruct (decide (recent now l = [])) as [He|Hne].
    + rewrite (proj2 (map_lookup_filter_None _ _ op)); [symmetry; exact He|].
      right. intros x. rewrite lookup_fmap, El. cbn. intros [= <-]. by intros [].
    + rewrite (proj2 (map_lookup_filter_Some _ _ op (recent now l))); [by apply recent_recent|].
      by rewrite lookup_fmap, El.
  - rewrite (proj2 (map_lookup_filter_None _ _ op)); [done|]. left. by rewrite lookup_fmap, El.
Qed.

Lemma step_guard cfg now b fails e : is_2fa_enabled cfg = true -> now <= e.1 -> guard_ok cfg now b fails ->
  guard_ok cfg e.1 (bot_step cfg b e).1 (fun op => fails op ++ event_failure cfg b op e).
Proof.
  intros Hon Hn H%(guard_later _ _ _ _ _ Hn). clear Hn now. destruct e as [now [current io r|]]; unfold bot_step, event_failure; cbn [fst snd] in *.
  2: { apply (guard_ext cfg now _ fails); [intros; by rewrite app_nil_r|]. destruct H as [Hm Hs Hp Ha Hw]. split; [done| | |done|done].
    - intros op. rewrite <- Hs. apply cleanup_recent.
    - intros op p Ho. cbn in Ho. apply map_lookup_filter_Some in Ho as [Ho _]. by eapply Hp. }
  assert (wrong_code cfg b r now = false -> forall b', guard_ok cfg now b' fails -> guard_ok cfg now b' (fun op => fails op ++
    (if wrong_code cfg b r now && String.eqb (operator_name r) op then [now] else []))) as Hno.
  { intros ->. cbn. intros b'. apply guard_ext. intros. by rewrite app_nil_r. }
  destruct (process_outcome cfg b current io r now Hon) as [b' out Hw [_ Hb]|out Hw _|out Hw _ Hl|q out Hw _ Hq Hl|q s pr b' out Hw Hq _ _ _ _ _ Ex].
  - apply (Hno Hw). cbn [fst] in Hb. destruct Hb as [-> | (a & _ & Hl & ->)]; [done|].
    apply (guard_no_failure cfg now b); [done..|]. intros op p Hp. cbn in Hp.
    apply lookup_insert_Some in Hp as [[<- _]|[_ Hp]]; [by right|left; by eexists].
  - apply (Hno Hw), (guard_no_failure cfg now b); [done..|]. intros op p Hp. cbn in Hp.
    apply lookup_delete_Some in Hp as [_ Hp]. left. by eexists.
  - rewrite Hw. cbn [andb]. apply (guard_failure cfg now b); [done|by eapply wrong_code_pending|done|done|].
    intros op p Hp. cbn in Hp. apply lookup_delete_Some in Hp as [Hne Hp]. split; [by eexists|by intros ->].
  - rewrite Hw. cbn [andb]. apply (guard_failure cfg now b); [done|by eapply wrong_code_pending|done|done|].
    intros op p Hp. cbn in Hp. apply lookup_insert_Some in Hp as [[<- _]|[Hne Hp]]; [split; [by eexists|done]|].
    apply lookup_delete_Some in Hp as [_ Hp]. split; [by eexists|by intros ->].
  - apply (Hno Hw), (guard_no_failure cfg now b); [done|..].
    all: apply (f_equal fst) in Ex; cbn in Ex; subst b'; rewrite execute_state; try done.
    intros op p Hp. cbn in Hp. apply lookup_delete_Some in Hp as [_ Hp]. left. by eexists.
Qed.

Lemma failures_from_snoc cfg op e evs : forall b,
  failures_from cfg b op (evs ++ [e]) =
  failures_from cfg b op evs ++ event_failure cfg (foldl (fun b e => (bot_step cfg b e).1) b evs) op e.
Proof.
  induction evs as [|x evs IH]; intros b; cbn [app failures_from foldl]; [by rewrite app_nil_r|].
  by rewrite IH, app_assoc.
Qed.

Lemma run_guard cfg evs : is_2fa_enabled cfg = true -> StronglySorted Z.le (evs.*1) ->
  forall t0, Forall (fun t => t0 <= t) evs.*1 ->
  guard_ok cfg (default t0 (last evs.*1)) (bot_run cfg evs) (fun op => failures_from cfg Bot_new op evs).
Proof.
  intros Hon. induction evs as [|e evs IH] using rev_ind; intros Hs t0 Ht.
  - split; [done| |intros op p Hp; cbn in Hp; by rewrite lookup_empty in Hp|by constructor|cbn; lia].
    intros op. cbn. by rewrite lookup_empty.
  - rewrite fmap_app in *. cbn [fmap list_fmap] in *. rewrite last_snoc. cbn [default from_option Datatypes.id].
    apply Forall_app in Ht as [Ht [Ht' _]%Forall_cons].
    assert (StronglySorted Z.le evs.*1) as Hs1 by by apply StronglySorted_app_1_l in Hs.
    eapply guard_ext; [intros op; symmetry; apply failures_from_snoc|]. unfold bot_run. rewrite foldl_app.
    apply (step_guard cfg (default t0 (last evs.*1))); [done| |by apply IH].
    destruct (last evs.*1) as [t|] eqn:El; cbn; [|done].
    eapply StronglySorted_app_1_elem_of; [exact Hs|by apply last_Some_elem_of|by left].
Qed.

(** C24. With two-factor on and a clock that does not go back, no operator
    enters more than three wrong codes in any hour, whatever the messages. *)
Theorem guesses_bounded (cfg : BotConfig) (evs : list (Z * BotEvent)) (op : string) (t : Z) :
  is_2fa_enabled cfg = true -> StronglySorted Z.le (evs.*1) ->
  (length (window t (failures_from cfg Bot_new op evs)) <= 3)%nat.
Proof.
  intros Hon Hs. destruct evs as [|[t0 e] evs]; [cbn; lia|].
  assert (Forall (fun t => t0 <= t) ((t0, e) :: evs).*1) as H0.
  { cbn in *. constructor; [lia|]. by apply StronglySorted_inv in Hs as [_ Hs]. }
  apply (run_guard cfg _ Hon Hs t0 H0).
Qed.

(** ** A typed code never arrives *)

(** Trimming keeps the first character of a text that starts with a visible
    one. *)
Lemma strip_ws_rev_keeps a s t : visible a = true ->
  strip_ws_rev (s +:+ String a "") = Some t -> exists s', t = s' +:+ String a "".
Proof.
  intros Ha. destruct s as [|c [|b [|x s]]].
  - by rewrite (strip_ws_rev_visible a "" Ha : strip_ws_rev ("" +:+ String a "") = None).
  - change (String c "" +:+ String a "") with (String c (String a "")). unfold strip_ws_rev.
    destruct (ascii_ws (code c)); [intros [= <-]; by exists ""|]. destruct (_ && _) eqn:E; [|done].
    unfold visible, in_range in Ha. bool_to_prop. lia.
  - change (String c (String b "") +:+ String a "") with (String c (String b (String a ""))). unfold strip_ws_rev.
    destruct (ascii_ws (code c)); [intros [= <-]; by exists (String b "")|].
    destruct (_ && _); [intros [= <-]; by exists ""|]. by rewrite strip_ws_visible.
  - change (String c (String b (String x s)) +:+ String a "") with (String c (String b (String x (s +:+ String a "")))).
    unfold strip_ws_rev. destruct (ascii_ws (code c)); [intros [= <-]; by exists (String b (String x s))|].
    destruct (_ && _); [intros [= <-]; by exists (String x s)|].
    destruct (strip_ws _) as [[|??]|]; [intros [= <-]; by exists s|done..].
Qed.

Lemma trim_head a r : visible a = true -> exists r', trim (String a r) = String a r'.
Proof.
  intros Ha. unfold trim. assert (trim_start (String a r) = String a r) as ->.
  { unfold trim_start. cbn [String.length iter_strip]. by rewrite strip_ws_visible. }
  unfold trim_end. rewrite rev_string_cons. generalize (String.length (String a r)), (rev_string r).
  induction n as [|n IH]; intros s; cbn [iter_strip].
  - rewrite rev_string_snoc. by eexists.
  - destruct (strip_ws_rev (s +:+ String a "")) as [t|] eqn:E; [|rewrite rev_string_snoc; by eexists].
    destruct (strip_ws_rev_keeps a s t Ha E) as [s' ->]. apply IH.
Qed.

Definition underscored (s : string) : Prop := exists r, s = String "_" r.

Lemma find_simple_underscored text l id : Forall (fun p => underscored p.2) l -> find_simple text l = Some id -> underscored id.
Proof.
  intros Hl. unfold find_simple. destruct (List.find _ l) as [p|] eqn:E; [|done]. intros [= <-].
  apply List.find_some in E as [Hin%list_elem_of_In _]. by apply (proj1 (Forall_forall _ _) Hl p).
Qed.

Lemma route_underscored text : underscored (route_text text).
Proof.
  unfold route_text. repeat case_match; subst;
    try (by eexists); eapply find_simple_underscored; try eassumption; repeat (constructor; [by eexists|]); constructor.
Qed.

Lemma underscored_no_code s : underscored s -> six_digits (trim s) = false /\ trim s <> "/cancel".
Proof.
  intros [r ->]. destruct (trim_head "_" r eq_refl) as [r' ->]. split; [|discriminate].
  unfold six_digits. cbn [all_chars]. change (in_range 48 57 "_") with false. apply andb_false_r.
Qed.

(** A message typed into the chat, or a button whose data is not six digits,
    as the bot's are not. *)
Definition from_chat (e : BotEvent) : Prop :=
  match e with
  | Message _ _ r => (exists text op, r = typed_result text op) \/ six_digits (code_text r) = false
  | Cleanup => True
  end.

(** A typed code is never verified.  The polling loop sends every text that
    is no command on as a question to the AI, [__ask__:] and the text, and the
    code handler wants the six digits alone; so with two-factor on, no sequence
    of typed messages and buttons makes any privileged effect.  Nor does a typed
    [/cancel] cancel. *)
Theorem typed_code_never_counts (cfg : BotConfig) (before : list (Z * BotEvent)) (now : Z) (e : BotEvent) :
  is_2fa_enabled cfg = true -> from_chat e ->
  quiet (bot_effects cfg before (now, e)) /\
  (forall text op, six_digits (code_text (typed_result text op)) = false /\ code_text (typed_result text op) <> "/cancel").
Proof.
  intros Hon He. assert (forall text op, six_digits (code_text (typed_result text op)) = false /\ code_text (typed_result text op) <> "/cancel") as Ht
    by (intros; apply underscored_no_code, route_underscored).
  split; [|done]. unfold bot_effects, bot_step. destruct e as [current io r|]; cbn [fst snd]; [|by constructor].
  assert (six_digits (code_text r) = false) as H6 by (destruct He as [(text & op & ->)|?]; [apply Ht|done]).
  destruct (process_outcome cfg (bot_run cfg before) current io r now Hon) as [b' out _ [Hb _]|out _ Hb|out _ Hb _|q out _ Hb _ _|q s pr b' out _ Hp Hx Hs Hpr H6' Hv Ex];
    try exact Hb. congruence.
Qed.

(** ** Witnesses, and what the code does not intend *)

Definition demo_cfg (method : string) : BotConfig :=
  {| security := Some {| two_factor_method := method; cfg_totp_secret := "GEZDGNBVGY3TQOJQGEZDGNBVGY3TQOJQ" |};
     env_secret := None; bot_enabled := true |}.
Definition demo_io : Io :=
  {| append_answer _ _ _ := Ok tt; remove_answer _ _ := Ok tt; append_chained_answer _ := Ok tt; fmt_now := "T" |}.
Definition demo_result (id : string) : ApprovalResult :=
  {| ap_incident_id := id; approved := true; always := false; operator_name := "ana"; chosen_action := "" |}.
Definition demo_event (t : Z) (id : string) : Z * BotEvent := (seconds t, Message "" demo_io (demo_result id)).

Lemma privileged_only_verified_witness :
  let before := [demo_event 50 "__allow_ip__:203.0.113.7"] in
  let e := demo_event 59 "287082" in
  exists current io r s provider t current' io' r' a,
    e.2 = Message current io r /\ totp_secret (demo_cfg "totp") = Some s /\ TotpProvider_new s = Some provider /\
    six_digits (code_text r) = true /\ verify provider (code_text r) (unix_seconds e.1) = Some true /\
    (t, Message current' io' r') ∈ before /\ operator_name r' = operator_name r /\ asked (demo_cfg "totp") r' = Some a /\
    e.1 <= t + five_minutes /\
    pending (two_factor_state (bot_run (demo_cfg "totp") (before ++ [e]))) !! operator_name r = None /\
    bot_effects (demo_cfg "totp") before e =
      (execute_verified_action (with_2fa (bot_run (demo_cfg "totp") before)
        (taken (bot_run (demo_cfg "totp") before) (operator_name r))) io a (operator_name r)).2.
Proof.
  apply (privileged_only_verified (demo_cfg "totp") [demo_event 50 "__allow_ip__:203.0.113.7"] (seconds 59)
    (Message "" demo_io (demo_result "287082"))); [reflexivity|].
  intros H. unfold quiet in H. vm_compute in H. apply Forall_cons in H as [H _]. discriminate H.
Defined.

Definition demo_guesses : list (Z * BotEvent) :=
  [demo_event 50 "__allow_ip__:203.0.113.7"; demo_event 51 "000001"; demo_event 52 "000002"; demo_event 53 "000003";
   demo_event 54 "000004"; demo_event 55 "__allow_ip__:203.0.113.7"; demo_event 56 "000005"].

Lemma guesses_bounded_witness :
  (length (window (seconds 60) (failures_from (demo_cfg "totp") Bot_new "ana" demo_guesses)) <= 3)%nat.
Proof.
  apply (guesses_bounded (demo_cfg "totp") demo_guesses "ana" (seconds 60)); [reflexivity|].
  cbn. repeat constructor; unfold seconds, NANOS_PER_SEC; lia.
Defined.

(** The bound is reached: of the five wrong codes above, three are counted,
    and the others find nothing pending. *)
Example guesses_reach_three :
  length (failures_from (demo_cfg "totp") Bot_new "ana" demo_guesses) = 3%nat.
Proof. vm_compute. reflexivity. Qed.

Lemma typed_code_never_counts_witness :
  quiet (bot_effects (demo_cfg "totp") [demo_event 50 "__allow_ip__:203.0.113.7"]
           (seconds 59, Message "" demo_io (typed_result "287082" "ana"))) /\
  (forall text op, six_digits (code_text (typed_result text op)) = false /\ code_text (typed_result text op) <> "/cancel").
Proof.
  apply (typed_code_never_counts (demo_cfg "totp") [demo_event 50 "__allow_ip__:203.0.113.7"] (seconds 59)
    (Message "" demo_io (typed_result "287082" "ana"))); [reflexivity|].
  left. exists "287082", "ana". reflexivity.
Defined.

(** The code that is right at that time becomes a question. *)
Example typed_code_is_a_question : ap_incident_id (typed_result " 287082 " "ana") = "__ask__:287082".
Proof. reflexivity. Qed.

(** A code that has been used is good again while its half-minutes last: it
    verifies a second action. *)
Theorem code_replayed :
  let evs := [demo_event 50 "__allow_ip__:203.0.113.7"; demo_event 55 "287082"; demo_event 57 "__unblock__:203.0.113.9"] in
  ~ quiet (bot_effects (demo_cfg "totp") (take 1 evs) (demo_event 55 "287082")) /\
  ~ quiet (bot_effects (demo_cfg "totp") evs (demo_event 59 "287082")).
Proof.
  split; intros H; unfold quiet in H; vm_compute in H; apply Forall_cons in H as [H _]; discriminate H.
Qed.

(** The method is compared as it is written, although [from_str] ignores case:
    [TOTP] in the configuration turns the gate off. *)
Theorem method_case_disables `{LowercaseLaws} (b : Bot) (op : string) (a : PendingActionType) (now : Z) :
  TwoFactorMethod_from_str "TOTP" = Totp /\ check_2fa_gate b (demo_cfg "TOTP") op a now = (b, [], false).
Proof.
  split; [|reflexivity]. unfold TwoFactorMethod_from_str. rewrite to_lowercase_ascii by reflexivity. reflexivity.
Qed.

(** With any other method than totp and none, the addition is made at once and
    the reply says it was verified. *)
Theorem unverified_claimed_verified :
  bot_effects (demo_cfg "dashboard") [] (demo_event 50 "__allow_ip__:203.0.113.7") =
    [AllowlistAdd "ips" "203.0.113.7" "Allowed via Telegram (T)"; HistoryEntry "203.0.113.7" "ips" "ana" "add";
     Audit "__allow_ip__:203.0.113.7" "ana" "allowlist_add" (Some "203.0.113.7") None
       "Operator ana added IP '203.0.113.7' to allowlist via Telegram" "allowlist_ip_added:203.0.113.7";
     Reply "✅ Allowed <code>203.0.113.7</code> (verified by TOTP). Sensor will pick this up in up to 60s."].
Proof. vm_compute. reflexivity. Qed.

(** With two-factor off, the audit of an unblock says it was verified. *)
Theorem unblock_audit_claims_2fa :
  Audit "operator_unblock:203.0.113.9" "ana" "unblock_request" (Some "203.0.113.9") None
    "Operator ana queued unblock for 203.0.113.9 (2FA verified)" "unblock_request:203.0.113.9"
  ∈ bot_effects (demo_cfg "none") [] (demo_event 50 "__unblock__:203.0.113.9").
Proof. vm_compute. right. left. Qed.

(** A missing or unusable secret never lets an action through: the pending
    action is dropped. *)
Theorem no_secret_fails_closed (cfg : BotConfig) (b : Bot) (io : Io) (r : ApprovalResult) (now : Z) (p : PendingAction) :
  six_digits (code_text r) = true -> pending (two_factor_state b) !! operator_name r = Some p ->
  (totp_secret cfg ≫= TotpProvider_new) = None ->
  let '(b', out, handled) := handle_totp_response b cfg io r now in
  handled = true /\ quiet out /\ pending (two_factor_state b') !! operator_name r = None /\
  pending_mode_change b' = pending_mode_change b.
Proof.
  intros H6 Hp Hs. unfold handle_totp_response, take_pending. fold (code_text r).
  rewrite (proj2 (String.eqb_neq (code_text r) "/cancel")), H6, Hp by (intros E; rewrite E in H6; discriminate H6). cbn [negb].
  assert (forall x, quiet [Reply x]) as Hq by (intros x; by repeat constructor).
  destruct (expires_at p <? now); [by split_and!; [| |apply lookup_delete_eq|]|].
  destruct (totp_secret cfg) as [s|]; cbn [mbind option_bind] in Hs; [rewrite Hs|];
    by split_and!; [| |apply lookup_delete_eq|].
Qed.
