(* ===== verification/AgentAllowFile.v ===== *)
(** * AgentAllowFile: the operator's allowlist file and its history
    (crates/agent/src/telegram/commands.rs)

    The two doors of AgentTwoFactor.v to allowlist.toml, on the text of the
    file, and the history that the undo menu reads.  Reading and printing TOML
    and JSON are the crates' ([TomlCrate], [parse_json]); [None] for the text is
    a file that cannot be read. *)

From Stdlib Require Import ZArith Lia Ascii String.
From stdpp Require Import prelude strings gmap list.
From S2P Require Import Prelude Text Json AgentTwoFactor.

Local Open Scope string_scope.
Local Open Scope list_scope.

(** ** Adding an entry *)

Inductive Toml := TomlString (s : string) | TomlTable (t : list (string * Toml)) | TomlOther (printed : string).

Class TomlCrate := {
  toml_parse : string -> option (list (string * Toml));
  toml_print : list (string * Toml) -> option string;
}.
(** What is printed reads back. *)
Class TomlLaws `{TomlCrate} := {
  toml_parse_print t s : toml_print t = Some s -> toml_parse s = Some t;
}.

Definition one_line (s : string) : string := replace_char nl " " s.

(** The new text of the file. *)
Definition append_to_allowlist `{TomlCrate} (content : option string) (section key reason : string) : result string string :=
  match content with
  | None => Err "read allowlist"
  | Some content =>
      match (if String.eqb (trim content) "" then Some [] else toml_parse content) with
      | None => Err "parse allowlist"
      | Some root =>
          match default (TomlTable []) (assoc section root) with
          | TomlTable table =>
              let table := assoc_set (one_line key) (TomlString (one_line reason)) table in
              match toml_print (assoc_set section (TomlTable table) root) with
              | Some output => Ok output
              | None => Err "serialize allowlist"
              end
          | _ => Err ("allowlist section " +:+ quoted section +:+ " is not a TOML table")
          end
      end
  end.

(** ** Removing an entry, line by line *)

Definition header_of (trimmed : string) : option string :=
  match strip_prefix "[" trimmed with
  | Some rest =>
      match rev_string rest with
      | String c r => if Ascii.eqb c "]" then Some (rev_string r) else None
      | EmptyString => None
      end
  | None => None
  end.

Definition escaped_key (key : string) : string :=
  replace_char (ascii_of_nat 34) (String "\" quote) (replace_char "\" "\\" (one_line key)).

Definition key_matches (key trimmed : string) : bool :=
  match split_once "=" trimmed with
  | Some (lhs, _) =>
      let lhs := trim lhs in
      String.eqb lhs (one_line key) || String.eqb lhs (quoted (escaped_key key)) || String.eqb lhs (quoted (one_line key))
  | None => false
  end.

Fixpoint remove_lines (in_target_section : bool) (section key : string) (ls : list string) : list string :=
  match ls with
  | [] => []
  | line :: rest =>
      let trimmed := trim line in
      match header_of trimmed with
      | Some sec => line :: remove_lines (String.eqb sec section) section key rest
      | None =>
          if in_target_section && key_matches key trimmed then remove_lines in_target_section section key rest
          else line :: remove_lines in_target_section section key rest
      end
  end.

(** The text that replaces the file; it is written whatever was read. *)
Definition remove_from_allowlist (content : option string) (section key : string) : string :=
  join (String nl "") (remove_lines false section key (lines (default "" content))) +:+ String nl "".

(** ** The history and the undo menu *)

Section history.
Context (parse_json : string -> option Json).

Record UndoEntry := { u_key : string; u_section : string; u_operator : string; u_ts : string }.

#[global] Instance UndoEntry_eq_dec : EqDecision UndoEntry.
Proof. solve_decision. Defined.

Definition log_allowlist_change (ts key section operator action : string) : Json :=
  JObj [("ts", JStr ts); ("key", JStr key); ("section", JStr section); ("operator", JStr operator); ("action", JStr action)].

Definition str_field (v : Json) (k : string) : string := default "" (get_str v k).

Definition entry_of (v : Json) : UndoEntry :=
  {| u_key := str_field v "key"; u_section := str_field v "section"; u_operator := str_field v "operator"; u_ts := str_field v "ts" |}.

Record Undoable := { adds : list UndoEntry; removed_keys : gset (string * string) }.

Definition read_entry (acc : Undoable) (line : string) : Undoable :=
  match parse_json line with
  | None => acc
  | Some v =>
      let e := entry_of v in
      let action := str_field v "action" in
      if String.eqb action "add" then {| adds := adds acc ++ [e]; removed_keys := removed_keys acc |}
      else if String.eqb action "remove" then {| adds := adds acc; removed_keys := {[ (u_key e, u_section e) ]} ∪ removed_keys acc |}
      else acc
  end.

Definition read_undoable_allowlist_entries (content : option string) (max_entries : nat) : list UndoEntry :=
  match content with
  | None => []
  | Some content =>
      let u := foldl read_entry {| adds := []; removed_keys := ∅ |} (lines content) in
      take max_entries (retain (fun e => negb (bool_decide ((u_key e, u_section e) ∈ removed_keys u))) (reverse (adds u)))
  end.

(** The entries of a kind, in the order of the file. *)
Definition entries (action : string) (content : string) : list UndoEntry :=
  omap (fun line => v ← parse_json line; if String.eqb (str_field v "action") action then Some (entry_of v) else None) (lines content).

Lemma read_entries ls : forall acc,
  let u := foldl read_entry acc ls in
  adds u = adds acc ++ omap (fun line => v ← parse_json line; if String.eqb (str_field v "action") "add" then Some (entry_of v) else None) ls /\
  forall p, p ∈ removed_keys u <-> p ∈ removed_keys acc \/
    exists e, e ∈ omap (fun line => v ← parse_json line; if String.eqb (str_field v "action") "remove" then Some (entry_of v) else None) ls /\
      p = (u_key e, u_section e).
Proof.
  induction ls as [|l ls IH]; intros acc; cbn [foldl omap list_omap].
  - rewrite app_nil_r. split; [done|]. intros p. split; [by left|]. intros [H|(e & H & _)]; [done|by apply elem_of_nil in H].
  - destruct (IH (read_entry acc l)) as [Ha Hr]. cbn zeta in *. rewrite Ha.
    unfold read_entry in *. destruct (parse_json l) as [v|]; cbn [mbind option_bind]; [|done].
    destruct (String.eqb_spec (str_field v "action") "add") as [E|E].
    + rewrite E. cbn [String.eqb Ascii.eqb Bool.eqb adds removed_keys] in *. split; [by rewrite <- app_assoc|exact Hr].
    + destruct (String.eqb (str_field v "action") "remove"); cbn [adds removed_keys] in *; split; try done; try exact Hr.
      intros p. rewrite Hr, elem_of_union, elem_of_singleton. split.
      * intros [[->|H]|(e & H & ->)]; [right; exists (entry_of v); split; [by left|done]|by left|].
        right. exists e. split; [by right|done].
      * intros [H|(e & [->|H]%elem_of_cons & ->)]; [by left; right|by left; left|right; by exists e].
Qed.

(** The undo menu lists, newest first, the last [n] additions whose key and
    section no removal ever named. *)
Theorem undoable_exact (content : string) (n : nat) :
  read_undoable_allowlist_entries (Some content) n =
  take n (retain (fun e => negb (bool_decide ((u_key e, u_section e) ∈ (fun r => (u_key r, u_section r)) <$> entries "remove" content)))
           (reverse (entries "add" content))).
Proof.
  unfold read_undoable_allowlist_entries. destruct (read_entries (lines content) {| adds := []; removed_keys := ∅ |}) as [Ha Hr].
  cbn zeta in *. rewrite Ha. cbn [adds removed_keys app] in *. f_equal. unfold retain.
  apply List.filter_ext. intros e. f_equal. apply bool_decide_ext. rewrite Hr, list_elem_of_fmap. split.
  - intros [H|(r & H & E)]; [set_solver|by exists r].
  - intros (r & E & H). right. by exists r.
Qed.
End history.

(** ** Additions and removals do what they say *)

Definition table_of (v : option Toml) : list (string * Toml) :=
  match v with Some (TomlTable t) => t | _ => [] end.

(** A successful addition prints a file that reads back as the old one with
    the entry set in its section, and nothing else changed; an empty file counts
    as an empty table. *)
Theorem append_exact `{TomlLaws} (content section key reason output : string) :
  append_to_allowlist (Some content) section key reason = Ok output ->
  exists root root', toml_parse output = Some root' /\
    (if String.eqb (trim content) "" then root = [] else toml_parse content = Some root) /\
    assoc (one_line key) (table_of (assoc section root')) = Some (TomlString (one_line reason)) /\
    (forall k, one_line key <> k -> assoc k (table_of (assoc section root')) = assoc k (table_of (assoc section root))) /\
    (forall s, section <> s -> assoc s root' = assoc s root).
Proof.
  unfold append_to_allowlist. intros Ha.
  destruct (if String.eqb (trim content) "" then Some [] else toml_parse content) as [root|] eqn:Er; [|done].
  destruct (default (TomlTable []) (assoc section root)) as [| table |] eqn:Et; try done.
  destruct (toml_print _) as [out|] eqn:Ep; [|done]. injection Ha as ->.
  assert (table_of (assoc section root) = table) as <-.
  { destruct (assoc section root) as [v|]; cbn in Et; [by rewrite Et|by injection Et]. }
  exists root. eexists. split; [by apply toml_parse_print|]. rewrite assoc_set_same. cbn [table_of]. split_and!.
  - destruct (String.eqb (trim content) ""); [by injection Er|done].
  - apply assoc_set_same.
  - intros k Hk. by apply assoc_set_other.
  - intros s Hs. by apply assoc_set_other.
Qed.

(** The assignments of a key in a section of a text. *)
Fixpoint assignments (in_target_section : bool) (section key : string) (ls : list string) : list string :=
  match ls with
  | [] => []
  | line :: rest =>
      match header_of (trim line) with
      | Some sec => assignments (String.eqb sec section) section key rest
      | None => (if in_target_section && key_matches key (trim line) then [line] else [])
                ++ assignments in_target_section section key rest
      end
  end.

(** A removal takes out the assignments of the key in its section, and keeps
    every other line in its place. *)
Theorem remove_exact (section key : string) (ls : list string) :
  let kept := remove_lines false section key ls in
  assignments false section key kept = [] /\ kept `sublist_of` ls /\
  ls ≡ₚ kept ++ assignments false section key ls.
Proof.
  cbn zeta. generalize false. induction ls as [|l ls IH]; intros t; cbn [remove_lines assignments]; [done|].
  destruct (header_of (trim l)) as [sec|] eqn:Eh.
  - destruct (IH (String.eqb sec section)) as (H1 & H2 & H3). cbn [assignments]. rewrite Eh.
    split_and!; [done|by constructor|by rewrite H3 at 1].
  - destruct (IH t) as (H1 & H2 & H3). destruct (t && key_matches key (trim l)) eqn:Em.
    + split_and!; [done|by constructor|]. rewrite H3 at 1. cbn. apply Permutation_middle.
    + cbn [assignments]. rewrite Eh, Em, H1. split_and!; [done|by constructor|]. cbn. by rewrite H3 at 1.
Qed.

Definition demo_toml : list string := ["[ips]"; "203.0.113.7 = x"; "[processes]"; "nginx = y"].

Example remove_demo : remove_lines false "ips" "203.0.113.7" demo_toml = ["[ips]"; "[processes]"; "nginx = y"].
Proof. reflexivity. Qed.

(** A removal from a file that cannot be read as text empties it. *)
Theorem unreadable_file_emptied (section key : string) :
  remove_from_allowlist None section key = String nl "" /\
  forall `{TomlCrate} k r, append_to_allowlist None section k r = Err "read allowlist".
Proof. split; [reflexivity|]. intros. reflexivity. Qed.

(** A key that was removed once is never offered for undo again, although it
    has been added since. *)
Theorem readded_not_undoable :
  let parse_json line :=
    if String.eqb line "1" then Some (log_allowlist_change "t1" "203.0.113.7" "ips" "ana" "add")
    else if String.eqb line "2" then Some (log_allowlist_change "t2" "203.0.113.7" "ips" "ana" "remove")
    else if String.eqb line "3" then Some (log_allowlist_change "t3" "203.0.113.7" "ips" "ana" "add")
    else None in
  read_undoable_allowlist_entries parse_json (Some ("1" +:+ new_line +:+ "2" +:+ new_line +:+ "3")) 10 = [] /\
  length (read_undoable_allowlist_entries parse_json (Some ("1" +:+ new_line)) 10) = 1%nat.
Proof. vm_compute. done. Qed.
